(* ===== verification/_CoqProject ===== *)
-Q . S2P
Prelude.v
Firmware.v
CText.v
Hex.v
RingBuffer.v
AgentTaskRuntime.v
AgentTaskInvariant.v
AgentTaskProps.v
RelayProtocol.v
RelayProtocolProps.v
HidOwner.v
HidOwnerProps.v
Authorization.v
AuthorizationProps.v
OperationSlots.v
ResourceOperation.v
TerminalControl.v
SlotProps.v
ActionEvent.v
ActionEventProps.v
EchoRedact.v
EchoRedactProps.v
DiscoveryRateLimit.v
DiscoveryRateLimitProps.v
AgentVerifier.v
AgentVerifierProps.v
BootKeySequence.v
BootKeySequenceProps.v
StoragePath.v
StoragePathProps.v
NetworkConfig.v
NetworkConfigProps.v
AgentAutonomy.v
AgentAutonomyProps.v
HostDisplay.v
HostDisplayProps.v
HidManager.v
HidManagerInvariant.v
HidManagerProps.v
ControlLease.v
ControlLeaseProps.v
VideoFrameStore.v
VideoFrameStoreProps.v
AuthSession.v
AuthSessionInvariant.v
AuthSessionProps.v
AuthSessionReset.v
SettingsStore.v
SettingsStoreProps.v
TwoStep.v
TwoStepProps.v
TwoStepBudget.v
Credentials.v
CredentialsProps.v
NetworkSettings.v
NetworkSettingsProps.v
BootKeyManager.v
BootKeyManagerInvariant.v
BootKeyManagerProps.v
AgentRequest.v
AgentRequestInvariant.v
AgentRequestProps.v
HidAscii.v
ConsoleCredentials.v
ConsoleCredentialsProps.v
VersionUtils.v
VersionUtilsProps.v
Utf8.v
Utf8Props.v
AgentRouter.v
AgentRouterProps.v
ModelProvider.v
SshHostkey.v
SshHostkeyProps.v
SettingsSchema.v
SettingsSchemaProps.v
HostDisplayManager.v
HostDisplayManagerProps.v
