(* ===== verification/Prelude.v ===== *)
(** * ExoAnchor: a verification library for the firmware of the KVM device

    ExoAnchor is a KVM that agents and people drive over the network: it captures
    the screen of a target computer, sends it keyboard and mouse reports, and holds
    the logins, leases and safety decisions around that.  The library models the
    decision-making C code of the current firmware line,
    [src/device/ESP32P4/firmware/v0.86.6-dev/main/] (the paths below are relative
    to it), and proves what makes it correct.

    ** The parts and how they interact

    The [core/] modules are pure C: functions on structures passed by pointer.  The
    [application/] services and the [drivers/] keep static variables behind mutexes.
    The chain that the safety of the device hangs on is modelled end to end:
    a login ([AuthSession], [Credentials], [TwoStep]) opens a session; a session may
    hold the control lease ([ControlLease]); the lease decides who owns the reports
    ([HidOwner]); and the driver sends reports only for that owner and leaves the
    target neutral when it changes ([HidManager]).  A logout, a change of the
    password or of the second factor runs down the same chain, through the calls
    that the code makes; records that outlive a restart go through [SettingsStore].

    ** Files

    Shared: [Prelude] (machine integers, bounded C strings, enumerations, tactics,
    the hint base [c_bounds]), [CText] and [Hex] (text), [RingBuffer] (circular
    arrays), [Firmware] (error codes, a state monad, its weakest preconditions
    [wp], relations that calls respect [moves], the hint base [firmware]).

    Each part is a file of definitions, after its C file, and a file [...Props] of
    theorems (and [...Invariant] where the invariant is long):
    - [AgentTaskRuntime]: [core/agent_task_runtime.c], turns, plans and the queue;
    - [RelayProtocol]: [core/relay_protocol.c], the EXAR/1 framing;
    - [HidOwner]: [core/hid_owner.c] and [core/hid_abort_fence.c];
    - [Authorization]: [core/authorization.c] and [core/agent_execution_guard.c];
    - [OperationSlots]: the class [SlotTable] that [ResourceOperation]
      ([core/resource_operation_state.c]) and [TerminalControl]
      ([core/terminal_control_state.c]) discharge in [SlotProps];
    - [ActionEvent], [EchoRedact], [DiscoveryRateLimit], [AgentVerifier],
      [BootKeySequence], [StoragePath], [AgentAutonomy], [HostDisplay]: the file of
      the same name in [core/] ([HostDisplay] is [host_display_mode.c]);
    - [NetworkConfig]: [core/network_config.c] and [core/product_identity.c];
    - [HidManager]: [drivers/hid_device.c]; [VideoFrameStore]:
      [drivers/video_frame_store.c];
    - [ControlLease]: [application/control_lease.c], on top of [HidManager];
    - [AuthSession] and [Credentials]: [application/auth_service.c], the sessions
      (on top of [ControlLease]) and the account (on top of both and of the flash);
    - [SettingsStore]: [infrastructure/settings_store.c], [secret_store.c] and
      [flash_access.c]; [TwoStep]: [application/two_step.c]; [NetworkSettings]:
      [application/network_settings.c], which validates with [NetworkConfig];
    - [BootKeyManager]: [application/boot_key_manager.c], on top of [BootKeySequence],
      [ControlLease] and [HidManager];
    - [AgentRequest]: [application/agent_request_broker.c], what an agent asks for and
      who allowed it, with its snapshots over restarts;
    - [HidAscii]: [core/hid_ascii.c]; [ConsoleCredentials]:
      [application/console_credentials.c], which validates with it and stores through
      [SettingsStore];
    - [VersionUtils], [Utf8], [AgentRouter], [ModelProvider]: [core/version_utils.c],
      [utf8_utils.c], [agent_router.c] and [model_provider.c];
    - [SshHostkey]: [services/ssh_hostkey_store.c]; [SettingsSchema]:
      [infrastructure/settings_schema.c], both on top of [SettingsStore];
      [HostDisplayManager]: [application/host_display_manager.c], which validates with
      [HostDisplay].

    A state is a record with the names of the C fields, an operation a function with
    the name of the C function; guards, early returns and the order of writes are
    those of the code.  A pure function returns its result with the changed
    structure; a function of a module with statics is a computation in [st].

    ** What the theorems show

    - Agent: every reachable runtime is well formed, a refused call changes nothing,
      a completed turn is verified step by step, the queue refines a FIFO list of 8;
      the guard lets exactly fresh, authorised intents through; a command classed as
      read or operate has no irreversible word where a command can stand; the event
      buffer refines the log of the last 64 events.  An effect that the broker lets
      begin goes back to an approval of exactly that act by somebody who may approve
      it, and happens once for its key, as long as its run is not retired and a restart
      imports a later snapshot; a request that is not retired runs its state machine on
      the terms it was filed with; and a snapshot brings every request back, but no
      grant.  Nothing calls the export and the import yet, so that a restart of the
      device forgets all requests.
    - Relay: the header codec is a bijection; the streaming decoder does not depend on
      how the bytes are split; it delivers exactly the valid frames.
    - Target input: a revoked token never works again; concurrent fence advances are
      linearizable; whatever the host holds pressed is owned and will be released, and a
      transition hands over a neutral host (both as long as no USB attachment arrives
      while a command runs); a revoked command sends at most the report that was past
      its last check; a live lease is exclusive, no operation on the lease overlooks a
      revocation (the read-only views can, while it waits in the journal), and the
      owner of the reports follows the lease.  Boot keys are pressed only as a session
      approved them, no more often than the plan says (up to counts that the code
      itself loses), a cancellation stops them, and the task always ends and lets go of
      the keyboard.
    - Access: a token is accepted exactly when a live session carries it; a fence, a
      logout and a reset end what they should and nothing else; a code of the second
      factor opens once between two enrollments, exactly when RFC 6238 says that it is
      the code of the present, with five wrong guesses in half a minute and four more
      for every right one; a
      claimed device stays claimed, an unclaimed one lets nobody in, and a change of
      the account or of the factor settles everywhere, also over losses of power.
    - Data: a frame on loan never changes; secrets are masked exactly where they occur;
      decoding a path in place equals decoding it; a resolved path stays under the
      root; a network configuration that is tried out never becomes active before it
      is confirmed, and a confirmation takes over all of it or nothing, over failed
      writes and losses of power, as long as every start can load what is stored (one
      that cannot installs the configuration of the factory); console credentials that
      were saved come back, and whatever is stored can be typed on a US keyboard and
      read back; versions are compared by a total order; sanitized text is valid UTF-8
      and fits its buffer; the first trusted key of an SSH host is the only
      one that is ever believed; the display of the host is changed only as it was
      approved, once per approval; and the settings in flash only move forward, a newer
      version, or the mark of one beside a version, being refused untouched.

    ** Environment and bounds

    What a call reads from outside is an argument: clocks, random bytes, whether a
    timed wait succeeds, what the USB stack answers.  [AuthSession] and its callers
    take them as records ([auth_env], [two_env], [cred_env]), as does the broker
    ([broker_env]); [HidManager] consumes a
    script of ticks, and its wait loops have as fuel the length of the script plus
    one, which is never exhausted because every round takes a tick.  The bounded
    loops of C recurse on their counter; the comparison of versions has as fuel the
    length of both texts and one, and each round takes a character; [base32_drain] has fuel 2, as at most 12 bits
    are at hand.  Interleavings are explicit: the fence and the frame store are step
    relations over their atomic accesses; a module behind a mutex runs one critical
    section at a time, with the environment's steps in between.

    Ghost state, used by theorems and read by no definition: what the host holds in
    [HidManager], the views and published bytes in [VideoFrameStore], the clock log
    in [TwoStep], the tally of keys beside [BootKeyManager].

    Parameters, for code that is not in the repository: the layout of the retained
    memory (a function to bytes), SHA-256, HMAC-SHA1 and PBKDF2 of mbedTLS (SHA-256
    and PBKDF2 give 32 bytes, HMAC-SHA1 gives 20), and ESP-IDF's flash storage, the classes [Nvs]
    (operations) and [NvsLaws] (documented laws: a read sees the contents, a value
    that was not committed may or may not survive a loss of power, a commit settles
    its namespace).  [ram_nvs] and [ram_laws] are an instance; every theorem with
    such a hypothesis has a witness over it.

    Assumptions: waits with [portMAX_DELAY] do not fail; no USB attachment arrives
    while a command runs (the code mishandles one:
    [attach_during_command_leaves_key_held]), and the guard and what runs between two
    attempts keep the invariant of the HID manager; a start of the network settings
    within a trial loads what is stored ([readable]; a failed load erases it:
    [start_installs]); a restart of the broker within [effect_at_most_once] imports a
    later snapshot ([spares]); floating-point
    pointer positions are rounded counts; fewer than [2^32 - 1] loans and sessions,
    and, for the round trip of the snapshots, fewer than [2^32 - 2] calls of the
    broker (its ids print the number of a request in 32 bits);
    a loss of power strikes between two flash operations of a call, which the laws
    cover by the values that a failed call may leave.

    ** Not modelled

    Parts whose behaviour is that of libraries or hardware: HTTP, TLS, SSH and
    WebSocket services and adapters, JSON forms of settings, the capture chip, the
    encoders, Ethernet, UART, GPIO and the SD card, the serial console.  Tasks that
    only sequence modelled decisions with timers (the agent task service, video
    control), the history files on the card, the passkeys (JSON and
    elliptic curves), and, in [core/], the formatting of times and percentages.  The
    text that [esp_err_to_name] gives, logging and the wiping of buffers have no
    counterpart.  The older line [v0.86-stable-kvm] is the previous
    release of the same modules. *)

From Stdlib Require Export ZArith Lia.
From Stdlib Require Import String.
From Stdlib Require Export Ascii.
From stdpp Require Export base decidable list strings numbers option relations.

#[global] Open Scope Z_scope.

(** ** Machine integers *)

Definition u8 (x : Z) : Z := x mod 2 ^ 8.
Definition u16 (x : Z) : Z := x mod 2 ^ 16.
Definition u32 (x : Z) : Z := x mod 2 ^ 32.
Definition u64 (x : Z) : Z := x mod 2 ^ 64.
Definition UINT32_MAX : Z := 4294967295.

Definition is_u8 (x : Z) : Prop := 0 <= x < 2 ^ 8.
Definition is_u16 (x : Z) : Prop := 0 <= x < 2 ^ 16.
Definition is_u32 (x : Z) : Prop := 0 <= x < 2 ^ 32.

#[export] Instance is_u8_dec x : Decision (is_u8 x).
Proof. unfold is_u8. apply _. Defined.
#[export] Instance is_u16_dec x : Decision (is_u16 x).
Proof. unfold is_u16. apply _. Defined.
#[export] Instance is_u32_dec x : Decision (is_u32 x).
Proof. unfold is_u32. apply _. Defined.

Lemma u32_small x : is_u32 x -> u32 x = x.
Proof. apply Z.mod_small. Qed.

Lemma u32_range x : is_u32 (u32 x).
Proof. apply Z.mod_pos_bound. lia. Qed.

Lemma u16_range x : is_u16 (u16 x).
Proof. apply Z.mod_pos_bound. lia. Qed.

Lemma u8_range x : is_u8 (u8 x).
Proof. apply Z.mod_pos_bound. lia. Qed.

Lemma u8_small x : is_u8 x -> u8 x = x.
Proof. apply Z.mod_small. Qed.

(** Bit fields: [(a << n) | b] with [b] below [2^n] is a sum. *)
Lemma lor_shiftl_add a b n :
  0 <= n -> 0 <= b < 2 ^ n -> Z.lor (Z.shiftl a n) b = a * 2 ^ n + b.
Proof.
  intros Hn Hb. rewrite <- Z.shiftl_mul_pow2 by done.
  symmetry. apply Z.add_nocarry_lor. apply Z.bits_inj'. intros i Hi.
  rewrite Z.land_spec, Z.bits_0. destruct (decide (i < n)).
  - by rewrite Z.shiftl_spec_low.
  - destruct (decide (b = 0)) as [->|]; [rewrite Z.bits_0; apply andb_false_r|].
    rewrite (Z.bits_above_log2 b); [apply andb_false_r | lia |].
    apply Z.log2_lt_pow2; [lia|]. eapply Z.lt_le_trans; [apply Hb|].
    apply Z.pow_le_mono_r; lia.
Qed.

(** A 32-bit counter that skips zero: the idiom
    [if (++generation == 0U) generation = 1U] of every generation and sequence
    number of the core. *)
Definition bump (g : Z) : Z :=
  let n := u32 (g + 1) in if n =? 0 then 1 else n.

Lemma bump_range g : 1 <= bump g < 2 ^ 32.
Proof.
  unfold bump. pose proof (u32_range (g + 1)) as H. unfold is_u32 in H.
  destruct (Z.eqb_spec (u32 (g + 1)) 0); lia.
Qed.

Lemma bump_small g : 0 <= g < UINT32_MAX -> bump g = g + 1.
Proof.
  unfold bump, UINT32_MAX. intros H.
  rewrite u32_small by (unfold is_u32; lia).
  destruct (Z.eqb_spec (g + 1) 0); lia.
Qed.

Lemma bump_max : bump UINT32_MAX = 1.
Proof. reflexivity. Qed.

Lemma bump_closed g : 1 <= g < 2 ^ 32 -> bump g = 1 + g mod (2 ^ 32 - 1).
Proof.
  intros H. destruct (decide (g = UINT32_MAX)) as [->|Hne]; [reflexivity|].
  unfold UINT32_MAX in Hne.
  rewrite bump_small by (unfold UINT32_MAX; lia).
  rewrite Z.mod_small; lia.
Qed.

(** [n] bumps of a live counter, in closed form: the counter walks the cycle
    [1 .. 2^32-1]. *)
Lemma bump_iter_closed n g :
  1 <= g < 2 ^ 32 ->
  Nat.iter n bump g = 1 + (g - 1 + Z.of_nat n) mod (2 ^ 32 - 1).
Proof.
  intros H. induction n as [|n IH].
  - rewrite Z.add_0_r, Z.mod_small by lia. cbn. lia.
  - change (Nat.iter (S n) bump g) with (bump (Nat.iter n bump g)).
    rewrite IH. rewrite bump_closed.
    + f_equal. rewrite Z.add_comm, Z.add_mod_idemp_l by lia. f_equal. lia.
    + pose proof (Z.mod_pos_bound (g - 1 + Z.of_nat n) (2 ^ 32 - 1)). lia.
Qed.

(** A generation does not come back before [2^32 - 1] bumps. *)
Lemma bump_iter_fresh n g :
  1 <= g < 2 ^ 32 -> (0 < n)%nat -> Z.of_nat n < 2 ^ 32 - 1 ->
  Nat.iter n bump g <> g.
Proof.
  intros Hg Hn Hlt. rewrite bump_iter_closed by done. intros E.
  assert (E' : (g - 1 + Z.of_nat n) mod (2 ^ 32 - 1) = (g - 1) mod (2 ^ 32 - 1)).
  { rewrite (Z.mod_small (g - 1)) by lia. lia. }
  apply (f_equal (fun x => (x - (g - 1)) mod (2 ^ 32 - 1))) in E'.
  rewrite Zminus_mod_idemp_l in E'.
  replace (g - 1 + Z.of_nat n - (g - 1)) with (Z.of_nat n) in E' by lia.
  rewrite Zminus_mod_idemp_l, Z.sub_diag, (Z.mod_small (Z.of_nat n)) in E' by lia.
  rewrite Z.mod_0_l in E' by lia. lia.
Qed.

(** ** C enumerations

    A C enum object holds any integer; the functions that receive one from
    outside compare it with the first and last constant or fall into
    [default:].  An enumeration is an inductive type with the constants of the
    source; a raw argument is a [Z] and [enum_of_Z] reads it. *)

Class CEnum (E : Type) `{EqDecision E} := {
  enum_val : E -> Z;
  enum_values : list E;
  enum_val_inj : forall a b, enum_val a = enum_val b -> a = b;
  enum_values_complete : forall e, e ∈ enum_values
}.

#[global] Hint Mode CEnum ! - : typeclass_instances.

Definition enum_of_Z {E} `{CEnum E} (z : Z) : option E :=
  head (filter (fun e => enum_val e = z) enum_values).

Lemma enum_of_val {E} `{CEnum E} (e : E) : enum_of_Z (enum_val e) = Some e.
Proof.
  unfold enum_of_Z.
  destruct (filter _ _) as [|x l] eqn:F.
  - assert (Hin : e ∈ filter (fun e' => enum_val e' = enum_val e) enum_values).
    { apply list_elem_of_filter; split; [done | apply enum_values_complete]. }
    rewrite F in Hin. by apply not_elem_of_nil in Hin.
  - assert (Hx : x ∈ filter (fun e' => enum_val e' = enum_val e) enum_values)
      by (rewrite F; left).
    apply list_elem_of_filter in Hx as [Hx _].
    cbn. f_equal. by apply enum_val_inj.
Qed.

Lemma enum_of_Z_Some {E} `{CEnum E} z (e : E) :
  enum_of_Z z = Some e -> enum_val e = z.
Proof.
  unfold enum_of_Z. destruct (filter _ _) as [|x l] eqn:F; [done|].
  intros [= ->].
  assert (Hx : e ∈ filter (fun e' => enum_val e' = z) enum_values)
    by (rewrite F; left).
  by apply list_elem_of_filter in Hx as [? _].
Qed.

(** Constants numbered from zero in declaration order. *)
Definition enum_index {E} `{EqDecision E} (l : list E) (e : E) : Z :=
  match list_find (eq e) l with Some (i, _) => Z.of_nat i | None => -1 end.

(** [enum_of l] builds the instance of an enumeration whose constants are
    numbered [0, 1, ...] in the order of [l]; [enum_at f l] takes the values
    from [f]. *)
Ltac enum_at f l :=
  refine {| enum_val := f; enum_values := l |};
  [ intros [] []; vm_compute; first [reflexivity | discriminate]
  | intros e; apply list_elem_of_In; destruct e; cbn; tauto ].
Ltac enum_of l := enum_at (enum_index l) l.

(** ** Functional record update

    [Settable] gives the eta expansion of a record; a [Setter] for one of its
    projections is found by abstracting that projection. *)

Class Settable (R : Type) := eta_of : R -> R.
Class Setter {R T : Type} (proj : R -> T) := set : (T -> T) -> R -> R.
Arguments set {R T} proj {_} _ _.

Ltac find_setter :=
  match goal with
  | |- @Setter ?R ?T ?proj =>
      let e := constr:(_ : Settable R) in
      let b := eval hnf in e in
      let f := fresh "f" in let x := fresh "x" in
      refine (fun (f : T -> T) (x : R) => _);
      let body := eval cbv beta in (b x) in
      match eval pattern (proj x) in body with
      | ?F _ => let r := eval cbv beta in (F (f (proj x))) in exact r
      end
  end.

#[global] Hint Extern 1 (@Setter _ _ _) => find_setter : typeclass_instances.

Declare Scope c_scope.
Delimit Scope c_scope with c.
#[global] Open Scope c_scope.

Notation "r <| f := v |>" := (set f (fun _ => v) r)
  (at level 1, f at next level, left associativity) : c_scope.

(** Early return of a C function: [if (c) return e; k]. *)
Notation "'return_if' c 'with' e ';;' k" := (if c then e else k)
  (at level 10, c at level 99, e at level 99, k at level 200, only parsing) : c_scope.

(** ** C strings and byte buffers

    A C string is the list of its bytes before the terminating zero. *)

Abbreviation cstring := (list Z) (only parsing).

Definition ch (a : ascii) : Z := Z.of_N (N_of_ascii a).
Arguments ch a%_char.

Fixpoint cstr (s : string) : cstring :=
  match s with
  | EmptyString => []
  | String a s => ch a :: cstr s
  end.

Definition is_byte (b : Z) : Prop := 0 <= b < 256.

#[export] Instance is_byte_dec b : Decision (is_byte b).
Proof. unfold is_byte. apply _. Defined.

Lemma ch_byte a : is_byte (ch a).
Proof. unfold is_byte, ch. pose proof (N_ascii_bounded a). lia. Qed.

Lemma cstr_length s : length (cstr s) = String.length s.
Proof. induction s as [|a s IH]; cbn; [done | by rewrite IH]. Qed.

(** The bytes of a C string are not zero. *)
Definition cstring_ok (s : cstring) : Prop := Forall (fun b => 1 <= b < 256) s.

Definition streq (a b : cstring) : bool := bool_decide (a = b).

Lemma streq_true a b : streq a b = true <-> a = b.
Proof. apply bool_decide_eq_true. Qed.

Lemma streq_refl a : streq a a = true.
Proof. by apply streq_true. Qed.

(** [strnlen], the test [!s[0]], and the bounded copies: [snprintf "%s"] into a
    buffer of [size] bytes keeps the first [size - 1]. *)
Definition strlen (s : cstring) : Z := Z.of_nat (length s).
Definition strnlen (s : cstring) (n : nat) : nat := Nat.min (length s) n.
Definition is_empty (s : cstring) : bool :=
  match s with [] => true | _ => false end.
Definition strtrunc (size : nat) (s : cstring) : cstring := take (size - 1) s.

Lemma strtrunc_length size s :
  (0 < size)%nat -> (length (strtrunc size s) < size)%nat.
Proof. unfold strtrunc. rewrite length_take. lia. Qed.

Lemma strtrunc_max n s : (length (strtrunc (n + 1) s) <= n)%nat.
Proof. pose proof (strtrunc_length (n + 1) s). lia. Qed.

Lemma strtrunc_id size s :
  (length s < size)%nat -> strtrunc size s = s.
Proof. intros H. apply take_ge. lia. Qed.

(** [%u]: the decimal digits of a non-negative integer of at most [fuel] digits. *)
Fixpoint decimal_loop (fuel : nat) (n : Z) (acc : cstring) : cstring :=
  match fuel with
  | O => acc
  | S fuel =>
      let acc := (ch "0" + n mod 10) :: acc in
      if n / 10 =? 0 then acc else decimal_loop fuel (n / 10) acc
  end.

Definition decimal (n : Z) : cstring := decimal_loop 20 n [].

(** Nullable pointers are options; a NULL pointer fails every test. *)
Definition ptr_test {A} (f : A -> bool) (p : option A) : bool :=
  match p with Some x => f x | None => false end.

(** ** Booleans of the guards *)

Lemma orb_false_intro2 a b : a || b = false -> a = false /\ b = false.
Proof. apply orb_false_elim. Qed.

Ltac split_guards :=
  repeat match goal with
  | H : _ || _ = false |- _ => apply orb_false_elim in H; destruct H
  | H : _ && _ = true |- _ => apply andb_prop in H; destruct H
  | H : negb _ = false |- _ => apply negb_false_iff in H
  | H : negb _ = true |- _ => apply negb_true_iff in H
  | H : bool_decide _ = true |- _ => apply bool_decide_eq_true in H
  | H : bool_decide _ = false |- _ => apply bool_decide_eq_false in H
  | H : streq _ _ = true |- _ => apply streq_true in H
  | H : ~ (_ <> _) |- _ => apply dec_stable in H
  end.

(** Comparisons as propositions. *)
Ltac to_props :=
  repeat match goal with
  | H : (_ =? _) = true |- _ => apply Z.eqb_eq in H
  | H : (_ =? _) = false |- _ => apply Z.eqb_neq in H
  | H : (_ <=? _) = true |- _ => apply Z.leb_le in H
  | H : (_ <=? _) = false |- _ => apply Z.leb_gt in H
  | H : (_ <? _) = true |- _ => apply Z.ltb_lt in H
  | H : (_ <? _) = false |- _ => apply Z.ltb_ge in H
  | H : (_ =? _)%nat = true |- _ => apply Nat.eqb_eq in H
  | H : (_ =? _)%nat = false |- _ => apply Nat.eqb_neq in H
  | H : (_ <=? _)%nat = true |- _ => apply Nat.leb_le in H
  | H : (_ <=? _)%nat = false |- _ => apply Nat.leb_gt in H
  | H : (_ <? _)%nat = true |- _ => apply Nat.ltb_lt in H
  | H : (_ <? _)%nat = false |- _ => apply Nat.ltb_ge in H
  end.

(** Case analysis on the conditions of a body, one early return at a time. *)
Ltac case_if :=
  match goal with
  | |- context [if ?c then _ else _] => destruct c eqn:?
  | H : context [if ?c then _ else _] |- _ => destruct c eqn:?
  end.
Ltac case_ifs := repeat case_if.
Ltac case_if_in H :=
  match type of H with context [if ?c then _ else _] => destruct c eqn:? end.

Lemma forallb_Forall {A} (f : A -> bool) l :
  forallb f l = true <-> Forall (fun x => f x = true) l.
Proof.
  induction l as [|x l IH]; cbn; [split; [constructor|done]|].
  by rewrite andb_true_iff, Forall_cons, IH.
Qed.

(** The object a non-NULL pointer points to. *)
Definition deref (p : option cstring) : cstring := default [] p.


(** Closed decidable facts about concrete inputs, by evaluation. *)
Ltac by_eval := vm_compute; reflexivity.
Ltac by_decide := refine (bool_decide_eq_true_1 _ _); vm_compute; reflexivity.

(** ** Bounds

    The ranges of machine integers and of copies into fixed buffers, for
    [auto with c_bounds]. *)
Create HintDb c_bounds discriminated.
#[export] Hint Resolve u8_range u16_range u32_range bump_range strtrunc_max streq_refl : c_bounds.
#[export] Hint Unfold is_u8 is_u16 is_u32 : c_bounds.
