(* ===== verification/Firmware.v ===== *)
(** * The vocabulary of the drivers and application services

    The ESP-IDF error codes that the code returns, and a small state monad with
    a weakest-precondition calculus for the modules whose functions work on the
    static variables of their file. *)

From S2P Require Import Prelude.

(** ** [esp_err_t]: the named codes the modelled code returns, and the rest *)

Inductive esp_err_t :=
| ESP_OK | ESP_FAIL | ESP_ERR_NO_MEM | ESP_ERR_INVALID_ARG | ESP_ERR_INVALID_STATE
| ESP_ERR_INVALID_SIZE | ESP_ERR_NOT_FOUND | ESP_ERR_NOT_SUPPORTED | ESP_ERR_TIMEOUT
| ESP_ERR_NOT_FINISHED | ESP_ERR_OTHER (code : Z).

#[export] Instance esp_err_eq_dec : EqDecision esp_err_t.
Proof. solve_decision. Defined.

(** ** A state monad *)

Definition st (S A : Type) : Type := S -> A * S.

#[export] Instance st_ret S : MRet (st S) := fun A a s => (a, s).

Definition bind {S A B} (m : st S A) (k : A -> st S B) : st S B := fun s =>
  let '(a, s') := m s in k a s'.

Notation "x ← y ; z" := (bind y (fun x => z))
  (at level 20, y at level 100, z at level 200, only parsing) : c_scope.
Notation "x ;; z" := (bind x (fun _ => z))
  (at level 100, z at level 200, only parsing, right associativity) : c_scope.

Definition gets {S A} (f : S -> A) : st S A := fun s => (f s, s).
Definition modify {S} (f : S -> S) : st S unit := fun s => (tt, f s).

Definition when {S} (c : bool) (m : st S unit) : st S unit :=
  if c then m else mret tt.

(** [short-circuit] conditions with effects: [a && b] and [a || b]. *)
Definition and_then {S} (a b : st S bool) : st S bool :=
  x ← a; if x then b else mret false.
Definition or_else {S} (a b : st S bool) : st S bool :=
  x ← a; if x then mret true else b.

Notation "a &&& b" := (and_then a b) (at level 40, left associativity) : c_scope.
Notation "a ||| b" := (or_else a b) (at level 50, left associativity) : c_scope.

(** A loop over a list of table entries. *)
Fixpoint for_each {S A} (l : list A) (body : A -> st S unit) : st S unit :=
  match l with [] => mret tt | x :: l => body x ;; for_each l body end.

(** ** Weakest preconditions

    [wp m Q s]: run from [s], [m] ends in a result and a state that [Q] holds of. *)
Definition wp {S A} (m : st S A) (Q : A -> S -> Prop) (s : S) : Prop :=
  Q (m s).1 (m s).2.

Section wp.
Context {S : Type}.
Implicit Types s : S.

Lemma wp_ret {A} (a : A) (Q : A -> S -> Prop) s : Q a s -> wp (mret a) Q s.
Proof. done. Qed.

Lemma wp_intro {A} (m : st S A) (Q : A -> S -> Prop) s : Q (m s).1 (m s).2 -> wp m Q s.
Proof. done. Qed.

Lemma wp_bind {A B} (m : st S A) (k : A -> st S B) (Q : B -> S -> Prop) s :
  wp m (fun a => wp (k a) Q) s -> wp (bind m k) Q s.
Proof. unfold wp, bind. by destruct (m s). Qed.

Lemma wp_gets {A} (f : S -> A) (Q : A -> S -> Prop) s : Q (f s) s -> wp (gets f) Q s.
Proof. done. Qed.

Lemma wp_modify (f : S -> S) (Q : unit -> S -> Prop) s : Q tt (f s) -> wp (modify f) Q s.
Proof. done. Qed.

Lemma wp_mono {A} (m : st S A) (Q Q' : A -> S -> Prop) s :
  wp m Q s -> (forall a s', Q a s' -> Q' a s') -> wp m Q' s.
Proof. unfold wp. auto. Qed.

Lemma wp_conj {A} (m : st S A) (Q Q' : A -> S -> Prop) s :
  wp m Q s -> wp m Q' s -> wp m (fun a s' => Q a s' /\ Q' a s') s.
Proof. done. Qed.

Lemma wp_when (c : bool) (m : st S unit) (Q : unit -> S -> Prop) s :
  (c = true -> wp m Q s) -> (c = false -> Q tt s) -> wp (when c m) Q s.
Proof. intros Ht Hf. destruct c; [by apply Ht | by apply Hf]. Qed.

Lemma wp_and_then (a b : st S bool) (Q : bool -> S -> Prop) s :
  wp a (fun x s' => if x then wp b Q s' else Q false s') s -> wp (a &&& b) Q s.
Proof.
  intros H. apply wp_bind. eapply wp_mono; [exact H|]. by intros [] s'.
Qed.

Lemma wp_or_else (a b : st S bool) (Q : bool -> S -> Prop) s :
  wp a (fun x s' => if x then Q true s' else wp b Q s') s -> wp (a ||| b) Q s.
Proof.
  intros H. apply wp_bind. eapply wp_mono; [exact H|]. by intros [] s'.
Qed.

(** A relation between the states before and after, closed under sequencing. *)
Definition moves {A} (R : relation S) (m : st S A) : Prop :=
  forall s, R s (m s).2.

Lemma wp_run {A} (m : st S A) Q s a s' : wp m Q s -> m s = (a, s') -> Q a s'.
Proof. unfold wp. intros H E. by rewrite E in H. Qed.

Section moves.
Context (R : relation S) `{!Reflexive R, !Transitive R}.

Lemma moves_ret {A} (a : A) : moves R (mret a).
Proof. intros s. reflexivity. Qed.

Lemma moves_gets {A} (f : S -> A) : moves R (gets f).
Proof. intros s. reflexivity. Qed.

Lemma moves_bind {A B} (m : st S A) (k : A -> st S B) :
  moves R m -> (forall a, moves R (k a)) -> moves R (bind m k).
Proof.
  intros Hm Hk s. unfold bind. specialize (Hm s).
  destruct (m s) as [a s']. etrans; [exact Hm | apply Hk].
Qed.

Lemma moves_when c (m : st S unit) : moves R m -> moves R (when c m).
Proof. intros Hm. destruct c; [exact Hm | apply moves_ret]. Qed.

Lemma moves_and_then (a b : st S bool) : moves R a -> moves R b -> moves R (a &&& b).
Proof.
  intros Ha Hb. apply moves_bind; [done|]. intros []; [done | apply moves_ret].
Qed.

Lemma moves_or_else (a b : st S bool) : moves R a -> moves R b -> moves R (a ||| b).
Proof.
  intros Ha Hb. apply moves_bind; [done|]. intros []; [apply moves_ret | done].
Qed.

Lemma moves_for_each {A} (l : list A) body :
  (forall x, moves R (body x)) -> moves R (for_each l body).
Proof.
  intros H. induction l as [|x l IH]; cbn [for_each]; [apply moves_ret|].
  by apply moves_bind.
Qed.
End moves.

(** A predicate on states that a computation keeps. *)
Definition kept (I : S -> Prop) : relation S := fun s s' => I s -> I s'.

#[export] Instance kept_refl I : Reflexive (kept I).
Proof. intros s H. exact H. Qed.
#[export] Instance kept_trans I : Transitive (kept I).
Proof. intros s1 s2 s3 H1 H2 H. by apply H2, H1. Qed.

(** A view of the state that a computation leaves alone. *)
Definition same {V} (f : S -> V) : relation S := fun s s' => f s' = f s.

#[export] Instance same_refl {V} (f : S -> V) : Reflexive (same f).
Proof. by intros s. Qed.
#[export] Instance same_trans {V} (f : S -> V) : Transitive (same f).
Proof. unfold same. intros s1 s2 s3 H1 H2. congruence. Qed.

Lemma kept_wp {A} I (m : st S A) s : moves (kept I) m -> I s -> wp m (fun _ => I) s.
Proof. intros H Hs. exact (H s Hs). Qed.

Lemma wp_kept {A} I (m : st S A) :
  (forall s, I s -> wp m (fun _ => I) s) -> moves (kept I) m.
Proof. intros H s Hs. exact (H s Hs). Qed.

Lemma kept_modify I (f : S -> S) : (forall s, I s -> I (f s)) -> moves (kept I) (modify f).
Proof. intros H s. exact (H s). Qed.
End wp.

(** Lemmas about the operations of a module, for [moves_go]. *)
Create HintDb firmware discriminated.
#[export] Hint Resolve kept_modify : firmware.
#[export] Hint Resolve kept_refl kept_trans same_refl same_trans : core.

(** Discharges [moves R m] down to the operations that no lemma covers. *)
Ltac moves_step :=
  lazymatch goal with
  | |- moves _ (bind _ _) => refine (moves_bind _ _ _ _ _); [|intros ?]
  | |- moves _ (mret _) => refine (moves_ret _ _)
  | |- moves _ (gets _) => refine (moves_gets _ _)
  | |- moves _ (when _ _) => refine (moves_when _ _ _ _)
  | |- moves _ (and_then _ _) => refine (moves_and_then _ _ _ _ _)
  | |- moves _ (or_else _ _) => refine (moves_or_else _ _ _ _ _)
  | |- moves _ (for_each _ _) => refine (moves_for_each _ _ _ _); intros ?
  | |- moves _ (if ?c then _ else _) => destruct c
  | |- moves _ (match ?c with _ => _ end) => destruct c
  end.
Ltac moves_go := repeat (cbv beta; first [solve [eauto 2 with firmware] | moves_step]).

(** One step through a body: the rule for its head. *)
Ltac wp_step :=
  lazymatch goal with
  | |- wp (bind _ _) _ _ => apply wp_bind
  | |- wp (mret _) _ _ => apply wp_ret
  | |- wp (gets _) _ _ => apply wp_gets
  | |- wp (modify _) _ _ => apply wp_modify
  | |- wp (when _ _) _ _ => apply wp_when; intros ?
  | |- wp (and_then _ _) _ _ => apply wp_and_then
  | |- wp (or_else _ _) _ _ => apply wp_or_else
  | |- wp (if ?c then _ else _) _ _ => destruct c eqn:?
  | |- wp (match ?c with _ => _ end) _ _ => destruct c eqn:?
  end.
Ltac wp_steps := repeat (cbv beta; wp_step).

(** The tests of error codes in the context, as equations. *)
Ltac decided :=
  repeat match goal with
  | H : bool_decide _ = true |- _ => apply bool_decide_eq_true in H
  | H : bool_decide _ = false |- _ => apply bool_decide_eq_false in H
  | H : negb _ = true |- _ => apply negb_true_iff in H
  | H : negb _ = false |- _ => apply negb_false_iff in H
  end.
