(* ===== verification/CText.v ===== *)
(** * C text: the parts of [<ctype.h>], [<string.h>] and [<stdio.h>] the core uses

    Character classes in the C locale, prefix and substring tests, case-blind
    comparison and the [%s]/[%u] formatting of [snprintf], each with the lemmas
    the components share.  A string is the list of its bytes before the zero. *)

From S2P Require Import Prelude.

(** ** Character classes *)

Definition between (lo hi c : Z) : bool := (lo <=? c) && (c <=? hi).

Definition isdigit (c : Z) : bool := between (ch "0") (ch "9") c.
Definition islower (c : Z) : bool := between (ch "a") (ch "z") c.
Definition isupper (c : Z) : bool := between (ch "A") (ch "Z") c.
Definition isalpha (c : Z) : bool := isupper c || islower c.
Definition isalnum (c : Z) : bool := isdigit c || isalpha c.
Definition isspace (c : Z) : bool := (c =? ch " ") || between 9 13 c.
Definition tolower (c : Z) : Z := if isupper c then c + 32 else c.

Lemma between_true lo hi c : between lo hi c = true <-> lo <= c <= hi.
Proof. unfold between. rewrite andb_true_iff, !Z.leb_le. tauto. Qed.

Lemma tolower_idem c : tolower (tolower c) = tolower c.
Proof.
  unfold tolower. destruct (isupper c) eqn:E; [|by rewrite E].
  apply between_true in E. change (65 <= c <= 90) in E.
  destruct (isupper (c + 32)) eqn:E2; [|done].
  apply between_true in E2. change (65 <= c + 32 <= 90) in E2. lia.
Qed.

(** ** Prefixes, substrings, membership *)

(** [strncmp(s, p, strlen(p)) == 0]. *)
Fixpoint starts_with (p s : cstring) : bool :=
  match p, s with
  | [], _ => true
  | a :: p, b :: s => (a =? b) && starts_with p s
  | _ :: _, [] => false
  end.

(** [strstr(s, p) != NULL]. *)
Fixpoint contains_str (p s : cstring) : bool :=
  starts_with p s || match s with [] => false | _ :: s => contains_str p s end.

(** [strchr(s, c) != NULL] for a [c] that is not the terminator. *)
Definition has_char (c : Z) (s : cstring) : bool := existsb (Z.eqb c) s.

Lemma starts_with_spec p s : starts_with p s = true <-> exists t, s = p ++ t.
Proof.
  revert s. induction p as [|a p IH]; intros s; cbn.
  - split; [by exists s | done].
  - destruct s as [|b s]; cbn.
    { split; [done|]. by intros [t ?]. }
    rewrite andb_true_iff, Z.eqb_eq, IH. split.
    + intros [-> [t ->]]. by exists t.
    + intros [t [= -> ->]]. eauto.
Qed.

Lemma starts_with_app p t : starts_with p (p ++ t) = true.
Proof. apply starts_with_spec. by exists t. Qed.

Lemma contains_str_spec p s :
  contains_str p s = true <-> exists l r, s = l ++ p ++ r.
Proof.
  induction s as [|b s IH]; cbn [contains_str]; rewrite orb_true_iff, starts_with_spec.
  - split.
    + intros [[t Ht]|]; [|done]. by exists [], t.
    + intros (l & r & E). left. symmetry in E. apply app_eq_nil in E as [_ E]. by exists r.
  - rewrite IH. split.
    + intros [[t Ht]|(l & r & ->)]; [by exists [], t | by exists (b :: l), r].
    + intros (l & r & E). destruct l as [|x l]; cbn in E; [left; by exists r|].
      injection E as -> ->. right. by exists l, r.
Qed.

Lemma has_char_spec c s : has_char c s = true <-> c ∈ s.
Proof.
  unfold has_char. rewrite existsb_exists. setoid_rewrite <- list_elem_of_In.
  split; [intros (x & Hx & E); by apply Z.eqb_eq in E as -> | exists c].
  by rewrite Z.eqb_refl.
Qed.

Lemma has_char_false c s : has_char c s = false <-> c ∉ s.
Proof. rewrite <- has_char_spec. by destruct (has_char c s). Qed.

(** [strcasecmp(a, b) == 0]. *)
Definition strcaseeq (a b : cstring) : bool := streq (tolower <$> a) (tolower <$> b).

(** Case-blind [starts_with]. *)
Definition starts_with_ci (p s : cstring) : bool :=
  starts_with (tolower <$> p) (tolower <$> s).

Lemma strcaseeq_true a b : strcaseeq a b = true <-> tolower <$> a = tolower <$> b.
Proof. apply streq_true. Qed.

Lemma strcaseeq_length a b : strcaseeq a b = true -> length a = length b.
Proof. intros E%strcaseeq_true%(f_equal length). by rewrite !length_fmap in E. Qed.

(** ** [snprintf]

    A conversion is [%s] or [%u]; the arguments are already printed.  The
    result is the whole text; the buffer keeps its first [size - 1] bytes. *)

Fixpoint format (fmt : cstring) (args : list cstring) : cstring :=
  match fmt with
  | [] => []
  | c :: fmt =>
      match fmt with
      | d :: rest =>
          if c =? ch "%" then
            if d =? ch "%" then ch "%" :: format rest args
            else default [] (head args) ++ format rest (tail args)
          else c :: format fmt args
      | [] => [c]
      end
  end.
