(* ===== verification/Hex.v ===== *)
(** * Hexadecimal text

    The conversion of bytes that several files of the firmware repeat: [%02x]
    into a buffer, and the nibble-by-nibble reading back. *)

From Stdlib Require Import String.
From S2P Require Import Prelude CText.

Definition hex_digit (v : Z) : Z := if v <? 10 then ch "0" + v else ch "a" + (v - 10).

(** [%02x] of a byte. *)
Definition hex_byte (b : Z) : cstring := [hex_digit (b / 16); hex_digit (b mod 16)].

Definition hex_text (bytes : list Z) : cstring := bytes ≫= hex_byte.

(** [%08x] of a 32-bit word. *)
Definition hex32 (v : Z) : cstring :=
  hex_text [u8 (Z.shiftr v 24); u8 (Z.shiftr v 16); u8 (Z.shiftr v 8); u8 v].

Definition hex_nibble (c : Z) : Z :=
  return_if between (ch "0") (ch "9") c with c - ch "0" ;;
  return_if between (ch "a") (ch "f") c with c - ch "a" + 10 ;;
  return_if between (ch "A") (ch "F") c with c - ch "A" + 10 ;;
  -1.

(** The loop over [n] bytes; [None] once a character is not a hexadecimal digit. *)
Fixpoint unhex_loop (n : nat) (text : cstring) : option (list Z) :=
  match n, text with
  | S n, a :: b :: text =>
      let a := hex_nibble a in
      let b := hex_nibble b in
      return_if (a <? 0) || (b <? 0) with None ;;
      bytes ← unhex_loop n text;
      Some (u8 (Z.lor (Z.shiftl a 4) b) :: bytes)
  | _, _ => Some []
  end%stdpp.

Definition hex_to_bytes (n : nat) (text : option cstring) : option (list Z) :=
  match text with
  | Some text =>
      return_if negb (length text =? 2 * n)%nat with None ;;
      unhex_loop n text
  | None => None
  end.

(** A fact about the 256 bytes, by evaluation. *)
Lemma byte_ind (P : Z -> Prop) :
  Forall P (seqZ 0 256) -> forall b, is_byte b -> P b.
Proof. rewrite Forall_forall. intros H b Hb. apply H, elem_of_seqZ. unfold is_byte in Hb. lia. Qed.

Lemma hex_digit_range v : 0 <= v < 16 -> islower (hex_digit v) || isdigit (hex_digit v) = true.
Proof.
  intros H. assert (Hv : v ∈ seqZ 0 16) by (apply elem_of_seqZ; lia).
  clear H. revert v Hv. apply Forall_forall. by_decide.
Qed.

Lemma unhex_byte b rest n :
  is_byte b -> unhex_loop (S n) (hex_byte b ++ rest) = (cons b) <$> unhex_loop n rest.
Proof.
  intros Hb.
  assert (E : (hex_nibble (hex_digit (b / 16)) <? 0) || (hex_nibble (hex_digit (b mod 16)) <? 0) = false
              /\ u8 (Z.lor (Z.shiftl (hex_nibble (hex_digit (b / 16))) 4)
                       (hex_nibble (hex_digit (b mod 16)))) = b).
  { revert b Hb. apply byte_ind. by_decide. }
  cbn [app hex_byte unhex_loop]. destruct E as [-> ->]. by destruct (unhex_loop n rest).
Qed.

Lemma hex_text_length bytes : length (hex_text bytes) = (2 * length bytes)%nat.
Proof. unfold hex_text. induction bytes as [|b l IH]; [done|]. cbn in *. lia. Qed.

Lemma unhex_text bytes :
  Forall is_byte bytes -> hex_to_bytes (length bytes) (Some (hex_text bytes)) = Some bytes.
Proof.
  intros H. unfold hex_to_bytes. rewrite hex_text_length, Nat.eqb_refl. cbn [negb].
  induction H as [|b l Hb _ IH]; [done|].
  change (hex_text (b :: l)) with (hex_byte b ++ hex_text l).
  cbn [length]. rewrite unhex_byte by done. by rewrite IH.
Qed.

Lemma hex_text_inj a b :
  Forall is_byte a -> Forall is_byte b -> hex_text a = hex_text b -> a = b.
Proof.
  intros Ha%unhex_text Hb%unhex_text E.
  assert (L : length a = length b).
  { apply (f_equal length) in E. rewrite !hex_text_length in E. lia. }
  rewrite E, L in Ha. congruence.
Qed.

Lemma hex_text_nonzero bytes : Forall is_byte bytes -> cstring_ok (hex_text bytes).
Proof.
  induction 1 as [|b l Hb _ IH]; [constructor|].
  change (hex_text (b :: l)) with (hex_byte b ++ hex_text l). apply Forall_app. split; [|done].
  revert b Hb. apply byte_ind. by_decide.
Qed.

Lemma hex_byte_inj a b : is_byte a -> is_byte b -> hex_byte a = hex_byte b -> a = b.
Proof.
  intros Ha Hb E. assert (H : [a] = [b]); [|by injection H].
  apply hex_text_inj; [by apply Forall_singleton..|]. unfold hex_text. cbn [mbind list_bind]. by rewrite E.
Qed.

(** A comparison that takes the same time for every input collects the differences
    of all bytes. *)
Lemma lor_fold_zero (f : nat -> Z) l d :
  foldl (fun diff i => Z.lor diff (f i)) d l = 0 <-> d = 0 /\ Forall (fun i => f i = 0) l.
Proof.
  revert d. induction l as [|i l IH]; intros d; cbn [foldl]; [by split; [|intros []]|].
  rewrite IH, Forall_cons, Z.lor_eq_0_iff. tauto.
Qed.

Lemma lxor_byte a b : is_byte a -> is_byte b -> is_byte (Z.lxor a b).
Proof.
  assert (E : forall x, is_byte x <-> 0 <= x /\ (forall n, 8 <= n -> Z.testbit x n = false)).
  { intros x. unfold is_byte. change 256 with (2 ^ 8). split.
    - intros [H0 H]. split; [done|]. intros n Hn. destruct (decide (x = 0)) as [->|]; [apply Z.bits_0|].
      assert (Z.log2 x < 8) by (apply Z.log2_lt_pow2; lia). apply Z.bits_above_log2; lia.
    - intros [H0 H]. split; [done|]. apply Z.lt_nge. intros Hge.
      assert (Hx : 0 < x) by lia. pose proof (Z.bit_log2 x Hx) as Hb.
      rewrite H in Hb; [done|]. by apply Z.log2_le_pow2 in Hge. }
  rewrite !E. intros [Ha Ha'] [Hb Hb']. split.
  - apply Z.lxor_nonneg. lia.
  - intros n Hn. by rewrite Z.lxor_spec, Ha', Hb'.
Qed.

Lemma byte_lxor_zero a b : is_byte a -> is_byte b -> u8 (Z.lxor a b) = 0 -> a = b.
Proof. intros Ha Hb H. apply Z.lxor_eq. by rewrite u8_small in H by by apply lxor_byte. Qed.

Lemma hex_to_bytes_range n text bytes :
  hex_to_bytes n text = Some bytes -> length bytes = n /\ Forall is_byte bytes.
Proof.
  destruct text as [text|]; [|done]. unfold hex_to_bytes. case_if; [done|].
  apply negb_false_iff, Nat.eqb_eq in Heqb. revert text bytes Heqb.
  induction n as [|n IH]; intros text bytes L; cbn [unhex_loop].
  - intros E. apply (inj Some) in E as <-. by split.
  - destruct text as [|a [|b text]]; cbn in L; [lia | lia |].
    case_if; [done|]. destruct (unhex_loop n text) as [l|] eqn:E; [|done].
    intros E'. apply (inj Some) in E' as <-. destruct (IH text l ltac:(lia) E) as [<- H].
    split; [done|]. constructor; [|done]. apply u8_range.
Qed.

(** ** Words *)

Lemma word_bytes a : is_u32 a ->
  a = u8 (Z.shiftr a 24) * 16777216 + u8 (Z.shiftr a 16) * 65536 + u8 (Z.shiftr a 8) * 256 + u8 a.
Proof.
  unfold is_u32, u8. intros H. rewrite !Z.shiftr_div_pow2 by lia.
  change (2 ^ 24) with 16777216. change (2 ^ 16) with 65536. change (2 ^ 8) with 256.
  rewrite (Z.mod_small (a / 16777216)) by (split; [apply Z.div_pos; lia | apply Z.div_lt_upper_bound; lia]).
  replace (a / 16777216) with (a / 256 / 256 / 256) by (rewrite !Z.div_div by lia; f_equal).
  replace (a / 65536) with (a / 256 / 256) by (rewrite !Z.div_div by lia; f_equal).
  pose proof (Z.div_mod a 256). pose proof (Z.div_mod (a / 256) 256). pose proof (Z.div_mod (a / 256 / 256) 256). lia.
Qed.

Lemma hex32_inj a b : is_u32 a -> is_u32 b -> hex32 a = hex32 b -> a = b.
Proof.
  intros Ha Hb E. apply hex_text_inj in E; [|repeat constructor; apply u8_range..].
  injection E as E1 E2 E3 E4. by rewrite (word_bytes a Ha), (word_bytes b Hb), E1, E2, E3, E4.
Qed.

Lemma hex32_length v : length (hex32 v) = 8%nat.
Proof. done. Qed.
