(* ===== verification/RingBuffer.v ===== *)
(** * Ring buffers

  The two circular arrays of the core (the pending-turn queue of
  [core/agent_task_runtime.c] and the event history of
  [core/action_event.c]) share these lemmas: an array of [cap] slots, an
  index of the oldest entry and a count, read as the list of its entries from
  the oldest to the newest. *)

From S2P Require Import Prelude.

Section ring.
Context {A : Type} `{!Inhabited A} (cap : nat) (Hcap : (0 < cap)%nat).
Implicit Types (buf : list A) (head count : nat).

Definition ring_at buf head (i : nat) : A := buf !!! ((head + i) mod cap)%nat.

Definition ring_list buf head count : list A :=
  (fun i => ring_at buf head i) <$> seq 0 count.

Lemma ring_list_length buf head count : length (ring_list buf head count) = count.
Proof. unfold ring_list. by rewrite length_fmap, length_seq. Qed.

Lemma ring_list_lookup buf head count i :
  (i < count)%nat -> ring_list buf head count !! i = Some (ring_at buf head i).
Proof.
  intros H. unfold ring_list. rewrite list_lookup_fmap.
  by rewrite lookup_seq_lt.
Qed.

(** Distinct offsets below the capacity are distinct slots. *)
Lemma ring_pos_inj head i j :
  (i < cap)%nat -> (j < cap)%nat ->
  ((head + i) mod cap = (head + j) mod cap)%nat -> i = j.
Proof.
  clear -Hcap. intros Hi Hj E.
  apply (f_equal Z.of_nat) in E. rewrite !Nat2Z.inj_mod, !Nat2Z.inj_add in E.
  apply (f_equal (fun x => (x - Z.of_nat head) mod Z.of_nat cap)) in E.
  rewrite !Zminus_mod_idemp_l in E.
  rewrite !(Z.add_comm (Z.of_nat head)), !Z.add_simpl_r in E.
  rewrite !Z.mod_small in E; lia.
Qed.

Lemma ring_pos_lt head i : ((head + i) mod cap < cap)%nat.
Proof. apply Nat.mod_upper_bound. lia. Qed.

Lemma ring_succ_at buf head i :
  ring_at buf ((head + 1) mod cap)%nat i = ring_at buf head (S i).
Proof.
  unfold ring_at. f_equal. rewrite Nat.Div0.add_mod_idemp_l. f_equal. lia.
Qed.

Lemma ring_at_insert_eq buf head i x :
  length buf = cap -> ring_at (<[((head + i) mod cap)%nat := x]> buf) head i = x.
Proof.
  intros Hl. unfold ring_at. apply list_lookup_total_insert_eq.
  rewrite Hl. apply ring_pos_lt.
Qed.

Lemma ring_at_insert_ne buf head i j x :
  (i < cap)%nat -> (j < cap)%nat -> i <> j ->
  ring_at (<[((head + i) mod cap)%nat := x]> buf) head j = ring_at buf head j.
Proof.
  intros Hi Hj Hne. unfold ring_at. apply list_lookup_total_insert_ne.
  intros E. by apply ring_pos_inj in E.
Qed.

Lemma ring_list_ext buf buf' head head' count :
  (forall i, (i < count)%nat -> ring_at buf head i = ring_at buf' head' i) ->
  ring_list buf head count = ring_list buf' head' count.
Proof.
  intros H. unfold ring_list. apply list_fmap_ext.
  intros i x Hx. apply lookup_seq in Hx as [-> Hlt]. apply H. lia.
Qed.

Lemma ring_list_S buf head count :
  ring_list buf head (S count) = ring_list buf head count ++ [ring_at buf head count].
Proof. unfold ring_list. rewrite seq_S, fmap_app. done. Qed.

(** Writing the slot after the newest entry appends. *)
Lemma ring_list_push buf head count x :
  length buf = cap -> (count < cap)%nat ->
  ring_list (<[((head + count) mod cap)%nat := x]> buf) head (S count) =
  ring_list buf head count ++ [x].
Proof.
  intros Hl Hc. rewrite ring_list_S, ring_at_insert_eq by done. f_equal.
  apply ring_list_ext. intros i Hi. apply ring_at_insert_ne; lia.
Qed.

(** Moving the head drops the oldest entry. *)
Lemma ring_list_pop buf head count :
  ring_list buf head (S count) =
  ring_at buf head 0 :: ring_list buf ((head + 1) mod cap)%nat count.
Proof.
  unfold ring_list. cbn [seq fmap list_fmap]. f_equal.
  rewrite <- fmap_S_seq, <- list_fmap_compose. apply list_fmap_ext.
  intros i x _. cbn. by rewrite ring_succ_at.
Qed.

(** A write to the slot just dropped is not seen. *)
Lemma ring_list_insert_dropped buf head count x :
  (head < cap)%nat -> (count < cap)%nat ->
  ring_list (<[head := x]> buf) ((head + 1) mod cap)%nat count =
  ring_list buf ((head + 1) mod cap)%nat count.
Proof.
  intros Hh Hc. apply ring_list_ext. intros i Hi. rewrite !ring_succ_at.
  replace head with ((head + 0) mod cap)%nat at 1
    by (rewrite Nat.add_0_r; apply Nat.mod_small; lia).
  apply ring_at_insert_ne; lia.
Qed.

(** When the buffer is full the write replaces the oldest entry. *)
Lemma ring_list_overwrite buf head x :
  length buf = cap -> (head < cap)%nat ->
  ring_list (<[head := x]> buf) ((head + 1) mod cap)%nat cap =
  tail (ring_list buf head cap) ++ [x].
Proof.
  intros Hl Hh. assert (Hc : exists c, cap = S c) by (exists (cap - 1)%nat; lia).
  destruct Hc as [c Hc].
  assert (Hw : head = ((head + cap) mod cap)%nat).
  { replace (head + cap)%nat with (head + 1 * cap)%nat by lia.
    rewrite Nat.Div0.mod_add. symmetry. apply Nat.mod_small. lia. }
  transitivity (ring_list buf ((head + 1) mod cap)%nat c ++ [x]).
  - replace (ring_list _ _ cap)
      with (ring_list (<[head:=x]> buf) ((head + 1) mod cap)%nat (S c)) by congruence.
    rewrite ring_list_S, ring_succ_at, <- Hc. f_equal.
    + apply ring_list_insert_dropped; lia.
    + unfold ring_at. rewrite <- Hw. f_equal. apply list_lookup_total_insert_eq. lia.
  - replace (ring_list buf head cap) with (ring_list buf head (S c)) by congruence.
    by rewrite ring_list_pop.
Qed.
End ring.
