(* ===== verification/AgentTaskRuntime.v ===== *)
(** * The agent task runtime (core/agent_task_runtime.h, .c): definitions

    One runtime holds an active turn and a circular queue of pending turns.
    Each exported operation is a function from the runtime to the result code
    and the runtime after the call.  [size_t] indices are [nat]; identifiers
    are C strings in buffers of [SI_AGENT_TASK_ID_MAX + 1] bytes; enumeration
    arguments that the code range-checks are raw integers. *)

From S2P Require Import Prelude RingBuffer.

Definition SI_AGENT_TASK_ID_MAX : nat := 48.
Definition SI_AGENT_TASK_PENDING_CAPACITY : nat := 8.
Definition SI_AGENT_TASK_STEP_CAPACITY : nat := 16.

Inductive si_agent_task_result_t :=
  | SI_AGENT_TASK_OK
  | SI_AGENT_TASK_ERR_INVALID_ARGUMENT
  | SI_AGENT_TASK_ERR_INVALID_ID
  | SI_AGENT_TASK_ERR_TIME_REGRESSION
  | SI_AGENT_TASK_ERR_QUEUE_FULL
  | SI_AGENT_TASK_ERR_NO_ACTIVE_TURN
  | SI_AGENT_TASK_ERR_CONFLICT
  | SI_AGENT_TASK_ERR_INVALID_TRANSITION
  | SI_AGENT_TASK_ERR_CAPACITY
  | SI_AGENT_TASK_ERR_NOT_FOUND
  | SI_AGENT_TASK_ERR_VERIFICATION_REQUIRED.

Inductive si_agent_turn_status_t :=
  | SI_AGENT_TURN_QUEUED
  | SI_AGENT_TURN_UNDERSTANDING
  | SI_AGENT_TURN_PLANNING
  | SI_AGENT_TURN_GATHERING_CONTEXT
  | SI_AGENT_TURN_EXECUTING
  | SI_AGENT_TURN_WAITING_REQUEST
  | SI_AGENT_TURN_WAITING_USER
  | SI_AGENT_TURN_PAUSED
  | SI_AGENT_TURN_VERIFYING
  | SI_AGENT_TURN_BLOCKED
  | SI_AGENT_TURN_COMPLETED
  | SI_AGENT_TURN_FAILED
  | SI_AGENT_TURN_INTERRUPTED
  | SI_AGENT_TURN_CANCELLED
  | SI_AGENT_TURN_OUTCOME_UNKNOWN.

Inductive si_agent_run_attempt_status_t :=
  | SI_AGENT_RUN_ATTEMPT_RUNNING
  | SI_AGENT_RUN_ATTEMPT_PAUSED
  | SI_AGENT_RUN_ATTEMPT_COMPLETED
  | SI_AGENT_RUN_ATTEMPT_FAILED
  | SI_AGENT_RUN_ATTEMPT_INTERRUPTED
  | SI_AGENT_RUN_ATTEMPT_CANCELLED
  | SI_AGENT_RUN_ATTEMPT_OUTCOME_UNKNOWN.

Inductive si_agent_plan_status_t :=
  | SI_AGENT_PLAN_ACTIVE
  | SI_AGENT_PLAN_COMPLETED
  | SI_AGENT_PLAN_FAILED
  | SI_AGENT_PLAN_OUTCOME_UNKNOWN.

Inductive si_agent_step_status_t :=
  | SI_AGENT_STEP_PENDING
  | SI_AGENT_STEP_IN_PROGRESS
  | SI_AGENT_STEP_COMPLETED
  | SI_AGENT_STEP_BLOCKED
  | SI_AGENT_STEP_SKIPPED
  | SI_AGENT_STEP_FAILED
  | SI_AGENT_STEP_OUTCOME_UNKNOWN.

Inductive si_agent_verification_status_t :=
  | SI_AGENT_VERIFICATION_UNRECORDED
  | SI_AGENT_VERIFICATION_PASSED
  | SI_AGENT_VERIFICATION_FAILED
  | SI_AGENT_VERIFICATION_OUTCOME_UNKNOWN.

#[export] Instance task_result_eq_dec : EqDecision si_agent_task_result_t.
Proof. solve_decision. Defined.
#[export] Instance turn_status_eq_dec : EqDecision si_agent_turn_status_t.
Proof. solve_decision. Defined.
#[export] Instance run_attempt_status_eq_dec : EqDecision si_agent_run_attempt_status_t.
Proof. solve_decision. Defined.
#[export] Instance plan_status_eq_dec : EqDecision si_agent_plan_status_t.
Proof. solve_decision. Defined.
#[export] Instance step_status_eq_dec : EqDecision si_agent_step_status_t.
Proof. solve_decision. Defined.
#[export] Instance verification_status_eq_dec : EqDecision si_agent_verification_status_t.
Proof. solve_decision. Defined.

#[export] Instance task_result_enum : CEnum si_agent_task_result_t.
Proof.
  enum_of [SI_AGENT_TASK_OK; SI_AGENT_TASK_ERR_INVALID_ARGUMENT;
    SI_AGENT_TASK_ERR_INVALID_ID; SI_AGENT_TASK_ERR_TIME_REGRESSION;
    SI_AGENT_TASK_ERR_QUEUE_FULL; SI_AGENT_TASK_ERR_NO_ACTIVE_TURN;
    SI_AGENT_TASK_ERR_CONFLICT; SI_AGENT_TASK_ERR_INVALID_TRANSITION;
    SI_AGENT_TASK_ERR_CAPACITY; SI_AGENT_TASK_ERR_NOT_FOUND;
    SI_AGENT_TASK_ERR_VERIFICATION_REQUIRED].
Defined.
#[export] Instance turn_status_enum : CEnum si_agent_turn_status_t.
Proof.
  enum_of [SI_AGENT_TURN_QUEUED; SI_AGENT_TURN_UNDERSTANDING;
    SI_AGENT_TURN_PLANNING; SI_AGENT_TURN_GATHERING_CONTEXT;
    SI_AGENT_TURN_EXECUTING; SI_AGENT_TURN_WAITING_REQUEST;
    SI_AGENT_TURN_WAITING_USER; SI_AGENT_TURN_PAUSED; SI_AGENT_TURN_VERIFYING;
    SI_AGENT_TURN_BLOCKED; SI_AGENT_TURN_COMPLETED; SI_AGENT_TURN_FAILED;
    SI_AGENT_TURN_INTERRUPTED; SI_AGENT_TURN_CANCELLED;
    SI_AGENT_TURN_OUTCOME_UNKNOWN].
Defined.
#[export] Instance step_status_enum : CEnum si_agent_step_status_t.
Proof.
  enum_of [SI_AGENT_STEP_PENDING; SI_AGENT_STEP_IN_PROGRESS;
    SI_AGENT_STEP_COMPLETED; SI_AGENT_STEP_BLOCKED; SI_AGENT_STEP_SKIPPED;
    SI_AGENT_STEP_FAILED; SI_AGENT_STEP_OUTCOME_UNKNOWN].
Defined.
#[export] Instance verification_status_enum : CEnum si_agent_verification_status_t.
Proof.
  enum_of [SI_AGENT_VERIFICATION_UNRECORDED; SI_AGENT_VERIFICATION_PASSED;
    SI_AGENT_VERIFICATION_FAILED; SI_AGENT_VERIFICATION_OUTCOME_UNKNOWN].
Defined.

(** ** State *)

Record si_agent_task_run_attempt_t := mk_run_attempt {
  run_attempt_id : cstring;
  attempt_number : Z;
  ra_status : si_agent_run_attempt_status_t;
  started_at_ms : Z;
  ra_updated_at_ms : Z;
  ra_ended_at_ms : Z
}.

Record si_agent_task_step_t := mk_step {
  step_id : cstring;
  st_status : si_agent_step_status_t;
  st_verification : si_agent_verification_status_t;
  st_created_at_ms : Z;
  st_updated_at_ms : Z
}.

Record si_agent_task_plan_t := mk_plan {
  plan_id : cstring;
  pl_version : Z;
  pl_status : si_agent_plan_status_t;
  step_count : nat;
  steps : list si_agent_task_step_t;
  pl_created_at_ms : Z;
  pl_updated_at_ms : Z
}.

Record si_agent_task_turn_t := mk_turn {
  tu_thread_id : cstring;
  tu_turn_id : cstring;
  tu_status : si_agent_turn_status_t;
  resume_status : si_agent_turn_status_t;
  intent_revision : Z;
  plan_version : Z;
  tu_verification : si_agent_verification_status_t;
  run_attempt : si_agent_task_run_attempt_t;
  has_plan : bool;
  plan : si_agent_task_plan_t;
  tu_created_at_ms : Z;
  tu_updated_at_ms : Z;
  tu_ended_at_ms : Z
}.

Record si_agent_task_pending_turn_t := mk_pending {
  pe_thread_id : cstring;
  pe_turn_id : cstring;
  pe_run_attempt_id : cstring;
  submitted_at_ms : Z
}.

Record si_agent_task_runtime_t := mk_runtime {
  runtime_id : cstring;
  rt_created_at_ms : Z;
  rt_updated_at_ms : Z;
  has_active_turn : bool;
  active_turn : si_agent_task_turn_t;
  pending : list si_agent_task_pending_turn_t;
  pending_head : nat;
  pending_count : nat
}.

#[export] Instance eta_run_attempt : Settable si_agent_task_run_attempt_t :=
  fun r => mk_run_attempt (run_attempt_id r) (attempt_number r) (ra_status r)
             (started_at_ms r) (ra_updated_at_ms r) (ra_ended_at_ms r).
#[export] Instance eta_step : Settable si_agent_task_step_t :=
  fun s => mk_step (step_id s) (st_status s) (st_verification s)
             (st_created_at_ms s) (st_updated_at_ms s).
#[export] Instance eta_plan : Settable si_agent_task_plan_t :=
  fun p => mk_plan (plan_id p) (pl_version p) (pl_status p) (step_count p)
             (steps p) (pl_created_at_ms p) (pl_updated_at_ms p).
#[export] Instance eta_turn : Settable si_agent_task_turn_t :=
  fun t => mk_turn (tu_thread_id t) (tu_turn_id t) (tu_status t)
             (resume_status t) (intent_revision t) (plan_version t)
             (tu_verification t) (run_attempt t) (has_plan t) (plan t)
             (tu_created_at_ms t) (tu_updated_at_ms t) (tu_ended_at_ms t).
#[export] Instance eta_runtime : Settable si_agent_task_runtime_t :=
  fun r => mk_runtime (runtime_id r) (rt_created_at_ms r) (rt_updated_at_ms r)
             (has_active_turn r) (active_turn r) (pending r) (pending_head r)
             (pending_count r).

(** [memset(.., 0, sizeof ..)] of each structure. *)
Definition zero_run_attempt : si_agent_task_run_attempt_t :=
  mk_run_attempt [] 0 SI_AGENT_RUN_ATTEMPT_RUNNING 0 0 0.
Definition zero_step : si_agent_task_step_t :=
  mk_step [] SI_AGENT_STEP_PENDING SI_AGENT_VERIFICATION_UNRECORDED 0 0.
Definition zero_plan : si_agent_task_plan_t :=
  mk_plan [] 0 SI_AGENT_PLAN_ACTIVE 0
    (replicate SI_AGENT_TASK_STEP_CAPACITY zero_step) 0 0.
Definition zero_turn : si_agent_task_turn_t :=
  mk_turn [] [] SI_AGENT_TURN_QUEUED SI_AGENT_TURN_QUEUED 0 0
    SI_AGENT_VERIFICATION_UNRECORDED zero_run_attempt false zero_plan 0 0 0.
Definition zero_pending : si_agent_task_pending_turn_t := mk_pending [] [] [] 0.
Definition zero_runtime : si_agent_task_runtime_t :=
  mk_runtime [] 0 0 false zero_turn
    (replicate SI_AGENT_TASK_PENDING_CAPACITY zero_pending) 0 0.

#[export] Instance step_inhabited : Inhabited si_agent_task_step_t := populate zero_step.
#[export] Instance pending_inhabited : Inhabited si_agent_task_pending_turn_t :=
  populate zero_pending.

(** ** Helpers *)

Fixpoint id_valid_loop (length : nat) (value : cstring) : bool :=
  match value with
  | [] => true
  | c :: rest =>
      if (SI_AGENT_TASK_ID_MAX <=? length)%nat || (c <=? 0x20) || (0x7f <=? c)
      then false
      else id_valid_loop (S length) rest
  end.

Definition id_valid (value : option cstring) : bool :=
  match value with
  | None => false
  | Some v => if is_empty v then false else id_valid_loop 0 v
  end.

(** [strlen] then [memcpy] of the bytes and the terminator: the buffer holds
    the same string ([id_valid_fits] below: the copy stays in the buffer). *)
Definition copy_id (value : cstring) : cstring := value.

Definition runtime_initialized (rt : si_agent_task_runtime_t) : bool :=
  negb (is_empty (runtime_id rt)).

Definition time_valid (rt : si_agent_task_runtime_t) (now_ms : Z) : bool :=
  runtime_initialized rt && (rt_updated_at_ms rt <=? now_ms).

Definition si_agent_turn_status_is_terminal (status : si_agent_turn_status_t) : bool :=
  match status with
  | SI_AGENT_TURN_COMPLETED | SI_AGENT_TURN_FAILED | SI_AGENT_TURN_INTERRUPTED
  | SI_AGENT_TURN_CANCELLED | SI_AGENT_TURN_OUTCOME_UNKNOWN => true
  | _ => false
  end.

Definition phase_status_valid (status : si_agent_turn_status_t) : bool :=
  match status with
  | SI_AGENT_TURN_UNDERSTANDING | SI_AGENT_TURN_PLANNING
  | SI_AGENT_TURN_GATHERING_CONTEXT | SI_AGENT_TURN_EXECUTING
  | SI_AGENT_TURN_WAITING_REQUEST | SI_AGENT_TURN_WAITING_USER
  | SI_AGENT_TURN_VERIFYING | SI_AGENT_TURN_BLOCKED => true
  | _ => false
  end.

Definition phase_transition_allowed (from to : si_agent_turn_status_t) : bool :=
  if decide (from = to) then true else
  match from with
  | SI_AGENT_TURN_UNDERSTANDING =>
      bool_decide (to ∈ [SI_AGENT_TURN_PLANNING; SI_AGENT_TURN_GATHERING_CONTEXT;
        SI_AGENT_TURN_EXECUTING; SI_AGENT_TURN_WAITING_REQUEST;
        SI_AGENT_TURN_WAITING_USER; SI_AGENT_TURN_VERIFYING; SI_AGENT_TURN_BLOCKED])
  | SI_AGENT_TURN_PLANNING =>
      bool_decide (to ∈ [SI_AGENT_TURN_GATHERING_CONTEXT; SI_AGENT_TURN_EXECUTING;
        SI_AGENT_TURN_WAITING_REQUEST; SI_AGENT_TURN_WAITING_USER;
        SI_AGENT_TURN_VERIFYING; SI_AGENT_TURN_BLOCKED])
  | SI_AGENT_TURN_GATHERING_CONTEXT =>
      bool_decide (to ∈ [SI_AGENT_TURN_PLANNING; SI_AGENT_TURN_EXECUTING;
        SI_AGENT_TURN_WAITING_REQUEST; SI_AGENT_TURN_WAITING_USER;
        SI_AGENT_TURN_VERIFYING; SI_AGENT_TURN_BLOCKED])
  | SI_AGENT_TURN_EXECUTING =>
      bool_decide (to ∈ [SI_AGENT_TURN_PLANNING; SI_AGENT_TURN_GATHERING_CONTEXT;
        SI_AGENT_TURN_WAITING_REQUEST; SI_AGENT_TURN_WAITING_USER;
        SI_AGENT_TURN_VERIFYING; SI_AGENT_TURN_BLOCKED])
  | SI_AGENT_TURN_WAITING_REQUEST =>
      bool_decide (to ∈ [SI_AGENT_TURN_PLANNING; SI_AGENT_TURN_GATHERING_CONTEXT;
        SI_AGENT_TURN_EXECUTING; SI_AGENT_TURN_WAITING_USER; SI_AGENT_TURN_BLOCKED])
  | SI_AGENT_TURN_WAITING_USER =>
      bool_decide (to ∈ [SI_AGENT_TURN_PLANNING; SI_AGENT_TURN_GATHERING_CONTEXT;
        SI_AGENT_TURN_EXECUTING; SI_AGENT_TURN_WAITING_REQUEST; SI_AGENT_TURN_BLOCKED])
  | SI_AGENT_TURN_VERIFYING =>
      bool_decide (to ∈ [SI_AGENT_TURN_PLANNING; SI_AGENT_TURN_GATHERING_CONTEXT;
        SI_AGENT_TURN_EXECUTING; SI_AGENT_TURN_WAITING_REQUEST;
        SI_AGENT_TURN_WAITING_USER; SI_AGENT_TURN_BLOCKED])
  | SI_AGENT_TURN_BLOCKED =>
      bool_decide (to ∈ [SI_AGENT_TURN_UNDERSTANDING; SI_AGENT_TURN_PLANNING;
        SI_AGENT_TURN_GATHERING_CONTEXT; SI_AGENT_TURN_EXECUTING;
        SI_AGENT_TURN_WAITING_REQUEST; SI_AGENT_TURN_WAITING_USER;
        SI_AGENT_TURN_VERIFYING])
  | _ => false
  end.

Definition set_run_status (turn : si_agent_task_turn_t)
    (status : si_agent_run_attempt_status_t) (now_ms : Z) (ended : bool)
  : si_agent_task_turn_t :=
  turn <| run_attempt := (run_attempt turn)
            <| ra_status := status |>
            <| ra_updated_at_ms := now_ms |>
            <| ra_ended_at_ms := if ended then now_ms else 0 |> |>.

Definition apply_turn_status (rt : si_agent_task_runtime_t)
    (status : si_agent_turn_status_t) (now_ms : Z) : si_agent_task_runtime_t :=
  let turn := (active_turn rt)
    <| tu_status := status |> <| tu_updated_at_ms := now_ms |> in
  let rt := rt <| rt_updated_at_ms := now_ms |> in
  let ended run := set_run_status (turn <| tu_ended_at_ms := now_ms |>) run now_ms true in
  rt <| active_turn :=
    match status with
    | SI_AGENT_TURN_PAUSED =>
        set_run_status turn SI_AGENT_RUN_ATTEMPT_PAUSED now_ms false
    | SI_AGENT_TURN_COMPLETED => ended SI_AGENT_RUN_ATTEMPT_COMPLETED
    | SI_AGENT_TURN_FAILED => ended SI_AGENT_RUN_ATTEMPT_FAILED
    | SI_AGENT_TURN_INTERRUPTED => ended SI_AGENT_RUN_ATTEMPT_INTERRUPTED
    | SI_AGENT_TURN_CANCELLED => ended SI_AGENT_RUN_ATTEMPT_CANCELLED
    | SI_AGENT_TURN_OUTCOME_UNKNOWN => ended SI_AGENT_RUN_ATTEMPT_OUTCOME_UNKNOWN
    | _ => set_run_status (turn <| tu_ended_at_ms := 0 |>)
             SI_AGENT_RUN_ATTEMPT_RUNNING now_ms false
    end |>.

Definition start_turn (rt : si_agent_task_runtime_t)
    (submission : si_agent_task_pending_turn_t) (now_ms : Z)
  : si_agent_task_runtime_t :=
  let turn := zero_turn
    <| tu_thread_id := copy_id (pe_thread_id submission) |>
    <| tu_turn_id := copy_id (pe_turn_id submission) |>
    <| tu_status := SI_AGENT_TURN_UNDERSTANDING |>
    <| resume_status := SI_AGENT_TURN_UNDERSTANDING |>
    <| intent_revision := 1 |>
    <| plan_version := 1 |>
    <| tu_verification := SI_AGENT_VERIFICATION_UNRECORDED |>
    <| tu_created_at_ms := submitted_at_ms submission |>
    <| tu_updated_at_ms := now_ms |>
    <| run_attempt := zero_run_attempt
         <| run_attempt_id := copy_id (pe_run_attempt_id submission) |>
         <| attempt_number := 1 |>
         <| ra_status := SI_AGENT_RUN_ATTEMPT_RUNNING |>
         <| started_at_ms := now_ms |>
         <| ra_updated_at_ms := now_ms |> |> in
  rt <| active_turn := turn |> <| has_active_turn := true |>
     <| rt_updated_at_ms := now_ms |>.

(** The pending turns in queue order, as the loops of [id_in_use] and
    [run_attempt_id_in_use] visit them. *)
Definition pending_queue (rt : si_agent_task_runtime_t)
  : list si_agent_task_pending_turn_t :=
  ring_list SI_AGENT_TASK_PENDING_CAPACITY (pending rt) (pending_head rt)
    (pending_count rt).

Definition id_in_use (rt : si_agent_task_runtime_t)
    (turn_id run_id : cstring) : bool :=
  if has_active_turn rt &&
     (streq (tu_turn_id (active_turn rt)) turn_id ||
      streq (run_attempt_id (run_attempt (active_turn rt))) run_id)
  then true
  else existsb (fun p => streq (pe_turn_id p) turn_id ||
                         streq (pe_run_attempt_id p) run_id) (pending_queue rt).

Definition run_attempt_id_in_use (rt : si_agent_task_runtime_t)
    (run_id : cstring) : bool :=
  if has_active_turn rt &&
     streq (run_attempt_id (run_attempt (active_turn rt))) run_id
  then true
  else existsb (fun p => streq (pe_run_attempt_id p) run_id) (pending_queue rt).

Definition active_for_update (rt : si_agent_task_runtime_t) (now_ms : Z)
  : si_agent_task_result_t :=
  if negb (runtime_initialized rt) then SI_AGENT_TASK_ERR_INVALID_ARGUMENT
  else if negb (time_valid rt now_ms) then SI_AGENT_TASK_ERR_TIME_REGRESSION
  else if negb (has_active_turn rt) then SI_AGENT_TASK_ERR_NO_ACTIVE_TURN
  else SI_AGENT_TASK_OK.

(** [result = active_for_update(..., &turn); if (result != OK) return result;]
    at the head of every operation on the active turn. *)
Definition with_active {A} (rt : si_agent_task_runtime_t) (now_ms : Z)
    (err : si_agent_task_result_t -> A) (k : si_agent_task_turn_t -> A) : A :=
  match active_for_update rt now_ms with
  | SI_AGENT_TASK_OK => k (active_turn rt)
  | e => err e
  end.

(** The index of the first of the [step_count] steps with this id. *)
Definition find_step (p : si_agent_task_plan_t) (id : cstring) : option nat :=
  fst <$> list_find (fun s => step_id s = id) (take (step_count p) (steps p)).

Definition step_transition_allowed (from to : si_agent_step_status_t) : bool :=
  if decide (from = to) then true else
  match from with
  | SI_AGENT_STEP_PENDING =>
      bool_decide (to ∈ [SI_AGENT_STEP_IN_PROGRESS; SI_AGENT_STEP_SKIPPED])
  | SI_AGENT_STEP_IN_PROGRESS =>
      bool_decide (to ∈ [SI_AGENT_STEP_COMPLETED; SI_AGENT_STEP_BLOCKED;
                         SI_AGENT_STEP_FAILED; SI_AGENT_STEP_OUTCOME_UNKNOWN])
  | SI_AGENT_STEP_BLOCKED =>
      bool_decide (to ∈ [SI_AGENT_STEP_IN_PROGRESS; SI_AGENT_STEP_SKIPPED;
                         SI_AGENT_STEP_FAILED; SI_AGENT_STEP_OUTCOME_UNKNOWN])
  | SI_AGENT_STEP_OUTCOME_UNKNOWN =>
      bool_decide (to ∈ [SI_AGENT_STEP_IN_PROGRESS; SI_AGENT_STEP_FAILED])
  | SI_AGENT_STEP_COMPLETED | SI_AGENT_STEP_SKIPPED | SI_AGENT_STEP_FAILED => false
  end.

Definition in_progress (s : si_agent_task_step_t) : bool :=
  bool_decide (st_status s = SI_AGENT_STEP_IN_PROGRESS).

Definition another_step_in_progress (p : si_agent_task_plan_t) (selected : nat)
  : bool :=
  existsb (fun '(i, s) => negb (Nat.eqb i selected) && in_progress s)
    (imap pair (take (step_count p) (steps p))).

(** The loop of [refresh_plan_status] over [(all_finished, has_failed,
    has_unknown)]. *)
Definition refresh_step (flags : bool * bool * bool) (s : si_agent_task_step_t)
  : bool * bool * bool :=
  let '(all_finished, has_failed, has_unknown) := flags in
  match st_status s with
  | SI_AGENT_STEP_COMPLETED | SI_AGENT_STEP_SKIPPED => flags
  | SI_AGENT_STEP_FAILED => (false, true, has_unknown)
  | SI_AGENT_STEP_OUTCOME_UNKNOWN => (false, has_failed, true)
  | _ => (false, has_failed, has_unknown)
  end.

Definition refresh_plan_status (p : si_agent_task_plan_t) (now_ms : Z)
  : si_agent_task_plan_t :=
  let '(all_finished, has_failed, has_unknown) :=
    fold_left refresh_step (take (step_count p) (steps p))
      (Nat.ltb 0 (step_count p), false, false) in
  p <| pl_status :=
         if has_unknown then SI_AGENT_PLAN_OUTCOME_UNKNOWN
         else if has_failed then SI_AGENT_PLAN_FAILED
         else if all_finished then SI_AGENT_PLAN_COMPLETED
         else SI_AGENT_PLAN_ACTIVE |>
    <| pl_updated_at_ms := now_ms |>.

Definition step_outcome_unknown (now_ms : Z) (s : si_agent_task_step_t)
  : si_agent_task_step_t :=
  if in_progress s
  then s <| st_status := SI_AGENT_STEP_OUTCOME_UNKNOWN |>
         <| st_verification := SI_AGENT_VERIFICATION_OUTCOME_UNKNOWN |>
         <| st_updated_at_ms := now_ms |>
  else s.

(** The turn part of [set_outcome_unknown], before [apply_turn_status]. *)
Definition mark_turn_unknown (turn : si_agent_task_turn_t) (now_ms : Z)
  : si_agent_task_turn_t :=
  let turn := turn <| tu_verification := SI_AGENT_VERIFICATION_OUTCOME_UNKNOWN |> in
  let p := plan turn in
  if has_plan turn
  then turn <| plan := p
         <| steps := (step_outcome_unknown now_ms <$> take (step_count p) (steps p))
                     ++ drop (step_count p) (steps p) |>
         <| pl_status := SI_AGENT_PLAN_OUTCOME_UNKNOWN |>
         <| pl_updated_at_ms := now_ms |> |>
  else turn.

Definition set_outcome_unknown (rt : si_agent_task_runtime_t) (now_ms : Z)
  : si_agent_task_runtime_t :=
  let turn := mark_turn_unknown (active_turn rt) now_ms in
  apply_turn_status (rt <| active_turn := turn |>)
    SI_AGENT_TURN_OUTCOME_UNKNOWN now_ms.

(** [turn->updated_at_ms = now_ms; turn->run_attempt.updated_at_ms = now_ms;
    runtime->updated_at_ms = now_ms] with the turn written back. *)
Definition touch (rt : si_agent_task_runtime_t) (turn : si_agent_task_turn_t)
    (now_ms : Z) : si_agent_task_runtime_t :=
  rt <| active_turn := turn
          <| tu_updated_at_ms := now_ms |>
          <| run_attempt := (run_attempt turn) <| ra_updated_at_ms := now_ms |> |> |>
     <| rt_updated_at_ms := now_ms |>.

(** ** Exported operations *)

Definition si_agent_task_runtime_init (rt : si_agent_task_runtime_t)
    (id : option cstring) (now_ms : Z)
  : si_agent_task_result_t * si_agent_task_runtime_t :=
  return_if negb (id_valid id) with (SI_AGENT_TASK_ERR_INVALID_ID, rt) ;;
  (SI_AGENT_TASK_OK,
   zero_runtime <| runtime_id := copy_id (deref id) |>
     <| rt_created_at_ms := now_ms |> <| rt_updated_at_ms := now_ms |>).

(** The boolean is [*started_out]. *)
Definition si_agent_task_runtime_submit (rt : si_agent_task_runtime_t)
    (thread_id turn_id run_id : option cstring) (now_ms : Z)
  : si_agent_task_result_t * bool * si_agent_task_runtime_t :=
  return_if negb (runtime_initialized rt)
    with (SI_AGENT_TASK_ERR_INVALID_ARGUMENT, false, rt) ;;
  return_if negb (id_valid thread_id) || negb (id_valid turn_id) || negb (id_valid run_id)
    with (SI_AGENT_TASK_ERR_INVALID_ID, false, rt) ;;
  return_if negb (time_valid rt now_ms)
    with (SI_AGENT_TASK_ERR_TIME_REGRESSION, false, rt) ;;
  return_if id_in_use rt (deref turn_id) (deref run_id)
    with (SI_AGENT_TASK_ERR_CONFLICT, false, rt) ;;
  let submission := mk_pending (copy_id (deref thread_id)) (copy_id (deref turn_id))
    (copy_id (deref run_id)) now_ms in
  return_if negb (has_active_turn rt)
    with (SI_AGENT_TASK_OK, true, start_turn rt submission now_ms) ;;
  return_if (SI_AGENT_TASK_PENDING_CAPACITY <=? pending_count rt)%nat
    with (SI_AGENT_TASK_ERR_QUEUE_FULL, false, rt) ;;
  let tail := ((pending_head rt + pending_count rt)
                mod SI_AGENT_TASK_PENDING_CAPACITY)%nat in
  (SI_AGENT_TASK_OK, false,
   rt <| pending := <[tail := submission]> (pending rt) |>
      <| pending_count := S (pending_count rt) |>
      <| rt_updated_at_ms := now_ms |>).

Definition si_agent_task_runtime_advance_queue (rt : si_agent_task_runtime_t)
    (now_ms : Z) : si_agent_task_result_t * bool * si_agent_task_runtime_t :=
  return_if negb (runtime_initialized rt)
    with (SI_AGENT_TASK_ERR_INVALID_ARGUMENT, false, rt) ;;
  return_if negb (time_valid rt now_ms)
    with (SI_AGENT_TASK_ERR_TIME_REGRESSION, false, rt) ;;
  return_if has_active_turn rt &&
            negb (si_agent_turn_status_is_terminal (tu_status (active_turn rt)))
    with (SI_AGENT_TASK_ERR_CONFLICT, false, rt) ;;
  let rt := if has_active_turn rt
            then rt <| active_turn := zero_turn |> <| has_active_turn := false |>
            else rt in
  return_if (pending_count rt =? 0)%nat
    with (SI_AGENT_TASK_OK, false, rt <| rt_updated_at_ms := now_ms |>) ;;
  let submission := pending rt !!! pending_head rt in
  let rt := rt <| pending := <[pending_head rt := zero_pending]> (pending rt) |>
               <| pending_head :=
                    ((pending_head rt + 1) mod SI_AGENT_TASK_PENDING_CAPACITY)%nat |>
               <| pending_count := (pending_count rt - 1)%nat |> in
  (SI_AGENT_TASK_OK, true, start_turn rt submission now_ms).

Definition si_agent_task_runtime_active (rt : si_agent_task_runtime_t)
  : option si_agent_task_turn_t :=
  if negb (runtime_initialized rt) || negb (has_active_turn rt)
  then None else Some (active_turn rt).

Definition si_agent_task_runtime_pending_at (rt : si_agent_task_runtime_t)
    (index : nat) : option si_agent_task_pending_turn_t :=
  if negb (runtime_initialized rt) || (pending_count rt <=? index)%nat
  then None
  else Some (pending rt !!!
         ((pending_head rt + index) mod SI_AGENT_TASK_PENDING_CAPACITY)%nat).

Definition si_agent_task_runtime_pending_count (rt : si_agent_task_runtime_t) : nat :=
  if runtime_initialized rt then pending_count rt else 0%nat.

Abbreviation outcome := (si_agent_task_result_t * si_agent_task_runtime_t)%type.

Definition si_agent_task_runtime_set_phase (rt : si_agent_task_runtime_t)
    (status : Z) (now_ms : Z) : outcome :=
  with_active rt now_ms (fun e => (e, rt)) (fun turn =>
  match enum_of_Z status with
  | None => (SI_AGENT_TASK_ERR_INVALID_TRANSITION, rt)
  | Some status =>
      return_if negb (phase_status_valid status) ||
                negb (phase_transition_allowed (tu_status turn) status)
        with (SI_AGENT_TASK_ERR_INVALID_TRANSITION, rt) ;;
      (SI_AGENT_TASK_OK, apply_turn_status rt status now_ms)
  end).

Definition si_agent_task_runtime_begin_plan (rt : si_agent_task_runtime_t)
    (id : option cstring) (now_ms : Z) : outcome :=
  with_active rt now_ms (fun e => (e, rt)) (fun turn =>
  return_if negb (id_valid id) with (SI_AGENT_TASK_ERR_INVALID_ID, rt) ;;
  return_if bool_decide (tu_status turn <> SI_AGENT_TURN_PLANNING)
    with (SI_AGENT_TASK_ERR_INVALID_TRANSITION, rt) ;;
  return_if has_plan turn && (plan_version turn =? UINT32_MAX)
    with (SI_AGENT_TASK_ERR_CONFLICT, rt) ;;
  let turn := if has_plan turn
              then turn <| plan_version := u32 (plan_version turn + 1) |>
              else turn in
  let p := zero_plan
    <| plan_id := copy_id (deref id) |>
    <| pl_version := plan_version turn |>
    <| pl_status := SI_AGENT_PLAN_ACTIVE |>
    <| pl_created_at_ms := now_ms |>
    <| pl_updated_at_ms := now_ms |> in
  (SI_AGENT_TASK_OK,
   touch rt (turn <| plan := p |> <| has_plan := true |>
              <| tu_verification := SI_AGENT_VERIFICATION_UNRECORDED |>) now_ms)).

Definition si_agent_task_runtime_add_step (rt : si_agent_task_runtime_t)
    (id : option cstring) (now_ms : Z) : outcome :=
  with_active rt now_ms (fun e => (e, rt)) (fun turn =>
  let p := plan turn in
  return_if negb (id_valid id) with (SI_AGENT_TASK_ERR_INVALID_ID, rt) ;;
  return_if bool_decide (tu_status turn <> SI_AGENT_TURN_PLANNING) ||
            negb (has_plan turn) ||
            bool_decide (pl_status p <> SI_AGENT_PLAN_ACTIVE)
    with (SI_AGENT_TASK_ERR_INVALID_TRANSITION, rt) ;;
  return_if bool_decide (is_Some (find_step p (deref id)))
    with (SI_AGENT_TASK_ERR_CONFLICT, rt) ;;
  return_if (SI_AGENT_TASK_STEP_CAPACITY <=? step_count p)%nat
    with (SI_AGENT_TASK_ERR_CAPACITY, rt) ;;
  let step := zero_step
    <| step_id := copy_id (deref id) |>
    <| st_status := SI_AGENT_STEP_PENDING |>
    <| st_verification := SI_AGENT_VERIFICATION_UNRECORDED |>
    <| st_created_at_ms := now_ms |>
    <| st_updated_at_ms := now_ms |> in
  let p := p <| steps := <[step_count p := step]> (steps p) |>
             <| step_count := S (step_count p) |>
             <| pl_updated_at_ms := now_ms |> in
  (SI_AGENT_TASK_OK, touch rt (turn <| plan := p |>) now_ms)).

Definition si_agent_task_runtime_set_step_status (rt : si_agent_task_runtime_t)
    (id : option cstring) (status : Z) (now_ms : Z) : outcome :=
  with_active rt now_ms (fun e => (e, rt)) (fun turn =>
  return_if negb (id_valid id) with (SI_AGENT_TASK_ERR_INVALID_ID, rt) ;;
  return_if si_agent_turn_status_is_terminal (tu_status turn) ||
            bool_decide (tu_status turn = SI_AGENT_TURN_PAUSED) ||
            negb (has_plan turn)
    with (SI_AGENT_TASK_ERR_INVALID_TRANSITION, rt) ;;
  match find_step (plan turn) (deref id) with
  | None => (SI_AGENT_TASK_ERR_NOT_FOUND, rt)
  | Some i =>
  let step := steps (plan turn) !!! i in
  match enum_of_Z status with
  | None => (SI_AGENT_TASK_ERR_INVALID_TRANSITION, rt)
  | Some status =>
  return_if negb (step_transition_allowed (st_status step) status)
    with (SI_AGENT_TASK_ERR_INVALID_TRANSITION, rt) ;;
  return_if bool_decide (status = SI_AGENT_STEP_IN_PROGRESS) &&
            another_step_in_progress (plan turn) i
    with (SI_AGENT_TASK_ERR_CONFLICT, rt) ;;
  return_if bool_decide (status = SI_AGENT_STEP_COMPLETED) &&
            bool_decide (st_verification step <> SI_AGENT_VERIFICATION_PASSED)
    with (SI_AGENT_TASK_ERR_VERIFICATION_REQUIRED, rt) ;;
  let unknown := bool_decide (status = SI_AGENT_STEP_OUTCOME_UNKNOWN) in
  let step := if unknown
    then step <| st_verification := SI_AGENT_VERIFICATION_OUTCOME_UNKNOWN |>
    else step in
  let step := step <| st_status := status |> <| st_updated_at_ms := now_ms |> in
  let p := refresh_plan_status
    ((plan turn) <| steps := <[i := step]> (steps (plan turn)) |>) now_ms in
  let turn := turn <| plan := p |> in
  (SI_AGENT_TASK_OK,
   if unknown then set_outcome_unknown (rt <| active_turn := turn |>) now_ms
   else touch rt turn now_ms)
  end end).

Definition si_agent_task_runtime_record_step_verification
    (rt : si_agent_task_runtime_t) (id : option cstring) (verification : Z)
    (now_ms : Z) : outcome :=
  with_active rt now_ms (fun e => (e, rt)) (fun turn =>
  return_if negb (id_valid id) with (SI_AGENT_TASK_ERR_INVALID_ID, rt) ;;
  return_if (verification <=? enum_val SI_AGENT_VERIFICATION_UNRECORDED) ||
            (enum_val SI_AGENT_VERIFICATION_OUTCOME_UNKNOWN <? verification)
    with (SI_AGENT_TASK_ERR_INVALID_ARGUMENT, rt) ;;
  let verification :=
    default SI_AGENT_VERIFICATION_UNRECORDED (enum_of_Z verification) in
  return_if si_agent_turn_status_is_terminal (tu_status turn) ||
            bool_decide (tu_status turn = SI_AGENT_TURN_PAUSED) ||
            negb (has_plan turn)
    with (SI_AGENT_TASK_ERR_INVALID_TRANSITION, rt) ;;
  match find_step (plan turn) (deref id) with
  | None => (SI_AGENT_TASK_ERR_NOT_FOUND, rt)
  | Some i =>
  let step := steps (plan turn) !!! i in
  return_if bool_decide (st_status step <> SI_AGENT_STEP_IN_PROGRESS)
    with (SI_AGENT_TASK_ERR_INVALID_TRANSITION, rt) ;;
  let step := step <| st_verification := verification |>
                   <| st_updated_at_ms := now_ms |> in
  let turn := turn <| plan := (plan turn)
    <| steps := <[i := step]> (steps (plan turn)) |>
    <| pl_updated_at_ms := now_ms |> |> in
  (SI_AGENT_TASK_OK,
   if decide (verification = SI_AGENT_VERIFICATION_OUTCOME_UNKNOWN)
   then set_outcome_unknown (rt <| active_turn := turn |>) now_ms
   else touch rt turn now_ms)
  end).

Definition si_agent_task_runtime_record_turn_verification
    (rt : si_agent_task_runtime_t) (verification : Z) (now_ms : Z) : outcome :=
  with_active rt now_ms (fun e => (e, rt)) (fun turn =>
  return_if (verification <=? enum_val SI_AGENT_VERIFICATION_UNRECORDED) ||
            (enum_val SI_AGENT_VERIFICATION_OUTCOME_UNKNOWN <? verification)
    with (SI_AGENT_TASK_ERR_INVALID_ARGUMENT, rt) ;;
  let verification :=
    default SI_AGENT_VERIFICATION_UNRECORDED (enum_of_Z verification) in
  return_if bool_decide (tu_status turn <> SI_AGENT_TURN_VERIFYING)
    with (SI_AGENT_TASK_ERR_INVALID_TRANSITION, rt) ;;
  return_if bool_decide (verification = SI_AGENT_VERIFICATION_PASSED) &&
            has_plan turn &&
            bool_decide (pl_status (plan turn) <> SI_AGENT_PLAN_COMPLETED)
    with (SI_AGENT_TASK_ERR_VERIFICATION_REQUIRED, rt) ;;
  let turn := turn <| tu_verification := verification |> in
  (SI_AGENT_TASK_OK,
   if decide (verification = SI_AGENT_VERIFICATION_OUTCOME_UNKNOWN)
   then set_outcome_unknown (rt <| active_turn := turn |>) now_ms
   else touch rt turn now_ms)).

Definition si_agent_task_runtime_steer (rt : si_agent_task_runtime_t)
    (now_ms : Z) : outcome :=
  with_active rt now_ms (fun e => (e, rt)) (fun turn =>
  return_if si_agent_turn_status_is_terminal (tu_status turn)
    with (SI_AGENT_TASK_ERR_INVALID_TRANSITION, rt) ;;
  return_if (intent_revision turn =? UINT32_MAX) || (plan_version turn =? UINT32_MAX)
    with (SI_AGENT_TASK_ERR_CONFLICT, rt) ;;
  let turn := turn
    <| intent_revision := u32 (intent_revision turn + 1) |>
    <| plan_version := u32 (plan_version turn + 1) |>
    <| tu_verification := SI_AGENT_VERIFICATION_UNRECORDED |>
    <| has_plan := false |>
    <| plan := zero_plan |>
    <| resume_status := SI_AGENT_TURN_PLANNING |> in
  (SI_AGENT_TASK_OK,
   if decide (tu_status turn = SI_AGENT_TURN_PAUSED) then touch rt turn now_ms
   else apply_turn_status (rt <| active_turn := turn |>)
          SI_AGENT_TURN_PLANNING now_ms)).

Definition si_agent_task_runtime_pause (rt : si_agent_task_runtime_t)
    (now_ms : Z) : outcome :=
  with_active rt now_ms (fun e => (e, rt)) (fun turn =>
  return_if bool_decide (tu_status turn = SI_AGENT_TURN_PAUSED) ||
            si_agent_turn_status_is_terminal (tu_status turn)
    with (SI_AGENT_TASK_ERR_INVALID_TRANSITION, rt) ;;
  let turn := turn <| resume_status := tu_status turn |> in
  (SI_AGENT_TASK_OK,
   apply_turn_status (rt <| active_turn := turn |>) SI_AGENT_TURN_PAUSED now_ms)).

Definition si_agent_task_runtime_resume (rt : si_agent_task_runtime_t)
    (now_ms : Z) : outcome :=
  with_active rt now_ms (fun e => (e, rt)) (fun turn =>
  return_if bool_decide (tu_status turn <> SI_AGENT_TURN_PAUSED) ||
            negb (phase_status_valid (resume_status turn))
    with (SI_AGENT_TASK_ERR_INVALID_TRANSITION, rt) ;;
  (SI_AGENT_TASK_OK, apply_turn_status rt (resume_status turn) now_ms)).

Definition si_agent_task_runtime_cancel (rt : si_agent_task_runtime_t)
    (now_ms : Z) : outcome :=
  with_active rt now_ms (fun e => (e, rt)) (fun turn =>
  return_if si_agent_turn_status_is_terminal (tu_status turn)
    with (SI_AGENT_TASK_ERR_INVALID_TRANSITION, rt) ;;
  (SI_AGENT_TASK_OK, apply_turn_status rt SI_AGENT_TURN_CANCELLED now_ms)).

Definition si_agent_task_runtime_interrupt (rt : si_agent_task_runtime_t)
    (now_ms : Z) : outcome :=
  with_active rt now_ms (fun e => (e, rt)) (fun turn =>
  return_if si_agent_turn_status_is_terminal (tu_status turn)
    with (SI_AGENT_TASK_ERR_INVALID_TRANSITION, rt) ;;
  (SI_AGENT_TASK_OK, apply_turn_status rt SI_AGENT_TURN_INTERRUPTED now_ms)).

Definition si_agent_task_runtime_mark_outcome_unknown
    (rt : si_agent_task_runtime_t) (now_ms : Z) : outcome :=
  with_active rt now_ms (fun e => (e, rt)) (fun turn =>
  return_if si_agent_turn_status_is_terminal (tu_status turn)
    with (SI_AGENT_TASK_ERR_INVALID_TRANSITION, rt) ;;
  (SI_AGENT_TASK_OK, set_outcome_unknown rt now_ms)).

Definition si_agent_task_runtime_fail (rt : si_agent_task_runtime_t)
    (now_ms : Z) : outcome :=
  with_active rt now_ms (fun e => (e, rt)) (fun turn =>
  return_if si_agent_turn_status_is_terminal (tu_status turn)
    with (SI_AGENT_TASK_ERR_INVALID_TRANSITION, rt) ;;
  let turn :=
    if has_plan turn && bool_decide (pl_status (plan turn) = SI_AGENT_PLAN_ACTIVE)
    then turn <| plan := (plan turn) <| pl_status := SI_AGENT_PLAN_FAILED |>
                                     <| pl_updated_at_ms := now_ms |> |>
    else turn in
  (SI_AGENT_TASK_OK,
   apply_turn_status (rt <| active_turn := turn |>) SI_AGENT_TURN_FAILED now_ms)).

Definition si_agent_task_runtime_complete (rt : si_agent_task_runtime_t)
    (now_ms : Z) : outcome :=
  with_active rt now_ms (fun e => (e, rt)) (fun turn =>
  return_if bool_decide (tu_status turn <> SI_AGENT_TURN_VERIFYING)
    with (SI_AGENT_TASK_ERR_INVALID_TRANSITION, rt) ;;
  return_if bool_decide (tu_verification turn <> SI_AGENT_VERIFICATION_PASSED) ||
            (has_plan turn &&
             bool_decide (pl_status (plan turn) <> SI_AGENT_PLAN_COMPLETED))
    with (SI_AGENT_TASK_ERR_VERIFICATION_REQUIRED, rt) ;;
  (SI_AGENT_TASK_OK, apply_turn_status rt SI_AGENT_TURN_COMPLETED now_ms)).

Definition si_agent_task_runtime_retry (rt : si_agent_task_runtime_t)
    (run_id : option cstring) (now_ms : Z) : outcome :=
  with_active rt now_ms (fun e => (e, rt)) (fun turn =>
  return_if negb (id_valid run_id) with (SI_AGENT_TASK_ERR_INVALID_ID, rt) ;;
  return_if bool_decide (tu_status turn <> SI_AGENT_TURN_FAILED) &&
            bool_decide (tu_status turn <> SI_AGENT_TURN_INTERRUPTED) &&
            bool_decide (tu_status turn <> SI_AGENT_TURN_OUTCOME_UNKNOWN)
    with (SI_AGENT_TASK_ERR_INVALID_TRANSITION, rt) ;;
  return_if run_attempt_id_in_use rt (deref run_id) ||
            (attempt_number (run_attempt turn) =? UINT32_MAX) ||
            (plan_version turn =? UINT32_MAX)
    with (SI_AGENT_TASK_ERR_CONFLICT, rt) ;;
  let attempt := u32 (attempt_number (run_attempt turn) + 1) in
  let turn := turn
    <| plan_version := u32 (plan_version turn + 1) |>
    <| tu_verification := SI_AGENT_VERIFICATION_UNRECORDED |>
    <| has_plan := false |>
    <| plan := zero_plan |>
    <| run_attempt := zero_run_attempt
         <| run_attempt_id := copy_id (deref run_id) |>
         <| attempt_number := attempt |>
         <| ra_status := SI_AGENT_RUN_ATTEMPT_RUNNING |>
         <| started_at_ms := now_ms |>
         <| ra_updated_at_ms := now_ms |> |>
    <| tu_status := SI_AGENT_TURN_UNDERSTANDING |>
    <| resume_status := SI_AGENT_TURN_UNDERSTANDING |>
    <| tu_updated_at_ms := now_ms |>
    <| tu_ended_at_ms := 0 |> in
  (SI_AGENT_TASK_OK,
   rt <| active_turn := turn |> <| rt_updated_at_ms := now_ms |>)).

Definition si_agent_turn_status_name (status : Z) : string :=
  match enum_of_Z status with
  | Some SI_AGENT_TURN_QUEUED => "queued"
  | Some SI_AGENT_TURN_UNDERSTANDING => "understanding"
  | Some SI_AGENT_TURN_PLANNING => "planning"
  | Some SI_AGENT_TURN_GATHERING_CONTEXT => "gathering_context"
  | Some SI_AGENT_TURN_EXECUTING => "executing"
  | Some SI_AGENT_TURN_WAITING_REQUEST => "waiting_request"
  | Some SI_AGENT_TURN_WAITING_USER => "waiting_user"
  | Some SI_AGENT_TURN_PAUSED => "paused"
  | Some SI_AGENT_TURN_VERIFYING => "verifying"
  | Some SI_AGENT_TURN_BLOCKED => "blocked"
  | Some SI_AGENT_TURN_COMPLETED => "completed"
  | Some SI_AGENT_TURN_FAILED => "failed"
  | Some SI_AGENT_TURN_INTERRUPTED => "interrupted"
  | Some SI_AGENT_TURN_CANCELLED => "cancelled"
  | Some SI_AGENT_TURN_OUTCOME_UNKNOWN => "outcome_unknown"
  | None => "invalid"
  end.

Definition si_agent_task_result_name (result : Z) : string :=
  match enum_of_Z result with
  | Some SI_AGENT_TASK_OK => "ok"
  | Some SI_AGENT_TASK_ERR_INVALID_ARGUMENT => "invalid_argument"
  | Some SI_AGENT_TASK_ERR_INVALID_ID => "invalid_id"
  | Some SI_AGENT_TASK_ERR_TIME_REGRESSION => "time_regression"
  | Some SI_AGENT_TASK_ERR_QUEUE_FULL => "queue_full"
  | Some SI_AGENT_TASK_ERR_NO_ACTIVE_TURN => "no_active_turn"
  | Some SI_AGENT_TASK_ERR_CONFLICT => "conflict"
  | Some SI_AGENT_TASK_ERR_INVALID_TRANSITION => "invalid_transition"
  | Some SI_AGENT_TASK_ERR_CAPACITY => "capacity"
  | Some SI_AGENT_TASK_ERR_NOT_FOUND => "not_found"
  | Some SI_AGENT_TASK_ERR_VERIFICATION_REQUIRED => "verification_required"
  | None => "invalid"
  end.
