(* ===== verification/AgentTaskInvariant.v ===== *)
(** * The agent task runtime: invariant, queue refinement, safety

    The operations of [AgentTaskRuntime] as a transition system, the
    well-formedness invariant of every reachable runtime, the refinement of
    the circular pending array to a FIFO list, and the completion and
    terminal-state safety properties. *)

From S2P Require Import Prelude RingBuffer AgentTaskRuntime.

(** ** Operations as transitions *)

Inductive op :=
  | OpSubmit (thread_id turn_id run_id : option cstring)
  | OpAdvance
  | OpSetPhase (status : Z)
  | OpBeginPlan (id : option cstring)
  | OpAddStep (id : option cstring)
  | OpSetStepStatus (id : option cstring) (status : Z)
  | OpRecordStep (id : option cstring) (verification : Z)
  | OpRecordTurn (verification : Z)
  | OpSteer | OpPause | OpResume | OpCancel | OpInterrupt
  | OpMarkOutcomeUnknown | OpFail | OpComplete
  | OpRetry (run_id : option cstring).

Definition drop_started (r : si_agent_task_result_t * bool * si_agent_task_runtime_t)
  : outcome := (r.1.1, r.2).

Definition exec (rt : si_agent_task_runtime_t) (o : op) (now_ms : Z) : outcome :=
  match o with
  | OpSubmit th tu ra => drop_started (si_agent_task_runtime_submit rt th tu ra now_ms)
  | OpAdvance => drop_started (si_agent_task_runtime_advance_queue rt now_ms)
  | OpSetPhase s => si_agent_task_runtime_set_phase rt s now_ms
  | OpBeginPlan id => si_agent_task_runtime_begin_plan rt id now_ms
  | OpAddStep id => si_agent_task_runtime_add_step rt id now_ms
  | OpSetStepStatus id s => si_agent_task_runtime_set_step_status rt id s now_ms
  | OpRecordStep id v => si_agent_task_runtime_record_step_verification rt id v now_ms
  | OpRecordTurn v => si_agent_task_runtime_record_turn_verification rt v now_ms
  | OpSteer => si_agent_task_runtime_steer rt now_ms
  | OpPause => si_agent_task_runtime_pause rt now_ms
  | OpResume => si_agent_task_runtime_resume rt now_ms
  | OpCancel => si_agent_task_runtime_cancel rt now_ms
  | OpInterrupt => si_agent_task_runtime_interrupt rt now_ms
  | OpMarkOutcomeUnknown => si_agent_task_runtime_mark_outcome_unknown rt now_ms
  | OpFail => si_agent_task_runtime_fail rt now_ms
  | OpComplete => si_agent_task_runtime_complete rt now_ms
  | OpRetry ra => si_agent_task_runtime_retry rt ra now_ms
  end.

Inductive task_step : si_agent_task_runtime_t -> si_agent_task_runtime_t -> Prop :=
  | task_step_exec rt o now_ms : task_step rt (exec rt o now_ms).2.

(** Runtimes reached by any calls, with any arguments and clock readings, from
    a successful [si_agent_task_runtime_init]. *)
Definition reachable (rt : si_agent_task_runtime_t) : Prop :=
  exists rt0 id t0 rt1,
    si_agent_task_runtime_init rt0 id t0 = (SI_AGENT_TASK_OK, rt1) /\
    rtc task_step rt1 rt.

(** ** Shared inversion lemmas *)

Lemma with_active_cases rt now_ms (k : si_agent_task_turn_t -> outcome) r :
  with_active rt now_ms (fun e => (e, rt)) k = r ->
  (exists e, e <> SI_AGENT_TASK_OK /\ r = (e, rt)) \/
  (runtime_initialized rt = true /\ rt_updated_at_ms rt <= now_ms /\
   has_active_turn rt = true /\ k (active_turn rt) = r).
Proof.
  unfold with_active, active_for_update, time_valid. intros H.
  destruct (runtime_initialized rt) eqn:Hi; cbn in H; [|left; subst r; eexists; split; [|reflexivity]; discriminate].
  destruct (Z.leb_spec (rt_updated_at_ms rt) now_ms); cbn in H; [|left; subst r; eexists; split; [|reflexivity]; discriminate].
  destruct (has_active_turn rt) eqn:Ha; cbn in H; [|left; subst r; eexists; split; [|reflexivity]; discriminate].
  by right.
Qed.

(** Peels the early returns off an operation: the failing branches return the
    input runtime, the last one is the effect. *)
Ltac peel H :=
  repeat match type of H with
  | (if ?c then _ else _) = _ => destruct c eqn:?
  | (match ?c with Some _ => _ | None => _ end) = _ => destruct c eqn:?
  | (let _ := _ in _) = _ => progress cbv zeta in H
  end.

Ltac open_op H :=
  first
    [ apply with_active_cases in H as [(? & ? & ?)|(? & ? & ? & H)];
      [ naive_solver | peel H; try naive_solver ]
    | peel H; try naive_solver ].

(** A rejected call leaves the runtime as it was. *)
Lemma exec_error rt o now_ms e rt' :
  exec rt o now_ms = (e, rt') -> e <> SI_AGENT_TASK_OK -> rt' = rt.
Proof.
  intros H He. destruct o; cbn in H; unfold drop_started in H.
  - unfold si_agent_task_runtime_submit in H.
    revert H; case_ifs; cbn; intros [= <- <-]; done.
  - unfold si_agent_task_runtime_advance_queue in H.
    revert H; case_ifs; cbn; intros [= <- <-]; done.
  - unfold si_agent_task_runtime_set_phase in H. open_op H.
  - unfold si_agent_task_runtime_begin_plan in H. open_op H.
  - unfold si_agent_task_runtime_add_step in H. open_op H.
  - unfold si_agent_task_runtime_set_step_status in H. open_op H.
  - unfold si_agent_task_runtime_record_step_verification in H. open_op H.
  - unfold si_agent_task_runtime_record_turn_verification in H. open_op H.
  - unfold si_agent_task_runtime_steer in H. open_op H.
  - unfold si_agent_task_runtime_pause in H. open_op H.
  - unfold si_agent_task_runtime_resume in H. open_op H.
  - unfold si_agent_task_runtime_cancel in H. open_op H.
  - unfold si_agent_task_runtime_interrupt in H. open_op H.
  - unfold si_agent_task_runtime_mark_outcome_unknown in H. open_op H.
  - unfold si_agent_task_runtime_fail in H. open_op H.
  - unfold si_agent_task_runtime_complete in H. open_op H.
  - unfold si_agent_task_runtime_retry in H. open_op H.
Qed.

(** ** Identifiers *)

(** What [id_valid] accepts: 1 to 48 printable, non-blank ASCII bytes. *)
Definition id_ok (v : cstring) : Prop :=
  v <> [] /\ (length v <= SI_AGENT_TASK_ID_MAX)%nat /\
  Forall (fun c => 0x20 < c < 0x7f) v.

Lemma id_valid_loop_spec n v :
  (n <= SI_AGENT_TASK_ID_MAX)%nat ->
  id_valid_loop n v = true <->
  (n + length v <= SI_AGENT_TASK_ID_MAX)%nat /\ Forall (fun c => 0x20 < c < 0x7f) v.
Proof.
  revert n. induction v as [|c v IH]; intros n Hn; cbn -[Nat.leb].
  - split; [intros _; split; [lia | constructor] | done].
  - destruct (Nat.leb_spec SI_AGENT_TASK_ID_MAX n); cbn -[Nat.leb].
    { split; [done | lia]. }
    destruct (Z.leb_spec c 0x20), (Z.leb_spec 0x7f c); cbn -[Nat.leb];
      try (split; [done | intros [_ HF]; apply Forall_cons_1 in HF; lia]).
    rewrite IH, Forall_cons by lia. intuition lia.
Qed.

Lemma id_valid_spec p : id_valid p = true <-> exists v, p = Some v /\ id_ok v.
Proof.
  unfold id_valid, id_ok. destruct p as [[|c v]|]; cbn -[id_valid_loop].
  - split; [done | intros (? & [= <-] & ? & _); done].
  - rewrite id_valid_loop_spec by (unfold SI_AGENT_TASK_ID_MAX; lia).
    split; [by intros [? ?]; eexists | by intros (? & [= <-] & _ & ?)].
  - split; [done | by intros (? & ? & _)].
Qed.

Lemma id_valid_deref p : id_valid p = true -> id_ok (deref p).
Proof. intros (v & -> & Hv)%id_valid_spec. done. Qed.

Lemma id_ok_valid v : id_ok v -> id_valid (Some v) = true.
Proof. intros H. apply id_valid_spec. by exists v. Qed.

Lemma id_ok_dec v : id_valid (Some v) = true -> id_ok v.
Proof. apply (id_valid_deref (Some v)). Qed.

(** ** Plans *)

Definition live_steps (p : si_agent_task_plan_t) : list si_agent_task_step_t :=
  take (step_count p) (steps p).
Arguments live_steps : simpl never.

Definition step_is (st : si_agent_step_status_t) (s : si_agent_task_step_t) : bool :=
  bool_decide (st_status s = st).

Definition step_finished (s : si_agent_task_step_t) : bool :=
  step_is SI_AGENT_STEP_COMPLETED s || step_is SI_AGENT_STEP_SKIPPED s.

(** What the status of a plan says of its steps. *)
Definition plan_summary (l : list si_agent_task_step_t) : si_agent_plan_status_t :=
  if existsb (step_is SI_AGENT_STEP_OUTCOME_UNKNOWN) l then SI_AGENT_PLAN_OUTCOME_UNKNOWN
  else if existsb (step_is SI_AGENT_STEP_FAILED) l then SI_AGENT_PLAN_FAILED
  else if negb (bool_decide (l = [])) && forallb step_finished l
  then SI_AGENT_PLAN_COMPLETED
  else SI_AGENT_PLAN_ACTIVE.

Lemma refresh_fold l a f u :
  fold_left refresh_step l (a, f, u) =
  (a && forallb step_finished l,
   f || existsb (step_is SI_AGENT_STEP_FAILED) l,
   u || existsb (step_is SI_AGENT_STEP_OUTCOME_UNKNOWN) l).
Proof.
  revert a f u. induction l as [|s l IH]; intros a f u; cbn.
  - by rewrite andb_true_r, !orb_false_r.
  - unfold step_finished, step_is.
    destruct (st_status s) eqn:Hs; rewrite IH;
      rewrite ?bool_decide_eq_true_2, ?bool_decide_eq_false_2 by done; cbn;
      rewrite ?andb_false_r, ?orb_true_r; reflexivity.
Qed.

Lemma refresh_plan_status_spec p now_ms :
  (step_count p <= length (steps p))%nat ->
  refresh_plan_status p now_ms =
  p <| pl_status := plan_summary (live_steps p) |> <| pl_updated_at_ms := now_ms |>.
Proof.
  intros Hc. unfold refresh_plan_status, plan_summary.
  fold (live_steps p). rewrite refresh_fold. cbn.
  replace (negb (bool_decide (live_steps p = []))) with (Nat.ltb 0 (step_count p)).
  { reflexivity. }
  destruct (live_steps p) as [|s l] eqn:E.
  - apply (f_equal length) in E. unfold live_steps in E.
    rewrite length_take in E. cbn in *. by replace (step_count p) with 0%nat by lia.
  - apply (f_equal length) in E. unfold live_steps in E.
    rewrite length_take in E. cbn in *. by destruct (step_count p).
Qed.

(** A step is recorded as finished only with a passed verification. *)
Definition step_ok (s : si_agent_task_step_t) : Prop :=
  id_ok (step_id s) /\
  (st_status s = SI_AGENT_STEP_COMPLETED ->
   st_verification s = SI_AGENT_VERIFICATION_PASSED) /\
  (st_status s = SI_AGENT_STEP_OUTCOME_UNKNOWN ->
   st_verification s = SI_AGENT_VERIFICATION_OUTCOME_UNKNOWN).

(** Two live steps in progress are the same step. *)
Definition one_in_progress (l : list si_agent_task_step_t) : Prop :=
  forall i j s s', l !! i = Some s -> l !! j = Some s' ->
    st_status s = SI_AGENT_STEP_IN_PROGRESS ->
    st_status s' = SI_AGENT_STEP_IN_PROGRESS -> i = j.

Record plan_ok (p : si_agent_task_plan_t) : Prop := {
  plan_id_ok : id_ok (plan_id p);
  plan_slots : length (steps p) = SI_AGENT_TASK_STEP_CAPACITY;
  plan_count : (step_count p <= SI_AGENT_TASK_STEP_CAPACITY)%nat;
  plan_steps_ok : Forall step_ok (live_steps p);
  plan_steps_nodup : NoDup (step_id <$> live_steps p);
  plan_one_in_progress : one_in_progress (live_steps p)
}.

Lemma live_steps_insert p i s :
  (i < step_count p)%nat ->
  live_steps (p <| steps := <[i := s]> (steps p) |>) = <[i := s]> (live_steps p).
Proof. intros H. unfold live_steps. cbn. by rewrite take_insert_lt. Qed.

Lemma live_steps_lookup p i :
  plan_ok p -> (i < step_count p)%nat -> live_steps p !! i = Some (steps p !!! i).
Proof.
  intros Hp Hi. unfold live_steps. rewrite lookup_take_lt by lia.
  apply list_lookup_lookup_total_lt. rewrite (plan_slots _ Hp).
  pose proof (plan_count _ Hp). lia.
Qed.

Lemma find_step_Some p id i :
  find_step p id = Some i ->
  exists s, live_steps p !! i = Some s /\ step_id s = id /\ (i < step_count p)%nat.
Proof.
  unfold find_step. fold (live_steps p).
  destruct (list_find _ _) as [[j s]|] eqn:F; cbn; [|done]. intros [= ->].
  apply list_find_Some in F as (Hl & Hid & _). exists s. repeat split; [done..|].
  apply lookup_lt_Some in Hl. unfold live_steps in Hl. rewrite length_take in Hl. lia.
Qed.

Lemma find_step_None p id :
  find_step p id = None -> id ∉ step_id <$> live_steps p.
Proof.
  unfold find_step. fold (live_steps p). intros H.
  apply fmap_None, list_find_None in H. intros (s & -> & Hin)%list_elem_of_fmap.
  rewrite Forall_forall in H. by apply (H s).
Qed.

Lemma another_step_in_progress_false p i :
  another_step_in_progress p i = false ->
  forall j s, live_steps p !! j = Some s ->
    st_status s = SI_AGENT_STEP_IN_PROGRESS -> j = i.
Proof.
  unfold another_step_in_progress. fold (live_steps p). intros H j s Hl Hs.
  destruct (decide (j = i)) as [|Hne]; [done|]. exfalso.
  apply not_true_iff_false in H. apply H. apply existsb_exists.
  exists (j, s). split.
  - apply list_elem_of_In, list_elem_of_lookup. exists j.
    rewrite list_lookup_imap, Hl. done.
  - unfold in_progress. rewrite bool_decide_eq_true_2 by done.
    apply Nat.eqb_neq in Hne. by rewrite Hne.
Qed.

(** ** Turns *)

(** The run-attempt status every turn status goes with. *)
Definition run_status_of (s : si_agent_turn_status_t) : si_agent_run_attempt_status_t :=
  match s with
  | SI_AGENT_TURN_PAUSED => SI_AGENT_RUN_ATTEMPT_PAUSED
  | SI_AGENT_TURN_COMPLETED => SI_AGENT_RUN_ATTEMPT_COMPLETED
  | SI_AGENT_TURN_FAILED => SI_AGENT_RUN_ATTEMPT_FAILED
  | SI_AGENT_TURN_INTERRUPTED => SI_AGENT_RUN_ATTEMPT_INTERRUPTED
  | SI_AGENT_TURN_CANCELLED => SI_AGENT_RUN_ATTEMPT_CANCELLED
  | SI_AGENT_TURN_OUTCOME_UNKNOWN => SI_AGENT_RUN_ATTEMPT_OUTCOME_UNKNOWN
  | _ => SI_AGENT_RUN_ATTEMPT_RUNNING
  end.

Definition live_plan (t : si_agent_task_turn_t) : Prop :=
  si_agent_turn_status_is_terminal (tu_status t) = false \/
  tu_status t = SI_AGENT_TURN_COMPLETED.

Definition is_revision (v : Z) : Prop := 1 <= v <= UINT32_MAX.

(** The part of the invariant that does not mention the status. *)
Record turn_base (t : si_agent_task_turn_t) : Prop := {
  base_thread_id : id_ok (tu_thread_id t);
  base_turn_id : id_ok (tu_turn_id t);
  base_run_id : id_ok (run_attempt_id (run_attempt t));
  base_resume : phase_status_valid (resume_status t) = true;
  base_intent : is_revision (intent_revision t);
  base_version : is_revision (plan_version t);
  base_attempt : is_revision (attempt_number (run_attempt t));
  base_plan : has_plan t = true -> plan_ok (plan t) /\ pl_version (plan t) = plan_version t
}.

Record turn_ok (t : si_agent_task_turn_t) : Prop := {
  turn_is_base : turn_base t;
  turn_not_queued : tu_status t <> SI_AGENT_TURN_QUEUED;
  turn_run_status : ra_status (run_attempt t) = run_status_of (tu_status t);
  turn_ended : tu_ended_at_ms t =
    if si_agent_turn_status_is_terminal (tu_status t) then tu_updated_at_ms t else 0;
  turn_run_ended : ra_ended_at_ms (run_attempt t) = tu_ended_at_ms t;
  turn_created : tu_created_at_ms t <= tu_updated_at_ms t;
  turn_summary : has_plan t = true -> live_plan t ->
    pl_status (plan t) = plan_summary (live_steps (plan t));
  turn_completed : tu_status t = SI_AGENT_TURN_COMPLETED ->
    tu_verification t = SI_AGENT_VERIFICATION_PASSED /\
    (has_plan t = true -> pl_status (plan t) = SI_AGENT_PLAN_COMPLETED)
}.

(** [apply_turn_status], on the turn alone. *)
Definition status_turn (t : si_agent_task_turn_t) (s : si_agent_turn_status_t)
    (now_ms : Z) : si_agent_task_turn_t :=
  t <| tu_status := s |> <| tu_updated_at_ms := now_ms |>
    <| tu_ended_at_ms :=
         if si_agent_turn_status_is_terminal s then now_ms
         else if decide (s = SI_AGENT_TURN_PAUSED) then tu_ended_at_ms t else 0 |>
    <| run_attempt := (run_attempt t)
         <| ra_status := run_status_of s |>
         <| ra_updated_at_ms := now_ms |>
         <| ra_ended_at_ms :=
              if si_agent_turn_status_is_terminal s then now_ms else 0 |> |>.

Lemma apply_turn_status_eq rt s now_ms :
  apply_turn_status rt s now_ms =
  rt <| active_turn := status_turn (active_turn rt) s now_ms |>
     <| rt_updated_at_ms := now_ms |>.
Proof. by destruct s. Qed.

Lemma status_turn_ok t s now_ms :
  turn_base t -> s <> SI_AGENT_TURN_QUEUED -> tu_created_at_ms t <= now_ms ->
  (s = SI_AGENT_TURN_PAUSED -> tu_ended_at_ms t = 0) ->
  (has_plan t = true -> si_agent_turn_status_is_terminal s = false \/
     s = SI_AGENT_TURN_COMPLETED ->
   pl_status (plan t) = plan_summary (live_steps (plan t))) ->
  (s = SI_AGENT_TURN_COMPLETED ->
   tu_verification t = SI_AGENT_VERIFICATION_PASSED /\
   (has_plan t = true -> pl_status (plan t) = SI_AGENT_PLAN_COMPLETED)) ->
  turn_ok (status_turn t s now_ms).
Proof.
  intros Hb Hq Hc Hp Hs Hd. split; cbn; try done.
  - destruct Hb. by split; cbn.
  - destruct s; cbn; auto.
  - destruct s; cbn; try done. symmetry. auto.
Qed.

(** A change of a turn that keeps its status and its run. *)
Lemma touched_turn_ok t t' now_ms :
  turn_ok t -> si_agent_turn_status_is_terminal (tu_status t) = false ->
  tu_updated_at_ms t <= now_ms ->
  turn_base t' -> tu_status t' = tu_status t ->
  tu_ended_at_ms t' = tu_ended_at_ms t ->
  tu_created_at_ms t' = tu_created_at_ms t ->
  ra_status (run_attempt t') = ra_status (run_attempt t) ->
  ra_ended_at_ms (run_attempt t') = ra_ended_at_ms (run_attempt t) ->
  (has_plan t' = true -> pl_status (plan t') = plan_summary (live_steps (plan t'))) ->
  turn_ok (t' <| tu_updated_at_ms := now_ms |>
              <| run_attempt := (run_attempt t') <| ra_updated_at_ms := now_ms |> |>).
Proof.
  intros [] Hnt Hu [] Es Ee Ec Er Era Hs. split; cbn.
  - by split; cbn.
  - congruence.
  - congruence.
  - rewrite Ee, Es, turn_ended0, Hnt. done.
  - congruence.
  - lia.
  - auto.
  - intros E. rewrite Es in E. rewrite E in Hnt. done.
Qed.

(** ** The runtime *)

Record pending_ok (now_ms : Z) (p : si_agent_task_pending_turn_t) : Prop := {
  pending_thread_ok : id_ok (pe_thread_id p);
  pending_turn_ok : id_ok (pe_turn_id p);
  pending_run_ok : id_ok (pe_run_attempt_id p);
  pending_time : submitted_at_ms p <= now_ms
}.

Definition turn_ids (rt : si_agent_task_runtime_t) : list cstring :=
  (if has_active_turn rt then [tu_turn_id (active_turn rt)] else [])
  ++ (pe_turn_id <$> pending_queue rt).

Definition run_ids (rt : si_agent_task_runtime_t) : list cstring :=
  (if has_active_turn rt then [run_attempt_id (run_attempt (active_turn rt))] else [])
  ++ (pe_run_attempt_id <$> pending_queue rt).

Record runtime_ok (rt : si_agent_task_runtime_t) : Prop := {
  rt_id_ok : id_ok (runtime_id rt);
  rt_times : rt_created_at_ms rt <= rt_updated_at_ms rt;
  rt_slots : length (pending rt) = SI_AGENT_TASK_PENDING_CAPACITY;
  rt_head : (pending_head rt < SI_AGENT_TASK_PENDING_CAPACITY)%nat;
  rt_count : (pending_count rt <= SI_AGENT_TASK_PENDING_CAPACITY)%nat;
  rt_idle : has_active_turn rt = false -> pending_count rt = 0%nat;
  rt_turn : has_active_turn rt = true ->
    turn_ok (active_turn rt) /\ tu_updated_at_ms (active_turn rt) <= rt_updated_at_ms rt;
  rt_queue : Forall (pending_ok (rt_updated_at_ms rt)) (pending_queue rt);
  rt_turn_ids : NoDup (turn_ids rt);
  rt_run_ids : NoDup (run_ids rt)
}.

Lemma pending_ok_later t t' p : t <= t' -> pending_ok t p -> pending_ok t' p.
Proof. intros H []. split; try done. lia. Qed.

Lemma rt_initialized rt : runtime_ok rt -> runtime_initialized rt = true.
Proof.
  intros [(Hne & _) _ _ _ _ _ _ _ _ _]. unfold runtime_initialized.
  by destruct (runtime_id rt).
Qed.

(** Replacing the active turn keeps the runtime well formed. *)
Lemma runtime_ok_active rt t now_ms :
  runtime_ok rt -> has_active_turn rt = true -> rt_updated_at_ms rt <= now_ms ->
  turn_ok t -> tu_updated_at_ms t <= now_ms ->
  tu_turn_id t = tu_turn_id (active_turn rt) ->
  run_attempt_id (run_attempt t) = run_attempt_id (run_attempt (active_turn rt)) \/
  run_attempt_id_in_use rt (run_attempt_id (run_attempt t)) = false ->
  runtime_ok (rt <| active_turn := t |> <| rt_updated_at_ms := now_ms |>).
Proof.
  intros [] Ha Hn Ht Htu Eid Hrun.
  split; cbn; try done.
  - lia.
  - eapply Forall_impl; [exact rt_queue0|]. intros p. by apply pending_ok_later.
  - revert rt_turn_ids0. unfold turn_ids. cbn. by rewrite Ha, Eid.
  - revert rt_run_ids0. unfold run_ids. cbn. rewrite Ha. cbn.
    destruct Hrun as [->|Hfree]; [done|].
    rewrite !NoDup_cons. intros [_ Hnd]. split; [|done].
    intros (p & Ep & Hin)%list_elem_of_fmap.
    unfold run_attempt_id_in_use in Hfree. case_if; [done|].
    apply not_true_iff_false in Hfree. apply Hfree, existsb_exists.
    exists p. split; [by apply list_elem_of_In | by apply streq_true].
Qed.

(** ** Preservation: the effects *)

Lemma touch_ok rt t now_ms :
  runtime_ok rt -> has_active_turn rt = true -> rt_updated_at_ms rt <= now_ms ->
  si_agent_turn_status_is_terminal (tu_status (active_turn rt)) = false ->
  turn_base t -> tu_status t = tu_status (active_turn rt) ->
  tu_turn_id t = tu_turn_id (active_turn rt) ->
  tu_ended_at_ms t = tu_ended_at_ms (active_turn rt) ->
  tu_created_at_ms t = tu_created_at_ms (active_turn rt) ->
  run_attempt t = run_attempt (active_turn rt) ->
  (has_plan t = true -> pl_status (plan t) = plan_summary (live_steps (plan t))) ->
  runtime_ok (touch rt t now_ms).
Proof.
  intros Hrt Ha Hn Hnt Hb Es Ei Ee Ec Er Hs.
  destruct (rt_turn _ Hrt Ha) as [Ht Hu].
  apply runtime_ok_active; cbn; try done; try lia.
  - eapply touched_turn_ok; try exact Ht; try done; try lia; by rewrite Er.
  - left. by rewrite Er.
Qed.

Lemma status_ok rt t s now_ms :
  runtime_ok rt -> has_active_turn rt = true -> rt_updated_at_ms rt <= now_ms ->
  turn_base t -> s <> SI_AGENT_TURN_QUEUED ->
  si_agent_turn_status_is_terminal (tu_status (active_turn rt)) = false ->
  tu_turn_id t = tu_turn_id (active_turn rt) ->
  tu_ended_at_ms t = tu_ended_at_ms (active_turn rt) ->
  tu_created_at_ms t = tu_created_at_ms (active_turn rt) ->
  run_attempt_id (run_attempt t) = run_attempt_id (run_attempt (active_turn rt)) ->
  (has_plan t = true -> si_agent_turn_status_is_terminal s = false \/
     s = SI_AGENT_TURN_COMPLETED ->
   pl_status (plan t) = plan_summary (live_steps (plan t))) ->
  (s = SI_AGENT_TURN_COMPLETED ->
   tu_verification t = SI_AGENT_VERIFICATION_PASSED /\
   (has_plan t = true -> pl_status (plan t) = SI_AGENT_PLAN_COMPLETED)) ->
  runtime_ok (apply_turn_status (rt <| active_turn := t |>) s now_ms).
Proof.
  intros Hrt Ha Hn Hb Hq Hnt Ei Ee Ec Er Hs Hd.
  destruct (rt_turn _ Hrt Ha) as [Ht Hu].
  rewrite apply_turn_status_eq. cbn.
  apply (runtime_ok_active rt (status_turn t s now_ms) now_ms); try done.
  - apply status_turn_ok; try done.
    + pose proof (turn_created _ Ht). lia.
    + intros _. pose proof (turn_ended _ Ht) as E. rewrite Hnt in E. congruence.
  - cbn. by left.
Qed.

Lemma one_in_progress_none l :
  Forall (fun s => st_status s <> SI_AGENT_STEP_IN_PROGRESS) l -> one_in_progress l.
Proof.
  intros H i j s s' Hi _ Hs _. rewrite Forall_lookup in H. by apply H in Hi.
Qed.

Lemma step_outcome_unknown_id now_ms s :
  step_id (step_outcome_unknown now_ms s) = step_id s.
Proof. unfold step_outcome_unknown. by case_if. Qed.

Lemma step_outcome_unknown_ok now_ms s :
  step_ok s -> step_ok (step_outcome_unknown now_ms s).
Proof. unfold step_outcome_unknown. intros (? & ? & ?). by case_if. Qed.

(** Marking the steps in progress keeps the plan well formed. *)
Lemma plan_ok_marked p now_ms st t :
  plan_ok p ->
  plan_ok (p <| steps := (step_outcome_unknown now_ms <$> live_steps p)
                         ++ drop (step_count p) (steps p) |>
             <| pl_status := st |> <| pl_updated_at_ms := t |>).
Proof.
  intros []. assert (Hlen : length (live_steps p) = step_count p).
  { unfold live_steps. rewrite length_take. lia. }
  assert (E : live_steps (p <| steps := (step_outcome_unknown now_ms <$> live_steps p)
                         ++ drop (step_count p) (steps p) |>
             <| pl_status := st |> <| pl_updated_at_ms := t |>) =
    step_outcome_unknown now_ms <$> live_steps p).
  { unfold live_steps at 1. cbn. apply take_app_length'. by rewrite length_fmap. }
  split; rewrite ?E; cbn; try done.
  - rewrite length_app, length_fmap, length_drop, Hlen. lia.
  - apply Forall_fmap. eapply Forall_impl; [exact plan_steps_ok0|].
    intros s. cbn. apply step_outcome_unknown_ok.
  - rewrite <- list_fmap_compose.
    erewrite list_fmap_ext; [exact plan_steps_nodup0|].
    intros i s _. cbn. by rewrite step_outcome_unknown_id.
  - apply one_in_progress_none, Forall_fmap, Forall_forall. intros s _. cbn.
    unfold step_outcome_unknown, in_progress. case_if; split_guards; done.
Qed.

Lemma mark_turn_fields t now_ms :
  tu_turn_id (mark_turn_unknown t now_ms) = tu_turn_id t /\
  tu_ended_at_ms (mark_turn_unknown t now_ms) = tu_ended_at_ms t /\
  tu_created_at_ms (mark_turn_unknown t now_ms) = tu_created_at_ms t /\
  run_attempt (mark_turn_unknown t now_ms) = run_attempt t.
Proof. unfold mark_turn_unknown. cbn. by destruct (has_plan t). Qed.

Lemma mark_turn_base t now_ms : turn_base t -> turn_base (mark_turn_unknown t now_ms).
Proof.
  intros []. unfold mark_turn_unknown. cbn. destruct (has_plan t) eqn:Hp.
  - split; cbn; try done. intros _.
    destruct base_plan0 as [Hpl Hv]; [done|]. split; [by apply plan_ok_marked | done].
  - by split; cbn; rewrite ?Hp.
Qed.

Lemma outcome_unknown_ok rt t now_ms :
  runtime_ok rt -> has_active_turn rt = true -> rt_updated_at_ms rt <= now_ms ->
  turn_base t ->
  si_agent_turn_status_is_terminal (tu_status (active_turn rt)) = false ->
  tu_turn_id t = tu_turn_id (active_turn rt) ->
  tu_ended_at_ms t = tu_ended_at_ms (active_turn rt) ->
  tu_created_at_ms t = tu_created_at_ms (active_turn rt) ->
  run_attempt t = run_attempt (active_turn rt) ->
  runtime_ok (set_outcome_unknown (rt <| active_turn := t |>) now_ms).
Proof.
  intros Hrt Ha Hn Hb Hnt Ei Ee Ec Er.
  destruct (mark_turn_fields t now_ms) as (Fi & Fe & Fc & Fr).
  apply (status_ok rt (mark_turn_unknown t now_ms)); try done; try congruence.
  - by apply mark_turn_base.
  - intros _ [|]; done.
Qed.

(** ** Preservation: the operations *)

Lemma new_turn_ok p now_ms rt :
  pending_ok now_ms p -> turn_ok (active_turn (start_turn rt p now_ms)).
Proof.
  intros []. by split; cbn.
Qed.

Arguments pending_queue : simpl never.

(** Starting a turn: the ids of the submission must be free in the queue. *)
Lemma start_turn_ok rt p now_ms :
  id_ok (runtime_id rt) -> rt_created_at_ms rt <= now_ms ->
  length (pending rt) = SI_AGENT_TASK_PENDING_CAPACITY ->
  (pending_head rt < SI_AGENT_TASK_PENDING_CAPACITY)%nat ->
  (pending_count rt <= SI_AGENT_TASK_PENDING_CAPACITY)%nat ->
  Forall (pending_ok now_ms) (pending_queue rt) ->
  pending_ok now_ms p ->
  NoDup (pe_turn_id p :: (pe_turn_id <$> pending_queue rt)) ->
  NoDup (pe_run_attempt_id p :: (pe_run_attempt_id <$> pending_queue rt)) ->
  runtime_ok (start_turn rt p now_ms).
Proof.
  intros Hid Hc Hl Hh Hn Hq Hp Ht Hr. split; try done.
  intros _. split; [by apply new_turn_ok | cbn; lia].
Qed.

Lemma NoDup_snoc {A} (l : list A) x : NoDup l -> x ∉ l -> NoDup (l ++ [x]).
Proof.
  intros Hl Hx. apply NoDup_app. split; [done|]. split; [|apply NoDup_singleton].
  intros y Hy ->%list_elem_of_singleton. done.
Qed.

Lemma existsb_id_false {A} (f : A -> cstring) v l :
  existsb (fun p => streq (f p) v) l = false -> v ∉ f <$> l.
Proof.
  intros H (p & -> & Hin)%list_elem_of_fmap. apply not_true_iff_false in H.
  apply H, existsb_exists. exists p. split; [by apply list_elem_of_In | apply streq_refl].
Qed.

Lemma existsb_orb_false {A} (f g : A -> bool) l :
  existsb (fun p => f p || g p) l = false ->
  existsb f l = false /\ existsb g l = false.
Proof.
  induction l as [|x l IH]; cbn; [done|]. intros H. split_guards.
  destruct IH as [-> ->]; [done|]. split; by apply orb_false_intro.
Qed.

Lemma run_attempt_id_free rt v :
  run_attempt_id_in_use rt v = false -> v ∉ run_ids rt.
Proof.
  unfold run_attempt_id_in_use, run_ids. intros H. case_if_in H; [done|].
  apply existsb_id_false in H. rewrite elem_of_app. intros [Hin|]; [|done].
  destruct (has_active_turn rt); [|by apply not_elem_of_nil in Hin].
  apply list_elem_of_singleton in Hin as ->. cbn in *. by rewrite streq_refl in *.
Qed.

Lemma id_free rt t v :
  id_in_use rt t v = false -> (t ∉ turn_ids rt) /\ (v ∉ run_ids rt).
Proof.
  unfold id_in_use. intros H. case_if_in H; [done|].
  apply existsb_orb_false in H as [H1 H2]. split.
  - apply existsb_id_false in H1. unfold turn_ids. rewrite elem_of_app.
    intros [Hin|]; [|done].
    destruct (has_active_turn rt); [|by apply not_elem_of_nil in Hin].
    apply list_elem_of_singleton in Hin as ->. cbn in *. by rewrite streq_refl in *.
  - apply run_attempt_id_free. unfold run_attempt_id_in_use.
    destruct (has_active_turn rt); cbn in *; [|done].
    match goal with E : _ || _ = false |- _ => by apply orb_false_elim in E as [_ ->] end.
Qed.

Lemma id_use_free rt t v :
  t ∉ turn_ids rt -> v ∉ run_ids rt -> id_in_use rt t v = false.
Proof.
  unfold id_in_use, turn_ids, run_ids. rewrite !elem_of_app. intros Ht Hv.
  replace (has_active_turn rt && _) with false.
  - apply not_true_iff_false. intros (p & Hin & Hp)%existsb_exists.
    apply list_elem_of_In in Hin. apply orb_true_iff in Hp as [Hp|Hp];
      apply streq_true in Hp; subst; [apply Ht | apply Hv]; right;
      by apply list_elem_of_fmap_2.
  - symmetry. destruct (has_active_turn rt); [|done]. cbn.
    apply orb_false_iff; split; apply bool_decide_eq_false_2; intros <-;
      [apply Ht | apply Hv]; left; by apply list_elem_of_singleton.
Qed.

(** The queue after an append. *)
Lemma pending_queue_push rt p now_ms :
  runtime_ok rt -> (pending_count rt < SI_AGENT_TASK_PENDING_CAPACITY)%nat ->
  pending_queue
    (rt <| pending := <[((pending_head rt + pending_count rt)
                          mod SI_AGENT_TASK_PENDING_CAPACITY)%nat := p]> (pending rt) |>
        <| pending_count := S (pending_count rt) |>
        <| rt_updated_at_ms := now_ms |>) = pending_queue rt ++ [p].
Proof.
  intros [] Hc. unfold pending_queue. cbn [pending pending_head pending_count set].
  apply ring_list_push; [unfold SI_AGENT_TASK_PENDING_CAPACITY; lia | done | done].
Qed.

Lemma submit_ok rt th tu ra now_ms st rt' :
  runtime_ok rt ->
  si_agent_task_runtime_submit rt th tu ra now_ms = (SI_AGENT_TASK_OK, st, rt') ->
  runtime_ok rt'.
Proof.
  intros Hrt H. unfold si_agent_task_runtime_submit in H. cbv zeta in H.
  destruct (runtime_initialized rt) eqn:?; [|done]. cbn [negb] in H.
  destruct (negb (id_valid th) || _ || _) eqn:Hids; [done|].
  destruct (time_valid rt now_ms) eqn:Htv; [|done]. cbn [negb] in H.
  destruct (id_in_use _ _ _) eqn:Huse; [done|].
  apply id_free in Huse as [Hnt Hnr]. unfold time_valid in Htv. split_guards.
  assert (Hn : rt_updated_at_ms rt <= now_ms) by lia.
  set (p := mk_pending (copy_id (deref th)) (copy_id (deref tu)) (copy_id (deref ra)) now_ms) in *.
  assert (Hp : pending_ok now_ms p)
    by (split; cbn; unfold copy_id; auto using id_valid_deref; lia).
  assert (Hq : Forall (pending_ok now_ms) (pending_queue rt)).
  { eapply Forall_impl; [exact (rt_queue _ Hrt)|]. intros x. by apply pending_ok_later. }
  destruct (has_active_turn rt) eqn:Ha; cbn [negb] in H.
  - destruct (Nat.leb_spec SI_AGENT_TASK_PENDING_CAPACITY (pending_count rt)); [done|].
    injection H as _ E.
    assert (Eq : pending_queue rt' = pending_queue rt ++ [p])
      by (subst rt'; by apply pending_queue_push).
    destruct Hrt. split; unfold turn_ids, run_ids in *; rewrite ?Eq, <- E;
      cbn -[Nat.modulo]; rewrite ?Ha in *; try done.
    + lia.
    + by rewrite length_insert.
    + intros _. destruct rt_turn0; [done|]. split; [done | lia].
    + apply Forall_app; split; [done | by constructor].
    + rewrite fmap_app. by apply (NoDup_snoc (_ :: _)).
    + rewrite fmap_app. by apply (NoDup_snoc (_ :: _)).
  - injection H as <- <-. destruct Hrt. unfold turn_ids, run_ids in *. rewrite Ha in *.
    cbn in *. apply start_turn_ok; try done; [lia | |]; by constructor.
Qed.

(** [advance_queue] on the array is a pop of the list. *)
Lemma pending_queue_pop rt :
  runtime_ok rt -> (0 < pending_count rt)%nat ->
  pending_queue rt =
    (pending rt !!! pending_head rt) ::
    ring_list SI_AGENT_TASK_PENDING_CAPACITY
      (<[pending_head rt := zero_pending]> (pending rt))
      ((pending_head rt + 1) mod SI_AGENT_TASK_PENDING_CAPACITY)
      (pending_count rt - 1).
Proof.
  intros [] Hc. unfold pending_queue.
  destruct (pending_count rt) as [|n] eqn:En; [lia|].
  rewrite ring_list_pop by (unfold SI_AGENT_TASK_PENDING_CAPACITY; lia).
  cbn [Nat.sub]. rewrite Nat.sub_0_r. f_equal.
  - unfold ring_at. rewrite Nat.add_0_r, Nat.mod_small by done. done.
  - symmetry. apply ring_list_insert_dropped; [unfold SI_AGENT_TASK_PENDING_CAPACITY; lia|done|lia].
Qed.

(** The runtime with no active turn and the oldest submission taken out. *)
Lemma advance_ok rt now_ms st rt' :
  runtime_ok rt ->
  si_agent_task_runtime_advance_queue rt now_ms = (SI_AGENT_TASK_OK, st, rt') ->
  runtime_ok rt'.
Proof.
  intros Hrt H. unfold si_agent_task_runtime_advance_queue in H. cbv zeta in H.
  destruct (runtime_initialized rt) eqn:?; [|done]. cbn [negb] in H.
  destruct (time_valid rt now_ms) eqn:Htv; [|done]. cbn [negb] in H.
  unfold time_valid in Htv. split_guards. assert (Hn : rt_updated_at_ms rt <= now_ms) by lia.
  case_if_in H; [done|].
  assert (Hq : Forall (pending_ok now_ms) (pending_queue rt)).
  { eapply Forall_impl; [exact (rt_queue _ Hrt)|]. intros x. by apply pending_ok_later. }
  assert (Hids : NoDup (pe_turn_id <$> pending_queue rt) /\
                 NoDup (pe_run_attempt_id <$> pending_queue rt)).
  { destruct Hrt. unfold turn_ids, run_ids in *.
    apply NoDup_app in rt_turn_ids0 as (_ & _ & ?).
    by apply NoDup_app in rt_run_ids0 as (_ & _ & ?). }
  set (rt0 := if has_active_turn rt then _ else rt) in H.
  assert (E0 : runtime_id rt0 = runtime_id rt /\ rt_created_at_ms rt0 = rt_created_at_ms rt /\
    pending rt0 = pending rt /\ pending_head rt0 = pending_head rt /\
    pending_count rt0 = pending_count rt /\ has_active_turn rt0 = false).
  { unfold rt0. by destruct (has_active_turn rt) eqn:Ha. }
  clearbody rt0. destruct E0 as (Ei & Ec & Ep & Eh & En & Ea).
  rewrite En, Ep, Eh in H.
  assert (Hcr : rt_created_at_ms rt <= now_ms) by (pose proof (rt_times _ Hrt); lia).
  destruct (Nat.eqb_spec (pending_count rt) 0) as [E|E]; injection H as _ <-.
  - destruct Hrt. unfold pending_queue in *. rewrite E in *.
    split; unfold turn_ids, run_ids, pending_queue; cbn;
      rewrite ?Ei, ?Ec, ?Ep, ?Eh, ?En, ?Ea, ?E; cbn; try done; constructor.
  - pose proof (pending_queue_pop rt Hrt ltac:(lia)) as Eq. rewrite Eq in Hq, Hids.
    apply Forall_cons in Hq as [Hp Hq]. destruct Hids as [Ht Hr].
    destruct Hrt.
    apply start_turn_ok; unfold pending_queue;
      cbn [set pending pending_head pending_count runtime_id rt_created_at_ms];
      rewrite ?Ei, ?Ec, ?length_insert; try done.
    + by apply (Nat.mod_upper_bound _ SI_AGENT_TASK_PENDING_CAPACITY).
    + lia.
Qed.

(** The operations on the active turn, each reduced to its effect. *)

Lemma live_plan_active t :
  si_agent_turn_status_is_terminal (tu_status t) = false -> live_plan t.
Proof. by left. Qed.

Lemma phase_not_terminal s :
  phase_status_valid s = true ->
  si_agent_turn_status_is_terminal s = false /\ s <> SI_AGENT_TURN_QUEUED /\
  s <> SI_AGENT_TURN_PAUSED.
Proof. by destruct s. Qed.

Lemma phase_from_live from to :
  phase_transition_allowed from to = true ->
  from = to \/ phase_status_valid from = true.
Proof.
  unfold phase_transition_allowed. destruct (decide (from = to)); [by left|].
  destruct from; try done; by right.
Qed.

Ltac active_op H :=
  apply with_active_cases in H as [(? & ? & [= <- <-])|(_ & Hn & Ha & H)];
  [done|].

Ltac active_facts :=
  match goal with Hrt : runtime_ok ?rt, Ha : has_active_turn ?rt = true |- _ =>
    destruct (rt_turn _ Hrt Ha) as [Ht Hu]; pose proof (turn_is_base _ Ht) as Hb end.

Lemma set_phase_ok rt s now_ms rt' :
  runtime_ok rt ->
  si_agent_task_runtime_set_phase rt s now_ms = (SI_AGENT_TASK_OK, rt') ->
  runtime_ok rt'.
Proof.
  intros Hrt H. active_op H. active_facts.
  destruct (enum_of_Z s) as [st|]; [|done]. case_if_in H; [done|].
  injection H as <-. split_guards.
  destruct (phase_not_terminal st) as (Hnt & Hq & Hp); [done|].
  assert (Hcur : si_agent_turn_status_is_terminal (tu_status (active_turn rt)) = false).
  { destruct (phase_from_live (tu_status (active_turn rt)) st) as [->|Hv]; [done..|].
    by apply phase_not_terminal in Hv as [? _]. }
  replace rt with (rt <| active_turn := active_turn rt |>) by by destruct rt.
  apply status_ok; try done.
  - intros Hpl _. by apply (turn_summary _ Ht), live_plan_active.
  - intros ->. done.
Qed.

(** Each simple terminal transition. *)
Lemma terminal_op_ok rt t s now_ms :
  runtime_ok rt -> has_active_turn rt = true -> rt_updated_at_ms rt <= now_ms ->
  si_agent_turn_status_is_terminal (tu_status (active_turn rt)) = false ->
  si_agent_turn_status_is_terminal s = true -> s <> SI_AGENT_TURN_COMPLETED ->
  turn_base t -> tu_turn_id t = tu_turn_id (active_turn rt) ->
  tu_ended_at_ms t = tu_ended_at_ms (active_turn rt) ->
  tu_created_at_ms t = tu_created_at_ms (active_turn rt) ->
  run_attempt t = run_attempt (active_turn rt) ->
  runtime_ok (apply_turn_status (rt <| active_turn := t |>) s now_ms).
Proof.
  intros Hrt Ha Hn Hnt Hs Hc Hb Ei Ee Ec Er.
  apply status_ok; try done; try congruence.
  - by intros ->.
  - intros _ [Hs'|]; congruence.
Qed.

Lemma active_self rt : rt = rt <| active_turn := active_turn rt |>.
Proof. by destruct rt. Qed.

Lemma cancel_ok rt now_ms rt' :
  runtime_ok rt -> si_agent_task_runtime_cancel rt now_ms = (SI_AGENT_TASK_OK, rt') ->
  runtime_ok rt'.
Proof.
  intros Hrt H. active_op H. active_facts. case_if_in H; [done|]. injection H as <-.
  rewrite (active_self rt). by apply terminal_op_ok.
Qed.

Lemma interrupt_ok rt now_ms rt' :
  runtime_ok rt -> si_agent_task_runtime_interrupt rt now_ms = (SI_AGENT_TASK_OK, rt') ->
  runtime_ok rt'.
Proof.
  intros Hrt H. active_op H. active_facts. case_if_in H; [done|]. injection H as <-.
  rewrite (active_self rt). by apply terminal_op_ok.
Qed.

Lemma mark_outcome_unknown_ok rt now_ms rt' :
  runtime_ok rt ->
  si_agent_task_runtime_mark_outcome_unknown rt now_ms = (SI_AGENT_TASK_OK, rt') ->
  runtime_ok rt'.
Proof.
  intros Hrt H. active_op H. active_facts. case_if_in H; [done|]. injection H as <-.
  rewrite (active_self rt). by apply outcome_unknown_ok.
Qed.

Lemma u32_revision v : is_revision v -> (v =? UINT32_MAX) = false -> is_revision (u32 (v + 1)).
Proof.
  unfold is_revision, UINT32_MAX. intros H Hm. rewrite u32_small; unfold is_u32; lia.
Qed.

Lemma new_plan_ok id v now_ms :
  id_ok id ->
  plan_ok (zero_plan <| plan_id := id |> <| pl_version := v |>
    <| pl_status := SI_AGENT_PLAN_ACTIVE |> <| pl_created_at_ms := now_ms |>
    <| pl_updated_at_ms := now_ms |>).
Proof.
  intros H. split; try done; unfold live_steps; cbn; try constructor.
  unfold SI_AGENT_TASK_STEP_CAPACITY. lia.
Qed.

Lemma begin_plan_ok rt id now_ms rt' :
  runtime_ok rt ->
  si_agent_task_runtime_begin_plan rt id now_ms = (SI_AGENT_TASK_OK, rt') ->
  runtime_ok rt'.
Proof.
  intros Hrt H. active_op H. active_facts. cbv zeta in H. peel H; try done.
  all: apply (f_equal snd) in H; cbn [snd] in H; subst rt'; split_guards.
  all: assert (Es : tu_status (active_turn rt) = SI_AGENT_TURN_PLANNING) by done.
  all: assert (Hid : id_ok (copy_id (deref id))) by (by apply id_valid_deref).
  all: destruct (has_plan (active_turn rt)) eqn:Hpl; cbn [andb] in *.
  all: apply touch_ok; try (cbn; by rewrite ?Es).
  all: destruct Hb; split; try done.
  all: try (intros _; split; [by apply new_plan_ok | done]).
  by apply u32_revision.
Qed.

Lemma live_steps_push p s :
  plan_ok p -> (step_count p < SI_AGENT_TASK_STEP_CAPACITY)%nat ->
  take (S (step_count p)) (<[step_count p := s]> (steps p)) = live_steps p ++ [s].
Proof.
  intros [] Hc. unfold live_steps.
  rewrite (take_S_r _ _ s) by (apply list_lookup_insert_eq; lia).
  by rewrite take_insert_ge.
Qed.

Lemma one_in_progress_snoc l s :
  one_in_progress l -> st_status s <> SI_AGENT_STEP_IN_PROGRESS ->
  one_in_progress (l ++ [s]).
Proof.
  intros Hl Hs i j x y Hi Hj Hx Hy.
  apply lookup_app_Some in Hi as [Hi|[_ Hi]], Hj as [Hj|[_ Hj]];
    try (apply list_lookup_singleton_Some in Hi as [_ <-]; done);
    try (apply list_lookup_singleton_Some in Hj as [_ <-]; done).
  by apply (Hl i j x y).
Qed.

Lemma plan_ok_push p s now_ms :
  plan_ok p -> (step_count p < SI_AGENT_TASK_STEP_CAPACITY)%nat ->
  step_ok s -> st_status s <> SI_AGENT_STEP_IN_PROGRESS ->
  step_id s ∉ step_id <$> live_steps p ->
  plan_ok (p <| steps := <[step_count p := s]> (steps p) |>
             <| step_count := S (step_count p) |> <| pl_updated_at_ms := now_ms |>).
Proof.
  intros Hp Hc Hs Hns Hid. pose proof (live_steps_push p s Hp Hc) as E.
  destruct Hp. split; unfold live_steps; cbn -[take]; rewrite ?E; try done.
  - by rewrite length_insert.
  - apply Forall_app; split; [done | by constructor].
  - rewrite fmap_app. by apply NoDup_snoc.
  - by apply one_in_progress_snoc.
Qed.

Lemma plan_summary_push l s :
  plan_summary l = SI_AGENT_PLAN_ACTIVE -> st_status s = SI_AGENT_STEP_PENDING ->
  plan_summary (l ++ [s]) = SI_AGENT_PLAN_ACTIVE.
Proof.
  unfold plan_summary. intros H Hs. rewrite !existsb_app, forallb_app.
  assert (E : forall st, st <> SI_AGENT_STEP_PENDING -> step_is st s = false).
  { intros st Hst. apply bool_decide_eq_false_2. congruence. }
  cbn. unfold step_finished at 2. rewrite !E by done. cbn.
  rewrite !orb_false_r, !andb_false_r. revert H. by case_ifs.
Qed.

Lemma add_step_ok rt id now_ms rt' :
  runtime_ok rt ->
  si_agent_task_runtime_add_step rt id now_ms = (SI_AGENT_TASK_OK, rt') ->
  runtime_ok rt'.
Proof.
  intros Hrt H. active_op H. active_facts. cbv zeta in H. peel H; try done.
  apply (f_equal snd) in H. cbn [snd] in H. subst rt'. split_guards.
  destruct (base_plan _ Hb) as [Hp Hv]; [done|].
  assert (Es : tu_status (active_turn rt) = SI_AGENT_TURN_PLANNING) by done.
  assert (Ep : pl_status (plan (active_turn rt)) = SI_AGENT_PLAN_ACTIVE) by done.
  assert (Hid : id_ok (copy_id (deref id))) by (by apply id_valid_deref).
  assert (Hc : (step_count (plan (active_turn rt)) < SI_AGENT_TASK_STEP_CAPACITY)%nat)
    by (apply Nat.leb_gt; done).
  assert (Hnew : find_step (plan (active_turn rt)) (deref id) = None)
    by (by apply eq_None_not_Some).
  apply find_step_None in Hnew.
  apply touch_ok; try (cbn; rewrite ?Es; done).
  - destruct Hb. split; try done. intros _. split; [|done]. by apply plan_ok_push.
  - intros _. cbn [plan set pl_status]. rewrite Ep. unfold live_steps.
    cbn [step_count steps set]. rewrite live_steps_push by done. symmetry.
    apply plan_summary_push; [|done].
    rewrite <- (turn_summary _ Ht); [done | done |]. left. by rewrite Es.
Qed.

(** Writing one live step. *)
Lemma plan_ok_insert p i old s st now_ms :
  plan_ok p -> (i < step_count p)%nat -> live_steps p !! i = Some old ->
  step_ok s -> step_id s = step_id old ->
  (st_status s = SI_AGENT_STEP_IN_PROGRESS ->
   forall j s', live_steps p !! j = Some s' ->
     st_status s' = SI_AGENT_STEP_IN_PROGRESS -> j = i) ->
  plan_ok (p <| steps := <[i := s]> (steps p) |> <| pl_status := st |>
             <| pl_updated_at_ms := now_ms |>).
Proof.
  intros Hp Hi Hold Hs Hid Hone. pose proof (live_steps_insert p i s Hi) as E.
  destruct Hp.
  assert (Hlen : (i < length (live_steps p))%nat) by by apply lookup_lt_Some in Hold.
  split; try done.
  - cbn. by rewrite length_insert.
  - change (Forall step_ok (live_steps (p <| steps := <[i := s]> (steps p) |>))).
    rewrite E. by apply Forall_insert.
  - change (NoDup (step_id <$> live_steps (p <| steps := <[i := s]> (steps p) |>))).
    rewrite E, list_fmap_insert, list_insert_id; [done|].
    by rewrite list_lookup_fmap, Hold, Hid.
  - change (one_in_progress (live_steps (p <| steps := <[i := s]> (steps p) |>))).
    rewrite E. intros a b x y Ha Hb Hx Hy.
    apply list_lookup_insert_Some in Ha as [(-> & -> & _)|[Hna Ha]],
      Hb as [(-> & -> & _)|[Hnb Hb]]; try done.
    + by rewrite (Hone Hx b y).
    + by rewrite (Hone Hy a x).
    + by apply (plan_one_in_progress0 a b x y).
Qed.

Lemma set_plan_base t p :
  turn_base t -> plan_ok p -> pl_version p = plan_version t ->
  turn_base (t <| plan := p |>).
Proof. intros [] Hp Hv. by split. Qed.

Lemma refresh_insert p i s now_ms :
  plan_ok p -> (i < step_count p)%nat ->
  refresh_plan_status (p <| steps := <[i := s]> (steps p) |>) now_ms =
  p <| steps := <[i := s]> (steps p) |>
    <| pl_status := plan_summary (<[i := s]> (live_steps p)) |>
    <| pl_updated_at_ms := now_ms |>.
Proof.
  intros Hp Hi. rewrite refresh_plan_status_spec.
  - rewrite live_steps_insert by done. done.
  - cbn. rewrite length_insert, (plan_slots _ Hp). apply (plan_count _ Hp).
Qed.

Lemma set_step_status_ok rt id s now_ms rt' :
  runtime_ok rt ->
  si_agent_task_runtime_set_step_status rt id s now_ms = (SI_AGENT_TASK_OK, rt') ->
  runtime_ok rt'.
Proof.
  intros Hrt H. active_op H. active_facts. cbv zeta in H.
  case_if_in H; [done|]. case_if_in H; [done|].
  destruct (find_step _ _) as [i|] eqn:Hf; [|done].
  destruct (enum_of_Z s) as [st|]; [|done].
  case_if_in H; [done|]. destruct (_ && another_step_in_progress _ _) eqn:Gp; [done|].
  destruct (_ && bool_decide (st_verification _ <> _)) eqn:Gv; [done|].
  apply (f_equal snd) in H. cbn [snd] in H. subst rt'. split_guards.
  destruct (base_plan _ Hb) as [Hp Hv]; [done|].
  apply find_step_Some in Hf as (old & Hold & Hid & Hi).
  pose proof (live_steps_lookup _ _ Hp Hi) as Hold'. rewrite Hold in Hold'.
  assert (Eold : steps (plan (active_turn rt)) !!! i = old) by congruence.
  clear Hold'. rewrite Eold in *.
  assert (Hso : step_ok old) by (by eapply Forall_lookup_1; [apply plan_steps_ok|]).
  remember (bool_decide (st = SI_AGENT_STEP_OUTCOME_UNKNOWN)) as u eqn:Eu.
  symmetry in Eu.
  set (s' := (if u then _ else old) <| st_status := st |> <| st_updated_at_ms := now_ms |>).
  assert (Hst : st_status s' = st) by (by destruct u).
  assert (Hs' : step_ok s').
  { destruct Hso as (? & ? & ?). unfold s'.
    destruct u; split_guards; split; cbn; try done; split; try done.
    - congruence.
    - intros ->. rewrite bool_decide_eq_true_2 in Gv by done. cbn in Gv. split_guards. done. }
  rewrite (refresh_insert _ _ _ _ Hp Hi).
  set (p := plan (active_turn rt)) in *.
  assert (Hp' : plan_ok (p <| steps := <[i := s']> (steps p) |>
    <| pl_status := plan_summary (<[i := s']> (live_steps p)) |>
    <| pl_updated_at_ms := now_ms |>)).
  { eapply plan_ok_insert; try done.
    - unfold s'. by destruct u.
    - rewrite Hst. intros ->. rewrite bool_decide_eq_true_2 in Gp by done.
      by apply another_step_in_progress_false. }
  destruct u.
  - apply outcome_unknown_ok; try done. by apply set_plan_base.
  - apply touch_ok; try done; [by apply set_plan_base|]. intros _. cbn.
    f_equal. symmetry. by apply live_steps_insert.
Qed.

Lemma summary_insert_same p i old s :
  live_steps p !! i = Some old -> st_status s = st_status old ->
  plan_summary (<[i := s]> (live_steps p)) = plan_summary (live_steps p).
Proof.
  intros Hl Hs.
  assert (E : forall f : si_agent_task_step_t -> bool,
    (forall a b, st_status a = st_status b -> f a = f b) ->
    f <$> <[i := s]> (live_steps p) = f <$> live_steps p).
  { intros f Hf. rewrite list_fmap_insert. apply list_insert_id.
    by rewrite list_lookup_fmap, Hl, (Hf s old). }
  assert (X : forall f : si_agent_task_step_t -> bool, forall l,
    existsb f l = existsb id (f <$> l))
    by (intros f l; induction l as [|x l IH]; cbn; [done | by rewrite IH]).
  assert (A : forall f : si_agent_task_step_t -> bool, forall l,
    forallb f l = forallb id (f <$> l))
    by (intros f l; induction l as [|x l IH]; cbn; [done | by rewrite IH]).
  unfold plan_summary.
  rewrite !(X (step_is _)), !(A step_finished), !E;
    try (intros a b Hab; unfold step_finished, step_is; by rewrite Hab).
  replace (bool_decide (<[i := s]> (live_steps p) = [])) with (bool_decide (live_steps p = []));
    [done|].
  apply bool_decide_ext. rewrite <- !length_zero_iff_nil. by rewrite length_insert.
Qed.

Lemma record_step_ok rt id v now_ms rt' :
  runtime_ok rt ->
  si_agent_task_runtime_record_step_verification rt id v now_ms = (SI_AGENT_TASK_OK, rt') ->
  runtime_ok rt'.
Proof.
  intros Hrt H. active_op H. active_facts. cbv zeta in H.
  case_if_in H; [done|]. case_if_in H; [done|]. case_if_in H; [done|].
  destruct (find_step _ _) as [i|] eqn:Hf; [|done]. case_if_in H; [done|].
  apply (f_equal snd) in H. cbn [snd] in H. subst rt'. split_guards.
  destruct (base_plan _ Hb) as [Hp Hv]; [done|].
  apply find_step_Some in Hf as (old & Hold & Hid & Hi).
  pose proof (live_steps_lookup _ _ Hp Hi) as Hold'. rewrite Hold in Hold'.
  assert (Eold : steps (plan (active_turn rt)) !!! i = old) by congruence.
  clear Hold'. rewrite Eold in *.
  assert (Hso : step_ok old) by (by eapply Forall_lookup_1; [apply plan_steps_ok|]).
  set (s' := old <| st_verification := _ |> <| st_updated_at_ms := now_ms |>).
  set (p := plan (active_turn rt)) in *.
  assert (Hs' : step_ok s').
  { destruct Hso as (? & _ & _). split; [done|]. cbn. split; congruence. }
  assert (Hp' : plan_ok (p <| steps := <[i := s']> (steps p) |>
    <| pl_status := pl_status p |> <| pl_updated_at_ms := now_ms |>)).
  { eapply plan_ok_insert; try done. intros _ j x Hj Hx.
    by apply (plan_one_in_progress _ Hp j i x old). }
  case_decide.
  - apply outcome_unknown_ok; try done. by apply (set_plan_base _ _ Hb Hp').
  - apply touch_ok; try done; [by apply (set_plan_base _ _ Hb Hp')|]. intros _.
    change (pl_status p = plan_summary (live_steps (p <| steps := <[i := s']> (steps p) |>))).
    rewrite live_steps_insert by done. rewrite (summary_insert_same _ _ old) by done.
    apply (turn_summary _ Ht); [done | by left].
Qed.

Lemma set_verification_base t v :
  turn_base t -> turn_base (t <| tu_verification := v |>).
Proof. intros []. by split. Qed.

Lemma record_turn_ok rt v now_ms rt' :
  runtime_ok rt ->
  si_agent_task_runtime_record_turn_verification rt v now_ms = (SI_AGENT_TASK_OK, rt') ->
  runtime_ok rt'.
Proof.
  intros Hrt H. active_op H. active_facts. cbv zeta in H.
  case_if_in H; [done|]. case_if_in H; [done|]. case_if_in H; [done|].
  apply (f_equal snd) in H. cbn [snd] in H. subst rt'. split_guards.
  assert (Hnt : si_agent_turn_status_is_terminal (tu_status (active_turn rt)) = false)
    by (by rewrite Heqb0).
  destruct (decide (_ = SI_AGENT_VERIFICATION_OUTCOME_UNKNOWN)).
  - apply outcome_unknown_ok; try done. by apply set_verification_base.
  - apply touch_ok; try done; [by apply set_verification_base|].
    intros Hpl. apply (turn_summary _ Ht); [done | by left].
Qed.

Lemma steer_ok rt now_ms rt' :
  runtime_ok rt -> si_agent_task_runtime_steer rt now_ms = (SI_AGENT_TASK_OK, rt') ->
  runtime_ok rt'.
Proof.
  intros Hrt H. active_op H. active_facts. cbv zeta in H.
  case_if_in H; [done|]. case_if_in H; [done|].
  apply (f_equal snd) in H. cbn [snd] in H. subst rt'. split_guards.
  set (t := (active_turn rt) <| intent_revision := _ |> <| plan_version := _ |>
    <| tu_verification := _ |> <| has_plan := _ |> <| plan := _ |> <| resume_status := _ |>).
  assert (Hb' : turn_base t) by (destruct Hb; split; try done; by apply u32_revision).
  destruct (decide (_ = SI_AGENT_TURN_PAUSED)).
  - by apply touch_ok.
  - by apply (status_ok rt t).
Qed.

Lemma pause_ok rt now_ms rt' :
  runtime_ok rt -> si_agent_task_runtime_pause rt now_ms = (SI_AGENT_TASK_OK, rt') ->
  runtime_ok rt'.
Proof.
  intros Hrt H. active_op H. active_facts. cbv zeta in H. case_if_in H; [done|].
  apply (f_equal snd) in H. cbn [snd] in H. subst rt'. split_guards.
  apply status_ok; try done.
  - destruct Hb. split; try done. cbn. pose proof (turn_not_queued _ Ht).
    by destruct (tu_status (active_turn rt)).
  - intros Hpl _. apply (turn_summary _ Ht); [done | by left].
Qed.

Lemma resume_ok rt now_ms rt' :
  runtime_ok rt -> si_agent_task_runtime_resume rt now_ms = (SI_AGENT_TASK_OK, rt') ->
  runtime_ok rt'.
Proof.
  intros Hrt H. active_op H. active_facts. case_if_in H; [done|].
  apply (f_equal snd) in H. cbn [snd] in H. subst rt'. split_guards.
  destruct (phase_not_terminal (resume_status (active_turn rt))) as (Hnt & Hq & _); [done|].
  assert (Hcur : si_agent_turn_status_is_terminal (tu_status (active_turn rt)) = false)
    by (match goal with E : tu_status _ = _ |- _ => by rewrite E end).
  rewrite (active_self rt) at 1. apply status_ok; try done.
  - intros Hpl _. apply (turn_summary _ Ht); [done | by left].
  - intros E. by rewrite E in Hnt.
Qed.

Lemma fail_ok rt now_ms rt' :
  runtime_ok rt -> si_agent_task_runtime_fail rt now_ms = (SI_AGENT_TASK_OK, rt') ->
  runtime_ok rt'.
Proof.
  intros Hrt H. active_op H. active_facts. cbv zeta in H. case_if_in H; [done|].
  apply (f_equal snd) in H. cbn [snd] in H. subst rt'.
  destruct (_ && _) eqn:Hf; apply terminal_op_ok; try done.
  split_guards. destruct (base_plan _ Hb) as [Hp Hv]; [done|].
  apply set_plan_base; try done. by destruct Hp.
Qed.

Lemma complete_ok rt now_ms rt' :
  runtime_ok rt -> si_agent_task_runtime_complete rt now_ms = (SI_AGENT_TASK_OK, rt') ->
  runtime_ok rt'.
Proof.
  intros Hrt H. active_op H. active_facts. case_if_in H; [done|]. case_if_in H; [done|].
  apply (f_equal snd) in H. cbn [snd] in H. subst rt'. split_guards.
  assert (Hnt : si_agent_turn_status_is_terminal (tu_status (active_turn rt)) = false)
    by (match goal with E : tu_status _ = _ |- _ => by rewrite E end).
  rewrite (active_self rt) at 1. apply status_ok; try done.
  - intros Hpl _. apply (turn_summary _ Ht); [done | by left].
  - intros _. split; [done|]. cbn. intros Hpl. rewrite Hpl in *. cbn in *. by split_guards.
Qed.

Lemma retry_ok rt ra now_ms rt' :
  runtime_ok rt -> si_agent_task_runtime_retry rt ra now_ms = (SI_AGENT_TASK_OK, rt') ->
  runtime_ok rt'.
Proof.
  intros Hrt H. active_op H. active_facts. cbv zeta in H.
  case_if_in H; [done|]. case_if_in H; [done|]. case_if_in H; [done|].
  apply (f_equal snd) in H. cbn [snd] in H. subst rt'. split_guards.
  apply runtime_ok_active; try done.
  - pose proof (turn_created _ Ht). split; try (cbn; done); [|cbn; lia].
    destruct Hb. split; try done; cbn; [by apply id_valid_deref | by apply u32_revision..].
  - by right.
Qed.

(** ** The invariant *)

Lemma exec_ok rt o now_ms rt' :
  runtime_ok rt -> exec rt o now_ms = (SI_AGENT_TASK_OK, rt') -> runtime_ok rt'.
Proof.
  intros Hrt H. destruct o; cbn in H; unfold drop_started in H.
  - destruct (si_agent_task_runtime_submit _ _ _ _ _) as [[r st] rt1] eqn:E.
    cbn in H. injection H as -> ->. by eapply submit_ok.
  - destruct (si_agent_task_runtime_advance_queue _ _) as [[r st] rt1] eqn:E.
    cbn in H. injection H as -> ->. by eapply advance_ok.
  - by eapply set_phase_ok.
  - by eapply begin_plan_ok.
  - by eapply add_step_ok.
  - by eapply set_step_status_ok.
  - by eapply record_step_ok.
  - by eapply record_turn_ok.
  - by eapply steer_ok.
  - by eapply pause_ok.
  - by eapply resume_ok.
  - by eapply cancel_ok.
  - by eapply interrupt_ok.
  - by eapply mark_outcome_unknown_ok.
  - by eapply fail_ok.
  - by eapply complete_ok.
  - by eapply retry_ok.
Qed.

Lemma task_step_ok rt rt' : runtime_ok rt -> task_step rt rt' -> runtime_ok rt'.
Proof.
  intros Hrt H. destruct H as [rt o now_ms].
  destruct (exec rt o now_ms) as [r rt'] eqn:E. cbn.
  destruct (decide (r = SI_AGENT_TASK_OK)) as [->|Hne].
  - by eapply exec_ok.
  - by rewrite (exec_error _ _ _ _ _ E Hne).
Qed.

Lemma init_ok rt id t0 rt' :
  si_agent_task_runtime_init rt id t0 = (SI_AGENT_TASK_OK, rt') -> runtime_ok rt'.
Proof.
  unfold si_agent_task_runtime_init. intros H. case_if_in H; [done|].
  apply (f_equal snd) in H. cbn [snd] in H. subst rt'. split_guards.
  apply id_valid_deref in Heqb.
  split; try done; unfold turn_ids, run_ids, pending_queue; cbn; try constructor;
    unfold SI_AGENT_TASK_PENDING_CAPACITY; lia.
Qed.

Lemma reachable_ok rt : reachable rt -> runtime_ok rt.
Proof.
  intros (rt0 & id & t0 & rt1 & H0 & Hsteps). apply init_ok in H0.
  induction Hsteps as [rt|rt rt' rt'' Hs _ IH]; [done|].
  apply IH. by eapply task_step_ok.
Qed.
