(* ===== verification/AgentTaskProps.v ===== *)
(** * The agent task runtime: properties

    The theorems on [core/agent_task_runtime.c], each with a witness on a
    concrete run of the executable model. *)

From S2P Require Import Prelude RingBuffer AgentTaskRuntime AgentTaskInvariant.

(** A concrete run used by the witnesses: two submissions, a plan with one
    verified step, the turn verified. *)
Definition demo_start : si_agent_task_runtime_t :=
  (si_agent_task_runtime_init zero_runtime (Some (cstr "rt")) 1).2.

Definition demo_ops : list op :=
  [ OpSubmit (Some (cstr "th")) (Some (cstr "t1")) (Some (cstr "r1"));
    OpSubmit (Some (cstr "th")) (Some (cstr "t2")) (Some (cstr "r2"));
    OpSetPhase (enum_val SI_AGENT_TURN_PLANNING);
    OpBeginPlan (Some (cstr "p1"));
    OpAddStep (Some (cstr "s1"));
    OpSetPhase (enum_val SI_AGENT_TURN_EXECUTING);
    OpSetStepStatus (Some (cstr "s1")) (enum_val SI_AGENT_STEP_IN_PROGRESS);
    OpRecordStep (Some (cstr "s1")) (enum_val SI_AGENT_VERIFICATION_PASSED);
    OpSetStepStatus (Some (cstr "s1")) (enum_val SI_AGENT_STEP_COMPLETED);
    OpSetPhase (enum_val SI_AGENT_TURN_VERIFYING);
    OpRecordTurn (enum_val SI_AGENT_VERIFICATION_PASSED) ].

Definition run (rt : si_agent_task_runtime_t) (os : list op) (now_ms : Z)
  : si_agent_task_runtime_t :=
  fold_left (fun rt o => (exec rt o now_ms).2) os rt.

Lemma run_reachable rt os now_ms : reachable rt -> reachable (run rt os now_ms).
Proof.
  unfold run. revert rt. induction os as [|o os IH]; intros rt H; cbn; [done|].
  apply IH. destruct H as (rt0 & id & t0 & rt1 & H0 & Hs).
  exists rt0, id, t0, rt1. split; [done|]. eapply rtc_r; [done|]. constructor.
Qed.

Lemma demo_start_reachable : reachable demo_start.
Proof.
  exists zero_runtime, (Some (cstr "rt")), 1, demo_start. split; [done|]. constructor.
Qed.

Definition demo_verified : si_agent_task_runtime_t := run demo_start demo_ops 5.

Lemma demo_verified_reachable : reachable demo_verified.
Proof. apply run_reachable, demo_start_reachable. Qed.

Definition demo_completed : si_agent_task_runtime_t :=
  run demo_start (demo_ops ++ [OpComplete]) 5.

Lemma demo_completed_reachable : reachable demo_completed.
Proof. apply run_reachable, demo_start_reachable. Qed.

(** C11: every runtime reached from a successful init by any sequence of calls,
    with any arguments and clock readings, is well formed: ids fit their
    buffers, the ring indices are in range, the turn and its run attempt agree,
    the plan status is the summary of its steps, at most one step is in
    progress, and turn ids and run-attempt ids are pairwise distinct. *)
Theorem reachable_runtime_ok rt : reachable rt -> runtime_ok rt.
Proof. apply reachable_ok. Qed.

Lemma reachable_runtime_ok_witness :
  tu_status (active_turn demo_completed) = SI_AGENT_TURN_COMPLETED /\
  runtime_ok demo_completed.
Proof.
  split; [vm_compute; reflexivity |].
  apply reachable_runtime_ok. apply demo_completed_reachable.
Defined.

(** C12: a call that returns an error leaves the runtime exactly as it was. *)
Theorem rejected_call_unchanged rt o now_ms e rt' :
  exec rt o now_ms = (e, rt') -> e <> SI_AGENT_TASK_OK -> rt' = rt.
Proof. apply exec_error. Qed.

Lemma rejected_call_unchanged_witness :
  exec demo_verified OpResume 5 = (SI_AGENT_TASK_ERR_INVALID_TRANSITION, demo_verified) /\
  demo_verified = demo_verified.
Proof.
  split; [vm_compute; reflexivity |].
  apply (rejected_call_unchanged demo_verified OpResume 5
           SI_AGENT_TASK_ERR_INVALID_TRANSITION); [vm_compute; reflexivity | discriminate].
Defined.

(** *** Completion *)

Lemma summary_completed l :
  plan_summary l = SI_AGENT_PLAN_COMPLETED ->
  l <> [] /\ Forall (fun s => step_finished s = true) l.
Proof.
  unfold plan_summary. case_ifs; try done. intros _. split_guards. split; [done|].
  apply Forall_forall. intros s Hs. rewrite forallb_forall in *.
  match goal with H : forall _, _ |- _ => apply H end. by apply list_elem_of_In.
Qed.

(** C13: in every reachable runtime a completed turn has a passed turn
    verification, and its plan, if it has one, is a non-empty list of steps
    each of which is skipped or completed with a passed verification. *)
Theorem completed_turn_is_verified rt :
  reachable rt -> has_active_turn rt = true ->
  tu_status (active_turn rt) = SI_AGENT_TURN_COMPLETED ->
  tu_verification (active_turn rt) = SI_AGENT_VERIFICATION_PASSED /\
  (has_plan (active_turn rt) = true ->
   live_steps (plan (active_turn rt)) <> [] /\
   Forall (fun s => st_status s = SI_AGENT_STEP_SKIPPED \/
                    (st_status s = SI_AGENT_STEP_COMPLETED /\
                     st_verification s = SI_AGENT_VERIFICATION_PASSED))
     (live_steps (plan (active_turn rt)))).
Proof.
  intros Hr Ha Hc. apply reachable_ok in Hr. destruct (rt_turn _ Hr Ha) as [Ht _].
  destruct (turn_completed _ Ht Hc) as [Hv Hpl]. split; [done|]. intros Hp.
  pose proof (turn_summary _ Ht Hp ltac:(by right)) as Hs. rewrite (Hpl Hp) in Hs.
  symmetry in Hs. apply summary_completed in Hs as [Hne Hfin]. split; [done|].
  destruct (base_plan _ (turn_is_base _ Ht) Hp) as [Hok _].
  pose proof (plan_steps_ok _ Hok) as Hso. apply Forall_forall. intros s Hin.
  rewrite Forall_forall in Hfin, Hso.
  pose proof (Hfin s Hin) as Hf. destruct (Hso s Hin) as (_ & Hcv & _). unfold step_finished, step_is in Hf.
  apply orb_true_iff in Hf as [Hf|Hf]; split_guards; [right | left]; auto.
Qed.

Lemma completed_turn_is_verified_witness :
  tu_verification (active_turn demo_completed) = SI_AGENT_VERIFICATION_PASSED.
Proof.
  apply (completed_turn_is_verified demo_completed);
    [apply demo_completed_reachable | vm_compute; reflexivity..].
Defined.

(** *** The queue *)

(** [submit] with valid, unused ids refines the bounded FIFO list: with no
    active turn it starts the turn at once; with fewer than eight pending turns
    it appends the submission; otherwise it reports a full queue and changes
    nothing. *)
Theorem submit_refines_fifo rt th tu ra now_ms :
  runtime_ok rt -> id_ok th -> id_ok tu -> id_ok ra ->
  rt_updated_at_ms rt <= now_ms -> tu ∉ turn_ids rt -> ra ∉ run_ids rt ->
  let '(r, started, rt') :=
    si_agent_task_runtime_submit rt (Some th) (Some tu) (Some ra) now_ms in
  if has_active_turn rt
  then started = false /\ active_turn rt' = active_turn rt /\
       if decide (length (pending_queue rt) < SI_AGENT_TASK_PENDING_CAPACITY)%nat
       then r = SI_AGENT_TASK_OK /\
            pending_queue rt' = pending_queue rt ++ [mk_pending th tu ra now_ms]
       else r = SI_AGENT_TASK_ERR_QUEUE_FULL /\ rt' = rt
  else r = SI_AGENT_TASK_OK /\ started = true /\ pending_queue rt' = [] /\
       has_active_turn rt' = true /\
       tu_turn_id (active_turn rt') = tu /\
       run_attempt_id (run_attempt (active_turn rt')) = ra /\
       tu_status (active_turn rt') = SI_AGENT_TURN_UNDERSTANDING.
Proof.
  intros Hrt Hth Htu Hra Hn Ht Hr. unfold si_agent_task_runtime_submit. cbv zeta.
  rewrite (rt_initialized _ Hrt), !id_ok_valid by done.
  assert (Htv : time_valid rt now_ms = true).
  { unfold time_valid. rewrite (rt_initialized _ Hrt). cbn. lia. }
  change (deref (Some th)) with th. change (deref (Some tu)) with tu.
  change (deref (Some ra)) with ra. unfold copy_id.
  rewrite Htv, (id_use_free rt tu ra) by done. cbn [negb orb].
  assert (Hlen : length (pending_queue rt) = pending_count rt)
    by apply ring_list_length.
  destruct (has_active_turn rt) eqn:Ha; cbn [negb].
  - rewrite Hlen. case_decide as Hc.
    + rewrite (proj2 (Nat.leb_gt _ _) Hc). repeat split. by apply pending_queue_push.
    + rewrite (proj2 (Nat.leb_le _ _)) by lia. done.
  - repeat split. unfold pending_queue. cbn. by rewrite (rt_idle _ Hrt Ha).
Qed.

Lemma submit_refines_fifo_witness :
  let '(r, started, rt') :=
    si_agent_task_runtime_submit demo_verified (Some (cstr "th")) (Some (cstr "t3"))
      (Some (cstr "r3")) 6 in
  if has_active_turn demo_verified
  then started = false /\ active_turn rt' = active_turn demo_verified /\
       if decide (length (pending_queue demo_verified) < SI_AGENT_TASK_PENDING_CAPACITY)%nat
       then r = SI_AGENT_TASK_OK /\
            pending_queue rt' = pending_queue demo_verified ++
              [mk_pending (cstr "th") (cstr "t3") (cstr "r3") 6]
       else r = SI_AGENT_TASK_ERR_QUEUE_FULL /\ rt' = demo_verified
  else r = SI_AGENT_TASK_OK /\ started = true /\ pending_queue rt' = [] /\
       has_active_turn rt' = true /\
       tu_turn_id (active_turn rt') = cstr "t3" /\
       run_attempt_id (run_attempt (active_turn rt')) = cstr "r3" /\
       tu_status (active_turn rt') = SI_AGENT_TURN_UNDERSTANDING.
Proof.
  apply submit_refines_fifo.
  - apply reachable_ok, demo_verified_reachable.
  - apply id_ok_dec. by_eval.
  - apply id_ok_dec. by_eval.
  - apply id_ok_dec. by_eval.
  - vm_compute. discriminate.
  - by_decide.
  - by_decide.
Defined.

(** [advance_queue] refines the FIFO: once the active turn is gone or
    terminal it retires it and starts the oldest pending turn, keeping the
    others in order; with an empty queue it leaves no active turn. *)
Theorem advance_refines_fifo rt now_ms :
  runtime_ok rt -> rt_updated_at_ms rt <= now_ms ->
  (has_active_turn rt = true ->
   si_agent_turn_status_is_terminal (tu_status (active_turn rt)) = true) ->
  let '(r, started, rt') := si_agent_task_runtime_advance_queue rt now_ms in
  r = SI_AGENT_TASK_OK /\
  match pending_queue rt with
  | [] => started = false /\ has_active_turn rt' = false /\ pending_queue rt' = []
  | p :: q =>
      started = true /\ has_active_turn rt' = true /\ pending_queue rt' = q /\
      tu_thread_id (active_turn rt') = pe_thread_id p /\
      tu_turn_id (active_turn rt') = pe_turn_id p /\
      run_attempt_id (run_attempt (active_turn rt')) = pe_run_attempt_id p /\
      tu_created_at_ms (active_turn rt') = submitted_at_ms p
  end.
Proof.
  intros Hrt Hn Hterm. unfold si_agent_task_runtime_advance_queue. cbv zeta.
  assert (Htv : time_valid rt now_ms = true).
  { unfold time_valid. rewrite (rt_initialized _ Hrt). cbn. lia. }
  rewrite (rt_initialized _ Hrt), Htv. cbn [negb].
  replace (has_active_turn rt && _) with false
    by (destruct (has_active_turn rt); [by rewrite Hterm | done]).
  set (rt0 := if has_active_turn rt then _ else rt).
  assert (E0 : pending rt0 = pending rt /\ pending_head rt0 = pending_head rt /\
    pending_count rt0 = pending_count rt /\ has_active_turn rt0 = false).
  { unfold rt0. by destruct (has_active_turn rt) eqn:Ha. }
  clearbody rt0. destruct E0 as (Ep & Eh & En & Ea).
  rewrite En, Ep, Eh. destruct (Nat.eqb_spec (pending_count rt) 0) as [E|E].
  - unfold pending_queue at 1. rewrite E. cbn. unfold pending_queue. cbn. by rewrite En, E.
  - rewrite (pending_queue_pop rt Hrt) by lia. done.
Qed.

Lemma advance_refines_fifo_witness :
  let '(r, started, rt') := si_agent_task_runtime_advance_queue demo_completed 6 in
  r = SI_AGENT_TASK_OK /\
  match pending_queue demo_completed with
  | [] => started = false /\ has_active_turn rt' = false /\ pending_queue rt' = []
  | p :: q =>
      started = true /\ has_active_turn rt' = true /\ pending_queue rt' = q /\
      tu_thread_id (active_turn rt') = pe_thread_id p /\
      tu_turn_id (active_turn rt') = pe_turn_id p /\
      run_attempt_id (run_attempt (active_turn rt')) = pe_run_attempt_id p /\
      tu_created_at_ms (active_turn rt') = submitted_at_ms p
  end.
Proof.
  apply advance_refines_fifo.
  - apply reachable_ok, demo_completed_reachable.
  - vm_compute. discriminate.
  - intros _. by_eval.
Defined.

(** *** Terminal turns and the clock *)

Lemma with_active_reject rt now_ms (k : si_agent_task_turn_t -> outcome) rt' :
  with_active rt now_ms (fun e => (e, rt)) k = (SI_AGENT_TASK_OK, rt') ->
  (forall rt'', k (active_turn rt) <> (SI_AGENT_TASK_OK, rt'')) -> False.
Proof. intros H Hk. active_op H. by eapply Hk. Qed.

Lemma phase_from_terminal from to :
  si_agent_turn_status_is_terminal from = true -> phase_status_valid to = true ->
  phase_transition_allowed from to = false.
Proof. by destruct from, to. Qed.

(** Closes a branch in which the operation asked for a non-terminal turn. *)
Ltac refused H Hterm :=
  eapply with_active_reject in H; [done|]; intros rt''; cbv zeta; intros X;
  rewrite ?Hterm in X; cbn in X; peel X; try discriminate;
  repeat match goal with E : context [enum_of_Z _] |- _ => clear E end;
  split_guards; repeat match goal with E : tu_status _ = _ |- _ => rewrite E in Hterm end;
  try discriminate; try done.

(** A terminal turn is final. The only calls that succeed are a submission
    (which leaves the turn as it is), the retirement of the turn by
    [advance_queue], and a retry, which is open to failed, interrupted and
    outcome-unknown turns only. *)
Theorem terminal_turn_is_final rt o now_ms rt' :
  runtime_ok rt -> has_active_turn rt = true ->
  si_agent_turn_status_is_terminal (tu_status (active_turn rt)) = true ->
  exec rt o now_ms = (SI_AGENT_TASK_OK, rt') ->
  match o with
  | OpSubmit _ _ _ => active_turn rt' = active_turn rt
  | OpAdvance => True
  | OpRetry _ =>
      tu_status (active_turn rt) ∈
        [SI_AGENT_TURN_FAILED; SI_AGENT_TURN_INTERRUPTED; SI_AGENT_TURN_OUTCOME_UNKNOWN] /\
      tu_status (active_turn rt') = SI_AGENT_TURN_UNDERSTANDING
  | _ => False
  end.
Proof.
  intros Hrt Ha Ht H. destruct o; cbn in H; unfold drop_started in H; try done.
  - unfold si_agent_task_runtime_submit in H. rewrite Ha in H. cbn [negb] in H.
    revert H. case_ifs; cbn; try done. by intros [= <-].
  - eapply with_active_reject in H; [done|]. intros rt''.
    destruct (enum_of_Z status) as [st|]; [|done].
    destruct (phase_status_valid st) eqn:Hv; [|done].
    by rewrite phase_from_terminal.
  - refused H Ht.
  - refused H Ht.
  - refused H Ht.
  - refused H Ht.
  - refused H Ht.
  - refused H Ht.
  - refused H Ht.
  - refused H Ht.
  - refused H Ht.
  - refused H Ht.
  - refused H Ht.
  - refused H Ht.
  - refused H Ht.
  - clear Ha. active_op H. cbv zeta in H.
    case_if_in H; [done|]. destruct (_ && _) eqn:Hst in H; [done|].
    case_if_in H; [done|]. apply (f_equal snd) in H. cbn [snd] in H. subst rt'.
    split; [|done]. destruct (tu_status (active_turn rt)); set_solver.
Qed.

Lemma terminal_turn_is_final_witness :
  exists rt', exec demo_completed (OpSubmit (Some (cstr "th")) (Some (cstr "t3"))
                (Some (cstr "r3"))) 6 = (SI_AGENT_TASK_OK, rt') /\
              active_turn rt' = active_turn demo_completed.
Proof.
  eexists. split; [by_eval|].
  apply (terminal_turn_is_final demo_completed (OpSubmit (Some (cstr "th"))
    (Some (cstr "t3")) (Some (cstr "r3"))) 6).
  - apply reachable_ok, demo_completed_reachable.
  - by_eval.
  - by_eval.
  - by_eval.
Defined.

(** Pausing a live turn and resuming it at any later time succeeds and
    restores the phase, the plan, the verification and the running attempt. *)
Theorem pause_then_resume rt t1 t2 :
  runtime_ok rt -> has_active_turn rt = true ->
  phase_status_valid (tu_status (active_turn rt)) = true ->
  rt_updated_at_ms rt <= t1 -> t1 <= t2 ->
  let '(r1, rt1) := si_agent_task_runtime_pause rt t1 in
  let '(r2, rt2) := si_agent_task_runtime_resume rt1 t2 in
  r1 = SI_AGENT_TASK_OK /\ r2 = SI_AGENT_TASK_OK /\
  tu_status (active_turn rt1) = SI_AGENT_TURN_PAUSED /\
  ra_status (run_attempt (active_turn rt1)) = SI_AGENT_RUN_ATTEMPT_PAUSED /\
  tu_status (active_turn rt2) = tu_status (active_turn rt) /\
  ra_status (run_attempt (active_turn rt2)) = SI_AGENT_RUN_ATTEMPT_RUNNING /\
  has_plan (active_turn rt2) = has_plan (active_turn rt) /\
  plan (active_turn rt2) = plan (active_turn rt) /\
  tu_verification (active_turn rt2) = tu_verification (active_turn rt) /\
  pending_queue rt2 = pending_queue rt.
Proof.
  intros Hrt Ha Hv H1 H2.
  unfold si_agent_task_runtime_pause, with_active, active_for_update, time_valid.
  rewrite (rt_initialized _ Hrt), (proj2 (Z.leb_le _ _) H1), Ha. cbv zeta. cbn [negb andb].
  destruct (phase_not_terminal _ Hv) as (Hnt & _ & Hnp).
  rewrite Hnt, bool_decide_eq_false_2 by done. cbn [orb].
  unfold si_agent_task_runtime_resume, with_active, active_for_update, time_valid.
  rewrite apply_turn_status_eq. unfold runtime_initialized.
  cbn [set runtime_id rt_updated_at_ms has_active_turn active_turn].
  fold (runtime_initialized rt). rewrite (rt_initialized _ Hrt), (proj2 (Z.leb_le _ _) H2), Ha.
  cbn [negb andb]. rewrite bool_decide_eq_false_2 by (intros X; by apply X).
  cbn [status_turn set resume_status]. rewrite Hv. cbn [negb orb].
  rewrite apply_turn_status_eq. repeat split.
  cbn. by destruct (tu_status (active_turn rt)).
Qed.

Lemma pause_then_resume_witness :
  let '(r1, rt1) := si_agent_task_runtime_pause demo_verified 6 in
  let '(r2, rt2) := si_agent_task_runtime_resume rt1 7 in
  r1 = SI_AGENT_TASK_OK /\ r2 = SI_AGENT_TASK_OK /\
  tu_status (active_turn rt1) = SI_AGENT_TURN_PAUSED /\
  ra_status (run_attempt (active_turn rt1)) = SI_AGENT_RUN_ATTEMPT_PAUSED /\
  tu_status (active_turn rt2) = tu_status (active_turn demo_verified) /\
  ra_status (run_attempt (active_turn rt2)) = SI_AGENT_RUN_ATTEMPT_RUNNING /\
  has_plan (active_turn rt2) = has_plan (active_turn demo_verified) /\
  plan (active_turn rt2) = plan (active_turn demo_verified) /\
  tu_verification (active_turn rt2) = tu_verification (active_turn demo_verified) /\
  pending_queue rt2 = pending_queue demo_verified.
Proof.
  apply pause_then_resume.
  - apply reachable_ok, demo_verified_reachable.
  - by_eval.
  - by_eval.
  - vm_compute. discriminate.
  - lia.
Defined.
