(* ===== verification/RelayProtocol.v ===== *)
(** * EXAR/1 relay framing: [core/relay_protocol.c]

    The frame header codec, the payload validation, the streaming decoder and
    the canonical input of the relay authentication tag.

    A frame type read from the wire is a raw byte: [type] is a [Z] and
    [enum_of_Z] reads it.  The caller-owned payload storage is a nullable
    address (the decoder compares it with the one it was first given) together
    with the bytes stored there, which [si_relay_decoder_consume] takes and
    gives back. *)

From S2P Require Import Prelude.

Definition SI_RELAY_PROTOCOL_VERSION : Z := 1.
Definition SI_RELAY_HEADER_SIZE : nat := 20.
Definition SI_RELAY_MAX_PAYLOAD_SIZE : Z := 16 * 1024.
Definition SI_RELAY_MAX_DEVICE_ID_SIZE : nat := 63.
Definition SI_RELAY_NONCE_SIZE : nat := 32.
Definition SI_RELAY_AUTH_TAG_SIZE : nat := 32.
Definition SI_RELAY_SESSION_ID_SIZE : nat := 16.
Definition SI_RELAY_READY_PAYLOAD_SIZE : nat := 24.
Definition SI_RELAY_MAX_WINDOW_SIZE : Z := 4 * 1024 * 1024.
Definition SI_RELAY_AUTH_CONTEXT : list Z := cstr "EXAR-AUTH-V1".
Definition SI_RELAY_AUTH_CONTEXT_SIZE : nat := length SI_RELAY_AUTH_CONTEXT.
Definition SI_RELAY_CAPABILITY_WEB_HTTP : Z := Z.shiftl 1 0.
Definition SI_RELAY_CAPABILITY_VIDEO_HTTP : Z := Z.shiftl 1 1.
Definition SI_RELAY_KNOWN_CAPABILITIES : Z :=
  Z.lor SI_RELAY_CAPABILITY_WEB_HTTP SI_RELAY_CAPABILITY_VIDEO_HTTP.
Definition SI_RELAY_FLAG_FIN : Z := 1.

Inductive si_relay_frame_type_t :=
| SI_RELAY_FRAME_HELLO | SI_RELAY_FRAME_CHALLENGE | SI_RELAY_FRAME_AUTH
| SI_RELAY_FRAME_READY | SI_RELAY_FRAME_OPEN | SI_RELAY_FRAME_OPEN_OK
| SI_RELAY_FRAME_DATA | SI_RELAY_FRAME_WINDOW | SI_RELAY_FRAME_CLOSE
| SI_RELAY_FRAME_PING | SI_RELAY_FRAME_PONG | SI_RELAY_FRAME_ERROR.

Inductive si_relay_service_t :=
| SI_RELAY_SERVICE_WEB_HTTP | SI_RELAY_SERVICE_VIDEO_HTTP.

Inductive si_relay_result_t :=
| SI_RELAY_RESULT_OK | SI_RELAY_RESULT_NEED_MORE | SI_RELAY_RESULT_FRAME_READY
| SI_RELAY_RESULT_INVALID_ARGUMENT | SI_RELAY_RESULT_BAD_MAGIC
| SI_RELAY_RESULT_UNSUPPORTED_VERSION | SI_RELAY_RESULT_UNKNOWN_TYPE
| SI_RELAY_RESULT_INVALID_FLAGS | SI_RELAY_RESULT_INVALID_STREAM
| SI_RELAY_RESULT_PAYLOAD_TOO_LARGE | SI_RELAY_RESULT_INVALID_PAYLOAD
| SI_RELAY_RESULT_BUFFER_TOO_SMALL.

#[export] Instance relay_frame_type_eq_dec : EqDecision si_relay_frame_type_t.
Proof. solve_decision. Defined.
#[export] Instance relay_service_eq_dec : EqDecision si_relay_service_t.
Proof. solve_decision. Defined.
#[export] Instance relay_result_eq_dec : EqDecision si_relay_result_t.
Proof. solve_decision. Defined.

Definition frame_type_value (t : si_relay_frame_type_t) : Z :=
  match t with
  | SI_RELAY_FRAME_HELLO => 1 | SI_RELAY_FRAME_CHALLENGE => 2
  | SI_RELAY_FRAME_AUTH => 3 | SI_RELAY_FRAME_READY => 4
  | SI_RELAY_FRAME_OPEN => 16 | SI_RELAY_FRAME_OPEN_OK => 17
  | SI_RELAY_FRAME_DATA => 18 | SI_RELAY_FRAME_WINDOW => 19
  | SI_RELAY_FRAME_CLOSE => 20 | SI_RELAY_FRAME_PING => 32
  | SI_RELAY_FRAME_PONG => 33 | SI_RELAY_FRAME_ERROR => 34
  end.

Definition service_value (s : si_relay_service_t) : Z :=
  match s with
  | SI_RELAY_SERVICE_WEB_HTTP => 1 | SI_RELAY_SERVICE_VIDEO_HTTP => 2
  end.

#[export] Instance relay_frame_type_enum : CEnum si_relay_frame_type_t.
Proof.
  enum_at frame_type_value
    [SI_RELAY_FRAME_HELLO; SI_RELAY_FRAME_CHALLENGE; SI_RELAY_FRAME_AUTH;
     SI_RELAY_FRAME_READY; SI_RELAY_FRAME_OPEN; SI_RELAY_FRAME_OPEN_OK;
     SI_RELAY_FRAME_DATA; SI_RELAY_FRAME_WINDOW; SI_RELAY_FRAME_CLOSE;
     SI_RELAY_FRAME_PING; SI_RELAY_FRAME_PONG; SI_RELAY_FRAME_ERROR].
Defined.

Record si_relay_frame_header_t := mk_header {
  hd_version : Z;
  hd_type : Z;
  hd_flags : Z;
  hd_stream_id : Z;
  hd_sequence : Z;
  hd_payload_size : Z
}.

Record si_relay_decoder_t := mk_decoder {
  header_bytes : list Z;
  header_used : nat;
  current : si_relay_frame_header_t;
  payload_used : nat;
  payload_storage : option nat;
  payload_capacity : nat;
  header_ready : bool
}.

#[export] Instance eta_relay_decoder : Settable si_relay_decoder_t := fun d =>
  mk_decoder (header_bytes d) (header_used d) (current d) (payload_used d)
    (payload_storage d) (payload_capacity d) (header_ready d).

Definition zero_header : si_relay_frame_header_t := mk_header 0 0 0 0 0 0.

(** ** Big-endian integers *)

Definition s_magic : list Z := cstr "EXAR".

Definition byte_at (p : list Z) (i : nat) : Z := nth i p 0.

Definition read_u16_be (input : list Z) : Z :=
  Z.lor (Z.shiftl (byte_at input 0) 8) (byte_at input 1).

Definition read_u32_be (input : list Z) : Z :=
  Z.lor (Z.lor (Z.lor (Z.shiftl (byte_at input 0) 24)
                      (Z.shiftl (byte_at input 1) 16))
               (Z.shiftl (byte_at input 2) 8))
        (byte_at input 3).

Definition write_u16_be (value : Z) : list Z := [u8 (Z.shiftr value 8); u8 value].

Definition write_u32_be (value : Z) : list Z :=
  [u8 (Z.shiftr value 24); u8 (Z.shiftr value 16); u8 (Z.shiftr value 8); u8 value].

(** ** Frame types *)

Definition frame_type_known (type : Z) : bool :=
  match enum_of_Z type with
  | Some (SI_RELAY_FRAME_HELLO | SI_RELAY_FRAME_CHALLENGE | SI_RELAY_FRAME_AUTH
         | SI_RELAY_FRAME_READY | SI_RELAY_FRAME_OPEN | SI_RELAY_FRAME_OPEN_OK
         | SI_RELAY_FRAME_DATA | SI_RELAY_FRAME_WINDOW | SI_RELAY_FRAME_CLOSE
         | SI_RELAY_FRAME_PING | SI_RELAY_FRAME_PONG | SI_RELAY_FRAME_ERROR) => true
  | None => false
  end.

Definition frame_is_session_scoped (type : Z) : bool :=
  match enum_of_Z type with
  | Some (SI_RELAY_FRAME_HELLO | SI_RELAY_FRAME_CHALLENGE | SI_RELAY_FRAME_AUTH
         | SI_RELAY_FRAME_READY | SI_RELAY_FRAME_PING | SI_RELAY_FRAME_PONG) => true
  | _ => false
  end.

Definition frame_is_stream_scoped (type : Z) : bool :=
  match enum_of_Z type with
  | Some (SI_RELAY_FRAME_OPEN | SI_RELAY_FRAME_OPEN_OK | SI_RELAY_FRAME_DATA
         | SI_RELAY_FRAME_WINDOW | SI_RELAY_FRAME_CLOSE) => true
  | _ => false
  end.

(** ** Payload checks *)

Definition bytes_have_nonzero (bytes : list Z) (size : nat) : bool :=
  negb (fold_left Z.lor (take size bytes) 0 =? 0).

(** The loop of [device_id_valid] from index [i]. *)
Fixpoint device_id_chars (bytes : list Z) (i size : nat) : bool :=
  match bytes with
  | [] => true
  | value :: rest =>
      let alpha := (ch "a" <=? value) && (value <=? ch "z") in
      let digit := (ch "0" <=? value) && (value <=? ch "9") in
      return_if negb alpha && negb digit && negb (value =? ch "-") with false ;;
      return_if ((i =? 0)%nat || (i + 1 =? size)%nat) && negb alpha && negb digit
        with false ;;
      device_id_chars rest (S i) size
  end.

Definition device_id_valid (device_id : list Z) (size : nat) : bool :=
  return_if (size =? 0)%nat || (SI_RELAY_MAX_DEVICE_ID_SIZE <? size)%nat with false ;;
  device_id_chars (take size device_id) 0 size.

Definition payload_size_valid (header : si_relay_frame_header_t) : bool :=
  let size := hd_payload_size header in
  match enum_of_Z (hd_type header) with
  | Some SI_RELAY_FRAME_HELLO =>
      (38 <=? size) && (size <=? 37 + Z.of_nat SI_RELAY_MAX_DEVICE_ID_SIZE)
  | Some SI_RELAY_FRAME_CHALLENGE => size =? Z.of_nat SI_RELAY_NONCE_SIZE
  | Some SI_RELAY_FRAME_AUTH => size =? Z.of_nat SI_RELAY_AUTH_TAG_SIZE
  | Some SI_RELAY_FRAME_READY => size =? Z.of_nat SI_RELAY_READY_PAYLOAD_SIZE
  | Some SI_RELAY_FRAME_OPEN => size =? 8
  | Some (SI_RELAY_FRAME_OPEN_OK | SI_RELAY_FRAME_WINDOW) => size =? 4
  | Some SI_RELAY_FRAME_DATA =>
      (0 <? size) || negb (Z.land (hd_flags header) SI_RELAY_FLAG_FIN =? 0)
  | Some (SI_RELAY_FRAME_CLOSE | SI_RELAY_FRAME_ERROR) =>
      (2 <=? size) && (size <=? 130)
  | Some (SI_RELAY_FRAME_PING | SI_RELAY_FRAME_PONG) => size =? 8
  | None => false
  end.

Definition validate_header (header : si_relay_frame_header_t) : si_relay_result_t :=
  let type := hd_type header in
  let is_data := type =? enum_val SI_RELAY_FRAME_DATA in
  return_if negb (hd_version header =? SI_RELAY_PROTOCOL_VERSION)
    with SI_RELAY_RESULT_UNSUPPORTED_VERSION ;;
  return_if negb (frame_type_known type) with SI_RELAY_RESULT_UNKNOWN_TYPE ;;
  return_if (is_data &&
             negb (Z.land (hd_flags header) (u16 (Z.lnot SI_RELAY_FLAG_FIN)) =? 0)) ||
            (negb is_data && negb (hd_flags header =? 0))
    with SI_RELAY_RESULT_INVALID_FLAGS ;;
  return_if (frame_is_session_scoped type && negb (hd_stream_id header =? 0)) ||
            (frame_is_stream_scoped type && (hd_stream_id header =? 0))
    with SI_RELAY_RESULT_INVALID_STREAM ;;
  return_if SI_RELAY_MAX_PAYLOAD_SIZE <? hd_payload_size header
    with SI_RELAY_RESULT_PAYLOAD_TOO_LARGE ;;
  return_if negb (payload_size_valid header) with SI_RELAY_RESULT_INVALID_PAYLOAD ;;
  SI_RELAY_RESULT_OK.

Definition si_relay_decoder_init : si_relay_decoder_t :=
  mk_decoder (replicate SI_RELAY_HEADER_SIZE 0) 0 zero_header 0 None 0 false.

(** ** The header codec *)

Definition si_relay_encode_header (header : si_relay_frame_header_t)
  : si_relay_result_t * option (list Z) :=
  let result := validate_header header in
  return_if negb (bool_decide (result = SI_RELAY_RESULT_OK)) with (result, None) ;;
  (SI_RELAY_RESULT_OK,
   Some (s_magic ++ [hd_version header; u8 (hd_type header)] ++
         write_u16_be (hd_flags header) ++
         write_u32_be (hd_stream_id header) ++
         write_u32_be (hd_sequence header) ++
         write_u32_be (hd_payload_size header))).

Definition parse_header (input : list Z) : si_relay_frame_header_t := {|
  hd_version := byte_at input 4;
  hd_type := byte_at input 5;
  hd_flags := read_u16_be (drop 6 input);
  hd_stream_id := read_u32_be (drop 8 input);
  hd_sequence := read_u32_be (drop 12 input);
  hd_payload_size := read_u32_be (drop 16 input) |}.

(** The second component is the header stored through [header_out], if any. *)
Definition si_relay_decode_header (input : list Z)
  : si_relay_result_t * option si_relay_frame_header_t :=
  return_if negb (bool_decide (take 4 input = s_magic))
    with (SI_RELAY_RESULT_BAD_MAGIC, None) ;;
  let header := parse_header input in
  let result := validate_header header in
  (result, if bool_decide (result = SI_RELAY_RESULT_OK) then Some header else None).

(** ** Payload validation *)

Definition hello_payload_ok (header : si_relay_frame_header_t) (payload : list Z) : bool :=
  let capabilities := read_u32_be payload in
  let device_id_size := byte_at payload 36 in
  negb (negb (Z.land capabilities (Z.lnot SI_RELAY_KNOWN_CAPABILITIES) =? 0) ||
        (Z.land capabilities SI_RELAY_CAPABILITY_WEB_HTTP =? 0) ||
        negb (bytes_have_nonzero (drop 4 payload) SI_RELAY_NONCE_SIZE) ||
        (device_id_size =? 0) ||
        negb (device_id_size =? hd_payload_size header - 37) ||
        negb (device_id_valid (drop 37 payload) (Z.to_nat device_id_size))).

Definition ready_payload_ok (payload : list Z) : bool :=
  let heartbeat_ms := read_u32_be (drop 16 payload) in
  let max_streams := read_u16_be (drop 20 payload) in
  negb (negb (bytes_have_nonzero payload SI_RELAY_SESSION_ID_SIZE) ||
        (heartbeat_ms <? 5000) || (120000 <? heartbeat_ms) ||
        (max_streams =? 0) || (32 <? max_streams) ||
        negb (read_u16_be (drop 22 payload) =? 0)).

Definition open_payload_ok (payload : list Z) : bool :=
  let service := byte_at payload 0 in
  let receive_window := read_u32_be (drop 4 payload) in
  negb ((negb (service =? service_value SI_RELAY_SERVICE_WEB_HTTP) &&
         negb (service =? service_value SI_RELAY_SERVICE_VIDEO_HTTP)) ||
        negb (byte_at payload 1 =? 0) || negb (byte_at payload 2 =? 0) ||
        negb (byte_at payload 3 =? 0) ||
        (receive_window =? 0) || (SI_RELAY_MAX_WINDOW_SIZE <? receive_window)).

Definition si_relay_validate_payload (header : si_relay_frame_header_t)
    (payload : option (list Z)) : si_relay_result_t :=
  let result := validate_header header in
  return_if negb (bool_decide (result = SI_RELAY_RESULT_OK)) with result ;;
  return_if (0 <? hd_payload_size header) && negb (bool_decide (is_Some payload))
    with SI_RELAY_RESULT_INVALID_ARGUMENT ;;
  let bytes := default [] payload in
  let reject_unless (ok : bool) :=
    if ok then SI_RELAY_RESULT_OK else SI_RELAY_RESULT_INVALID_PAYLOAD in
  match enum_of_Z (hd_type header) with
  | Some SI_RELAY_FRAME_HELLO => reject_unless (hello_payload_ok header bytes)
  | Some SI_RELAY_FRAME_CHALLENGE =>
      reject_unless (bytes_have_nonzero bytes SI_RELAY_NONCE_SIZE)
  | Some SI_RELAY_FRAME_READY => reject_unless (ready_payload_ok bytes)
  | Some SI_RELAY_FRAME_OPEN => reject_unless (open_payload_ok bytes)
  | Some (SI_RELAY_FRAME_OPEN_OK | SI_RELAY_FRAME_WINDOW) =>
      reject_unless (negb ((read_u32_be bytes =? 0) ||
                           (SI_RELAY_MAX_WINDOW_SIZE <? read_u32_be bytes)))
  | _ => SI_RELAY_RESULT_OK
  end.

(** ** The streaming decoder *)

(** [memcpy(&mem[off], bytes, |bytes|)]. *)
Definition memcpy (mem : list Z) (off : nat) (bytes : list Z) : list Z :=
  take off mem ++ bytes ++ drop (off + length bytes) mem.

Arguments memcpy : simpl never.

(** What one call gives back: the result, the decoder, the bytes of the
    payload storage, the number of input bytes consumed and the header written
    through [header_out]. *)
Record consume_outcome := mk_outcome {
  co_result : si_relay_result_t;
  co_decoder : si_relay_decoder_t;
  co_storage : list Z;
  co_consumed : nat;
  co_header : option si_relay_frame_header_t
}.

(** The end of [si_relay_decoder_consume]: wait for the rest of the payload, or
    validate the frame, report it and start over. *)
Definition finish_frame (decoder : si_relay_decoder_t) (mem : list Z) (consumed : nat)
  : consume_outcome :=
  return_if Z.of_nat (payload_used decoder) <? hd_payload_size (current decoder)
    with mk_outcome SI_RELAY_RESULT_NEED_MORE decoder mem consumed None ;;
  let result :=
    si_relay_validate_payload (current decoder)
      (match payload_storage decoder with Some _ => Some mem | None => None end) in
  return_if negb (bool_decide (result = SI_RELAY_RESULT_OK))
    with mk_outcome result si_relay_decoder_init mem consumed None ;;
  mk_outcome SI_RELAY_RESULT_FRAME_READY si_relay_decoder_init mem consumed
    (Some (current decoder)).

(** The payload bytes, once a header is in [current]. *)
Definition receive_payload (decoder : si_relay_decoder_t) (input : list Z)
    (input_offset : nat) (mem : list Z) : consume_outcome :=
  let available := (length input - input_offset)%nat in
  let missing := (Z.to_nat (hd_payload_size (current decoder)) - payload_used decoder)%nat in
  let copied := Nat.min available missing in
  let mem := memcpy mem (payload_used decoder) (take copied (drop input_offset input)) in
  finish_frame (decoder <| payload_used := (payload_used decoder + copied)%nat |>) mem
    (input_offset + copied).

(** The header is complete: decode it, check the storage and go on to the
    payload. *)
Definition accept_header (decoder : si_relay_decoder_t) (input : list Z) (copied : nat)
    (storage : option nat) (mem : list Z) (capacity : nat) : consume_outcome :=
  match si_relay_decode_header (header_bytes decoder) with
  | (SI_RELAY_RESULT_OK, Some header) =>
      let storage_too_small := Z.of_nat capacity <? hd_payload_size header in
      return_if storage_too_small ||
                ((0 <? hd_payload_size header) && negb (bool_decide (is_Some storage)))
        with mk_outcome
               (if storage_too_small then SI_RELAY_RESULT_BUFFER_TOO_SMALL
                else SI_RELAY_RESULT_INVALID_ARGUMENT)
               si_relay_decoder_init mem copied None ;;
      receive_payload
        ((((decoder <| current := header |>)
                    <| header_ready := true |>)
                    <| payload_storage := storage |>)
                    <| payload_capacity := capacity |>)
        input copied mem
  | (result, _) => mk_outcome result si_relay_decoder_init mem copied None
  end.

(** [input] is the readable input, [storage] the payload storage (its address,
    or NULL), [mem] the bytes at that address, [capacity] their number. *)
Definition si_relay_decoder_consume (decoder : si_relay_decoder_t) (input : list Z)
    (storage : option nat) (mem : list Z) (capacity : nat) : consume_outcome :=
  if negb (header_ready decoder) then
    let missing := (SI_RELAY_HEADER_SIZE - header_used decoder)%nat in
    let copied := Nat.min (length input) missing in
    let decoder :=
      (decoder <| header_bytes :=
                   memcpy (header_bytes decoder) (header_used decoder) (take copied input) |>)
               <| header_used := (header_used decoder + copied)%nat |> in
    return_if (header_used decoder <? SI_RELAY_HEADER_SIZE)%nat
      with mk_outcome SI_RELAY_RESULT_NEED_MORE decoder mem copied None ;;
    accept_header decoder input copied storage mem capacity
  else
    return_if negb (bool_decide (payload_storage decoder = storage)) ||
              negb (payload_capacity decoder =? capacity)%nat
      with mk_outcome SI_RELAY_RESULT_INVALID_ARGUMENT si_relay_decoder_init mem 0 None ;;
    receive_payload decoder input 0 mem.

(** ** Authentication input *)

(** The second component is the content of [output], whose length is the
    [*output_size] stored. *)
Definition si_relay_build_auth_input (hello_payload : option (list Z)) (hello_size : nat)
    (challenge : option (list Z)) (output_capacity : nat)
  : si_relay_result_t * option (list Z) :=
  match hello_payload, challenge with
  | Some hello, Some challenge =>
      return_if (hello_size <? 38)%nat ||
                (37 + SI_RELAY_MAX_DEVICE_ID_SIZE <? hello_size)%nat
        with (SI_RELAY_RESULT_INVALID_ARGUMENT, None) ;;
      let hello_header :=
        mk_header SI_RELAY_PROTOCOL_VERSION (enum_val SI_RELAY_FRAME_HELLO) 0 0 0
          (u32 (Z.of_nat hello_size)) in
      return_if negb (bool_decide (si_relay_validate_payload hello_header (Some hello)
                                   = SI_RELAY_RESULT_OK)) ||
                negb (bytes_have_nonzero challenge SI_RELAY_NONCE_SIZE)
        with (SI_RELAY_RESULT_INVALID_PAYLOAD, None) ;;
      let required :=
        (SI_RELAY_AUTH_CONTEXT_SIZE + 1 + hello_size + SI_RELAY_NONCE_SIZE)%nat in
      return_if (output_capacity <? required)%nat
        with (SI_RELAY_RESULT_BUFFER_TOO_SMALL, None) ;;
      (SI_RELAY_RESULT_OK,
       Some (SI_RELAY_AUTH_CONTEXT ++ [0] ++ take hello_size hello ++
             take SI_RELAY_NONCE_SIZE challenge))
  | _, _ => (SI_RELAY_RESULT_INVALID_ARGUMENT, None)
  end.

Definition si_relay_result_name (result : option si_relay_result_t) : cstring :=
  match result with
  | Some SI_RELAY_RESULT_OK => cstr "ok"
  | Some SI_RELAY_RESULT_NEED_MORE => cstr "need_more"
  | Some SI_RELAY_RESULT_FRAME_READY => cstr "frame_ready"
  | Some SI_RELAY_RESULT_INVALID_ARGUMENT => cstr "invalid_argument"
  | Some SI_RELAY_RESULT_BAD_MAGIC => cstr "bad_magic"
  | Some SI_RELAY_RESULT_UNSUPPORTED_VERSION => cstr "unsupported_version"
  | Some SI_RELAY_RESULT_UNKNOWN_TYPE => cstr "unknown_type"
  | Some SI_RELAY_RESULT_INVALID_FLAGS => cstr "invalid_flags"
  | Some SI_RELAY_RESULT_INVALID_STREAM => cstr "invalid_stream"
  | Some SI_RELAY_RESULT_PAYLOAD_TOO_LARGE => cstr "payload_too_large"
  | Some SI_RELAY_RESULT_INVALID_PAYLOAD => cstr "invalid_payload"
  | Some SI_RELAY_RESULT_BUFFER_TOO_SMALL => cstr "buffer_too_small"
  | None => cstr "unknown_result"
  end.
