(* ===== verification/RelayProtocolProps.v ===== *)
(** * EXAR/1 relay framing: properties

    The header codec is a bijection between valid headers and the 20-byte
    strings it accepts; the streaming decoder gives the same outcome however the
    network splits the bytes, delivers every valid frame, and delivers nothing
    else; the authentication input determines what it authenticates. *)

From S2P Require Import Prelude RelayProtocol.

(** ** The big-endian integers *)

Lemma read_u16_be_sum p :
  is_byte (byte_at p 1) -> read_u16_be p = byte_at p 0 * 256 + byte_at p 1.
Proof. intros H. unfold read_u16_be. by rewrite lor_shiftl_add by (unfold is_byte in H; lia). Qed.

Lemma read_u32_be_sum p :
  is_byte (byte_at p 1) -> is_byte (byte_at p 2) -> is_byte (byte_at p 3) ->
  read_u32_be p =
  ((byte_at p 0 * 256 + byte_at p 1) * 256 + byte_at p 2) * 256 + byte_at p 3.
Proof.
  unfold is_byte, read_u32_be. intros H1 H2 H3.
  rewrite <- !Z.lor_assoc.
  rewrite (lor_shiftl_add _ (byte_at p 3) 8) by lia.
  rewrite (lor_shiftl_add _ (byte_at p 2 * 2 ^ 8 + byte_at p 3) 16) by lia.
  rewrite lor_shiftl_add by lia. lia.
Qed.

Lemma u8_byte x : is_byte (u8 x).
Proof. apply u8_range. Qed.

Lemma write_read_u16 v rest : is_u16 v -> read_u16_be (write_u16_be v ++ rest) = v.
Proof.
  intros H. rewrite read_u16_be_sum by apply u8_byte. cbn. unfold u8, is_u16 in *.
  rewrite Z.shiftr_div_pow2 by lia. Z.div_mod_to_equations. lia.
Qed.

Lemma write_read_u32 v rest : is_u32 v -> read_u32_be (write_u32_be v ++ rest) = v.
Proof.
  intros H. rewrite read_u32_be_sum by apply u8_byte. cbn. unfold u8, is_u32 in *.
  rewrite !Z.shiftr_div_pow2 by lia. Z.div_mod_to_equations. lia.
Qed.

Lemma read_write_u16 p :
  length p = 2%nat -> Forall is_byte p -> write_u16_be (read_u16_be p) = p /\ is_u16 (read_u16_be p).
Proof.
  destruct p as [|a [|b [|]]]; try done. intros _ H.
  inversion_clear H as [|?? Ha H']; inversion_clear H' as [|?? Hb _].
  rewrite read_u16_be_sum by done. cbn. unfold write_u16_be, u8, is_u16, is_byte in *.
  rewrite Z.shiftr_div_pow2 by lia.
  split; [f_equal; [|f_equal]|]; Z.div_mod_to_equations; lia.
Qed.

Lemma read_write_u32 p :
  length p = 4%nat -> Forall is_byte p -> write_u32_be (read_u32_be p) = p /\ is_u32 (read_u32_be p).
Proof.
  destruct p as [|a [|b [|c [|d [|]]]]]; try done. intros _ H.
  apply Forall_cons in H as [Ha H]. apply Forall_cons in H as [Hb H].
  apply Forall_cons in H as [Hc H]. apply Forall_cons in H as [Hd _].
  rewrite read_u32_be_sum by done. cbn. unfold write_u32_be, u8, is_u32, is_byte in *.
  rewrite !Z.shiftr_div_pow2 by lia.
  split; [f_equal; [|f_equal; [|f_equal; [|f_equal]]]|]; Z.div_mod_to_equations; lia.
Qed.

(** ** The header codec *)

(** The fields fit the widths of the C structure. *)
Definition header_ok (h : si_relay_frame_header_t) : Prop :=
  is_u8 (hd_version h) /\ is_u16 (hd_flags h) /\ is_u32 (hd_stream_id h) /\
  is_u32 (hd_sequence h) /\ is_u32 (hd_payload_size h).

#[export] Instance header_ok_dec h : Decision (header_ok h).
Proof. unfold header_ok. apply _. Defined.

Definition wire (h : si_relay_frame_header_t) : list Z :=
  s_magic ++ [hd_version h; u8 (hd_type h)] ++ write_u16_be (hd_flags h) ++
  write_u32_be (hd_stream_id h) ++ write_u32_be (hd_sequence h) ++
  write_u32_be (hd_payload_size h).

Lemma wire_length h : length (wire h) = SI_RELAY_HEADER_SIZE.
Proof. reflexivity. Qed.

Lemma frame_type_known_byte t : frame_type_known t = true -> u8 t = t.
Proof.
  unfold frame_type_known. destruct (enum_of_Z t) as [e|] eqn:E; [|done]. intros _.
  apply enum_of_Z_Some in E as <-. by destruct e.
Qed.

Lemma validate_header_ok h :
  validate_header h = SI_RELAY_RESULT_OK ->
  frame_type_known (hd_type h) = true /\ payload_size_valid h = true /\
  hd_version h = 1 /\ hd_payload_size h <= SI_RELAY_MAX_PAYLOAD_SIZE.
Proof.
  unfold validate_header. case_ifs; try done. intros _. split_guards.
  repeat match goal with
  | H : (_ =? _) = true |- _ => apply Z.eqb_eq in H
  | H : (_ <? _) = false |- _ => apply Z.ltb_ge in H
  end. done.
Qed.

Lemma encode_header_eq h :
  validate_header h = SI_RELAY_RESULT_OK ->
  si_relay_encode_header h = (SI_RELAY_RESULT_OK, Some (wire h)).
Proof. intros H. unfold si_relay_encode_header. by rewrite H. Qed.

Lemma encode_header_inv h r out :
  si_relay_encode_header h = (r, Some out) ->
  r = SI_RELAY_RESULT_OK /\ validate_header h = SI_RELAY_RESULT_OK /\ out = wire h.
Proof.
  unfold si_relay_encode_header. case_if; [done|]. split_guards. by intros [= <- <-].
Qed.

Lemma parse_wire h :
  header_ok h -> frame_type_known (hd_type h) = true -> parse_header (wire h) = h.
Proof.
  intros (Hv & Hf & Hs & Hq & Hp) Hk. destruct h as [v t f s q p]. cbn in *.
  unfold parse_header. f_equal.
  - apply frame_type_known_byte in Hk. exact Hk.
  - apply (write_read_u16 f); done.
  - apply (write_read_u32 s); done.
  - apply (write_read_u32 q); done.
  - apply (write_read_u32 p []); done.
Qed.

Ltac byte_list := repeat (apply Forall_cons_2; [done|]); apply Forall_nil_2.

Lemma wire_parse input :
  length input = SI_RELAY_HEADER_SIZE -> Forall is_byte input ->
  take 4 input = s_magic -> wire (parse_header input) = input /\ header_ok (parse_header input).
Proof.
  intros Hl Hb Hm. unfold SI_RELAY_HEADER_SIZE in Hl.
  destruct input as [|b0 [|b1 [|b2 [|b3 [|b4 [|b5 [|b6 [|b7 [|b8 [|b9 [|b10
    [|b11 [|b12 [|b13 [|b14 [|b15 [|b16 [|b17 [|b18 [|b19 []]]]]]]]]]]]]]]]]]]]]; try done.
  repeat (apply Forall_cons in Hb as [? Hb]). injection Hm as -> -> -> ->.
  destruct (read_write_u16 [b6; b7]) as [E1 W1]; [done | byte_list |].
  destruct (read_write_u32 [b8; b9; b10; b11]) as [E2 W2]; [done | byte_list |].
  destruct (read_write_u32 [b12; b13; b14; b15]) as [E3 W3]; [done | byte_list |].
  destruct (read_write_u32 [b16; b17; b18; b19]) as [E4 W4]; [done | byte_list |].
  split; [|done].
  transitivity (s_magic ++ [b4; u8 b5] ++ write_u16_be (read_u16_be [b6; b7]) ++
    write_u32_be (read_u32_be [b8; b9; b10; b11]) ++
    write_u32_be (read_u32_be [b12; b13; b14; b15]) ++
    write_u32_be (read_u32_be [b16; b17; b18; b19])); [reflexivity|].
  rewrite E1, E2, E3, E4, u8_small by done. reflexivity.
Qed.

Lemma decode_header_inv input r h :
  si_relay_decode_header input = (r, Some h) ->
  r = SI_RELAY_RESULT_OK /\ take 4 input = s_magic /\ h = parse_header input /\
  validate_header h = SI_RELAY_RESULT_OK.
Proof.
  unfold si_relay_decode_header. case_if; [done|]. split_guards. cbv zeta.
  case_if; [|done]. split_guards. by intros [= <- <-].
Qed.

Lemma decode_header_eq input :
  take 4 input = s_magic -> validate_header (parse_header input) = SI_RELAY_RESULT_OK ->
  si_relay_decode_header input = (SI_RELAY_RESULT_OK, Some (parse_header input)).
Proof.
  intros Hm Hv. unfold si_relay_decode_header.
  rewrite (bool_decide_eq_true_2 _ Hm). cbn [negb]. by rewrite Hv.
Qed.

Lemma decode_header_none input r :
  si_relay_decode_header input = (r, None) -> r <> SI_RELAY_RESULT_OK.
Proof.
  unfold si_relay_decode_header. case_if; [by intros [= <-]|]. cbv zeta.
  case_if; intros [= <-]. by split_guards.
Qed.

(** C14: the header codec is a bijection. Encoding succeeds exactly on the
    headers that [validate_header] accepts and decoding gives the header back;
    a 20-byte string that decodes is the encoding of the header it decodes to,
    whose fields fit their C types. *)
Theorem header_codec_bijective h input :
  header_ok h -> length input = SI_RELAY_HEADER_SIZE -> Forall is_byte input ->
  (forall out, si_relay_encode_header h = (SI_RELAY_RESULT_OK, Some out) ->
     length out = SI_RELAY_HEADER_SIZE /\
     si_relay_decode_header out = (SI_RELAY_RESULT_OK, Some h)) /\
  (forall h', si_relay_decode_header input = (SI_RELAY_RESULT_OK, Some h') ->
     header_ok h' /\
     si_relay_encode_header h' = (SI_RELAY_RESULT_OK, Some input)).
Proof.
  intros Hh Hl Hb. split.
  - intros out E. apply encode_header_inv in E as (_ & Hv & ->). split; [done|].
    pose proof (parse_wire h Hh (proj1 (validate_header_ok _ Hv))) as P.
    rewrite (decode_header_eq (wire h)), P; [done | done | by rewrite P].
  - intros h' E. apply decode_header_inv in E as (_ & Hm & -> & Hv).
    destruct (wire_parse input Hl Hb Hm) as [E Hok]. split; [done|].
    by rewrite encode_header_eq, E.
Qed.

Definition demo_open : si_relay_frame_header_t := mk_header 1 16 0 7 513 8.

Lemma header_codec_bijective_witness :
  si_relay_encode_header demo_open = (SI_RELAY_RESULT_OK, Some (wire demo_open)) /\
  si_relay_decode_header (wire demo_open) = (SI_RELAY_RESULT_OK, Some demo_open).
Proof.
  split; [by_eval|].
  apply (header_codec_bijective demo_open (wire demo_open));
    [by_decide | by_eval | by_decide | by_eval].
Defined.

(** ** The streaming decoder *)

Lemma take_app_exact {A} (l k : list A) n : n = length l -> take n (l ++ k) = l.
Proof. intros ->. apply take_app_length. Qed.

Lemma take_app_exact_add {A} (l k : list A) n : take (length l + n) (l ++ k) = l ++ take n k.
Proof. rewrite take_app_ge by lia. do 2 f_equal. lia. Qed.

Lemma drop_app_exact {A} (l k : list A) n m :
  n = (length l + m)%nat -> drop n (l ++ k) = drop m k.
Proof. intros ->. rewrite drop_app_ge by lia. f_equal. lia. Qed.

Lemma memcpy_memcpy mem off x y :
  (off + length x <= length mem)%nat ->
  memcpy (memcpy mem off x) (off + length x) y = memcpy mem off (x ++ y).
Proof.
  intros H. unfold memcpy.
  assert (Ht : length (take off mem) = off) by (rewrite length_take; lia).
  rewrite !(app_assoc (take off mem) x), take_app_exact by (rewrite length_app; lia).
  rewrite (drop_app_exact (take off mem ++ x) _ _ (length y)) by (rewrite length_app; lia).
  rewrite drop_drop, length_app, <- !app_assoc, Nat.add_assoc. done.
Qed.

Lemma memcpy_length mem off x :
  (off + length x <= length mem)%nat -> length (memcpy mem off x) = length mem.
Proof.
  intros H. unfold memcpy. rewrite !length_app, length_take, length_drop. lia.
Qed.

Lemma memcpy_nil mem off : memcpy mem off [] = mem.
Proof. unfold memcpy. rewrite Nat.add_0_r. apply take_drop. Qed.

Lemma memcpy_0 mem x : memcpy mem 0 x = x ++ drop (length x) mem.
Proof. reflexivity. Qed.

Definition payload_length (d : si_relay_decoder_t) : nat :=
  Z.to_nat (hd_payload_size (current d)).

(** What holds of a decoder between two calls. *)
Definition decoder_ok (d : si_relay_decoder_t) : Prop :=
  length (header_bytes d) = SI_RELAY_HEADER_SIZE /\
  if header_ready d
  then (payload_used d < payload_length d <= payload_capacity d)%nat
  else (header_used d < SI_RELAY_HEADER_SIZE)%nat /\ payload_used d = 0%nat.

#[export] Instance decoder_ok_dec d : Decision (decoder_ok d).
Proof. unfold decoder_ok. destruct (header_ready d); apply _. Defined.

Lemma decoder_init_ok : decoder_ok si_relay_decoder_init.
Proof. by_decide. Qed.

Definition more (o : consume_outcome) : bool :=
  bool_decide (co_result o = SI_RELAY_RESULT_NEED_MORE).

(** An outcome after [n] bytes consumed by earlier calls. *)
Definition shift (n : nat) (o : consume_outcome) : consume_outcome :=
  mk_outcome (co_result o) (co_decoder o) (co_storage o) (n + co_consumed o)
    (co_header o).

Lemma validate_header_not_more h : validate_header h <> SI_RELAY_RESULT_NEED_MORE.
Proof. unfold validate_header. by case_ifs. Qed.

Lemma validate_payload_not_more h p :
  si_relay_validate_payload h p <> SI_RELAY_RESULT_NEED_MORE.
Proof.
  unfold si_relay_validate_payload. cbv zeta.
  destruct (negb _); [apply validate_header_not_more|].
  destruct (_ && _); [done|]. destruct (enum_of_Z _) as [[]|]; by case_ifs.
Qed.

Lemma decode_header_not_more input :
  (si_relay_decode_header input).1 <> SI_RELAY_RESULT_NEED_MORE.
Proof.
  unfold si_relay_decode_header. case_if; [done|]. apply validate_header_not_more.
Qed.

Lemma finish_more d mem c :
  (payload_used d <= payload_length d)%nat ->
  more (finish_frame d mem c) = bool_decide (payload_used d < payload_length d)%nat.
Proof.
  unfold more, finish_frame, payload_length. intros Hu. cbv zeta.
  case_if; [|case_if]; cbn.
  - apply Z.ltb_lt in Heqb. rewrite !bool_decide_eq_true_2; first [done | lia].
  - apply Z.ltb_ge in Heqb.
    rewrite !bool_decide_eq_false_2; first [done | lia | apply validate_payload_not_more].
  - apply Z.ltb_ge in Heqb. rewrite !bool_decide_eq_false_2; first [done | lia].
Qed.

Lemma finish_wait d mem c :
  (payload_used d < payload_length d)%nat ->
  finish_frame d mem c = mk_outcome SI_RELAY_RESULT_NEED_MORE d mem c None.
Proof.
  unfold finish_frame, payload_length. intros Hu. case_if; [done|].
  apply Z.ltb_ge in Heqb. lia.
Qed.

Lemma finish_shift n d mem c : finish_frame d mem (n + c) = shift n (finish_frame d mem c).
Proof. unfold finish_frame. cbv zeta. by case_ifs. Qed.

Lemma receive_all d input k mem :
  (payload_used d + (length input - k) <= payload_length d)%nat -> (k <= length input)%nat ->
  receive_payload d input k mem =
  finish_frame (d <| payload_used := (payload_used d + (length input - k))%nat |>)
    (memcpy mem (payload_used d) (drop k input)) (length input).
Proof.
  unfold receive_payload, payload_length. intros Hu Hk. cbv zeta.
  rewrite (Nat.min_l (length input - k)) by lia.
  rewrite (take_ge (drop k input)) by (rewrite length_drop; lia).
  f_equal. lia.
Qed.

Lemma receive_full d input k mem :
  (payload_used d <= payload_length d)%nat ->
  (payload_length d <= payload_used d + (length input - k))%nat ->
  let missing := (payload_length d - payload_used d)%nat in
  receive_payload d input k mem =
  finish_frame (d <| payload_used := payload_length d |>)
    (memcpy mem (payload_used d) (take missing (drop k input))) (k + missing).
Proof.
  unfold receive_payload, payload_length. intros Hu Hk. cbv zeta.
  rewrite (Nat.min_r (length input - k)) by lia.
  by rewrite Nat.add_comm, Nat.sub_add by done.
Qed.

Lemma receive_app d a b k mem :
  (payload_used d <= payload_length d <= length mem)%nat -> (k <= length a)%nat ->
  let o := receive_payload d a k mem in
  receive_payload d (a ++ b) k mem =
    if more o
    then shift (length a) (receive_payload (co_decoder o) b 0 (co_storage o))
    else o.
Proof.
  intros Hu Hk. cbv zeta.
  destruct (decide (payload_used d + (length a - k) < payload_length d)%nat) as [Hm|Hm].
  - rewrite (receive_all d a) by lia. rewrite finish_wait by (unfold payload_length in *; cbn in *; lia).
    change (more _) with true. cbv iota. cbn [co_decoder co_storage].
    unfold receive_payload at 2. cbv zeta. rewrite <- finish_shift.
    cbn. unfold receive_payload. cbv zeta. unfold payload_length in *.
    rewrite length_app, drop_app_le by done.
    set (c := Nat.min _ _). set (c2 := Nat.min _ _).
    assert (Hc : c = (length a - k + c2)%nat) by lia.
    rewrite take_app, length_drop, (take_ge (drop k a)) by (rewrite length_drop; lia).
    replace (c - (length a - k))%nat with c2 by lia.
    rewrite <- memcpy_memcpy, length_drop by (rewrite length_drop; lia).
    replace (k + c)%nat with (length a + c2)%nat by lia.
    unfold set. cbn. do 2 f_equal. lia.
  - rewrite (receive_full d a) by lia. rewrite finish_more by (cbn; unfold payload_length; cbn; lia).
    rewrite bool_decide_eq_false_2 by (unfold payload_length; cbn; lia).
    rewrite receive_full by (rewrite ?length_app; lia). f_equal. f_equal.
    rewrite drop_app_le by done. rewrite take_app_le; [done|]. rewrite length_drop. lia.
Qed.

Lemma receive_shift d a b c mem :
  receive_payload d (a ++ b) (length a + c) mem =
  shift (length a) (receive_payload d b c mem).
Proof.
  unfold receive_payload. cbv zeta. rewrite <- finish_shift, length_app.
  rewrite (drop_app_exact a b _ c) by done.
  replace (length a + length b - (length a + c))%nat with (length b - c)%nat by lia.
  by rewrite Nat.add_assoc.
Qed.

(** What a call that asks for more leaves behind. *)
Definition more_ok (o : consume_outcome) (n : nat) (mem : list Z) : Prop :=
  more o = true ->
  decoder_ok (co_decoder o) /\ co_consumed o = n /\ length (co_storage o) = length mem.

Lemma receive_more_ok d input k mem :
  header_ready d = true -> length (header_bytes d) = SI_RELAY_HEADER_SIZE ->
  (payload_used d <= payload_length d <= payload_capacity d)%nat ->
  (payload_capacity d <= length mem)%nat -> (k <= length input)%nat ->
  more_ok (receive_payload d input k mem) (length input) mem.
Proof.
  intros Hr Hl Hu Hm Hk Ho.
  destruct (decide (payload_used d + (length input - k) < payload_length d)%nat) as [Hlt|Hge].
  - rewrite receive_all in * by lia.
    rewrite finish_wait in * by (unfold payload_length in *; cbn in *; lia).
    cbn. unfold decoder_ok. cbn. rewrite Hr. split_and!; try done.
    + unfold payload_length in *. cbn. lia.
    + apply memcpy_length. rewrite length_drop. lia.
  - rewrite receive_full, finish_more in Ho by (unfold payload_length in *; cbn; lia).
    apply bool_decide_eq_true in Ho. unfold payload_length in Ho. cbn in Ho. lia.
Qed.

Lemma receive_more_keeps d input k mem :
  (payload_used d <= payload_length d)%nat -> (k <= length input)%nat ->
  let o := receive_payload d input k mem in
  more o = true -> co_decoder o = d <| payload_used := payload_used (co_decoder o) |>.
Proof.
  intros Hu Hk o Ho. subst o. unfold receive_payload in *. cbv zeta in *.
  unfold finish_frame in *. cbv zeta in *. case_if; [done|].
  exfalso. case_if; [|done]. apply bool_decide_eq_true in Ho.
  by apply validate_payload_not_more in Ho.
Qed.

Lemma consume_ready d input storage mem capacity :
  header_ready d = true ->
  si_relay_decoder_consume d input storage mem capacity =
  if negb (bool_decide (payload_storage d = storage)) ||
     negb (payload_capacity d =? capacity)%nat
  then mk_outcome SI_RELAY_RESULT_INVALID_ARGUMENT si_relay_decoder_init mem 0 None
  else receive_payload d input 0 mem.
Proof. intros H. unfold si_relay_decoder_consume. by rewrite H. Qed.

Lemma accept_shift d a b c storage mem capacity :
  accept_header d (a ++ b) (length a + c) storage mem capacity =
  shift (length a) (accept_header d b c storage mem capacity).
Proof.
  unfold accept_header. destruct (si_relay_decode_header _) as [[] [h|]]; try done.
  case_if; [done|]. apply receive_shift.
Qed.

Lemma accept_app d a b c storage mem capacity :
  payload_used d = 0%nat -> length (header_bytes d) = SI_RELAY_HEADER_SIZE ->
  (capacity <= length mem)%nat -> (c <= length a)%nat ->
  let o := accept_header d a c storage mem capacity in
  more_ok o (length a) mem /\
  accept_header d (a ++ b) c storage mem capacity =
    if more o
    then shift (length a)
           (si_relay_decoder_consume (co_decoder o) b storage (co_storage o) capacity)
    else o.
Proof.
  intros Hu Hl Hcap Hc. cbv zeta. unfold accept_header.
  pose proof (decode_header_not_more (header_bytes d)) as Hnm.
  destruct (si_relay_decode_header (header_bytes d)) as [r [h|]].
  all: cbn in Hnm; destruct r; try done.
  case_if; [by destruct (Z.of_nat capacity <? hd_payload_size h)|]. split_guards.
  apply Z.ltb_ge in H. set (d' := set payload_capacity _ _).
  assert (Hd : (payload_used d' <= payload_length d' <= payload_capacity d')%nat).
  { unfold d', payload_length. cbn. rewrite Hu. lia. }
  assert (Hc' : payload_capacity d' = capacity) by done.
  pose proof (receive_more_ok d' a c mem eq_refl Hl Hd ltac:(lia) Hc) as Hok.
  split; [exact Hok|]. rewrite receive_app by lia.
  pose proof (receive_more_keeps d' a c mem ltac:(lia) Hc) as Hk. cbv zeta in Hk.
  assert (Hds : header_ready d' = true /\ payload_storage d' = storage) by done.
  clearbody d'. generalize dependent (receive_payload d' a c mem). intros o _ Hk.
  destruct (more o); [|done]. specialize (Hk eq_refl). destruct Hds as [Hr Hs].
  rewrite consume_ready by (rewrite Hk; exact Hr).
  rewrite bool_decide_eq_true_2 by (rewrite Hk; exact Hs).
  replace (payload_capacity (co_decoder o)) with capacity by (rewrite Hk; exact (eq_sym Hc')).
  by rewrite Nat.eqb_refl.
Qed.

(** The decoder after [bytes] more bytes of the header. *)
Definition header_step (d : si_relay_decoder_t) (bytes : list Z) : si_relay_decoder_t :=
  (d <| header_bytes := memcpy (header_bytes d) (header_used d) bytes |>)
    <| header_used := (header_used d + length bytes)%nat |>.

Lemma consume_partial d input storage mem capacity :
  header_ready d = false -> (header_used d + length input < SI_RELAY_HEADER_SIZE)%nat ->
  si_relay_decoder_consume d input storage mem capacity =
  mk_outcome SI_RELAY_RESULT_NEED_MORE (header_step d input) mem (length input) None.
Proof.
  intros Hr Hlt. unfold si_relay_decoder_consume. rewrite Hr. cbn [negb]. cbv zeta.
  rewrite Nat.min_l, (take_ge input) by lia.
  case_if; [done|]. apply Nat.ltb_ge in Heqb. cbn in Heqb. lia.
Qed.

Lemma consume_header d input storage mem capacity :
  header_ready d = false -> (header_used d < SI_RELAY_HEADER_SIZE)%nat ->
  (SI_RELAY_HEADER_SIZE <= header_used d + length input)%nat ->
  let missing := (SI_RELAY_HEADER_SIZE - header_used d)%nat in
  si_relay_decoder_consume d input storage mem capacity =
  accept_header (header_step d (take missing input)) input missing storage mem capacity.
Proof.
  intros Hr Hu Hge. cbv zeta. unfold si_relay_decoder_consume. rewrite Hr.
  cbn [negb]. cbv zeta. rewrite Nat.min_r by lia.
  case_if.
  { apply Nat.ltb_lt in Heqb.
    change (header_used d + (SI_RELAY_HEADER_SIZE - header_used d)
            < SI_RELAY_HEADER_SIZE)%nat in Heqb. lia. }
  unfold header_step. by rewrite length_take_le by lia.
Qed.

Lemma header_step_app d a b :
  (header_used d + length a <= length (header_bytes d))%nat ->
  header_step (header_step d a) b = header_step d (a ++ b).
Proof.
  intros H. unfold header_step. cbn. rewrite memcpy_memcpy by done.
  by rewrite length_app, Nat.add_assoc.
Qed.

Lemma consume_app d a b storage mem capacity :
  decoder_ok d -> (capacity <= length mem)%nat ->
  let o := si_relay_decoder_consume d a storage mem capacity in
  more_ok o (length a) mem /\
  si_relay_decoder_consume d (a ++ b) storage mem capacity =
    if more o
    then shift (length a)
           (si_relay_decoder_consume (co_decoder o) b storage (co_storage o) capacity)
    else o.
Proof.
  intros [Hl Hd] Hcap. cbv zeta. destruct (header_ready d) eqn:Hr.
  - rewrite !(consume_ready d) by done. case_if; [done|]. split_guards.
    apply Nat.eqb_eq in H0. split.
    + apply receive_more_ok; try done; lia.
    + rewrite receive_app by lia.
      pose proof (receive_more_keeps d a 0 mem ltac:(lia) ltac:(lia)) as Hk. cbv zeta in Hk.
      destruct (more _) eqn:Hm; [|done].
      destruct (receive_payload d a 0 mem) as [r d1 m1 c1 h1]. cbn in Hk |- *. specialize (Hk eq_refl).
      rewrite consume_ready by (by rewrite Hk). rewrite Hk. cbn.
      rewrite H, H0, bool_decide_eq_true_2, Nat.eqb_refl by done. done.
  - destruct Hd as [Hu0 Hp].
    destruct (decide (header_used d + length a < SI_RELAY_HEADER_SIZE)%nat) as [Hlt|Hge].
    + rewrite (consume_partial d a) by done. change (more _) with true.
      cbv iota. cbn [co_decoder co_storage]. split.
      { intros _. split_and!; [|done|done]. split.
        - cbn. rewrite memcpy_length; lia.
        - cbn. rewrite Hr. lia. }
      assert (Hr' : header_ready (header_step d a) = false) by done.
      assert (Hu' : header_used (header_step d a) = (header_used d + length a)%nat) by done.
      destruct (decide (header_used d + length (a ++ b) < SI_RELAY_HEADER_SIZE)%nat) as [Hlt2|Hge2];
        rewrite length_app in *.
      * rewrite !consume_partial; rewrite ?length_app; try done; try lia.
        rewrite header_step_app by lia. done.
      * rewrite !consume_header; rewrite ?length_app; try done; try lia.
        rewrite Hu', header_step_app by lia.
        set (c := (SI_RELAY_HEADER_SIZE - (header_used d + length a))%nat).
        replace (SI_RELAY_HEADER_SIZE - header_used d)%nat with (length a + c)%nat by lia.
        rewrite take_app_exact_add. apply accept_shift.
    + rewrite !(consume_header d); rewrite ?length_app; try done; try lia.
      rewrite take_app_le by lia. apply accept_app; try done; try lia.
      rewrite <- Hl. apply memcpy_length. rewrite length_take. lia.
Qed.

(** The network loop: one call per chunk received, until a call does not ask
    for more. *)
Fixpoint feed (d : si_relay_decoder_t) (storage : option nat) (mem : list Z)
    (capacity : nat) (chunks : list (list Z)) : consume_outcome :=
  match chunks with
  | [] => si_relay_decoder_consume d [] storage mem capacity
  | c :: cs =>
      let o := si_relay_decoder_consume d c storage mem capacity in
      if more o
      then shift (length c) (feed (co_decoder o) storage (co_storage o) capacity cs)
      else o
  end.

Lemma feed_concat chunks d storage mem capacity :
  decoder_ok d -> (capacity <= length mem)%nat ->
  feed d storage mem capacity chunks =
  si_relay_decoder_consume d (concat chunks) storage mem capacity.
Proof.
  revert d mem. induction chunks as [|c cs IH]; intros d mem Hd Hcap; cbn; [done|].
  destruct (consume_app d c (concat cs) storage mem capacity Hd Hcap) as [Hok ->].
  case_if; [|done]. destruct (Hok Heqb) as (Hd' & _ & Hl). rewrite IH; [done | done | lia].
Qed.

(** The decoder does not depend on how the network splits the bytes: feeding
    any list of chunks, from any reachable decoder state, gives the result, the
    header, the stored payload and the number of consumed bytes of feeding their
    concatenation at once. *)
Theorem decoder_chunking d storage mem capacity chunks :
  decoder_ok d -> (capacity <= length mem)%nat ->
  feed d storage mem capacity chunks =
  feed d storage mem capacity [concat chunks].
Proof.
  intros Hd Hcap. rewrite !feed_concat by done. cbn. by rewrite app_nil_r.
Qed.

Definition demo_frame : list Z := wire demo_open ++ [1; 0; 0; 0; 0; 1; 0; 0].

Lemma decoder_chunking_witness :
  feed si_relay_decoder_init (Some 64%nat) (replicate 16 0) 16
    [take 7 demo_frame; []; take 18 (drop 7 demo_frame); drop 25 demo_frame ++ [9; 9]] =
  feed si_relay_decoder_init (Some 64%nat) (replicate 16 0) 16
    [concat [take 7 demo_frame; []; take 18 (drop 7 demo_frame);
             drop 25 demo_frame ++ [9; 9]]].
Proof. apply decoder_chunking; [by_decide | cbn; lia]. Defined.

(** *** Which frames are delivered *)

Lemma byte_at_app p x i : (i < length p)%nat -> byte_at (p ++ x) i = byte_at p i.
Proof. intros H. by apply app_nth1. Qed.

Lemma nonzero_app p x n :
  (n <= length p)%nat -> bytes_have_nonzero (p ++ x) n = bytes_have_nonzero p n.
Proof. intros H. unfold bytes_have_nonzero. by rewrite take_app_le. Qed.

Lemma read_u32_app p x : (4 <= length p)%nat -> read_u32_be (p ++ x) = read_u32_be p.
Proof. intros H. unfold read_u32_be. by rewrite !byte_at_app by lia. Qed.

Lemma read_u16_app p x : (2 <= length p)%nat -> read_u16_be (p ++ x) = read_u16_be p.
Proof. intros H. unfold read_u16_be. by rewrite !byte_at_app by lia. Qed.

Lemma device_id_app p x n :
  (n <= length p)%nat -> device_id_valid (p ++ x) n = device_id_valid p n.
Proof. intros H. unfold device_id_valid. by rewrite take_app_le. Qed.

Ltac payload_app :=
  rewrite ?drop_app_le, ?read_u32_app, ?read_u16_app, ?nonzero_app, ?byte_at_app
    by (unfold SI_RELAY_NONCE_SIZE, SI_RELAY_SESSION_ID_SIZE; rewrite ?length_drop; lia).

Lemma hello_payload_app h p x :
  Z.of_nat (length p) = hd_payload_size h -> 38 <= hd_payload_size h ->
  hello_payload_ok h (p ++ x) = hello_payload_ok h p.
Proof.
  intros Hl Hs. unfold hello_payload_ok. cbv zeta. payload_app.
  destruct (Z.eqb_spec (byte_at p 36) (hd_payload_size h - 37)) as [E|]; cbn [negb].
  - rewrite device_id_app; [done|]. rewrite length_drop, E. lia.
  - by rewrite !orb_true_r.
Qed.

(** Validation reads the [payload_size] bytes of the payload only. *)
Lemma validate_payload_app h p x :
  Z.of_nat (length p) = hd_payload_size h ->
  si_relay_validate_payload h (Some (p ++ x)) = si_relay_validate_payload h (Some p).
Proof.
  intros Hl. unfold si_relay_validate_payload. cbv zeta. case_if; [done|]. split_guards.
  apply validate_header_ok in Heqb as (_ & Hs & _ & _). cbn [default].
  rewrite !(bool_decide_eq_true_2 (is_Some _)) by eauto. case_if; [done|].
  unfold payload_size_valid in Hs. cbv zeta in Hs.
  destruct (enum_of_Z (hd_type h)) as [t|]; [|done].
  destruct t; try done; split_guards;
    repeat match goal with
    | H : (_ =? _) = true |- _ => apply Z.eqb_eq in H
    | H : (_ <=? _) = true |- _ => apply Z.leb_le in H
    end; unfold SI_RELAY_NONCE_SIZE, SI_RELAY_READY_PAYLOAD_SIZE in *;
    unfold id, from_option.
  - by rewrite hello_payload_app by lia.
  - payload_app. done.
  - unfold ready_payload_ok. cbv zeta. payload_app. done.
  - unfold open_payload_ok. cbv zeta. payload_app. done.
  - payload_app. done.
  - payload_app. done.
Qed.

Lemma validate_payload_empty h p q :
  hd_payload_size h = 0 ->
  si_relay_validate_payload h p = si_relay_validate_payload h q.
Proof.
  intros Hz. unfold si_relay_validate_payload. cbv zeta. case_if; [done|]. split_guards.
  apply validate_header_ok in Heqb as (_ & Hs & _ & _). rewrite Hz. cbn [Z.ltb Z.compare andb].
  unfold payload_size_valid in Hs. rewrite Hz in Hs. by destruct (enum_of_Z _) as [[]|].
Qed.

(** The decoder once the header [h] of a frame is in. *)
Definition awaiting (h : si_relay_frame_header_t) (storage : option nat) (capacity : nat)
  : si_relay_decoder_t :=
  mk_decoder (wire h) SI_RELAY_HEADER_SIZE h 0 storage capacity true.

Lemma consume_init input storage mem capacity :
  (SI_RELAY_HEADER_SIZE <= length input)%nat ->
  si_relay_decoder_consume si_relay_decoder_init input storage mem capacity =
  accept_header
    (mk_decoder (take SI_RELAY_HEADER_SIZE input) SI_RELAY_HEADER_SIZE zero_header 0
       None 0 false)
    input SI_RELAY_HEADER_SIZE storage mem capacity.
Proof.
  intros H. rewrite consume_header by (done || (cbn; unfold SI_RELAY_HEADER_SIZE in *; lia)). unfold header_step.
  change (SI_RELAY_HEADER_SIZE - header_used si_relay_decoder_init)%nat with SI_RELAY_HEADER_SIZE.
  unfold memcpy. rewrite !length_take_le by done.
  change (drop _ _) with (@nil Z). by rewrite app_nil_r.
Qed.

Lemma finish_frame_ready h storage capacity mem payload c :
  length payload = Z.to_nat (hd_payload_size h) ->
  0 <= hd_payload_size h -> (0 < hd_payload_size h -> is_Some storage) ->
  finish_frame ((awaiting h storage capacity) <| payload_used := length payload |>)
    (memcpy mem 0 payload) c =
  let r := si_relay_validate_payload h (Some payload) in
  mk_outcome (if decide (r = SI_RELAY_RESULT_OK) then SI_RELAY_RESULT_FRAME_READY else r)
    si_relay_decoder_init (memcpy mem 0 payload) c
    (if decide (r = SI_RELAY_RESULT_OK) then Some h else None).
Proof.
  intros Hl Hp Hs. unfold finish_frame. cbn. cbv zeta.
  rewrite Hl, Z2Nat.id, Z.ltb_irrefl by lia.
  assert (E : si_relay_validate_payload h
                match storage with Some _ => Some (memcpy mem 0 payload) | None => None end
              = si_relay_validate_payload h (Some payload)).
  { destruct (decide (0 < hd_payload_size h)) as [Hlt|Hge].
    - destruct (Hs Hlt) as [a ->]. rewrite memcpy_0.
      apply validate_payload_app. lia.
    - apply validate_payload_empty. lia. }
  rewrite E. destruct (decide _) as [Hr|Hr].
  - by rewrite bool_decide_eq_true_2.
  - by rewrite bool_decide_eq_false_2.
Qed.

(** Every valid frame is delivered: from a fresh decoder, whatever chunks
    its bytes arrive in and whatever follows them, the frame is reported with
    its header, exactly its payload is written to the storage, exactly its
    bytes are consumed, and the decoder is ready for the next frame. *)
Theorem valid_frame_delivered h payload rest chunks addr mem capacity :
  header_ok h -> si_relay_validate_payload h (Some payload) = SI_RELAY_RESULT_OK ->
  Z.of_nat (length payload) = hd_payload_size h ->
  (length payload <= capacity)%nat -> (capacity <= length mem)%nat ->
  concat chunks = wire h ++ payload ++ rest ->
  feed si_relay_decoder_init (Some addr) mem capacity chunks =
  mk_outcome SI_RELAY_RESULT_FRAME_READY si_relay_decoder_init
    (payload ++ drop (length payload) mem)
    (SI_RELAY_HEADER_SIZE + length payload) (Some h).
Proof.
  intros Hh Hv Hl Hc Hm E.
  assert (Hvh : validate_header h = SI_RELAY_RESULT_OK).
  { unfold si_relay_validate_payload in Hv. cbv zeta in Hv. case_if_in Hv; [done|].
    by split_guards. }
  rewrite feed_concat, E by (done || apply decoder_init_ok).
  rewrite consume_init by (rewrite length_app, wire_length; lia).
  rewrite take_app_exact by done. unfold accept_header.
  cbn [header_bytes].
  pose proof (parse_wire h Hh (proj1 (validate_header_ok _ Hvh))) as P.
  rewrite decode_header_eq, P by (done || by rewrite P).
  rewrite (bool_decide_eq_true_2 (is_Some _)) by eauto. rewrite andb_false_r, orb_false_r.
  case_if; [apply Z.ltb_lt in Heqb; lia|].
  change (set payload_capacity _ _) with (awaiting h (Some addr) capacity).
  rewrite receive_full; unfold payload_length; cbn [current awaiting payload_used];
    rewrite ?length_app; cbn [length]; try lia.
  2: { rewrite wire_length. lia. }
  rewrite (drop_app_exact (wire h) _ _ 0) by done. rewrite drop_0.
  rewrite Nat.sub_0_r, take_app_exact by lia.
  rewrite <- Hl, Nat2Z.id, finish_frame_ready by (lia || eauto). rewrite Hv. done.
Qed.

Lemma valid_frame_delivered_witness :
  feed si_relay_decoder_init (Some 64%nat) (replicate 16 0) 16
    [take 7 demo_frame; drop 7 demo_frame ++ [9; 9]] =
  mk_outcome SI_RELAY_RESULT_FRAME_READY si_relay_decoder_init
    ([1; 0; 0; 0; 0; 1; 0; 0] ++ drop 8 (replicate 16 0)) 28 (Some demo_open).
Proof.
  apply (valid_frame_delivered demo_open [1; 0; 0; 0; 0; 1; 0; 0] [9; 9]);
    [by_decide | by_eval | by_eval | cbn; lia | cbn; lia | by_eval].
Defined.

Lemma validate_payload_ready h p :
  si_relay_validate_payload h p <> SI_RELAY_RESULT_FRAME_READY.
Proof.
  unfold si_relay_validate_payload. cbv zeta. destruct (negb _).
  - unfold validate_header. by case_ifs.
  - destruct (_ && _); [done|]. destruct (enum_of_Z _) as [[]|]; by case_ifs.
Qed.

Lemma decode_header_not_ready input :
  (si_relay_decode_header input).1 <> SI_RELAY_RESULT_FRAME_READY.
Proof.
  unfold si_relay_decode_header. case_if; [done|]. cbn. unfold validate_header. by case_ifs.
Qed.

(** Nothing else is delivered: when a fresh decoder reports a frame, the
    bytes received start with the encoding of the reported header and a payload
    that [si_relay_validate_payload] accepts, of the announced size and within
    the storage; exactly those bytes are consumed, the storage beyond the
    payload is untouched and the decoder starts over. *)
Theorem delivered_frame_valid chunks storage mem capacity :
  Forall is_byte (concat chunks) -> (capacity <= length mem)%nat ->
  let o := feed si_relay_decoder_init storage mem capacity chunks in
  co_result o = SI_RELAY_RESULT_FRAME_READY ->
  exists h payload rest,
    co_header o = Some h /\ header_ok h /\
    concat chunks = wire h ++ payload ++ rest /\
    Z.of_nat (length payload) = hd_payload_size h /\ (length payload <= capacity)%nat /\
    si_relay_validate_payload h (Some payload) = SI_RELAY_RESULT_OK /\
    co_consumed o = (SI_RELAY_HEADER_SIZE + length payload)%nat /\
    co_storage o = payload ++ drop (length payload) mem /\
    co_decoder o = si_relay_decoder_init.
Proof.
  intros Hb Hm. rewrite feed_concat by (done || apply decoder_init_ok).
  set (input := concat chunks) in *. cbv zeta.
  destruct (decide (length input < SI_RELAY_HEADER_SIZE)%nat) as [Hlt|Hge].
  { by rewrite consume_partial by done. }
  rewrite consume_init by lia. unfold accept_header. cbn [header_bytes].
  set (head := take SI_RELAY_HEADER_SIZE input).
  assert (Hhl : length head = SI_RELAY_HEADER_SIZE) by (apply length_take_le; lia).
  assert (Hhb : Forall is_byte head) by (by apply Forall_take).
  destruct (si_relay_decode_header head) as [r [h|]] eqn:Hd.
  2: { pose proof (decode_header_not_ready head) as Hnr. rewrite Hd in Hnr. by destruct r. }
  apply decode_header_inv in Hd as (-> & Hmg & -> & Hvh).
  destruct (wire_parse head Hhl Hhb Hmg) as [Hw Hok]. set (h := parse_header head) in *.
  case_if; [by case_if|]. apply orb_false_elim in Heqb as [Hcap Hs].
  apply Z.ltb_ge in Hcap.
  replace (set payload_capacity _ _) with (awaiting h storage capacity)
    by (unfold awaiting; by rewrite Hw).
  assert (Hp0 : 0 <= hd_payload_size h) by apply Hok.
  destruct (decide (payload_used (awaiting h storage capacity) +
                    (length input - SI_RELAY_HEADER_SIZE)
                    < payload_length (awaiting h storage capacity))%nat) as [Hlt|Hfull].
  { rewrite receive_all by lia. rewrite finish_wait; [done|]. exact Hlt. }
  rewrite receive_full; [| apply Nat.le_0_l | lia].
  change (payload_length (awaiting h storage capacity)) with (Z.to_nat (hd_payload_size h)) in *.
  change (payload_used (awaiting h storage capacity)) with 0%nat in *.
  rewrite Nat.sub_0_r. set (payload := take _ (drop _ input)).
  assert (Hpl : length payload = Z.to_nat (hd_payload_size h))
    by (apply length_take_le; rewrite length_drop; lia).
  rewrite <- Hpl, finish_frame_ready; [|done|done|].
  2: { intros Hlt. apply Z.ltb_lt in Hlt. rewrite Hlt in Hs. cbn in Hs. by split_guards. }
  cbv zeta. cbn [co_result]. pose proof (validate_payload_ready h (Some payload)) as Hnr.
  destruct (decide _) as [Hv|]; [|done]. intros _.
  exists h, payload, (drop (length payload) (drop SI_RELAY_HEADER_SIZE input)).
  rewrite Hw. split_and!; try done; try lia.
  rewrite Hpl. unfold payload, head. by rewrite !take_drop.
Qed.

Lemma delivered_frame_valid_witness :
  let chunks := [take 7 demo_frame; drop 7 demo_frame ++ [9; 9]] in
  exists h payload rest,
    concat chunks = wire h ++ payload ++ rest /\
    si_relay_validate_payload h (Some payload) = SI_RELAY_RESULT_OK.
Proof.
  destruct (delivered_frame_valid [take 7 demo_frame; drop 7 demo_frame ++ [9; 9]]
              (Some 64%nat) (replicate 16 0) 16)
    as (h & payload & rest & _ & _ & E & _ & _ & Hv & _);
    [by_decide | cbn; lia | by_eval |].
  exists h, payload, rest. split; [exact E | exact Hv].
Defined.

(** ** The authentication input *)

Lemma build_auth_input_inv hello n challenge capacity out :
  si_relay_build_auth_input (Some hello) n (Some challenge) capacity =
    (SI_RELAY_RESULT_OK, Some out) ->
  (38 <= n <= 100)%nat /\
  si_relay_validate_payload
    (mk_header SI_RELAY_PROTOCOL_VERSION (enum_val SI_RELAY_FRAME_HELLO) 0 0 0 (Z.of_nat n))
    (Some hello) = SI_RELAY_RESULT_OK /\
  (SI_RELAY_AUTH_CONTEXT_SIZE + 1 + n + SI_RELAY_NONCE_SIZE <= capacity)%nat /\
  out = SI_RELAY_AUTH_CONTEXT ++ [0] ++ take n hello ++ take SI_RELAY_NONCE_SIZE challenge.
Proof.
  unfold si_relay_build_auth_input. case_if; [done|]. cbv zeta. case_if; [done|].
  case_if; [done|]. intros [= <-].
  apply orb_false_elim in Heqb as [H1 H2]. apply Nat.ltb_ge in H1, H2, Heqb1.
  change (37 + SI_RELAY_MAX_DEVICE_ID_SIZE)%nat with 100%nat in H2.
  apply orb_false_elim in Heqb0 as [H3 _]. split_guards.
  rewrite u32_small in H3 by (unfold is_u32; lia). done.
Qed.

(** The authentication input is canonical: two successful calls that
    produce the same bytes were given the same HELLO payload and the same
    challenge, so the tag over them authenticates both; and the bytes fit the
    announced maximum. *)
Theorem auth_input_injective hello1 n1 ch1 cap1 hello2 n2 ch2 cap2 out :
  length hello1 = n1 -> length hello2 = n2 ->
  length ch1 = SI_RELAY_NONCE_SIZE -> length ch2 = SI_RELAY_NONCE_SIZE ->
  si_relay_build_auth_input (Some hello1) n1 (Some ch1) cap1 =
    (SI_RELAY_RESULT_OK, Some out) ->
  si_relay_build_auth_input (Some hello2) n2 (Some ch2) cap2 =
    (SI_RELAY_RESULT_OK, Some out) ->
  hello1 = hello2 /\ ch1 = ch2 /\
  (length out <= Nat.min cap1 cap2)%nat /\
  (length out <= SI_RELAY_AUTH_CONTEXT_SIZE + 1 + 37 + SI_RELAY_MAX_DEVICE_ID_SIZE
                 + SI_RELAY_NONCE_SIZE)%nat.
Proof.
  intros Hn1 Hn2 Hc1 Hc2 E1 E2.
  apply build_auth_input_inv in E1 as (Hb1 & _ & Hcap1 & ->).
  apply build_auth_input_inv in E2 as (Hb2 & _ & Hcap2 & E2).
  rewrite !take_ge in E2 by lia. rewrite !take_ge by lia.
  apply app_inj_1 in E2 as [_ E2]; [|done]. apply app_inj_1 in E2 as [_ E2]; [|done].
  apply app_inj_2 in E2 as [-> ->]; [|lia]. split_and!; try done.
  - rewrite !length_app, Hc2. cbn [length]. unfold SI_RELAY_AUTH_CONTEXT_SIZE in *. lia.
  - rewrite !length_app, Hc2. cbn [length]. unfold SI_RELAY_AUTH_CONTEXT_SIZE in *.
    unfold SI_RELAY_MAX_DEVICE_ID_SIZE. lia.
Qed.

Definition demo_hello : list Z :=
  [0; 0; 0; 1] ++ replicate 32 7 ++ [4] ++ cstr "dev1".

Lemma auth_input_injective_witness :
  exists out,
    si_relay_build_auth_input (Some demo_hello) 41 (Some (replicate 32 9)) 145 =
      (SI_RELAY_RESULT_OK, Some out) /\ (length out <= 145)%nat.
Proof.
  eexists. split; [by_eval|].
  assert (H := auth_input_injective demo_hello 41 (replicate 32 9) 145
                 demo_hello 41 (replicate 32 9) 145).
  specialize (H _ eq_refl eq_refl eq_refl eq_refl
                ltac:(by_eval) ltac:(by_eval)).
  apply H.
Defined.
