(* ===== verification/HidOwner.v ===== *)
(** * HID report ownership: [core/hid_owner.c] and [core/hid_abort_fence.c]

    The ownership token of the HID reports, its release capability (the
    generation), the embedded agent's touch decision, and the lock-free fence
    that lets a running HID command observe a revocation.

    A claim comes from outside and its [kind] is a raw integer.  The pointers
    that the code tests are options. *)

From S2P Require Import Prelude.

Definition SI_HID_OWNER_SESSION_ID_MAX_LEN : nat := 20.

Inductive si_hid_owner_kind_t :=
| SI_HID_OWNER_NONE | SI_HID_OWNER_CONTROL_LEASE | SI_HID_OWNER_KVM_STREAM.

#[export] Instance hid_owner_kind_eq_dec : EqDecision si_hid_owner_kind_t.
Proof. solve_decision. Defined.

#[export] Instance hid_owner_kind_enum : CEnum si_hid_owner_kind_t.
Proof.
  enum_of [SI_HID_OWNER_NONE; SI_HID_OWNER_CONTROL_LEASE; SI_HID_OWNER_KVM_STREAM].
Defined.

Record si_hid_owner_claim_t := mk_claim {
  kind : Z;
  session_id : cstring;
  auth_generation : Z;
  resource_id : Z;
  authority_epoch : Z
}.

Record si_hid_owner_token_t := mk_token {
  claim : si_hid_owner_claim_t;
  generation : Z
}.

Record si_hid_owner_state_t := mk_owner_state {
  current : si_hid_owner_token_t;
  report_owner : si_hid_owner_token_t;
  next_generation_counter : Z;
  dirty_reports : Z;
  neutral_pending : bool
}.

#[export] Instance eta_hid_owner_state : Settable si_hid_owner_state_t := fun s =>
  mk_owner_state (current s) (report_owner s) (next_generation_counter s)
    (dirty_reports s) (neutral_pending s).

Definition zero_claim : si_hid_owner_claim_t := mk_claim 0 [] 0 0 0.
Definition zero_token : si_hid_owner_token_t := mk_token zero_claim 0.

Definition SI_HID_OWNER_STATE_INITIALIZER : si_hid_owner_state_t :=
  mk_owner_state zero_token zero_token 0 0 false.

Definition SI_HID_REPORT_DIRTY_KEYBOARD : Z := Z.shiftl 1 0.
Definition SI_HID_REPORT_DIRTY_MOUSE : Z := Z.shiftl 1 1.
Definition SI_HID_REPORT_DIRTY_ABS_POINTER : Z := Z.shiftl 1 2.

Inductive si_hid_embedded_touch_decision_t :=
| SI_HID_EMBEDDED_TOUCH_DENY | SI_HID_EMBEDDED_TOUCH_NEW | SI_HID_EMBEDDED_TOUCH_RENEW.

(** ** The ownership state *)

Definition next_generation (state : si_hid_owner_state_t) : si_hid_owner_state_t :=
  state <| next_generation_counter := bump (next_generation_counter state) |>.

Definition si_hid_owner_claim_valid (claim : option si_hid_owner_claim_t) : bool :=
  match claim with
  | None => false
  | Some c =>
      return_if (kind c <=? enum_val SI_HID_OWNER_NONE) ||
                (enum_val SI_HID_OWNER_KVM_STREAM <? kind c) ||
                is_empty (session_id c) || (authority_epoch c =? 0)
        with false ;;
      negb (kind c =? enum_val SI_HID_OWNER_KVM_STREAM) || negb (resource_id c =? 0)
  end.

Definition si_hid_owner_claim_equal (left right : si_hid_owner_claim_t) : bool :=
  (kind left =? kind right) &&
  (auth_generation left =? auth_generation right) &&
  (resource_id left =? resource_id right) &&
  (authority_epoch left =? authority_epoch right) &&
  streq (session_id left) (session_id right).

Definition si_hid_owner_token_equal (left right : option si_hid_owner_token_t) : bool :=
  match left, right with
  | Some l, Some r =>
      negb (generation l =? 0) && (generation l =? generation r) &&
      si_hid_owner_claim_equal (claim l) (claim r)
  | _, _ => false
  end.

Definition si_hid_owner_state_is_current (state : si_hid_owner_state_t)
    (token : option si_hid_owner_token_t) : bool :=
  si_hid_owner_token_equal (Some (current state)) token.

(** The last component is the token stored through [token]. *)
Definition si_hid_owner_state_install (state : si_hid_owner_state_t)
    (claim' : option si_hid_owner_claim_t) (replace : bool)
  : bool * si_hid_owner_state_t * option si_hid_owner_token_t :=
  match claim' with
  | Some c =>
      return_if negb (si_hid_owner_claim_valid claim') with (false, state, None) ;;
      return_if negb replace && negb (generation (current state) =? 0) &&
                si_hid_owner_claim_equal (claim (current state)) c
        with (true, state, Some (current state)) ;;
      let state := next_generation state in
      let state := state <| current := mk_token c (next_generation_counter state) |> in
      (true, state, Some (current state))
  | None => (false, state, None)
  end.

Definition si_hid_owner_state_begin_report (state : si_hid_owner_state_t)
    (token : option si_hid_owner_token_t) : bool * si_hid_owner_state_t :=
  return_if negb (si_hid_owner_state_is_current state token) || neutral_pending state
    with (false, state) ;;
  (true, state <| report_owner := default zero_token token |>).

Definition si_hid_owner_state_revoke_current (state : si_hid_owner_state_t)
    (expected : option si_hid_owner_token_t)
  : bool * si_hid_owner_state_t * option si_hid_owner_token_t :=
  return_if (bool_decide (is_Some expected) &&
             negb (si_hid_owner_state_is_current state expected)) ||
            (generation (current state) =? 0)
    with (false, state, None) ;;
  (true, next_generation (state <| current := zero_token |>), Some (current state)).

Definition si_hid_owner_state_revoke_session (state : si_hid_owner_state_t)
    (session : option cstring) (auth_gen : Z)
  : bool * si_hid_owner_state_t * option si_hid_owner_token_t :=
  match session with
  | None => (false, state, None)
  | Some sid =>
      return_if is_empty sid || (generation (current state) =? 0) ||
                negb (streq (session_id (claim (current state))) sid) ||
                (negb (auth_gen =? 0) &&
                 negb (auth_generation (claim (current state)) =? auth_gen))
        with (false, state, None) ;;
      si_hid_owner_state_revoke_current state (Some (current state))
  end.

Definition si_hid_owner_state_clear_report (state : si_hid_owner_state_t)
    (expected : option si_hid_owner_token_t) : si_hid_owner_state_t :=
  return_if negb (bool_decide (is_Some expected)) ||
            negb (si_hid_owner_token_equal (Some (report_owner state)) expected)
    with state ;;
  state <| report_owner := zero_token |>.

Definition si_hid_owner_state_note_report (state : si_hid_owner_state_t)
    (report_mask : Z) (neutral : bool) : si_hid_owner_state_t :=
  return_if (report_mask =? 0) || (generation (report_owner state) =? 0) with state ;;
  if neutral
  then state <| dirty_reports := Z.land (dirty_reports state) (u8 (Z.lnot report_mask)) |>
  else state <| dirty_reports := Z.lor (dirty_reports state) report_mask |>.

Definition si_hid_owner_state_host_reset (state : si_hid_owner_state_t)
  : si_hid_owner_state_t :=
  ((state <| report_owner := zero_token |>)
          <| dirty_reports := 0 |>)
          <| neutral_pending := false |>.

(** ** The embedded agent *)

Definition embedded_token_matches_domain (token : option si_hid_owner_token_t)
    (lease_resource_id lease_epoch : Z) : bool :=
  match token with
  | None => false
  | Some t =>
      negb (generation t =? 0) &&
      (kind (claim t) =? enum_val SI_HID_OWNER_CONTROL_LEASE) &&
      (auth_generation (claim t) =? 0) &&
      streq (session_id (claim t)) (cstr "embedded-agent") &&
      (resource_id (claim t) =? lease_resource_id) &&
      (authority_epoch (claim t) =? lease_epoch)
  end.

Definition si_hid_embedded_touch_decide (lease_active : bool)
    (current' expected : option si_hid_owner_token_t) (lease_resource_id lease_epoch : Z)
  : si_hid_embedded_touch_decision_t :=
  return_if lease_active
    with (if embedded_token_matches_domain expected lease_resource_id lease_epoch &&
             si_hid_owner_token_equal current' expected
          then SI_HID_EMBEDDED_TOUCH_RENEW else SI_HID_EMBEDDED_TOUCH_DENY) ;;
  return_if ptr_test (fun e => negb (generation e =? 0)) expected &&
            negb (si_hid_owner_token_equal current' expected)
    with SI_HID_EMBEDDED_TOUCH_DENY ;;
  SI_HID_EMBEDDED_TOUCH_NEW.

Definition si_hid_embedded_release_matches (lease_active : bool)
    (expected : option si_hid_owner_token_t) (lease_resource_id lease_epoch : Z) : bool :=
  lease_active && embedded_token_matches_domain expected lease_resource_id lease_epoch.

(** ** The calls of the HID manager

    [neutral_pending] is set and cleared by the HID driver while it waits for
    the neutral reports to go out. *)

Inductive hid_op :=
| HidInstall (c : option si_hid_owner_claim_t) (replace : bool)
| HidBegin (t : option si_hid_owner_token_t)
| HidRevoke (t : option si_hid_owner_token_t)
| HidRevokeSession (sid : option cstring) (auth_gen : Z)
| HidClear (t : option si_hid_owner_token_t)
| HidNote (mask : Z) (neutral : bool)
| HidHostReset
| HidNeutral (pending : bool).

Definition hid_exec (s : si_hid_owner_state_t) (o : hid_op) : si_hid_owner_state_t :=
  match o with
  | HidInstall c replace => (si_hid_owner_state_install s c replace).1.2
  | HidBegin t => (si_hid_owner_state_begin_report s t).2
  | HidRevoke t => (si_hid_owner_state_revoke_current s t).1.2
  | HidRevokeSession sid g => (si_hid_owner_state_revoke_session s sid g).1.2
  | HidClear t => si_hid_owner_state_clear_report s t
  | HidNote mask neutral => si_hid_owner_state_note_report s mask neutral
  | HidHostReset => si_hid_owner_state_host_reset s
  | HidNeutral pending => s <| neutral_pending := pending |>
  end.

Definition hid_run (s : si_hid_owner_state_t) (os : list hid_op) : si_hid_owner_state_t :=
  fold_left hid_exec os s.

(** ** The abort fence

    [si_hid_abort_fence_advance] is a compare-and-swap loop: a caller loads the
    generation, then swaps in its successor if nobody got there first, and
    retries with the value it observed otherwise. *)

Record si_hid_abort_fence_t := mk_fence { fence_generation : Z }.

Definition SI_HID_ABORT_FENCE_INITIALIZER : si_hid_abort_fence_t := mk_fence 1.

Definition si_hid_abort_fence_snapshot (fence : option si_hid_abort_fence_t) : Z :=
  match fence with None => 0 | Some f => fence_generation f end.

Definition si_hid_abort_fence_is_current (fence : option si_hid_abort_fence_t)
    (expected_generation : Z) : bool :=
  negb (expected_generation =? 0) &&
  (si_hid_abort_fence_snapshot fence =? expected_generation).

(** The local state of one call of [advance]. *)
Inductive advance_pc :=
| AdvanceLoad
| AdvanceSwap (previous : Z)
| AdvanceDone (next : Z).

(** One atomic access of the call [i]. *)
Inductive si_hid_abort_fence_advance_step :
  si_hid_abort_fence_t * list advance_pc -> si_hid_abort_fence_t * list advance_pc -> Prop :=
| advance_load f calls i :
    calls !! i = Some AdvanceLoad ->
    si_hid_abort_fence_advance_step (f, calls)
      (f, <[i := AdvanceSwap (fence_generation f)]> calls)
| advance_swap f calls i previous :
    calls !! i = Some (AdvanceSwap previous) -> fence_generation f = previous ->
    si_hid_abort_fence_advance_step (f, calls)
      (mk_fence (bump previous), <[i := AdvanceDone (bump previous)]> calls)
| advance_retry f calls i previous :
    calls !! i = Some (AdvanceSwap previous) -> fence_generation f <> previous ->
    si_hid_abort_fence_advance_step (f, calls)
      (f, <[i := AdvanceSwap (fence_generation f)]> calls).
