(* ===== verification/HidOwnerProps.v ===== *)
(** * HID report ownership: properties

    A revoked token stays dead, only the current token reports, and concurrent
    advances of the abort fence are linearizable and terminate. *)

From S2P Require Import Prelude HidOwner.

Lemma owner_token_equal_gen l r :
  si_hid_owner_token_equal (Some l) (Some r) = true ->
  generation l = generation r /\ generation l <> 0.
Proof.
  cbn. intros H. split_guards.
  apply Z.eqb_eq in H1. apply Z.eqb_neq in H. done.
Qed.

Lemma owner_claim_equal_eq l r : si_hid_owner_claim_equal l r = true <-> l = r.
Proof.
  unfold si_hid_owner_claim_equal. rewrite !andb_true_iff, !Z.eqb_eq, streq_true.
  destruct l, r; cbn. split; [|by intros [= -> -> -> -> ->]].
  by intros [[[[-> ->] ->] ->] ->].
Qed.

Lemma owner_token_equal_eq l r :
  si_hid_owner_token_equal (Some l) (Some r) = true <-> l = r /\ generation l <> 0.
Proof.
  cbn. rewrite !andb_true_iff, owner_claim_equal_eq, Z.eqb_eq, negb_true_iff, Z.eqb_neq.
  destruct l, r; cbn. split; [by intros [[? ->] ->] | by intros [[= -> ->] ?]].
Qed.

(** ** The generation counter *)

Definition owner_ok (s : si_hid_owner_state_t) : Prop :=
  is_u32 (next_generation_counter s) /\
  (generation (current s) <> 0 -> generation (current s) = next_generation_counter s).

(** A call leaves the owner alone, or takes the next generation. *)
Definition bumped (n : nat) (s s' : si_hid_owner_state_t) : Prop :=
  next_generation_counter s' = Nat.iter n bump (next_generation_counter s) /\
  (n = 0%nat -> current s' = current s).

Lemma bumped_0 s s' :
  next_generation_counter s' = next_generation_counter s -> current s' = current s ->
  owner_ok s -> owner_ok s' /\ exists n, (n <= 1)%nat /\ bumped n s s'.
Proof.
  intros Hn Hc [H1 H2]. split; [split; rewrite ?Hn, ?Hc; done|].
  exists 0%nat. split; [lia|]. done.
Qed.

Lemma bumped_1 s c r d p :
  (generation c <> 0 -> generation c = bump (next_generation_counter s)) ->
  let s' := mk_owner_state c r (bump (next_generation_counter s)) d p in
  owner_ok s' /\ exists n, (n <= 1)%nat /\ bumped n s s'.
Proof.
  intros Hc. cbv zeta. split.
  - split; [|done]. cbn. pose proof (bump_range (next_generation_counter s)).
    unfold is_u32. lia.
  - exists 1%nat. split; [lia|]. split; [done | intros [=]].
Qed.

Lemma revoke_bumped s t :
  owner_ok s ->
  let s' := (si_hid_owner_state_revoke_current s t).1.2 in
  owner_ok s' /\ exists n, (n <= 1)%nat /\ bumped n s s'.
Proof.
  intros Hs. unfold si_hid_owner_state_revoke_current. cbv zeta.
  destruct (_ || _); [by apply bumped_0|]. by apply (bumped_1 s).
Qed.

Lemma hid_exec_bumped s o :
  owner_ok s ->
  owner_ok (hid_exec s o) /\ exists n, (n <= 1)%nat /\ bumped n s (hid_exec s o).
Proof.
  intros Hs. destruct o as [c replace|t|t|sid g|t|mask neutral| |p]; cbn [hid_exec].
  - unfold si_hid_owner_state_install. destruct c as [c|]; [|by apply bumped_0].
    case_if; [by apply bumped_0|]. case_if; [by apply bumped_0|]. by apply (bumped_1 s).
  - unfold si_hid_owner_state_begin_report. case_if; by apply bumped_0.
  - by apply revoke_bumped.
  - unfold si_hid_owner_state_revoke_session. destruct sid as [sid|]; [|by apply bumped_0].
    case_if; [by apply bumped_0|]. by apply revoke_bumped.
  - unfold si_hid_owner_state_clear_report. case_if; by apply bumped_0.
  - unfold si_hid_owner_state_note_report. case_if; [by apply bumped_0|].
    case_if; by apply bumped_0.
  - by apply bumped_0.
  - by apply bumped_0.
Qed.

Lemma hid_run_bumped os s :
  owner_ok s ->
  owner_ok (hid_run s os) /\
  exists n, (n <= length os)%nat /\ bumped n s (hid_run s os).
Proof.
  unfold hid_run. revert s. induction os as [|o os IH]; intros s Hs; cbn.
  { split; [done|]. exists 0%nat. done. }
  destruct (hid_exec_bumped s o Hs) as (Hs1 & n1 & Hn1 & Hb1 & Hc1).
  destruct (IH _ Hs1) as (Hs2 & n2 & Hn2 & Hb2 & Hc2).
  split; [done|]. exists (n2 + n1)%nat. split; [lia|]. split.
  - by rewrite Hb2, Hb1, Nat.iter_add.
  - intros H0. rewrite Hc2, Hc1 by lia. done.
Qed.

Lemma initial_owner_ok : owner_ok SI_HID_OWNER_STATE_INITIALIZER.
Proof. split; [by_decide | done]. Qed.

Lemma is_current_gen s t :
  owner_ok s -> si_hid_owner_state_is_current s (Some t) = true ->
  generation t = next_generation_counter s /\ 1 <= generation t < 2 ^ 32.
Proof.
  intros [Hu Hc] H. apply owner_token_equal_eq in H as [<- Hne].
  unfold is_u32 in Hu. rewrite (Hc Hne) in *. lia.
Qed.

(** C15: the generation is the release capability. Once a call has ended the
    ownership of a current token, no sequence of fewer than [2^32 - 2] further
    calls makes that token current again, starts a report under it, revokes
    anything with it, or lets it renew or mint an embedded-agent claim. *)
Theorem revoked_token_stays_dead before t o after :
  let s := hid_run SI_HID_OWNER_STATE_INITIALIZER before in
  si_hid_owner_state_is_current s (Some t) = true ->
  si_hid_owner_state_is_current (hid_exec s o) (Some t) = false ->
  Z.of_nat (length after) < 2 ^ 32 - 2 ->
  let s' := hid_run (hid_exec s o) after in
  si_hid_owner_state_is_current s' (Some t) = false /\
  si_hid_owner_state_begin_report s' (Some t) = (false, s') /\
  si_hid_owner_state_revoke_current s' (Some t) = (false, s', None) /\
  forall lease_active rid epoch,
    si_hid_embedded_touch_decide lease_active (Some (current s')) (Some t) rid epoch
    = SI_HID_EMBEDDED_TOUCH_DENY.
Proof.
  intros s Hc Hnc Hlen s'.
  destruct (hid_run_bumped before _ initial_owner_ok) as [Hs _]. fold s in Hs.
  destruct (is_current_gen s t Hs Hc) as [Hg Hr].
  destruct (hid_run_bumped (o :: after) s Hs) as (Hs' & n & Hn & Hb & Hcur).
  change (hid_run s (o :: after)) with s' in *.
  destruct (hid_exec_bumped s o Hs) as (Hs1 & n1 & Hn1 & Hb1 & Hcur1).
  destruct (hid_run_bumped after (hid_exec s o) Hs1) as (_ & n2 & Hn2 & Hb2 & _).
  assert (Hdead : si_hid_owner_state_is_current s' (Some t) = false).
  { apply not_true_iff_false. intros Hc'.
    destruct (is_current_gen s' t Hs' Hc') as [Hg' _].
    destruct n1 as [|[|]]; [| |lia].
    { unfold si_hid_owner_state_is_current in Hc, Hnc. rewrite Hcur1 in Hnc by done. congruence. }
    unfold s' in Hg'. rewrite Hb2, Hb1, <- Nat.iter_add, <- Hg in Hg'.
    symmetry in Hg'. apply bump_iter_fresh in Hg'; cbn in *; lia. }
  split_and!; [done | | |].
  - unfold si_hid_owner_state_begin_report. by rewrite Hdead.
  - unfold si_hid_owner_state_revoke_current. by rewrite Hdead.
  - intros la rid ep. unfold si_hid_embedded_touch_decide.
    unfold si_hid_owner_state_is_current in Hdead. rewrite Hdead, andb_false_r.
    cbn [ptr_test]. rewrite (proj2 (Z.eqb_neq _ _)) by lia. by destruct la.
Qed.

Definition demo_hid_claim : si_hid_owner_claim_t :=
  mk_claim 1 (cstr "embedded-agent") 0 3 5.

Definition demo_hid_token : si_hid_owner_token_t := mk_token demo_hid_claim 1.

Lemma revoked_token_stays_dead_witness :
  let s' := hid_run (hid_exec (hid_run SI_HID_OWNER_STATE_INITIALIZER
                                 [HidInstall (Some demo_hid_claim) false])
                       (HidInstall (Some demo_hid_claim) true))
              [HidBegin (Some demo_hid_token); HidRevoke None;
               HidInstall (Some demo_hid_claim) false] in
  si_hid_owner_state_is_current s' (Some demo_hid_token) = false.
Proof.
  apply (revoked_token_stays_dead [HidInstall (Some demo_hid_claim) false] demo_hid_token
           (HidInstall (Some demo_hid_claim) true)
           [HidBegin (Some demo_hid_token); HidRevoke None;
            HidInstall (Some demo_hid_claim) false]); by_eval.
Defined.

(** ** Who reports *)

Lemma note_report_bit s mask neutral i :
  0 <= i < 8 -> generation (report_owner s) <> 0 ->
  Z.testbit (dirty_reports (si_hid_owner_state_note_report s mask neutral)) i =
  if Z.testbit mask i then negb neutral else Z.testbit (dirty_reports s) i.
Proof.
  intros Hi Ho. unfold si_hid_owner_state_note_report.
  rewrite (proj2 (Z.eqb_neq _ _) Ho), orb_false_r.
  destruct (Z.eqb_spec mask 0) as [->|_]; [by rewrite Z.bits_0|].
  destruct neutral; cbn.
  - rewrite Z.land_spec. unfold u8. rewrite Z.mod_pow2_bits_low, Z.lnot_spec by lia.
    destruct (Z.testbit mask i); [apply andb_false_r | apply andb_true_r].
  - rewrite Z.lor_spec. destruct (Z.testbit mask i); [apply orb_true_r | apply orb_false_r].
Qed.

(** Only the exact current token starts reports. Whatever call is made,
    the report owner stays, is cleared, or becomes the current token of a
    [begin_report] made while no neutral report is pending; and the dirty bits
    move only with a report owner present, each following the last report or
    neutral report that covers it, or are cleared by a host reset. *)
Theorem report_owner_discipline s o :
  let s' := hid_exec s o in
  (report_owner s' = report_owner s \/ report_owner s' = zero_token \/
   (o = HidBegin (Some (current s)) /\ report_owner s' = current s /\
    generation (current s) <> 0 /\ neutral_pending s = false)) /\
  match o with
  | HidNote mask neutral =>
      if generation (report_owner s) =? 0 then dirty_reports s' = dirty_reports s
      else forall i, 0 <= i < 8 ->
             Z.testbit (dirty_reports s') i =
             if Z.testbit mask i then negb neutral else Z.testbit (dirty_reports s) i
  | HidHostReset => dirty_reports s' = 0
  | _ => dirty_reports s' = dirty_reports s
  end.
Proof.
  destruct o as [c replace|t|t|sid g|t|mask neutral| |p]; cbn [hid_exec].
  - unfold si_hid_owner_state_install. destruct c as [c|]; [|by split; [left|]].
    case_if; [by split; [left|]|]. case_if; by split; [left|].
  - unfold si_hid_owner_state_begin_report. case_if; [by split; [left|]|].
    split; [|done]. right; right. split_guards.
    destruct t as [t|]; [|done]. apply owner_token_equal_eq in H as [<- Hne]. done.
  - unfold si_hid_owner_state_revoke_current. case_if; by split; [left|].
  - unfold si_hid_owner_state_revoke_session, si_hid_owner_state_revoke_current.
    destruct sid as [sid|]; [|by split; [left|]]. case_if; [by split; [left|]|].
    case_if; by split; [left|].
  - unfold si_hid_owner_state_clear_report. case_if; [by split; [left|]|].
    by split; [right; left|].
  - split.
    + left. unfold si_hid_owner_state_note_report. case_if; [done|]. by destruct neutral.
    + destruct (Z.eqb_spec (generation (report_owner s)) 0) as [E|E].
      * unfold si_hid_owner_state_note_report. by rewrite E, orb_true_r.
      * intros i Hi. by apply note_report_bit.
  - by split; [right; left|].
  - by split; [left|].
Qed.

(** ** The abort fence *)

Abbreviation fence_step := si_hid_abort_fence_advance_step (only parsing).

Definition is_done (pc : advance_pc) : bool :=
  match pc with AdvanceDone _ => true | _ => false end.

Definition done_count (calls : list advance_pc) : nat :=
  sum_list_with (fun pc => if is_done pc then 1%nat else 0%nat) calls.

Lemma sum_list_with_insert {A} (f : A -> nat) (l : list A) i x y :
  l !! i = Some x ->
  (sum_list_with f (<[i:=y]> l) + f x = sum_list_with f l + f y)%nat.
Proof.
  revert i. induction l as [|a l IH]; intros i H; [done|].
  destruct i as [|i]; cbn in H.
  - injection H as ->. cbn. lia.
  - specialize (IH i H).
    change (<[S i:=y]> (a :: l)) with (a :: <[i:=y]> l). cbn [sum_list_with]. lia.
Qed.

Lemma done_count_le calls : (done_count calls <= length calls)%nat.
Proof.
  unfold done_count. induction calls as [|pc calls IH]; cbn; [lia|]. destruct (is_done pc); lia.
Qed.

(** What an interleaving of calls keeps: the fence has moved once per finished
    call, and the finished calls hold distinct positions of that walk. *)
Definition fence_inv (g0 : Z) (st : si_hid_abort_fence_t * list advance_pc) : Prop :=
  let '(f, calls) := st in
  fence_generation f = Nat.iter (done_count calls) bump g0 /\
  exists order : list nat,
    NoDup order /\ length order = done_count calls /\
    forall k i, order !! k = Some i ->
      calls !! i = Some (AdvanceDone (Nat.iter (S k) bump g0)).

Lemma done_count_insert calls i pc pc' :
  calls !! i = Some pc -> is_done pc = false ->
  done_count (<[i:=pc']> calls) =
  (done_count calls + if is_done pc' then 1 else 0)%nat.
Proof.
  intros H Hd. unfold done_count.
  pose proof (sum_list_with_insert (fun pc => if is_done pc then 1%nat else 0%nat)
                calls i pc pc' H) as E. cbn in E. rewrite Hd in E. lia.
Qed.

Lemma iter_bump_S n g : Nat.iter (S n) bump g = bump (Nat.iter n bump g).
Proof. reflexivity. Qed.

Lemma order_kept g0 (order : list nat) (calls : list advance_pc) i pc pc' :
  calls !! i = Some pc -> is_done pc = false ->
  (forall k j, order !! k = Some j ->
     calls !! j = Some (AdvanceDone (Nat.iter (S k) bump g0))) ->
  forall k j, order !! k = Some j ->
    <[i:=pc']> calls !! j = Some (AdvanceDone (Nat.iter (S k) bump g0)).
Proof.
  intros Hi Hd Ho k j Hk. specialize (Ho k j Hk).
  rewrite list_lookup_insert_ne; [done|]. intros ->. rewrite Hi in Ho.
  injection Ho as ->. done.
Qed.

Lemma fence_step_inv g0 st st' : fence_inv g0 st -> fence_step st st' -> fence_inv g0 st'.
Proof.
  intros Hinv Hstep.
  destruct Hstep as [f calls i Hi | f calls i p Hi Hp | f calls i p Hi Hp];
    destruct Hinv as [Hf (order & Hnd & Hlen & Hord)];
    unfold fence_inv; erewrite done_count_insert by done; cbn [is_done fence_generation].
  - rewrite Nat.add_0_r. split; [done|]. exists order. eauto using order_kept.
  - rewrite Nat.add_1_r. split; [by rewrite iter_bump_S, <- Hf, Hp|].
    exists (order ++ [i]). split_and!.
    + apply NoDup_app. split_and!; [done | | apply NoDup_singleton].
      intros j Hj Hi'. apply list_elem_of_singleton in Hi' as ->.
      apply list_elem_of_lookup_1 in Hj as [k Hk]. rewrite (Hord k i Hk) in Hi. done.
    + rewrite length_app, Hlen. cbn. lia.
    + intros k j Hk. apply lookup_app_Some in Hk as [Hk|[Hge Hk]].
      * by apply (order_kept g0 order calls i _ _ Hi eq_refl Hord).
      * apply list_lookup_singleton_Some in Hk as [Hk <-].
        assert (k = length order) as -> by lia. rewrite list_lookup_insert_eq.
        -- by rewrite iter_bump_S, Hlen, <- Hf, Hp.
        -- by eapply lookup_lt_Some.
  - rewrite Nat.add_0_r. split; [done|]. exists order. eauto using order_kept.
Qed.

(** The steps that remain, at most. *)
Definition pc_weight (n : nat) (g : Z) (pc : advance_pc) : nat :=
  match pc with
  | AdvanceLoad => n + 2
  | AdvanceSwap p => n + 1 + (if (p =? g)%Z then 0 else 1)
  | AdvanceDone _ => 0
  end%nat.

Definition fence_weight (n : nat) (st : si_hid_abort_fence_t * list advance_pc) : nat :=
  sum_list_with (pc_weight n (fence_generation st.1)) st.2.

Lemma fence_weight_change n g g' calls :
  (sum_list_with (pc_weight n g') calls <= sum_list_with (pc_weight n g) calls + length calls)%nat.
Proof.
  induction calls as [|pc calls IH]; cbn; [lia|].
  assert (pc_weight n g' pc <= pc_weight n g pc + 1)%nat; [|lia].
  destruct pc; cbn; case_ifs; lia.
Qed.

Lemma fence_step_weight st st' :
  fence_step st st' ->
  (fence_weight (length st.2) st' < fence_weight (length st.2) st)%nat /\
  length st'.2 = length st.2.
Proof.
  intros [f calls i Hi | f calls i p Hi Hp | f calls i p Hi Hp]; unfold fence_weight; cbn [fst snd];
    (split; [|by rewrite length_insert]).
  - pose proof (sum_list_with_insert (pc_weight (length calls) (fence_generation f)) calls i _
                  (AdvanceSwap (fence_generation f)) Hi) as E.
    cbn in E. rewrite Z.eqb_refl in E. lia.
  - pose proof (sum_list_with_insert (pc_weight (length calls) (fence_generation f)) calls i _
                  (AdvanceDone (bump p)) Hi) as E.
    pose proof (fence_weight_change (length calls) (fence_generation f) (bump p)
                  (<[i:=AdvanceDone (bump p)]> calls)) as C.
    cbn in E, C |- *. rewrite (proj2 (Z.eqb_eq _ _)) in E by done. rewrite length_insert in C. lia.
  - pose proof (sum_list_with_insert (pc_weight (length calls) (fence_generation f)) calls i _
                  (AdvanceSwap (fence_generation f)) Hi) as E.
    cbn in E. rewrite Z.eqb_refl in E. rewrite (proj2 (Z.eqb_neq p _)) in E by done. lia.
Qed.

(** The calls that have started but not finished always have a next access. *)
Lemma fence_progress st :
  (forall st', ~ fence_step st st') -> done_count st.2 = length st.2.
Proof.
  destruct st as [f calls]. cbn. intros H.
  assert (Hall : Forall (fun pc => is_done pc = true) calls).
  { apply Forall_lookup_2. intros i pc Hi. destruct pc as [|p|n]; [| |done].
    - exfalso. eapply H. by apply (advance_load f calls i).
    - exfalso. destruct (decide (fence_generation f = p)) as [E|E]; eapply H;
        [by eapply advance_swap | by eapply advance_retry]. }
  clear H. unfold done_count. induction Hall as [|pc calls Hpc _ IH]; cbn; [done|].
  rewrite Hpc, IH. done.
Qed.

Lemma fence_runs g0 n st st' :
  length st.2 = n -> fence_inv g0 st -> rtc fence_step st st' ->
  fence_inv g0 st' /\ length st'.2 = n.
Proof.
  intros Hl Hi Hr. revert Hl Hi. induction Hr as [|st1 st2 st3 Hs _ IH]; [done|].
  intros Hl Hi. destruct (fence_step_weight _ _ Hs) as [_ Hl'].
  apply IH; [congruence | by eapply fence_step_inv].
Qed.

Lemma fence_bounded st st' k :
  nsteps fence_step k st st' -> (k <= fence_weight (length st.2) st)%nat.
Proof.
  intros H. induction H as [|k st1 st2 st3 Hs _ IH]; [lia|].
  destruct (fence_step_weight _ _ Hs) as [Hw Hl]. rewrite Hl in IH. lia.
Qed.

Definition fence_start (g : Z) (n : nat) : si_hid_abort_fence_t * list advance_pc :=
  (mk_fence g, replicate n AdvanceLoad).

Lemma fence_start_inv g n : fence_inv g (fence_start g n).
Proof.
  assert (E : done_count (replicate n AdvanceLoad) = 0%nat)
    by (unfold done_count; induction n as [|n IH]; [done | exact IH]).
  unfold fence_start, fence_inv. rewrite E. split; [done|]. exists []. split_and!; [constructor|done|done].
Qed.

Lemma fence_start_weight g n : fence_weight n (fence_start g n) = (n * (n + 2))%nat.
Proof.
  unfold fence_weight, fence_start. cbn [fst snd].
  assert (E : forall m, sum_list_with (pc_weight n (fence_generation (mk_fence g)))
                (replicate m AdvanceLoad) = (m * (n + 2))%nat); [|apply E].
  intros m. induction m as [|m IH]; [done|]. cbn [replicate sum_list_with pc_weight]. lia.
Qed.

(** C16: the abort fence under contention. Any interleaving of [n] concurrent
    [advance] calls, from any live generation, takes at most [n * (n + 2)]
    atomic accesses and cannot stop before every call has returned; the fence
    then stands exactly [n] generations further, the calls have returned the
    [n] generations in between, one each; and a generation observed before is
    not current any more (for fewer than [2^32 - 1] calls). *)
Theorem fence_advances_linearizable g n st k :
  1 <= g < 2 ^ 32 -> (0 < n)%nat -> Z.of_nat n < 2 ^ 32 - 1 ->
  nsteps si_hid_abort_fence_advance_step k (fence_start g n) st ->
  (k <= n * (n + 2))%nat /\
  ((forall st', ~ si_hid_abort_fence_advance_step st st') ->
   fence_generation st.1 = Nat.iter n bump g /\
   (exists order, NoDup order /\ length order = n /\
      forall j i, order !! j = Some i ->
        st.2 !! i = Some (AdvanceDone (Nat.iter (S j) bump g))) /\
   si_hid_abort_fence_is_current (Some st.1) g = false).
Proof.
  intros Hg Hn Hlt Hk. split.
  { apply fence_bounded in Hk. unfold fence_start at 1 in Hk. cbn [snd] in Hk.
    by rewrite length_replicate, fence_start_weight in Hk. }
  intros Hstop. destruct (fence_runs g n (fence_start g n) st) as [Hi Hl].
  { cbn. apply length_replicate. }
  { apply fence_start_inv. }
  { apply rtc_nsteps. by exists k. }
  pose proof (fence_progress _ Hstop) as Hd. rewrite Hl in Hd.
  destruct st as [f calls]. cbn [fst snd] in *. destruct Hi as (Hf & order & Ho).
  rewrite Hd in Hf, Ho. split_and!; [done | by exists order |].
  unfold si_hid_abort_fence_is_current. cbn.
  rewrite (proj2 (Z.eqb_neq _ g)); [apply andb_false_r|].
  rewrite Hf. by apply bump_iter_fresh.
Qed.

Lemma fence_advances_linearizable_witness :
  exists st, nsteps si_hid_abort_fence_advance_step 5 (fence_start 7 2) st /\
             fence_generation st.1 = 9.
Proof.
  set (st := (mk_fence 9, [AdvanceDone 8; AdvanceDone 9])).
  assert (Hrun : nsteps si_hid_abort_fence_advance_step 5 (fence_start 7 2) st).
  { eapply nsteps_l; [by apply (advance_load _ _ 0)|].
    eapply nsteps_l; [by apply (advance_load _ _ 1)|].
    eapply nsteps_l; [by apply (advance_swap _ _ 0 7)|].
    eapply nsteps_l; [by apply (advance_retry _ _ 1 7)|].
    eapply nsteps_l; [by apply (advance_swap _ _ 1 8)|].
    constructor. }
  exists st. split; [exact Hrun|].
  assert (Hstop : forall st', ~ si_hid_abort_fence_advance_step st st').
  { intros st' Hs. inversion Hs as [f c i Hi | f c i p Hi | f c i p Hi];
      destruct i as [|[|]]; discriminate. }
  destruct (fence_advances_linearizable 7 2 st 5) as [_ H]; [lia | lia | lia | exact Hrun |].
  destruct (H Hstop) as [E _]. exact E.
Defined.
