(* ===== verification/Authorization.v ===== *)
(** * Authorization: [core/authorization.c] and [core/agent_execution_guard.c]

    The transport-independent authorization decision and the guard evaluated
    immediately before an agent's external side effect.  Both are pure
    functions of a snapshot; their enumeration fields come from outside and are
    raw integers. *)

From S2P Require Import Prelude.

Inductive si_capability_t :=
| SI_CAPABILITY_NONE | SI_CAPABILITY_OBSERVE | SI_CAPABILITY_SSH | SI_CAPABILITY_UART
| SI_CAPABILITY_HID | SI_CAPABILITY_POWER | SI_CAPABILITY_SETTINGS | SI_CAPABILITY_OTA
| SI_CAPABILITY_AGENT_RUN | SI_CAPABILITY_CONTROL_LEASE | SI_CAPABILITY_STORAGE
| SI_CAPABILITY_VIDEO_CONTROL.

Inductive si_principal_kind_t :=
| SI_PRINCIPAL_ANONYMOUS | SI_PRINCIPAL_BROWSER | SI_PRINCIPAL_MCP | SI_PRINCIPAL_AGENT
| SI_PRINCIPAL_SYSTEM.

Inductive si_authorization_mode_t :=
| SI_AUTHZ_MODE_OBSERVE | SI_AUTHZ_MODE_SUPERVISED | SI_AUTHZ_MODE_AUTONOMOUS.

Inductive si_authorization_risk_t :=
| SI_AUTHZ_RISK_LOW | SI_AUTHZ_RISK_MEDIUM | SI_AUTHZ_RISK_HIGH | SI_AUTHZ_RISK_CRITICAL.

Inductive si_authorization_decision_t :=
| SI_AUTHZ_ALLOW | SI_AUTHZ_DENY_INVALID_REQUEST | SI_AUTHZ_DENY_UNAUTHENTICATED
| SI_AUTHZ_DENY_CAPABILITY | SI_AUTHZ_DENY_POLICY | SI_AUTHZ_DENY_KVM_PREEMPTED
| SI_AUTHZ_DENY_LEASE | SI_AUTHZ_DENY_OBSERVE_ONLY | SI_AUTHZ_DENY_APPROVAL_REQUIRED.

#[export] Instance capability_eq_dec : EqDecision si_capability_t.
Proof. solve_decision. Defined.
#[export] Instance principal_kind_eq_dec : EqDecision si_principal_kind_t.
Proof. solve_decision. Defined.
#[export] Instance authz_mode_eq_dec : EqDecision si_authorization_mode_t.
Proof. solve_decision. Defined.
#[export] Instance authz_risk_eq_dec : EqDecision si_authorization_risk_t.
Proof. solve_decision. Defined.
#[export] Instance authz_decision_eq_dec : EqDecision si_authorization_decision_t.
Proof. solve_decision. Defined.

Definition capability_value (c : si_capability_t) : Z :=
  match c with
  | SI_CAPABILITY_NONE => 0
  | SI_CAPABILITY_OBSERVE => Z.shiftl 1 0
  | SI_CAPABILITY_SSH => Z.shiftl 1 1
  | SI_CAPABILITY_UART => Z.shiftl 1 2
  | SI_CAPABILITY_HID => Z.shiftl 1 3
  | SI_CAPABILITY_POWER => Z.shiftl 1 4
  | SI_CAPABILITY_SETTINGS => Z.shiftl 1 5
  | SI_CAPABILITY_OTA => Z.shiftl 1 6
  | SI_CAPABILITY_AGENT_RUN => Z.shiftl 1 7
  | SI_CAPABILITY_CONTROL_LEASE => Z.shiftl 1 8
  | SI_CAPABILITY_STORAGE => Z.shiftl 1 9
  | SI_CAPABILITY_VIDEO_CONTROL => Z.shiftl 1 10
  end.

#[export] Instance capability_enum : CEnum si_capability_t.
Proof.
  enum_at capability_value
    [SI_CAPABILITY_NONE; SI_CAPABILITY_OBSERVE; SI_CAPABILITY_SSH; SI_CAPABILITY_UART;
     SI_CAPABILITY_HID; SI_CAPABILITY_POWER; SI_CAPABILITY_SETTINGS; SI_CAPABILITY_OTA;
     SI_CAPABILITY_AGENT_RUN; SI_CAPABILITY_CONTROL_LEASE; SI_CAPABILITY_STORAGE;
     SI_CAPABILITY_VIDEO_CONTROL].
Defined.

#[export] Instance principal_kind_enum : CEnum si_principal_kind_t.
Proof.
  enum_of [SI_PRINCIPAL_ANONYMOUS; SI_PRINCIPAL_BROWSER; SI_PRINCIPAL_MCP;
           SI_PRINCIPAL_AGENT; SI_PRINCIPAL_SYSTEM].
Defined.

#[export] Instance authz_mode_enum : CEnum si_authorization_mode_t.
Proof.
  enum_of [SI_AUTHZ_MODE_OBSERVE; SI_AUTHZ_MODE_SUPERVISED; SI_AUTHZ_MODE_AUTONOMOUS].
Defined.

#[export] Instance authz_risk_enum : CEnum si_authorization_risk_t.
Proof.
  enum_of [SI_AUTHZ_RISK_LOW; SI_AUTHZ_RISK_MEDIUM; SI_AUTHZ_RISK_HIGH;
           SI_AUTHZ_RISK_CRITICAL].
Defined.

#[export] Instance authz_decision_enum : CEnum si_authorization_decision_t.
Proof.
  enum_of [SI_AUTHZ_ALLOW; SI_AUTHZ_DENY_INVALID_REQUEST; SI_AUTHZ_DENY_UNAUTHENTICATED;
           SI_AUTHZ_DENY_CAPABILITY; SI_AUTHZ_DENY_POLICY; SI_AUTHZ_DENY_KVM_PREEMPTED;
           SI_AUTHZ_DENY_LEASE; SI_AUTHZ_DENY_OBSERVE_ONLY;
           SI_AUTHZ_DENY_APPROVAL_REQUIRED].
Defined.

Definition capability_union (cs : list si_capability_t) : Z :=
  fold_left Z.lor (map capability_value cs) 0.

Definition SI_CAPABILITIES_WEB_DEFAULT : Z :=
  capability_union
    [SI_CAPABILITY_OBSERVE; SI_CAPABILITY_SSH; SI_CAPABILITY_UART; SI_CAPABILITY_HID;
     SI_CAPABILITY_POWER; SI_CAPABILITY_SETTINGS; SI_CAPABILITY_OTA;
     SI_CAPABILITY_AGENT_RUN; SI_CAPABILITY_CONTROL_LEASE; SI_CAPABILITY_STORAGE;
     SI_CAPABILITY_VIDEO_CONTROL].

Definition SI_CAPABILITIES_MCP_DEFAULT : Z :=
  capability_union
    [SI_CAPABILITY_OBSERVE; SI_CAPABILITY_SSH; SI_CAPABILITY_UART; SI_CAPABILITY_HID;
     SI_CAPABILITY_CONTROL_LEASE; SI_CAPABILITY_VIDEO_CONTROL].

Record si_authorization_request_t := mk_request {
  rq_authenticated : bool;
  rq_principal : Z;
  rq_capabilities : Z;
  rq_required_capability : Z;
  rq_policy_allowed : bool;
  rq_lease_required : bool;
  rq_lease_held : bool;
  rq_human_kvm_active : bool;
  rq_mode : Z;
  rq_risk : Z;
  rq_approval_required : bool;
  rq_approved : bool
}.

#[export] Instance eta_request : Settable si_authorization_request_t := fun r =>
  mk_request (rq_authenticated r) (rq_principal r) (rq_capabilities r)
    (rq_required_capability r) (rq_policy_allowed r) (rq_lease_required r)
    (rq_lease_held r) (rq_human_kvm_active r) (rq_mode r) (rq_risk r)
    (rq_approval_required r) (rq_approved r).

(** ** The decision *)

Definition principal_valid (principal : Z) : bool :=
  (enum_val SI_PRINCIPAL_ANONYMOUS <=? principal) &&
  (principal <=? enum_val SI_PRINCIPAL_SYSTEM).

Definition mode_valid (mode : Z) : bool :=
  (enum_val SI_AUTHZ_MODE_OBSERVE <=? mode) &&
  (mode <=? enum_val SI_AUTHZ_MODE_AUTONOMOUS).

Definition risk_valid (risk : Z) : bool :=
  (enum_val SI_AUTHZ_RISK_LOW <=? risk) && (risk <=? enum_val SI_AUTHZ_RISK_CRITICAL).

Definition capability_valid (capability : Z) : bool :=
  return_if capability =? enum_val SI_CAPABILITY_NONE with false ;;
  let value := u32 capability in
  (Z.land value (u32 (value - 1)) =? 0) &&
  (value <=? enum_val SI_CAPABILITY_VIDEO_CONTROL).

Definition si_capability_set_has (set capability : Z) : bool :=
  capability_valid capability && negb (Z.land set (u32 capability) =? 0).

Definition si_authorization_evaluate (request : option si_authorization_request_t)
  : si_authorization_decision_t :=
  match request with
  | None => SI_AUTHZ_DENY_INVALID_REQUEST
  | Some request =>
      return_if negb (principal_valid (rq_principal request)) ||
                negb (capability_valid (rq_required_capability request)) ||
                negb (mode_valid (rq_mode request)) || negb (risk_valid (rq_risk request))
        with SI_AUTHZ_DENY_INVALID_REQUEST ;;
      return_if negb (rq_authenticated request) ||
                (rq_principal request =? enum_val SI_PRINCIPAL_ANONYMOUS)
        with SI_AUTHZ_DENY_UNAUTHENTICATED ;;
      return_if negb (si_capability_set_has (rq_capabilities request)
                        (rq_required_capability request))
        with SI_AUTHZ_DENY_CAPABILITY ;;
      return_if negb (rq_policy_allowed request) with SI_AUTHZ_DENY_POLICY ;;
      return_if rq_lease_required request && rq_human_kvm_active request
        with SI_AUTHZ_DENY_KVM_PREEMPTED ;;
      return_if rq_lease_required request && negb (rq_lease_held request)
        with SI_AUTHZ_DENY_LEASE ;;
      return_if (rq_mode request =? enum_val SI_AUTHZ_MODE_OBSERVE) &&
                negb (rq_risk request =? enum_val SI_AUTHZ_RISK_LOW)
        with SI_AUTHZ_DENY_OBSERVE_ONLY ;;
      return_if rq_approval_required request && negb (rq_approved request)
        with SI_AUTHZ_DENY_APPROVAL_REQUIRED ;;
      SI_AUTHZ_ALLOW
  end.

Definition si_capability_name (capability : Z) : cstring :=
  match enum_of_Z capability with
  | Some SI_CAPABILITY_OBSERVE => cstr "observe"
  | Some SI_CAPABILITY_SSH => cstr "ssh"
  | Some SI_CAPABILITY_UART => cstr "uart"
  | Some SI_CAPABILITY_HID => cstr "hid"
  | Some SI_CAPABILITY_POWER => cstr "power"
  | Some SI_CAPABILITY_SETTINGS => cstr "settings"
  | Some SI_CAPABILITY_OTA => cstr "ota"
  | Some SI_CAPABILITY_AGENT_RUN => cstr "agent_run"
  | Some SI_CAPABILITY_CONTROL_LEASE => cstr "control_lease"
  | Some SI_CAPABILITY_STORAGE => cstr "storage"
  | Some SI_CAPABILITY_VIDEO_CONTROL => cstr "video_control"
  | Some SI_CAPABILITY_NONE | None => cstr "none"
  end.

Definition si_principal_kind_name (principal : Z) : cstring :=
  match enum_of_Z principal with
  | Some SI_PRINCIPAL_BROWSER => cstr "browser"
  | Some SI_PRINCIPAL_MCP => cstr "mcp"
  | Some SI_PRINCIPAL_AGENT => cstr "agent"
  | Some SI_PRINCIPAL_SYSTEM => cstr "system"
  | Some SI_PRINCIPAL_ANONYMOUS | None => cstr "anonymous"
  end.

Definition si_authorization_decision_name (decision : Z) : cstring :=
  match enum_of_Z decision with
  | Some SI_AUTHZ_ALLOW => cstr "allow"
  | Some SI_AUTHZ_DENY_INVALID_REQUEST => cstr "invalid_request"
  | Some SI_AUTHZ_DENY_UNAUTHENTICATED => cstr "unauthenticated"
  | Some SI_AUTHZ_DENY_CAPABILITY => cstr "capability_missing"
  | Some SI_AUTHZ_DENY_POLICY => cstr "policy_denied"
  | Some SI_AUTHZ_DENY_KVM_PREEMPTED => cstr "kvm_preempted"
  | Some SI_AUTHZ_DENY_LEASE => cstr "lease_required"
  | Some SI_AUTHZ_DENY_OBSERVE_ONLY => cstr "observe_only"
  | Some SI_AUTHZ_DENY_APPROVAL_REQUIRED => cstr "approval_required"
  | None => cstr "invalid_request"
  end.

(** ** The execution guard *)

Definition SI_AGENT_EXECUTION_ID_MAX_LEN : nat := 64.
Definition SI_AGENT_EXECUTION_TOOL_MAX_LEN : nat := 48.
Definition SI_AGENT_EXECUTION_TARGET_MAX_LEN : nat := 96.
Definition SI_AGENT_EXECUTION_HASH_MAX_LEN : nat := 64.

Inductive si_agent_execution_decision_t :=
| SI_AGENT_EXECUTION_ALLOW | SI_AGENT_EXECUTION_DENY_INVALID
| SI_AGENT_EXECUTION_DENY_EXPIRED | SI_AGENT_EXECUTION_DENY_TARGET_MISMATCH
| SI_AGENT_EXECUTION_DENY_AUTH_CHANGED | SI_AGENT_EXECUTION_DENY_POLICY_CHANGED
| SI_AGENT_EXECUTION_DENY_LEASE_CHANGED | SI_AGENT_EXECUTION_DENY_GRANT
| SI_AGENT_EXECUTION_DENY_AUTHORIZATION.

#[export] Instance execution_decision_eq_dec : EqDecision si_agent_execution_decision_t.
Proof. solve_decision. Defined.

#[export] Instance execution_decision_enum : CEnum si_agent_execution_decision_t.
Proof.
  enum_of [SI_AGENT_EXECUTION_ALLOW; SI_AGENT_EXECUTION_DENY_INVALID;
           SI_AGENT_EXECUTION_DENY_EXPIRED; SI_AGENT_EXECUTION_DENY_TARGET_MISMATCH;
           SI_AGENT_EXECUTION_DENY_AUTH_CHANGED; SI_AGENT_EXECUTION_DENY_POLICY_CHANGED;
           SI_AGENT_EXECUTION_DENY_LEASE_CHANGED; SI_AGENT_EXECUTION_DENY_GRANT;
           SI_AGENT_EXECUTION_DENY_AUTHORIZATION].
Defined.

Record si_agent_execution_intent_t := mk_intent {
  contract_version : Z;
  thread_id : option cstring;
  turn_id : option cstring;
  run_id : option cstring;
  step_id : option cstring;
  action_id : option cstring;
  idempotency_key : option cstring;
  tool_name : option cstring;
  normalized_args_hash : option cstring;
  expected_target_identity : option cstring;
  current_target_identity : option cstring;
  now_ms : Z;
  expires_at_ms : Z;
  expected_policy_revision : Z;
  current_policy_revision : Z;
  expected_lease_epoch : Z;
  current_lease_epoch : Z;
  expected_auth_generation : Z;
  current_auth_generation : Z;
  authenticated : bool;
  principal : Z;
  principal_capabilities : Z;
  origin_authority_ceiling : Z;
  required_capability : Z;
  policy_allowed : bool;
  lease_required : bool;
  lease_held : bool;
  human_kvm_active : bool;
  mode : Z;
  risk : Z;
  approval_required : bool;
  grant_consumed : bool
}.

Record si_agent_execution_guard_result_t := result {
  decision : si_agent_execution_decision_t;
  authorization_decision : si_authorization_decision_t;
  effective_capabilities : Z;
  reason : cstring
}.

(** The loop of [bounded_nonempty], over the indices that remain. *)
Fixpoint terminated_within (value : cstring) (indices : nat) {struct indices} : bool :=
  match indices with
  | O => false
  | S indices =>
      match value with [] => true | _ :: value => terminated_within value indices end
  end.

Definition bounded_nonempty (value : option cstring) (limit : nat) : bool :=
  match value with
  | None => false
  | Some value =>
      return_if is_empty value with false ;;
      terminated_within value (limit + 1)
  end.

Definition guard_request (intent : si_agent_execution_intent_t) (effective : Z)
  : si_authorization_request_t := {|
  rq_authenticated := authenticated intent;
  rq_principal := principal intent;
  rq_capabilities := effective;
  rq_required_capability := required_capability intent;
  rq_policy_allowed := policy_allowed intent;
  rq_lease_required := lease_required intent;
  rq_lease_held := lease_held intent;
  rq_human_kvm_active := human_kvm_active intent;
  rq_mode := mode intent;
  rq_risk := risk intent;
  rq_approval_required := approval_required intent;
  rq_approved := negb (approval_required intent) || grant_consumed intent |}.

Definition si_agent_execution_guard_evaluate (intent : option si_agent_execution_intent_t)
  : si_agent_execution_guard_result_t :=
  let invalid :=
    result SI_AGENT_EXECUTION_DENY_INVALID SI_AUTHZ_DENY_INVALID_REQUEST 0
      (cstr "invalid execution intent") in
  match intent with
  | None => invalid
  | Some i =>
      return_if negb (contract_version i =? 1) ||
          negb (bounded_nonempty (thread_id i) SI_AGENT_EXECUTION_ID_MAX_LEN) ||
          negb (bounded_nonempty (turn_id i) SI_AGENT_EXECUTION_ID_MAX_LEN) ||
          negb (bounded_nonempty (run_id i) SI_AGENT_EXECUTION_ID_MAX_LEN) ||
          negb (bounded_nonempty (step_id i) SI_AGENT_EXECUTION_ID_MAX_LEN) ||
          negb (bounded_nonempty (action_id i) SI_AGENT_EXECUTION_ID_MAX_LEN) ||
          negb (bounded_nonempty (idempotency_key i) SI_AGENT_EXECUTION_ID_MAX_LEN) ||
          negb (bounded_nonempty (tool_name i) SI_AGENT_EXECUTION_TOOL_MAX_LEN) ||
          negb (bounded_nonempty (normalized_args_hash i) SI_AGENT_EXECUTION_HASH_MAX_LEN) ||
          negb (bounded_nonempty (expected_target_identity i)
                  SI_AGENT_EXECUTION_TARGET_MAX_LEN) ||
          negb (bounded_nonempty (current_target_identity i)
                  SI_AGENT_EXECUTION_TARGET_MAX_LEN) ||
          (now_ms i =? 0) || (expires_at_ms i =? 0) ||
          (expected_policy_revision i =? 0) || (current_policy_revision i =? 0) ||
          (expected_auth_generation i =? 0) || (current_auth_generation i =? 0)
        with invalid ;;
      let effective := Z.land (principal_capabilities i) (origin_authority_ceiling i) in
      return_if expires_at_ms i <=? now_ms i
        with result SI_AGENT_EXECUTION_DENY_EXPIRED SI_AUTHZ_DENY_INVALID_REQUEST effective
               (cstr "execution intent expired") ;;
      return_if negb (streq (deref (expected_target_identity i))
                        (deref (current_target_identity i)))
        with result SI_AGENT_EXECUTION_DENY_TARGET_MISMATCH SI_AUTHZ_DENY_INVALID_REQUEST
               effective (cstr "target identity changed") ;;
      return_if negb (expected_auth_generation i =? current_auth_generation i)
        with result SI_AGENT_EXECUTION_DENY_AUTH_CHANGED SI_AUTHZ_DENY_UNAUTHENTICATED
               effective (cstr "source authorization generation changed") ;;
      return_if negb (expected_policy_revision i =? current_policy_revision i)
        with result SI_AGENT_EXECUTION_DENY_POLICY_CHANGED SI_AUTHZ_DENY_POLICY effective
               (cstr "policy revision changed") ;;
      return_if lease_required i &&
                ((expected_lease_epoch i =? 0) || (current_lease_epoch i =? 0) ||
                 negb (expected_lease_epoch i =? current_lease_epoch i))
        with result SI_AGENT_EXECUTION_DENY_LEASE_CHANGED SI_AUTHZ_DENY_LEASE effective
               (cstr "control lease epoch changed") ;;
      return_if approval_required i && negb (grant_consumed i)
        with result SI_AGENT_EXECUTION_DENY_GRANT SI_AUTHZ_DENY_APPROVAL_REQUIRED effective
               (cstr "single-use grant not consumed") ;;
      let authorization := si_authorization_evaluate (Some (guard_request i effective)) in
      return_if negb (bool_decide (authorization = SI_AUTHZ_ALLOW))
        with result SI_AGENT_EXECUTION_DENY_AUTHORIZATION authorization effective
               (si_authorization_decision_name (enum_val authorization)) ;;
      result SI_AGENT_EXECUTION_ALLOW authorization effective (cstr "allow")
  end.

Definition si_agent_execution_decision_name (decision : Z) : cstring :=
  match enum_of_Z decision with
  | Some SI_AGENT_EXECUTION_ALLOW => cstr "allow"
  | Some SI_AGENT_EXECUTION_DENY_INVALID => cstr "invalid"
  | Some SI_AGENT_EXECUTION_DENY_EXPIRED => cstr "expired"
  | Some SI_AGENT_EXECUTION_DENY_TARGET_MISMATCH => cstr "target_mismatch"
  | Some SI_AGENT_EXECUTION_DENY_AUTH_CHANGED => cstr "auth_changed"
  | Some SI_AGENT_EXECUTION_DENY_POLICY_CHANGED => cstr "policy_changed"
  | Some SI_AGENT_EXECUTION_DENY_LEASE_CHANGED => cstr "lease_changed"
  | Some SI_AGENT_EXECUTION_DENY_GRANT => cstr "grant_required"
  | Some SI_AGENT_EXECUTION_DENY_AUTHORIZATION | None => cstr "authorization_denied"
  end.
