(* ===== verification/AuthorizationProps.v ===== *)
(** * Authorization: properties

    The exact condition under which a request is allowed, that losing a
    privilege never turns a denial into a permission, and the exact condition
    under which the execution guard lets a side effect through. *)

From S2P Require Import Prelude Authorization.

(** ** Capabilities *)

Lemma capability_valid_iff x :
  is_u32 x ->
  capability_valid x = true <->
  exists c, c <> SI_CAPABILITY_NONE /\ x = capability_value c.
Proof.
  intros Hx. split.
  - unfold capability_valid. case_if; [done|]. cbv zeta. rewrite u32_small by done.
    intros H. split_guards. apply Z.eqb_neq in Heqb. apply Z.leb_le in H0.
    assert (Hall : forallb (fun n => let x := Z.of_nat n in
              implb (Z.land x (u32 (x - 1)) =? 0)
                (existsb (fun c => x =? capability_value c) (tail enum_values)))
              (seq 1 1024) = true) by by_eval.
    rewrite forallb_forall in Hall. specialize (Hall (Z.to_nat x)).
    cbv zeta in Hall. unfold is_u32 in Hx. change (enum_val SI_CAPABILITY_NONE) with 0 in Heqb.
    change (enum_val SI_CAPABILITY_VIDEO_CONTROL) with 1024 in H0.
    rewrite Z2Nat.id in Hall by lia. rewrite H in Hall. cbn [implb] in Hall.
    assert (Hin : In (Z.to_nat x) (seq 1 1024)) by (apply in_seq; lia).
    specialize (Hall Hin). apply existsb_exists in Hall as (c & Hc & E).
    apply Z.eqb_eq in E. exists c. split; [|done]. intros ->. cbn in Hc.
    repeat destruct Hc as [Hc|Hc]; done.
  - intros (c & Hc & ->). by destruct c.
Qed.

Lemma capability_set_has_subset s1 s2 c :
  Z.land s1 s2 = s1 -> si_capability_set_has s1 c = true -> si_capability_set_has s2 c = true.
Proof.
  unfold si_capability_set_has. intros Hsub H. split_guards. rewrite H. cbn [andb].
  apply negb_true_iff, Z.eqb_neq. apply Z.eqb_neq in H0. intros E. apply H0.
  rewrite <- Hsub, <- Z.land_assoc, E. apply Z.land_0_r.
Qed.

(** ** The decision *)

(** What has to hold for a request to be allowed. *)
Definition request_allowed (r : si_authorization_request_t) : Prop :=
  principal_valid (rq_principal r) = true /\ mode_valid (rq_mode r) = true /\
  risk_valid (rq_risk r) = true /\
  rq_authenticated r = true /\ rq_principal r <> enum_val SI_PRINCIPAL_ANONYMOUS /\
  si_capability_set_has (rq_capabilities r) (rq_required_capability r) = true /\
  rq_policy_allowed r = true /\
  (rq_lease_required r = true -> rq_lease_held r = true /\ rq_human_kvm_active r = false) /\
  (rq_mode r = enum_val SI_AUTHZ_MODE_OBSERVE -> rq_risk r = enum_val SI_AUTHZ_RISK_LOW) /\
  (rq_approval_required r = true -> rq_approved r = true).

Lemma implb_spec a b : (a = true -> b = true) <-> a && negb b = false.
Proof. destruct a, b; cbn; intuition. Qed.

Lemma evaluate_allowed r :
  si_authorization_evaluate (Some r) = SI_AUTHZ_ALLOW <-> request_allowed r.
Proof.
  unfold request_allowed, si_authorization_evaluate. split.
  - case_ifs; try done. intros _. split_guards.
    rewrite <- implb_spec in *. split_and!; try done.
    + by apply Z.eqb_neq.
    + intros Hl. rewrite Hl in *. split; auto.
    + intros Hm%Z.eqb_eq. apply Z.eqb_eq. auto.
  - intros (Hp & Hm & Hr & Ha & Hn & Hc & Hpol & Hl & Ho & Happ).
    rewrite Hp, Hm, Hr, Ha, Hc, Hpol. apply Z.eqb_neq in Hn. rewrite Hn.
    assert (Hcv : capability_valid (rq_required_capability r) = true)
      by (unfold si_capability_set_has in Hc; split_guards; done).
    rewrite Hcv. cbn [negb orb].
    apply implb_spec in Happ. rewrite Happ.
    destruct (rq_lease_required r); [destruct (Hl eq_refl) as [-> ->]|]; cbn [andb negb];
      (destruct (Z.eqb_spec (rq_mode r) (enum_val SI_AUTHZ_MODE_OBSERVE)) as [E|]; [|done]);
      rewrite (Ho E); done.
Qed.

(** [r1] holds no privilege and lifts no restriction that [r2] does not. *)
Definition no_more_privileged (r1 r2 : si_authorization_request_t) : Prop :=
  rq_principal r1 = rq_principal r2 /\
  rq_required_capability r1 = rq_required_capability r2 /\
  rq_mode r1 = rq_mode r2 /\ rq_risk r1 = rq_risk r2 /\
  (rq_authenticated r1 = true -> rq_authenticated r2 = true) /\
  Z.land (rq_capabilities r1) (rq_capabilities r2) = rq_capabilities r1 /\
  (rq_policy_allowed r1 = true -> rq_policy_allowed r2 = true) /\
  (rq_lease_required r2 = true -> rq_lease_required r1 = true) /\
  (rq_lease_held r1 = true -> rq_lease_held r2 = true) /\
  (rq_human_kvm_active r2 = true -> rq_human_kvm_active r1 = true) /\
  (rq_approval_required r2 = true -> rq_approval_required r1 = true) /\
  (rq_approved r1 = true -> rq_approved r2 = true).

Lemma request_allowed_mono r1 r2 :
  no_more_privileged r1 r2 -> request_allowed r1 -> request_allowed r2.
Proof.
  intros (Ep & Ec & Em & Er & Ha & Hs & Hpol & Hlr & Hlh & Hk & Har & Happ)
         (Vp & Vm & Vr & A & N & C & P & L & O & Q).
  rewrite Ep, Em, Er in *. unfold request_allowed. rewrite <- Ec. split_and!; auto.
  - by eapply capability_set_has_subset.
  - intros H. destruct (L (Hlr H)) as [L1 L2]. split; [auto|].
    apply not_true_iff_false. intros K. rewrite (Hk K) in L2. done.
Qed.

(** A request is allowed exactly when all of its parts are: a known
    principal that is authenticated and not anonymous, holding the one known
    capability it asks for, permitted by policy, with the lease held and no
    human at the KVM when a lease is required, at low risk in observe mode, and
    approved when approval is required. Everything else fails closed, and a
    request that is allowed stays allowed with more privileges (so taking a
    privilege away never grants anything). *)
Theorem authorization_exact_and_monotone r1 r2 :
  is_u32 (rq_required_capability r1) -> no_more_privileged r1 r2 ->
  (si_authorization_evaluate (Some r1) = SI_AUTHZ_ALLOW <-> request_allowed r1) /\
  (si_authorization_evaluate (Some r1) = SI_AUTHZ_ALLOW ->
   si_authorization_evaluate (Some r2) = SI_AUTHZ_ALLOW /\
   exists c, c <> SI_CAPABILITY_NONE /\ rq_required_capability r1 = enum_val c /\
             Z.land (rq_capabilities r1) (enum_val c) <> 0) /\
  si_authorization_evaluate None <> SI_AUTHZ_ALLOW.
Proof.
  intros Hu Hm. split; [apply evaluate_allowed|]. split; [|done].
  intros H. apply evaluate_allowed in H. split.
  { apply evaluate_allowed. by eapply request_allowed_mono. }
  destruct H as (_ & _ & _ & _ & _ & Hc & _). unfold si_capability_set_has in Hc. split_guards.
  apply capability_valid_iff in H as (c & Hc & E); [|done].
  exists c. split_and!; [done | done |]. rewrite u32_small, E in H0 by done.
  by apply Z.eqb_neq.
Qed.

Definition demo_request : si_authorization_request_t :=
  mk_request true 3 SI_CAPABILITIES_MCP_DEFAULT (enum_val SI_CAPABILITY_HID) true true true
    false (enum_val SI_AUTHZ_MODE_SUPERVISED) (enum_val SI_AUTHZ_RISK_HIGH) true true.

Definition demo_request_more : si_authorization_request_t :=
  (demo_request <| rq_capabilities := SI_CAPABILITIES_WEB_DEFAULT |>)
                <| rq_lease_required := false |>.

Lemma authorization_exact_and_monotone_witness :
  si_authorization_evaluate (Some demo_request) = SI_AUTHZ_ALLOW /\
  si_authorization_evaluate (Some demo_request_more) = SI_AUTHZ_ALLOW.
Proof.
  split; [by_eval|].
  apply (authorization_exact_and_monotone demo_request demo_request_more);
    [by_decide | unfold no_more_privileged; split_and!; first [by_eval | done] | by_eval].
Defined.

(** ** The execution guard *)

Lemma terminated_within_spec v n : terminated_within v n = bool_decide (length v < n)%nat.
Proof.
  revert v. induction n as [|n IH]; intros v.
  - symmetry. apply bool_decide_eq_false_2. lia.
  - destruct v as [|b v].
    + symmetry. apply bool_decide_eq_true_2. cbn. lia.
    + transitivity (terminated_within v n); [done|]. rewrite IH.
      apply bool_decide_ext. cbn. lia.
Qed.

Definition id_within (v : option cstring) (limit : nat) : Prop :=
  exists s, v = Some s /\ (1 <= length s <= limit)%nat.

Lemma bounded_nonempty_spec v limit :
  bounded_nonempty v limit = true <-> id_within v limit.
Proof.
  unfold bounded_nonempty, id_within. destruct v as [s|].
  - rewrite terminated_within_spec. destruct s as [|b s].
    + split; [done|]. intros (? & [= <-] & ?). cbn in *. lia.
    + transitivity (length (b :: s) < limit + 1)%nat; [apply bool_decide_eq_true|]. split.
      * intros H. exists (b :: s). cbn in *. split; [done|lia].
      * intros (? & [= <-] & ?). cbn in *. lia.
  - split; [done|]. by intros (? & ? & ?).
Qed.

(** The intent is complete, unexpired, and every authority it was issued under
    is still the current one. *)
Definition intent_fresh (i : si_agent_execution_intent_t) : Prop :=
  contract_version i = 1 /\
  Forall (fun v => id_within v 64)
    [thread_id i; turn_id i; run_id i; step_id i; action_id i; idempotency_key i;
     normalized_args_hash i] /\
  id_within (tool_name i) 48 /\
  id_within (expected_target_identity i) 96 /\
  current_target_identity i = expected_target_identity i /\
  now_ms i <> 0 /\ expires_at_ms i <> 0 /\ now_ms i < expires_at_ms i /\
  expected_auth_generation i <> 0 /\
  current_auth_generation i = expected_auth_generation i /\
  expected_policy_revision i <> 0 /\
  current_policy_revision i = expected_policy_revision i /\
  (lease_required i = true ->
   expected_lease_epoch i <> 0 /\ current_lease_epoch i = expected_lease_epoch i) /\
  (approval_required i = true -> grant_consumed i = true).

#[local] Ltac guard_props :=
  to_props;
  repeat match goal with
  | H : bounded_nonempty _ _ = true |- _ => apply bounded_nonempty_spec in H
  end.

Lemma guard_allow_fresh i :
  decision (si_agent_execution_guard_evaluate (Some i)) = SI_AGENT_EXECUTION_ALLOW ->
  intent_fresh i /\
  effective_capabilities (si_agent_execution_guard_evaluate (Some i)) =
    Z.land (principal_capabilities i) (origin_authority_ceiling i) /\
  si_authorization_evaluate
    (Some (guard_request i (Z.land (principal_capabilities i) (origin_authority_ceiling i))))
  = SI_AUTHZ_ALLOW.
Proof.
  unfold si_agent_execution_guard_evaluate. cbv zeta.
  do 7 (case_if; [done|]). case_if; [done|]. intros _.
  split_guards. guard_props. split; [|done].
  repeat match goal with
  | H : id_within (expected_target_identity i) _ |- _ => destruct H as (t & Et & Ht)
  | H : id_within (current_target_identity i) _ |- _ => destruct H as (t' & Et' & Ht')
  end.
  assert (t' = t) as -> by (rewrite Et, Et' in *; cbn in *; done).
  unfold intent_fresh. rewrite Et, Et'. split_and!; try done; try congruence.
  - repeat constructor; done.
  - by exists t.
  - intros Hl. rewrite Hl in *. cbn [andb] in *. split_guards. guard_props. done.
  - intros Ha. rewrite Ha in *. cbn [andb] in *. by split_guards.
Qed.

Lemma guard_fresh_allow i :
  intent_fresh i ->
  si_authorization_evaluate
    (Some (guard_request i (Z.land (principal_capabilities i) (origin_authority_ceiling i))))
  = SI_AUTHZ_ALLOW ->
  decision (si_agent_execution_guard_evaluate (Some i)) = SI_AGENT_EXECUTION_ALLOW.
Proof.
  intros (Hv & Hids & Htool & Ht & Htt & Hn & He & Hne & Hag & Hagg & Hpr & Hprr & Hl & Ha) Hauth.
  unfold si_agent_execution_guard_evaluate. cbv zeta.
  repeat (apply Forall_cons in Hids as [?%bounded_nonempty_spec Hids]).
  apply bounded_nonempty_spec in Htool, Ht.
  rewrite Hv, Htt, Hagg, Hprr.
  unfold SI_AGENT_EXECUTION_ID_MAX_LEN, SI_AGENT_EXECUTION_TOOL_MAX_LEN,
    SI_AGENT_EXECUTION_TARGET_MAX_LEN, SI_AGENT_EXECUTION_HASH_MAX_LEN.
  rewrite H, H0, H1, H2, H3, H4, H5, Htool, Ht. apply Z.eqb_neq in Hn, He, Hag, Hpr.
  rewrite Hn, He, Hag, Hpr. cbn [negb orb Z.eqb Pos.eqb].
  rewrite (proj2 (Z.leb_gt _ _) Hne), streq_refl, !Z.eqb_refl. cbn [negb].
  rewrite (proj1 (implb_spec _ _) Ha).
  rewrite Hauth, bool_decide_eq_true_2 by done. cbn [negb].
  destruct (lease_required i); [|done]. destruct (Hl eq_refl) as [He0 ->].
  apply Z.eqb_neq in He0. by rewrite He0, Z.eqb_refl.
Qed.

Lemma land_subset_l a b : Z.land (Z.land a b) a = Z.land a b.
Proof. by rewrite Z.land_comm, Z.land_assoc, Z.land_diag. Qed.

Lemma land_subset_r a b : Z.land (Z.land a b) b = Z.land a b.
Proof. by rewrite <- Z.land_assoc, Z.land_diag. Qed.

(** C17: the guard lets a side effect through exactly when the intent is complete
    and unexpired, its target, authorization generation, policy revision and (when
    a lease is required) lease epoch are still current, its single-use grant is
    consumed when approval is required, and the authorization decision allows
    it; that decision then allows it under the principal's own capabilities and
    under the origin's authority ceiling, each taken alone. *)
Theorem guard_allows_exactly_fresh i :
  let out := si_agent_execution_guard_evaluate (Some i) in
  let effective := Z.land (principal_capabilities i) (origin_authority_ceiling i) in
  (decision out = SI_AGENT_EXECUTION_ALLOW <->
   intent_fresh i /\
   si_authorization_evaluate (Some (guard_request i effective)) = SI_AUTHZ_ALLOW) /\
  (decision out = SI_AGENT_EXECUTION_ALLOW ->
   effective_capabilities out = effective /\
   si_authorization_evaluate (Some (guard_request i (principal_capabilities i)))
     = SI_AUTHZ_ALLOW /\
   si_authorization_evaluate (Some (guard_request i (origin_authority_ceiling i)))
     = SI_AUTHZ_ALLOW).
Proof.
  cbv zeta. split.
  - split.
    + intros H. apply guard_allow_fresh in H as (? & _ & ?). done.
    + intros [? ?]. by apply guard_fresh_allow.
  - intros H. apply guard_allow_fresh in H as (Hf & He & Ha). split; [done|].
    apply evaluate_allowed in Ha.
    split; apply evaluate_allowed; (eapply request_allowed_mono; [|exact Ha]);
      unfold no_more_privileged; cbn; split_and!; try done;
      [apply land_subset_l | apply land_subset_r].
Qed.

Definition demo_intent : si_agent_execution_intent_t :=
  let id s := Some (cstr s) in
  mk_intent 1 (id "th") (id "tu") (id "ru") (id "st") (id "ac") (id "ik") (id "hid.type")
    (id "9f2c") (id "host-1") (id "host-1") 1000 2000 3 3 7 7 2 2 true 3
    SI_CAPABILITIES_WEB_DEFAULT SI_CAPABILITIES_MCP_DEFAULT (enum_val SI_CAPABILITY_HID)
    true true true false (enum_val SI_AUTHZ_MODE_SUPERVISED)
    (enum_val SI_AUTHZ_RISK_MEDIUM) true true.

Lemma guard_allows_exactly_fresh_witness :
  decision (si_agent_execution_guard_evaluate (Some demo_intent)) = SI_AGENT_EXECUTION_ALLOW /\
  intent_fresh demo_intent.
Proof.
  assert (H : decision (si_agent_execution_guard_evaluate (Some demo_intent))
              = SI_AGENT_EXECUTION_ALLOW) by by_eval.
  split; [exact H|]. exact (proj1 (proj1 (proj1 (guard_allows_exactly_fresh demo_intent)) H)).
Defined.
