(* ===== verification/OperationSlots.v ===== *)
(** * Operation slots: the interface of exclusive, cancellable operations

    [core/resource_operation_state.c] and [core/terminal_control_state.c] keep
    the same promise: a slot runs one operation at a time, an operation is
    named by the slot and the generation its [begin] handed out, and only that
    name cancels it, observes its cancellation and finishes it.  [SlotTable]
    states the promise; the theorems here are proved against it, and each
    component discharges it with an instance. *)

From S2P Require Import Prelude.

(** [copy_string] into a buffer of [out_size] bytes; a NULL value is empty. Both
    files have the same function. *)
Definition copy_string (out_size : nat) (value : option cstring) : cstring :=
  let value := default [] value in
  let len := length value in
  let len := if (out_size <=? len)%nat then (out_size - 1)%nat else len in
  take len value.

Record slot_view := mk_view {
  sv_active : bool;
  sv_cancel : bool;
  sv_generation : Z
}.

Lemma copy_string_fits n value : (0 < n)%nat -> (length (copy_string n value) < n)%nat.
Proof.
  intros Hn. unfold copy_string. cbv zeta. rewrite length_take.
  destruct (Nat.leb_spec n (length (default [] value))); lia.
Qed.

Lemma copy_string_exact n s : (length s < n)%nat -> copy_string n (Some s) = s.
Proof.
  intros Hn. unfold copy_string. cbv zeta. cbn [default id from_option].
  destruct (Nat.leb_spec n (length s)); [lia|]. by apply take_ge.
Qed.

(** An array update, read back at any index. *)
Lemma insert_total_cases {A} `{Inhabited A} (l : list A) i j x :
  (<[i:=x]> l) !!! j = l !!! j \/ (i = j /\ (<[i:=x]> l) !!! j = x).
Proof.
  destruct (decide (i = j)) as [->|Hne].
  - destruct (decide (j < length l)%nat).
    + right. split; [done|]. by apply list_lookup_total_insert_eq.
    + left. by rewrite list_insert_ge by lia.
  - left. by apply list_lookup_total_insert_ne.
Qed.

(** What one call may do to one slot. *)
Inductive slot_change : slot_view -> slot_view -> Prop :=
| slot_same v : slot_change v v
| slot_begun v :
    sv_active v = false -> slot_change v (mk_view true false (bump (sv_generation v)))
| slot_cancelled v :
    sv_active v = true -> slot_change v (mk_view true true (sv_generation v))
| slot_finished v :
    sv_active v = true -> slot_change v (mk_view false false (sv_generation v)).

Definition view_live (v : slot_view) (g : Z) : bool :=
  sv_active v && (sv_generation v =? g).

Class SlotTable (St Op : Type) := {
  slot_valid : Z -> bool;
  slot_at : St -> Z -> slot_view;
  slot_exec : St -> Op -> St;
  slot_cancel_requested : St -> Z -> Z -> bool;
  slot_finish : St -> Z -> Z -> bool * St;
  slot_exec_change : forall s o r,
    slot_valid r = true -> slot_change (slot_at s r) (slot_at (slot_exec s o) r);
  slot_cancel_law : forall s r g,
    slot_valid r = true -> g <> 0 ->
    slot_cancel_requested s r g =
    negb (view_live (slot_at s r) g) || sv_cancel (slot_at s r);
  slot_finish_law : forall s r g,
    slot_valid r = true -> g <> 0 ->
    (slot_finish s r g).1 = view_live (slot_at s r) g /\
    (view_live (slot_at s r) g = false -> (slot_finish s r g).2 = s)
}.

Section slots.
Context {St Op : Type} `{SlotTable St Op}.
Implicit Types (s : St) (o : Op).

Definition slot_live s (r g : Z) : bool := view_live (slot_at s r) g.

Definition slot_run s (os : list Op) : St := fold_left slot_exec os s.

(** After its operation ended, a slot has the old generation and is idle, or has
    moved on. *)
Definition past (g : Z) (n : nat) (v : slot_view) : Prop :=
  (sv_active v = false /\ sv_generation v = g) \/
  (exists k, (1 <= k <= n)%nat /\ sv_generation v = Nat.iter k bump g).

Lemma past_change g n v v' : past g n v -> slot_change v v' -> past g (S n) v'.
Proof.
  intros Hp Hc. destruct Hc as [v|v Ha|v Ha|v Ha].
  - destruct Hp as [?|(k & ? & ?)]; [by left|]. right. exists k. split; [lia|done].
  - right. destruct Hp as [[_ E]|(k & ? & E)]; cbn; rewrite E.
    + exists 1%nat. split; [lia|done].
    + exists (S k). split; [lia|done].
  - destruct Hp as [[? _]|(k & ? & E)]; [congruence|]. right. exists k. split; [lia|done].
  - destruct Hp as [[? _]|(k & ? & E)]; [congruence|]. right. exists k. split; [lia|done].
Qed.

Lemma past_run g r n s os :
  slot_valid r = true -> past g n (slot_at s r) ->
  past g (n + length os) (slot_at (slot_run s os) r).
Proof.
  intros Hr. revert s n. induction os as [|o os IH]; intros s n Hp; cbn.
  - by rewrite Nat.add_0_r.
  - rewrite <- Nat.add_succ_comm. apply IH. eapply past_change; [done|].
    by apply slot_exec_change.
Qed.

Lemma ended_change v v' g :
  slot_change v v' -> view_live v g = true -> view_live v' g = false -> past g 0 v'.
Proof.
  unfold view_live. intros Hc Hl Hn. apply andb_true_iff in Hl as [Ha Hg].
  apply Z.eqb_eq in Hg. destruct Hc as [v|v Hv|v Hv|v Hv]; cbn in *.
  - rewrite Ha, Hg, Z.eqb_refl in Hn. done.
  - congruence.
  - rewrite Hg, Z.eqb_refl in Hn. done.
  - by left.
Qed.

Lemma ended_past s o r g :
  slot_valid r = true -> slot_live s r g = true -> slot_live (slot_exec s o) r g = false ->
  past g 0 (slot_at (slot_exec s o) r).
Proof. intros Hr. by apply ended_change, slot_exec_change. Qed.

Lemma past_not_live g n v :
  1 <= g < 2 ^ 32 -> Z.of_nat n < 2 ^ 32 - 1 -> past g n v -> view_live v g = false.
Proof.
  unfold view_live. intros Hg Hn [[-> _]|(k & Hk & E)]; [done|]. rewrite E. rewrite (proj2 (Z.eqb_neq _ g)); [apply andb_false_r|].
  apply bump_iter_fresh; lia.
Qed.

(** An ended operation stays ended: its worker sees a cancellation, and its name
    finishes nothing, for any [2^32 - 2] further calls. *)
Lemma ended_stays_ended s o r g after :
  slot_valid r = true -> 1 <= g < 2 ^ 32 -> slot_live s r g = true ->
  slot_live (slot_exec s o) r g = false -> Z.of_nat (length after) < 2 ^ 32 - 1 ->
  let s' := slot_run (slot_exec s o) after in
  slot_live s' r g = false /\ slot_cancel_requested s' r g = true /\
  slot_finish s' r g = (false, s').
Proof.
  intros Hr Hg Hl He Hn s'.
  assert (Hd : slot_live s' r g = false).
  { apply (past_not_live g (length after)); [done | done |].
    apply (past_run g r 0); [done|]. by apply ended_past. }
  unfold slot_live in Hd. split_and!; [done | |].
  - rewrite slot_cancel_law by (done || lia). by rewrite Hd.
  - destruct (slot_finish_law s' r g Hr ltac:(lia)) as [H1 H2].
    rewrite Hd in H1, H2. specialize (H2 eq_refl).
    destruct (slot_finish s' r g) as [b s2]. cbn in *. by rewrite H1, H2.
Qed.

(** A cancellation is not lost: until its operation ends, and after, the worker
    that polls sees it. *)
Lemma cancel_change_sticky v v' g :
  slot_change v v' -> view_live v g = true -> sv_cancel v = true ->
  (view_live v' g = true /\ sv_cancel v' = true) \/ past g 0 v'.
Proof.
  unfold view_live. intros Hc Hl Hs. apply andb_true_iff in Hl as [Ha Hg].
  apply Z.eqb_eq in Hg. destruct Hc as [v|v Hv|v Hv|v Hv]; cbn.
  - left. by rewrite Ha, Hg, Z.eqb_refl.
  - congruence.
  - left. by rewrite Hg, Z.eqb_refl.
  - right. by left.
Qed.

Lemma cancelled_stays_cancelled s r g os :
  slot_valid r = true -> 1 <= g < 2 ^ 32 -> slot_live s r g = true ->
  sv_cancel (slot_at s r) = true -> Z.of_nat (length os) < 2 ^ 32 - 1 ->
  slot_cancel_requested (slot_run s os) r g = true.
Proof.
  intros Hr Hg Hl Hc Hn. rewrite slot_cancel_law by (done || lia).
  assert (Hinv : (view_live (slot_at (slot_run s os) r) g = true /\
                  sv_cancel (slot_at (slot_run s os) r) = true) \/
                 past g (length os) (slot_at (slot_run s os) r)).
  { assert (Hi : (view_live (slot_at s r) g = true /\ sv_cancel (slot_at s r) = true) \/
                 past g 0 (slot_at s r)) by (by left).
    clear Hl Hc. change (length os) with (0 + length os)%nat. revert Hi.
    generalize 0%nat as n. revert s. clear Hn.
    induction os as [|o os IH]; intros s n Hi; cbn.
    - by rewrite Nat.add_0_r.
    - rewrite <- Nat.add_succ_comm. apply IH.
      pose proof (slot_exec_change s o r Hr) as Hch. destruct Hi as [[Hl Hc]|Hp].
      + destruct (cancel_change_sticky _ _ g Hch Hl Hc) as [?|[?|(k & ? & ?)]];
          [by left | right; by left | lia].
      + right. by eapply past_change. }
  destruct Hinv as [[-> ->]|Hp]; [done|]. by rewrite (past_not_live g (length os)).
Qed.
End slots.
