(* ===== verification/ResourceOperation.v ===== *)
(** * Resource operations: [core/resource_operation_state.c]

    Five exclusive resources, one of which (maintenance) excludes all others. *)

From S2P Require Import Prelude OperationSlots.

Definition SI_RESOURCE_OPERATION_ID_MAX_LEN : nat := 48.
Definition SI_RESOURCE_OPERATION_RUN_ID_MAX_LEN : nat := 64.
Definition SI_RESOURCE_OPERATION_LABEL_MAX_LEN : nat := 96.

Inductive si_resource_operation_resource_t :=
| SI_RESOURCE_OPERATION_POWER | SI_RESOURCE_OPERATION_VIDEO_CONFIG
| SI_RESOURCE_OPERATION_VIDEO_HARDWARE | SI_RESOURCE_OPERATION_MAINTENANCE
| SI_RESOURCE_OPERATION_AGENT_DATA | SI_RESOURCE_OPERATION_COUNT.

Inductive si_resource_operation_actor_t :=
| SI_RESOURCE_OPERATION_ACTOR_NONE | SI_RESOURCE_OPERATION_ACTOR_AGENT
| SI_RESOURCE_OPERATION_ACTOR_MCP | SI_RESOURCE_OPERATION_ACTOR_SYSTEM.

#[export] Instance resource_eq_dec : EqDecision si_resource_operation_resource_t.
Proof. solve_decision. Defined.
#[export] Instance resource_actor_eq_dec : EqDecision si_resource_operation_actor_t.
Proof. solve_decision. Defined.

#[export] Instance resource_enum : CEnum si_resource_operation_resource_t.
Proof.
  enum_of [SI_RESOURCE_OPERATION_POWER; SI_RESOURCE_OPERATION_VIDEO_CONFIG;
           SI_RESOURCE_OPERATION_VIDEO_HARDWARE; SI_RESOURCE_OPERATION_MAINTENANCE;
           SI_RESOURCE_OPERATION_AGENT_DATA; SI_RESOURCE_OPERATION_COUNT].
Defined.

#[export] Instance resource_actor_enum : CEnum si_resource_operation_actor_t.
Proof.
  enum_of [SI_RESOURCE_OPERATION_ACTOR_NONE; SI_RESOURCE_OPERATION_ACTOR_AGENT;
           SI_RESOURCE_OPERATION_ACTOR_MCP; SI_RESOURCE_OPERATION_ACTOR_SYSTEM].
Defined.

Record si_resource_operation_token_t := mk_resource_token {
  rt_resource : Z;
  rt_generation : Z
}.

Record si_resource_operation_status_t := mk_resource_status {
  ro_active : bool;
  ro_cancel_requested : bool;
  ro_cancellable : bool;
  ro_generation : Z;
  ro_started_ms : Z;
  ro_actor : Z;
  ro_operation_id : cstring;
  ro_run_id : cstring;
  ro_label : cstring
}.

#[export] Instance eta_resource_status : Settable si_resource_operation_status_t := fun s =>
  mk_resource_status (ro_active s) (ro_cancel_requested s) (ro_cancellable s)
    (ro_generation s) (ro_started_ms s) (ro_actor s) (ro_operation_id s) (ro_run_id s)
    (ro_label s).

Definition zero_resource_status : si_resource_operation_status_t :=
  mk_resource_status false false false 0 0 0 [] [] [].

#[export] Instance resource_status_inhabited : Inhabited si_resource_operation_status_t :=
  populate zero_resource_status.

Record si_resource_operation_state_t := mk_resource_state {
  slots : list si_resource_operation_status_t
}.

Definition resource_count : nat := Z.to_nat (enum_val SI_RESOURCE_OPERATION_COUNT).

Definition resource_valid (resource : Z) : bool :=
  (enum_val SI_RESOURCE_OPERATION_POWER <=? resource) &&
  (resource <? enum_val SI_RESOURCE_OPERATION_COUNT).

Definition si_resource_operation_state_init : si_resource_operation_state_t :=
  mk_resource_state (replicate resource_count zero_resource_status).

Definition slot_of (state : si_resource_operation_state_t) (resource : Z)
  : si_resource_operation_status_t := slots state !!! Z.to_nat resource.

Definition set_slot (state : si_resource_operation_state_t) (resource : Z)
    (slot : si_resource_operation_status_t) : si_resource_operation_state_t :=
  mk_resource_state (<[Z.to_nat resource := slot]> (slots state)).

Definition si_resource_operation_state_active_count (state : si_resource_operation_state_t)
  : nat :=
  fold_left (fun count i => if ro_active (slots state !!! i) then S count else count)
    (seq 0 resource_count) 0%nat.

(** The second component is the token stored through [token]. *)
Definition si_resource_operation_state_begin (state : si_resource_operation_state_t)
    (resource actor : Z) (operation_id run_id label : option cstring) (cancellable : bool)
    (started_ms : Z)
  : bool * option si_resource_operation_token_t * si_resource_operation_state_t :=
  return_if negb (resource_valid resource) ||
            (actor <=? enum_val SI_RESOURCE_OPERATION_ACTOR_NONE) ||
            (enum_val SI_RESOURCE_OPERATION_ACTOR_SYSTEM <? actor)
    with (false, None, state) ;;
  let is_maintenance := resource =? enum_val SI_RESOURCE_OPERATION_MAINTENANCE in
  let maintenance := slot_of state (enum_val SI_RESOURCE_OPERATION_MAINTENANCE) in
  return_if (negb is_maintenance && ro_active maintenance) ||
            (is_maintenance && (0 <? si_resource_operation_state_active_count state)%nat)
    with (false, None, state) ;;
  let slot := slot_of state resource in
  return_if ro_active slot with (false, None, state) ;;
  let generation := u32 (ro_generation slot + 1) in
  let generation := if generation =? 0 then 1 else generation in
  (true, Some (mk_resource_token resource generation),
   set_slot state resource {|
     ro_active := true;
     ro_cancel_requested := false;
     ro_cancellable := cancellable;
     ro_generation := generation;
     ro_started_ms := started_ms;
     ro_actor := actor;
     ro_operation_id := copy_string (SI_RESOURCE_OPERATION_ID_MAX_LEN + 1) operation_id;
     ro_run_id := copy_string (SI_RESOURCE_OPERATION_RUN_ID_MAX_LEN + 1) run_id;
     ro_label := copy_string (SI_RESOURCE_OPERATION_LABEL_MAX_LEN + 1) label |}).

Definition si_resource_operation_state_request_cancel
    (state : si_resource_operation_state_t) (resource expected_generation : Z)
  : bool * si_resource_operation_state_t :=
  return_if negb (resource_valid resource) || (expected_generation =? 0)
    with (false, state) ;;
  let slot := slot_of state resource in
  return_if negb (ro_active slot) || negb (ro_cancellable slot) ||
            negb (ro_generation slot =? expected_generation)
    with (false, state) ;;
  (true, set_slot state resource (slot <| ro_cancel_requested := true |>)).

Definition si_resource_operation_state_cancel_requested
    (state : si_resource_operation_state_t) (token : option si_resource_operation_token_t)
  : bool :=
  match token with
  | None => true
  | Some t =>
      return_if negb (resource_valid (rt_resource t)) || (rt_generation t =? 0) with true ;;
      let slot := slot_of state (rt_resource t) in
      negb (ro_active slot) || negb (ro_generation slot =? rt_generation t) ||
      ro_cancel_requested slot
  end.

Definition si_resource_operation_state_finish (state : si_resource_operation_state_t)
    (token : option si_resource_operation_token_t) : bool * si_resource_operation_state_t :=
  match token with
  | None => (false, state)
  | Some t =>
      return_if negb (resource_valid (rt_resource t)) || (rt_generation t =? 0)
        with (false, state) ;;
      let slot := slot_of state (rt_resource t) in
      return_if negb (ro_active slot) || negb (ro_generation slot =? rt_generation t)
        with (false, state) ;;
      (true, set_slot state (rt_resource t)
               (zero_resource_status <| ro_generation := ro_generation slot |>))
  end.

Definition si_resource_operation_state_manual_allowed
    (state : si_resource_operation_state_t) (resource : Z) : bool :=
  resource_valid resource && negb (ro_active (slot_of state resource)) &&
  ((resource =? enum_val SI_RESOURCE_OPERATION_MAINTENANCE) ||
   negb (ro_active (slot_of state (enum_val SI_RESOURCE_OPERATION_MAINTENANCE)))).

Definition si_resource_operation_state_get (state : si_resource_operation_state_t)
    (resource : Z) : bool * option si_resource_operation_status_t :=
  return_if negb (resource_valid resource) with (false, None) ;;
  (true, Some (slot_of state resource)).

(** ** The calls that change the state *)

Inductive resource_op :=
| ResourceBegin (resource actor : Z) (operation_id run_id label : option cstring)
    (cancellable : bool) (started_ms : Z)
| ResourceCancel (resource expected_generation : Z)
| ResourceFinish (token : option si_resource_operation_token_t).

Definition resource_exec (s : si_resource_operation_state_t) (o : resource_op)
  : si_resource_operation_state_t :=
  match o with
  | ResourceBegin r a op run label c t =>
      (si_resource_operation_state_begin s r a op run label c t).2
  | ResourceCancel r g => (si_resource_operation_state_request_cancel s r g).2
  | ResourceFinish t => (si_resource_operation_state_finish s t).2
  end.

Definition resource_run (s : si_resource_operation_state_t) (os : list resource_op)
  : si_resource_operation_state_t := fold_left resource_exec os s.
