(* ===== verification/TerminalControl.v ===== *)
(** * Terminal control: [core/terminal_control_state.c]

    One exclusive operation per terminal channel (UART, SSH). *)

From S2P Require Import Prelude OperationSlots.

Definition SI_TERMINAL_CONTROL_OPERATION_ID_MAX_LEN : nat := 48.
Definition SI_TERMINAL_CONTROL_RUN_ID_MAX_LEN : nat := 64.
Definition SI_TERMINAL_CONTROL_LABEL_MAX_LEN : nat := 96.

Inductive si_terminal_channel_t :=
| SI_TERMINAL_CHANNEL_UART | SI_TERMINAL_CHANNEL_SSH | SI_TERMINAL_CHANNEL_COUNT.

Inductive si_terminal_actor_t :=
| SI_TERMINAL_ACTOR_NONE | SI_TERMINAL_ACTOR_AGENT | SI_TERMINAL_ACTOR_MCP.

#[export] Instance terminal_channel_eq_dec : EqDecision si_terminal_channel_t.
Proof. solve_decision. Defined.
#[export] Instance terminal_actor_eq_dec : EqDecision si_terminal_actor_t.
Proof. solve_decision. Defined.

#[export] Instance terminal_channel_enum : CEnum si_terminal_channel_t.
Proof.
  enum_of [SI_TERMINAL_CHANNEL_UART; SI_TERMINAL_CHANNEL_SSH; SI_TERMINAL_CHANNEL_COUNT].
Defined.

#[export] Instance terminal_actor_enum : CEnum si_terminal_actor_t.
Proof.
  enum_of [SI_TERMINAL_ACTOR_NONE; SI_TERMINAL_ACTOR_AGENT; SI_TERMINAL_ACTOR_MCP].
Defined.

Record si_terminal_control_token_t := mk_terminal_token {
  tt_channel : Z;
  tt_generation : Z
}.

Record si_terminal_control_status_t := mk_terminal_status {
  tc_active : bool;
  tc_cancel_requested : bool;
  tc_generation : Z;
  tc_started_ms : Z;
  tc_actor : Z;
  tc_operation_id : cstring;
  tc_run_id : cstring;
  tc_label : cstring
}.

#[export] Instance eta_terminal_status : Settable si_terminal_control_status_t := fun s =>
  mk_terminal_status (tc_active s) (tc_cancel_requested s) (tc_generation s)
    (tc_started_ms s) (tc_actor s) (tc_operation_id s) (tc_run_id s) (tc_label s).

Definition zero_terminal_status : si_terminal_control_status_t :=
  mk_terminal_status false false 0 0 0 [] [] [].

#[export] Instance terminal_status_inhabited : Inhabited si_terminal_control_status_t :=
  populate zero_terminal_status.

Record si_terminal_control_state_t := mk_terminal_state {
  channels : list si_terminal_control_status_t
}.

Definition channel_count : nat := Z.to_nat (enum_val SI_TERMINAL_CHANNEL_COUNT).

Definition channel_valid (channel : Z) : bool :=
  (enum_val SI_TERMINAL_CHANNEL_UART <=? channel) &&
  (channel <? enum_val SI_TERMINAL_CHANNEL_COUNT).

Definition si_terminal_control_state_init : si_terminal_control_state_t :=
  mk_terminal_state (replicate channel_count zero_terminal_status).

Definition channel_of (state : si_terminal_control_state_t) (channel : Z)
  : si_terminal_control_status_t := channels state !!! Z.to_nat channel.

Definition set_channel (state : si_terminal_control_state_t) (channel : Z)
    (slot : si_terminal_control_status_t) : si_terminal_control_state_t :=
  mk_terminal_state (<[Z.to_nat channel := slot]> (channels state)).

(** The second component is the token stored through [token]. *)
Definition si_terminal_control_state_begin (state : si_terminal_control_state_t)
    (channel actor : Z) (operation_id run_id label : option cstring) (started_ms : Z)
  : bool * option si_terminal_control_token_t * si_terminal_control_state_t :=
  return_if negb (channel_valid channel) ||
            (negb (actor =? enum_val SI_TERMINAL_ACTOR_AGENT) &&
             negb (actor =? enum_val SI_TERMINAL_ACTOR_MCP))
    with (false, None, state) ;;
  let slot := channel_of state channel in
  return_if tc_active slot with (false, None, state) ;;
  let generation := u32 (tc_generation slot + 1) in
  let generation := if generation =? 0 then 1 else generation in
  (true, Some (mk_terminal_token channel generation),
   set_channel state channel {|
     tc_active := true;
     tc_cancel_requested := false;
     tc_generation := generation;
     tc_started_ms := started_ms;
     tc_actor := actor;
     tc_operation_id :=
       copy_string (SI_TERMINAL_CONTROL_OPERATION_ID_MAX_LEN + 1) operation_id;
     tc_run_id := copy_string (SI_TERMINAL_CONTROL_RUN_ID_MAX_LEN + 1) run_id;
     tc_label := copy_string (SI_TERMINAL_CONTROL_LABEL_MAX_LEN + 1) label |}).

Definition si_terminal_control_state_request_cancel (state : si_terminal_control_state_t)
    (channel expected_generation : Z) : bool * si_terminal_control_state_t :=
  return_if negb (channel_valid channel) || (expected_generation =? 0)
    with (false, state) ;;
  let slot := channel_of state channel in
  return_if negb (tc_active slot) || negb (tc_generation slot =? expected_generation)
    with (false, state) ;;
  (true, set_channel state channel (slot <| tc_cancel_requested := true |>)).

Definition si_terminal_control_state_cancel_requested (state : si_terminal_control_state_t)
    (token : option si_terminal_control_token_t) : bool :=
  match token with
  | None => true
  | Some t =>
      return_if negb (channel_valid (tt_channel t)) || (tt_generation t =? 0) with true ;;
      let slot := channel_of state (tt_channel t) in
      negb (tc_active slot) || negb (tc_generation slot =? tt_generation t) ||
      tc_cancel_requested slot
  end.

Definition si_terminal_control_state_finish (state : si_terminal_control_state_t)
    (token : option si_terminal_control_token_t) : bool * si_terminal_control_state_t :=
  match token with
  | None => (false, state)
  | Some t =>
      return_if negb (channel_valid (tt_channel t)) || (tt_generation t =? 0)
        with (false, state) ;;
      let slot := channel_of state (tt_channel t) in
      return_if negb (tc_active slot) || negb (tc_generation slot =? tt_generation t)
        with (false, state) ;;
      (true, set_channel state (tt_channel t)
               (zero_terminal_status <| tc_generation := tc_generation slot |>))
  end.

Definition si_terminal_control_state_manual_input_allowed
    (state : si_terminal_control_state_t) (channel : Z) : bool :=
  channel_valid channel && negb (tc_active (channel_of state channel)).

Definition si_terminal_control_state_get (state : si_terminal_control_state_t) (channel : Z)
  : bool * option si_terminal_control_status_t :=
  return_if negb (channel_valid channel) with (false, None) ;;
  (true, Some (channel_of state channel)).

(** ** The calls that change the state *)

Inductive terminal_op :=
| TerminalBegin (channel actor : Z) (operation_id run_id label : option cstring)
    (started_ms : Z)
| TerminalCancel (channel expected_generation : Z)
| TerminalFinish (token : option si_terminal_control_token_t).

Definition terminal_exec (s : si_terminal_control_state_t) (o : terminal_op)
  : si_terminal_control_state_t :=
  match o with
  | TerminalBegin c a op run label t =>
      (si_terminal_control_state_begin s c a op run label t).2
  | TerminalCancel c g => (si_terminal_control_state_request_cancel s c g).2
  | TerminalFinish t => (si_terminal_control_state_finish s t).2
  end.

Definition terminal_run (s : si_terminal_control_state_t) (os : list terminal_op)
  : si_terminal_control_state_t := fold_left terminal_exec os s.
