(* ===== verification/SlotProps.v ===== *)
(** * Operation slots: the implementations and their properties

    The resource operations and the terminal operations discharge the interface
    [SlotTable]; maintenance excludes every other resource operation. *)

From S2P Require Import Prelude OperationSlots ResourceOperation TerminalControl.

(** ** The resource operations implement the interface *)

Definition resource_view (s : si_resource_operation_status_t) : slot_view :=
  mk_view (ro_active s) (ro_cancel_requested s) (ro_generation s).

Lemma set_slot_view s r slot r' :
  slot_change (resource_view (slot_of s r)) (resource_view slot) ->
  resource_valid r = true -> resource_valid r' = true ->
  slot_change (resource_view (slot_of s r')) (resource_view (slot_of (set_slot s r slot) r')).
Proof.
  unfold slot_of, set_slot. cbn [slots]. intros Hc Hr Hr'.
  destruct (insert_total_cases (slots s) (Z.to_nat r) (Z.to_nat r') slot) as [->|[E ->]].
  - constructor.
  - by rewrite <- E.
Qed.

Lemma resource_exec_change s o r :
  resource_valid r = true ->
  slot_change (resource_view (slot_of s r)) (resource_view (slot_of (resource_exec s o) r)).
Proof.
  intros Hr. destruct o as [r' a op run label c t|r' g|[[r' g]|]]; cbn [resource_exec].
  - unfold si_resource_operation_state_begin. cbv zeta.
    case_if; [constructor|]. case_if; [constructor|]. case_if; [constructor|].
    split_guards. apply set_slot_view; try done.
    assert (Ha : sv_active (resource_view (slot_of s r')) = false) by done.
    apply (slot_begun _ Ha).
  - unfold si_resource_operation_state_request_cancel. cbv zeta.
    case_if; [constructor|]. case_if; [constructor|]. split_guards.
    apply set_slot_view; try done.
    assert (Ha : ro_active (slot_of s r') = true) by done.
    unfold resource_view at 2. cbn. rewrite Ha. by apply slot_cancelled.
  - unfold si_resource_operation_state_finish. cbn [rt_resource rt_generation]. cbv zeta.
    case_if; [constructor|]. case_if; [constructor|]. split_guards.
    apply set_slot_view; try done.
    assert (Ha : sv_active (resource_view (slot_of s r')) = true) by done.
    apply (slot_finished _ Ha).
  - constructor.
Qed.

Definition resource_cancel_query (s : si_resource_operation_state_t) (r g : Z) : bool :=
  si_resource_operation_state_cancel_requested s (Some (mk_resource_token r g)).

Definition resource_finish_call (s : si_resource_operation_state_t) (r g : Z)
  : bool * si_resource_operation_state_t :=
  si_resource_operation_state_finish s (Some (mk_resource_token r g)).

#[export] Instance resource_slot_table : SlotTable si_resource_operation_state_t resource_op.
Proof.
  refine {|
    slot_valid := resource_valid;
    slot_at := fun s r => resource_view (slot_of s r);
    slot_exec := resource_exec;
    slot_cancel_requested := resource_cancel_query;
    slot_finish := resource_finish_call |}.
  - apply resource_exec_change.
  - intros s r g Hr Hg. unfold resource_cancel_query, si_resource_operation_state_cancel_requested.
    cbn [rt_resource rt_generation]. rewrite Hr, (proj2 (Z.eqb_neq _ _) Hg). cbn [negb orb].
    unfold view_live. cbn. by rewrite negb_andb.
  - intros s r g Hr Hg. unfold resource_finish_call, si_resource_operation_state_finish.
    cbn [rt_resource rt_generation]. rewrite Hr, (proj2 (Z.eqb_neq _ _) Hg). cbn [negb orb].
    unfold view_live. cbn [resource_view sv_active sv_generation].
    destruct (ro_active _), (_ =? g); done.
Defined.

(** ** The terminal operations implement the interface *)

Definition terminal_view (s : si_terminal_control_status_t) : slot_view :=
  mk_view (tc_active s) (tc_cancel_requested s) (tc_generation s).

Lemma set_channel_view s c slot c' :
  slot_change (terminal_view (channel_of s c)) (terminal_view slot) ->
  channel_valid c = true -> channel_valid c' = true ->
  slot_change (terminal_view (channel_of s c'))
    (terminal_view (channel_of (set_channel s c slot) c')).
Proof.
  unfold channel_of, set_channel. cbn [channels]. intros Hc Hr Hr'.
  destruct (insert_total_cases (channels s) (Z.to_nat c) (Z.to_nat c') slot) as [->|[E ->]].
  - constructor.
  - by rewrite <- E.
Qed.

Lemma terminal_exec_change s o c :
  channel_valid c = true ->
  slot_change (terminal_view (channel_of s c))
    (terminal_view (channel_of (terminal_exec s o) c)).
Proof.
  intros Hc. destruct o as [c' a op run label t|c' g|[[c' g]|]]; cbn [terminal_exec].
  - unfold si_terminal_control_state_begin. cbv zeta.
    case_if; [constructor|]. case_if; [constructor|].
    split_guards. apply set_channel_view; try done.
    assert (Ha : sv_active (terminal_view (channel_of s c')) = false) by done.
    apply (slot_begun _ Ha).
  - unfold si_terminal_control_state_request_cancel. cbv zeta.
    case_if; [constructor|]. case_if; [constructor|]. split_guards.
    apply set_channel_view; try done.
    assert (Ha : tc_active (channel_of s c') = true) by done.
    unfold terminal_view at 2. cbn. rewrite Ha. by apply slot_cancelled.
  - unfold si_terminal_control_state_finish. cbn [tt_channel tt_generation]. cbv zeta.
    case_if; [constructor|]. case_if; [constructor|]. split_guards.
    apply set_channel_view; try done.
    assert (Ha : sv_active (terminal_view (channel_of s c')) = true) by done.
    apply (slot_finished _ Ha).
  - constructor.
Qed.

Definition terminal_cancel_query (s : si_terminal_control_state_t) (c g : Z) : bool :=
  si_terminal_control_state_cancel_requested s (Some (mk_terminal_token c g)).

Definition terminal_finish_call (s : si_terminal_control_state_t) (c g : Z)
  : bool * si_terminal_control_state_t :=
  si_terminal_control_state_finish s (Some (mk_terminal_token c g)).

#[export] Instance terminal_slot_table : SlotTable si_terminal_control_state_t terminal_op.
Proof.
  refine {|
    slot_valid := channel_valid;
    slot_at := fun s c => terminal_view (channel_of s c);
    slot_exec := terminal_exec;
    slot_cancel_requested := terminal_cancel_query;
    slot_finish := terminal_finish_call |}.
  - apply terminal_exec_change.
  - intros s c g Hr Hg. unfold terminal_cancel_query, si_terminal_control_state_cancel_requested.
    cbn [tt_channel tt_generation]. rewrite Hr, (proj2 (Z.eqb_neq _ _) Hg). cbn [negb orb].
    unfold view_live. cbn. by rewrite negb_andb.
  - intros s c g Hr Hg. unfold terminal_finish_call, si_terminal_control_state_finish.
    cbn [tt_channel tt_generation]. rewrite Hr, (proj2 (Z.eqb_neq _ _) Hg). cbn [negb orb].
    unfold view_live. cbn [terminal_view sv_active sv_generation].
    destruct (tc_active _), (_ =? g); done.
Defined.

(** ** What a token is worth *)

Lemma token_nonzero_range g : is_u32 g -> g <> 0 -> 1 <= g < 2 ^ 32.
Proof. unfold is_u32. lia. Qed.

Definition slots_ok (s : si_resource_operation_state_t) : Prop :=
  length (slots s) = resource_count.

Lemma resource_init_ok : slots_ok si_resource_operation_state_init.
Proof. reflexivity. Qed.

Lemma resource_exec_ok s o : slots_ok s -> slots_ok (resource_exec s o).
Proof.
  intros Hs. destruct o as [r' a op run label c t|r' g|[[r' g]|]]; cbn [resource_exec].
  - unfold si_resource_operation_state_begin. cbv zeta. case_ifs; try done;
      unfold slots_ok; cbn; by rewrite length_insert.
  - unfold si_resource_operation_state_request_cancel. cbv zeta. case_ifs; try done.
    unfold slots_ok. cbn. by rewrite length_insert.
  - unfold si_resource_operation_state_finish. cbv zeta. case_ifs; try done.
    unfold slots_ok. cbn. by rewrite length_insert.
  - done.
Qed.

Lemma resource_run_ok s os : slots_ok s -> slots_ok (resource_run s os).
Proof.
  unfold resource_run. revert s. induction os as [|o os IH]; intros s Hs; cbn; [done|].
  by apply IH, resource_exec_ok.
Qed.

Lemma slot_of_set s r slot :
  slots_ok s -> resource_valid r = true -> slot_of (set_slot s r slot) r = slot.
Proof.
  unfold slots_ok, resource_valid, slot_of, set_slot. intros Hs Hr. split_guards. to_props.
  change (enum_val SI_RESOURCE_OPERATION_POWER) with 0 in *.
  cbn [slots]. apply list_lookup_total_insert_eq. rewrite Hs. unfold resource_count. lia.
Qed.

Lemma resource_finish_ok s t s' :
  slots_ok s -> si_resource_operation_state_finish s (Some t) = (true, s') ->
  resource_valid (rt_resource t) = true /\ rt_generation t <> 0 /\
  resource_exec s (ResourceFinish (Some t)) = s' /\
  slot_live s (rt_resource t) (rt_generation t) = true /\
  slot_live s' (rt_resource t) (rt_generation t) = false.
Proof.
  intros Hs H. cbn [resource_exec]. rewrite H.
  unfold si_resource_operation_state_finish in H. cbv zeta in H.
  case_if_in H; [done|]. case_if_in H; [done|]. injection H as <-.
  split_guards. to_props. split_and!; try done; unfold slot_live, view_live; cbn.
  - apply andb_true_iff. split; [done | by apply Z.eqb_eq].
  - by rewrite slot_of_set.
Qed.

Lemma resource_cancel_ok s r g s' :
  slots_ok s -> si_resource_operation_state_request_cancel s r g = (true, s') ->
  resource_valid r = true /\ g <> 0 /\
  slot_live s' r g = true /\ sv_cancel (slot_at s' r) = true.
Proof.
  intros Hs. unfold si_resource_operation_state_request_cancel. cbv zeta.
  case_if; [done|]. case_if; [done|]. intros [= <-]. split_guards. to_props.
  split_and!; try done; unfold slot_live, view_live; cbn; rewrite slot_of_set by done; cbn; [|done].
  apply andb_true_iff. split; [done | by apply Z.eqb_eq].
Qed.

(** What happened to a resource operation cannot be taken back. From any
    reachable state, once its token has finished it, for any fewer than
    [2^32 - 1] further calls the token finishes nothing and its holder sees a
    cancellation; and once its cancellation is accepted its holder sees it from
    then on, whatever else is called. *)
Theorem resource_token_finality before t s' after :
  let s := resource_run si_resource_operation_state_init before in
  is_u32 (rt_generation t) -> Z.of_nat (length after) < 2 ^ 32 - 1 ->
  (si_resource_operation_state_finish s (Some t) = (true, s') ->
   si_resource_operation_state_cancel_requested (resource_run s' after) (Some t) = true /\
   si_resource_operation_state_finish (resource_run s' after) (Some t)
     = (false, resource_run s' after)) /\
  (si_resource_operation_state_request_cancel s (rt_resource t) (rt_generation t)
     = (true, s') ->
   si_resource_operation_state_cancel_requested (resource_run s' after) (Some t) = true).
Proof.
  intros s Hg Hn. pose proof (resource_run_ok _ before resource_init_ok) as Hs. fold s in Hs.
  destruct t as [r g]. cbn [rt_resource rt_generation] in *. split.
  - intros H. apply resource_finish_ok in H as (Hr & Hg0 & He & Hl & Hd); [|done].
    cbn [rt_resource rt_generation] in *. rewrite <- He in Hd |- *.
    pose proof (token_nonzero_range _ Hg Hg0) as Hg1.
    destruct (ended_stays_ended (H := resource_slot_table) s
                (ResourceFinish (Some (mk_resource_token r g))) r g after Hr Hg1 Hl Hd Hn) as (_ & Hc & Hf).
    split; [exact Hc | exact Hf].
  - intros H. apply resource_cancel_ok in H as (Hr & Hg0 & Hl & Hc); [|done].
    pose proof (token_nonzero_range _ Hg Hg0) as Hg1.
    exact (cancelled_stays_cancelled (H := resource_slot_table) s' r g after Hr Hg1 Hl Hc Hn).
Qed.

Definition demo_begin (r : Z) : resource_op :=
  ResourceBegin r 1 (Some (cstr "op")) (Some (cstr "run")) None true 5.

Lemma resource_token_finality_witness :
  let t := mk_resource_token 0 1 in
  let s' := (si_resource_operation_state_finish
               (resource_run si_resource_operation_state_init [demo_begin 0]) (Some t)).2 in
  si_resource_operation_state_cancel_requested (resource_run s' [demo_begin 0]) (Some t)
  = true.
Proof.
  destruct (resource_token_finality [demo_begin 0] (mk_resource_token 0 1)
              (si_resource_operation_state_finish
                 (resource_run si_resource_operation_state_init [demo_begin 0])
                 (Some (mk_resource_token 0 1))).2 [demo_begin 0])
    as [H _]; [by_decide | by_eval |].
  destruct H as [H _]; [by_eval | exact H].
Defined.

(** The same for the terminal channels. *)
Definition channels_ok (s : si_terminal_control_state_t) : Prop :=
  length (channels s) = channel_count.

Lemma terminal_init_ok : channels_ok si_terminal_control_state_init.
Proof. reflexivity. Qed.

Lemma terminal_exec_ok s o : channels_ok s -> channels_ok (terminal_exec s o).
Proof.
  intros Hs. destruct o as [r' a op run label t|r' g|[[r' g]|]]; cbn [terminal_exec].
  - unfold si_terminal_control_state_begin. cbv zeta. case_ifs; try done;
      unfold channels_ok; cbn; by rewrite length_insert.
  - unfold si_terminal_control_state_request_cancel. cbv zeta. case_ifs; try done.
    unfold channels_ok. cbn. by rewrite length_insert.
  - unfold si_terminal_control_state_finish. cbv zeta. case_ifs; try done.
    unfold channels_ok. cbn. by rewrite length_insert.
  - done.
Qed.

Lemma terminal_run_ok s os : channels_ok s -> channels_ok (terminal_run s os).
Proof.
  unfold terminal_run. revert s. induction os as [|o os IH]; intros s Hs; cbn; [done|].
  by apply IH, terminal_exec_ok.
Qed.

Lemma channel_of_set s c slot :
  channels_ok s -> channel_valid c = true -> channel_of (set_channel s c slot) c = slot.
Proof.
  unfold channels_ok, channel_valid, channel_of, set_channel. intros Hs Hr. split_guards.
  to_props. change (enum_val SI_TERMINAL_CHANNEL_UART) with 0 in *.
  cbn [channels]. apply list_lookup_total_insert_eq. rewrite Hs. unfold channel_count. lia.
Qed.

Lemma terminal_finish_ok s t s' :
  channels_ok s -> si_terminal_control_state_finish s (Some t) = (true, s') ->
  channel_valid (tt_channel t) = true /\ tt_generation t <> 0 /\
  terminal_exec s (TerminalFinish (Some t)) = s' /\
  slot_live s (tt_channel t) (tt_generation t) = true /\
  slot_live s' (tt_channel t) (tt_generation t) = false.
Proof.
  intros Hs H. cbn [terminal_exec]. rewrite H.
  unfold si_terminal_control_state_finish in H. cbv zeta in H.
  case_if_in H; [done|]. case_if_in H; [done|]. injection H as <-.
  split_guards. to_props. split_and!; try done; unfold slot_live, view_live; cbn.
  - apply andb_true_iff. split; [done | by apply Z.eqb_eq].
  - by rewrite channel_of_set.
Qed.

Lemma terminal_cancel_ok s c g s' :
  channels_ok s -> si_terminal_control_state_request_cancel s c g = (true, s') ->
  channel_valid c = true /\ g <> 0 /\
  slot_live s' c g = true /\ sv_cancel (slot_at s' c) = true.
Proof.
  intros Hs. unfold si_terminal_control_state_request_cancel. cbv zeta.
  case_if; [done|]. case_if; [done|]. intros [= <-]. split_guards. to_props.
  split_and!; try done; unfold slot_live, view_live; cbn; rewrite channel_of_set by done; cbn; [|done].
  apply andb_true_iff. split; [done | by apply Z.eqb_eq].
Qed.

(** A terminal operation is final in the same way: a finished token
    finishes nothing again and its holder sees a cancellation, an accepted
    cancellation stays visible to its holder; and while an operation runs,
    manual input on its channel is refused and no other operation starts. *)
Theorem terminal_token_finality before t s' after c actor op run label ms :
  let s := terminal_run si_terminal_control_state_init before in
  is_u32 (tt_generation t) -> Z.of_nat (length after) < 2 ^ 32 - 1 ->
  (si_terminal_control_state_finish s (Some t) = (true, s') ->
   si_terminal_control_state_cancel_requested (terminal_run s' after) (Some t) = true /\
   si_terminal_control_state_finish (terminal_run s' after) (Some t)
     = (false, terminal_run s' after)) /\
  (si_terminal_control_state_request_cancel s (tt_channel t) (tt_generation t) = (true, s') ->
   si_terminal_control_state_cancel_requested (terminal_run s' after) (Some t) = true) /\
  (tc_active (channel_of s c) = true ->
   si_terminal_control_state_manual_input_allowed s c = false /\
   si_terminal_control_state_begin s c actor op run label ms = (false, None, s)).
Proof.
  intros s Hg Hn. pose proof (terminal_run_ok _ before terminal_init_ok) as Hs. fold s in Hs.
  destruct t as [r g]. cbn [tt_channel tt_generation] in *. split_and!.
  - intros H. apply terminal_finish_ok in H as (Hr & Hg0 & He & Hl & Hd); [|done].
    cbn [tt_channel tt_generation] in *. rewrite <- He in Hd |- *.
    pose proof (token_nonzero_range _ Hg Hg0) as Hg1.
    destruct (ended_stays_ended (H := terminal_slot_table) s
                (TerminalFinish (Some (mk_terminal_token r g))) r g after Hr Hg1 Hl Hd Hn)
      as (_ & Hc & Hf).
    split; [exact Hc | exact Hf].
  - intros H. apply terminal_cancel_ok in H as (Hr & Hg0 & Hl & Hc); [|done].
    pose proof (token_nonzero_range _ Hg Hg0) as Hg1.
    exact (cancelled_stays_cancelled (H := terminal_slot_table) s' r g after Hr Hg1 Hl Hc Hn).
  - intros Ha. unfold si_terminal_control_state_manual_input_allowed,
      si_terminal_control_state_begin. rewrite Ha. split; [apply andb_false_r|].
    by destruct (_ || _).
Qed.

Lemma terminal_token_finality_witness :
  let t := mk_terminal_token 1 1 in
  let begin := TerminalBegin 1 2 (Some (cstr "op")) None None 5 in
  let s := terminal_run si_terminal_control_state_init [begin] in
  si_terminal_control_state_cancel_requested
    (terminal_run (si_terminal_control_state_request_cancel s 1 1).2
       [TerminalFinish (Some t); begin]) (Some t) = true.
Proof.
  set (begin := TerminalBegin 1 2 (Some (cstr "op")) None None 5).
  destruct (terminal_token_finality [begin] (mk_terminal_token 1 1)
              (si_terminal_control_state_request_cancel
                 (terminal_run si_terminal_control_state_init [begin]) 1 1).2
              [TerminalFinish (Some (mk_terminal_token 1 1)); begin] 1 1 None None None 0)
    as (_ & H & _); [by_decide | by_eval |].
  apply H. by_eval.
Defined.

(** ** Maintenance *)

Abbreviation MAINTENANCE := (enum_val SI_RESOURCE_OPERATION_MAINTENANCE) (only parsing).

Lemma active_count_zero s :
  si_resource_operation_state_active_count s = 0%nat ->
  forall r, resource_valid r = true -> ro_active (slot_of s r) = false.
Proof.
  unfold si_resource_operation_state_active_count, resource_valid, slot_of.
  change (seq 0 resource_count) with [0; 1; 2; 3; 4]%nat. cbn [fold_left].
  intros H r Hr. split_guards. to_props.
  change (enum_val SI_RESOURCE_OPERATION_POWER) with 0 in *.
  change (enum_val SI_RESOURCE_OPERATION_COUNT) with 5 in *.
  assert (Hc : r = 0 \/ r = 1 \/ r = 2 \/ r = 3 \/ r = 4) by lia.
  destruct Hc as [->|[->|[->|[->| ->]]]];
    match goal with |- context [Z.to_nat ?n] =>
      let m := eval vm_compute in (Z.to_nat n) in change (Z.to_nat n) with m
    end;
    destruct (ro_active (slots s !!! 0%nat)), (ro_active (slots s !!! 1%nat)),
      (ro_active (slots s !!! 2%nat)), (ro_active (slots s !!! 3%nat)),
      (ro_active (slots s !!! 4%nat)); done.
Qed.

Definition exclusive (s : si_resource_operation_state_t) : Prop :=
  ro_active (slot_of s MAINTENANCE) = true ->
  forall r, resource_valid r = true -> r <> MAINTENANCE -> ro_active (slot_of s r) = false.

Lemma slot_of_set_ne s r r' slot :
  resource_valid r = true -> resource_valid r' = true -> r <> r' ->
  slot_of (set_slot s r slot) r' = slot_of s r'.
Proof.
  unfold resource_valid, slot_of, set_slot. cbn [slots]. intros Hr Hr' Hne. split_guards.
  to_props. change (enum_val SI_RESOURCE_OPERATION_POWER) with 0 in *.
  apply list_lookup_total_insert_ne. lia.
Qed.

(** A call that does not start an operation activates no slot. *)
Lemma exclusive_quiet s r slot :
  slots_ok s -> resource_valid r = true -> exclusive s ->
  (ro_active slot = true -> ro_active (slot_of s r) = true) ->
  exclusive (set_slot s r slot).
Proof.
  intros Hs Hr He Hq.
  assert (Hdown : forall r', resource_valid r' = true ->
            ro_active (slot_of (set_slot s r slot) r') = true ->
            ro_active (slot_of s r') = true).
  { intros r' Hr'. destruct (decide (r = r')) as [->|Hne].
    - by rewrite slot_of_set.
    - by rewrite slot_of_set_ne. }
  intros Hm r' Hr' Hne. apply not_true_iff_false. intros Ha.
  apply Hdown in Hm; [|done]. apply Hdown in Ha; [|done].
  rewrite (He Hm r' Hr' Hne) in Ha. done.
Qed.

Lemma exclusive_exec s o : slots_ok s -> exclusive s -> exclusive (resource_exec s o).
Proof.
  intros Hs He. destruct o as [r' a op run label c t|r' g|[[r' g]|]]; cbn [resource_exec].
  - unfold si_resource_operation_state_begin. cbv zeta.
    case_if; [done|]. case_if; [done|]. case_if; [done|]. cbn [snd]. split_guards.
    set (slot := mk_resource_status _ _ _ _ _ _ _ _ _).
    destruct (Z.eqb_spec r' MAINTENANCE) as [->|Hne]; cbn [negb andb] in *.
    + to_props. intros _ r Hr Hr'. rewrite slot_of_set_ne by done.
      apply active_count_zero; [lia | done].
    + intros Hm. rewrite slot_of_set_ne in Hm by done. congruence.
  - unfold si_resource_operation_state_request_cancel. cbv zeta.
    case_if; [done|]. case_if; [done|]. split_guards. by apply exclusive_quiet.
  - unfold si_resource_operation_state_finish. cbv zeta.
    case_if; [done|]. case_if; [done|]. split_guards. by apply exclusive_quiet.
  - done.
Qed.

(** Maintenance is exclusive. In every reachable state, while a maintenance
    operation runs no other resource operation does, none starts, and manual
    use of every other resource is refused; and maintenance starts exactly when
    nothing at all is running. *)
Theorem maintenance_excludes_all os r actor op run label c ms :
  let s := resource_run si_resource_operation_state_init os in
  resource_valid r = true -> 1 <= actor <= 3 ->
  (ro_active (slot_of s MAINTENANCE) = true -> r <> MAINTENANCE ->
   ro_active (slot_of s r) = false /\
   si_resource_operation_state_begin s r actor op run label c ms = (false, None, s) /\
   si_resource_operation_state_manual_allowed s r = false) /\
  ((si_resource_operation_state_begin s MAINTENANCE actor op run label c ms).1.1 = true <->
   forall r', resource_valid r' = true -> ro_active (slot_of s r') = false).
Proof.
  intros s Hr Hact.
  assert (Hinv : slots_ok s /\ exclusive s).
  { unfold s. assert (Hi : slots_ok si_resource_operation_state_init /\
                           exclusive si_resource_operation_state_init) by done.
    revert Hi. generalize si_resource_operation_state_init. clear s.
    induction os as [|o os IH]; intros s0 [Hs He]; cbn; [done|].
    apply IH. split; [by apply resource_exec_ok | by apply exclusive_exec]. }
  destruct Hinv as [Hs He]. clearbody s. split.
  - intros Hm Hne. specialize (He Hm r Hr Hne).
    apply Z.eqb_neq in Hne. split_and!; [done | |].
    + unfold si_resource_operation_state_begin. cbv zeta. case_if; [done|].
      by rewrite Hne, Hm.
    + unfold si_resource_operation_state_manual_allowed. rewrite Hne, Hm. apply andb_false_r.
  - unfold si_resource_operation_state_begin. cbv zeta.
    change (resource_valid MAINTENANCE) with true.
    change (enum_val SI_RESOURCE_OPERATION_ACTOR_NONE) with 0.
    change (enum_val SI_RESOURCE_OPERATION_ACTOR_SYSTEM) with 3.
    rewrite (proj2 (Z.leb_gt actor 0)), (proj2 (Z.ltb_ge 3 actor)) by lia.
    rewrite Z.eqb_refl. cbn [negb orb andb]. split.
    + case_if; [done|]. intros _. to_props. apply active_count_zero. lia.
    + intros Hall.
      assert (E : si_resource_operation_state_active_count s = 0%nat).
      { unfold si_resource_operation_state_active_count.
        change (seq 0 resource_count) with [0; 1; 2; 3; 4]%nat. cbn [fold_left].
        pose proof (Hall 0 eq_refl) as H0. pose proof (Hall 1 eq_refl) as H1.
        pose proof (Hall 2 eq_refl) as H2. pose proof (Hall 3 eq_refl) as H3.
        pose proof (Hall 4 eq_refl) as H4. unfold slot_of in *.
        change (Z.to_nat 0) with 0%nat in H0. change (Z.to_nat 1) with 1%nat in H1.
        change (Z.to_nat 2) with 2%nat in H2. change (Z.to_nat 3) with 3%nat in H3.
        change (Z.to_nat 4) with 4%nat in H4.
        by rewrite H0, H1, H2, H3, H4. }
      assert (Hv : resource_valid MAINTENANCE = true) by by_eval.
      rewrite E, (Hall _ Hv). reflexivity.
Qed.

Lemma maintenance_excludes_all_witness :
  ro_active (slot_of (resource_run si_resource_operation_state_init
                        [demo_begin 3; demo_begin 0]) 0) = false.
Proof.
  destruct (maintenance_excludes_all [demo_begin 3; demo_begin 0] 0 1 None None None true 9)
    as [H _]; [by_eval | lia |].
  apply H; [by_eval | done].
Defined.
