(* ===== verification/ActionEvent.v ===== *)
(** * Action events: [core/action_event.c]

    The bounded history of action events: a ring of 64 events with sequence
    numbers, appended by the actors and read by position. *)

From S2P Require Import Prelude RingBuffer.

Definition SI_ACTION_EVENT_SCHEMA_VERSION : Z := 1.
Definition SI_ACTION_EVENT_CAPACITY : nat := 64.
Definition SI_ACTION_EVENT_RUN_ID_MAX : nat := 32.
Definition SI_ACTION_EVENT_ACTION_ID_MAX : nat := 32.
Definition SI_ACTION_EVENT_SUMMARY_MAX : nat := 240.

Inductive si_action_actor_t :=
| SI_ACTION_ACTOR_SYSTEM | SI_ACTION_ACTOR_USER | SI_ACTION_ACTOR_AGENT
| SI_ACTION_ACTOR_MCP.

Inductive si_action_channel_t :=
| SI_ACTION_CHANNEL_SYSTEM | SI_ACTION_CHANNEL_AGENT | SI_ACTION_CHANNEL_HID
| SI_ACTION_CHANNEL_SSH | SI_ACTION_CHANNEL_UART | SI_ACTION_CHANNEL_VIDEO
| SI_ACTION_CHANNEL_OTA.

Inductive si_action_phase_t :=
| SI_ACTION_PHASE_PLANNED | SI_ACTION_PHASE_WAITING_APPROVAL | SI_ACTION_PHASE_STARTED
| SI_ACTION_PHASE_INPUT_SENT | SI_ACTION_PHASE_OUTPUT_RECEIVED
| SI_ACTION_PHASE_VERIFYING | SI_ACTION_PHASE_SUCCEEDED | SI_ACTION_PHASE_FAILED
| SI_ACTION_PHASE_CANCELLED.

#[export] Instance action_actor_eq_dec : EqDecision si_action_actor_t.
Proof. solve_decision. Defined.
#[export] Instance action_channel_eq_dec : EqDecision si_action_channel_t.
Proof. solve_decision. Defined.
#[export] Instance action_phase_eq_dec : EqDecision si_action_phase_t.
Proof. solve_decision. Defined.

#[export] Instance action_actor_enum : CEnum si_action_actor_t.
Proof.
  enum_of [SI_ACTION_ACTOR_SYSTEM; SI_ACTION_ACTOR_USER; SI_ACTION_ACTOR_AGENT;
           SI_ACTION_ACTOR_MCP].
Defined.

#[export] Instance action_channel_enum : CEnum si_action_channel_t.
Proof.
  enum_of [SI_ACTION_CHANNEL_SYSTEM; SI_ACTION_CHANNEL_AGENT; SI_ACTION_CHANNEL_HID;
           SI_ACTION_CHANNEL_SSH; SI_ACTION_CHANNEL_UART; SI_ACTION_CHANNEL_VIDEO;
           SI_ACTION_CHANNEL_OTA].
Defined.

#[export] Instance action_phase_enum : CEnum si_action_phase_t.
Proof.
  enum_of [SI_ACTION_PHASE_PLANNED; SI_ACTION_PHASE_WAITING_APPROVAL;
           SI_ACTION_PHASE_STARTED; SI_ACTION_PHASE_INPUT_SENT;
           SI_ACTION_PHASE_OUTPUT_RECEIVED; SI_ACTION_PHASE_VERIFYING;
           SI_ACTION_PHASE_SUCCEEDED; SI_ACTION_PHASE_FAILED; SI_ACTION_PHASE_CANCELLED].
Defined.

Record si_action_event_input_t := mk_event_input {
  in_run_id : option cstring;
  in_action_id : option cstring;
  in_actor : Z;
  in_channel : Z;
  in_phase : Z;
  in_summary : option cstring;
  in_redacted : bool;
  in_background : bool
}.

Record si_action_event_t := mk_event {
  ev_schema_version : Z;
  ev_seq : Z;
  ev_timestamp_ms : Z;
  ev_run_id : cstring;
  ev_action_id : cstring;
  ev_actor : Z;
  ev_channel : Z;
  ev_phase : Z;
  ev_summary : cstring;
  ev_redacted : bool;
  ev_background : bool
}.

Definition zero_event : si_action_event_t := mk_event 0 0 0 [] [] 0 0 0 [] false false.

#[export] Instance action_event_inhabited : Inhabited si_action_event_t :=
  populate zero_event.

Record si_action_event_buffer_t := mk_event_buffer {
  events : list si_action_event_t;
  latest_seq : Z;
  count : nat;
  write_pos : nat;
  dropped : Z
}.

(** [snprintf(out, out_size, "%s", value ? value : "")]. *)
Definition copy_text (out_size : nat) (value : option cstring) : cstring :=
  strtrunc out_size (default [] value).

Definition actor_valid (actor : Z) : bool :=
  (enum_val SI_ACTION_ACTOR_SYSTEM <=? actor) && (actor <=? enum_val SI_ACTION_ACTOR_MCP).

Definition channel_valid (channel : Z) : bool :=
  (enum_val SI_ACTION_CHANNEL_SYSTEM <=? channel) &&
  (channel <=? enum_val SI_ACTION_CHANNEL_OTA).

Definition phase_valid (phase : Z) : bool :=
  (enum_val SI_ACTION_PHASE_PLANNED <=? phase) &&
  (phase <=? enum_val SI_ACTION_PHASE_CANCELLED).

Definition si_action_event_buffer_init : si_action_event_buffer_t :=
  mk_event_buffer (replicate SI_ACTION_EVENT_CAPACITY zero_event) 0 0 0 0.

Definition input_valid (input : si_action_event_input_t) : bool :=
  actor_valid (in_actor input) && channel_valid (in_channel input) &&
  phase_valid (in_phase input).

(** The event that is recorded: lines 52 to 68. *)
Definition event_of (seq timestamp_ms : Z) (input : si_action_event_input_t)
  : si_action_event_t := {|
  ev_schema_version := SI_ACTION_EVENT_SCHEMA_VERSION;
  ev_seq := seq;
  ev_timestamp_ms := timestamp_ms;
  ev_run_id := copy_text (SI_ACTION_EVENT_RUN_ID_MAX + 1) (in_run_id input);
  ev_action_id :=
    if ptr_test (fun id => negb (is_empty id)) (in_action_id input)
    then copy_text (SI_ACTION_EVENT_ACTION_ID_MAX + 1) (in_action_id input)
    else strtrunc (SI_ACTION_EVENT_ACTION_ID_MAX + 1) (ch "a" :: decimal seq);
  ev_actor := in_actor input;
  ev_channel := in_channel input;
  ev_phase := in_phase input;
  ev_summary := copy_text (SI_ACTION_EVENT_SUMMARY_MAX + 1) (in_summary input);
  ev_redacted := in_redacted input;
  ev_background := in_background input |}.

(** The second component is the event stored through [event_out]. *)
Definition si_action_event_buffer_append (buffer : si_action_event_buffer_t)
    (timestamp_ms : Z) (input : option si_action_event_input_t)
  : bool * option si_action_event_t * si_action_event_buffer_t :=
  match input with
  | None => (false, None, buffer)
  | Some input =>
      return_if negb (input_valid input) with (false, None, buffer) ;;
      let next_seq := u32 (latest_seq buffer + 1) in
      let next_seq := if next_seq =? 0 then 1 else next_seq in
      let event := event_of next_seq timestamp_ms input in
      let full := negb (count buffer <? SI_ACTION_EVENT_CAPACITY)%nat in
      (true, Some event, {|
         events := <[(write_pos buffer mod SI_ACTION_EVENT_CAPACITY)%nat := event]>
                     (events buffer);
         latest_seq := next_seq;
         count := if full then count buffer else S (count buffer);
         write_pos := ((write_pos buffer + 1) mod SI_ACTION_EVENT_CAPACITY)%nat;
         dropped := if full then u32 (dropped buffer + 1) else dropped buffer |})
  end.

(** The copy loop, from offset [i] on, with [n] events to look at. *)
Fixpoint read_loop (evs : list si_action_event_t) (start i n : nat) (after_seq : Z)
    (room : nat) : list si_action_event_t :=
  match n, room with
  | O, _ | _, O => []
  | S n, S room' =>
      let event := evs !!! ((start + i) mod SI_ACTION_EVENT_CAPACITY)%nat in
      if ev_seq event <=? after_seq
      then read_loop evs start (S i) n after_seq room
      else event :: read_loop evs start (S i) n after_seq room'
  end.

(** The events written to [events_out], [*latest_seq_out] and
    [*history_lost_out]. *)
Definition si_action_event_buffer_read_after (buffer : si_action_event_buffer_t)
    (after_seq : Z) (events_capacity : nat) : list si_action_event_t * Z * bool :=
  return_if (events_capacity =? 0)%nat || (count buffer =? 0)%nat
    with ([], latest_seq buffer, false) ;;
  let start :=
    ((write_pos buffer + SI_ACTION_EVENT_CAPACITY - count buffer)
       mod SI_ACTION_EVENT_CAPACITY)%nat in
  let oldest := events buffer !!! start in
  let history_lost :=
    negb (after_seq =? 0) && (1 <? ev_seq oldest) && (after_seq <? ev_seq oldest - 1) in
  (read_loop (events buffer) start 0 (count buffer) after_seq events_capacity,
   latest_seq buffer, history_lost).

Definition si_action_actor_name (actor : Z) : cstring :=
  match enum_of_Z actor with
  | Some SI_ACTION_ACTOR_USER => cstr "user"
  | Some SI_ACTION_ACTOR_AGENT => cstr "agent"
  | Some SI_ACTION_ACTOR_MCP => cstr "mcp"
  | Some SI_ACTION_ACTOR_SYSTEM | None => cstr "system"
  end.

Definition si_action_channel_name (channel : Z) : cstring :=
  match enum_of_Z channel with
  | Some SI_ACTION_CHANNEL_AGENT => cstr "agent"
  | Some SI_ACTION_CHANNEL_HID => cstr "hid"
  | Some SI_ACTION_CHANNEL_SSH => cstr "ssh"
  | Some SI_ACTION_CHANNEL_UART => cstr "uart"
  | Some SI_ACTION_CHANNEL_VIDEO => cstr "video"
  | Some SI_ACTION_CHANNEL_OTA => cstr "ota"
  | Some SI_ACTION_CHANNEL_SYSTEM | None => cstr "system"
  end.

Definition si_action_phase_name (phase : Z) : cstring :=
  match enum_of_Z phase with
  | Some SI_ACTION_PHASE_WAITING_APPROVAL => cstr "waiting_approval"
  | Some SI_ACTION_PHASE_STARTED => cstr "started"
  | Some SI_ACTION_PHASE_INPUT_SENT => cstr "input_sent"
  | Some SI_ACTION_PHASE_OUTPUT_RECEIVED => cstr "output_received"
  | Some SI_ACTION_PHASE_VERIFYING => cstr "verifying"
  | Some SI_ACTION_PHASE_SUCCEEDED => cstr "succeeded"
  | Some SI_ACTION_PHASE_FAILED => cstr "failed"
  | Some SI_ACTION_PHASE_CANCELLED => cstr "cancelled"
  | Some SI_ACTION_PHASE_PLANNED | None => cstr "planned"
  end.

Definition si_action_phase_legacy_kind (phase : Z) : cstring :=
  match enum_of_Z phase with
  | Some SI_ACTION_PHASE_INPUT_SENT => cstr "cmd"
  | Some (SI_ACTION_PHASE_OUTPUT_RECEIVED | SI_ACTION_PHASE_VERIFYING) => cstr "progress"
  | Some SI_ACTION_PHASE_SUCCEEDED => cstr "ok"
  | Some SI_ACTION_PHASE_FAILED => cstr "bad"
  | Some SI_ACTION_PHASE_CANCELLED => cstr "warn"
  | Some (SI_ACTION_PHASE_PLANNED | SI_ACTION_PHASE_WAITING_APPROVAL
         | SI_ACTION_PHASE_STARTED) | None => cstr "info"
  end.
