(* ===== verification/ActionEventProps.v ===== *)
(** * Action events: properties

    The buffer is the last 64 entries of the log of everything appended, and a
    reader gets exactly the entries after its position. *)

From S2P Require Import Prelude RingBuffer ActionEvent.

(** ** The specification: an append-only log *)

Abbreviation entry := (Z * si_action_event_input_t)%type (only parsing).

(** The events of a log, numbered from [seq]. *)
Fixpoint log_events (seq : Z) (log : list entry) : list si_action_event_t :=
  match log with
  | [] => []
  | (ts, input) :: log => event_of seq ts input :: log_events (seq + 1) log
  end.

Definition append_all (log : list entry) : si_action_event_buffer_t :=
  fold_left (fun b '(ts, input) => (si_action_event_buffer_append b ts (Some input)).2)
    log si_action_event_buffer_init.

Definition log_valid (log : list entry) : Prop :=
  Forall (fun e => input_valid e.2 = true) log.

Lemma log_events_length s log : length (log_events s log) = length log.
Proof. revert s. induction log as [|[ts i] log IH]; intros s; cbn; [done|]. by rewrite IH. Qed.

Lemma log_events_snoc s log ts input :
  log_events s (log ++ [(ts, input)]) =
  log_events s log ++ [event_of (s + Z.of_nat (length log)) ts input].
Proof.
  revert s. induction log as [|[ts' i] log IH]; intros s; cbn.
  - by rewrite Z.add_0_r.
  - rewrite IH. do 4 f_equal. lia.
Qed.

Lemma log_events_seq s log i e :
  log_events s log !! i = Some e -> ev_seq e = s + Z.of_nat i.
Proof.
  revert s i. induction log as [|[ts input] log IH]; intros s i H; [done|].
  destruct i as [|i]; cbn in H.
  - injection H as <-. cbn. lia.
  - apply IH in H. lia.
Qed.

(** ** The ring holds the end of the log *)

Abbreviation CAP := SI_ACTION_EVENT_CAPACITY (only parsing).

Record represents (b : si_action_event_buffer_t) (log : list entry) : Prop := {
  rep_length : length (events b) = CAP;
  rep_count : count b = Nat.min (length log) CAP;
  rep_latest : latest_seq b = Z.of_nat (length log);
  rep_dropped : dropped b = Z.of_nat (length log - CAP);
  rep_ring : exists head, (head < CAP)%nat /\
    write_pos b = ((head + count b) mod CAP)%nat /\
    ring_list CAP (events b) head (count b) = drop (length log - CAP) (log_events 1 log)
}.

Lemma represents_init : represents si_action_event_buffer_init [].
Proof.
  constructor; try done. exists 0%nat. split; [unfold SI_ACTION_EVENT_CAPACITY; lia|]. done.
Qed.

Lemma cap_pos : (0 < CAP)%nat.
Proof. unfold SI_ACTION_EVENT_CAPACITY. lia. Qed.

Lemma drop_snoc_full {A} (l : list A) x n :
  (n < length l)%nat -> tail (drop n l) ++ [x] = drop (S n) (l ++ [x]).
Proof.
  intros Hn. rewrite drop_app_le by lia. f_equal.
  revert n Hn. induction l as [|y l IH]; intros [|n] Hn; cbn in *; try lia; [done|].
  rewrite IH by lia. done.
Qed.

Lemma represents_append b log ts input :
  represents b log -> input_valid input = true ->
  Z.of_nat (length log) < UINT32_MAX ->
  represents (si_action_event_buffer_append b ts (Some input)).2 (log ++ [(ts, input)]).
Proof.
  intros [Hl Hc Hs Hd (head & Hh & Hw & Hr)] Hv Hn.
  unfold si_action_event_buffer_append. rewrite Hv. cbn [negb snd].
  assert (Hseq : (if u32 (latest_seq b + 1) =? 0 then 1 else u32 (latest_seq b + 1))
                 = Z.of_nat (length log) + 1).
  { pose proof (bump_small (latest_seq b)) as E. unfold bump in E. rewrite E; lia. }
  rewrite Hseq. set (event := event_of _ _ _).
  assert (Hwm : (write_pos b mod CAP)%nat = ((head + count b) mod CAP)%nat)
    by (rewrite Hw; apply Nat.Div0.mod_mod).
  assert (Hev : log_events 1 (log ++ [(ts, input)]) = log_events 1 log ++ [event])
    by (by rewrite log_events_snoc, Z.add_comm).
  pose proof cap_pos as Hcap.
  destruct (Nat.ltb_spec (count b) CAP) as [Hlt|Hge]; cbn [negb].
  - assert (Hsmall : (length log < CAP)%nat) by lia.
    constructor; cbn [events latest_seq count write_pos dropped].
    + by rewrite length_insert.
    + rewrite length_app. cbn [length]. lia.
    + rewrite length_app. cbn [length]. lia.
    + rewrite Hd, length_app. cbn [length]. lia.
    + exists head. split; [done|]. split.
      * rewrite Hw, Nat.Div0.add_mod_idemp_l. f_equal. lia.
      * rewrite Hwm, Hev, ring_list_push by done.
        rewrite Hr, length_app. cbn [length].
        replace (length log + 1 - CAP)%nat with 0%nat by lia.
        by replace (length log - CAP)%nat with 0%nat by lia.
  - assert (Hbig : (CAP <= length log)%nat) by lia.
    assert (Hcc : count b = CAP) by lia. rewrite Hcc in *.
    assert (Hwh : (write_pos b mod CAP)%nat = head).
    { rewrite Hwm. rewrite <- (Nat.mul_1_l CAP) at 1. rewrite Nat.Div0.mod_add.
      by apply Nat.mod_small. }
    constructor; cbn [events latest_seq count write_pos dropped].
    + by rewrite length_insert.
    + rewrite length_app. cbn [length]. lia.
    + rewrite length_app. cbn [length]. lia.
    + rewrite Hd, length_app, u32_small by (unfold is_u32, UINT32_MAX in *; lia). cbn [length]. lia.
    + exists ((head + 1) mod CAP)%nat. split; [apply Nat.mod_upper_bound; lia|]. split.
      * rewrite Hw, !Nat.Div0.add_mod_idemp_l. f_equal. lia.
      * rewrite Hwh, Hev, ring_list_overwrite by done. rewrite Hr, length_app. cbn [length].
        rewrite drop_snoc_full by (rewrite log_events_length; unfold SI_ACTION_EVENT_CAPACITY in *; lia).
        f_equal. lia.
Qed.

Lemma represents_all log :
  log_valid log -> Z.of_nat (length log) <= UINT32_MAX -> represents (append_all log) log.
Proof.
  induction log as [|[ts input] log IH] using rev_ind; intros Hv Hn; [apply represents_init|].
  apply Forall_app in Hv as [Hv Hi]. apply Forall_cons in Hi as [Hi _].
  rewrite length_app in Hn. cbn [length] in Hn.
  unfold append_all. rewrite fold_left_app. apply represents_append; [|done|lia].
  apply IH; [done|lia].
Qed.

(** The event buffer refines an append-only log. After appending any list of
    fewer than [2^32] valid events, the ring holds exactly the last 64 of them,
    oldest first, numbered from 1 in order of arrival, and counts the ones it
    dropped; an invalid event is refused and changes nothing. *)
Theorem event_buffer_refines_log log bad ts :
  log_valid log -> Z.of_nat (length log) <= UINT32_MAX ->
  let b := append_all log in
  (exists head, write_pos b = ((head + count b) mod SI_ACTION_EVENT_CAPACITY)%nat /\
     ring_list SI_ACTION_EVENT_CAPACITY (events b) head (count b) =
       drop (length log - 64) (log_events 1 log)) /\
  count b = Nat.min (length log) 64 /\
  latest_seq b = Z.of_nat (length log) /\
  dropped b = Z.of_nat (length log - 64) /\
  (ptr_test input_valid bad = false ->
   si_action_event_buffer_append b ts bad = (false, None, b)).
Proof.
  intros Hv Hn b.
  destruct (represents_all log Hv Hn) as [Hl Hc Hs Hd (head & _ & Hw & Hr)].
  split_and!; [by exists head | done | done | done |].
  intros Hbad. destruct bad as [input|]; [|done]. cbn in Hbad.
  unfold si_action_event_buffer_append. by rewrite Hbad.
Qed.

Definition demo_input : si_action_event_input_t :=
  mk_event_input (Some (cstr "run")) None 2 3 4 (Some (cstr "output")) false true.

Definition demo_log (n : nat) : list entry := replicate n (7, demo_input).

Lemma event_buffer_refines_log_witness :
  let b := append_all (demo_log 70) in
  count b = 64%nat /\ latest_seq b = 70 /\ dropped b = 6.
Proof.
  destruct (event_buffer_refines_log (demo_log 70) None 0) as (_ & Hc & Hs & Hd & _).
  - refine (bool_decide_eq_true_1 _ _); vm_compute; reflexivity.
  - vm_compute. discriminate.
  - split; [exact Hc|]. split; [exact Hs | exact Hd].
Defined.

(** ** Reading *)

Lemma read_loop_spec evs start i n after room :
  read_loop evs start i n after room =
  take room (filter (fun e => after < ev_seq e)
               ((fun j => ring_at CAP evs start j) <$> seq i n)).
Proof.
  revert i room. induction n as [|n IH]; intros i room; [by destruct room|].
  destruct room as [|room]; [done|]. cbn [read_loop seq fmap list_fmap].
  change (evs !!! ((start + i) mod CAP)%nat) with (ring_at CAP evs start i).
  destruct (Z.leb_spec (ev_seq (ring_at CAP evs start i)) after) as [Hle|Hgt].
  - rewrite filter_cons_False by lia. apply IH.
  - rewrite filter_cons_True by lia. cbn [take]. by rewrite IH.
Qed.

(** Events with consecutive numbers. *)
Definition numbered (s : Z) (l : list si_action_event_t) : Prop :=
  forall i e, l !! i = Some e -> ev_seq e = s + Z.of_nat i.

Lemma numbered_tail s e l : numbered s (e :: l) -> ev_seq e = s /\ numbered (s + 1) l.
Proof.
  intros H. split.
  - specialize (H 0%nat e eq_refl). lia.
  - intros i x Hx. specialize (H (S i) x Hx). lia.
Qed.

Lemma filter_numbered s l after :
  numbered s l ->
  filter (fun e => after < ev_seq e) l = drop (Z.to_nat (after + 1 - s)) l.
Proof.
  revert s. induction l as [|e l IH]; intros s H; [by destruct (Z.to_nat _)|].
  apply numbered_tail in H as [He H]. destruct (decide (after < ev_seq e)) as [Hlt|Hge].
  - rewrite filter_cons_True, (IH (s + 1)) by done.
    replace (Z.to_nat (after + 1 - s)) with 0%nat by lia.
    by replace (Z.to_nat (after + 1 - (s + 1))) with 0%nat by lia.
  - rewrite filter_cons_False, (IH (s + 1)) by done.
    replace (Z.to_nat (after + 1 - s)) with (S (Z.to_nat (after + 1 - (s + 1)))) by lia.
    done.
Qed.

Lemma numbered_log k log : numbered (1 + Z.of_nat k) (drop k (log_events 1 log)).
Proof.
  intros i e H. rewrite lookup_drop in H. apply log_events_seq in H. lia.
Qed.

Lemma represents_start b log :
  represents b log ->
  exists head, (head < CAP)%nat /\
    ((write_pos b + CAP - count b) mod CAP)%nat = head /\
    ring_list CAP (events b) head (count b) = drop (length log - CAP) (log_events 1 log).
Proof.
  intros [Hl Hc _ _ (head & Hh & Hw & Hr)]. exists head. split_and!; [done | | done].
  pose proof cap_pos as Hcap. rewrite Hw.
  replace ((head + count b) mod CAP + CAP - count b)%nat
    with ((head + count b) mod CAP + (CAP - count b))%nat by lia.
  rewrite Nat.Div0.add_mod_idemp_l.
  replace (head + count b + (CAP - count b))%nat with (head + 1 * CAP)%nat by lia.
  rewrite Nat.Div0.mod_add. by apply Nat.mod_small.
Qed.

(** A read returns exactly the events after the reader's position that are
    still held, oldest first, as many as fit; it reports lost history exactly
    when a reader that has a position missed an event that was dropped. A reader
    with room and no lost history gets every event it has not seen. *)
Theorem read_after_exact log after_seq room :
  log_valid log -> Z.of_nat (length log) <= UINT32_MAX -> 0 <= after_seq ->
  (0 < room)%nat ->
  let '(evs, latest, lost) :=
    si_action_event_buffer_read_after (append_all log) after_seq room in
  evs = take room (drop (Nat.max (Z.to_nat after_seq) (length log - 64)) (log_events 1 log)) /\
  latest = Z.of_nat (length log) /\
  (lost = true <-> after_seq <> 0 /\ after_seq < Z.of_nat (length log - 64)) /\
  (lost = false -> after_seq <> 0 -> (64 <= room)%nat ->
   evs = drop (Z.to_nat after_seq) (log_events 1 log)).
Proof.
  intros Hv Hn Ha Hroom. pose proof (represents_all log Hv Hn) as Hrep.
  destruct (represents_start _ _ Hrep) as (head & Hh & Hstart & Hr).
  destruct Hrep as [Hl Hc Hs _ _]. set (b := append_all log) in *.
  unfold si_action_event_buffer_read_after. rewrite Hstart.
  assert (Hlen : length (log_events 1 log) = length log) by apply log_events_length.
  case_if.
  { apply orb_true_iff in Heqb0 as [E|E]; apply Nat.eqb_eq in E; [lia|].
    assert (length log = 0%nat) as E0 by (unfold SI_ACTION_EVENT_CAPACITY in *; lia).
    destruct log; [|done]. cbn. rewrite drop_nil, take_nil. split_and!; [done | done | lia |].
    intros. by rewrite drop_nil. }
  apply orb_false_elim in Heqb0 as [_ Hnz]. apply Nat.eqb_neq in Hnz.
  assert (Hevs : read_loop (events b) head 0 (count b) after_seq room =
    take room (drop (Nat.max (Z.to_nat after_seq) (length log - 64)) (log_events 1 log))).
  { rewrite read_loop_spec.
    change ((fun j => ring_at CAP (events b) head j) <$> seq 0 (count b))
      with (ring_list CAP (events b) head (count b)).
    rewrite Hr, (filter_numbered _ _ _ (numbered_log _ _)), drop_drop.
    do 2 f_equal. unfold SI_ACTION_EVENT_CAPACITY. lia. }
  assert (Hold : ev_seq (events b !!! head) = 1 + Z.of_nat (length log - 64)).
  { pose proof (ring_list_lookup CAP (events b) head (count b) 0 ltac:(lia)) as H0.
    rewrite Hr in H0. apply (numbered_log _ _ 0%nat) in H0. unfold ring_at in H0.
    rewrite Nat.add_0_r, Nat.mod_small in H0 by done.
    unfold SI_ACTION_EVENT_CAPACITY in H0. lia. }
  rewrite Hold, Hs, Hevs. split_and!; [done | done | |].
  - rewrite !andb_true_iff, negb_true_iff, Z.eqb_neq, !Z.ltb_lt. lia.
  - intros Hlost Hnz' Hbig.
    assert (Hm : (length log - 64 <= Z.to_nat after_seq)%nat).
    { apply not_true_iff_false in Hlost. rewrite !andb_true_iff, negb_true_iff, Z.eqb_neq,
        !Z.ltb_lt in Hlost. lia. }
    rewrite Nat.max_l by done. apply take_ge. rewrite length_drop, Hlen. lia.
Qed.

Lemma read_after_exact_witness :
  (si_action_event_buffer_read_after (append_all (demo_log 70)) 68 64).1.1 =
  drop 68 (log_events 1 (demo_log 70)).
Proof.
  pose proof (read_after_exact (demo_log 70) 68 64) as H.
  destruct (si_action_event_buffer_read_after (append_all (demo_log 70)) 68 64)
    as [[evs latest] lost] eqn:E.
  destruct H as (He & _ & _ & Hall);
    [refine (bool_decide_eq_true_1 _ _); vm_compute; reflexivity | vm_compute; discriminate
    | lia | lia |].
  cbn [fst]. apply Hall; [| lia | lia].
  apply (f_equal snd) in E. cbn [snd] in E. rewrite <- E. by_eval.
Defined.
