(* ===== verification/EchoRedact.v ===== *)
(** * Echo redaction: [core/echo_redact.c]

    The filter that masks a secret echoed by a terminal: a Knuth-Morris-Pratt
    matcher that holds back the part of the output that may still turn out to be
    the secret.

    [secret] and [fail] are the arrays of the structure.  The two [while] loops
    follow the failure links; their fuel is the state they start from, which
    every link decreases. *)

From S2P Require Import Prelude.

Definition SI_ECHO_REDACT_MAX : nat := 128.

Record si_echo_redact_t := mk_redact {
  secret : list Z;
  fail : list nat;
  len : nat;
  state : nat
}.

#[export] Instance eta_redact : Settable si_echo_redact_t := fun r =>
  mk_redact (secret r) (fail r) (len r) (state r).

(** [wipe] clears the whole structure. *)
Definition si_echo_redact_disarm : si_echo_redact_t :=
  mk_redact (replicate SI_ECHO_REDACT_MAX 0) (replicate SI_ECHO_REDACT_MAX 0%nat) 0 0.

(** [while (k > 0 && secret[k] != c) k = fail[k - 1];] *)
Fixpoint fall_back (fuel : nat) (secret : list Z) (fail : list nat) (k : nat) (c : Z) : nat :=
  match fuel with
  | O => k
  | S fuel =>
      if (0 <? k)%nat && negb (secret !!! k =? c)
      then fall_back fuel secret fail (fail !!! (k - 1)%nat) c
      else k
  end.

(** The longest match after one more byte. *)
Definition advance (secret : list Z) (fail : list nat) (k : nat) (c : Z) : nat :=
  let k := fall_back k secret fail k c in
  if secret !!! k =? c then S k else k.

(** The loop of [si_echo_redact_arm] from index [i], with [n] indices left. *)
Fixpoint arm_loop (n i k : nat) (secret : list Z) (fail : list nat) : list nat :=
  match n with
  | O => fail
  | S n =>
      let k := advance secret fail k (secret !!! i) in
      arm_loop n (S i) k secret (<[i := k]> fail)
  end.

Definition si_echo_redact_arm (bytes : option (list Z)) (n : nat) : si_echo_redact_t :=
  match bytes with
  | None => si_echo_redact_disarm
  | Some bytes =>
      return_if (n =? 0)%nat || (SI_ECHO_REDACT_MAX <? n)%nat with si_echo_redact_disarm ;;
      let secret := take n bytes ++ drop n (secret si_echo_redact_disarm) in
      let fail := <[0%nat := 0%nat]> (fail si_echo_redact_disarm) in
      mk_redact secret (arm_loop (n - 1) 1 0 secret fail) n 0
  end.

Definition si_echo_redact_armed (redact : si_echo_redact_t) : bool := (0 <? len redact)%nat.

(** One byte: the bytes released and the new state. *)
Definition feed_byte (redact : si_echo_redact_t) (c : Z) : list Z * si_echo_redact_t :=
  let held := state redact in
  let next := advance (secret redact) (fail redact) held c in
  return_if (next =? len redact)%nat
    with (replicate (len redact) (ch "*"), redact <| state := 0%nat |>) ;;
  let released := (held + 1 - next)%nat in
  (map (fun k => if (k <? held)%nat then secret redact !!! k else c) (seq 0 released),
   redact <| state := next |>).

Fixpoint feed_bytes (redact : si_echo_redact_t) (input : list Z)
  : list Z * si_echo_redact_t :=
  match input with
  | [] => ([], redact)
  | c :: input =>
      let '(out, redact) := feed_byte redact c in
      let '(rest, redact) := feed_bytes redact input in
      (out ++ rest, redact)
  end.

(** The bytes written to [out], whose number is the value returned. *)
Definition si_echo_redact_feed (redact : si_echo_redact_t) (input : list Z)
  : list Z * si_echo_redact_t :=
  return_if (length input =? 0)%nat with ([], redact) ;;
  return_if negb (si_echo_redact_armed redact) with (input, redact) ;;
  feed_bytes redact input.

Definition si_echo_redact_flush (redact : si_echo_redact_t) : list Z * si_echo_redact_t :=
  return_if negb (si_echo_redact_armed redact) with ([], redact) ;;
  (replicate (state redact) (ch "*"), redact <| state := 0%nat |>).
