(* ===== verification/EchoRedactProps.v ===== *)
(** * Echo redaction: properties

    The matcher is equivalent to a reference scanner that looks for the secret
    at the end of everything read since the last match, and what it releases
    never contains the secret. *)

From S2P Require Import Prelude EchoRedact.

Section matcher.
Context (p : list Z).
Abbreviation m := (length p).

(** The last [k] bytes of [w] are the first [k] bytes of the secret. *)
Record matches (w : list Z) (k : nat) : Prop := mk_matches {
  matches_le : (k <= length w)%nat;
  matches_len : (k <= m)%nat;
  matches_eq : drop (length w - k) w = take k p
}.

Lemma matches_0 w : matches w 0.
Proof. split; [lia | lia |]. rewrite Nat.sub_0_r, drop_all. done. Qed.

Lemma matches_snoc w c k :
  matches (w ++ [c]) (S k) <-> matches w k /\ p !! k = Some c.
Proof.
  assert (E : length (w ++ [c]) = S (length w)) by (rewrite length_app; cbn; lia). split.
  - intros [H1 H2 H3]. rewrite E in *.
    rewrite drop_app_le in H3 by lia.
    destruct (lookup_lt_is_Some_2 p k) as [x Hx]; [lia|].
    rewrite (take_S_r _ _ _ Hx) in H3. apply app_inj_2 in H3 as [H3 [= <-]]; [|done].
    split; [|done]. split; [lia | lia | exact H3].
  - intros ([H1 H2 H3] & Hx). apply lookup_lt_Some in Hx as Hlt.
    split; rewrite ?E; [lia | lia |]. rewrite drop_app_le by lia.
    rewrite (take_S_r _ _ _ Hx), <- H3. done.
Qed.

(** Shorter matches of [w] are matches of the longest one's prefix. *)
Lemma matches_shrink w h k :
  matches w h -> (k <= h)%nat -> matches w k <-> matches (take h p) k.
Proof.
  intros [H1 H2 H3] Hk. assert (Hl : length (take h p) = h) by (rewrite length_take; lia).
  assert (Hd : drop (length (take h p) - k) (take h p) = drop (length w - k) w).
  { rewrite <- H3 at 2. rewrite drop_drop, Hl. f_equal. lia. }
  split; intros [K1 K2 K3]; (split; [lia | lia | congruence]).
Qed.

(** [k] is the longest match of [w] below [bound]. *)
Record longest (w : list Z) (bound k : nat) : Prop := mk_longest {
  longest_match : matches w k;
  longest_lt : (k < bound)%nat;
  longest_max : forall k', (k' < bound)%nat -> matches w k' -> (k' <= k)%nat
}.

(** The failure table is right up to length [n]: entry [i - 1] is the longest
    proper border of the first [i] bytes. *)
Definition fail_ok (f : list nat) (n : nat) : Prop :=
  forall i, (1 <= i <= n)%nat -> longest (take i p) i (f !!! (i - 1)%nat).

Definition at_ (s : list Z) : Prop := forall k, (k < m)%nat -> p !! k = Some (s !!! k).

Lemma fall_back_spec s f w n k c fuel :
  at_ s -> fail_ok f n -> (k <= n)%nat -> (k < m)%nat -> (k <= fuel)%nat -> matches w k ->
  let k' := fall_back fuel s f k c in
  matches w k' /\ (k' <= k)%nat /\ (k' = 0%nat \/ p !! k' = Some c) /\
  forall j, (j <= k)%nat -> matches w j -> p !! j = Some c -> (j <= k')%nat.
Proof.
  intros Hs Hf. revert k. induction fuel as [|fuel IH]; intros k Hn Hm Hfu Hw;
    cbv zeta; cbn [fall_back].
  { assert (k = 0%nat) as -> by lia. split_and!; [done | lia | by left | intros; lia]. }
  destruct (Nat.ltb_spec 0 k) as [Hk|Hk]; cbn [andb].
  2: { split_and!; [done | lia | left; lia | intros; lia]. }
  destruct (Z.eqb_spec (s !!! k) c) as [E|E]; cbn [negb].
  { split_and!; [done | lia | right; by rewrite (Hs k Hm), E | intros; lia]. }
  destruct (Hf k ltac:(lia)) as [Hb Hlt Hmax].
  set (b := f !!! (k - 1)%nat) in *.
  assert (Hwb : matches w b) by (apply (matches_shrink w k b Hw ltac:(lia)); done).
  destruct (IH b) as (H1 & H2 & H3 & H4); try lia; [done|].
  split_and!; [done | lia | done |].
  intros j Hj Hwj Hpj. apply H4; [|done|done].
  destruct (decide (j = k)) as [->|Hne].
  - rewrite (Hs k Hm) in Hpj. congruence.
  - apply Hmax; [lia|]. by apply (matches_shrink w k j Hw ltac:(lia)).
Qed.

(** One step of the matcher keeps the longest match. *)
Lemma advance_spec s f w n k c bound :
  at_ s -> fail_ok f n -> (k <= n)%nat -> (bound <= m)%nat -> longest w bound k ->
  longest (w ++ [c]) (S bound) (advance s f k c).
Proof.
  intros Hs Hf Hn Hbm [Hw Hb Hmax]. unfold advance.
  destruct (fall_back_spec s f w n k c k Hs Hf Hn ltac:(lia) ltac:(lia) Hw)
    as (H1 & H2 & H3 & H4).
  set (k' := fall_back k s f k c) in *. assert (Hk' : (k' < m)%nat) by lia.
  assert (Hup : forall j, (j < S bound)%nat -> matches (w ++ [c]) j -> (j <= S k')%nat /\
            (p !! k' <> Some c -> (j <= k')%nat)).
  { intros [|j] Hj Hm; [lia|]. apply matches_snoc in Hm as [Hm Hc].
    assert (Hjk : (j <= k')%nat) by (apply H4; [|done|done]; apply Hmax; [lia|done]).
    split; [lia|]. intros Hne. destruct (decide (j = k')) as [->|]; [done|lia]. }
  destruct (Z.eqb_spec (s !!! k') c) as [E|E].
  - split; [|lia|].
    + apply matches_snoc. split; [done|]. by rewrite (Hs k' Hk'), E.
    + intros j Hj Hm. by apply Hup.
  - assert (Hne : p !! k' <> Some c) by (rewrite (Hs k' Hk'); congruence).
    destruct H3 as [E0|]; [|done]. rewrite E0. split; [apply matches_0 | lia |].
    intros j Hj Hm. rewrite E0 in *. by apply Hup.
Qed.

(** ** The failure table *)

Lemma arm_loop_spec s n i k f :
  at_ s -> (1 <= i)%nat -> (i + n = m)%nat -> (m <= length f)%nat ->
  fail_ok f i -> longest (take i p) i k -> fail_ok (arm_loop n i k s f) m.
Proof.
  intros Hs. revert i k f. induction n as [|n IH]; intros i k f Hi Hn Hl Hf Hk; cbn [arm_loop].
  - by replace m with i by lia.
  - assert (Hpi : p !! i = Some (s !!! i)) by (apply Hs; lia).
    assert (Hnew : longest (take (S i) p) (S i) (advance s f k (s !!! i))).
    { rewrite (take_S_r _ _ _ Hpi).
      apply (advance_spec s f _ i); [done | done | | lia | done].
      apply longest_lt in Hk. lia. }
    set (k' := advance s f k (s !!! i)) in *.
    apply IH; [lia | lia | by rewrite length_insert | | done].
    intros j Hj. destruct (decide (j = S i)) as [->|Hne].
    + replace (S i - 1)%nat with i by lia.
      by rewrite list_lookup_total_insert_eq by lia.
    + rewrite list_lookup_total_insert_ne by lia. apply Hf. lia.
Qed.

(** ** The running matcher *)

(** The matcher after reading [w] since the last match. *)
Record redact_inv (r : si_echo_redact_t) (w : list Z) : Prop := mk_inv {
  inv_len : len r = m;
  inv_at : at_ (secret r);
  inv_fail : fail_ok (fail r) m;
  inv_state : longest w m (state r)
}.

(** The reference: look for the secret at the end of what came since the last
    match. *)
Definition scan_byte (st : list Z * list Z) (c : Z) : list Z * list Z :=
  let '(done_, w) := st in
  let w := w ++ [c] in
  if bool_decide (m <= length w)%nat && bool_decide (drop (length w - m) w = p)
  then (done_ ++ take (length w - m) w ++ replicate m (ch "*"), [])
  else (done_, w).

Definition scan (input : list Z) : list Z * list Z := fold_left scan_byte input ([], []).

Lemma released_bytes s h c n :
  at_ s -> (h < m)%nat -> (n <= S h)%nat ->
  map (fun k => if (k <? h)%nat then s !!! k else c) (seq 0 n) = take n (take h p ++ [c]).
Proof.
  intros Hs Hh Hn. assert (Hlt : length (take h p) = h) by (rewrite length_take; lia).
  apply list_eq. intros i. destruct (decide (i < n)%nat) as [Hi|Hi].
  - rewrite lookup_take_lt by done.
    match goal with |- context [map ?f ?l] => change (map f l) with (f <$> l) end.
    rewrite list_lookup_fmap, lookup_seq_lt by done. cbn [fmap option_fmap option_map].
    rewrite Nat.add_0_l. destruct (Nat.ltb_spec i h) as [Hih|Hih].
    + rewrite lookup_app_l by lia. rewrite lookup_take_lt by done.
      symmetry. apply Hs. lia.
    + rewrite lookup_app_r by lia. by replace (i - length (take h p))%nat with 0%nat by lia.
  - rewrite !lookup_ge_None_2; [done | |].
    + rewrite length_take. lia.
    + rewrite length_map, length_seq. lia.
Qed.

Lemma matches_all w : matches w m <-> (m <= length w)%nat /\ drop (length w - m) w = p.
Proof.
  split.
  - intros [H1 _ H3]. by rewrite take_ge in H3.
  - intros [H1 H3]. split; [done | done |]. by rewrite take_ge.
Qed.

Lemma feed_byte_spec r w D c :
  (0 < m)%nat -> redact_inv r w ->
  let '(out, r') := feed_byte r c in
  let '(D', w') := scan_byte (D, w) c in
  redact_inv r' w' /\
  D ++ take (length w - state r) w ++ out = D' ++ take (length w' - state r') w'.
Proof.
  intros Hm [Hlen Hat Hfail Hst].
  pose proof (advance_spec (secret r) (fail r) w m (state r) c m Hat Hfail) as Ha.
  pose proof Hst as [Hmw Hlt Hmax]. specialize (Ha ltac:(lia) ltac:(lia) Hst).
  unfold feed_byte. rewrite Hlen. set (next := advance _ _ _ _) in *.
  destruct Ha as [Hnm Hnl Hnmax]. cbn [scan_byte].
  assert (Hl1 : length (w ++ [c]) = S (length w)) by (rewrite length_app; cbn; lia).
  destruct (Nat.eqb_spec next m) as [E|E].
  - rewrite E in Hnm. apply matches_all in Hnm as [H1 H2].
    rewrite !bool_decide_eq_true_2 by done. cbn [andb]. split.
    { split; [done | done | done |]. split; [apply matches_0 | cbn; lia |].
      intros k' _ [Hk _ _]. cbn in Hk. cbn. lia. }
    assert (Hs : (m - 1 <= state r)%nat).
    { apply Hmax; [lia|]. apply (matches_snoc w c).
      replace (S (m - 1)) with m by lia. by apply matches_all. }
    cbn [length take]. rewrite take_nil, app_nil_r, Hl1, take_app_le by lia.
    do 3 f_equal. lia.
  - assert (Hno : ~ matches (w ++ [c]) m) by (intros Hm'; apply Hnmax in Hm'; lia).
    replace (bool_decide (m <= length (w ++ [c]))%nat && _) with false.
    2: { symmetry. apply not_true_iff_false. intros [H1 H2]%andb_true_iff.
         apply Hno, matches_all. by rewrite !bool_decide_eq_true in *. }
    split.
    { split; [done | done | done |]. split; [done | cbn; lia |].
      intros k' Hk'. apply Hnmax. lia. }
    assert (Hns : (next <= S (state r))%nat).
    { destruct next as [|k]; [lia|]. apply matches_snoc in Hnm as [Hk _].
      apply Hmax in Hk; lia. }
    change (state (set state _ r)) with next.
    rewrite (released_bytes (secret r) (state r) c) by (done || lia). f_equal.
    pose proof Hmw as [Hle _ Heq]. rewrite <- Heq, Hl1.
    pose proof (take_drop (length w - state r) w) as Hw.
    replace (w ++ [c]) with ((take (length w - state r) w ++ drop (length w - state r) w) ++ [c])
      by (by rewrite Hw).
    rewrite <- app_assoc, (take_app_ge (take (length w - state r) w)) by (rewrite length_take; lia).
    do 2 f_equal. rewrite length_take. destruct Hnm as [Hnn _ _]. rewrite Hl1 in Hnn. lia.
Qed.

Lemma feed_bytes_spec input r w D :
  (0 < m)%nat -> redact_inv r w ->
  let '(out, r') := feed_bytes r input in
  let '(D', w') := fold_left scan_byte input (D, w) in
  redact_inv r' w' /\
  D ++ take (length w - state r) w ++ out = D' ++ take (length w' - state r') w'.
Proof.
  intros Hm. revert r w D. induction input as [|c input IH]; intros r w D Hinv; cbn [feed_bytes fold_left].
  { by rewrite app_nil_r. }
  pose proof (feed_byte_spec r w D c Hm Hinv) as Hs.
  destruct (feed_byte r c) as [out r1]. destruct (scan_byte (D, w) c) as [D1 w1].
  destruct Hs as [Hinv1 E1]. pose proof (IH r1 w1 D1 Hinv1) as H2.
  destruct (feed_bytes r1 input) as [rest r2]. destruct (fold_left scan_byte input (D1, w1)) as [D2 w2].
  destruct H2 as [Hinv2 E2]. split; [done|].
  rewrite <- E2, app_assoc, app_assoc. rewrite <- (app_assoc D), E1. by rewrite app_assoc.
Qed.

(** ** The reference never lets the secret through *)

Definition contains (l : list Z) : Prop := exists a b, l = a ++ p ++ b.

Lemma contains_snoc l c :
  contains (l ++ [c]) -> contains l \/ exists a, l ++ [c] = a ++ p.
Proof.
  intros (a & b & E). destruct b as [|x b _] using rev_ind.
  - right. exists a. by rewrite app_nil_r in E.
  - left. rewrite !app_assoc in E. apply app_inj_2 in E as [-> _]; [|done].
    exists a, b. by rewrite app_assoc.
Qed.

Lemma contains_prefix l k : contains l -> contains (l ++ k).
Proof. intros (a & b & ->). exists a, (b ++ k). by rewrite <- !app_assoc. Qed.

Lemma contains_stars l n : (0 < m)%nat -> ch "*" ∉ p -> contains (l ++ replicate n (ch "*")) -> contains l.
Proof.
  intros Hm Hp. induction n as [|n IH]; cbn [replicate]; [by rewrite app_nil_r|].
  rewrite replicate_cons_app, app_assoc. intros H.
  apply contains_snoc in H as [H|(a & E)]; [by apply IH|].
  destruct p as [|x q _] using rev_ind; [cbn in Hm; lia|].
  rewrite app_assoc in E. apply app_inj_2 in E as [_ [= <-]]; [|done].
  exfalso. apply Hp, elem_of_app. right. by apply list_elem_of_singleton.
Qed.

Definition masked (D : list Z) : Prop := D = [] \/ exists u, D = u ++ [ch "*"].

(** The secret at the end of everything is the secret at the end of [w]: it
    cannot reach back into the mask. *)
Lemma suffix_in_tail D w a :
  ch "*" ∉ p -> masked D -> D ++ w = a ++ p -> (m <= length w)%nat /\ drop (length w - m) w = p.
Proof.
  intros Hp HD E. apply app_eq_inv in E as [(k & E1 & E2)|(k & _ & ->)].
  - destruct k as [|x k _] using rev_ind.
    + cbn in E2. subst w. rewrite Nat.sub_diag. done.
    + exfalso. destruct HD as [->|[u ->]].
      { symmetry in E1. apply app_nil in E1 as [_ E1]. by apply app_nil in E1 as [_ ?]. }
      rewrite app_assoc in E1. apply app_inj_2 in E1 as [_ [= <-]]; [|done].
      apply Hp. rewrite E2. apply elem_of_app. left.
      apply elem_of_app. right. by apply list_elem_of_singleton.
  - rewrite length_app. split; [lia|].
    replace (length k + m - m)%nat with (length k) by lia. apply drop_app_length.
Qed.

Lemma scan_byte_clean D w c :
  (0 < m)%nat -> ch "*" ∉ p -> masked D -> ~ contains (D ++ w) ->
  let '(D', w') := scan_byte (D, w) c in masked D' /\ ~ contains (D' ++ w').
Proof.
  intros Hm Hp HD Hc. cbn [scan_byte].
  destruct (bool_decide (m <= length (w ++ [c]))%nat && _) eqn:Hmatch.
  - apply andb_true_iff in Hmatch as [H1 _]. apply bool_decide_eq_true in H1. split.
    + right. exists (D ++ take (length (w ++ [c]) - m) (w ++ [c]) ++ replicate (m - 1) (ch "*")).
      rewrite <- !app_assoc, <- replicate_cons_app, <- replicate_S.
      by replace (S (m - 1)) with m by lia.
    + rewrite app_nil_r, app_assoc. intros H. apply contains_stars in H; [|done|done].
      apply Hc. rewrite take_app_le in H by (rewrite length_app in *; cbn in *; lia).
      apply (contains_prefix _ (drop (length (w ++ [c]) - m) w)) in H.
      by rewrite <- app_assoc, take_drop in H.
  - split; [done|]. rewrite app_assoc. intros H.
    apply contains_snoc in H as [H|(a & E)]; [done|]. rewrite <- app_assoc in E.
    apply (suffix_in_tail D (w ++ [c]) a Hp HD) in E as [H1 H2].
    apply not_true_iff_false in Hmatch. apply Hmatch. rewrite andb_true_iff.
    by rewrite !bool_decide_eq_true.
Qed.

Lemma scan_clean input D w :
  (0 < m)%nat -> ch "*" ∉ p -> masked D -> ~ contains (D ++ w) ->
  let '(D', w') := fold_left scan_byte input (D, w) in ~ contains (D' ++ w').
Proof.
  intros Hm Hp. revert D w. induction input as [|c input IH]; intros D w HD Hc; cbn [fold_left]; [done|].
  pose proof (scan_byte_clean D w c Hm Hp HD Hc) as H.
  destruct (scan_byte (D, w) c) as [D1 w1]. destruct H. by apply IH.
Qed.
End matcher.

(** ** The armed filter *)

Lemma arm_inv bytes n :
  (1 <= n <= SI_ECHO_REDACT_MAX)%nat -> (n <= length bytes)%nat ->
  redact_inv (take n bytes) (si_echo_redact_arm (Some bytes) n) [].
Proof.
  intros Hn Hb. set (p := take n bytes).
  assert (Hp : length p = n) by (apply length_take_le; lia).
  unfold si_echo_redact_arm. case_if.
  { apply orb_true_iff in Heqb as [E|E]; to_props; lia. }
  assert (Hat : at_ p (p ++ drop n (secret si_echo_redact_disarm))).
  { intros k Hk. destruct (lookup_lt_is_Some_2 p k Hk) as [x Hx]. rewrite Hx.
    f_equal. symmetry. apply list_lookup_total_correct. by apply lookup_app_l_Some. }
  split; cbn [len secret fail state]; [done | exact Hat | |].
  - apply arm_loop_spec; [exact Hat | lia | lia | | |].
    + rewrite length_insert. cbn [fail si_echo_redact_disarm]. rewrite length_replicate. lia.
    + intros i Hi. assert (i = 1%nat) as -> by lia.
      change (1 - 1)%nat with 0%nat.
      rewrite list_lookup_total_insert_eq
        by (cbn [fail si_echo_redact_disarm]; rewrite length_replicate; unfold SI_ECHO_REDACT_MAX; lia).
      split; [apply matches_0 | lia | lia].
    + split; [apply matches_0 | lia | lia].
  - split; [apply matches_0 | lia |]. intros k _ [Hk _ _]. cbn in Hk. lia.
Qed.

(** The terminal's output arrives in chunks. *)
Fixpoint feed_chunks (r : si_echo_redact_t) (chunks : list (list Z))
  : list Z * si_echo_redact_t :=
  match chunks with
  | [] => ([], r)
  | c :: cs =>
      let '(out, r) := si_echo_redact_feed r c in
      let '(rest, r) := feed_chunks r cs in
      (out ++ rest, r)
  end.

Lemma feed_spec p r w D input :
  (0 < length p)%nat -> redact_inv p r w ->
  let '(out, r') := si_echo_redact_feed r input in
  let '(D', w') := fold_left (scan_byte p) input (D, w) in
  redact_inv p r' w' /\
  D ++ take (length w - state r) w ++ out = D' ++ take (length w' - state r') w'.
Proof.
  intros Hm Hinv. unfold si_echo_redact_feed.
  destruct (Nat.eqb_spec (length input) 0) as [E|E].
  { destruct input; [|done]. cbn [fold_left]. by rewrite app_nil_r. }
  unfold si_echo_redact_armed. rewrite (inv_len _ _ _ Hinv).
  destruct (Nat.ltb_spec 0 (length p)) as [_|]; [|lia]. cbn [negb].
  by apply feed_bytes_spec.
Qed.

Lemma feed_chunks_spec p chunks r w D :
  (0 < length p)%nat -> redact_inv p r w ->
  let '(out, r') := feed_chunks r chunks in
  let '(D', w') := fold_left (scan_byte p) (concat chunks) (D, w) in
  redact_inv p r' w' /\
  D ++ take (length w - state r) w ++ out = D' ++ take (length w' - state r') w'.
Proof.
  intros Hm. revert r w D. induction chunks as [|c cs IH]; intros r w D Hinv.
  { cbn [feed_chunks concat fold_left]. by rewrite app_nil_r. }
  cbn [feed_chunks concat]. rewrite fold_left_app.
  pose proof (feed_spec p r w D c Hm Hinv) as Hs.
  destruct (si_echo_redact_feed r c) as [out r1].
  destruct (fold_left (scan_byte p) c (D, w)) as [D1 w1]. destruct Hs as [Hinv1 E1].
  pose proof (IH r1 w1 D1 Hinv1) as H2.
  destruct (feed_chunks r1 cs) as [rest r2].
  destruct (fold_left (scan_byte p) (concat cs) (D1, w1)) as [D2 w2].
  destruct H2 as [Hinv2 E2]. split; [done|].
  rewrite <- E2, app_assoc, app_assoc. rewrite <- (app_assoc D), E1. by rewrite app_assoc.
Qed.

(** From arming on, what is out and what is held make up the reference's output. *)
Lemma armed_spec bytes n chunks :
  (1 <= n <= SI_ECHO_REDACT_MAX)%nat -> (n <= length bytes)%nat ->
  let p := take n bytes in
  let '(out, r) := feed_chunks (si_echo_redact_arm (Some bytes) n) chunks in
  let '(D, w) := scan p (concat chunks) in
  redact_inv p r w /\ out ++ take (state r) p = D ++ w /\ length p = n.
Proof.
  intros Hn Hb p. assert (Hp : length p = n) by (apply length_take_le; lia).
  pose proof (feed_chunks_spec p chunks _ [] [] ltac:(lia) (arm_inv bytes n Hn Hb)) as H.
  unfold scan. destruct (feed_chunks _ chunks) as [out r].
  destruct (fold_left _ (concat chunks) _) as [D w]. destruct H as [Hinv E].
  cbn [app length] in E. rewrite take_nil in E. cbn [app] in E.
  split_and!; [done | | done]. rewrite E, <- app_assoc. f_equal.
  destruct (longest_match _ _ _ _ (inv_state _ _ _ Hinv)) as [_ _ <-]. apply take_drop.
Qed.

Lemma scan_length p input D w :
  length ((fold_left (scan_byte p) input (D, w)).1 ++ (fold_left (scan_byte p) input (D, w)).2)
  = (length D + length w + length input)%nat.
Proof.
  revert D w. induction input as [|c input IH]; intros D w.
  - cbn. rewrite length_app. lia.
  - cbn [fold_left]. destruct (scan_byte p (D, w) c) as [D1 w1] eqn:E. rewrite IH.
    assert (Hl : (length D1 + length w1 = length D + length w + 1)%nat); [|cbn [length]; lia].
    cbn [scan_byte] in E. destruct (bool_decide (length p <= _)%nat && _) eqn:Hm.
    + apply andb_true_iff in Hm as [H1 _]. apply bool_decide_eq_true in H1.
      injection E as <- <-. rewrite !length_app, length_take, length_replicate.
      rewrite length_app in *. cbn [length] in *. lia.
    + injection E as <- <-. rewrite length_app. cbn [length]. lia.
Qed.

(** C18: the matcher is the reference scanner. However the output arrives, what
    has been released followed by the held part of the secret is what the naive
    scanner makes of the whole input: each occurrence of the secret, found left
    to right, replaced by as many asterisks, all other bytes unchanged. So the
    result does not depend on the chunking, fewer bytes than the secret has are
    held, and exactly the rest of the input's length has been written. *)
Theorem feed_equals_reference bytes n chunks :
  (1 <= n <= SI_ECHO_REDACT_MAX)%nat -> (n <= length bytes)%nat ->
  let '(out, r) := feed_chunks (si_echo_redact_arm (Some bytes) n) chunks in
  let '(D, w) := scan (take n bytes) (concat chunks) in
  out ++ take (state r) (take n bytes) = D ++ w /\ (state r < n)%nat /\
  (length out + state r = length (concat chunks))%nat.
Proof.
  intros Hn Hb. pose proof (armed_spec bytes n chunks Hn Hb) as H. cbv zeta in H.
  pose proof (scan_length (take n bytes) (concat chunks) [] []) as Hl.
  destruct (feed_chunks _ chunks) as [out r]. unfold scan in *.
  destruct (fold_left _ (concat chunks) _) as [D w]. destruct H as (Hinv & E & Hp).
  pose proof (longest_lt _ _ _ _ (inv_state _ _ _ Hinv)) as Hlt.
  split_and!; [done | lia |]. cbn [fst snd length] in Hl.
  rewrite <- E, length_app, length_take in Hl. lia.
Qed.

Lemma feed_equals_reference_witness :
  let '(out, r) := feed_chunks (si_echo_redact_arm (Some (cstr "abab")) 4)
                     [cstr "xab"; cstr "aabab"; cstr "abz"] in
  let '(D, w) := scan (take 4 (cstr "abab")) (concat [cstr "xab"; cstr "aabab"; cstr "abz"]) in
  out ++ take (state r) (take 4 (cstr "abab")) = D ++ w /\ (state r < 4)%nat /\
  (length out + state r = length (concat [cstr "xab"; cstr "aabab"; cstr "abz"]))%nat.
Proof.
  apply feed_equals_reference; [unfold SI_ECHO_REDACT_MAX; lia | cbn; lia].
Defined.

(** C19: the secret never gets out. If it has no asterisk, then whatever arrives,
    in whatever chunks, what is released and then flushed does not contain it. *)
Theorem secret_never_released bytes n chunks :
  (1 <= n <= SI_ECHO_REDACT_MAX)%nat -> (n <= length bytes)%nat ->
  ch "*" ∉ take n bytes ->
  let '(out, r) := feed_chunks (si_echo_redact_arm (Some bytes) n) chunks in
  ~ exists a b, out ++ (si_echo_redact_flush r).1 = a ++ take n bytes ++ b.
Proof.
  intros Hn Hb Hp. pose proof (armed_spec bytes n chunks Hn Hb) as H. cbv zeta in H.
  set (p := take n bytes) in *. destruct (feed_chunks _ chunks) as [out r].
  destruct (scan p (concat chunks)) as [D w] eqn:Es. destruct H as (Hinv & E & Hl).
  assert (Hclean : ~ contains p (D ++ w)).
  { pose proof (scan_clean p (concat chunks) [] [] ltac:(lia) Hp) as H.
    unfold scan in Es. rewrite Es in H. apply H; [by left|].
    intros (a & b & E'). symmetry in E'. apply app_nil in E' as [_ E'].
    apply app_nil in E' as [E' _]. rewrite E' in Hl. cbn in Hl. lia. }
  intros Hout. apply Hclean. rewrite <- E. apply contains_prefix.
  unfold si_echo_redact_flush in Hout. case_if_in Hout.
  - by rewrite app_nil_r in Hout.
  - cbn [fst] in Hout. apply (contains_stars p out (state r)); [lia | done | exact Hout].
Qed.

Lemma secret_never_released_witness :
  let '(out, r) := feed_chunks (si_echo_redact_arm (Some (cstr "abab")) 4)
                     [cstr "xab"; cstr "aabab"; cstr "abz"] in
  ~ exists a b, out ++ (si_echo_redact_flush r).1 = a ++ take 4 (cstr "abab") ++ b.
Proof.
  apply secret_never_released; [unfold SI_ECHO_REDACT_MAX; lia | cbn; lia | by_decide].
Defined.
