(* ===== verification/DiscoveryRateLimit.v ===== *)
(** * Discovery rate limiting: [core/discovery_rate_limit.c]

    At most 64 discovery answers per global window of one second and 8 per
    source, with 16 source buckets.  The clock is the 32-bit millisecond counter
    and wraps; the buckets are named by their index. *)

From S2P Require Import Prelude.

Definition SI_DISCOVERY_RATE_WINDOW_MS : Z := 1000.
Definition SI_DISCOVERY_RATE_PER_SOURCE : Z := 8.
Definition SI_DISCOVERY_RATE_GLOBAL : Z := 64.
Definition SI_DISCOVERY_RATE_SOURCE_SLOTS : nat := 16.

Record si_discovery_source_rate_t := mk_source {
  source_ipv4 : Z;
  window_started_ms : Z;
  last_seen_ms : Z;
  requests : Z;
  used : bool
}.

#[export] Instance eta_source : Settable si_discovery_source_rate_t := fun s =>
  mk_source (source_ipv4 s) (window_started_ms s) (last_seen_ms s) (requests s) (used s).

Definition zero_source : si_discovery_source_rate_t := mk_source 0 0 0 0 false.

#[export] Instance source_inhabited : Inhabited si_discovery_source_rate_t :=
  populate zero_source.

Record si_discovery_rate_limiter_t := mk_limiter {
  global_window_started_ms : Z;
  global_requests : Z;
  replacement_cursor : Z;
  initialized : bool;
  sources : list si_discovery_source_rate_t
}.

#[export] Instance eta_limiter : Settable si_discovery_rate_limiter_t := fun l =>
  mk_limiter (global_window_started_ms l) (global_requests l) (replacement_cursor l)
    (initialized l) (sources l).

(** A zeroed limiter. *)
Definition zero_limiter : si_discovery_rate_limiter_t :=
  mk_limiter 0 0 0 false (replicate SI_DISCOVERY_RATE_SOURCE_SLOTS zero_source).

Definition window_expired (now_ms started_ms : Z) : bool :=
  SI_DISCOVERY_RATE_WINDOW_MS <=? u32 (now_ms - started_ms).

(** The search loop of [source_bucket], from index [i] with [n] buckets left: the
    bucket of the source, or the first free one. *)
Fixpoint search_buckets (buckets : list si_discovery_source_rate_t) (i n : nat)
    (source : Z) (free_bucket : option nat) : nat + option nat :=
  match n with
  | O => inr free_bucket
  | S n =>
      let bucket := buckets !!! i in
      return_if used bucket && (source_ipv4 bucket =? source) with inl i ;;
      let free_bucket :=
        if negb (used bucket) && negb (bool_decide (is_Some free_bucket))
        then Some i else free_bucket in
      search_buckets buckets (S i) n source free_bucket
  end.

Definition source_bucket (limiter : si_discovery_rate_limiter_t) (source now_ms : Z)
  : nat * si_discovery_rate_limiter_t :=
  match search_buckets (sources limiter) 0 SI_DISCOVERY_RATE_SOURCE_SLOTS source None with
  | inl i => (i, limiter)
  | inr free_bucket =>
      let '(i, limiter) :=
        match free_bucket with
        | Some i => (i, limiter)
        | None =>
            (Z.to_nat (replacement_cursor limiter),
             limiter <| replacement_cursor :=
               u8 ((replacement_cursor limiter + 1) mod
                   Z.of_nat SI_DISCOVERY_RATE_SOURCE_SLOTS) |>)
        end in
      (i, limiter <| sources :=
            <[i := mk_source source now_ms now_ms 0 true]> (sources limiter) |>)
  end.

Definition set_bucket (limiter : si_discovery_rate_limiter_t) (i : nat)
    (bucket : si_discovery_source_rate_t) : si_discovery_rate_limiter_t :=
  limiter <| sources := <[i := bucket]> (sources limiter) |>.

(** Lines 48 to 53: start a new global window when there is none or the last one
    is over. *)
Definition refresh_window (limiter : si_discovery_rate_limiter_t) (now_ms : Z)
  : si_discovery_rate_limiter_t :=
  if negb (initialized limiter) ||
     window_expired now_ms (global_window_started_ms limiter)
  then (((limiter <| initialized := true |>)
                  <| global_window_started_ms := now_ms |>)
                  <| global_requests := 0 |>)
  else limiter.

Definition si_discovery_rate_limit_allow (limiter : si_discovery_rate_limiter_t)
    (source now_ms : Z) : bool * si_discovery_rate_limiter_t :=
  return_if source =? 0 with (false, limiter) ;;
  let limiter := refresh_window limiter now_ms in
  return_if SI_DISCOVERY_RATE_GLOBAL <=? global_requests limiter with (false, limiter) ;;
  let '(i, limiter) := source_bucket limiter source now_ms in
  let bucket := sources limiter !!! i in
  let bucket :=
    if window_expired now_ms (window_started_ms bucket)
    then ((bucket <| window_started_ms := now_ms |>) <| requests := 0 |>)
    else bucket in
  let bucket := bucket <| last_seen_ms := now_ms |> in
  return_if SI_DISCOVERY_RATE_PER_SOURCE <=? requests bucket
    with (false, set_bucket limiter i bucket) ;;
  (true,
   (set_bucket limiter i (bucket <| requests := u16 (requests bucket + 1) |>))
     <| global_requests := u16 (global_requests limiter + 1) |>).
