(* ===== verification/DiscoveryRateLimitProps.v ===== *)
(** * Discovery rate limiting: properties

    The counters stay bounded in every reachable state, and no interval of one
    second sees more than two windows' worth of answers. *)

From S2P Require Import Prelude DiscoveryRateLimit.
From Stdlib Require Import Sorted.

(** ** The invariant *)

Definition bucket_ok (b : si_discovery_source_rate_t) : Prop :=
  0 <= requests b <= SI_DISCOVERY_RATE_PER_SOURCE.

Record limiter_ok (l : si_discovery_rate_limiter_t) : Prop := {
  lim_global : 0 <= global_requests l <= SI_DISCOVERY_RATE_GLOBAL;
  lim_cursor : 0 <= replacement_cursor l < Z.of_nat SI_DISCOVERY_RATE_SOURCE_SLOTS;
  lim_slots : length (sources l) = SI_DISCOVERY_RATE_SOURCE_SLOTS;
  lim_buckets : Forall bucket_ok (sources l);
  lim_distinct : forall i j, (i < SI_DISCOVERY_RATE_SOURCE_SLOTS)%nat ->
    (j < SI_DISCOVERY_RATE_SOURCE_SLOTS)%nat ->
    used (sources l !!! i) = true -> used (sources l !!! j) = true ->
    source_ipv4 (sources l !!! i) = source_ipv4 (sources l !!! j) -> i = j
}.

Abbreviation SLOTS := SI_DISCOVERY_RATE_SOURCE_SLOTS (only parsing).

Lemma zero_limiter_ok : limiter_ok zero_limiter.
Proof.
  split; cbn [zero_limiter global_requests replacement_cursor sources].
  - unfold SI_DISCOVERY_RATE_GLOBAL. lia.
  - unfold SI_DISCOVERY_RATE_SOURCE_SLOTS. lia.
  - apply length_replicate.
  - apply Forall_replicate. unfold bucket_ok, SI_DISCOVERY_RATE_PER_SOURCE. cbn. lia.
  - intros i j Hi Hj Hu. by rewrite lookup_total_replicate_2 in Hu by done.
Qed.

Lemma bucket_at_ok l i : Forall bucket_ok l -> bucket_ok (l !!! i).
Proof.
  intros H. destruct (l !! i) as [b|] eqn:E.
  - rewrite (list_lookup_total_correct _ _ _ E). by eapply Forall_lookup_1.
  - rewrite list_lookup_total_alt, E. unfold bucket_ok, SI_DISCOVERY_RATE_PER_SOURCE. cbn. lia.
Qed.

(** What the search finds. *)
Lemma search_spec bs source n i free :
  (forall f, free = Some f -> (f < i)%nat /\ used (bs !!! f) = false) ->
  (free = None -> forall j, (j < i)%nat -> used (bs !!! j) = true) ->
  (forall j, (j < i)%nat -> used (bs !!! j) = true -> source_ipv4 (bs !!! j) <> source) ->
  match search_buckets bs i n source free with
  | inl k => (k < i + n)%nat /\ used (bs !!! k) = true /\ source_ipv4 (bs !!! k) = source
  | inr free =>
      (forall f, free = Some f -> (f < i + n)%nat /\ used (bs !!! f) = false) /\
      (free = None -> forall j, (j < i + n)%nat -> used (bs !!! j) = true) /\
      (forall j, (j < i + n)%nat -> used (bs !!! j) = true -> source_ipv4 (bs !!! j) <> source)
  end.
Proof.
  revert i free. induction n as [|n IH]; intros i free Hf Hn Hs; cbn [search_buckets].
  { rewrite Nat.add_0_r. done. }
  destruct (used (bs !!! i) && (source_ipv4 (bs !!! i) =? source)) eqn:E.
  { apply andb_true_iff in E as [E1 E2]. apply Z.eqb_eq in E2. split_and!; [lia|done|done]. }
  rewrite <- Nat.add_succ_comm. apply IH.
  - intros f. destruct (used (bs !!! i)) eqn:Eu; cbn [negb andb].
    + intros Ef. destruct (Hf f Ef). split; [lia|done].
    + destruct free as [f'|].
      * rewrite bool_decide_eq_true_2 by eauto. cbn [negb]. intros Ef.
        destruct (Hf f Ef). split; [lia|done].
      * rewrite bool_decide_eq_false_2 by (by intros [? ?]). intros [= <-]. split; [lia|done].
  - intros Ef j Hj. destruct (used (bs !!! i)) eqn:Eu; cbn [negb andb] in Ef.
    + destruct (decide (j = i)) as [->|]; [done|]. apply Hn; [done|lia].
    + destruct free; [rewrite bool_decide_eq_true_2 in Ef by eauto; done|].
      rewrite bool_decide_eq_false_2 in Ef by (by intros [? ?]). done.
  - intros j Hj Hu. destruct (decide (j = i)) as [->|]; [|apply Hs; [lia|done]].
    rewrite Hu in E. cbn [andb] in E. by apply Z.eqb_neq.
Qed.

Lemma search_init bs source :
  match search_buckets bs 0 SLOTS source None with
  | inl k => (k < SLOTS)%nat /\ used (bs !!! k) = true /\ source_ipv4 (bs !!! k) = source
  | inr free =>
      (forall f, free = Some f -> (f < SLOTS)%nat /\ used (bs !!! f) = false) /\
      (free = None -> forall j, (j < SLOTS)%nat -> used (bs !!! j) = true) /\
      (forall j, (j < SLOTS)%nat -> used (bs !!! j) = true -> source_ipv4 (bs !!! j) <> source)
  end.
Proof. apply (search_spec bs source SLOTS 0 None); [done | lia | lia]. Qed.

(** Putting a bucket of [source] where no other bucket has that source. *)
Lemma replace_bucket_ok l i b g c :
  limiter_ok l -> (i < SLOTS)%nat -> bucket_ok b -> used b = true ->
  0 <= g <= SI_DISCOVERY_RATE_GLOBAL -> 0 <= c < Z.of_nat SLOTS ->
  (forall j, (j < SLOTS)%nat -> j <> i -> used (sources l !!! j) = true ->
     source_ipv4 (sources l !!! j) <> source_ipv4 b) ->
  limiter_ok (mk_limiter (global_window_started_ms l) g c (initialized l)
                (<[i := b]> (sources l))).
Proof.
  intros [Hg Hc Hl Hb Hd] Hi Hbo Hu Hg' Hc' Hne. split; cbn; [done | done | | |].
  - by rewrite length_insert.
  - by apply Forall_insert.
  - assert (Hat : (<[i := b]> (sources l)) !!! i = b)
      by (apply list_lookup_total_insert_eq; lia).
    intros j k Hj Hk Huj Huk E.
    destruct (decide (j = i)) as [->|Hji], (decide (k = i)) as [->|Hki]; [done | | |].
    + rewrite Hat, list_lookup_total_insert_ne in * by done. by destruct (Hne k Hk Hki Huk).
    + rewrite Hat, list_lookup_total_insert_ne in * by done. by destruct (Hne j Hj Hji Huj).
    + rewrite !list_lookup_total_insert_ne in * by done. by apply Hd.
Qed.

(** What [source_bucket] gives: the bucket of the source, in a good limiter whose
    global window is untouched. *)
Record found_bucket (l : si_discovery_rate_limiter_t) (source : Z) (i : nat)
    (l' : si_discovery_rate_limiter_t) : Prop := {
  fb_index : (i < SLOTS)%nat;
  fb_ok : limiter_ok l';
  fb_global : global_requests l' = global_requests l;
  fb_window : global_window_started_ms l' = global_window_started_ms l;
  fb_init : initialized l' = initialized l;
  fb_used : used (sources l' !!! i) = true;
  fb_source : source_ipv4 (sources l' !!! i) = source
}.

Lemma new_bucket_found l source now i c :
  limiter_ok l -> (i < SLOTS)%nat -> 0 <= c < Z.of_nat SLOTS ->
  (forall j, (j < SLOTS)%nat -> used (sources l !!! j) = true ->
     source_ipv4 (sources l !!! j) <> source) ->
  found_bucket l source i
    (mk_limiter (global_window_started_ms l) (global_requests l) c (initialized l)
       (<[i := mk_source source now now 0 true]> (sources l))).
Proof.
  intros Hl Hi Hc Hne. pose proof (lim_slots _ Hl) as Hlen.
  split; cbn; try done.
  - apply replace_bucket_ok; try done;
      [apply (lim_global _ Hl) | intros j Hj _; by apply Hne].
  - by rewrite list_lookup_total_insert_eq by lia.
  - by rewrite list_lookup_total_insert_eq by lia.
Qed.

Lemma source_bucket_found l source now :
  limiter_ok l ->
  found_bucket l source (source_bucket l source now).1 (source_bucket l source now).2.
Proof.
  intros Hl. unfold source_bucket. pose proof (search_init (sources l) source) as Hs.
  destruct (search_buckets _ 0 SLOTS source None) as [k|free].
  - destruct Hs as (H1 & H2 & H3). by split.
  - destruct Hs as (Hfree & Hfull & Hne). pose proof (lim_cursor _ Hl) as Hc.
    destruct free as [f|]; cbn [fst snd].
    + destruct (Hfree f eq_refl) as [Hlt _]. by apply new_bucket_found.
    + apply (new_bucket_found l source now (Z.to_nat (replacement_cursor l))); try done; try lia.
      unfold u8, SI_DISCOVERY_RATE_SOURCE_SLOTS in *.
      pose proof (Z.mod_pos_bound (replacement_cursor l + 1) (Z.of_nat 16) ltac:(lia)).
      change (0 <= ((replacement_cursor l + 1) mod Z.of_nat 16) mod 2 ^ 8 < Z.of_nat 16).
      rewrite (Z.mod_small (_ mod _)); lia.
Qed.

Lemma update_bucket_ok l source i l' b g :
  found_bucket l source i l' -> bucket_ok b -> used b = true -> source_ipv4 b = source ->
  0 <= g <= SI_DISCOVERY_RATE_GLOBAL ->
  limiter_ok (mk_limiter (global_window_started_ms l') g (replacement_cursor l')
                (initialized l') (<[i := b]> (sources l'))).
Proof.
  intros [Hi Hok _ _ _ Hu Hs] Hb Hub Hsb Hg. apply replace_bucket_ok; try done; [apply (lim_cursor _ Hok)|].
  intros j Hj Hne Huj E. apply Hne, (lim_distinct _ Hok); try done. congruence.
Qed.

(** ** One call *)

(** How a call moves the global window. *)
Definition window_step (l : si_discovery_rate_limiter_t) (now : Z) (allowed : bool)
    (l' : si_discovery_rate_limiter_t) : Prop :=
  initialized l' = true /\
  if negb (initialized l) || window_expired now (global_window_started_ms l)
  then global_window_started_ms l' = now /\ global_requests l' = Z.b2z allowed
  else global_window_started_ms l' = global_window_started_ms l /\
       global_requests l' = global_requests l + Z.b2z allowed.

Lemma refresh_window_ok l now : limiter_ok l -> limiter_ok (refresh_window l now).
Proof.
  intros [Hg Hc Hl Hb Hd]. unfold refresh_window. case_if; [|by split].
  by split.
Qed.

Lemma allow_step l source now :
  limiter_ok l ->
  let '(allowed, l') := si_discovery_rate_limit_allow l source now in
  limiter_ok l' /\
  ((source = 0 /\ allowed = false /\ l' = l) \/ window_step l now allowed l').
Proof.
  intros Hl. unfold si_discovery_rate_limit_allow.
  destruct (Z.eqb_spec source 0) as [E|E]; [by split; [|left]|].
  pose proof (refresh_window_ok l now Hl) as Hr.
  assert (Hw : initialized (refresh_window l now) = true /\
            global_window_started_ms (refresh_window l now) =
              (if negb (initialized l) || window_expired now (global_window_started_ms l)
               then now else global_window_started_ms l) /\
            global_requests (refresh_window l now) =
              (if negb (initialized l) || window_expired now (global_window_started_ms l)
               then 0 else global_requests l)).
  { unfold refresh_window. case_if; [done|]. split_guards. done. }
  set (l1 := refresh_window l now) in *. destruct Hw as (Hi & Hws & Hgr).
  unfold window_step.
  destruct (Z.leb_spec SI_DISCOVERY_RATE_GLOBAL (global_requests l1)) as [Hfull|Hroom].
  { split; [done|]. right. split; [done|]. case_if; cbn; rewrite Hws, Hgr; split; [done|lia|done|lia]. }
  pose proof (source_bucket_found l1 source now Hr) as Hf.
  destruct (source_bucket l1 source now) as [i l2]. cbn [fst snd] in Hf.
  pose proof (bucket_at_ok (sources l2) i (lim_buckets _ (fb_ok _ _ _ _ Hf))) as Hb.
  set (b := sources l2 !!! i) in *.
  set (b1 := if window_expired now (window_started_ms b) then _ else b).
  assert (Hb1 : bucket_ok b1 /\ used b1 = true /\ source_ipv4 b1 = source).
  { pose proof (fb_used _ _ _ _ Hf) as Hu. pose proof (fb_source _ _ _ _ Hf) as Hs.
    fold b in Hu, Hs. unfold b1. case_if; [|done]. split; [|done].
    unfold bucket_ok, SI_DISCOVERY_RATE_PER_SOURCE. cbn. lia. }
  destruct Hb1 as (Hb1 & Hu1 & Hs1). pose proof (lim_global _ (fb_ok _ _ _ _ Hf)) as Hg2.
  destruct (Z.leb_spec SI_DISCOVERY_RATE_PER_SOURCE (requests (b1 <| last_seen_ms := now |>)))
    as [Hq|Hq].
  - split; [by apply (update_bucket_ok l1 source)|]. right. cbn.
    rewrite (fb_init _ _ _ _ Hf), (fb_window _ _ _ _ Hf), (fb_global _ _ _ _ Hf), Hws, Hgr.
    split; [done|]. case_if; split; [done|lia|done|lia].
  - cbn in Hq. rewrite (fb_global _ _ _ _ Hf) in Hg2.
    assert (Hg16 : u16 (global_requests l2 + 1) = global_requests l1 + 1).
    { rewrite (fb_global _ _ _ _ Hf). unfold u16, SI_DISCOVERY_RATE_GLOBAL in *.
      apply Z.mod_small. lia. }
    split.
    + apply (update_bucket_ok l1 source i l2
               ((b1 <| last_seen_ms := now |>) <| requests := u16 (requests b1 + 1) |>));
        try done.
      * unfold bucket_ok in *. cbn. unfold u16, SI_DISCOVERY_RATE_PER_SOURCE in *.
        rewrite Z.mod_small by lia. lia.
      * rewrite Hg16. lia.
    + right. cbn. rewrite (fb_init _ _ _ _ Hf), (fb_window _ _ _ _ Hf), Hg16, Hws, Hgr.
      split; [done|]. case_if; split; [done|lia|done|lia].
Qed.

(** ** Sequences of calls

    A call is a source and a real time in milliseconds; the limiter sees the low
    32 bits of the clock. *)

Fixpoint admit_all (l : si_discovery_rate_limiter_t) (calls : list (Z * Z))
  : Z * si_discovery_rate_limiter_t :=
  match calls with
  | [] => (0, l)
  | (source, t) :: calls =>
      let '(allowed, l) := si_discovery_rate_limit_allow l source (u32 t) in
      let '(n, l) := admit_all l calls in
      (Z.b2z allowed + n, l)
  end.

Lemma admit_all_ok l calls : limiter_ok l -> limiter_ok (admit_all l calls).2.
Proof.
  revert l. induction calls as [|[source t] calls IH]; intros l Hl; cbn [admit_all]; [done|].
  pose proof (allow_step l source (u32 t) Hl) as H.
  destruct (si_discovery_rate_limit_allow l source (u32 t)) as [a l1]. destruct H as [H1 _].
  specialize (IH l1 H1). by destruct (admit_all l1 calls).
Qed.

(** The clock difference is the real one within a window, wrap-around included. *)
Lemma window_not_expired t0 t :
  t0 <= t < t0 + SI_DISCOVERY_RATE_WINDOW_MS -> window_expired (u32 t) (u32 t0) = false.
Proof.
  unfold window_expired, SI_DISCOVERY_RATE_WINDOW_MS. intros H. apply Z.leb_gt.
  unfold u32. rewrite <- Zminus_mod, Z.mod_small by lia. lia.
Qed.

Lemma admit_window l t0 calls :
  limiter_ok l -> initialized l = true -> global_window_started_ms l = u32 t0 ->
  Forall (fun c => t0 <= c.2 < t0 + SI_DISCOVERY_RATE_WINDOW_MS) calls ->
  (admit_all l calls).1 + global_requests l <= SI_DISCOVERY_RATE_GLOBAL.
Proof.
  revert l. induction calls as [|[source t] calls IH]; intros l Hl Hi Hw Ht; cbn [admit_all].
  { pose proof (lim_global _ Hl). cbn. lia. }
  apply Forall_cons in Ht as [Ht Hts]. cbn in Ht.
  pose proof (allow_step l source (u32 t) Hl) as H.
  destruct (si_discovery_rate_limit_allow l source (u32 t)) as [a l1].
  destruct H as [H1 H2]. specialize (IH l1 H1).
  destruct (admit_all l1 calls) as [n l2]. cbn [fst] in *.
  destruct H2 as [(_ & -> & ->)|[Hi1 H2]].
  - specialize (IH Hi Hw Hts). cbn. lia.
  - rewrite Hi, Hw, (window_not_expired t0 t Ht) in H2. cbn [negb orb] in H2.
    destruct H2 as [Hw1 Hg1]. specialize (IH Hi1 Hw1 Hts). lia.
Qed.

Lemma admit_interval l T calls :
  limiter_ok l ->
  StronglySorted Z.le (T :: map snd calls) ->
  Forall (fun c => c.2 < T + SI_DISCOVERY_RATE_WINDOW_MS) calls ->
  (admit_all l calls).1 + global_requests l <= 2 * SI_DISCOVERY_RATE_GLOBAL.
Proof.
  revert l. induction calls as [|[source t] calls IH]; intros l Hl Hs Ht; cbn [admit_all].
  { pose proof (lim_global _ Hl). cbn. lia. }
  apply Forall_cons in Ht as [Ht Hts]. cbn in Ht.
  apply StronglySorted_inv in Hs as [Hs HT]. cbn [map snd] in *.
  apply Forall_cons in HT as [HTt HT].
  pose proof (StronglySorted_inv Hs) as [Hs' Hge].
  pose proof (allow_step l source (u32 t) Hl) as H.
  destruct (si_discovery_rate_limit_allow l source (u32 t)) as [a l1].
  destruct H as [H1 H2]. specialize (IH l1 H1). pose proof (admit_window l1 t calls H1) as Hwin.
  destruct (admit_all l1 calls) as [n l2]. cbn [fst] in *.
  assert (HsT : StronglySorted Z.le (T :: map snd calls)) by (by constructor).
  specialize (IH HsT Hts). destruct H2 as [(_ & -> & ->)|[Hi1 H2]]; [cbn; lia|].
  pose proof (lim_global _ Hl). pose proof (lim_global _ H1).
  case_if_in H2; destruct H2 as [Hw1 Hg1]; [|lia].
  assert (Hin : Forall (fun c => t <= c.2 < t + SI_DISCOVERY_RATE_WINDOW_MS) calls).
  { apply Forall_forall. intros c Hc. rewrite Forall_forall in Hge. rewrite Forall_forall in Hts.
    specialize (Hts c Hc). assert (t <= c.2); [|lia]. apply Hge.
    by apply list_elem_of_fmap_2. }
  specialize (Hwin Hi1 Hw1 Hin). lia.
Qed.

(** The limiter holds its limits. After any history of calls its counters are
    within their limits and no source has two buckets; and then, whatever
    sources call at whatever times of a monotone clock, an interval of one
    second (even across a wrap of the 32-bit counter) sees at most 128 answers,
    two full windows. *)
Theorem discovery_answers_bounded before T calls :
  let l := (admit_all zero_limiter before).2 in
  StronglySorted Z.le (T :: map snd calls) ->
  Forall (fun c => c.2 < T + SI_DISCOVERY_RATE_WINDOW_MS) calls ->
  limiter_ok l /\ (admit_all l calls).1 <= 2 * SI_DISCOVERY_RATE_GLOBAL.
Proof.
  intros l Hs Ht. assert (Hl : limiter_ok l) by apply admit_all_ok, zero_limiter_ok.
  split; [done|]. pose proof (admit_interval l T calls Hl Hs Ht).
  pose proof (lim_global _ Hl). lia.
Qed.

Definition demo_calls : list (Z * Z) := [(7, 4294967295); (7, 4294967296); (9, 4294967297)].

Lemma discovery_answers_bounded_witness :
  (admit_all zero_limiter demo_calls).1 = 3 /\
  (admit_all (admit_all zero_limiter []).2 demo_calls).1 <= 128.
Proof.
  split; [by_eval|]. apply (discovery_answers_bounded [] 4294967295 demo_calls).
  - repeat constructor; cbn; lia.
  - repeat constructor; cbn; unfold SI_DISCOVERY_RATE_WINDOW_MS; lia.
Defined.
