(* ===== verification/AgentVerifier.v ===== *)
(** * The completion gate: [core/agent_verifier.c]

    The verdict on an agent action from the evidence presented for it.  The
    enumeration fields are the unsigned integers a C enum object holds; NULL
    strings are [None]; [accepted_index] is [None] for [SIZE_MAX]. *)

From S2P Require Import Prelude.

Definition SI_AGENT_VERIFY_ID_MAX_LEN : nat := 64.
Definition SI_AGENT_VERIFY_TARGET_MAX_LEN : nat := 96.
Definition SI_AGENT_VERIFY_HASH_MAX_LEN : nat := 64.
Definition SI_AGENT_VERIFY_REASON_MAX_LEN : nat := 128.

Inductive si_agent_evidence_issuer_t :=
| SI_AGENT_EVIDENCE_ISSUER_UNSPECIFIED | SI_AGENT_EVIDENCE_ISSUER_DEVICE_MANAGER
| SI_AGENT_EVIDENCE_ISSUER_DEVICE_OBSERVER | SI_AGENT_EVIDENCE_ISSUER_ARTIFACT_STORE
| SI_AGENT_EVIDENCE_ISSUER_TOOL_ADAPTER | SI_AGENT_EVIDENCE_ISSUER_MODEL.

Inductive si_agent_evidence_kind_t :=
| SI_AGENT_EVIDENCE_NONE | SI_AGENT_EVIDENCE_OBSERVATION | SI_AGENT_EVIDENCE_ARTIFACT
| SI_AGENT_EVIDENCE_READBACK | SI_AGENT_EVIDENCE_TOOL_RETURN
| SI_AGENT_EVIDENCE_MODEL_ASSERTION.

Inductive si_agent_evidence_outcome_t :=
| SI_AGENT_EVIDENCE_OUTCOME_UNKNOWN | SI_AGENT_EVIDENCE_OUTCOME_MATCH
| SI_AGENT_EVIDENCE_OUTCOME_MISMATCH.

Inductive si_agent_verification_verdict_t :=
| SI_AGENT_VERIFY_PENDING | SI_AGENT_VERIFY_PASSED | SI_AGENT_VERIFY_FAILED
| SI_AGENT_VERIFY_UNKNOWN | SI_AGENT_VERIFY_INVALID.

#[export] Instance evidence_issuer_eq_dec : EqDecision si_agent_evidence_issuer_t.
Proof. solve_decision. Defined.
#[export] Instance evidence_kind_eq_dec : EqDecision si_agent_evidence_kind_t.
Proof. solve_decision. Defined.
#[export] Instance evidence_outcome_eq_dec : EqDecision si_agent_evidence_outcome_t.
Proof. solve_decision. Defined.
#[export] Instance verdict_eq_dec : EqDecision si_agent_verification_verdict_t.
Proof. solve_decision. Defined.

#[export] Instance evidence_issuer_enum : CEnum si_agent_evidence_issuer_t.
Proof.
  enum_of [SI_AGENT_EVIDENCE_ISSUER_UNSPECIFIED; SI_AGENT_EVIDENCE_ISSUER_DEVICE_MANAGER;
           SI_AGENT_EVIDENCE_ISSUER_DEVICE_OBSERVER;
           SI_AGENT_EVIDENCE_ISSUER_ARTIFACT_STORE;
           SI_AGENT_EVIDENCE_ISSUER_TOOL_ADAPTER; SI_AGENT_EVIDENCE_ISSUER_MODEL].
Defined.
#[export] Instance evidence_kind_enum : CEnum si_agent_evidence_kind_t.
Proof.
  enum_of [SI_AGENT_EVIDENCE_NONE; SI_AGENT_EVIDENCE_OBSERVATION;
           SI_AGENT_EVIDENCE_ARTIFACT; SI_AGENT_EVIDENCE_READBACK;
           SI_AGENT_EVIDENCE_TOOL_RETURN; SI_AGENT_EVIDENCE_MODEL_ASSERTION].
Defined.
#[export] Instance evidence_outcome_enum : CEnum si_agent_evidence_outcome_t.
Proof.
  enum_of [SI_AGENT_EVIDENCE_OUTCOME_UNKNOWN; SI_AGENT_EVIDENCE_OUTCOME_MATCH;
           SI_AGENT_EVIDENCE_OUTCOME_MISMATCH].
Defined.
#[export] Instance verdict_enum : CEnum si_agent_verification_verdict_t.
Proof.
  enum_of [SI_AGENT_VERIFY_PENDING; SI_AGENT_VERIFY_PASSED; SI_AGENT_VERIFY_FAILED;
           SI_AGENT_VERIFY_UNKNOWN; SI_AGENT_VERIFY_INVALID].
Defined.

Record si_agent_verification_spec_t := mk_spec {
  sp_mutation : bool;
  sp_require_readback : bool;
  sp_action_started_ms : Z;
  sp_action_id : option cstring;
  sp_target_identity : option cstring;
  sp_completion_criteria_hash : option cstring;
  sp_minimum_generation : Z;
  sp_required_issuer : Z
}.

Record si_agent_evidence_t := mk_evidence {
  ev_kind : Z;
  ev_outcome : Z;
  ev_captured_ms : Z;
  ev_evidence_id : option cstring;
  ev_artifact_hash : option cstring;
  ev_action_id : option cstring;
  ev_target_identity : option cstring;
  ev_completion_criteria_hash : option cstring;
  ev_generation : Z;
  ev_issuer : Z
}.

Record si_agent_verification_result_t := mk_verification {
  vr_status : si_agent_verification_verdict_t;
  vr_accepted_kind : Z;
  vr_accepted_index : option nat;
  vr_evidence_id : cstring;
  vr_reason : cstring
}.

#[export] Instance eta_verification : Settable si_agent_verification_result_t := fun r =>
  mk_verification (vr_status r) (vr_accepted_kind r) (vr_accepted_index r)
    (vr_evidence_id r) (vr_reason r).

(** ** Checks *)

Definition bounded_nonempty (value : option cstring) (max_len : nat) : bool :=
  match value with
  | None => false
  | Some value =>
      return_if is_empty value with false ;;
      (strnlen value (max_len + 1) <=? max_len)%nat
  end.

Definition same_required (expected actual : option cstring) (max_len : nat) : bool :=
  bounded_nonempty expected max_len && bounded_nonempty actual max_len &&
  streq (deref expected) (deref actual).

Definition hex_digit_lower (c : Z) : bool :=
  ((ch "0" <=? c) && (c <=? ch "9")) || ((ch "a" <=? c) && (c <=? ch "f")).

Definition sha256_hex_valid (value : option cstring) : bool :=
  match value with
  | None => false
  | Some value =>
      return_if negb (strnlen value (SI_AGENT_VERIFY_HASH_MAX_LEN + 1) =?
                      SI_AGENT_VERIFY_HASH_MAX_LEN)%nat
        with false ;;
      forallb hex_digit_lower (take SI_AGENT_VERIFY_HASH_MAX_LEN value)
  end.

Definition set_reason (result : si_agent_verification_result_t) (reason : cstring)
  : si_agent_verification_result_t :=
  result <| vr_reason := strtrunc (SI_AGENT_VERIFY_REASON_MAX_LEN + 1) reason |>.

Definition si_agent_evidence_kind_is_authoritative (kind : Z) : bool :=
  (kind =? enum_val SI_AGENT_EVIDENCE_OBSERVATION) ||
  (kind =? enum_val SI_AGENT_EVIDENCE_ARTIFACT) ||
  (kind =? enum_val SI_AGENT_EVIDENCE_READBACK).

Definition si_agent_evidence_issuer_is_authoritative (issuer : Z) : bool :=
  (issuer =? enum_val SI_AGENT_EVIDENCE_ISSUER_DEVICE_MANAGER) ||
  (issuer =? enum_val SI_AGENT_EVIDENCE_ISSUER_DEVICE_OBSERVER) ||
  (issuer =? enum_val SI_AGENT_EVIDENCE_ISSUER_ARTIFACT_STORE).

Definition evidence_shape_valid (item : si_agent_evidence_t) : bool :=
  return_if (ev_kind item <=? enum_val SI_AGENT_EVIDENCE_NONE) ||
            (enum_val SI_AGENT_EVIDENCE_MODEL_ASSERTION <? ev_kind item) ||
            (enum_val SI_AGENT_EVIDENCE_OUTCOME_MISMATCH <? ev_outcome item)
    with false ;;
  return_if negb (bounded_nonempty (ev_evidence_id item) SI_AGENT_VERIFY_ID_MAX_LEN) ||
            negb (bounded_nonempty (ev_action_id item) SI_AGENT_VERIFY_ID_MAX_LEN) ||
            negb (bounded_nonempty (ev_target_identity item)
                    SI_AGENT_VERIFY_TARGET_MAX_LEN) ||
            negb (sha256_hex_valid (ev_completion_criteria_hash item)) ||
            (ev_generation item =? 0) ||
            (ev_issuer item <=? enum_val SI_AGENT_EVIDENCE_ISSUER_UNSPECIFIED) ||
            (enum_val SI_AGENT_EVIDENCE_ISSUER_MODEL <? ev_issuer item)
    with false ;;
  return_if (ev_kind item =? enum_val SI_AGENT_EVIDENCE_ARTIFACT) &&
            negb (sha256_hex_valid (ev_artifact_hash item))
    with false ;;
  true.

(** ** The verdict *)

Definition spec_valid (spec : si_agent_verification_spec_t) : bool :=
  negb (negb (bounded_nonempty (sp_action_id spec) SI_AGENT_VERIFY_ID_MAX_LEN) ||
        negb (bounded_nonempty (sp_target_identity spec) SI_AGENT_VERIFY_TARGET_MAX_LEN) ||
        negb (sha256_hex_valid (sp_completion_criteria_hash spec)) ||
        (sp_minimum_generation spec =? 0) ||
        negb (si_agent_evidence_issuer_is_authoritative (sp_required_issuer spec)) ||
        (sp_action_started_ms spec =? 0)).

(** Evidence of another action, or not fresh. *)
Definition evidence_elsewhere (spec : si_agent_verification_spec_t)
    (item : si_agent_evidence_t) : bool :=
  negb (same_required (sp_action_id spec) (ev_action_id item) SI_AGENT_VERIFY_ID_MAX_LEN) ||
  negb (same_required (sp_target_identity spec) (ev_target_identity item)
          SI_AGENT_VERIFY_TARGET_MAX_LEN) ||
  negb (same_required (sp_completion_criteria_hash spec) (ev_completion_criteria_hash item)
          SI_AGENT_VERIFY_HASH_MAX_LEN) ||
  negb (ev_issuer item =? sp_required_issuer spec) ||
  (ev_generation item <? sp_minimum_generation spec) ||
  (ev_captured_ms item <=? sp_action_started_ms spec).

(** The three flags of the loop. *)
Record seen := mk_seen {
  saw_authoritative : bool;
  saw_unknown : bool;
  saw_invalid : bool
}.

(** The end of the function, when no item was decisive. *)
Definition undecided (spec : si_agent_verification_spec_t) (s : seen)
    (result : si_agent_verification_result_t) : si_agent_verification_result_t :=
  if saw_unknown s then
    set_reason (result <| vr_status := SI_AGENT_VERIFY_UNKNOWN |>)
      (cstr "device evidence outcome is unknown")
  else if saw_authoritative s then
    set_reason (result <| vr_status := SI_AGENT_VERIFY_PENDING |>)
      (cstr "matching authoritative evidence required")
  else if saw_invalid s then
    set_reason (result <| vr_status := SI_AGENT_VERIFY_INVALID |>)
      (cstr "malformed evidence rejected")
  else
    set_reason (result <| vr_status := SI_AGENT_VERIFY_PENDING |>)
      (if sp_mutation spec then cstr "tool/model success is not mutation evidence"
       else cstr "fresh observation, artifact, or readback required").

(** The loop over the evidence, from [index] on. *)
Fixpoint verify_loop (spec : si_agent_verification_spec_t)
    (evidence : list si_agent_evidence_t) (index : nat) (s : seen)
    (result : si_agent_verification_result_t) : si_agent_verification_result_t :=
  match evidence with
  | [] => undecided spec s result
  | item :: rest =>
      let continue s := verify_loop spec rest (S index) s result in
      return_if negb (evidence_shape_valid item)
        with continue (mk_seen (saw_authoritative s) (saw_unknown s) true) ;;
      return_if negb (si_agent_evidence_kind_is_authoritative (ev_kind item)) ||
                negb (si_agent_evidence_issuer_is_authoritative (ev_issuer item))
        with continue s ;;
      return_if sp_require_readback spec &&
                negb (ev_kind item =? enum_val SI_AGENT_EVIDENCE_READBACK)
        with continue s ;;
      return_if evidence_elsewhere spec item with continue s ;;
      return_if ev_outcome item =? enum_val SI_AGENT_EVIDENCE_OUTCOME_UNKNOWN
        with continue (mk_seen true true (saw_invalid s)) ;;
      let result :=
        ((result <| vr_accepted_kind := ev_kind item |>)
                 <| vr_accepted_index := Some index |>)
                 <| vr_evidence_id :=
                      strtrunc (SI_AGENT_VERIFY_ID_MAX_LEN + 1)
                        (deref (ev_evidence_id item)) |> in
      return_if ev_outcome item =? enum_val SI_AGENT_EVIDENCE_OUTCOME_MISMATCH
        with set_reason (result <| vr_status := SI_AGENT_VERIFY_FAILED |>)
               (cstr "fresh device evidence contradicts expected effect") ;;
      set_reason (result <| vr_status := SI_AGENT_VERIFY_PASSED |>)
        (cstr "fresh device evidence matches expected effect")
  end.

(** [evidence] is the array of [evidence_count] items, or NULL. *)
Definition si_agent_verify (spec : option si_agent_verification_spec_t)
    (evidence : option (list si_agent_evidence_t)) (evidence_count : nat)
  : si_agent_verification_result_t :=
  let result :=
    mk_verification SI_AGENT_VERIFY_INVALID (enum_val SI_AGENT_EVIDENCE_NONE) None [] [] in
  let invalid := set_reason result (cstr "invalid verification specification") in
  match spec with
  | None => invalid
  | Some spec =>
      return_if negb (spec_valid spec) ||
                ((0 <? evidence_count)%nat && negb (bool_decide (is_Some evidence)))
        with invalid ;;
      return_if (evidence_count =? 0)%nat
        with set_reason (result <| vr_status := SI_AGENT_VERIFY_PENDING |>)
               (cstr "fresh device evidence required") ;;
      verify_loop spec (take evidence_count (default [] evidence)) 0
        (mk_seen false false false) result
  end.

Definition si_agent_evidence_kind_name (kind : Z) : cstring :=
  match enum_of_Z kind with
  | Some SI_AGENT_EVIDENCE_OBSERVATION => cstr "observation"
  | Some SI_AGENT_EVIDENCE_ARTIFACT => cstr "artifact"
  | Some SI_AGENT_EVIDENCE_READBACK => cstr "readback"
  | Some SI_AGENT_EVIDENCE_TOOL_RETURN => cstr "tool_return"
  | Some SI_AGENT_EVIDENCE_MODEL_ASSERTION => cstr "model_assertion"
  | Some SI_AGENT_EVIDENCE_NONE | None => cstr "none"
  end.

Definition si_agent_verification_status_name (status : Z) : cstring :=
  match enum_of_Z status with
  | Some SI_AGENT_VERIFY_PENDING => cstr "pending"
  | Some SI_AGENT_VERIFY_PASSED => cstr "passed"
  | Some SI_AGENT_VERIFY_FAILED => cstr "failed"
  | Some SI_AGENT_VERIFY_UNKNOWN => cstr "unknown"
  | Some SI_AGENT_VERIFY_INVALID | None => cstr "invalid"
  end.
