(* ===== verification/AgentVerifierProps.v ===== *)
(** * The completion gate: properties

    The verdict is decided by the first decisive item of evidence, and only
    fresh, target-bound, authoritative evidence is decisive. *)

From S2P Require Import Prelude AgentVerifier.

(** ** What counts *)

(** The item is well formed, authoritative, about this action on this target for
    these criteria, from the required issuer, and captured after the action
    started. *)
Definition countable (spec : si_agent_verification_spec_t) (item : si_agent_evidence_t)
  : bool :=
  evidence_shape_valid item &&
  si_agent_evidence_kind_is_authoritative (ev_kind item) &&
  si_agent_evidence_issuer_is_authoritative (ev_issuer item) &&
  negb (sp_require_readback spec &&
        negb (ev_kind item =? enum_val SI_AGENT_EVIDENCE_READBACK)) &&
  negb (evidence_elsewhere spec item).

Definition decisive (spec : si_agent_verification_spec_t) (item : si_agent_evidence_t)
  : bool :=
  countable spec item &&
  negb (ev_outcome item =? enum_val SI_AGENT_EVIDENCE_OUTCOME_UNKNOWN).

(** The first decisive item and its position. *)
Fixpoint first_decisive (spec : si_agent_verification_spec_t)
    (evidence : list si_agent_evidence_t) (index : nat)
  : option (nat * si_agent_evidence_t) :=
  match evidence with
  | [] => None
  | item :: rest =>
      if decisive spec item then Some (index, item) else first_decisive spec rest (S index)
  end.

Definition accepted (item : si_agent_evidence_t) (index : nat)
    (r : si_agent_verification_result_t) : Prop :=
  vr_status r = (if ev_outcome item =? enum_val SI_AGENT_EVIDENCE_OUTCOME_MISMATCH
                 then SI_AGENT_VERIFY_FAILED else SI_AGENT_VERIFY_PASSED) /\
  vr_accepted_index r = Some index /\ vr_accepted_kind r = ev_kind item /\
  Some (vr_evidence_id r) = ev_evidence_id item.

Definition rejected (spec : si_agent_verification_spec_t)
    (evidence : list si_agent_evidence_t) (s : seen) (r : si_agent_verification_result_t)
  : Prop :=
  vr_status r =
    (if saw_unknown s || existsb (countable spec) evidence then SI_AGENT_VERIFY_UNKNOWN
     else if saw_invalid s || existsb (fun i => negb (evidence_shape_valid i)) evidence
     then SI_AGENT_VERIFY_INVALID else SI_AGENT_VERIFY_PENDING).

Lemma shape_id item :
  evidence_shape_valid item = true ->
  exists id, ev_evidence_id item = Some id /\ (length id <= SI_AGENT_VERIFY_ID_MAX_LEN)%nat.
Proof.
  unfold evidence_shape_valid. case_if; [done|]. case_if; [done|]. intros _. split_guards.
  match goal with H : bounded_nonempty (ev_evidence_id item) _ = true |- _ => rename H into Hb end.
  unfold bounded_nonempty in Hb. destruct (ev_evidence_id item) as [id|]; [|done].
  exists id. split; [done|]. case_if_in Hb; [done|]. to_props.
  unfold strnlen in Hb. lia.
Qed.

Lemma verify_loop_spec spec evidence index s r :
  (saw_authoritative s = true -> saw_unknown s = true) ->
  let out := verify_loop spec evidence index s r in
  match first_decisive spec evidence index with
  | Some (i, item) => accepted item i out
  | None => rejected spec evidence s out /\ vr_accepted_index out = vr_accepted_index r
  end.
Proof.
  revert index s. induction evidence as [|item rest IH]; intros index s Hs;
    cbv zeta; cbn [verify_loop first_decisive].
  { unfold rejected, undecided. cbn [existsb]. rewrite !orb_false_r.
    destruct (saw_unknown s); [done|]. destruct (saw_authoritative s); [by specialize (Hs eq_refl)|].
    destruct (saw_invalid s); [done|]. by destruct (sp_mutation spec). }
  destruct (evidence_shape_valid item) eqn:Hshape; cbn [negb].
  2: { assert (Hc : countable spec item = false) by (unfold countable; by rewrite Hshape).
       unfold decisive. rewrite Hc. cbn [andb].
       pose proof (IH (S index) (mk_seen (saw_authoritative s) (saw_unknown s) true) Hs) as H.
       destruct (first_decisive spec rest (S index)) as [[i it]|]; [exact H|].
       destruct H as [H1 H2]. split; [|done]. unfold rejected in *. rewrite H1.
       cbn [existsb saw_unknown saw_invalid]. rewrite Hshape, Hc. cbn. by rewrite orb_true_r. }
  assert (Hskip : countable spec item = false ->
    match (if decisive spec item then Some (index, item) else first_decisive spec rest (S index)) with
    | Some (i, item) => accepted item i (verify_loop spec rest (S index) s r)
    | None => rejected spec (item :: rest) s (verify_loop spec rest (S index) s r) /\
              vr_accepted_index (verify_loop spec rest (S index) s r) = vr_accepted_index r
    end).
  { intros Hc. unfold decisive. rewrite Hc. cbn [andb]. pose proof (IH (S index) s Hs) as H.
    destruct (first_decisive spec rest (S index)) as [[i it]|]; [exact H|].
    destruct H as [H1 H2]. split; [|done]. unfold rejected in *. rewrite H1.
    cbn [existsb]. rewrite Hshape, Hc. cbn. done. }
  destruct (negb _ || negb (si_agent_evidence_issuer_is_authoritative _)) eqn:Hki.
  { apply Hskip. unfold countable.
    apply orb_true_iff in Hki as [E|E]; apply negb_true_iff in E; rewrite E;
      by rewrite ?andb_false_r. }
  apply orb_false_elim in Hki as [Hk Hi]. apply negb_false_iff in Hk, Hi.
  destruct (sp_require_readback spec && negb _) eqn:Hrb.
  { apply Hskip. unfold countable. rewrite Hrb. cbn [negb]. by rewrite andb_false_r. }
  destruct (evidence_elsewhere spec item) eqn:Hel.
  { apply Hskip. unfold countable. rewrite Hel. cbn [negb]. by rewrite andb_false_r. }
  assert (Hc : countable spec item = true)
    by (unfold countable; by rewrite Hshape, Hk, Hi, Hrb, Hel).
  unfold decisive. rewrite Hc. cbn [andb].
  destruct (ev_outcome item =? enum_val SI_AGENT_EVIDENCE_OUTCOME_UNKNOWN); cbn [negb].
  - pose proof (IH (S index) (mk_seen true true (saw_invalid s)) ltac:(done)) as H.
    destruct (first_decisive spec rest (S index)) as [[i it]|]; [exact H|].
    destruct H as [H1 H2]. split; [|done]. unfold rejected in *. rewrite H1.
    cbn [existsb saw_unknown]. rewrite Hc. cbn. by rewrite orb_true_r.
  - destruct (shape_id item Hshape) as (id & Eid & Hid).
    unfold accepted. rewrite Eid. cbn [deref default].
    assert (Hfit : strtrunc (SI_AGENT_VERIFY_ID_MAX_LEN + 1) id = id)
      by (apply strtrunc_id; lia).
    case_if; (split_and!; [done | done | done |]); f_equal; exact Hfit.
Qed.

(** ** The verdict *)

Lemma verify_valid spec evidence :
  spec_valid spec = true -> evidence <> [] ->
  si_agent_verify (Some spec) (Some evidence) (length evidence) =
  verify_loop spec evidence 0 (mk_seen false false false)
    (mk_verification SI_AGENT_VERIFY_INVALID (enum_val SI_AGENT_EVIDENCE_NONE) None [] []).
Proof.
  intros Hs Hne. unfold si_agent_verify. rewrite Hs. cbn [negb orb].
  rewrite (bool_decide_eq_true_2 (is_Some _)) by eauto. cbn [negb].
  rewrite andb_false_r. destruct evidence as [|i rest]; [done|].
  cbn [default]. unfold id. by rewrite take_ge.
Qed.

(** The verdict, exactly. For a valid specification and some evidence the
    first decisive item decides: failed if it contradicts the expected effect,
    passed otherwise, with its position, kind and id reported. Without one the
    verdict is unknown if an item counts but is inconclusive, else invalid if an
    item is malformed, else pending; and an invalid specification or no evidence
    never passes or fails. *)
Theorem verdict_by_first_decisive spec evidence :
  spec_valid spec = true -> evidence <> [] ->
  let r := si_agent_verify (Some spec) (Some evidence) (length evidence) in
  match first_decisive spec evidence 0 with
  | Some (i, item) =>
      evidence !! i = Some item /\
      (forall j it, (j < i)%nat -> evidence !! j = Some it -> decisive spec it = false) /\
      accepted item i r
  | None => rejected spec evidence (mk_seen false false false) r /\ vr_accepted_index r = None
  end /\
  vr_status (si_agent_verify (Some spec) (Some []) 0) = SI_AGENT_VERIFY_PENDING /\
  vr_status (si_agent_verify None (Some evidence) (length evidence)) = SI_AGENT_VERIFY_INVALID.
Proof.
  intros Hs Hne r. split_and!; [| |done].
  - pose proof (verify_loop_spec spec evidence 0 (mk_seen false false false)
      (mk_verification SI_AGENT_VERIFY_INVALID (enum_val SI_AGENT_EVIDENCE_NONE) None [] [])
      ltac:(done)) as H.
    unfold r. rewrite verify_valid by done.
    assert (Hpos : forall n, match first_decisive spec evidence n with
      | Some (i, item) => exists k, i = (n + k)%nat /\ evidence !! k = Some item /\
          forall j it, (j < k)%nat -> evidence !! j = Some it -> decisive spec it = false
      | None => True end).
    { clear. induction evidence as [|item rest IH]; intros n; cbn; [done|].
      destruct (decisive spec item) eqn:Hd.
      - exists 0%nat. split_and!; [lia | done | lia].
      - specialize (IH (S n)). destruct (first_decisive spec rest (S n)) as [[i it]|]; [|done].
        destruct IH as (k & -> & Hk & Hbefore). exists (S k). split_and!; [lia | done |].
        intros [|j] it' Hj Hit; cbn in Hit; [by injection Hit as <-|].
        apply (Hbefore j); [lia | done]. }
    specialize (Hpos 0%nat). destruct (first_decisive spec evidence 0) as [[i item]|]; [|done].
    destruct Hpos as (k & -> & Hk & Hbefore). done.
  - unfold si_agent_verify. rewrite Hs. done.
Qed.

Definition demo_hash : cstring := replicate 64 (ch "a").

Definition demo_spec : si_agent_verification_spec_t :=
  mk_spec true false 1000 (Some (cstr "act-1")) (Some (cstr "host-1")) (Some demo_hash) 4
    (enum_val SI_AGENT_EVIDENCE_ISSUER_DEVICE_OBSERVER).

Definition demo_item (kind outcome issuer captured : Z) : si_agent_evidence_t :=
  mk_evidence kind outcome captured (Some (cstr "ev-1")) (Some demo_hash)
    (Some (cstr "act-1")) (Some (cstr "host-1")) (Some demo_hash) 5 issuer.

(** A tool return that claims success, a stale match, an inconclusive
    observation and a fresh match. *)
Definition demo_evidence : list si_agent_evidence_t :=
  [demo_item 4 1 4 2000; demo_item 1 1 2 900; demo_item 1 0 2 1500; demo_item 3 1 2 1600].

Lemma verdict_by_first_decisive_witness :
  first_decisive demo_spec demo_evidence 0 = Some (3%nat, demo_item 3 1 2 1600) /\
  accepted (demo_item 3 1 2 1600) 3
    (si_agent_verify (Some demo_spec) (Some demo_evidence) (length demo_evidence)).
Proof.
  assert (E : first_decisive demo_spec demo_evidence 0 = Some (3%nat, demo_item 3 1 2 1600))
    by by_eval.
  split; [exact E|].
  destruct (verdict_by_first_decisive demo_spec demo_evidence) as [H _]; [by_eval | done |].
  rewrite E in H. apply H.
Defined.

(** ** Only authoritative evidence decides *)

Lemma first_decisive_filter spec ev n m :
  snd <$> first_decisive spec ev n =
  snd <$> first_decisive spec (filter (fun i => countable spec i = true) ev) m.
Proof.
  revert n m. induction ev as [|item rest IH]; intros n m; [done|]. cbn [first_decisive].
  destruct (countable spec item) eqn:Hc.
  - rewrite filter_cons_True by done. cbn [first_decisive].
    destruct (decisive spec item); [done|]. apply IH.
  - rewrite filter_cons_False by congruence. unfold decisive. rewrite Hc. apply IH.
Qed.

Lemma countable_facts spec item :
  countable spec item = true ->
  si_agent_evidence_kind_is_authoritative (ev_kind item) = true /\
  si_agent_evidence_issuer_is_authoritative (ev_issuer item) = true /\
  ev_issuer item = sp_required_issuer spec /\
  (sp_require_readback spec = true -> ev_kind item = enum_val SI_AGENT_EVIDENCE_READBACK) /\
  ev_action_id item = sp_action_id spec /\ ev_target_identity item = sp_target_identity spec /\
  ev_completion_criteria_hash item = sp_completion_criteria_hash spec /\
  sp_minimum_generation spec <= ev_generation item /\
  sp_action_started_ms spec < ev_captured_ms item.
Proof.
  assert (Hsame : forall a b n, same_required a b n = true -> b = a).
  { intros a b n. unfold same_required, bounded_nonempty. intros H. split_guards.
    destruct a, b; try done. cbn in *. congruence. }
  unfold countable, evidence_elsewhere. intros H. split_guards. to_props.
  split_and!; try done; try by eapply Hsame.
  intros Hr. rewrite Hr in *. cbn [andb] in *. split_guards. by apply Z.eqb_eq.
Qed.

(** Success claims are not evidence. A verdict of passed rests on an item
    that is an observation, an artifact or a read-back (a read-back where one is
    required) from the required authoritative issuer, for the same action, target
    and completion criteria, of a recent enough generation and captured strictly
    after the action started, that matches the expected effect; and tool
    returns, model statements, stale or foreign items, however many and wherever
    they stand, change neither a pass nor a failure nor the id reported. *)
Theorem only_fresh_evidence_decides spec ev ev' :
  spec_valid spec = true -> ev <> [] -> ev' <> [] ->
  filter (fun i => countable spec i = true) ev' = filter (fun i => countable spec i = true) ev ->
  let r := si_agent_verify (Some spec) (Some ev) (length ev) in
  let r' := si_agent_verify (Some spec) (Some ev') (length ev') in
  vr_status r = SI_AGENT_VERIFY_PASSED \/ vr_status r = SI_AGENT_VERIFY_FAILED ->
  (vr_status r' = vr_status r /\ vr_evidence_id r' = vr_evidence_id r) /\
  exists i item, vr_accepted_index r = Some i /\ ev !! i = Some item /\
    ev_issuer item = sp_required_issuer spec /\
    si_agent_evidence_kind_is_authoritative (ev_kind item) = true /\
    (sp_require_readback spec = true -> ev_kind item = enum_val SI_AGENT_EVIDENCE_READBACK) /\
    ev_action_id item = sp_action_id spec /\
    ev_target_identity item = sp_target_identity spec /\
    ev_completion_criteria_hash item = sp_completion_criteria_hash spec /\
    sp_minimum_generation spec <= ev_generation item /\
    sp_action_started_ms spec < ev_captured_ms item /\
    (vr_status r = SI_AGENT_VERIFY_PASSED ->
     ev_outcome item <> enum_val SI_AGENT_EVIDENCE_OUTCOME_MISMATCH /\
     ev_outcome item <> enum_val SI_AGENT_EVIDENCE_OUTCOME_UNKNOWN).
Proof.
  intros Hs Hne Hne' Hf r r' Hst.
  assert (Hloop : forall e, e <> [] -> let out := si_agent_verify (Some spec) (Some e) (length e) in
    match first_decisive spec e 0 with
    | Some (i, item) => accepted item i out
    | None => rejected spec e (mk_seen false false false) out end).
  { intros e He. cbv zeta. rewrite verify_valid by done.
    pose proof (verify_loop_spec spec e 0 (mk_seen false false false)
      (mk_verification SI_AGENT_VERIFY_INVALID (enum_val SI_AGENT_EVIDENCE_NONE) None [] [])
      ltac:(done)) as H.
    destruct (first_decisive spec e 0) as [[? ?]|]; [exact H | apply H]. }
  pose proof (Hloop ev Hne) as H. pose proof (Hloop ev' Hne') as H'. cbv zeta in H, H'.
  fold r in H. fold r' in H'. clear Hloop.
  assert (Hfd : snd <$> first_decisive spec ev' 0 = snd <$> first_decisive spec ev 0).
  { rewrite (first_decisive_filter spec ev' 0 0), Hf. symmetry. apply first_decisive_filter. }
  destruct (first_decisive spec ev 0) as [[i item]|] eqn:E.
  2: { exfalso. unfold rejected in H. rewrite H in Hst. by case_ifs; destruct Hst. }
  destruct (first_decisive spec ev' 0) as [[i' item']|]; [|done]. injection Hfd as ->.
  destruct H as (H1 & H2 & H3 & H4), H' as (H1' & H2' & H3' & H4').
  split; [split; congruence|]. exists i, item. split; [done|].
  assert (Hin : decisive spec item = true /\ ev !! i = Some item).
  { clear - E. assert (G : forall l n, first_decisive spec l n = Some (i, item) ->
      decisive spec item = true /\ exists k, i = (n + k)%nat /\ l !! k = Some item).
    { induction l as [|x l IH]; intros n; cbn; [done|]. destruct (decisive spec x) eqn:D.
      - intros [= <- <-]. split; [done|]. exists 0%nat. split; [lia|done].
      - intros Hl. destruct (IH _ Hl) as (? & k & -> & Hk). split; [done|].
        exists (S k). split; [lia|done]. }
    destruct (G ev 0%nat E) as (? & k & -> & ?). done. }
  destruct Hin as [Hd Hin]. unfold decisive in Hd. apply andb_true_iff in Hd as [Hc Ho].
  destruct (countable_facts spec item Hc) as (F1 & F2 & F3 & F4 & F5 & F6 & F7 & F8 & F9).
  split_and!; try done. intros Hp. rewrite H1 in Hp. case_if_in Hp; [done|].
  split_guards. to_props. done.
Qed.

Lemma only_fresh_evidence_decides_witness :
  vr_status (si_agent_verify (Some demo_spec) (Some [demo_item 3 1 2 1600; demo_item 5 2 5 3000]) 2)
  = vr_status (si_agent_verify (Some demo_spec) (Some [demo_item 3 1 2 1600]) 1).
Proof.
  destruct (only_fresh_evidence_decides demo_spec [demo_item 3 1 2 1600]
              [demo_item 3 1 2 1600; demo_item 5 2 5 3000]) as [[H _] _];
    [by_eval | done | done | by_eval | left; by_eval | exact H].
Defined.
