(* ===== verification/BootKeySequence.v ===== *)
(** * Boot key sequences: [core/boot_key_sequence.c]

    The timed repetition of a firmware hot key after a reset: the validation of
    a sequence, the decision of the polling loop, and their schedule. *)

From S2P Require Import Prelude CText.

Definition SI_BOOT_KEY_PROFILE_ID_MAX : nat := 31.
Definition SI_BOOT_KEY_CODE_MAX : nat := 15.

Inductive si_boot_key_target_t :=
| SI_BOOT_KEY_TARGET_INVALID | SI_BOOT_KEY_TARGET_BIOS_SETUP | SI_BOOT_KEY_TARGET_BOOT_MENU.

Inductive si_boot_key_trigger_t :=
| SI_BOOT_KEY_TRIGGER_NONE | SI_BOOT_KEY_TRIGGER_RESET.

Inductive si_boot_key_decision_t :=
| SI_BOOT_KEY_DECISION_WAIT | SI_BOOT_KEY_DECISION_WAIT_HID | SI_BOOT_KEY_DECISION_SEND
| SI_BOOT_KEY_DECISION_COMPLETE | SI_BOOT_KEY_DECISION_CANCEL
| SI_BOOT_KEY_DECISION_PREEMPT | SI_BOOT_KEY_DECISION_TIMEOUT.

#[export] Instance boot_target_eq_dec : EqDecision si_boot_key_target_t.
Proof. solve_decision. Defined.
#[export] Instance boot_trigger_eq_dec : EqDecision si_boot_key_trigger_t.
Proof. solve_decision. Defined.
#[export] Instance boot_decision_eq_dec : EqDecision si_boot_key_decision_t.
Proof. solve_decision. Defined.

#[export] Instance boot_target_enum : CEnum si_boot_key_target_t.
Proof.
  enum_of [SI_BOOT_KEY_TARGET_INVALID; SI_BOOT_KEY_TARGET_BIOS_SETUP;
           SI_BOOT_KEY_TARGET_BOOT_MENU].
Defined.
#[export] Instance boot_trigger_enum : CEnum si_boot_key_trigger_t.
Proof. enum_of [SI_BOOT_KEY_TRIGGER_NONE; SI_BOOT_KEY_TRIGGER_RESET]. Defined.
#[export] Instance boot_decision_enum : CEnum si_boot_key_decision_t.
Proof.
  enum_of [SI_BOOT_KEY_DECISION_WAIT; SI_BOOT_KEY_DECISION_WAIT_HID;
           SI_BOOT_KEY_DECISION_SEND; SI_BOOT_KEY_DECISION_COMPLETE;
           SI_BOOT_KEY_DECISION_CANCEL; SI_BOOT_KEY_DECISION_PREEMPT;
           SI_BOOT_KEY_DECISION_TIMEOUT].
Defined.

Record si_boot_key_sequence_config_t := mk_boot_config {
  profile_id : cstring;
  target : Z;
  trigger : Z;
  key_code : cstring;
  start_delay_ms : Z;
  interval_ms : Z;
  max_attempts : Z;
  total_timeout_ms : Z
}.

Definition safe_profile_id (value : cstring) : bool :=
  match value with
  | [] => false
  | first :: _ =>
      return_if (SI_BOOT_KEY_PROFILE_ID_MAX <? length value)%nat || negb (isalnum first)
        with false ;;
      forallb (fun c => isalnum c || (c =? ch "-") || (c =? ch "_") || (c =? ch ".")) value
  end.

Definition allowed_boot_keys : list cstring :=
  [cstr "Delete"; cstr "Escape"; cstr "F1"; cstr "F2"; cstr "F3"; cstr "F4"; cstr "F5";
   cstr "F6"; cstr "F7"; cstr "F8"; cstr "F9"; cstr "F10"; cstr "F11"; cstr "F12"].

Definition allowed_boot_key (key_code : cstring) : bool :=
  return_if is_empty key_code || (SI_BOOT_KEY_CODE_MAX <? length key_code)%nat with false ;;
  existsb (streq key_code) allowed_boot_keys.

Definition si_boot_key_sequence_validate (config : option si_boot_key_sequence_config_t)
  : bool :=
  match config with
  | None => false
  | Some c =>
      return_if negb (safe_profile_id (profile_id c)) ||
                negb (allowed_boot_key (key_code c)) ||
                (negb (target c =? enum_val SI_BOOT_KEY_TARGET_BIOS_SETUP) &&
                 negb (target c =? enum_val SI_BOOT_KEY_TARGET_BOOT_MENU)) ||
                (negb (trigger c =? enum_val SI_BOOT_KEY_TRIGGER_NONE) &&
                 negb (trigger c =? enum_val SI_BOOT_KEY_TRIGGER_RESET)) ||
                (10000 <? start_delay_ms c) ||
                (interval_ms c <? 100) || (5000 <? interval_ms c) ||
                (max_attempts c <? 1) || (20 <? max_attempts c) ||
                (total_timeout_ms c <? 1000) || (60000 <? total_timeout_ms c)
        with false ;;
      let last_due :=
        u32 (start_delay_ms c + u32 (u32 (max_attempts c - 1) * interval_ms c)) in
      (last_due <=? UINT32_MAX - 100) && (u32 (last_due + 100) <=? total_timeout_ms c)
  end.

Definition si_boot_key_sequence_decide (config : option si_boot_key_sequence_config_t)
    (elapsed_ms attempts_sent : Z)
    (cancel_requested human_kvm_active lease_held hid_ready : bool)
  : si_boot_key_decision_t :=
  return_if negb (si_boot_key_sequence_validate config) with SI_BOOT_KEY_DECISION_CANCEL ;;
  match config with
  | None => SI_BOOT_KEY_DECISION_CANCEL
  | Some c =>
      return_if cancel_requested with SI_BOOT_KEY_DECISION_CANCEL ;;
      return_if human_kvm_active || negb lease_held with SI_BOOT_KEY_DECISION_PREEMPT ;;
      return_if max_attempts c <=? attempts_sent with SI_BOOT_KEY_DECISION_COMPLETE ;;
      return_if total_timeout_ms c <=? elapsed_ms with SI_BOOT_KEY_DECISION_TIMEOUT ;;
      return_if negb hid_ready with SI_BOOT_KEY_DECISION_WAIT_HID ;;
      let next_due := u32 (start_delay_ms c + u32 (attempts_sent * interval_ms c)) in
      if next_due <=? elapsed_ms then SI_BOOT_KEY_DECISION_SEND
      else SI_BOOT_KEY_DECISION_WAIT
  end.

Definition si_boot_key_target_name (target : Z) : cstring :=
  match enum_of_Z target with
  | Some SI_BOOT_KEY_TARGET_BIOS_SETUP => cstr "bios_setup"
  | Some SI_BOOT_KEY_TARGET_BOOT_MENU => cstr "boot_menu"
  | _ => cstr "invalid"
  end.

Definition si_boot_key_trigger_name (trigger : Z) : cstring :=
  match enum_of_Z trigger with
  | Some SI_BOOT_KEY_TRIGGER_NONE => cstr "none"
  | Some SI_BOOT_KEY_TRIGGER_RESET => cstr "reset"
  | None => cstr "invalid"
  end.

Definition si_boot_key_decision_name (decision : Z) : cstring :=
  match enum_of_Z decision with
  | Some SI_BOOT_KEY_DECISION_WAIT => cstr "wait"
  | Some SI_BOOT_KEY_DECISION_WAIT_HID => cstr "wait_hid"
  | Some SI_BOOT_KEY_DECISION_SEND => cstr "send"
  | Some SI_BOOT_KEY_DECISION_COMPLETE => cstr "complete"
  | Some SI_BOOT_KEY_DECISION_CANCEL => cstr "cancel"
  | Some SI_BOOT_KEY_DECISION_PREEMPT => cstr "preempt"
  | Some SI_BOOT_KEY_DECISION_TIMEOUT => cstr "timeout"
  | None => cstr "unknown"
  end.
