(* ===== verification/BootKeySequenceProps.v ===== *)
(** * Boot key sequences: properties

    A valid sequence cannot overflow its schedule, and a loop that polls often
    enough sends every attempt on time. *)

From S2P Require Import Prelude BootKeySequence.

(** When the [k]-th attempt is due. *)
Definition due (c : si_boot_key_sequence_config_t) (k : Z) : Z :=
  start_delay_ms c + k * interval_ms c.

Definition boot_config_ok (c : si_boot_key_sequence_config_t) : Prop :=
  0 <= start_delay_ms c /\ 0 <= max_attempts c < 256.

#[export] Instance boot_config_ok_dec c : Decision (boot_config_ok c).
Proof. unfold boot_config_ok. apply _. Defined.

Lemma valid_schedule c :
  boot_config_ok c -> si_boot_key_sequence_validate (Some c) = true ->
  0 <= start_delay_ms c <= 10000 /\ 100 <= interval_ms c <= 5000 /\
  1 <= max_attempts c <= 20 /\ 1000 <= total_timeout_ms c <= 60000 /\
  due c (max_attempts c - 1) + 100 <= total_timeout_ms c.
Proof.
  intros [Hs Hm]. unfold si_boot_key_sequence_validate, due. case_if; [done|]. cbv zeta.
  intros H. split_guards. to_props.
  assert (Hprod : 0 <= (max_attempts c - 1) * interval_ms c <= 19 * 5000) by nia.
  rewrite (u32_small (max_attempts c - 1)) in * by (unfold is_u32; lia).
  rewrite (u32_small (_ * interval_ms c)) in * by (unfold is_u32; lia).
  rewrite (u32_small (start_delay_ms c + _)) in * by (unfold is_u32; lia).
  rewrite u32_small in * by (unfold is_u32; lia). lia.
Qed.

(** The schedule of a valid sequence, as the code computes it. *)
Lemma next_due_exact c k :
  boot_config_ok c -> si_boot_key_sequence_validate (Some c) = true ->
  0 <= k < max_attempts c ->
  u32 (start_delay_ms c + u32 (k * interval_ms c)) = due c k /\
  due c k + 100 <= total_timeout_ms c /\ due c k + 100 <= due c (k + 1).
Proof.
  intros Hok Hv Hk. destruct (valid_schedule c Hok Hv) as (H1 & H2 & H3 & H4 & H5).
  unfold due in *. assert (Hprod : 0 <= k * interval_ms c <= (max_attempts c - 1) * interval_ms c) by nia.
  rewrite (u32_small (k * interval_ms c)) by (unfold is_u32; lia).
  rewrite u32_small by (unfold is_u32; lia). lia.
Qed.

(** A key goes out only when it may. [decide] says send exactly when the
    sequence is valid, nothing cancels or preempts it, the lease is held, the
    keyboard is ready, attempts are left, and the time since the trigger is
    between the attempt's due time (computed without overflow) and the timeout,
    which leaves at least 100 ms after every due time. *)
Theorem send_exactly_when_due c elapsed sent cancel human lease hid :
  boot_config_ok c -> 0 <= sent -> 0 <= elapsed ->
  (si_boot_key_sequence_decide (Some c) elapsed sent cancel human lease hid
     = SI_BOOT_KEY_DECISION_SEND <->
   si_boot_key_sequence_validate (Some c) = true /\ cancel = false /\ human = false /\
   lease = true /\ hid = true /\ sent < max_attempts c /\
   due c sent <= elapsed < total_timeout_ms c) /\
  (si_boot_key_sequence_validate (Some c) = true -> sent < max_attempts c ->
   due c sent + 100 <= total_timeout_ms c) /\
  si_boot_key_sequence_decide None elapsed sent cancel human lease hid
    = SI_BOOT_KEY_DECISION_CANCEL.
Proof.
  intros Hok Hs He. split_and!; [| |done].
  - unfold si_boot_key_sequence_decide.
    destruct (si_boot_key_sequence_validate (Some c)) eqn:Hv; cbn [negb].
    2: { split; [done|]. by intros [? _]. }
    destruct cancel; [split; [done | by intros (_ & ? & _)]|].
    destruct human; [split; [done | by intros (_ & _ & ? & _)]|].
    destruct lease; [|split; [done | by intros (_ & _ & _ & ? & _)]]. cbn [orb negb].
    destruct (Z.leb_spec (max_attempts c) sent); [split; [done | lia]|].
    destruct (Z.leb_spec (total_timeout_ms c) elapsed); [split; [done | lia]|].
    destruct hid; [|split; [done | by intros (_ & _ & _ & _ & ? & _)]]. cbn [negb].
    destruct (next_due_exact c sent Hok Hv ltac:(lia)) as (-> & _ & _).
    destruct (Z.leb_spec (due c sent) elapsed); split; try done; lia.
  - intros Hv Hlt. by destruct (next_due_exact c sent Hok Hv ltac:(lia)) as (_ & ? & _).
Qed.

Definition demo_boot : si_boot_key_sequence_config_t :=
  mk_boot_config (cstr "dell-bios") 1 1 (cstr "F2") 500 250 4 2000.

Lemma send_exactly_when_due_witness :
  si_boot_key_sequence_decide (Some demo_boot) 760 1 false false true true
    = SI_BOOT_KEY_DECISION_SEND.
Proof.
  destruct (send_exactly_when_due demo_boot 760 1 false false true true) as [[_ H] _];
    [by_decide | lia | lia |].
  apply H. unfold due. split_and!; first [by_eval | vm_compute; congruence].
Defined.

(** ** The polling loop *)

(** The times at which an undisturbed loop polling at [polls] sends. *)
Fixpoint send_times (c : si_boot_key_sequence_config_t) (sent : Z) (polls : list Z)
  : list Z :=
  match polls with
  | [] => []
  | e :: polls =>
      match si_boot_key_sequence_decide (Some c) e sent false false true true with
      | SI_BOOT_KEY_DECISION_SEND => e :: send_times c (sent + 1) polls
      | _ => send_times c sent polls
      end
  end.

(** Polls that are never more than 100 ms apart, from [prev] to the timeout. *)
Fixpoint polls_cover (c : si_boot_key_sequence_config_t) (prev : Z) (polls : list Z) : Prop :=
  match polls with
  | [] => total_timeout_ms c <= prev
  | e :: polls => prev <= e <= prev + 100 /\ polls_cover c e polls
  end.

(** The [i]-th time is within 100 ms after attempt [k + i] is due. *)
Fixpoint on_schedule (c : si_boot_key_sequence_config_t) (k : Z) (times : list Z) : Prop :=
  match times with
  | [] => True
  | t :: times => due c k <= t < due c k + 100 /\ on_schedule c (k + 1) times
  end.

Lemma send_times_done c polls :
  boot_config_ok c -> si_boot_key_sequence_validate (Some c) = true ->
  send_times c (max_attempts c) polls = [].
Proof.
  intros Hok Hv. induction polls as [|e polls IH]; cbn [send_times]; [done|].
  unfold si_boot_key_sequence_decide. rewrite Hv. cbn [negb orb].
  rewrite (proj2 (Z.leb_le _ _)) by lia. exact IH.
Qed.

Lemma send_times_schedule c sent prev polls :
  boot_config_ok c -> si_boot_key_sequence_validate (Some c) = true ->
  0 <= sent <= max_attempts c -> (sent < max_attempts c -> prev < due c sent) ->
  polls_cover c prev polls ->
  Z.of_nat (length (send_times c sent polls)) = max_attempts c - sent /\
  on_schedule c sent (send_times c sent polls).
Proof.
  intros Hok Hv. revert sent prev.
  induction polls as [|e polls IH]; intros sent prev Hs Hp Hc; cbn [send_times].
  - cbn in *. destruct (decide (sent = max_attempts c)) as [->|Hne]; [split; [lia|done]|].
    destruct (next_due_exact c sent Hok Hv ltac:(lia)) as (_ & H & _). lia.
  - destruct Hc as [He Hc].
    destruct (decide (sent = max_attempts c)) as [->|Hne].
    { pose proof (send_times_done c (e :: polls) Hok Hv) as E. cbn [send_times] in E.
      rewrite E. split; [cbn; lia|done]. }
    specialize (Hp ltac:(lia)).
    destruct (next_due_exact c sent Hok Hv ltac:(lia)) as (Hd & Ht & Hn).
    unfold si_boot_key_sequence_decide. rewrite Hv. cbn [negb orb].
    rewrite (proj2 (Z.leb_gt _ sent)) by lia.
    rewrite (proj2 (Z.leb_gt _ e)) by lia. rewrite Hd.
    destruct (Z.leb_spec (due c sent) e) as [Hle|Hgt].
    + destruct (IH (sent + 1) e) as [Hlen Hsch]; [lia | lia | done |].
      cbn [length on_schedule]. split; [lia|]. split; [lia|done].
    + destruct (IH sent e) as [Hlen Hsch]; [lia | lia | done |]. done.
Qed.

(** An undisturbed loop that polls at least every 100 ms from the trigger
    to the timeout sends every attempt of a valid sequence, no more and no
    fewer, and each within 100 ms after it is due: the timeout never cuts a
    sequence short. *)
Theorem polling_loop_sends_all c p0 polls :
  boot_config_ok c -> si_boot_key_sequence_validate (Some c) = true ->
  0 <= p0 < 100 -> polls_cover c p0 polls ->
  Z.of_nat (length (send_times c 0 (p0 :: polls))) = max_attempts c /\
  on_schedule c 0 (send_times c 0 (p0 :: polls)).
Proof.
  intros Hok Hv Hp Hc. destruct (valid_schedule c Hok Hv) as (H1 & H2 & H3 & _).
  destruct (send_times_schedule c 0 (-1) (p0 :: polls)) as [Hl Hs]; try done.
  - lia.
  - unfold due. lia.
  - cbn [polls_cover]. split; [lia|done].
  - split; [lia|done].
Qed.

Definition demo_polls : list Z := (fun i => 90 * Z.of_nat i) <$> seq 1 23.

Lemma polling_loop_sends_all_witness :
  Z.of_nat (length (send_times demo_boot 0 (0 :: demo_polls))) = 4.
Proof.
  destruct (polling_loop_sends_all demo_boot 0 demo_polls) as [H _];
    [by_decide | by_eval | lia | |exact H].
  cbn. repeat split; lia.
Defined.
