(* ===== verification/StoragePath.v ===== *)
(** * Storage paths: [core/storage_path.c]

    The percent decoding of a URL path in its own buffer and the resolution of
    a requested path under the storage root. *)

From S2P Require Import Prelude CText.

Inductive si_storage_path_result_t :=
| SI_STORAGE_PATH_OK
| SI_STORAGE_PATH_INVALID_ARGUMENT
| SI_STORAGE_PATH_TOO_LONG.

#[export] Instance storage_path_result_eq_dec : EqDecision si_storage_path_result_t.
Proof. solve_decision. Defined.

Definition SI_STORAGE_PATH_SEGMENT_MAX : nat := 192.

Definition equals_ci (a b : option cstring) : bool :=
  match a, b with Some a, Some b => strcaseeq a b | _, _ => false end.

Definition known_top_dirs : list cstring :=
  [cstr "AGENT"; cstr "ASSETS"; cstr "EXPORTS"; cstr "LOGS"; cstr "MCP"; cstr "OTA";
   cstr "SNAPSHOTS"].

Definition canonical_top_dir (segment : cstring) : cstring :=
  default segment
    (head (filter (fun k => equals_ci (Some segment) (Some k) = true) known_top_dirs)).

(** [out] is the string in the buffer; the result carries its new value. *)
Definition append_segment (out : cstring) (out_size : nat) (segment : cstring)
  : si_storage_path_result_t * cstring :=
  let current := length out in
  let segment_len := length segment in
  let separator_len := if (0 <? current)%nat then 1%nat else 0%nat in
  return_if (out_size <=? current + separator_len + segment_len)%nat
    with (SI_STORAGE_PATH_TOO_LONG, out) ;;
  (SI_STORAGE_PATH_OK,
   (if (0 <? separator_len)%nat then out ++ [ch "/"] else out) ++ segment).

Definition hex_value (c : Z) : Z :=
  return_if (ch "0" <=? c) && (c <=? ch "9") with c - ch "0" ;;
  return_if (ch "a" <=? c) && (c <=? ch "f") with c - ch "a" + 10 ;;
  return_if (ch "A" <=? c) && (c <=? ch "F") with c - ch "A" + 10 ;;
  -1.

(** The byte a pointer at offset [i] reads; a string buffer has its zero. *)
Definition char_at (buf : list Z) (i : nat) : Z := nth i buf 0.

(** The decoding loop on the one buffer both pointers walk: [src] and [dst] are
    their offsets. *)
Fixpoint url_decode_loop (fuel : nat) (buf : list Z) (src dst : nat)
  : option (si_storage_path_result_t * list Z) :=
  match fuel with
  | O => None
  | S fuel =>
      let c := char_at buf src in
      return_if c =? 0 with Some (SI_STORAGE_PATH_OK, <[dst := 0]> buf) ;;
      if c =? ch "%" then
        return_if (char_at buf (src + 1) =? 0) || (char_at buf (src + 2) =? 0)
          with Some (SI_STORAGE_PATH_INVALID_ARGUMENT, buf) ;;
        let hi := hex_value (char_at buf (src + 1)) in
        let lo := hex_value (char_at buf (src + 2)) in
        return_if (hi <? 0) || (lo <? 0)
          with Some (SI_STORAGE_PATH_INVALID_ARGUMENT, buf) ;;
        let decoded := Z.lor (Z.shiftl hi 4) lo in
        return_if decoded =? 0 with Some (SI_STORAGE_PATH_INVALID_ARGUMENT, buf) ;;
        url_decode_loop fuel (<[dst := decoded]> buf) (src + 3) (dst + 1)
      else
        url_decode_loop fuel (<[dst := if c =? ch "+" then ch " " else c]> buf)
          (src + 1) (dst + 1)
  end.

(** The buffer after the call; each turn moves [src] forward, so the length of
    the buffer is enough fuel. *)
Definition si_storage_url_decode_inplace (value : option (list Z))
  : option (si_storage_path_result_t * list Z) :=
  match value with
  | None => Some (SI_STORAGE_PATH_INVALID_ARGUMENT, [])
  | Some buf => url_decode_loop (S (length buf)) buf 0 0
  end.

Fixpoint skip_slashes (s : cstring) : cstring :=
  match s with
  | c :: s' => if c =? ch "/" then skip_slashes s' else s
  | [] => []
  end.

(** The bytes up to the next slash, and the rest from it. *)
Fixpoint take_segment (s : cstring) : cstring * cstring :=
  match s with
  | [] => ([], [])
  | c :: s' =>
      return_if c =? ch "/" with ([], s) ;;
      let '(seg, rest) := take_segment s' in (c :: seg, rest)
  end.

Fixpoint canonicalize_loop (fuel : nat) (cursor out : cstring) (out_size index : nat)
  : option (si_storage_path_result_t * cstring) :=
  match fuel with
  | O => None
  | S fuel =>
      return_if is_empty cursor with Some (SI_STORAGE_PATH_OK, out) ;;
      let cursor := skip_slashes cursor in
      return_if is_empty cursor with Some (SI_STORAGE_PATH_OK, out) ;;
      let '(segment, cursor) := take_segment cursor in
      let len := length segment in
      return_if (len =? 0)%nat with canonicalize_loop fuel cursor out out_size index ;;
      return_if (SI_STORAGE_PATH_SEGMENT_MAX <=? len)%nat
        with Some (SI_STORAGE_PATH_TOO_LONG, out) ;;
      let canonical := if (index =? 0)%nat then canonical_top_dir segment else segment in
      let '(ret, out) := append_segment out out_size canonical in
      match ret with
      | SI_STORAGE_PATH_OK => canonicalize_loop fuel cursor out out_size (index + 1)
      | _ => Some (ret, out)
      end
  end.

Definition canonicalize_relative_path (input : option cstring) (out_size : nat)
  : option (si_storage_path_result_t * cstring) :=
  return_if (out_size =? 0)%nat with Some (SI_STORAGE_PATH_INVALID_ARGUMENT, []) ;;
  return_if is_empty (deref input) with Some (SI_STORAGE_PATH_OK, []) ;;
  canonicalize_loop (S (length (deref input))) (deref input) [] out_size 0.

(** The character rules of a path; [prev] is the byte before the cursor. *)
Fixpoint path_chars_ok (prev : option Z) (path : cstring) : bool :=
  match path with
  | [] => true
  | c :: rest =>
      return_if (c <? 32) || (c =? 127) with false ;;
      let segment_start := match prev with None => true | Some p => p =? ch "/" end in
      let segment_end := match rest with [] => true | n :: _ => n =? ch "/" end in
      return_if (segment_start && (c =? ch " ")) ||
                (segment_end && ((c =? ch ".") || (c =? ch " "))) with false ;;
      path_chars_ok (Some c) rest
  end.

(** The request with its mount prefixes removed. *)
Definition strip_prefixes (input : option cstring) : cstring :=
  let path := skip_slashes (deref input) in
  let path := if starts_with (cstr "sdcard/") path then drop 7 path else path in
  if starts_with (cstr "EA") path &&
     ((char_at path 2 =? 0) || (char_at path 2 =? ch "/")) then
    let path := drop 2 path in
    if char_at path 0 =? ch "/" then drop 1 path else path
  else path.

Record resolved := mk_resolved {
  ret : si_storage_path_result_t;
  relative_path : option cstring;
  absolute_path : option cstring
}.

(** The buffers hold strings on entry; a NULL buffer is [None]. *)
Definition si_storage_resolve_path (input storage_root : option cstring)
    (relative : option cstring) (relative_path_size : nat)
    (absolute : option cstring) (absolute_path_size : nat) : option resolved :=
  match storage_root, relative, absolute with
  | Some root, Some _, Some _ =>
      return_if (relative_path_size =? 0)%nat || (absolute_path_size =? 0)%nat
        with Some (mk_resolved SI_STORAGE_PATH_INVALID_ARGUMENT relative absolute) ;;
      let path := strip_prefixes input in
      return_if (relative_path_size <=? length path)%nat || has_char (ch "\") path ||
                has_char (ch ":") path || contains_str (cstr "..") path
        with Some (mk_resolved SI_STORAGE_PATH_INVALID_ARGUMENT (Some []) (Some [])) ;;
      return_if negb (path_chars_ok None path)
        with Some (mk_resolved SI_STORAGE_PATH_INVALID_ARGUMENT (Some []) (Some [])) ;;
      match canonicalize_relative_path (Some path) relative_path_size with
      | Some (SI_STORAGE_PATH_OK, r) =>
          let written := if is_empty r then root else format (cstr "%s/%s") [root; r] in
          return_if (absolute_path_size <=? length written)%nat
            with Some (mk_resolved SI_STORAGE_PATH_TOO_LONG (Some r) (Some [])) ;;
          Some (mk_resolved SI_STORAGE_PATH_OK (Some r) (Some written))
      | Some (e, r) => Some (mk_resolved e (Some r) (Some []))
      | None => None
      end
  | _, _, _ => Some (mk_resolved SI_STORAGE_PATH_INVALID_ARGUMENT relative absolute)
  end.

Definition si_storage_path_is_file_target (relative_path : option cstring) : bool :=
  ptr_test (fun r => negb (is_empty r)) relative_path.

Definition si_storage_path_is_internal (relative_path : option cstring) : bool :=
  ptr_test (fun r => starts_with (cstr "AGENT") r &&
                     ((char_at r 5 =? 0) || (char_at r 5 =? ch "/"))) relative_path.
