(* ===== verification/StoragePathProps.v ===== *)
(** * Storage paths: properties

    In-place decoding equals a decoder on strings, and a resolved path never
    leaves the storage root. *)

From S2P Require Import Prelude CText StoragePath.

(** ** Decoding *)

(** The decoder on strings: the reference. *)
Fixpoint url_decoded (s : cstring) : option cstring :=
  match s with
  | [] => Some []
  | c :: s1 =>
      if c =? ch "%" then
        match s1 with
        | h :: l :: s2 =>
            if (hex_value h <? 0) || (hex_value l <? 0) ||
               (16 * hex_value h + hex_value l =? 0) then None
            else option_map (cons (16 * hex_value h + hex_value l)) (url_decoded s2)
        | _ => None
        end
      else option_map (cons (if c =? ch "+" then ch " " else c)) (url_decoded s1)
  end.

Lemma hex_value_range c : -1 <= hex_value c < 16.
Proof.
  unfold hex_value. change (ch "0") with 48. change (ch "9") with 57.
  change (ch "a") with 97. change (ch "f") with 102.
  change (ch "A") with 65. change (ch "F") with 70.
  case_ifs; split_guards; to_props; lia.
Qed.

Lemma hex_pair h l :
  0 <= hex_value h -> 0 <= hex_value l ->
  Z.lor (Z.shiftl (hex_value h) 4) (hex_value l) = 16 * hex_value h + hex_value l.
Proof.
  intros Hh Hl. pose proof (hex_value_range h). pose proof (hex_value_range l).
  rewrite lor_shiftl_add by lia. lia.
Qed.

Lemma char_at_app l c r : char_at (l ++ c :: r) (length l) = c.
Proof. unfold char_at. rewrite app_nth2 by lia. by rewrite Nat.sub_diag. Qed.

Lemma char_at_app1 l c d r : char_at (l ++ c :: d :: r) (length l + 1) = d.
Proof.
  rewrite cons_middle, app_assoc.
  replace (length l + 1)%nat with (length (l ++ [c])) by (rewrite length_app; cbn; lia).
  apply char_at_app.
Qed.

Lemma char_at_app2 l c d e r : char_at (l ++ c :: d :: e :: r) (length l + 2) = e.
Proof.
  rewrite (cons_middle c l), app_assoc.
  replace (length l + 2)%nat with (length (l ++ [c]) + 1)%nat
    by (rewrite length_app; cbn; lia).
  apply char_at_app1.
Qed.

(** Writing at [dst] extends the decoded prefix and shifts the gap. *)
Lemma write_step (out gap used rest : list Z) x :
  used <> [] ->
  exists gap', <[length out := x]> (out ++ (gap ++ used) ++ rest)
               = (out ++ [x]) ++ gap' ++ rest /\
               S (length gap') = length (gap ++ used).
Proof.
  intros Hu. destruct (gap ++ used) as [|y gap'] eqn:E.
  { apply app_eq_nil in E as [_ ?]. done. }
  exists gap'. split; [|done].
  rewrite <- app_comm_cons, insert_app_r_alt by lia. rewrite Nat.sub_diag. cbn.
  by rewrite <- app_assoc.
Qed.

(** What a finished decoding leaves in the buffer. *)
Definition decode_outcome (s out : cstring) (total : nat)
    (res : option (si_storage_path_result_t * list Z)) : Prop :=
  exists buf, length buf = total /\
    match url_decoded s with
    | Some d => res = Some (SI_STORAGE_PATH_OK, buf) /\
                exists junk, buf = out ++ d ++ 0 :: junk
    | None => res = Some (SI_STORAGE_PATH_INVALID_ARGUMENT, buf)
    end.

Lemma decode_outcome_step s1 s2 out x total res :
  url_decoded s2 = option_map (cons x) (url_decoded s1) ->
  decode_outcome s1 (out ++ [x]) total res -> decode_outcome s2 out total res.
Proof.
  intros E (buf & Hl & H). exists buf. split; [done|]. rewrite E.
  destruct (url_decoded s1) as [d|]; cbn in *; [|done].
  destruct H as [-> [junk ->]]. split; [done|]. exists junk. by rewrite <- app_assoc.
Qed.

Lemma url_decode_loop_ok fuel s out gap junk :
  cstring_ok s -> (length s < fuel)%nat ->
  decode_outcome s out (length (out ++ gap ++ s ++ 0 :: junk))
    (url_decode_loop fuel (out ++ gap ++ s ++ 0 :: junk)
       (length out + length gap) (length out)).
Proof.
  revert s out gap. induction fuel as [|fuel IH]; intros s out gap Hs Hf; [lia|].
  cbn [url_decode_loop]. rewrite <- length_app.
  destruct s as [|c s1].
  { cbn [app]. rewrite (app_assoc out gap), char_at_app, Z.eqb_refl.
    destruct (write_step out gap [0] junk 0) as (gap' & E & Hg); [done|].
    rewrite <- !app_assoc in E. cbn [app] in E. rewrite <- app_assoc.
    eexists. split; [apply length_insert|]. split; [done|].
    exists (gap' ++ junk). exact E. }
  inversion Hs as [|? ? Hc Hs1]; subst.
  assert (Hstep : forall used s' x,
    c :: s1 = used ++ s' -> used <> [] ->
    url_decoded (c :: s1) = option_map (cons x) (url_decoded s') ->
    decode_outcome (c :: s1) out (length (out ++ gap ++ (c :: s1) ++ 0 :: junk))
      (url_decode_loop fuel (<[length out := x]> (out ++ gap ++ (c :: s1) ++ 0 :: junk))
         (length (out ++ gap) + length used) (length out + 1))).
  { intros used s' x E Hu Hd. apply (decode_outcome_step s' _ _ x); [done|].
    destruct (write_step out gap used (s' ++ 0 :: junk) x Hu) as (gap' & Hw & Hg).
    rewrite E in *. rewrite <- !app_assoc in *. rewrite Hw.
    assert (Hs' : cstring_ok s') by (by apply Forall_app in Hs as [_ ?]).
    assert (Hl : (length s' < fuel)%nat).
    { assert (length used <> 0%nat) by (by destruct used).
      rewrite length_app in Hf. lia. }
    specialize (IH s' (out ++ [x]) gap' Hs' Hl).
    rewrite length_app in Hg.
    assert (E2 : (length out + 1 = length (out ++ [x]))%nat) by (rewrite length_app; cbn; lia).
    assert (E1 : (length (out ++ gap) + length used = length (out ++ [x]) + length gap')%nat)
      by (rewrite !length_app; cbn [length]; lia).
    assert (E3 : length (out ++ gap ++ used ++ s' ++ 0 :: junk)
                 = length ((out ++ [x]) ++ gap' ++ s' ++ 0 :: junk))
      by (rewrite !length_app; cbn [length]; lia).
    rewrite E1, E2, E3. rewrite <- (app_assoc out [x]) in *.
    exact IH. }
  assert (Hfail : url_decoded (c :: s1) = None ->
    decode_outcome (c :: s1) out (length (out ++ gap ++ (c :: s1) ++ 0 :: junk))
      (Some (SI_STORAGE_PATH_INVALID_ARGUMENT, out ++ gap ++ (c :: s1) ++ 0 :: junk))).
  { intros E. eexists. split; [reflexivity|]. by rewrite E. }
  revert Hstep Hfail. rewrite (app_assoc out gap). cbn [app]. intros Hstep Hfail.
  rewrite char_at_app. destruct (Z.eqb_spec c 0); [lia|].
  destruct (c =? ch "%") eqn:Ec.
  2: { apply (Hstep [c] s1); [done | done |]. cbn [url_decoded]. by rewrite Ec. }
  destruct s1 as [|h s1]; cbn [app].
  { rewrite char_at_app1. apply Hfail. cbn [url_decoded]. by rewrite Ec. }
  inversion Hs1 as [|? ? Hh Hs2]; subst. rewrite char_at_app1.
  destruct (Z.eqb_spec h 0); [lia|].
  destruct s1 as [|l s2]; cbn [app]; rewrite char_at_app2.
  { apply Hfail. cbn [url_decoded]. by rewrite Ec. }
  inversion Hs2 as [|? ? Hl Hs3]; subst. destruct (Z.eqb_spec l 0); [lia|]. cbn [orb].
  cbn [url_decoded] in Hstep, Hfail. rewrite Ec in Hstep, Hfail.
  destruct ((hex_value h <? 0) || (hex_value l <? 0)) eqn:Eh; [by apply Hfail|].
  split_guards. to_props. rewrite hex_pair by done. cbn [orb] in *.
  destruct (_ =? 0) eqn:Ez; [by apply Hfail|]. by apply (Hstep [c; h; l] s2).
Qed.

(** The encoder a client uses: unreserved bytes as they are, the rest as
    [%XX]. *)
Definition hex_upper (v : Z) : Z := if v <? 10 then ch "0" + v else ch "A" + (v - 10).
Definition url_encode (s : cstring) : cstring :=
  c ← s; if isalnum c then [c] else [ch "%"; hex_upper (c / 16); hex_upper (c mod 16)].

Lemma hex_value_upper v : 0 <= v < 16 -> hex_value (hex_upper v) = v.
Proof.
  intros H. assert (Hv : v ∈ seqZ 0 16) by (apply elem_of_seqZ; lia).
  clear H. revert v Hv. apply Forall_forall. by_decide.
Qed.

Lemma url_decoded_encode t : cstring_ok t -> url_decoded (url_encode t) = Some t.
Proof.
  induction 1 as [|c t Hc Ht IH]; [done|].
  unfold url_encode in *. rewrite bind_cons. destruct (isalnum c) eqn:Ea.
  - cbn [app url_decoded]. rewrite IH.
    destruct (Z.eqb_spec c (ch "%")) as [->|]; [done|].
    destruct (Z.eqb_spec c (ch "+")) as [->|]; done.
  - cbn [app url_decoded]. rewrite Z.eqb_refl, IH.
    pose proof (Z.div_mod c 16 ltac:(lia)) as E.
    pose proof (Z.mod_pos_bound c 16 ltac:(lia)).
    rewrite !hex_value_upper by lia.
    destruct (Z.ltb_spec (c / 16) 0); [lia|]. destruct (Z.ltb_spec (c mod 16) 0); [lia|].
    rewrite <- E. destruct (Z.eqb_spec c 0); [lia|]. done.
Qed.

(** Decoding in place, with both pointers in one buffer, terminates and is
    the decoder on strings: a well-formed text is replaced by its decoded bytes
    and a terminator, a bad escape or an encoded zero byte is refused, and the
    buffer keeps its length.  Decoding undoes encoding. *)
Theorem url_decode_in_place s junk t :
  cstring_ok s -> cstring_ok t ->
  (exists buf, length buf = length (s ++ 0 :: junk) /\
   match url_decoded s with
   | Some d => si_storage_url_decode_inplace (Some (s ++ 0 :: junk))
                 = Some (SI_STORAGE_PATH_OK, buf) /\ exists rest, buf = d ++ 0 :: rest
   | None => si_storage_url_decode_inplace (Some (s ++ 0 :: junk))
               = Some (SI_STORAGE_PATH_INVALID_ARGUMENT, buf)
   end) /\
  url_decoded (url_encode t) = Some t.
Proof.
  intros Hs Ht. split; [|by apply url_decoded_encode].
  apply (url_decode_loop_ok _ s [] [] junk Hs). rewrite length_app. lia.
Qed.

Lemma url_decode_in_place_witness :
  exists buf rest, si_storage_url_decode_inplace (Some (cstr "a%2Fb+c" ++ [0]))
    = Some (SI_STORAGE_PATH_OK, buf) /\ buf = cstr "a/b c" ++ 0 :: rest.
Proof.
  destruct (url_decode_in_place (cstr "a%2Fb+c") [] (cstr "x y")) as [(buf & _ & H) _];
    [by_decide | by_decide |].
  change (url_decoded (cstr "a%2Fb+c")) with (Some (cstr "a/b c")) in H.
  destruct H as [E [rest Hb]]. exists buf, rest. by split.
Defined.

(** ** Segments *)

Definition slash : Z := ch "/".

(** The maximal slash-free parts of a path. *)
Fixpoint segments (s : cstring) : list cstring :=
  match s with
  | [] => []
  | c :: s' =>
      if c =? slash then segments s'
      else match s' with
           | [] => [[c]]
           | d :: _ =>
               if d =? slash then [c] :: segments s'
               else match segments s' with
                    | seg :: rest => (c :: seg) :: rest
                    | [] => [[c]]
                    end
           end
  end.

Fixpoint join (segs : list cstring) : cstring :=
  match segs with
  | [] => []
  | [s] => s
  | s :: segs => s ++ slash :: join segs
  end.

(** What may follow a segment: nothing, or a slash. *)
Definition boundary (rest : cstring) : Prop :=
  match rest with [] => True | c :: _ => c = slash end.

Definition is_segment (seg : cstring) : Prop := seg <> [] /\ slash ∉ seg.

Lemma segments_cut seg rest :
  is_segment seg -> boundary rest -> segments (seg ++ rest) = seg :: segments rest.
Proof.
  intros [Hne Hs] Hb. induction seg as [|c seg IH]; [done|].
  apply not_elem_of_cons in Hs as [Hc Hs].
  cbn [app segments]. destruct (Z.eqb_spec c slash); [congruence|].
  destruct seg as [|d seg]; cbn [app] in *.
  - destruct rest as [|d rest]; [done|]. cbn in Hb. subst d. by rewrite Z.eqb_refl.
  - destruct (Z.eqb_spec d slash) as [->|]; [by set_solver|].
    rewrite IH; done.
Qed.

Lemma skip_slashes_spec s :
  exists n, (s = replicate n slash ++ skip_slashes s) /\
            (match skip_slashes s with [] => True | c :: _ => c <> slash end) /\
            segments s = segments (skip_slashes s).
Proof.
  induction s as [|c s (n & E & Hh & Hs)]; cbn [skip_slashes]; [by exists 0%nat|].
  change (ch "/") with slash. destruct (Z.eqb_spec c slash) as [->|Hc].
  - exists (S n). cbn [replicate app segments]. rewrite Z.eqb_refl. by rewrite <- E.
  - by exists 0%nat.
Qed.

Lemma take_segment_spec s seg rest :
  take_segment s = (seg, rest) -> s = seg ++ rest /\ (slash ∉ seg) /\ boundary rest.
Proof.
  revert seg rest. induction s as [|c s IH]; intros seg rest; cbn [take_segment].
  - intros [= <- <-]. split_and!; [done | set_solver | done].
  - change (ch "/") with slash. destruct (Z.eqb_spec c slash) as [->|Hc].
    + intros [= <- <-]. split_and!; [done | set_solver | done].
    + destruct (take_segment s) as [seg' rest'] eqn:E. intros [= <- <-].
      destruct (IH _ _ eq_refl) as (-> & H & Hb). split_and!; [done | | done].
      apply not_elem_of_cons. split; [congruence|done].
Qed.

Lemma segments_are_segments s : Forall is_segment (segments s).
Proof.
  induction s as [|c s IH]; cbn [segments]; [by constructor|].
  destruct (Z.eqb_spec c slash); [done|].
  assert (Hc : is_segment [c]) by (split; [done | set_solver]).
  destruct s as [|d s']; [by apply Forall_singleton|].
  destruct (Z.eqb_spec d slash); [by constructor|].
  destruct (segments (d :: s')) as [|seg rest]; [by apply Forall_singleton|].
  inversion IH as [|? ? [_ Hs] Hr]; subst. constructor; [|done].
  split; [done | set_solver].
Qed.

Lemma segments_join segs : Forall is_segment segs -> segments (join segs) = segs.
Proof.
  induction segs as [|s segs IH]; [done|]. intros H. inversion H as [|? ? Hs Hr]; subst.
  destruct segs as [|s2 segs].
  - cbn [join]. rewrite <- (app_nil_r s) at 1. by rewrite segments_cut.
  - cbn [join]. rewrite segments_cut by done. f_equal.
    change (segments (join (s2 :: segs)) = s2 :: segs). auto.
Qed.

Lemma join_nonempty s segs : is_segment s -> join (s :: segs) <> [].
Proof. intros [Hne _]. destruct s as [|c s]; [done|]. by destruct segs. Qed.

Lemma join_snoc segs s :
  Forall is_segment segs ->
  join (segs ++ [s]) = (if is_empty (join segs) then [] else join segs ++ [slash]) ++ s.
Proof.
  induction segs as [|t segs IH]; [done|]. intros H. inversion H as [|? ? Ht Hr]; subst.
  assert (Hn : is_empty (join (t :: segs)) = false).
  { pose proof (join_nonempty t segs Ht) as Hn. by destruct (join (t :: segs)). }
  rewrite Hn. destruct segs as [|u segs].
  - cbn. by rewrite <- app_assoc.
  - specialize (IH Hr).
    assert (Hn' : is_empty (join (u :: segs)) = false).
    { inversion Hr as [|? ? Hu _]; subst.
      pose proof (join_nonempty u segs Hu) as Hn'. by destruct (join (u :: segs)). }
    rewrite Hn' in IH. change (join ((t :: u :: segs) ++ [s]))
      with (t ++ slash :: join ((u :: segs) ++ [s])). rewrite IH.
    change (join (t :: u :: segs)) with (t ++ slash :: join (u :: segs)).
    rewrite <- !app_assoc. reflexivity.
Qed.

(** One turn of the scan: either only slashes are left, or the next segment
    and the rest, with a slash before it when the cursor stood on one. *)
Lemma next_segment cursor :
  (skip_slashes cursor = [] /\ segments cursor = []) \/
  exists seg rest,
    (is_empty cursor = false /\ is_empty (skip_slashes cursor) = false /\
     take_segment (skip_slashes cursor) = (seg, rest)) /\
    is_segment seg /\ boundary rest /\ segments cursor = seg :: segments rest /\
    (length seg + length rest <= length cursor)%nat /\
    (boundary cursor -> S (length seg + length rest) <= length cursor)%nat.
Proof.
  destruct (skip_slashes_spec cursor) as (n & En & Hh & ->).
  destruct (skip_slashes cursor) as [|c1 cur1]; [by left|]. right.
  destruct (take_segment (c1 :: cur1)) as [seg rest] eqn:Et.
  apply take_segment_spec in Et as (Es & Hns & Hbr).
  assert (Hne : is_segment seg).
  { split; [|done]. intros ->. cbn in Es. subst rest. by cbn in Hbr. }
  exists seg, rest. pose proof (f_equal length En) as El.
  rewrite length_app, length_replicate, Es, length_app in El.
  split_and!; try done.
  - by destruct cursor; [destruct n|].
  - rewrite Es. by apply segments_cut.
  - lia.
  - intros Hb. destruct n; [|lia]. cbn in En. rewrite En in Hb. by cbn in Hb.
Qed.

(** ** Canonicalisation *)

Definition canonical_segments (segs : list cstring) : list cstring :=
  match segs with s :: segs => canonical_top_dir s :: segs | [] => [] end.

Lemma canonical_top_dir_cases s :
  (canonical_top_dir s = s \/
   canonical_top_dir s ∈ known_top_dirs /\ tolower <$> canonical_top_dir s = tolower <$> s).
Proof.
  unfold canonical_top_dir.
  destruct (filter _ known_top_dirs) as [|k l] eqn:E; [by left|]. right. cbn.
  assert (Hk : k ∈ filter (fun k => equals_ci (Some s) (Some k) = true) known_top_dirs)
    by (rewrite E; left).
  apply list_elem_of_filter in Hk as [Hk Hin]. split; [done|].
  by apply strcaseeq_true in Hk.
Qed.

Lemma canonical_top_dir_length s : length (canonical_top_dir s) = length s.
Proof.
  destruct (canonical_top_dir_cases s) as [->|[_ E]]; [done|].
  apply (f_equal length) in E. by rewrite !length_fmap in E.
Qed.

Lemma known_top_dir_is_segment k : k ∈ known_top_dirs -> is_segment k.
Proof.
  unfold is_segment, slash. revert k. apply Forall_forall. by_decide.
Qed.

Lemma canonical_top_dir_segment s : is_segment s -> is_segment (canonical_top_dir s).
Proof.
  intros H. destruct (canonical_top_dir_cases s) as [->|[Hk _]]; [done|].
  by apply known_top_dir_is_segment.
Qed.

Lemma append_segment_spec prev n seg :
  Forall is_segment prev ->
  append_segment (join prev) n seg =
    if (n <=? length (join prev) + (if is_empty (join prev) then 0 else 1) + length seg)%nat
    then (SI_STORAGE_PATH_TOO_LONG, join prev)
    else (SI_STORAGE_PATH_OK, join (prev ++ [seg])).
Proof.
  intros H. unfold append_segment. rewrite join_snoc by done.
  destruct (join prev) as [|c out]; reflexivity.
Qed.

Definition first_canonical (prev segs : list cstring) : list cstring :=
  match prev with [] => canonical_segments segs | _ => segs end.

(** The loop, from [prev] already written: the room check never fails, because
    the output is no longer than what was read. *)
Lemma canonicalize_loop_ok fuel cursor prev size :
  (length cursor < fuel)%nat -> Forall is_segment prev ->
  (length (join prev) + length cursor < size)%nat ->
  (prev <> [] -> boundary cursor) ->
  exists res, canonicalize_loop fuel cursor (join prev) size (length prev) = Some res /\
    (Forall (fun s => (length s < SI_STORAGE_PATH_SEGMENT_MAX)%nat) (segments cursor) ->
     res = (SI_STORAGE_PATH_OK, join (prev ++ first_canonical prev (segments cursor)))) /\
    (~ Forall (fun s => (length s < SI_STORAGE_PATH_SEGMENT_MAX)%nat) (segments cursor) ->
     res.1 = SI_STORAGE_PATH_TOO_LONG).
Proof.
  revert cursor prev.
  induction fuel as [|fuel IH]; intros cursor prev Hf Hd Hlen Hb; [lia|].
  cbn [canonicalize_loop].
  destruct (next_segment cursor)
    as [[Hsk Hnil]|(seg & rest & (He1 & He2 & Et) & Hsg & Hbr & Hseg & Hle & Hle')].
  { exists (SI_STORAGE_PATH_OK, join prev). rewrite Hsk, Hnil. cbn [is_empty]. split.
    - by destruct (is_empty cursor).
    - split; [|intros []; constructor]. intros _.
      by destruct prev; cbn [first_canonical canonical_segments]; rewrite ?app_nil_r. }
  rewrite He1, He2, Et, Hseg.
  assert (Hl0 : length seg <> 0%nat) by (destruct Hsg; by destruct seg).
  destruct (Nat.eqb_spec (length seg) 0); [lia|].
  destruct (Nat.leb_spec SI_STORAGE_PATH_SEGMENT_MAX (length seg)) as [Hlong|Hshort].
  { eexists. split; [reflexivity|]. split; [|done].
    intros H. inversion H; subst. lia. }
  set (canon := if (length prev =? 0)%nat then canonical_top_dir seg else seg).
  assert (Hcl : length canon = length seg).
  { unfold canon. destruct (_ =? _)%nat; [apply canonical_top_dir_length | done]. }
  assert (Hcs : is_segment canon).
  { unfold canon. destruct (_ =? _)%nat; [by apply canonical_top_dir_segment | done]. }
  assert (Hroom : (length (join prev) + (if is_empty (join prev) then 0 else 1)
                   + length canon < size - length rest)%nat).
  { destruct prev as [|d0 ds]; [cbn [join is_empty length] in *; lia|].
    specialize (Hle' (Hb ltac:(done))). destruct (is_empty (join _)); lia. }
  rewrite append_segment_spec by done.
  rewrite (proj2 (Nat.leb_gt _ _)) by lia.
  replace (length prev + 1)%nat with (length (prev ++ [canon]))
    by (rewrite length_app; cbn; lia).
  destruct (IH rest (prev ++ [canon])) as (res & E & Hok & Hbad).
  - lia.
  - apply Forall_app. split; [done|]. by apply Forall_singleton.
  - rewrite join_snoc by done. rewrite length_app.
    destruct (join prev); cbn [is_empty length] in *; [lia|].
    rewrite length_app. cbn [length]. lia.
  - done.
  - exists res. split; [exact E|].
    split.
    + intros H. inversion H; subst. rewrite Hok by done. f_equal. f_equal.
      unfold canon. destruct prev; [done|]. cbn [first_canonical app]. by rewrite <- app_assoc.
    + intros H. apply Hbad. intros HF. apply H. by constructor.
Qed.

(** ** Resolution *)

Definition path_ok (path : cstring) (size : nat) : Prop :=
  (length path < size)%nat /\ (ch "\" ∉ path) /\ (ch ":" ∉ path) /\
  contains_str (cstr "..") path = false /\ path_chars_ok None path = true.

Definition short_segments (path : cstring) : Prop :=
  Forall (fun s => (length s < SI_STORAGE_PATH_SEGMENT_MAX)%nat) (segments path).

Definition under (root r : cstring) : cstring :=
  match r with [] => root | _ => root ++ slash :: r end.

Lemma written_under root r :
  (if is_empty r then root else format (cstr "%s/%s") [root; r]) = under root r.
Proof.
  destruct r as [|c r]; [done|]. cbn [is_empty under].
  change (format (cstr "%s/%s") [root; c :: r]) with (root ++ slash :: (c :: r) ++ []).
  by rewrite app_nil_r.
Qed.

Lemma path_guards path size :
  (size <=? length path)%nat || has_char (ch "\") path || has_char (ch ":") path ||
    contains_str (cstr "..") path || negb (path_chars_ok None path) = false <->
  path_ok path size.
Proof.
  unfold path_ok. rewrite !orb_false_iff, Nat.leb_gt, !has_char_false, negb_false_iff. tauto.
Qed.

Lemma canonicalize_ok path size :
  (length path < size)%nat ->
  exists res, canonicalize_relative_path (Some path) size = Some res /\
    (short_segments path ->
     res = (SI_STORAGE_PATH_OK, join (canonical_segments (segments path)))) /\
    (~ short_segments path -> res.1 = SI_STORAGE_PATH_TOO_LONG).
Proof.
  intros Hl. unfold canonicalize_relative_path. destruct (Nat.eqb_spec size 0); [lia|].
  change (deref (Some path)) with path. destruct (is_empty path) eqn:E.
  { destruct path; [|done]. eexists. split; [reflexivity|]. split; [done|].
    intros []. constructor. }
  exact (canonicalize_loop_ok (S (length path)) path [] size (Nat.lt_succ_diag_r _)
           (Forall_nil_2 _) Hl (fun H => False_ind _ (H eq_refl))).
Qed.

(** The three outcomes of a resolution. *)
Lemma resolve_cases input root r0 a0 rsize asize :
  (0 < rsize)%nat -> (0 < asize)%nat ->
  let path := strip_prefixes input in
  let r := join (canonical_segments (segments path)) in
  exists res,
    si_storage_resolve_path input (Some root) (Some r0) rsize (Some a0) asize = Some res /\
    (~ path_ok path rsize /\ ret res = SI_STORAGE_PATH_INVALID_ARGUMENT /\
       absolute_path res = Some [] \/
     path_ok path rsize /\
       ~ (short_segments path /\ (length (under root r) < asize)%nat) /\
       ret res = SI_STORAGE_PATH_TOO_LONG /\ absolute_path res = Some [] \/
     path_ok path rsize /\ short_segments path /\ (length (under root r) < asize)%nat /\
       res = mk_resolved SI_STORAGE_PATH_OK (Some r) (Some (under root r))).
Proof.
  intros Hr Ha path r. unfold si_storage_resolve_path. fold path.
  destruct (Nat.eqb_spec rsize 0); [lia|]. destruct (Nat.eqb_spec asize 0); [lia|].
  cbn [orb]. pose proof (path_guards path rsize) as Hg.
  destruct (_ || _ || _ || contains_str _ _); cbn [orb] in Hg.
  { eexists. split; [reflexivity|]. left. split; [|done]. by intros ?%Hg. }
  destruct (negb (path_chars_ok None path)).
  { eexists. split; [reflexivity|]. left. split; [|done]. by intros ?%Hg. }
  destruct Hg as [Hg _]. specialize (Hg eq_refl).
  destruct (canonicalize_ok path rsize) as ([e out] & -> & Hok & Hbad); [apply Hg|].
  destruct (decide (short_segments path)) as [Hs|Hs].
  - specialize (Hok Hs). injection Hok as -> ->. fold r. rewrite written_under. clearbody r.
    destruct (Nat.leb_spec asize (length (under root r))).
    + eexists. split; [reflexivity|]. right; left. split_and!; try done. lia.
    + eexists. split; [reflexivity|]. by right; right.
  - specialize (Hbad Hs). cbn in Hbad. subst e. eexists. split; [reflexivity|]. right; left.
    split_and!; try done. tauto.
Qed.

(** Resolution is total and decided by the request alone.  It succeeds
    exactly when the path without its mount prefixes obeys the character rules,
    every segment is below 192 bytes and the result fits; it then returns the
    segments of the request, empty ones dropped and a known top directory in its
    canonical spelling, relative to and below the root.  A forbidden path is
    invalid, anything else too long, and then no absolute path is left. *)
Theorem resolve_exact input root r0 a0 rsize asize :
  (0 < rsize)%nat -> (0 < asize)%nat ->
  let path := strip_prefixes input in
  let r := join (canonical_segments (segments path)) in
  exists res,
    si_storage_resolve_path input (Some root) (Some r0) rsize (Some a0) asize = Some res /\
    (ret res = SI_STORAGE_PATH_OK <->
     path_ok path rsize /\ short_segments path /\ (length (under root r) < asize)%nat) /\
    (ret res = SI_STORAGE_PATH_INVALID_ARGUMENT <-> ~ path_ok path rsize) /\
    (ret res = SI_STORAGE_PATH_OK ->
     relative_path res = Some r /\ absolute_path res = Some (under root r)) /\
    (ret res <> SI_STORAGE_PATH_OK -> absolute_path res = Some []).
Proof.
  intros Hr Ha path r.
  destruct (resolve_cases input root r0 a0 rsize asize Hr Ha) as (res & E & Hc).
  exists res. split; [exact E|]. fold path in Hc. fold r in Hc. clearbody path r.
  destruct Hc as [(H1 & H2 & H3)|[(H1 & H2 & H3 & H4)|(H1 & H2 & H3 & ->)]].
  - rewrite H2, H3. split_and!; try done; split; try done; tauto.
  - rewrite H3, H4. split_and!; try done; split; try done; tauto.
  - cbn [ret relative_path absolute_path]. split_and!; try done; split; try done; tauto.
Qed.

Lemma resolve_exact_witness :
  exists res, si_storage_resolve_path (Some (cstr "/sdcard/EA//agent/x.log"))
      (Some (cstr "/sdcard/EA")) (Some []) 64 (Some []) 64 = Some res /\
    ret res = SI_STORAGE_PATH_OK.
Proof.
  destruct (resolve_exact (Some (cstr "/sdcard/EA//agent/x.log")) (cstr "/sdcard/EA") [] [] 64 64)
    as (res & E & [_ H] & _); [lia | lia |].
  exists res. split; [exact E|]. apply H. by_decide.
Defined.

(** *** What a resolved path looks like *)

Definition safe_segment (seg : cstring) : Prop :=
  is_segment seg /\ (length seg < SI_STORAGE_PATH_SEGMENT_MAX)%nat /\
  Forall (fun c => 32 <= c /\ c <> 127 /\ c <> ch "\" /\ c <> ch ":") seg /\
  head seg <> Some (ch " ") /\ last seg <> Some (ch ".") /\ last seg <> Some (ch " ").

#[export] Instance safe_segment_dec seg : Decision (safe_segment seg).
Proof. unfold safe_segment, is_segment. apply _. Defined.

Lemma path_chars_app prev l s :
  path_chars_ok prev (l ++ s) = true ->
  path_chars_ok (match last l with Some c => Some c | None => prev end) s = true.
Proof.
  revert prev. induction l as [|c l IH]; intros prev; [done|].
  cbn [app path_chars_ok]. do 2 (case_if; [done|]). intros H. apply IH in H.
  rewrite last_cons. by destruct (last l).
Qed.

Lemma path_chars_forall prev s :
  path_chars_ok prev s = true -> Forall (fun c => 32 <= c /\ c <> 127) s.
Proof.
  revert prev. induction s as [|c s IH]; intros prev; [constructor|].
  cbn [path_chars_ok]. case_if; [done|]. case_if; [done|]. intros H.
  split_guards. to_props. constructor; [done|]. by eapply IH.
Qed.

Lemma last_replicate n (x : Z) : replicate n x = [] \/ last (replicate n x) = Some x.
Proof.
  destruct n as [|n]; [by left|]. right. rewrite replicate_S_end. apply last_snoc.
Qed.

(** Where a segment stands in its path. *)
Lemma segment_place n p seg :
  (length p <= n)%nat -> seg ∈ segments p ->
  exists l r, p = l ++ seg ++ r /\ boundary r /\ (l = [] \/ last l = Some slash).
Proof.
  revert p. induction n as [|n IH]; intros p Hn Hin.
  { destruct p; [|cbn in Hn; lia]. by apply not_elem_of_nil in Hin. }
  destruct (skip_slashes_spec p) as (k & Ek & Hh & Hs). rewrite Hs in Hin.
  destruct (skip_slashes p) as [|c1 cur] eqn:Eskip; [by apply not_elem_of_nil in Hin|].
  destruct (take_segment (c1 :: cur)) as [s1 rest] eqn:Et.
  apply take_segment_spec in Et as (Es & Hns & Hb). rewrite Es in Ek, Hin.
  assert (Hsg : is_segment s1).
  { split; [|done]. intros ->. cbn in Es. subst rest. by cbn in Hb. }
  rewrite segments_cut in Hin by done. apply elem_of_cons in Hin as [->|Hin].
  { exists (replicate k slash), rest. split_and!; [done | done | apply last_replicate]. }
  assert (Hlen : (length rest <= n)%nat).
  { apply (f_equal length) in Ek. rewrite !length_app in Ek.
    destruct Hsg. destruct s1; [done|]. cbn in Ek. lia. }
  destruct (IH rest Hlen Hin) as (l & r & E & Hr & Hl).
  exists (replicate k slash ++ s1 ++ l), r. split_and!; [|done|].
  - rewrite Ek, E. by rewrite <- !app_assoc.
  - right. destruct Hl as [->|Hl].
    + exfalso. pose proof (segments_are_segments rest) as HF.
      rewrite Forall_forall in HF. destruct (HF _ Hin) as [Hne Hsl].
      destruct seg as [|c seg]; [done|]. rewrite E in Hb. cbn in Hb. subst c.
      apply Hsl. left.
    + by rewrite app_assoc, last_app, Hl.
Qed.

Lemma safe_segments path size :
  path_ok path size -> short_segments path -> Forall safe_segment (segments path).
Proof.
  intros (_ & Hbs & Hco & _ & Hch) Hsh. apply Forall_forall. intros seg Hin.
  pose proof (segments_are_segments path) as HF.
  rewrite Forall_forall in HF. specialize (HF _ Hin).
  unfold short_segments in Hsh. rewrite Forall_forall in Hsh. specialize (Hsh _ Hin).
  destruct (segment_place _ path seg (le_n _) Hin) as (l & r & E & Hb & Hl).
  assert (Hsub : forall c, c ∈ seg -> c ∈ path) by (rewrite E; set_solver).
  rewrite E in Hch. apply path_chars_app in Hch.
  assert (Hst : exists prev, (prev = None \/ prev = Some slash) /\
                path_chars_ok prev (seg ++ r) = true).
  { destruct Hl as [-> | Hl]; [by exists None; auto|]. rewrite Hl in Hch. eauto. }
  clear Hch. destruct Hst as (prev & Hprev & Hch).
  pose proof (path_chars_forall _ _ Hch) as Hall. apply Forall_app in Hall as [Hall _].
  rewrite Forall_forall in Hall.
  unfold safe_segment. split_and!; try done.
  - apply Forall_forall. intros c Hc. destruct (Hall c Hc). split_and!; try done.
    + intros ->. by apply Hbs, Hsub.
    + intros ->. by apply Hco, Hsub.
  - intros Hd. destruct seg as [|c seg]; [done|]. injection Hd as ->.
    cbn [app path_chars_ok] in Hch. by destruct Hprev as [-> | ->].
  - intros (l' & ->)%last_Some. rewrite <- app_assoc in Hch. apply path_chars_app in Hch.
    cbn [app path_chars_ok] in Hch. destruct r as [|d r]; [|cbn in Hb; subst d];
      by rewrite orb_true_r in Hch.
  - intros (l' & ->)%last_Some. rewrite <- app_assoc in Hch. apply path_chars_app in Hch.
    cbn [app path_chars_ok] in Hch. destruct r as [|d r]; [|cbn in Hb; subst d];
      by rewrite orb_true_r in Hch.
Qed.

Lemma canonical_segments_safe segs :
  Forall safe_segment segs -> Forall safe_segment (canonical_segments segs).
Proof.
  intros H. destruct H as [|s segs Hs Hr]; [constructor|]. constructor; [|done].
  destruct (canonical_top_dir_cases s) as [->|[Hk _]]; [done|].
  revert Hk. generalize (canonical_top_dir s). apply Forall_forall. by_decide.
Qed.

Lemma elem_of_join c segs : c ∈ join segs -> c = slash \/ exists s, s ∈ segs /\ c ∈ s.
Proof.
  induction segs as [|s segs IH]; [by intros ?%not_elem_of_nil|].
  destruct segs as [|t segs]; cbn [join] in *; intros Hc; [right; exists s; set_solver|].
  apply elem_of_app in Hc as [Hc|Hc]; [right; exists s; set_solver|].
  apply elem_of_cons in Hc as [->|Hc]; [by left|].
  destruct (IH Hc) as [->|(s' & Hs & Hc')]; [by left|]. right. exists s'. set_solver.
Qed.

(** The test for the internal directory looks at the first segment. *)
Lemma internal_first_segment segs :
  Forall safe_segment segs ->
  si_storage_path_is_internal (Some (join segs)) = true <-> head segs = Some (cstr "AGENT").
Proof.
  intros H. unfold si_storage_path_is_internal. cbn [ptr_test].
  rewrite andb_true_iff, starts_with_spec, orb_true_iff, !Z.eqb_eq.
  assert (Hseg : Forall is_segment segs) by (eapply Forall_impl; [exact H | by intros ? []]).
  assert (HA : is_segment (cstr "AGENT")) by (unfold is_segment, slash; by_decide).
  split.
  - intros [[u E] Hc]. rewrite E in Hc.
    assert (Hu : boundary u).
    { destruct u as [|c u]; [done|]. change 5%nat with (length (cstr "AGENT")) in Hc.
      rewrite char_at_app in Hc. destruct Hc as [-> | ->]; [|done]. exfalso.
      assert (H0 : 0 ∈ join segs) by (rewrite E; set_solver).
      apply elem_of_join in H0 as [?|(s & Hs & Hz)]; [done|].
      rewrite Forall_forall in H. destruct (H s Hs) as (_ & _ & Hf & _).
      rewrite Forall_forall in Hf. destruct (Hf 0 Hz). lia. }
    rewrite <- (segments_join segs Hseg), E, segments_cut by done. done.
  - destruct segs as [|s segs]; [done|]. intros [= ->].
    destruct segs as [|t segs]; [split; [by exists []|by left]|].
    split; [by exists (slash :: join (t :: segs))|]. right.
    change 5%nat with (length (cstr "AGENT")). apply char_at_app.
Qed.

Lemma canonical_agent s :
  canonical_top_dir s = cstr "AGENT" <-> strcaseeq s (cstr "AGENT") = true.
Proof.
  split.
  - intros E. destruct (canonical_top_dir_cases s) as [E'|[_ E']]; rewrite E in E'.
    + rewrite <- E'. by_eval.
    + apply strcaseeq_true. by rewrite E'.
  - intros E. apply strcaseeq_true in E. unfold canonical_top_dir, equals_ci, strcaseeq.
    rewrite E. by_eval.
Qed.

Lemma join_segments_length s :
  (length (join (segments s)) +
   match s with c :: _ => if (c =? slash)%Z then 1 else 0 | [] => 0 end <= length s)%nat.
Proof.
  induction s as [|c s IH]; [done|]. cbn [segments].
  destruct (Z.eqb_spec c slash) as [Hc|Hc].
  { cbn [length]. destruct s as [|d s]; [cbn; lia|]. destruct (d =? slash); lia. }
  destruct s as [|d s]; [cbn; lia|]. destruct (Z.eqb_spec d slash) as [Hd|Hd].
  { destruct (segments (d :: s)); cbn [join length app] in *; lia. }
  destruct (segments (d :: s)) as [|seg rest]; [cbn; lia|].
  destruct rest; cbn [join length app] in *; lia.
Qed.

Lemma canonical_join_length segs :
  length (join (canonical_segments segs)) = length (join segs).
Proof.
  destruct segs as [|s segs]; [done|]. cbn [canonical_segments].
  destruct segs as [|t segs]; cbn [join]; rewrite ?length_app; by rewrite canonical_top_dir_length.
Qed.

(** C20: a path that resolves stays inside the storage root.  The absolute path
    is the root, or the root, a slash and the relative path; the relative path
    is its segments joined by single slashes, and no segment is empty, a dot or
    two dots, holds a separator, a drive colon or a control byte, or ends in a
    dot or a space; both fit their buffers.  The private AGENT directory is
    recognised whatever the case and the slashes the request spelled it with. *)
Theorem resolved_path_contained input root r0 a0 rsize asize res :
  si_storage_resolve_path input (Some root) (Some r0) rsize (Some a0) asize = Some res ->
  ret res = SI_STORAGE_PATH_OK ->
  exists r a, relative_path res = Some r /\ absolute_path res = Some a /\
    r = join (segments r) /\ Forall safe_segment (segments r) /\
    Forall (fun s => s <> cstr "." /\ s <> cstr "..") (segments r) /\
    (r = [] /\ a = root \/ r <> [] /\ a = root ++ slash :: r) /\
    (length r < rsize)%nat /\ (length a < asize)%nat /\
    (si_storage_path_is_internal (Some r) = true <->
     ptr_test (fun s => strcaseeq s (cstr "AGENT"))
       (head (segments (strip_prefixes input))) = true).
Proof.
  intros E Hret.
  assert (Hpos : (0 < rsize)%nat /\ (0 < asize)%nat).
  { unfold si_storage_resolve_path in E.
    destruct rsize; [by injection E as <-|]. destruct asize; [|lia].
    cbn [orb Nat.eqb] in E. by injection E as <-. }
  destruct (resolve_cases input root r0 a0 rsize asize) as (res' & E' & Hc); [tauto | tauto |].
  rewrite E in E'. injection E' as <-. rewrite Hret in Hc.
  destruct Hc as [(_ & ? & _)|[(_ & _ & ? & _)|(Hok & Hsh & Hlen & ->)]]; [done | done |].
  pose proof (canonical_segments_safe _ (safe_segments _ _ Hok Hsh)) as Hsafe.
  set (segs := canonical_segments (segments (strip_prefixes input))) in *.
  assert (Hsegs : segments (join segs) = segs).
  { apply segments_join. eapply Forall_impl; [exact Hsafe | by intros ? []]. }
  exists (join segs), (under root (join segs)). rewrite Hsegs. split_and!; try done.
  - eapply Forall_impl; [exact Hsafe|]. intros s (_ & _ & _ & _ & Hdot & _).
    split; intros ->; by apply Hdot.
  - destruct (join segs); [by left|by right].
  - unfold segs. rewrite canonical_join_length.
    pose proof (join_segments_length (strip_prefixes input)). destruct Hok. lia.
  - rewrite internal_first_segment by done. unfold segs.
    destruct (segments (strip_prefixes input)) as [|s rest]; [done|].
    cbn [canonical_segments head ptr_test]. rewrite <- canonical_agent.
    split; [by intros [= ->] | by intros ->].
Qed.

Lemma resolved_path_contained_witness :
  exists r a, si_storage_resolve_path (Some (cstr "//EA/agent//keys.bin"))
      (Some (cstr "/sdcard/EA")) (Some []) 64 (Some []) 64
      = Some (mk_resolved SI_STORAGE_PATH_OK (Some r) (Some a)) /\
    Forall safe_segment (segments r) /\ si_storage_path_is_internal (Some r) = true.
Proof.
  destruct (resolved_path_contained (Some (cstr "//EA/agent//keys.bin")) (cstr "/sdcard/EA")
              [] [] 64 64
              (mk_resolved SI_STORAGE_PATH_OK (Some (cstr "AGENT/keys.bin"))
                 (Some (cstr "/sdcard/EA/AGENT/keys.bin"))))
    as (r & a & Hr & Ha & _ & Hs & _ & _ & _ & _ & Hi); [by_eval | by_eval |].
  injection Hr as <-. injection Ha as <-.
  eexists _, _. split; [by_eval|]. split; [exact Hs|]. apply Hi. by_eval.
Defined.
