(* ===== verification/NetworkConfig.v ===== *)
(** * Network configuration: [core/network_config.c] and [core/product_identity.c]

    Host names and device ids as DNS labels, dotted-quad parsing, and the
    validation of a network configuration with its error text. *)

From S2P Require Import Prelude CText Hex.

(** ** Product identity *)

Definition SI_PRODUCT_DEVICE_ID_MAX_LEN : nat := 31.
Definition SI_PRODUCT_HOSTNAME_MAX_LEN : nat := 63.
Definition SI_PRODUCT_SUFFIX_LEN : nat := 6.

Record si_product_identity_t := mk_identity {
  device_id : cstring;
  identity_hostname : cstring;
  suffix : cstring
}.

Definition label_valid (value : option cstring) (max_len : nat) : bool :=
  match value with
  | None => false
  | Some v =>
      let len := length v in
      return_if (len =? 0)%nat || (max_len <? len)%nat || (nth 0 v 0 =? ch "-") ||
                (nth (len - 1) v 0 =? ch "-") with false ;;
      forallb (fun c => islower c || isdigit c || (c =? ch "-")) v
  end.

Definition si_product_hostname_valid (hostname : option cstring) : bool :=
  label_valid hostname SI_PRODUCT_HOSTNAME_MAX_LEN.

Definition si_product_device_id_valid (device_id : option cstring) : bool :=
  label_valid device_id SI_PRODUCT_DEVICE_ID_MAX_LEN.

Definition si_product_identity_default_from_mac (mac : option (list Z))
  : si_product_identity_t :=
  match mac with
  | None => mk_identity [] [] []
  | Some mac =>
      let suffix := strtrunc (SI_PRODUCT_SUFFIX_LEN + 1)
        (hex_byte (nth 3 mac 0) ++ hex_byte (nth 4 mac 0) ++ hex_byte (nth 5 mac 0)) in
      mk_identity
        (strtrunc (SI_PRODUCT_DEVICE_ID_MAX_LEN + 1) (format (cstr "ea-p4-%s") [suffix]))
        (strtrunc (SI_PRODUCT_HOSTNAME_MAX_LEN + 1) (format (cstr "exoanchor-%s") [suffix]))
        suffix
  end.

(** ** IPv4 text *)

(** The digits loop: [value] and [digits] as it enters, the value and the cursor
    as it leaves. *)
Fixpoint parse_octet (cursor : cstring) (value : Z) (digits : nat) : option (Z * cstring) :=
  match cursor with
  | [] => Some (value, [])
  | c :: rest =>
      if (ch "0" <=? c) && (c <=? ch "9") then
        let value := u32 (u32 (value * 10) + (c - ch "0")) in
        let digits := S digits in
        return_if (3 <? digits)%nat || (255 <? value) with None ;;
        parse_octet rest value digits
      else Some (value, cursor)
  end.

(** The loop over the parts, [k] of them left. *)
Fixpoint parse_parts (k : nat) (cursor : cstring) : option (list Z) :=
  match k with
  | O => Some []
  | S k =>
      let c := nth 0 cursor 0 in
      return_if (c <? ch "0") || (ch "9" <? c) with None ;;
      match parse_octet cursor 0 0 with
      | None => None
      | Some (value, cursor) =>
          if (0 <? k)%nat then
            return_if negb (nth 0 cursor 0 =? ch ".") with None ;;
            option_map (cons value) (parse_parts k (drop 1 cursor))
          else
            return_if negb (nth 0 cursor 0 =? 0) with None ;; Some [value]
      end
  end.

Definition si_network_ipv4_parse (text : option cstring) : option Z :=
  match text with
  | None => None
  | Some t =>
      return_if is_empty t with None ;;
      match parse_parts 4 t with
      | Some [a; b; c; d] =>
          Some (Z.lor (Z.lor (Z.lor (u32 (Z.shiftl a 24)) (u32 (Z.shiftl b 16)))
                         (u32 (Z.shiftl c 8))) d)
      | _ => None
      end
  end.

Definition ipv4_unicast (address : Z) (allow_autoip : bool) : bool :=
  let first := u8 (Z.shiftr address 24) in
  let second := u8 (Z.shiftr address 16) in
  return_if (first =? 0) || (first =? 127) || (224 <=? first) with false ;;
  return_if negb allow_autoip && (first =? 169) && (second =? 254) with false ;;
  negb (address =? UINT32_MAX).

(** [~x] on 32 bits. *)
Definition not32 (x : Z) : Z := UINT32_MAX - x.

Definition netmask_contiguous (mask : Z) : bool :=
  return_if mask =? 0 with false ;;
  let inverse := not32 mask in
  Z.land inverse (u32 (inverse + 1)) =? 0.

(** ** Configurations *)

Definition SI_NETWORK_CONFIG_SCHEMA_VERSION : Z := 1.

Inductive si_network_mode_t := SI_NETWORK_MODE_DHCP | SI_NETWORK_MODE_STATIC.

#[export] Instance network_mode_eq_dec : EqDecision si_network_mode_t.
Proof. solve_decision. Defined.
#[export] Instance network_mode_enum : CEnum si_network_mode_t.
Proof. enum_of [SI_NETWORK_MODE_DHCP; SI_NETWORK_MODE_STATIC]. Defined.

Record si_network_config_t := mk_network_config {
  schema_version : Z;
  generation : Z;
  mode : Z;
  autoip_fallback : bool;
  hostname : cstring;
  address : cstring;
  netmask : cstring;
  gateway : cstring;
  dns_primary : cstring;
  dns_secondary : cstring
}.

Definition si_network_config_default (default_hostname : option cstring)
  : si_network_config_t :=
  mk_network_config SI_NETWORK_CONFIG_SCHEMA_VERSION 0 (enum_val SI_NETWORK_MODE_DHCP) true
    (if si_product_hostname_valid default_hostname
     then strtrunc (SI_PRODUCT_HOSTNAME_MAX_LEN + 1) (deref default_hostname) else [])
    [] [] [] [] [].

Definition si_network_mode_name (mode : Z) : cstring :=
  match enum_of_Z mode with
  | Some SI_NETWORK_MODE_DHCP => cstr "dhcp"
  | Some SI_NETWORK_MODE_STATIC => cstr "static"
  | None => cstr "unknown"
  end.

(** The error buffer: [None] when it is NULL or has no room. *)
Definition set_error (error_size : nat) (text : cstring) : option cstring :=
  return_if (error_size =? 0)%nat with None ;; Some (strtrunc error_size text).

Definition dns_valid (text : cstring) : bool :=
  return_if is_empty text with true ;;
  ptr_test (fun dns => ipv4_unicast dns true) (si_network_ipv4_parse (Some text)).

Definition host_part (a mask : Z) : Z := Z.land a (not32 mask).

(** The result and the text left in an error buffer of [error_size] bytes. *)
Definition si_network_config_validate (config : option si_network_config_t) (error_size : nat)
  : bool * option cstring :=
  let fail text := (false, set_error error_size (cstr text)) in
  let ok := (true, set_error error_size []) in
  match config with
  | None => fail "config is required"
  | Some c =>
      return_if negb (schema_version c =? SI_NETWORK_CONFIG_SCHEMA_VERSION)
        with fail "unsupported schema version" ;;
      return_if negb (si_product_hostname_valid (Some (hostname c)))
        with fail "hostname is not a valid RFC1123 label" ;;
      return_if negb (mode c =? enum_val SI_NETWORK_MODE_DHCP) &&
                negb (mode c =? enum_val SI_NETWORK_MODE_STATIC)
        with fail "network mode is invalid" ;;
      return_if mode c =? enum_val SI_NETWORK_MODE_DHCP with ok ;;
      match si_network_ipv4_parse (Some (address c)) with
      | None => fail "static IPv4 address is invalid"
      | Some a =>
          return_if negb (ipv4_unicast a false) with fail "static IPv4 address is invalid" ;;
          match si_network_ipv4_parse (Some (netmask c)) with
          | None => fail "static IPv4 netmask is invalid"
          | Some m =>
              return_if negb (netmask_contiguous m)
                with fail "static IPv4 netmask is invalid" ;;
              let host_bits := host_part a m in
              return_if (host_bits =? 0) || (host_bits =? not32 m)
                with fail "static IPv4 is network or broadcast" ;;
              let after_gateway :=
                return_if negb (dns_valid (dns_primary c)) ||
                          negb (dns_valid (dns_secondary c))
                  with fail "DNS IPv4 address is invalid" ;;
                ok in
              return_if is_empty (gateway c) with after_gateway ;;
              match si_network_ipv4_parse (Some (gateway c)) with
              | None => fail "gateway must be a unicast address in the subnet"
              | Some g =>
                  return_if negb (ipv4_unicast g false) ||
                            negb (Z.land g m =? Z.land a m)
                    with fail "gateway must be a unicast address in the subnet" ;;
                  let gateway_host_bits := host_part g m in
                  return_if (gateway_host_bits =? 0) || (gateway_host_bits =? not32 m)
                    with fail "gateway is network or broadcast" ;;
                  after_gateway
              end
          end
      end
  end.
