(* ===== verification/NetworkConfigProps.v ===== *)
(** * Network configuration: properties

    The dotted-quad grammar, the subnet arithmetic of a static configuration,
    and the factory defaults. *)

From S2P Require Import Prelude CText Hex NetworkConfig.

(** ** Dotted quads *)

Definition digits_value (v : Z) (g : cstring) : Z :=
  foldl (fun v c => v * 10 + (c - ch "0")) v g.

Definition octet (g : cstring) : Prop :=
  (1 <= length g <= 3)%nat /\ Forall (fun c => ch "0" <= c <= ch "9") g /\
  digits_value 0 g <= 255.

#[export] Instance octet_dec g : Decision (octet g).
Proof. unfold octet. apply _. Defined.

Fixpoint dotted (gs : list cstring) : cstring :=
  match gs with
  | [] => []
  | [g] => g
  | g :: gs => g ++ ch "." :: dotted gs
  end.

Definition quad_value (vs : list Z) : Z := foldl (fun v x => v * 256 + x) 0 vs.

Definition no_digit (rest : cstring) : Prop :=
  match rest with [] => True | c :: _ => ~ (ch "0" <= c <= ch "9") end.

Lemma digits_value_mono v g :
  0 <= v -> Forall (fun c => ch "0" <= c <= ch "9") g -> v <= digits_value v g.
Proof.
  intros Hv H. revert v Hv. unfold digits_value.
  induction H as [|c g Hc Hg IH]; intros v Hv; cbn [foldl]; [lia|].
  change (ch "0") with 48 in *. change (ch "9") with 57 in *.
  specialize (IH (v * 10 + (c - 48)) ltac:(lia)). lia.
Qed.

Lemma octet_step v c :
  0 <= v <= 255 -> ch "0" <= c <= ch "9" ->
  u32 (u32 (v * 10) + (c - ch "0")) = v * 10 + (c - ch "0").
Proof.
  change (ch "0") with 48. change (ch "9") with 57. intros Hv Hc.
  rewrite (u32_small (v * 10)) by (unfold is_u32; lia). apply u32_small. unfold is_u32. lia.
Qed.

Lemma parse_octet_sound cursor v n v' rest :
  0 <= v <= 255 -> parse_octet cursor v n = Some (v', rest) ->
  exists g, cursor = g ++ rest /\ Forall (fun c => ch "0" <= c <= ch "9") g /\
    no_digit rest /\ v' = digits_value v g /\ v' <= 255 /\
    (g = [] \/ (n + length g <= 3)%nat).
Proof.
  revert v n. induction cursor as [|c cur IH]; intros v n Hv; cbn [parse_octet].
  { intros [= <- <-]. exists []. split_and!; try done; [lia | by left]. }
  destruct ((ch "0" <=? c) && (c <=? ch "9")) eqn:Ec.
  - apply andb_prop in Ec as [E1 E2]. to_props. rewrite octet_step by done.
    destruct ((3 <? S n)%nat || (255 <? v * 10 + (c - ch "0"))) eqn:Eg; [done|].
    split_guards. to_props. intros Hp. apply IH in Hp as (g & -> & Hg & Hr & -> & Hle & Hn);
      [|change (ch "0") with 48 in *; lia].
    exists (c :: g). split_and!; try done; [by constructor | right].
    destruct Hn as [->|Hn]; cbn [length]; lia.
  - intros [= <- <-]. exists []. split_and!; try done; [|lia|by left].
    cbn. intros [H1 H2]. apply Z.leb_le in H1, H2. by rewrite H1, H2 in Ec.
Qed.

Lemma parse_octet_complete g rest v n :
  0 <= v -> Forall (fun c => ch "0" <= c <= ch "9") g -> no_digit rest ->
  digits_value v g <= 255 -> (n + length g <= 3)%nat ->
  parse_octet (g ++ rest) v n = Some (digits_value v g, rest).
Proof.
  intros Hv H. revert v n Hv. induction H as [|c g Hc Hg IH]; intros v n Hv Hr Hd Hn.
  - cbn [app]. destruct rest as [|d rest]; [done|]. cbn [parse_octet no_digit] in *.
    destruct ((ch "0" <=? d) && (d <=? ch "9")) eqn:E; [|done].
    apply andb_prop in E as [E1 E2]. to_props. by destruct Hr.
  - cbn [app parse_octet length] in *.
    rewrite (proj2 (Z.leb_le _ _)), (proj2 (Z.leb_le _ _)) by lia. cbn [andb].
    assert (Hstep : 0 <= v * 10 + (c - ch "0")) by (change (ch "0") with 48 in *; lia).
    pose proof (digits_value_mono (v * 10 + (c - ch "0")) g Hstep Hg) as Hm.
    change (digits_value v (c :: g)) with (digits_value (v * 10 + (c - ch "0")) g) in *.
    rewrite octet_step by (try done; change (ch "0") with 48 in *; lia).
    rewrite (proj2 (Nat.ltb_ge _ _)), (proj2 (Z.ltb_ge _ _)) by lia. cbn [orb].
    apply IH; try done. lia.
Qed.

Lemma nth0_dot rest : nth 0 rest 0 = ch "." -> exists r, rest = ch "." :: r.
Proof. destruct rest; cbn; intros H; [done|]. subst. eauto. Qed.

Lemma nth0_end rest : cstring_ok rest -> nth 0 rest 0 = 0 -> rest = [].
Proof. intros H E. destruct H as [|c r Hc]; [done|]. cbn in E. lia. Qed.

Lemma parse_parts_S k cursor :
  parse_parts (S k) cursor =
    (let c := nth 0 cursor 0 in
     return_if (c <? ch "0") || (ch "9" <? c) with None ;;
     match parse_octet cursor 0 0 with
     | None => None
     | Some (value, cursor) =>
         if (0 <? k)%nat then
           return_if negb (nth 0 cursor 0 =? ch ".") with None ;;
           option_map (cons value) (parse_parts k (drop 1 cursor))
         else return_if negb (nth 0 cursor 0 =? 0) with None ;; Some [value]
     end).
Proof. reflexivity. Qed.

Lemma first_digit rest :
  no_digit rest -> ch "0" <= nth 0 rest 0 -> nth 0 rest 0 <= ch "9" -> False.
Proof. destruct rest as [|c r]; cbn [nth no_digit]; [by change (ch "0") with 48|tauto]. Qed.

Lemma parse_parts_sound k cursor vs :
  cstring_ok cursor -> parse_parts (S k) cursor = Some vs ->
  exists gs, length gs = S k /\ Forall octet gs /\ cursor = dotted gs /\
             vs = digits_value 0 <$> gs.
Proof.
  revert cursor vs. induction k as [|k IH]; intros cursor vs Hok H;
    rewrite parse_parts_S in H; cbv zeta in H; case_if_in H; try done; split_guards; to_props;
    destruct (parse_octet cursor 0 0) as [[v rest]|] eqn:Eo; try done;
    apply parse_octet_sound in Eo as (g & -> & Hg & Hr & -> & Hle & Hn); try lia;
    (assert (Hgne : g <> []) by
      (intros ->; by apply (first_digit rest)));
    (assert (Hoct : octet g) by
      (unfold octet; destruct g; [done|]; destruct Hn; [done|]; cbn [length] in *; split_and!;
       [lia | lia | done | done]));
    apply Forall_app in Hok as [_ Hok].
  - cbn [Nat.ltb Nat.leb] in H. case_if_in H; [done|]. split_guards. to_props.
    injection H as <-. rewrite (nth0_end rest Hok Heqb).
    exists [g]. rewrite app_nil_r. split_and!; try done. by apply Forall_singleton.
  - cbn [Nat.ltb Nat.leb] in H. case_if_in H; [done|]. split_guards. to_props.
    apply nth0_dot in Heqb as [r ->]. change (drop 1 (ch "." :: r)) with r in H.
    destruct (parse_parts (S k) r) as [vs'|] eqn:Ep; [|done]. injection H as <-.
    apply IH in Ep as (gs & Hl & Hgs & -> & ->); [|by inversion Hok].
    exists (g :: gs). split_and!; try done; [cbn; lia | by constructor |].
    by destruct gs.
Qed.

Lemma octet_head g rest :
  octet g -> (nth 0 (g ++ rest) 0 <? ch "0") || (ch "9" <? nth 0 (g ++ rest) 0) = false.
Proof.
  intros (Hl & Hg & _). destruct g as [|c g]; [cbn in Hl; lia|].
  inversion Hg as [|? ? Hc _]; subst. cbn [app nth].
  rewrite (proj2 (Z.ltb_ge _ _)), (proj2 (Z.ltb_ge _ _)) by lia. done.
Qed.

Lemma parse_parts_complete k gs :
  length gs = S k -> Forall octet gs ->
  parse_parts (S k) (dotted gs) = Some (digits_value 0 <$> gs).
Proof.
  revert gs. induction k as [|k IH]; intros gs Hl Hgs;
    (destruct gs as [|g gs]; [done|]); inversion Hgs as [|? ? Hg Hr]; subst.
  - destruct gs; [|done]. cbn [dotted parse_parts].
    pose proof (octet_head g [] Hg) as Hh. rewrite app_nil_r in Hh. rewrite Hh.
    destruct Hg as (Hlg & Hdg & Hv).
    pose proof (parse_octet_complete g [] 0 0 ltac:(lia) Hdg I Hv ltac:(lia)) as E.
    rewrite app_nil_r in E. rewrite E. done.
  - destruct gs as [|g2 gs]; [done|].
    change (dotted (g :: g2 :: gs)) with (g ++ ch "." :: dotted (g2 :: gs)).
    rewrite parse_parts_S. cbv zeta. rewrite octet_head by done. destruct Hg as (Hlg & Hdg & Hv).
    rewrite parse_octet_complete; [|lia|done| |done|lia].
    2: { cbn. change (ch ".") with 46. change (ch "0") with 48. lia. }
    cbn [Nat.ltb Nat.leb nth]. rewrite Z.eqb_refl, skipn_cons, drop_0. cbn [negb].
    rewrite IH; [done | cbn [length] in *; lia | done].
Qed.

Lemma quad_value_lor a b c d :
  0 <= a < 256 -> 0 <= b < 256 -> 0 <= c < 256 -> 0 <= d < 256 ->
  Z.lor (Z.lor (Z.lor (u32 (Z.shiftl a 24)) (u32 (Z.shiftl b 16))) (u32 (Z.shiftl c 8))) d
    = quad_value [a; b; c; d].
Proof.
  intros Ha Hb Hc Hd.
  rewrite !u32_small by (unfold is_u32; rewrite Z.shiftl_mul_pow2 by lia; lia).
  change 24 with (8 + 16). change 16 with (8 + 8) at 2.
  rewrite <- (Z.shiftl_shiftl a 8 16) by lia. change (8 + 8) with 16.
  rewrite <- Z.shiftl_lor. change 16 with (8 + 8). rewrite <- Z.shiftl_shiftl by lia.
  rewrite <- Z.shiftl_lor. rewrite !lor_shiftl_add by lia.
  unfold quad_value. cbn [foldl]. lia.
Qed.

Definition ipv4_print (v : Z) : cstring :=
  dotted (decimal <$> [v / 2 ^ 24; v / 2 ^ 16 mod 256; v / 2 ^ 8 mod 256; v mod 256]).

Lemma decimal_octet d :
  0 <= d < 256 -> octet (decimal d) /\ digits_value 0 (decimal d) = d.
Proof.
  intros H. assert (Hd : d ∈ seqZ 0 256) by (apply elem_of_seqZ; lia).
  clear H. revert d Hd. apply Forall_forall. by_decide.
Qed.

Lemma octet_value_range g : octet g -> 0 <= digits_value 0 g < 256.
Proof. intros (_ & Hg & Hv). pose proof (digits_value_mono 0 g ltac:(lia) Hg). lia. Qed.

Lemma dotted_ok gs : Forall octet gs -> cstring_ok (dotted gs).
Proof.
  induction 1 as [|g gs (_ & Hg & _) Hgs IH]; [constructor|].
  assert (Hc : cstring_ok g).
  { eapply Forall_impl; [exact Hg|]. cbn. change (ch "0") with 48. change (ch "9") with 57.
    intros; lia. }
  destruct gs as [|g2 gs]; [done|].
  change (dotted (g :: g2 :: gs)) with (g ++ ch "." :: dotted (g2 :: gs)).
  apply Forall_app. split; [done|]. constructor; [|done].
  change (1 <= 46 < 256). lia.
Qed.

(** Parsing, on the four groups of a text. *)
Lemma ipv4_parse_groups t v :
  cstring_ok t ->
  si_network_ipv4_parse (Some t) = Some v <->
  exists gs, length gs = 4%nat /\ Forall octet gs /\ t = dotted gs /\
             v = quad_value (digits_value 0 <$> gs).
Proof.
  intros Hok. unfold si_network_ipv4_parse.
  assert (Hq : forall gs, length gs = 4%nat -> Forall octet gs ->
    match digits_value 0 <$> gs with
    | [a; b; c; d] => Some (Z.lor (Z.lor (Z.lor (u32 (Z.shiftl a 24)) (u32 (Z.shiftl b 16)))
                              (u32 (Z.shiftl c 8))) d)
    | _ => None
    end = Some (quad_value (digits_value 0 <$> gs))).
  { intros gs Hl Hgs. do 5 (destruct gs as [|? gs]; try done).
    repeat match goal with
    | H : Forall octet (_ :: _) |- _ =>
        apply Forall_cons in H as [?%octet_value_range H] end.
    cbn [fmap list_fmap]. by rewrite quad_value_lor. }
  split.
  - destruct (is_empty t); [done|].
    destruct (parse_parts 4 t) as [vs|] eqn:E; [|done].
    apply parse_parts_sound in E as (gs & Hl & Hgs & -> & ->); [|done].
    rewrite Hq by done. intros [= <-]. exists gs. done.
  - intros (gs & Hl & Hgs & -> & ->).
    assert (He : is_empty (dotted gs) = false).
    { destruct gs as [|g gs]; [done|]. inversion Hgs as [|? ? (Hg & _) _]; subst.
      destruct g; [cbn in Hg; lia|]. by destruct gs. }
    rewrite He, parse_parts_complete by done. by apply Hq.
Qed.

Lemma quad_value_range gs :
  length gs = 4%nat -> Forall octet gs -> is_u32 (quad_value (digits_value 0 <$> gs)).
Proof.
  intros Hl Hgs. do 5 (destruct gs as [|? gs]; try done). rewrite !Forall_cons in Hgs.
  destruct Hgs as (H1%octet_value_range & H2%octet_value_range & H3%octet_value_range &
                   H4%octet_value_range & _).
  unfold quad_value, is_u32. cbn [fmap list_fmap foldl]. lia.
Qed.

Lemma ipv4_parse_print a : is_u32 a -> si_network_ipv4_parse (Some (ipv4_print a)) = Some a.
Proof.
  unfold is_u32. intros Ha.
  assert (Hd : Forall (fun d => octet (decimal d) /\ digits_value 0 (decimal d) = d)
                 [a / 2 ^ 24; a / 2 ^ 16 mod 256; a / 2 ^ 8 mod 256; a mod 256]).
  { repeat apply Forall_cons_2; try apply Forall_nil_2; apply decimal_octet;
      Z.div_mod_to_equations; lia. }
  set (ds := [a / 2 ^ 24; a / 2 ^ 16 mod 256; a / 2 ^ 8 mod 256; a mod 256]) in *.
  assert (Ho : Forall octet (decimal <$> ds)).
  { rewrite Forall_fmap. eapply Forall_impl; [exact Hd | by intros ? []]. }
  assert (Hv : digits_value 0 <$> (decimal <$> ds) = ds).
  { rewrite <- list_fmap_compose. rewrite <- (list_fmap_id ds) at 2.
    apply Forall_fmap_ext_1. eapply Forall_impl; [exact Hd | by intros ? []]. }
  apply ipv4_parse_groups; [by apply dotted_ok|]. exists (decimal <$> ds).
  split_and!; try done. rewrite Hv. unfold ds, quad_value. cbn [foldl].
  Z.div_mod_to_equations. lia.
Qed.

(** An IPv4 text parses exactly when it is four groups of one to three
    digits, each at most 255, between single dots, and nothing else; its value
    is the big-endian number of the groups.  Every 32-bit address printed as a
    dotted quad parses back to itself. *)
Theorem ipv4_parse_exact t v a :
  cstring_ok t -> is_u32 a ->
  (si_network_ipv4_parse (Some t) = Some v <->
   exists gs, length gs = 4%nat /\ Forall octet gs /\ t = dotted gs /\
              v = quad_value (digits_value 0 <$> gs)) /\
  (si_network_ipv4_parse (Some t) = Some v -> is_u32 v) /\
  si_network_ipv4_parse (Some (ipv4_print a)) = Some a.
Proof.
  intros Hok Ha. split_and!; [by apply ipv4_parse_groups | |].
  - rewrite ipv4_parse_groups by done. intros (gs & Hl & Hgs & _ & ->).
    by apply quad_value_range.
  - apply ipv4_parse_print, Ha.
Qed.

Lemma ipv4_parse_exact_witness : si_network_ipv4_parse (Some (cstr "192.168.001.20")) = Some 3232235796.
Proof.
  destruct (ipv4_parse_exact (cstr "192.168.001.20") 3232235796 0) as ([_ H] & _);
    [by_decide | by_decide |].
  apply H. exists [cstr "192"; cstr "168"; cstr "001"; cstr "20"].
  split; [done|]. split; [by_decide|]. split; by_eval.
Defined.


(** ** Subnets *)

(** The mask of a [/k] network with [j = 32 - k] host bits. *)
Definition mask_of (j : Z) : Z := 2 ^ 32 - 2 ^ j.

Lemma land_succ_pow n : 0 <= n -> Z.land n (n + 1) = 0 -> exists j, 0 <= j /\ n + 1 = 2 ^ j.
Proof.
  intros Hn H. exists (Z.log2 (n + 1)). split; [apply Z.log2_nonneg|].
  destruct (Z.log2_spec (n + 1) ltac:(lia)) as [Hlo Hhi].
  destruct (Z.eq_dec (n + 1) (2 ^ Z.log2 (n + 1))) as [|Hne]; [done|]. exfalso.
  assert (Hlog : Z.log2 n = Z.log2 (n + 1)) 
    by (apply Z.log2_unique; [apply Z.log2_nonneg | lia]).
  assert (Hbit : Z.testbit (Z.land n (n + 1)) (Z.log2 (n + 1)) = true).
  { pose proof (Z.log2_nonneg (n + 1)). rewrite Z.land_spec, Z.bit_log2 by lia.
    rewrite <- Hlog, Z.bit_log2 by lia. done. }
  by rewrite H, Z.bits_0 in Hbit.
Qed.

Lemma land_ones_succ j : 0 <= j -> Z.land (2 ^ j - 1) (2 ^ j) = 0.
Proof.
  intros Hj. rewrite Z.sub_1_r, <- Z.ones_equiv, Z.land_comm, Z.land_ones by done.
  by apply Z.mod_same, Z.pow_nonzero.
Qed.

Lemma netmask_contiguous_spec m :
  is_u32 m -> netmask_contiguous m = true <-> exists j, 0 <= j < 32 /\ m = mask_of j.
Proof.
  unfold is_u32, netmask_contiguous, not32, mask_of, UINT32_MAX. intros Hm. split.
  - destruct (Z.eqb_spec m 0); [done|]. rewrite u32_small by (unfold is_u32; lia).
    intros H. apply Z.eqb_eq, land_succ_pow in H as (j & Hj & E); [|lia].
    exists j. split; [|lia]. split; [done|]. apply (Z.pow_lt_mono_r_iff 2); lia.
  - intros (j & Hj & ->). assert (0 < 2 ^ j < 2 ^ 32).
    { split; [apply Z.pow_pos_nonneg; lia | apply Z.pow_lt_mono_r; lia]. }
    rewrite (proj2 (Z.eqb_neq _ 0)) by lia.
    replace (4294967295 - (2 ^ 32 - 2 ^ j)) with (2 ^ j - 1) by lia.
    rewrite u32_small by (unfold is_u32; lia).
    replace (2 ^ j - 1 + 1) with (2 ^ j) by lia.
    by rewrite land_ones_succ by lia.
Qed.

Lemma host_part_mod a j : 0 <= j -> host_part a (mask_of j) = a mod 2 ^ j.
Proof.
  intros Hj. unfold host_part, not32, mask_of, UINT32_MAX.
  replace (4294967295 - (2 ^ 32 - 2 ^ j)) with (Z.ones j)
    by (rewrite Z.ones_equiv; lia).
  by apply Z.land_ones.
Qed.

Lemma land_mask a j :
  is_u32 a -> 0 <= j < 32 -> Z.land a (mask_of j) = a / 2 ^ j * 2 ^ j.
Proof.
  intros Ha Hj. unfold mask_of.
  replace (2 ^ 32 - 2 ^ j) with (Z.shiftl (Z.ones (32 - j)) j).
  2: { rewrite Z.shiftl_mul_pow2, Z.ones_equiv, <- Z.sub_1_r, Z.mul_sub_distr_r by lia.
       rewrite <- Z.pow_add_r by lia. replace (32 - j + j) with 32 by lia. lia. }
  rewrite <- Z.shiftl_mul_pow2, <- Z.shiftr_div_pow2 by lia.
  apply Z.bits_inj'. intros i Hi. rewrite Z.land_spec.
  destruct (Z.lt_ge_cases i j) as [Hlt|Hge].
  - rewrite !Z.shiftl_spec_low by done. apply andb_false_r.
  - rewrite !Z.shiftl_spec by done. rewrite Z.shiftr_spec by lia.
    replace (i - j + j) with i by lia.
    destruct (Z.lt_ge_cases i 32).
    + rewrite Z.ones_spec_low by lia. apply andb_true_r.
    + replace (Z.testbit a i) with false; [done|]. symmetry.
      destruct (Z.eq_dec a 0) as [->|]; [apply Z.bits_0|].
      unfold is_u32 in Ha. apply Z.bits_above_log2; [lia|].
      apply Z.lt_le_trans with 32; [apply Z.log2_lt_pow2; lia | done].
Qed.

Lemma same_subnet a g j :
  is_u32 a -> is_u32 g -> 0 <= j < 32 ->
  Z.land g (mask_of j) = Z.land a (mask_of j) <-> g / 2 ^ j = a / 2 ^ j.
Proof.
  intros Ha Hg Hj. rewrite !land_mask by done.
  assert (0 < 2 ^ j) by (apply Z.pow_pos_nonneg; lia). split; [nia|]. by intros ->.
Qed.

(** A unicast address, as ranges. *)
Definition unicast (v : Z) (allow_autoip : bool) : Prop :=
  (2 ^ 24 <= v < 127 * 2 ^ 24 \/ 128 * 2 ^ 24 <= v < 224 * 2 ^ 24) /\
  (allow_autoip = true \/ ~ (43518 * 2 ^ 16 <= v < 43519 * 2 ^ 16)).

Lemma ipv4_unicast_spec v allow :
  is_u32 v -> ipv4_unicast v allow = true <-> unicast v allow.
Proof.
  unfold is_u32, ipv4_unicast, unicast, u8, UINT32_MAX. intros Hv.
  rewrite !Z.shiftr_div_pow2 by lia.
  rewrite (Z.mod_small (v / 2 ^ 24)) by (Z.div_mod_to_equations; lia).
  assert (H2 : v / 2 ^ 24 = 169 -> (v / 2 ^ 16) mod 2 ^ 8 = 254 <->
               43518 * 2 ^ 16 <= v < 43519 * 2 ^ 16)
    by (intros; Z.div_mod_to_equations; lia).
  assert (H1 : v / 2 ^ 24 * 2 ^ 24 <= v < (v / 2 ^ 24 + 1) * 2 ^ 24)
    by (Z.div_mod_to_equations; lia).
  set (f := v / 2 ^ 24) in *. set (s := (v / 2 ^ 16) mod 2 ^ 8) in *. clearbody f s.
  destruct (Z.eqb_spec f 0); cbn [orb]; [split; [done|lia]|].
  destruct (Z.eqb_spec f 127); cbn [orb]; [split; [done|lia]|].
  destruct (Z.leb_spec 224 f); cbn [orb]; [split; [done|lia]|].
  rewrite (proj2 (Z.eqb_neq v 4294967295)) by lia.
  destruct allow; cbn [negb andb]; [split; [|done]; split; [lia | by left]|].
  destruct (Z.eqb_spec f 169) as [->|]; cbn [andb].
  - destruct (Z.eqb_spec s 254); split; try done; intros; [lia|].
    split; [lia|]. right. lia.
  - split; [|done]. split; [lia|]. right. lia.
Qed.

(** A host of the subnet: neither its network nor its broadcast address. *)
Definition host_of_subnet (v j : Z) : Prop := 0 < v mod 2 ^ j < 2 ^ j - 1.

Lemma host_bits_spec v j :
  0 <= j < 32 ->
  (host_part v (mask_of j) =? 0) || (host_part v (mask_of j) =? not32 (mask_of j)) = false <->
  host_of_subnet v j.
Proof.
  intros Hj. rewrite host_part_mod by lia. unfold host_of_subnet.
  assert (0 < 2 ^ j) by (apply Z.pow_pos_nonneg; lia).
  pose proof (Z.mod_pos_bound v (2 ^ j) ltac:(done)).
  replace (not32 (mask_of j)) with (2 ^ j - 1) by (unfold not32, mask_of, UINT32_MAX; lia).
  rewrite orb_false_iff, !Z.eqb_neq. lia.
Qed.

Definition dns_ok (text : cstring) : Prop :=
  text = [] \/ exists v, si_network_ipv4_parse (Some text) = Some v /\ unicast v true.

Definition network_strings_ok (c : si_network_config_t) : Prop :=
  Forall cstring_ok [address c; netmask c; gateway c; dns_primary c; dns_secondary c].

#[export] Instance network_strings_ok_dec c : Decision (network_strings_ok c).
Proof. unfold network_strings_ok, cstring_ok. apply _. Defined.

Lemma parse_u32 t v :
  cstring_ok t -> si_network_ipv4_parse (Some t) = Some v -> is_u32 v.
Proof.
  intros Hok. rewrite ipv4_parse_groups by done. intros (gs & Hl & Hgs & _ & ->).
  by apply quad_value_range.
Qed.

Lemma dns_valid_spec t : cstring_ok t -> dns_valid t = true <-> dns_ok t.
Proof.
  intros Hok. unfold dns_valid, dns_ok. destruct t as [|c t]; cbn [is_empty].
  { split; [by left|done]. }
  destruct (si_network_ipv4_parse (Some (c :: t))) as [v|] eqn:E; cbn [ptr_test].
  - rewrite ipv4_unicast_spec by (by eapply parse_u32). split; [eauto|].
    intros [?|(v' & [= <-] & ?)]; done.
  - split; [done|]. by intros [?|(v' & ? & _)].
Qed.

(** The gateway of a static configuration with address [a] and [j] host bits. *)
Definition gateway_ok (t : cstring) (a j : Z) : Prop :=
  t = [] \/ exists g, si_network_ipv4_parse (Some t) = Some g /\ unicast g false /\
    g / 2 ^ j = a / 2 ^ j /\ host_of_subnet g j.

Definition static_ok (c : si_network_config_t) : Prop :=
  exists a j, si_network_ipv4_parse (Some (address c)) = Some a /\
    si_network_ipv4_parse (Some (netmask c)) = Some (mask_of j) /\ 0 <= j < 32 /\
    unicast a false /\ host_of_subnet a j /\ gateway_ok (gateway c) a j /\
    dns_ok (dns_primary c) /\ dns_ok (dns_secondary c).

Lemma gateway_valid t a j :
  cstring_ok t -> is_u32 a -> 0 <= j < 32 ->
  gateway_ok t a j <->
  is_empty t || ptr_test (fun g => ipv4_unicast g false &&
    (Z.land g (mask_of j) =? Z.land a (mask_of j)) &&
    negb ((host_part g (mask_of j) =? 0) || (host_part g (mask_of j) =? not32 (mask_of j))))
    (si_network_ipv4_parse (Some t)) = true.
Proof.
  intros Ht Ha Hj. unfold gateway_ok. destruct t as [|c t]; [split; [done|by left]|].
  cbn [is_empty orb].
  destruct (si_network_ipv4_parse (Some (c :: t))) as [g|] eqn:E; cbn [ptr_test].
  - pose proof (parse_u32 _ _ Ht E) as Hg.
    rewrite !andb_true_iff, negb_true_iff, ipv4_unicast_spec, host_bits_spec, Z.eqb_eq,
      same_subnet by done.
    split; [|intros [[? ?] ?]; right; by exists g].
    by intros [?|(g' & [= <-] & ? & ? & ?)].
  - split; [|done]. by intros [?|(g & ? & _)].
Qed.

Lemma mask_of_inj i j : 0 <= i -> 0 <= j -> mask_of i = mask_of j -> i = j.
Proof. intros Hi Hj H. apply (Z.pow_inj_r 2); unfold mask_of in H; lia. Qed.

(** The static part of validation, past the common checks. *)
Lemma validate_static c n :
  network_strings_ok c -> schema_version c = SI_NETWORK_CONFIG_SCHEMA_VERSION ->
  si_product_hostname_valid (Some (hostname c)) = true ->
  mode c = enum_val SI_NETWORK_MODE_STATIC ->
  (si_network_config_validate (Some c) n).1 = true <-> static_ok c.
Proof.
  intros Hstr Hv Hh Hm. unfold network_strings_ok in Hstr. rewrite !Forall_cons in Hstr.
  destruct Hstr as (Ha & Hk & Hg & Hd1 & Hd2 & _).
  unfold si_network_config_validate. rewrite Hv, Hh, Hm. cbn [negb].
  change (enum_val SI_NETWORK_MODE_STATIC =? enum_val SI_NETWORK_MODE_DHCP) with false.
  cbv zeta. change (negb (SI_NETWORK_CONFIG_SCHEMA_VERSION =? _)) with false. cbn [andb negb].
  change (negb (enum_val SI_NETWORK_MODE_STATIC =? enum_val SI_NETWORK_MODE_STATIC)) with false.
  cbv match. unfold static_ok.
  destruct (si_network_ipv4_parse (Some (address c))) as [a|] eqn:Ea.
  2: { split; [done|]. by intros (a & j & ? & _). }
  pose proof (parse_u32 _ _ Ha Ea) as Ua.
  pose proof (ipv4_unicast_spec a false Ua) as Hu.
  destruct (ipv4_unicast a false); cbn [negb].
  2: { split; [done|]. intros (a' & j & [= <-] & _ & _ & H & _). by apply Hu in H. }
  destruct (si_network_ipv4_parse (Some (netmask c))) as [m|] eqn:Em.
  2: { split; [done|]. by intros (a' & j & _ & ? & _). }
  pose proof (netmask_contiguous_spec m (parse_u32 _ _ Hk Em)) as Hc.
  destruct (netmask_contiguous m); cbn [negb].
  2: { split; [done|]. intros (a' & j & _ & [= ->] & Hj & _).
       assert (false = true) by (apply Hc; eauto). done. }
  destruct Hc as [(j & Hj & ->) _]; [done|].
  pose proof (host_bits_spec a j Hj) as Hb.
  destruct ((host_part a (mask_of j) =? 0) || _).
  2: transitivity (gateway_ok (gateway c) a j /\ dns_ok (dns_primary c) /\ dns_ok (dns_secondary c)).
  { split; [done|]. intros (a' & j' & [= <-] & [= E] & Hj' & _ & H & _).
    apply mask_of_inj in E as <-; [|lia|lia]. by apply Hb in H. }
  - pose proof (dns_valid_spec _ Hd1) as H1. pose proof (dns_valid_spec _ Hd2) as H2.
    pose proof (gateway_valid (gateway c) a j Hg Ua Hj) as H3.
    rewrite H3, <- H1, <- H2.
    destruct (is_empty (gateway c)); cbn [orb].
    { destruct (dns_valid (dns_primary c)), (dns_valid (dns_secondary c)); cbn; intuition. }
    destruct (si_network_ipv4_parse (Some (gateway c))) as [g|]; cbn [ptr_test];
      [|split; [done|by intros (? & _)]].
    destruct (ipv4_unicast g false), (Z.land g _ =? _); cbn [negb orb andb];
      try (split; [done|by intros (? & _)]).
    destruct ((host_part g (mask_of j) =? 0) || _); cbn [negb];
      [split; [done|by intros (? & _)]|].
    destruct (dns_valid (dns_primary c)), (dns_valid (dns_secondary c)); cbn; intuition.
  - split.
    + intros Hrest. exists a, j. apply proj1 in Hu. apply proj1 in Hb. auto 10.
    + intros (a' & j' & [= <-] & [= E] & Hj' & _ & _ & H).
      apply mask_of_inj in E as <-; [done|lia|lia].
Qed.

(** ** Configurations *)

(** A DNS label: lower-case letters, digits and inner hyphens. *)
Definition dns_label (v : cstring) (max_len : nat) : Prop :=
  (1 <= length v <= max_len)%nat /\ head v <> Some (ch "-") /\ last v <> Some (ch "-") /\
  Forall (fun c => islower c || isdigit c || (c =? ch "-") = true) v.

#[export] Instance dns_label_dec v n : Decision (dns_label v n).
Proof. unfold dns_label. apply _. Defined.

Lemma label_valid_spec v n : label_valid (Some v) n = true <-> dns_label v n.
Proof.
  unfold label_valid, dns_label. cbv zeta.
  replace (nth 0 v 0) with (default 0 (head v)) by (by destruct v).
  replace (nth (length v - 1) v 0) with (default 0 (last v))
    by (by rewrite nth_lookup, last_lookup, Nat.sub_1_r).
  assert (Hd : forall o : option Z, (default 0 o =? ch "-") = false <-> o <> Some (ch "-")).
  { intros [x|]; cbn; [rewrite Z.eqb_neq; naive_solver | done]. }
  rewrite <- !Hd, <- (forallb_Forall (fun c => islower c || isdigit c || (c =? ch "-"))).
  destruct ((length v =? 0)%nat || _ || _ || _) eqn:E.
  - split; [done|]. intros (Hl & H1 & H2 & _). rewrite H1, H2, !orb_false_r in E.
    apply orb_true_iff in E as [E|E]; to_props; lia.
  - split_guards. to_props. split; [|tauto]. intros Hf. split_and!; try done; lia.
Qed.

(** The error text, before it is cut to the buffer. *)
Lemma validate_text c n :
  exists v text, si_network_config_validate c n = (v, set_error n text) /\
                 (text = [] <-> v = true).
Proof.
  assert (Hend : forall v text, (text = [] <-> v = true) -> exists v' text',
    (v, set_error n text) = (v', set_error n text') /\ (text' = [] <-> v' = true))
    by eauto.
  unfold si_network_config_validate. cbv zeta. destruct c as [c|]; [|by apply Hend].
  repeat first
    [ solve [apply Hend; done]
    | match goal with
      | |- context [match si_network_ipv4_parse ?t with Some _ => _ | None => _ end] =>
          destruct (si_network_ipv4_parse t)
      end
    | case_if ].
Qed.

Lemma set_error_fits n text :
  (2 <= n)%nat -> exists t, set_error n text = Some t /\ (length t < n)%nat /\
                           (t = [] <-> text = []).
Proof.
  intros Hn. unfold set_error. destruct (Nat.eqb_spec n 0); [lia|].
  eexists. split; [reflexivity|]. split; [apply strtrunc_length; lia|].
  unfold strtrunc. destruct text as [|c text]; [by rewrite take_nil|].
  split; [|done]. by destruct n as [|[|n]]; [lia|lia|].
Qed.

(** A configuration validates exactly when its version is the current one,
    its host name is a DNS label of at most 63 bytes, and it is automatic or a
    proper static one: the address is a unicast host of a real subnet (a
    contiguous mask, neither network nor broadcast), the gateway if any is a
    unicast host of the same subnet, and the name servers if any are unicast.
    The error text is empty exactly on success, and fits its buffer. *)
Theorem network_config_valid_exact c n :
  network_strings_ok c -> (2 <= n)%nat ->
  let (valid, error) := si_network_config_validate (Some c) n in
  (valid = true <->
   schema_version c = SI_NETWORK_CONFIG_SCHEMA_VERSION /\
   dns_label (hostname c) SI_PRODUCT_HOSTNAME_MAX_LEN /\
   (mode c = enum_val SI_NETWORK_MODE_DHCP \/
    mode c = enum_val SI_NETWORK_MODE_STATIC /\ static_ok c)) /\
  (exists text, error = Some text /\ (length text < n)%nat /\ (text = [] <-> valid = true)) /\
  (si_network_config_validate None n).1 = false.
Proof.
  intros Hstr Hn. destruct (si_network_config_validate (Some c) n) as [valid error] eqn:E.
  split_and!; [| |done].
  - rewrite <- label_valid_spec. change valid with (fst (valid, error)). rewrite <- E.
    destruct (Z.eqb_spec (schema_version c) SI_NETWORK_CONFIG_SCHEMA_VERSION) as [Hv|Hv].
    2: { split; [|by intros (? & _)]. unfold si_network_config_validate.
         by rewrite (proj2 (Z.eqb_neq _ _) Hv). }
    destruct (label_valid (Some (hostname c)) SI_PRODUCT_HOSTNAME_MAX_LEN) eqn:Hh.
    2: { split; [|by intros (_ & ? & _)]. unfold si_network_config_validate.
         unfold si_product_hostname_valid. by rewrite Hv, Hh. }
    destruct (Z.eq_dec (mode c) (enum_val SI_NETWORK_MODE_STATIC)) as [Hm|Hm].
    { rewrite validate_static by done. rewrite Hm. generalize (static_ok c). intros P.
      split; [auto|]. by intros (_ & _ & [H|[_ H]]). }
    unfold si_network_config_validate, si_product_hostname_valid. rewrite Hv, Hh.
    rewrite (proj2 (Z.eqb_neq (mode c) (enum_val SI_NETWORK_MODE_STATIC)) Hm).
    generalize (static_ok c). intros P.
    destruct (Z.eqb_spec (mode c) (enum_val SI_NETWORK_MODE_DHCP)) as [Hd|Hd].
    + split; [auto|done].
    + split; [done|]. by intros (_ & _ & [?|[? _]]).
  - destruct (validate_text (Some c) n) as (v & text & E' & Ht). rewrite E in E'.
    injection E' as -> ->. destruct (set_error_fits n text Hn) as (t & -> & Hl & Htt).
    exists t. by rewrite Htt, Ht.
Qed.

Definition demo_network : si_network_config_t :=
  mk_network_config 1 7 1 true (cstr "exoanchor-0a1b2c") (cstr "192.168.1.20")
    (cstr "255.255.255.0") (cstr "192.168.1.1") (cstr "1.1.1.1") [].

Lemma network_config_valid_exact_witness :
  static_ok demo_network.
Proof.
  pose proof (network_config_valid_exact demo_network 96) as H.
  change (si_network_config_validate (Some demo_network) 96) with (true, Some ([] : cstring)) in H.
  destruct H as ([H _] & _); [by_decide | lia |].
  destruct (H eq_refl) as (_ & _ & [Hm|[_ Hs]]); [discriminate Hm|exact Hs].
Defined.

(** The factory identity of a board, from its hardware address. *)
Lemma identity_of_mac mac :
  let bytes := [nth 3 mac 0; nth 4 mac 0; nth 5 mac 0] in
  si_product_identity_default_from_mac (Some mac) =
    mk_identity (cstr "ea-p4-" ++ (bytes ≫= hex_byte)) (cstr "exoanchor-" ++ (bytes ≫= hex_byte))
      (bytes ≫= hex_byte).
Proof. reflexivity. Qed.

Lemma suffix_of_mac mac :
  Forall is_byte mac ->
  let s := [nth 3 mac 0; nth 4 mac 0; nth 5 mac 0] ≫= hex_byte in
  length s = 6%nat /\ s <> [] /\ Forall (fun c => islower c || isdigit c = true) s.
Proof.
  intros Hm. cbn [mbind list_bind app]. split_and!; [done | done |].
  assert (Hb : forall j, 0 <= nth j mac 0 < 256).
  { intros j. rewrite nth_lookup. destruct (mac !! j) as [b|] eqn:E; cbn; [|lia].
    exact (Forall_lookup_1 _ _ _ _ Hm E). }
  unfold hex_byte. cbn [app]. repeat constructor; apply hex_digit_range;
    [pose proof (Hb 3%nat) | pose proof (Hb 3%nat) | pose proof (Hb 4%nat)
    | pose proof (Hb 4%nat) | pose proof (Hb 5%nat) | pose proof (Hb 5%nat)];
    Z.div_mod_to_equations; lia.
Qed.

Lemma dns_label_suffix p s n :
  dns_label p n -> s <> [] -> (length p + length s < n)%nat ->
  Forall (fun c => islower c || isdigit c = true) s ->
  dns_label (p ++ ch "-" :: s) n.
Proof.
  intros (Hl & Hh & _ & Hp) Hs Hn HF. unfold dns_label. rewrite length_app. cbn [length].
  split_and!; try lia.
  - by destruct p; [cbn in Hl; lia|].
  - destruct (last s) as [c|] eqn:E; [|by apply last_None in E].
    rewrite last_app, last_cons, E. intros [= ->].
    apply last_Some in E as [l' ->]. apply Forall_app in HF as [_ HF].
    by inversion HF.
  - apply Forall_app. split; [done|]. constructor; [done|].
    eapply Forall_impl; [exact HF|]. cbn. intros c ->. done.
Qed.

(** The factory identity of every hardware address is usable: its device id
    and host name are valid labels, the default configuration with that host
    name validates, and boards that differ in the last three address bytes get
    different ids and names. *)
Theorem factory_identity_valid mac mac' n :
  Forall is_byte mac -> Forall is_byte mac' ->
  let id := si_product_identity_default_from_mac (Some mac) in
  let id' := si_product_identity_default_from_mac (Some mac') in
  si_product_device_id_valid (Some (device_id id)) = true /\
  si_product_hostname_valid (Some (identity_hostname id)) = true /\
  hostname (si_network_config_default (Some (identity_hostname id))) = identity_hostname id /\
  (si_network_config_validate
     (Some (si_network_config_default (Some (identity_hostname id)))) n).1 = true /\
  (device_id id = device_id id' \/ identity_hostname id = identity_hostname id' ->
   forall i, (3 <= i < 6)%nat -> nth i mac 0 = nth i mac' 0).
Proof.
  intros Hm Hm' id id'. unfold id, id'. rewrite !identity_of_mac.
  cbn [device_id identity_hostname]. clear id id'.
  destruct (suffix_of_mac mac Hm) as (Hlen & Hne & Hch).
  set (s := [nth 3 mac 0; nth 4 mac 0; nth 5 mac 0] ≫= hex_byte) in *.
  assert (Hhost : si_product_hostname_valid (Some (cstr "exoanchor-" ++ s)) = true).
  { apply label_valid_spec. change (cstr "exoanchor-" ++ s) with (cstr "exoanchor" ++ ch "-" :: s).
    apply dns_label_suffix; [by_decide | done | rewrite Hlen; by_decide | done]. }
  assert (Hdef : hostname (si_network_config_default (Some (cstr "exoanchor-" ++ s)))
                 = cstr "exoanchor-" ++ s).
  { unfold si_network_config_default. rewrite Hhost. cbn [hostname deref default].
    apply strtrunc_id. rewrite length_app, Hlen. by_decide. }
  split_and!; [ | done | done | | ].
  - apply label_valid_spec. change (cstr "ea-p4-" ++ s) with (cstr "ea-p4" ++ ch "-" :: s).
    apply dns_label_suffix; [by_decide | done | rewrite Hlen; by_decide | done].
  - unfold si_network_config_validate. rewrite Hdef, Hhost. done.
  - intros H i Hi. assert (Hs : s = [nth 3 mac' 0; nth 4 mac' 0; nth 5 mac' 0] ≫= hex_byte)
      by (destruct H as [H|H]; by apply app_inv_head in H).
    assert (Hb : forall l j, Forall is_byte l -> is_byte (nth j l 0)).
    { intros l j Hl. rewrite nth_lookup. destruct (l !! j) eqn:E; [|by_decide].
      by eapply Forall_lookup_1. }
    unfold s in Hs. cbn [mbind list_bind app] in Hs.
    assert (Hd : forall a b c a' b' c',
      hex_byte a ++ hex_byte b ++ hex_byte c ++ [] = hex_byte a' ++ hex_byte b' ++ hex_byte c' ++ [] ->
      hex_byte a = hex_byte a' /\ hex_byte b = hex_byte b' /\ hex_byte c = hex_byte c').
    { unfold hex_byte. intros ? ? ? ? ? ?. cbn [app]. intros E. by injection E as -> -> -> -> -> ->. }
    apply Hd in Hs as (H3 & H4 & H5).
    apply hex_byte_inj in H3, H4, H5; auto.
    destruct i as [|[|[|[|[|[|i]]]]]]; try lia; done.
Qed.

Lemma factory_identity_valid_witness :
  (si_network_config_validate (Some (si_network_config_default (Some
     (identity_hostname (si_product_identity_default_from_mac (Some [2; 0; 0; 10; 27; 255])))))) 96).1
  = true.
Proof.
  destruct (factory_identity_valid [2; 0; 0; 10; 27; 255] [2; 0; 0; 0; 0; 1] 96)
    as (_ & _ & _ & H & _); [by_decide | by_decide |]. exact H.
Defined.
