(* ===== verification/AgentAutonomy.v ===== *)
(** * Agent autonomy: [core/agent_autonomy.c]

    The operator's autonomy level against the class of an action, and the
    classifier of shell command lines and write targets. *)

From Stdlib Require Import String.
From S2P Require Import Prelude CText.

(** ** Levels and classes *)

Inductive si_agent_autonomy_level_t :=
| SI_AGENT_AUTONOMY_L0 | SI_AGENT_AUTONOMY_L1 | SI_AGENT_AUTONOMY_L2
| SI_AGENT_AUTONOMY_L3 | SI_AGENT_AUTONOMY_L4.

Inductive si_agent_action_class_t :=
| SI_AGENT_ACTION_READ | SI_AGENT_ACTION_OPERATE | SI_AGENT_ACTION_SYSTEM
| SI_AGENT_ACTION_IRREVERSIBLE.

#[export] Instance autonomy_level_eq_dec : EqDecision si_agent_autonomy_level_t.
Proof. solve_decision. Defined.
#[export] Instance action_class_eq_dec : EqDecision si_agent_action_class_t.
Proof. solve_decision. Defined.
#[export] Instance autonomy_level_enum : CEnum si_agent_autonomy_level_t.
Proof.
  enum_of [SI_AGENT_AUTONOMY_L0; SI_AGENT_AUTONOMY_L1; SI_AGENT_AUTONOMY_L2;
           SI_AGENT_AUTONOMY_L3; SI_AGENT_AUTONOMY_L4].
Defined.
#[export] Instance action_class_enum : CEnum si_agent_action_class_t.
Proof.
  enum_of [SI_AGENT_ACTION_READ; SI_AGENT_ACTION_OPERATE; SI_AGENT_ACTION_SYSTEM;
           SI_AGENT_ACTION_IRREVERSIBLE].
Defined.

Definition SI_AGENT_AUTONOMY_DEFAULT : si_agent_autonomy_level_t := SI_AGENT_AUTONOMY_L1.
Definition SI_AGENT_AUTONOMY_MAX : si_agent_autonomy_level_t := SI_AGENT_AUTONOMY_L4.

Definition si_agent_autonomy_level_valid (level : Z) : bool :=
  (enum_val SI_AGENT_AUTONOMY_L0 <=? level) && (level <=? enum_val SI_AGENT_AUTONOMY_MAX).

Definition si_agent_autonomy_allows (level action_class : Z) : bool :=
  return_if negb (si_agent_autonomy_level_valid level) ||
            (enum_val SI_AGENT_ACTION_IRREVERSIBLE <? action_class) with false ;;
  negb (level =? enum_val SI_AGENT_AUTONOMY_L0) && (action_class <=? level - 1).

Definition si_agent_autonomy_auto_through (level : Z) : Z :=
  return_if negb (si_agent_autonomy_level_valid level) ||
            (level =? enum_val SI_AGENT_AUTONOMY_L0) with -1 ;;
  return_if level =? enum_val SI_AGENT_AUTONOMY_L1 with enum_val SI_AGENT_ACTION_READ ;;
  let through := level - 2 in
  if enum_val SI_AGENT_ACTION_IRREVERSIBLE <=? through
  then enum_val SI_AGENT_ACTION_SYSTEM else through.

Definition si_agent_autonomy_auto_approves (level action_class : Z) : bool :=
  si_agent_autonomy_allows level action_class &&
  (action_class <=? si_agent_autonomy_auto_through level).

Definition si_agent_action_class_name (action_class : Z) : cstring :=
  match enum_of_Z action_class with
  | Some SI_AGENT_ACTION_READ => cstr "read"
  | Some SI_AGENT_ACTION_OPERATE => cstr "operate"
  | Some SI_AGENT_ACTION_SYSTEM => cstr "system"
  | Some SI_AGENT_ACTION_IRREVERSIBLE | None => cstr "irreversible"
  end.

Definition si_agent_autonomy_level_label (level : Z) : cstring :=
  match enum_of_Z level with
  | Some SI_AGENT_AUTONOMY_L0 => cstr "L0 无自动化"
  | Some SI_AGENT_AUTONOMY_L1 => cstr "L1 辅助"
  | Some SI_AGENT_AUTONOMY_L2 => cstr "L2 部分自动化"
  | Some SI_AGENT_AUTONOMY_L3 => cstr "L3 有条件自动化"
  | Some SI_AGENT_AUTONOMY_L4 => cstr "L4 高度自动化"
  | None => cstr "unknown"
  end.

(** ** Parsing *)

Definition CLASSIFY_MAX_COMMAND : nat := 1024.
Definition CLASSIFY_MAX_TOKENS : nat := 96.
Definition CLASSIFY_MAX_TOKEN : nat := 128.

Record classify_token_t := mk_token {
  text : cstring;
  segment : nat;
  after_redirect : bool
}.

Record classify_command_t := mk_command {
  tokens : list classify_token_t;
  segments : nat;
  control : bool;
  redirect : bool;
  truncated : bool
}.

#[export] Instance eta_command : Settable classify_command_t := fun c =>
  mk_command (tokens c) (segments c) (control c) (redirect c) (truncated c).

Definition double_quote : Z := 34.
Definition single_quote : Z := 39.
Definition backslash : Z := ch "\".
Definition is_quote (c : Z) : bool := (c =? double_quote) || (c =? single_quote).

Definition word_char (c : Z) : bool :=
  negb (c =? 0) && negb (isspace c) && negb (has_char c (cstr "|;&<>()`$")).

(** The local variables of the word loop; [quote] is 0 outside quotes. *)
Record word_state := mk_word {
  word : cstring;
  chars : nat;
  name_ok : bool;
  assignment : bool;
  quote : Z;
  word_truncated : bool
}.

#[export] Instance eta_word : Settable word_state := fun w =>
  mk_word (word w) (chars w) (name_ok w) (assignment w) (quote w) (word_truncated w).

(** The end of the loop body: one more byte; [slot] tells whether a token is
    left to hold it. *)
Definition put_char (slot : bool) (w : word_state) (c : Z) : word_state :=
  let w := w <| chars := S (chars w) |> in
  if slot && (length (word w) + 1 <? CLASSIFY_MAX_TOKEN)%nat
  then w <| word := word w ++ [tolower c] |>
  else w <| word_truncated := true |>.

(** The name of a possible assignment [name=value]. *)
Definition track_name (w : word_state) (c : Z) : word_state :=
  if (c =? ch "=") && name_ok w && (0 <? chars w)%nat then w <| assignment := true |>
  else if negb (isalnum c || (c =? ch "_")) || ((chars w =? 0)%nat && isdigit c)
       then w <| name_ok := false |> else w.

Fixpoint word_loop (slot : bool) (p : cstring) (w : word_state) : word_state * cstring :=
  match p with
  | [] => (w, [])
  | c :: p1 =>
      return_if negb (word_char c || (negb (quote w =? 0) && isspace c)) with (w, p) ;;
      if c =? backslash then
        match p1 with
        | [] => (w, [])
        | d :: p2 =>
            return_if is_quote d with word_loop slot p2 w ;;
            word_loop slot p2
              (put_char slot (if assignment w then w else w <| name_ok := false |>) d)
        end
      else if negb (quote w =? 0) then
        return_if c =? quote w with word_loop slot p1 (w <| quote := 0 |>) ;;
        word_loop slot p1 (put_char slot w c)
      else if is_quote c then
        word_loop slot p1 (if assignment w then w <| quote := c |> else w)
      else
        word_loop slot p1 (put_char slot (if assignment w then w else track_name w c) c)
  end.

Fixpoint parse_loop (fuel : nat) (p : cstring) (redirected : bool)
    (out : classify_command_t) : option classify_command_t :=
  match fuel, p with
  | O, _ => None
  | _, [] => Some out
  | S fuel, c :: p1 =>
      return_if isspace c with
        parse_loop fuel p1 redirected
          (if (c =? 10) || (c =? 13)
           then (out <| control := true |>) <| segments := S (segments out) |> else out) ;;
      return_if c =? ch "|" with
        (let twice := nth 0 p1 0 =? ch "|" in
         parse_loop fuel (if twice then drop 1 p1 else p1) false
           ((out <| control := control out || twice |>)
                 <| segments := S (segments out) |>)) ;;
      return_if c =? backslash with parse_loop fuel p1 redirected out ;;
      return_if starts_with (cstr "$ifs") p || starts_with (cstr "${ifs}") p with
        parse_loop fuel (drop (if nth 0 p1 0 =? ch "{" then 6 else 4) p) redirected out ;;
      return_if has_char c (cstr ";&`$()") with
        parse_loop fuel p1 false
          ((out <| control := true |>) <| segments := S (segments out) |>) ;;
      return_if (c =? ch ">") || (c =? ch "<") with
        parse_loop fuel p1 (c =? ch ">") (out <| redirect := true |>) ;;
      return_if is_quote c with parse_loop fuel p1 redirected out ;;
      let slot := (length (tokens out) <? CLASSIFY_MAX_TOKENS)%nat in
      let '(w, rest) := word_loop slot p (mk_word [] 0 true false 0 (truncated out)) in
      parse_loop fuel rest false
        (if slot
         then (out <| truncated := word_truncated w |>)
                   <| tokens := tokens out ++ [mk_token (word w) (segments out) redirected] |>
         else out <| truncated := true |>)
  end.

(** Every turn of the loop consumes a byte, so the length is enough fuel. *)
Definition classify_parse (command : cstring) : option classify_command_t :=
  parse_loop (S (length command)) command false (mk_command [] 0 false false false).

(** ** Words *)

Definition words (l : list string) : list cstring := cstr <$> l.
Arguments words l%_string.

(** [name=...]: the name characters, then an equals sign. *)
Fixpoint name_then_equals (token : cstring) : bool :=
  match token with
  | [] => false
  | c :: rest =>
      if isalnum c || (c =? ch "_") then name_then_equals rest else c =? ch "="
  end.

Definition assignment_word (token : cstring) : bool :=
  let first := nth 0 token 0 in
  return_if negb (isalpha first) && negb (first =? ch "_") with false ;;
  name_then_equals token.

Definition in_list (word : cstring) (l : list cstring) : bool := existsb (streq word) l.

(** The text after the last slash. *)
Fixpoint program_name (token : cstring) : cstring :=
  match token with
  | [] => []
  | c :: rest =>
      if has_char (ch "/") token then program_name rest else token
  end.

(** The words after a token that belong to its segment; [rest] is the tokens
    that follow it. *)
Fixpoint segment_args (seg : nat) (rest : list classify_token_t) : list cstring :=
  match rest with
  | [] => []
  | t :: rest =>
      if (segment t =? seg)%nat then text t :: segment_args seg rest else []
  end.

Definition segment_has (t : classify_token_t) (rest : list classify_token_t)
    (l : list cstring) : bool :=
  existsb (fun arg => in_list arg l) (segment_args (segment t) rest).

Definition segment_has_prefix (t : classify_token_t) (rest : list classify_token_t)
    (prefix : cstring) : bool :=
  existsb (starts_with prefix) (segment_args (segment t) rest).

Definition recursive_rm (t : classify_token_t) (rest : list classify_token_t) : bool :=
  existsb (fun arg =>
    streq arg (cstr "--recursive") ||
    ((nth 0 arg 0 =? ch "-") && negb (nth 1 arg 0 =? ch "-") &&
     (has_char (ch "r") arg || has_char (ch "R") arg)))
    (segment_args (segment t) rest).

Definition SYSTEM_PREFIXES : list cstring := words
  ["/etc"; "/usr"; "/boot"; "/lib"; "/lib64"; "/bin"; "/sbin"; "/opt";
   "/var/lib"; "/var/spool"; "/var/log"; "/sys"; "/proc"; "/root"; "/srv"; "/efi"].

Definition system_path (path : cstring) : bool :=
  streq path (cstr "/") ||
  existsb (fun prefix =>
    starts_with prefix path &&
    ((nth (length prefix) path 0 =? 0) || (nth (length prefix) path 0 =? ch "/")))
    SYSTEM_PREFIXES.

Definition markers : list cstring := words
  ["shadow"; "gshadow"; "/.ssh/"; "id_rsa"; "id_ed25519"; "id_ecdsa";
   "id_dsa"; ".pem"; ".p12"; ".pfx"; ".netrc"; ".pgpass";
   ".git-credentials"; "credentials"; "secret"; "token"; ".env";
   "private"; "sudoers"; ".kube/config"; ".docker/config"].

Definition sensitive_token (token : cstring) : bool :=
  existsb (fun m => contains_str m token) markers ||
  ((4 <? length token)%nat && streq (drop (length token - 4) token) (cstr ".key")).

(** ** The classes of command words *)

Definition irreversible : list cstring := words
  ["wipefs"; "fdisk"; "sfdisk"; "cfdisk"; "parted"; "sgdisk"; "gdisk";
   "shred"; "poweroff"; "shutdown"; "halt"; "blkdiscard"; "mkswap";
   "cryptsetup"; "zpool"; "zfs"; "lvremove"; "vgremove"; "pvremove";
   "dd"; "telinit"; "nvme"; "hdparm"; "flashrom"].
Definition system : list cstring := words
  ["sudo"; "su"; "doas"; "pkexec"; "runuser"; "chroot"; "apt";
   "apt-get"; "aptitude"; "dnf"; "yum"; "pacman"; "zypper"; "apk";
   "snap"; "flatpak"; "useradd"; "userdel"; "usermod"; "groupadd";
   "groupdel"; "gpasswd"; "passwd"; "chpasswd"; "chage"; "visudo";
   "mount"; "umount"; "swapon"; "swapoff"; "modprobe"; "insmod";
   "rmmod"; "iptables"; "ip6tables"; "nft"; "ufw"; "firewall-cmd";
   "nmcli"; "reboot"; "kill"; "killall"; "pkill"; "service";
   "update-grub"; "grub-install"; "grub-mkconfig"; "efibootmgr";
   "setenforce"; "chattr"; "ldconfig"; "depmod"; "update-initramfs";
   "dracut"; "mkinitcpio"; "init"; "sysctl"; "timedatectl";
   "hostnamectl"; "localectl"; "loginctl"; "machinectl"; "dpkg"; "rpm";
   "docker"; "podman"; "crontab"; "at"; "insserv"; "update-rc.d";
   "chkconfig"; "setcap"; "ethtool"].
Definition writers : list cstring := words
  ["cp"; "mv"; "tee"; "ln"; "install"; "touch"; "mkdir"; "rmdir"; "rm";
   "truncate"; "chmod"; "chown"; "chgrp"; "rsync"; "tar"; "unzip";
   "sed"; "curl"; "wget"; "patch"].
Definition systemctl_mutations : list cstring := words
  ["start"; "stop"; "restart"; "reload"; "try-restart";
   "reload-or-restart"; "enable"; "disable"; "reenable"; "mask";
   "unmask"; "daemon-reload"; "daemon-reexec"; "isolate"; "kill";
   "reset-failed"; "set-property"; "set-default"; "edit"; "link";
   "revert"; "preset"; "suspend"; "hibernate"; "reboot"; "kexec";
   "default"; "rescue"; "emergency"].
Definition systemctl_off : list cstring := words ["poweroff"; "halt"].
Definition ip_mutations : list cstring := words
  ["set"; "add"; "del"; "delete"; "flush"; "change"; "replace"; "append"].
Definition read_flags_dpkg : list cstring := words
  ["-l"; "--list"; "-s"; "--status"; "-L"; "--listfiles"; "-S"; "--search"; "--version"].
Definition read_docker : list cstring := words ["ps"; "images"; "version"; "info"].
Definition read_hostctl : list cstring := words ["status"].
Definition runners : list cstring := words
  ["sudo"; "doas"; "su"; "pkexec"; "runuser"; "env"; "xargs"; "nohup";
   "timeout"; "nice"; "ionice"; "exec"; "busybox"; "sh"; "bash"; "zsh";
   "dash"; "ksh"; "eval"; "watch"; "time"; "stdbuf"; "setsid"; "chroot";
   "find"; "flock"; "script"].
Definition shell_keywords : list cstring := words
  ["if"; "then"; "else"; "elif"; "do"; "while"; "until"; "!"; "{"].
Definition dmesg_clear : list cstring := words ["-c"; "-C"; "--clear"; "--read-clear"].

(** ** The classifier *)

(** The redirection scan: the target after each [>]. *)
Fixpoint skip_redirect (target : cstring) : cstring :=
  match target with
  | c :: rest =>
      if (c =? ch ">") || (c =? ch "|") || isspace c then skip_redirect rest else target
  | [] => []
  end.

Fixpoint device_redirect (raw : cstring) : bool :=
  match raw with
  | [] => false
  | c :: rest =>
      ((c =? ch ">") &&
       (let target := skip_redirect rest in
        starts_with (cstr "/dev/") target && negb (starts_with (cstr "/dev/null") target)))
      || device_redirect rest
  end.

(** What one word contributes: nothing, [system_hit = true], or an immediate
    irreversible verdict. *)
Inductive effect := E_NONE | E_SYSTEM | E_IRREVERSIBLE.

Definition system_if (b : bool) : effect := if b then E_SYSTEM else E_NONE.

(** The chain of tests on a command word; [rest] is the tokens after it. *)
Definition command_effect (raw : cstring) (control : bool) (t : classify_token_t)
    (rest : list classify_token_t) : effect :=
  let program := program_name (text t) in
  let named name := streq program (cstr name) in
  return_if in_list program irreversible with E_IRREVERSIBLE ;;
  return_if named "rm"%string && recursive_rm t rest with E_IRREVERSIBLE ;;
  return_if named "systemctl"%string with
    (if segment_has t rest systemctl_off then E_IRREVERSIBLE
     else system_if (segment_has t rest systemctl_mutations)) ;;
  return_if (named "init"%string || named "telinit"%string) &&
            ptr_test (fun n => streq (text n) (cstr "0")) (head rest)
    with E_IRREVERSIBLE ;;
  return_if named "ip"%string with system_if (segment_has t rest ip_mutations) ;;
  return_if named "journalctl"%string with
    system_if (segment_has_prefix t rest (cstr "--vacuum") ||
               segment_has_prefix t rest (cstr "--rotate") ||
               segment_has_prefix t rest (cstr "--flush")) ;;
  return_if named "dmesg"%string with system_if (segment_has t rest dmesg_clear) ;;
  return_if named "dpkg"%string && segment_has t rest read_flags_dpkg && negb control
    with E_NONE ;;
  return_if named "rpm"%string && segment_has_prefix t rest (cstr "-q") && negb control
    with E_NONE ;;
  return_if (named "docker"%string || named "podman"%string) &&
            ptr_test (fun n => (segment n =? segment t)%nat && in_list (text n) read_docker)
              (head rest)
    with E_NONE ;;
  return_if (named "hostnamectl"%string || named "timedatectl"%string) &&
            match head rest with
            | None => true
            | Some n => negb (segment n =? segment t)%nat || in_list (text n) read_hostctl
            end
    with E_NONE ;;
  return_if named "sysctl"%string &&
            negb (segment_has t rest (words ["-w"; "-p"; "--write"; "--load"])) &&
            negb (has_char (ch "=") raw)
    with E_NONE ;;
  return_if named "crontab"%string && segment_has t rest (words ["-l"]) &&
            negb (segment_has t rest (words ["-r"; "-e"]))
    with E_NONE ;;
  return_if in_list program system with E_SYSTEM ;;
  return_if in_list program writers with
    system_if (existsb system_path (segment_args (segment t) rest)) ;;
  E_NONE.

(** The local variables of the loop over the tokens. *)
Record scan_state := mk_scan {
  system_hit : bool;
  prefix_open : bool;
  after_builtin : bool;
  assignment_seen : bool
}.

#[export] Instance eta_scan : Settable scan_state := fun s =>
  mk_scan (system_hit s) (prefix_open s) (after_builtin s) (assignment_seen s).

(** A new segment opens a command prefix. *)
Definition enter_token (prev : option nat) (t : classify_token_t) (s : scan_state)
  : scan_state :=
  match prev with
  | Some seg =>
      if (seg =? segment t)%nat then s
      else (s <| prefix_open := true |>) <| after_builtin := false |>
  | None => (s <| prefix_open := true |>) <| after_builtin := false |>
  end.

(** The word closes the prefix unless it is a builtin, an assignment, a keyword
    or a flag of a builtin. *)
Definition advance_prefix (token : cstring) (s : scan_state) : scan_state :=
  return_if negb (prefix_open s) with s ;;
  if streq token (cstr "command") || streq token (cstr "builtin")
  then s <| after_builtin := true |>
  else if assignment_word token then s <| assignment_seen := true |>
  else if negb (in_list token shell_keywords) &&
          negb (after_builtin s && (nth 0 token 0 =? ch "-"))
       then s <| prefix_open := false |> else s.

Definition is_runner (t : classify_token_t) : bool := in_list (program_name (text t)) runners.

(** The segments of the runner words. *)
Definition runner_segments (l : list classify_token_t) : list nat :=
  segment <$> filter (fun t => is_runner t = true) l.

Fixpoint scan_loop (raw : cstring) (control : bool) (runner_segs : list nat)
    (prev : option nat) (toks : list classify_token_t) (s : scan_state)
  : si_agent_action_class_t :=
  match toks with
  | [] => if system_hit s then SI_AGENT_ACTION_SYSTEM else SI_AGENT_ACTION_OPERATE
  | t :: rest =>
      let token := text t in
      let s := enter_token prev t s in
      let command_word := prefix_open s || assignment_seen s in
      let s := advance_prefix token s in
      let command_word := command_word || existsb (Nat.eqb (segment t)) runner_segs in
      return_if starts_with (cstr "of=/dev/") token ||
                starts_with (cstr "mkfs") (program_name token)
        with SI_AGENT_ACTION_IRREVERSIBLE ;;
      let s := if sensitive_token token then s <| system_hit := true |> else s in
      let s := if after_redirect t && system_path token
               then s <| system_hit := true |> else s in
      let continue s := scan_loop raw control runner_segs (Some (segment t)) rest s in
      return_if negb command_word with continue s ;;
      match command_effect raw control t rest with
      | E_IRREVERSIBLE => SI_AGENT_ACTION_IRREVERSIBLE
      | E_SYSTEM => continue (s <| system_hit := true |>)
      | E_NONE => continue s
      end
  end.

Definition classify_irreversible_or_system (raw : cstring) (cmd : classify_command_t)
  : si_agent_action_class_t :=
  return_if contains_str (cstr ":(){") raw || contains_str (cstr ":() {") raw
    with SI_AGENT_ACTION_IRREVERSIBLE ;;
  return_if device_redirect raw with SI_AGENT_ACTION_IRREVERSIBLE ;;
  scan_loop raw (control cmd) (runner_segments (tokens cmd)) None (tokens cmd)
    (mk_scan false false false false).

(** ** Read-only segments *)

Definition read_programs : list cstring := words
  ["uname"; "uptime"; "whoami"; "id"; "df"; "du"; "free"; "lsblk";
   "lscpu"; "lsusb"; "lspci"; "lsmod"; "lshw"; "ls"; "cat"; "head";
   "tail"; "wc"; "stat"; "file"; "which"; "whereis"; "ps"; "pgrep";
   "pidof"; "pwd"; "printenv"; "nproc"; "getent"; "last"; "lastlog";
   "w"; "who"; "groups"; "ss"; "netstat"; "journalctl"; "dmesg";
   "systemctl"; "ip"; "grep"; "egrep"; "fgrep"; "zgrep"; "sort";
   "uniq"; "cut"; "tr"; "column"; "find"; "echo"; "true"; "sensors";
   "vmstat"; "iostat"; "mpstat"; "lsof"; "top"; "hostname"; "date";
   "hostnamectl"; "timedatectl"; "lsb_release"; "sha256sum";
   "md5sum"; "readlink"; "realpath"; "basename"; "dirname"; "nl";
   "dpkg"; "rpm"; "docker"; "podman"; "sysctl"; "crontab"; "env"].
Definition systemctl_reads : list cstring := words
  ["status"; "is-active"; "is-enabled"; "is-failed"; "list-units";
   "list-unit-files"; "list-timers"; "list-sockets"; "show"; "cat";
   "list-dependencies"; "--version"; "--failed"].
Definition find_effects : list cstring := words
  ["-delete"; "-exec"; "-execdir"; "-ok"; "-okdir"; "-fprint";
   "-fprint0"; "-fprintf"; "-fls"].

Definition read_only_segment (t : classify_token_t) (rest : list classify_token_t) : bool :=
  let program := program_name (text t) in
  let named name := streq program (cstr name) in
  return_if negb (in_list program read_programs) with false ;;
  let args := segment_args (segment t) rest in
  return_if named "env"%string with (length args =? 0)%nat ;;
  return_if named "find"%string with negb (segment_has t rest find_effects) ;;
  return_if named "top"%string with segment_has_prefix t rest (cstr "-b") ;;
  return_if named "hostname"%string with
    forallb (fun a => negb (negb (nth 0 a 0 =? ch "-") || streq a (cstr "-b") ||
                            streq a (cstr "-f") || streq a (cstr "--file") ||
                            streq a (cstr "--boot"))) args ;;
  return_if named "date"%string with
    negb (segment_has t rest (words ["-s"; "--set"])) &&
    negb (segment_has_prefix t rest (cstr "--set=")) ;;
  return_if named "systemctl"%string with
    (length args =? 0)%nat || segment_has t rest systemctl_reads ;;
  return_if named "crontab"%string with segment_has t rest (words ["-l"]) ;;
  true.

(** The first word of every segment starts a read-only segment. *)
Fixpoint read_only_segments (prev : option nat) (toks : list classify_token_t) : bool :=
  match toks with
  | [] => true
  | t :: rest =>
      let command_word :=
        match prev with None => true | Some seg => negb (seg =? segment t)%nat end in
      return_if command_word && negb (read_only_segment t rest) with false ;;
      read_only_segments (Some (segment t)) rest
  end.

(** [None] when the parser runs out of fuel (it does not) ; a failed [calloc] is
    not modelled. *)
Definition si_agent_classify_shell_command (command : option cstring)
  : option si_agent_action_class_t :=
  match command with
  | None => Some SI_AGENT_ACTION_IRREVERSIBLE
  | Some command =>
      let len := strnlen command (CLASSIFY_MAX_COMMAND + 1) in
      return_if (len =? 0)%nat || (CLASSIFY_MAX_COMMAND <? len)%nat
        with Some SI_AGENT_ACTION_IRREVERSIBLE ;;
      let lowered := tolower <$> take len command in
      match classify_parse lowered with
      | None => None
      | Some parsed =>
          return_if (length (tokens parsed) =? 0)%nat
            with Some SI_AGENT_ACTION_IRREVERSIBLE ;;
          return_if truncated parsed with Some SI_AGENT_ACTION_SYSTEM ;;
          let result := classify_irreversible_or_system lowered parsed in
          if bool_decide (result = SI_AGENT_ACTION_OPERATE) && negb (control parsed) &&
             negb (redirect parsed)
          then Some (if read_only_segments None (tokens parsed)
                     then SI_AGENT_ACTION_READ else SI_AGENT_ACTION_OPERATE)
          else Some result
      end
  end.

Definition si_agent_classify_path_write (path : option cstring) : si_agent_action_class_t :=
  match path with
  | None => SI_AGENT_ACTION_IRREVERSIBLE
  | Some path =>
      return_if is_empty path with SI_AGENT_ACTION_IRREVERSIBLE ;;
      let len := strnlen path CLASSIFY_MAX_TOKEN in
      return_if (CLASSIFY_MAX_TOKEN <=? len)%nat with SI_AGENT_ACTION_SYSTEM ;;
      let lowered := tolower <$> path in
      return_if contains_str (cstr "..") lowered with SI_AGENT_ACTION_SYSTEM ;;
      return_if starts_with (cstr "/dev/") lowered with
        (if streq lowered (cstr "/dev/null") then SI_AGENT_ACTION_OPERATE
         else SI_AGENT_ACTION_IRREVERSIBLE) ;;
      return_if system_path lowered with SI_AGENT_ACTION_SYSTEM ;;
      return_if negb (nth 0 lowered 0 =? ch "/") || starts_with (cstr "/home/") lowered ||
                starts_with (cstr "/tmp/") lowered ||
                starts_with (cstr "/var/tmp/") lowered || starts_with (cstr "~") lowered
        with (if sensitive_token lowered then SI_AGENT_ACTION_SYSTEM
              else SI_AGENT_ACTION_OPERATE) ;;
      SI_AGENT_ACTION_SYSTEM
  end.
