(* ===== verification/AgentAutonomyProps.v ===== *)
(** * Agent autonomy: properties

    The level table, the classifier as the worst effect of a command's words,
    and the guarantees behind the read-only class and the write targets. *)

From Stdlib Require Import String.
From S2P Require Import Prelude CText AgentAutonomy.

(** ** Levels *)

(** The table of the header: the class a level admits, and the class up to which
    it needs no human. *)
Definition admitted (level : Z) : Z := if 1 <=? level then level - 1 else -1.
Definition automatic (level : Z) : Z :=
  if level =? 1 then 0 else if 2 <=? level then level - 2 else -1.

(** The autonomy table.  A valid level admits exactly the classes up to one
    below it and runs without a human exactly those up to its automatic class;
    so every level runs no more than the next, observing is automatic from L1
    on, irreversible actions are never automatic, and nothing is admitted at L0
    or at a value outside the table. *)
Theorem autonomy_table level class :
  0 <= class ->
  (si_agent_autonomy_allows level class = true <->
   0 <= level <= 4 /\ class <= admitted level) /\
  (si_agent_autonomy_auto_approves level class = true <->
   0 <= level <= 4 /\ class <= automatic level) /\
  (level < 4 -> si_agent_autonomy_auto_approves level class = true ->
   si_agent_autonomy_auto_approves (level + 1) class = true) /\
  (si_agent_autonomy_auto_approves level class = true ->
   class < enum_val SI_AGENT_ACTION_IRREVERSIBLE /\
   si_agent_autonomy_allows level class = true).
Proof.
  intros Hc.
  unfold si_agent_autonomy_auto_approves, si_agent_autonomy_allows,
    si_agent_autonomy_auto_through, si_agent_autonomy_level_valid, admitted, automatic.
  change (enum_val SI_AGENT_AUTONOMY_L0) with 0. change (enum_val SI_AGENT_AUTONOMY_L1) with 1.
  change (enum_val SI_AGENT_AUTONOMY_MAX) with 4.
  change (enum_val SI_AGENT_ACTION_IRREVERSIBLE) with 3.
  change (enum_val SI_AGENT_ACTION_READ) with 0. change (enum_val SI_AGENT_ACTION_SYSTEM) with 2.
  destruct (Z.leb_spec 0 level) as [H0|H0]; cbn [andb negb orb];
    [destruct (Z.leb_spec level 4) as [H4|H4]; cbn [andb negb orb]|];
    [|split_and!; (split; [done|lia]) || done..].
  assert (Hl : level ∈ seqZ 0 5) by (apply elem_of_seqZ; lia).
  destruct (Z.le_gt_cases class 3) as [H3|H3].
  - assert (Hc' : class ∈ seqZ 0 4) by (apply elem_of_seqZ; lia).
    clear -Hl Hc'. revert class Hc'. apply Forall_forall. revert level Hl. apply Forall_forall.
    by_decide.
  - rewrite (proj2 (Z.ltb_lt 3 class)) by lia. cbn [orb].
    rewrite !andb_false_l. split_and!; try done; split; try done; intros [_ H]; exfalso;
      revert H; repeat case_if; to_props; lia.
Qed.

Lemma autonomy_table_witness : si_agent_autonomy_auto_approves 3 1 = true.
Proof.
  destruct (autonomy_table 3 1) as (_ & [_ H] & _); [lia|]. apply H.
  unfold automatic. cbn. lia.
Defined.

(** ** Parsing terminates *)

Lemma word_loop_shrinks n slot p w :
  (length p <= n)%nat ->
  (length (word_loop slot p w).2 <= length p)%nat /\
  (forall c p1, p = c :: p1 -> word_char c = true ->
   (length (word_loop slot p w).2 < length p)%nat).
Proof.
  revert p w. induction n as [|n IH]; intros p w Hn.
  { destruct p; [|cbn in Hn; lia]. split; [done|]. by intros ? ? ?. }
  destruct p as [|c p1]; [split; [done|by intros ? ? ?]|].
  cbn [length] in Hn.
  assert (Hrec : forall p2 w2, (length p2 <= length p1)%nat ->
    (length (word_loop slot p2 w2).2 <= length (c :: p1))%nat /\
    (forall c' p1', c :: p1 = c' :: p1' -> word_char c' = true ->
     (length (word_loop slot p2 w2).2 < length (c :: p1))%nat)).
  { intros p2 w2 Hp2. destruct (IH p2 w2 ltac:(lia)) as [H _]. cbn [length].
    split; [lia|]. intros; lia. }
  cbn [word_loop].
  destruct (negb _) eqn:E.
  { split; [done|]. intros c' p1' [= <- <-] Hw. by rewrite Hw in E. }
  destruct (c =? backslash).
  { destruct p1 as [|d p2]; [cbn; split; [lia|intros; lia]|].
    destruct (is_quote d); apply Hrec; cbn; lia. }
  destruct (negb (quote w =? 0)).
  { destruct (c =? quote w); by apply Hrec. }
  destruct (is_quote c); by apply Hrec.
Qed.

Lemma word_loop_suffix n slot p w :
  (length p <= n)%nat -> exists k, (word_loop slot p w).2 = drop k p.
Proof.
  revert p w. induction n as [|n IH]; intros p w Hn.
  { destruct p; [by exists 0%nat|cbn in Hn; lia]. }
  destruct p as [|c p1]; [by exists 0%nat|]. cbn [length] in Hn.
  assert (Hrec : forall j w2, (1 <= j)%nat ->
    exists k, (word_loop slot (drop j (c :: p1)) w2).2 = drop k (c :: p1)).
  { intros j w2 Hj. destruct (IH (drop j (c :: p1)) w2) as [k ->].
    - rewrite length_drop. cbn [length]. lia.
    - rewrite drop_drop. eauto. }
  pose proof (Hrec 1%nat) as H1. cbn [word_loop]. rewrite skipn_cons, drop_0 in H1.
  destruct (negb _); [by exists 0%nat|]. destruct (c =? backslash).
  { destruct p1 as [|d p2]; [by exists 1%nat|].
    pose proof (Hrec 2%nat) as H2. rewrite !skipn_cons, drop_0 in H2.
    destruct (is_quote d); apply H2; lia. }
  destruct (negb (quote w =? 0)); [destruct (c =? quote w)|destruct (is_quote c)];
    apply H1; lia.
Qed.

Lemma word_start c :
  c <> 0 -> isspace c = false -> (c =? ch "|") = false ->
  has_char c (cstr ";&`$()") = false -> (c =? ch ">") || (c =? ch "<") = false ->
  word_char c = true.
Proof.
  intros H0 Hs Hp Hc Hr. split_guards. to_props. unfold word_char.
  rewrite (proj2 (Z.eqb_neq _ _)), Hs by done. cbn [negb andb].
  apply negb_true_iff, has_char_false. apply has_char_false in Hc.
  change (cstr ";&`$()") with [59; 38; 96; 36; 40; 41] in Hc.
  change (cstr "|;&<>()`$") with [124; 59; 38; 60; 62; 40; 41; 96; 36].
  change (ch "|") with 124 in Hp. change (ch ">") with 62 in *. change (ch "<") with 60 in *.
  set_solver.
Qed.

Lemma parse_loop_total fuel p r out :
  Forall (fun c => c <> 0) p -> (length p < fuel)%nat ->
  exists out', parse_loop fuel p r out = Some out'.
Proof.
  revert p r out. induction fuel as [|fuel IH]; intros p r out Hp Hf; [lia|].
  destruct p as [|c p1]; [by eexists|]. inversion Hp as [|? ? Hc Hp1]; subst.
  cbn [length] in Hf.
  assert (Hdrop : forall k l r out, Forall (fun c => c <> 0) l -> (length l < fuel)%nat ->
    exists out', parse_loop fuel (drop k l) r out = Some out').
  { intros k l r' out' Hl Hk. apply IH; [by apply Forall_drop|]. rewrite length_drop. lia. }
  cbn [parse_loop].
  destruct (isspace c) eqn:E1; [apply IH; [done|lia]|].
  destruct (c =? ch "|") eqn:E2.
  { cbv zeta. destruct (nth 0 p1 0 =? ch "|"); [apply (Hdrop 1%nat); [done|lia]|].
    apply IH; [done|lia]. }
  destruct (c =? backslash); [apply IH; [done|lia]|].
  destruct (_ || _) eqn:E3 in |- *.
  { destruct (nth 0 p1 0 =? ch "{"); rewrite skipn_cons; apply Hdrop; (done || lia). }
  destruct (has_char c _) eqn:E4; [apply IH; [done|lia]|].
  destruct ((c =? ch ">") || (c =? ch "<")) eqn:E5; [apply IH; [done|lia]|].
  destruct (is_quote c); [apply IH; [done|lia]|]. cbv zeta.
  destruct (word_loop _ (c :: p1) _) as [w rest] eqn:Ew.
  pose proof (word_loop_shrinks _ (length (tokens out) <? CLASSIFY_MAX_TOKENS)%nat (c :: p1)
    (mk_word [] 0 true false 0 (truncated out)) (le_n _)) as [_ Hlt].
  rewrite Ew in Hlt. specialize (Hlt c p1 eq_refl (word_start c Hc E1 E2 E4 E5)).
  cbn [snd length] in Hlt. apply IH; [|lia].
  pose proof (word_loop_suffix (length (c :: p1)) (length (tokens out) <? CLASSIFY_MAX_TOKENS)%nat
    (c :: p1) (mk_word [] 0 true false 0 (truncated out)) (le_n _)) as [k Hk].
  rewrite Ew in Hk. cbn [snd] in Hk. rewrite Hk. by apply Forall_drop.
Qed.

(** ** The worst effect *)

#[export] Instance effect_eq_dec : EqDecision effect.
Proof. solve_decision. Defined.

(** What one word contributes, given whether it can be a command. *)
Definition word_effects (raw : cstring) (control : bool) (t : classify_token_t)
    (rest : list classify_token_t) (command_word : bool) : list effect :=
  if starts_with (cstr "of=/dev/") (text t) || starts_with (cstr "mkfs") (program_name (text t))
  then [E_IRREVERSIBLE]
  else [system_if (sensitive_token (text t));
        system_if (after_redirect t && system_path (text t));
        if command_word then command_effect raw control t rest else E_NONE].

Fixpoint all_effects (raw : cstring) (control : bool) (segs : list nat) (prev : option nat)
    (toks : list classify_token_t) (s : scan_state) : list effect :=
  match toks with
  | [] => []
  | t :: rest =>
      let s := enter_token prev t s in
      word_effects raw control t rest
        (prefix_open s || assignment_seen s || existsb (Nat.eqb (segment t)) segs) ++
      all_effects raw control segs (Some (segment t)) rest (advance_prefix (text t) s)
  end.

Definition verdict (hit : bool) (l : list effect) : si_agent_action_class_t :=
  if bool_decide (E_IRREVERSIBLE ∈ l) then SI_AGENT_ACTION_IRREVERSIBLE
  else if hit || bool_decide (E_SYSTEM ∈ l) then SI_AGENT_ACTION_SYSTEM
  else SI_AGENT_ACTION_OPERATE.

Lemma all_effects_hit raw control segs prev toks s b :
  all_effects raw control segs prev toks (s <| system_hit := b |>) =
  all_effects raw control segs prev toks s.
Proof.
  revert prev s. induction toks as [|t rest IH]; intros prev s; [done|].
  cbn [all_effects]. cbv zeta.
  assert (E : enter_token prev t (s <| system_hit := b |>)
              = (enter_token prev t s) <| system_hit := b |>).
  { unfold enter_token. destruct prev as [seg|]; [destruct (seg =? segment t)%nat|]; done. }
  rewrite E. set (s1 := enter_token prev t s).
  assert (E' : advance_prefix (text t) (s1 <| system_hit := b |>)
               = (advance_prefix (text t) s1) <| system_hit := b |>).
  { unfold advance_prefix. cbn [prefix_open after_builtin set].
    destruct s1 as [h p a q]. unfold set. cbn. by repeat case_if. }
  rewrite E', IH. by destruct s1.
Qed.

Lemma verdict_app hit l k :
  verdict hit (l ++ k) =
    if bool_decide (E_IRREVERSIBLE ∈ l) then SI_AGENT_ACTION_IRREVERSIBLE
    else verdict (hit || bool_decide (E_SYSTEM ∈ l)) k.
Proof.
  unfold verdict. destruct (bool_decide_reflect (E_IRREVERSIBLE ∈ l));
    destruct (bool_decide_reflect (E_SYSTEM ∈ l));
    destruct (bool_decide_reflect (E_IRREVERSIBLE ∈ k));
    destruct (bool_decide_reflect (E_SYSTEM ∈ k));
    destruct (bool_decide_reflect (E_IRREVERSIBLE ∈ l ++ k));
    destruct (bool_decide_reflect (E_SYSTEM ∈ l ++ k)); rewrite ?elem_of_app in *;
    destruct hit; cbn [orb]; tauto.
Qed.

Lemma scan_loop_verdict raw control segs prev toks s :
  scan_loop raw control segs prev toks s =
  verdict (system_hit s) (all_effects raw control segs prev toks s).
Proof.
  revert prev s. induction toks as [|t rest IH]; intros prev s.
  { cbn [scan_loop all_effects]. unfold verdict. by destruct (system_hit s). }
  cbn [scan_loop all_effects]. cbv zeta.
  assert (Eh : system_hit (enter_token prev t s) = system_hit s).
  { unfold enter_token. destruct prev as [seg|]; [destruct (seg =? segment t)%nat|]; done. }
  set (s1 := enter_token prev t s) in *. rewrite verdict_app.
  assert (Eh2 : system_hit (advance_prefix (text t) s1) = system_hit s1).
  { unfold advance_prefix. by repeat case_if. }
  unfold word_effects. destruct (starts_with (cstr "of=/dev/") _ || _); [done|].
  set (s2 := advance_prefix (text t) s1) in *. clearbody s2.
  set (s3 := if sensitive_token (text t) then s2 <| system_hit := true |> else s2).
  set (s4 := if after_redirect t && system_path (text t) then s3 <| system_hit := true |> else s3).
  assert (H4 : (forall b, all_effects raw control segs (Some (segment t)) rest
                   (s4 <| system_hit := b |>) =
                 all_effects raw control segs (Some (segment t)) rest s2) /\
               all_effects raw control segs (Some (segment t)) rest s4 =
                 all_effects raw control segs (Some (segment t)) rest s2 /\
               system_hit s4 = system_hit s || sensitive_token (text t) ||
                 (after_redirect t && system_path (text t))).
  { unfold s4, s3. rewrite <- Eh, <- Eh2.
    destruct (sensitive_token (text t)), (after_redirect t && system_path (text t));
      rewrite ?orb_true_r, ?orb_false_r; split_and!; intros; rewrite ?all_effects_hit; done. }
  destruct H4 as (Hb & H4 & Hh). clearbody s4.
  set (cw := prefix_open s1 || assignment_seen s1 || existsb (Nat.eqb (segment t)) segs).
  destruct (sensitive_token (text t)), (after_redirect t && system_path (text t)), cw;
    cbn [negb system_if orb] in *;
    try destruct (command_effect raw control t rest);
    rewrite ?IH, ?Hb, ?H4, ?Hh, ?orb_true_r, ?orb_false_r; try reflexivity;
    try (cbn [system_hit set]; reflexivity).
Qed.

(** The effects of a parsed command, from the first word on. *)
Definition command_effects (raw : cstring) (cmd : classify_command_t) : list effect :=
  all_effects raw (control cmd) (runner_segments (tokens cmd)) None (tokens cmd)
    (mk_scan false false false false).

Definition fork_bomb (raw : cstring) : bool :=
  contains_str (cstr ":(){") raw || contains_str (cstr ":() {") raw.

(** The class of a command by its parse: the reference. *)
Definition class_of (raw : cstring) (cmd : classify_command_t) : si_agent_action_class_t :=
  if bool_decide (tokens cmd = []) then SI_AGENT_ACTION_IRREVERSIBLE
  else if truncated cmd then SI_AGENT_ACTION_SYSTEM
  else if fork_bomb raw || device_redirect raw ||
          bool_decide (E_IRREVERSIBLE ∈ command_effects raw cmd)
       then SI_AGENT_ACTION_IRREVERSIBLE
  else if bool_decide (E_SYSTEM ∈ command_effects raw cmd) then SI_AGENT_ACTION_SYSTEM
  else if negb (control cmd) && negb (redirect cmd) && read_only_segments None (tokens cmd)
       then SI_AGENT_ACTION_READ
  else SI_AGENT_ACTION_OPERATE.

Lemma lower_nonzero s : cstring_ok s -> Forall (fun c => c <> 0) (tolower <$> s).
Proof.
  intros H. rewrite Forall_fmap. eapply Forall_impl; [exact H|]. cbn. intros c Hc.
  unfold tolower. case_if; lia.
Qed.

Lemma classify_by_parse s :
  cstring_ok s -> (1 <= length s <= CLASSIFY_MAX_COMMAND)%nat ->
  exists cmd, classify_parse (tolower <$> s) = Some cmd /\
    si_agent_classify_shell_command (Some s) = Some (class_of (tolower <$> s) cmd).
Proof.
  intros Hok Hl.
  destruct (parse_loop_total (S (length (tolower <$> s))) (tolower <$> s) false
              (mk_command [] 0 false false false) (lower_nonzero s Hok) (Nat.lt_succ_diag_r _))
    as [cmd E].
  exists cmd. split; [exact E|].
  unfold si_agent_classify_shell_command, strnlen. rewrite Nat.min_l by lia. cbv zeta.
  rewrite (proj2 (Nat.eqb_neq _ _)), (proj2 (Nat.ltb_ge _ _)) by lia. cbn [orb].
  rewrite firstn_all. unfold classify_parse at 1. rewrite E. unfold class_of.
  destruct (tokens cmd) as [|t ts] eqn:Et; [done|]. rewrite <- Et.
  replace (length (tokens cmd) =? 0)%nat with false by (by rewrite Et).
  rewrite (bool_decide_false (tokens cmd = [])) by (by rewrite Et).
  destruct (truncated cmd); [done|]. unfold classify_irreversible_or_system, fork_bomb.
  destruct (contains_str _ _ || contains_str _ _); [done|]. cbn [orb].
  destruct (device_redirect _); [done|]. cbn [orb].
  rewrite scan_loop_verdict. fold (command_effects (tolower <$> s) cmd). unfold verdict.
  cbn [system_hit orb].
  destruct (bool_decide (E_IRREVERSIBLE ∈ _)); [done|].
  destruct (bool_decide (E_SYSTEM ∈ _)); [done|]. cbn [bool_decide].
  destruct (control cmd), (redirect cmd), (read_only_segments None (tokens cmd)); done.
Qed.

(** Classification is total and takes the worst effect.  Every command of
    at most 1024 bytes parses and gets the class of the reference: irreversible
    for no word at all, a fork bomb, a write to a device or one irreversible
    word, else system for one system word or when the parse was cut short, else
    read only without control operators or redirections and with every segment
    read-only, else operate.  No command, an empty one and an overlong one are
    irreversible. *)
Theorem classification_exact s long :
  cstring_ok s -> (1 <= length s <= CLASSIFY_MAX_COMMAND)%nat ->
  (CLASSIFY_MAX_COMMAND < length long)%nat ->
  (exists cmd, classify_parse (tolower <$> s) = Some cmd /\
     si_agent_classify_shell_command (Some s) = Some (class_of (tolower <$> s) cmd)) /\
  si_agent_classify_shell_command None = Some SI_AGENT_ACTION_IRREVERSIBLE /\
  si_agent_classify_shell_command (Some []) = Some SI_AGENT_ACTION_IRREVERSIBLE /\
  si_agent_classify_shell_command (Some long) = Some SI_AGENT_ACTION_IRREVERSIBLE.
Proof.
  intros Hok Hl Hlong. split_and!; [by apply classify_by_parse | done | done |].
  unfold si_agent_classify_shell_command, strnlen. rewrite Nat.min_r by lia.
  by rewrite (proj2 (Nat.ltb_lt _ _)), orb_true_r by lia.
Qed.

Lemma classification_exact_witness :
  exists cmd, si_agent_classify_shell_command (Some (cstr "uname -a")) =
              Some (class_of (cstr "uname -a") cmd).
Proof.
  destruct (classification_exact (cstr "uname -a") (replicate 1025 (ch "a")))
    as ((cmd & _ & H) & _); [by_decide | by_decide | by_decide |].
  exists cmd. exact H.
Defined.

(** ** What a low class guarantees *)

(** The token after [pre] starts a segment. *)
Definition starts_segment (prev : option nat) (pre : list classify_token_t)
    (t : classify_token_t) : Prop :=
  match last pre with
  | Some u => segment u <> segment t
  | None => prev <> Some (segment t)
  end.

Record harmless (raw : cstring) (control : bool) (t : classify_token_t)
    (rest : list classify_token_t) : Prop := {
  hl_device : starts_with (cstr "of=/dev/") (text t) = false;
  hl_mkfs : starts_with (cstr "mkfs") (program_name (text t)) = false;
  hl_sensitive : sensitive_token (text t) = false;
  hl_redirect : after_redirect t && system_path (text t) = false
}.

Lemma effects_none raw control segs prev toks s :
  E_IRREVERSIBLE ∉ all_effects raw control segs prev toks s ->
  E_SYSTEM ∉ all_effects raw control segs prev toks s ->
  forall pre t rest, toks = pre ++ t :: rest ->
  harmless raw control t rest /\
  (starts_segment prev pre t \/ segment t ∈ segs -> command_effect raw control t rest = E_NONE).
Proof.
  revert prev s. induction toks as [|t0 toks IH]; intros prev s Hi Hs pre t rest E.
  { by destruct pre. }
  cbn [all_effects] in Hi, Hs. cbv zeta in Hi, Hs. rewrite elem_of_app in Hi, Hs.
  destruct pre as [|u pre]; cbn [app] in E; injection E as -> ->.
  - clear IH. unfold word_effects in *.
    destruct (starts_with (cstr "of=/dev/") (text t)) eqn:E1; [exfalso; set_solver|].
    destruct (starts_with (cstr "mkfs") _) eqn:E2; [exfalso; set_solver|]. cbn [orb] in *.
    destruct (sensitive_token (text t)) eqn:E3; [exfalso; set_solver|].
    destruct (after_redirect t && system_path (text t)) eqn:E4; [exfalso; set_solver|].
    split; [done|]. intros Hcw.
    assert (Hc : prefix_open (enter_token prev t s) || assignment_seen (enter_token prev t s)
                 || existsb (Nat.eqb (segment t)) segs = true).
    { destruct Hcw as [Hst|Hin].
      - assert (Hp : prefix_open (enter_token prev t s) = true).
        { unfold enter_token, starts_segment in *. cbn [last] in Hst.
          destruct prev as [seg|]; [|done]. destruct (Nat.eqb_spec seg (segment t)); [|done].
          congruence. }
        by rewrite Hp.
      - apply orb_true_iff. right. apply existsb_exists. exists (segment t).
        split; [by apply list_elem_of_In | apply Nat.eqb_refl]. }
    rewrite Hc in Hi, Hs. destruct (command_effect raw control t rest); [done| |];
      exfalso; set_solver.
  - destruct (IH (Some (segment u)) (advance_prefix (text u) (enter_token prev u s)))
      with (pre := pre) (t := t) (rest := rest) as [H1 H2]; [tauto | tauto | done |].
    split; [done|]. intros H. apply H2. destruct H as [H|H]; [left|by right].
    unfold starts_segment in *. rewrite last_cons in H. destruct (last pre); [done|].
    congruence.
Qed.

Lemma read_only_first prev toks :
  read_only_segments prev toks = true ->
  forall pre t rest, toks = pre ++ t :: rest -> starts_segment prev pre t ->
  read_only_segment t rest = true.
Proof.
  revert prev. induction toks as [|t0 toks IH]; intros prev H pre t rest E Hst.
  { by destruct pre. }
  cbn [read_only_segments] in H. cbv zeta in H. case_if_in H; [done|].
  destruct pre as [|u pre]; cbn [app] in E; injection E as -> ->.
  - unfold starts_segment in Hst. cbn [last] in Hst.
    assert (Hcw : match prev with None => true | Some seg => negb (seg =? segment t)%nat end = true).
    { destruct prev as [seg|]; [|done]. apply negb_true_iff, Nat.eqb_neq. congruence. }
    rewrite Hcw in Heqb. cbn [andb] in Heqb. by apply negb_false_iff in Heqb.
  - eapply (IH _ H); [reflexivity|]. unfold starts_segment in *. rewrite last_cons in Hst.
    destruct (last pre); [done|congruence].
Qed.

Lemma none_not_irreversible raw control t rest :
  command_effect raw control t rest = E_NONE ->
  in_list (program_name (text t)) irreversible = false.
Proof. unfold command_effect. by destruct (in_list _ irreversible). Qed.

Lemma read_only_program t rest :
  read_only_segment t rest = true -> in_list (program_name (text t)) read_programs = true.
Proof. unfold read_only_segment. by destruct (in_list _ read_programs). Qed.

(** What a low class guarantees.  A command classed read or operate parsed
    completely; no word of it names a credential, formats or overwrites a device
    or redirects into a system path; and no word that can run as a command, the
    first of a segment or any word of a segment with a wrapper such as sudo, env
    or xargs, is an irreversible program or has a system effect.  One classed
    read also has no control operator and no redirection, and every segment
    starts with a program of the read-only list. *)
Theorem low_class_guarantees s class :
  cstring_ok s -> si_agent_classify_shell_command (Some s) = Some class ->
  class = SI_AGENT_ACTION_READ \/ class = SI_AGENT_ACTION_OPERATE ->
  exists cmd, classify_parse (tolower <$> s) = Some cmd /\
    tokens cmd <> [] /\ truncated cmd = false /\
    (forall pre t rest, tokens cmd = pre ++ t :: rest ->
       harmless (tolower <$> s) (control cmd) t rest /\
       (starts_segment None pre t \/ segment t ∈ runner_segments (tokens cmd) ->
        in_list (program_name (text t)) irreversible = false /\
        command_effect (tolower <$> s) (control cmd) t rest = E_NONE)) /\
    (class = SI_AGENT_ACTION_READ ->
     control cmd = false /\ redirect cmd = false /\
     forall pre t rest, tokens cmd = pre ++ t :: rest -> starts_segment None pre t ->
       in_list (program_name (text t)) read_programs = true /\
       read_only_segment t rest = true).
Proof.
  intros Hok Hc Hlow.
  assert (Hl : (1 <= length s <= CLASSIFY_MAX_COMMAND)%nat).
  { unfold si_agent_classify_shell_command, strnlen in Hc.
    destruct (_ || _) eqn:E in Hc; [injection Hc as <-; by destruct Hlow|].
    apply orb_false_elim in E as [E1 E2]. to_props. lia. }
  destruct (classify_by_parse s Hok Hl) as (cmd & Hp & E). rewrite Hc in E.
  injection E as ->. exists cmd. split; [exact Hp|]. unfold class_of in *.
  destruct (bool_decide_reflect (tokens cmd = [])); [by destruct Hlow|].
  destruct (truncated cmd); [by destruct Hlow|].
  destruct (_ || _ || _) eqn:Ei; [by destruct Hlow|].
  apply orb_false_elim in Ei as [_ Ei]. apply bool_decide_eq_false in Ei.
  destruct (bool_decide_reflect (E_SYSTEM ∈ command_effects (tolower <$> s) cmd)) as [|Es];
    [by destruct Hlow|].
  split_and!; [done | done | |].
  - intros pre t rest E. destruct (effects_none _ _ _ _ _ _ Ei Es pre t rest E) as [H1 H2].
    split; [done|]. intros H. split; [eapply none_not_irreversible|]; by apply H2.
  - destruct (control cmd), (redirect cmd), (read_only_segments None (tokens cmd)) eqn:Er;
      cbn [negb andb]; try done. intros _. split_and!; [done|done|].
    intros pre t rest E Hst. pose proof (read_only_first _ _ Er _ _ _ E Hst) as Hr.
    split; [by eapply read_only_program | done].
Qed.

Lemma low_class_guarantees_witness :
  exists cmd, classify_parse (cstr "ps aux | grep nginx") = Some cmd /\ control cmd = false.
Proof.
  destruct (low_class_guarantees (cstr "ps aux | grep nginx") SI_AGENT_ACTION_READ)
    as (cmd & Hp & _ & _ & _ & H); [by_decide | by_eval | by left |].
  exists cmd. split; [exact Hp|]. by apply H.
Defined.

(** The read-only class is not a proof of absence of effects: programs of the
    list write through their own options and operands. *)
Lemma read_class_admits_writes :
  si_agent_classify_shell_command (Some (cstr "sort -o /home/u/.profile /tmp/x"))
    = Some SI_AGENT_ACTION_READ /\
  si_agent_classify_shell_command (Some (cstr "ip netns exec lab rm /home/u/notes"))
    = Some SI_AGENT_ACTION_READ /\
  si_agent_classify_shell_command (Some (cstr "uniq /tmp/x /etc/hosts"))
    = Some SI_AGENT_ACTION_READ /\
  si_agent_classify_shell_command (Some (cstr "date 010112002030"))
    = Some SI_AGENT_ACTION_READ.
Proof. split_and!; by_eval. Qed.

(** ** Write targets *)

(** A lower-cased path below a user's or a temporary directory, or relative. *)
Definition user_area (low : cstring) : Prop :=
  head low <> Some (ch "/") \/
  exists d t, d ∈ words ["/home/"; "/tmp/"; "/var/tmp/"] /\ low = d ++ t.

Definition in_dev (low : cstring) : Prop := exists t, low = cstr "/dev/" ++ t.

(** A system directory itself, the root, or anything below one. *)
Definition in_system (low : cstring) : Prop :=
  low = cstr "/" \/
  exists d t, d ∈ SYSTEM_PREFIXES /\ low = d ++ t /\ (t = [] \/ head t = Some (ch "/")).

Lemma nth_app_length d t : nth (length d) (d ++ t) 0 = default 0 (head t).
Proof. rewrite app_nth2 by lia. rewrite Nat.sub_diag. by destruct t. Qed.

Lemma system_path_spec low :
  Forall (fun c => c <> 0) low -> system_path low = true <-> in_system low.
Proof.
  intros Hz. unfold system_path, in_system.
  rewrite orb_true_iff, streq_true, existsb_exists. split.
  - intros [->|(d & Hd & E)]; [by left|]. right. apply andb_prop in E as [E1 E2].
    apply starts_with_spec in E1 as [t ->]. exists d, t.
    split; [by apply list_elem_of_In|]. split; [done|].
    rewrite nth_app_length, orb_true_iff, !Z.eqb_eq in E2.
    apply Forall_app in Hz as [_ Hz]. destruct t as [|c t]; [by left|].
    inversion Hz; subst. cbn in E2. right. destruct E2 as [? | ->]; done.
  - intros [->|(d & t & Hd & -> & Ht)]; [by left|]. right. exists d.
    split; [by apply list_elem_of_In|]. rewrite starts_with_app, nth_app_length.
    destruct Ht as [->|Ht]; [done|]. destruct t as [|c t]; [done|]. injection Ht as ->.
    by rewrite orb_true_r.
Qed.

Lemma user_area_spec low :
  user_area low <->
  negb (nth 0 low 0 =? ch "/") || starts_with (cstr "/home/") low ||
  starts_with (cstr "/tmp/") low || starts_with (cstr "/var/tmp/") low ||
  starts_with (cstr "~") low = true.
Proof.
  rewrite !orb_true_iff, !starts_with_spec, negb_true_iff, Z.eqb_neq. unfold user_area.
  assert (Hh : nth 0 low 0 <> ch "/" <-> head low <> Some (ch "/"))
    by (destruct low; cbn; [done | naive_solver]).
  rewrite Hh. split.
  - intros [H|(d & t & Hd & ->)]; [tauto|].
    change (words ["/home/"; "/tmp/"; "/var/tmp/"])
      with [cstr "/home/"; cstr "/tmp/"; cstr "/var/tmp/"] in Hd.
    rewrite !elem_of_cons, elem_of_nil in Hd. destruct Hd as [-> | [-> | [-> | [] ] ] ]; eauto 8.
  - intros [ [ [ [ H | [t ->] ] | [t ->] ] | [t ->] ] | [t ->] ]; [by left | | | |by left];
      right; eexists _, t; (split; [|reflexivity]); unfold words; set_solver.
Qed.

(** The class of a write target, whatever its case.  A target is operate
    exactly when it is the null device, or lies in a user or temporary directory
    or is relative, without two dots in a row, outside [/dev] and the system
    directories, and names no credential; it is irreversible exactly when it is
    missing, empty or another device; everything else, an overlong path
    included, is system, and nothing is read. *)
Theorem path_write_class path :
  cstring_ok path ->
  let low := tolower <$> path in
  let short := (length path < CLASSIFY_MAX_TOKEN)%nat in
  let dots := contains_str (cstr "..") low = true in
  (si_agent_classify_path_write (Some path) = SI_AGENT_ACTION_OPERATE <->
   short /\ low <> [] /\
   (low = cstr "/dev/null" \/
    ~ dots /\ ~ in_dev low /\ ~ in_system low /\ user_area low /\
    sensitive_token low = false)) /\
  (si_agent_classify_path_write (Some path) = SI_AGENT_ACTION_IRREVERSIBLE <->
   path = [] \/ short /\ ~ dots /\ in_dev low /\ low <> cstr "/dev/null") /\
  si_agent_classify_path_write (Some path) <> SI_AGENT_ACTION_READ /\
  si_agent_classify_path_write None = SI_AGENT_ACTION_IRREVERSIBLE.
Proof.
  intros Hok low short dots. pose proof (system_path_spec low (lower_nonzero path Hok)) as Hsys.
  pose proof (user_area_spec low) as Hua.
  assert (Hdev : starts_with (cstr "/dev/") low = true <-> in_dev low)
    by apply starts_with_spec.
  unfold si_agent_classify_path_write, short, dots, strnlen. cbv zeta. fold low.
  destruct (decide (path = [])) as [->|Hne'].
  { subst low. split_and!; [split; [done|by intros (_ & ? & _)] | | done | done].
    split; [by left|done]. }
  replace (is_empty path) with false by (by destruct path).
  assert (Hne : low <> []) by (unfold low; by destruct path).
  destruct (Nat.leb_spec CLASSIFY_MAX_TOKEN (Nat.min (length path) CLASSIFY_MAX_TOKEN)).
  { assert (~ (length path < CLASSIFY_MAX_TOKEN)%nat) by lia.
    split_and!; [split; [done|tauto] | split; [done|tauto] | done | done]. }
  assert (Hs : (length path < CLASSIFY_MAX_TOKEN)%nat) by lia. clearbody low.
  destruct (decide (low = cstr "/dev/null")) as [->|Hnull].
  { split_and!; [| | by vm_compute | done].
    - split; [intros _; split; [done | split; [done | by left]] | intros _; by_eval].
    - split; [intros E; by vm_compute in E | intros [?|(_ & _ & _ & ?)]; done]. }
  destruct (contains_str (cstr "..") low).
  { split_and!; [split; [done|tauto] | split; [done|tauto] | done | done]. }
  destruct (starts_with (cstr "/dev/") low).
  { assert (in_dev low) by (by apply Hdev). unfold streq.
    rewrite bool_decide_false by done.
    split_and!; [split; [done|tauto] | split; [|done] | done | done].
    intros _. right. by split_and!. }
  assert (Hnd : ~ in_dev low) by (intros H'; by apply Hdev in H').
  destruct (system_path low).
  { assert (in_system low) by (by apply Hsys).
    split_and!; [split; [done|tauto] | split; [done|tauto] | done | done]. }
  assert (Hns : ~ in_system low) by (intros H'; by apply Hsys in H').
  destruct (_ || _ || _ || _ || _).
  2: { assert (~ user_area low) by (intros H'; by apply Hua in H').
       split_and!; [split; [done|tauto] | split; [done|tauto] | done | done]. }
  assert (user_area low) by (by apply Hua).
  destruct (sensitive_token low);
    split_and!; (split; [done|intuition congruence]) || done || intuition.
Qed.

Lemma path_write_class_witness :
  si_agent_classify_path_write (Some (cstr "/Home/alice/site.conf")) = SI_AGENT_ACTION_OPERATE.
Proof.
  destruct (path_write_class (cstr "/Home/alice/site.conf")) as [[_ H] _]; [by_decide|].
  apply H. split; [by_decide|]. split; [done|]. right.
  assert (Hz : Forall (fun c => c <> 0) (tolower <$> cstr "/Home/alice/site.conf")) by by_decide.
  split_and!; try by_eval.
  - by vm_compute.
  - intros [t E]. by vm_compute in E.
  - intros Hs. apply system_path_spec in Hs; [|exact Hz]. by vm_compute in Hs.
  - apply user_area_spec. by_eval.
Defined.
