(* ===== verification/HostDisplay.v ===== *)
(** * Host display modes: [core/host_display_mode.c]

    The validation of a display request and the shell commands built from it. *)

From Stdlib Require Import String.
From S2P Require Import Prelude CText.

Definition SI_HOST_DISPLAY_CONNECTOR_MAX : nat := 31.
Definition SI_HOST_DISPLAY_PLAN_ID_MAX : nat := 47.
Definition SI_HOST_DISPLAY_MODE_MAX : nat := 63.
Definition SI_HOST_DISPLAY_COMMAND_MAX : nat := 3072.

Inductive si_host_display_result_t :=
| SI_HOST_DISPLAY_OK | SI_HOST_DISPLAY_INVALID_ARGUMENT | SI_HOST_DISPLAY_UNSUPPORTED
| SI_HOST_DISPLAY_OUTPUT_TOO_SMALL.

#[export] Instance host_display_result_eq_dec : EqDecision si_host_display_result_t.
Proof. solve_decision. Defined.
#[export] Instance host_display_result_enum : CEnum si_host_display_result_t.
Proof.
  enum_of [SI_HOST_DISPLAY_OK; SI_HOST_DISPLAY_INVALID_ARGUMENT;
           SI_HOST_DISPLAY_UNSUPPORTED; SI_HOST_DISPLAY_OUTPUT_TOO_SMALL].
Defined.

Record si_host_display_request_t := mk_display_request {
  connector : cstring;
  width : Z;
  height : Z;
  refresh_millihz : Z;
  persistent : bool
}.

Definition safe_identifier (value : option cstring) (max_len : nat) : bool :=
  match value with
  | None | Some [] => false
  | Some ((first :: _) as v) =>
      return_if (max_len <? length v)%nat || negb (isalnum first) with false ;;
      forallb (fun c => negb (negb (isalnum c) && negb (c =? ch "-") && negb (c =? ch "_") &&
                              negb (c =? ch "."))) v
  end.

(** An output buffer: its string on entry, or NULL, and its size. *)
Definition clear_output (out : option cstring) (out_size : nat) : option cstring :=
  option_map (fun s => if (0 <? out_size)%nat then [] else s) out.

(** [snprintf] of [text] followed by [checked_snprintf]: a truncated output is
    cleared. *)
Definition checked_snprintf (out : option cstring) (out_size : nat) (text : cstring)
  : si_host_display_result_t * option cstring :=
  match out with
  | None => (SI_HOST_DISPLAY_OUTPUT_TOO_SMALL, None)
  | Some _ =>
      return_if (out_size =? 0)%nat || (out_size <=? length text)%nat
        with (SI_HOST_DISPLAY_OUTPUT_TOO_SMALL, clear_output out out_size) ;;
      (SI_HOST_DISPLAY_OK, Some text)
  end.

Definition si_host_display_validate_request (request : option si_host_display_request_t)
  : si_host_display_result_t :=
  match request with
  | None => SI_HOST_DISPLAY_INVALID_ARGUMENT
  | Some r =>
      return_if negb (safe_identifier (Some (connector r)) SI_HOST_DISPLAY_CONNECTOR_MAX) ||
                (width r <? 320) || (7680 <? width r) ||
                (height r <? 200) || (4320 <? height r) ||
                (refresh_millihz r <? 10000) || (240000 <? refresh_millihz r) ||
                negb (refresh_millihz r mod 1000 =? 0)
        with SI_HOST_DISPLAY_INVALID_ARGUMENT ;;
      SI_HOST_DISPLAY_OK
  end.

Definition request_valid (request : option si_host_display_request_t) : bool :=
  bool_decide (si_host_display_validate_request request = SI_HOST_DISPLAY_OK).

(** [%s:%ux%u@%u]. *)
Definition mode_text (r : si_host_display_request_t) : cstring :=
  format (cstr "%s:%ux%u@%u")
    [connector r; decimal (width r); decimal (height r); decimal (refresh_millihz r / 1000)].

Definition si_host_display_format_mode (request : option si_host_display_request_t)
    (out : option cstring) (out_size : nat) : si_host_display_result_t * option cstring :=
  match request with
  | Some r =>
      return_if negb (request_valid request)
        with (SI_HOST_DISPLAY_INVALID_ARGUMENT, clear_output out out_size) ;;
      checked_snprintf out out_size (mode_text r)
  | None => (SI_HOST_DISPLAY_INVALID_ARGUMENT, clear_output out out_size)
  end.

(** ** Shell text

    The literals of the source, one string each; a caret stands for the double
    quote. *)
Definition shell (l : list string) : cstring :=
  (fun c => if c =? ch "^" then 34 else c) <$> concat (cstr <$> l).
Arguments shell l%_string.

Definition observe_command : cstring := shell
  ["set -eu; ";
   "printf 'schema=exoanchor.host_display.v1\n'; ";
   "printf 'kernel='; uname -r; ";
   "printf 'cmdline='; cat /proc/cmdline; ";
   "printf 'os_id='; ";
   "( . /etc/os-release 2>/dev/null; printf '%s\n' ^${ID:-unknown}^ ) || ";
   "printf 'unknown\n'; ";
   "printf 'fb_virtual_size='; ";
   "cat /sys/class/graphics/fb0/virtual_size 2>/dev/null || printf 'unavailable\n'; ";
   "printf 'grub_dropin_support='; ";
   "test -d /etc/default/grub.d && printf 'yes\n' || printf 'no\n'; ";
   "for d in /sys/class/drm/card*-*; do ";
   "test -d ^$d^ || continue; ";
   "n=${d##*/}; ";
   "printf 'connector=%s status=' ^$n^; ";
   "cat ^$d/status^ 2>/dev/null || printf 'unknown\n'; ";
   "printf 'modes[%s]=' ^$n^; ";
   "tr '\n' ',' < ^$d/modes^ 2>/dev/null || true; ";
   "printf '\n'; ";
   "done"].

Definition si_host_display_build_observe_command (out : option cstring) (out_size : nat)
  : si_host_display_result_t * option cstring :=
  checked_snprintf out out_size (format (cstr "%s") [observe_command]).

Definition apply_format : cstring := shell
  ["set -eu; ";
   "cfg=/etc/default/grub.d/99-exoanchor-display.cfg; ";
   "bak=/var/lib/exoanchor/display/%s; ";
   "sudo install -d -m 0755 /etc/default/grub.d ^$bak^; ";
   "if sudo test -f ^$cfg^; then ";
   "sudo cp -a ^$cfg^ ^$bak/previous.cfg^; ";
   "printf 'yes\n' | sudo tee ^$bak/previous_present^ >/dev/null; ";
   "else ";
   "printf 'no\n' | sudo tee ^$bak/previous_present^ >/dev/null; ";
   "fi; ";
   "printf '%%s\n' ";
   "'# Managed by ExoAnchor Agent plan %s' ";
   "'GRUB_CMDLINE_LINUX_DEFAULT=^${GRUB_CMDLINE_LINUX_DEFAULT} video=%se^' ";
   "| sudo tee ^$cfg^ >/dev/null; ";
   "sudo update-grub; ";
   "printf 'plan_id=%%s\nbackup=%%s\nmode=%%s\nreboot_required=yes\n' ";
   "'%s' ^$bak^ '%s'"].

Definition si_host_display_build_apply_command (plan_id : option cstring)
    (request : option si_host_display_request_t) (out : option cstring) (out_size : nat)
  : si_host_display_result_t * option cstring :=
  return_if negb (safe_identifier plan_id SI_HOST_DISPLAY_PLAN_ID_MAX) ||
            negb (request_valid request)
    with (SI_HOST_DISPLAY_INVALID_ARGUMENT, clear_output out out_size) ;;
  match request with
  | None => (SI_HOST_DISPLAY_INVALID_ARGUMENT, clear_output out out_size)
  | Some r =>
      return_if negb (persistent r)
        with (SI_HOST_DISPLAY_UNSUPPORTED, clear_output out out_size) ;;
      match si_host_display_format_mode request (Some []) (SI_HOST_DISPLAY_MODE_MAX + 1) with
      | (SI_HOST_DISPLAY_OK, mode) =>
          let plan := deref plan_id in
          let mode := deref mode in
          checked_snprintf out out_size (format apply_format [plan; plan; mode; plan; mode])
      | (mode_result, _) => (mode_result, out)
      end
  end.

Definition verify_format : cstring := shell
  ["set -eu; ";
   "cfg=/etc/default/grub.d/99-exoanchor-display.cfg; ";
   "printf 'schema=exoanchor.host_display.verify.v1\nplan_id=%s\nexpected=%s\n'; ";
   "printf 'config_present='; test -f ^$cfg^ && printf 'yes\n' || printf 'no\n'; ";
   "printf 'config_token='; ";
   "grep -F 'video=%se' ^$cfg^ >/dev/null 2>&1 && printf 'yes\n' || printf 'no\n'; ";
   "printf 'runtime_token='; ";
   "grep -F 'video=%se' /proc/cmdline >/dev/null 2>&1 && printf 'yes\n' || printf 'no\n'; ";
   "printf 'cmdline='; cat /proc/cmdline; ";
   "printf 'fb_virtual_size='; ";
   "cat /sys/class/graphics/fb0/virtual_size 2>/dev/null || printf 'unavailable\n'; ";
   "for d in /sys/class/drm/card*-*; do ";
   "test -d ^$d^ || continue; n=${d##*/}; ";
   "printf 'connector=%%s status=' ^$n^; ";
   "cat ^$d/status^ 2>/dev/null || printf 'unknown\n'; ";
   "done"].

Definition si_host_display_build_verify_command (plan_id : option cstring)
    (request : option si_host_display_request_t) (out : option cstring) (out_size : nat)
  : si_host_display_result_t * option cstring :=
  return_if negb (safe_identifier plan_id SI_HOST_DISPLAY_PLAN_ID_MAX) ||
            negb (request_valid request)
    with (SI_HOST_DISPLAY_INVALID_ARGUMENT, clear_output out out_size) ;;
  match si_host_display_format_mode request (Some []) (SI_HOST_DISPLAY_MODE_MAX + 1) with
  | (SI_HOST_DISPLAY_OK, mode) =>
      let mode := deref mode in
      checked_snprintf out out_size (format verify_format [deref plan_id; mode; mode; mode])
  | (mode_result, _) => (mode_result, out)
  end.

Definition rollback_format : cstring := shell
  ["set -eu; ";
   "cfg=/etc/default/grub.d/99-exoanchor-display.cfg; ";
   "bak=/var/lib/exoanchor/display/%s; ";
   "test -f ^$bak/previous_present^; ";
   "if grep -qx yes ^$bak/previous_present^; then ";
   "sudo test -f ^$bak/previous.cfg^; ";
   "sudo cp -a ^$bak/previous.cfg^ ^$cfg^; ";
   "else sudo rm -f ^$cfg^; fi; ";
   "sudo update-grub; ";
   "printf 'plan_id=%s\nrollback=restored\nreboot_required=yes\n'"].

Definition si_host_display_build_rollback_command (plan_id : option cstring)
    (out : option cstring) (out_size : nat) : si_host_display_result_t * option cstring :=
  return_if negb (safe_identifier plan_id SI_HOST_DISPLAY_PLAN_ID_MAX)
    with (SI_HOST_DISPLAY_INVALID_ARGUMENT, clear_output out out_size) ;;
  let plan := deref plan_id in
  checked_snprintf out out_size (format rollback_format [plan; plan]).

Definition si_host_display_result_name (result : Z) : cstring :=
  match enum_of_Z result with
  | Some SI_HOST_DISPLAY_OK => cstr "ok"
  | Some SI_HOST_DISPLAY_INVALID_ARGUMENT => cstr "invalid_argument"
  | Some SI_HOST_DISPLAY_UNSUPPORTED => cstr "unsupported"
  | Some SI_HOST_DISPLAY_OUTPUT_TOO_SMALL => cstr "output_too_small"
  | None => cstr "unknown"
  end.
