(* ===== verification/HostDisplayProps.v ===== *)
(** * Host display modes: properties

    A command built from a request is the fixed template with inert text in its
    holes: nothing of the request can end a quotation or start a command. *)

From S2P Require Import Prelude CText HostDisplay.

(** The bytes a request may put into a command. *)
Definition inert_char (c : Z) : bool :=
  isalnum c || (c =? ch "-") || (c =? ch "_") || (c =? ch ".") || (c =? ch ":") ||
  (c =? ch "@").

Definition inert (s : cstring) : Prop := Forall (fun c => inert_char c = true) s.

(** The bytes with a meaning to the shell, in order. *)
Definition shell_bytes (s : cstring) : cstring := filter (fun c => inert_char c = false) s.

Lemma shell_bytes_inert s : inert s -> shell_bytes s = [].
Proof.
  induction 1 as [|c s Hc Hs IH]; [done|]. unfold shell_bytes in *.
  rewrite filter_cons_False; [done|]. by rewrite Hc.
Qed.

Lemma shell_bytes_app s t : shell_bytes (s ++ t) = shell_bytes s ++ shell_bytes t.
Proof. apply filter_app. Qed.

Lemma shell_bytes_cons c s :
  shell_bytes (c :: s) = (if inert_char c then [] else [c]) ++ shell_bytes s.
Proof.
  unfold shell_bytes. destruct (inert_char c) eqn:E.
  - by rewrite filter_cons_False by (by rewrite E).
  - by rewrite filter_cons_True.
Qed.

(** A property of every argument, from the context. *)
Ltac each := repeat (apply Forall_cons; split; [assumption|]); apply Forall_nil; exact I.

(** Formatting inert arguments leaves the template's shell bytes alone. *)
Lemma shell_bytes_format n fmt args :
  (length fmt <= n)%nat -> Forall inert args ->
  shell_bytes (format fmt args) = shell_bytes (format fmt []).
Proof.
  revert fmt args. induction n as [|n IH]; intros fmt args Hn Ha.
  { destruct fmt; [done|cbn in Hn; lia]. }
  destruct fmt as [|c fmt]; [done|]. cbn [length] in Hn. cbn [format].
  destruct fmt as [|d rest]; [done|]. cbn [length] in Hn.
  destruct (c =? ch "%").
  - destruct (d =? ch "%").
    + rewrite !shell_bytes_cons. f_equal. apply IH; [lia|done].
    + rewrite !shell_bytes_app. cbn [head tail default].
      destruct Ha as [|a args Ha Hr]; cbn [head tail default from_option];
        [done|]. rewrite (shell_bytes_inert (id a)) by done. apply IH; [lia|done].
  - rewrite !shell_bytes_cons. f_equal. apply IH; [cbn [length]; lia|done].
Qed.

Lemma format_length n fmt args :
  (length fmt <= n)%nat ->
  (length (format fmt args) <= length fmt + sum_list (length <$> args))%nat.
Proof.
  revert fmt args. induction n as [|n IH]; intros fmt args Hn.
  { destruct fmt; [cbn; lia|cbn in Hn; lia]. }
  destruct fmt as [|c fmt]; [cbn; lia|]. cbn [length] in Hn. cbn [format].
  destruct fmt as [|d rest]; [cbn; lia|]. cbn [length] in Hn.
  destruct (c =? ch "%").
  - destruct (d =? ch "%").
    + cbn [length]. pose proof (IH rest args ltac:(lia)). lia.
    + rewrite length_app. pose proof (IH rest (tail args) ltac:(lia)).
      destruct args; cbn in *; lia.
  - cbn [length]. pose proof (IH (d :: rest) args ltac:(cbn; lia)). cbn [length] in *. lia.
Qed.

Lemma format_inert n fmt args :
  (length fmt <= n)%nat -> Forall inert args -> inert (format fmt []) -> inert (format fmt args).
Proof.
  intros Hn Ha Hf. unfold inert. apply Forall_forall. intros c Hc.
  destruct (inert_char c) eqn:E; [done|]. exfalso.
  assert (Hin : c ∈ shell_bytes (format fmt args))
    by (apply list_elem_of_filter; done).
  rewrite (shell_bytes_format n), shell_bytes_inert in Hin by done.
  by apply not_elem_of_nil in Hin.
Qed.

Lemma safe_identifier_inert s n :
  safe_identifier (Some s) n = true -> inert s /\ (1 <= length s <= n)%nat.
Proof.
  unfold safe_identifier. destruct s as [|c s]; [done|].
  destruct (_ || _) eqn:E; [done|]. split_guards. to_props. intros Hf.
  apply forallb_Forall in Hf. split; [|cbn [length] in *; lia].
  eapply Forall_impl; [exact Hf|]. cbn. intros x Hx. unfold inert_char.
  destruct (isalnum x), (x =? ch "-"), (x =? ch "_"), (x =? ch "."); done.
Qed.

Lemma decimal_inert v :
  0 <= v <= 7680 -> inert (decimal v) /\ (length (decimal v) <= 4)%nat.
Proof.
  intros H.
  assert (Hall : forallb (fun n => let d := decimal (Z.of_nat n) in
            forallb inert_char d && (length d <=? 4)%nat) (seq 0 (Z.to_nat 7681)) = true) by by_eval.
  rewrite forallb_forall in Hall. specialize (Hall (Z.to_nat v)).
  rewrite Z2Nat.id, andb_true_iff, Nat.leb_le in Hall by lia.
  destruct Hall as [H1 H2]; [apply in_seq; lia|]. split; [by apply forallb_Forall|done].
Qed.

Lemma mode_text_inert r :
  request_valid (Some r) = true ->
  inert (mode_text r) /\ (length (mode_text r) <= SI_HOST_DISPLAY_MODE_MAX)%nat.
Proof.
  unfold request_valid. rewrite bool_decide_eq_true. unfold si_host_display_validate_request.
  destruct (_ || _) eqn:E; [done|]. intros _. split_guards. to_props.
  destruct (safe_identifier_inert _ _ H) as [Hc Hcl].
  destruct (decimal_inert (width r)) as [Hw Hwl]; [lia|].
  destruct (decimal_inert (height r)) as [Hh Hhl]; [lia|].
  destruct (decimal_inert (refresh_millihz r / 1000)) as [Hf Hfl];
    [Z.div_mod_to_equations; lia|].
  unfold mode_text. split.
  - apply (format_inert 11); [cbn; lia | each | unfold inert; by_decide].
  - etransitivity; [by apply (format_length 11); cbn; lia|].
    unfold SI_HOST_DISPLAY_CONNECTOR_MAX, SI_HOST_DISPLAY_MODE_MAX in *.
    cbn [fmap list_fmap sum_list_with]. change (length (cstr "%s:%ux%u@%u")) with 11%nat.
    unfold id. lia.
Qed.

(** A command is its template with inert text in the holes. *)
Definition instance_of (fmt cmd : cstring) : Prop :=
  shell_bytes cmd = shell_bytes (format fmt []).

Lemma checked_instance fmt args out size :
  Forall inert args -> (length fmt + sum_list (length <$> args) < size)%nat ->
  exists cmd, checked_snprintf (Some out) size (format fmt args) = (SI_HOST_DISPLAY_OK, Some cmd) /\
    (length cmd < size)%nat /\ instance_of fmt cmd.
Proof.
  intros Ha Hs. pose proof (format_length (length fmt) fmt args (le_n _)) as Hl.
  exists (format fmt args). unfold checked_snprintf.
  rewrite (proj2 (Nat.eqb_neq _ _)), (proj2 (Nat.leb_gt _ _)) by lia.
  split; [done|]. split; [lia|]. by apply (shell_bytes_format (length fmt)).
Qed.

Lemma clear_output_large out size :
  (SI_HOST_DISPLAY_COMMAND_MAX <= size)%nat -> clear_output (Some out) size = Some [].
Proof.
  intros H. unfold clear_output, option_map.
  assert (Hs : (0 < size)%nat) by (eapply Nat.lt_le_trans; [|exact H]; by_decide).
  by rewrite (proj2 (Nat.ltb_lt _ _) Hs).
Qed.

(** Templates and their arguments fit the documented size. *)
Lemma template_room (fmt : cstring) (n : nat) (args : list cstring) size :
  length fmt = n -> (n <= 738)%nat -> (length args <= 5)%nat ->
  Forall (fun a : cstring => (length a <= 63)%nat) args ->
  (SI_HOST_DISPLAY_COMMAND_MAX <= size)%nat ->
  (length fmt + sum_list (length <$> args) < size)%nat.
Proof.
  intros -> Hn Ha Hl Hs.
  assert (Hsum : (sum_list (length <$> args) <= 63 * length args)%nat).
  { clear Ha. induction Hl as [|a l Hx Hl IH]; [done|].
    cbn [fmap list_fmap sum_list_with length] in *. unfold id in *. lia. }
  unfold SI_HOST_DISPLAY_COMMAND_MAX in Hs. lia.
Qed.

Lemma format_mode_valid r :
  request_valid (Some r) = true ->
  si_host_display_format_mode (Some r) (Some []) (SI_HOST_DISPLAY_MODE_MAX + 1)
    = (SI_HOST_DISPLAY_OK, Some (mode_text r)).
Proof.
  intros Hq. destruct (mode_text_inert r Hq) as [_ Hl].
  unfold si_host_display_format_mode, checked_snprintf. rewrite Hq. cbn [negb].
  rewrite (proj2 (Nat.eqb_neq _ _)), (proj2 (Nat.leb_gt _ _)); [done | lia | lia].
Qed.

Lemma rollback_built plan out size :
  (SI_HOST_DISPLAY_COMMAND_MAX <= size)%nat ->
  safe_identifier (Some plan) SI_HOST_DISPLAY_PLAN_ID_MAX = true ->
  exists cmd, si_host_display_build_rollback_command (Some plan) (Some out) size
                = (SI_HOST_DISPLAY_OK, Some cmd) /\
    (length cmd < size)%nat /\ instance_of rollback_format cmd.
Proof.
  intros Hs Hp. destruct (safe_identifier_inert _ _ Hp) as [Hi Hl].
  unfold si_host_display_build_rollback_command. rewrite Hp. cbn [negb].
  assert (Hl' : (length plan <= 63)%nat) by (etransitivity; [apply Hl | by_decide]).
  apply checked_instance; [each|].
  apply (template_room _ 353); [by_eval | lia | cbn; lia | each | done].
Qed.

Lemma verify_built plan r out size :
  (SI_HOST_DISPLAY_COMMAND_MAX <= size)%nat ->
  safe_identifier (Some plan) SI_HOST_DISPLAY_PLAN_ID_MAX = true ->
  request_valid (Some r) = true ->
  exists cmd, si_host_display_build_verify_command (Some plan) (Some r) (Some out) size
                = (SI_HOST_DISPLAY_OK, Some cmd) /\
    (length cmd < size)%nat /\ instance_of verify_format cmd.
Proof.
  intros Hs Hp Hq. destruct (safe_identifier_inert _ _ Hp) as [Hi Hl].
  destruct (mode_text_inert r Hq) as [Hmi Hml].
  unfold si_host_display_build_verify_command. rewrite Hp, Hq. cbn [negb orb].
  rewrite format_mode_valid by done.
  assert (Hl' : (length plan <= 63)%nat) by (etransitivity; [apply Hl | by_decide]).
  apply checked_instance; [each|].
  apply (template_room _ 738); [by_eval | lia | cbn; lia | each | done].
Qed.

Lemma apply_built plan r out size :
  (SI_HOST_DISPLAY_COMMAND_MAX <= size)%nat ->
  safe_identifier (Some plan) SI_HOST_DISPLAY_PLAN_ID_MAX = true ->
  request_valid (Some r) = true ->
  (persistent r = true ->
   exists cmd, si_host_display_build_apply_command (Some plan) (Some r) (Some out) size
                 = (SI_HOST_DISPLAY_OK, Some cmd) /\
     (length cmd < size)%nat /\ instance_of apply_format cmd) /\
  (persistent r = false ->
   si_host_display_build_apply_command (Some plan) (Some r) (Some out) size
     = (SI_HOST_DISPLAY_UNSUPPORTED, Some [])).
Proof.
  intros Hs Hp Hq. destruct (safe_identifier_inert _ _ Hp) as [Hi Hl].
  destruct (mode_text_inert r Hq) as [Hmi Hml].
  unfold si_host_display_build_apply_command. rewrite Hp, Hq. cbn [negb orb].
  rewrite format_mode_valid, clear_output_large by done.
  assert (Hl' : (length plan <= 63)%nat) by (etransitivity; [apply Hl | by_decide]).
  split; intros ->; [|done].
  apply checked_instance; [each|].
  apply (template_room _ 601); [by_eval | lia | cbn; lia | each | done].
Qed.

(** A request cannot inject shell text.  With a buffer of the documented
    size, a valid plan id and request always yield the apply command (when the
    mode is to persist), the verify command and the rollback command, in full;
    each has exactly the shell-significant bytes of its fixed template, in the
    same order, whatever the request; and an invalid plan id or request yields
    no text at all. *)
Theorem display_commands_inert plan r out size :
  (SI_HOST_DISPLAY_COMMAND_MAX <= size)%nat ->
  let plan_ok := safe_identifier (Some plan) SI_HOST_DISPLAY_PLAN_ID_MAX in
  let valid := plan_ok && request_valid (Some r) in
  let built fmt res := exists cmd, res = (SI_HOST_DISPLAY_OK, Some cmd) /\
                         (length cmd < size)%nat /\ instance_of fmt cmd in
  let apply := si_host_display_build_apply_command (Some plan) (Some r) (Some out) size in
  let verify := si_host_display_build_verify_command (Some plan) (Some r) (Some out) size in
  let rollback := si_host_display_build_rollback_command (Some plan) (Some out) size in
  (valid = true -> persistent r = true -> built apply_format apply) /\
  (valid = true -> persistent r = false -> apply = (SI_HOST_DISPLAY_UNSUPPORTED, Some [])) /\
  (valid = true -> built verify_format verify) /\
  (plan_ok = true -> built rollback_format rollback) /\
  (valid = false -> apply = (SI_HOST_DISPLAY_INVALID_ARGUMENT, Some []) /\
                    verify = (SI_HOST_DISPLAY_INVALID_ARGUMENT, Some [])) /\
  (plan_ok = false -> rollback = (SI_HOST_DISPLAY_INVALID_ARGUMENT, Some [])).
Proof.
  intros Hsize. cbv zeta.
  destruct (safe_identifier (Some plan) SI_HOST_DISPLAY_PLAN_ID_MAX) eqn:Hp;
    cbn [andb].
  2: { unfold si_host_display_build_apply_command, si_host_display_build_verify_command,
         si_host_display_build_rollback_command.
       rewrite Hp, clear_output_large by done. cbn [negb orb].
       repeat split; intros; congruence. }
  pose proof (rollback_built plan out size Hsize Hp) as Hrb.
  destruct (request_valid (Some r)) eqn:Hq.
  2: { unfold si_host_display_build_apply_command, si_host_display_build_verify_command.
       rewrite Hp, Hq, clear_output_large by done. cbn [negb orb].
       repeat split; intros; congruence || exact Hrb. }
  pose proof (verify_built plan r out size Hsize Hp Hq) as Hvb.
  pose proof (apply_built plan r out size Hsize Hp Hq) as [Hab Hun].
  split; [intros _; exact Hab|]. split; [intros _; exact Hun|].
  split; [intros _; exact Hvb|]. split; [intros _; exact Hrb|]. split; intros; discriminate.
Qed.

Definition demo_display : si_host_display_request_t :=
  mk_display_request (cstr "HDMI-A-1") 1920 1080 60000 true.

Lemma display_commands_inert_witness :
  exists cmd, si_host_display_build_apply_command (Some (cstr "plan-7")) (Some demo_display)
    (Some []) 3072 = (SI_HOST_DISPLAY_OK, Some cmd) /\ instance_of apply_format cmd.
Proof.
  destruct (display_commands_inert (cstr "plan-7") demo_display [] 3072) as (H & _);
    [by_decide|].
  destruct H as (cmd & E & _ & Hi); [by_eval | done |]. exists cmd. split; [exact E|exact Hi].
Defined.
