(* ===== verification/HidManager.v ===== *)
(** * The HID manager: [drivers/hid_device.c]

    The task-shared state of the USB HID driver, the authority transition that
    hands the report ownership over, and the execution of a command under a
    token.  Everything outside the file is read through [ticks], a script of the
    environment: each read of an endpoint, a lock or a clock takes the next tick,
    whose events (USB attach and detach callbacks, a transition that another
    task starts) happen first.  A guard is a function pointer; [call_guard] is
    the computation behind it, and [between] what other tasks do while a
    command waits for the authority gate.

    [sent], [host_keyboard], [host_mouse] and [host_abs] are not variables of
    the driver: they record what the stack accepted and what the host therefore
    holds pressed. *)

From Stdlib Require Import String.
From S2P Require Import Prelude Firmware HidOwner.

Definition SI_HID_ABS_MAX : Z := 32767.
Definition HID_EMBEDDED_PRODUCER_SLOTS : nat := 8.
Definition HID_REMOTE_WAKEUP_WAIT_US : Z := 150000.
Definition HID_REMOTE_WAKEUP_RETRY_US : Z := 1000000.

(** ** Data *)

Inductive hid_itf := HID_ITF_KEYBOARD | HID_ITF_MOUSE | HID_ITF_ABS_POINTER.

#[export] Instance hid_itf_eq_dec : EqDecision hid_itf.
Proof. solve_decision. Defined.

Inductive hid_report :=
| keyboard_report (modifiers : Z) (keys : list Z)
| mouse_report (buttons x y wheel pan : Z)
| abs_report (bytes : list Z).

Record si_hid_owner_transition_t := mk_transition {
  authorize : bool;
  replace : bool;
  transition_claim : si_hid_owner_claim_t
}.

Definition zero_transition : si_hid_owner_transition_t := mk_transition false false zero_claim.

(** A task handle; zero is NULL. *)
Record embedded_producer_binding_t := mk_binding {
  task : Z;
  owner : si_hid_owner_token_t
}.

Definition zero_binding : embedded_producer_binding_t := mk_binding 0 zero_token.

Inductive si_hid_command_type_t :=
| SI_HID_COMMAND_INVALID | SI_HID_COMMAND_UNSUPPORTED
| SI_HID_COMMAND_KEY_DOWN | SI_HID_COMMAND_KEY_UP
| SI_HID_COMMAND_MOUSE_MOVE | SI_HID_COMMAND_MOUSE_MOVE_COUNTS
| SI_HID_COMMAND_ABS_MOVE | SI_HID_COMMAND_ABS_MOUSE_DOWN
| SI_HID_COMMAND_ABS_MOUSE_UP | SI_HID_COMMAND_ABS_CLICK
| SI_HID_COMMAND_MOUSE_DOWN | SI_HID_COMMAND_MOUSE_UP | SI_HID_COMMAND_CLICK
| SI_HID_COMMAND_WHEEL | SI_HID_COMMAND_COMBO | SI_HID_COMMAND_RELEASE_ALL.

#[export] Instance hid_command_type_eq_dec : EqDecision si_hid_command_type_t.
Proof. solve_decision. Defined.

(** [dx] and [dy] hold the counts [lroundf(d * 127.0f)] of the floats. *)
Record si_hid_command_t := mk_command {
  cmd_type : si_hid_command_type_t;
  cmd_code : option cstring;
  cmd_error : option cstring;
  cmd_dx : Z; cmd_dy : Z; cmd_x : Z; cmd_y : Z;
  cmd_has_x : bool; cmd_has_y : bool;
  cmd_button : Z; cmd_wheel_y : Z; cmd_wheel_x : Z;
  cmd_modifiers : list (option cstring);
  cmd_keys : list (option cstring)
}.

(** What another task or the USB stack does while a command runs. *)
Inductive hid_event :=
| EvAttached
| EvDetached
| EvTransition (t : si_hid_owner_transition_t).

Record tick := mk_tick { events : list hid_event; flag : bool; time_us : Z }.

Record hid_state := mk_hid {
  s_installed : bool;
  s_mounted : bool;
  s_modifiers : Z;
  s_keys : list Z;
  s_key_count : nat;
  s_mouse_buttons : Z;
  s_abs_buttons : Z;
  s_abs_x : Z;
  s_abs_y : Z;
  s_tx_messages : Z;
  s_failed_messages : Z;
  s_remote_wakeup_signals : Z;
  s_remote_wakeup_rejected : Z;
  s_last_remote_wakeup_us : Z;
  s_last_error : option (cstring * esp_err_t);
  manager_locks : bool;
  s_abort_fence : si_hid_abort_fence_t;
  s_owner_state : si_hid_owner_state_t;
  s_active_command_generation : Z;
  s_active_command_owner : si_hid_owner_token_t;
  s_command_active : bool;
  s_command_was_aborted : bool;
  s_command_send_ok : bool;
  s_command_send_error : option cstring;
  s_mount_reset_pending : bool;
  s_embedded_authority_guard : option (Z * Z);
  s_embedded_producers : list embedded_producer_binding_t;
  tud_mounted : bool;
  gate_free : bool;
  blocked : option (si_hid_owner_transition_t * si_hid_owner_token_t);
  ticks : list tick;
  sent : list (hid_report * bool);
  host_keyboard : Z * list Z;
  host_mouse : Z;
  host_abs : Z
}.

#[export] Instance eta_hid_state : Settable hid_state := fun s =>
  mk_hid (s_installed s) (s_mounted s) (s_modifiers s) (s_keys s) (s_key_count s)
    (s_mouse_buttons s) (s_abs_buttons s) (s_abs_x s) (s_abs_y s) (s_tx_messages s)
    (s_failed_messages s) (s_remote_wakeup_signals s) (s_remote_wakeup_rejected s)
    (s_last_remote_wakeup_us s) (s_last_error s) (manager_locks s) (s_abort_fence s)
    (s_owner_state s) (s_active_command_generation s) (s_active_command_owner s)
    (s_command_active s) (s_command_was_aborted s) (s_command_send_ok s)
    (s_command_send_error s) (s_mount_reset_pending s) (s_embedded_authority_guard s)
    (s_embedded_producers s) (tud_mounted s) (gate_free s) (blocked s) (ticks s) (sent s)
    (host_keyboard s) (host_mouse s) (host_abs s).

Definition no_keys : list Z := replicate 6 0.

Definition hid_initial : hid_state :=
  mk_hid false false 0 no_keys 0 0 0 (SI_HID_ABS_MAX / 2) (SI_HID_ABS_MAX / 2) 0 0 0 0 0
    None false SI_HID_ABORT_FENCE_INITIALIZER SI_HID_OWNER_STATE_INITIALIZER 0 zero_token
    false false false None true None
    (replicate HID_EMBEDDED_PRODUCER_SLOTS zero_binding)
    false false None [] [] (0, no_keys) 0 0.

Abbreviation hidM A := (st hid_state A) (only parsing).

(** ** The start of a transition, up to the command lock *)

Inductive transition_start :=
| TransitionRefused
| TransitionKept
| TransitionWaits (previous : si_hid_owner_token_t).

Definition abort_pending_commands (s : hid_state) : hid_state :=
  s <| s_abort_fence := mk_fence (bump (fence_generation (s_abort_fence s))) |>.

Definition clear_producers (previous : si_hid_owner_token_t) (s : hid_state) : hid_state :=
  s <| s_embedded_producers :=
    map (fun b => if si_hid_owner_token_equal (Some (owner b)) (Some previous)
                  then zero_binding else b) (s_embedded_producers s) |>.

Definition owner_transition_start (transition : si_hid_owner_transition_t) (s : hid_state)
  : transition_start * hid_state :=
  let install := authorize transition in
  return_if install && negb (si_hid_owner_claim_valid (Some (transition_claim transition)))
    with (TransitionRefused, s) ;;
  return_if install && negb (replace transition) &&
            negb (generation (current (s_owner_state s)) =? 0) &&
            si_hid_owner_claim_equal (claim (current (s_owner_state s)))
              (transition_claim transition)
    with (TransitionKept, s) ;;
  let previous := current (s_owner_state s) in
  let s :=
    if negb (generation previous =? 0)
    then clear_producers previous
           (s <| s_owner_state :=
              (si_hid_owner_state_revoke_current (s_owner_state s) (Some previous)).1.2 |>)
    else s in
  (TransitionWaits previous, abort_pending_commands s).

(** ** The environment *)

(** [hid_event_cb], and the stack's own flag.  The host forgets what it held
    when the device is detached or configured again. *)
Definition host_forgets (s : hid_state) : hid_state :=
  ((s <| host_keyboard := (0, no_keys) |>) <| host_mouse := 0 |>) <| host_abs := 0 |>.

Definition set_last_error_text (message : option cstring) (err : esp_err_t) (s : hid_state)
  : hid_state :=
  if decide (err = ESP_OK) then s <| s_last_error := None |>
  else s <| s_last_error := Some (default (cstr "hid error") message, err) |>.

Definition hid_event_cb (attached : bool) (s : hid_state) : hid_state :=
  let s := (s <| s_mounted := attached |>) <| s_mount_reset_pending := true |> in
  if attached then set_last_error_text None ESP_OK s else s.

(** A transition of another task can start only while the gate is free, and
    then waits for the command lock with the gate held. *)
Definition hid_event_apply (s : hid_state) (e : hid_event) : hid_state :=
  match e with
  | EvAttached => host_forgets (hid_event_cb true s <| tud_mounted := true |>)
  | EvDetached => host_forgets (hid_event_cb false s <| tud_mounted := false |>)
  | EvTransition t =>
      if gate_free s then
        match owner_transition_start t s with
        | (TransitionWaits previous, s') =>
            (s' <| blocked := Some (t, previous) |>) <| gate_free := false |>
        | _ => s
        end
      else s
  end.

Definition poll : hidM tick := fun s =>
  match ticks s with
  | [] => (mk_tick [] false 0, s)
  | t :: ts => (t, fold_left hid_event_apply (events t) (s <| ticks := ts |>))
  end.

Definition poll_flag : hidM bool := t ← poll; mret (flag t).
Definition poll_time : hidM Z := t ← poll; mret (time_us t).

(** The device is ready to the stack only while it is mounted. *)
Definition tud_hid_n_ready (itf : hid_itf) : hidM bool :=
  f ← poll_flag; m ← gets tud_mounted; mret (m && f).

Definition report_revoked (s : hid_state) : bool := bool_decide (is_Some (blocked s)).

Definition host_receives (r : hid_report) (s : hid_state) : hid_state :=
  let s := s <| sent := sent s ++ [(r, report_revoked s)] |> in
  match r with
  | keyboard_report mods ks => s <| host_keyboard := (mods, ks) |>
  | mouse_report buttons _ _ _ _ => s <| host_mouse := buttons |>
  | abs_report bytes => s <| host_abs := nth 0 bytes 0 |>
  end.

Definition tud_hid_report (r : hid_report) : hidM bool :=
  f ← poll_flag; m ← gets tud_mounted;
  when (m && f) (modify (host_receives r));; mret (m && f).

(** ** Key codes *)

Definition key_table (l : list (string * Z)) : list (cstring * Z) :=
  map (fun '(name, v) => (cstr name, v)) l.

Definition KEY_MAP : list (cstring * Z) := key_table [
   ("KeyA", 4); ("KeyB", 5); ("KeyC", 6); ("KeyD", 7); ("KeyE", 8); ("KeyF", 9);
   ("KeyG", 10); ("KeyH", 11); ("KeyI", 12); ("KeyJ", 13); ("KeyK", 14); ("KeyL", 15);
   ("KeyM", 16); ("KeyN", 17); ("KeyO", 18); ("KeyP", 19); ("KeyQ", 20); ("KeyR", 21);
   ("KeyS", 22); ("KeyT", 23); ("KeyU", 24); ("KeyV", 25); ("KeyW", 26); ("KeyX", 27);
   ("KeyY", 28); ("KeyZ", 29); ("Digit1", 30); ("Digit2", 31); ("Digit3", 32);
   ("Digit4", 33); ("Digit5", 34); ("Digit6", 35); ("Digit7", 36); ("Digit8", 37);
   ("Digit9", 38); ("Digit0", 39); ("Enter", 40); ("Escape", 41); ("Backspace", 42);
   ("Tab", 43); ("Space", 44); ("Minus", 45); ("Equal", 46); ("BracketLeft", 47);
   ("BracketRight", 48); ("Backslash", 49); ("Semicolon", 51); ("Quote", 52);
   ("Backquote", 53); ("Comma", 54); ("Period", 55); ("Slash", 56); ("CapsLock", 57);
   ("F1", 58); ("F2", 59); ("F3", 60); ("F4", 61); ("F5", 62); ("F6", 63); ("F7", 64);
   ("F8", 65); ("F9", 66); ("F10", 67); ("F11", 68); ("F12", 69); ("PrintScreen", 70);
   ("ScrollLock", 71); ("Pause", 72); ("Insert", 73); ("Home", 74); ("PageUp", 75);
   ("Delete", 76); ("End", 77); ("PageDown", 78); ("ArrowRight", 79);
   ("ArrowLeft", 80); ("ArrowDown", 81); ("ArrowUp", 82); ("NumLock", 83);
   ("NumpadDivide", 84); ("NumpadMultiply", 85); ("NumpadSubtract", 86);
   ("NumpadAdd", 87); ("NumpadEnter", 88); ("Numpad1", 89); ("Numpad2", 90);
   ("Numpad3", 91); ("Numpad4", 92); ("Numpad5", 93); ("Numpad6", 94); ("Numpad7", 95);
   ("Numpad8", 96); ("Numpad9", 97); ("Numpad0", 98); ("NumpadDecimal", 99);
   ("IntlBackslash", 100); ("ContextMenu", 101); ("Power", 102)].

Definition MOD_MAP : list (cstring * Z) := key_table [
   ("ControlLeft", 1); ("ShiftLeft", 2); ("AltLeft", 4); ("MetaLeft", 8);
   ("ControlRight", 16); ("ShiftRight", 32); ("AltRight", 64); ("MetaRight", 128)].

Fixpoint table_lookup (table : list (cstring * Z)) (code : cstring) : Z :=
  match table with
  | [] => 0
  | (name, v) :: rest => if streq name code then v else table_lookup rest code
  end.

Definition js_code_to_hid (code : option cstring) : Z :=
  match code with None => 0 | Some c => table_lookup KEY_MAP c end.
Definition js_code_to_mod (code : option cstring) : Z :=
  match code with None => 0 | Some c => table_lookup MOD_MAP c end.

(** ** Sending reports *)

Definition active_command_aborted (s : hid_state) : bool :=
  s_command_active s &&
  negb (si_hid_abort_fence_is_current (Some (s_abort_fence s))
          (s_active_command_generation s)).

Definition authority_revoked : cstring := cstr "HID command authority revoked".

Definition active_command_can_emit : hidM bool :=
  aborted ← gets active_command_aborted;
  return_if negb aborted with mret true ;;
  modify (fun s => (s <| s_command_send_ok := false |>)
                     <| s_command_send_error := Some authority_revoked |>);;
  mret false.

Definition hid_mounted (s : hid_state) : bool :=
  s_installed s && s_mounted s && tud_mounted s.

(** The polling loop; a second read in each round tells whether the timeout is
    still ahead.  [Some b]: the body returned [b]. *)
Fixpoint wait_ready_loop (fuel : nat) (itf : hid_itf) (timeout_ms : Z)
  : hidM (option bool) :=
  match fuel with
  | O => mret None
  | S fuel =>
      emit ← active_command_can_emit;
      return_if negb emit with mret (Some false) ;;
      ready ← tud_hid_n_ready itf;
      return_if ready with mret (Some true) ;;
      return_if timeout_ms =? 0 with mret None ;;
      again ← poll_flag;
      return_if again with wait_ready_loop fuel itf timeout_ms ;;
      mret None
  end.

Definition wait_hid_ready (itf : hid_itf) (timeout_ms : Z) : hidM bool :=
  admitted ← gets hid_mounted &&& active_command_can_emit;
  return_if negb admitted with mret false ;;
  fuel ← gets (fun s => S (length (ticks s)));
  result ← wait_ready_loop fuel itf timeout_ms;
  match result with
  | Some b => mret b
  | None => active_command_can_emit &&& tud_hid_n_ready itf
  end.

Definition note_report (mask : Z) (neutral : hid_state -> bool) : hidM unit :=
  modify (fun s => s <| s_owner_state :=
    si_hid_owner_state_note_report (s_owner_state s) mask (neutral s) |>).

Definition send_report (itf : hid_itf) (timeout_ms : Z) (report : hid_state -> hid_report)
    (mask : Z) (neutral : hid_state -> bool) : hidM bool :=
  ready ← active_command_can_emit &&& wait_hid_ready itf timeout_ms
            &&& active_command_can_emit;
  return_if negb ready with mret false ;;
  r ← gets report;
  ok ← tud_hid_report r;
  when ok (note_report mask neutral);; mret ok.

Definition send_keyboard_report : hidM bool :=
  send_report HID_ITF_KEYBOARD 50 (fun s => keyboard_report (s_modifiers s) (s_keys s))
    SI_HID_REPORT_DIRTY_KEYBOARD (fun s => (s_modifiers s =? 0) && (s_key_count s =? 0)%nat).

Definition send_mouse_report (x y wheel pan timeout_ms : Z) : hidM bool :=
  send_report HID_ITF_MOUSE timeout_ms
    (fun s => mouse_report (s_mouse_buttons s) x y wheel pan)
    SI_HID_REPORT_DIRTY_MOUSE (fun s => s_mouse_buttons s =? 0).

Definition send_abs_pointer_report (timeout_ms : Z) : hidM bool :=
  send_report HID_ITF_ABS_POINTER timeout_ms
    (fun s => abs_report [s_abs_buttons s;
                          Z.land (s_abs_x s) 255; Z.shiftr (s_abs_x s) 8;
                          Z.land (s_abs_y s) 255; Z.shiftr (s_abs_y s) 8])
    SI_HID_REPORT_DIRTY_ABS_POINTER (fun s => s_abs_buttons s =? 0).

Definition record_send_result (ok : bool) (error : cstring) : hidM unit :=
  modify (fun s => s <| s_command_send_ok := s_command_send_ok s && ok |>);;
  earlier ← gets s_command_send_error;
  when (negb ok && negb (bool_decide (is_Some earlier)))
    (modify (fun s => s <| s_command_send_error := Some error |>)).

Definition keyboard_error : cstring := cstr "keyboard endpoint not writable".
Definition mouse_error : cstring := cstr "relative mouse endpoint not writable".
Definition abs_error : cstring := cstr "absolute pointer endpoint not writable".

Definition send_keyboard : hidM unit :=
  ok ← send_keyboard_report; record_send_result ok keyboard_error.
Definition send_mouse (x y wheel pan timeout_ms : Z) : hidM unit :=
  ok ← send_mouse_report x y wheel pan timeout_ms; record_send_result ok mouse_error.
Definition send_abs (timeout_ms : Z) : hidM unit :=
  ok ← send_abs_pointer_report timeout_ms; record_send_result ok abs_error.

Definition clamp_i8 (value : Z) : Z :=
  return_if 127 <? value with 127 ;;
  return_if value <? -127 with -127 ;;
  value.

Definition clamp_abs (value : Z) : Z :=
  return_if value <? 0 with 0 ;;
  return_if SI_HID_ABS_MAX <? value with SI_HID_ABS_MAX ;;
  value.

Definition send_mouse_counts (dx dy timeout_ms : Z) : hidM unit :=
  mounted ← gets hid_mounted;
  return_if negb mounted with modify (fun s => s <| s_command_send_ok := false |>) ;;
  send_mouse (clamp_i8 dx) (clamp_i8 dy) 0 0 timeout_ms.

(** ** Key state *)

Definition push_key (usage : Z) (s : hid_state) : hid_state :=
  if (s_key_count s <? 6)%nat
  then (s <| s_keys := <[s_key_count s := usage]> (s_keys s) |>)
         <| s_key_count := S (s_key_count s) |>
  else s.

Definition key_held (usage : Z) (s : hid_state) : bool :=
  existsb (Z.eqb usage) (take (s_key_count s) (s_keys s)).

Definition hid_key_down (code : option cstring) : hidM unit :=
  let mask := js_code_to_mod code in
  let usage := js_code_to_hid code in
  return_if negb (mask =? 0)
    with (modify (fun s => s <| s_modifiers := Z.lor (s_modifiers s) mask |>);; send_keyboard) ;;
  return_if usage =? 0 with send_keyboard ;;
  held ← gets (key_held usage);
  return_if held with send_keyboard ;;
  modify (push_key usage);; send_keyboard.

(** [for (j = i; j + 1 < count; j++) keys[j] = keys[j + 1]], over [n] rounds. *)
Fixpoint shift_keys (n j : nat) (keys : list Z) : list Z :=
  match n with
  | O => keys
  | S n => shift_keys n (S j) (<[j := nth (S j) keys 0]> keys)
  end.

Definition remove_key (usage : Z) (s : hid_state) : hid_state :=
  match list_find (eq usage) (take (s_key_count s) (s_keys s)) with
  | Some (i, _) =>
      let count := (s_key_count s - 1)%nat in
      (s <| s_keys := <[count := 0]> (shift_keys (count - i) i (s_keys s)) |>)
         <| s_key_count := count |>
  | None => s
  end.

Definition hid_key_up (code : option cstring) : hidM unit :=
  let mask := js_code_to_mod code in
  modify (fun s =>
    if negb (mask =? 0) then s <| s_modifiers := Z.land (s_modifiers s) (u8 (Z.lnot mask)) |>
    else remove_key (js_code_to_hid code) s);;
  send_keyboard.

(** ** Releasing everything, and the neutral reports that are still due *)

Definition reset_report_state (s : hid_state) : hid_state :=
  ((((s <| s_modifiers := 0 |>) <| s_key_count := 0%nat |>) <| s_keys := no_keys |>)
      <| s_mouse_buttons := 0 |>) <| s_abs_buttons := 0 |>.

Definition reset_keys (s : hid_state) : hid_state :=
  ((s <| s_modifiers := 0 |>) <| s_key_count := 0%nat |>) <| s_keys := no_keys |>.

Definition report_dirty (mask : Z) (s : hid_state) : bool :=
  negb (Z.land (dirty_reports (s_owner_state s)) mask =? 0).

Definition release_all_locked : hidM unit :=
  modify reset_keys;;
  dirty ← gets (report_dirty SI_HID_REPORT_DIRTY_KEYBOARD);
  when dirty send_keyboard;;
  modify (fun s => s <| s_mouse_buttons := 0 |>);;
  dirty ← gets (report_dirty SI_HID_REPORT_DIRTY_MOUSE);
  when dirty (send_mouse 0 0 0 0 50);;
  modify (fun s => s <| s_abs_buttons := 0 |>);;
  dirty ← gets (report_dirty SI_HID_REPORT_DIRTY_ABS_POINTER);
  when dirty (send_abs 50).

Definition with_owner_state (f : si_hid_owner_state_t -> si_hid_owner_state_t)
    (s : hid_state) : hid_state := s <| s_owner_state := f (s_owner_state s) |>.

Definition apply_mount_reset_locked : hidM bool :=
  pending ← gets s_mount_reset_pending;
  modify (fun s => s <| s_mount_reset_pending := false |>);;
  return_if negb pending with mret false ;;
  modify reset_report_state;;
  modify (with_owner_state si_hid_owner_state_host_reset);; mret true.

Definition neutral_still_pending (s : hid_state) : bool :=
  negb (s_command_send_ok s) || negb (dirty_reports (s_owner_state s) =? 0).

Definition drain_neutral_pending_locked : hidM bool :=
  reset ← apply_mount_reset_locked;
  return_if reset with mret true ;;
  modify reset_report_state;;
  mounted ← gets hid_mounted;
  return_if negb mounted
    with (modify (with_owner_state si_hid_owner_state_host_reset);; mret true) ;;
  modify (fun s => (((s <| s_command_active := false |>)
                        <| s_command_was_aborted := false |>)
                        <| s_command_send_ok := true |>)
                        <| s_command_send_error := None |>);;
  release_all_locked;;
  pending ← gets neutral_still_pending;
  modify (with_owner_state (fun o => o <| neutral_pending := pending |>));;
  when (negb pending) (modify (with_owner_state (fun o => o <| report_owner := zero_token |>)));;
  mret (negb pending).

Definition neutralize_aborted_command_locked : hidM bool :=
  already ← gets s_command_was_aborted;
  return_if already with mret true ;;
  aborted ← gets active_command_aborted;
  return_if negb aborted with mret false ;;
  modify (fun s => (((s <| s_command_was_aborted := true |>)
                        <| s_command_active := false |>)
                        <| s_command_send_ok := true |>)
                        <| s_command_send_error := Some authority_revoked |>);;
  release_all_locked;; mret true.

(** ** Authority transitions *)

(** From the command lock on, which is awaited without a limit
    ([portMAX_DELAY]); [previous] is the owner that was revoked.  First the
    neutral reports that are due. *)
Definition transition_cleanup (previous : si_hid_owner_token_t) : hidM bool :=
  poll;;
  apply_mount_reset_locked;;
  previous_owned_reports ← gets (fun s =>
    negb (generation previous =? 0) &&
    si_hid_owner_token_equal (Some (report_owner (s_owner_state s))) (Some previous));
  pending ← gets (fun s => neutral_pending (s_owner_state s));
  if previous_owned_reports || pending then drain_neutral_pending_locked else mret true.

(** Then the new owner; the result comes with the token stored through [owner]. *)
Definition owner_transition_finish (transition : si_hid_owner_transition_t)
    (previous : si_hid_owner_token_t) : hidM (bool * option si_hid_owner_token_t) :=
  neutral ← transition_cleanup previous;
  mounted ← gets hid_mounted;
  return_if negb neutral && mounted with mret (false, None) ;;
  return_if negb (authorize transition) with mret (true, Some zero_token) ;;
  state ← gets s_owner_state;
  let '(ok, state, token) :=
    si_hid_owner_state_install state (Some (transition_claim transition)) true in
  modify (with_owner_state (fun _ => state));; mret (ok, token).

Definition owner_transition_locked (transition : si_hid_owner_transition_t)
  : hidM (bool * option si_hid_owner_token_t) :=
  start ← owner_transition_start transition;
  match start with
  | TransitionRefused => mret (false, None)
  | TransitionKept =>
      o ← gets (fun s => current (s_owner_state s)); mret (true, Some o)
  | TransitionWaits previous => owner_transition_finish transition previous
  end.

(** The rest of a transition that another task started during a command. *)
Definition transition_resume : hidM (bool * option si_hid_owner_token_t) :=
  b ← gets blocked;
  match b with
  | None => mret (false, None)
  | Some (transition, previous) =>
      modify (fun s => s <| blocked := None |>);;
      owner_transition_finish transition previous
  end.

Definition ensure_manager_locks : hidM bool :=
  created ← gets manager_locks;
  return_if created with mret true ;;
  ok ← poll_flag;
  when ok (modify (fun s => s <| manager_locks := true |>));; mret ok.

(** Taking the authority gate within a time: the environment says whether it came. *)
Definition take_gate : hidM bool := poll_flag.

(** Taking it with [portMAX_DELAY]: the wait ends with the gate. *)
Definition enter_gate : hidM bool := poll ;; mret true.

(** [callback] is the domain's decision under the gate, on its own context:
    [Some t] accepts. *)
Definition si_hid_authority_transition {C}
    (callback : C -> si_hid_owner_token_t -> option si_hid_owner_transition_t * C)
    (context : C) : hidM (bool * option si_hid_owner_token_t * C) :=
  ready ← ensure_manager_locks &&& enter_gate;
  return_if negb ready with mret (false, None, context) ;;
  c ← gets (fun s => current (s_owner_state s));
  let '(decision, context) := callback context c in
  match decision with
  | None => mret (false, None, context)
  | Some transition =>
      r ← owner_transition_locked transition; mret (r, context)
  end.

Definition release_now : hidM bool :=
  r ← owner_transition_locked zero_transition; mret r.1.

Definition si_hid_owner_release_if_current (owner : option si_hid_owner_token_t)
  : hidM bool :=
  return_if negb (bool_decide (is_Some owner)) with mret false ;;
  ready ← ensure_manager_locks &&& enter_gate;
  return_if negb ready with mret false ;;
  is_current ← gets (fun s => si_hid_owner_state_is_current (s_owner_state s) owner);
  return_if negb is_current with mret false ;;
  release_now.

Definition si_hid_owner_revoke_session (session : option cstring) (auth_gen : Z)
  : hidM bool :=
  return_if negb (ptr_test (fun sid => negb (is_empty sid)) session) || (auth_gen =? 0)
    with mret false ;;
  ready ← ensure_manager_locks &&& enter_gate;
  return_if negb ready with mret false ;;
  matches ← gets (fun s =>
    let c := current (s_owner_state s) in
    negb (generation c =? 0) && streq (session_id (claim c)) (deref session) &&
    (auth_generation (claim c) =? auth_gen));
  return_if negb matches with mret false ;;
  release_now.

Definition si_hid_owner_get_current : hidM (option si_hid_owner_token_t) :=
  ready ← ensure_manager_locks &&& take_gate;
  return_if negb ready with mret None ;;
  c ← gets (fun s => current (s_owner_state s));
  return_if generation c =? 0 with mret None ;;
  mret (Some c).

Definition si_hid_set_embedded_authority_guard (guard : option Z) (context : Z)
  : hidM esp_err_t :=
  match guard with
  | None => mret ESP_ERR_INVALID_ARG
  | Some g =>
      ready ← ensure_manager_locks &&& enter_gate;
      return_if negb ready with mret ESP_ERR_INVALID_ARG ;;
      registered ← gets s_embedded_authority_guard;
      return_if bool_decide (is_Some registered) &&
                negb (bool_decide (registered = Some (g, context)))
        with mret ESP_ERR_INVALID_STATE ;;
      modify (fun s => s <| s_embedded_authority_guard := Some (g, context) |>);;
      mret ESP_OK
  end.

(** ** Producer bindings *)

Definition embedded_claim (c : si_hid_owner_claim_t) : bool :=
  (kind c =? enum_val SI_HID_OWNER_CONTROL_LEASE) && (auth_generation c =? 0) &&
  streq (session_id c) (cstr "embedded-agent").

(** The slot of [task], else the first empty one: the search of the loop from
    index [i], with the empty slot found so far. *)
Fixpoint producer_slot (task' : Z) (i : nat) (slot : option nat)
    (bindings : list embedded_producer_binding_t) : option nat :=
  match bindings with
  | [] => slot
  | b :: rest =>
      return_if task b =? task' with Some i ;;
      producer_slot task' (S i)
        (if negb (bool_decide (is_Some slot)) && (task b =? 0) then Some i else slot) rest
  end.

Definition si_hid_bind_embedded_producer (task : Z) (owner : option si_hid_owner_token_t)
  : hidM esp_err_t :=
  match owner with
  | None => mret ESP_ERR_INVALID_ARG
  | Some o =>
      return_if (task =? 0) || negb (embedded_claim (claim o)) with mret ESP_ERR_INVALID_ARG ;;
      ready ← ensure_manager_locks &&& enter_gate;
      return_if negb ready with mret ESP_ERR_INVALID_ARG ;;
      is_current ← gets (fun s => si_hid_owner_state_is_current (s_owner_state s) owner);
      return_if negb is_current with mret ESP_ERR_INVALID_STATE ;;
      slot ← gets (fun s => producer_slot task 0 None (s_embedded_producers s));
      match slot with
      | None => mret ESP_ERR_NO_MEM
      | Some i =>
          modify (fun s => s <| s_embedded_producers :=
            <[i := mk_binding task o]> (s_embedded_producers s) |>);;
          mret ESP_OK
      end
  end.

Definition si_hid_get_bound_embedded_owner (task' : Z)
  : hidM (option si_hid_owner_token_t) :=
  return_if task' =? 0 with mret None ;;
  ready ← ensure_manager_locks &&& take_gate;
  return_if negb ready with mret None ;;
  gets (fun s => owner <$> List.find (fun b => task b =? task') (s_embedded_producers s)).

(** ** Commands *)

Definition hid_mouse_move (dx dy : Z) : hidM unit := send_mouse_counts dx dy 5.

Definition browser_button_to_hid (button : Z) : Z :=
  if button =? 1 then 4 else if button =? 2 then 2 else 1.

Definition hid_mouse_down (button : Z) : hidM unit :=
  modify (fun s => s <| s_mouse_buttons :=
    Z.lor (s_mouse_buttons s) (browser_button_to_hid button) |>);;
  send_mouse 0 0 0 0 50.

Definition hid_mouse_up (button : Z) : hidM unit :=
  modify (fun s => s <| s_mouse_buttons :=
    Z.land (s_mouse_buttons s) (u8 (Z.lnot (browser_button_to_hid button))) |>);;
  send_mouse 0 0 0 0 50.

Definition hid_mouse_scroll (delta_y delta_x : Z) : hidM unit :=
  send_mouse 0 0 delta_y delta_x 20.

Definition hid_abs_move (x y : Z) : hidM unit :=
  modify (fun s => (s <| s_abs_x := clamp_abs x |>) <| s_abs_y := clamp_abs y |>);;
  send_abs 20.

Definition hid_abs_mouse_down (button : Z) : hidM unit :=
  modify (fun s => s <| s_abs_buttons :=
    Z.lor (s_abs_buttons s) (browser_button_to_hid button) |>);;
  send_abs 50.

Definition hid_abs_mouse_up (button : Z) : hidM unit :=
  modify (fun s => s <| s_abs_buttons :=
    Z.land (s_abs_buttons s) (u8 (Z.lnot (browser_button_to_hid button))) |>);;
  send_abs 50.

(** [if (neutralize_aborted_command_locked()) return; k] *)
Definition unless_aborted (k : hidM unit) : hidM unit :=
  aborted ← neutralize_aborted_command_locked; if aborted then mret tt else k.

(** [vTaskDelay]: other tasks run. *)
Definition delay : hidM unit := poll;; mret tt.

Definition combo_press (command : si_hid_command_t) (s : hid_state) : hid_state :=
  let s := reset_keys s in
  let s := fold_left (fun s m => s <| s_modifiers := Z.lor (s_modifiers s) (js_code_to_mod m) |>)
    (cmd_modifiers command) s in
  fold_left (fun s k => let usage := js_code_to_hid k in
                        if usage =? 0 then s else push_key usage s)
    (cmd_keys command) s.

Definition send_combo (command : si_hid_command_t) : hidM unit :=
  prev ← gets (fun s => (s_modifiers s, s_keys s, s_key_count s));
  let '(prev_mod, prev_keys, prev_count) := prev in
  modify (combo_press command);;
  send_keyboard;;
  unless_aborted (
    delay;;
    unless_aborted (
      modify reset_keys;;
      send_keyboard;;
      unless_aborted (
        modify (fun s => ((s <| s_modifiers := prev_mod |>)
                            <| s_key_count := prev_count |>) <| s_keys := prev_keys |>);;
        send_keyboard))).

Definition press_and_release (down up : hidM unit) : hidM unit :=
  down;; unless_aborted (delay;; unless_aborted up).

Definition release_all_command (o : si_hid_owner_token_t) : hidM unit :=
  release_all_locked;;
  ok ← gets s_command_send_ok;
  modify (with_owner_state (fun state =>
    if ok then si_hid_owner_state_clear_report state (Some o)
    else state <| neutral_pending := true |>)).

(** The switch on [command->type]. *)
Definition run_command (command : si_hid_command_t) (o : si_hid_owner_token_t)
  : hidM esp_err_t :=
  let button := cmd_button command in
  match cmd_type command with
  | SI_HID_COMMAND_KEY_DOWN => hid_key_down (cmd_code command);; mret ESP_OK
  | SI_HID_COMMAND_KEY_UP => hid_key_up (cmd_code command);; mret ESP_OK
  | SI_HID_COMMAND_MOUSE_MOVE => hid_mouse_move (cmd_dx command) (cmd_dy command);; mret ESP_OK
  | SI_HID_COMMAND_MOUSE_MOVE_COUNTS =>
      send_mouse_counts (cmd_x command) (cmd_y command) 5;; mret ESP_OK
  | SI_HID_COMMAND_ABS_MOVE =>
      hid_abs_move (clamp_abs (cmd_x command)) (clamp_abs (cmd_y command));; mret ESP_OK
  | SI_HID_COMMAND_ABS_MOUSE_DOWN => hid_abs_mouse_down button;; mret ESP_OK
  | SI_HID_COMMAND_ABS_MOUSE_UP => hid_abs_mouse_up button;; mret ESP_OK
  | SI_HID_COMMAND_ABS_CLICK =>
      at_ ← gets (fun s =>
        (if cmd_has_x command then clamp_abs (cmd_x command) else s_abs_x s,
         if cmd_has_y command then clamp_abs (cmd_y command) else s_abs_y s));
      hid_abs_move at_.1 at_.2;;
      press_and_release (hid_abs_mouse_down button) (hid_abs_mouse_up button);; mret ESP_OK
  | SI_HID_COMMAND_MOUSE_DOWN => hid_mouse_down button;; mret ESP_OK
  | SI_HID_COMMAND_MOUSE_UP => hid_mouse_up button;; mret ESP_OK
  | SI_HID_COMMAND_CLICK =>
      press_and_release (hid_mouse_down button) (hid_mouse_up button);; mret ESP_OK
  | SI_HID_COMMAND_WHEEL =>
      hid_mouse_scroll (cmd_wheel_y command) (cmd_wheel_x command);; mret ESP_OK
  | SI_HID_COMMAND_COMBO => send_combo command;; mret ESP_OK
  | SI_HID_COMMAND_RELEASE_ALL => release_all_command o;; mret ESP_OK
  | SI_HID_COMMAND_UNSUPPORTED | SI_HID_COMMAND_INVALID => mret ESP_ERR_NOT_SUPPORTED
  end.

(** ** Execution under a token *)

Definition command_fails (message : option cstring) (err : esp_err_t) : hidM esp_err_t :=
  modify (fun s => set_last_error_text message err
    (s <| s_failed_messages := u32 (s_failed_messages s + 1) |>));;
  mret err.

Section Execute.
  Context (call_guard : Z * Z -> hidM bool) (between : hidM unit).

Definition embedded_guard_denies : hidM bool :=
  g ← gets s_embedded_authority_guard;
  match g with
  | None => mret true
  | Some g => allowed ← call_guard g; mret (negb allowed)
  end.

Definition guard_denies (guard : option (Z * Z)) : hidM bool :=
  match guard with
  | None => mret false
  | Some g => allowed ← call_guard g; mret (negb allowed)
  end.

Definition authority_denied (owner : si_hid_owner_token_t) (guard : option (Z * Z))
  : hidM bool :=
  (if embedded_claim (claim owner) then embedded_guard_denies else mret false)
    ||| guard_denies guard.

Definition owner_admitted_locked (owner : si_hid_owner_token_t) (guard : option (Z * Z))
  : hidM bool :=
  is_current ← gets (fun s => si_hid_owner_state_is_current (s_owner_state s) (Some owner));
  return_if negb is_current with mret false ;;
  denied ← authority_denied owner guard; mret (negb denied).

Definition wakes_host (type : si_hid_command_type_t) : bool :=
  bool_decide (type ∈ [SI_HID_COMMAND_KEY_DOWN; SI_HID_COMMAND_MOUSE_DOWN;
    SI_HID_COMMAND_CLICK; SI_HID_COMMAND_ABS_MOUSE_DOWN; SI_HID_COMMAND_ABS_CLICK;
    SI_HID_COMMAND_COMBO]).

(** [while (tud_suspended() && esp_timer_get_time() < deadline) vTaskDelay(1)] *)
Fixpoint wait_resumed (fuel : nat) (deadline_us : Z) : hidM unit :=
  match fuel with
  | O => mret tt
  | S fuel =>
      suspended ← poll_flag;
      return_if negb suspended with mret tt ;;
      now ← poll_time;
      return_if negb (now <? deadline_us) with mret tt ;;
      delay;; wait_resumed fuel deadline_us
  end.

Definition wake_suspended_host (command : si_hid_command_t) (owner : si_hid_owner_token_t)
    (guard : option (Z * Z)) : hidM bool :=
  return_if negb (wakes_host (cmd_type command)) with mret true ;;
  suspended ← poll_flag;
  return_if negb suspended with mret true ;;
  gate ← take_gate;
  return_if negb gate with mret true ;;
  admitted ← owner_admitted_locked owner guard;
  return_if negb admitted with mret true ;;
  now_us ← poll_time;
  last ← gets s_last_remote_wakeup_us;
  return_if negb (last =? 0) && (now_us - last <? HID_REMOTE_WAKEUP_RETRY_US)
    with mret false ;;
  signalled ← poll_flag;
  modify (fun s =>
    if (signalled : bool)
    then (s <| s_remote_wakeup_signals := u32 (s_remote_wakeup_signals s + 1) |>)
            <| s_last_remote_wakeup_us := now_us |>
    else s <| s_remote_wakeup_rejected := u32 (s_remote_wakeup_rejected s + 1) |>);;
  return_if negb signalled with mret false ;;
  fuel ← gets (fun s => S (length (ticks s)));
  wait_resumed fuel (now_us + HID_REMOTE_WAKEUP_WAIT_US);;
  suspended ← poll_flag; mret (negb suspended).

(** The command holds the command lock and has given the gate back. *)
Definition command_starts (owner : si_hid_owner_token_t) (generation : Z) (s : hid_state)
  : hid_state :=
  ((((((s <| s_active_command_generation := generation |>)
          <| s_active_command_owner := owner |>)
          <| s_command_active := true |>)
          <| s_command_was_aborted := false |>)
          <| s_command_send_ok := true |>)
          <| s_command_send_error := None |>)
          <| gate_free := true |>.

(** From the end of the switch on: the command's result, the cleanup of a
    failed report and the statistics. *)
Definition command_finishes (command : si_hid_command_t) (owner : si_hid_owner_token_t)
    (ret : esp_err_t) : hidM esp_err_t :=
  aborted ← neutralize_aborted_command_locked ||| gets s_command_was_aborted;
  send_ok ← gets s_command_send_ok;
  let ret := if (aborted : bool) then ESP_ERR_INVALID_STATE
             else if bool_decide (ret = ESP_OK) && negb send_ok then ESP_FAIL else ret in
  terminal_send_error ← gets s_command_send_error;
  modify (fun s => s <| s_command_active := false |>);;
  modify (fun s =>
    if bool_decide (ret = ESP_OK) && (dirty_reports (s_owner_state s) =? 0)
    then with_owner_state (fun o => si_hid_owner_state_clear_report o (Some owner)) s else s);;
  when (bool_decide (ret = ESP_FAIL) && negb send_ok) (
    pending ← gets (fun s => negb (dirty_reports (s_owner_state s) =? 0));
    modify (with_owner_state (fun o => o <| neutral_pending := pending |>));;
    when pending (drain_neutral_pending_locked;; mret tt);;
    modify (fun s => s <| s_command_send_error := terminal_send_error |>));;
  modify (fun s => s <| s_active_command_owner := zero_token |>);;
  error ← gets s_command_send_error;
  modify (fun s => s <| gate_free := false |>);;
  return_if bool_decide (ret = ESP_OK)
    with (modify (fun s => set_last_error_text None ESP_OK
            (s <| s_tx_messages := u32 (s_tx_messages s + 1) |>));; mret ESP_OK) ;;
  command_fails (Some (default (default (cstr "HID report send failed") error)
                         (cmd_error command))) ret.

Definition command_runs (command : si_hid_command_t) (owner : si_hid_owner_token_t)
    (admission_generation : Z) : hidM esp_err_t :=
  modify (command_starts owner admission_generation);;
  ret ← run_command command owner;
  command_finishes command owner ret.

(** Under the gate: admission of the command. *)
Definition command_admitted (command : si_hid_command_t) (owner : si_hid_owner_token_t)
    (guard : option (Z * Z)) : hidM esp_err_t :=
  is_current ← gets (fun s => si_hid_owner_state_is_current (s_owner_state s) (Some owner));
  return_if negb is_current
    with command_fails (Some (cstr "stale HID report owner")) ESP_ERR_INVALID_STATE ;;
  admission_generation ← gets (fun s => si_hid_abort_fence_snapshot (Some (s_abort_fence s)));
  denied ← authority_denied owner guard;
  return_if denied
    with command_fails (Some (cstr "hid command authority denied")) ESP_ERR_INVALID_STATE ;;
  locked ← poll_flag;
  return_if negb locked
    with command_fails (Some (cstr "hid command busy")) ESP_ERR_TIMEOUT ;;
  unchanged ← gets (fun s =>
    si_hid_abort_fence_is_current (Some (s_abort_fence s)) admission_generation);
  return_if negb unchanged
    with command_fails (Some (cstr "hid authority changed before command start"))
           ESP_ERR_INVALID_STATE ;;
  neutral ← (gets (fun s => negb (s_mount_reset_pending s ||
                                  neutral_pending (s_owner_state s)))
             ||| drain_neutral_pending_locked);
  return_if negb neutral
    with command_fails (Some (cstr "HID neutral reports pending")) ESP_ERR_INVALID_STATE ;;
  state ← gets s_owner_state;
  let '(begun, state) := si_hid_owner_state_begin_report state (Some owner) in
  return_if negb begun
    with command_fails (Some (cstr "HID report owner changed")) ESP_ERR_INVALID_STATE ;;
  modify (with_owner_state (fun _ => state));;
  command_runs command owner admission_generation.

Definition si_hid_execute_owned (command : option si_hid_command_t)
    (owner : option si_hid_owner_token_t) (guard : option (Z * Z)) : hidM esp_err_t :=
  match command, owner with
  | Some command, Some owner =>
      return_if bool_decide (cmd_type command = SI_HID_COMMAND_INVALID)
        with command_fails (Some (default (cstr "invalid hid command") (cmd_error command)))
               ESP_ERR_INVALID_ARG ;;
      installed ← gets s_installed;
      return_if negb installed
        with command_fails (Some (cstr "hid not initialized")) ESP_ERR_INVALID_STATE ;;
      mounted ← gets hid_mounted;
      return_if negb mounted
        with command_fails (Some (cstr "hid not mounted")) ESP_ERR_INVALID_STATE ;;
      locks ← ensure_manager_locks;
      return_if negb locks
        with command_fails (Some (cstr "hid authority gate busy")) ESP_ERR_TIMEOUT ;;
      awake ← wake_suspended_host command owner guard;
      return_if negb awake
        with command_fails (Some (cstr "host suspended, wakeup not completed"))
               ESP_ERR_INVALID_STATE ;;
      between;;
      gate ← take_gate;
      return_if negb gate
        with command_fails (Some (cstr "hid authority gate busy")) ESP_ERR_TIMEOUT ;;
      command_admitted command owner guard
  | _, _ =>
      command_fails (Some (default (cstr "invalid hid command")
                             (command ≫= cmd_error))) ESP_ERR_INVALID_ARG
  end.

Definition release_all_command_of : si_hid_command_t :=
  mk_command SI_HID_COMMAND_RELEASE_ALL None None 0 0 0 0 false false 0 0 0 [] [].

Definition si_hid_release_all (task : Z) : hidM unit :=
  o ← si_hid_get_bound_embedded_owner task;
  match o with
  | Some o =>
      return_if negb (embedded_claim (claim o)) with mret tt ;;
      si_hid_execute_owned (Some release_all_command_of) (Some o) None;; mret tt
  | None => mret tt
  end.

End Execute.

(** [enabled] is the board's [SI_CFG_HID_ENABLED], [installed] the result of
    [tinyusb_driver_install]. *)
Definition si_hid_init (enabled : bool) (installed : esp_err_t) : hidM esp_err_t :=
  locks ← ensure_manager_locks;
  return_if negb locks with mret ESP_ERR_NO_MEM ;;
  return_if negb enabled
    with (modify (set_last_error_text (Some (cstr "USB HID disabled")) ESP_ERR_NOT_SUPPORTED);;
          mret ESP_ERR_NOT_SUPPORTED) ;;
  already ← gets s_installed;
  return_if already with mret ESP_OK ;;
  return_if negb (bool_decide (installed = ESP_OK))
    with (modify (set_last_error_text (Some (cstr "install tinyusb")) installed);;
          mret installed) ;;
  modify (fun s => set_last_error_text None ESP_OK (s <| s_installed := true |>));;
  mret ESP_OK.

(** ** The manager as a transition system

    Each step is a call of a task, the rest of a transition that waited for a
    command, or a USB event; [ts] scripts the environment of the call.  While a
    transition waits it holds the gate, and only it can continue.  The host does
    not configure the device anew during a command. *)

Definition quiet_tick (t : tick) : Prop := EvAttached ∉ events t.

Definition scripted (ts : list tick) (s : hid_state) : hid_state := s <| ticks := ts |>.

Inductive hid_manager_step (call_guard : Z * Z -> hidM bool) (between : hidM unit)
  : hid_state -> hid_state -> Prop :=
| step_init s ts enabled installed :
    blocked s = None ->
    hid_manager_step call_guard between s
      (si_hid_init enabled installed (scripted ts s)).2
| step_execute s ts command owner guard :
    blocked s = None -> Forall quiet_tick ts ->
    hid_manager_step call_guard between s
      (si_hid_execute_owned call_guard between command owner guard (scripted ts s)).2
| step_transition s ts transition :
    blocked s = None ->
    hid_manager_step call_guard between s (owner_transition_locked transition (scripted ts s)).2
| step_resume s ts :
    hid_manager_step call_guard between s (transition_resume (scripted ts s)).2
| step_guard s ts guard context :
    blocked s = None ->
    hid_manager_step call_guard between s
      (si_hid_set_embedded_authority_guard guard context (scripted ts s)).2
| step_bind s ts task owner :
    blocked s = None ->
    hid_manager_step call_guard between s
      (si_hid_bind_embedded_producer task owner (scripted ts s)).2
| step_attached s :
    hid_manager_step call_guard between s (hid_event_apply s EvAttached)
| step_detached s :
    hid_manager_step call_guard between s (hid_event_apply s EvDetached).
