(* ===== verification/HidManagerInvariant.v ===== *)
(** * The HID manager: its invariant

    What the environment may change between two steps, the bookkeeping that
    accounts for everything the host holds pressed, and its preservation by every
    report, release, transition and command. *)

From Stdlib Require Import String.
From S2P Require Import Prelude Firmware HidOwner HidOwnerProps HidManager.

(** ** The key array *)

Definition keys_ok (count : nat) (keys : list Z) : Prop :=
  (count <= 6)%nat /\ length keys = 6%nat /\ drop count keys = replicate (6 - count) 0.

Lemma keys_ok_none : keys_ok 0 no_keys.
Proof. by split; [lia|]. Qed.

Lemma keys_ok_zero keys : keys_ok 0 keys -> keys = no_keys.
Proof. by intros (_ & _ & H). Qed.

Lemma shift_keys_length n j keys : length (shift_keys n j keys) = length keys.
Proof.
  revert j keys. induction n as [|n IH]; intros j keys; cbn; [done|].
  by rewrite IH, length_insert.
Qed.

Lemma shift_keys_ge n j keys i :
  (j + n <= i)%nat -> shift_keys n j keys !! i = keys !! i.
Proof.
  revert j keys. induction n as [|n IH]; intros j keys Hi; cbn; [done|].
  rewrite IH by lia. by rewrite list_lookup_insert_ne by lia.
Qed.

Lemma drop_zeros c (keys : list Z) :
  (forall i, (c <= i < 6)%nat -> keys !! i = Some 0) -> length keys = 6%nat ->
  (c <= 6)%nat -> drop c keys = replicate (6 - c) 0.
Proof.
  intros H Hl Hc. apply list_eq. intros i. rewrite lookup_drop.
  destruct (decide (i < 6 - c)%nat).
  - rewrite H by lia. by rewrite lookup_replicate_2.
  - rewrite lookup_ge_None_2 by lia. symmetry. apply lookup_ge_None_2.
    rewrite length_replicate. lia.
Qed.

Lemma keys_ok_zeros c keys i : keys_ok c keys -> (c <= i < 6)%nat -> keys !! i = Some 0.
Proof.
  intros (Hc & Hl & Hd) Hi.
  replace i with (c + (i - c))%nat by lia. rewrite <- lookup_drop, Hd.
  apply lookup_replicate_2. lia.
Qed.

Lemma keys_ok_push usage s :
  keys_ok (s_key_count s) (s_keys s) ->
  keys_ok (s_key_count (push_key usage s)) (s_keys (push_key usage s)).
Proof.
  intros Hok. pose proof Hok as (Hc & Hl & _). unfold push_key. case_if; to_props; [|done].
  cbn [s_key_count s_keys set]. split_and!; [lia | by rewrite length_insert |].
  apply drop_zeros; [|by rewrite length_insert | lia]. intros i Hi.
  rewrite list_lookup_insert_ne by lia. apply (keys_ok_zeros _ _ _ Hok). lia.
Qed.

Lemma keys_ok_remove usage s :
  keys_ok (s_key_count s) (s_keys s) ->
  keys_ok (s_key_count (remove_key usage s)) (s_keys (remove_key usage s)).
Proof.
  intros Hok. pose proof Hok as (Hc & Hl & _). unfold remove_key.
  destruct (list_find _ _) as [[i k]|] eqn:F; [|done].
  apply list_find_Some in F as (F & _ & _). apply lookup_take_Some in F as [_ Hi].
  cbn [s_key_count s_keys set].
  assert (Hlen : length (shift_keys (s_key_count s - 1 - i) i (s_keys s)) = 6%nat)
    by by rewrite shift_keys_length.
  split_and!; [lia | by rewrite length_insert |].
  apply drop_zeros; [|by rewrite length_insert | lia]. intros j Hj.
  destruct (decide (j = s_key_count s - 1)%nat) as [->|].
  - apply list_lookup_insert_eq. lia.
  - rewrite list_lookup_insert_ne by done. rewrite shift_keys_ge by lia.
    apply (keys_ok_zeros _ _ _ Hok). lia.
Qed.

(** ** The environment between two steps of the driver *)

Definition input_state (s : hid_state) :=
  (s_modifiers s, s_keys s, s_key_count s, s_mouse_buttons s, s_abs_buttons s,
   s_abs_x s, s_abs_y s).

Definition emit_refused (s : hid_state) : hid_state :=
  (s <| s_command_send_ok := false |>) <| s_command_send_error := Some authority_revoked |>.

Inductive env1 (s : hid_state) : hid_state -> Prop :=
| env_poll : env1 s (poll s).2
| env_refused : env1 s (emit_refused s).

Definition env : relation hid_state := rtc env1.

#[export] Instance env_preorder : PreOrder env.
Proof. split; apply _. Qed.

Lemma env_once s s' : env1 s s' -> env s s'.
Proof. apply rtc_once. Qed.

(** What every event keeps, every poll keeps. *)
Lemma poll_rel (R : relation hid_state) `{!Reflexive R, !Transitive R} s :
  (forall s ts, R s (s <| ticks := ts |>)) -> (forall s e, R s (hid_event_apply s e)) ->
  R s (poll s).2.
Proof.
  intros Ht He. unfold poll. destruct (ticks s) as [|t ts]; [done|]. cbn [snd].
  etrans; [apply (Ht s ts)|]. generalize (s <| ticks := ts |>).
  induction (events t) as [|e es IH]; intros s0; cbn [fold_left]; [done|].
  etrans; [apply He | apply IH].
Qed.

Lemma env_rel (R : relation hid_state) `{!Reflexive R, !Transitive R} s s' :
  (forall s ts, R s (s <| ticks := ts |>)) -> (forall s e, R s (hid_event_apply s e)) ->
  (forall s, R s (emit_refused s)) -> env s s' -> R s s'.
Proof.
  intros Ht He Hr H. induction H as [|s s1 s2 H1 _ IH]; [done|].
  etrans; [|exact IH]. destruct H1; [by apply poll_rel | apply Hr].
Qed.

(** Facts that no event touches. *)
Lemma env_same {A} (f : hid_state -> A) s s' :
  (forall s ts, f (s <| ticks := ts |>) = f s) ->
  (forall s e, f (hid_event_apply s e) = f s) ->
  (forall s, f (emit_refused s) = f s) -> env s s' -> f s' = f s.
Proof.
  intros Ht He Hr. by apply (env_rel (same f)).
Qed.

Lemma event_apply_cases s e :
  e = EvAttached \/ e = EvDetached \/ hid_event_apply s e = s \/
  exists t previous s',
    e = EvTransition t /\ gate_free s = true /\
    owner_transition_start t s = (TransitionWaits previous, s') /\
    hid_event_apply s e = (s' <| blocked := Some (t, previous) |>) <| gate_free := false |>.
Proof.
  destruct e as [| |t]; [by left | by right; left |]. right. right. cbn [hid_event_apply].
  destruct (gate_free s) eqn:G; [|by left].
  destruct (owner_transition_start t s) as [[| |previous] s'] eqn:E; [by left | by left |].
  right. by exists t, previous, s'.
Qed.

Lemma transition_start_cases t s :
  let '(r, s') := owner_transition_start t s in
  match r with
  | TransitionRefused | TransitionKept => s' = s
  | TransitionWaits previous =>
      previous = current (s_owner_state s) /\
      exists o ps, (o = s_owner_state s /\ generation previous = 0 \/
                    o = next_generation ((s_owner_state s) <| current := zero_token |>)) /\
      s' = (((s <| s_owner_state := o |>) <| s_embedded_producers := ps |>)
              <| s_abort_fence := mk_fence (bump (fence_generation (s_abort_fence s))) |>)
  end.
Proof.
  unfold owner_transition_start. do 2 (case_if; [done|]).
  split; [done|]. destruct (Z.eqb_spec (generation (current (s_owner_state s))) 0) as [E|E].
  - exists (s_owner_state s), (s_embedded_producers s). split; [by left|]. by destruct s.
  - eexists _, _. split; [by right|].
    unfold abort_pending_commands, clear_producers, si_hid_owner_state_revoke_current.
    rewrite (proj2 (Z.eqb_neq _ _) E).
    assert (Hc : si_hid_owner_state_is_current (s_owner_state s)
                   (Some (current (s_owner_state s))) = true)
      by by apply owner_token_equal_eq.
    rewrite Hc, andb_false_r. reflexivity.
Qed.

(** What a transition that starts under a command leaves alone. *)
Definition command_view (s : hid_state) :=
  (input_state s, s_installed s, s_command_active s, s_active_command_generation s,
   s_command_was_aborted s, dirty_reports (s_owner_state s),
   report_owner (s_owner_state s), neutral_pending (s_owner_state s), sent s,
   s_embedded_authority_guard s, manager_locks s).

Lemma event_command_view s e : command_view (hid_event_apply s e) = command_view s.
Proof.
  destruct (event_apply_cases s e) as [->|[->|[->|(t & p & s' & -> & _ & E & ->)]]];
    [done..|].
  pose proof (transition_start_cases t s) as H. rewrite E in H.
  destruct H as (_ & o & ps & Ho & ->). by destruct Ho as [[-> _] | ->].
Qed.

Lemma env_command_view s s' : env s s' -> command_view s' = command_view s.
Proof. apply env_same; [done | apply event_command_view | done]. Qed.

Lemma env_input_state s s' : env s s' -> input_state s' = input_state s.
Proof. intros V%env_command_view. unfold command_view in V. congruence. Qed.

(** ** The invariant

    What the host holds is marked dirty; whatever is dirty has an owner that the
    next transition or command will clean up after.  [E] is the owner that the
    transition at hand has just revoked. *)

Definition dirty (s : hid_state) : Z := dirty_reports (s_owner_state s).

Definition neutral_host (s : hid_state) : Prop :=
  host_keyboard s = (0, no_keys) /\ host_mouse s = 0 /\ host_abs s = 0.

Definition host_accounted (s : hid_state) : Prop :=
  (0 <= dirty s < 8) /\
  (Z.testbit (dirty s) 0 = false -> host_keyboard s = (0, no_keys)) /\
  (Z.testbit (dirty s) 1 = false -> host_mouse s = 0) /\
  (Z.testbit (dirty s) 2 = false -> host_abs s = 0).

Definition dirty_owned (E : option si_hid_owner_token_t) (s : hid_state) : Prop :=
  dirty s <> 0 ->
  generation (report_owner (s_owner_state s)) <> 0 /\
  (neutral_pending (s_owner_state s) = true \/
   report_owner (s_owner_state s) = current (s_owner_state s) \/
   (snd <$> blocked s) = Some (report_owner (s_owner_state s)) \/
   E = Some (report_owner (s_owner_state s))).

Definition claim_ok (t : si_hid_owner_transition_t) : Prop :=
  authorize t = true -> si_hid_owner_claim_valid (Some (transition_claim t)) = true.

Record hid_ok (E : option si_hid_owner_token_t) (s : hid_state) : Prop := {
  ok_keys : keys_ok (s_key_count s) (s_keys s);
  ok_accounted : host_accounted s;
  ok_unmounted : hid_mounted s = false -> neutral_host s;
  ok_reset : s_mount_reset_pending s = true -> neutral_host s;
  ok_dirty : dirty_owned E s;
  ok_stack : tud_mounted s = s_mounted s;
  ok_gate : gate_free s = true -> blocked s = None;
  ok_blocked : blocked s <> None -> generation (current (s_owner_state s)) = 0;
  ok_none : generation (current (s_owner_state s)) = 0 -> current (s_owner_state s) = zero_token;
  ok_claim : forall t p, blocked s = Some (t, p) -> claim_ok t
}.

(** The part of the state that the invariant reads. *)
Definition ok_view (s : hid_state) :=
  (s_key_count s, s_keys s, s_owner_state s, host_keyboard s, host_mouse s, host_abs s,
   hid_mounted s, s_mount_reset_pending s, gate_free s, blocked s, tud_mounted s, s_mounted s).

Lemma hid_ok_view E s s' : ok_view s' = ok_view s -> hid_ok E s -> hid_ok E s'.
Proof.
  unfold ok_view. intros V [H1 H2 H3 H4 H5 H6 H7 H8 H9 H10].
  injection V as V1 V2 V3 V4 V5 V6 V7 V8 V9 V10 V11 V12.
  split; unfold host_accounted, neutral_host, dirty_owned, dirty in *; by rewrite
    ?V1, ?V2, ?V3, ?V4, ?V5, ?V6, ?V7, ?V8, ?V9, ?V10, ?V11, ?V12.
Qed.

Lemma neutral_forgets s : neutral_host (host_forgets s).
Proof. done. Qed.

Lemma accounted_neutral s : 0 <= dirty s < 8 -> neutral_host s -> host_accounted s.
Proof. intros Hd (Hk & Hm & Ha). unfold host_accounted. tauto. Qed.

Lemma dirty_zero_neutral s : host_accounted s -> dirty s = 0 -> neutral_host s.
Proof.
  intros (_ & Hk & Hm & Ha) Hd. rewrite Hd in *. split_and!; [apply Hk | apply Hm | apply Ha];
    reflexivity.
Qed.

Lemma start_claim t s r s' :
  owner_transition_start t s = (r, s') -> r <> TransitionRefused -> claim_ok t.
Proof.
  unfold owner_transition_start, claim_ok. intros St Hr Ha. rewrite Ha in St. cbn [andb] in St.
  destruct (si_hid_owner_claim_valid _); [done|]. cbn [negb] in St. by injection St as <- <-.
Qed.

Lemma hid_ok_event E s e : hid_ok E s -> hid_ok E (hid_event_apply s e).
Proof.
  intros Hok. pose proof Hok as [H1 H2 H3 H4 H5 Hstack H6 H7 H8 H9].
  destruct (event_apply_cases s e) as [->|[->|[->|(t & p & s' & -> & G & St & ->)]]];
    [split; try done; by apply accounted_neutral; [apply H2|] .. | done |].
  pose proof (transition_start_cases t s) as Ht. rewrite St in Ht.
  destruct Ht as (-> & o & ps & Ho & ->).
  assert (Hv : dirty_reports o = dirty s /\ report_owner o = report_owner (s_owner_state s) /\
               neutral_pending o = neutral_pending (s_owner_state s) /\
               generation (current o) = 0 /\ current o = zero_token).
  { destruct Ho as [[-> Hg] | ->]; [by split_and!; [..|apply H8] | done]. }
  destruct Hv as (Hd & Hr & Hn & Hg & Hz).
  split; try done.
  - unfold host_accounted, dirty in *. cbn. by rewrite Hd.
  - unfold dirty_owned, dirty in *. cbn. rewrite Hd, Hr, Hn. intros Hne.
    destruct (H5 Hne) as (Hgen & Hcase). split; [done|].
    destruct Hcase as [?|[Hcur|[Hb|?]]]; [by left | | |by right; right; right].
    + right; right; left. by rewrite Hcur.
    + by rewrite (H6 G) in Hb.
  - intros t' p' [= <- <-]. by apply (start_claim t s _ _ St).
Qed.

Lemma hid_ok_env E s s' : env s s' -> hid_ok E s -> hid_ok E s'.
Proof.
  apply (env_rel (kept (hid_ok E))).
  - intros s0 ts H. by apply (hid_ok_view E s0).
  - intros s0 e H. by apply hid_ok_event.
  - intros s0 H. by apply (hid_ok_view E s0).
Qed.

(** ** One report

    A failed report leaves the state to the environment.  A report that goes out
    was still allowed when it was last checked, one read before. *)

Definition report_accepted (report : hid_state -> hid_report) (mask : Z)
    (neutral : hid_state -> bool) (s : hid_state) : hid_state :=
  let s := host_receives (report s) s in
  with_owner_state (fun o => si_hid_owner_state_note_report o mask (neutral s)) s.

Lemma can_emit_spec s :
  wp active_command_can_emit
    (fun b s' => env s s' /\ (b = true -> s' = s /\ active_command_aborted s = false)) s.
Proof.
  unfold active_command_can_emit. wp_step. wp_step.
  destruct (active_command_aborted s) eqn:A; cbn [negb].
  - wp_step. wp_step. wp_step. split; [apply env_once, env_refused | done].
  - wp_step. by split; [|intros _].
Qed.

Lemma can_emit_env : moves env active_command_can_emit.
Proof. intros s. apply (can_emit_spec s). Qed.

Lemma poll_env : moves env poll.
Proof. intros s. apply env_once, env_poll. Qed.

#[export] Hint Resolve can_emit_env poll_env : firmware.

Lemma poll_flag_env : moves env poll_flag.
Proof. unfold poll_flag. moves_go. Qed.

Lemma n_ready_env itf : moves env (tud_hid_n_ready itf).
Proof. unfold tud_hid_n_ready, poll_flag. moves_go. Qed.

#[export] Hint Resolve poll_flag_env n_ready_env : firmware.

Lemma wait_loop_env fuel itf t : moves env (wait_ready_loop fuel itf t).
Proof. induction fuel as [|fuel IH]; cbn [wait_ready_loop]; moves_go. Qed.

#[export] Hint Resolve wait_loop_env : firmware.

Lemma wait_ready_env itf t : moves env (wait_hid_ready itf t).
Proof. unfold wait_hid_ready. moves_go. Qed.

Lemma tud_hid_report_wp r (Q : bool -> hid_state -> Prop) s :
  (tud_mounted (poll s).2 = true -> Q true (host_receives r (poll s).2)) ->
  Q false (poll s).2 -> wp (tud_hid_report r) Q s.
Proof.
  intros Ht Hf. unfold wp, tud_hid_report, poll_flag, bind, gets, when, modify.
  destruct (poll s) as [t s1]. cbn [fst snd mret st_ret] in *.
  destruct (tud_mounted s1) eqn:M; cbn; [|exact Hf]. destruct (flag t); cbn; [by apply Ht | exact Hf].
Qed.

Lemma send_report_spec itf t report mask neutral s :
  (forall s s', input_state s' = input_state s -> report s' = report s) ->
  wp (send_report itf t report mask neutral)
    (fun ok s' =>
       if ok then
         exists s0, env s s0 /\ active_command_aborted s0 = false /\
           tud_mounted (poll s0).2 = true /\
           s' = report_accepted report mask neutral (poll s0).2
       else env s s') s.
Proof.
  intros Hrep. unfold send_report. wp_step.
  assert (Hready : wp (active_command_can_emit &&& wait_hid_ready itf t &&& active_command_can_emit)
            (fun b s' => env s s' /\ (b = true -> active_command_aborted s' = false)) s).
  { apply wp_and_then. apply wp_mono with (fun _ => env s).
    { exact (moves_and_then _ _ _ can_emit_env (wait_ready_env itf t) s). }
    intros [] s1 H1; [|done]. eapply wp_mono; [apply can_emit_spec|].
    cbn. intros b s2 [H2 Hb]. split; [by etrans|]. intros ->. by destruct (Hb eq_refl) as [-> ?]. }
  eapply wp_mono; [exact Hready|]. cbn. intros ready s0 [He Ha].
  destruct ready; cbn [negb]; [|by wp_step]. specialize (Ha eq_refl).
  wp_step. wp_step.
  assert (Hsame : report s0 = report (poll s0).2).
  { symmetry. apply Hrep. apply env_input_state, env_once, env_poll. }
  wp_step. apply tud_hid_report_wp.
  - intros Hm. unfold note_report. wp_steps; [|done]. exists s0. by rewrite Hsame.
  - wp_steps; [done|]. etrans; [exact He | apply env_once, env_poll].
Qed.

(** The three endpoints, uniformly. *)
Definition itf_mask (itf : hid_itf) : Z :=
  match itf with
  | HID_ITF_KEYBOARD => SI_HID_REPORT_DIRTY_KEYBOARD
  | HID_ITF_MOUSE => SI_HID_REPORT_DIRTY_MOUSE
  | HID_ITF_ABS_POINTER => SI_HID_REPORT_DIRTY_ABS_POINTER
  end.

Definition itf_neutral (itf : hid_itf) (s : hid_state) : bool :=
  match itf with
  | HID_ITF_KEYBOARD => (s_modifiers s =? 0) && (s_key_count s =? 0)%nat
  | HID_ITF_MOUSE => s_mouse_buttons s =? 0
  | HID_ITF_ABS_POINTER => s_abs_buttons s =? 0
  end.

Definition itf_report (itf : hid_itf) (report : hid_state -> hid_report) : Prop :=
  match itf with
  | HID_ITF_KEYBOARD => report = fun s => keyboard_report (s_modifiers s) (s_keys s)
  | HID_ITF_MOUSE =>
      exists x y wheel pan, report = fun s => mouse_report (s_mouse_buttons s) x y wheel pan
  | HID_ITF_ABS_POINTER =>
      report = fun s => abs_report [s_abs_buttons s;
        Z.land (s_abs_x s) 255; Z.shiftr (s_abs_x s) 8;
        Z.land (s_abs_y s) 255; Z.shiftr (s_abs_y s) 8]
  end.

Definition itf_bit (itf : hid_itf) : Z :=
  match itf with HID_ITF_KEYBOARD => 0 | HID_ITF_MOUSE => 1 | HID_ITF_ABS_POINTER => 2 end.

Lemma itf_report_input itf report s s' :
  itf_report itf report -> input_state s' = input_state s -> report s' = report s.
Proof.
  intros Hr E. injection E as E1 E2 E3 E4 E5 E6 E7.
  destruct itf; cbn in Hr; [subst; congruence | destruct Hr as (? & ? & ? & ? & ->) | subst];
    congruence.
Qed.

(** The dirty bit of an endpoint after a report. *)
Definition noted (itf : hid_itf) (neutral : bool) (d : Z) : Z :=
  if neutral then Z.land d (u8 (Z.lnot (itf_mask itf))) else Z.lor d (itf_mask itf).

Lemma noted_bits itf neutral d :
  0 <= d < 8 ->
  0 <= noted itf neutral d < 8 /\ Z.testbit (noted itf neutral d) (itf_bit itf) = negb neutral /\
  forall itf', itf' <> itf ->
    Z.testbit (noted itf neutral d) (itf_bit itf') = Z.testbit d (itf_bit itf').
Proof.
  intros Hd.
  assert (C : d = 0 \/ d = 1 \/ d = 2 \/ d = 3 \/ d = 4 \/ d = 5 \/ d = 6 \/ d = 7) by lia.
  clear Hd. destruct C as [->|[->|[->|[->|[->|[->|[->| ->]]]]]]]; destruct itf, neutral;
    (split; [vm_compute; by split | split; [done|]]); intros []; done.
Qed.

(** The endpoint's held input, and how a report sets it. *)
Definition itf_released (itf : hid_itf) (s : hid_state) : Prop :=
  match itf with
  | HID_ITF_KEYBOARD => host_keyboard s = (0, no_keys)
  | HID_ITF_MOUSE => host_mouse s = 0
  | HID_ITF_ABS_POINTER => host_abs s = 0
  end.

Lemma accounted_by_itf s :
  host_accounted s <->
  0 <= dirty s < 8 /\
  forall itf, Z.testbit (dirty s) (itf_bit itf) = false -> itf_released itf s.
Proof.
  unfold host_accounted. split.
  - intros (Hd & Hk & Hm & Ha). split; [done|]. by intros [].
  - intros (Hd & H). split; [done|].
    split; [apply (H HID_ITF_KEYBOARD) | split; [apply (H HID_ITF_MOUSE) | apply (H HID_ITF_ABS_POINTER)]].
Qed.

Lemma neutral_by_itf s : neutral_host s <-> forall itf, itf_released itf s.
Proof.
  split; [by intros (? & ? & ?) []|]. intros H.
  split; [apply (H HID_ITF_KEYBOARD) | split; [apply (H HID_ITF_MOUSE) | apply (H HID_ITF_ABS_POINTER)]].
Qed.

Lemma host_receives_other itf itf' report s :
  itf_report itf report -> itf' <> itf ->
  itf_released itf' (host_receives (report s) s) = itf_released itf' s.
Proof.
  intros Hr Hne. destruct itf; cbn in Hr; [subst | destruct Hr as (? & ? & ? & ? & ->) | subst];
    by destruct itf'.
Qed.

Lemma host_receives_neutral itf report s :
  itf_report itf report -> keys_ok (s_key_count s) (s_keys s) -> itf_neutral itf s = true ->
  itf_released itf (host_receives (report s) s).
Proof.
  intros Hr Hk Hn. destruct itf; cbn in Hr;
    [subst | destruct Hr as (? & ? & ? & ? & ->) | subst]; cbn in *; split_guards; to_props.
  - rewrite H0 in Hk. apply keys_ok_zero in Hk. f_equal; [done | exact Hk].
  - done.
  - done.
Qed.

Lemma accepted_owner itf report s :
  let o := s_owner_state (report_accepted report (itf_mask itf) (itf_neutral itf) s) in
  current o = current (s_owner_state s) /\
  report_owner o = report_owner (s_owner_state s) /\
  neutral_pending o = neutral_pending (s_owner_state s) /\
  dirty_reports o = if generation (report_owner (s_owner_state s)) =? 0 then dirty s
                    else noted itf (itf_neutral itf s) (dirty s).
Proof.
  unfold report_accepted. cbv zeta.
  assert (E : itf_neutral itf (host_receives (report s) s) = itf_neutral itf s)
    by by destruct (report s), itf.
  assert (Eo : s_owner_state (host_receives (report s) s) = s_owner_state s)
    by by destruct (report s).
  cbn [s_owner_state with_owner_state set]. rewrite E, Eo. clear E Eo.
  unfold si_hid_owner_state_note_report, noted, dirty.
  assert ((itf_mask itf =? 0) = false) as -> by (by destruct itf). cbn [orb].
  case_if; [done|]. by destruct (itf_neutral itf s).
Qed.

Lemma accepted_rest report mask neutral s :
  let s' := report_accepted report mask neutral s in
  (input_state s', s_installed s', hid_mounted s', s_mount_reset_pending s', gate_free s',
   blocked s', tud_mounted s', s_mounted s', s_command_active s', s_abort_fence s',
   s_active_command_generation s', s_command_send_ok s', ticks s') =
  (input_state s, s_installed s, hid_mounted s, s_mount_reset_pending s, gate_free s,
   blocked s, tud_mounted s, s_mounted s, s_command_active s, s_abort_fence s,
   s_active_command_generation s, s_command_send_ok s, ticks s) /\
  (forall itf, itf_released itf s' = itf_released itf (host_receives (report s) s)).
Proof. unfold report_accepted. cbv zeta. destruct (report s); split; done. Qed.

(** A report may go out when it is neutral, or under the report owner. *)
Definition may_hold (s : hid_state) : Prop :=
  generation (report_owner (s_owner_state s)) <> 0 /\
  (report_owner (s_owner_state s) = current (s_owner_state s) \/
   (snd <$> blocked s) = Some (report_owner (s_owner_state s))) /\
  s_installed s = true /\ (s_mount_reset_pending s = true -> tud_mounted s = false).

Lemma hid_ok_accepted E itf report s :
  itf_report itf report -> hid_ok E s -> tud_mounted s = true ->
  itf_neutral itf s = true \/ may_hold s ->
  hid_ok E (report_accepted report (itf_mask itf) (itf_neutral itf) s).
Proof.
  intros Hr [H1 H2 H3 H4 H5 H6 H7 H8 H9 H10] Hm Hn.
  pose proof (accepted_owner itf report s) as (Ec & Er & En & Ed).
  pose proof (accepted_rest report (itf_mask itf) (itf_neutral itf) s) as [Eq Erel].
  set (s' := report_accepted _ _ _ s) in *. fold (dirty s') in Ed. clearbody s'.
  injection Eq as _ Ekeys Ecount _ _ _ _ _ Emounted Ereset Egate Eblocked Etud Esm _ _ _ _ _.
  pose proof (proj1 (accounted_by_itf s) H2) as [Hd Hacc].
  destruct (noted_bits itf (itf_neutral itf s) (dirty s) Hd) as (Hd' & Hbit & Hother).
  assert (Hrel : forall itf', (itf' <> itf \/ itf_neutral itf s = true) ->
            itf_released itf' s -> itf_released itf' s').
  { intros itf' Hc Hrel. rewrite Erel. destruct (decide (itf' = itf)) as [->|Hne].
    - apply host_receives_neutral; [done | done |]. by destruct Hc.
    - by rewrite (host_receives_other itf itf'). }
  assert (Hall : neutral_host s -> itf_neutral itf s = true -> neutral_host s').
  { intros Hs Ht. apply neutral_by_itf. intros itf'. apply Hrel; [by right|].
    by apply neutral_by_itf. }
  assert (Hzero : generation (report_owner (s_owner_state s)) = 0 -> dirty s = 0).
  { intros Hg. apply dec_stable. intros Hne. by destruct (H5 Hne). }
  split.
  - by rewrite Ekeys, Ecount.
  - apply accounted_by_itf. rewrite Ed.
    destruct (Z.eqb_spec (generation (report_owner (s_owner_state s))) 0) as [Hg|Hg].
    + destruct Hn as [Hn|[Hg' _]]; [|done]. split; [done|]. intros itf' _.
      apply Hrel; [by right|]. apply Hacc. rewrite (Hzero Hg). apply Z.bits_0.
    + split; [done|]. intros itf' Hb. destruct (decide (itf' = itf)) as [->|Hne].
      * rewrite Hbit in Hb. apply negb_false_iff in Hb.
        rewrite Erel. by apply host_receives_neutral.
      * rewrite Hother in Hb by done. apply Hrel; [by left|]. by apply Hacc.
  - rewrite Emounted. intros Hu. destruct Hn as [Hn|(_ & _ & Hi & _)]; [by apply Hall; [apply H3|]|].
    unfold hid_mounted in Hu. by rewrite Hi, Hm, <- H6, Hm in Hu.
  - rewrite Ereset. intros Hp. destruct Hn as [Hn|(_ & _ & _ & Hq)]; [by apply Hall; [apply H4|]|].
    by rewrite (Hq Hp) in Hm.
  - unfold dirty_owned. rewrite Ed, Ec, Er, En, Eblocked. intros Hne.
    destruct (Z.eqb_spec (generation (report_owner (s_owner_state s))) 0) as [Hg|Hg].
    + by rewrite (Hzero Hg) in Hne.
    + split; [done|]. destruct Hn as [Hn|(_ & Ho & _)]; [|tauto].
      destruct (decide (dirty s = 0)) as [E0|E0]; [|by apply (H5 E0)].
      exfalso. apply Hne. rewrite E0, Hn. by destruct itf.
  - by rewrite Etud, Esm.
  - by rewrite Egate, Eblocked.
  - by rewrite Eblocked, Ec.
  - by rewrite Ec.
  - intros t p. rewrite Eblocked. apply H10.
Qed.

(** ** Reports of a command, and neutral reports *)

Definition cmd_ok (s : hid_state) : Prop :=
  hid_ok None s /\ may_hold s /\ Forall quiet_tick (ticks s).

Lemma may_hold_event s e :
  hid_ok None s -> e <> EvAttached -> may_hold s -> may_hold (hid_event_apply s e).
Proof.
  intros Hok He (Hg & Ho & Hi & Hp).
  destruct (event_apply_cases s e) as [->|[->|[->|(t & p & s' & -> & G & St & ->)]]];
    [done | done | done |].
  pose proof (transition_start_cases t s) as Ht. rewrite St in Ht.
  destruct Ht as (-> & o & ps & Hcase & ->).
  assert (Er : report_owner o = report_owner (s_owner_state s)) by by destruct Hcase as [[-> _] | ->].
  unfold may_hold. cbn. rewrite Er. split_and!; [done | | done | done].
  destruct Ho as [->|Hb]; [by right|]. by rewrite (ok_gate _ _ Hok G) in Hb.
Qed.

Lemma cmd_ok_poll s : cmd_ok s -> cmd_ok (poll s).2.
Proof.
  intros Hs. unfold poll. destruct (ticks s) as [|t ts] eqn:Et; [done|].
  destruct Hs as (Hok & Hm & Hq). rewrite Et in Hq. cbn [snd]. apply Forall_cons in Hq as [Hq Hqs].
  assert (H0 : cmd_ok (s <| ticks := ts |>))
    by (split; [by apply (hid_ok_view None s) | by split]).
  revert H0. generalize (s <| ticks := ts |>). clear Et Hok Hm Hqs.
  unfold quiet_tick in Hq. induction (events t) as [|e es IH]; intros s0 H0; [done|].
  apply not_elem_of_cons in Hq as [He Hes]. cbn [fold_left]. apply (IH Hes).
  destruct H0 as (Hok & Hm & Hq). split; [by apply hid_ok_event|].
  split; [by apply may_hold_event|].
  destruct (event_apply_cases s0 e) as [->|[->|[->|(t' & p & s' & -> & G & St & ->)]]]; [done..|].
  pose proof (transition_start_cases t' s0) as Ht. rewrite St in Ht.
  by destruct Ht as (-> & o & ps & _ & ->).
Qed.

Lemma cmd_ok_env s s' : env s s' -> cmd_ok s -> cmd_ok s'.
Proof.
  intros H. induction H as [|s s1 s2 H1 _ IH]; [done|]. intros Hs. apply IH.
  destruct H1; [by apply cmd_ok_poll|].
  destruct Hs as (Hok & Hm & Hq). split; [by apply (hid_ok_view None s) | by split].
Qed.

Lemma send_cmd_ok itf t report :
  itf_report itf report ->
  moves (kept cmd_ok) (send_report itf t report (itf_mask itf) (itf_neutral itf)).
Proof.
  intros Hr. apply wp_kept. intros s Hs. eapply wp_mono.
  { apply send_report_spec. intros s1 s2. by apply (itf_report_input itf). }
  cbn. intros [] s'; [|by intros H; apply (cmd_ok_env _ _ H)].
  intros (s0 & H0 & _ & Hm & ->).
  assert (H1 : cmd_ok (poll s0).2) by (apply cmd_ok_poll; by apply (cmd_ok_env _ _ H0)).
  destruct H1 as (Hok & Hmay & Hq).
  split; [by apply hid_ok_accepted; [..|right]|].
  pose proof (accepted_owner itf report (poll s0).2) as (Ec & Er & _ & _).
  pose proof (accepted_rest report (itf_mask itf) (itf_neutral itf) (poll s0).2) as [Eq _].
  set (s' := report_accepted _ _ _ _) in *. clearbody s'. revert Hmay Hq Ec Er Eq.
  generalize (poll s0).2. intros s1 (Hg & Ho & Hi & Hp) Hq Ec Er Eq.
  assert (Eb : blocked s' = blocked s1) by congruence.
  assert (Ei : s_installed s' = s_installed s1) by congruence.
  assert (Ep : s_mount_reset_pending s' = s_mount_reset_pending s1) by congruence.
  assert (Et : tud_mounted s' = tud_mounted s1) by congruence.
  assert (Ek : ticks s' = ticks s1) by congruence.
  unfold may_hold. by rewrite Ec, Er, Eb, Ei, Ep, Et, Ek.
Qed.

(** A neutral report releases its endpoint and dirties nothing. *)
Definition releases (itf : hid_itf) (ok : bool) (s s' : hid_state) : Prop :=
  input_state s' = input_state s /\
  (forall i, Z.testbit (dirty s') (itf_bit i) = true -> Z.testbit (dirty s) (itf_bit i) = true) /\
  (ok = true -> Z.testbit (dirty s') (itf_bit itf) = false).

Lemma env_dirty s s' : env s s' -> dirty s' = dirty s.
Proof. intros V%env_command_view. unfold command_view in V. unfold dirty. congruence. Qed.

Lemma send_neutral E itf t report s :
  itf_report itf report -> hid_ok E s -> itf_neutral itf s = true ->
  wp (send_report itf t report (itf_mask itf) (itf_neutral itf))
    (fun ok s' => hid_ok E s' /\ releases itf ok s s') s.
Proof.
  intros Hr Hok Hn. eapply wp_mono.
  { apply send_report_spec. intros s1 s2. by apply (itf_report_input itf). }
  cbn. intros [] s' H.
  2: { split; [by apply (hid_ok_env _ _ _ H)|].
       split; [by apply env_input_state|]. by rewrite (env_dirty _ _ H). }
  destruct H as (s0 & H0 & _ & Hm & ->).
  assert (H1 : env s (poll s0).2) by (etrans; [exact H0 | apply env_once, env_poll]).
  pose proof (hid_ok_env _ _ _ H1 Hok) as Hok1.
  pose proof (env_input_state _ _ H1) as Ei. pose proof (env_dirty _ _ H1) as Ed.
  revert Hm Hok1 Ei Ed. generalize (poll s0).2. clear s0 H0 H1. intros s1 Hm Hok1 Ei Ed.
  assert (Hn1 : itf_neutral itf s1 = true).
  { unfold input_state in Ei. rewrite <- Hn. destruct itf; cbn; [f_equal; f_equal|..]; congruence. }
  split; [by apply hid_ok_accepted; [..|left]|].
  pose proof (accepted_owner itf report s1) as (_ & _ & _ & Ed').
  pose proof (accepted_rest report (itf_mask itf) (itf_neutral itf) s1) as [Eq _].
  set (s' := report_accepted _ _ _ s1) in *. fold (dirty s') in Ed'. clearbody s'.
  pose proof (proj1 (accounted_by_itf s1) (ok_accounted _ _ Hok1)) as [Hd _].
  destruct (noted_bits itf true (dirty s1) Hd) as (_ & Hbit & Hother).
  split; [congruence|]. rewrite Hn1, Ed in Ed'. rewrite Ed in *.
  destruct (Z.eqb_spec (generation (report_owner (s_owner_state s1))) 0) as [Hg|Hg]; rewrite Ed'.
  - assert (dirty s = 0) as ->; [|by split; [|intros _; apply Z.bits_0]].
    rewrite <- Ed. apply dec_stable. intros Hne. by destruct (ok_dirty _ _ Hok1 Hne).
  - split; [|by intros _]. intros i. destruct (decide (i = itf)) as [->|Hne]; [by rewrite Hbit|].
    by rewrite Hother.
Qed.

(** ** Recording the result *)

Definition send_recorded (itf : hid_itf) (t : Z) (report : hid_state -> hid_report)
    (error : cstring) : st hid_state unit :=
  ok ← send_report itf t report (itf_mask itf) (itf_neutral itf); record_send_result ok error.

Lemma send_keyboard_recorded :
  exists t report error, itf_report HID_ITF_KEYBOARD report /\
    send_keyboard = send_recorded HID_ITF_KEYBOARD t report error.
Proof. by eexists _, _, _. Qed.

Lemma send_mouse_recorded x y wheel pan t :
  exists report error, itf_report HID_ITF_MOUSE report /\
    send_mouse x y wheel pan t = send_recorded HID_ITF_MOUSE t report error.
Proof. eexists _, _. split; [by eexists _, _, _, _ | done]. Qed.

Lemma send_abs_recorded t :
  exists report error, itf_report HID_ITF_ABS_POINTER report /\
    send_abs t = send_recorded HID_ITF_ABS_POINTER t report error.
Proof. by eexists _, _. Qed.

Lemma record_view E ok error s :
  wp (record_send_result ok error) (fun _ s' =>
    (hid_ok E s -> hid_ok E s') /\ (cmd_ok s -> cmd_ok s') /\
    input_state s' = input_state s /\ dirty s' = dirty s /\
    s_command_send_ok s' = s_command_send_ok s && ok) s.
Proof.
  assert (Hview : forall s', ok_view s' = ok_view s ->
    (s_owner_state s', blocked s', s_installed s', s_mount_reset_pending s', tud_mounted s',
     ticks s') = (s_owner_state s, blocked s, s_installed s, s_mount_reset_pending s,
     tud_mounted s, ticks s) -> cmd_ok s -> cmd_ok s').
  { intros s' V F (Hok & Hmay & Hq). split; [by apply (hid_ok_view None s)|].
    injection F as F1 F2 F3 F4 F5 F6. unfold may_hold in *. by rewrite F1, F2, F3, F4, F5, F6. }
  unfold record_send_result. wp_steps;
    (split; [by intros; apply (hid_ok_view E s) | split; [by apply Hview | done]]).
Qed.

Lemma send_recorded_cmd_ok itf t report error :
  itf_report itf report -> moves (kept cmd_ok) (send_recorded itf t report error).
Proof.
  intros Hr. apply moves_bind; [apply _ | by apply send_cmd_ok|].
  intros ok. apply wp_kept. intros s Hs. eapply wp_mono; [by apply (record_view None)|].
  cbn. intros _ s' (_ & H & _). by apply H.
Qed.

Lemma env_send_ok s s' : env s s' -> s_command_send_ok s = false -> s_command_send_ok s' = false.
Proof.
  apply (env_rel (kept (fun s => s_command_send_ok s = false))); [intros s0 ts H; exact H | | by intros s0 _].
  intros s0 e. destruct (event_apply_cases s0 e) as [->|[->|[->|(t' & p & s1 & -> & G & St & ->)]]];
    [intros H; exact H ..|].
  pose proof (transition_start_cases t' s0) as Ht. rewrite St in Ht.
  destruct Ht as (-> & o & ps & _ & ->). intros H. exact H.
Qed.

Lemma send_ok_monotone itf t report s :
  itf_report itf report ->
  wp (send_report itf t report (itf_mask itf) (itf_neutral itf))
    (fun _ s' => s_command_send_ok s = false -> s_command_send_ok s' = false) s.
Proof.
  intros Hr. eapply wp_mono.
  { apply send_report_spec. intros s1 s2. by apply (itf_report_input itf). }
  cbn. intros [] s'; [|apply env_send_ok]. intros (s0 & H0 & _ & _ & ->) Hs.
  pose proof (accepted_rest report (itf_mask itf) (itf_neutral itf) (poll s0).2) as [Eq _].
  enough (s_command_send_ok (poll s0).2 = false) by congruence.
  apply (env_send_ok s); [etrans; [exact H0 | apply env_once, env_poll] | done].
Qed.

(** After a recorded neutral report: the endpoint is clean if all still went well. *)
Definition released (itf : hid_itf) (s s' : hid_state) : Prop :=
  input_state s' = input_state s /\
  (forall i, Z.testbit (dirty s') (itf_bit i) = true -> Z.testbit (dirty s) (itf_bit i) = true) /\
  (s_command_send_ok s' = true ->
   s_command_send_ok s = true /\ Z.testbit (dirty s') (itf_bit itf) = false).

Lemma send_recorded_neutral E itf t report error s :
  itf_report itf report -> hid_ok E s -> itf_neutral itf s = true ->
  wp (send_recorded itf t report error) (fun _ s' => hid_ok E s' /\ released itf s s') s.
Proof.
  intros Hr Hok Hn. apply wp_bind. eapply wp_mono.
  { apply wp_conj; [by apply (send_neutral E) | by apply send_ok_monotone]. }
  cbn. intros ok s1 [(Hok1 & Hi & Hd & Hb) Hm].
  eapply wp_mono; [apply (record_view E)|]. cbn. intros _ s2 (H1 & _ & H3 & H4 & H5).
  split; [by apply H1|]. split; [congruence|]. rewrite H4, H5. split; [done|].
  intros [Hs ->]%andb_prop. split; [|by apply Hb].
  apply not_false_iff_true. intros Hf. by rewrite (Hm Hf) in Hs.
Qed.

(** ** Releasing everything *)

Lemma bits_of_dirty d :
  0 <= d < 8 ->
  (forall itf, negb (Z.land d (itf_mask itf) =? 0) = Z.testbit d (itf_bit itf)) /\
  ((forall itf, Z.testbit d (itf_bit itf) = false) -> d = 0).
Proof.
  intros Hd.
  assert (C : d = 0 \/ d = 1 \/ d = 2 \/ d = 3 \/ d = 4 \/ d = 5 \/ d = 6 \/ d = 7) by lia.
  clear Hd. split.
  - intros itf. destruct C as [->|[->|[->|[->|[->|[->|[->| ->]]]]]]]; by destruct itf.
  - intros H. pose proof (H HID_ITF_KEYBOARD) as H0. pose proof (H HID_ITF_MOUSE) as H1.
    pose proof (H HID_ITF_ABS_POINTER) as H2.
    destruct C as [->|[->|[->|[->|[->|[->|[->| ->]]]]]]]; done.
Qed.

Lemma release_stage E itf m s :
  (exists t report error, itf_report itf report /\ m = send_recorded itf t report error) ->
  hid_ok E s -> itf_neutral itf s = true ->
  wp (when (report_dirty (itf_mask itf) s) m) (fun _ s' => hid_ok E s' /\ released itf s s') s.
Proof.
  intros (t & report & error & Hr & ->) Hok Hn. apply wp_when; intros Hd.
  { by apply send_recorded_neutral. }
  split; [done|]. split; [done|]. split; [done|]. intros Hs. split; [done|].
  rewrite <- Hd. symmetry. apply bits_of_dirty, (ok_accounted _ _ Hok).
Qed.

Lemma release_all_spec E s :
  hid_ok E s ->
  wp release_all_locked (fun _ s' =>
    hid_ok E s' /\ (s_command_send_ok s' = true -> dirty s' = 0)) s.
Proof.
  intros Hok. unfold release_all_locked. do 2 wp_step.
  assert (Hok0 : hid_ok E (reset_keys s)).
  { destruct Hok. split; try done. apply keys_ok_none. }
  set (s0 := reset_keys s) in *. assert (Hn0 : itf_neutral HID_ITF_KEYBOARD s0 = true) by done.
  clearbody s0. do 3 wp_step.
  eapply wp_mono; [apply (release_stage E HID_ITF_KEYBOARD); [apply send_keyboard_recorded | done..]|].
  cbn. intros _ s1 (Hok1 & _ & Hd1 & Hb1). do 2 wp_step.
  assert (Hok1' : hid_ok E (s1 <| s_mouse_buttons := 0 |>)) by by apply (hid_ok_view E s1).
  change (dirty s1) with (dirty (s1 <| s_mouse_buttons := 0 |>)) in *.
  change (s_command_send_ok s1) with (s_command_send_ok (s1 <| s_mouse_buttons := 0 |>)) in *.
  set (s1' := s1 <| s_mouse_buttons := 0 |>) in *.
  assert (Hn1 : itf_neutral HID_ITF_MOUSE s1' = true) by done. clearbody s1'. do 3 wp_step.
  eapply wp_mono; [apply (release_stage E HID_ITF_MOUSE); [eexists; apply send_mouse_recorded | done..]|].
  cbn. intros _ s2 (Hok2 & _ & Hd2 & Hb2). do 2 wp_step.
  assert (Hok2' : hid_ok E (s2 <| s_abs_buttons := 0 |>)) by by apply (hid_ok_view E s2).
  change (dirty s2) with (dirty (s2 <| s_abs_buttons := 0 |>)) in *.
  change (s_command_send_ok s2) with (s_command_send_ok (s2 <| s_abs_buttons := 0 |>)) in *.
  set (s2' := s2 <| s_abs_buttons := 0 |>) in *.
  assert (Hn2 : itf_neutral HID_ITF_ABS_POINTER s2' = true) by done. clearbody s2'. do 2 wp_step.
  eapply wp_mono; [apply (release_stage E HID_ITF_ABS_POINTER); [eexists; apply send_abs_recorded | done..]|].
  cbn. intros _ s3 (Hok3 & _ & Hd3 & Hb3). split; [done|]. intros Hs3.
  destruct (Hb3 Hs3) as [Hs2 Hz3]. destruct (Hb2 Hs2) as [Hs1 Hz2]. destruct (Hb1 Hs1) as [_ Hz1].
  apply bits_of_dirty; [apply (ok_accounted _ _ Hok3)|]. intros itf. apply not_true_iff_false.
  intros Ht. destruct itf; [| |congruence].
  - apply (Hd3 HID_ITF_KEYBOARD), (Hd2 HID_ITF_KEYBOARD) in Ht. congruence.
  - apply (Hd3 HID_ITF_MOUSE) in Ht. congruence.
Qed.

(** Forgetting the owner bookkeeping of a neutral host. *)
Lemma hid_ok_clean E E' s o :
  hid_ok E s -> neutral_host s -> dirty_reports o = 0 ->
  current o = current (s_owner_state s) -> hid_ok E' (with_owner_state (fun _ => o) s).
Proof.
  intros [H1 H2 H3 H4 H5 H6 H7 H8 H9 H10] Hn Hd Hc.
  assert (Hd0 : dirty (with_owner_state (fun _ => o) s) = 0) by done.
  split; try done.
  - apply accounted_neutral; [unfold dirty; cbn; lia | done].
  - intros Hb. cbn. rewrite Hc. by apply H8.
  - cbn. by rewrite Hc.
Qed.

Lemma hid_ok_reset_report E s : hid_ok E s -> hid_ok E (reset_report_state s).
Proof. intros []. split; try done. apply keys_ok_none. Qed.

Lemma host_reset_clean E E' s :
  hid_ok E s -> neutral_host s ->
  hid_ok E' (with_owner_state si_hid_owner_state_host_reset s).
Proof. intros Hok Hn. by apply (hid_ok_clean E E' s (si_hid_owner_state_host_reset (s_owner_state s))). Qed.

Lemma mount_reset_spec E s :
  hid_ok E s ->
  wp apply_mount_reset_locked (fun b s' =>
    hid_ok E s' /\ s_mount_reset_pending s' = false /\
    hid_mounted s' = hid_mounted s /\ ticks s' = ticks s /\ blocked s' = blocked s /\
    current (s_owner_state s') = current (s_owner_state s) /\
    tud_mounted s' = tud_mounted s /\ gate_free s' = gate_free s /\
    if b then dirty s' = 0 else s_owner_state s' = s_owner_state s) s.
Proof.
  intros Hok. unfold apply_mount_reset_locked. do 4 wp_step.
  assert (H0 : hid_ok E (s <| s_mount_reset_pending := false |>)) by by destruct Hok; split.
  destruct (s_mount_reset_pending s) eqn:P; cbn [negb]; wp_steps; [|done].
  split; [|done]. apply (host_reset_clean E); [by apply hid_ok_reset_report|].
  apply (ok_reset _ _ Hok P).
Qed.

Lemma drain_spec E s :
  hid_ok E s ->
  wp drain_neutral_pending_locked (fun b s' =>
    hid_ok E s' /\ if b then dirty s' = 0 else neutral_pending (s_owner_state s') = true) s.
Proof.
  intros Hok. unfold drain_neutral_pending_locked. wp_step.
  eapply wp_mono; [by apply (mount_reset_spec E)|]. cbn.
  intros [] s1 (Hok1 & _ & _ & _ & _ & _ & _ & _ & Hb); [by wp_step|].
  do 3 wp_step. apply (hid_ok_reset_report E) in Hok1. set (s2 := reset_report_state s1) in *.
  clearbody s2. wp_step. destruct (hid_mounted s2) eqn:Hm; cbn [negb].
  2: { wp_steps. split; [|done]. apply (host_reset_clean E); [done | by apply (ok_unmounted _ _ Hok1)]. }
  do 2 wp_step. wp_step. eapply wp_mono.
  { apply (release_all_spec E). by apply (hid_ok_view E s2). }
  cbn. intros _ s3 [Hok3 Hz]. do 2 wp_step. unfold neutral_still_pending. fold (dirty s3).
  assert (Hd : negb (s_command_send_ok s3) || negb (dirty s3 =? 0) = false -> dirty s3 = 0).
  { intros H. split_guards. by to_props. }
  destruct (negb (s_command_send_ok s3) || negb (dirty s3 =? 0)) eqn:Hp; cbn [negb].
  - wp_steps; [done|]. split; [|done].
    pose proof (ok_dirty _ _ Hok3) as Hdirty. destruct Hok3. split; try done.
    unfold dirty_owned. cbn. intros Hne. split; [by apply Hdirty | by left].
  - wp_steps; [|done]. split; [|by apply Hd].
    apply (hid_ok_clean E E s3); [done | apply dirty_zero_neutral; [apply Hok3 | by apply Hd] | by apply Hd | done].
Qed.

Lemma neutralize_spec s :
  hid_ok None s ->
  wp neutralize_aborted_command_locked (fun b s' =>
    hid_ok None s' /\ (b = false -> s' = s /\ active_command_aborted s = false)) s.
Proof.
  intros Hok. unfold neutralize_aborted_command_locked. do 2 wp_step.
  destruct (s_command_was_aborted s); [by wp_step|]. do 2 wp_step.
  destruct (active_command_aborted s) eqn:A; cbn [negb]; [|by wp_step].
  do 3 wp_step. eapply wp_mono.
  { apply (release_all_spec None). by apply (hid_ok_view None s). }
  cbn. intros _ s' [H _]. by wp_step.
Qed.

(** While the gate is held, nobody else touches the ownership. *)
Definition gate_view (s : hid_state) :=
  (blocked s, current (s_owner_state s), next_generation_counter (s_owner_state s)).

Definition gate_holds (s s' : hid_state) : Prop :=
  gate_free s = false -> gate_free s' = false /\ gate_view s' = gate_view s.

#[export] Instance gate_holds_refl : Reflexive gate_holds.
Proof. by intros s Hg. Qed.
#[export] Instance gate_holds_trans : Transitive gate_holds.
Proof.
  intros s1 s2 s3 H1 H2 Hg. destruct (H1 Hg) as [Hg2 E2]. destruct (H2 Hg2) as [Hg3 E3].
  split; [done | congruence].
Qed.

Lemma env_gate s s' : env s s' -> gate_holds s s'.
Proof.
  apply (env_rel gate_holds); [by intros s0 ts Hg | | by intros s0 Hg].
  intros s0 [| |t] Hg; [done | done |]. cbn [hid_event_apply]. by rewrite Hg.
Qed.

Lemma moves_env_gate {A} (m : st hid_state A) : moves env m -> moves gate_holds m.
Proof. intros H s. apply env_gate, H. Qed.

Lemma poll_flag_gate : moves gate_holds poll_flag.
Proof. apply moves_env_gate, poll_flag_env. Qed.

(** A relation that the environment, the accepted reports and the driver's own
    variables respect is respected by all that sends neutral reports. *)
Definition shared_view (s : hid_state) :=
  (s_installed s, s_mounted s, s_mount_reset_pending s, tud_mounted s, s_owner_state s,
   gate_free s, blocked s, ticks s, manager_locks s).

Section Sends.
Context (R : relation hid_state) `{!Reflexive R, !Transitive R}.
Context (R_env : forall s s', env s s' -> R s s').
Context (R_accepted : forall itf report s, itf_report itf report ->
  R s (report_accepted report (itf_mask itf) (itf_neutral itf) s)).
Context (R_recorded : forall s s', shared_view s' = shared_view s ->
  input_state s' = input_state s -> sent s' = sent s -> R s s').

Lemma send_recorded_moves itf t report error :
  itf_report itf report -> moves R (send_recorded itf t report error).
Proof using All.
  intros Hr. unfold send_recorded, record_send_result. refine (moves_bind _ _ _ _ _).
  - intros s. refine (wp_mono _ _ (fun _ => R s) s (send_report_spec _ _ _ _ _ _ _) _).
    { intros s1 s2. by apply (itf_report_input itf). }
    cbn. intros [] s'; [|apply R_env]. intros (s0 & H0 & _ & _ & ->).
    etrans; [apply R_env; etrans; [exact H0 | apply env_once, env_poll] | by apply R_accepted].
  - intros ok. moves_go; intros s; by apply R_recorded.
Qed.

Lemma send_keyboard_moves : moves R send_keyboard.
Proof using All.
  destruct send_keyboard_recorded as (t & r & e & Hr & ->). by apply send_recorded_moves.
Qed.

Lemma send_mouse_moves x y w p t : moves R (send_mouse x y w p t).
Proof using All.
  destruct (send_mouse_recorded x y w p t) as (r & e & Hr & ->). by apply send_recorded_moves.
Qed.

Lemma send_abs_moves t : moves R (send_abs t).
Proof using All.
  destruct (send_abs_recorded t) as (r & e & Hr & ->). by apply send_recorded_moves.
Qed.

End Sends.

Lemma release_all_moves (R : relation hid_state) `{!Reflexive R, !Transitive R} :
  (forall s s', env s s' -> R s s') ->
  (forall itf report s, itf_report itf report ->
     R s (report_accepted report (itf_mask itf) (itf_neutral itf) s)) ->
  (forall s s', shared_view s' = shared_view s -> R s s') ->
  moves R release_all_locked.
Proof.
  intros Henv Hacc Hlocal. assert (Hrec : forall s s', shared_view s' = shared_view s ->
    input_state s' = input_state s -> sent s' = sent s -> R s s') by auto.
  pose proof (send_keyboard_moves R Henv Hacc Hrec). pose proof (send_mouse_moves R Henv Hacc Hrec).
  pose proof (send_abs_moves R Henv Hacc Hrec).
  unfold release_all_locked. moves_go; intros s; by apply Hlocal.
Qed.

Lemma accepted_gate itf report s :
  itf_report itf report -> gate_holds s (report_accepted report (itf_mask itf) (itf_neutral itf) s).
Proof.
  intros Hr Hg. unfold gate_view.
  pose proof (accepted_rest report (itf_mask itf) (itf_neutral itf) s) as [Eq _].
  split; [congruence|]. f_equal; [f_equal; [congruence|]|]; [by apply accepted_owner|].
  unfold report_accepted, with_owner_state, si_hid_owner_state_note_report.
  cbn [s_owner_state set]. destruct (report s); repeat case_if; done.
Qed.

Lemma release_all_gate : moves gate_holds release_all_locked.
Proof.
  apply release_all_moves; [apply _ | apply _ | apply env_gate | apply accepted_gate |].
  intros s s' V Hg. unfold shared_view, gate_view in *. split; [congruence|].
  assert (s_owner_state s' = s_owner_state s) as -> by congruence.
  by assert (blocked s' = blocked s) as -> by congruence.
Qed.

#[export] Hint Resolve poll_flag_gate release_all_gate : firmware.

Lemma drain_gate : moves gate_holds drain_neutral_pending_locked.
Proof.
  unfold drain_neutral_pending_locked, apply_mount_reset_locked. moves_go; by intros s Hg.
Qed.

(** Without a new attachment, a reset that is due means the device is gone. *)
Definition quiet_reset (s : hid_state) : Prop :=
  (s_mount_reset_pending s = true -> tud_mounted s = false) /\ Forall quiet_tick (ticks s).

Lemma quiet_reset_poll s : quiet_reset s -> quiet_reset (poll s).2.
Proof.
  intros Hs. unfold poll. destruct (ticks s) as [|t ts] eqn:Et; [done|].
  destruct Hs as [Hp Hq]. rewrite Et in Hq. cbn [snd]. apply Forall_cons in Hq as [Hq Hqs].
  assert (H0 : quiet_reset (s <| ticks := ts |>)) by done.
  revert H0. generalize (s <| ticks := ts |>). clear Et Hp Hqs s.
  unfold quiet_tick in Hq. induction (events t) as [|e es IH]; intros s0 H0; [done|].
  apply not_elem_of_cons in Hq as [He Hes]. cbn [fold_left]. apply (IH Hes).
  destruct (event_apply_cases s0 e) as [->|[->|[->|(t' & p & s' & -> & G & St & ->)]]];
    [done | by destruct H0 | done |].
  pose proof (transition_start_cases t' s0) as Ht. rewrite St in Ht.
  by destruct Ht as (-> & o & ps & _ & ->).
Qed.

Lemma quiet_reset_env s s' : env s s' -> kept quiet_reset s s'.
Proof.
  intros H. induction H as [|s s1 s2 H1 _ IH]; [done|]. intros Hs. apply IH.
  destruct H1; [by apply quiet_reset_poll | done].
Qed.

Lemma release_all_quiet : moves (kept quiet_reset) release_all_locked.
Proof.
  apply release_all_moves; [apply _ | apply _ | apply quiet_reset_env | |].
  - intros itf report s Hr H. unfold quiet_reset in *.
    pose proof (accepted_rest report (itf_mask itf) (itf_neutral itf) s) as [Eq _].
    set (s' := report_accepted _ _ _ s) in *. clearbody s'.
    assert (s_mount_reset_pending s' = s_mount_reset_pending s) as -> by congruence.
    assert (tud_mounted s' = tud_mounted s) as -> by congruence.
    by assert (ticks s' = ticks s) as -> by congruence.
  - intros s s' V H. unfold quiet_reset, shared_view in *.
    assert (s_mount_reset_pending s' = s_mount_reset_pending s) as -> by congruence.
    assert (tud_mounted s' = tud_mounted s) as -> by congruence.
    by assert (ticks s' = ticks s) as -> by congruence.
Qed.

#[export] Hint Resolve release_all_quiet : firmware.

Lemma drain_quiet s :
  Forall quiet_tick (ticks s) -> wp drain_neutral_pending_locked (fun _ => quiet_reset) s.
Proof.
  intros Hq. unfold drain_neutral_pending_locked. wp_step.
  eapply wp_mono with (Q := fun _ => quiet_reset).
  { unfold apply_mount_reset_locked. do 4 wp_step.
    destruct (s_mount_reset_pending s); cbn [negb]; wp_steps; done. }
  cbv beta. intros b s' Hs'. apply (kept_wp quiet_reset); [|done].
  moves_go; by intros ? [].
Qed.

(** ** A transition's second half *)

(** What is still dirty is waiting for neutral reports. *)
Definition dirty_pending (s : hid_state) : Prop :=
  dirty s <> 0 ->
  generation (report_owner (s_owner_state s)) <> 0 /\ neutral_pending (s_owner_state s) = true.

Lemma hid_ok_pending E s o :
  hid_ok E s -> dirty_pending s -> blocked s = None ->
  dirty_reports o = dirty s -> report_owner o = report_owner (s_owner_state s) ->
  neutral_pending o = neutral_pending (s_owner_state s) ->
  (generation (current o) = 0 -> current o = zero_token) ->
  hid_ok None (with_owner_state (fun _ => o) s).
Proof.
  intros [H1 H2 H3 H4 H5 H6 H7 H8 H9 H10] Hd Hb Ed Er En Hz. split; try done.
  - unfold host_accounted, dirty in *. cbn. by rewrite Ed.
  - unfold dirty_owned, dirty_pending, dirty in *. cbn. rewrite Ed, Er, En.
    intros Hne. destruct (Hd Hne). split; [done | by left].
Qed.

Lemma pending_hid_ok E s : hid_ok E s -> dirty_pending s -> hid_ok None s.
Proof.
  intros [] Hd. split; try done. intros Hne. destruct (Hd Hne). split; [done | by left].
Qed.

Definition transition_done (transition : si_hid_owner_transition_t)
    (r : bool * option si_hid_owner_token_t) (s : hid_state) : Prop :=
  if r.1 then
    neutral_host s /\ r.2 = Some (current (s_owner_state s)) /\
    current (s_owner_state s) =
      (if authorize transition
       then mk_token (transition_claim transition) (next_generation_counter (s_owner_state s))
       else zero_token)
  else generation (current (s_owner_state s)) = 0.

Lemma install_spec o c :
  si_hid_owner_claim_valid (Some c) = true ->
  exists g, g = bump (next_generation_counter o) /\
    si_hid_owner_state_install o (Some c) true =
      (true, (next_generation o) <| current := mk_token c g |>, Some (mk_token c g)).
Proof.
  intros Hv. unfold si_hid_owner_state_install. rewrite Hv. cbn [negb andb]. by eexists.
Qed.

(** The state of a transition that waits for its previous owner's cleanup. *)
Definition held (E : option si_hid_owner_token_t) (s : hid_state) : Prop :=
  hid_ok E s /\ blocked s = None /\ gate_free s = false /\
  generation (current (s_owner_state s)) = 0.

Lemma held_gate E E' s s' : held E s -> gate_holds s s' -> hid_ok E' s' -> held E' s'.
Proof.
  intros (_ & Hb & Hf & Hg) H Hok. destruct (H Hf) as [Hf' V]. unfold gate_view in V.
  split_and!; [done | congruence | done |].
  assert (current (s_owner_state s') = current (s_owner_state s)) as -> by congruence. done.
Qed.

Lemma held_wp {A} E E' (m : st hid_state A) (Q : A -> hid_state -> Prop) s :
  moves gate_holds m -> held E s ->
  wp m (fun a s' => hid_ok E' s' /\ Q a s') s ->
  wp m (fun a s' => held E' s' /\ Q a s') s.
Proof.
  intros Hm Hs. unfold wp. intros [Hok HQ]. split; [|done]. by apply (held_gate E E' s).
Qed.

Lemma cleanup_spec previous s :
  held (Some previous) s ->
  wp (transition_cleanup previous) (fun neutral s' =>
    held (Some previous) s' /\
    if neutral then dirty s' = 0 else neutral_pending (s_owner_state s') = true) s.
Proof.
  intros Hs. unfold transition_cleanup. wp_step. unfold wp at 1.
  assert (H1 : held (Some previous) (poll s).2).
  { eapply held_gate; [exact Hs | apply env_gate, env_once, env_poll|].
    apply (hid_ok_env _ s); [apply env_once, env_poll | apply Hs]. }
  revert H1. generalize (poll s).2. clear s Hs. intros s Hs. wp_step.
  eapply wp_mono.
  { apply (held_wp (Some previous)); [|exact Hs|apply mount_reset_spec, Hs].
    unfold apply_mount_reset_locked. moves_go; by intros s0 Hg. }
  cbn. intros b s1 [H1 _]. do 4 wp_step.
  destruct (negb (generation previous =? 0) && _ || _) eqn:C.
  - apply (held_wp (Some previous)); [apply drain_gate | done | apply drain_spec, H1].
  - wp_step. split; [done|]. destruct H1 as (Hok & Hb & _ & Hg). split_guards.
    apply dec_stable. intros Hne. destruct (ok_dirty _ _ Hok Hne) as (Hgen & Hc).
    destruct Hc as [Hn|[Hc|[Hc|[= Hc]]]]; [congruence | by rewrite Hc in Hgen | by rewrite Hb in Hc |].
    subst previous. apply andb_false_iff in H as [H|H].
    + apply negb_false_iff in H. to_props. done.
    + apply not_true_iff_false in H. apply H. by apply owner_token_equal_eq.
Qed.

Lemma finish_spec transition previous s :
  held (Some previous) s -> claim_ok transition ->
  wp (owner_transition_finish transition previous) (fun r s' =>
    hid_ok None s' /\ blocked s' = None /\ gate_free s' = false /\
    transition_done transition r s') s.
Proof.
  intros Hs Hv. unfold owner_transition_finish. wp_step.
  eapply wp_mono; [by apply cleanup_spec|]. cbv beta. intros neutral s1 [(Hok & Hb & Hf & Hg) Hn].
  assert (Hp : dirty_pending s1).
  { intros Hne. split; [by apply (ok_dirty _ _ Hok)|]. by destruct neutral. }
  pose proof (pending_hid_ok _ _ Hok Hp) as Hok'. do 2 wp_step.
  destruct (negb neutral && hid_mounted s1) eqn:Hfail; [by wp_step|].
  assert (Hneutral : neutral_host s1).
  { destruct neutral; [apply dirty_zero_neutral; [apply Hok | done]|].
    by apply (ok_unmounted _ _ Hok). }
  destruct (authorize transition) eqn:Ha; cbn [negb].
  - do 2 wp_step. destruct (install_spec (s_owner_state s1) _ (Hv Ha)) as (g & -> & ->).
    do 3 wp_step. unfold transition_done. rewrite Ha. split_and!; try done.
    apply (hid_ok_pending (Some previous) s1); try done. cbn. intros E0.
    pose proof (bump_range (next_generation_counter (s_owner_state s1))). lia.
  - wp_step. split_and!; try done. unfold transition_done. rewrite Ha. cbn.
    by rewrite (ok_none _ _ Hok Hg).
Qed.

Definition idle (s : hid_state) : Prop := hid_ok None s /\ gate_free s = false.

(** The outcome of a transition: refused, kept, or done. *)
Definition transition_outcome (transition : si_hid_owner_transition_t) (s : hid_state)
    (r : bool * option si_hid_owner_token_t) (s' : hid_state) : Prop :=
  match (owner_transition_start transition s).1 with
  | TransitionRefused => r = (false, None) /\ s' = s
  | TransitionKept => r = (true, Some (current (s_owner_state s))) /\ s' = s
  | TransitionWaits _ => transition_done transition r s'
  end.

Lemma transition_spec transition s :
  idle s -> blocked s = None ->
  wp (owner_transition_locked transition) (fun r s' =>
    idle s' /\ blocked s' = None /\ transition_outcome transition s r s') s.
Proof.
  intros [Hok Hf] Hb. unfold owner_transition_locked, transition_outcome.
  pose proof (transition_start_cases transition s) as Hc.
  pose proof (start_claim transition s) as Hclaim. wp_step. unfold wp at 1.
  destruct (owner_transition_start transition s) as [r s1] eqn:St. cbn [fst snd].
  destruct r as [| |previous]; [subst; by wp_step | subst; by repeat wp_step |].
  destruct Hc as (-> & o & ps & Ho & ->).
  set (s1 := _ <| s_abort_fence := _ |>).
  assert (Hv : dirty_reports o = dirty s /\ report_owner o = report_owner (s_owner_state s) /\
               neutral_pending o = neutral_pending (s_owner_state s) /\
               generation (current o) = 0 /\ current o = zero_token).
  { destruct Ho as [[-> Hg] | ->]; [|done].
    by split_and!; [..|apply (ok_none _ _ Hok)]. }
  eapply wp_mono; [apply finish_spec|].
  - destruct Hv as (Ed & Er & En & Eg & Ez). destruct Hok as [H1 H2 H3 H4 H5 H6 H7 H8 H9 H10].
    split_and!; try done. split; try done.
    + unfold host_accounted, dirty in *. cbn. by rewrite Ed.
    + unfold dirty_owned, dirty in *. cbn. rewrite Ed, Er, En. intros Hne.
      destruct (H5 Hne) as (Hgen & Hcase). split; [done|].
      destruct Hcase as [?|[->|[Hx|?]]]; [by left | by right; right; right | by rewrite Hb in Hx | done].
  - by apply (Hclaim (TransitionWaits (current (s_owner_state s))) _ eq_refl).
  - cbn. intros r s' (H1 & H2 & H3 & H4). by split_and!.
Qed.

Lemma resume_spec transition previous s :
  idle s -> blocked s = Some (transition, previous) ->
  wp transition_resume (fun r s' =>
    idle s' /\ blocked s' = None /\ transition_done transition r s') s.
Proof.
  intros [Hok Hf] Hb. unfold transition_resume. do 2 wp_step. rewrite Hb. do 2 wp_step.
  eapply wp_mono; [apply finish_spec|].
  - pose proof (ok_blocked _ _ Hok) as Hg. destruct Hok as [H1 H2 H3 H4 H5 H6 H7 H8 H9 H10].
    split_and!; try done; [|apply Hg; by rewrite Hb]. split; try done.
    unfold dirty_owned, dirty in *. cbn. intros Hne.
    destruct (H5 Hne) as (Hgen & Hcase). split; [done|].
    rewrite Hb in Hcase. cbn in Hcase.
    destruct Hcase as [?|[Hc|[[= <-]|?]]]; [by left | by right; left | by right; right; right | done].
  - by apply (ok_claim _ _ Hok transition previous).
  - cbn. intros r s' (H1 & H2 & H3 & H4). by split_and!.
Qed.

(** ** A running command *)

Definition cmd_view (s : hid_state) :=
  (s_owner_state s, host_keyboard s, host_mouse s, host_abs s, hid_mounted s,
   s_mount_reset_pending s, gate_free s, blocked s, tud_mounted s, s_mounted s,
   s_installed s, ticks s).

Lemma cmd_ok_input s s' :
  cmd_view s' = cmd_view s -> keys_ok (s_key_count s') (s_keys s') -> cmd_ok s -> cmd_ok s'.
Proof.
  intros V Hk (Hok & Hm & Hq). unfold cmd_view in V. split_and!.
  - apply (hid_ok_view None (s <| s_keys := s_keys s' |> <| s_key_count := s_key_count s' |>)).
    + unfold ok_view. cbn [s_key_count s_keys set]. unfold ok_view. cbn.
      unfold hid_mounted in *. cbn. congruence.
    + destruct Hok. by split.
  - unfold may_hold in *. assert (s_owner_state s' = s_owner_state s) as -> by congruence.
    assert (blocked s' = blocked s) as -> by congruence.
    assert (s_installed s' = s_installed s) as -> by congruence.
    assert (s_mount_reset_pending s' = s_mount_reset_pending s) as -> by congruence.
    by assert (tud_mounted s' = tud_mounted s) as -> by congruence.
  - by assert (ticks s' = ticks s) as -> by congruence.
Qed.

Lemma cmd_ok_keys s : cmd_ok s -> keys_ok (s_key_count s) (s_keys s).
Proof. intros (Hok & _). apply (ok_keys _ _ Hok). Qed.

Lemma modify_cmd_ok f :
  (forall s, cmd_view (f s) = cmd_view s) ->
  (forall s, keys_ok (s_key_count s) (s_keys s) -> keys_ok (s_key_count (f s)) (s_keys (f s))) ->
  moves (kept cmd_ok) (modify f).
Proof.
  intros Hv Hk. apply kept_modify. intros s Hs. apply (cmd_ok_input s); [apply Hv | | done].
  by apply Hk, cmd_ok_keys.
Qed.

Lemma push_key_view usage s : cmd_view (push_key usage s) = cmd_view s.
Proof. unfold push_key. by case_if. Qed.

Lemma remove_key_view usage s : cmd_view (remove_key usage s) = cmd_view s.
Proof. unfold remove_key. by destruct (list_find _ _) as [[]|]. Qed.

Lemma send_keyboard_cmd : moves (kept cmd_ok) send_keyboard.
Proof. destruct send_keyboard_recorded as (t & r & e & Hr & ->). by apply send_recorded_cmd_ok. Qed.

Lemma send_mouse_cmd x y w p t : moves (kept cmd_ok) (send_mouse x y w p t).
Proof. destruct (send_mouse_recorded x y w p t) as (r & e & Hr & ->). by apply send_recorded_cmd_ok. Qed.

Lemma send_abs_cmd t : moves (kept cmd_ok) (send_abs t).
Proof. destruct (send_abs_recorded t) as (r & e & Hr & ->). by apply send_recorded_cmd_ok. Qed.

Lemma delay_cmd : moves (kept cmd_ok) delay.
Proof.
  unfold delay. refine (moves_bind _ _ _ _ _); [|intros _; refine (moves_ret _ _)].
  intros s Hs. by apply cmd_ok_poll.
Qed.

#[export] Hint Resolve send_keyboard_cmd send_mouse_cmd send_abs_cmd delay_cmd : firmware.

Lemma key_down_cmd code : moves (kept cmd_ok) (hid_key_down code).
Proof.
  unfold hid_key_down. moves_go.
  - by apply modify_cmd_ok.
  - apply modify_cmd_ok; [apply push_key_view | apply keys_ok_push].
Qed.

Lemma key_up_cmd code : moves (kept cmd_ok) (hid_key_up code).
Proof.
  unfold hid_key_up. moves_go. apply modify_cmd_ok; intros s; destruct (negb _);
    [done | apply remove_key_view | done | apply keys_ok_remove].
Qed.

(** The pointer commands: one assignment, one report. *)
Ltac pointer_cmd f := unfold f; moves_go; by apply modify_cmd_ok.

Lemma send_mouse_counts_cmd dx dy t : moves (kept cmd_ok) (send_mouse_counts dx dy t).
Proof. pointer_cmd send_mouse_counts. Qed.
Lemma hid_mouse_down_cmd b : moves (kept cmd_ok) (hid_mouse_down b).
Proof. pointer_cmd hid_mouse_down. Qed.
Lemma hid_mouse_up_cmd b : moves (kept cmd_ok) (hid_mouse_up b).
Proof. pointer_cmd hid_mouse_up. Qed.
Lemma hid_mouse_scroll_cmd y x : moves (kept cmd_ok) (hid_mouse_scroll y x).
Proof. pointer_cmd hid_mouse_scroll. Qed.
Lemma hid_abs_move_cmd x y : moves (kept cmd_ok) (hid_abs_move x y).
Proof. pointer_cmd hid_abs_move. Qed.
Lemma hid_abs_mouse_down_cmd b : moves (kept cmd_ok) (hid_abs_mouse_down b).
Proof. pointer_cmd hid_abs_mouse_down. Qed.
Lemma hid_abs_mouse_up_cmd b : moves (kept cmd_ok) (hid_abs_mouse_up b).
Proof. pointer_cmd hid_abs_mouse_up. Qed.

#[export] Hint Resolve key_down_cmd key_up_cmd send_mouse_counts_cmd hid_mouse_down_cmd hid_mouse_up_cmd hid_mouse_scroll_cmd hid_abs_move_cmd hid_abs_mouse_down_cmd hid_abs_mouse_up_cmd : firmware.

Definition ends {A} (m : st hid_state A) : Prop :=
  forall s, cmd_ok s -> wp m (fun _ => hid_ok None) s.

Lemma ends_kept {A} (m : st hid_state A) : moves (kept cmd_ok) m -> ends m.
Proof. intros H s Hs. apply (H s Hs). Qed.

Lemma ends_bind {A B} (m : st hid_state A) (k : A -> st hid_state B) :
  moves (kept cmd_ok) m -> (forall a, ends (k a)) -> ends (bind m k).
Proof.
  intros Hm Hk s Hs. apply wp_bind. eapply wp_mono; [by apply (kept_wp cmd_ok)|].
  cbv beta. intros a s' Hs'. by apply Hk.
Qed.

Lemma ends_ret {A B} (m : st hid_state A) (b : B) : ends m -> ends (m ;; mret b).
Proof.
  intros Hm s Hs. apply wp_bind. eapply wp_mono; [by apply Hm|]. cbv beta. intros _ s' H.
  by wp_step.
Qed.

Lemma ends_unless k : ends k -> ends (unless_aborted k).
Proof.
  intros Hk s Hs. unfold unless_aborted. wp_step.
  eapply wp_mono; [apply neutralize_spec, Hs|]. cbv beta. intros [] s' [Hok H]; [by wp_step|].
  destruct (H eq_refl) as [-> _]. by apply Hk.
Qed.

Lemma combo_press_ok command s :
  cmd_view (combo_press command s) = cmd_view s /\
  keys_ok (s_key_count (combo_press command s)) (s_keys (combo_press command s)).
Proof.
  unfold combo_press. set (s0 := reset_keys s).
  assert (H0 : cmd_view s0 = cmd_view s /\ keys_ok (s_key_count s0) (s_keys s0))
    by (split; [done | apply keys_ok_none]).
  clearbody s0. revert s0 H0. induction (cmd_modifiers command) as [|m ms IH]; cbn [fold_left].
  - induction (cmd_keys command) as [|k ks IH]; cbn [fold_left]; intros s0 [Hv Hk]; [done|].
    apply IH. case_if; [done|]. split; [by rewrite push_key_view | by apply keys_ok_push].
  - intros s0 [Hv Hk]. by apply IH.
Qed.

Lemma send_combo_ends command : ends (send_combo command).
Proof.
  intros s Hs. unfold send_combo. do 2 wp_step. pose proof (cmd_ok_keys s Hs) as Hprev.
  apply (fun H : ends _ => H s Hs).
  apply ends_bind.
  { apply kept_modify. intros s0 H0. destruct (combo_press_ok command s0). by apply (cmd_ok_input s0). }
  intros _. apply ends_bind; [apply send_keyboard_cmd | intros _]. apply ends_unless.
  apply ends_bind; [apply delay_cmd | intros _]. apply ends_unless.
  apply ends_bind; [apply modify_cmd_ok; [done | intros; apply keys_ok_none] | intros _].
  apply ends_bind; [apply send_keyboard_cmd | intros _]. apply ends_unless, ends_kept.
  moves_go. by apply modify_cmd_ok.
Qed.

Lemma press_and_release_ends down up :
  moves (kept cmd_ok) down -> moves (kept cmd_ok) up -> ends (press_and_release down up).
Proof.
  intros Hd Hu. unfold press_and_release. apply ends_bind; [done | intros _]. apply ends_unless.
  apply ends_bind; [apply delay_cmd | intros _]. by apply ends_unless, ends_kept.
Qed.

Lemma release_all_command_ends o : ends (release_all_command o).
Proof.
  intros s Hs. unfold release_all_command. wp_step.
  eapply wp_mono; [apply (release_all_spec None), Hs|]. cbv beta. intros _ s1 [Hok Hz].
  do 3 wp_step. destruct (s_command_send_ok s1).
  - unfold si_hid_owner_state_clear_report. unfold with_owner_state. case_if.
    { by apply (hid_ok_view None s1). }
    apply (hid_ok_clean None None s1 ((s_owner_state s1) <| report_owner := zero_token |>));
      [done | apply dirty_zero_neutral; [apply Hok | by apply Hz] | by apply Hz | done].
  - pose proof (ok_dirty _ _ Hok) as Hd. destruct Hok. split; try done.
    unfold dirty_owned. cbn. intros Hne. split; [by apply Hd | by left].
Qed.

Lemma run_command_ends command o : ends (run_command command o).
Proof.
  unfold run_command, hid_mouse_move.
  destruct (cmd_type command); try (apply ends_kept; by moves_go).
  - apply ends_bind; [refine (moves_gets _ _) | intros p].
    apply ends_bind; [apply hid_abs_move_cmd | intros _].
    apply ends_ret, press_and_release_ends; eauto with firmware.
  - apply ends_ret, press_and_release_ends; eauto with firmware.
  - apply ends_ret, send_combo_ends.
  - apply ends_ret, release_all_command_ends.
Qed.

Lemma clear_report_ok t s :
  hid_ok None s -> dirty s = 0 ->
  hid_ok None (with_owner_state (fun o => si_hid_owner_state_clear_report o t) s).
Proof.
  intros Hok Hz.
  apply (hid_ok_clean None None s (si_hid_owner_state_clear_report (s_owner_state s) t));
    [done | by apply dirty_zero_neutral; [apply Hok|] | |];
    unfold si_hid_owner_state_clear_report; by case_if.
Qed.

Lemma command_fails_kept message err I :
  (forall s n e, I s -> I ((s <| s_failed_messages := n |>) <| s_last_error := e |>)) ->
  moves (kept I) (command_fails message err).
Proof.
  intros HI. unfold command_fails. moves_go. intros s Hs. cbn [modify snd].
  unfold set_last_error_text. case_if; by apply HI.
Qed.

Lemma failed_cleanup_ok b error s :
  hid_ok None s ->
  wp (when b (
        pending ← gets (fun s => negb (dirty_reports (s_owner_state s) =? 0));
        modify (with_owner_state (fun o => o <| neutral_pending := pending |>));;
        when pending (drain_neutral_pending_locked;; mret tt);;
        modify (fun s => s <| s_command_send_error := error |>)))
    (fun _ => hid_ok None) s.
Proof.
  intros Hok. destruct b; [|by wp_step]. cbn [when]. do 4 wp_step. fold (dirty s).
  set (s1 := with_owner_state _ s).
  assert (H1 : hid_ok None s1).
  { pose proof (ok_dirty _ _ Hok) as Hd. destruct Hok. split; try done.
    unfold dirty_owned. change (dirty s1) with (dirty s). intros Hne.
    split; [by apply Hd|]. left. cbn. by rewrite (proj2 (Z.eqb_neq _ _) Hne). }
  clearbody s1. wp_step. apply wp_when; intros _.
  - wp_step. eapply wp_mono; [by apply (drain_spec None)|]. cbv beta. intros b s2 [H2 _].
    do 2 wp_step. by apply (hid_ok_view None s2).
  - wp_step. by apply (hid_ok_view None s1).
Qed.

Lemma command_finishes_spec command o ret s :
  hid_ok None s -> wp (command_finishes command o ret) (fun _ => idle) s.
Proof.
  intros Hok. unfold command_finishes. wp_step. eapply wp_mono with (Q := fun _ => hid_ok None).
  { apply wp_or_else. eapply wp_mono; [by apply neutralize_spec|]. cbv beta.
    intros [] s' [H _]; [done | by wp_step]. }
  cbv beta. clear s Hok. intros aborted s Hok. do 2 wp_step. cbv zeta.
  set (ret' := if aborted then _ else _). do 4 wp_step.
  set (s1 := s <| s_command_active := false |>).
  assert (H1 : hid_ok None s1) by by apply (hid_ok_view None s).
  generalize (s_command_send_ok s) (s_command_send_error s). clearbody s1 ret'. clear s Hok.
  intros send_ok error. do 2 wp_step. set (s2 := if bool_decide _ && _ then _ else _).
  assert (H2 : hid_ok None s2).
  { subst s2. case_if; [|done]. split_guards. to_props. by apply clear_report_ok. }
  clearbody s2. clear s1 H1. wp_step. eapply wp_mono; [by apply failed_cleanup_ok|].
  cbv beta. intros _ s3 H3. do 6 wp_step.
  set (s4 := (s3 <| s_active_command_owner := zero_token |>) <| gate_free := false |>).
  assert (H4 : idle s4) by (split; [by destruct H3; split | done]).
  clearbody s4. wp_step.
  - do 3 wp_step. destruct H4. by split; [apply (hid_ok_view None s4)|].
  - apply (kept_wp idle); [|done]. apply command_fails_kept.
    intros s5 n e [H5 Hf]. by split; [apply (hid_ok_view None s5)|].
Qed.

(** ** Admission and execution *)

(** Between two calls: nobody waits for a command; with [i], the driver is installed. *)
Definition rest (i : bool) (s : hid_state) : Prop :=
  idle s /\ blocked s = None /\ Forall quiet_tick (ticks s) /\ (i = true -> s_installed s = true).

Lemma poll_ticks s : ticks (poll s).2 = tail (ticks s).
Proof.
  unfold poll. destruct (ticks s) as [|t ts] eqn:Et; [done|]. cbn [snd tail].
  assert (H : ticks (s <| ticks := ts |>) = ts) by done. revert H.
  generalize (s <| ticks := ts |>). clear Et.
  induction (events t) as [|e es IH]; intros s0 H0; [done|]. cbn [fold_left]. apply IH.
  destruct (event_apply_cases s0 e) as [->|[->|[->|(t' & p & s' & -> & G & St & ->)]]]; [done..|].
  pose proof (transition_start_cases t' s0) as Ht. rewrite St in Ht.
  by destruct Ht as (-> & o & ps & _ & ->).
Qed.

Lemma poll_installed s : s_installed (poll s).2 = s_installed s.
Proof.
  pose proof (env_command_view _ _ (env_once _ _ (env_poll s))) as V. unfold command_view in V.
  congruence.
Qed.

Lemma poll_rest i : moves (kept (rest i)) poll.
Proof.
  intros s ([Hok Hf] & Hb & Hq & Hi). destruct (env_gate s (poll s).2 (env_once _ _ (env_poll s)) Hf) as [Hf' V].
  split; [split; [|done]|].
  - apply (hid_ok_env _ s); [apply env_once, env_poll | done].
  - unfold gate_view in V. split; [congruence|]. rewrite poll_ticks, poll_installed.
    split; [by destruct Hq; [constructor|] | done].
Qed.

#[export] Hint Resolve poll_rest : firmware.

Lemma rest_view i s s' :
  ok_view s' = ok_view s -> ticks s' = ticks s -> s_installed s' = s_installed s ->
  rest i s -> rest i s'.
Proof.
  intros V Ht Hs ([Hok Hf] & Hb & Hq & Hi). unfold ok_view in V.
  split; [split; [by apply (hid_ok_view None s) | congruence] |].
  split; [congruence | by rewrite Ht, Hs].
Qed.

Ltac rest_go := moves_go; intros s0 Hrest; apply (rest_view _ s0); done.

Lemma manager_locks_rest i : moves (kept (rest i)) ensure_manager_locks.
Proof. unfold ensure_manager_locks, poll_flag. rest_go. Qed.

Lemma command_fails_rest i message err : moves (kept (rest i)) (command_fails message err).
Proof. apply command_fails_kept. intros s n e. by apply rest_view. Qed.

#[export] Hint Resolve manager_locks_rest command_fails_rest : firmware.

Lemma command_starts_ok o g s :
  rest true s -> (s_mount_reset_pending s = true -> tud_mounted s = false) ->
  report_owner (s_owner_state s) = current (s_owner_state s) ->
  generation (current (s_owner_state s)) <> 0 ->
  cmd_ok (command_starts o g s).
Proof.
  intros ([Hok Hf] & Hb & Hq & Hi) Hp Hr Hg. split; [|split].
  - destruct Hok. by split.
  - unfold may_hold. cbn. rewrite Hr. by split_and!; [|left|apply Hi|].
  - done.
Qed.

Lemma command_runs_idle command o g s :
  cmd_ok (command_starts o g s) -> wp (command_runs command o g) (fun _ => idle) s.
Proof.
  intros Hs. unfold command_runs. do 3 wp_step.
  eapply wp_mono; [by apply run_command_ends|]. cbv beta. intros ret s1 H1.
  by apply command_finishes_spec.
Qed.

Lemma drain_rest i s :
  rest i s ->
  wp drain_neutral_pending_locked (fun _ s' => rest i s' /\
    (s_mount_reset_pending s' = true -> tud_mounted s' = false)) s.
Proof.
  intros ([Hok Hf] & Hb & Hq & Hi). unfold wp.
  pose proof (drain_spec None s Hok) as [H1 _].
  pose proof (drain_gate s Hf) as [H2 V]. pose proof (drain_quiet s Hq) as [H3 H4].
  assert (H5 : moves (same s_installed) drain_neutral_pending_locked).
  { assert (Hr : moves (same s_installed) release_all_locked).
    { apply release_all_moves; [apply _ | apply _ | | |].
      - intros s1 s2 E. apply env_command_view in E. unfold command_view in E. unfold same. congruence.
      - intros itf report s1 _.
        pose proof (accepted_rest report (itf_mask itf) (itf_neutral itf) s1) as [Eq _].
        unfold same. congruence.
      - intros s1 s2 E. unfold shared_view in E. unfold same. congruence. }
    unfold drain_neutral_pending_locked, apply_mount_reset_locked. moves_go; done. }
  specialize (H5 s). unfold gate_view in V.
  split; [|done]. split; [by split|]. split; [congruence|]. by rewrite H5.
Qed.

(** The report owner is installed and the command runs. *)
Lemma begin_spec s o begun state g command :
  rest true s -> (s_mount_reset_pending s = true -> tud_mounted s = false) ->
  si_hid_owner_state_begin_report (s_owner_state s) (Some o) = (begun, state) ->
  wp (if negb begun
      then command_fails (Some (cstr "HID report owner changed")) ESP_ERR_INVALID_STATE
      else modify (with_owner_state (fun _ => state));; command_runs command o g)
    (fun _ => idle) s.
Proof.
  intros Hs Hp Hb. unfold si_hid_owner_state_begin_report in Hb.
  destruct (negb (si_hid_owner_state_is_current _ _) || _) eqn:Hc; injection Hb as <- <-.
  { eapply wp_mono; [apply (kept_wp (rest true)); [apply command_fails_rest | done]|].
    by intros _ s' []. }
  split_guards. cbn [negb]. do 2 wp_step.
  apply owner_token_equal_eq in H as [Hc Hg]. apply command_runs_idle.
  apply command_starts_ok; try done.
  destruct Hs as ([Hok Hf] & Hb & Hq & Hi). split; [split; [|done] | done].
  destruct Hok as [H1 H2 H3 H4 H5 H6 H7 H8 H9 H10]. split; try done.
  unfold dirty_owned. intros _. cbn. rewrite <- Hc. split; [done|]. by right; left.
Qed.

Section Execution.
Context (call_guard : Z * Z -> st hid_state bool) (between : st hid_state unit).
Context (guard_rest : forall i g, moves (kept (rest i)) (call_guard g)).
Context (between_rest : forall i, moves (kept (rest i)) between).

#[local] Hint Resolve guard_rest between_rest : firmware.

Lemma authority_denied_rest i o g : moves (kept (rest i)) (authority_denied call_guard o g).
Proof using guard_rest.
  unfold authority_denied, embedded_guard_denies, guard_denies. moves_go.
Qed.

Lemma wait_resumed_rest i fuel d : moves (kept (rest i)) (wait_resumed fuel d).
Proof using.
  induction fuel; cbn [wait_resumed]; unfold delay, poll_flag, poll_time; moves_go.
Qed.

#[local] Hint Resolve authority_denied_rest wait_resumed_rest : firmware.

Lemma wake_rest i command o g :
  moves (kept (rest i)) (wake_suspended_host call_guard command o g).
Proof using guard_rest.
  unfold wake_suspended_host, owner_admitted_locked, take_gate, poll_flag, poll_time.
  moves_go. intros s0 H. cbn [modify snd]. by case_if; apply (rest_view _ s0).
Qed.

Lemma fails_idle i message err s :
  rest i s -> wp (command_fails message err) (fun _ => idle) s.
Proof using.
  intros Hs. eapply wp_mono; [by apply (kept_wp (rest i)); [apply command_fails_rest|]|].
  by intros _ s' [].
Qed.

Lemma admitted_idle command o g s :
  rest true s -> wp (command_admitted call_guard command o g) (fun _ => idle) s.
Proof using guard_rest.
  intros Hs. unfold command_admitted. do 2 wp_step. wp_step; [by apply (fails_idle true)|].
  do 2 wp_step. generalize (si_hid_abort_fence_snapshot (Some (s_abort_fence s))).
  intros ag. wp_step.
  eapply wp_mono; [by apply (kept_wp (rest true)); [apply authority_denied_rest|]|].
  cbv beta. clear s Hs Heqb. intros denied s Hs. wp_step; [by apply (fails_idle true)|].
  wp_step. eapply wp_mono with (Q := fun _ => rest true).
  { apply (kept_wp (rest true)); [|done]. unfold poll_flag. moves_go. }
  cbv beta. clear s Hs. intros locked s Hs. wp_step; [by apply (fails_idle true)|].
  do 2 wp_step. wp_step; [by apply (fails_idle true)|]. wp_step.
  eapply wp_mono with (Q := fun (neutral : bool) s' => rest true s' /\
    (neutral = true -> s_mount_reset_pending s' = true -> tud_mounted s' = false)).
  { apply wp_or_else. wp_step. cbv beta. destruct (negb (s_mount_reset_pending s || _)) eqn:Hp.
    - split; [done|]. intros _ Hr. rewrite Hr in Hp. done.
    - eapply wp_mono; [by apply (drain_rest true)|]. cbv beta. intros b s' [H1 H2]. by split. }
  cbv beta. intros neutral s' [Hs' Hp]. wp_step; [by apply (fails_idle true)|].
  do 2 wp_step. wp_step. apply begin_spec; [done | | done]. apply Hp. by apply negb_false_iff.
Qed.

Lemma execute_idle command o g s :
  rest false s -> wp (si_hid_execute_owned call_guard between command o g) (fun _ => idle) s.
Proof using guard_rest between_rest.
  intros Hs. unfold si_hid_execute_owned.
  destruct command as [command|]; [|by apply (fails_idle false)].
  destruct o as [o|]; [|by apply (fails_idle false)].
  wp_step; [by apply (fails_idle false)|]. do 2 wp_step.
  destruct (s_installed s) eqn:Hi; cbn [negb]; [|by apply (fails_idle false)].
  assert (Hs1 : rest true s) by (destruct Hs as (? & ? & ? & _); by split_and!).
  clear Hs. do 2 wp_step. wp_step; [by apply (fails_idle true)|]. wp_step.
  eapply wp_mono; [by apply (kept_wp (rest true)); [apply manager_locks_rest|]|]. cbv beta.
  clear s Hs1 Hi Heqb Heqb0. intros locks s Hs. wp_step; [by apply (fails_idle true)|]. wp_step.
  eapply wp_mono; [by apply (kept_wp (rest true)); [apply wake_rest|]|]. cbv beta.
  clear s Hs. intros awake s Hs. wp_step; [by apply (fails_idle true)|]. wp_step.
  eapply wp_mono; [by apply (kept_wp (rest true)); [apply between_rest|]|]. cbv beta.
  clear s Hs. intros _ s Hs. wp_step.
  eapply wp_mono with (Q := fun _ => rest true).
  { apply (kept_wp (rest true)); [|done]. unfold take_gate, poll_flag. moves_go. }
  cbv beta. clear s Hs. intros gate s Hs. wp_step; [by apply (fails_idle true)|].
  by apply admitted_idle.
Qed.
End Execution.

(** ** Reachable states *)

Definition idle_free (s : hid_state) : Prop := idle s /\ blocked s = None.

Lemma poll_idle : moves (kept idle_free) poll.
Proof.
  intros s [[Hok Hf] Hb].
  destruct (env_gate s (poll s).2 (env_once _ _ (env_poll s)) Hf) as [Hf' V].
  unfold gate_view in V. split; [split; [|done] | congruence].
  apply (hid_ok_env _ s); [apply env_once, env_poll | done].
Qed.

Lemma idle_free_view s s' : ok_view s' = ok_view s -> idle_free s -> idle_free s'.
Proof.
  intros V [[Hok Hf] Hb]. unfold ok_view in V.
  split; [split; [by apply (hid_ok_view None s) | congruence] | congruence].
Qed.

Lemma set_last_error_view m e s : ok_view (set_last_error_text m e s) = ok_view s.
Proof. unfold set_last_error_text. by case_if. Qed.

Lemma poll_flag_idle : moves (kept idle_free) poll_flag.
Proof.
  unfold poll_flag. refine (moves_bind _ _ _ poll_idle _). intros t. refine (moves_ret _ _).
Qed.

#[export] Hint Resolve poll_idle poll_flag_idle : firmware.

Lemma idle_calls enabled installed guard context task owner :
  moves (kept idle_free) (si_hid_init enabled installed) /\
  moves (kept idle_free) (si_hid_set_embedded_authority_guard guard context) /\
  moves (kept idle_free) (si_hid_bind_embedded_producer task owner).
Proof.
  unfold si_hid_init, si_hid_set_embedded_authority_guard, si_hid_bind_embedded_producer,
    ensure_manager_locks, enter_gate.
  split_and!; moves_go; intros s0 H;
    try (apply (idle_free_view s0); [cbn [modify snd]; by rewrite ?set_last_error_view | done]).
  cbn [modify snd]. destruct H as [[Hok Hf] Hb].
  assert (Hi : idle_free (s0 <| s_installed := true |>)).
  { split; [split; [|done] | done]. pose proof (ok_unmounted _ _ Hok) as Hu.
    destruct Hok. split; try done. intros Hm. apply Hu. unfold hid_mounted in *. cbn in Hm.
    rewrite <- andb_assoc, Hm. apply andb_false_r. }
  by apply (idle_free_view (s0 <| s_installed := true |>)); [apply set_last_error_view|].
Qed.

Section Reachable.
Context (call_guard : Z * Z -> st hid_state bool) (between : st hid_state unit).
Context (guard_rest : forall i g, moves (kept (rest i)) (call_guard g)).
Context (between_rest : forall i, moves (kept (rest i)) between).

Lemma scripted_idle ts s : idle s -> idle (scripted ts s).
Proof using. intros [Hok Hf]. by split; [apply (hid_ok_view None s)|]. Qed.

Lemma step_idle s s' : hid_manager_step call_guard between s s' -> idle s -> idle s'.
Proof using guard_rest between_rest.
  intros Hstep Hs.
  destruct Hstep as [s0 ts en ins Hb|s0 ts c o g Hb Hq|s0 ts t Hb|s0 ts|s0 ts g c Hb|s0 ts t o Hb|s0|s0];
    try (pose proof (scripted_idle ts s0 Hs) as Hts).
  - refine (proj1 (proj1 (idle_calls en ins None 0 0 None) _ _)). by split.
  - apply execute_idle; [done | done |]. by split_and!.
  - by apply transition_spec.
  - destruct (blocked s0) as [[t p]|] eqn:Hb.
    + by apply (resume_spec t p).
    + unfold transition_resume, bind, gets. change (blocked (scripted ts s0)) with (blocked s0).
      by rewrite Hb.
  - refine (proj1 (proj1 (proj2 (idle_calls false ESP_OK g c 0 None)) _ _)). by split.
  - refine (proj1 (proj2 (proj2 (idle_calls false ESP_OK None 0 t o)) _ _)). by split.
  - destruct Hs as [Hok Hf]. split; [by apply hid_ok_event | done].
  - destruct Hs as [Hok Hf]. split; [by apply hid_ok_event | done].
Qed.

Lemma initial_idle : idle hid_initial.
Proof using.
  split; [|done]. split; try done; apply keys_ok_none.
Qed.

Lemma reachable_idle s : rtc (hid_manager_step call_guard between) hid_initial s -> idle s.
Proof using guard_rest between_rest.
  intros H. pose proof initial_idle as Hi. revert Hi.
  induction H as [s|s1 s2 s3 H1 _ IH]; [done|]. intros Hs. by apply IH, (step_idle s1).
Qed.
End Reachable.

(** ** A transition leaves the manager's locks where they are *)

Lemma env_locks s s' : env s s' -> same manager_locks s s'.
Proof. intros H%env_command_view. unfold command_view in H. unfold same. congruence. Qed.

Lemma poll_locks : moves (same manager_locks) poll.
Proof. intros s. apply env_locks, env_once, env_poll. Qed.

Lemma release_all_locks : moves (same manager_locks) release_all_locked.
Proof.
  apply release_all_moves; [apply _ | apply _ | apply env_locks | |].
  - intros itf report s _. unfold same, report_accepted, with_owner_state, host_receives.
    cbn. by repeat case_match.
  - intros s s' V. unfold shared_view in V. unfold same. congruence.
Qed.

#[export] Hint Resolve poll_locks release_all_locks : firmware.

Lemma transition_locks t : moves (same manager_locks) (owner_transition_locked t).
Proof.
  unfold owner_transition_locked, owner_transition_finish, transition_cleanup,
    drain_neutral_pending_locked, apply_mount_reset_locked.
  moves_go; intros s0; try done.
  unfold same, owner_transition_start. case_ifs; reflexivity.
Qed.
