(* ===== verification/HidManagerProps.v ===== *)
(** * The HID manager: properties

    What the host holds pressed is accounted for, and a transition that succeeds
    hands over a neutral host, both as long as no USB attachment arrives while a
    command runs; a revoked command stops; and the key array refines a list of
    pressed keys. *)

From Stdlib Require Import String.
From S2P Require Import Prelude Firmware HidOwner HidOwnerProps HidManager HidManagerInvariant.

(** ** The key array *)

Inductive key_event := KeyDown (code : option cstring) | KeyUp (code : option cstring).

Definition key_event_run (e : key_event) : st hid_state unit :=
  match e with KeyDown code => hid_key_down code | KeyUp code => hid_key_up code end.

(** The abstract state: the modifier mask and the pressed keys in order. *)
Definition key_spec (p : Z * list Z) (e : key_event) : Z * list Z :=
  let '(mods, pressed) := p in
  match e with
  | KeyDown code =>
      if negb (js_code_to_mod code =? 0) then (Z.lor mods (js_code_to_mod code), pressed)
      else let k := js_code_to_hid code in
           if (k =? 0) || bool_decide (k ∈ pressed) || (6 <=? length pressed)%nat
           then (mods, pressed) else (mods, pressed ++ [k])
  | KeyUp code =>
      if negb (js_code_to_mod code =? 0)
      then (Z.land mods (u8 (Z.lnot (js_code_to_mod code))), pressed)
      else (mods, filter (fun k => k <> js_code_to_hid code) pressed)
  end.

Definition keys_as (p : Z * list Z) (s : hid_state) : Prop :=
  s_modifiers s = p.1 /\ s_key_count s = length p.2 /\ (length p.2 <= 6)%nat /\
  s_keys s = p.2 ++ replicate (6 - length p.2) 0 /\ NoDup p.2.

Lemma send_keyboard_input : moves (same input_state) send_keyboard.
Proof.
  apply send_keyboard_moves; [apply _ | apply _ | apply env_input_state | | done].
  intros itf report s _. unfold same.
  pose proof (accepted_rest report (itf_mask itf) (itf_neutral itf) s) as [Eq _]. congruence.
Qed.

Lemma keys_as_input p s s' : same input_state s s' -> keys_as p s -> keys_as p s'.
Proof.
  unfold same, input_state, keys_as. intros E. injection E as E1 E2 E3 _ _ _ _.
  by rewrite E1, E2, E3.
Qed.

Lemma then_send p (m : st hid_state unit) s :
  wp m (fun _ => keys_as p) s -> wp (m ;; send_keyboard) (fun _ => keys_as p) s.
Proof.
  intros H. apply wp_bind. eapply wp_mono; [exact H|]. cbv beta. intros _ s' H'.
  by apply (keys_as_input p s'); [apply send_keyboard_input|].
Qed.

Lemma keys_as_push p k s :
  keys_as p s -> k ∉ p.2 -> (length p.2 < 6)%nat -> keys_as (p.1, p.2 ++ [k]) (push_key k s).
Proof.
  intros (Hm & Hc & Hl & Hk & Hn) Hnin Hlt. unfold push_key.
  rewrite Hc, (proj2 (Nat.ltb_lt _ _) Hlt). unfold keys_as. cbn [s_modifiers s_key_count s_keys set fst snd].
  rewrite length_app. cbn [length]. split_and!; [done | lia | lia | |].
  - rewrite Hk, insert_app_r_alt by lia. rewrite Nat.sub_diag, <- app_assoc. f_equal.
    replace (6 - length p.2)%nat with (S (6 - (length p.2 + 1))) by lia. done.
  - apply NoDup_app. split; [done|]. split; [|apply NoDup_singleton].
    intros x Hx ->%list_elem_of_singleton. done.
Qed.

Lemma take_pressed p s : keys_as p s -> take (s_key_count s) (s_keys s) = p.2.
Proof. intros (_ & -> & _ & -> & _). by rewrite take_app_length. Qed.

Lemma shift_keys_spec r l k z :
  exists x, shift_keys (length r) (length l) (l ++ k :: r ++ z) = l ++ r ++ x :: z.
Proof.
  revert l k. induction r as [|a r IH]; intros l k; cbn [length shift_keys app]; [by exists k|].
  replace (nth (S (length l)) (l ++ k :: a :: r ++ z) 0) with a.
  2: { rewrite app_nth2 by lia. by replace (S (length l) - length l)%nat with 1%nat by lia. }
  replace (<[length l := a]> (l ++ k :: a :: r ++ z)) with ((l ++ [a]) ++ a :: r ++ z).
  2: { rewrite insert_app_r_alt, Nat.sub_diag by done. by rewrite <- app_assoc. }
  destruct (IH (l ++ [a]) a) as [x Hx]. rewrite length_app, Nat.add_1_r in Hx.
  exists x. rewrite Hx. by rewrite <- app_assoc.
Qed.

Lemma filter_none (k : Z) (l : list Z) : k ∉ l -> filter (fun x => x <> k) l = l.
Proof.
  induction l as [|a l IH]; [done|]. intros [Hne Hl]%not_elem_of_cons.
  rewrite filter_cons_True by congruence. by rewrite IH.
Qed.

Lemma keys_as_remove p k s :
  keys_as p s -> keys_as (p.1, filter (fun x => x <> k) p.2) (remove_key k s).
Proof.
  intros Hs. pose proof Hs as (Hm & Hc & Hl & Hk & Hn). unfold remove_key.
  rewrite (take_pressed p s Hs). destruct (list_find (eq k) p.2) as [[i k']|] eqn:F.
  - apply list_find_Some in F as (Hi & <- & _). apply list_elem_of_split_length in Hi as (l & r & E & ->).
    unfold keys_as. cbn [s_modifiers s_key_count s_keys set fst snd].
    rewrite Hk, Hc, E in *. rewrite <- app_assoc. cbn [app].
    rewrite !length_app in *. cbn [length] in *.
    replace (length l + S (length r) - 1 - length l)%nat with (length r) by lia.
    destruct (shift_keys_spec r l k (replicate (6 - (length l + S (length r))) 0)) as [x ->].
    apply NoDup_app in Hn as (Hnl & Hd & Hnr). apply NoDup_cons in Hnr as [Hkr Hnr].
    rewrite filter_app, filter_cons_False by (by intros []). rewrite !filter_none; [|done|].
    2: { intros H. apply (Hd k H). by left. }
    rewrite length_app. split_and!; [done | lia | lia | |].
    + rewrite insert_app_r_alt by lia. rewrite <- app_assoc. f_equal.
      replace (length l + S (length r) - 1 - length l)%nat with (length r) by lia.
      rewrite insert_app_r_alt, Nat.sub_diag by lia. f_equal.
      by replace (6 - (length l + length r))%nat with (S (6 - (length l + S (length r)))) by lia.
    + apply NoDup_app. split; [done|]. split; [|done]. intros y Hy Hyr. apply (Hd y Hy). by right.
  - apply list_find_None in F. rewrite filter_none; [done|]. intros H.
    rewrite Forall_forall in F. by apply (F k H).
Qed.

Lemma key_event_spec p e s : keys_as p s -> wp (key_event_run e) (fun _ => keys_as (key_spec p e)) s.
Proof.
  intros Hs. destruct p as [mods pressed]. destruct e as [code|code]; cbn [key_event_run key_spec].
  - unfold hid_key_down. destruct (js_code_to_mod code =? 0); cbn [negb].
    2: { apply then_send. wp_step. destruct Hs as (H1 & ? & ? & ? & ?). split_and!; try done. cbn in *. by rewrite H1. }
    assert (Hsend : wp send_keyboard (fun _ => keys_as (mods, pressed)) s)
      by by apply (keys_as_input _ s); [apply send_keyboard_input|].
    destruct (js_code_to_hid code =? 0) eqn:Hz; cbn [orb]; [done|]. do 2 wp_step.
    assert (Hheld : key_held (js_code_to_hid code) s = bool_decide (js_code_to_hid code ∈ pressed)).
    { unfold key_held. rewrite (take_pressed _ s Hs). cbn [snd]. apply eq_true_iff_eq.
      rewrite existsb_exists, bool_decide_eq_true. split.
      - intros (x & Hin & ->%Z.eqb_eq). by apply list_elem_of_In.
      - intros Hin. exists (js_code_to_hid code). by rewrite list_elem_of_In in Hin; rewrite Z.eqb_refl. }
    rewrite Hheld. destruct (bool_decide _) eqn:Hin; [done|]. apply bool_decide_eq_false in Hin.
    cbn [orb]. apply then_send. wp_step. destruct (6 <=? length pressed)%nat eqn:Hlen; to_props.
    + unfold push_key. destruct Hs as (H1 & H2 & H3 & H4 & H5). cbn [snd] in *.
      rewrite (proj2 (Nat.ltb_ge _ _)) by lia. by split_and!.
    + by apply (keys_as_push (mods, pressed)).
  - unfold hid_key_up. apply then_send. wp_step. destruct (js_code_to_mod code =? 0); cbn [negb].
    + by apply (keys_as_remove (mods, pressed)).
    + destruct Hs as (H1 & ? & ? & ? & ?). split_and!; try done. cbn in *. by rewrite H1.
Qed.

(** The six-key array refines a list of distinct pressed keys. However the
    endpoint behaves and whatever else happens meanwhile, after any sequence of
    key events from a released keyboard the array holds exactly the pressed
    keys in the order they went down, padded with zeros; a key is held at most
    once, a seventh key is ignored, and modifiers are kept in their mask. *)
Theorem key_array_refines_list evs s :
  s_modifiers s = 0 -> s_key_count s = 0%nat -> s_keys s = no_keys ->
  wp (for_each evs key_event_run) (fun _ s' =>
    let '(mods, pressed) := fold_left key_spec evs (0, []) in
    s_modifiers s' = mods /\ s_key_count s' = length pressed /\ (length pressed <= 6)%nat /\
    s_keys s' = pressed ++ replicate (6 - length pressed) 0 /\ NoDup pressed) s.
Proof.
  intros Hm Hc Hk. assert (Hs : keys_as (0, []) s) by (split_and!; try done; [cbn; lia | constructor]).
  clear Hm Hc Hk. revert Hs. generalize (0, [] : list Z). revert s.
  induction evs as [|e evs IH]; intros s p Hs; cbn [for_each fold_left].
  - by destruct p.
  - wp_step. eapply wp_mono; [by apply key_event_spec|]. cbv beta. intros _ s' Hs'. by apply IH.
Qed.

Lemma key_array_refines_list_witness :
  let evs := [KeyDown (Some (cstr "ShiftLeft")); KeyDown (Some (cstr "KeyA"));
              KeyDown (Some (cstr "KeyB")); KeyUp (Some (cstr "KeyA"));
              KeyDown (Some (cstr "KeyB"))] in
  s_modifiers hid_initial = 0 /\ fold_left key_spec evs (0, []) = (2, [5]) /\
  wp (for_each evs key_event_run) (fun _ s' =>
    let '(mods, pressed) := fold_left key_spec evs (0, []) in
    s_modifiers s' = mods /\ s_key_count s' = length pressed /\ (length pressed <= 6)%nat /\
    s_keys s' = pressed ++ replicate (6 - length pressed) 0 /\ NoDup pressed) hid_initial.
Proof.
  intros evs. split; [reflexivity|]. split; [by_eval|].
  exact (key_array_refines_list evs hid_initial eq_refl eq_refl eq_refl).
Defined.

(** ** A revoked command stops *)

Definition holds_input (r : hid_report) : bool :=
  match r with
  | keyboard_report mods ks => negb (bool_decide ((mods, ks) = (0, no_keys)))
  | mouse_report buttons _ _ _ _ => negb (buttons =? 0)
  | abs_report bytes => negb (nth 0 bytes 0 =? 0)
  end.

(** The reports that hold input and went out after the revocation. *)
Definition late (s : hid_state) : nat :=
  length (filter (fun e => e.2 && holds_input e.1 = true) (sent s)).

Definition revoked (s : hid_state) : bool := bool_decide (is_Some (blocked s)).

Definition stops (s s' : hid_state) : Prop :=
  (revoked s = true -> revoked s' = true /\ late s' = late s) /\
  (revoked s = false -> late s <= late s' <= late s + if revoked s' then 1 else 0)%nat.

#[export] Instance stops_refl : Reflexive stops.
Proof. intros s. split; [done | lia]. Qed.
#[export] Instance stops_trans : Transitive stops.
Proof.
  intros s1 s2 s3 [H1 H2] [H3 H4]. destruct (revoked s1) eqn:E1.
  - destruct (H1 eq_refl) as [E2 L2]. destruct (H3 E2) as [E3 L3].
    unfold stops. rewrite E1. split; [|done]. split; [done | congruence].
  - unfold stops. rewrite E1. split; [done|]. intros _. specialize (H2 eq_refl).
    destruct (revoked s2) eqn:E2; [destruct (H3 eq_refl) as [-> ->]; lia|].
    specialize (H4 eq_refl). lia.
Qed.

(** Nothing that holds input goes out. *)
Definition silent (s s' : hid_state) : Prop :=
  late s' = late s /\ (revoked s = true -> revoked s' = true).

#[export] Instance silent_refl : Reflexive silent.
Proof. done. Qed.
#[export] Instance silent_trans : Transitive silent.
Proof. intros s1 s2 s3 [H1 H2] [H3 H4]. split; [congruence | auto]. Qed.

Lemma silent_stops s s' : silent s s' -> stops s s'.
Proof. intros [H1 H2]. split; [auto | lia]. Qed.

Lemma env_silent s s' : env s s' -> silent s s'.
Proof.
  intros H. split.
  - apply env_command_view in H. unfold command_view in H. unfold late. congruence.
  - revert H. apply (env_rel (kept (fun s => revoked s = true))); [intros ? ? H; exact H | | intros ? H; exact H].
    intros s0 e. destruct (event_apply_cases s0 e) as [->|[->|[->|(t & p & s1 & -> & G & St & ->)]]];
      [intros H; exact H ..|]. by intros _.
Qed.

(** A command that still runs: it is aborted exactly when it was revoked. *)
Definition live (s : hid_state) : Prop :=
  s_command_active s = true /\ (gate_free s = true -> revoked s = false) /\
  1 <= s_active_command_generation s < 2 ^ 32 /\
  (revoked s = false -> fence_generation (s_abort_fence s) = s_active_command_generation s) /\
  (revoked s = true -> fence_generation (s_abort_fence s) <> s_active_command_generation s).

Lemma bump_other g : 1 <= g < 2 ^ 32 -> bump g <> g.
Proof.
  intros H. apply (bump_iter_fresh 1 g H); lia.
Qed.

Lemma env_live s s' : env s s' -> kept live s s'.
Proof.
  apply (env_rel (kept live)); [intros ? ? H; exact H | | intros ? H; exact H].
  intros s0 e H. destruct (event_apply_cases s0 e) as [->|[->|[->|(t & p & s1 & -> & G & St & ->)]]];
    [done..|].
  pose proof (transition_start_cases t s0) as Ht. rewrite St in Ht.
  destruct Ht as (_ & o & ps & _ & ->). destruct H as (Ha & Hg & Hr & Hf & _).
  do 4 (split; [done|]). intros _.
  change (bump (fence_generation (s_abort_fence s0)) <> s_active_command_generation s0).
  rewrite (Hf (Hg G)). by apply bump_other.
Qed.

Lemma live_not_aborted s : live s -> active_command_aborted s = false -> revoked s = false.
Proof.
  intros (Ha & _ & Hr & _ & Hf) Hn. apply not_true_iff_false. intros Hrev.
  specialize (Hf Hrev). revert Hn. unfold active_command_aborted, si_hid_abort_fence_is_current.
  rewrite Ha. cbn. rewrite (proj2 (Z.eqb_neq _ _) Hf), andb_false_r. done.
Qed.

Lemma accepted_sent report mask neutral s :
  late (report_accepted report mask neutral s) =
    (late s + if revoked s && holds_input (report s) then 1 else 0)%nat /\
  revoked (report_accepted report mask neutral s) = revoked s.
Proof.
  split; [|by unfold report_accepted; cbv zeta; destruct (report s)].
  assert (Hs : sent (report_accepted report mask neutral s)
               = sent s ++ [(report s, revoked s)])
    by (unfold report_accepted; cbv zeta; by destruct (report s)).
  unfold late. rewrite Hs, filter_app, length_app. f_equal. rewrite filter_cons. cbn [fst snd].
  by destruct (revoked s), (holds_input (report s)).
Qed.

Definition runs (s s' : hid_state) : Prop := live s -> live s' /\ stops s s'.

#[export] Instance runs_refl : Reflexive runs.
Proof. by intros s. Qed.
#[export] Instance runs_trans : Transitive runs.
Proof.
  intros s1 s2 s3 H1 H2 H. destruct (H1 H) as [L2 S2]. destruct (H2 L2) as [L3 S3].
  split; [done | by etrans].
Qed.

Lemma env_runs s s' : env s s' -> runs s s'.
Proof. intros H Hl. split; [by apply (env_live s) | by apply silent_stops, env_silent]. Qed.

Lemma runs_local s s' :
  (blocked s', s_command_active s', gate_free s', s_active_command_generation s', s_abort_fence s',
   sent s') = (blocked s, s_command_active s, gate_free s, s_active_command_generation s,
   s_abort_fence s, sent s) -> runs s s'.
Proof.
  intros E (H1 & H2 & H3 & H4 & H5). unfold live, stops, late, revoked in *.
  injection E as -> -> -> -> -> ->. split; [done|]. apply stops_refl.
Qed.

Lemma send_recorded_runs itf t report error :
  itf_report itf report -> moves runs (send_recorded itf t report error).
Proof.
  intros Hr. unfold send_recorded, record_send_result. refine (moves_bind _ _ _ _ _).
  2: { intros ok. moves_go; intros s; by apply runs_local. }
  intros s Hl. refine (wp_mono _ _ (fun _ s' => live s' /\ stops s s') s (send_report_spec _ _ _ _ _ _ _) _).
  { intros s1 s2. by apply (itf_report_input itf). }
  cbn. intros [] s'; [|by intros H; apply env_runs]. intros (s0 & H0 & Ha & _ & ->).
  destruct (env_runs _ _ H0 Hl) as [Hl0 S0]. pose proof (live_not_aborted s0 Hl0 Ha) as Hn.
  destruct (env_runs _ _ (env_once _ _ (env_poll s0)) Hl0) as [Hl1 S1].
  set (s1 := (poll s0).2) in *.
  pose proof (accepted_sent report (itf_mask itf) (itf_neutral itf) s1) as [Hlate Hrev].
  pose proof (accepted_rest report (itf_mask itf) (itf_neutral itf) s1) as [Eq _].
  set (s' := report_accepted _ _ _ s1) in *. clearbody s'. split.
  - unfold live. rewrite Hrev. destruct Hl1 as (L1 & L2 & L3 & L4 & L5).
    assert (s_command_active s' = s_command_active s1) as -> by congruence.
    assert (gate_free s' = gate_free s1) as -> by congruence.
    assert (s_active_command_generation s' = s_active_command_generation s1) as -> by congruence.
    by assert (s_abort_fence s' = s_abort_fence s1) as -> by congruence.
  - etrans; [exact S0|]. split; [congruence|]. intros _. rewrite Hrev, Hlate.
    assert (late s1 = late s0) as -> by apply (env_silent _ _ (env_once _ _ (env_poll s0))).
    destruct (revoked s1); cbn; [destruct (holds_input _); lia | lia].
Qed.

Lemma send_keyboard_runs : moves runs send_keyboard.
Proof. destruct send_keyboard_recorded as (t & r & e & Hr & ->). by apply send_recorded_runs. Qed.
Lemma send_mouse_runs x y w p t : moves runs (send_mouse x y w p t).
Proof. destruct (send_mouse_recorded x y w p t) as (r & e & Hr & ->). by apply send_recorded_runs. Qed.
Lemma send_abs_runs t : moves runs (send_abs t).
Proof. destruct (send_abs_recorded t) as (r & e & Hr & ->). by apply send_recorded_runs. Qed.

Lemma delay_runs : moves runs delay.
Proof.
  unfold delay. refine (moves_bind _ _ _ _ _); [|intros _; refine (moves_ret _ _)].
  intros s. apply env_runs, env_once, env_poll.
Qed.
#[local] Hint Resolve send_keyboard_runs send_mouse_runs send_abs_runs delay_runs : firmware.

Lemma silent_local s s' : sent s' = sent s -> blocked s' = blocked s -> silent s s'.
Proof. intros E1 E2. unfold silent, late, revoked. by rewrite E1, E2. Qed.

(** The input of an endpoint is released. *)
Definition itf_clear (itf : hid_itf) (s : hid_state) : Prop :=
  match itf with
  | HID_ITF_KEYBOARD => s_modifiers s = 0 /\ s_keys s = no_keys
  | HID_ITF_MOUSE => s_mouse_buttons s = 0
  | HID_ITF_ABS_POINTER => s_abs_buttons s = 0
  end.

Lemma clear_report_silent itf report s :
  itf_report itf report -> itf_clear itf s -> holds_input (report s) = false.
Proof.
  intros Hr Hc. destruct itf; cbn in Hr, Hc;
    [subst; destruct Hc as [H1 H2] | destruct Hr as (? & ? & ? & ? & ->) | subst]; cbn [holds_input].
  - by rewrite H1, H2.
  - by rewrite Hc.
  - cbn. by rewrite Hc.
Qed.

Lemma send_recorded_silent itf t report error s :
  itf_report itf report -> itf_clear itf s ->
  wp (send_recorded itf t report error) (fun _ => silent s) s.
Proof.
  intros Hr Hc. unfold send_recorded. wp_step.
  eapply wp_mono with (Q := fun _ => silent s).
  - eapply wp_mono; [apply send_report_spec; intros s1 s2; by apply (itf_report_input itf)|].
    cbv beta. intros [] s'; [|apply env_silent]. intros (s0 & H0 & _ & _ & ->).
    assert (He : env s (poll s0).2) by (etrans; [exact H0 | apply env_once, env_poll]).
    etrans; [by apply env_silent|]. pose proof (env_input_state _ _ He) as Ei.
    generalize dependent (poll s0).2. intros s1 He Ei.
    destruct (accepted_sent report (itf_mask itf) (itf_neutral itf) s1) as [Hl Hv].
    split; [|congruence]. rewrite Hl.
    rewrite (itf_report_input itf report s s1 Hr Ei), (clear_report_silent itf report s Hr Hc).
    rewrite andb_false_r. lia.
  - cbv beta. intros ok s1 H1. unfold record_send_result.
    wp_steps; (etrans; [exact H1 | by apply silent_local]).
Qed.

Lemma release_all_silent : moves silent release_all_locked.
Proof.
  intros s. change (wp release_all_locked (fun _ => silent s) s).
  assert (Hstage : forall itf c m s0 s1,
    (exists t report error, itf_report itf report /\ m = send_recorded itf t report error) ->
    itf_clear itf s1 -> silent s0 s1 -> wp (when c m) (fun _ => silent s0) s1).
  { intros itf c m s0 s1 (t & report & error & Hr & ->) Hc Hs. apply wp_when; intros _; [|done].
    eapply wp_mono; [by apply send_recorded_silent|]. cbv beta. intros _ s2 H2. by etrans. }
  unfold release_all_locked. do 2 wp_step.
  assert (H0 : silent s (reset_keys s)) by by apply silent_local. do 3 wp_step.
  eapply wp_mono; [by apply (Hstage HID_ITF_KEYBOARD _ _ s); [apply send_keyboard_recorded|..]|].
  cbv beta. intros _ s1 H1. do 5 wp_step.
  eapply wp_mono; [apply (Hstage HID_ITF_MOUSE _ _ s); [eexists; apply send_mouse_recorded|done|];
    etrans; [exact H1 | by apply silent_local]|].
  cbv beta. intros _ s2 H2. do 4 wp_step.
  apply (Hstage HID_ITF_ABS_POINTER _ _ s); [eexists; apply send_abs_recorded|done|].
  etrans; [exact H2 | by apply silent_local].
Qed.

#[local] Hint Resolve release_all_silent : firmware.

Ltac silent_go := moves_go; intros s0; by apply silent_local.

Lemma drain_silent : moves silent drain_neutral_pending_locked.
Proof. unfold drain_neutral_pending_locked, apply_mount_reset_locked. silent_go. Qed.

Lemma neutralize_silent : moves silent neutralize_aborted_command_locked.
Proof. unfold neutralize_aborted_command_locked. silent_go. Qed.

#[local] Hint Resolve drain_silent neutralize_silent : firmware.

Lemma command_fails_silent m e : moves silent (command_fails m e).
Proof.
  unfold command_fails. moves_go. intros s. apply silent_local; cbn [modify snd];
    unfold set_last_error_text; by case_if.
Qed.

#[local] Hint Resolve command_fails_silent : firmware.

Lemma command_finishes_silent command o ret : moves silent (command_finishes command o ret).
Proof.
  unfold command_finishes. moves_go; intros s; apply silent_local; cbn [modify snd]; repeat case_if; done.
Qed.

(** From a running command: at most the report in flight is late. *)
Definition halts {A} (m : st hid_state A) : Prop :=
  forall s, live s -> wp m (fun _ => stops s) s.

Lemma halts_runs {A} (m : st hid_state A) : moves runs m -> halts m.
Proof. intros H s Hs. by apply (H s). Qed.

Lemma halts_bind {A B} (m : st hid_state A) (k : A -> st hid_state B) :
  moves runs m -> (forall a, halts (k a)) -> halts (bind m k).
Proof.
  intros Hm Hk s Hs. wp_step. unfold wp at 1. destruct (Hm s Hs) as [Hl Hst].
  eapply wp_mono; [by apply Hk|]. cbv beta. intros b s' H. by etrans.
Qed.

Lemma halts_then_silent {A B} (m : st hid_state A) (k : A -> st hid_state B) :
  halts m -> (forall a, moves silent (k a)) -> halts (bind m k).
Proof.
  intros Hm Hk s Hs. wp_step. eapply wp_mono; [by apply Hm|]. cbv beta. intros a s' H.
  unfold wp. etrans; [exact H | apply silent_stops, Hk].
Qed.

Lemma neutralize_false s :
  (neutralize_aborted_command_locked s).1 = false ->
  (neutralize_aborted_command_locked s).2 = s.
Proof.
  unfold neutralize_aborted_command_locked, bind, gets.
  destruct (s_command_was_aborted s); [done|].
  destruct (active_command_aborted s); cbn [negb]; [|done].
  cbn [modify]. by destruct (release_all_locked _).
Qed.

Lemma halts_unless k : halts k -> halts (unless_aborted k).
Proof.
  intros Hk s Hs. unfold unless_aborted. wp_step. unfold wp at 1.
  pose proof (neutralize_silent s) as Hsil. pose proof (neutralize_false s) as Hf.
  destruct (neutralize_aborted_command_locked s) as [[] s']; cbn [fst snd] in *.
  - wp_step. by apply silent_stops.
  - rewrite (Hf eq_refl). by apply Hk.
Qed.

Ltac runs_go := moves_go; intros s0; by apply runs_local.

Ltac pointer_runs f := unfold f; runs_go.

Lemma send_mouse_counts_runs dx dy t : moves runs (send_mouse_counts dx dy t).
Proof. pointer_runs send_mouse_counts. Qed.
Lemma hid_mouse_down_runs b : moves runs (hid_mouse_down b).
Proof. pointer_runs hid_mouse_down. Qed.
Lemma hid_mouse_up_runs b : moves runs (hid_mouse_up b).
Proof. pointer_runs hid_mouse_up. Qed.
Lemma hid_mouse_scroll_runs y x : moves runs (hid_mouse_scroll y x).
Proof. pointer_runs hid_mouse_scroll. Qed.
Lemma hid_abs_move_runs x y : moves runs (hid_abs_move x y).
Proof. pointer_runs hid_abs_move. Qed.
Lemma hid_abs_mouse_down_runs b : moves runs (hid_abs_mouse_down b).
Proof. pointer_runs hid_abs_mouse_down. Qed.
Lemma hid_abs_mouse_up_runs b : moves runs (hid_abs_mouse_up b).
Proof. pointer_runs hid_abs_mouse_up. Qed.

Lemma push_key_runs k s : runs s (push_key k s).
Proof. apply runs_local. unfold push_key. by case_if. Qed.

Lemma key_down_runs code : moves runs (hid_key_down code).
Proof.
  unfold hid_key_down. moves_go; intros s; [by apply runs_local | apply push_key_runs].
Qed.

Lemma key_up_runs code : moves runs (hid_key_up code).
Proof.
  unfold hid_key_up. moves_go. intros s. apply runs_local. cbn [modify snd]. case_if; [done|].
  unfold remove_key. by destruct (list_find _ _) as [[]|].
Qed.

#[local] Hint Resolve key_down_runs key_up_runs send_mouse_counts_runs hid_mouse_down_runs hid_mouse_up_runs hid_mouse_scroll_runs hid_abs_move_runs hid_abs_mouse_down_runs hid_abs_mouse_up_runs : firmware.

Lemma combo_press_runs command s : runs s (combo_press command s).
Proof.
  apply runs_local. unfold combo_press. set (s0 := reset_keys s).
  assert (H0 : (blocked s0, s_command_active s0, gate_free s0, s_active_command_generation s0,
    s_abort_fence s0, sent s0) = (blocked s, s_command_active s, gate_free s,
    s_active_command_generation s, s_abort_fence s, sent s)) by done.
  clearbody s0. revert s0 H0. induction (cmd_modifiers command) as [|m ms IH]; cbn [fold_left].
  - induction (cmd_keys command) as [|k ks IH]; cbn [fold_left]; intros s0 H0; [done|].
    apply IH. case_if; [done|]. unfold push_key. by case_if.
  - intros s0 H0. by apply IH.
Qed.

Lemma press_and_release_halts down up :
  moves runs down -> moves runs up -> halts (press_and_release down up).
Proof.
  intros Hd Hu. unfold press_and_release. apply halts_bind; [done | intros _]. apply halts_unless.
  apply halts_bind; [apply delay_runs | intros _]. by apply halts_unless, halts_runs.
Qed.

Lemma send_combo_halts command : halts (send_combo command).
Proof.
  unfold send_combo. apply halts_bind; [refine (moves_gets _ _) | intros [[m ks] c]].
  apply halts_bind; [intros s; apply combo_press_runs | intros _].
  apply halts_bind; [apply send_keyboard_runs | intros _]. apply halts_unless.
  apply halts_bind; [apply delay_runs | intros _]. apply halts_unless.
  apply halts_bind; [intros s; by apply runs_local | intros _].
  apply halts_bind; [apply send_keyboard_runs | intros _]. apply halts_unless, halts_runs. runs_go.
Qed.

Lemma run_command_halts command o : halts (run_command command o).
Proof.
  assert (Hret : forall (m : st hid_state unit) (e : esp_err_t), halts m -> halts (m ;; mret e)).
  { intros m e Hm. apply halts_then_silent; [done|]. intros _. refine (moves_ret _ _). }
  unfold run_command, hid_mouse_move.
  destruct (cmd_type command); try (apply halts_runs; by moves_go).
  - apply halts_bind; [refine (moves_gets _ _) | intros p].
    apply halts_bind; [apply hid_abs_move_runs | intros _].
    apply Hret, press_and_release_halts; eauto with firmware.
  - apply Hret, press_and_release_halts; eauto with firmware.
  - apply Hret, send_combo_halts.
  - apply Hret. intros s Hs. unfold wp. apply silent_stops. revert s Hs.
    assert (H : moves silent (release_all_command o)) by (unfold release_all_command; silent_go).
    intros s _. apply H.
Qed.

(** C23: a revoked command stops. A command that was admitted under the current
    fence sends, once another task's transition has revoked its owner, at most
    the one report that was already past its last check; everything it still
    sends after that is neutral. Without a revocation nothing is late. *)
Theorem revoked_command_stops command owner s :
  let g := fence_generation (s_abort_fence s) in
  1 <= g < 2 ^ 32 -> blocked s = None ->
  wp (command_runs command owner g) (fun _ s' =>
    (late s' <= late s + 1)%nat /\ (blocked s' = None -> late s' = late s)) s.
Proof.
  intros g Hg Hb. unfold command_runs. do 2 wp_step.
  assert (Hl : live (command_starts owner g s)).
  { unfold live, revoked. cbn [command_starts blocked set]. by rewrite Hb. }
  assert (Hs : late (command_starts owner g s) = late s /\ revoked (command_starts owner g s) = false).
  { split; [done|]. unfold revoked. cbn. by rewrite Hb. }
  assert (H : halts (ret ← run_command command owner; command_finishes command owner ret)).
  { apply halts_then_silent; [apply run_command_halts|]. intros ret. apply command_finishes_silent. }
  eapply wp_mono; [by apply H|]. cbv beta. intros _ s' [_ Hst]. destruct Hs as [Hs Hr].
  specialize (Hst Hr). rewrite Hs in Hst. unfold revoked in Hst.
  destruct (blocked s'); cbn in Hst; (split; [lia|]); [done | intros _; lia].
Qed.

(** C22: what the host holds pressed is accounted for, as long as the host does not
    attach the device anew while a command runs. In every state that calls of any
    tasks, USB events between the calls and transitions waiting for a command can
    reach without such an attachment ([quiet_tick]), when the guards and whatever runs
    between two attempts keep this invariant too, each endpoint that holds input is
    marked dirty, whatever is dirty belongs to a report owner that the next command or
    transition cleans up after, a device that is gone or configured anew holds
    nothing, and the key array is well formed. After an attachment during a command
    the host can hold a key that is not marked dirty
    ([attach_during_command_leaves_key_held]). *)
Theorem host_input_accounted call_guard between s :
  (forall i g, moves (kept (rest i)) (call_guard g)) ->
  (forall i, moves (kept (rest i)) between) ->
  rtc (hid_manager_step call_guard between) hid_initial s ->
  hid_ok None s /\ gate_free s = false.
Proof. intros Hg Hb. by apply reachable_idle. Qed.

(** C21: a transition that succeeds hands over a neutral host. After any calls and USB
    events in which no attachment arrives while a command runs ([quiet_tick]), when the
    guards and whatever runs between two attempts keep the invariant of the manager,
    and also when the transition had to wait for a command that was still running: on
    success no endpoint holds input and the current token is the new claim with the
    newest generation (or no token, for a release); on failure nobody owns the
    reports. Only a refused claim or one that is already current leaves the owner
    alone. After an attachment during a command a transition can succeed while the
    host holds a key ([attach_during_command_leaves_key_held]). *)
Theorem transition_hands_over_neutral call_guard between s transition ts :
  (forall i g, moves (kept (rest i)) (call_guard g)) ->
  (forall i, moves (kept (rest i)) between) ->
  rtc (hid_manager_step call_guard between) hid_initial s ->
  (blocked s = None ->
   let '(r, s') := owner_transition_locked transition (scripted ts s) in
   transition_outcome transition (scripted ts s) r s') /\
  (forall previous, blocked s = Some (transition, previous) ->
   let '(r, s') := transition_resume (scripted ts s) in transition_done transition r s').
Proof.
  intros Hg Hb Hr. pose proof (scripted_idle ts s (reachable_idle _ _ Hg Hb s Hr)) as Hs.
  split.
  - intros Hn. destruct (transition_spec transition (scripted ts s) Hs Hn) as (_ & _ & H).
    by destruct (owner_transition_locked _ _).
  - intros previous Hp. destruct (resume_spec transition previous (scripted ts s) Hs Hp) as (_ & _ & H).
    by destruct (transition_resume _).
Qed.

(** ** A concrete run: a key is held when the next owner takes over *)

Definition tick_yes : tick := mk_tick [] true 0.
Definition tick_no : tick := mk_tick [] false 0.

Definition demo_claim (epoch : Z) : si_hid_owner_claim_t :=
  mk_claim (enum_val SI_HID_OWNER_CONTROL_LEASE) (cstr "s1") 7 0 epoch.
Definition demo_owner : si_hid_owner_token_t := mk_token (demo_claim 1) 1.
Definition demo_take (epoch : Z) : si_hid_owner_transition_t :=
  mk_transition true false (demo_claim epoch).

Definition demo_key (type : si_hid_command_type_t) : si_hid_command_t :=
  mk_command type (Some (cstr "KeyA")) None 0 0 0 0 false false 0 0 0 [] [].

Definition always (_ : Z * Z) : st hid_state bool := mret true.

Definition demo_ready : hid_state :=
  hid_event_apply (si_hid_init true ESP_OK (scripted [tick_yes] hid_initial)).2 EvAttached.

Definition demo_owned : hid_state :=
  (owner_transition_locked (demo_take 1) (scripted [tick_yes] demo_ready)).2.

Definition demo_press (ts : list tick) : hid_state :=
  (si_hid_execute_owned always (mret tt) (Some (demo_key SI_HID_COMMAND_KEY_DOWN))
     (Some demo_owner) None (scripted ts demo_owned)).2.

(** [suspended] no, then gate, command lock, endpoint ready, report accepted. *)
Definition demo_ticks : list tick := [tick_no; tick_yes; tick_yes; tick_yes; tick_yes].

Lemma always_rest i g : moves (kept (rest i)) (always g).
Proof. unfold always. moves_go. Qed.

Lemma pause_rest i : moves (kept (rest i)) (mret tt).
Proof. moves_go. Qed.

Lemma demo_reachable ts :
  Forall quiet_tick ts ->
  rtc (hid_manager_step always (mret tt)) hid_initial (demo_press ts).
Proof.
  intros Hq.
  assert (H1 : blocked demo_ready = None) by by_eval.
  assert (H2 : blocked demo_owned = None) by by_eval.
  pose proof (step_execute always (mret tt) demo_owned ts
    (Some (demo_key SI_HID_COMMAND_KEY_DOWN)) (Some demo_owner) None H2 Hq) as S4.
  assert (S3 : hid_manager_step always (mret tt) demo_ready demo_owned)
    by exact (step_transition always (mret tt) demo_ready [tick_yes] (demo_take 1) H1).
  apply (rtc_l _ _ _ _ (step_init always (mret tt) hid_initial [tick_yes] true ESP_OK eq_refl)).
  apply (rtc_l _ _ demo_ready _ (step_attached _ _ _)).
  exact (rtc_l _ _ _ _ S3 (rtc_once _ _ S4)).
Qed.

Lemma demo_quiet : Forall quiet_tick demo_ticks.
Proof. repeat constructor; apply not_elem_of_nil. Qed.

Lemma host_input_accounted_witness :
  host_keyboard (demo_press demo_ticks) = (0, [4; 0; 0; 0; 0; 0]) /\
  hid_ok None (demo_press demo_ticks) /\ gate_free (demo_press demo_ticks) = false.
Proof.
  split; [by_eval|].
  exact (host_input_accounted always (mret tt) _ always_rest pause_rest
           (demo_reachable _ demo_quiet)).
Defined.

Definition demo_handover : bool * option si_hid_owner_token_t * hid_state :=
  owner_transition_locked (demo_take 2)
    (scripted [tick_yes; tick_yes; tick_yes] (demo_press demo_ticks)).

Lemma transition_hands_over_neutral_witness :
  host_keyboard (demo_press demo_ticks) = (0, [4; 0; 0; 0; 0; 0]) /\
  demo_handover.1 = (true, Some (mk_token (demo_claim 2) 3)) /\
  host_keyboard demo_handover.2 = (0, no_keys) /\
  (blocked (demo_press demo_ticks) = None ->
   let '(r, s') := demo_handover in
   transition_outcome (demo_take 2)
     (scripted [tick_yes; tick_yes; tick_yes] (demo_press demo_ticks)) r s').
Proof.
  split; [by_eval|]. split; [by_eval|]. split; [by_eval|].
  unfold demo_handover.
  exact (proj1 (transition_hands_over_neutral always (mret tt) (demo_press demo_ticks)
           (demo_take 2) [tick_yes; tick_yes; tick_yes] always_rest pause_rest
           (demo_reachable _ demo_quiet))).
Defined.

(** The command is revoked while its report is on the way out; the key is
    released again at once. *)
Definition demo_race : hid_state :=
  scripted [tick_yes; mk_tick [EvTransition (demo_take 2)] true 0; tick_yes; tick_yes]
    (demo_press demo_ticks).

Definition demo_revoked : hid_state :=
  (command_runs (demo_key SI_HID_COMMAND_KEY_DOWN) demo_owner
     (fence_generation (s_abort_fence demo_race)) demo_race).2.

Lemma revoked_command_stops_witness :
  late demo_revoked = 1%nat /\ length (sent demo_revoked) = 3%nat /\
  host_keyboard demo_revoked = (0, no_keys) /\
  wp (command_runs (demo_key SI_HID_COMMAND_KEY_DOWN) demo_owner
        (fence_generation (s_abort_fence demo_race))) (fun _ s' =>
    (late s' <= late demo_race + 1)%nat /\ (blocked s' = None -> late s' = late demo_race)) demo_race.
Proof.
  split; [by_eval|]. split; [by_eval|]. split; [by_eval|].
  apply revoked_command_stops; [vm_compute; by split | by_eval].
Defined.

(** An attachment while a command runs: the key goes to the new host
    configuration, and the reset that the attachment asked for makes the next
    release forget it. *)
Definition tick_attach : tick := mk_tick [EvAttached] true 0.

Lemma attach_during_command_leaves_key_held :
  let s := demo_press [tick_no; tick_yes; tick_yes; tick_attach; tick_yes] in
  let '(released, _, s') := owner_transition_locked zero_transition (scripted [tick_yes] s) in
  released = true /\ host_keyboard s' = (0, [4; 0; 0; 0; 0; 0]) /\
  dirty s' = 0 /\ s_keys s' = no_keys.
Proof. vm_compute. by split_and!. Qed.
