(* ===== verification/ControlLease.v ===== *)
(** * The control lease: [application/control_lease.c]

    The single lease that lets an agent or an MCP client drive the target's
    keyboard and mouse.  The lease decides, under the HID authority gate, who
    owns the reports; the decision is the callback of an authority transition of
    the HID manager.  Everything the callback reads from outside (the live
    guard's answer, the video status, the lock and the clock) is an input of the
    call. *)

From Stdlib Require Import String.
From S2P Require Import Prelude CText Firmware HidOwner HidManager.

Definition LEASE_MAINTENANCE_MS : Z := 50.
Definition LEASE_PENDING_REVOKES : nat := 4.
Definition SI_CONTROL_LEASE_GRACE_MS : Z := 10000.
Definition SI_CONTROL_LEASE_MODE_MAX_LEN : nat := 16.
Definition SI_CONTROL_LEASE_OWNER_MAX_LEN : nat := 16.
Definition SI_CONTROL_LEASE_SESSION_ID_MAX_LEN : nat := 20.
Definition SI_CONTROL_LEASE_REASON_MAX_LEN : nat := 96.

(** ** Data *)

Inductive si_control_lease_update_result_t :=
| SI_CONTROL_LEASE_UPDATE_OK | SI_CONTROL_LEASE_UPDATE_INVALID
| SI_CONTROL_LEASE_UPDATE_HELD_BY_OTHER | SI_CONTROL_LEASE_UPDATE_UNAVAILABLE.

#[export] Instance lease_update_result_eq_dec : EqDecision si_control_lease_update_result_t.
Proof. solve_decision. Defined.

Record pending_revoke_t := mk_pending {
  used : bool;
  pending_session_id : cstring;
  pending_auth_generation : Z
}.

Definition no_pending : pending_revoke_t := mk_pending false [] 0.

Record lease_state := mk_lease {
  s_lock : bool;
  s_seen : bool;
  s_last_ms : Z;
  s_epoch : Z;
  s_resource_id : Z;
  s_next_embedded_resource_id : Z;
  s_auth_generation : Z;
  s_owner : cstring;
  s_mode : cstring;
  s_session_id : cstring;
  s_reason : cstring;
  s_pending_revokes : list pending_revoke_t;
  s_pending_revoke_fail_closed : bool;
  s_embedded_preempted : bool
}.

#[export] Instance eta_lease_state : Settable lease_state := fun s =>
  mk_lease (s_lock s) (s_seen s) (s_last_ms s) (s_epoch s) (s_resource_id s)
    (s_next_embedded_resource_id s) (s_auth_generation s) (s_owner s) (s_mode s)
    (s_session_id s) (s_reason s) (s_pending_revokes s) (s_pending_revoke_fail_closed s)
    (s_embedded_preempted s).

Definition embedded_agent : cstring := cstr "embedded-agent".

Definition lease_initial : lease_state :=
  mk_lease false false 0 1 0 0 0 (cstr "agent") (cstr "supervised") embedded_agent []
    (replicate LEASE_PENDING_REVOKES no_pending) false false.

Inductive lease_operation_t :=
| LEASE_OP_TOUCH_AGENT | LEASE_OP_TOUCH_BOOT | LEASE_OP_RELEASE_EMBEDDED
| LEASE_OP_ABANDON_EMBEDDED | LEASE_OP_UPDATE | LEASE_OP_REVOKE_SESSION | LEASE_OP_MAINTAIN.

#[export] Instance lease_operation_eq_dec : EqDecision lease_operation_t.
Proof. solve_decision. Defined.

(** [live_guard]: [None] is a NULL function, [Some b] one that answers [b]. *)
Record lease_transition_context_t := mk_context {
  operation : lease_operation_t;
  ctx_owner : option cstring;
  ctx_session_id : option cstring;
  ctx_mode : option cstring;
  ctx_reason : option cstring;
  ctx_auth_generation : Z;
  expected_owner : option si_hid_owner_token_t;
  active : bool;
  force : bool;
  stale_retry : bool;
  live_guard : option bool;
  ctx_error : esp_err_t;
  update_result : si_control_lease_update_result_t;
  state_changed : bool
}.

#[export] Instance eta_lease_context : Settable lease_transition_context_t := fun c =>
  mk_context (operation c) (ctx_owner c) (ctx_session_id c) (ctx_mode c) (ctx_reason c)
    (ctx_auth_generation c) (expected_owner c) (active c) (force c) (stale_retry c)
    (live_guard c) (ctx_error c) (update_result c) (state_changed c).

(** [{ .operation = op }]: everything else is zero. *)
Definition context_of (op : lease_operation_t) : lease_transition_context_t :=
  mk_context op None None None None 0 None false false false None ESP_OK
    SI_CONTROL_LEASE_UPDATE_OK false.

(** What one call reads from outside: the video status, the lease lock within its
    timeout, and the clock. *)
Record lease_env := mk_env { kvm_view_active : bool; lock_taken : bool; now_ms : Z }.

(** ** The lease under its lock *)

Definition epoch_bump_locked (s : lease_state) : lease_state :=
  s <| s_epoch := bump (s_epoch s) |>.

Definition active_locked (now : Z) (s : lease_state) : bool :=
  s_seen s && (u32 (now - s_last_ms s) <=? SI_CONTROL_LEASE_GRACE_MS).

Definition remaining_locked (now : Z) (s : lease_state) : Z :=
  if active_locked now s then SI_CONTROL_LEASE_GRACE_MS - u32 (now - s_last_ms s) else 0.

Definition pending_matches (session : cstring) (gen : Z) (p : pending_revoke_t) : bool :=
  used p && streq (pending_session_id p) session && (pending_auth_generation p =? gen).

Definition pending_revoke_add_under_hid_gate (session : cstring) (gen : Z) (s : lease_state)
  : lease_state :=
  return_if existsb (pending_matches session gen) (s_pending_revokes s) with s ;;
  match list_find (fun p => used p = false) (s_pending_revokes s) with
  | Some (i, _) =>
      s <| s_pending_revokes :=
        <[i := mk_pending true (strtrunc (SI_CONTROL_LEASE_SESSION_ID_MAX_LEN + 1) session) gen]>
          (s_pending_revokes s) |>
  | None => s <| s_pending_revoke_fail_closed := true |>
  end.

(** The lease ends: the holder is forgotten and the epoch moves on. *)
Definition drop_session (s : lease_state) : lease_state :=
  epoch_bump_locked
    (((((s <| s_seen := false |>) <| s_session_id := [] |>) <| s_reason := [] |>)
         <| s_auth_generation := 0 |>) <| s_resource_id := 0 |>).

(** The lease ends: its session stays on record. *)
Definition drop_lease (s : lease_state) : lease_state :=
  epoch_bump_locked (((s <| s_seen := false |>) <| s_reason := [] |>) <| s_resource_id := 0 |>).

Definition pending_revoke_apply (r : bool * lease_state) (p : pending_revoke_t)
  : bool * lease_state :=
  let '(changed, s) := r in
  return_if negb (used p) with (changed, s) ;;
  let matches := streq (s_session_id s) (pending_session_id p) &&
    ((pending_auth_generation p =? 0) || (s_auth_generation s =? pending_auth_generation p)) in
  if matches && s_seen s then (true, drop_session s) else (changed, s).

Definition pending_revokes_apply_locked (s : lease_state) : bool * lease_state :=
  let '(changed, s) :=
    if s_pending_revoke_fail_closed s
    then let '(changed, s) := if s_seen s then (true, drop_session s) else (false, s) in
         (changed, s <| s_pending_revoke_fail_closed := false |>)
    else (false, s) in
  let '(changed, s) := fold_left pending_revoke_apply (s_pending_revokes s) (changed, s) in
  (changed, s <| s_pending_revokes :=
     map (fun p => if used p then no_pending else p) (s_pending_revokes s) |>).

Definition materialize_expiry_locked (now : Z) (s : lease_state) : bool * lease_state :=
  return_if negb (s_seen s) || active_locked now s with (false, s) ;;
  (true, drop_lease s).

Definition observe : cstring := cstr "observe".

(** The claim of the lease, and whether it takes the reports. *)
Definition lease_claim (s : lease_state) : si_hid_owner_claim_t :=
  mk_claim (enum_val SI_HID_OWNER_CONTROL_LEASE)
    (strtrunc (SI_HID_OWNER_SESSION_ID_MAX_LEN + 1) (s_session_id s))
    (s_auth_generation s) (s_resource_id s) (s_epoch s).

Definition takes_reports (now : Z) (s : lease_state) : bool :=
  active_locked now s && negb (strcaseeq (s_mode s) observe).

Definition preserve_owner (current : si_hid_owner_token_t) : si_hid_owner_transition_t :=
  if negb (generation current =? 0) then mk_transition true false (claim current)
  else zero_transition.

Definition desired_owner_locked (current : si_hid_owner_token_t) (now : Z) (kvm_view : bool)
    (s : lease_state) : si_hid_owner_transition_t :=
  return_if takes_reports now s with mk_transition true false (lease_claim s) ;;
  return_if kvm_view && (kind (claim current) =? enum_val SI_HID_OWNER_KVM_STREAM)
    with preserve_owner current ;;
  if negb (kind (claim current) =? enum_val SI_HID_OWNER_CONTROL_LEASE)
  then preserve_owner current else zero_transition.

(** ** The operations, under the lock *)

(** The lease belongs to the embedded agent. *)
Definition embedded_session (s : lease_state) : bool :=
  (s_auth_generation s =? 0) && streq (s_session_id s) embedded_agent.

Definition copy_holder (owner mode session reason : cstring) (s : lease_state) : lease_state :=
  (((s <| s_owner := strtrunc (SI_CONTROL_LEASE_OWNER_MAX_LEN + 1) owner |>)
       <| s_mode := strtrunc (SI_CONTROL_LEASE_MODE_MAX_LEN + 1) mode |>)
       <| s_session_id := strtrunc (SI_CONTROL_LEASE_SESSION_ID_MAX_LEN + 1) session |>)
       <| s_reason := strtrunc (SI_CONTROL_LEASE_REASON_MAX_LEN + 1) reason |>.

(** [None]: the operation was denied, with the error or the update result in the
    context. *)
Definition lease_touch (c : lease_transition_context_t) (was_active : bool) (now : Z)
    (current : si_hid_owner_token_t) (s : lease_state)
  : bool * lease_state * lease_transition_context_t :=
  let boot := bool_decide (operation c = LEASE_OP_TOUCH_BOOT) in
  let mode := if boot then cstr "supervised" else deref (ctx_mode c) in
  let reason := if boot then Some (cstr "boot-key sequence") else ctx_reason c in
  return_if stale_retry c && (s_embedded_preempted s || negb (generation current =? 0))
    with (false, s, c <| ctx_error := ESP_ERR_INVALID_STATE |>) ;;
  match si_hid_embedded_touch_decide was_active (Some current) (expected_owner c)
          (s_resource_id s) (s_epoch s) with
  | SI_HID_EMBEDDED_TOUCH_DENY => (false, s, c <| ctx_error := ESP_ERR_INVALID_STATE |>)
  | touch =>
      let renewal := match touch with SI_HID_EMBEDDED_TOUCH_RENEW => true | _ => false end in
      let changed := negb renewal || negb (strcaseeq (s_mode s) mode) in
      let s := if negb (bool_decide (is_Some (expected_owner c))) && negb (stale_retry c)
               then s <| s_embedded_preempted := false |> else s in
      let s := ((s <| s_seen := true |>) <| s_last_ms := now |>) <| s_auth_generation := 0 |> in
      let s := copy_holder (cstr "agent") mode embedded_agent (deref reason) s in
      let s :=
        if negb renewal then
          let s := s <| s_next_embedded_resource_id := bump (s_next_embedded_resource_id s) |> in
          epoch_bump_locked (s <| s_resource_id := s_next_embedded_resource_id s |>)
        else if changed then epoch_bump_locked s else s in
      (true, s, c <| state_changed := changed || state_changed c |>)
  end.

Definition lease_release_embedded (c : lease_transition_context_t) (was_active : bool)
    (s : lease_state) : bool * lease_state * lease_transition_context_t :=
  if si_hid_embedded_release_matches was_active (expected_owner c) (s_resource_id s) (s_epoch s)
  then (true, drop_lease s, c <| state_changed := true |>)
  else (false, s, c <| ctx_error := ESP_ERR_INVALID_STATE |>).

Definition lease_abandon_embedded (c : lease_transition_context_t) (was_active : bool)
    (s : lease_state) : bool * lease_state * lease_transition_context_t :=
  if was_active && embedded_session s
  then (true, drop_lease s, c <| state_changed := true |>) else (true, s, c).

(** Another holder than the one the update names. *)
Definition held_by_other (c : lease_transition_context_t) (s : lease_state) : bool :=
  negb (strcaseeq (s_owner s) (deref (ctx_owner c))) ||
  negb (streq (s_session_id s) (deref (ctx_session_id c))) ||
  negb (s_auth_generation s =? ctx_auth_generation c).

Definition lease_update (c : lease_transition_context_t) (was_active : bool) (now : Z)
    (s : lease_state) : bool * lease_state * lease_transition_context_t :=
  let other := active c && was_active && held_by_other c s in
  return_if other && negb (force c)
    with (false, s, c <| update_result := SI_CONTROL_LEASE_UPDATE_HELD_BY_OTHER |>) ;;
  let embedded_held := was_active && embedded_session s in
  let '(s, c) :=
    if active c then
      let s := if embedded_held && other then s <| s_embedded_preempted := true |> else s in
      let changed := negb was_active || other ||
                     negb (strcaseeq (s_mode s) (deref (ctx_mode c))) in
      let s := (((s <| s_seen := true |>) <| s_last_ms := now |>)
                  <| s_auth_generation := ctx_auth_generation c |>) <| s_resource_id := 0 |> in
      let s := copy_holder (deref (ctx_owner c)) (deref (ctx_mode c)) (deref (ctx_session_id c))
                 (deref (ctx_reason c)) s in
      (if changed then epoch_bump_locked s else s,
       c <| state_changed := changed || state_changed c |>)
    else if negb was_active || force c ||
            (strcaseeq (s_owner s) (deref (ctx_owner c)) &&
             streq (s_session_id s) (deref (ctx_session_id c)) &&
             ((ctx_auth_generation c =? 0) || (s_auth_generation s =? ctx_auth_generation c)))
    then
      let s := if was_active then epoch_bump_locked s else s in
      let s := if embedded_held then s <| s_embedded_preempted := true |> else s in
      (((s <| s_seen := false |>) <| s_reason := [] |>) <| s_resource_id := 0 |>,
       c <| state_changed := was_active || state_changed c |>)
    else (s, c) in
  (true, s, c <| update_result := SI_CONTROL_LEASE_UPDATE_OK |>).

Definition lease_revoke_session (c : lease_transition_context_t) (s : lease_state)
  : bool * lease_state * lease_transition_context_t :=
  if ptr_test (fun sid => streq (s_session_id s) sid) (ctx_session_id c) &&
     ((ctx_auth_generation c =? 0) || (s_auth_generation s =? ctx_auth_generation c))
  then
    let s := if s_seen s then epoch_bump_locked s else s in
    (true,
     ((((s <| s_seen := false |>) <| s_session_id := [] |>) <| s_reason := [] |>)
         <| s_auth_generation := 0 |>) <| s_resource_id := 0 |>,
     c <| state_changed := true |>)
  else (true, s, c).

Definition lease_operate (c : lease_transition_context_t) (was_active : bool) (now : Z)
    (current : si_hid_owner_token_t) (s : lease_state)
  : bool * lease_state * lease_transition_context_t :=
  match operation c with
  | LEASE_OP_TOUCH_AGENT | LEASE_OP_TOUCH_BOOT => lease_touch c was_active now current s
  | LEASE_OP_RELEASE_EMBEDDED => lease_release_embedded c was_active s
  | LEASE_OP_ABANDON_EMBEDDED => lease_abandon_embedded c was_active s
  | LEASE_OP_UPDATE => lease_update c was_active now s
  | LEASE_OP_REVOKE_SESSION => lease_revoke_session c s
  | LEASE_OP_MAINTAIN => (true, s, c)
  end.

(** ** The callback under the HID authority gate *)

Definition lease_transition_under_hid_gate (env : lease_env)
    (state : lease_state * lease_transition_context_t) (current : si_hid_owner_token_t)
  : option si_hid_owner_transition_t * (lease_state * lease_transition_context_t) :=
  let '(s, c) := state in
  return_if negb (s_lock s) with (None, (s, c)) ;;
  return_if bool_decide (operation c = LEASE_OP_UPDATE) && negb (default false (live_guard c))
    with (None, (s, (c <| ctx_error := ESP_ERR_INVALID_STATE |>)
                       <| update_result := SI_CONTROL_LEASE_UPDATE_INVALID |>)) ;;
  if negb (lock_taken env) then
    let revoke := bool_decide (operation c = LEASE_OP_REVOKE_SESSION) &&
                  ptr_test (fun sid => negb (is_empty sid)) (ctx_session_id c) in
    let s := if revoke
             then pending_revoke_add_under_hid_gate (deref (ctx_session_id c))
                    (ctx_auth_generation c) s
             else s in
    let c := if revoke then c <| state_changed := true |> else c in
    (None, (s, (c <| ctx_error := ESP_ERR_TIMEOUT |>)
                  <| update_result := SI_CONTROL_LEASE_UPDATE_UNAVAILABLE |>))
  else
    let '(revoked, s) := pending_revokes_apply_locked s in
    let '(expired, s) := materialize_expiry_locked (now_ms env) s in
    let c := c <| state_changed := expired || revoked |> in
    let was_active := active_locked (now_ms env) s in
    let '(done, s, c) := lease_operate c was_active (now_ms env) current s in
    return_if negb done with (None, (s, c)) ;;
    (Some (desired_owner_locked current (now_ms env) (kvm_view_active env) s),
     (s, c <| ctx_error := ESP_OK |>)).

(** ** The calls

    A call runs on the HID manager's state and the lease. *)

Record lease_world := mk_world { hid_part : hid_state; lease_part : lease_state }.

#[export] Instance eta_lease_world : Settable lease_world := fun w =>
  mk_world (hid_part w) (lease_part w).

Definition on_hid {A} (m : st hid_state A) : st lease_world A := fun w =>
  let '(a, h) := m (hid_part w) in (a, w <| hid_part := h |>).

Definition run_transition (env : lease_env) (c : lease_transition_context_t)
  : st lease_world (bool * si_hid_owner_token_t * lease_transition_context_t) := fun w =>
  let '(ok, token, (lease, c), h) :=
    si_hid_authority_transition (lease_transition_under_hid_gate env) (lease_part w, c)
      (hid_part w) in
  let c :=
    if negb ok then
      let c := if bool_decide (ctx_error c = ESP_OK) then c <| ctx_error := ESP_ERR_NOT_FINISHED |>
               else c in
      if bool_decide (update_result c = SI_CONTROL_LEASE_UPDATE_OK)
      then c <| update_result := SI_CONTROL_LEASE_UPDATE_UNAVAILABLE |> else c
    else c in
  ((ok, default zero_token token, c), mk_world h lease).

Definition si_control_lease_mode_valid (mode : option cstring) : bool :=
  ptr_test (fun m => strcaseeq m observe || strcaseeq m (cstr "supervised") ||
                     strcaseeq m (cstr "autonomous")) mode.

Definition si_control_lease_owner_valid (owner : option cstring) : bool :=
  ptr_test (fun o => strcaseeq o (cstr "agent") || strcaseeq o (cstr "mcp")) owner.

(** The environment of each transition a touch may run: the first attempt, the
    retry after a lost token, and the cleanup. *)
Record touch_env := mk_touch_env { first_try : lease_env; retry : lease_env; cleanup : lease_env }.

Definition touch_embedded_owned (env : touch_env) (task : Z) (op : lease_operation_t)
    (mode reason : option cstring) (owner : option si_hid_owner_token_t)
  : st lease_world (esp_err_t * option si_hid_owner_token_t) :=
  match owner with
  | None => mret (ESP_ERR_INVALID_ARG, None)
  | Some expected =>
      return_if negb (si_control_lease_mode_valid mode)
        with mret (ESP_ERR_INVALID_ARG, Some expected) ;;
      let fresh := generation expected =? 0 in
      let context := (((((context_of op) <| ctx_mode := mode |>) <| ctx_reason := reason |>)
                         <| active := true |>) <| ctx_error := ESP_FAIL |>)
                       <| expected_owner := if fresh then None else Some expected |> in
      first ← run_transition (first_try env) context;
      let '(ok, granted, context) := first in
      second ← (
        if negb ok && bool_decide (ctx_error context = ESP_ERR_INVALID_STATE) && negb fresh then
          current ← on_hid si_hid_owner_get_current;
          if si_hid_owner_token_equal (Some (default zero_token current)) (Some expected)
          then mret (ok, granted, context, fresh)
          else
            let context := ((((context <| expected_owner := None |>) <| stale_retry := true |>)
                               <| ctx_error := ESP_FAIL |>)
                               <| update_result := SI_CONTROL_LEASE_UPDATE_OK |>)
                               <| state_changed := false |> in
            r ← run_transition (retry env) context;
            mret (r.1.1, r.1.2, r.2, true)
        else mret (ok, granted, context, fresh));
      let '(ok, granted, context, fresh) := second in
      if negb ok then
        when (bool_decide (ctx_error context = ESP_ERR_NOT_FINISHED) && fresh)
          (run_transition (cleanup env) (context_of LEASE_OP_ABANDON_EMBEDDED);; mret tt);;
        mret (ctx_error context, Some expected)
      else
        bind_ret ← on_hid (si_hid_bind_embedded_producer task (Some granted));
        return_if negb (bool_decide (bind_ret = ESP_OK))
          with (run_transition (cleanup env)
                  ((context_of LEASE_OP_RELEASE_EMBEDDED) <| expected_owner := Some granted |>);;
                mret (bind_ret, Some expected)) ;;
        mret (ESP_OK, Some granted)
  end.

Definition si_control_lease_touch_agent_owned (env : touch_env) (task : Z)
    (mode reason : option cstring) (owner : option si_hid_owner_token_t) :=
  touch_embedded_owned env task LEASE_OP_TOUCH_AGENT mode reason owner.

Definition si_control_lease_touch_boot_sequence_owned (env : touch_env) (task : Z)
    (owner : option si_hid_owner_token_t) :=
  touch_embedded_owned env task LEASE_OP_TOUCH_BOOT (Some (cstr "supervised"))
    (Some (cstr "boot-key sequence")) owner.

Definition si_control_lease_release_embedded_owner (env : lease_env)
    (owner : option si_hid_owner_token_t) : st lease_world bool :=
  return_if negb (ptr_test (fun o => negb (generation o =? 0)) owner) with mret false ;;
  r ← run_transition env ((context_of LEASE_OP_RELEASE_EMBEDDED) <| expected_owner := owner |>);
  mret (r.1.1 && state_changed r.2).

Definition si_control_lease_release_agent (env : lease_env) (task : Z) : st lease_world unit :=
  o ← on_hid (si_hid_get_bound_embedded_owner task);
  match o with
  | Some o => si_control_lease_release_embedded_owner env (Some o);; mret tt
  | None => mret tt
  end.

(** One round of [lease_maintenance]. *)
Definition lease_maintenance_round (env : lease_env) : st lease_world unit :=
  run_transition env (context_of LEASE_OP_MAINTAIN);; mret tt.

Definition si_control_lease_revoke_auth_session (env : lease_env) (session : option cstring)
    (gen : Z) : st lease_world bool :=
  return_if negb (ptr_test (fun sid => negb (is_empty sid)) session) with mret false ;;
  hid_revoked ← on_hid (si_hid_owner_revoke_session session gen);
  r ← run_transition env
        (((context_of LEASE_OP_REVOKE_SESSION) <| ctx_session_id := session |>)
           <| ctx_auth_generation := gen |>);
  mret (hid_revoked || r.1.1 || state_changed r.2).

Definition si_control_lease_update_for_auth_session (env : lease_env)
    (owner session : option cstring) (gen : Z) (mode reason : option cstring)
    (active' force' : bool) (guard : option bool)
  : st lease_world si_control_lease_update_result_t :=
  return_if negb (si_control_lease_owner_valid owner) ||
            negb (ptr_test (fun sid => negb (is_empty sid)) session) ||
            (SI_CONTROL_LEASE_SESSION_ID_MAX_LEN <? length (deref session))%nat ||
            (active' && negb (si_control_lease_mode_valid mode))
    with mret SI_CONTROL_LEASE_UPDATE_INVALID ;;
  let context :=
    mk_context LEASE_OP_UPDATE owner session mode reason gen None active' force' false guard
      ESP_OK SI_CONTROL_LEASE_UPDATE_UNAVAILABLE false in
  r ← run_transition env context;
  mret (update_result r.2).

(** ** Start, and the read-only views *)

(** [mutex] and [task]: whether FreeRTOS could create them; [guard] names
    [embedded_lease_live_under_hid_gate]. *)
Definition si_control_lease_start (mutex task : bool) (guard : Z) : st lease_world esp_err_t :=
  started ← gets (fun w => s_lock (lease_part w));
  return_if started with mret ESP_OK ;;
  return_if negb mutex with mret ESP_ERR_NO_MEM ;;
  return_if negb task with mret ESP_ERR_NO_MEM ;;
  guard_ret ← on_hid (si_hid_set_embedded_authority_guard (Some guard) 0);
  return_if negb (bool_decide (guard_ret = ESP_OK)) with mret guard_ret ;;
  modify (fun w => w <| lease_part := (lease_part w) <| s_lock := true |> |>);;
  mret ESP_OK.

(** A view of the lease under its lock. *)
Definition lease_view (env : lease_env) (f : lease_state -> bool) (s : lease_state) : bool :=
  s_lock s && lock_taken env && f s.

Definition embedded_lease_live_under_hid_gate (env : lease_env) : lease_state -> bool :=
  lease_view env (fun s =>
    active_locked (now_ms env) s && strcaseeq (s_owner s) (cstr "agent") &&
    streq (s_session_id s) embedded_agent && (s_auth_generation s =? 0) &&
    negb (strcaseeq (s_mode s) observe)).

Definition si_control_lease_agent_active (env : lease_env) : lease_state -> bool :=
  lease_view env (active_locked (now_ms env)).

Definition si_control_lease_agent_allows_actions (env : lease_env) : lease_state -> bool :=
  lease_view env (takes_reports (now_ms env)).

Definition si_control_lease_owner_matches (env : lease_env) (owner : option cstring)
  : lease_state -> bool :=
  lease_view env (fun s =>
    ptr_test (fun o => active_locked (now_ms env) s && strcaseeq (s_owner s) o) owner).

Definition si_control_lease_owner_session_matches (env : lease_env)
    (owner session : option cstring) : lease_state -> bool :=
  lease_view env (fun s =>
    ptr_test (fun o => ptr_test (fun sid =>
      negb (is_empty sid) && active_locked (now_ms env) s && strcaseeq (s_owner s) o &&
      streq (s_session_id s) sid) session) owner).

(** The last component is the token stored through [token]. *)
Definition si_control_lease_get_hid_owner (env : lease_env) (owner session : option cstring)
    (gen epoch : Z) : st lease_world (bool * option si_hid_owner_token_t) :=
  match owner, session with
  | Some o, Some sid =>
      started ← gets (fun w => s_lock (lease_part w));
      return_if negb started with mret (false, None) ;;
      token ← on_hid si_hid_owner_get_current;
      match token with
      | None => mret (false, None)
      | Some t =>
          return_if negb (kind (claim t) =? enum_val SI_HID_OWNER_CONTROL_LEASE) ||
                    negb (auth_generation (claim t) =? gen) ||
                    negb (authority_epoch (claim t) =? epoch) ||
                    negb (streq (session_id (claim t)) sid)
            with mret (false, Some t) ;;
          ok ← gets (fun w => lease_view env (fun s =>
            takes_reports (now_ms env) s && strcaseeq (s_owner s) o &&
            streq (s_session_id s) sid && (s_auth_generation s =? gen) &&
            (s_epoch s =? epoch)) (lease_part w));
          mret (ok, Some t)
      end
  | _, _ => mret (false, None)
  end.

Record si_control_lease_status_t := mk_status {
  st_epoch : Z;
  st_active : bool;
  st_kvm_view_active : bool;
  st_kvm_active : bool;
  st_agent_active : bool;
  st_input_control_active : bool;
  st_agent_takeover : bool;
  st_can_request : bool;
  st_kvm_remaining_ms : Z;
  st_agent_remaining_ms : Z;
  st_expires_in_ms : Z;
  st_owner : cstring;
  st_mode : cstring;
  st_agent_owner : cstring;
  st_session_id : cstring;
  st_reason : cstring
}.

(** The video status is an input; [kvm_remaining] counts while the view is open. *)
Definition si_control_lease_get_status (env : lease_env) (takeover : bool) (kvm_remaining : Z)
  : st lease_world si_control_lease_status_t :=
  hid_owner ← on_hid si_hid_owner_get_current;
  s ← gets lease_part;
  let view := kvm_view_active env in
  let kvm_left := if view then kvm_remaining else 0 in
  let kvm := view && ptr_test (fun t =>
    kind (claim t) =? enum_val SI_HID_OWNER_KVM_STREAM) hid_owner in
  let locked := s_lock s && lock_taken env in
  let raw := locked && active_locked (now_ms env) s in
  let left := if locked then remaining_locked (now_ms env) s else 0 in
  let agent := if locked then s_owner s else cstr "agent" in
  let input := raw && negb (strcaseeq (s_mode s) observe) && ptr_test (fun t =>
    (kind (claim t) =? enum_val SI_HID_OWNER_CONTROL_LEASE) &&
    (auth_generation (claim t) =? s_auth_generation s) &&
    (authority_epoch (claim t) =? s_epoch s) &&
    streq (session_id (claim t)) (s_session_id s)) hid_owner in
  mret (mk_status (if locked then s_epoch s else 0) (kvm || raw) view kvm raw input takeover
    (negb raw) kvm_left left
    (if raw then left else if kvm then kvm_left else 0)
    (if raw then agent else if kvm then cstr "kvm" else cstr "none")
    (if raw then s_mode s else if kvm then cstr "manual" else cstr "idle")
    agent (if locked then s_session_id s else []) (if locked then s_reason s else [])).
