(* ===== verification/ControlLeaseProps.v ===== *)
(** * The control lease: properties

    The lease state is well formed and an active lease has a valid claim; only
    its holder, a forced update or a revocation ends an active lease; a claim of
    a past lease never comes back; no operation on the lease overlooks a
    revocation, which the read-only views can do; and the report owner of the HID
    manager is the lease. *)

From Stdlib Require Import String.
From S2P Require Import Prelude CText Firmware HidOwner HidOwnerProps HidManager.
From S2P Require Import HidManagerInvariant ControlLease.

(** One callback on the lease alone, and a sequence of them. *)
Definition lease_call : Type := lease_env * lease_transition_context_t * si_hid_owner_token_t.

Definition lease_step (s : lease_state) (call : lease_call) : lease_state :=
  let '(env, c, current) := call in (lease_transition_under_hid_gate env (s, c) current).2.1.

Definition lease_run (s : lease_state) (calls : list lease_call) : lease_state :=
  fold_left lease_step calls s.

(** The lease as an operation finds it: revocations and expiry are applied. *)
Definition settled (now : Z) (s : lease_state) : lease_state :=
  (materialize_expiry_locked now (pending_revokes_apply_locked s).2).2.

(** ** Callbacks by cases *)

Definition noted (c : lease_transition_context_t) (b : bool) : lease_transition_context_t :=
  c <| state_changed := b |>.

(** The operation as the callback runs it. *)
Definition operated (env : lease_env) (c : lease_transition_context_t)
    (current : si_hid_owner_token_t) (s : lease_state)
  : bool * lease_state * lease_transition_context_t :=
  let now := now_ms env in
  let s1 := settled now s in
  lease_operate
    (noted c ((materialize_expiry_locked now (pending_revokes_apply_locked s).2).1 ||
              (pending_revokes_apply_locked s).1))
    (active_locked now s1) now current s1.

Definition live_update (c : lease_transition_context_t) : Prop :=
  operation c = LEASE_OP_UPDATE -> live_guard c = Some true.

#[export] Instance live_update_dec c : Decision (live_update c).
Proof. unfold live_update. apply _. Defined.

Lemma gate_locked env s c current :
  s_lock s = true -> lock_taken env = true -> live_update c ->
  lease_transition_under_hid_gate env (s, c) current =
  let '(done, s2, c2) := operated env c current s in
  if done then
    (Some (desired_owner_locked current (now_ms env) (kvm_view_active env) s2),
     (s2, c2 <| ctx_error := ESP_OK |>))
  else (None, (s2, c2)).
Proof.
  intros Hl Ht Hg. unfold lease_transition_under_hid_gate, operated, settled, noted.
  rewrite Hl, Ht. cbn [negb].
  replace (bool_decide (operation c = LEASE_OP_UPDATE) && negb (default false (live_guard c)))
    with false.
  2: { destruct (decide (operation c = LEASE_OP_UPDATE)) as [E|E].
       - by rewrite (Hg E), andb_false_r.
       - by rewrite bool_decide_eq_false_2. }
  destruct (pending_revokes_apply_locked s) as [revoked s0]. cbn [fst snd].
  destruct (materialize_expiry_locked (now_ms env) s0) as [expired s1]. cbn [fst snd].
  destruct (lease_operate _ _ _ _ _) as [[[] s2] c2]; reflexivity.
Qed.

Lemma step_cases s env c current :
  let s' := lease_step s (env, c, current) in
  s' = s \/
  (lock_taken env = false /\ operation c = LEASE_OP_REVOKE_SESSION /\
   s' = pending_revoke_add_under_hid_gate (deref (ctx_session_id c)) (ctx_auth_generation c) s) \/
  (s_lock s = true /\ lock_taken env = true /\ live_update c /\
   s' = (operated env c current s).1.2).
Proof.
  cbv zeta. unfold lease_step.
  destruct (s_lock s) eqn:Hl.
  2: { left. unfold lease_transition_under_hid_gate. by rewrite Hl. }
  destruct (decide (live_update c)) as [Hg|Hg].
  2: { left. unfold lease_transition_under_hid_gate. rewrite Hl. cbn [negb]. case_if; [done|].
       exfalso. apply Hg. intros E. rewrite E, bool_decide_eq_true_2 in Heqb by done.
       by destruct (live_guard c) as [[]|]. }
  destruct (lock_taken env) eqn:Ht.
  - right. right. split_and!; try done. rewrite gate_locked by done.
    by destruct (operated env c current s) as [[[] s2] c2].
  - unfold lease_transition_under_hid_gate. rewrite Hl, Ht. cbn [negb]. case_if; [by left|].
    cbn [fst snd]. case_if; [|by left]. split_guards. by right; left.
Qed.

(** ** Revocations and expiry *)

Definition revoke_hits (session : cstring) (gen : Z) (s : lease_state) : bool :=
  streq (s_session_id s) session && ((gen =? 0) || (s_auth_generation s =? gen)).

Definition due (p : pending_revoke_t) (s : lease_state) : bool :=
  used p && revoke_hits (pending_session_id p) (pending_auth_generation p) s && s_seen s.

Lemma revoke_apply_fold l b s :
  let r := fold_left pending_revoke_apply l (b, s) in
  (r.2 = s /\ Forall (fun p => due p s = false) l) \/
  (s_seen s = true /\ r.2 = drop_session s).
Proof.
  revert b s. induction l as [|p l IH]; intros b s; cbn [fold_left]; [by left|].
  assert (Hp : pending_revoke_apply (b, s) p =
               (if due p s then (true, drop_session s) else (b, s))).
  { unfold pending_revoke_apply, due, revoke_hits. destruct (used p); [|done]. cbn [negb andb].
    by destruct (_ && s_seen s). }
  rewrite Hp. destruct (due p s) eqn:D.
  - right. assert (Hs : s_seen s = true) by (unfold due in D; by destruct (s_seen s); rewrite ?andb_false_r in D).
    split; [done|]. destruct (IH true (drop_session s)) as [[E _]|[E _]]; [exact E | done].
  - destruct (IH b s) as [[E F]|?]; [left; split; [done | by constructor] | by right].
Qed.

Definition journal_cleared (s : lease_state) : Prop :=
  s_pending_revoke_fail_closed s = false /\
  Forall (fun p => used p = false) (s_pending_revokes s).

(** The journal's overflow flag, before the entries. *)
Definition overflow_applied (s : lease_state) : lease_state :=
  (if s_pending_revoke_fail_closed s && s_seen s then drop_session s else s)
    <| s_pending_revoke_fail_closed := false |>.

Definition entries_applied (s : lease_state) : lease_state :=
  s <| s_pending_revokes := map (fun p => if used p then no_pending else p) (s_pending_revokes s) |>.

Lemma revokes_unfold s :
  (pending_revokes_apply_locked s).2 =
  entries_applied (fold_left pending_revoke_apply (s_pending_revokes s)
                     (s_pending_revoke_fail_closed s && s_seen s, overflow_applied s)).2.
Proof.
  unfold pending_revokes_apply_locked, overflow_applied.
  destruct (s_pending_revoke_fail_closed s) eqn:Hf; [destruct (s_seen s)|]; cbn [andb].
  - change (s_pending_revokes s) with
      (s_pending_revokes ((drop_session s) <| s_pending_revoke_fail_closed := false |>)).
    by destruct (fold_left _ _ _).
  - change (s_pending_revokes s) with (s_pending_revokes (s <| s_pending_revoke_fail_closed := false |>)).
    by destruct (fold_left _ _ _).
  - replace (s <| s_pending_revoke_fail_closed := false |>) with s
      by (destruct s; cbn in *; by subst).
    by destruct (fold_left _ _ _).
Qed.

Lemma entries_unused l :
  Forall (fun p => used p = false) (map (fun p => if used p then no_pending else p) l).
Proof. induction l as [|p l IH]; constructor; [|done]. by destruct (used p) eqn:?. Qed.

(** What revocations do: the lease stays and nothing was due, or it is dropped. *)
Lemma revokes_cases s :
  let s' := (pending_revokes_apply_locked s).2 in
  exists x l, length l = length (s_pending_revokes s) /\ Forall (fun p => used p = false) l /\
    s' = (x <| s_pending_revoke_fail_closed := false |>) <| s_pending_revokes := l |> /\
    ((x = s /\ (s_pending_revoke_fail_closed s = true -> s_seen s = false) /\
      Forall (fun p => due p s = false) (s_pending_revokes s)) \/
     (s_seen s = true /\ x = drop_session s)).
Proof.
  cbv zeta. rewrite revokes_unfold.
  set (l := map (fun p => if used p then no_pending else p) (s_pending_revokes s)).
  assert (Hl : length l = length (s_pending_revokes s)) by apply length_map.
  pose proof (entries_unused (s_pending_revokes s)) as Hu.
  destruct (revoke_apply_fold (s_pending_revokes s) (s_pending_revoke_fail_closed s && s_seen s)
              (overflow_applied s)) as [[E F]|[E1 E]]; rewrite E; clear E;
    unfold overflow_applied, entries_applied in *;
    destruct (s_pending_revoke_fail_closed s && s_seen s) eqn:O.
  - exists (drop_session s), l. split_and!; try done. right. by split_guards.
  - exists s, l. split_and!; try done. left. split_and!; [done | | exact F].
    intros Hf. by rewrite Hf in O.
  - exfalso. change (false = true) in E1. discriminate.
  - exists (drop_session s), l. split_and!; try done. by right.
Qed.

Lemma settled_cases now s :
  let s' := settled now s in
  exists x l, length l = length (s_pending_revokes s) /\ Forall (fun p => used p = false) l /\
    s' = (x <| s_pending_revoke_fail_closed := false |>) <| s_pending_revokes := l |> /\
    (s_seen x = true -> active_locked now x = true) /\
    ((x = s /\ (s_pending_revoke_fail_closed s = true -> s_seen s = false) /\
      Forall (fun p => due p s = false) (s_pending_revokes s)) \/
     (s_seen s = true /\ (x = drop_session s \/ x = drop_lease s))).
Proof.
  cbv zeta. unfold settled.
  destruct (revokes_cases s) as (x & l & Hlen & Hu & -> & Hx).
  unfold materialize_expiry_locked.
  change (s_seen ((x <| s_pending_revoke_fail_closed := false |>) <| s_pending_revokes := l |>))
    with (s_seen x).
  change (active_locked now ((x <| s_pending_revoke_fail_closed := false |>) <| s_pending_revokes := l |>))
    with (active_locked now x).
  destruct (negb (s_seen x) || active_locked now x) eqn:E.
  - exists x, l. split_and!; try done.
    + intros Hs. rewrite Hs in E. exact E.
    + destruct Hx as [Hx|[Hs Hx]]; [by left | right; auto].
  - apply orb_false_elim in E as [E1 E2]. apply negb_false_iff in E1.
    destruct Hx as [(-> & _)|[_ ->]]; [|discriminate E1].
    exists (drop_lease s), l. split_and!; try done. right. auto.
Qed.

(** ** Well-formed states and calls *)

Record lease_ok (s : lease_state) : Prop := mk_lease_ok {
  ok_epoch : 1 <= s_epoch s < 2 ^ 32;
  ok_counter : 0 <= s_next_embedded_resource_id s < 2 ^ 32;
  ok_owner : (length (s_owner s) <= SI_CONTROL_LEASE_OWNER_MAX_LEN)%nat;
  ok_mode : (length (s_mode s) <= SI_CONTROL_LEASE_MODE_MAX_LEN)%nat;
  ok_session : (length (s_session_id s) <= SI_CONTROL_LEASE_SESSION_ID_MAX_LEN)%nat;
  ok_reason : (length (s_reason s) <= SI_CONTROL_LEASE_REASON_MAX_LEN)%nat;
  ok_journal : length (s_pending_revokes s) = LEASE_PENDING_REVOKES;
  ok_seen : s_seen s = true ->
    s_session_id s <> [] /\
    if embedded_session s then s_owner s = cstr "agent" /\ 1 <= s_resource_id s < 2 ^ 32
    else s_resource_id s = 0
}.

(** A token of the embedded agent names the resource of a lease that was granted. *)
Definition genuine (t : si_hid_owner_token_t) : Prop :=
  auth_generation (claim t) = 0 -> session_id (claim t) = embedded_agent ->
  resource_id (claim t) <> 0.

(** What the entry points establish of a context: an update names a valid owner
    and a session that is not the embedded agent's. *)
Record context_ok (c : lease_transition_context_t) : Prop := mk_context_ok {
  ctx_genuine : forall t, expected_owner c = Some t -> genuine t;
  ctx_update : operation c = LEASE_OP_UPDATE ->
    si_control_lease_owner_valid (ctx_owner c) = true /\
    deref (ctx_session_id c) <> [] /\
    (length (deref (ctx_session_id c)) <= SI_CONTROL_LEASE_SESSION_ID_MAX_LEN)%nat /\
    ~ (ctx_auth_generation c = 0 /\ deref (ctx_session_id c) = embedded_agent)
}.

(** The lease after [si_control_lease_start]. *)
Definition lease_started : lease_state := lease_initial <| s_lock := true |>.

Lemma ok_started : lease_ok lease_started.
Proof. split; [.. | done]; vm_compute; first [by split | lia | done]. Qed.

Lemma ok_drops s : lease_ok s -> lease_ok (drop_session s) /\ lease_ok (drop_lease s).
Proof.
  intros H; split; destruct H; split; try done; try apply bump_range; cbn; lia.
Qed.

Lemma ok_settled now s : lease_ok s -> lease_ok (settled now s).
Proof.
  intros H. destruct (settled_cases now s) as (x & l & Hlen & _ & -> & _ & Hx).
  assert (Hok : lease_ok x /\ s_pending_revokes x = s_pending_revokes s).
  { destruct (ok_drops s H). destruct Hx as [(-> & _)|[_ [-> | ->]]]; done. }
  destruct Hok as [[] E]. split; try done.
  change (length l = LEASE_PENDING_REVOKES). congruence.
Qed.

Lemma settled_seen now s :
  let s' := settled now s in
  (s_seen s' = true -> active_locked now s' = true) /\ s_pending_revoke_fail_closed s' = false.
Proof.
  cbv zeta. destruct (settled_cases now s) as (x & l & _ & _ & -> & Ha & _). by split.
Qed.

(** ** What an operation does to the lease *)

Definition same_holder (s s' : lease_state) : Prop :=
  s_session_id s' = s_session_id s /\ s_auth_generation s' = s_auth_generation s /\
  s_resource_id s' = s_resource_id s /\ strcaseeq (s_owner s) (s_owner s') = true.

(** The session and generation an operation gives the lease to. *)
Definition installs (c : lease_transition_context_t) : option (cstring * Z) :=
  match operation c with
  | LEASE_OP_TOUCH_AGENT | LEASE_OP_TOUCH_BOOT => Some (embedded_agent, 0)
  | LEASE_OP_UPDATE =>
      if active c then Some (deref (ctx_session_id c), ctx_auth_generation c) else None
  | _ => None
  end.

(** The operations that may take the lease away from its holder: a forced update
    or the holder's own release, a revocation that names it, the release with the
    lease's own token, and the abandonment of the embedded agent's lease. *)
Definition displaces (c : lease_transition_context_t) (s : lease_state) : bool :=
  match operation c with
  | LEASE_OP_UPDATE =>
      force c || (negb (active c) && strcaseeq (s_owner s) (deref (ctx_owner c)) &&
                  revoke_hits (deref (ctx_session_id c)) (ctx_auth_generation c) s)
  | LEASE_OP_REVOKE_SESSION =>
      ptr_test (fun sid => revoke_hits sid (ctx_auth_generation c) s) (ctx_session_id c)
  | LEASE_OP_RELEASE_EMBEDDED =>
      embedded_token_matches_domain (expected_owner c) (s_resource_id s) (s_epoch s)
  | LEASE_OP_ABANDON_EMBEDDED => embedded_session s
  | _ => false
  end.

Inductive op_result (c : lease_transition_context_t) (s s' : lease_state) : Prop :=
| op_kept :
    s_seen s = true -> s_seen s' = true -> same_holder s s' ->
    s_epoch s' = s_epoch s \/ s_epoch s' = bump (s_epoch s) -> op_result c s s'
| op_taken :
    s_seen s' = true -> s_epoch s' = bump (s_epoch s) ->
    installs c = Some (s_session_id s', s_auth_generation s') ->
    (s_seen s = true -> displaces c s = true) -> op_result c s s'
| op_ended :
    s_seen s' = false ->
    (s_seen s = true -> displaces c s = true /\ s_epoch s' = bump (s_epoch s)) ->
    (s_seen s = false -> s_epoch s' = s_epoch s) -> op_result c s s'.

(** What operations never touch. *)
Definition lease_frame (s : lease_state) :=
  (s_lock s, s_pending_revokes s, s_pending_revoke_fail_closed s).

Definition op_fine (c : lease_transition_context_t) (s s' : lease_state) : Prop :=
  lease_ok s' /\ lease_frame s' = lease_frame s /\ op_result c s s'.

Lemma same_holder_refl s : same_holder s s.
Proof. split_and!; try done. apply streq_refl. Qed.

Lemma op_unchanged c s : lease_ok s -> op_fine c s s.
Proof.
  intros H. split_and!; [done..|]. destruct (s_seen s) eqn:E.
  - apply op_kept; auto using same_holder_refl.
  - by apply op_ended; [| rewrite E|].
Qed.

Lemma op_drop c s : lease_ok s -> s_seen s = true -> displaces c s = true -> op_fine c s (drop_lease s).
Proof.
  intros H Hs Hd. split_and!; [by apply ok_drops | done|]. apply op_ended; [done..|].
  intros E. congruence.
Qed.

Lemma revoke_fine c s :
  lease_ok s -> operation c = LEASE_OP_REVOKE_SESSION -> op_fine c s (lease_revoke_session c s).1.2.
Proof.
  intros H Hop. unfold lease_revoke_session.
  destruct (ptr_test _ (ctx_session_id c) && _) eqn:E; [|by apply op_unchanged].
  assert (Hd : displaces c s = true).
  { unfold displaces. rewrite Hop. apply andb_prop in E as [E1 E2].
    destruct (ctx_session_id c); [|done]. cbn in *. unfold revoke_hits. by rewrite E1. }
  cbn [fst snd]. destruct (s_seen s) eqn:Hs.
  - split_and!; [by apply (ok_drops s) | done |]. apply op_ended; [done | done | congruence].
  - split_and!; [| done | apply op_ended; [done | congruence | done]].
    destruct H. split; try done; cbn; lia.
Qed.

Lemma release_fine c now s :
  lease_ok s -> (s_seen s = true -> active_locked now s = true) ->
  operation c = LEASE_OP_RELEASE_EMBEDDED ->
  op_fine c s (lease_release_embedded c (active_locked now s) s).1.2.
Proof.
  intros H Ha Hop. unfold lease_release_embedded, si_hid_embedded_release_matches.
  case_if; [|by apply op_unchanged]. apply andb_prop in Heqb as [E1 E2].
  apply op_drop; [done | by apply andb_prop in E1 as [? _] |]. unfold displaces. by rewrite Hop.
Qed.

Lemma abandon_fine c now s :
  lease_ok s -> operation c = LEASE_OP_ABANDON_EMBEDDED ->
  op_fine c s (lease_abandon_embedded c (active_locked now s) s).1.2.
Proof.
  intros H Hop. unfold lease_abandon_embedded. case_if; [|by apply op_unchanged].
  apply andb_prop in Heqb as [E1 E2].
  apply op_drop; [done | by apply andb_prop in E1 as [? _] |]. unfold displaces. by rewrite Hop.
Qed.

Lemma embedded_session_true s :
  embedded_session s = true <-> s_auth_generation s = 0 /\ s_session_id s = embedded_agent.
Proof. unfold embedded_session. by rewrite andb_true_iff, Z.eqb_eq, streq_true. Qed.

(** A genuine token of the lease's domain means the embedded agent holds it. *)
Lemma token_embedded c s :
  lease_ok s -> s_seen s = true -> context_ok c ->
  embedded_token_matches_domain (expected_owner c) (s_resource_id s) (s_epoch s) = true ->
  embedded_session s = true.
Proof.
  intros H Hs Hc E. unfold embedded_token_matches_domain in E.
  destruct (expected_owner c) as [t|] eqn:Et; [|done].
  pose proof (ctx_genuine c Hc t Et) as Hg. unfold genuine, embedded_agent in Hg.
  split_guards. to_props.
  assert (Hr : s_resource_id s <> 0) by (intros R; apply Hg; congruence).
  destruct (ok_seen s H Hs) as [_ Hv]. by destruct (embedded_session s).
Qed.

Lemma renew_embedded c s current' :
  lease_ok s -> context_ok c -> (s_seen s = true -> active_locked current'.2 s = true) ->
  match si_hid_embedded_touch_decide (active_locked current'.2 s) (Some current'.1)
          (expected_owner c) (s_resource_id s) (s_epoch s) with
  | SI_HID_EMBEDDED_TOUCH_RENEW => s_seen s = true /\ embedded_session s = true
  | SI_HID_EMBEDDED_TOUCH_NEW => s_seen s = false
  | SI_HID_EMBEDDED_TOUCH_DENY => True
  end.
Proof.
  intros H Hc Ha. unfold si_hid_embedded_touch_decide.
  destruct (active_locked current'.2 s) eqn:E.
  - assert (Hs : s_seen s = true) by (by apply andb_prop in E as [? _]).
    destruct (_ && _) eqn:E2; [|done]. apply andb_prop in E2 as [E2 _].
    by split; [|eapply token_embedded].
  - case_if; [done|]. destruct (s_seen s); [|done]. by discriminate Ha.
Qed.

(** A lease that is granted or renewed: [t] holds the new fields, before the copies. *)
Lemma grant_fine c s t owner mode session reason :
  let s' := copy_holder owner mode session reason t in
  lease_frame t = lease_frame s -> s_seen t = true ->
  length (s_pending_revokes s) = LEASE_PENDING_REVOKES ->
  1 <= s_epoch t < 2 ^ 32 -> 0 <= s_next_embedded_resource_id t < 2 ^ 32 ->
  (length owner <= SI_CONTROL_LEASE_OWNER_MAX_LEN)%nat ->
  (length session <= SI_CONTROL_LEASE_SESSION_ID_MAX_LEN)%nat -> session <> [] ->
  (if (s_auth_generation t =? 0) && streq session embedded_agent
   then owner = cstr "agent" /\ 1 <= s_resource_id t < 2 ^ 32 else s_resource_id t = 0) ->
  (s_seen s = true /\ session = s_session_id s /\ s_auth_generation t = s_auth_generation s /\
   s_resource_id t = s_resource_id s /\ strcaseeq (s_owner s) owner = true /\
   (s_epoch t = s_epoch s \/ s_epoch t = bump (s_epoch s))) \/
  (s_epoch t = bump (s_epoch s) /\ installs c = Some (session, s_auth_generation t) /\
   (s_seen s = true -> displaces c s = true)) ->
  op_fine c s s'.
Proof.
  cbv zeta. intros Hf Hs Hj He Hn Ho Hl Hne Hr Hcase.
  assert (Es : strtrunc (SI_CONTROL_LEASE_SESSION_ID_MAX_LEN + 1) session = session)
    by (apply strtrunc_id; lia).
  assert (Eo : strtrunc (SI_CONTROL_LEASE_OWNER_MAX_LEN + 1) owner = owner)
    by (apply strtrunc_id; lia).
  unfold copy_holder. rewrite Es, Eo.
  split_and!; [| exact Hf |].
  - split; try done; try apply strtrunc_max.
    injection Hf as _ E _. change (length (s_pending_revokes t) = LEASE_PENDING_REVOKES). congruence.
  - destruct Hcase as [(H1 & H2 & H3 & H4 & H5 & H6)|(H1 & H2 & H3)].
    + by apply op_kept.
    + by apply op_taken.
Qed.

Lemma agent_len : (length (cstr "agent") <= SI_CONTROL_LEASE_OWNER_MAX_LEN)%nat.
Proof. vm_compute. lia. Qed.

Lemma embedded_len : (length embedded_agent <= SI_CONTROL_LEASE_SESSION_ID_MAX_LEN)%nat.
Proof. vm_compute. lia. Qed.

Lemma touch_fine c now current s :
  lease_ok s -> context_ok c -> (s_seen s = true -> active_locked now s = true) ->
  operation c = LEASE_OP_TOUCH_AGENT \/ operation c = LEASE_OP_TOUCH_BOOT ->
  op_fine c s (lease_touch c (active_locked now s) now current s).1.2.
Proof.
  intros H Hc Ha Hop. unfold lease_touch.
  case_if; [by apply op_unchanged|]. clear Heqb.
  pose proof (renew_embedded c s (current, now) H Hc Ha) as Hd. cbn [fst snd] in Hd.
  set (mode := if bool_decide _ then _ else _). set (reason := if bool_decide _ then _ else _).
  assert (Hi : installs c = Some (embedded_agent, 0)) by (unfold installs; by destruct Hop as [-> | ->]).
  set (s0 := if negb _ && negb _ then _ else _).
  assert (E0 : exists b, s0 = s <| s_embedded_preempted := b |>).
  { unfold s0. case_if; [by exists false|]. exists (s_embedded_preempted s). by destruct s. }
  destruct E0 as [b E0]. clearbody s0. subst s0.
  set (t := ((s <| s_embedded_preempted := b |> <| s_seen := true |>) <| s_last_ms := now |>)
              <| s_auth_generation := 0 |>).
  destruct (si_hid_embedded_touch_decide _ _ _ _ _); [by apply op_unchanged|..]; cbn [fst snd negb orb].
  - change (op_fine c s (copy_holder (cstr "agent") mode embedded_agent (deref reason)
      (epoch_bump_locked ((t <| s_next_embedded_resource_id := bump (s_next_embedded_resource_id s) |>)
         <| s_resource_id := bump (s_next_embedded_resource_id s) |>)))).
    pose proof (bump_range (s_epoch s)). pose proof (bump_range (s_next_embedded_resource_id s)).
    apply grant_fine; try done; try apply H; try (cbn; lia);
      try apply agent_len; try apply embedded_len.
    right. split_and!; [done | done | congruence].
  - destruct Hd as [Hs He]. apply embedded_session_true in He as Hv.
    pose proof (ok_seen s H Hs) as [_ Hr]. rewrite He in Hr. destruct Hr as [Ho Hr], Hv as [Hg Hsid].
    assert (Hcase : forall e, e = s_epoch s \/ e = bump (s_epoch s) -> 1 <= e < 2 ^ 32 ->
      op_fine c s (copy_holder (cstr "agent") mode embedded_agent (deref reason) (t <| s_epoch := e |>))).
    { intros e Hcase Hrange. apply grant_fine; try done; try apply H; try (cbn; lia);
        try apply agent_len; try apply embedded_len.
      left. split_and!; try done. rewrite Ho. apply streq_refl. }
    destruct (negb _).
    + apply (Hcase (bump (s_epoch s))); [by right | apply bump_range].
    + apply (Hcase (s_epoch s)); [by left | apply H].
Qed.

Lemma owner_valid_len o :
  si_control_lease_owner_valid o = true -> (length (deref o) <= SI_CONTROL_LEASE_OWNER_MAX_LEN)%nat.
Proof.
  destruct o as [o|]; [|done]. change (deref (Some o)) with o.
  intros [E|E]%orb_true_iff; apply strcaseeq_length in E; rewrite E; vm_compute; lia.
Qed.

Definition preempted_if (b : bool) (s : lease_state) : lease_state :=
  if b then s <| s_embedded_preempted := true |> else s.

Lemma preempted_if_eq b s : exists v, preempted_if b s = s <| s_embedded_preempted := v |>.
Proof. destruct b; [by exists true|]. exists (s_embedded_preempted s). by destruct s. Qed.

Lemma not_other c s :
  held_by_other c s = false ->
  strcaseeq (s_owner s) (deref (ctx_owner c)) = true /\ s_session_id s = deref (ctx_session_id c) /\
  s_auth_generation s = ctx_auth_generation c.
Proof. unfold held_by_other. intros H. split_guards. to_props. done. Qed.

Lemma update_grants c now s v :
  lease_ok s -> context_ok c -> operation c = LEASE_OP_UPDATE -> active c = true ->
  let other := s_seen s && held_by_other c s in
  let changed := negb (s_seen s) || other || negb (strcaseeq (s_mode s) (deref (ctx_mode c))) in
  (other = true -> force c = true) ->
  let s' := copy_holder (deref (ctx_owner c)) (deref (ctx_mode c)) (deref (ctx_session_id c))
              (deref (ctx_reason c))
              (((((s <| s_embedded_preempted := v |>) <| s_seen := true |>) <| s_last_ms := now |>)
                  <| s_auth_generation := ctx_auth_generation c |>) <| s_resource_id := 0 |>) in
  op_fine c s (if changed then epoch_bump_locked s' else s').
Proof.
  intros H Hc Hop Hact other changed Hother s'.
  destruct (ctx_update c Hc Hop) as (Hov & Hne & Hlen & Hemb).
  set (t := ((((s <| s_embedded_preempted := v |>) <| s_seen := true |>) <| s_last_ms := now |>)
                  <| s_auth_generation := ctx_auth_generation c |>) <| s_resource_id := 0 |>).
  pose proof (owner_valid_len _ Hov) as Hol.
  assert (He : (ctx_auth_generation c =? 0) && streq (deref (ctx_session_id c)) embedded_agent = false).
  { apply not_true_iff_false. intros E. split_guards. to_props. by apply Hemb. }
  assert (Hcase : forall e, 1 <= e < 2 ^ 32 ->
    (s_seen s = true /\ other = false /\ (e = s_epoch s \/ e = bump (s_epoch s))) \/
    (e = bump (s_epoch s) /\ (s_seen s = true -> force c = true)) ->
    op_fine c s (copy_holder (deref (ctx_owner c)) (deref (ctx_mode c)) (deref (ctx_session_id c))
              (deref (ctx_reason c)) (t <| s_epoch := e |>))).
  { intros e Hrange Hcase. apply grant_fine; try done; try apply H.
    - change (if (ctx_auth_generation c =? 0) && streq (deref (ctx_session_id c)) embedded_agent
              then deref (ctx_owner c) = cstr "agent" /\ 1 <= 0 < 2 ^ 32 else 0 = 0).
      by rewrite He.
    - destruct Hcase as [(Hs & Ho & Hcase)|[-> Hf]].
      + left. unfold other in Ho. rewrite Hs in Ho. apply not_other in Ho as (H1 & H2 & H3).
        pose proof (ok_seen s H Hs) as [_ Hr]. unfold embedded_session in Hr.
        rewrite H2, H3, He in Hr. by split_and!.
      + right. split_and!; [done | |].
        * unfold installs. by rewrite Hop, Hact.
        * intros Hs. unfold displaces. by rewrite Hop, (Hf Hs). }
  pose proof (bump_range (s_epoch s)) as Hb. pose proof (ok_epoch s H) as Hr.
  destruct changed eqn:Ec.
  - apply (Hcase (bump (s_epoch s)) Hb). destruct (s_seen s) eqn:Hs; [|by right].
    destruct other eqn:Eo; [right; auto | left; auto].
  - apply (Hcase (s_epoch s) Hr). left. subst changed. split_guards. auto.
Qed.

Lemma update_fine c now s :
  lease_ok s -> context_ok c -> (s_seen s = true -> active_locked now s = true) ->
  operation c = LEASE_OP_UPDATE ->
  op_fine c s (lease_update c (active_locked now s) now s).1.2.
Proof.
  intros H Hc Ha Hop.
  assert (Ea : active_locked now s = s_seen s).
  { destruct (s_seen s) eqn:E; [auto|]. unfold active_locked. by rewrite E. }
  unfold lease_update. rewrite Ea. destruct (active c) eqn:Hact; cbn [andb].
  - destruct (s_seen s && held_by_other c s && negb (force c)) eqn:Ed; [by apply op_unchanged|].
    fold (preempted_if (s_seen s && embedded_session s && (s_seen s && held_by_other c s)) s).
    destruct (preempted_if_eq (s_seen s && embedded_session s && (s_seen s && held_by_other c s)) s)
      as [v ->].
    apply (update_grants c now s v H Hc Hop Hact). intros E. rewrite E in Ed. by destruct (force c).
  - destruct (negb (s_seen s) || force c || _) eqn:Ec; [|by apply op_unchanged].
    fold (preempted_if (s_seen s && embedded_session s)
            (if s_seen s then epoch_bump_locked s else s)).
    destruct (preempted_if_eq (s_seen s && embedded_session s)
                (if s_seen s then epoch_bump_locked s else s)) as [v ->].
    cbn [fst snd]. destruct (s_seen s) eqn:Hs.
    + split_and!; [by destruct (ok_drops s H) as [_ []] | done |].
      apply op_ended; [done | | congruence]. intros _. split; [|done]. unfold displaces. rewrite Hop, Hact. cbn [negb andb].
      destruct (force c); [done|]. cbn [negb orb] in Ec. split_guards. unfold revoke_hits.
      rewrite H0. cbn [orb andb]. rewrite H2, streq_refl. done.
    + split_and!; [| done | apply op_ended; [done | congruence | done]].
      destruct H. split; try done; cbn; lia.
Qed.

Lemma operate_fine c now current s :
  lease_ok s -> context_ok c -> (s_seen s = true -> active_locked now s = true) ->
  op_fine c s (lease_operate c (active_locked now s) now current s).1.2.
Proof.
  intros H Hc Ha. unfold lease_operate.
  destruct (operation c) eqn:Hop;
    eauto using touch_fine, release_fine, abandon_fine, update_fine, revoke_fine, op_unchanged.
Qed.

Lemma op_fine_noted c b s s' : op_fine (noted c b) s s' -> op_fine c s s'.
Proof.
  intros (H1 & H2 & R). split_and!; [done..|].
  destruct R; [by apply op_kept | by apply op_taken | by apply op_ended].
Qed.

Lemma operated_fine env c current s :
  lease_ok s -> context_ok c ->
  op_fine c (settled (now_ms env) s) (operated env c current s).1.2.
Proof.
  intros H Hc. unfold operated. eapply op_fine_noted, operate_fine;
    [by apply ok_settled | | apply settled_seen]. by destruct Hc.
Qed.

Lemma ok_pending session gen s :
  lease_ok s -> lease_ok (pending_revoke_add_under_hid_gate session gen s).
Proof.
  intros H. unfold pending_revoke_add_under_hid_gate. case_if; [done|].
  destruct H. destruct (list_find _ _) as [[i p]|]; split; try done.
  change (length (<[i := mk_pending true (strtrunc 21 session) gen]> (s_pending_revokes s)) =
          LEASE_PENDING_REVOKES). by rewrite length_insert.
Qed.

(** A property of the callback, from its three outcomes. *)
Lemma step_ind (Q : lease_state -> Prop) s env c current :
  lease_ok s -> context_ok c -> Q s ->
  (lock_taken env = false -> operation c = LEASE_OP_REVOKE_SESSION ->
   Q (pending_revoke_add_under_hid_gate (deref (ctx_session_id c)) (ctx_auth_generation c) s)) ->
  (forall s', s_lock s = true -> lock_taken env = true -> live_update c ->
   op_fine c (settled (now_ms env) s) s' -> Q s') ->
  Q (lease_step s (env, c, current)).
Proof.
  intros H Hc H1 H2 H3.
  destruct (step_cases s env c current) as [->|[(Ht & Hop & ->)|(Hl & Ht & Hg & ->)]]; auto.
  apply H3; auto using operated_fine.
Qed.

Definition call_ok (call : lease_call) : Prop := context_ok call.1.2.

Lemma step_ok s call : lease_ok s -> call_ok call -> lease_ok (lease_step s call).
Proof.
  destruct call as [[env c] current]. intros H Hc.
  apply step_ind; auto using ok_pending. by intros s' _ _ _ [? _].
Qed.

Lemma run_ok s calls : lease_ok s -> Forall call_ok calls -> lease_ok (lease_run s calls).
Proof.
  intros H Hc. revert s H. induction Hc as [|call calls Hc _ IH]; intros s H; [done|].
  apply IH, step_ok; done.
Qed.

(** The lease is well formed. After any sequence of calls the epoch is a
    non-zero 32-bit number, every text fits its buffer and the journal has four
    entries; a lease that is held names a session, is bound to a resource exactly
    when the embedded agent holds it, and its claim is one that the HID manager
    accepts. *)
Theorem lease_well_typed calls :
  Forall call_ok calls ->
  let s := lease_run lease_started calls in
  lease_ok s /\
  (s_seen s = true -> si_hid_owner_claim_valid (Some (lease_claim s)) = true).
Proof.
  intros Hc s. pose proof (run_ok _ _ ok_started Hc : lease_ok s) as H. split; [done|].
  intros Hs. destruct (ok_seen s H Hs) as [Hne _]. pose proof (ok_epoch s H) as He.
  unfold si_hid_owner_claim_valid. cbn [lease_claim kind session_id authority_epoch].
  rewrite strtrunc_id by (pose proof (ok_session s H);
    unfold SI_CONTROL_LEASE_SESSION_ID_MAX_LEN, SI_HID_OWNER_SESSION_ID_MAX_LEN in *; lia).
  destruct (s_session_id s); [done|]. rewrite (proj2 (Z.eqb_neq _ _)) by lia. done.
Qed.

(** C24: only its holder, a forced update or a revocation ends a lease that is
    alive at the time of the call. Every other call leaves the lease with its
    session, generation, resource and owner, and a live update by somebody else is
    answered [HELD_BY_OTHER]. A call that ends the lease holds the lease lock and,
    when it is an update, has just revalidated its authorization. *)
Theorem lease_exclusive s env c current :
  lease_ok s -> context_ok c -> s_seen (settled (now_ms env) s) = true ->
  let s' := lease_step s (env, c, current) in
  (s_seen s' = true /\ same_holder s s' \/
   lock_taken env = true /\ live_update c /\ displaces c (settled (now_ms env) s) = true) /\
  (s_lock s = true -> lock_taken env = true -> live_update c ->
   operation c = LEASE_OP_UPDATE -> active c = true -> force c = false ->
   held_by_other c s = true ->
   update_result (lease_transition_under_hid_gate env (s, c) current).2.2 =
   SI_CONTROL_LEASE_UPDATE_HELD_BY_OTHER).
Proof.
  intros H Hc Hs. cbv zeta.
  assert (Hh : s_seen s = true /\ same_holder s (settled (now_ms env) s) /\
               held_by_other c (settled (now_ms env) s) = held_by_other c s).
  { destruct (settled_cases (now_ms env) s) as (x & l & _ & _ & E & _ & Hx). rewrite E in *.
    change (s_seen x = true) in Hs. destruct Hx as [(-> & _)|[_ [-> | ->]]]; [|done..].
    split_and!; [done | apply (same_holder_refl s) | done]. }
  destruct Hh as (Hseen & Hh & Ho). split.
  - apply step_ind; [done | done | left; auto using same_holder_refl | |].
    + intros _ _. left. unfold pending_revoke_add_under_hid_gate.
      destruct (existsb _ _); [by auto using same_holder_refl|].
      destruct (list_find _ _) as [[i p]|]; (split; [done | exact (same_holder_refl s)]).
    + intros s' _ Ht Hg (_ & _ & R). destruct R as [? ? R _|_ _ _ R|_ R _].
      * left. split; [done|]. destruct Hh as (E1 & E2 & E3 & E4), R as (R1 & R2 & R3 & R4).
        split_and!; [congruence..|]. apply strcaseeq_true in E4, R4. apply strcaseeq_true. congruence.
      * right. auto.
      * right. destruct (R Hs). auto.
  - intros Hl Ht Hg Hop Hact Hf Hother. rewrite gate_locked by done.
    unfold operated. set (c' := noted c _).
    assert (E : operation c' = LEASE_OP_UPDATE /\ active c' = true /\ force c' = false /\
                held_by_other c' (settled (now_ms env) s) = true)
      by (split_and!; [exact Hop | exact Hact | exact Hf | by rewrite <- Hother, <- Ho]).
    destruct E as (E1 & E2 & E3 & E4). unfold lease_operate. rewrite E1. unfold lease_update.
    by rewrite E2, E3, E4, (proj1 (settled_seen (now_ms env) s) Hs).
Qed.

(** ** Epochs *)

(** [n] epochs later; within one epoch a lease can only end, not change hands. *)
Definition epochs_on (n : nat) (s s' : lease_state) : Prop :=
  s_epoch s' = Nat.iter n bump (s_epoch s) /\
  (n = 0%nat -> s_seen s' = true -> s_seen s = true /\ same_holder s s').

Lemma same_holder_trans s1 s2 s3 : same_holder s1 s2 -> same_holder s2 s3 -> same_holder s1 s3.
Proof.
  intros (A1 & A2 & A3 & A4) (B1 & B2 & B3 & B4). apply strcaseeq_true in A4, B4.
  split_and!; [congruence..|]. apply strcaseeq_true. congruence.
Qed.

Lemma epochs_trans n m s1 s2 s3 :
  epochs_on n s1 s2 -> epochs_on m s2 s3 -> epochs_on (m + n) s1 s3.
Proof.
  intros [E1 H1] [E2 H2]. split; [by rewrite Nat.iter_add, <- E1|].
  intros Hz Hs. destruct (H2 ltac:(lia) Hs) as [Hs2 R2]. destruct (H1 ltac:(lia) Hs2) as [Hs1 R1].
  split; [done | by eapply same_holder_trans].
Qed.

Lemma epochs_refl s : epochs_on 0 s s.
Proof. split; [done|]. auto using same_holder_refl. Qed.

Lemma settled_epochs now s : exists n, (n <= 1)%nat /\ epochs_on n s (settled now s).
Proof.
  destruct (settled_cases now s) as (x & l & _ & _ & -> & _ & Hx).
  destruct Hx as [(-> & _)|[_ Hx]].
  - exists 0%nat. split; [lia|]. split; [done|]. intros _ Hs. split; [done | exact (same_holder_refl s)].
  - exists 1%nat. split; [lia|]. split; [by destruct Hx as [-> | ->] | done].
Qed.

Lemma result_epochs c s s' : op_result c s s' -> exists n, (n <= 1)%nat /\ epochs_on n s s'.
Proof.
  intros [H1 H2 R [E|E]|H1 E _ _|H1 H2 H3].
  - by exists 0%nat; split; [lia|].
  - by exists 1%nat; split; [lia|].
  - by exists 1%nat; split; [lia|].
  - destruct (s_seen s) eqn:Hs.
    + destruct (H2 eq_refl) as [_ E]. by exists 1%nat; split; [lia|].
    + exists 0%nat. split; [lia|]. split; [auto | congruence].
Qed.

Lemma step_epochs s call :
  lease_ok s -> call_ok call -> exists n, (n <= 2)%nat /\ epochs_on n s (lease_step s call).
Proof.
  destruct call as [[env c] current]. intros H Hc.
  apply (step_ind (fun s' => exists n, (n <= 2)%nat /\ epochs_on n s s')); [done | done | | |].
  - exists 0%nat. split; [lia | apply epochs_refl].
  - intros _ _. exists 0%nat. split; [lia|]. unfold pending_revoke_add_under_hid_gate.
    case_if; [apply epochs_refl|]. destruct (list_find _ _) as [[i p]|]; exact (epochs_refl s).
  - intros s' _ _ _ (_ & _ & R).
    destruct (settled_epochs (now_ms env) s) as (n & Hn & E1).
    destruct (result_epochs c _ _ R) as (m & Hm & E2).
    exists (m + n)%nat. split; [lia | by eapply epochs_trans].
Qed.

Lemma run_epochs s calls :
  lease_ok s -> Forall call_ok calls ->
  exists n, (n <= 2 * length calls)%nat /\ epochs_on n s (lease_run s calls).
Proof.
  intros H Hc. revert s H. induction Hc as [|call calls Hc _ IH]; intros s H.
  - exists 0%nat. split; [lia | apply epochs_refl].
  - destruct (step_epochs s call H Hc) as (n & Hn & E1).
    destruct (IH _ (step_ok s call H Hc)) as (m & Hm & E2).
    exists (m + n)%nat. split; [cbn [length]; lia | by eapply epochs_trans].
Qed.

(** The epoch separates holders. Between two moments with the same epoch and
    fewer than 2^31 - 1 calls in between, the lease can have ended but not
    changed hands: when it is held at the second moment it was held at the first,
    by the same session, generation and resource. So a claim of a past lease, which
    carries its epoch, never matches a later one. *)
Theorem epoch_separates_holders s calls :
  lease_ok s -> Forall call_ok calls -> 2 * Z.of_nat (length calls) < 2 ^ 32 - 1 ->
  let s' := lease_run s calls in
  s_epoch s' = s_epoch s -> s_seen s' = true ->
  s_seen s = true /\ same_holder s s' /\ lease_claim s' = lease_claim s.
Proof.
  intros H Hc Hlen s' He Hs. destruct (run_epochs s calls H Hc) as (n & Hn & E1 & E2).
  fold s' in E1, E2. destruct (decide (n = 0%nat)) as [Hz|Hz].
  - destruct (E2 Hz Hs) as [? R]. split_and!; [done | done |].
    destruct R as (R1 & R2 & R3 & _). unfold lease_claim. congruence.
  - exfalso. apply (bump_iter_fresh n (s_epoch s)); [apply H | lia | lia | congruence].
Qed.

(** ** Revocations *)

Lemma settled_lock now s : s_lock (settled now s) = s_lock s.
Proof. by destruct (settled_cases now s) as (x & l & _ & _ & -> & _ & [(-> & _)|[_ [-> | ->]]]). Qed.

Lemma step_lock s call : lease_ok s -> call_ok call -> s_lock (lease_step s call) = s_lock s.
Proof.
  destruct call as [[env c] current]. intros H Hc. apply step_ind; [done | done | done | |].
  - intros _ _. unfold pending_revoke_add_under_hid_gate. case_if; [done|].
    by destruct (list_find _ _) as [[]|].
  - intros s' _ _ _ (_ & Hf & _). unfold lease_frame in Hf.
    rewrite <- (settled_lock (now_ms env) s). congruence.
Qed.

(** The lease is not held by a session and generation that were revoked. *)
Definition revoked_off (session : cstring) (gen : Z) (s : lease_state) : Prop :=
  s_seen s = true -> revoke_hits session gen s = false.

(** A revocation that took effect, or is in the journal. *)
Definition revocation_kept (session : cstring) (gen : Z) (s : lease_state) : Prop :=
  revoked_off session gen s \/ s_pending_revoke_fail_closed s = true \/
  mk_pending true (strtrunc (SI_CONTROL_LEASE_SESSION_ID_MAX_LEN + 1) session) gen
    ∈ s_pending_revokes s.

(** A call that gives the lease to the revoked session again. *)
Definition readmits (session : cstring) (gen : Z) (c : lease_transition_context_t) : bool :=
  match installs c with
  | Some (sid, g) => streq sid session && ((gen =? 0) || (g =? gen))
  | None => false
  end.

Lemma hits_truncated session gen s :
  lease_ok s -> revoke_hits session gen s = true ->
  strtrunc (SI_CONTROL_LEASE_SESSION_ID_MAX_LEN + 1) session = session.
Proof.
  intros H E. unfold revoke_hits in E. split_guards. apply strtrunc_id.
  pose proof (ok_session s H). subst. lia.
Qed.

Lemma kept_settles session gen now s :
  lease_ok s -> revocation_kept session gen s -> revoked_off session gen (settled now s).
Proof.
  intros H Hk. destruct (settled_cases now s) as (x & l & _ & _ & -> & _ & Hx). intros Hs.
  change (revoke_hits session gen x = false). change (s_seen x = true) in Hs.
  destruct Hx as [(-> & Hf & Hd)|[_ [-> | ->]]]; [|done..].
  destruct Hk as [Hk|[Hk|Hk]]; [auto | by rewrite Hf in Hs |].
  apply not_true_iff_false. intros E. rewrite Forall_forall in Hd. specialize (Hd _ Hk).
  unfold due in Hd. cbn [used pending_session_id pending_auth_generation] in Hd.
  by rewrite (hits_truncated session gen s), E, Hs in Hd.
Qed.

Lemma pending_matches_entry session gen p :
  (length session <= SI_CONTROL_LEASE_SESSION_ID_MAX_LEN)%nat ->
  pending_matches session gen p = true ->
  p = mk_pending true (strtrunc (SI_CONTROL_LEASE_SESSION_ID_MAX_LEN + 1) session) gen.
Proof.
  intros Hl E. unfold pending_matches in E. rewrite strtrunc_id by lia.
  destruct p. cbn in E. split_guards. to_props. by subst.
Qed.

Lemma pending_mono session gen sid' g' s :
  revocation_kept session gen s ->
  revocation_kept session gen (pending_revoke_add_under_hid_gate sid' g' s).
Proof.
  intros Hk. unfold pending_revoke_add_under_hid_gate. case_if; [done|].
  destruct (list_find _ _) as [[i p]|] eqn:E; [|right; by left].
  destruct Hk as [Hk|[Hk|Hk]]; [by left | right; by left |]. right; right.
  apply list_find_Some in E as (Hi & Hu & _). apply list_elem_of_lookup in Hk as (j & Hj).
  apply list_elem_of_lookup. exists j.
  change (<[i:=mk_pending true (strtrunc 21 sid') g']> (s_pending_revokes s) !! j = Some
    (mk_pending true (strtrunc (SI_CONTROL_LEASE_SESSION_ID_MAX_LEN + 1) session) gen)).
  rewrite list_lookup_insert_ne; [done|]. intros ->. rewrite Hj in Hi. injection Hi as <-. done.
Qed.

Lemma pending_added session gen s :
  lease_ok s -> (length session <= SI_CONTROL_LEASE_SESSION_ID_MAX_LEN)%nat ->
  revocation_kept session gen (pending_revoke_add_under_hid_gate session gen s).
Proof.
  intros H Hl. unfold pending_revoke_add_under_hid_gate. case_if.
  - apply existsb_exists in Heqb as (p & Hp & E). apply pending_matches_entry in E as ->; [|done].
    right; right. by apply list_elem_of_In.
  - destruct (list_find _ _) as [[i p]|] eqn:E; [|right; by left]. right; right.
    apply list_find_Some in E as (Hi & _). apply list_elem_of_lookup. exists i.
    apply list_lookup_insert_eq. by eapply lookup_lt_Some.
Qed.

Lemma operated_off session gen env c s s' :
  lease_ok s -> readmits session gen c = false -> revocation_kept session gen s ->
  op_fine c (settled (now_ms env) s) s' -> revoked_off session gen s'.
Proof.
  intros H Hr Hk (_ & _ & R) Hs.
  pose proof (kept_settles session gen (now_ms env) s H Hk) as Ho.
  destruct R as [Hs1 _ (E1 & E2 & _) _|_ _ Hi _|Hn _ _].
  - specialize (Ho Hs1). unfold revoke_hits in *. by rewrite E1, E2.
  - unfold readmits in Hr. rewrite Hi in Hr. exact Hr.
  - congruence.
Qed.

Lemma step_keeps_revocation session gen s call :
  lease_ok s -> call_ok call -> readmits session gen call.1.2 = false ->
  revocation_kept session gen s -> revocation_kept session gen (lease_step s call).
Proof.
  destruct call as [[env c] current]. intros H Hc Hr Hk. cbn [fst snd] in Hr.
  apply step_ind; [done | done | done | intros _ _; by apply pending_mono |].
  intros s' _ _ _ R. left. by eapply operated_off.
Qed.

Lemma step_keeps_off session gen s call :
  lease_ok s -> call_ok call -> readmits session gen call.1.2 = false ->
  revoked_off session gen s -> revoked_off session gen (lease_step s call).
Proof.
  destruct call as [[env c] current]. intros H Hc Hr Hk. cbn [fst snd] in Hr.
  apply step_ind; [done | done | done | |].
  - intros _ _. unfold pending_revoke_add_under_hid_gate. case_if; [done|].
    by destruct (list_find _ _) as [[]|].
  - intros s' _ _ _ R. eapply operated_off; [done | done | by left | done].
Qed.

(** The call takes the lock of the lease. *)
Definition takes_lock (call : lease_call) : Prop := lock_taken call.1.1 = true /\ live_update call.1.2.

(** A call that takes the lock applies the revocation. *)
Lemma step_takes_off session gen s call :
  lease_ok s -> call_ok call -> readmits session gen call.1.2 = false -> s_lock s = true -> takes_lock call ->
  revocation_kept session gen s -> revoked_off session gen (lease_step s call).
Proof.
  destruct call as [[env c] current]. intros H Hc Hr Hl [Ht Hg] Hk. cbn [fst snd] in *.
  apply (operated_off session gen env c s); [done | done | done |].
  unfold lease_step. rewrite gate_locked by done.
  pose proof (operated_fine env c current s H Hc) as R.
  by destruct (operated env c current s) as [[[] s2] c2].
Qed.

Lemma run_takes_off session gen calls s :
  lease_ok s -> s_lock s = true ->
  Forall (fun call => call_ok call /\ readmits session gen call.1.2 = false) calls ->
  (revoked_off session gen s \/ revocation_kept session gen s /\ Exists takes_lock calls) ->
  revoked_off session gen (lease_run s calls).
Proof.
  intros H Hl Hc. revert s H Hl. induction Hc as [|call calls [Hco Hr] _ IH]; intros s H Hl Hk.
  { destruct Hk as [Hk|[_ Hk]]; [done | by apply Exists_nil in Hk]. }
  apply IH; [by apply step_ok | by rewrite step_lock |].
  destruct Hk as [Hk|[Hk [Ht|Hx]%Exists_cons]]; [left; by apply step_keeps_off | left; by apply step_takes_off |].
  right. split; [by apply step_keeps_revocation | done].
Qed.

Lemma revoke_takes_off c s sid :
  ctx_session_id c = Some sid ->
  revoked_off sid (ctx_auth_generation c) (lease_revoke_session c s).1.2.
Proof.
  intros Hsid. unfold lease_revoke_session, revoked_off, revoke_hits. rewrite Hsid. cbn [ptr_test].
  case_if; [done|]. intros _. exact Heqb.
Qed.

Lemma revoke_locked s env c current sid :
  s_lock s = true -> lock_taken env = true ->
  operation c = LEASE_OP_REVOKE_SESSION -> ctx_session_id c = Some sid ->
  revoked_off sid (ctx_auth_generation c) (lease_step s (env, c, current)).
Proof.
  intros Hl Ht Hop Hsid. assert (Hg : live_update c) by (intros E; congruence).
  unfold lease_step. rewrite gate_locked by done. unfold operated. set (c' := noted c _).
  pose proof (revoke_takes_off c' (settled (now_ms env) s) sid Hsid) as Hr.
  unfold lease_operate. replace (operation c') with LEASE_OP_REVOKE_SESSION by by symmetry.
  by destruct (lease_revoke_session c' _) as [[[] s2] c2].
Qed.

Lemma revoke_registers s env c current sid :
  lease_ok s -> s_lock s = true -> context_ok c ->
  operation c = LEASE_OP_REVOKE_SESSION -> ctx_session_id c = Some sid -> sid <> [] ->
  revocation_kept sid (ctx_auth_generation c) (lease_step s (env, c, current)).
Proof.
  intros H Hl Hc Hop Hsid Hne.
  destruct (lock_taken env) eqn:Ht; [left; by apply revoke_locked|]. unfold lease_step.
  unfold lease_transition_under_hid_gate. rewrite Hl, Ht, Hop, Hsid. cbn [negb ptr_test].
  destruct sid as [|b sid]; [done|]. cbn [is_empty fst snd negb].
  change (deref (Some (b :: sid))) with (b :: sid).
  change (revocation_kept (b :: sid) (ctx_auth_generation c)
      (pending_revoke_add_under_hid_gate (b :: sid) (ctx_auth_generation c) s)).
  destruct (decide (length (b :: sid) <= SI_CONTROL_LEASE_SESSION_ID_MAX_LEN)%nat) as [Hlen|Hlen];
    [by apply pending_added|].
  left. intros _. apply not_true_iff_false. intros E.
  eapply hits_truncated in E; [|by apply ok_pending].
  apply (f_equal length) in E.
  pose proof (strtrunc_max SI_CONTROL_LEASE_SESSION_ID_MAX_LEN (b :: sid)). lia.
Qed.

(** C3: no revocation is lost. Once a session was revoked, with the lease lock or
    without it and with any journal, no operation on the lease ever finds it in the
    hands of that session again, however many calls fail to take the lock, until a
    call gives the lease to that session anew. The state itself still shows the old
    holder only as long as the revocation waits in the journal or the journal has
    overflowed, and no longer once any call has taken the lock; till then the views
    that read the state without applying the journal still answer for the old holder
    ([views_show_pending]). *)
Theorem revocation_not_lost s env c current sid calls now :
  lease_ok s -> s_lock s = true -> context_ok c ->
  operation c = LEASE_OP_REVOKE_SESSION -> ctx_session_id c = Some sid -> sid <> [] ->
  Forall (fun call => call_ok call /\ readmits sid (ctx_auth_generation c) call.1.2 = false) calls ->
  let gen := ctx_auth_generation c in
  let s' := lease_run (lease_step s (env, c, current)) calls in
  revoked_off sid gen (settled now s') /\
  (revoked_off sid gen s' \/ s_pending_revoke_fail_closed s' = true \/
   mk_pending true (strtrunc (SI_CONTROL_LEASE_SESSION_ID_MAX_LEN + 1) sid) gen ∈ s_pending_revokes s') /\
  (Exists takes_lock ((env, c, current) :: calls) -> revoked_off sid gen s').
Proof.
  intros H Hl Hc Hop Hsid Hne Hcalls gen s'. subst gen.
  pose proof (revoke_registers s env c current sid H Hl Hc Hop Hsid Hne) as K.
  assert (H1 : lease_ok (lease_step s (env, c, current))) by by apply step_ok.
  assert (H' : lease_ok s' /\ revocation_kept sid (ctx_auth_generation c) s').
  { subst s'. revert K H1. generalize (lease_step s (env, c, current)) as s1. clear Hl.
    induction Hcalls as [|call calls [Hco Hr] _ IH]; intros s1 K H1; [done|].
    apply IH; [by apply step_keeps_revocation | by apply step_ok]. }
  destruct H' as [H' K']. split; [by apply kept_settles|]. split; [done|].
  intros Hx. apply run_takes_off; [done | by rewrite step_lock | done |].
  apply Exists_cons in Hx as [[Ht _]|Hx]; [left; by apply revoke_locked | by right].
Qed.

(** ** The report owner follows the lease *)

(** What the reports' owner must be once a transition of the lease is over. *)
Definition owner_agrees (now : Z) (s : lease_state) (o : si_hid_owner_token_t) : Prop :=
  if takes_reports now s then claim o = lease_claim s
  else kind (claim o) <> enum_val SI_HID_OWNER_CONTROL_LEASE.

(** An answer of the callback decides on the lease it leaves behind. *)
Lemma gate_decides env s c current t s' c' :
  lease_transition_under_hid_gate env (s, c) current = (Some t, (s', c')) ->
  t = desired_owner_locked current (now_ms env) (kvm_view_active env) s'.
Proof.
  unfold lease_transition_under_hid_gate. do 3 (case_if; [done|]).
  destruct (pending_revokes_apply_locked s) as [revoked s0].
  destruct (materialize_expiry_locked (now_ms env) s0) as [expired s1].
  destruct (lease_operate _ _ _ _ _) as [[[] s2] c2]; [|done]. by intros [= <- <- _].
Qed.

(** The claims a decision can install, and the ones it can keep. *)
Lemma desired_claims current now kvm s :
  let t := desired_owner_locked current now kvm s in
  if takes_reports now s then authorize t = true /\ transition_claim t = lease_claim s
  else authorize t = true -> kind (transition_claim t) <> enum_val SI_HID_OWNER_CONTROL_LEASE.
Proof.
  cbv zeta. unfold desired_owner_locked. destruct (takes_reports now s); [done|].
  unfold preserve_owner. case_if; [|case_if; [|done]]; case_if; try done; intros _; cbn.
  - split_guards. to_props. intros E. rewrite H0 in E. discriminate E.
  - split_guards. to_props. done.
Qed.

Lemma claim_equal_eq a b : si_hid_owner_claim_equal a b = true -> a = b.
Proof. destruct a, b. unfold si_hid_owner_claim_equal. cbn. intros. split_guards. to_props. by subst. Qed.

(** Successful outcomes of the owner transition, by the claim they leave. *)
Lemma outcome_claim transition h token h' :
  transition_outcome transition h (true, token) h' ->
  token = Some (current (s_owner_state h')) /\
  (authorize transition = true -> claim (current (s_owner_state h')) = transition_claim transition) /\
  (authorize transition = false -> current (s_owner_state h') = zero_token).
Proof.
  unfold transition_outcome, owner_transition_start.
  case_if; [by intros [? _]|]. case_if; cbn [fst].
  - intros [[= ->] ->]. split_guards. split_and!; [done | | congruence].
    intros _. by apply claim_equal_eq.
  - unfold transition_done. cbn [fst snd]. intros (_ & -> & ->). by destruct (authorize transition).
Qed.

(** An owner that a transition of the lease keeps, clears or installs. *)
Definition owner_result (env : lease_env) (s' : lease_state) (o o' : si_hid_owner_token_t) : Prop :=
  o' = o \/ generation o' = 0 \/ (generation o <> 0 /\ claim o' = claim o) \/
  (lock_taken env = true /\ takes_reports (now_ms env) s' = true /\ claim o' = lease_claim s').

Lemma gate_locked_in env s c current t r :
  lease_transition_under_hid_gate env (s, c) current = (Some t, r) -> lock_taken env = true.
Proof.
  unfold lease_transition_under_hid_gate. do 2 (case_if; [done|]). by destruct (lock_taken env).
Qed.

Lemma outcome_owner env s' h r h' :
  let o := current (s_owner_state h) in
  let t := desired_owner_locked o (now_ms env) (kvm_view_active env) s' in
  lock_taken env = true -> transition_outcome t h r h' ->
  owner_result env s' o (current (s_owner_state h')).
Proof.
  cbv zeta. intros Hl. unfold transition_outcome.
  destruct (owner_transition_start _ h).1; [intros [_ ->]; by left | intros [_ ->]; by left |].
  unfold transition_done. destruct r as [[] token]; cbn [fst snd]; [|by right; left].
  intros (_ & _ & ->). unfold desired_owner_locked.
  destruct (takes_reports (now_ms env) s') eqn:Hr; [by right; right; right|].
  unfold preserve_owner. case_ifs; try (by right; left); right; right; left; split_guards; by to_props.
Qed.

Lemma enter_gate_kept h :
  idle_free h ->
  wp (ensure_manager_locks &&& enter_gate) (fun ready h' =>
    idle_free h' /\ current (s_owner_state h') = current (s_owner_state h) /\
    (manager_locks h = true -> ready = true /\ manager_locks h' = true)) h.
Proof.
  intros Hi.
  assert (Hp : forall h0, idle_free h0 -> wp poll (fun _ h' =>
    idle_free h' /\ current (s_owner_state h') = current (s_owner_state h0) /\
    manager_locks h' = manager_locks h0) h0).
  { intros h0 H0. split; [by apply poll_idle|]. split; [|apply poll_locks].
    unfold poll. destruct (ticks h0) as [|t ts]; [done|]. cbn [snd].
    assert (Hg : forall es h1, gate_free h1 = false ->
      current (s_owner_state (fold_left hid_event_apply es h1)) = current (s_owner_state h1)).
    { induction es as [|e es IH]; intros h1 H1; [done|]. cbn [fold_left].
      destruct (event_apply_cases h1 e) as [->|[->|[->|(? & ? & ? & _ & E & _)]]];
        [by rewrite IH.. | congruence]. }
    rewrite Hg; [done | apply H0]. }
  assert (He : forall h0 m, idle_free h0 -> current (s_owner_state h0) = current (s_owner_state h) ->
    manager_locks h0 = true ->
    wp enter_gate (fun ready h' => idle_free h' /\
      current (s_owner_state h') = current (s_owner_state h) /\
      (manager_locks h = m -> ready = true /\ manager_locks h' = true)) h0).
  { intros h0 m H0 E L. apply wp_bind. eapply wp_mono; [by apply Hp|].
    intros _ h' (H1 & H2 & H3). apply wp_ret. split_and!; [done | congruence |].
    intros _. split; congruence. }
  apply wp_and_then, wp_bind, wp_gets. destruct (manager_locks h) eqn:Hm; [by apply wp_ret, He|].
  apply wp_bind, wp_bind. eapply wp_mono; [by apply Hp|]. intros t h1 (H1 & H2 & H3).
  apply wp_ret, wp_bind, wp_when; intros Hf; [apply wp_modify|]; apply wp_ret; rewrite Hf;
    [|split_and!; congruence].
  apply (He (h1 <| manager_locks := true |>) true); [|done..]. by apply (idle_free_view h1).
Qed.

(** A transition of the lease, on the HID manager at rest. *)
Record transition_result (env : lease_env) (c : lease_transition_context_t) (w : lease_world)
    (ok : bool) (granted : si_hid_owner_token_t) (w' : lease_world) : Prop := mk_result {
  result_idle : idle_free (hid_part w');
  result_lease : lease_ok (lease_part w');
  result_granted : ok = true ->
    granted = current (s_owner_state (hid_part w')) /\
    owner_agrees (now_ms env) (lease_part w') granted;
  result_owner : owner_result env (lease_part w') (current (s_owner_state (hid_part w)))
    (current (s_owner_state (hid_part w')));
  result_locks : manager_locks (hid_part w) = true ->
    manager_locks (hid_part w') = true /\
    lease_part w' =
      lease_step (lease_part w) (env, c, current (s_owner_state (hid_part w)))
}.

Lemma run_transition_spec env c w :
  idle_free (hid_part w) -> lease_ok (lease_part w) -> context_ok c ->
  let '((ok, granted, _), w') := run_transition env c w in transition_result env c w ok granted w'.
Proof.
  destruct w as [h s]. cbn [hid_part lease_part]. intros Hi H Hc.
  unfold run_transition, si_hid_authority_transition. cbn [hid_part lease_part].
  pose proof (enter_gate_kept h Hi) as Hready. unfold wp in Hready. unfold bind at 1.
  unfold bind, gets.
  destruct ((ensure_manager_locks &&& enter_gate) h) as [ready h1].
  destruct Hready as (Hi1 & Ho1 & Hl1). cbn [fst snd] in *.
  destruct ready; cbn [negb]; [|split; [done..| by left; cbn; rewrite Ho1 | by intros Hl; destruct (Hl1 Hl)]].
  pose proof (step_ok s (env, c, current (s_owner_state h1)) H Hc) as Hs.
  remember (lease_step s (env, c, current (s_owner_state h1))) as s' eqn:Es.
  unfold lease_step in Es. unfold gets.
  destruct (lease_transition_under_hid_gate env (s, c) (current (s_owner_state h1)))
    as [[t|] [s2 c2]] eqn:E; cbn [fst snd] in Es; subst s'.
  2: { split; [done..| by left; cbn; rewrite Ho1 |]. intros Hl. destruct (Hl1 Hl).
       split; [done|]. unfold lease_step. cbn [hid_part lease_part]. by rewrite <- Ho1, E. }
  pose proof (gate_locked_in _ _ _ _ _ _ E) as Ht.
  pose proof (f_equal (fun r => r.2.1) E) as Es. apply gate_decides in E.
  destruct Hi1 as [Hidle Hb]. pose proof (transition_spec t h1 Hidle Hb) as Hspec.
  pose proof (transition_locks t h1) as Hk. unfold wp, same in *.
  destruct (owner_transition_locked t h1) as [[ok token] h2].
  destruct Hspec as (Hi2 & Hb2 & Ho). cbn [fst snd] in *. split; cbn [hid_part lease_part].
  - by split.
  - done.
  - intros ->. destruct (outcome_claim t h1 token h2 Ho) as (-> & Ha & Hz). split; [done|].
    pose proof (desired_claims (current (s_owner_state h1)) (now_ms env) (kvm_view_active env) s2) as Hd.
    rewrite <- E in Hd. change (owner_agrees (now_ms env) s2 (current (s_owner_state h2))). unfold owner_agrees.
    destruct (takes_reports (now_ms env) s2).
    + destruct Hd as [Hat Hcl]. rewrite <- Hcl. by apply Ha.
    + destruct (authorize t) eqn:Hat; [rewrite Ha by done; by apply Hd | by rewrite Hz].
  - rewrite <- Ho1. subst t. by eapply outcome_owner.
  - intros Hl. destruct (Hl1 Hl) as [_ Hl']. split; [congruence|].
    unfold lease_step. by rewrite <- Ho1, Es.
Qed.

(** C25: the report owner follows the lease. A call on the HID manager at rest
    leaves it at rest and the lease well formed; when it succeeds, the granted
    token is the current one, it carries exactly the lease's session, generation,
    resource and epoch while the lease takes the reports, and no lease claim owns
    the reports otherwise. *)
Theorem report_owner_follows_lease env c w :
  idle_free (hid_part w) -> lease_ok (lease_part w) -> context_ok c ->
  let '((ok, granted, _), w') := run_transition env c w in
  idle_free (hid_part w') /\ lease_ok (lease_part w') /\
  (ok = true -> granted = current (s_owner_state (hid_part w')) /\
                owner_agrees (now_ms env) (lease_part w') granted).
Proof.
  intros Hi H Hc. pose proof (run_transition_spec env c w Hi H Hc) as R.
  destruct (run_transition env c w) as [[[ok granted] c'] w']. by destruct R.
Qed.

(** ** The revocation of an authenticated session *)

Definition owned_by (sid : cstring) (gen : Z) (t : si_hid_owner_token_t) : Prop :=
  generation t <> 0 /\ session_id (claim t) = sid /\ auth_generation (claim t) = gen.

(** The HID manager and the lease at rest, with their locks. *)
Record world_ok (w : lease_world) : Prop := mk_world_ok {
  world_idle : idle_free (hid_part w);
  world_lease : lease_ok (lease_part w);
  world_started : s_lock (lease_part w) = true;
  world_locks : manager_locks (hid_part w) = true
}.

Lemma hid_revoke_spec sid gen h :
  idle_free h -> manager_locks h = true -> sid <> [] -> gen <> 0 ->
  wp (si_hid_owner_revoke_session (Some sid) gen) (fun _ h' =>
    idle_free h' /\ manager_locks h' = true /\ ~ owned_by sid gen (current (s_owner_state h'))) h.
Proof.
  intros Hi Hm Hs Hg. unfold si_hid_owner_revoke_session. cbn [ptr_test].
  assert (is_empty sid = false) as -> by by destruct sid.
  rewrite (proj2 (Z.eqb_neq gen 0)) by done. cbn [negb orb].
  apply wp_bind. eapply wp_mono; [by apply enter_gate_kept|].
  intros ready h1 (H1 & Ho & Hl). destruct (Hl Hm) as [-> Hm1]. cbn [negb].
  apply wp_bind, wp_gets. cbv beta zeta. case_if; cbn [negb].
  - apply wp_ret. split_and!; [done..|]. intros (G & E1 & E2). apply Z.eqb_neq in G.
    change (deref (Some sid)) with sid in Heqb. by rewrite G, E1, E2, streq_refl, Z.eqb_refl in Heqb.
  - destruct H1 as [Hidle Hb]. apply wp_bind. unfold wp at 1.
    pose proof (transition_spec zero_transition h1 Hidle Hb) as Ht.
    pose proof (transition_locks zero_transition h1) as Hm2. unfold wp, same in Ht, Hm2.
    destruct (owner_transition_locked zero_transition h1) as [[ok token] h2].
    destruct Ht as (H2 & H3 & H4). cbn [fst snd] in *. apply wp_ret.
    split_and!; [by split | congruence |]. intros (Hne & _ & _). apply Hne.
    unfold transition_outcome, owner_transition_start, transition_done in H4. cbn in H4.
    destruct ok; [|done]. by destruct H4 as (_ & _ & ->).
Qed.

Lemma revoke_context_ok sid gen :
  context_ok (((context_of LEASE_OP_REVOKE_SESSION) <| ctx_session_id := Some sid |>)
                <| ctx_auth_generation := gen |>).
Proof. by split. Qed.

(** Once the revocation of a session returns, the session does not own the
    reports and its lease is taken, or its revocation is in the journal. *)
Lemma revoke_auth_session_spec env sid gen w :
  world_ok w -> sid <> [] -> gen <> 0 ->
  wp (si_control_lease_revoke_auth_session env (Some sid) gen) (fun _ w' =>
    world_ok w' /\ revocation_kept sid gen (lease_part w') /\
    ~ owned_by sid gen (current (s_owner_state (hid_part w')))) w.
Proof.
  intros [Hi H Hl Hm] Hs Hg. unfold si_control_lease_revoke_auth_session. cbn [ptr_test].
  assert (is_empty sid = false) as -> by by destruct sid. cbn [negb].
  apply wp_bind. unfold wp at 1, on_hid.
  pose proof (hid_revoke_spec sid gen (hid_part w) Hi Hm Hs Hg) as Hr. unfold wp in Hr.
  destruct (si_hid_owner_revoke_session (Some sid) gen (hid_part w)) as [b h1].
  destruct Hr as (Hi1 & Hm1 & Ho1). cbn [fst snd] in *. apply wp_bind. unfold wp at 1.
  set (c := _ <| ctx_auth_generation := gen |>). set (w1 := w <| hid_part := h1 |>).
  pose proof (revoke_context_ok sid gen : context_ok c) as Hc.
  pose proof (run_transition_spec env c w1 Hi1 H Hc) as R.
  destruct (run_transition env c w1) as [[[ok granted] c'] w']. destruct R as [R1 R2 _ R4 R5].
  destruct (R5 Hm1) as [R6 E]. cbn [fst snd]. apply wp_ret.
  pose proof (revoke_registers (lease_part w) env c (current (s_owner_state h1)) sid
    H Hl Hc eq_refl eq_refl Hs) as Hk.
  change (lease_part w1) with (lease_part w) in *. change (hid_part w1) with h1 in *.
  rewrite <- E in Hk. split_and!; [|done|].
  - split; [done | done | | done]. rewrite E. by rewrite step_lock.
  - destruct R4 as [-> | [Z | [[Hn Ec] | (Ht & Hr & Ec)]]]; [done | by intros [? _] | |].
    + intros (G & E1 & E2). rewrite Ec in E1, E2. by apply Ho1.
    + intros (G & E1 & E2). rewrite Ec in E1, E2. cbn [lease_claim session_id auth_generation] in E1, E2.
      rewrite strtrunc_id in E1 by (pose proof (ok_session _ R2);
        unfold SI_CONTROL_LEASE_SESSION_ID_MAX_LEN, SI_HID_OWNER_SESSION_ID_MAX_LEN in *; lia).
      unfold takes_reports, active_locked in Hr. apply andb_prop in Hr as [Hr _]. apply andb_prop in Hr as [Hr _].
      pose proof (revoke_locked (lease_part w) env c (current (s_owner_state h1)) sid
        Hl Ht eq_refl eq_refl) as Hoff. rewrite <- E in Hoff.
      specialize (Hoff Hr). unfold revoke_hits in Hoff.
      by rewrite E1, E2, streq_refl, Z.eqb_refl, orb_true_r in Hoff.
Qed.

(** ** Concrete runs *)

Definition demo_env (t : Z) (taken : bool) : lease_env := mk_env false taken t.

Definition demo_touch : lease_transition_context_t :=
  (((context_of LEASE_OP_TOUCH_AGENT) <| ctx_mode := Some (cstr "supervised") |>)
     <| active := true |>).

Definition demo_update (owner session : string) (gen : Z) : lease_transition_context_t :=
  mk_context LEASE_OP_UPDATE (Some (cstr owner)) (Some (cstr session)) (Some (cstr "autonomous"))
    None gen None true false false (Some true) ESP_OK SI_CONTROL_LEASE_UPDATE_OK false.

Definition demo_revoke (session : string) (gen : Z) : lease_transition_context_t :=
  ((context_of LEASE_OP_REVOKE_SESSION) <| ctx_session_id := Some (cstr session) |>)
    <| ctx_auth_generation := gen |>.

Definition demo_call (t : Z) (taken : bool) (c : lease_transition_context_t) : lease_call :=
  (demo_env t taken, c, zero_token).

(** The session [tab-1] holds the lease. *)
Definition demo_held : lease_state :=
  lease_run lease_started [demo_call 100 true (demo_update "mcp" "tab-1" 7)].

Lemma demo_touch_ok : context_ok demo_touch.
Proof. by split. Qed.

Lemma demo_update_ok owner session gen :
  si_control_lease_owner_valid (Some (cstr owner)) = true -> session <> EmptyString ->
  (String.length session <= SI_CONTROL_LEASE_SESSION_ID_MAX_LEN)%nat -> gen <> 0 ->
  context_ok (demo_update owner session gen).
Proof.
  intros Ho Hs Hl Hg. split; [done|]. intros _. cbn [demo_update ctx_owner ctx_session_id deref default].
  split_and!; [done | | change (length (cstr session) <= SI_CONTROL_LEASE_SESSION_ID_MAX_LEN)%nat;
    by rewrite cstr_length |].
  - by destruct session.
  - by intros [? _].
Qed.

Lemma demo_revoke_ok session gen : context_ok (demo_revoke session gen).
Proof. by split. Qed.

Lemma demo_mcp_ok session gen :
  session <> EmptyString -> (String.length session <= SI_CONTROL_LEASE_SESSION_ID_MAX_LEN)%nat ->
  gen <> 0 -> context_ok (demo_update "mcp" session gen).
Proof. by apply demo_update_ok. Qed.

Lemma demo_held_ok : lease_ok demo_held.
Proof.
  apply run_ok; [apply ok_started|]. apply Forall_singleton, demo_mcp_ok; [done | vm_compute; lia | done].
Qed.

Lemma lease_well_typed_witness :
  let s := lease_run lease_started [demo_call 5 true demo_touch; demo_call 9 false demo_touch] in
  s_seen s = true /\
  lease_ok s /\ (s_seen s = true -> si_hid_owner_claim_valid (Some (lease_claim s)) = true).
Proof.
  split; [by_eval|]. apply lease_well_typed.
  apply Forall_cons; split; [apply demo_touch_ok|]. apply Forall_singleton, demo_touch_ok.
Defined.

Lemma lease_exclusive_witness :
  let c := demo_update "mcp" "tab-2" 8 in
  displaces c (settled 200 demo_held) = false /\
  let s' := lease_step demo_held (demo_env 200 true, c, zero_token) in
  (s_seen s' = true /\ same_holder demo_held s' \/
   lock_taken (demo_env 200 true) = true /\ live_update c /\ displaces c (settled 200 demo_held) = true) /\
  update_result (lease_transition_under_hid_gate (demo_env 200 true) (demo_held, c) zero_token).2.2 =
    SI_CONTROL_LEASE_UPDATE_HELD_BY_OTHER.
Proof.
  cbv zeta. split; [by_eval|].
  assert (Hc : context_ok (demo_update "mcp" "tab-2" 8))
    by (apply demo_mcp_ok; [done | vm_compute; lia | done]).
  assert (Hs : s_seen (settled 200 demo_held) = true) by by_eval.
  destruct (lease_exclusive demo_held (demo_env 200 true) (demo_update "mcp" "tab-2" 8) zero_token
              demo_held_ok Hc Hs) as [H1 H2].
  split; [exact H1|]. apply H2; by_eval.
Defined.

Lemma epoch_separates_holders_witness :
  let s' := lease_run demo_held [demo_call 200 true (demo_update "mcp" "tab-1" 7)] in
  s_last_ms s' = 200 /\ s_seen demo_held = true /\ same_holder demo_held s' /\
  lease_claim s' = lease_claim demo_held.
Proof.
  split; [by_eval|]. apply epoch_separates_holders; try by_eval; [apply demo_held_ok|].
  apply Forall_singleton, demo_mcp_ok; [done | vm_compute; lia | done].
Defined.

(** Five revocations without the lock fill the journal; the fifth is the holder's. *)
Definition demo_pressed : lease_state :=
  lease_run demo_held (map (fun sid => demo_call 150 false (demo_revoke sid 7))
    ["a"; "b"; "c"; "d"]%string).

Lemma demo_pressed_ok : lease_ok demo_pressed.
Proof.
  apply run_ok; [apply demo_held_ok|]. rewrite Forall_map. by apply Forall_true; intros sid; apply demo_revoke_ok.
Qed.

(** The lock comes back with the second call after the revocation. *)
Definition demo_pressed_on : list lease_call :=
  [demo_call 170 false demo_touch; demo_call 175 true demo_touch].

Lemma revocation_not_lost_witness :
  let start := lease_step demo_pressed (demo_env 160 false, demo_revoke "tab-1" 7, zero_token) in
  let s' := lease_run start demo_pressed_on in
  s_seen start = true /\ s_seen (settled 165 start) = false /\ revoked_off (cstr "tab-1") 7 s'.
Proof.
  split; [by_eval|]. split; [by_eval|].
  apply (revocation_not_lost demo_pressed (demo_env 160 false) (demo_revoke "tab-1" 7) zero_token
    (cstr "tab-1") demo_pressed_on 180); try by_eval; [apply demo_pressed_ok | apply demo_revoke_ok | done | |].
  - apply Forall_cons. split; [split; [apply demo_touch_ok | by_eval]|].
    apply Forall_singleton. split; [apply demo_touch_ok | by_eval].
  - apply Exists_cons_tl, Exists_cons_tl, Exists_cons_hd. split; [by_eval | intros E; discriminate E].
Defined.

(** While the revocation waits in the journal the views answer for the old holder,
    and no longer once a call has taken the lock. *)
Example views_show_pending :
  let start := lease_step demo_pressed (demo_env 160 false, demo_revoke "tab-1" 7, zero_token) in
  let shown := si_control_lease_owner_session_matches (demo_env 165 true) (Some (cstr "mcp")) (Some (cstr "tab-1")) in
  shown start = true /\ shown (lease_run start demo_pressed_on) = false.
Proof. split; by_eval. Qed.

Definition demo_world : lease_world :=
  mk_world (scripted (replicate 8 (mk_tick [] true 0)) hid_initial) lease_started.

Definition demo_grant : bool * si_hid_owner_token_t * lease_transition_context_t * lease_world :=
  run_transition (demo_env 100 true) demo_touch demo_world.

Lemma demo_world_idle : idle_free (hid_part demo_world).
Proof. split; [|done]. by apply scripted_idle, initial_idle. Qed.

Lemma report_owner_follows_lease_witness :
  demo_grant.1.1.1 = true /\ session_id (claim demo_grant.1.1.2) = embedded_agent /\
  let '((ok, granted, _), w') := demo_grant in
  idle_free (hid_part w') /\ lease_ok (lease_part w') /\
  (ok = true -> granted = current (s_owner_state (hid_part w')) /\
  owner_agrees 100 (lease_part w') granted).
Proof.
  split; [by_eval|]. split; [by_eval|].
  assert (Hs : lease_ok (lease_part demo_world)) by apply ok_started.
  exact (report_owner_follows_lease (demo_env 100 true) demo_touch demo_world
           demo_world_idle Hs demo_touch_ok).
Defined.
