(* ===== verification/VideoFrameStore.v ===== *)
(** * The video frame store: [drivers/video_frame_store.c]

    Two slots of metadata over one arena of bytes.  A producer copies a frame into
    the arena without the lock; consumers borrow the newest frame and read it in
    place.  The arena is part of the state, so that a copy under way and a frame
    being read alias the same memory; a pointer into the arena is an index. *)

From S2P Require Import Prelude Firmware.

Definition SI_VIDEO_FRAME_STORE_SLOTS : nat := 2.

Record si_video_frame_slot_t := mk_slot {
  data : nat;
  offset : nat;
  len : nat;
  frame_id : Z;
  generation : Z;
  refs : Z;
  valid : bool;
  writing : bool
}.

#[export] Instance eta_slot : Settable si_video_frame_slot_t := fun s =>
  mk_slot (data s) (offset s) (len s) (frame_id s) (generation s) (refs s) (valid s) (writing s).

Definition zero_slot : si_video_frame_slot_t := mk_slot 0 0 0 0 0 0 false false.

Record si_video_frame_store_t := mk_store {
  lock : bool;
  arena : option (list Z);
  capacity : nat;
  store_generation : Z;
  next_frame_id : Z;
  current : Z;
  slots : list si_video_frame_slot_t
}.

#[export] Instance eta_store : Settable si_video_frame_store_t := fun s =>
  mk_store (lock s) (arena s) (capacity s) (store_generation s) (next_frame_id s) (current s)
    (slots s).

Definition s_store : si_video_frame_store_t :=
  mk_store false None 0 0 0 (-1) (replicate SI_VIDEO_FRAME_STORE_SLOTS zero_slot).

(** [&s_store.slots[i]], and a change through that pointer. *)
Definition slot_at (i : nat) (s : si_video_frame_store_t) : si_video_frame_slot_t :=
  default zero_slot (slots s !! i).

Definition with_slot (i : nat) (f : si_video_frame_slot_t -> si_video_frame_slot_t)
    (s : si_video_frame_store_t) : si_video_frame_store_t :=
  s <| slots := alter f i (slots s) |>.

(** ** Start *)

(** [mutex] and [memory]: what the two allocations return. *)
Definition si_video_frame_store_init (size : nat) (mutex : bool) (memory : option (list Z))
    (s : si_video_frame_store_t) : esp_err_t * si_video_frame_store_t :=
  return_if (size =? 0)%nat with (ESP_ERR_INVALID_ARG, s) ;;
  return_if bool_decide (is_Some (arena s))
    with (if (size <=? capacity s)%nat then ESP_OK else ESP_ERR_INVALID_SIZE, s) ;;
  return_if negb mutex with (ESP_ERR_NO_MEM, s <| lock := false |>) ;;
  match memory with
  | None => (ESP_ERR_NO_MEM, s_store)
  | Some bytes =>
      (ESP_OK, ((((s <| lock := true |>) <| arena := Some bytes |>) <| capacity := size |>)
                  <| store_generation := 1 |>))
  end.

(** ** Clearing *)

Definition clear_slot (slot : si_video_frame_slot_t) : si_video_frame_slot_t :=
  if (refs slot =? 0) && negb (writing slot)
  then (slot <| valid := false |>) <| len := 0%nat |> else slot.

(** [taken]: the lock came within its timeout. *)
Definition si_video_frame_store_clear (taken : bool) (s : si_video_frame_store_t)
  : si_video_frame_store_t :=
  return_if negb (lock s) || negb taken with s ;;
  ((s <| store_generation := bump (store_generation s) |>) <| current := -1 |>)
    <| slots := clear_slot <$> slots s |>.

(** ** The layout of the arena *)

Definition slot_occupies_arena_locked (index : nat) (s : si_video_frame_store_t) : bool :=
  let slot := slot_at index s in
  let visible := (Z.of_nat index =? current s) && valid slot &&
                 (generation slot =? store_generation s) in
  writing slot || (0 <? refs slot) || visible.

(** [None]: [false]; [Some offset]: [true] with the offset stored. *)
Definition layout_slot_locked (target size : nat) (s : si_video_frame_store_t) : option nat :=
  return_if (SI_VIDEO_FRAME_STORE_SLOTS <=? target)%nat || (capacity s <? size)%nat with None ;;
  let other_index := (1 - target)%nat in
  let other := slot_at other_index s in
  let other_occupied := slot_occupies_arena_locked other_index s in
  return_if (target =? 0)%nat
    with (if negb other_occupied || (size <=? offset other)%nat then Some 0%nat else None) ;;
  let off := (capacity s - size)%nat in
  if negb other_occupied || (offset other + len other <=? off)%nat then Some off else None.

Definition try_slot (size : nat) (s : si_video_frame_store_t) (candidate : nat)
  : option (nat * nat) :=
  let slot := slot_at candidate s in
  return_if negb (refs slot =? 0) || writing slot with None ;;
  match layout_slot_locked candidate size s with
  | Some off => Some (candidate, off)
  | None => None
  end.

(** The slot and the offset of the next frame. *)
Definition select_write_slot_locked (size : nat) (s : si_video_frame_store_t)
  : option (nat * nat) :=
  return_if writing (slot_at 0 s) || writing (slot_at 1 s) with None ;;
  let first := if 0 <=? current s then (1 - Z.to_nat (current s))%nat else 0%nat in
  let second := if 0 <=? current s then Z.to_nat (current s) else 1%nat in
  match try_slot size s first with
  | Some r => Some r
  | None => try_slot size s second
  end.

(** ** Publication

    The call holds the lock twice and copies in between.  [writer] is what it
    keeps while it copies: its slot, the generation it started in, the frame and
    the indices that are still to be copied. *)

Record writer := mk_writer {
  target : nat;
  start_generation : Z;
  frame : list Z;
  todo : list nat
}.

Definition publish_begin (bytes : list Z) (taken : bool) (s : si_video_frame_store_t)
  : esp_err_t * option writer * si_video_frame_store_t :=
  return_if (length bytes =? 0)%nat || negb (lock s) || negb (bool_decide (is_Some (arena s)))
    with (ESP_ERR_INVALID_STATE, None, s) ;;
  return_if (capacity s <? length bytes)%nat with (ESP_ERR_INVALID_SIZE, None, s) ;;
  return_if negb taken with (ESP_ERR_NOT_FINISHED, None, s) ;;
  match select_write_slot_locked (length bytes) s with
  | None => (ESP_ERR_NOT_FINISHED, None, s)
  | Some (target, target_offset) =>
      let s := if Z.of_nat target =? current s then s <| current := -1 |> else s in
      let s := with_slot target (fun slot =>
        ((((slot <| valid := false |>) <| writing := true |>) <| offset := target_offset |>)
           <| data := target_offset |>) <| len := length bytes |>) s in
      (ESP_OK, Some (mk_writer target (store_generation s) bytes (seq 0 (length bytes))), s)
  end.

(** [memmove]: one byte of the copy. *)
Definition copy_byte (w : writer) (j : nat) (s : si_video_frame_store_t)
  : si_video_frame_store_t :=
  s <| arena := (fun bytes => <[(data (slot_at (target w) s) + j)%nat := frame w !!! j]> bytes)
                  <$> arena s |>.

Definition copied (w : writer) (j : nat) : writer :=
  mk_writer (target w) (start_generation w) (frame w) (filter (fun i => i <> j) (todo w)).

(** The second critical section; its lock is waited for without a timeout. *)
Definition publish_commit (w : writer) (s : si_video_frame_store_t)
  : esp_err_t * option Z * si_video_frame_store_t :=
  return_if negb (start_generation w =? store_generation s)
    with (ESP_ERR_INVALID_STATE, None,
          with_slot (target w) (fun slot =>
            ((slot <| writing := false |>) <| valid := false |>) <| len := 0%nat |>) s) ;;
  let previous := current s in
  let s :=
    if (0 <=? previous) && negb (previous =? Z.of_nat (target w))
    then with_slot (Z.to_nat previous) (fun slot =>
           if refs slot =? 0 then (slot <| valid := false |>) <| len := 0%nat |> else slot) s
    else s in
  let s := s <| next_frame_id := bump (next_frame_id s) |> in
  let id := next_frame_id s in
  let s := with_slot (target w) (fun slot =>
    (((slot <| frame_id := id |>) <| generation := start_generation w |>) <| valid := true |>)
      <| writing := false |>) s in
  (ESP_OK, Some id, s <| current := Z.of_nat (target w) |>).

(** The call when nothing else runs. *)
Definition si_video_frame_store_publish (bytes : list Z) (taken : bool)
    (s : si_video_frame_store_t) : esp_err_t * option Z * si_video_frame_store_t :=
  match publish_begin bytes taken s with
  | (_, Some w, s) => publish_commit w (fold_left (fun s j => copy_byte w j s) (todo w) s)
  | (e, None, s) => (e, None, s)
  end.

(** ** Borrowing *)

Record si_video_frame_store_view_t := mk_view {
  view_data : nat;
  view_len : nat;
  view_frame_id : Z;
  token : nat
}.

Definition si_video_frame_store_acquire (last_frame_id : Z) (taken : bool)
    (s : si_video_frame_store_t)
  : esp_err_t * option si_video_frame_store_view_t * si_video_frame_store_t :=
  return_if negb (lock s) || negb taken with (ESP_ERR_TIMEOUT, None, s) ;;
  return_if current s <? 0 with (ESP_ERR_NOT_FOUND, None, s) ;;
  let index := Z.to_nat (current s) in
  let slot := slot_at index s in
  return_if negb (valid slot) || writing slot ||
            negb (generation slot =? store_generation s) || (len slot =? 0)%nat
    with (ESP_ERR_NOT_FOUND, None, s) ;;
  return_if negb (last_frame_id =? UINT32_MAX) && (last_frame_id =? frame_id slot)
    with (ESP_ERR_NOT_FINISHED, None, s) ;;
  (ESP_OK, Some (mk_view (data slot) (len slot) (frame_id slot) index),
   with_slot index (fun slot => slot <| refs := u32 (refs slot + 1) |>) s).

Definition release_slot (current_here : bool) (gen : Z) (slot : si_video_frame_slot_t)
  : si_video_frame_slot_t :=
  return_if negb (0 <? refs slot) with slot ;;
  let slot := slot <| refs := refs slot - 1 |> in
  if (refs slot =? 0) && (negb current_here || negb (generation slot =? gen) || negb (valid slot))
  then (slot <| valid := false |>) <| len := 0%nat |> else slot.

Definition si_video_frame_store_release (view : si_video_frame_store_view_t)
    (s : si_video_frame_store_t) : si_video_frame_store_t :=
  return_if negb (lock s) || negb (token view <? SI_VIDEO_FRAME_STORE_SLOTS)%nat with s ;;
  with_slot (token view)
    (release_slot (Z.of_nat (token view) =? current s) (store_generation s)) s.

(** The bytes a view points to. *)
Definition view_bytes (view : si_video_frame_store_view_t) (s : si_video_frame_store_t) : list Z :=
  take (view_len view) (drop (view_data view) (default [] (arena s))).

(** The bytes copied out, the length and the frame id; the call when nothing else
    runs. *)
Definition si_video_frame_store_copy (last_frame_id : Z) (require_new : bool) (size : nat)
    (taken : bool) (s : si_video_frame_store_t)
  : esp_err_t * option (list Z) * option nat * option Z * si_video_frame_store_t :=
  match si_video_frame_store_acquire (if require_new then last_frame_id else UINT32_MAX) taken s
  with
  | (_, Some view, s) =>
      return_if (size <? view_len view)%nat
        with (ESP_ERR_INVALID_SIZE, None, Some (view_len view), None,
              si_video_frame_store_release view s) ;;
      (ESP_OK, Some (view_bytes view s), Some (view_len view), Some (view_frame_id view),
       si_video_frame_store_release view s)
  | (e, None, s) => (e, None, None, None, s)
  end.

Definition si_video_frame_store_scratch_acquire (scratch : bool) : esp_err_t :=
  if scratch then ESP_ERR_NOT_SUPPORTED else ESP_ERR_INVALID_ARG.

Definition si_video_frame_store_scratch_release (scratch : bool) : esp_err_t :=
  if scratch then ESP_ERR_NOT_SUPPORTED else ESP_ERR_INVALID_ARG.

Definition si_video_frame_store_capacity (s : si_video_frame_store_t) : nat := capacity s.

(** ** Tasks that interleave

    [writers] are the publications between their two critical sections, [views]
    the frames on loan with the bytes they were lent with, and [published] the log
    of the frames that were committed, newest first. *)

Record video_world := mk_video {
  store : si_video_frame_store_t;
  writers : list writer;
  views : list (si_video_frame_store_view_t * list Z);
  published : list (Z * list Z)
}.

Definition video_start : video_world := mk_video s_store [] [] [].

(** A newest frame, as consumers know it. *)
Definition newest (w : video_world) : Z * list Z := default (0, []) (head (published w)).

Inductive video_step : relation video_world :=
| step_init w size mutex memory :
    (forall bytes, memory = Some bytes -> length bytes = size) ->
    video_step w
      (mk_video (si_video_frame_store_init size mutex memory (store w)).2
         (writers w) (views w) (published w))
| step_clear w taken :
    video_step w
      (mk_video (si_video_frame_store_clear taken (store w)) (writers w) (views w) (published w))
| step_begin w bytes taken e started s :
    publish_begin bytes taken (store w) = (e, started, s) ->
    video_step w (mk_video s (option_list started ++ writers w) (views w) (published w))
| step_copy w l r wr j :
    writers w = l ++ wr :: r -> j ∈ todo wr ->
    video_step w
      (mk_video (copy_byte wr j (store w)) (l ++ copied wr j :: r) (views w) (published w))
| step_commit w l r wr e id s :
    writers w = l ++ wr :: r -> todo wr = [] ->
    publish_commit wr (store w) = (e, id, s) ->
    video_step w
      (mk_video s (l ++ r) (views w)
         (option_list ((fun id => (id, frame wr)) <$> id) ++ published w))
| step_acquire w last taken e view s :
    Z.of_nat (length (views w)) < UINT32_MAX ->
    si_video_frame_store_acquire last taken (store w) = (e, view, s) ->
    video_step w
      (mk_video s (writers w)
         (option_list ((fun view => (view, (newest w).2)) <$> view) ++ views w) (published w))
| step_release w l r view :
    views w = l ++ view :: r ->
    video_step w
      (mk_video (si_video_frame_store_release view.1 (store w)) (writers w) (l ++ r)
         (published w)).
