(* ===== verification/VideoFrameStoreProps.v ===== *)
(** * The video frame store: properties

    A frame on loan never changes, whatever publications, clears and other loans
    run in between; a loan is always of the newest frame; and a frame that fits is
    accepted unless other tasks hold the arena. *)

From S2P Require Import Prelude Firmware VideoFrameStore.

(** ** Slots and regions *)

Definition region (off n : nat) (s : si_video_frame_store_t) : list Z :=
  take n (drop off (default [] (arena s))).

Definition occupied (i : nat) (s : si_video_frame_store_t) : Prop :=
  slot_occupies_arena_locked i s = true.

Lemma slot_at_with i f s :
  (i < length (slots s))%nat -> slot_at i (with_slot i f s) = f (slot_at i s).
Proof.
  intros H. unfold slot_at, with_slot.
  change (slots (s <| slots := ?l |>)) with l. rewrite list_lookup_alter_eq.
  apply lookup_lt_is_Some in H as [x ->]. reflexivity.
Qed.

Lemma slot_at_other i j f s : i <> j -> slot_at j (with_slot i f s) = slot_at j s.
Proof.
  intros H. unfold slot_at, with_slot. change (slots (s <| slots := ?l |>)) with l.
  by rewrite list_lookup_alter_ne.
Qed.

Lemma with_slot_length i f s : length (slots (with_slot i f s)) = length (slots s).
Proof. apply length_alter. Qed.

Lemma region_insert off n k x (l : list Z) :
  (k < off \/ off + n <= k)%nat -> take n (drop off (<[k:=x]> l)) = take n (drop off l).
Proof.
  intros H. apply list_eq. intros i. destruct (decide (i < n)%nat) as [Hi|Hi].
  - rewrite !lookup_take_lt, !lookup_drop by done. apply list_lookup_insert_ne. lia.
  - by rewrite !lookup_take_ge by lia.
Qed.

Lemma occupied_spec i s :
  occupied i s <->
  writing (slot_at i s) = true \/ 0 < refs (slot_at i s) \/
  (Z.of_nat i = current s /\ valid (slot_at i s) = true /\
   VideoFrameStore.generation (slot_at i s) = store_generation s).
Proof.
  unfold occupied, slot_occupies_arena_locked. rewrite !orb_true_iff, !andb_true_iff, !Z.eqb_eq, Z.ltb_lt.
  tauto.
Qed.

(** ** The invariant *)

Definition loans (i : nat) (w : video_world) : list (si_video_frame_store_view_t * list Z) :=
  filter (fun v => token v.1 = i) (views w).

Definition writer_ok (w : video_world) (wr : writer) : Prop :=
  let slot := slot_at (target wr) (store w) in
  (target wr < 2)%nat /\ Z.of_nat (target wr) <> current (store w) /\
  refs slot = 0 /\ len slot = length (frame wr) /\ frame wr <> [] /\
  (forall j, j ∈ todo wr -> j < length (frame wr))%nat /\
  (forall j, (j < length (frame wr))%nat -> j ∉ todo wr ->
   default [] (arena (store w)) !! (offset slot + j)%nat = frame wr !! j).

Definition writers_ok (w : video_world) : Prop :=
  match writers w with
  | [] => forall i, (i < 2)%nat -> writing (slot_at i (store w)) = false
  | [wr] => writer_ok w wr /\
            forall i, (i < 2)%nat -> writing (slot_at i (store w)) = bool_decide (i = target wr)
  | _ => False
  end.

Definition view_ok (w : video_world) (v : si_video_frame_store_view_t * list Z) : Prop :=
  let slot := slot_at (token v.1) (store w) in
  (token v.1 < 2)%nat /\ view_data v.1 = data slot /\ view_len v.1 = len slot /\
  view_bytes v.1 (store w) = v.2 /\ (view_frame_id v.1, v.2) ∈ published w.

Definition newest_ok (w : video_world) : Prop :=
  0 <= current (store w) ->
  let slot := slot_at (Z.to_nat (current (store w))) (store w) in
  valid slot = true /\ VideoFrameStore.generation slot = store_generation (store w) /\
  writing slot = false /\ (0 < len slot)%nat /\
  head (published w) = Some (frame_id slot, region (data slot) (len slot) (store w)).

Record video_ok (w : video_world) : Prop := mk_video_ok {
  vk_slots : length (slots (store w)) = 2%nat;
  vk_current : -1 <= current (store w) < 2;
  vk_ready :
    match arena (store w) with
    | Some bytes => lock (store w) = true /\ length bytes = capacity (store w)
    | None => lock (store w) = false /\ current (store w) = -1 /\ writers w = [] /\ views w = []
    end;
  vk_refs : forall i, (i < 2)%nat -> refs (slot_at i (store w)) = Z.of_nat (length (loans i w));
  vk_bound : Z.of_nat (length (views w)) <= UINT32_MAX;
  vk_writers : writers_ok w;
  vk_views : Forall (view_ok w) (views w);
  vk_newest : newest_ok w;
  vk_regions : forall i, (i < 2)%nat -> occupied i (store w) ->
    let slot := slot_at i (store w) in
    data slot = offset slot /\ (offset slot + len slot <= capacity (store w))%nat;
  vk_disjoint : occupied 0 (store w) -> occupied 1 (store w) ->
    (offset (slot_at 0 (store w)) + len (slot_at 0 (store w)) <= offset (slot_at 1 (store w)))%nat
}.

Lemma no_refs_no_loan i w v :
  video_ok w -> (i < 2)%nat -> refs (slot_at i (store w)) = 0 -> v ∈ views w -> token v.1 <> i.
Proof.
  intros H Hi Hr Hv E. rewrite (vk_refs w H i Hi) in Hr.
  assert (Hin : v ∈ loans i w) by (by apply list_elem_of_filter).
  destruct (loans i w); [by apply not_elem_of_nil in Hin | cbn in Hr; lia].
Qed.

Lemma loan_occupied w v : video_ok w -> v ∈ views w -> occupied (token v.1) (store w).
Proof.
  intros H Hv. apply occupied_spec. right; left.
  pose proof (vk_views w H) as Hvs. rewrite Forall_forall in Hvs. destruct (Hvs v Hv) as [Ht _].
  destruct (decide (refs (slot_at (token v.1) (store w)) = 0)) as [E|E].
  - by destruct (no_refs_no_loan _ w v H Ht E Hv).
  - rewrite (vk_refs w H _ Ht) in *. lia.
Qed.

Lemma current_occupied w :
  video_ok w -> 0 <= current (store w) -> occupied (Z.to_nat (current (store w))) (store w).
Proof.
  intros H Hc. apply occupied_spec. right; right.
  destruct (vk_newest w H Hc) as (Hv & Hg & _). rewrite Z2Nat.id by done. done.
Qed.

Lemma ok_start : video_ok video_start.
Proof.
  split; try done.
  - by intros [|[|i]] Hi; [..|lia].
  - by intros [|[|i]] Hi; [..|lia].
  - by intros [|[|i]] Hi Ho; [..|lia].
Qed.

Lemma view_mono w w' v :
  view_ok w v ->
  data (slot_at (token v.1) (store w')) = data (slot_at (token v.1) (store w)) ->
  len (slot_at (token v.1) (store w')) = len (slot_at (token v.1) (store w)) ->
  view_bytes v.1 (store w') = view_bytes v.1 (store w) ->
  (forall x, x ∈ published w -> x ∈ published w') -> view_ok w' v.
Proof.
  intros (H1 & H2 & H3 & H4 & H5) Ed El Eb Hp. unfold view_ok. split_and!; auto; congruence.
Qed.

(** ** Start and clear *)

Lemma ok_init w size mutex memory :
  (forall bytes, memory = Some bytes -> length bytes = size) -> video_ok w ->
  video_ok (mk_video (si_video_frame_store_init size mutex memory (store w)).2
              (writers w) (views w) (published w)).
Proof.
  intros Hm H. unfold si_video_frame_store_init. case_if; [by destruct w|]. case_if; [by destruct w|].
  pose proof (vk_ready w H) as Hr. destruct (arena (store w)) as [b|] eqn:Ha;
    [by rewrite bool_decide_eq_true_2 in Heqb0|].
  destruct Hr as (Hl & Hc & Hw & Hv). rewrite Hw, Hv. case_if; cbn [snd].
  - replace ((store w) <| lock := false |>) with (store w)
      by (revert Hl; destruct (store w); cbn; by intros ->).
    rewrite <- Hw, <- Hv. by destruct w.
  - destruct memory as [bytes|]; [|by destruct ok_start].
    assert (Hq : forall i, (i < 2)%nat ->
      writing (slot_at i (store w)) = false /\ refs (slot_at i (store w)) = 0).
    { intros i Hi. pose proof (vk_writers w H) as Hws. unfold writers_ok in Hws. rewrite Hw in Hws.
      split; [by apply Hws|]. rewrite (vk_refs w H i Hi). unfold loans. by rewrite Hv. }
    destruct H as [H1 H2 _ _ H5 _ _ _ _ _].
    assert (Hno : forall i s', (i < 2)%nat -> slots s' = slots (store w) -> current s' = -1 ->
                    ~ occupied i s').
    { intros i s' Hi Hs Hcur. rewrite occupied_spec. unfold slot_at in *. rewrite Hs, Hcur.
      destruct (Hq i Hi) as [-> ->]. intros [?|[?|[? _]]]; [done | lia | lia]. }
    split; try done.
    + split; [done | by apply Hm].
    + intros i Hi. by destruct (Hq i Hi).
    + intros i Hi. by destruct (Hq i Hi).
    + intros Hcur. change (0 <= current (store w)) in Hcur. lia.
    + intros i Hi Ho. exfalso. revert Ho. by apply Hno.
    + intros Ho. exfalso. revert Ho. apply Hno; [lia | done | done].
Qed.

Lemma slot_at_clear i s s' :
  slots s' = clear_slot <$> slots s -> slot_at i s' = clear_slot (slot_at i s).
Proof.
  unfold slot_at. intros ->. rewrite list_lookup_fmap. by destruct (slots s !! i).
Qed.

Lemma clear_slot_spec slot :
  refs (clear_slot slot) = refs slot /\ writing (clear_slot slot) = writing slot /\
  data (clear_slot slot) = data slot /\ offset (clear_slot slot) = offset slot /\
  (refs slot <> 0 \/ writing slot = true -> clear_slot slot = slot).
Proof.
  unfold clear_slot. case_if; split_and!; try done. intros Hc. split_guards. to_props.
  destruct Hc; congruence.
Qed.


Lemma writers_quiet w i :
  video_ok w -> (i < 2)%nat -> writing (slot_at i (store w)) = true ->
  exists wr, writers w = [wr] /\ target wr = i.
Proof.
  intros H Hi Hw. pose proof (vk_writers w H) as Hws. unfold writers_ok in Hws.
  destruct (writers w) as [|wr [|? ?]]; [by rewrite Hws in Hw | | done].
  destruct Hws as [_ E]. rewrite E in Hw by done. apply bool_decide_eq_true in Hw. by exists wr.
Qed.

(** The invariant of the writers only reads their slot, the bytes of the arena and
    the current slot. *)
Lemma writers_mono w w' :
  writers w' = writers w -> writers_ok w ->
  (forall i, (i < 2)%nat -> writing (slot_at i (store w')) = writing (slot_at i (store w))) ->
  (forall wr, writers w = [wr] -> writer_ok w wr -> writer_ok w' wr) -> writers_ok w'.
Proof.
  unfold writers_ok. intros -> H Hw Hwr. destruct (writers w) as [|wr [|? ?]]; [| |done].
  - intros i Hi. rewrite Hw; auto.
  - destruct H as [H1 H2]. split; [by apply Hwr|]. intros i Hi. rewrite Hw; auto.
Qed.

Lemma ok_clear w taken :
  video_ok w ->
  video_ok (mk_video (si_video_frame_store_clear taken (store w)) (writers w) (views w) (published w)).
Proof.
  intros H. unfold si_video_frame_store_clear. case_if; [by destruct w|].
  set (s' := _ <| slots := _ |>).
  assert (Hs : forall i, slot_at i s' = clear_slot (slot_at i (store w)))
    by (intros i; by apply slot_at_clear).
  assert (Ho : forall i, occupied i s' -> occupied i (store w) /\ slot_at i s' = slot_at i (store w)).
  { intros i. rewrite !occupied_spec, Hs. destruct (clear_slot_spec (slot_at i (store w))) as (-> & -> & _ & _ & E).
    intros [Hx|[Hx|[Hx _]]].
    - split; [by left | apply E; by right].
    - split; [by right; left | apply E; left; lia].
    - change (Z.of_nat i = -1) in Hx. lia. }
  assert (Hloan : forall v, v ∈ views w -> slot_at (token v.1) s' = slot_at (token v.1) (store w)).
  { intros v Hv. pose proof (vk_views w H) as Hvs. rewrite Forall_forall in Hvs.
    destruct (Hvs v Hv) as [Ht _]. rewrite Hs.
    apply clear_slot_spec. left. intros E. by destruct (no_refs_no_loan _ w v H Ht E Hv). }
  pose proof (vk_views w H) as Hvs. rewrite Forall_forall in Hvs.
  destruct H as [H1 H2 H3 H4 H5 H6 H7 H8 H9 H10]. split; try done.
  - change (length (clear_slot <$> slots (store w)) = 2%nat). by rewrite length_fmap.
  - cbn [store]. change (arena s') with (arena (store w)).
    by destruct (arena (store w)) as [b|]; [|destruct H3 as (? & _ & ?)].
  - intros i Hi. cbn [store]. rewrite Hs.
    destruct (clear_slot_spec (slot_at i (store w))) as (-> & _). by apply H4.
  - apply (writers_mono w); [done | done | |].
    + intros i Hi. cbn [store]. rewrite Hs. by destruct (clear_slot_spec (slot_at i (store w))) as (_ & -> & _).
    + intros wr Ew (W1 & W2 & W3 & W4 & W5 & W6 & W7). unfold writers_ok in H6. rewrite Ew in H6.
      assert (E : slot_at (target wr) s' = slot_at (target wr) (store w)).
      { rewrite Hs. apply clear_slot_spec. right. destruct H6 as [_ ->]; [|done]. by apply bool_decide_eq_true. }
      unfold writer_ok. cbn [store]. rewrite E. split_and!; try done. intros ?.
      change (Z.of_nat (target wr) = -1) in H. lia.
  - apply Forall_forall. intros v Hv. apply (view_mono w); auto; cbn [store]; by rewrite Hloan.
  - intros i Hi Hi'. destruct (Ho i Hi') as [Hoo E]. cbn [store] in *. rewrite E. by apply H9.
  - intros Ha Hb. destruct (Ho _ Ha) as [Ha' Ea], (Ho _ Hb) as [Hb' Eb]. cbn [store] in *.
    rewrite Ea, Eb. by apply H10.
Qed.

(** ** A slot is taken *)

Lemma other_slot i j : (i < 2)%nat -> (j < 2)%nat -> i <> j -> j = (1 - i)%nat.
Proof. lia. Qed.

(** What [layout_slot_locked] guarantees of the region it hands out. *)
Lemma layout_spec t size off w :
  video_ok w -> layout_slot_locked t size (store w) = Some off ->
  (t < 2)%nat /\ (off + size <= capacity (store w))%nat /\
  (t = 0%nat -> occupied 1 (store w) -> (off + size <= offset (slot_at 1 (store w)))%nat) /\
  (t = 1%nat -> occupied 0 (store w) ->
   (offset (slot_at 0 (store w)) + len (slot_at 0 (store w)) <= off)%nat).
Proof.
  intros H. unfold layout_slot_locked, occupied, SI_VIDEO_FRAME_STORE_SLOTS.
  case_if; [done|]. split_guards. to_props.
  destruct t as [|[|t]]; [..|lia]; cbn [Nat.eqb Nat.sub]; case_if; try done; intros [= <-];
    (split_and!; [lia.. | |]); try done; intros _ Ho; rewrite Ho in Heqb; cbn [negb orb] in Heqb; to_props; lia.
Qed.

Lemma try_spec size w c t off :
  video_ok w -> try_slot size (store w) c = Some (t, off) ->
  t = c /\ refs (slot_at t (store w)) = 0 /\ writing (slot_at t (store w)) = false /\
  layout_slot_locked t size (store w) = Some off.
Proof.
  intros H. unfold try_slot. case_if; [done|]. destruct (layout_slot_locked c size (store w)) eqn:E; [|done].
  intros [= <- <-]. split_guards. to_props. done.
Qed.

Lemma select_spec size w t off :
  video_ok w -> select_write_slot_locked size (store w) = Some (t, off) ->
  writers w = [] /\ refs (slot_at t (store w)) = 0 /\
  layout_slot_locked t size (store w) = Some off.
Proof.
  intros H. unfold select_write_slot_locked. case_if; [done|].
  assert (Hw : writers w = []).
  { pose proof (vk_writers w H) as Hws. unfold writers_ok in Hws.
    destruct (writers w) as [|wr [|? ?]]; [done | | done]. destruct Hws as [(W1 & _) E]. split_guards.
    destruct (target wr) as [|[|]] eqn:Et; [| |lia].
    - rewrite E in H0 by lia. apply bool_decide_eq_false in H0. congruence.
    - rewrite E in H1 by lia. apply bool_decide_eq_false in H1. congruence. }
  intros Hs. split; [done|].
  destruct (try_slot size (store w) _) as [[t' off']|] eqn:E1.
  - injection Hs as -> ->. by destruct (try_spec _ _ _ _ _ H E1) as (_ & ? & _ & ?).
  - by destruct (try_spec _ _ _ _ _ H Hs) as (_ & ? & _ & ?).
Qed.

Lemma ok_begin w bytes taken e started s :
  publish_begin bytes taken (store w) = (e, started, s) -> video_ok w ->
  video_ok (mk_video s (option_list started ++ writers w) (views w) (published w)).
Proof.
  intros E H. unfold publish_begin in E.
  case_if; [injection E as <- <- <-; by destruct w|]. case_if; [injection E as <- <- <-; by destruct w|].
  case_if; [injection E as <- <- <-; by destruct w|].
  destruct (select_write_slot_locked _ _) as [[t off]|] eqn:Es; [|injection E as <- <- <-; by destruct w].
  destruct (select_spec _ _ _ _ H Es) as (Hw & Hr & Hl).
  destruct (layout_spec _ _ _ _ H Hl) as (Ht & Hin & H0 & H1).
  set (s1 := if Z.of_nat t =? current (store w) then (store w) <| current := -1 |> else store w) in *.
  set (f := fun slot : si_video_frame_slot_t => _) in E. injection E as _ <- <-.
  assert (Hs1 : forall i, slot_at i s1 = slot_at i (store w)) by (intros i; unfold s1; by case_if).
  assert (Hlen1 : length (slots s1) = 2%nat) by (unfold s1; case_if; apply H).
  assert (Hst : slot_at t (with_slot t f s1) = f (slot_at t (store w)))
    by (rewrite slot_at_with by lia; by rewrite Hs1).
  assert (Hso : forall i, i <> t -> slot_at i (with_slot t f s1) = slot_at i (store w))
    by (intros i Hi; rewrite slot_at_other by done; apply Hs1).
  assert (Hcur : current s1 = -1 \/ current s1 = current (store w) /\ current (store w) <> Z.of_nat t).
  { unfold s1. destruct (Z.eqb_spec (Z.of_nat t) (current (store w))); [by left | right]. by split. }
  assert (Hsame : arena s1 = arena (store w) /\ lock s1 = lock (store w) /\
                  capacity s1 = capacity (store w) /\ store_generation s1 = store_generation (store w))
    by (unfold s1; by case_if).
  destruct Hsame as (Ea & El & Ec & Eg).
  assert (Hocc : forall i, i <> t -> occupied i (with_slot t f s1) -> occupied i (store w)).
  { intros i Hi. rewrite !occupied_spec, Hso by done.
    change (current (with_slot t f s1)) with (current s1).
    change (store_generation (with_slot t f s1)) with (store_generation s1). rewrite Eg.
    destruct Hcur as [->|[-> _]]; [|tauto]. intros [?|[?|[? _]]]; [tauto | tauto | lia]. }
  split_guards. to_props. rewrite Hw. cbn [option_list app].
  split; cbn [store writers views published].
  - by rewrite with_slot_length.
  - change (current (with_slot t f s1)) with (current s1). pose proof (vk_current w H). lia.
  - change (arena (with_slot t f s1)) with (arena s1). change (lock (with_slot t f s1)) with (lock s1).
    change (capacity (with_slot t f s1)) with (capacity s1). rewrite Ea, El, Ec.
    pose proof (vk_ready w H) as Hrd. by destruct (arena (store w)); [|destruct Hrd as [-> _]].
  - intros i Hi. pose proof (vk_refs w H i Hi) as R.
    destruct (decide (i = t)) as [->|Hne]; [rewrite Hst | rewrite Hso by done]; exact R.
  - apply H.
  - split.
    + unfold writer_ok. cbn [target frame todo store]. rewrite Hst.
      change (current (with_slot t f s1)) with (current s1). split_and!; try done.
      * destruct Hcur as [->|[-> ?]]; lia.
      * by destruct bytes.
      * intros j Hj%elem_of_seq. lia.
      * intros j Hj Hn. exfalso. apply Hn, elem_of_seq. lia.
    + intros i Hi. cbn [target store]. destruct (decide (i = t)) as [->|Hne].
      * rewrite Hst. by rewrite bool_decide_eq_true_2.
      * rewrite Hso, bool_decide_eq_false_2 by done. pose proof (vk_writers w H) as Hws.
        unfold writers_ok in Hws. rewrite Hw in Hws. by apply Hws.
  - pose proof (vk_views w H) as Hvs. rewrite Forall_forall in *. intros v Hv.
    assert (Hne : token v.1 <> t) by (by apply (no_refs_no_loan t w)).
    apply (view_mono w); auto; cbn [store]; try by rewrite Hso.
    unfold view_bytes. change (arena (with_slot t f s1)) with (arena s1). by rewrite Ea.
  - intros Hc. cbn [store published] in *. change (current (with_slot t f s1)) with (current s1) in *.
    destruct Hcur as [E|[E Hne]]; [lia|]. rewrite E in *.
    assert (Hne' : Z.to_nat (current (store w)) <> t) by lia.
    destruct (vk_newest w H Hc) as (N1 & N2 & N3 & N4 & N5).
    rewrite Hso by done. unfold region in *.
    change (store_generation (with_slot t f s1)) with (store_generation s1).
    change (arena (with_slot t f s1)) with (arena s1). rewrite Ea, Eg. by split_and!.
  - intros i Hi Ho. change (capacity (with_slot t f s1)) with (capacity s1). rewrite Ec.
    destruct (decide (i = t)) as [->|Hne]; [rewrite Hst; by split|].
    rewrite Hso by done. apply (vk_regions w H i Hi). by apply Hocc.
  - intros Ho0 Ho1. destruct (decide (t = 0%nat)) as [->|Hne].
    + rewrite Hst, Hso by done. apply H0; [done | by apply Hocc].
    + assert (t = 1%nat) as -> by lia. rewrite Hst, Hso by done. apply H1; [done | by apply Hocc].
Qed.

(** ** Copying *)

Lemma the_writer w l r wr :
  video_ok w -> writers w = l ++ wr :: r ->
  l = [] /\ r = [] /\ writers w = [wr] /\ writer_ok w wr /\
  forall i, (i < 2)%nat -> writing (slot_at i (store w)) = bool_decide (i = target wr).
Proof.
  intros H E. pose proof (vk_writers w H) as Hws. unfold writers_ok in Hws. rewrite E in Hws.
  destruct l as [|x [|y l]], r; cbn [app] in Hws; done.
Qed.

(** The slots other than the writer's are out of its reach. *)
Lemma writer_apart w wr i :
  video_ok w -> writers w = [wr] -> (i < 2)%nat -> i <> target wr -> occupied i (store w) ->
  let t := slot_at (target wr) (store w) in let o := slot_at i (store w) in
  data t = offset t /\ data o = offset o /\ (offset t + len t <= capacity (store w))%nat /\
  (offset t + len t <= offset o \/ offset o + len o <= offset t)%nat.
Proof.
  intros H E Hi Hne Ho. destruct (the_writer w [] [] wr H E) as (_ & _ & _ & (Ht & _) & Hwr).
  assert (Hot : occupied (target wr) (store w)).
  { apply occupied_spec. left. rewrite Hwr by done. by apply bool_decide_eq_true. }
  destruct (vk_regions w H _ Ht Hot) as [E1 E2], (vk_regions w H _ Hi Ho) as [E3 E4].
  split_and!; try done. pose proof (vk_disjoint w H) as Hd.
  destruct (target wr) as [|[|]] eqn:Et; [| |lia].
  - assert (i = 1%nat) as -> by lia. left. by apply Hd.
  - assert (i = 0%nat) as -> by lia. right. by apply Hd.
Qed.

Lemma copy_region wr j off n s :
  (data (slot_at (target wr) s) + j < off \/ off + n <= data (slot_at (target wr) s) + j)%nat ->
  region off n (copy_byte wr j s) = region off n s.
Proof.
  intros H. unfold region, copy_byte. change (arena (s <| arena := ?x |>)) with x.
  destruct (arena s) as [b|]; cbn; [by apply region_insert | done].
Qed.

Lemma ok_copy w l r wr j :
  writers w = l ++ wr :: r -> j ∈ todo wr -> video_ok w ->
  video_ok (mk_video (copy_byte wr j (store w)) (l ++ copied wr j :: r) (views w) (published w)).
Proof.
  intros E Hj H. destruct (the_writer w l r wr H E) as (-> & -> & Ew & Hwr & Hwi).
  pose proof Hwr as (W1 & W2 & W3 & W4 & W5 & W6 & W7). specialize (W6 j Hj) as Hlt.
  assert (Hout : forall i, (i < 2)%nat -> i <> target wr -> occupied i (store w) ->
    region (data (slot_at i (store w))) (len (slot_at i (store w))) (copy_byte wr j (store w)) =
    region (data (slot_at i (store w))) (len (slot_at i (store w))) (store w)).
  { intros i Hi Hne Ho. destruct (writer_apart w wr i H Ew Hi Hne Ho) as (D1 & D2 & _ & D3).
    apply copy_region. lia. }
  split; cbn [store writers views published app]; try apply H.
  - pose proof (vk_ready w H) as Hrd. unfold copy_byte.
    change (arena (?s <| arena := ?x |>)) with x. change (lock (?s <| arena := ?x |>)) with (lock s).
    change (capacity (?s <| arena := ?x |>)) with (capacity s).
    destruct (arena (store w)) as [b|]; cbn [fmap option_fmap option_map].
    + by rewrite length_insert.
    + destruct Hrd as (_ & _ & Hn & _). by rewrite Hn in Ew.
  - split; [|exact Hwi]. unfold writer_ok. cbn [target frame todo copied store].
    split_and!; try done.
    + intros k [_ Hk]%list_elem_of_filter. by apply W6.
    + intros k Hk Hn. cbn [copy_byte]. unfold copy_byte.
      change (arena (?s <| arena := ?x |>)) with x. change (slot_at (target wr) (?s <| arena := ?x |>)) with (slot_at (target wr) s).
      pose proof (vk_ready w H) as Hrd. destruct (arena (store w)) as [b|] eqn:Ea; [|by destruct Hrd as (_ & _ & Hx & _); rewrite Hx in Ew].
      cbn [fmap option_fmap option_map default]. unfold id.
      assert (Hot : occupied (target wr) (store w)).
      { apply occupied_spec. left. rewrite Hwi by done. by apply bool_decide_eq_true. }
      destruct (vk_regions w H _ W1 Hot) as [D1 D2]. rewrite D1.
      destruct (decide (k = j)) as [->|Hkj].
      * rewrite list_lookup_insert_eq by lia. symmetry. by apply list_lookup_lookup_total_lt.
      * rewrite list_lookup_insert_ne by lia. apply W7; [done|]. intros Hin. apply Hn.
        by apply list_elem_of_filter.
  - pose proof (vk_views w H) as Hvs. rewrite Forall_forall in *. intros v Hv.
    destruct (Hvs v Hv) as (V1 & V2 & V3 & _).
    apply (view_mono w); auto; cbn [store]; try done. unfold view_bytes. rewrite V2, V3.
    apply (Hout (token v.1)); [done | | by apply loan_occupied].
    by apply (no_refs_no_loan _ w).
  - intros Hc. destruct (vk_newest w H Hc) as (N1 & N2 & N3 & N4 & N5). split_and!; try done.
    cbn [store published]. rewrite N5. do 2 f_equal. symmetry.
    apply (Hout (Z.to_nat (current (store w)))); [pose proof (vk_current w H); lia | | by apply current_occupied].
    change (0 <= current (store w)) in Hc. lia.
Qed.

(** ** Commit *)

Lemma writer_done w wr :
  video_ok w -> writers w = [wr] -> todo wr = [] ->
  let slot := slot_at (target wr) (store w) in
  region (data slot) (len slot) (store w) = frame wr.
Proof.
  intros H Ew Htodo. destruct (the_writer w [] [] wr H Ew) as (_ & _ & _ & (W1 & W2 & W3 & W4 & W5 & W6 & W7) & Hwi).
  assert (Hot : occupied (target wr) (store w)).
  { apply occupied_spec. left. rewrite Hwi by done. by apply bool_decide_eq_true. }
  destruct (vk_regions w H _ W1 Hot) as [D1 D2]. cbv zeta. rewrite D1, W4. unfold region.
  apply list_eq. intros j. destruct (decide (j < length (frame wr))%nat) as [Hj|Hj].
  - rewrite lookup_take_lt, lookup_drop by done. apply W7; [done|]. rewrite Htodo. apply not_elem_of_nil.
  - rewrite lookup_take_ge by lia. symmetry. apply lookup_ge_None. lia.
Qed.

(** A slot whose loans are untouched: the same, or one without loans that lost its
    contents. *)
Definition slot_rests (a b : si_video_frame_slot_t) : Prop :=
  b = a \/ refs a = 0 /\ b = ((a <| valid := false |>) <| len := 0%nat |>).

Lemma rests_refs a b : slot_rests a b -> refs b = refs a /\ writing b = writing a.
Proof. by intros [->|[_ ->]]. Qed.

Lemma commit_slots w wr e id s :
  video_ok w -> writers w = [wr] -> publish_commit wr (store w) = (e, id, s) ->
  length (slots s) = 2%nat /\
  arena s = arena (store w) /\ lock s = lock (store w) /\ capacity s = capacity (store w) /\
  store_generation s = store_generation (store w) /\
  (forall i, (i < 2)%nat -> i <> target wr -> slot_rests (slot_at i (store w)) (slot_at i s)) /\
  let old := slot_at (target wr) (store w) in let new := slot_at (target wr) s in
  (id = None /\ current s = current (store w) /\
   new = (((old <| writing := false |>) <| valid := false |>) <| len := 0%nat |>) /\
   (forall i, i <> target wr -> slot_at i s = slot_at i (store w)) \/
   exists n, id = Some n /\ current s = Z.of_nat (target wr) /\
     new = ((((old <| frame_id := n |>) <| VideoFrameStore.generation := store_generation (store w) |>)
               <| valid := true |>) <| writing := false |>)).
Proof.
  intros H Ew E. destruct (the_writer w [] [] wr H Ew) as (_ & _ & _ & (W1 & W2 & _) & _).
  unfold publish_commit in E. pose proof (vk_slots w H) as Hl.
  destruct (negb (start_generation wr =? store_generation (store w))) eqn:Eg.
  - injection E as _ <- <-. split_and!; try done; [by rewrite with_slot_length | |].
    + intros i _ Hi. left. by apply slot_at_other.
    + left. split_and!; try done; [by rewrite slot_at_with by lia | intros i Hi; by apply slot_at_other].
  - apply negb_false_iff, Z.eqb_eq in Eg. rewrite Eg in E.
    set (s1 := if _ && _ then _ else _) in E.
    assert (H1 : length (slots s1) = 2%nat /\ arena s1 = arena (store w) /\ lock s1 = lock (store w) /\
      capacity s1 = capacity (store w) /\ store_generation s1 = store_generation (store w) /\
      slot_at (target wr) s1 = slot_at (target wr) (store w) /\
      forall i, slot_rests (slot_at i (store w)) (slot_at i s1)).
    { unfold s1. destruct (_ && _) eqn:Ep; [|split_and!; try done; by left].
      split_guards. to_props. rewrite with_slot_length. split_and!; try done.
      - apply slot_at_other. lia.
      - intros i. destruct (decide (i = Z.to_nat (current (store w)))) as [->|Hi].
        + rewrite slot_at_with by (pose proof (vk_current w H); lia).
          case_if; [right | by left]. to_props. done.
        + left. by apply slot_at_other. }
    destruct H1 as (L1 & L2 & L3 & L4 & L5 & L6 & L7). injection E as _ <- <-.
    split_and!; try done.
    + change (length (slots (?x <| current := ?c |>)) = 2%nat) with (length (slots x) = 2%nat).
      by rewrite with_slot_length.
    + intros i _ Hi. change (slot_at i (?x <| current := ?c |>)) with (slot_at i x).
      rewrite slot_at_other by done. apply L7.
    + right. eexists. split_and!; [done | done |].
      change (slot_at ?i (?x <| current := ?c |>)) with (slot_at i x).
      rewrite slot_at_with by (change (slots (?x <| next_frame_id := ?c |>)) with (slots x); lia).
      change (slot_at ?i (?x <| next_frame_id := ?c |>)) with (slot_at i x). by rewrite L6.
Qed.

Lemma rests_same a b : slot_rests a b -> refs a <> 0 -> b = a.
Proof. by intros [->|[? _]]. Qed.

Lemma ok_commit w l r wr e id s :
  writers w = l ++ wr :: r -> todo wr = [] -> publish_commit wr (store w) = (e, id, s) ->
  video_ok w ->
  video_ok (mk_video s (l ++ r) (views w)
             (option_list ((fun id => (id, frame wr)) <$> id) ++ published w)).
Proof.
  intros E Htodo Ec H. destruct (the_writer w l r wr H E) as (-> & -> & Ew & Hwr & Hwi).
  destruct (commit_slots w wr e id s H Ew Ec) as (Hlen & Ha & Hlk & Hcap & Hgen & Hrest & Hnew).
  pose proof (writer_done w wr H Ew Htodo) as Hdone. cbv zeta in Hdone, Hnew.
  destruct Hwr as (W1 & W2 & W3 & W4 & W5 & _ & _).
  assert (Hloan : forall v, v ∈ views w -> slot_at (token v.1) s = slot_at (token v.1) (store w)).
  { intros v Hv. pose proof (vk_views w H) as Hvs. rewrite Forall_forall in Hvs. destruct (Hvs v Hv) as [Ht _].
    apply rests_same; [apply Hrest; [done|]|].
    - by apply (no_refs_no_loan _ w).
    - intros Hz. by destruct (no_refs_no_loan _ w v H Ht Hz Hv). }
  assert (Hreg : forall off n, region off n s = region off n (store w))
    by (intros; unfold region; by rewrite Ha).
  assert (Htgt : refs (slot_at (target wr) s) = 0 /\ writing (slot_at (target wr) s) = false /\
                 data (slot_at (target wr) s) = data (slot_at (target wr) (store w)) /\
                 offset (slot_at (target wr) s) = offset (slot_at (target wr) (store w)) /\
                 (len (slot_at (target wr) s) <= len (slot_at (target wr) (store w)))%nat).
  { destruct Hnew as [(_ & _ & -> & _)|(n & _ & _ & ->)]; split_and!; try done; cbn; lia. }
  destruct Htgt as (T1 & T2 & T3 & T4 & T5).
  assert (Hot : occupied (target wr) (store w)).
  { apply occupied_spec. left. rewrite Hwi by done. by apply bool_decide_eq_true. }
  assert (Hocc : forall i, (i < 2)%nat -> i <> target wr -> occupied i s ->
    occupied i (store w) /\ slot_at i s = slot_at i (store w)).
  { intros i Hi Hne Ho. pose proof (Hrest i Hi Hne) as Hr. destruct (rests_refs _ _ Hr) as [R1 R2].
    destruct Hnew as [(_ & Hc & _ & Heq)|(n & _ & Hc & _)].
    - split; [|by apply Heq]. revert Ho. rewrite !occupied_spec, Heq, Hc, Hgen by done. tauto.
    - apply occupied_spec in Ho. rewrite R1, R2, Hc, Hwi, bool_decide_eq_false_2 in Ho by done.
      destruct Ho as [?|[Ho|[Ho _]]]; [done | | lia].
      split; [apply occupied_spec; by right; left | apply rests_same; [done | lia]]. }
  split; cbn [store writers views published app]; try apply H.
  - done.
  - destruct Hnew as [(_ & -> & _)|(n & _ & -> & _)]; [apply H | lia].
  - rewrite Ha, Hlk, Hcap. pose proof (vk_ready w H) as Hrd. destruct (arena (store w)); [done|].
    destruct Hrd as (_ & _ & Hn & _). by rewrite Hn in Ew.
  - intros i Hi. pose proof (vk_refs w H i Hi) as R. destruct (decide (i = target wr)) as [->|Hne].
    + rewrite T1. by rewrite W3 in R.
    + by rewrite (proj1 (rests_refs _ _ (Hrest i Hi Hne))).
  - intros i Hi. cbn [store]. destruct (decide (i = target wr)) as [->|Hne]; [done|].
    rewrite (proj2 (rests_refs _ _ (Hrest i Hi Hne))), Hwi by done. by apply bool_decide_eq_false.
  - pose proof (vk_views w H) as Hvs. rewrite Forall_forall in *. intros v Hv.
    apply (view_mono w); auto; cbn [store published]; try by rewrite Hloan.
    + apply Hreg.
    + intros x Hx. apply elem_of_app. by right.
  - intros Hc. cbn [store published] in *. rewrite Hgen.
    destruct Hnew as [(-> & Hcur & _ & Heq)|(n & -> & Hcur & Hn)]; rewrite Hcur in *.
    + destruct (vk_newest w H Hc) as (N1 & N2 & N3 & N4 & N5). rewrite Heq, Hreg by lia. by split_and!.
    + rewrite Nat2Z.id, Hn, Hreg. cbn. split_and!; try done.
      * rewrite W4. destruct (frame wr); [done | cbn; lia].
      * by rewrite <- Hdone.
  - intros i Hi Ho. rewrite Hcap. destruct (decide (i = target wr)) as [->|Hne].
    + destruct (vk_regions w H _ W1 Hot). rewrite T3, T4. split; [done | lia].
    + destruct (Hocc i Hi Hne Ho) as [Ho' ->]. by apply (vk_regions w H).
  - intros Ho0 Ho1. pose proof (vk_disjoint w H) as Hd.
    destruct (decide (target wr = 0%nat)) as [Et|Et].
    + rewrite Et in *. destruct (Hocc 1%nat ltac:(lia) ltac:(lia) Ho1) as [Ho' ->].
      specialize (Hd Hot Ho'). lia.
    + assert (target wr = 1%nat) as Et1 by lia. rewrite Et1 in *.
      destruct (Hocc 0%nat ltac:(lia) ltac:(lia) Ho0) as [Ho' ->]. specialize (Hd Ho' Hot). lia.
Qed.

(** ** Loans *)

Definition set_refs (n : Z) (slot : si_video_frame_slot_t) : si_video_frame_slot_t :=
  slot <| refs := n |>.

Lemma acquire_cases w last taken e view s :
  video_ok w -> si_video_frame_store_acquire last taken (store w) = (e, view, s) ->
  view = None /\ s = store w \/
  let c := Z.to_nat (current (store w)) in let slot := slot_at c (store w) in
  0 <= current (store w) /\ e = ESP_OK /\
  view = Some (mk_view (data slot) (len slot) (frame_id slot) c) /\
  s = with_slot c (fun slot => set_refs (u32 (refs slot + 1)) slot) (store w).
Proof.
  intros H E. unfold si_video_frame_store_acquire in E.
  do 4 (case_if_in E; [left; by injection E as _ <- <-|]). right.
  injection E as <- <- <-. to_props. by split_and!.
Qed.

Lemma ok_acquire w last taken e view s :
  Z.of_nat (length (views w)) < UINT32_MAX ->
  si_video_frame_store_acquire last taken (store w) = (e, view, s) -> video_ok w ->
  video_ok (mk_video s (writers w)
    (option_list ((fun view => (view, (newest w).2)) <$> view) ++ views w) (published w)).
Proof.
  intros Hb E H. destruct (acquire_cases w last taken e view s H E) as [[-> ->]|Hc]; [by destruct w|].
  cbv zeta in Hc. set (c := Z.to_nat (current (store w))) in *. destruct Hc as (Hcur & _ & -> & ->).
  set (f := fun slot => set_refs (u32 (refs slot + 1)) slot).
  assert (Hc2 : (c < 2)%nat) by (pose proof (vk_current w H); lia).
  destruct (vk_newest w H Hcur) as (N1 & N2 & N3 & N4 & N5). fold c in N1, N2, N3, N4, N5.
  assert (Hrefs : u32 (refs (slot_at c (store w)) + 1) = refs (slot_at c (store w)) + 1).
  { apply u32_small. unfold is_u32. rewrite (vk_refs w H c Hc2).
    pose proof (length_filter (fun v => token v.1 = c) (views w)). unfold loans, UINT32_MAX in *. lia. }
  assert (Hat : slot_at c (with_slot c f (store w)) = set_refs (refs (slot_at c (store w)) + 1) (slot_at c (store w))).
  { rewrite slot_at_with by (rewrite (vk_slots w H); done). unfold f. by rewrite Hrefs. }
  assert (Hother : forall i, i <> c -> slot_at i (with_slot c f (store w)) = slot_at i (store w))
    by (intros; by apply slot_at_other).
  assert (Hview : forall i, exists n, slot_at i (with_slot c f (store w)) = set_refs n (slot_at i (store w))).
  { intros i. destruct (decide (i = c)) as [->|Hi]; [by eexists|].
    exists (refs (slot_at i (store w))). rewrite Hother by done. by destruct (slot_at i (store w)). }
  assert (Hocc : forall i, occupied i (with_slot c f (store w)) -> occupied i (store w)).
  { intros i. destruct (decide (i = c)) as [->|Hi]; [intros _; by apply current_occupied|].
    rewrite !occupied_spec, Hother by done. tauto. }
  assert (Hnew : (frame_id (slot_at c (store w)), (newest w).2) ∈ published w /\
                 (newest w).2 = region (data (slot_at c (store w))) (len (slot_at c (store w))) (store w)).
  { unfold newest. destruct (published w) as [|p l]; [done|]. injection N5 as ->. cbn. split; [left | done]. }
  destruct Hnew as [Hin Hbytes].
  set (v0 := (mk_view (data (slot_at c (store w))) (len (slot_at c (store w)))
                (frame_id (slot_at c (store w))) c, (newest w).2)).
  change (option_list _ ++ views w) with (v0 :: views w).
  split; cbn [store writers views published].
  - rewrite with_slot_length. apply H.
  - apply H.
  - pose proof (vk_ready w H) as Hrd. change (arena (with_slot c f (store w))) with (arena (store w)).
    destruct (arena (store w)); [done|]. destruct Hrd as (_ & Hx & _). lia.
  - intros i Hi. pose proof (vk_refs w H i Hi) as R. unfold loans in *. cbn [views]. rewrite filter_cons.
    destruct (decide (i = c)) as [->|Hne].
    + rewrite Hat, decide_True by done. cbn [length]. cbn. lia.
    + rewrite Hother, decide_False by (cbn; congruence). done.
  - cbn [length]. lia.
  - apply (writers_mono w); [done | apply H | |].
    + intros i Hi. cbn [store]. by destruct (Hview i) as [n ->].
    + intros wr Ew (W1 & W2 & W3 & W4 & W5 & W6 & W7). unfold writer_ok. cbn [store].
      rewrite Hother; [by split_and! | lia].
  - pose proof (vk_views w H) as Hvs. apply Forall_cons; split.
    + unfold view_ok. change (token v0.1) with c. cbn [store published]. rewrite Hat.
      by split_and!.
    + rewrite Forall_forall in *. intros v Hv.
      destruct (Hview (token v.1)) as [n Hn]. apply (view_mono w); auto; cbn [store]; by rewrite Hn.
  - intros _. cbn [store published].
    change (Z.to_nat (current (with_slot c f (store w)))) with c. rewrite Hat. by split_and!.
  - intros i Hi Ho. destruct (Hview i) as [n ->]. by apply (vk_regions w H i Hi), Hocc.
  - intros Ho0 Ho1. destruct (Hview 0%nat) as [n0 ->], (Hview 1%nat) as [n1 ->].
    by apply (vk_disjoint w H); apply Hocc.
Qed.

Lemma release_slot_spec here gen slot :
  0 < refs slot -> (here = true -> VideoFrameStore.generation slot = gen /\ valid slot = true) ->
  let slot' := release_slot here gen slot in
  refs slot' = refs slot - 1 /\ writing slot' = writing slot /\ data slot' = data slot /\
  offset slot' = offset slot /\ (len slot' <= len slot)%nat /\
  (here = true \/ 1 < refs slot -> slot' = set_refs (refs slot - 1) slot) /\
  (here = false -> refs slot = 1 -> valid slot' = false).
Proof.
  intros Hr Hh. unfold release_slot. apply Z.ltb_lt in Hr as Hr'. rewrite Hr'. cbn [negb].
  set (slot1 := slot <| refs := refs slot - 1 |>).
  destruct ((refs slot1 =? 0) && _) eqn:E; cbv zeta.
  - split_and!; try done; [cbn; lia|]. intros Hc. exfalso. split_guards. to_props.
    change (refs slot - 1 = 0) in H. destruct Hc as [->|Hc]; [|lia].
    destruct (Hh eq_refl) as [<- Hv]. change (VideoFrameStore.generation slot1) with (VideoFrameStore.generation slot) in *.
    change (valid slot1) with (valid slot) in *. rewrite Hv, Z.eqb_refl in H0. done.
  - split_and!; try done. intros -> H1. change (refs slot1) with (refs slot - 1) in E. rewrite H1 in E. done.
Qed.

Lemma loans_split i l v r :
  length (filter (fun v => token v.1 = i) (l ++ v :: r)) =
  ((if decide (token (v : si_video_frame_store_view_t * list Z).1 = i) then 1 else 0) +
   length (filter (fun v => token v.1 = i) (l ++ r)))%nat.
Proof.
  rewrite !filter_app, !length_app, filter_cons. case_decide; cbn [length]; lia.
Qed.

Lemma ok_release w l r v :
  views w = l ++ v :: r -> video_ok w ->
  video_ok (mk_video (si_video_frame_store_release v.1 (store w)) (writers w) (l ++ r) (published w)).
Proof.
  intros E H.
  assert (Hv : v ∈ views w) by (rewrite E; apply elem_of_app; right; left).
  pose proof (vk_views w H) as Hvs. rewrite Forall_forall in Hvs.
  destruct (Hvs v Hv) as (Hi & _). set (i := token v.1) in *.
  assert (Hlock : lock (store w) = true).
  { pose proof (vk_ready w H) as Hrd. destruct (arena (store w)); [by destruct Hrd|].
    destruct Hrd as (_ & _ & _ & Hn). rewrite E in Hn. by destruct l. }
  unfold si_video_frame_store_release. rewrite Hlock. fold i.
  rewrite (proj2 (Nat.ltb_lt i SI_VIDEO_FRAME_STORE_SLOTS) Hi). cbn [negb orb].
  set (f := release_slot _ _).
  pose proof (vk_refs w H i Hi) as Hr. unfold loans in Hr. rewrite E, loans_split, decide_True in Hr by done.
  assert (Hhere : (Z.of_nat i =? current (store w)) = true ->
    VideoFrameStore.generation (slot_at i (store w)) = store_generation (store w) /\ valid (slot_at i (store w)) = true).
  { intros Hc%Z.eqb_eq. destruct (vk_newest w H ltac:(lia)) as (N1 & N2 & _).
    rewrite <- Hc, Nat2Z.id in N1, N2. done. }
  destruct (release_slot_spec (Z.of_nat i =? current (store w)) (store_generation (store w))
              (slot_at i (store w)) ltac:(lia) Hhere) as (S1 & S2 & S3 & S4 & S5 & S6 & S7).
  assert (Hat : slot_at i (with_slot i f (store w)) = f (slot_at i (store w)))
    by (apply slot_at_with; rewrite (vk_slots w H); done).
  assert (Hother : forall k, k <> i -> slot_at k (with_slot i f (store w)) = slot_at k (store w))
    by (intros; by apply slot_at_other).
  fold f in S1, S2, S3, S4, S5, S6, S7. rewrite <- Hat in S1, S2, S3, S4, S5, S6, S7.
  set (s' := with_slot i f (store w)) in *.
  assert (Hin : forall x, x ∈ l ++ r -> x ∈ views w).
  { intros x Hx. rewrite E. apply elem_of_app in Hx as [?|?]; apply elem_of_app; [by left | right; by right]. }
  assert (Hkeep : forall x, x ∈ l ++ r -> token x.1 = i -> slot_at i s' = set_refs (refs (slot_at i (store w)) - 1) (slot_at i (store w))).
  { intros x Hx Hxi. apply S6. right. rewrite Hr.
    assert (Hf : x ∈ filter (fun v => token v.1 = i) (l ++ r)) by (by apply list_elem_of_filter).
    destruct (filter _ (l ++ r)); [by apply not_elem_of_nil in Hf | cbn; lia]. }
  assert (Hocc : forall k, occupied k s' -> occupied k (store w)).
  { intros k. destruct (decide (k = i)) as [->|Hne]; [intros _; by apply loan_occupied|].
    rewrite !occupied_spec, Hother by done. tauto. }
  split; cbn [store writers views published].
  - unfold s'. rewrite with_slot_length. apply H.
  - apply H.
  - pose proof (vk_ready w H) as Hrd. change (arena s') with (arena (store w)).
    destruct (arena (store w)); [done|]. destruct Hrd as (Hl & _). congruence.
  - intros k Hk. pose proof (vk_refs w H k Hk) as R. unfold loans in *. cbn [views].
    rewrite E, loans_split in R. destruct (decide (k = i)) as [->|Hne].
    + rewrite decide_True in R by done. lia.
    + rewrite decide_False in R by (fold i; congruence). rewrite Hother by done. exact R.
  - pose proof (vk_bound w H) as Hb. rewrite E in Hb. rewrite length_app in *. cbn [length] in Hb. lia.
  - apply (writers_mono w); [done | apply H | |].
    + intros k Hk. cbn [store]. destruct (decide (k = i)) as [->|Hne]; [done | by rewrite Hother].
    + intros wr Ew (W1 & W2 & W3 & W4 & W5 & W6 & W7). unfold writer_ok. cbn [store].
      rewrite Hother; [by split_and!|]. intros <-. lia.
  - apply Forall_forall. intros x Hx. pose proof (Hvs x (Hin x Hx)) as Hxo.
    destruct (decide (token x.1 = i)) as [Ei|Ei].
    + apply (view_mono w); auto; cbn [store]; rewrite ?Ei, (Hkeep x Hx Ei); done.
    + apply (view_mono w); auto; cbn [store]; by rewrite ?Hother.
  - intros Hc. destruct (vk_newest w H Hc) as (N1 & N2 & N3 & N4 & N5).
    cbn [store published]. change (0 <= current (store w)) in Hc.
    change (current s') with (current (store w)).
    destruct (decide (Z.to_nat (current (store w)) = i)) as [Ei|Ei].
    + assert (Eh : (Z.of_nat i =? current (store w)) = true) by (apply Z.eqb_eq; lia).
      rewrite Ei in *. rewrite S6 by (by left). by split_and!.
    + rewrite Hother by done. by split_and!.
  - intros k Hk Ho. destruct (vk_regions w H k Hk (Hocc k Ho)) as [R1 R2].
    change (capacity s') with (capacity (store w)).
    destruct (decide (k = i)) as [->|Hne]; [rewrite S3, S4; split; [done | lia] | by rewrite Hother].
  - intros Ho0 Ho1. pose proof (vk_disjoint w H (Hocc _ Ho0) (Hocc _ Ho1)) as Hd.
    destruct (decide (i = 0%nat)) as [Ei|Ei]; [|destruct (decide (i = 1%nat)) as [Ei'|Ei']].
    + rewrite Ei in *. rewrite S4, (Hother 1%nat) by done. lia.
    + rewrite Ei' in *. rewrite S4, (Hother 0%nat) by done. lia.
    + rewrite !Hother by done. exact Hd.
Qed.

Lemma ok_step w w' : video_step w w' -> video_ok w -> video_ok w'.
Proof.
  intros Hs H. destruct Hs; eauto using ok_init, ok_clear, ok_begin, ok_copy, ok_commit, ok_acquire, ok_release.
Qed.

Lemma ok_reachable w : rtc video_step video_start w -> video_ok w.
Proof.
  intros Hr. pose proof ok_start as Hok. induction Hr as [|w1 w2 w3 Hs _ IH]; [done|].
  apply IH. by eapply ok_step.
Qed.

(** ** What consumers rely on *)

(** C26: a frame on loan never changes. From the moment a consumer borrows a frame
    until it gives it back, whatever publications, partial copies, clears and other
    loans interleave, the bytes it points to are the frame that was published under
    its id. *)
Theorem loan_immutable w w' v :
  rtc video_step video_start w -> rtc video_step w w' -> v ∈ views w -> v ∈ views w' ->
  view_bytes v.1 (store w') = view_bytes v.1 (store w) /\
  (view_frame_id v.1, view_bytes v.1 (store w)) ∈ published w.
Proof.
  intros Hr Hr' Hv Hv'.
  pose proof (vk_views _ (ok_reachable w Hr)) as H1.
  assert (Hr2 : rtc video_step video_start w') by (by etrans).
  pose proof (vk_views _ (ok_reachable w' Hr2)) as H2.
  rewrite Forall_forall in H1, H2.
  destruct (H1 v Hv) as (_ & _ & _ & E1 & Hp), (H2 v Hv') as (_ & _ & _ & E2 & _).
  rewrite E1, E2. by split.
Qed.

(** A publication writes only its own part of the arena: every byte it copies is
    in bounds, outside every frame on loan and outside the frame that consumers can
    borrow next. *)
Theorem copy_stays_inside w wr j :
  rtc video_step video_start w -> wr ∈ writers w -> j ∈ todo wr ->
  let k := (data (slot_at (target wr) (store w)) + j)%nat in
  (k < capacity (store w))%nat /\ length (default [] (arena (store w))) = capacity (store w) /\
  (forall v, v ∈ views w -> (k < view_data v.1 \/ view_data v.1 + view_len v.1 <= k)%nat) /\
  (0 <= current (store w) ->
   let slot := slot_at (Z.to_nat (current (store w))) (store w) in
   (k < data slot \/ data slot + len slot <= k)%nat).
Proof.
  intros Hr Hwr Hj k. pose proof (ok_reachable w Hr) as H.
  apply list_elem_of_split in Hwr as (l & r & E).
  destruct (the_writer w l r wr H E) as (_ & _ & Ew & (W1 & W2 & W3 & W4 & W5 & W6 & _) & Hwi).
  specialize (W6 j Hj).
  assert (Hot : occupied (target wr) (store w)).
  { apply occupied_spec. left. rewrite Hwi by done. by apply bool_decide_eq_true. }
  destruct (vk_regions w H _ W1 Hot) as [D1 D2]. pose proof (vk_ready w H) as Hrd.
  assert (Hapart : forall i, (i < 2)%nat -> i <> target wr -> occupied i (store w) ->
    (k < data (slot_at i (store w)) \/
     data (slot_at i (store w)) + len (slot_at i (store w)) <= k)%nat).
  { intros i Hi Hne Ho. destruct (writer_apart w wr i H Ew Hi Hne Ho) as (E1 & E2 & _ & E3).
    unfold k. lia. }
  split_and!.
  - unfold k. lia.
  - destruct (arena (store w)); [by destruct Hrd | by destruct Hrd as (_ & _ & Hx & _); rewrite Hx in Ew].
  - intros v Hv. pose proof (vk_views w H) as Hvs. rewrite Forall_forall in Hvs.
    destruct (Hvs v Hv) as (V1 & V2 & V3 & _). rewrite V2, V3.
    apply Hapart; [done | by apply (no_refs_no_loan _ w) | by apply loan_occupied].
  - intros Hc. apply Hapart; [pose proof (vk_current w H); lia | lia | by apply current_occupied].
Qed.

(** A consumer gets the newest frame. When a frame is visible, borrowing returns
    the last one that was committed, with its bytes, unless the consumer already has
    it; when none is, it reports that there is no frame. *)
Theorem acquire_is_newest w last :
  rtc video_step video_start w -> lock (store w) = true ->
  let '(e, view, _) := si_video_frame_store_acquire last true (store w) in
  if current (store w) <? 0 then e = ESP_ERR_NOT_FOUND /\ view = None
  else if negb (last =? UINT32_MAX) && (last =? (newest w).1)
  then e = ESP_ERR_NOT_FINISHED /\ view = None
  else e = ESP_OK /\ exists v, view = Some v /\
       view_frame_id v = (newest w).1 /\ view_bytes v (store w) = (newest w).2.
Proof.
  intros Hr Hl. pose proof (ok_reachable w Hr) as H. unfold si_video_frame_store_acquire.
  rewrite Hl. cbn [negb orb]. destruct (Z.ltb_spec (current (store w)) 0) as [Hc|Hc]; [done|].
  destruct (vk_newest w H Hc) as (N1 & N2 & N3 & N4 & N5).
  rewrite N1, N2, N3, Z.eqb_refl, (proj2 (Nat.eqb_neq _ 0)) by lia. cbn [negb orb].
  unfold newest. destruct (published w) as [|p ps]; [done|]. injection N5 as ->.
  cbn [head default fst snd id]. case_if; [done|]. split; [done|]. by eexists.
Qed.

(** ** A publication from beginning to end *)

Lemma free_slots w i :
  video_ok w -> writers w = [] -> views w = [] -> (i < 2)%nat ->
  refs (slot_at i (store w)) = 0 /\ writing (slot_at i (store w)) = false.
Proof.
  intros H Hw Hv Hi. split.
  - rewrite (vk_refs w H i Hi). unfold loans. by rewrite Hv.
  - pose proof (vk_writers w H) as Hws. unfold writers_ok in Hws. rewrite Hw in Hws. by apply Hws.
Qed.

Lemma free_try w size i :
  video_ok w -> writers w = [] -> views w = [] -> (i < 2)%nat -> (size <= capacity (store w))%nat ->
  Z.of_nat (1 - i) <> current (store w) -> is_Some (try_slot size (store w) i).
Proof.
  intros H Hw Hv Hi Hs Hc. unfold try_slot.
  destruct (free_slots w i H Hw Hv Hi) as [-> ->]. cbn [Z.eqb negb orb].
  unfold layout_slot_locked.
  rewrite (proj2 (Nat.leb_gt _ _)) by done. rewrite (proj2 (Nat.ltb_ge _ _)) by done. cbn [orb].
  assert (Ho : slot_occupies_arena_locked (1 - i) (store w) = false).
  { unfold slot_occupies_arena_locked.
    destruct (free_slots w (1 - i) H Hw Hv ltac:(lia)) as [-> ->].
    by rewrite (proj2 (Z.eqb_neq _ _) Hc). }
  rewrite Ho. destruct (i =? 0)%nat; by eexists.
Qed.

Lemma free_select w size :
  video_ok w -> writers w = [] -> views w = [] -> (size <= capacity (store w))%nat ->
  is_Some (select_write_slot_locked size (store w)).
Proof.
  intros H Hw Hv Hs. unfold select_write_slot_locked.
  destruct (free_slots w 0 H Hw Hv ltac:(lia)) as [_ ->], (free_slots w 1 H Hw Hv ltac:(lia)) as [_ ->].
  cbn [orb]. pose proof (vk_current w H) as Hc.
  destruct (Z.leb_spec 0 (current (store w))) as [Hp|Hp].
  - destruct (try_slot size (store w) (1 - _)); [by eexists|].
    apply free_try; [done | done | done | lia | done | lia].
  - destruct (free_try w size 0 H Hw Hv ltac:(lia) Hs ltac:(lia)) as [r ->]. by eexists.
Qed.

Lemma filter_keeps {A} (P : A -> Prop) `{!forall x, Decision (P x)} l :
  Forall P l -> filter P l = l.
Proof.
  induction 1 as [|x l Hx _ IH]; [done|]. rewrite filter_cons, decide_True by done. by rewrite IH.
Qed.

Lemma copies_run w wr :
  writers w = [wr] -> NoDup (todo wr) ->
  rtc video_step w
    (mk_video (fold_left (fun s j => copy_byte wr j s) (todo wr) (store w))
       [mk_writer (target wr) (start_generation wr) (frame wr) []] (views w) (published w)).
Proof.
  remember (todo wr) as js eqn:Ej. revert w wr Ej. induction js as [|j js IH]; intros w wr Ej Ew Hn.
  - cbn [fold_left]. destruct w, wr. cbn in *. subst. reflexivity.
  - apply NoDup_cons in Hn as [Hj Hn].
    eapply rtc_l; [apply (step_copy w [] [] wr j Ew); rewrite <- Ej; left|].
    assert (Et : js = todo (copied wr j)).
    { cbn [copied todo]. rewrite <- Ej, filter_cons, decide_False by tauto. symmetry.
      apply filter_keeps, Forall_forall. by intros i Hi ->. }
    pose proof (IH (mk_video (copy_byte wr j (store w)) [copied wr j] (views w) (published w))
                  (copied wr j) Et eq_refl Hn) as R. exact R.
Qed.

Lemma copies_keep wr js s :
  let s' := fold_left (fun s j => copy_byte wr j s) js s in
  lock s' = lock s /\ store_generation s' = store_generation s.
Proof.
  revert s. induction js as [|j js IH]; intros s; [done|]. cbn [fold_left].
  cbv zeta in *. by rewrite !(proj1 (IH _)), !(proj2 (IH _)).
Qed.

Lemma publish_reaches w bytes :
  video_ok w -> is_Some (arena (store w)) -> writers w = [] -> views w = [] ->
  bytes <> [] -> (length bytes <= capacity (store w))%nat ->
  exists id s',
    si_video_frame_store_publish bytes true (store w) = (ESP_OK, Some id, s') /\
    rtc video_step w (mk_video s' [] (views w) ((id, bytes) :: published w)) /\
    lock s' = true /\ 0 <= current s'.
Proof.
  intros H Ha Hw Hv Hne Hcap.
  pose proof (vk_ready w H) as Hrd. destruct Ha as [b Ha]. rewrite Ha in Hrd. destruct Hrd as [Hl _].
  destruct (free_select w (length bytes) H Hw Hv Hcap) as [[t off] Hsel].
  assert (Hb : exists wr s, publish_begin bytes true (store w) = (ESP_OK, Some wr, s) /\
             NoDup (todo wr) /\ frame wr = bytes /\ start_generation wr = store_generation s /\ lock s = true).
  { unfold publish_begin. rewrite Hl, Ha, Hsel, (proj2 (Nat.ltb_ge _ _)) by done.
    rewrite (proj2 (Nat.eqb_neq _ 0)) by (by destruct bytes). cbn [negb orb].
    rewrite bool_decide_eq_true_2 by done. cbn [negb]. eexists _, _.
    split; [reflexivity|]. split_and!; [apply NoDup_seq | done | done | by case_if]. }
  destruct Hb as (wr & s & Eb & Hnd & <- & Hgen & Hls).
  set (w1 := mk_video s [wr] (views w) (published w)).
  assert (R1 : rtc video_step w w1).
  { apply rtc_once. pose proof (step_begin w (frame wr) true _ _ _ Eb) as S. by rewrite Hw in S. }
  set (s2 := fold_left (fun s j => copy_byte wr j s) (todo wr) s).
  set (wr' := mk_writer (target wr) (start_generation wr) (frame wr) []).
  pose proof (copies_run w1 wr eq_refl Hnd : rtc video_step w1 (mk_video s2 [wr'] (views w) (published w))) as R2.
  destruct (copies_keep wr (todo wr) s) as [Hl2 Hg2]. fold s2 in Hl2, Hg2.
  assert (Hc : exists id s', publish_commit wr' s2 = (ESP_OK, Some id, s') /\ lock s' = true /\
                        0 <= current s').
  { unfold publish_commit, wr'. cbn [start_generation target]. rewrite Hgen, Hg2, Z.eqb_refl. cbn [negb].
    eexists _, _. split; [reflexivity|]. split; [|cbn; lia].
    change (lock (?x <| current := ?c |>)) with (lock x). cbn. case_if; cbn; congruence. }
  destruct Hc as (id & s' & Ec & Hl' & Hcur). exists id, s'. split_and!; [ | | done | done].
  - unfold si_video_frame_store_publish. rewrite Eb. exact Ec.
  - etrans; [exact R1|]. etrans; [exact R2|]. apply rtc_once.
    exact (step_commit (mk_video s2 [wr'] (views w) (published w)) [] [] wr' _ _ _ eq_refl eq_refl Ec).
Qed.

Lemma newest_length w :
  video_ok w -> 0 <= current (store w) -> length (newest w).2 = len (slot_at (Z.to_nat (current (store w))) (store w)).
Proof.
  intros H Hc. destruct (vk_newest w H Hc) as (_ & _ & _ & _ & N5).
  destruct (vk_regions w H (Z.to_nat (current (store w)))) as [D1 D2];
    [pose proof (vk_current w H); lia | by apply current_occupied |].
  pose proof (vk_ready w H) as Hrd. unfold newest. destruct (published w) as [|p ps]; [done|].
  injection N5 as ->. cbn [head default snd id]. unfold region. rewrite length_take, length_drop.
  destruct (arena (store w)) as [b|]; [|destruct Hrd as (_ & Hx & _); lia].
  destruct Hrd as [_ E3]. change (default [] (Some b)) with b. lia.
Qed.

Lemma copy_newest w size :
  video_ok w -> lock (store w) = true -> 0 <= current (store w) ->
  (length (newest w).2 <= size)%nat ->
  (si_video_frame_store_copy 0 false size true (store w)).1 =
  (ESP_OK, Some (newest w).2, Some (length (newest w).2), Some (newest w).1).
Proof.
  intros H Hl Hc Hs. rewrite (newest_length w H Hc) in *.
  destruct (vk_newest w H Hc) as (N1 & N2 & N3 & N4 & N5).
  unfold si_video_frame_store_copy, si_video_frame_store_acquire.
  set (slot := slot_at (Z.to_nat (current (store w))) (store w)) in *.
  rewrite Hl, (proj2 (Z.ltb_ge _ _)), N1, N2, N3, !Z.eqb_refl, (proj2 (Nat.eqb_neq _ 0)) by (done || lia).
  cbn [negb orb andb view_len fst]. rewrite (proj2 (Nat.ltb_ge _ _)) by lia.
  unfold newest. destruct (published w) as [|p ps]; [done|]. injection N5 as ->. reflexivity.
Qed.

(** Publication always has room when nobody is in the way: without another
    publication under way and without a loan, every non-empty frame that fits the
    arena, also one as large as the arena, is accepted, gets an id, and can be copied
    out unchanged at once. *)
Theorem publish_then_copy w bytes size :
  rtc video_step video_start w -> is_Some (arena (store w)) -> writers w = [] -> views w = [] ->
  bytes <> [] -> (length bytes <= capacity (store w))%nat -> (length bytes <= size)%nat ->
  exists id s',
    si_video_frame_store_publish bytes true (store w) = (ESP_OK, Some id, s') /\
    (si_video_frame_store_copy 0 false size true s').1 =
      (ESP_OK, Some bytes, Some (length bytes), Some id).
Proof.
  intros Hr Ha Hw Hv Hne Hcap Hsize.
  destruct (publish_reaches w bytes (ok_reachable w Hr) Ha Hw Hv Hne Hcap) as (id & s' & Ep & R & Hl & Hc).
  exists id, s'. split; [done|].
  apply (copy_newest (mk_video s' [] (views w) ((id, bytes) :: published w)));
    [apply ok_reachable; by etrans | done..].
Qed.

(** ** A concrete run: a frame is read while the next one is being copied *)

Definition demo_arena : video_world :=
  mk_video (si_video_frame_store_init 4 true (Some [0; 0; 0; 0]) (store video_start)).2 [] [] [].

Definition demo_published : video_world :=
  mk_video (si_video_frame_store_publish [5; 6] true (store demo_arena)).2 [] [] [(1, [5; 6])].

Definition demo_view : si_video_frame_store_view_t := mk_view 0 2 1 0.

Definition demo_lent : video_world :=
  mk_video (si_video_frame_store_acquire 0 true (store demo_published)).2 []
    [(demo_view, [5; 6])] [(1, [5; 6])].

Definition demo_writer : writer := mk_writer 1 1 [7; 8] [0%nat; 1%nat].

Definition demo_begun : video_world :=
  mk_video (publish_begin [7; 8] true (store demo_lent)).2 [demo_writer]
    [(demo_view, [5; 6])] [(1, [5; 6])].

Definition demo_halfway : video_world :=
  mk_video (copy_byte demo_writer 0 (store demo_begun)) [mk_writer 1 1 [7; 8] [1%nat]]
    [(demo_view, [5; 6])] [(1, [5; 6])].

Lemma demo_arena_reachable : rtc video_step video_start demo_arena.
Proof.
  apply rtc_once. refine (step_init video_start 4 true (Some [0; 0; 0; 0]) _). by intros ? [= <-].
Qed.

Lemma demo_published_reachable : rtc video_step video_start demo_published.
Proof.
  etrans; [apply demo_arena_reachable|].
  destruct (publish_reaches demo_arena [5; 6]) as (id & s' & E & R & _);
    [apply ok_reachable, demo_arena_reachable | by eexists | done | done | done | vm_compute; lia |].
  assert (E1 : id = 1) by (vm_compute in E; by injection E).
  assert (E2 : s' = (si_video_frame_store_publish [5; 6] true (store demo_arena)).2) by by rewrite E.
  rewrite E1, E2 in R. exact R.
Qed.

Lemma demo_lent_step : video_step demo_published demo_lent.
Proof.
  refine (step_acquire demo_published 0 true ESP_OK (Some demo_view) _ _ _); [by_eval | by_eval].
Qed.

Lemma demo_halfway_steps : rtc video_step demo_lent demo_halfway.
Proof.
  apply (rtc_l _ _ demo_begun).
  - refine (step_begin demo_lent [7; 8] true ESP_OK (Some demo_writer) _ _). by_eval.
  - apply rtc_once. refine (step_copy demo_begun [] [] demo_writer 0 eq_refl _). left.
Qed.

Lemma demo_lent_reachable : rtc video_step video_start demo_lent.
Proof. eapply rtc_r; [apply demo_published_reachable | apply demo_lent_step]. Qed.

Lemma demo_halfway_reachable : rtc video_step video_start demo_halfway.
Proof. etrans; [apply demo_lent_reachable | apply demo_halfway_steps]. Qed.

Lemma loan_immutable_witness :
  arena (store demo_halfway) = Some [5; 6; 7; 0] /\
  view_bytes demo_view (store demo_halfway) = view_bytes demo_view (store demo_lent) /\
  (1, view_bytes demo_view (store demo_lent)) ∈ published demo_lent.
Proof.
  split; [by_eval|].
  apply (loan_immutable demo_lent demo_halfway (demo_view, [5; 6])
           demo_lent_reachable demo_halfway_steps); left.
Defined.

Lemma copy_stays_inside_witness :
  let wr := mk_writer 1 1 [7; 8] [1%nat] in
  let k := (data (slot_at (target wr) (store demo_halfway)) + 1)%nat in
  (k < capacity (store demo_halfway))%nat /\
  length (default [] (arena (store demo_halfway))) = capacity (store demo_halfway) /\
  (forall v, v ∈ views demo_halfway -> (k < view_data v.1 \/ view_data v.1 + view_len v.1 <= k)%nat) /\
  (0 <= current (store demo_halfway) ->
   let slot := slot_at (Z.to_nat (current (store demo_halfway))) (store demo_halfway) in
   (k < data slot \/ data slot + len slot <= k)%nat).
Proof.
  exact (copy_stays_inside demo_halfway (mk_writer 1 1 [7; 8] [1%nat]) 1 demo_halfway_reachable
           (list_elem_of_here _ _) (list_elem_of_here _ _)).
Defined.

Lemma acquire_is_newest_witness :
  lock (store demo_halfway) = true /\
  let '(e, view, _) := si_video_frame_store_acquire 0 true (store demo_halfway) in
  if current (store demo_halfway) <? 0 then e = ESP_ERR_NOT_FOUND /\ view = None
  else if negb (0 =? UINT32_MAX) && (0 =? (newest demo_halfway).1)
  then e = ESP_ERR_NOT_FINISHED /\ view = None
  else e = ESP_OK /\ exists v, view = Some v /\
       view_frame_id v = (newest demo_halfway).1 /\
       view_bytes v (store demo_halfway) = (newest demo_halfway).2.
Proof.
  split; [by_eval|].
  exact (acquire_is_newest demo_halfway 0 demo_halfway_reachable eq_refl).
Defined.

Lemma publish_then_copy_witness :
  exists id s',
    si_video_frame_store_publish [1; 2; 3; 4] true (store demo_published) = (ESP_OK, Some id, s') /\
    (si_video_frame_store_copy 0 false 4 true s').1 = (ESP_OK, Some [1; 2; 3; 4], Some 4%nat, Some id).
Proof.
  apply (publish_then_copy demo_published [1; 2; 3; 4] 4 demo_published_reachable);
    [by eexists | done | done | done | vm_compute; lia | vm_compute; lia].
Defined.
