(* ===== verification/AuthSession.v ===== *)
(** * Login sessions: [application/auth_service.c]

    The table of browser and MCP sessions in memory that survives a software
    reset, the tokens that open them, their expiry and revocation, and the
    credential generation that separates the logins of one password from those
    of the next.  Revoking a session calls the control lease and the listeners.

    The credentials themselves are loaded: [si_auth_initialize] has run, and
    [load_credentials] does nothing.  The digest of mbedTLS and the layout of the
    retained structure in memory are parameters. *)

From Stdlib Require Import String.
From S2P Require Import Prelude CText Hex Firmware Authorization.
From S2P Require Import HidOwner HidManager ControlLease.

Definition AUTH_VERIFIER_BYTES : nat := 32.
Definition AUTH_BROWSER_SESSION_SLOTS : nat := 12.
Definition AUTH_MCP_SESSION_SLOTS : nat := 4.
Definition AUTH_SESSION_SLOTS : nat := AUTH_BROWSER_SESSION_SLOTS + AUTH_MCP_SESSION_SLOTS.
Definition AUTH_SESSION_ABSOLUTE_MS : Z := 24 * 60 * 60 * 1000.
Definition AUTH_RETAINED_MAGIC : Z := 0x45415353.
Definition AUTH_RETAINED_VERSION : Z := 3.
Definition AUTH_FAILURE_WINDOW_MS : Z := 60000.
Definition AUTH_FAILURE_LIMIT : Z := 5.
Definition AUTH_LOCKOUT_MS : Z := 30000.
Definition SI_AUTH_TOKEN_LEN : nat := 64.
Definition SI_AUTH_SESSION_ID_MAX_LEN : nat := 20.
Definition SI_AUTH_DISABLED_SESSION_GENERATION : Z := 1.
Definition AUTH_REVOKED_LISTENER_SLOTS : nat := 2.

Inductive si_auth_method_t := SI_AUTH_METHOD_PASSWORD | SI_AUTH_METHOD_PASSKEY.

#[export] Instance auth_method_eq_dec : EqDecision si_auth_method_t.
Proof. solve_decision. Defined.

#[export] Instance auth_method_enum : CEnum si_auth_method_t.
Proof.
  enum_at (fun m => match m with SI_AUTH_METHOD_PASSWORD => 1 | SI_AUTH_METHOD_PASSKEY => 2 end)
    [SI_AUTH_METHOD_PASSWORD; SI_AUTH_METHOD_PASSKEY].
Defined.

(** The reset reasons of ESP-IDF that the code names, and the rest. *)
Inductive esp_reset_reason_t :=
| ESP_RST_SW | ESP_RST_PANIC | ESP_RST_INT_WDT | ESP_RST_TASK_WDT | ESP_RST_WDT
| ESP_RST_OTHER.

(** ** Data

    The retained memory may hold anything after a power-on: enumerations are
    their integers. *)

Record auth_session_t := mk_session {
  used : bool;
  principal : Z;
  capabilities : Z;
  method : Z;
  session_generation : Z;
  session_id : cstring;
  token_digest : list Z;
  created_us : Z;
  last_seen_us : Z
}.

#[export] Instance eta_auth_session : Settable auth_session_t := fun s =>
  mk_session (used s) (principal s) (capabilities s) (method s) (session_generation s)
    (session_id s) (token_digest s) (created_us s) (last_seen_us s).

Definition zero_session : auth_session_t :=
  mk_session false 0 0 0 0 [] (replicate AUTH_VERIFIER_BYTES 0) 0 0.

Record auth_retained_state_t := mk_retained {
  magic : Z;
  version : Z;
  checksum : Z;
  next_generation : Z;
  clock_us : Z;
  sessions : list auth_session_t
}.

#[export] Instance eta_auth_retained : Settable auth_retained_state_t := fun r =>
  mk_retained (magic r) (version r) (checksum r) (next_generation r) (clock_us r) (sessions r).

Definition zero_retained : auth_retained_state_t :=
  mk_retained 0 0 0 0 0 (replicate AUTH_SESSION_SLOTS zero_session).

(** The build's [SI_CFG_AUTH_DISABLED_FOR_LAN_TESTING], the reason of the last
    reset, the loaded credentials, and the statics of the sessions and of the login failures. *)
Record auth_state := mk_auth {
  login_disabled : bool;
  reset_reason : esp_reset_reason_t;
  verifier : cstring;
  setup_required : bool;
  credential_generation : Z;
  credentials_lock : bool;
  session_lock : bool;
  retained : auth_retained_state_t;
  retained_initialized : bool;
  failure_count : Z;
  failure_window_started_us : Z;
  lockout_until_us : Z;
  session_evictions : Z;
  session_expirations : Z;
  session_restores : Z;
  validation_misses : Z;
  lock_timeouts : Z;
  revoked_listeners : list (option Z)
}.

#[export] Instance eta_auth_state : Settable auth_state := fun a =>
  mk_auth (login_disabled a) (reset_reason a) (verifier a) (setup_required a) (credential_generation a)
    (credentials_lock a) (session_lock a) (retained a) (retained_initialized a)
    (failure_count a) (failure_window_started_us a) (lockout_until_us a) (session_evictions a)
    (session_expirations a) (session_restores a) (validation_misses a) (lock_timeouts a)
    (revoked_listeners a).

(** The statics at the start of the firmware, over what the retained memory holds. *)
Definition auth_started (disabled : bool) (reason : esp_reset_reason_t)
    (memory : auth_retained_state_t) : auth_state :=
  mk_auth disabled reason [] true 1 true false memory false 0 0 0 0 0 0 0 0
    (replicate AUTH_REVOKED_LISTENER_SLOTS None).

Record si_session_settings_t := mk_settings {
  auto_logout_enabled : bool;
  auto_logout_minutes : Z
}.

Record si_auth_session_context_t := mk_auth_context {
  authenticated : bool;
  ctx_principal : Z;
  ctx_method : Z;
  ctx_capabilities : Z;
  ctx_generation : Z;
  authenticated_at_us : Z;
  ctx_session_id : cstring
}.

Definition anonymous_context : si_auth_session_context_t :=
  mk_auth_context false (enum_val SI_PRINCIPAL_ANONYMOUS) 0 0 0 0 [].

(** What a call reads from outside: the clock when the retained memory is
    initialized and in the body, whether a mutex can be created, whether the timed
    wait for the lock ends in time, the settings, the bytes of the random generator, and
    what each revocation of a lease reads. *)
Record auth_env := mk_auth_env {
  init_us : Z;
  now_us : Z;
  mutex_created : bool;
  lock_in_time : bool;
  session_settings : si_session_settings_t;
  random_token : list Z;
  random_id : Z * Z;
  lease_reads : nat -> lease_env
}.

(** The sessions that a call took away, for the lease and the listeners. *)
Definition auth_revoked_sessions_t : Type := list (cstring * Z).

Definition revoked_sessions_add (revoked : auth_revoked_sessions_t) (session : auth_session_t)
  : auth_revoked_sessions_t :=
  return_if negb (used session) || is_empty (session_id session) ||
            (AUTH_SESSION_SLOTS <=? length revoked)%nat with revoked ;;
  revoked ++ [(strtrunc (SI_AUTH_SESSION_ID_MAX_LEN + 1) (session_id session),
               session_generation session)].

(** ** The table, with what was revoked from it *)

Definition swept : Type := auth_state * auth_revoked_sessions_t.

Definition session_at (i : nat) (a : auth_state) : auth_session_t :=
  default zero_session (sessions (retained a) !! i).

Definition put_session (i : nat) (s : auth_session_t) (a : auth_state) : auth_state :=
  a <| retained := (retained a) <| sessions := <[i := s]> (sessions (retained a)) |> |>.

Definition session_clear_locked (i : nat) (r : swept) : swept :=
  let '(a, revoked) := r in
  (put_session i zero_session a, revoked_sessions_add revoked (session_at i a)).

Definition session_expired (session : auth_session_t) (now : Z) (settings : si_session_settings_t)
  : bool :=
  return_if negb (used session) || (now <? created_us session) || (now <? last_seen_us session)
    with true ;;
  let age_ms := (now - created_us session) / 1000 in
  return_if AUTH_SESSION_ABSOLUTE_MS <? age_ms with true ;;
  return_if negb (auto_logout_enabled settings) with false ;;
  let idle_ms := (now - last_seen_us session) / 1000 in
  auto_logout_minutes settings * 60000 <? idle_ms.

(** A live slot that has expired is cleared and counted. *)
Definition expire_slot (env : auth_env) (i : nat) (r : swept) : bool * swept :=
  let '(a, revoked) := r in
  if used (session_at i a) && session_expired (session_at i a) (now_us env) (session_settings env)
  then
    let '(a, revoked) := session_clear_locked i (a, revoked) in
    (true, (a <| session_expirations := u32 (session_expirations a + 1) |>, revoked))
  else (false, (a, revoked)).

Definition next_session_generation_locked (a : auth_state) : Z * auth_state :=
  let n := u32 (next_generation (retained a) + 1) in
  let n := if n =? 0 then 1 else n in
  (n, a <| retained := (retained a) <| next_generation := n |> |>).

(** ** The retained memory *)

Definition retained_reset_allowed (reason : esp_reset_reason_t) : bool :=
  match reason with
  | ESP_RST_SW | ESP_RST_PANIC | ESP_RST_INT_WDT | ESP_RST_TASK_WDT | ESP_RST_WDT => true
  | ESP_RST_OTHER => false
  end.

Definition retained_session_sane (session : auth_session_t) (retained_clock_us : Z) : bool :=
  return_if negb (used session) ||
            (negb (principal session =? enum_val SI_PRINCIPAL_BROWSER) &&
             negb (principal session =? enum_val SI_PRINCIPAL_MCP)) ||
            (session_generation session =? 0) ||
            (last_seen_us session <? created_us session) ||
            (retained_clock_us <? last_seen_us session) ||
            (strnlen (session_id session) (SI_AUTH_SESSION_ID_MAX_LEN + 1) =? 0)%nat ||
            (SI_AUTH_SESSION_ID_MAX_LEN + 1 <=?
             strnlen (session_id session) (SI_AUTH_SESSION_ID_MAX_LEN + 1))%nat
    with false ;;
  retained_clock_us - AUTH_SESSION_ABSOLUTE_MS * 1000 <=? created_us session.

Definition checksum_offset : nat := 8.

Section memory.
(** The bytes of the structure as the compiler lays it out. *)
Context (state_bytes : auth_retained_state_t -> list Z).

Definition retained_checksum (r : auth_retained_state_t) : Z :=
  foldl (fun hash '(i, byte) =>
      let value := if (checksum_offset <=? i)%nat && (i <? checksum_offset + 4)%nat
                   then 0 else byte in
      u32 (Z.lxor hash value * 16777619))
    2166136261 (imap pair (state_bytes r)).

Definition retained_commit_locked (now : Z) (a : auth_state) : auth_state :=
  let r := (((retained a) <| magic := AUTH_RETAINED_MAGIC |>)
              <| version := AUTH_RETAINED_VERSION |>) <| clock_us := now |> in
  let r := r <| checksum := 0 |> in
  a <| retained := r <| checksum := retained_checksum r |> |>.

(** A session of the previous run, on the clock of this one; [None]: dropped. *)
Definition restore_session (now previous : Z) (s : auth_session_t) : option auth_session_t :=
  return_if negb (used s) with Some s ;;
  return_if negb (retained_session_sane s previous) with None ;;
  let created_age_us := previous - created_us s in
  let idle_age_us := previous - last_seen_us s in
  Some ((s <| created_us := now - created_age_us |>) <| last_seen_us := now - idle_age_us |>).

Definition valid_memory (r : auth_retained_state_t) : bool :=
  (magic r =? AUTH_RETAINED_MAGIC) &&
  (version r =? AUTH_RETAINED_VERSION) && (0 <=? clock_us r) &&
  (checksum r =? retained_checksum r).

Definition restorable (reason : esp_reset_reason_t) (r : auth_retained_state_t) : bool :=
  retained_reset_allowed reason && valid_memory r.

Definition restored_count (now previous : Z) (l : list auth_session_t) : Z :=
  Z.of_nat (length (filter (fun s => used s = true) (omap (restore_session now previous) l))).

Definition retained_init_locked (env : auth_env) (a : auth_state) : auth_state :=
  return_if retained_initialized a with a ;;
  let r := retained a in
  let a :=
    if negb (restorable (reset_reason a) r) then a <| retained := zero_retained |>
    else
      let previous := clock_us r in
      (a <| retained := r <| sessions :=
          map (fun s => default zero_session (restore_session (init_us env) previous s))
            (sessions r) |> |>)
        <| session_restores :=
             u32 (session_restores a + restored_count (init_us env) previous (sessions r)) |> in
  retained_commit_locked (init_us env) (a <| retained_initialized := true |>).
End memory.

(** ** The calls

    A call works on the sessions, then tells the lease and the listeners. *)

Record auth_world := mk_auth_world {
  auth : auth_state;
  lease : lease_world;
  notified : list (Z * cstring * Z)
}.

#[export] Instance eta_auth_world : Settable auth_world := fun w =>
  mk_auth_world (auth w) (lease w) (notified w).

Definition on_auth {A} (f : auth_state -> A * auth_state) : st auth_world A := fun w =>
  let '(a, s) := f (auth w) in (a, w <| auth := s |>).

Definition on_lease {A} (m : st lease_world A) : st auth_world A := fun w =>
  let '(a, l) := m (lease w) in (a, w <| lease := l |>).

Definition si_auth_credential_generation : st auth_world Z :=
  gets (fun w => credential_generation (auth w)).

Definition ensure_lock (env : auth_env) : st auth_world esp_err_t :=
  on_auth (fun a =>
    return_if session_lock a with (ESP_OK, a) ;;
    (if mutex_created env then ESP_OK else ESP_ERR_NO_MEM,
     a <| session_lock := mutex_created env |>)).

(** A wait for the lock that may run out of time is counted. *)
Definition take_session_lock (env : auth_env) : st auth_world bool :=
  on_auth (fun a =>
    (lock_in_time env,
     if lock_in_time env then a else a <| lock_timeouts := u32 (lock_timeouts a + 1) |>)).

Definition si_auth_add_session_revoked_listener (listener : option Z)
  : st auth_world esp_err_t :=
  match listener with
  | None => mret ESP_ERR_INVALID_ARG
  | Some l =>
      on_auth (fun a =>
        match list_find (fun x => x = None) (revoked_listeners a) with
        | Some (i, _) =>
            (ESP_OK, a <| revoked_listeners := <[i := Some l]> (revoked_listeners a) |>)
        | None => (ESP_ERR_NO_MEM, a)
        end)
  end.

Definition notify (sid : cstring) (gen : Z) : st auth_world unit :=
  modify (fun w => w <| notified := notified w ++
    map (fun l => (l, sid, gen)) (omap id (revoked_listeners (auth w))) |>).

(** [reads i]: what the revocation of the [i]-th session reads. *)
Fixpoint revoked_sessions_apply (reads : nat -> lease_env) (revoked : auth_revoked_sessions_t)
  : st auth_world unit :=
  match revoked with
  | [] => mret tt
  | (sid, gen) :: revoked =>
      on_lease (si_control_lease_revoke_auth_session (reads 0%nat) (Some sid) gen);;
      notify sid gen;;
      revoked_sessions_apply (fun i => reads (S i)) revoked
  end.

Definition secure_equal (a b : list Z) : bool :=
  foldl (fun diff i => Z.lor diff (u8 (Z.lxor (nth i a 0) (nth i b 0))))
    (u8 (Z.lxor (Z.of_nat (length a)) (Z.of_nat (length b))))
    (seq 0 (Nat.max (length a) (length b))) =? 0.

Section calls.
Context (state_bytes : auth_retained_state_t -> list Z).
Context (mbedtls_sha256 : list Z -> option (list Z)).
Implicit Types env : auth_env.

Definition sha256_text (text : option cstring) : option (list Z) :=
  match text with Some text => mbedtls_sha256 text | None => None end.

Definition retained_init env : st auth_world unit :=
  on_auth (fun a => (tt, retained_init_locked state_bytes env a)).

Definition retained_commit env : st auth_world unit :=
  on_auth (fun a => (tt, retained_commit_locked state_bytes (now_us env) a)).

(** A loop over the table, with what it revokes. *)
Definition sweep {A} (f : swept -> A * swept) : st auth_world (A * auth_revoked_sessions_t) :=
  on_auth (fun a => let '(x, (a, revoked)) := f (a, []) in ((x, revoked), a)).

Definition si_auth_is_enabled env : st auth_world bool :=
  ensure_lock env;;
  gets (fun w => negb (login_disabled (auth w))).

Definition si_auth_setup_required : st auth_world bool :=
  gets (fun w => negb (is_empty (verifier (auth w))) && setup_required (auth w)).

(** ** Creation *)

(** The slot for a new session: the first free one from [i] on, or the one that
    was seen last the longest ago. *)
Fixpoint slot_scan env (n i : nat) (slot : option nat) (oldest : Z) (r : swept)
  : option nat * swept :=
  match n with
  | O => (slot, r)
  | S n =>
      let '(_, r) := expire_slot env i r in
      let s := session_at i r.1 in
      return_if negb (used s) with (Some i, r) ;;
      if last_seen_us s <? oldest
      then slot_scan env n (S i) (Some i) (last_seen_us s) r
      else slot_scan env n (S i) slot oldest r
  end.

Definition new_session env (is_mcp : bool) (m : si_auth_method_t) (digest : list Z) (gen : Z)
  : auth_session_t :=
  mk_session true
    (enum_val (if is_mcp then SI_PRINCIPAL_MCP else SI_PRINCIPAL_BROWSER))
    (if is_mcp then SI_CAPABILITIES_MCP_DEFAULT else SI_CAPABILITIES_WEB_DEFAULT)
    (enum_val m) gen
    (strtrunc (SI_AUTH_SESSION_ID_MAX_LEN + 1)
       (cstr "s" ++ hex32 (random_id env).1 ++ hex32 (random_id env).2))
    digest (now_us env) (now_us env).

Definition INT64_MAX : Z := 9223372036854775807.

Definition is_mcp_client (client : option cstring) : bool :=
  ptr_test (fun c => strcaseeq c (cstr "exoanchor-mcp")) client.

(** The table's part of a creation: the slot is found, evicted and filled. *)
Definition fill_slot env (is_mcp : bool) (m : si_auth_method_t) (digest : list Z) (r : swept)
  : bool * swept :=
  let begin := if is_mcp then AUTH_BROWSER_SESSION_SLOTS else 0%nat in
  let count := if is_mcp then AUTH_MCP_SESSION_SLOTS else AUTH_BROWSER_SESSION_SLOTS in
  match slot_scan env count begin None INT64_MAX r with
  | (None, r) => (false, r)
  | (Some slot, (a, revoked)) =>
      let old := session_at slot a in
      let revoked := if used old then revoked_sessions_add revoked old else revoked in
      let a := if used old then a <| session_evictions := u32 (session_evictions a + 1) |> else a in
      let '(gen, a) := next_session_generation_locked a in
      (true, (put_session slot (new_session env is_mcp m digest gen) a, revoked))
  end.

(** [raw_method]: an enumeration argument.  The text is what [out_token] holds
    afterwards. *)
Definition si_auth_create_session_for_method env (client : option cstring)
    (expected_generation raw_method : Z) : st auth_world (esp_err_t * cstring) :=
  enabled ← si_auth_is_enabled env;
  has_password ← gets (fun w => negb (is_empty (verifier (auth w))));
  setup ← si_auth_setup_required;
  match enum_of_Z raw_method with
  | None => mret (ESP_ERR_INVALID_ARG, [])
  | Some m =>
      return_if negb enabled || negb has_password || setup with mret (ESP_ERR_INVALID_ARG, []) ;;
      locked ← ensure_lock env;
      return_if negb (bool_decide (locked = ESP_OK)) with mret (locked, []) ;;
      let out_token := hex_text (random_token env) in
      match sha256_text (Some out_token) with
      | None => mret (ESP_FAIL, [])
      | Some digest =>
          taken ← take_session_lock env;
          return_if negb taken with mret (ESP_ERR_TIMEOUT, []) ;;
          current ← si_auth_credential_generation;
          return_if negb (expected_generation =? 0) && negb (expected_generation =? current)
            with mret (ESP_ERR_INVALID_STATE, []) ;;
          retained_init env;;
          filled ← sweep (fill_slot env (is_mcp_client client) m digest);
          return_if negb filled.1 with mret (ESP_ERR_NO_MEM, []) ;;
          retained_commit env;;
          revoked_sessions_apply (lease_reads env) filled.2;;
          mret (ESP_OK, out_token)
      end
  end.

Definition si_auth_create_session_for_generation env client expected_generation :=
  si_auth_create_session_for_method env client expected_generation
    (enum_val SI_AUTH_METHOD_PASSWORD).

Definition si_auth_create_session_for_client env client :=
  si_auth_create_session_for_generation env client 0.

Definition si_auth_create_session env := si_auth_create_session_for_client env None.

(** ** Validation *)

Definition context_of_session (s : auth_session_t) : si_auth_session_context_t :=
  mk_auth_context true (principal s) (method s) (capabilities s) (session_generation s)
    (created_us s) (strtrunc (SI_AUTH_SESSION_ID_MAX_LEN + 1) (session_id s)).

Fixpoint token_scan env (digest : list Z) (touch : bool) (n i : nat) (r : swept)
  : option si_auth_session_context_t * swept :=
  match n with
  | O => (None, r)
  | S n =>
      let '(expired, r) := expire_slot env i r in
      return_if expired with token_scan env digest touch n (S i) r ;;
      let s := session_at i r.1 in
      if used s && secure_equal digest (token_digest s) then
        let s := if touch then s <| last_seen_us := now_us env |> else s in
        (Some (context_of_session s), (put_session i s r.1, r.2))
      else token_scan env digest touch n (S i) r
  end.

Definition count_miss (missed : bool) : st auth_world unit :=
  on_auth (fun a => (tt,
    if missed then a <| validation_misses := u32 (validation_misses a + 1) |> else a)).

(** [context]: whether the pointer is not NULL. *)
Definition si_auth_token_get_context env (token : option cstring) (touch context : bool)
  : st auth_world (bool * si_auth_session_context_t) :=
  return_if negb (ptr_test (fun t => (length t =? SI_AUTH_TOKEN_LEN)%nat) token)
    with mret (false, anonymous_context) ;;
  ok ← (si_auth_is_enabled env &&&
        (e ← ensure_lock env; mret (bool_decide (e = ESP_OK) && context)));
  return_if negb ok with mret (false, anonymous_context) ;;
  match sha256_text token with
  | None => mret (false, anonymous_context)
  | Some digest =>
      taken ← take_session_lock env;
      return_if negb taken with mret (false, anonymous_context) ;;
      retained_init env;;
      found ← sweep (token_scan env digest touch AUTH_SESSION_SLOTS 0);
      count_miss (bool_decide (found.1 = None));;
      retained_commit env;;
      revoked_sessions_apply (lease_reads env) found.2;;
      mret (bool_decide (is_Some found.1), default anonymous_context found.1)
  end.

Fixpoint live_scan env (sid : cstring) (expected_generation : Z) (n i : nat) (r : swept)
  : option si_auth_session_context_t * swept :=
  match n with
  | O => (None, r)
  | S n =>
      let s := session_at i r.1 in
      return_if negb (used s) || negb (streq (session_id s) sid)
        with live_scan env sid expected_generation n (S i) r ;;
      let '(expired, r) := expire_slot env i r in
      return_if expired with (None, r) ;;
      return_if negb (session_generation s =? expected_generation) with (None, r) ;;
      (Some (context_of_session s), r)
  end.

Definition disabled_context : si_auth_session_context_t :=
  mk_auth_context true (enum_val SI_PRINCIPAL_BROWSER) (enum_val SI_AUTH_METHOD_PASSWORD)
    SI_CAPABILITIES_WEB_DEFAULT SI_AUTH_DISABLED_SESSION_GENERATION 0 (cstr "auth-disabled").

Definition si_auth_session_get_live_context env (sid : option cstring) (expected_generation : Z)
    (context : bool) : st auth_world (bool * si_auth_session_context_t) :=
  match sid with
  | None => mret (false, anonymous_context)
  | Some id =>
      return_if is_empty id || (expected_generation =? 0) || negb context
        with mret (false, anonymous_context) ;;
      enabled ← si_auth_is_enabled env;
      return_if negb enabled with
        (return_if negb (streq id (cstr "auth-disabled")) ||
                   negb (expected_generation =? SI_AUTH_DISABLED_SESSION_GENERATION)
           with mret (false, anonymous_context) ;;
         mret (true, disabled_context)) ;;
      locked ← ensure_lock env;
      return_if negb (bool_decide (locked = ESP_OK)) with mret (false, anonymous_context) ;;
      taken ← take_session_lock env;
      return_if negb taken with mret (false, anonymous_context) ;;
      retained_init env;;
      found ← sweep (live_scan env id expected_generation AUTH_SESSION_SLOTS 0);
      retained_commit env;;
      revoked_sessions_apply (lease_reads env) found.2;;
      mret (bool_decide (is_Some found.1), default anonymous_context found.1)
  end.

Definition si_auth_token_matches env token : st auth_world bool :=
  r ← si_auth_token_get_context env token true true; mret r.1.

Definition si_auth_token_is_mcp env token : st auth_world bool :=
  r ← si_auth_token_get_context env token false true;
  mret (r.1 && (ctx_principal r.2 =? enum_val SI_PRINCIPAL_MCP)).

Definition settings_browser (c : si_auth_session_context_t) : bool :=
  (ctx_principal c =? enum_val SI_PRINCIPAL_BROWSER) &&
  negb (Z.land (ctx_capabilities c) (capability_value SI_CAPABILITY_SETTINGS) =? 0).

Definition si_auth_token_is_browser env token : st auth_world bool :=
  r ← si_auth_token_get_context env token false true;
  mret (r.1 && settings_browser r.2).

(** [now]: the clock, read before the token is looked up. *)
Definition token_recent_browser env (now : Z) token (password_only : bool)
  : st auth_world bool :=
  r ← si_auth_token_get_context env token false true;
  mret (r.1 && settings_browser r.2 &&
        (negb password_only || (ctx_method r.2 =? enum_val SI_AUTH_METHOD_PASSWORD)) &&
        (0 <? authenticated_at_us r.2) && (authenticated_at_us r.2 <=? now) &&
        (now - authenticated_at_us r.2 <=? 60000000)).

Definition si_auth_token_is_recent env now token := token_recent_browser env now token false.
Definition si_auth_token_is_recent_password env now token :=
  token_recent_browser env now token true.

(** ** Revocation *)

Fixpoint digest_clear (digest : list Z) (n i : nat) (r : swept) : swept :=
  match n with
  | O => r
  | S n =>
      let s := session_at i r.1 in
      if used s && secure_equal digest (token_digest s) then session_clear_locked i r
      else digest_clear digest n (S i) r
  end.

Fixpoint clear_all (n i : nat) (r : swept) : swept :=
  match n with
  | O => r
  | S n => clear_all n (S i) (if used (session_at i r.1) then session_clear_locked i r else r)
  end.

(** The wait for the lock has no limit. *)
Definition si_auth_revoke_session env (token : option cstring) : st auth_world unit :=
  return_if bool_decide (token = None) with mret tt ;;
  locked ← ensure_lock env;
  return_if negb (bool_decide (locked = ESP_OK)) with mret tt ;;
  match sha256_text token with
  | None => mret tt
  | Some digest =>
      retained_init env;;
      cleared ← sweep (fun r => (tt, digest_clear digest AUTH_SESSION_SLOTS 0 r));
      retained_commit env;;
      revoked_sessions_apply (lease_reads env) cleared.2
  end.

Definition clear_sessions env : st auth_world auth_revoked_sessions_t :=
  retained_init env;;
  cleared ← sweep (fun r => (tt, clear_all AUTH_SESSION_SLOTS 0 r));
  retained_commit env;;
  mret cleared.2.

Definition si_auth_revoke_all_sessions env : st auth_world unit :=
  locked ← ensure_lock env;
  return_if negb (bool_decide (locked = ESP_OK)) with mret tt ;;
  revoked ← clear_sessions env;
  revoked_sessions_apply (lease_reads env) revoked.

(** ** The credential fence *)

(** The generation moves when the credentials of the device are replaced. *)
Definition next_credential_generation : st auth_world unit :=
  on_auth (fun a => (tt, a <| credential_generation := u32 (credential_generation a + 1) |>)).

(** A computation on the sessions, beside the state of the caller. *)
Definition beside {S A} (m : st auth_world A) : st (auth_world * S) A := fun ws =>
  let '(a, w) := m ws.1 in (a, (w, ws.2)).

(** [in_time]: the wait for the credentials' lock ends in time; [commit] works on
    the state of the caller. *)
Definition si_auth_security_commit {S} env (in_time : bool) (expected_generation : Z)
    (commit : option (st S esp_err_t)) : st (auth_world * S) esp_err_t :=
  exists_lock ← gets (fun ws => credentials_lock (auth (fst ws)));
  return_if negb (exists_lock && in_time) with mret ESP_ERR_TIMEOUT ;;
  current ← beside si_auth_credential_generation;
  return_if negb (expected_generation =? current) with mret ESP_ERR_INVALID_STATE ;;
  locked ← beside (ensure_lock env);
  return_if negb (bool_decide (locked = ESP_OK)) with mret ESP_FAIL ;;
  beside next_credential_generation;;
  revoked ← beside (clear_sessions env);
  result ← (match commit with
            | Some commit => fun ws => let '(e, s) := commit ws.2 in (e, (ws.1, s))
            | None => mret ESP_OK
            end);
  beside (revoked_sessions_apply (lease_reads env) revoked);;
  mret result.

(** ** Login failures *)

Definition si_auth_login_retry_after_ms env : st auth_world Z :=
  locked ← ensure_lock env;
  return_if negb (bool_decide (locked = ESP_OK) && lock_in_time env) with mret 0 ;;
  gets (fun w =>
    if now_us env <? lockout_until_us (auth w)
    then u32 ((lockout_until_us (auth w) - now_us env + 999) / 1000) else 0).

Definition record_failure (now : Z) (a : auth_state) : auth_state :=
  let restart := (failure_window_started_us a =? 0) ||
                 (AUTH_FAILURE_WINDOW_MS * 1000 <? now - failure_window_started_us a) in
  let a := if restart then (a <| failure_window_started_us := now |>) <| failure_count := 0 |>
           else a in
  let a := a <| failure_count := u32 (failure_count a + 1) |> in
  if AUTH_FAILURE_LIMIT <=? failure_count a
  then ((a <| lockout_until_us := now + AUTH_LOCKOUT_MS * 1000 |>) <| failure_count := 0 |>)
         <| failure_window_started_us := now |>
  else a.

Definition si_auth_record_login_failure env : st auth_world unit :=
  locked ← ensure_lock env;
  return_if negb (bool_decide (locked = ESP_OK) && lock_in_time env) with mret tt ;;
  on_auth (fun a => (tt, record_failure (now_us env) a)).

Definition si_auth_clear_login_failures env : st auth_world unit :=
  locked ← ensure_lock env;
  return_if negb (bool_decide (locked = ESP_OK) && lock_in_time env) with mret tt ;;
  on_auth (fun a => (tt, ((a <| failure_count := 0 |>) <| failure_window_started_us := 0 |>)
                           <| lockout_until_us := 0 |>)).

(** ** The status *)

Record si_auth_runtime_status_t := mk_runtime_status {
  browser_active : Z;
  mcp_active : Z;
  restored : Z;
  evictions : Z;
  expirations : Z;
  status_validation_misses : Z;
  status_lock_timeouts : Z
}.

(** Expired sessions are cleared; the browsers and the MCP clients are counted. *)
Fixpoint status_scan env (n i : nat) (browsers mcps : Z) (r : swept) : (Z * Z) * swept :=
  match n with
  | O => ((browsers, mcps), r)
  | S n =>
      let '(expired, r) := expire_slot env i r in
      let s := session_at i r.1 in
      return_if expired || negb (used s) with status_scan env n (S i) browsers mcps r ;;
      return_if principal s =? enum_val SI_PRINCIPAL_MCP
        with status_scan env n (S i) browsers (mcps + 1) r ;;
      return_if principal s =? enum_val SI_PRINCIPAL_BROWSER
        with status_scan env n (S i) (browsers + 1) mcps r ;;
      status_scan env n (S i) browsers mcps r
  end.

Definition si_auth_get_runtime_status env : st auth_world si_auth_runtime_status_t :=
  a ← gets auth;
  locked ← ensure_lock env;
  taken ← (if bool_decide (locked = ESP_OK) then take_session_lock env
           else on_auth (fun a => (false, a <| lock_timeouts := u32 (lock_timeouts a + 1) |>)));
  return_if negb taken with
    (late ← gets auth;
     mret (mk_runtime_status 0 0 (session_restores a) (session_evictions a)
             (session_expirations a) (validation_misses a) (lock_timeouts late))) ;;
  retained_init env;;
  counts ← sweep (status_scan env AUTH_SESSION_SLOTS 0 0 0);
  now ← gets auth;
  retained_commit env;;
  revoked_sessions_apply (lease_reads env) counts.2;;
  mret (mk_runtime_status counts.1.1 counts.1.2 (session_restores now) (session_evictions a)
          (session_expirations now) (validation_misses a) (lock_timeouts a)).

(** ** What happens to the sessions *)

(** The statics of another start of the firmware.  The retained memory keeps what
    it holds, or a loss of power leaves [memory] there. *)
Definition restarted (reason : esp_reset_reason_t) (memory : option auth_retained_state_t)
    (a : auth_state) : auth_state :=
  ((auth_started (login_disabled a) reason (default (retained a) memory))
     <| verifier := verifier a |>) <| setup_required := setup_required a |>.

Inductive auth_call :=
| Login (env : auth_env) (client : option cstring) (expected_generation raw_method : Z)
| Present (env : auth_env) (token : cstring) (touch : bool)
| Guard (env : auth_env) (sid : cstring) (gen : Z)
| Logout (env : auth_env) (token : cstring)
| LogoutAll (env : auth_env)
| Commit (env : auth_env) (in_time : bool) (expected_generation : Z)
| Status (env : auth_env)
| NewCredentials (v : cstring) (setup : bool)
| FailedLogin (env : auth_env)
| ForgiveFailures (env : auth_env)
| Listen (listener : Z)
| LeaseMoves (l : lease_world)
| Reset (reason : esp_reset_reason_t) (memory : option auth_retained_state_t) (l : lease_world).

(** A call, and the token it issued. *)
Definition auth_step (call : auth_call) : st auth_world (option cstring) :=
  match call with
  | Login env client gen m =>
      r ← si_auth_create_session_for_method env client gen m;
      mret (if bool_decide (r.1 = ESP_OK) then Some r.2 else None)
  | Present env token touch =>
      si_auth_token_get_context env (Some token) touch true;; mret None
  | Guard env sid gen => si_auth_session_get_live_context env (Some sid) gen true;; mret None
  | Logout env token => si_auth_revoke_session env (Some token);; mret None
  | LogoutAll env => si_auth_revoke_all_sessions env;; mret None
  | Commit env in_time gen => fun w =>
      let '(_, (w, _)) := si_auth_security_commit env in_time gen
                            (None : option (st unit esp_err_t)) (w, tt) in (None, w)
  | Status env => si_auth_get_runtime_status env;; mret None
  | NewCredentials v setup =>
      next_credential_generation;;
      on_auth (fun a => (None, (a <| verifier := v |>) <| setup_required := setup |>))
  | FailedLogin env => si_auth_record_login_failure env;; mret None
  | ForgiveFailures env => si_auth_clear_login_failures env;; mret None
  | Listen l => si_auth_add_session_revoked_listener (Some l);; mret None
  | LeaseMoves l => fun w => (None, w <| lease := l |>)
  | Reset reason memory l => fun w =>
      (None, mk_auth_world (restarted reason memory (auth w)) l [])
  end.

(** The world after the calls, and the tokens they issued. *)
Fixpoint auth_run (calls : list auth_call) (w : auth_world) : list cstring * auth_world :=
  match calls with
  | [] => ([], w)
  | call :: calls =>
      let '(token, w) := auth_step call w in
      let '(tokens, w) := auth_run calls w in
      (option_list token ++ tokens, w)
  end.
End calls.
