(* ===== verification/AuthSessionInvariant.v ===== *)
(** * The session table: how the calls may change it

    Every call but a login only clears sessions or moves their times; a login
    fills one slot of its kind.  The lemmas here say so for each loop and each
    call; the properties in [AuthSessionProps] follow by induction on calls. *)

From Stdlib Require Import String.
From S2P Require Import Prelude CText Hex Firmware Authorization.
From S2P Require Import HidOwner HidManager ControlLease AuthSession.

(** ** A session that is cleared, or keeps all but its times *)

Definition same_login (s s' : auth_session_t) : Prop :=
  used s' = true ->
  used s = true /\
  s' = (s <| created_us := created_us s' |>) <| last_seen_us := last_seen_us s' |>.

#[export] Instance same_login_refl : Reflexive same_login.
Proof. intros [] H. done. Qed.

#[export] Instance same_login_trans : Transitive same_login.
Proof.
  intros s1 s2 s3 H12 H23 H. destruct (H23 H) as [H2 ->]. destruct (H12 H2) as [H1 ->].
  split; [done | by destruct s1].
Qed.

Lemma same_login_cleared s : same_login s zero_session.
Proof. done. Qed.

Abbreviation evolves := (Forall2 same_login) (only parsing).
Abbreviation table a := (sessions (retained a)) (only parsing).

#[export] Instance evolves_trans : Transitive (Forall2 same_login).
Proof. apply _. Qed.

Lemma evolves_insert l i s' :
  same_login (default zero_session (l !! i)) s' -> evolves l (<[i := s']> l).
Proof.
  intros H. destruct (l !! i) as [s|] eqn:E.
  - rewrite <- (list_insert_id l i s E) at 1. by apply Forall2_insert.
  - by rewrite list_insert_ge by by apply lookup_ge_None.
Qed.

Lemma evolves_lookup l l' i s' :
  evolves l l' -> l' !! i = Some s' -> used s' = true ->
  exists s, l !! i = Some s /\ used s = true /\
    s' = (s <| created_us := created_us s' |>) <| last_seen_us := last_seen_us s' |>.
Proof.
  intros H E Hu. destruct (Forall2_lookup_r _ _ _ _ _ H E) as (s & Hs & Hsame).
  exists s. by destruct (Hsame Hu).
Qed.

Lemma evolves_cleared l : evolves l (replicate (length l) zero_session).
Proof. induction l as [|s l IH]; constructor; [apply same_login_cleared | done]. Qed.

(** ** The loops over the table *)

(** What the loops leave alone. *)
Definition sweep_frame (a : auth_state) :=
  (retained_initialized a, login_disabled a, reset_reason a, verifier a, setup_required a,
   credential_generation a, (credentials_lock a, session_lock a, next_generation (retained a),
   revoked_listeners a)).

Definition sweeps : relation swept := fun r r' =>
  evolves (table r.1) (table r'.1) /\ sweep_frame r'.1 = sweep_frame r.1.

#[export] Instance sweeps_refl : Reflexive sweeps.
Proof. intros r. by split. Qed.
#[export] Instance sweeps_trans : Transitive sweeps.
Proof. intros r1 r2 r3 [H1 E1] [H2 E2]. split; [by etrans | congruence]. Qed.

Lemma put_sweeps i s' a revoked revoked' :
  same_login (session_at i a) s' -> sweeps (a, revoked) (put_session i s' a, revoked').
Proof. intros H. split; [by apply evolves_insert | done]. Qed.

Lemma clear_sweeps i r : sweeps r (session_clear_locked i r).
Proof. destruct r as [a revoked]. apply put_sweeps, same_login_cleared. Qed.

Lemma expire_sweeps env i r : sweeps r (expire_slot env i r).2.
Proof.
  destruct r as [a revoked]. unfold expire_slot. case_if; [|done].
  destruct (clear_sweeps i (a, revoked)) as [H E]. by split.
Qed.

Lemma slot_scan_sweeps env n i slot oldest r :
  sweeps r (slot_scan env n i slot oldest r).2 /\
  match (slot_scan env n i slot oldest r).1 with
  | Some j => slot = Some j \/ (i <= j < i + n)%nat
  | None => slot = None
  end.
Proof.
  revert i slot oldest r. induction n as [|n IH]; intros i slot oldest r; cbn [slot_scan].
  { split; [done|]. destruct slot; [by left | done]. }
  pose proof (expire_sweeps env i r) as H. destruct (expire_slot env i r) as [b r1]. cbn [snd] in H.
  assert (Hrec : forall sl o, (sl = slot \/ sl = Some i) ->
    sweeps r (slot_scan env n (S i) sl o r1).2 /\
    match (slot_scan env n (S i) sl o r1).1 with
    | Some j => slot = Some j \/ (i <= j < i + S n)%nat
    | None => slot = None
    end).
  { intros sl o Hsl. destruct (IH (S i) sl o r1) as [H1 H2]. split; [by etrans|].
    destruct (slot_scan env n (S i) sl o r1).1 as [j|]; destruct Hsl as [-> | ->]; try done;
      destruct H2 as [H2|H2]; [by left | right; lia | injection H2 as ->; right; lia | right; lia]. }
  case_if; [split; [done | right; lia]|]. case_if; apply Hrec; auto.
Qed.

Lemma token_scan_sweeps env digest touch n i r : sweeps r (token_scan env digest touch n i r).2.
Proof.
  revert i r. induction n as [|n IH]; intros i r; cbn [token_scan]; [done|].
  pose proof (expire_sweeps env i r) as H. destruct (expire_slot env i r) as [b r1]. cbn [snd] in H.
  destruct b; [by etrans; [|apply IH]|]. case_if; [|by etrans; [|apply IH]].
  etrans; [exact H|]. destruct r1 as [a revoked]. apply put_sweeps. cbn [fst].
  destruct touch; [|done]. intros Hu. split; [exact Hu | by destruct (session_at i a)].
Qed.

Lemma live_scan_sweeps env sid gen n i r : sweeps r (live_scan env sid gen n i r).2.
Proof.
  revert i r. induction n as [|n IH]; intros i r; cbn [live_scan]; [done|]. case_if; [apply IH|].
  pose proof (expire_sweeps env i r) as H. destruct (expire_slot env i r) as [b r1]. cbn [snd] in H.
  by repeat case_if.
Qed.

Lemma digest_clear_sweeps digest n i r : sweeps r (digest_clear digest n i r).
Proof.
  revert i. induction n as [|n IH]; intros i; cbn [digest_clear]; [done|].
  case_if; [apply clear_sweeps | apply IH].
Qed.

Lemma clear_all_sweeps n i r : sweeps r (clear_all n i r).
Proof.
  revert i r. induction n as [|n IH]; intros i r; cbn [clear_all]; [done|].
  etrans; [|apply IH]. case_if; [apply clear_sweeps | done].
Qed.

Lemma status_scan_sweeps env n i b m r : sweeps r (status_scan env n i b m r).2.
Proof.
  revert i b m r. induction n as [|n IH]; intros i b m r; cbn [status_scan]; [done|].
  pose proof (expire_sweeps env i r) as H. destruct (expire_slot env i r) as [e r1]. cbn [snd] in H.
  repeat case_if; (etrans; [exact H | apply IH]).
Qed.

(** ** The memory that a run can rely on *)

Section memory.
Context (state_bytes : auth_retained_state_t -> list Z).

(** The table and the generation counter of this run, or those that the next
    initialization may restore. *)
Definition trusted (a : auth_state) : bool :=
  retained_initialized a || valid_memory state_bytes (retained a).

Definition live_table (a : auth_state) : list auth_session_t :=
  if trusted a then table a else replicate (length (table a)) zero_session.

Definition live_counter (a : auth_state) : Z :=
  if trusted a then next_generation (retained a) else 0.

Definition no_session (l : list auth_session_t) : Prop := Forall (fun s => used s = false) l.

(** The sessions evolve, and the counter stays unless none is left. *)
Definition quiet_auth : relation auth_state := fun a a' =>
  length (table a) = AUTH_SESSION_SLOTS ->
  evolves (live_table a) (live_table a') /\ length (table a') = AUTH_SESSION_SLOTS /\
  (live_counter a' = live_counter a \/ live_counter a' = 0 /\ no_session (live_table a')).

Lemma live_table_length a : length (live_table a) = length (table a).
Proof. unfold live_table. destruct (trusted a); [done | apply length_replicate]. Qed.

Lemma evolves_none l l' : evolves l l' -> no_session l -> no_session l'.
Proof.
  intros H Hn. apply Forall_lookup. intros i s Hs. apply not_true_is_false. intros Hu.
  destruct (evolves_lookup _ _ _ _ H Hs Hu) as (s0 & Hs0 & Hu0 & _).
  pose proof (proj1 (Forall_lookup _ _) Hn i s0 Hs0). congruence.
Qed.

Lemma no_session_cleared n : no_session (replicate n zero_session).
Proof. by apply Forall_replicate. Qed.

#[export] Instance quiet_auth_refl : Reflexive quiet_auth.
Proof. intros a Hl. split_and!; [done | done | by left]. Qed.
#[export] Instance quiet_auth_trans : Transitive quiet_auth.
Proof.
  intros a1 a2 a3 H12 H23 L. destruct (H12 L) as (H1 & L1 & C1).
  destruct (H23 L1) as (H2 & L2 & C2). split_and!; [by etrans | done |].
  destruct C2 as [E2|C2]; [|by right]. destruct C1 as [E1|[E1 N1]]; [left; congruence|].
  right. split; [congruence | by eapply evolves_none].
Qed.

Lemma quiet_frame a a' :
  retained a' = retained a -> retained_initialized a' = retained_initialized a -> quiet_auth a a'.
Proof.
  intros E1 E2 L. unfold live_table, live_counter, trusted. rewrite E1, E2.
  split_and!; [done | done | by left].
Qed.

Definition restored (now previous : Z) (l : list auth_session_t) : list auth_session_t :=
  map (fun s => default zero_session (restore_session now previous s)) l.

Lemma evolves_restored now previous l :
  evolves l (restored now previous l).
Proof.
  unfold restored.
  induction l as [|s l IH]; cbn [map]; constructor; [|done].
  unfold restore_session. case_if; [done|]. case_if; [apply same_login_cleared|].
  intros _. apply negb_false_iff in Heqb. by split; [|destruct s].
Qed.

Lemma init_cases env a :
  retained_initialized a = false ->
  let a' := retained_init_locked state_bytes env a in
  retained_initialized a' = true /\
  if restorable state_bytes (reset_reason a) (retained a)
  then table a' = restored (init_us env) (clock_us (retained a)) (table a) /\
       next_generation (retained a') = next_generation (retained a)
  else table a' = replicate AUTH_SESSION_SLOTS zero_session /\ next_generation (retained a') = 0.
Proof. intros Hi. unfold retained_init_locked. rewrite Hi. by destruct (restorable _ _ _). Qed.

Lemma init_quiet env a :
  quiet_auth a (retained_init_locked state_bytes env a) /\
  retained_initialized (retained_init_locked state_bytes env a) = true.
Proof.
  destruct (retained_initialized a) eqn:Hi.
  { unfold retained_init_locked. by rewrite Hi. }
  destruct (init_cases env a Hi) as [Hi' Hc]. split; [|done]. intros Hl.
  unfold live_table, live_counter, trusted. rewrite Hi, Hi'. cbn [orb].
  unfold restorable in Hc. rewrite Hl. destruct (valid_memory state_bytes (retained a)).
  - rewrite andb_true_r in Hc. destruct (retained_reset_allowed _), Hc as [-> ->].
    + split_and!; [apply evolves_restored | by unfold restored; rewrite length_map, Hl | by left].
    + rewrite <- Hl. split_and!; [apply evolves_cleared | apply length_replicate |].
      right. split; [done | apply no_session_cleared].
  - rewrite andb_false_r in Hc. destruct Hc as [-> ->].
    split_and!; [done | apply length_replicate | by left].
Qed.

(** ** Under the lock *)

(** Once initialized: the sessions evolve and the counter stays. *)
Definition settled_auth : relation auth_state := fun a a' =>
  retained_initialized a = true ->
  retained_initialized a' = true /\ evolves (table a) (table a') /\
  next_generation (retained a') = next_generation (retained a).

#[export] Instance settled_auth_refl : Reflexive settled_auth.
Proof. intros a H. by split_and!. Qed.
#[export] Instance settled_auth_trans : Transitive settled_auth.
Proof.
  intros a1 a2 a3 H1 H2 H. destruct (H1 H) as (I2 & E2 & G2). destruct (H2 I2) as (I3 & E3 & G3).
  split_and!; [done | by etrans | congruence].
Qed.

Lemma settled_quiet a a' :
  settled_auth a a' -> retained_initialized a = true -> quiet_auth a a'.
Proof.
  intros H Hi L. destruct (H Hi) as (Hi' & He & Hg).
  unfold live_table, live_counter, trusted. rewrite Hi, Hi'. cbn [orb].
  split_and!; [done | by rewrite <- (Forall2_length _ _ _ He) | by left].
Qed.

(** ** On the world of a call *)

Definition on_auth_rel (R : relation auth_state) : relation auth_world := fun w w' =>
  R (auth w) (auth w').

#[export] Instance on_auth_refl R `{!Reflexive R} : Reflexive (on_auth_rel R).
Proof. intros w. unfold on_auth_rel. reflexivity. Qed.
#[export] Instance on_auth_trans R `{!Transitive R} : Transitive (on_auth_rel R).
Proof. intros w1 w2 w3 H1 H2. unfold on_auth_rel in *. by etrans. Qed.

Lemma on_auth_moves {A} (R : relation auth_state) (f : auth_state -> A * auth_state) :
  (forall a, R a (f a).2) -> moves (on_auth_rel R) (on_auth f).
Proof.
  intros H w. unfold on_auth, on_auth_rel. specialize (H (auth w)).
  by destruct (f (auth w)) as [x a].
Qed.

Lemma wp_on_auth {A} (f : auth_state -> A * auth_state) (Q : A -> auth_world -> Prop) w :
  Q (f (auth w)).1 (w <| auth := (f (auth w)).2 |>) -> wp (on_auth f) Q w.
Proof. unfold wp, on_auth. by destruct (f (auth w)). Qed.

Lemma on_lease_moves {A} R `{!Reflexive R} (m : st lease_world A) :
  moves (on_auth_rel R) (on_lease m).
Proof.
  intros w. unfold on_lease, on_auth_rel. destruct (m (lease w)) as [x l].
  change (R (auth w) (auth w)). reflexivity.
Qed.

Lemma notify_moves R `{!Reflexive R} sid gen : moves (on_auth_rel R) (notify sid gen).
Proof. intros w. change (R (auth w) (auth w)). reflexivity. Qed.

Lemma apply_moves R `{!Reflexive R, !Transitive R} reads revoked :
  moves (on_auth_rel R) (revoked_sessions_apply reads revoked).
Proof.
  revert reads. induction revoked as [|[sid gen] revoked IH]; intros reads; [apply moves_ret, _|].
  apply moves_bind; [apply _ | by apply on_lease_moves |]. intros _.
  apply moves_bind; [apply _ | by apply notify_moves |]. intros _. apply IH.
Qed.

(** A part of a call that runs under the lock, after the initialization. *)
Lemma after_init {A} env (m : st auth_world A) :
  moves (on_auth_rel settled_auth) m ->
  moves (on_auth_rel quiet_auth) (retained_init state_bytes env;; m).
Proof.
  intros H w. unfold bind, retained_init, on_auth.
  destruct (init_quiet env (auth w)) as [Hq Hi].
  set (w1 := w <| auth := retained_init_locked state_bytes env (auth w) |>).
  specialize (H w1). change (quiet_auth (auth w) (auth (m w1).2)).
  etrans; [exact Hq|]. by apply settled_quiet.
Qed.

Lemma commit_settled env : moves (on_auth_rel settled_auth) (retained_commit state_bytes env).
Proof. apply on_auth_moves. intros a Hi. by split_and!. Qed.

Lemma sweep_settled {A} (f : swept -> A * swept) :
  (forall r, sweeps r (f r).2) -> moves (on_auth_rel settled_auth) (sweep f).
Proof.
  intros H. apply on_auth_moves. intros a Hi. specialize (H (a, [])).
  destruct (f (a, [])) as [x [a' revoked]]. destruct H as [He Hf]. cbn [fst snd] in *.
  unfold sweep_frame in Hf. split_and!; [congruence | done | congruence].
Qed.

Lemma quiet_moves {A} (f : auth_state -> A * auth_state) :
  (forall a, retained (f a).2 = retained a /\ retained_initialized (f a).2 = retained_initialized a) ->
  moves (on_auth_rel quiet_auth) (on_auth f).
Proof. intros H. apply on_auth_moves. intros a. by apply quiet_frame; apply H. Qed.

Lemma count_settled missed : moves (on_auth_rel settled_auth) (count_miss missed).
Proof. apply on_auth_moves. intros a Hi. by destruct missed; split_and!. Qed.
End memory.

#[export] Hint Resolve apply_moves commit_settled count_settled : firmware.
#[export] Hint Resolve quiet_auth_refl quiet_auth_trans settled_auth_refl settled_auth_trans
  on_auth_refl on_auth_trans : core.

Section calls.
Context (state_bytes : auth_retained_state_t -> list Z).
Context (mbedtls_sha256 : list Z -> option (list Z)).
Implicit Types env : auth_env.

Abbreviation quiet := (on_auth_rel (quiet_auth state_bytes)).

Lemma frame_moves env :
  moves quiet (ensure_lock env) /\ moves quiet (take_session_lock env) /\
  moves quiet next_credential_generation /\
  (forall l, moves quiet (si_auth_add_session_revoked_listener l)) /\
  moves quiet (si_auth_record_login_failure env) /\
  moves quiet (si_auth_clear_login_failures env).
Proof.
  assert (Hl : moves quiet (ensure_lock env)) by (apply quiet_moves; intros a; by case_if).
  split_and!; [done|..].
  - apply quiet_moves. intros a. by destruct (lock_in_time env).
  - by apply quiet_moves.
  - intros [l|]; [|apply moves_ret, _]. apply quiet_moves. intros a.
    by destruct (list_find _ _) as [[]|].
  - apply moves_bind; [apply _ | done |]. intros e. case_if; [apply moves_ret, _|].
    apply quiet_moves. intros a. unfold record_failure. by repeat case_if.
  - apply moves_bind; [apply _ | done |]. intros e. case_if; [apply moves_ret, _|].
    by apply quiet_moves.
Qed.

Ltac auth_go :=
  repeat (cbv beta; first
    [ assumption | solve [eauto 2 with firmware]
    | match goal with
      | |- moves _ (bind (retained_init _ _) _) => apply after_init
      | |- moves _ (sweep _) => apply sweep_settled; intros ?
      end
    | moves_step ]).

Lemma calls_quiet env :
  (forall token touch out,
     moves quiet (si_auth_token_get_context state_bytes mbedtls_sha256 env token touch out)) /\
  (forall sid gen out, moves quiet (si_auth_session_get_live_context state_bytes env sid gen out)) /\
  (forall token, moves quiet (si_auth_revoke_session state_bytes mbedtls_sha256 env token)) /\
  moves quiet (si_auth_revoke_all_sessions state_bytes env) /\
  moves quiet (clear_sessions state_bytes env) /\
  moves quiet (si_auth_get_runtime_status state_bytes env).
Proof.
  destruct (frame_moves env) as (Hl & Ht & _).
  assert (He : moves quiet (si_auth_is_enabled env)).
  { unfold si_auth_is_enabled. auth_go. }
  assert (Hc : moves quiet (clear_sessions state_bytes env)).
  { unfold clear_sessions. auth_go. apply clear_all_sweeps. }
  split_and!.
  - intros token touch out. unfold si_auth_token_get_context. auth_go. apply token_scan_sweeps.
  - intros sid gen out. unfold si_auth_session_get_live_context. auth_go. apply live_scan_sweeps.
  - intros token. unfold si_auth_revoke_session. auth_go. apply digest_clear_sweeps.
  - unfold si_auth_revoke_all_sessions. auth_go.
  - done.
  - unfold si_auth_get_runtime_status. auth_go; [by apply quiet_moves|]. apply status_scan_sweeps.
Qed.

(** ** The credential fence *)

Definition quiet_beside {S} : relation (auth_world * S) := fun ws ws' => quiet ws.1 ws'.1.

#[local] Instance quiet_beside_refl S : Reflexive (@quiet_beside S).
Proof. intros ws. unfold quiet_beside. reflexivity. Qed.
#[local] Instance quiet_beside_trans S : Transitive (@quiet_beside S).
Proof. intros w1 w2 w3 H1 H2. unfold quiet_beside in *. by etrans. Qed.

Lemma beside_moves {S A} (m : st auth_world A) :
  moves quiet m -> moves (@quiet_beside S) (beside m).
Proof. intros H [w s]. unfold beside, quiet_beside. specialize (H w). cbn [fst]. destruct (m w). exact H. Qed.

Lemma security_commit_quiet {S} env in_time gen (commit : option (st S esp_err_t)) :
  moves quiet_beside (si_auth_security_commit state_bytes env in_time gen commit).
Proof.
  destruct (frame_moves env) as (Hl & _ & Hn & _), (calls_quiet env) as (_ & _ & _ & _ & Hc & _).
  unfold si_auth_security_commit.
  repeat (cbv beta; first
    [ match goal with |- moves _ (beside _) => apply beside_moves; auto with firmware end
    | moves_step ]).
  intros [w x]. unfold quiet_beside. cbn [fst snd]. destruct (s x). cbn [fst snd]. reflexivity.
Qed.

(** ** Logins *)

(** The slots of a kind of client. *)
Definition slot_of_kind (is_mcp : bool) (slot : nat) : Prop :=
  if is_mcp then (AUTH_BROWSER_SESSION_SLOTS <= slot < AUTH_SESSION_SLOTS)%nat
  else (slot < AUTH_BROWSER_SESSION_SLOTS)%nat.

(** The table [l'] is [l] with a login in one of its slots. *)
Definition logged_in env (is_mcp : bool) (m : si_auth_method_t) (digest : list Z) (gen : Z)
    (l l' : list auth_session_t) : Prop :=
  exists l1 slot, evolves l l1 /\ slot_of_kind is_mcp slot /\
    l' = <[slot := new_session env is_mcp m digest gen]> l1.

Lemma fill_slot_spec env is_mcp m digest r :
  let '(ok, r') := fill_slot env is_mcp m digest r in
  if ok then
    retained_initialized r'.1 = retained_initialized r.1 /\
    next_generation (retained r'.1) = bump (next_generation (retained r.1)) /\
    logged_in env is_mcp m digest (bump (next_generation (retained r.1))) (table r.1) (table r'.1)
  else sweeps r r'.
Proof.
  unfold fill_slot.
  pose proof (slot_scan_sweeps env
    (if is_mcp then AUTH_MCP_SESSION_SLOTS else AUTH_BROWSER_SESSION_SLOTS)
    (if is_mcp then AUTH_BROWSER_SESSION_SLOTS else 0%nat) None INT64_MAX r) as [H Hs].
  destruct (slot_scan env _ _ None INT64_MAX r) as [[slot|] [a revoked]]; [|done].
  cbn [fst snd] in *. destruct Hs as [?|Hs]; [done|]. destruct H as [He Hf].
  unfold sweep_frame in Hf. cbn [fst] in He, Hf.
  unfold next_session_generation_locked. cbn [fst].
  assert (E : retained (if used (session_at slot a)
                        then a <| session_evictions := u32 (session_evictions a + 1) |> else a) =
              retained a) by by case_if.
  rewrite E. cbn [fst]. change (if u32 (next_generation (retained a) + 1) =? 0 then 1
    else u32 (next_generation (retained a) + 1)) with (bump (next_generation (retained a))).
  assert (next_generation (retained a) = next_generation (retained r.1)) as -> by congruence.
  split_and!.
  - case_if; cbn; congruence.
  - reflexivity.
  - exists (table a), slot. split_and!; [done | |].
    + destruct is_mcp; cbn in *; unfold AUTH_SESSION_SLOTS, AUTH_BROWSER_SESSION_SLOTS,
        AUTH_MCP_SESSION_SLOTS in *; lia.
    + reflexivity.
Qed.

(** What neither the commit nor the listeners touch. *)
Definition steady (a : auth_state) : list auth_session_t * Z * bool :=
  (table a, next_generation (retained a), retained_initialized a).

(** A login either leaves the sessions as every call does, or it issues a token and
    fills a slot under the next generation. *)
Definition login_result env (client : option cstring) (raw_method : Z) (w : auth_world)
    (r : esp_err_t * cstring) (w' : auth_world) : Prop :=
  r.1 <> ESP_OK /\ quiet w w' \/
  r.1 = ESP_OK /\ r.2 = hex_text (random_token env) /\
  exists m digest a, enum_of_Z raw_method = Some m /\ mbedtls_sha256 r.2 = Some digest /\
    quiet_auth state_bytes (auth w) a /\
    retained_initialized (auth w') = true /\
    live_counter state_bytes (auth w') = bump (live_counter state_bytes a) /\
    logged_in env (is_mcp_client client) m digest (bump (live_counter state_bytes a))
      (live_table state_bytes a) (live_table state_bytes (auth w')).

Lemma login_spec env client gen raw_method w :
  wp (si_auth_create_session_for_method state_bytes mbedtls_sha256 env client gen raw_method)
    (login_result env client raw_method w) w.
Proof.
  destruct (frame_moves env) as (Hl & Ht & _).
  assert (Hq : forall w', quiet w w' -> forall e t, e <> ESP_OK -> login_result env client raw_method w (e, t) w').
  { intros w' H e t He. by left. }
  assert (Hstep : forall {A} (m : st auth_world A) w1 (Q : A -> auth_world -> Prop),
    moves quiet m -> quiet w w1 -> (forall a w2, quiet w w2 -> Q a w2) -> wp m Q w1).
  { intros A m w1 Q Hm H1 H2. apply H2. etrans; [exact H1 | apply Hm]. }
  unfold si_auth_create_session_for_method, si_auth_is_enabled.
  apply wp_bind, wp_bind. eapply Hstep; [exact Hl | reflexivity |]. intros _ w1 H1.
  apply wp_gets. cbv beta. apply wp_bind, wp_gets. cbv beta. apply wp_bind, wp_gets. cbv beta.
  destruct (enum_of_Z raw_method) as [m|] eqn:Em; [|apply wp_ret; by apply Hq].
  case_if; [apply wp_ret; by apply Hq|].
  apply wp_bind. eapply Hstep; [exact Hl | exact H1 |]. intros e w2 H2.
  case_if; [apply wp_ret, Hq; [done | by apply negb_true_iff, bool_decide_eq_false in Heqb0]|].
  cbn [sha256_text]. destruct (mbedtls_sha256 _) as [digest|] eqn:Ed; [|apply wp_ret; by apply Hq].
  apply wp_bind. eapply Hstep; [exact Ht | exact H2 |]. intros taken w3 H3.
  case_if; [apply wp_ret; by apply Hq|].
  apply wp_bind, wp_gets. cbv beta. case_if; [apply wp_ret; by apply Hq|].
  apply wp_bind, wp_on_auth. cbn [fst snd].
  destruct (init_quiet state_bytes env (auth w3)) as [Hq4 Hi4].
  set (w4 := w3 <| auth := retained_init_locked state_bytes env (auth w3) |>) in *.
  assert (H4 : quiet w w4) by by (etrans; [exact H3|]).
  change (retained_initialized (auth w4) = true) in Hi4.
  apply wp_bind, wp_on_auth.
  pose proof (fill_slot_spec env (is_mcp_client client) m digest (auth w4, [])) as Hf.
  destruct (fill_slot env (is_mcp_client client) m digest (auth w4, [])) as [filled [a revoked]].
  cbn [fst snd] in *. destruct filled; cbn [negb].
  - destruct Hf as (Hi & Hg & Hin). rewrite Hi4 in Hi.
    set (w5 := w4 <| auth := a |>).
    apply wp_bind, wp_on_auth. apply wp_bind. unfold wp at 1.
    set (w6 := w5 <| auth := _ |>).
    pose proof (apply_moves (same steady) (lease_reads env) revoked w6) as H6.
    set (w7 := (revoked_sessions_apply (lease_reads env) revoked w6).2) in *.
    assert (E7 : steady (auth w7) = steady a) by by rewrite H6.
    apply wp_ret. right. split_and!; [done | done |]. cbn [snd].
    exists m, digest, (auth w4). unfold steady in E7. injection E7 as E1 E2 E3.
    unfold live_counter, live_table, trusted. rewrite E1, E2, E3, Hi, Hi4. cbn [orb].
    by split_and!.
  - apply wp_ret, Hq; [|done]. etrans; [exact H4|]. unfold on_auth_rel. cbn [auth set].
    apply settled_quiet; [|done]. intros _. destruct Hf as [He Hf]. unfold sweep_frame in Hf.
    cbn [fst] in He, Hf. change (auth w4 <| auth := a |>) with a. 
    split_and!; [congruence | done | congruence].
Qed.

(** ** A call, and calls in sequence *)

(** A loss of power leaves a memory of the same size that no run has written. *)
Definition auth_call_ok (call : auth_call) : Prop :=
  match call with
  | Reset _ (Some memory) _ =>
      length (sessions memory) = AUTH_SESSION_SLOTS /\ valid_memory state_bytes memory = false
  | _ => True
  end.

Lemma reset_quiet reason memory l w :
  auth_call_ok (Reset reason memory l) ->
  quiet w (mk_auth_world (restarted reason memory (auth w)) l []).
Proof.
  intros H L. set (kept := default (retained (auth w)) memory).
  assert (E : trusted state_bytes (restarted reason memory (auth w)) = valid_memory state_bytes kept /\
              retained (restarted reason memory (auth w)) = kept) by done.
  cbn [auth]. unfold live_table at 2 3, live_counter at 1 3. destruct E as [-> ->].
  destruct memory as [memory|].
  - change kept with memory. destruct H as [Hl ->]. rewrite Hl.
    split_and!; [|done | right; split; [done | apply no_session_cleared]].
    rewrite <- L, <- (live_table_length state_bytes). apply evolves_cleared.
  - change kept with (retained (auth w)). unfold live_table, live_counter, trusted.
    destruct (valid_memory state_bytes (retained (auth w))).
    + rewrite orb_true_r. split_and!; [done | done | by left].
    + rewrite orb_false_r. split_and!; [|done | right; split; [done | apply no_session_cleared]].
      destruct (retained_initialized (auth w)); [apply evolves_cleared | done].
Qed.

Lemma step_effect call w :
  auth_call_ok call ->
  let r := auth_step state_bytes mbedtls_sha256 call w in
  r.1 = None /\ quiet w r.2 \/
  exists env client gen raw_method tok,
    call = Login env client gen raw_method /\ r.1 = Some tok /\
    login_result env client raw_method w (ESP_OK, tok) r.2.
Proof.
  assert (Hm : forall {A} (m : st auth_world A) (f : A -> option cstring),
    moves quiet m -> (forall a, f a = None) ->
    let r := bind m (fun a => mret (f a)) w in r.1 = None /\ quiet w r.2).
  { intros A m f H Hf. specialize (H w). unfold bind. destruct (m w) as [a w']. split; [apply Hf | exact H]. }
  intros Hok.
  destruct call as [env client gen m|env token touch|env sid gen|env token|env|env in_time gen
                   |env|v setup|env|env|l|l|reason memory l]; cbn [auth_step];
    try (destruct (calls_quiet env) as (H1 & H2 & H3 & H4 & H5 & H6);
         destruct (frame_moves env) as (_ & _ & _ & _ & F5 & F6)).
  - pose proof (login_spec env client gen m w) as H. unfold wp in H. unfold bind.
    destruct (si_auth_create_session_for_method _ _ env client gen m w) as [[e tok] w'].
    cbn [fst snd] in H. cbn. case_bool_decide as He.
    + subst e. right. by exists env, client, gen, m, tok.
    + left. split; [done|]. by destruct H as [[_ H]|[H _]].
  - left. by apply (Hm _ _ (fun _ => None)).
  - left. by apply (Hm _ _ (fun _ => None)).
  - left. by apply (Hm _ _ (fun _ => None)).
  - left. by apply (Hm _ _ (fun _ => None)).
  - left. pose proof (security_commit_quiet env in_time gen (None : option (st unit esp_err_t)) (w, tt)) as H.
    cbn zeta. destruct (si_auth_security_commit _ _ _ _ _ _) as [e [w' []]]. by split.
  - left. by apply (Hm _ _ (fun _ => None)).
  - left. split; [done|]. by apply (quiet_frame state_bytes).
  - left. by apply (Hm _ _ (fun _ => None)).
  - left. by apply (Hm _ _ (fun _ => None)).
  - left. apply (Hm _ _ (fun _ => None)); [|done].
    destruct (frame_moves (mk_auth_env 0 0 false false (mk_settings false 0) [] (0, 0)
      (fun _ => mk_env false false 0))) as (_ & _ & _ & F & _). apply (F (Some l)).
  - left. split; [done|]. unfold on_auth_rel. reflexivity.
  - left. split; [done|]. by apply reset_quiet.
Qed.

(** What the quiet calls and the logins keep, every sequence of calls keeps; the
    invariant may speak of the tokens issued so far. *)
Lemma run_ind (I : list cstring -> auth_world -> Prop) :
  (forall issued w w', I issued w -> quiet w w' -> I issued w') ->
  (forall issued env client raw_method tok w w', I issued w ->
     login_result env client raw_method w (ESP_OK, tok) w' -> I (issued ++ [tok]) w') ->
  forall calls issued w, Forall auth_call_ok calls -> I issued w ->
  let '(tokens, w') := auth_run state_bytes mbedtls_sha256 calls w in I (issued ++ tokens) w'.
Proof.
  intros Hquiet Hlogin calls issued w H. revert issued w.
  induction H as [|call calls Hc _ IH]; intros issued w Hi; cbn [auth_run].
  { by rewrite app_nil_r. }
  pose proof (step_effect call w Hc) as Hs.
  destruct (auth_step _ _ call w) as [token w1]. cbn [fst snd] in Hs.
  assert (Hi1 : I (issued ++ option_list token) w1).
  { destruct Hs as [[-> Hq]|(env & client & gen & m & tok & _ & -> & Hr)].
    - cbn. rewrite app_nil_r. by eapply Hquiet.
    - by eapply Hlogin. }
  specialize (IH _ _ Hi1). destruct (auth_run _ _ calls w1) as [tokens w2]. by rewrite app_assoc.
Qed.
End calls.
