(* ===== verification/AuthSessionProps.v ===== *)
(** * Login sessions: properties

    The session table is well typed in every reachable state; a token is accepted
    exactly when a live session carries it; what fences and logouts end. *)

From Stdlib Require Import String.
From S2P Require Import Prelude CText Hex Firmware Authorization.
From S2P Require Import HidOwner HidManager HidManagerInvariant ControlLease ControlLeaseProps.
From S2P Require Import AuthSession AuthSessionInvariant.

(** ** Constant-time comparison *)

Lemma secure_equal_eq a b :
  Forall is_byte a -> Forall is_byte b -> length a = length b ->
  secure_equal a b = true <-> a = b.
Proof.
  intros Ha Hb Hl. unfold secure_equal. rewrite Z.eqb_eq, lor_fold_zero, Hl, Z.lxor_nilpotent.
  rewrite Nat.max_id. split.
  - intros [_ H]. apply list_eq. intros i. destruct (decide (i < length b)%nat) as [Hi|Hi].
    + destruct (lookup_lt_is_Some_2 a i) as [x Hx]; [lia|]. destruct (lookup_lt_is_Some_2 b i) as [y Hy]; [lia|].
      rewrite Hx, Hy. f_equal. rewrite Forall_forall in H.
      specialize (H i). rewrite (nth_lookup_Some a i 0 x Hx), (nth_lookup_Some b i 0 y Hy) in H.
      apply byte_lxor_zero; [exact (Forall_lookup_1 _ _ _ _ Ha Hx) | exact (Forall_lookup_1 _ _ _ _ Hb Hy) |].
      apply H. apply elem_of_seq. lia.
    + by rewrite !lookup_ge_None_2 by lia.
  - intros ->. split; [done|]. apply Forall_true. intros i. by rewrite Z.lxor_nilpotent.
Qed.

(** ** Well-typed tables *)

(** A slot below [AUTH_BROWSER_SESSION_SLOTS] is a browser's, the others are MCP
    clients', each with the capabilities of its kind. *)
Record session_typed (i : nat) (s : auth_session_t) : Prop := mk_session_typed {
  typed_principal : principal s = enum_val
    (if decide (i < AUTH_BROWSER_SESSION_SLOTS)%nat then SI_PRINCIPAL_BROWSER else SI_PRINCIPAL_MCP);
  typed_capabilities : capabilities s =
    if decide (i < AUTH_BROWSER_SESSION_SLOTS)%nat then SI_CAPABILITIES_WEB_DEFAULT
    else SI_CAPABILITIES_MCP_DEFAULT;
  typed_method : is_Some (enum_of_Z (E := si_auth_method_t) (method s));
  typed_generation : 1 <= session_generation s < 2 ^ 32;
  typed_id : session_id s <> [] /\ (length (session_id s) <= SI_AUTH_SESSION_ID_MAX_LEN)%nat;
  typed_digest : length (token_digest s) = AUTH_VERIFIER_BYTES /\ Forall is_byte (token_digest s)
}.

Definition table_typed (l : list auth_session_t) : Prop :=
  length l = AUTH_SESSION_SLOTS /\
  forall i s, l !! i = Some s -> used s = true -> session_typed i s.

(** Live sessions have generations of their own, none above the counter. *)
Definition generations_apart (counter : Z) (l : list auth_session_t) : Prop :=
  0 <= counter /\
  (forall i s, l !! i = Some s -> used s = true -> session_generation s <= counter) /\
  (forall i j s t, l !! i = Some s -> l !! j = Some t -> used s = true -> used t = true ->
     session_generation s = session_generation t -> i = j).

Lemma same_typed i s s' :
  s' = (s <| created_us := created_us s' |>) <| last_seen_us := last_seen_us s' |> ->
  session_typed i s -> session_typed i s'.
Proof. intros -> []. by split. Qed.

Lemma evolves_typed l l' : Forall2 same_login l l' -> table_typed l -> table_typed l'.
Proof.
  intros H [Hl Ht]. split; [by rewrite <- (Forall2_length _ _ _ H)|].
  intros i s' Hs' Hu. destruct (evolves_lookup _ _ _ _ H Hs' Hu) as (s & Hs & Hus & E).
  eapply same_typed; eauto.
Qed.

Lemma evolves_apart c l l' :
  Forall2 same_login l l' -> generations_apart c l -> generations_apart c l'.
Proof.
  intros H (Hc & H1 & H2). split_and!; [done | |].
  - intros i s' Hs' Hu. destruct (evolves_lookup _ _ _ _ H Hs' Hu) as (s & Hs & Hus & ->).
    exact (H1 i s Hs Hus).
  - intros i j s' t' Hs' Ht' Hu Hv.
    destruct (evolves_lookup _ _ _ _ H Hs' Hu) as (s & Hs & Hus & ->).
    destruct (evolves_lookup _ _ _ _ H Ht' Hv) as (t & Ht & Hut & ->).
    exact (H2 i j s t Hs Ht Hus Hut).
Qed.

Lemma none_apart c l : 0 <= c -> no_session l -> generations_apart c l.
Proof.
  intros Hc Hn. assert (Hno : forall i s, l !! i = Some s -> used s <> true).
  { intros i s Hs Hu. pose proof (proj1 (Forall_lookup _ _) Hn i s Hs). congruence. }
  split_and!; [done | |].
  - intros i s Hs Hu. by destruct (Hno i s Hs).
  - intros i j s t Hs _ Hu. by destruct (Hno i s Hs).
Qed.

Lemma none_typed l : length l = AUTH_SESSION_SLOTS -> no_session l -> table_typed l.
Proof.
  intros Hl Hn. split; [done|]. intros i s Hs Hu. pose proof (proj1 (Forall_lookup _ _) Hn i s Hs).
  congruence.
Qed.

(** ** Tables under a login *)

Lemma new_session_typed env is_mcp m digest gen slot :
  slot_of_kind is_mcp slot -> 1 <= gen < 2 ^ 32 ->
  length digest = AUTH_VERIFIER_BYTES -> Forall is_byte digest ->
  session_typed slot (new_session env is_mcp m digest gen).
Proof.
  intros Hs Hg Hl Hd. unfold slot_of_kind in Hs.
  assert (Hk : (slot < AUTH_BROWSER_SESSION_SLOTS)%nat <-> is_mcp = false).
  { destruct is_mcp; split; intros; first [done | exfalso; lia]. }
  split; cbn [new_session principal capabilities method session_generation session_id token_digest].
  - by destruct is_mcp, (decide _) as [H|H]; [apply Hk in H | | | destruct H; apply Hk].
  - by destruct is_mcp, (decide _) as [H|H]; [apply Hk in H | | | destruct H; apply Hk].
  - by rewrite enum_of_val.
  - done.
  - unfold SI_AUTH_SESSION_ID_MAX_LEN.
    rewrite strtrunc_id; rewrite !length_app, !hex32_length; [split; [done | cbn; lia] | cbn; lia].
  - done.
Qed.

Section calls.
Context (state_bytes : auth_retained_state_t -> list Z).
Context (mbedtls_sha256 : list Z -> option (list Z)).

(** SHA-256 gives 32 bytes. *)
Context (sha256_bytes : forall text digest, mbedtls_sha256 text = Some digest ->
  length digest = AUTH_VERIFIER_BYTES /\ Forall is_byte digest).

Abbreviation run := (auth_run state_bytes mbedtls_sha256) (only parsing).

(** The world after a power-on: no run has written the retained memory. *)
Definition powered_on (w : auth_world) : Prop :=
  exists disabled reason memory, auth w = auth_started disabled reason memory /\
    length (sessions memory) = AUTH_SESSION_SLOTS /\ valid_memory state_bytes memory = false.

Lemma powered_on_none w :
  powered_on w ->
  length (sessions (retained (auth w))) = AUTH_SESSION_SLOTS /\
  no_session (live_table state_bytes (auth w)) /\ live_counter state_bytes (auth w) = 0.
Proof.
  intros (disabled & reason & memory & -> & Hl & Hv).
  unfold live_table, live_counter, trusted. cbn [auth_started retained retained_initialized orb].
  rewrite Hv. split_and!; [done | apply no_session_cleared | done].
Qed.

Lemma logged_in_typed env is_mcp m digest gen l l' :
  logged_in env is_mcp m digest gen l l' -> 1 <= gen < 2 ^ 32 ->
  length digest = AUTH_VERIFIER_BYTES -> Forall is_byte digest -> table_typed l -> table_typed l'.
Proof using.
  intros (l1 & slot & He & Hs & ->) Hg Hl Hd Ht. destruct (evolves_typed _ _ He Ht) as [L1 T1].
  split; [by rewrite length_insert|]. intros i s Hi Hu.
  apply list_lookup_insert_Some in Hi as [(<- & <- & _)|[_ Hi]]; [by apply new_session_typed|].
  by apply T1.
Qed.

Lemma logged_in_apart env is_mcp m digest c l l' :
  logged_in env is_mcp m digest (bump c) l l' -> 0 <= c < UINT32_MAX ->
  generations_apart c l -> generations_apart (bump c) l'.
Proof using.
  intros (l1 & slot & He & Hs & ->) Hc Ha. destruct (evolves_apart _ _ _ He Ha) as (_ & H1 & H2).
  rewrite bump_small by done. split_and!; [lia | |].
  - intros i s Hi Hu. apply list_lookup_insert_Some in Hi as [(<- & <- & _)|[_ Hi]]; [done|].
    specialize (H1 i s Hi Hu). lia.
  - intros i j s t Hi Hj Hu Hv E.
    apply list_lookup_insert_Some in Hi as [(<- & <- & _)|[Ni Hi]];
      apply list_lookup_insert_Some in Hj as [(<- & <- & _)|[Nj Hj]]; [done | | |by apply (H2 i j s t)].
    + specialize (H1 j t Hj Hv). cbn in E. lia.
    + specialize (H1 i s Hi Hu). cbn in E. lia.
Qed.

Lemma run_typed calls w :
  Forall (auth_call_ok state_bytes) calls -> powered_on w ->
  length (sessions (retained (auth (run calls w).2))) = AUTH_SESSION_SLOTS /\
  table_typed (live_table state_bytes (auth (run calls w).2)).
Proof using sha256_bytes.
  intros Hc Hp. apply powered_on_none in Hp as (Hl & Hn & _).
  pose proof (run_ind state_bytes mbedtls_sha256 (fun _ w =>
    length (sessions (retained (auth w))) = AUTH_SESSION_SLOTS /\
    table_typed (live_table state_bytes (auth w)))) as H.
  specialize (fun H1 H2 => H H1 H2 calls [] w Hc).
  destruct (run calls w) as [tokens w']. apply H; clear H.
  - intros _ w1 w2 [L T] Hq. destruct (Hq L) as (He & L' & _). split; [done|].
    by eapply evolves_typed.
  - intros _ env client m tok w1 w2 [L T] [[He _]|(_ & _ & m' & digest & a & _ & Hd & Hq & Hi & _ & Hin)];
      [by destruct He|].
    destruct (Hq L) as (He & L' & _). destruct (sha256_bytes _ _ Hd) as [D1 D2].
    assert (T2 : table_typed (live_table state_bytes (auth w2))).
    { eapply logged_in_typed; [exact Hin | apply bump_range | done | done |]. by eapply evolves_typed. }
    split; [|done]. rewrite <- (live_table_length state_bytes). apply T2.
  - split; [done|]. apply none_typed; [|done]. by rewrite live_table_length.
Qed.

(** While fewer than [2^32 - 1] tokens were issued, the counter did not wrap. *)
Lemma run_apart calls w :
  Forall (auth_call_ok state_bytes) calls -> powered_on w ->
  let '(tokens, w') := run calls w in
  Z.of_nat (length tokens) <= UINT32_MAX ->
  generations_apart (live_counter state_bytes (auth w')) (live_table state_bytes (auth w')).
Proof using.
  intros Hc Hp. apply powered_on_none in Hp as (Hl & Hn & Hz).
  pose proof (run_ind state_bytes mbedtls_sha256 (fun issued w =>
    length (sessions (retained (auth w))) = AUTH_SESSION_SLOTS /\
    (Z.of_nat (length issued) <= UINT32_MAX ->
     live_counter state_bytes (auth w) <= Z.of_nat (length issued) /\
     generations_apart (live_counter state_bytes (auth w)) (live_table state_bytes (auth w))))) as H.
  specialize (fun H1 H2 => H H1 H2 calls [] w Hc).
  destruct (run calls w) as [tokens w']. intros Hb. refine (proj2 (proj2 (H _ _ _) Hb)); clear H Hb.
  - intros issued w1 w2 [L I] Hq. destruct (Hq L) as (He & L' & Hcase). split; [done|].
    intros Hb. destruct (I Hb) as [Hle Ha]. destruct Hcase as [-> | [-> Hnone]].
    + split; [done|]. by eapply evolves_apart.
    + split; [lia|]. by apply none_apart.
  - intros issued env client m tok w1 w2 [L I]
      [[He _]|(_ & _ & m' & digest & a & _ & _ & Hq & _ & -> & Hin)]; [by destruct He|].
    destruct (Hq L) as (He & L' & Hcase). destruct Hin as (l1 & slot & He' & Hs & E).
    split.
    { rewrite <- (live_table_length state_bytes), E, length_insert, <- (Forall2_length _ _ _ He').
      by rewrite live_table_length. }
    rewrite length_app. cbn [length]. intros Hb. destruct I as [Hle Ha]; [lia|].
    assert (Ha' : live_counter state_bytes a <= Z.of_nat (length issued) /\
                  generations_apart (live_counter state_bytes a) (live_table state_bytes a)).
    { destruct Hcase as [-> | [-> Hnone]];
        [split; [done | by eapply evolves_apart] | split; [lia | by apply none_apart]]. }
    destruct Ha' as [Hle' Ha']. assert (Hc0 : 0 <= live_counter state_bytes a) by apply Ha'.
    split; [rewrite bump_small by lia; lia|].
    eapply logged_in_apart; [by exists l1, slot; eauto | lia | done].
  - split; [done|]. intros _. rewrite Hz. split; [done | by apply none_apart].
Qed.

(** ** The acceptance of a token *)

Lemma session_at_put i j s a :
  (i < length (sessions (retained a)))%nat ->
  session_at j (put_session i s a) = if decide (i = j) then s else session_at j a.
Proof using.
  intros Hi. unfold session_at, put_session. cbn. case_decide as E.
  - subst. by rewrite list_lookup_insert_eq.
  - by rewrite list_lookup_insert_ne.
Qed.

(** What a scan does to the slots: those that have expired are cleared. *)
Lemma expire_slot_at env i r j :
  (i < length (sessions (retained r.1)))%nat ->
  let '(expired, r') := expire_slot env i r in
  expired = used (session_at i r.1) &&
            session_expired (session_at i r.1) (now_us env) (session_settings env) /\
  session_at j r'.1 = (if decide (i = j) then if expired then zero_session else session_at j r.1
                       else session_at j r.1).
Proof using.
  intros Hi. destruct r as [a revoked]. unfold expire_slot, session_clear_locked. cbn [fst] in *.
  destruct (used _ && _) eqn:E.
  - split; [done|]. change (session_at j (put_session i zero_session a) =
      if decide (i = j) then zero_session else session_at j a). by apply session_at_put.
  - split; [done|]. by repeat case_decide.
Qed.

(** A session that a token may open at a time. *)
Definition opens (env : auth_env) (digest : list Z) (s : auth_session_t) : Prop :=
  used s = true /\ session_expired s (now_us env) (session_settings env) = false /\
  secure_equal digest (token_digest s) = true.

Lemma token_scan_spec env digest touch n i r :
  (i + n = length (sessions (retained r.1)))%nat ->
  let '(found, r') := token_scan env digest touch n i r in
  match found with
  | Some c => exists j, (i <= j < i + n)%nat /\ opens env digest (session_at j r.1) /\
      c = context_of_session (session_at j r.1)
  | None => forall j, (i <= j < i + n)%nat -> ~ opens env digest (session_at j r.1)
  end.
Proof using.
  revert i r. induction n as [|n IH]; intros i r Hl; cbn [token_scan]; [intros j; lia|].
  pose proof (expire_slot_at env i r i ltac:(lia)) as Hi.
  pose proof (fun j => expire_slot_at env i r j ltac:(lia)) as Ho.
  pose proof (expire_sweeps env i r) as [He _].
  destruct (expire_slot env i r) as [expired r1]. destruct Hi as [Ex Hi].
  rewrite decide_True in Hi by done. cbn [snd] in He. apply Forall2_length in He.
  assert (Hother : forall j, (S i <= j)%nat -> session_at j r1.1 = session_at j r.1).
  { intros j Hj. destruct (Ho j) as [_ ->]. by rewrite decide_False by lia. }
  assert (Hrec : ~ opens env digest (session_at i r.1) ->
    let '(found, r') := token_scan env digest touch n (S i) r1 in
    match found with
    | Some c => exists j, (i <= j < i + S n)%nat /\ opens env digest (session_at j r.1) /\
        c = context_of_session (session_at j r.1)
    | None => forall j, (i <= j < i + S n)%nat -> ~ opens env digest (session_at j r.1)
    end).
  { intros Hno. specialize (IH (S i) r1 ltac:(lia)).
    destruct (token_scan env digest touch n (S i) r1) as [[c|] r'].
    - destruct IH as (j & Hj & Hop & ->). exists j. rewrite Hother in * by lia.
      split_and!; [lia | lia | done | done].
    - intros j Hj. destruct (decide (j = i)) as [->|Hne]; [done|].
      rewrite <- Hother by lia. apply IH. lia. }
  destruct expired.
  { apply Hrec. intros (_ & E & _). rewrite E, andb_false_r in Ex. done. }
  rewrite Hi. destruct (used (session_at i r.1) && secure_equal digest _) eqn:M.
  - exists i. apply andb_prop in M as [Mu Ms]. rewrite Mu in Ex. split; [lia|].
    split; [|by destruct touch, (session_at i r.1)]. by split_and!.
  - apply Hrec. intros (E1 & _ & E3). by rewrite E1, E3 in M.
Qed.

(** The rules of expiry: 24 hours from the login on, and the idle time of the
    settings. *)
Definition session_fresh (now : Z) (settings : si_session_settings_t) (s : auth_session_t) : Prop :=
  used s = true /\ created_us s <= now /\ last_seen_us s <= now /\
  (now - created_us s) / 1000 <= 24 * 60 * 60 * 1000 /\
  (auto_logout_enabled settings = true ->
   (now - last_seen_us s) / 1000 <= auto_logout_minutes settings * 60000).

Lemma session_fresh_expired now settings s :
  session_fresh now settings s <-> used s = true /\ session_expired s now settings = false.
Proof using.
  unfold session_fresh, session_expired, AUTH_SESSION_ABSOLUTE_MS.
  destruct (used s); cbn [negb orb]; [|split; by intros [? _]].
  destruct (auto_logout_enabled settings); cbn [negb]; case_ifs; split_guards; to_props;
    (split; [intros (_ & ? & ? & ? & Hi); (try specialize (Hi eq_refl)); split; [done|]; try done; try lia
            | intros [_ ?]; try done; split_and!; try done; to_props; lia]).
Qed.

(** The table as a call finds it: initialized in this run. *)
Definition found_table (env : auth_env) (w : auth_world) : list auth_session_t :=
  sessions (retained (retained_init_locked state_bytes env (auth w))).

Lemma found_typed env w :
  length (sessions (retained (auth w))) = AUTH_SESSION_SLOTS ->
  table_typed (live_table state_bytes (auth w)) -> table_typed (found_table env w).
Proof using.
  intros L T. destruct (init_quiet state_bytes env (auth w)) as [Hq Hi].
  destruct (Hq L) as (He & _). unfold live_table at 2, trusted in He. rewrite Hi in He.
  by eapply evolves_typed.
Qed.

(** A valid request on the sessions: login is on, the lock is there and comes in time. *)
Definition serves (env : auth_env) (w : auth_world) : bool :=
  negb (login_disabled (auth w)) && (session_lock (auth w) || mutex_created env) &&
  lock_in_time env.

Definition has_lock (env : auth_env) (w : auth_world) : bool :=
  session_lock (auth w) || mutex_created env.

Definition with_lock (env : auth_env) (w : auth_world) : auth_world :=
  w <| auth := (auth w) <| session_lock := has_lock env w |> |>.

Lemma ensure_lock_eq env w :
  ensure_lock env w = (if has_lock env w then ESP_OK else ESP_ERR_NO_MEM, with_lock env w).
Proof using.
  destruct w as [a l n]. unfold ensure_lock, on_auth, with_lock, has_lock. cbn [auth].
  by destruct (session_lock a) eqn:E, a; cbn in *; subst.
Qed.

Lemma with_lock_idem env w :
  has_lock env (with_lock env w) = has_lock env w /\ with_lock env (with_lock env w) = with_lock env w.
Proof using.
  assert (E : has_lock env (with_lock env w) = has_lock env w).
  { unfold has_lock, with_lock. cbn [auth set session_lock]. unfold has_lock.
    by rewrite <- orb_assoc, orb_diag. }
  split; [done|]. unfold with_lock at 1. rewrite E. reflexivity.
Qed.

(** Where a call that is served starts its work: the lock is there, the memory
    initialized. *)
Definition begun (env : auth_env) (w : auth_world) : auth_world :=
  (retained_init state_bytes env (with_lock env w)).2.

Lemma begun_table env w : sessions (retained (auth (begun env w))) = found_table env w.
Proof using.
  destruct w as [a l n]. unfold begun, found_table, retained_init, on_auth, with_lock. cbn [auth snd set].
  generalize (has_lock env (mk_auth_world a l n)) as b. intros b.
  assert (E : forall x, sessions (retained (retained_init_locked state_bytes env x)) =
    if retained_initialized x then sessions (retained x)
    else if restorable state_bytes (reset_reason x) (retained x)
         then restored (init_us env) (clock_us (retained x)) (sessions (retained x))
         else replicate AUTH_SESSION_SLOTS zero_session).
  { intros x. destruct (retained_initialized x) eqn:E; [unfold retained_init_locked; by rewrite E|].
    destruct (init_cases state_bytes env x E) as [_ Hc]. by destruct (restorable _ _ _), Hc. }
  by rewrite !E.
Qed.

Lemma take_in_time env w : lock_in_time env = true -> take_session_lock env w = (true, w).
Proof using. intros E. unfold take_session_lock, on_auth. rewrite E. by destruct w. Qed.

Lemma take_late env w : lock_in_time env = false -> (take_session_lock env w).1 = false.
Proof using. intros E. unfold take_session_lock, on_auth. by rewrite E. Qed.

Lemma wp_ensure env (Q : esp_err_t -> auth_world -> Prop) w :
  Q (if has_lock env w then ESP_OK else ESP_ERR_NO_MEM) (with_lock env w) -> wp (ensure_lock env) Q w.
Proof using. intros H. unfold wp. by rewrite ensure_lock_eq. Qed.

(** A token lookup that is served. *)
Lemma present_served env token touch w digest (Q : bool * si_auth_session_context_t -> auth_world -> Prop) :
  length token = SI_AUTH_TOKEN_LEN -> serves env w = true -> mbedtls_sha256 token = Some digest ->
  (let '(found, r) := token_scan env digest touch AUTH_SESSION_SLOTS 0 (auth (begun env w), []) in
   wp (count_miss (bool_decide (found = None));;
       retained_commit state_bytes env;; revoked_sessions_apply (lease_reads env) r.2)
      (fun _ => Q (bool_decide (is_Some found), default anonymous_context found))
      ((begun env w) <| auth := r.1 |>)) ->
  wp (si_auth_token_get_context state_bytes mbedtls_sha256 env (Some token) touch true) Q w.
Proof using.
  intros Ht Hs Hd HQ. unfold serves in Hs. fold (has_lock env w) in Hs.
  apply andb_prop in Hs as [[Hn Hh]%andb_prop Hl]. apply negb_true_iff in Hn.
  unfold si_auth_token_get_context, si_auth_is_enabled. cbn [ptr_test sha256_text].
  rewrite Ht, Nat.eqb_refl, Hd. cbn [negb].
  apply wp_bind, wp_and_then, wp_bind, wp_ensure, wp_gets. cbv beta.
  change (login_disabled (auth (with_lock env w))) with (login_disabled (auth w)).
  destruct (with_lock_idem env w) as [E1 E2].
  rewrite Hn. cbn [negb]. apply wp_bind, wp_ensure. rewrite E1, E2, Hh. apply wp_ret.
  cbn [andb negb bool_decide]. 
  apply wp_bind. unfold wp at 1. rewrite take_in_time by done. cbn [fst snd negb].
  apply wp_bind. unfold wp at 1. change (retained_init state_bytes env (with_lock env w)).2 with (begun env w).
  apply wp_bind, wp_on_auth.
  destruct (token_scan env digest touch AUTH_SESSION_SLOTS 0 (auth (begun env w), [])) as [found [a revoked]].
  cbn [fst snd] in *. unfold wp, bind in *.
  destruct (count_miss _ _) as [? w1]. destruct (retained_commit _ _ w1) as [? w2].
  by destruct (revoked_sessions_apply _ _ w2).
Qed.

Lemma present_refused env token touch w :
  length token <> SI_AUTH_TOKEN_LEN \/ serves env w = false \/ mbedtls_sha256 token = None ->
  (si_auth_token_get_context state_bytes mbedtls_sha256 env (Some token) touch true w).1.1 = false.
Proof using.
  intros H. change (wp (si_auth_token_get_context state_bytes mbedtls_sha256 env (Some token) touch true)
    (fun r _ => r.1 = false) w).
  unfold si_auth_token_get_context, si_auth_is_enabled. cbn [ptr_test sha256_text].
  destruct (Nat.eqb_spec (length token) SI_AUTH_TOKEN_LEN) as [Ht|Ht]; cbn [negb]; [|by apply wp_ret].
  apply wp_bind, wp_and_then, wp_bind, wp_ensure, wp_gets. cbv beta.
  change (login_disabled (auth (with_lock env w))) with (login_disabled (auth w)).
  destruct (login_disabled (auth w)) eqn:Hn; cbn [negb]; [by apply wp_ret|].
  destruct (with_lock_idem env w) as [E1 E2]. apply wp_bind, wp_ensure. rewrite E1, E2. apply wp_ret.
  destruct (has_lock env w) eqn:Hh; cbn [andb negb bool_decide]; [|by apply wp_ret].
  destruct (mbedtls_sha256 token) eqn:Hs; [|by apply wp_ret].
  apply wp_bind. unfold wp at 1. destruct (lock_in_time env) eqn:Hl.
  - exfalso. unfold serves in H. fold (has_lock env w) in H. rewrite Hn, Hh, Hl in H.
    by destruct H as [?|[?|?]].
  - rewrite take_late by done. by apply wp_ret.
Qed.

(** A token is accepted exactly when the request can be served and some session,
    used and within its times, carries the token's digest; the context is that
    session's. *)
Lemma present_exact env token touch w :
  length (sessions (retained (auth w))) = AUTH_SESSION_SLOTS ->
  table_typed (live_table state_bytes (auth w)) ->
  let r := (si_auth_token_get_context state_bytes mbedtls_sha256 env (Some token) touch true w).1 in
  (r.1 = true <->
   length token = SI_AUTH_TOKEN_LEN /\ serves env w = true /\
   exists s, s ∈ found_table env w /\ session_fresh (now_us env) (session_settings env) s /\
             mbedtls_sha256 token = Some (token_digest s)) /\
  (r.1 = true -> exists i s, found_table env w !! i = Some s /\
     session_fresh (now_us env) (session_settings env) s /\
     mbedtls_sha256 token = Some (token_digest s) /\ r.2 = context_of_session s).
Proof using sha256_bytes.
  intros L T. cbv zeta. pose proof (found_typed env w L T) as [FL FT].
  pose proof (present_refused env token touch w) as Hno.
  destruct (decide (length token = SI_AUTH_TOKEN_LEN)) as [Ht|Ht]; [|rewrite Hno by auto; split; [split; [done | intros (? & ? & ? & ? & ? & ?); congruence] | done]].
  destruct (serves env w) eqn:Hs; [|rewrite Hno by auto; split; [split; [done | intros (? & ? & ? & ? & ? & ?); congruence] | done]].
  destruct (mbedtls_sha256 token) as [digest|] eqn:Hd; [|rewrite Hno by auto; split; [split; [done | intros (? & ? & ? & ? & ? & ?); congruence] | done]]. clear Hno.
  pose proof (present_served env token touch w digest (fun r _ =>
    (let '(found, _) := token_scan env digest touch AUTH_SESSION_SLOTS 0 (auth (begun env w), []) in
     r = (bool_decide (is_Some found), default anonymous_context found))) Ht Hs Hd) as Hp.
  pose proof (token_scan_spec env digest touch AUTH_SESSION_SLOTS 0 (auth (begun env w), [])) as Hsc.
  cbn [fst] in Hsc. rewrite begun_table in Hsc. specialize (Hsc (eq_sym FL)).
  destruct (token_scan env digest touch AUTH_SESSION_SLOTS 0 (auth (begun env w), [])) as [found r'].
  specialize (Hp ltac:(done)). unfold wp in Hp. rewrite Hp. clear Hp. cbn [fst snd].
  assert (Hat : forall j, (j < AUTH_SESSION_SLOTS)%nat ->
    found_table env w !! j = Some (session_at j (auth (begun env w)))).
  { intros j Hj. unfold session_at. rewrite begun_table.
    destruct (lookup_lt_is_Some_2 (found_table env w) j) as [s ->]; [lia | done]. }
  assert (Hop : forall j s, found_table env w !! j = Some s ->
    opens env digest s <-> session_fresh (now_us env) (session_settings env) s /\
                           Some digest = Some (token_digest s)).
  { intros j s Hj. rewrite session_fresh_expired. unfold opens.
    destruct (sha256_bytes _ _ Hd) as [D1 D2]. split.
    - intros (U & X & E). destruct (FT j s Hj U) as [_ _ _ _ _ [D3 D4]].
      rewrite secure_equal_eq in E by (done || congruence). by rewrite E.
    - intros ((U & X) & [= E]). destruct (FT j s Hj U) as [_ _ _ _ _ [D3 D4]].
      split_and!; [done | done |]. rewrite E. by apply secure_equal_eq. }
  destruct found as [c|].
  - destruct Hsc as (j & Hj & Hopen & ->). specialize (Hat j ltac:(lia)).
    apply (Hop _ _ Hat) in Hopen as [Hf He]. split.
    + split; [|done]. intros _. split_and!; [done..|]. eexists. split; [by eapply list_elem_of_lookup_2|done].
    + intros _. by eexists _, _.
  - split; [|done]. split; [done|]. intros (_ & _ & s & Hin & Hf & He).
    apply list_elem_of_lookup in Hin as [j Hj]. exfalso.
    assert (Hlt : (j < AUTH_SESSION_SLOTS)%nat) by (rewrite <- FL; by eapply lookup_lt_Some).
    specialize (Hat j Hlt). rewrite Hj in Hat. apply (inj Some) in Hat.
    apply (Hsc j ltac:(lia)). rewrite <- Hat. apply (Hop _ _ Hj). by split.
Qed.

(** ** What an accepted token grants *)

Definition context_typed (c : si_auth_session_context_t) : Prop :=
  authenticated c = true /\ 1 <= ctx_generation c < 2 ^ 32 /\
  ctx_session_id c <> [] /\ (length (ctx_session_id c) <= SI_AUTH_SESSION_ID_MAX_LEN)%nat /\
  is_Some (enum_of_Z (E := si_auth_method_t) (ctx_method c)) /\
  (ctx_principal c = enum_val SI_PRINCIPAL_BROWSER /\ ctx_capabilities c = SI_CAPABILITIES_WEB_DEFAULT \/
   ctx_principal c = enum_val SI_PRINCIPAL_MCP /\ ctx_capabilities c = SI_CAPABILITIES_MCP_DEFAULT).

Lemma session_context_typed i s : session_typed i s -> context_typed (context_of_session s).
Proof using.
  intros [P C M G [I1 I2] D]. unfold context_typed, context_of_session.
  cbn [authenticated ctx_generation ctx_session_id ctx_method ctx_principal ctx_capabilities].
  rewrite strtrunc_id by lia. rewrite P, C. split_and!; try done; try lia.
  destruct (decide _); [by left | by right].
Qed.

(** C29: the session table is well typed. After any calls since a power-on, resets
    included, the table has its sixteen slots; the browsers' slots hold browsers
    and the others MCP clients, with the capabilities of their kind, a generation
    that is not zero and an id that fits its buffer, and no two live sessions share
    a generation while fewer than [2^32] tokens were issued. What a token grants is
    typed alike: an MCP token never carries a browser's capabilities. *)
Theorem session_table_typed calls w0 env token touch :
  Forall (auth_call_ok state_bytes) calls -> powered_on w0 ->
  let '(tokens, w) := run calls w0 in
  let r := (si_auth_token_get_context state_bytes mbedtls_sha256 env (Some token) touch true w).1 in
  table_typed (live_table state_bytes (auth w)) /\
  (Z.of_nat (length tokens) <= UINT32_MAX ->
   generations_apart (live_counter state_bytes (auth w)) (live_table state_bytes (auth w))) /\
  (r.1 = true -> context_typed r.2).
Proof using sha256_bytes.
  intros Hc Hp. pose proof (run_typed calls w0 Hc Hp) as [L T]. pose proof (run_apart calls w0 Hc Hp) as A.
  destruct (run calls w0) as [tokens w]. cbv zeta. cbn [snd] in *. split_and!; [done | done |].
  intros Hr. destruct (present_exact env token touch w L T) as [_ H].
  destruct (H Hr) as (i & s & Hs & Hf & _ & ->).
  apply (session_context_typed i), (found_typed env w L T); [done | apply Hf].
Qed.

(** C27: a token is accepted exactly when it should be. In every state that calls
    reach, it is accepted if and only if it has the length of a token, login is on
    and the lock comes in time, and some session is in use with the token's digest,
    its login lies at most 24 hours back and, with automatic logout, its last use
    not longer than the idle time; the context that is granted is that session's. *)
Theorem token_accepted_exactly calls w0 env token touch :
  Forall (auth_call_ok state_bytes) calls -> powered_on w0 ->
  let w := (run calls w0).2 in
  let r := (si_auth_token_get_context state_bytes mbedtls_sha256 env (Some token) touch true w).1 in
  (r.1 = true <->
   length token = SI_AUTH_TOKEN_LEN /\ serves env w = true /\
   exists s, s ∈ found_table env w /\ session_fresh (now_us env) (session_settings env) s /\
             mbedtls_sha256 token = Some (token_digest s)) /\
  (r.1 = true -> exists s, s ∈ found_table env w /\
     session_fresh (now_us env) (session_settings env) s /\
     mbedtls_sha256 token = Some (token_digest s) /\ r.2 = context_of_session s).
Proof using sha256_bytes.
  intros Hc Hp. cbv zeta. destruct (run_typed calls w0 Hc Hp) as [L T].
  destruct (present_exact env token touch _ L T) as [H1 H2]. split; [done|].
  intros Hr. destruct (H2 Hr) as (i & s & Hs & H). exists s. split; [|done].
  by eapply list_elem_of_lookup_2.
Qed.

(** ** Fences *)

Lemma session_at_clear i j r :
  (i < length (sessions (retained r.1)))%nat ->
  session_at j (session_clear_locked i r).1 = if decide (i = j) then zero_session else session_at j r.1.
Proof using. destruct r as [a revoked]. apply session_at_put. Qed.

Lemma clear_all_none n i r :
  (i + n <= length (sessions (retained r.1)))%nat ->
  (forall j, (j < i)%nat -> used (session_at j r.1) = false) ->
  forall j, (j < i + n)%nat -> used (session_at j (clear_all n i r).1) = false.
Proof using.
  revert i r. induction n as [|n IH]; intros i r Hl Hb j Hj; cbn [clear_all]; [apply Hb; lia|].
  assert (H : exists r1, (if used (session_at i r.1) then session_clear_locked i r else r) = r1 /\
    length (sessions (retained r1.1)) = length (sessions (retained r.1)) /\
    forall k, (k < S i)%nat -> used (session_at k r1.1) = false).
  { eexists. split; [reflexivity|]. destruct (used (session_at i r.1)) eqn:U.
    - destruct (clear_sweeps i r) as [H%Forall2_length _]. split; [done|].
      intros k Hk. rewrite session_at_clear by lia. case_decide; [done|]. apply Hb. lia.
    - split; [done|]. intros k Hk. destruct (decide (k = i)) as [->|]; [done|]. apply Hb. lia. }
  destruct H as (r1 & -> & E & Hb1). apply IH; [lia | done | lia].
Qed.

Lemma clear_sessions_none env w :
  length (sessions (retained (auth w))) = AUTH_SESSION_SLOTS ->
  no_session (live_table state_bytes (auth (clear_sessions state_bytes env w).2)).
Proof using.
  intros L. destruct (init_quiet state_bytes env (auth w)) as [Hq Hi]. destruct (Hq L) as (_ & L' & _).
  change (wp (clear_sessions state_bytes env)
    (fun _ w' => no_session (live_table state_bytes (auth w'))) w).
  apply wp_bind, wp_on_auth. cbn [fst snd].
  set (w1 := w <| auth := retained_init_locked state_bytes env (auth w) |>).
  apply wp_bind, wp_on_auth. cbn [fst].
  pose proof (clear_all_none AUTH_SESSION_SLOTS 0 (auth w1, [])) as Hn.
  pose proof (clear_all_sweeps AUTH_SESSION_SLOTS 0 (auth w1, [])) as [He Hf].
  destruct (clear_all AUTH_SESSION_SLOTS 0 (auth w1, [])) as [a revoked]. cbn [fst snd] in *.
  apply wp_bind, wp_on_auth, wp_ret. cbn [snd].
  unfold sweep_frame in Hf. cbn [fst] in Hf, He.
  assert (Hia : retained_initialized a = true) by (change (retained_initialized (auth w1) = true) in Hi; congruence).
  unfold live_table, trusted. change (retained_initialized _) with (retained_initialized a) at 1.
  rewrite Hia. cbn [orb]. apply Forall_lookup. intros j s Hj.
  change (sessions (retained a) !! j = Some s) in Hj.
  apply Forall2_length in He. change (length (sessions (retained (auth w1))) = AUTH_SESSION_SLOTS) in L'.
  assert (Hlt : (j < AUTH_SESSION_SLOTS)%nat).
  { rewrite <- L', He. by eapply lookup_lt_Some. }
  specialize (Hn ltac:(lia) ltac:(intros; lia) j ltac:(lia)). unfold session_at in Hn.
  by rewrite Hj in Hn.
Qed.

(** A call that takes every session away: an unconditional logout, or a change of
    a login factor that went through to its fence. *)
Definition fences (fence : auth_call) (w : auth_world) : Prop :=
  match fence with
  | LogoutAll env => has_lock env w = true
  | Commit _ _ _ =>
      credential_generation (auth (auth_step state_bytes mbedtls_sha256 fence w).2) <>
      credential_generation (auth w)
  | _ => False
  end.

Lemma apply_same {V} (f : auth_state -> V) reads revoked w :
  f (auth (revoked_sessions_apply reads revoked w).2) = f (auth w).
Proof using. exact (apply_moves (same f) reads revoked w). Qed.

Lemma wp_beside {S A} (m : st auth_world A) (Q : A -> auth_world * S -> Prop) ws :
  wp m (fun a w' => Q a (w', ws.2)) ws.1 -> wp (beside m) Q ws.
Proof using. unfold wp, beside. by destruct (m ws.1). Qed.

(** What clearing the table leaves of the account. *)
Definition account_frame (a : auth_state) :=
  (login_disabled a, verifier a, setup_required a, credential_generation a, credentials_lock a).

Abbreviation account_same := (on_auth_rel (same account_frame)).

Lemma clear_sessions_account env : moves account_same (clear_sessions state_bytes env).
Proof using.
  unfold clear_sessions. apply moves_bind; [apply _ | |intros _].
  { apply on_auth_moves. intros a. unfold same, retained_init_locked. cbn [snd]. case_if; [done | by case_if]. }
  apply moves_bind; [apply _ | |intros cleared].
  { apply on_auth_moves. intros a. pose proof (clear_all_sweeps AUTH_SESSION_SLOTS 0 (a, [])) as [_ Hf].
    destruct (clear_all AUTH_SESSION_SLOTS 0 (a, [])) as [a' revoked]. unfold sweep_frame in Hf.
    unfold same, account_frame. cbn [fst snd] in *. congruence. }
  apply moves_bind; [apply _ | |intros _; apply moves_ret, _]. by apply on_auth_moves.
Qed.

Lemma clear_sessions_generation env w :
  credential_generation (auth (clear_sessions state_bytes env w).2) = credential_generation (auth w).
Proof using.
  pose proof (clear_sessions_account env w) as H. unfold on_auth_rel, same, account_frame in H. congruence.
Qed.

Lemma revoke_all_account env : moves account_same (si_auth_revoke_all_sessions state_bytes env).
Proof using.
  unfold si_auth_revoke_all_sessions. apply moves_bind; [apply _ | |intros e].
  { apply on_auth_moves. intros a. by case_if. }
  case_if; [apply moves_ret, _|]. apply moves_bind; [apply _ | apply clear_sessions_account |].
  intros revoked. by apply apply_moves.
Qed.

(** A change of a login factor fails before it touches anything, or it moves the
    credential generation, clears the table, and then runs the callback on the
    state of its caller. *)
Definition fenced {S} (gen : Z) (commit : option (st S esp_err_t)) (ws : auth_world * S)
    (e : esp_err_t) (ws' : auth_world * S) : Prop :=
  e <> ESP_OK /\ ws'.2 = ws.2 /\
  credential_generation (auth ws'.1) = credential_generation (auth ws.1) \/
  gen = credential_generation (auth ws.1) /\
  credential_generation (auth ws'.1) = u32 (gen + 1) /\
  no_session (live_table state_bytes (auth ws'.1)) /\
  match commit with
  | Some commit => commit ws.2 = (e, ws'.2)
  | None => e = ESP_OK /\ ws'.2 = ws.2
  end.

Lemma commit_fenced {S} env in_time gen (commit : option (st S esp_err_t)) ws :
  length (sessions (retained (auth ws.1))) = AUTH_SESSION_SLOTS ->
  wp (si_auth_security_commit state_bytes env in_time gen commit) (fenced gen commit ws) ws.
Proof using.
  intros L. unfold si_auth_security_commit. apply wp_bind, wp_gets. cbv beta.
  case_if; [apply wp_ret; by left|]. apply wp_bind, wp_beside, wp_gets. cbv beta.
  case_if; [apply wp_ret; by left|]. apply negb_false_iff, Z.eqb_eq in Heqb0.
  apply wp_bind, wp_beside, wp_ensure.
  case_if; [apply wp_ret; by left|]. apply wp_bind, wp_beside, wp_on_auth. cbn [fst snd].
  apply wp_bind, wp_beside. cbn [fst snd]. match goal with |- wp _ _ ?w => set (w1 := w) end.
  apply wp_intro.
  pose proof (clear_sessions_none env w1 L) as Hn. pose proof (clear_sessions_generation env w1) as Hg.
  destruct (clear_sessions state_bytes env w1) as [revoked w2]. cbn [fst snd] in *.
  change (credential_generation (auth w1)) with (u32 (credential_generation (auth ws.1) + 1)) in Hg.
  apply wp_bind. destruct commit as [commit|].
  - unfold wp at 1. cbn [fst snd]. destruct (commit ws.2) as [e s'] eqn:Ec. cbn [fst snd].
    apply wp_bind, wp_beside. unfold wp at 1. apply wp_ret. right. cbn [fst snd].
    rewrite (apply_same (live_table state_bytes)), (apply_same credential_generation), Hg, Heqb0.
    by split_and!.
  - apply wp_ret, wp_bind, wp_beside. unfold wp at 1. apply wp_ret. right. cbn [fst snd].
    rewrite (apply_same (live_table state_bytes)), (apply_same credential_generation), Hg, Heqb0.
    by split_and!.
Qed.

Lemma commit_step env in_time gen w :
  (auth_step state_bytes mbedtls_sha256 (Commit env in_time gen) w).2 =
  (si_auth_security_commit state_bytes env in_time gen (None : option (st unit esp_err_t)) (w, tt)).2.1.
Proof using.
  unfold auth_step. by destruct (si_auth_security_commit _ _ _ _ _ _) as [e [w' u]].
Qed.

Lemma logout_all_step env w :
  (auth_step state_bytes mbedtls_sha256 (LogoutAll env) w).2 =
  (si_auth_revoke_all_sessions state_bytes env w).2.
Proof using.
  unfold auth_step, bind. by destruct (si_auth_revoke_all_sessions state_bytes env w).
Qed.

Lemma logout_all_clears env w :
  length (sessions (retained (auth w))) = AUTH_SESSION_SLOTS -> has_lock env w = true ->
  wp (si_auth_revoke_all_sessions state_bytes env)
    (fun _ w' => no_session (live_table state_bytes (auth w'))) w.
Proof using.
  intros L Hf. unfold si_auth_revoke_all_sessions. apply wp_bind, wp_ensure. rewrite Hf.
  case_if; [done|].
  apply wp_bind. match goal with |- wp _ _ ?x => set (w1 := x) end. apply wp_intro.
  pose proof (clear_sessions_none env w1 L) as Hn.
  destruct (clear_sessions state_bytes env w1) as [revoked w2]. cbn [fst snd] in *.
  apply wp_intro. by rewrite (apply_same (live_table state_bytes)).
Qed.

Lemma fence_clears fence w :
  length (sessions (retained (auth w))) = AUTH_SESSION_SLOTS -> fences fence w ->
  no_session (live_table state_bytes (auth (auth_step state_bytes mbedtls_sha256 fence w).2)).
Proof using.
  intros L Hf. destruct fence; try (exfalso; exact Hf).
  - rewrite logout_all_step. exact (logout_all_clears _ _ L Hf).
  - unfold fences in Hf. rewrite commit_step in Hf |- *.
    destruct (commit_fenced env in_time expected_generation
      (None : option (st unit esp_err_t)) (w, tt) L) as [(_ & _ & H)|(_ & _ & H & _)];
      [by destruct Hf | exact H].
Qed.

(** Every session of the table was opened by a token of [issued]. *)
Definition opened_by (issued : list cstring) (l : list auth_session_t) : Prop :=
  forall i s, l !! i = Some s -> used s = true ->
    exists t, t ∈ issued /\ mbedtls_sha256 t = Some (token_digest s).

Definition issued_only (issued : list cstring) (w : auth_world) : Prop :=
  length (sessions (retained (auth w))) = AUTH_SESSION_SLOTS /\
  table_typed (live_table state_bytes (auth w)) /\ opened_by issued (live_table state_bytes (auth w)).

Lemma issued_evolves issued l l' :
  Forall2 same_login l l' -> opened_by issued l -> opened_by issued l'.
Proof using.
  intros He H i s Hs Hu. destruct (evolves_lookup _ _ _ _ He Hs Hu) as (s0 & Hs0 & Hu0 & ->).
  exact (H i s0 Hs0 Hu0).
Qed.

Lemma run_issued calls w :
  Forall (auth_call_ok state_bytes) calls -> issued_only [] w ->
  let '(tokens, w') := run calls w in issued_only tokens w'.
Proof using sha256_bytes.
  intros Hc H0. refine (run_ind state_bytes mbedtls_sha256 issued_only _ _ calls [] w Hc H0).
  - intros issued w1 w2 (L & T & I) Hq. destruct (Hq L) as (He & L' & _).
    split_and!; [done | by eapply evolves_typed | by eapply issued_evolves].
  - intros issued env client m tok w1 w2 (L & T & I)
      [[He _]|(_ & _ & m' & digest & a & _ & Hd & Hq & Hi & _ & Hin)]; [by destruct He|].
    destruct (Hq L) as (He & L' & _). destruct (sha256_bytes _ _ Hd) as [D1 D2].
    assert (T2 : table_typed (live_table state_bytes (auth w2))).
    { eapply logged_in_typed; [exact Hin | apply bump_range | done | done |]. by eapply evolves_typed. }
    split_and!; [rewrite <- (live_table_length state_bytes); apply T2 | done |].
    destruct Hin as (l1 & slot & He1 & _ & ->). intros i s Hs Hu.
    apply list_lookup_insert_Some in Hs as [(<- & <- & _)|[_ Hs]].
    + exists tok. split; [apply elem_of_app; right; by left | done].
    + destruct (issued_evolves issued _ _ He1 (issued_evolves issued _ _ He I) i s Hs Hu) as (t & Ht & E).
      exists t. split; [apply elem_of_app; by left | done].
Qed.

Lemma stale_login env client gen raw_method w :
  gen <> 0 -> gen <> credential_generation (auth w) ->
  (auth_step state_bytes mbedtls_sha256 (Login env client gen raw_method) w).1 = None.
Proof using.
  intros H0 Hg.
  assert (H : wp (si_auth_create_session_for_method state_bytes mbedtls_sha256 env client gen raw_method)
    (fun r _ => r.1 <> ESP_OK) w).
  { unfold si_auth_create_session_for_method, si_auth_is_enabled.
    apply wp_bind, wp_bind, wp_ensure, wp_gets. cbv beta. apply wp_bind, wp_gets, wp_bind, wp_gets.
    cbv beta. destruct (enum_of_Z raw_method) as [m|]; [|by apply wp_ret].
    case_if; [by apply wp_ret|]. apply wp_bind, wp_ensure.
    case_if; [apply wp_ret; by apply negb_true_iff, bool_decide_eq_false in Heqb0|].
    cbn [sha256_text]. destruct (mbedtls_sha256 _) as [digest|]; [|by apply wp_ret].
    apply wp_bind, wp_on_auth. case_if; [by apply wp_ret|]. cbn [snd].
    apply wp_bind, wp_gets. cbv beta. case_if; [by apply wp_ret|]. exfalso.
    apply Z.eqb_neq in H0, Hg. clear - Heqb2 Hg H0. destruct (lock_in_time env);
      (change (credential_generation _) with (credential_generation (auth w)) in Heqb2;
       by rewrite H0, Hg in Heqb2). }
  unfold auth_step, bind. unfold wp in H.
  destruct (si_auth_create_session_for_method _ _ env client gen raw_method w) as [r w'].
  cbn [fst snd] in *. by rewrite bool_decide_eq_false_2.
Qed.

(** C5: no session outlives a fence. Once every session was revoked, or a change
    of a login factor moved the credential generation, a token is accepted only if
    a login issued it after the fence, however many calls, resets and losses of
    power come between; and a login that checked its credentials under an older credential
    generation than the current one issues nothing.  Revoking every session does not
    move that generation, so that a login checked before such a revocation may still
    issue a token after it. *)
Theorem fence_ends_sessions before w0 fence calls env token touch :
  Forall (auth_call_ok state_bytes) before -> powered_on w0 ->
  let w := (run before w0).2 in
  fences fence w -> Forall (auth_call_ok state_bytes) calls ->
  let '(tokens, w') := run calls (auth_step state_bytes mbedtls_sha256 fence w).2 in
  ((si_auth_token_get_context state_bytes mbedtls_sha256 env (Some token) touch true w').1.1 = true ->
   exists issued digest, issued ∈ tokens /\ mbedtls_sha256 issued = Some digest /\
     mbedtls_sha256 token = Some digest) /\
  (forall client gen raw_method, gen <> 0 -> gen <> credential_generation (auth w') ->
   (auth_step state_bytes mbedtls_sha256 (Login env client gen raw_method) w').1 = None).
Proof using sha256_bytes.
  intros Hb Hp. cbv zeta. intros Hf Hc. destruct (run_typed before w0 Hb Hp) as [L T].
  generalize dependent ((run before w0).2). intros w Hf L T.
  pose proof (fence_clears fence w L Hf) as Hn.
  assert (Hq : on_auth_rel (quiet_auth state_bytes) w (auth_step state_bytes mbedtls_sha256 fence w).2).
  { assert (Hok : auth_call_ok state_bytes fence) by by destruct fence.
    destruct (step_effect state_bytes mbedtls_sha256 fence w Hok) as [[_ H]|H]; [exact H|].
    destruct H as (? & ? & ? & ? & ? & -> & _). done. }
  destruct (Hq L) as (_ & L' & _). generalize dependent ((auth_step state_bytes mbedtls_sha256 fence w).2).
  intros w1 Hn _ L'.
  assert (H0 : issued_only [] w1).
  { split_and!; [done | apply none_typed; [by rewrite live_table_length | done] |].
    intros i s Hs Hu. pose proof (proj1 (Forall_lookup _ _) Hn i s Hs). congruence. }
  pose proof (run_issued calls w1 Hc H0) as H. destruct (run calls w1) as [tokens w'].
  split; [|intros; by apply stale_login]. destruct H as (L2 & T2 & I).
  destruct (present_exact env token touch w' L2 T2) as [_ He]. intros Hr.
  destruct (He Hr) as (i & s & Hs & [Hu _] & Hd & _).
  destruct (init_quiet state_bytes env (auth w')) as [Hqi Hi]. destruct (Hqi L2) as (Hev & _).
  unfold live_table at 2, trusted in Hev. rewrite Hi in Hev.
  destruct (issued_evolves tokens _ _ Hev I i s Hs Hu) as (t & Ht & Et).
  exists t, (token_digest s). by split_and!.
Qed.

(** ** Logout, down to the lease and the reports *)

(** A slot whose session carries the digest. *)
Definition carries (digest : list Z) (s : auth_session_t) : bool :=
  used s && secure_equal digest (token_digest s).

Lemma expire_slot_other env i r j :
  j <> i -> session_at j (expire_slot env i r).2.1 = session_at j r.1.
Proof using.
  intros Hj. destruct r as [a revoked]. unfold expire_slot, session_clear_locked. case_if; [|done].
  unfold session_at, put_session. cbn. by rewrite list_lookup_insert_ne.
Qed.

Lemma token_scan_before env digest touch n i r j :
  (j < i)%nat -> session_at j (token_scan env digest touch n i r).2.1 = session_at j r.1.
Proof using.
  revert i r. induction n as [|n IH]; intros i r Hj; cbn [token_scan]; [done|].
  pose proof (expire_slot_other env i r j ltac:(lia)) as He.
  destruct (expire_slot env i r) as [expired r1]. cbn [snd] in He. rewrite <- He.
  destruct expired; [apply IH; lia|]. case_if; [|apply IH; lia].
  cbn [snd fst]. unfold session_at, put_session. cbn. by rewrite list_lookup_insert_ne by lia.
Qed.

(** The scan leaves the slot it found as the first one that carries the digest. *)
Lemma token_scan_first env digest touch n i r :
  (i + n = length (sessions (retained r.1)))%nat ->
  let '(found, r') := token_scan env digest touch n i r in
  forall c, found = Some c ->
  exists j, (i <= j < i + n)%nat /\ carries digest (session_at j r'.1) = true /\
    c = context_of_session (session_at j r'.1) /\
    forall k, (i <= k < j)%nat -> carries digest (session_at k r'.1) = false.
Proof using.
  revert i r. induction n as [|n IH]; intros i r Hl; cbn [token_scan]; [done|].
  pose proof (expire_slot_at env i r i ltac:(lia)) as Hi.
  pose proof (expire_sweeps env i r) as [He _].
  destruct (expire_slot env i r) as [expired r1]. destruct Hi as [_ Hi].
  rewrite decide_True in Hi by done. cbn [snd] in He. apply Forall2_length in He.
  assert (Hrec : carries digest (session_at i r1.1) = false ->
    let '(found, r') := token_scan env digest touch n (S i) r1 in
    forall c, found = Some c ->
    exists j, (i <= j < i + S n)%nat /\ carries digest (session_at j r'.1) = true /\
      c = context_of_session (session_at j r'.1) /\
      forall k, (i <= k < j)%nat -> carries digest (session_at k r'.1) = false).
  { intros Hno. pose proof (IH (S i) r1 ltac:(lia)) as H.
    pose proof (token_scan_before env digest touch n (S i) r1 i ltac:(lia)) as Hb.
    destruct (token_scan env digest touch n (S i) r1) as [found r']. cbn [snd] in Hb.
    intros c Hc. destruct (H c Hc) as (j & Hj & H1 & H2 & H3). exists j.
    split_and!; [lia | lia | done | done |]. intros k Hk.
    destruct (decide (k = i)) as [->|]; [by rewrite Hb | apply H3; lia]. }
  destruct expired; [apply Hrec; by rewrite Hi|].
  fold (carries digest (session_at i r1.1)).
  destruct (carries digest (session_at i r1.1)) eqn:M; [|by apply Hrec].
  intros c [= <-]. exists i. cbn [fst]. rewrite session_at_put, decide_True by lia || done.
  split_and!; [lia | lia | | | intros k; lia].
  - destruct touch; [|done]. exact M.
  - done.
Qed.

Lemma digest_clear_first digest n i j r :
  (i <= j < i + n)%nat -> carries digest (session_at j r.1) = true ->
  (forall k, (i <= k < j)%nat -> carries digest (session_at k r.1) = false) ->
  digest_clear digest n i r = session_clear_locked j r.
Proof using.
  revert i. induction n as [|n IH]; intros i Hj Hc Hb; [lia|]. cbn [digest_clear].
  fold (carries digest (session_at i r.1)). destruct (decide (i = j)) as [->|Hne].
  - by rewrite Hc.
  - rewrite Hb by lia. apply IH; [lia | done |]. intros k Hk. apply Hb. lia.
Qed.

Lemma live_scan_found env sid gen n i r c :
  (live_scan env sid gen n i r).1 = Some c ->
  exists j, used (session_at j r.1) = true /\ session_id (session_at j r.1) = sid /\
            session_generation (session_at j r.1) = gen.
Proof using.
  revert i r. induction n as [|n IH]; intros i r; cbn [live_scan]; [done|].
  destruct (negb (used (session_at i r.1)) || negb (streq (session_id (session_at i r.1)) sid)) eqn:E;
    [apply IH|].
  destruct (expire_slot env i r) as [expired r1]. destruct expired; [done|].
  case_if; [done|]. intros _. exists i. split_guards. to_props. done.
Qed.

(** What the end of a call, after the loop, leaves alone. *)
Definition tail_view (a : auth_state) :=
  (sessions (retained a), (retained_initialized a, session_lock a, login_disabled a),
   revoked_listeners a).

Lemma tail_kept env missed revoked w :
  wp (count_miss missed;; retained_commit state_bytes env;;
      revoked_sessions_apply (lease_reads env) revoked)
    (fun _ w' => tail_view (auth w') = tail_view (auth w)) w.
Proof using.
  apply wp_bind, wp_on_auth. cbn [snd]. apply wp_bind, wp_on_auth. cbn [snd]. apply wp_intro.
  rewrite (apply_same tail_view). by destruct missed.
Qed.

Lemma begun_view env w :
  serves env w = true ->
  (retained_initialized (auth (begun env w)), session_lock (auth (begun env w)),
   login_disabled (auth (begun env w)), revoked_listeners (auth (begun env w))) =
  (true, true, false, revoked_listeners (auth w)).
Proof using.
  intros Hs. unfold serves in Hs. fold (has_lock env w) in Hs.
  apply andb_prop in Hs as [[Hn Hh]%andb_prop _]. apply negb_true_iff in Hn.
  unfold begun, retained_init, on_auth. cbn [snd auth set].
  assert (Hf : forall a, session_lock (retained_init_locked state_bytes env a) = session_lock a /\
    login_disabled (retained_init_locked state_bytes env a) = login_disabled a /\
    revoked_listeners (retained_init_locked state_bytes env a) = revoked_listeners a).
  { intros a. unfold retained_init_locked. case_if; [done|]. by case_if. }
  destruct (Hf (auth (with_lock env w))) as (-> & -> & ->).
  destruct (init_quiet state_bytes env (auth (with_lock env w))) as [_ ->].
  cbn [with_lock auth set session_lock login_disabled revoked_listeners]. by rewrite Hh, Hn.
Qed.

(** An accepted token: its slot is the first that carries its digest. *)
Lemma present_accepts env token touch w :
  length (sessions (retained (auth w))) = AUTH_SESSION_SLOTS ->
  wp (si_auth_token_get_context state_bytes mbedtls_sha256 env (Some token) touch true)
    (fun r w' => r.1 = true -> exists digest j,
       mbedtls_sha256 token = Some digest /\ (j < AUTH_SESSION_SLOTS)%nat /\
       carries digest (session_at j (auth w')) = true /\
       r.2 = context_of_session (session_at j (auth w')) /\
       (forall k, (k < j)%nat -> carries digest (session_at k (auth w')) = false) /\
       retained_initialized (auth w') = true /\ session_lock (auth w') = true /\
       login_disabled (auth w') = false) w.
Proof using.
  intros L. pose proof (present_refused env token touch w) as Hno.
  destruct (decide (length token = SI_AUTH_TOKEN_LEN)) as [Ht|Ht]; [|apply wp_intro; rewrite Hno by auto; done].
  destruct (serves env w) eqn:Hs; [|apply wp_intro; rewrite Hno by auto; done].
  destruct (mbedtls_sha256 token) as [digest|] eqn:Hd; [|apply wp_intro; rewrite Hno by auto; done].
  apply (present_served env token touch w digest); [done..|].
  destruct (init_quiet state_bytes env (auth w)) as [Hq _]. destruct (Hq L) as (_ & L' & _).
  fold (found_table env w) in L'. rewrite <- begun_table in L'.
  pose proof (token_scan_first env digest touch AUTH_SESSION_SLOTS 0 (auth (begun env w), [])) as Hf.
  pose proof (token_scan_sweeps env digest touch AUTH_SESSION_SLOTS 0 (auth (begun env w), [])) as [_ Hv].
  pose proof (begun_view env w Hs) as Hb.
  destruct (token_scan env digest touch AUTH_SESSION_SLOTS 0 (auth (begun env w), [])) as [found [a revoked]].
  specialize (Hf (eq_sym L')). cbn [fst snd] in *. unfold sweep_frame in Hv. cbn [fst] in Hv.
  eapply wp_mono; [apply tail_kept|]. intros u w' Ht'. cbn [fst snd] in *.
  change (auth ((begun env w) <| auth := a |>)) with a in Ht'. unfold tail_view in Ht'.
  intros Hr. apply bool_decide_eq_true in Hr as [c Hr].
  destruct (Hf c Hr) as (j & Hj & Hc & Ec & Hk). subst found. cbn [default].
  assert (E : forall k, session_at k (auth w') = session_at k a) by (unfold session_at; intros k; congruence).
  exists digest, j. rewrite E. split_and!; try done; try lia; try (cbn; congruence).
  intros k Hk'. rewrite E. apply Hk. lia.
Qed.

(** The logout of a token whose slot is known. *)
Lemma revoke_session_spec env token digest j w (Q : unit -> auth_world -> Prop) :
  mbedtls_sha256 token = Some digest -> (j < AUTH_SESSION_SLOTS)%nat ->
  carries digest (session_at j (auth w)) = true ->
  (forall k, (k < j)%nat -> carries digest (session_at k (auth w)) = false) ->
  retained_initialized (auth w) = true -> session_lock (auth w) = true ->
  (forall a, table_typed (sessions (retained (auth w))) ->
     tail_view a = tail_view (put_session j zero_session (auth w)) ->
     wp (revoked_sessions_apply (lease_reads env)
           [(session_id (session_at j (auth w)), session_generation (session_at j (auth w)))])
       Q (w <| auth := a |>)) ->
  table_typed (sessions (retained (auth w))) ->
  wp (si_auth_revoke_session state_bytes mbedtls_sha256 env (Some token)) Q w.
Proof using.
  intros Hd Hj Hc Hb Hi Hl HQ T. unfold si_auth_revoke_session.
  rewrite bool_decide_eq_false_2 by done. apply wp_bind, wp_ensure.
  assert (Hh : has_lock env w = true) by (unfold has_lock; by rewrite Hl).
  assert (Ew : with_lock env w = w).
  { unfold with_lock. rewrite Hh. destruct w as [a l n], a. cbn in *. by subst. }
  rewrite Hh, Ew. cbn [bool_decide negb sha256_text]. rewrite Hd.
  apply wp_bind, wp_on_auth. cbn [snd].
  assert (Ea : retained_init_locked state_bytes env (auth w) = auth w)
    by (unfold retained_init_locked; by rewrite Hi).
  rewrite Ea. assert (Ew2 : w <| auth := auth w |> = w) by by destruct w. rewrite Ew2.
  apply wp_bind, wp_on_auth.
  rewrite (digest_clear_first digest AUTH_SESSION_SLOTS 0 j) by (done || lia || (intros; apply Hb; lia)).
  unfold session_clear_locked. cbn [fst snd].
  assert (Er : revoked_sessions_add [] (session_at j (auth w)) =
    [(session_id (session_at j (auth w)), session_generation (session_at j (auth w)))]).
  { unfold carries in Hc. apply andb_prop in Hc as [Hu _].
    destruct T as [Lt T]. destruct (lookup_lt_is_Some_2 (sessions (retained (auth w))) j) as [s Hs]; [lia|].
    assert (Es : session_at j (auth w) = s) by (unfold session_at; by rewrite Hs). rewrite Es in *.
    destruct (T j s Hs Hu) as [_ _ _ _ [I1 I2] _]. unfold revoked_sessions_add. rewrite Hu.
    destruct (session_id s) eqn:E; [done|]. cbn [negb is_empty orb length Nat.leb app].
    rewrite strtrunc_id by (rewrite <- E in *; lia). done. }
  rewrite Er. apply wp_bind, wp_on_auth. cbn [snd]. by apply HQ.
Qed.

Lemma wp_on_lease {A} (m : st lease_world A) (Q : A -> auth_world -> Prop) w :
  wp m (fun a l => Q a (w <| lease := l |>)) (lease w) -> wp (on_lease m) Q w.
Proof using. unfold wp, on_lease. by destruct (m (lease w)). Qed.

(** The revocation of one session, in the lease and to the listeners. *)
Lemma apply_one_spec reads sid gen w :
  world_ok (lease w) -> sid <> [] -> gen <> 0 ->
  wp (revoked_sessions_apply reads [(sid, gen)]) (fun _ w' =>
    world_ok (lease w') /\ revocation_kept sid gen (lease_part (lease w')) /\
    ~ owned_by sid gen (current (s_owner_state (hid_part (lease w')))) /\
    notified w' = notified w ++ map (fun l => (l, sid, gen)) (omap id (revoked_listeners (auth w))) /\
    auth w' = auth w) w.
Proof using.
  intros Hw Hs Hg. cbn [revoked_sessions_apply]. apply wp_bind, wp_on_lease.
  eapply wp_mono; [by apply revoke_auth_session_spec|]. intros u l (H1 & H2 & H3).
  apply wp_bind. unfold notify. apply wp_modify, wp_ret. by split_and!.
Qed.

(** The guard of the actions refuses a session that is not in the table. *)
Lemma guard_refuses env sid gen w :
  login_disabled (auth w) = false -> retained_initialized (auth w) = true ->
  (forall j, used (session_at j (auth w)) = true -> session_id (session_at j (auth w)) = sid ->
     session_generation (session_at j (auth w)) <> gen) ->
  wp (si_auth_session_get_live_context state_bytes env (Some sid) gen true)
    (fun r _ => r.1 = false) w.
Proof using.
  intros Hn Hi Hno. unfold si_auth_session_get_live_context, si_auth_is_enabled.
  case_if; [by apply wp_ret|]. apply wp_bind, wp_bind, wp_ensure, wp_gets. cbv beta.
  change (login_disabled (auth (with_lock env w))) with (login_disabled (auth w)). rewrite Hn.
  cbn [negb]. destruct (with_lock_idem env w) as [E1 E2]. apply wp_bind, wp_ensure. rewrite E1, E2.
  case_if; [by apply wp_ret|]. apply wp_bind, wp_on_auth. cbn [fst snd].
  case_if; [by apply wp_ret|]. apply negb_false_iff in Heqb1. rewrite Heqb1.
  apply wp_bind, wp_on_auth. cbn [snd].
  match goal with |- wp _ _ ?x => set (w1 := x) end.
  assert (Hat : forall j, session_at j (auth w1) = session_at j (auth w)).
  { intros j. unfold w1, session_at. cbn [auth set].
    assert (Ea : retained_init_locked state_bytes env (auth (with_lock env w)) = auth (with_lock env w)).
    { unfold retained_init_locked. change (retained_initialized (auth (with_lock env w))) with
        (retained_initialized (auth w)). by rewrite Hi. }
    change (auth (with_lock env w <| auth := auth (with_lock env w) |>)) with (auth (with_lock env w)).
    by rewrite Ea. }
  apply wp_bind, wp_on_auth.
  pose proof (live_scan_found env sid gen AUTH_SESSION_SLOTS 0 (auth w1, [])) as Hf.
  destruct (live_scan env sid gen AUTH_SESSION_SLOTS 0 (auth w1, [])) as [found [a revoked]].
  cbn [fst snd] in *. apply wp_bind, wp_on_auth, wp_bind, wp_intro, wp_ret. cbn [fst].
  destruct found as [c|]; [|done]. destruct (Hf c eq_refl) as (j & Hu & Hid & Hg).
  rewrite Hat in *. by destruct (Hno j Hu Hid).
Qed.

(** Logout reaches the lease and the reports. When the bearer of an accepted
    token logs out, the call does not return before the session, named by its id
    and generation, is off the table for every later guard, its control lease is
    taken or the revocation is in the lease's journal, the HID manager's reports
    belong to somebody else, and every listener has been told, once. *)
Theorem logout_reaches_lease calls w0 env touch token env' :
  Forall (auth_call_ok state_bytes) calls -> powered_on w0 ->
  let tokens := (run calls w0).1 in
  let w := (run calls w0).2 in
  let accepted := si_auth_token_get_context state_bytes mbedtls_sha256 env (Some token) touch true w in
  let w1 := accepted.2 in
  Z.of_nat (length tokens) <= UINT32_MAX -> accepted.1.1 = true -> world_ok (lease w1) ->
  let w2 := (si_auth_revoke_session state_bytes mbedtls_sha256 env' (Some token) w1).2 in
  let sid := ctx_session_id accepted.1.2 in
  let gen := ctx_generation accepted.1.2 in
  world_ok (lease w2) /\ revocation_kept sid gen (lease_part (lease w2)) /\
  ~ owned_by sid gen (current (s_owner_state (hid_part (lease w2)))) /\
  notified w2 = notified w1 ++ map (fun l => (l, sid, gen)) (omap id (revoked_listeners (auth w1))) /\
  forall env'',
    (si_auth_session_get_live_context state_bytes env'' (Some sid) gen true w2).1.1 = false.
Proof using sha256_bytes.
  intros Hc Hp. destruct (run_typed calls w0 Hc Hp) as [L T]. pose proof (run_apart calls w0 Hc Hp) as A.
  destruct (run calls w0) as [tokens w]. cbv zeta. cbn [fst snd] in *. intros Hb. specialize (A Hb).
  pose proof (present_accepts env token touch w L) as H.
  destruct (calls_quiet state_bytes mbedtls_sha256 env) as (Hq & _).
  specialize (Hq (Some token) touch true w L). unfold wp in H.
  destruct (si_auth_token_get_context state_bytes mbedtls_sha256 env (Some token) touch true w)
    as [[accepted c] w1]. cbn [fst snd] in *. intros Ha Hw.
  destruct (H Ha) as (digest & j & Hd & Hj & Hcar & -> & Hbefore & Hi & Hl & Hn).
  destruct Hq as (He & L1 & Hcase).
  assert (E1 : live_table state_bytes (auth w1) = sessions (retained (auth w1)))
    by (unfold live_table, trusted; by rewrite Hi).
  pose proof (evolves_typed _ _ He T) as T1. rewrite E1 in *.
  assert (A1 : exists n, generations_apart n (sessions (retained (auth w1)))).
  { destruct Hcase as [_|[_ Hnone]]; eexists; [by eapply evolves_apart | by apply (none_apart 0)]. }
  destruct A1 as (n & _ & _ & A1).
  destruct (lookup_lt_is_Some_2 (sessions (retained (auth w1))) j) as [s Hs]; [rewrite L1; lia|].
  assert (Es : session_at j (auth w1) = s) by (unfold session_at; by rewrite Hs). rewrite Es in *.
  assert (Hu : used s = true) by (unfold carries in Hcar; by apply andb_prop in Hcar as [? _]).
  destruct (proj2 T1 j s Hs Hu) as [_ _ _ Hg [I1 I2] _].
  cbv zeta. cbn [context_of_session ctx_session_id ctx_generation].
  rewrite strtrunc_id by lia.
  set (Q := fun (_ : unit) w2 => world_ok (lease w2) /\
    revocation_kept (session_id s) (session_generation s) (lease_part (lease w2)) /\
    ~ owned_by (session_id s) (session_generation s) (current (s_owner_state (hid_part (lease w2)))) /\
    notified w2 = notified w1 ++ map (fun l => (l, session_id s, session_generation s))
      (omap id (revoked_listeners (auth w1))) /\
    forall env'', (si_auth_session_get_live_context state_bytes env'' (Some (session_id s))
      (session_generation s) true w2).1.1 = false).
  change (wp (si_auth_revoke_session state_bytes mbedtls_sha256 env' (Some token)) Q w1).
  apply (revoke_session_spec env' token digest j); rewrite ?Es; try done.
  intros a _ Hv. eapply wp_mono; [apply apply_one_spec; [done | done | lia]|].
  intros u w2 (H1 & H2 & H3 & H4 & H5). change (auth (w1 <| auth := a |>)) with a in H4, H5.
  unfold tail_view in Hv. cbn [put_session set revoked_listeners session_lock login_disabled retained_initialized] in Hv.
  assert (Et : sessions (retained (auth w2)) = <[j := zero_session]> (sessions (retained (auth w1))))
    by (rewrite H5; exact (f_equal (fun x => x.1.1) Hv)).
  assert (El : login_disabled (auth w2) = false /\ retained_initialized (auth w2) = true /\
               revoked_listeners a = revoked_listeners (auth w1)) by (rewrite H5; injection Hv as _ V1 _ V3 V4; split_and!; congruence).
  destruct El as (El & Ei & Er). rewrite Er in H4. unfold Q. split_and!; [done..|].
  intros env''. apply guard_refuses; [done | done |]. intros k Hku _ Hkg.
  unfold session_at in Hku, Hkg. rewrite Et in Hku, Hkg.
  destruct (decide (j = k)) as [->|Hne]; [by rewrite list_lookup_insert_eq in Hku by lia|].
  rewrite list_lookup_insert_ne in Hku, Hkg by done.
  destruct (sessions (retained (auth w1)) !! k) as [t|] eqn:Ht; [|done].
  apply Hne. by eapply A1.
Qed.
End calls.

(** ** Concrete runs *)

(** A layout of the retained memory, and a digest of 32 bytes. *)
Definition demo_layout (r : auth_retained_state_t) : list Z :=
  [u8 (magic r); u8 (Z.shiftr (magic r) 8); u8 (version r); 0; 0; 0; 0; 0;
   u8 (checksum r); u8 (Z.shiftr (checksum r) 8); u8 (Z.shiftr (checksum r) 16);
   u8 (Z.shiftr (checksum r) 24); u8 (next_generation r); u8 (clock_us r)] ++
  map (fun s => if used s then 1 else 0) (sessions r).

Definition demo_sha256 (text : list Z) : option (list Z) :=
  Some (map u8 (take AUTH_VERIFIER_BYTES (text ++ replicate AUTH_VERIFIER_BYTES 0))).

Lemma demo_sha256_bytes text digest :
  demo_sha256 text = Some digest -> length digest = AUTH_VERIFIER_BYTES /\ Forall is_byte digest.
Proof.
  intros H. apply (inj Some) in H as <-. split.
  - rewrite length_map, length_take, length_app, length_replicate. lia.
  - rewrite Forall_map. apply Forall_true. intros x. unfold is_byte, u8. apply Z.mod_pos_bound. lia.
Qed.

Definition demo_locks : lease_world :=
  mk_world ((scripted (replicate 8 (mk_tick [] true 0)) hid_initial) <| manager_locks := true |>)
    lease_started.

Lemma demo_locks_ok : world_ok demo_locks.
Proof.
  assert (H : idle_free (hid_part demo_locks)); [|by split; [exact H | apply ok_started | |]].
  split; [|done]. split; [|done]. split; try done; apply keys_ok_none.
Qed.

Definition demo_auth_env (now : Z) (token_byte : Z) : auth_env :=
  mk_auth_env 1000 now true true (mk_settings true 30)
    (replicate AUTH_VERIFIER_BYTES token_byte) (1, token_byte) (fun _ => demo_env 100 true).

Definition demo_powered : auth_world :=
  mk_auth_world (auth_started false ESP_RST_OTHER zero_retained) demo_locks [].

Lemma demo_powered_on : powered_on demo_layout demo_powered.
Proof. exists false, ESP_RST_OTHER, zero_retained. by split_and!. Qed.

(** A password is set, a listener added, a browser and an MCP client log in. *)
Definition demo_logins : list auth_call :=
  [NewCredentials (cstr "verifier") false; Listen 9;
   Login (demo_auth_env 2000 7) None 0 1;
   Login (demo_auth_env 3000 8) (Some (cstr "exoanchor-mcp")) 0 1].

Lemma demo_logins_ok : Forall (auth_call_ok demo_layout) demo_logins.
Proof. by repeat constructor. Qed.

Definition demo_token (byte : Z) : cstring := hex_text (replicate AUTH_VERIFIER_BYTES byte).

Abbreviation demo_session_world := (auth_run demo_layout demo_sha256 demo_logins demo_powered).2.

Lemma session_table_typed_witness :
  let '(tokens, w) := auth_run demo_layout demo_sha256 demo_logins demo_powered in
  let r := (si_auth_token_get_context demo_layout demo_sha256 (demo_auth_env 4000 0)
              (Some (demo_token 8)) true true w).1 in
  table_typed (live_table demo_layout (auth w)) /\
  (Z.of_nat (length tokens) <= UINT32_MAX ->
   generations_apart (live_counter demo_layout (auth w)) (live_table demo_layout (auth w))) /\
  (r.1 = true -> context_typed r.2).
Proof.
  exact (session_table_typed demo_layout demo_sha256 demo_sha256_bytes demo_logins demo_powered
           (demo_auth_env 4000 0) (demo_token 8) true demo_logins_ok demo_powered_on).
Defined.

Lemma token_accepted_exactly_witness :
  let r := (si_auth_token_get_context demo_layout demo_sha256 (demo_auth_env 4000 0)
              (Some (demo_token 7)) true true demo_session_world).1 in
  r.1 = true /\ ctx_principal r.2 = enum_val SI_PRINCIPAL_BROWSER /\
  exists s, s ∈ found_table demo_layout (demo_auth_env 4000 0) demo_session_world /\
    session_fresh 4000 (mk_settings true 30) s /\
    demo_sha256 (demo_token 7) = Some (token_digest s) /\ r.2 = context_of_session s.
Proof.
  split; [by_eval|]. split; [by_eval|].
  apply (token_accepted_exactly demo_layout demo_sha256 demo_sha256_bytes demo_logins demo_powered
           (demo_auth_env 4000 0) (demo_token 7) true demo_logins_ok demo_powered_on). by_eval.
Defined.

(** After everybody was logged out the old token is refused, and one that is
    issued afterwards is accepted. *)
Lemma fence_ends_sessions_witness :
  let fence := LogoutAll (demo_auth_env 5000 0) in
  let w := (auth_step demo_layout demo_sha256 fence demo_session_world).2 in
  let '(tokens, w') := auth_run demo_layout demo_sha256 [Login (demo_auth_env 6000 3) None 0 1] w in
  let accepted token := (si_auth_token_get_context demo_layout demo_sha256 (demo_auth_env 7000 0)
                           (Some token) true true w').1.1 in
  accepted (demo_token 7) = false /\
  (accepted (demo_token 3) = true ->
   exists issued digest, issued ∈ tokens /\ demo_sha256 issued = Some digest /\
     demo_sha256 (demo_token 3) = Some digest).
Proof.
  assert (Hok : Forall (auth_call_ok demo_layout) [Login (demo_auth_env 6000 3) None 0 1])
    by by repeat constructor.
  pose proof (fence_ends_sessions demo_layout demo_sha256 demo_sha256_bytes demo_logins demo_powered
    (LogoutAll (demo_auth_env 5000 0)) [Login (demo_auth_env 6000 3) None 0 1] (demo_auth_env 7000 0)
    (demo_token 3) true demo_logins_ok demo_powered_on eq_refl Hok) as H.
  cbv zeta in H |- *.
  assert (E : (si_auth_token_get_context demo_layout demo_sha256 (demo_auth_env 7000 0)
    (Some (demo_token 7)) true true (auth_run demo_layout demo_sha256
       [Login (demo_auth_env 6000 3) None 0 1]
       (auth_step demo_layout demo_sha256 (LogoutAll (demo_auth_env 5000 0))
       (auth_run demo_layout demo_sha256 demo_logins demo_powered).2).2).2).1.1
    = false) by by_eval.
  destruct (auth_run demo_layout demo_sha256 _ _) as [tokens w'].
  split; [exact E | exact (proj1 H)].
Defined.

Abbreviation demo_accepted :=
  (si_auth_token_get_context demo_layout demo_sha256 (demo_auth_env 4000 0) (Some (demo_token 7))
     true true demo_session_world).

Lemma logout_reaches_lease_witness :
  let c := demo_accepted.1.2 in
  let w2 := (si_auth_revoke_session demo_layout demo_sha256 (demo_auth_env 5000 0)
               (Some (demo_token 7)) demo_accepted.2).2 in
  world_ok (lease w2) /\ revocation_kept (ctx_session_id c) (ctx_generation c) (lease_part (lease w2)) /\
  ~ owned_by (ctx_session_id c) (ctx_generation c) (current (s_owner_state (hid_part (lease w2)))) /\
  notified w2 = notified demo_accepted.2 ++
    map (fun l => (l, ctx_session_id c, ctx_generation c))
      (omap id (revoked_listeners (auth demo_accepted.2))) /\
  forall env'', (si_auth_session_get_live_context demo_layout env'' (Some (ctx_session_id c))
                   (ctx_generation c) true w2).1.1 = false.
Proof.
  assert (E : lease demo_accepted.2 = demo_locks) by by_eval.
  refine (logout_reaches_lease demo_layout demo_sha256 demo_sha256_bytes demo_logins demo_powered
    (demo_auth_env 4000 0) true (demo_token 7) (demo_auth_env 5000 0) demo_logins_ok demo_powered_on
    _ _ _).
  - apply Z.leb_le. by_eval.
  - by_eval.
  - exact (eq_ind_r world_ok demo_locks_ok E).
Defined.
