(* ===== verification/AuthSessionReset.v ===== *)
(** * Login sessions across a reset

    The retained memory carries the sessions over a software reset: what a call
    leaves there is what the next start of the firmware finds, on its own clock. *)

From Stdlib Require Import String.
From S2P Require Import Prelude CText Hex Firmware Authorization.
From S2P Require Import HidOwner HidManager HidManagerInvariant ControlLease ControlLeaseProps.
From S2P Require Import AuthSession AuthSessionInvariant AuthSessionProps.

Lemma foldl_pointwise {A B} (f : A -> B -> A) l l' x :
  Forall2 (fun y y' => forall x, f x y = f x y') l l' -> foldl f x l = foldl f x l'.
Proof. intros H. revert x. induction H as [|y y' l l' E _ IH]; intros x; [done|]. cbn. by rewrite E. Qed.

Section reset.
Context (state_bytes : auth_retained_state_t -> list Z).
Context (mbedtls_sha256 : list Z -> option (list Z)).
Context (sha256_bytes : forall text digest, mbedtls_sha256 text = Some digest ->
  length digest = AUTH_VERIFIER_BYTES /\ Forall is_byte digest).

(** The checksum is the four bytes at its offset, and the layout has a fixed size. *)
Context (layout_size : forall r x, length (state_bytes (r <| checksum := x |>)) = length (state_bytes r)).
Context (layout_checksum : forall r x i,
  (i < checksum_offset \/ checksum_offset + 4 <= i)%nat ->
  state_bytes (r <| checksum := x |>) !! i = state_bytes r !! i).

(** The checksum does not depend on itself. *)
Lemma checksum_stable r x :
  retained_checksum state_bytes (r <| checksum := x |>) = retained_checksum state_bytes r.
Proof using layout_size layout_checksum.
  unfold retained_checksum. apply foldl_pointwise.
  apply Forall2_same_length_lookup_2; [by rewrite !length_imap, layout_size|].
  intros i [j b] [j' b'] H H' h. rewrite list_lookup_imap in H, H'.
  apply fmap_Some in H as (c & Hc & [= -> ->]), H' as (c' & Hc' & [= -> ->]).
  destruct ((checksum_offset <=? i)%nat && (i <? checksum_offset + 4)%nat) eqn:E; [done|].
  rewrite layout_checksum in Hc.
  - congruence.
  - apply andb_false_iff in E as [E|E]; [apply Nat.leb_gt in E | apply Nat.ltb_ge in E]; lia.
Qed.

Lemma committed_valid now a :
  0 <= now -> valid_memory state_bytes (retained (retained_commit_locked state_bytes now a)) = true.
Proof using layout_size layout_checksum.
  intros H. unfold valid_memory, retained_commit_locked.
  match goal with |- context [retained_checksum _ ?r] => set (r0 := r) end.
  change (retained (a <| retained := ?r |>)) with r. rewrite checksum_stable.
  change (checksum (r0 <| checksum := ?x |>)) with x.
  change ((AUTH_RETAINED_MAGIC =? AUTH_RETAINED_MAGIC) && (AUTH_RETAINED_VERSION =? AUTH_RETAINED_VERSION) &&
    (0 <=? now) && (retained_checksum state_bytes r0 =? retained_checksum state_bytes r0) = true).
  rewrite !Z.eqb_refl. by apply Z.leb_le in H as ->.
Qed.

(** Whether a session that a call left at time [commit] is carried over. *)
Definition carried_over (commit : Z) (s : auth_session_t) : Prop :=
  used s = true /\ created_us s <= last_seen_us s <= commit /\
  commit - created_us s <= 24 * 60 * 60 * 1000 * 1000.

(** The same login with the same age and the same idle time, seen at [now]. *)
Definition same_ages (commit now : Z) (s s' : auth_session_t) : Prop :=
  same_login s s' /\ now - created_us s' = commit - created_us s /\
  now - last_seen_us s' = commit - last_seen_us s.

Lemma sane_times commit i s :
  session_typed i s -> used s = true ->
  retained_session_sane s commit = true <-> carried_over commit s.
Proof using.
  intros [P _ _ G [I1 I2] _] U. unfold retained_session_sane, carried_over. rewrite U, P.
  assert (E : strnlen (session_id s) (SI_AUTH_SESSION_ID_MAX_LEN + 1) = length (session_id s))
    by (unfold strnlen; lia).
  assert (length (session_id s) <> 0%nat) by by destruct (session_id s).
  rewrite E, (proj2 (Z.eqb_neq (session_generation s) 0)), (proj2 (Nat.eqb_neq (length (session_id s)) 0)),
    (proj2 (Nat.leb_gt (SI_AUTH_SESSION_ID_MAX_LEN + 1) (length (session_id s)))) by lia.
  assert (Hp : negb (enum_val (if decide (i < AUTH_BROWSER_SESSION_SLOTS)%nat
      then SI_PRINCIPAL_BROWSER else SI_PRINCIPAL_MCP) =? enum_val SI_PRINCIPAL_BROWSER) &&
    negb (enum_val (if decide (i < AUTH_BROWSER_SESSION_SLOTS)%nat
      then SI_PRINCIPAL_BROWSER else SI_PRINCIPAL_MCP) =? enum_val SI_PRINCIPAL_MCP) = false)
    by by destruct (decide _).
  rewrite Hp. cbn [negb orb]. rewrite !orb_false_r. unfold AUTH_SESSION_ABSOLUTE_MS.
  destruct (Z.ltb_spec (last_seen_us s) (created_us s)); [split; [done | lia]|].
  destruct (Z.ltb_spec commit (last_seen_us s)); [split; [done | lia]|]. cbn [orb].
  rewrite Z.leb_le. split; [intros; split_and!; [done | lia..] | lia].
Qed.

Lemma restored_slot commit now i s :
  (used s = true -> session_typed i s) ->
  let s' := default zero_session (restore_session now commit s) in
  (used s' = true <-> carried_over commit s) /\ (used s' = true -> same_ages commit now s s').
Proof using.
  intros T. cbv zeta. unfold restore_session.
  destruct (used s) eqn:U; cbn [negb].
  - pose proof (sane_times commit i s (T eq_refl) U) as Hs.
    destruct (retained_session_sane s commit); cbn [negb default].
    + split; [split; [by intros _; apply Hs | by destruct s] |]. intros _.
      split; [by destruct s | cbn; lia].
    + split; [|done]. split; [done | by intros H; apply Hs in H].
  - change (default zero_session (Some s)) with s. rewrite U. split; [|done].
    split; [done | intros [? _]; congruence].
Qed.

(** A served lookup leaves the memory committed at its time. *)
Lemma present_commits env token touch w :
  length token = SI_AUTH_TOKEN_LEN -> serves env w = true -> is_Some (mbedtls_sha256 token) ->
  wp (si_auth_token_get_context state_bytes mbedtls_sha256 env (Some token) touch true)
    (fun _ w' => exists a, retained (auth w') = retained (retained_commit_locked state_bytes (now_us env) a)) w.
Proof using.
  intros Ht Hs [digest Hd]. apply (present_served state_bytes mbedtls_sha256 env token touch w digest); [done..|].
  destruct (token_scan env digest touch AUTH_SESSION_SLOTS 0 _) as [found [a revoked]].
  apply wp_bind, wp_on_auth, wp_bind, wp_on_auth, wp_intro. cbn [fst snd].
  eexists. by rewrite (apply_same retained).
Qed.

(** C28: logins survive a software reset and nothing else. What a served call leaves
    is found by the first call after a reset by software, panic or watchdog: a slot
    is in use exactly if it was, with times in order and a login at most 24 hours
    old, and it is the same login with the same age and the same idle time on the
    new clock. After any other reset no session is left. *)
Theorem sessions_survive_reset calls w0 env token touch reason l env' :
  Forall (auth_call_ok state_bytes) calls -> powered_on state_bytes w0 ->
  let w := (auth_run state_bytes mbedtls_sha256 calls w0).2 in
  length token = SI_AUTH_TOKEN_LEN -> is_Some (mbedtls_sha256 token) ->
  serves env w = true -> 0 <= now_us env ->
  let w1 := (auth_step state_bytes mbedtls_sha256 (Present env token touch) w).2 in
  let w2 := (auth_step state_bytes mbedtls_sha256 (Reset reason None l) w1).2 in
  let before := sessions (retained (auth w1)) in
  let after := found_table state_bytes env' w2 in
  length before = AUTH_SESSION_SLOTS /\ length after = AUTH_SESSION_SLOTS /\
  forall i s s', before !! i = Some s -> after !! i = Some s' ->
    if retained_reset_allowed reason
    then (used s' = true <-> carried_over (now_us env) s) /\
         (used s' = true -> same_ages (now_us env) (init_us env') s s')
    else used s' = false.
Proof using sha256_bytes layout_size layout_checksum.
  intros Hc Hp. cbv zeta. intros Ht Hd Hs Hn.
  destruct (run_typed state_bytes mbedtls_sha256 sha256_bytes calls w0 Hc Hp) as [L T].
  generalize dependent ((auth_run state_bytes mbedtls_sha256 calls w0).2). intros w Hs L T.
  pose proof (present_commits env token touch w Ht Hs Hd) as Hcom.
  pose proof (proj1 (calls_quiet state_bytes mbedtls_sha256 env) (Some token) touch true w L) as (He & L1 & _).
  cbn [auth_step]. unfold bind, wp in *. cbn [fst snd] in *.
  destruct (si_auth_token_get_context _ _ env (Some token) touch true w) as [r w1].
  cbn [fst snd] in *. destruct Hcom as [a Ea].
  change ((mret (M := st auth_world) (None : option cstring)) w1).2 with w1.
  pose proof (committed_valid (now_us env) a Hn) as Hv. rewrite <- Ea in Hv.
  assert (Hck : clock_us (retained (auth w1)) = now_us env) by by rewrite Ea.
  assert (T1 : table_typed (sessions (retained (auth w1)))).
  { pose proof (evolves_typed _ _ He T) as T1. unfold live_table, trusted in T1.
    by rewrite Hv, orb_true_r in T1. }
  set (a2 := restarted reason None (auth w1)).
  pose proof (init_cases state_bytes env' a2 eq_refl) as [_ Hi].
  change (found_table _ _ _) with (sessions (retained (retained_init_locked state_bytes env' a2))).
  change (reset_reason a2) with reason in Hi. change (retained a2) with (retained (auth w1)) in Hi.
  unfold restorable in Hi. rewrite Hv, andb_true_r in Hi. destruct T1 as [_ T1].
  destruct (retained_reset_allowed reason); destruct Hi as [-> _].
  - unfold restored. rewrite length_map, L1. split_and!; [done..|]. intros i s s' Hi Hi'.
    rewrite list_lookup_fmap, Hi, Hck in Hi'. apply (inj Some) in Hi' as <-.
    apply (restored_slot _ _ i). by apply T1.
  - rewrite length_replicate. split_and!; [done..|]. intros i s s' _ Hi'.
    by apply lookup_replicate in Hi' as [-> _].
Qed.
End reset.

(** ** A concrete reset *)

Lemma demo_layout_size r x : length (demo_layout (r <| checksum := x |>)) = length (demo_layout r).
Proof. reflexivity. Qed.

Lemma demo_layout_checksum r x i :
  (i < checksum_offset \/ checksum_offset + 4 <= i)%nat ->
  demo_layout (r <| checksum := x |>) !! i = demo_layout r !! i.
Proof.
  unfold checksum_offset. intros H. do 12 (destruct i as [|i]; [by try (exfalso; lia)|]). done.
Qed.

Abbreviation demo_before := (auth_step demo_layout demo_sha256
  (Present (demo_auth_env 4000 0) (demo_token 7) true) demo_session_world).2.

Abbreviation demo_reset :=
  (auth_step demo_layout demo_sha256 (Reset ESP_RST_PANIC None demo_locks) demo_before).2.

(** The browser's session is found after a panic, as old as it was. *)
Lemma sessions_survive_reset_witness :
  let before := sessions (retained (auth demo_before)) in
  let after := found_table demo_layout (demo_auth_env 9000 0) demo_reset in
  map used (take 2 after) = [true; false] /\
  length before = AUTH_SESSION_SLOTS /\ length after = AUTH_SESSION_SLOTS /\
  forall i s s', before !! i = Some s -> after !! i = Some s' ->
    (used s' = true <-> carried_over 4000 s) /\ (used s' = true -> same_ages 4000 1000 s s').
Proof.
  cbv zeta. split; [by_eval|].
  refine (sessions_survive_reset demo_layout demo_sha256 demo_sha256_bytes demo_layout_size
    demo_layout_checksum demo_logins demo_powered (demo_auth_env 4000 0) (demo_token 7) true
    ESP_RST_PANIC demo_locks (demo_auth_env 9000 0) demo_logins_ok demo_powered_on _ _ _ _).
  - by_eval.
  - by eexists.
  - by_eval.
  - done.
Defined.
