(* ===== verification/SettingsStore.v ===== *)
(** * Settings in flash: [infrastructure/settings_store.c], [flash_access.c] and
    [secret_store.c]

    ESP-IDF's non-volatile storage is not part of the repository: it is an
    interface, a class of operations and a class of the documented laws that the
    services rely on.  A store that keeps its contents in a finite map is an
    instance. *)

From stdpp Require Import gmap.
From S2P Require Import Prelude Firmware.

Definition ESP_ERR_NVS_NOT_FOUND : esp_err_t := ESP_ERR_OTHER 0x1102.
Definition ESP_ERR_NVS_INVALID_LENGTH : esp_err_t := ESP_ERR_OTHER 0x110c.

Inductive nvs_open_mode_t := NVS_READONLY | NVS_READWRITE.

#[export] Instance nvs_open_mode_eq_dec : EqDecision nvs_open_mode_t.
Proof. solve_decision. Defined.

Inductive nvs_int := NVS_U8 | NVS_U16 | NVS_U32 | NVS_I32.

#[export] Instance nvs_int_eq_dec : EqDecision nvs_int.
Proof. solve_decision. Defined.

Inductive nvs_value := NvsInt (type : nvs_int) (v : Z) | NvsStr (s : list Z).

#[export] Instance nvs_value_eq_dec : EqDecision nvs_value.
Proof. solve_decision. Defined.

(** A namespace and a key in it. *)
Abbreviation nvs_key := (list Z * list Z)%type (only parsing).

(** ** The interface of the storage *)

Class Nvs (N : Type) := {
  nvs_open : cstring -> nvs_open_mode_t -> N -> esp_err_t * Z * N;
  nvs_close : Z -> N -> N;
  (** The error, the text stored through [out] and the length with the final
      zero; [room]: [None] when [out] is NULL. *)
  nvs_get_str : Z -> cstring -> option nat -> N -> esp_err_t * cstring * nat;
  nvs_get_int : nvs_int -> Z -> cstring -> N -> esp_err_t * Z;
  nvs_set : nvs_value -> Z -> cstring -> N -> esp_err_t * N;
  nvs_erase_key : Z -> cstring -> N -> esp_err_t * N;
  nvs_erase_all : Z -> N -> esp_err_t * N;
  nvs_commit : Z -> N -> esp_err_t * N;
  (** The loss of power, and the next start. *)
  nvs_restarts : N -> N -> Prop
}.

(** [contents]: what reads see; [flash n k]: what a restart may find under [k]. *)
Class NvsLaws (N : Type) `{Nvs N} := {
  contents : N -> gmap nvs_key nvs_value;
  flash : N -> nvs_key -> option nvs_value -> Prop;
  opened : N -> Z -> option (cstring * nvs_open_mode_t);
  flash_contents n k : flash n k (contents n !! k);
  open_law ns mode n e h n' :
    nvs_open ns mode n = (e, h, n') ->
    contents n' = contents n /\ flash n' = flash n /\
    (e = ESP_OK -> opened n' h = Some (ns, mode)) /\
    (e = ESP_ERR_NVS_NOT_FOUND \/ e = ESP_ERR_NOT_FOUND -> forall key, contents n !! (ns, key) = None);
  close_law h n : contents (nvs_close h n) = contents n /\ flash (nvs_close h n) = flash n;
  get_str_law n h ns mode key room e text size :
    opened n h = Some (ns, mode) -> nvs_get_str h key room n = (e, text, size) ->
    (e = ESP_OK -> exists s, contents n !! (ns, key) = Some (NvsStr s) /\ size = S (length s) /\
                   forall r, room = Some r -> (length s < r)%nat /\ text = s) /\
    (e = ESP_ERR_NVS_NOT_FOUND \/ e = ESP_ERR_NOT_FOUND ->
     forall s, contents n !! (ns, key) <> Some (NvsStr s));
  get_int_law n h ns mode type key e v :
    opened n h = Some (ns, mode) -> nvs_get_int type h key n = (e, v) ->
    (e = ESP_OK -> contents n !! (ns, key) = Some (NvsInt type v)) /\
    (e = ESP_ERR_NVS_NOT_FOUND \/ e = ESP_ERR_NOT_FOUND ->
     forall v, contents n !! (ns, key) <> Some (NvsInt type v));
  set_law n h ns v key e n' :
    opened n h = Some (ns, NVS_READWRITE) -> nvs_set v h key n = (e, n') ->
    opened n' = opened n /\
    (forall k, k <> (ns, key) -> contents n' !! k = contents n !! k /\ flash n' k = flash n k) /\
    (contents n' !! (ns, key) = Some v \/
     e <> ESP_OK /\ contents n' !! (ns, key) = contents n !! (ns, key)) /\
    (forall x, flash n' (ns, key) x -> flash n (ns, key) x \/ x = Some v);
  erase_key_law n h ns key e n' :
    opened n h = Some (ns, NVS_READWRITE) -> nvs_erase_key h key n = (e, n') ->
    opened n' = opened n /\
    (forall k, k <> (ns, key) -> contents n' !! k = contents n !! k /\ flash n' k = flash n k) /\
    (contents n' !! (ns, key) = None \/
     e <> ESP_OK /\ e <> ESP_ERR_NVS_NOT_FOUND /\ e <> ESP_ERR_NOT_FOUND /\
     contents n' !! (ns, key) = contents n !! (ns, key)) /\
    (forall x, flash n' (ns, key) x -> flash n (ns, key) x \/ x = None);
  erase_all_law n h ns e n' :
    opened n h = Some (ns, NVS_READWRITE) -> nvs_erase_all h n = (e, n') ->
    opened n' = opened n /\
    (forall k, k.1 <> ns -> contents n' !! k = contents n !! k /\ flash n' k = flash n k) /\
    (e = ESP_OK -> forall key, contents n' !! (ns, key) = None) /\
    (forall key x, flash n' (ns, key) x -> flash n (ns, key) x \/ x = None);
  commit_law n h ns e n' :
    opened n h = Some (ns, NVS_READWRITE) -> nvs_commit h n = (e, n') ->
    opened n' = opened n /\ contents n' = contents n /\
    (forall k, k.1 <> ns -> flash n' k = flash n k) /\
    (forall key x, flash n' (ns, key) x -> flash n (ns, key) x) /\
    (e = ESP_OK -> forall key x, flash n' (ns, key) x -> x = contents n !! (ns, key));
  restart_law n n' :
    nvs_restarts n n' ->
    forall k, flash n k (contents n' !! k) /\ forall x, flash n' k x -> x = contents n' !! k
}.

(** ** Where a task may touch the flash

    [direct]: the calling task's stack is in internal memory; [proxy]: the proxy
    task runs; [proxy_lock]: whether each wait for its lock ends in time. *)

Record flash_access := mk_flash { direct : bool; proxy : bool; proxy_lock : list bool }.

#[export] Instance eta_flash_access : Settable flash_access := fun f =>
  mk_flash (direct f) (proxy f) (proxy_lock f).

Record system (N : Type) := mk_system { nvs : N; access : flash_access }.
Arguments mk_system {N} _ _.
Arguments nvs {N} _.
Arguments access {N} _.

#[export] Instance eta_system N : Settable (system N) := fun s => mk_system (nvs s) (access s).

Record si_settings_store_t := mk_settings_store { handle : Z; open : bool; writable : bool }.

Definition SI_SETTINGS_STORE_INITIALIZER : si_settings_store_t := mk_settings_store 0 false false.

Section settings.
Context {N : Type} `{Nvs N}.

Definition si_flash_access_direct : st (system N) bool := gets (fun s => direct (access s)).

(** [fn] runs on the proxy task, whose stack is internal, or here. *)
Definition on_proxy {A} (fn : st (system N) A) : st (system N) A := fun s =>
  let '(r, s') := fn (s <| access := (access s) <| direct := true |> |>) in
  (r, s' <| access := (access s') <| direct := direct (access s) |> |>).

Definition take_proxy_lock : st (system N) bool := fun s =>
  (default false (head (proxy_lock (access s))),
   s <| access := (access s) <| proxy_lock := tail (proxy_lock (access s)) |> |>).

Definition si_flash_access_init (created : bool) : st (system N) esp_err_t :=
  running ← gets (fun s => proxy (access s));
  return_if running with mret ESP_OK ;;
  modify (fun s => s <| access := (access s) <| proxy := created |> |>);;
  mret (if created then ESP_OK else ESP_FAIL).

(** [failed e]: the result of the call when its function does not run. *)
Definition si_flash_access_call {A} (failed : esp_err_t -> A) (fn : option (st (system N) A))
  : st (system N) A :=
  match fn with
  | None => mret (failed ESP_ERR_INVALID_ARG)
  | Some fn =>
      here ← si_flash_access_direct;
      return_if here with fn ;;
      running ← gets (fun s => proxy (access s));
      return_if negb running with mret (failed ESP_ERR_INVALID_STATE) ;;
      taken ← take_proxy_lock;
      return_if negb taken with mret (failed ESP_ERR_TIMEOUT) ;;
      on_proxy fn
  end.

(** ** The settings store *)

Definition normalize_error (error : esp_err_t) : esp_err_t :=
  return_if bool_decide (error = ESP_ERR_NVS_NOT_FOUND) with ESP_ERR_NOT_FOUND ;;
  return_if bool_decide (error = ESP_ERR_NVS_INVALID_LENGTH) with ESP_ERR_INVALID_SIZE ;;
  error.

Definition validate_store (store : option si_settings_store_t) (require_write : bool)
  : st (system N) esp_err_t :=
  match store with
  | None => mret ESP_ERR_INVALID_STATE
  | Some store =>
      return_if negb (open store) with mret ESP_ERR_INVALID_STATE ;;
      return_if require_write && negb (writable store) with mret ESP_ERR_INVALID_STATE ;;
      can ← si_flash_access_direct;
      mret (if can then ESP_OK else ESP_ERR_INVALID_STATE)
  end.

Definition handle_of (store : option si_settings_store_t) : Z :=
  match store with Some store => handle store | None => 0 end.

(** An operation of the storage, on its part of the system. *)
Definition on_nvs {A} (f : N -> A * N) : st (system N) A := fun s =>
  let '(a, n) := f (nvs s) in (a, s <| nvs := n |>).

(** The result of an opening: the error and the store afterwards. *)
Definition open_store (store : option si_settings_store_t) (namespace_name : option cstring)
    (mode : nvs_open_mode_t) : st (system N) (esp_err_t * option si_settings_store_t) :=
  match store, namespace_name with
  | Some closed, Some name =>
      return_if is_empty name with mret (ESP_ERR_INVALID_ARG, store) ;;
      return_if open closed with mret (ESP_ERR_INVALID_STATE, store) ;;
      can ← si_flash_access_direct;
      return_if negb can with mret (ESP_ERR_INVALID_STATE, store) ;;
      r ← on_nvs (nvs_open name mode);
      let ret := normalize_error r.1 in
      mret (if bool_decide (ret = ESP_OK)
            then (ret, Some (mk_settings_store r.2 true (bool_decide (mode = NVS_READWRITE))))
            else (ret, store))
  | _, _ => mret (ESP_ERR_INVALID_ARG, store)
  end.

Definition si_settings_store_open_read (store : option si_settings_store_t)
    (namespace_name : option cstring) :=
  si_flash_access_call (fun e => (e, store)) (Some (open_store store namespace_name NVS_READONLY)).

Definition si_settings_store_open_write (store : option si_settings_store_t)
    (namespace_name : option cstring) :=
  si_flash_access_call (fun e => (e, store)) (Some (open_store store namespace_name NVS_READWRITE)).

Definition si_settings_store_close (store : option si_settings_store_t)
  : st (system N) (option si_settings_store_t) :=
  return_if negb (match store with Some store => open store | None => false end) with mret store ;;
  on_nvs (fun n => (tt, nvs_close (handle_of store) n));;
  mret (Some SI_SETTINGS_STORE_INITIALIZER).

(** [out_size]: [None] when [out] is NULL.  The text is stored through [out]. *)
Definition store_get_string_direct (store : option si_settings_store_t) (key : option cstring)
    (out_size : option nat) : st (system N) (esp_err_t * cstring) :=
  match key, out_size with
  | Some key, Some (S _) =>
      ret ← validate_store store false;
      return_if negb (bool_decide (ret = ESP_OK)) with mret (ret, []) ;;
      r ← gets (fun s => nvs_get_str (handle_of store) key out_size (nvs s));
      mret (normalize_error r.1.1, r.1.2)
  | _, _ => mret (ESP_ERR_INVALID_ARG, [])
  end.

Definition store_get_string_size_direct (store : option si_settings_store_t)
    (key : option cstring) (size_out : bool) : st (system N) (esp_err_t * nat) :=
  match key with
  | Some key =>
      return_if negb size_out with mret (ESP_ERR_INVALID_ARG, 0%nat) ;;
      ret ← validate_store store false;
      return_if negb (bool_decide (ret = ESP_OK)) with mret (ret, 0%nat) ;;
      r ← gets (fun s => nvs_get_str (handle_of store) key None (nvs s));
      mret (normalize_error r.1.1, r.2)
  | None => mret (ESP_ERR_INVALID_ARG, 0%nat)
  end.

(** [DEFINE_GETTER]: [out] says whether the pointer is not NULL. *)
Definition store_get_int_direct (type : nvs_int) (store : option si_settings_store_t)
    (key : option cstring) (out : bool) : st (system N) (esp_err_t * Z) :=
  match key with
  | Some key =>
      return_if negb out with mret (ESP_ERR_INVALID_ARG, 0) ;;
      ret ← validate_store store false;
      return_if negb (bool_decide (ret = ESP_OK)) with mret (ret, 0) ;;
      r ← gets (fun s => nvs_get_int type (handle_of store) key (nvs s));
      mret (normalize_error r.1, r.2)
  | None => mret (ESP_ERR_INVALID_ARG, 0)
  end.

(** A change under a writable handle. *)
Definition changes_store (store : option si_settings_store_t) (f : Z -> N -> esp_err_t * N)
  : st (system N) esp_err_t :=
  ret ← validate_store store true;
  return_if negb (bool_decide (ret = ESP_OK)) with mret ret ;;
  e ← on_nvs (f (handle_of store));
  mret (normalize_error e).

Definition store_set_string_direct (store : option si_settings_store_t)
    (key value : option cstring) : st (system N) esp_err_t :=
  match key, value with
  | Some key, Some value => changes_store store (fun h => nvs_set (NvsStr value) h key)
  | _, _ => mret ESP_ERR_INVALID_ARG
  end.

(** [DEFINE_SETTER] *)
Definition store_set_int_direct (type : nvs_int) (store : option si_settings_store_t)
    (key : option cstring) (value : Z) : st (system N) esp_err_t :=
  match key with
  | Some key => changes_store store (fun h => nvs_set (NvsInt type value) h key)
  | None => mret ESP_ERR_INVALID_ARG
  end.

Definition store_erase_key_direct (store : option si_settings_store_t) (key : option cstring)
  : st (system N) esp_err_t :=
  match key with
  | Some key => changes_store store (fun h => nvs_erase_key h key)
  | None => mret ESP_ERR_INVALID_ARG
  end.

Definition store_erase_all_direct (store : option si_settings_store_t)
  : st (system N) esp_err_t := changes_store store nvs_erase_all.

Definition store_commit_direct (store : option si_settings_store_t)
  : st (system N) esp_err_t := changes_store store nvs_commit.

(** ** The entry points

    Each names the operation that [store_op_run] selects; the value of a number
    passes through the [uint32_t] of the request. *)

Definition si_settings_store_get_string store key out_size :=
  si_flash_access_call (fun e => (e, [])) (Some (store_get_string_direct store key out_size)).

Definition si_settings_store_get_string_size store key size_out :=
  si_flash_access_call (fun e => (e, 0%nat))
    (Some (store_get_string_size_direct store key size_out)).

Definition si_settings_store_get_int (type : nvs_int) store key out :=
  si_flash_access_call (fun e => (e, 0)) (Some (store_get_int_direct type store key out)).

Definition si_settings_store_set_string store key value :=
  si_flash_access_call id (Some (store_set_string_direct store key value)).

(** [(int32_t)(uint32_t)value] *)
Definition int32 (v : Z) : Z :=
  if v <? 2 ^ 31 then v else v - 2 ^ 32.

Definition narrow (type : nvs_int) (number : Z) : Z :=
  match type with
  | NVS_U8 => u8 number
  | NVS_U16 => u16 number
  | NVS_U32 => number
  | NVS_I32 => int32 number
  end.

Definition si_settings_store_set_int (type : nvs_int) store key (value : Z) :=
  si_flash_access_call id (Some (store_set_int_direct type store key (narrow type (u32 value)))).

Definition si_settings_store_erase_key store key :=
  si_flash_access_call id (Some (store_erase_key_direct store key)).

Definition si_settings_store_erase_all store :=
  si_flash_access_call id (Some (store_erase_all_direct store)).

Definition si_settings_store_commit store :=
  si_flash_access_call id (Some (store_commit_direct store)).

(** ** Secrets *)

Definition si_secret_store_get_string (store : option si_settings_store_t) (key : option cstring)
    (out_size : option nat) : st (system N) (esp_err_t * cstring) :=
  return_if negb (match out_size with Some (S _) => true | _ => false end)
    with mret (ESP_ERR_INVALID_ARG, []) ;;
  r ← si_settings_store_get_string store key out_size;
  return_if negb (bool_decide (r.1 = ESP_OK)) || is_empty r.2
    with mret (if bool_decide (r.1 = ESP_OK) then ESP_ERR_NOT_FOUND else r.1, []) ;;
  mret (ESP_OK, r.2).

Definition si_secret_store_set_string (store : option si_settings_store_t)
    (key value : option cstring) : st (system N) esp_err_t :=
  return_if negb (ptr_test (fun v => negb (is_empty v)) value) with mret ESP_ERR_INVALID_ARG ;;
  si_settings_store_set_string store key value.

Definition si_secret_store_is_configured (store : option si_settings_store_t)
    (key : option cstring) (configured_out : bool) : st (system N) (esp_err_t * bool) :=
  return_if negb configured_out with mret (ESP_ERR_INVALID_ARG, false) ;;
  r ← si_settings_store_get_string_size store key true;
  return_if bool_decide (r.1 = ESP_ERR_NOT_FOUND) with mret (ESP_OK, false) ;;
  mret (r.1, bool_decide (r.1 = ESP_OK) && (1 <? r.2)%nat).

Definition si_secret_store_erase (store : option si_settings_store_t) (key : option cstring)
  : st (system N) esp_err_t :=
  ret ← si_settings_store_erase_key store key;
  mret (if bool_decide (ret = ESP_ERR_NOT_FOUND) then ESP_OK else ret).

(** How a service replaces a secret: open, set, commit, close. *)
Definition replace_secret (ns key v : cstring) : st (system N) esp_err_t :=
  r ← si_settings_store_open_write (Some SI_SETTINGS_STORE_INITIALIZER) (Some ns);
  ret ← (if bool_decide (r.1 = ESP_OK) then si_secret_store_set_string r.2 (Some key) (Some v)
         else mret r.1);
  ret ← (if bool_decide (ret = ESP_OK) then si_settings_store_commit r.2 else mret ret);
  si_settings_store_close r.2;;
  mret ret.
End settings.
