(* ===== verification/SettingsStoreProps.v ===== *)
(** * Settings in flash: properties

    What the entry points of the settings store do to the storage, from the laws of
    its interface; a record that is written, committed and found again; and a store
    over finite maps that obeys the laws. *)

From Stdlib Require Import String.
From stdpp Require Import gmap.
From S2P Require Import Prelude Firmware SettingsStore.

Lemma normalize_cases e :
  e = ESP_ERR_NVS_NOT_FOUND /\ normalize_error e = ESP_ERR_NOT_FOUND \/
  e = ESP_ERR_NVS_INVALID_LENGTH /\ normalize_error e = ESP_ERR_INVALID_SIZE \/
  e <> ESP_ERR_NVS_NOT_FOUND /\ normalize_error e = e.
Proof.
  unfold normalize_error. case_if; [left; by apply bool_decide_eq_true in Heqb|].
  apply bool_decide_eq_false in Heqb. right.
  case_if; [left; by apply bool_decide_eq_true in Heqb0 | by right].
Qed.

Lemma normalize_ok e : normalize_error e = ESP_OK <-> e = ESP_OK.
Proof. destruct (normalize_cases e) as [[-> ->]|[[-> ->]|[_ ->]]]; done. Qed.

Lemma normalize_not_found e :
  normalize_error e = ESP_ERR_NOT_FOUND <-> e = ESP_ERR_NVS_NOT_FOUND \/ e = ESP_ERR_NOT_FOUND.
Proof.
  destruct (normalize_cases e) as [[-> ->]|[[-> ->]|[H ->]]].
  - split; [by left | done].
  - split; [done | by intros []].
  - split; [by right | by intros []].
Qed.

Section specs.
Context {N : Type} `{NvsLaws N}.
Implicit Types (s : system N) (n : N).

(** Wherever the calling task's stack is, a call through the proxy does what the
    function does to the storage, or fails before it. *)
Lemma call_spec {A} (failed : esp_err_t -> A) fn (Q : A -> N -> Prop) s :
  (forall s1, nvs s1 = nvs s -> wp fn (fun a s2 => Q a (nvs s2)) s1) ->
  (forall e, e = ESP_ERR_INVALID_STATE \/ e = ESP_ERR_TIMEOUT -> Q (failed e) (nvs s)) ->
  wp (si_flash_access_call failed (Some fn)) (fun a s2 => Q a (nvs s2)) s.
Proof using.
  intros Hfn Hf. unfold si_flash_access_call, si_flash_access_direct. apply wp_bind, wp_gets.
  case_if; [by apply Hfn|]. apply wp_bind, wp_gets. case_if; [by apply wp_ret, Hf; left|].
  apply wp_bind, wp_intro. unfold take_proxy_lock. cbn [fst snd].
  case_if; [by apply wp_ret, (Hf ESP_ERR_TIMEOUT); right|].
  apply wp_intro. unfold on_proxy.
  match goal with |- context [fn ?x] => specialize (Hfn x eq_refl) end.
  unfold wp in Hfn. by destruct (fn _) as [a s2].
Qed.

(** ** Opening and closing *)

Definition opens (ns : cstring) (mode : nvs_open_mode_t) n (r : esp_err_t * option si_settings_store_t) n'
  : Prop :=
  contents n' = contents n /\ flash n' = flash n /\
  (r.1 = ESP_OK -> exists h, r.2 = Some (mk_settings_store h true (bool_decide (mode = NVS_READWRITE))) /\
                             opened n' h = Some (ns, mode)) /\
  (r.1 <> ESP_OK -> r.2 = Some SI_SETTINGS_STORE_INITIALIZER) /\
  (r.1 = ESP_ERR_NOT_FOUND -> forall key, contents n !! (ns, key) = None).

Lemma open_store_spec ns mode s :
  ns <> [] ->
  wp (open_store (Some SI_SETTINGS_STORE_INITIALIZER) (Some ns) mode)
    (fun r s' => opens ns mode (nvs s) r (nvs s')) s.
Proof.
  intros Hns. unfold open_store. assert (is_empty ns = false) as -> by by destruct ns.
  change (open SI_SETTINGS_STORE_INITIALIZER) with false.
  apply wp_bind, wp_gets. case_if; [by apply wp_ret|].
  apply wp_bind, wp_intro. unfold on_nvs. destruct (nvs_open ns mode (nvs s)) as [[e h] n] eqn:E.
  apply wp_ret. cbn [fst snd]. change (nvs (s <| nvs := n |>)) with n.
  destruct (open_law ns mode (nvs s) e h n E) as (Hc & Hf & Ho & Hn).
  case_if; decided.
  - apply normalize_ok in Heqb0 as ->. split_and!; try done. intros _. exists h. auto.
  - split_and!; try done. intros Hx%normalize_not_found. by apply Hn.
Qed.

Lemma open_failed ns mode n e :
  e = ESP_ERR_INVALID_STATE \/ e = ESP_ERR_TIMEOUT ->
  opens ns mode n (e, Some SI_SETTINGS_STORE_INITIALIZER) n.
Proof. intros He. split_and!; try done; cbn [fst snd]; by destruct He as [-> | ->]. Qed.

Lemma open_read_spec ns s :
  ns <> [] ->
  wp (si_settings_store_open_read (Some SI_SETTINGS_STORE_INITIALIZER) (Some ns))
    (fun r s' => opens ns NVS_READONLY (nvs s) r (nvs s')) s.
Proof.
  intros Hns. apply (call_spec _ _ (opens ns NVS_READONLY (nvs s))); [|apply open_failed].
  intros s1 E. rewrite <- E. by apply open_store_spec.
Qed.

Lemma open_write_spec ns s :
  ns <> [] ->
  wp (si_settings_store_open_write (Some SI_SETTINGS_STORE_INITIALIZER) (Some ns))
    (fun r s' => opens ns NVS_READWRITE (nvs s) r (nvs s')) s.
Proof.
  intros Hns. apply (call_spec _ _ (opens ns NVS_READWRITE (nvs s))); [|apply open_failed].
  intros s1 E. rewrite <- E. by apply open_store_spec.
Qed.

Lemma close_spec store s :
  wp (si_settings_store_close store)
    (fun _ s' => contents (nvs s') = contents (nvs s) /\ flash (nvs s') = flash (nvs s)) s.
Proof.
  unfold si_settings_store_close. case_if; [by apply wp_ret|].
  apply wp_bind, wp_intro. apply wp_ret. apply close_law.
Qed.

(** ** Reading *)

(** What a getter of [A] says about the value that [inj] stores under a key. *)
Definition reads {A} (inj : A -> nvs_value) (k : nvs_key) n (r : esp_err_t * A) : Prop :=
  (r.1 = ESP_OK -> contents n !! k = Some (inj r.2)) /\
  (r.1 = ESP_ERR_NOT_FOUND -> forall v, contents n !! k <> Some (inj v)).

Lemma reads_failed {A} (inj : A -> nvs_value) k n e (a : A) :
  e = ESP_ERR_INVALID_STATE \/ e = ESP_ERR_TIMEOUT -> reads inj k n (e, a).
Proof. intros [-> | ->]; by split. Qed.

Lemma getter_spec {A} (none : A) h w (get : st (system N) (esp_err_t * A)) s (Q : esp_err_t * A -> Prop) :
  (forall s1, nvs s1 = nvs s -> wp get (fun r s' => nvs s' = nvs s /\ Q r) s1) ->
  (forall e, e = ESP_ERR_INVALID_STATE \/ e = ESP_ERR_TIMEOUT -> Q (e, none)) ->
  wp (si_flash_access_call (fun e => (e, none)) (Some
       (ret ← validate_store (Some (mk_settings_store h true w)) false;
        return_if negb (bool_decide (ret = ESP_OK)) with mret (ret, none) ;; get)))
    (fun r s' => nvs s' = nvs s /\ Q r) s.
Proof using.
  intros Hg Hf. apply (call_spec _ _ (fun r n => n = nvs s /\ Q r)); [|by auto].
  intros s1 E. apply wp_bind. unfold validate_store. cbn [open writable andb negb].
  apply wp_bind, wp_gets, wp_ret.
  destruct (direct (access s1)); cbn [bool_decide negb]; [|apply wp_ret; by auto].
  case_if; [done | by apply Hg].
Qed.

Lemma get_string_spec h ns w key room s :
  opened (nvs s) h = Some (ns, if w : bool then NVS_READWRITE else NVS_READONLY) ->
  wp (si_settings_store_get_string (Some (mk_settings_store h true w)) (Some key) (Some (S room)))
    (fun r s' => nvs s' = nvs s /\ reads NvsStr (ns, key) (nvs s) r) s.
Proof.
  intros Ho. apply getter_spec; [|intros e; by apply reads_failed].
  intros s1 E. apply wp_bind, wp_gets, wp_ret. rewrite E. split; [done|]. unfold reads. cbn [handle_of handle fst snd].
  rewrite normalize_ok, normalize_not_found.
  destruct (nvs_get_str h key (Some (S room)) (nvs s)) as [[e text] size] eqn:Eg.
  destruct (get_str_law _ _ _ _ _ _ _ _ _ Ho Eg) as [Hok Hno]. split; [|done]. intros He.
  destruct (Hok He) as (t & Ht & _ & Hr). by destruct (Hr _ eq_refl) as [_ ->].
Qed.

Lemma get_int_spec type h ns w key s :
  opened (nvs s) h = Some (ns, if w : bool then NVS_READWRITE else NVS_READONLY) ->
  wp (si_settings_store_get_int type (Some (mk_settings_store h true w)) (Some key) true)
    (fun r s' => nvs s' = nvs s /\ reads (NvsInt type) (ns, key) (nvs s) r) s.
Proof.
  intros Ho. apply getter_spec; [|intros e; by apply reads_failed].
  intros s1 E. apply wp_bind, wp_gets, wp_ret. rewrite E. split; [done|]. unfold reads. cbn [handle_of handle fst snd].
  rewrite normalize_ok, normalize_not_found.
  destruct (nvs_get_int type h key (nvs s)) as [e v] eqn:Eg. by apply (get_int_law _ _ _ _ _ _ _ _ Ho Eg).
Qed.

Lemma get_secret_spec h ns w key room s :
  opened (nvs s) h = Some (ns, if w : bool then NVS_READWRITE else NVS_READONLY) ->
  wp (si_secret_store_get_string (Some (mk_settings_store h true w)) (Some key) (Some (S room)))
    (fun r s' => nvs s' = nvs s /\
       (r.1 = ESP_OK -> contents (nvs s) !! (ns, key) = Some (NvsStr r.2) /\ r.2 <> []) /\
       (r.1 = ESP_ERR_NOT_FOUND -> forall v, v <> [] -> contents (nvs s) !! (ns, key) <> Some (NvsStr v))) s.
Proof.
  intros Ho. unfold si_secret_store_get_string. apply wp_bind.
  eapply wp_mono; [by apply get_string_spec|]. intros r s' [E [Hok Hno]]. case_if.
  - apply wp_ret. split; [exact E|]. cbn [fst snd]. case_if; decided; [|split; [done | by auto]].
    split; [done|]. intros _ v Hv. rewrite (Hok Heqb0). intros Ev. injection Ev as Ev.
    apply orb_prop in Heqb as [Hb|Hb]; decided; [done | by destruct r.2].
  - apply wp_ret. split_guards. decided. split; [exact E|]. split; [|done]. intros _. cbn [snd]. split; [auto|].
    by destruct r.2.
Qed.

(** ** Writing one value and committing it *)

(** What a change of one key leaves: the other keys as they were, and under the
    key what the flash could hold before, or the new value. *)
Definition one_key (k : nvs_key) (v : nvs_value) n n' : Prop :=
  (forall k', k' <> k -> contents n' !! k' = contents n !! k' /\ forall x, flash n' k' x -> flash n k' x) /\
  (contents n' !! k = contents n !! k \/ contents n' !! k = Some v) /\
  forall x, flash n' k x -> flash n k x \/ x = Some v.

#[export] Instance one_key_refl k v : Reflexive (one_key k v).
Proof. intros n. split_and!; auto. Qed.

#[export] Instance one_key_trans k v : Transitive (one_key k v).
Proof.
  intros n1 n2 n3 (K1 & C1 & F1) (K2 & C2 & F2). split_and!.
  - intros k' Hk. destruct (K1 k' Hk) as [E1 G1], (K2 k' Hk) as [E2 G2]. rewrite E2, E1. auto.
  - destruct C2 as [E2|E2]; rewrite E2; auto.
  - intros x Hx. destruct (F2 x Hx) as [H' | ->]; auto.
Qed.

Lemma one_key_firmer k v n n' :
  contents n' = contents n -> (forall k x, flash n' k x -> flash n k x) -> one_key k v n n'.
Proof. intros E H'. unfold one_key. rewrite E. split_and!; auto. Qed.

Lemma one_key_same k v n n' : contents n' = contents n -> flash n' = flash n -> one_key k v n n'.
Proof. intros E1 E2. apply one_key_firmer; [done|]. by rewrite E2. Qed.

Lemma changes_spec (f : Z -> N -> esp_err_t * N) h s (Q : esp_err_t -> N -> Prop) :
  (forall e n', f h (nvs s) = (e, n') -> Q (normalize_error e) n') ->
  (forall e, e = ESP_ERR_INVALID_STATE \/ e = ESP_ERR_TIMEOUT -> Q e (nvs s)) ->
  wp (si_flash_access_call id (Some (changes_store (Some (mk_settings_store h true true)) f)))
    (fun r s' => Q r (nvs s')) s.
Proof using.
  intros Hf He. apply (call_spec _ _ Q); [|exact He].
  intros s1 E. unfold changes_store, validate_store. cbn [open writable negb andb].
  apply wp_bind, wp_bind, wp_gets, wp_ret.
  destruct (direct (access s1)); cbn [bool_decide negb]; [|apply wp_ret; rewrite E; by apply He; left].
  change (negb (bool_decide (ESP_OK = ESP_OK))) with false.
  apply wp_bind, wp_intro. unfold on_nvs. cbn [handle_of handle]. rewrite E.
  destruct (f h (nvs s)) as [e n'] eqn:Ef. apply wp_ret. by apply Hf.
Qed.

(** What setting a value leaves. *)
Definition sets (k : nvs_key) (v : nvs_value) (e : esp_err_t) n n' : Prop :=
  opened n' = opened n /\ one_key k v n n' /\ (e = ESP_OK -> contents n' !! k = Some v).

Lemma set_value_spec h ns key v s :
  opened (nvs s) h = Some (ns, NVS_READWRITE) ->
  wp (si_flash_access_call id (Some (changes_store (Some (mk_settings_store h true true)) (fun h => nvs_set v h key))))
    (fun e s' => sets (ns, key) v e (nvs s) (nvs s')) s.
Proof.
  intros Ho. apply (changes_spec _ _ _ (fun e => sets (ns, key) v e (nvs s))).
  - intros e n' E. destruct (set_law _ _ _ _ _ _ _ Ho E) as (Ho' & Hk & Hc & Hf).
    split_and!; [done | |].
    { split_and!; [|destruct Hc as [?|[_ ?]]; auto | done]. intros k' Hk'.
      destruct (Hk k' Hk') as [-> ->]. auto. }
    rewrite normalize_ok. by destruct Hc as [?|[? _]].
  - intros e He. split_and!; [done | done |]. intros ->. by destruct He.
Qed.

Lemma set_secret_spec h ns key v s :
  opened (nvs s) h = Some (ns, NVS_READWRITE) ->
  wp (si_secret_store_set_string (Some (mk_settings_store h true true)) (Some key) (Some v))
    (fun e s' => sets (ns, key) (NvsStr v) e (nvs s) (nvs s')) s.
Proof.
  intros Ho. unfold si_secret_store_set_string. case_if; [by apply wp_ret | by apply set_value_spec].
Qed.

Lemma commit_spec h ns s :
  opened (nvs s) h = Some (ns, NVS_READWRITE) ->
  wp (si_settings_store_commit (Some (mk_settings_store h true true)))
    (fun e s' => contents (nvs s') = contents (nvs s) /\
       (forall k x, flash (nvs s') k x -> flash (nvs s) k x) /\
       (e = ESP_OK -> forall key x, flash (nvs s') (ns, key) x -> x = contents (nvs s) !! (ns, key))) s.
Proof.
  intros Ho. unfold si_settings_store_commit, store_commit_direct.
  apply (changes_spec _ _ _ (fun e n' => contents n' = contents (nvs s) /\
       (forall k x, flash n' k x -> flash (nvs s) k x) /\
       (e = ESP_OK -> forall key x, flash n' (ns, key) x -> x = contents (nvs s) !! (ns, key)))).
  - intros e n' E. destruct (commit_law _ _ _ _ _ Ho E) as (_ & Hc & Hk & Hf & Hok).
    split_and!; [done | | by rewrite normalize_ok]. intros [ns' key] x Hx.
    destruct (decide (ns' = ns)) as [->|Hne]; [by apply Hf | by rewrite Hk in Hx].
  - intros e He. split_and!; try done. intros ->. by destruct He.
Qed.

Lemma commit_opened h ns s :
  opened (nvs s) h = Some (ns, NVS_READWRITE) ->
  wp (si_settings_store_commit (Some (mk_settings_store h true true))) (fun _ s' => opened (nvs s') = opened (nvs s)) s.
Proof.
  intros Ho. unfold si_settings_store_commit, store_commit_direct.
  apply (changes_spec _ _ _ (fun _ n' => opened n' = opened (nvs s))); [|done].
  intros e n' E. by destruct (commit_law _ _ _ _ _ Ho E).
Qed.

Lemma erase_all_opened h ns s :
  opened (nvs s) h = Some (ns, NVS_READWRITE) ->
  wp (si_settings_store_erase_all (Some (mk_settings_store h true true))) (fun _ s' => opened (nvs s') = opened (nvs s)) s.
Proof.
  intros Ho. unfold si_settings_store_erase_all, store_erase_all_direct.
  apply (changes_spec _ _ _ (fun _ n' => opened n' = opened (nvs s))); [|done].
  intros e n' E. by destruct (erase_all_law _ _ _ _ _ Ho E).
Qed.

(** ** Sizes and erasures *)

Lemma get_size_spec h ns w key s :
  opened (nvs s) h = Some (ns, if w : bool then NVS_READWRITE else NVS_READONLY) ->
  wp (si_settings_store_get_string_size (Some (mk_settings_store h true w)) (Some key) true)
    (fun r s' => nvs s' = nvs s /\
       (r.1 = ESP_OK -> exists t, contents (nvs s) !! (ns, key) = Some (NvsStr t) /\ r.2 = S (length t)) /\
       (r.1 = ESP_ERR_NOT_FOUND -> forall v, contents (nvs s) !! (ns, key) <> Some (NvsStr v))) s.
Proof.
  intros Ho. apply getter_spec; [|intros e [-> | ->]; by split].
  intros s1 E. apply wp_bind, wp_gets, wp_ret. rewrite E. split; [done|]. cbn [handle_of handle fst snd].
  rewrite normalize_ok, normalize_not_found.
  destruct (nvs_get_str h key None (nvs s)) as [[e text] size] eqn:Eg.
  destruct (get_str_law _ _ _ _ _ _ _ _ _ Ho Eg) as [Hok Hno]. split; [|done]. intros He.
  destruct (Hok He) as (t & Ht & Hs & _). by exists t.
Qed.

Lemma is_configured_spec h ns w key s :
  opened (nvs s) h = Some (ns, if w : bool then NVS_READWRITE else NVS_READONLY) ->
  wp (si_secret_store_is_configured (Some (mk_settings_store h true w)) (Some key) true)
    (fun r s' => nvs s' = nvs s /\
       (r.1 = ESP_OK -> r.2 = true <-> exists t, contents (nvs s) !! (ns, key) = Some (NvsStr t) /\ t <> [])) s.
Proof.
  intros Ho. unfold si_secret_store_is_configured. cbn [negb]. apply wp_bind. eapply wp_mono; [by apply get_size_spec|].
  intros r s' (E & Hok & Hno). case_if; decided; apply wp_ret; (split; [exact E|]); cbn [fst snd]; intros He.
  - split; [done|]. intros (t & Ht & _). by destruct (Hno Heqb t).
  - destruct (Hok He) as (t & Ht & Hs). rewrite He, Hs, bool_decide_eq_true_2 by done. cbn [andb]. rewrite Nat.ltb_lt. split.
    + intros Hl. exists t. split; [done|]. intros ->. cbn in Hl. lia.
    + intros (t' & Ht' & Hne). rewrite Ht in Ht'. injection Ht' as <-. destruct t; [done|]. cbn. lia.
Qed.

(** Nothing changes in the flash. *)
Definition untouched n n' : Prop := contents n' = contents n /\ flash n' = flash n.

(** One key changes to [x], or the call fails. *)
Definition moves_to (k : nvs_key) (x : option nvs_value) (e : esp_err_t) n n' : Prop :=
  opened n' = opened n /\
  (forall k', k' <> k -> contents n' !! k' = contents n !! k' /\ forall y, flash n' k' y -> flash n k' y) /\
  (forall y, flash n' k y -> flash n k y \/ y = x) /\ (e = ESP_OK -> contents n' !! k = x).

Lemma moves_none k x e n : (e = ESP_OK -> contents n !! k = x) -> moves_to k x e n n.
Proof. intros He. split_and!; auto. Qed.

Lemma sets_moves k v e n n' : sets k v e n n' -> moves_to k (Some v) e n n'.
Proof. intros (Ho & (Hother & _ & Hf) & Hc). by split_and!. Qed.

Lemma set_string_moves h ns key v s :
  opened (nvs s) h = Some (ns, NVS_READWRITE) ->
  wp (si_settings_store_set_string (Some (mk_settings_store h true true)) (Some key) (Some v))
    (fun e s' => moves_to (ns, key) (Some (NvsStr v)) e (nvs s) (nvs s')) s.
Proof.
  intros Ho. eapply wp_mono; [by apply (set_value_spec h ns key (NvsStr v))|]. intros e s'. apply sets_moves.
Qed.

Lemma secret_erase_moves h ns key s :
  opened (nvs s) h = Some (ns, NVS_READWRITE) ->
  wp (si_secret_store_erase (Some (mk_settings_store h true true)) (Some key))
    (fun e s' => moves_to (ns, key) None e (nvs s) (nvs s')) s.
Proof.
  intros Ho. unfold si_secret_store_erase. apply wp_bind.
  apply wp_mono with (Q := fun e s' => moves_to (ns, key) None (if bool_decide (e = ESP_ERR_NOT_FOUND) then ESP_OK else e) (nvs s) (nvs s')).
  { apply (changes_spec (fun h n => nvs_erase_key h key n) h s (fun e => moves_to (ns, key) None
      (if bool_decide (e = ESP_ERR_NOT_FOUND) then ESP_OK else e) (nvs s))).
    - intros e n' E. destruct (erase_key_law _ _ _ _ _ _ Ho E) as (Ho' & Hk & Hc & Hf). split_and!; [done | | done |].
      + intros k' Hk'. destruct (Hk k' Hk') as [-> ->]. auto.
      + destruct Hc as [?|(He & Hn & Hn' & _)]; [done|]. case_if; decided; [apply normalize_not_found in Heqb as []; done|].
        by rewrite normalize_ok.
    - intros e He. apply moves_none. destruct He as [-> | ->]; done. }
  intros e s' Hm. by apply wp_ret.
Qed.

Lemma set_secret_moves h ns key v s :
  opened (nvs s) h = Some (ns, NVS_READWRITE) ->
  wp (si_secret_store_set_string (Some (mk_settings_store h true true)) (Some key) (Some v))
    (fun e s' => moves_to (ns, key) (Some (NvsStr v)) e (nvs s) (nvs s')) s.
Proof. intros Ho. eapply wp_mono; [by apply set_secret_spec|]. intros e s'. apply sets_moves. Qed.

(** The flash may newly hold only the values [W]. *)
Definition leaves (W : nvs_key -> option nvs_value -> Prop) n n' : Prop :=
  forall k x, flash n' k x -> flash n k x \/ W k x.

#[export] Instance leaves_refl W : Reflexive (leaves W).
Proof. intros n k x. auto. Qed.

#[export] Instance leaves_trans W : Transitive (leaves W).
Proof. intros n1 n2 n3 H1 H2 k x Hx. destruct (H2 k x Hx) as [Hx'|]; [by apply H1 | by right]. Qed.

Lemma untouched_leaves W n n' : untouched n n' -> leaves W n n'.
Proof. intros [_ E] k x. rewrite E. auto. Qed.

Lemma moves_leaves W k x e n n' : W k x \/ flash n k x -> moves_to k x e n n' -> leaves W n n'.
Proof.
  intros Hx (_ & Ho & Hk & _) k' y Hy. destruct (decide (k' = k)) as [->|Hne].
  - destruct (Hk y Hy) as [?| ->]; [by left | by destruct Hx; [right | left]].
  - left. by apply (Ho k' Hne).
Qed.

(** ** Writing a record of several values *)

(** Under each key is what was there, or one of the values [W] of that key. *)
Definition changed (W : nvs_key -> nvs_value -> Prop) n n' : Prop :=
  forall k, (contents n' !! k = contents n !! k \/ exists v, W k v /\ contents n' !! k = Some v) /\
            forall x, flash n' k x -> flash n k x \/ exists v, W k v /\ x = Some v.

#[export] Instance changed_refl W : Reflexive (changed W).
Proof. intros n k. auto. Qed.

#[export] Instance changed_trans W : Transitive (changed W).
Proof.
  intros n1 n2 n3 H1 H2 k. destruct (H1 k) as [C1 F1], (H2 k) as [C2 F2]. split.
  - destruct C2 as [-> | ?]; auto.
  - intros x Hx. destruct (F2 x Hx); auto.
Qed.

Lemma one_key_changed (W : nvs_key -> nvs_value -> Prop) k v n n' :
  W k v -> one_key k v n n' -> changed W n n'.
Proof.
  intros Hw (Ho & Hc & Hf) k'. destruct (decide (k' = k)) as [->|Hne].
  - split; [destruct Hc; eauto|]. intros x Hx. destruct (Hf x Hx); eauto.
  - destruct (Ho k' Hne). auto.
Qed.

Lemma firmer_changed W n n' :
  contents n' = contents n -> (forall k x, flash n' k x -> flash n k x) -> changed W n n'.
Proof. intros E F k. rewrite E. auto. Qed.

(** [ret] so far, writing the values [done] into the namespace [ns]. *)
Definition writing (ns : cstring) store (W : nvs_key -> nvs_value -> Prop) (done : list (cstring * nvs_value))
    (ret : esp_err_t) n0 n : Prop :=
  changed W n0 n /\
  (ret = ESP_OK -> (exists h, store = Some (mk_settings_store h true true) /\
                              opened n h = Some (ns, NVS_READWRITE)) /\
                   forall k v, (k, v) ∈ done -> contents n !! (ns, k) = Some v).

Lemma open_writing ns W s :
  ns <> [] ->
  wp (si_settings_store_open_write (Some SI_SETTINGS_STORE_INITIALIZER) (Some ns))
    (fun r s' => writing ns r.2 W [] r.1 (nvs s) (nvs s')) s.
Proof.
  intros Hns. eapply wp_mono; [by apply open_write_spec|]. intros r s' (C & F & Hok & _). split.
  - apply firmer_changed; [done|]. by rewrite F.
  - intros He. destruct (Hok He) as (h & E & Ho). split; [by exists h|]. by intros k v ?%elem_of_nil.
Qed.

(** One more value. *)
Lemma put_writing ns store W done k v e n0 n n' :
  sets (ns, k) v e n n' -> W (ns, k) v -> k ∉ done.*1 -> writing ns store W done ESP_OK n0 n ->
  writing ns store W ((k, v) :: done) e n0 n'.
Proof.
  intros (Ho & Hone & Hv) Hw Hk [Hc Hr]. destruct (Hr eq_refl) as [(h & -> & Ho') Hd]. split.
  - etrans; [exact Hc | by eapply one_key_changed].
  - intros He. split; [exists h; by rewrite Ho|]. intros k' v' [E|Hin]%elem_of_cons.
    + injection E as -> ->. by apply Hv.
    + destruct Hone as (Hother & _).
      assert (Hne : (ns, k') <> (ns, k)).
      { intros E. injection E as ->. apply Hk, list_elem_of_fmap. by exists (k, v'). }
      destruct (Hother _ Hne) as [-> _]. by apply Hd.
Qed.

(** [m] sets it when the store is open. *)
Lemma set_writing ns store W done k v ret m n0 s :
  (forall h s, opened (nvs s) h = Some (ns, NVS_READWRITE) ->
     wp (m (Some (mk_settings_store h true true))) (fun e s' => sets (ns, k) v e (nvs s) (nvs s')) s) ->
  W (ns, k) v -> k ∉ done.*1 -> writing ns store W done ret n0 (nvs s) ->
  wp (if bool_decide (ret = ESP_OK) then m store else mret ret)
    (fun e s' => writing ns store W ((k, v) :: done) e n0 (nvs s')) s.
Proof.
  intros Hm Hw Hk Hr. case_if; decided; [subst ret | apply wp_ret; split; [apply Hr | done]].
  destruct (proj2 Hr eq_refl) as [(h & -> & Ho) _]. eapply wp_mono; [by apply Hm|].
  intros e s' Hs. exact (put_writing ns _ W done k v e n0 _ _ Hs Hw Hk Hr).
Qed.

(** The commit and the closing: what was written is all that the flash can hold. *)
Lemma commit_writing ns store W done ret n0 s :
  writing ns store W done ret n0 (nvs s) ->
  wp (ret ← (if bool_decide (ret = ESP_OK) then si_settings_store_commit store else mret ret);
      si_settings_store_close store;; mret ret) (fun e s' =>
    changed W n0 (nvs s') /\
    (e = ESP_OK -> forall k v, (k, v) ∈ done ->
       contents (nvs s') !! (ns, k) = Some v /\ forall x, flash (nvs s') (ns, k) x -> x = Some v)) s.
Proof.
  intros [Hc Hr]. apply wp_bind. case_if; decided.
  - destruct (Hr Heqb) as [(h & -> & Ho) Hd]. eapply wp_mono; [by apply commit_spec|].
    intros e s1 (C1 & F1 & Hf). apply wp_bind. eapply wp_mono; [apply close_spec|].
    intros ? s2 [C2 F2]. apply wp_ret. split.
    + etrans; [exact Hc|]. apply firmer_changed; [congruence|]. by rewrite F2.
    + intros He k v Hin. rewrite C2, C1, F2. split; [by apply Hd|]. intros x Hx. rewrite <- (Hd k v Hin). by eapply Hf.
  - apply wp_ret, wp_bind. eapply wp_mono; [apply close_spec|]. intros ? s2 [C2 F2]. apply wp_ret.
    split; [|done]. etrans; [exact Hc|]. apply firmer_changed; [done|]. by rewrite F2.
Qed.

(** The flash holds exactly [values], in every later start. *)
Definition settled_in (ns : cstring) (values : list (cstring * nvs_value)) n : Prop :=
  forall k v, (k, v) ∈ values ->
    contents n !! (ns, k) = Some v /\ forall x, flash n (ns, k) x -> x = Some v.

(** Changes that write nothing else under those keys. *)
Lemma settled_changed ns values W n n' :
  (forall k v x, (k, v) ∈ values -> W (ns, k) x -> x = v) -> changed W n n' ->
  settled_in ns values n -> settled_in ns values n'.
Proof.
  intros Hw Hch Hs k v Hin. destruct (Hs k v Hin) as [Hc Hf], (Hch (ns, k)) as [Hc' Hf']. split.
  - destruct Hc' as [-> | (x & Hx & ->)]; [done|]. f_equal. by eapply Hw.
  - intros x Hx. destruct (Hf' x Hx) as [?|(y & Hy & ->)]; [by apply Hf|]. f_equal. by eapply Hw.
Qed.

Lemma settled_restart ns values n n' :
  nvs_restarts n n' -> settled_in ns values n -> settled_in ns values n'.
Proof.
  intros Hr Hs k v Hin. destruct (Hs k v Hin) as [Hc Hf], (restart_law _ _ Hr (ns, k)) as [H1 H2].
  pose proof (Hf _ H1) as E. split; [exact E|]. intros x Hx. rewrite <- E. by apply H2.
Qed.

(** ** Replacing a secret *)

Lemma replace_secret_spec ns key v s :
  ns <> [] ->
  wp (replace_secret ns key v) (fun e s' =>
    one_key (ns, key) (NvsStr v) (nvs s) (nvs s') /\
    (e = ESP_OK -> contents (nvs s') !! (ns, key) = Some (NvsStr v) /\
                   forall x, flash (nvs s') (ns, key) x -> x = Some (NvsStr v))) s.
Proof.
  intros Hns. unfold replace_secret. apply wp_bind.
  eapply wp_mono; [by apply open_write_spec|]. intros r s1 (C1 & F1 & Hok & Hno & _).
  pose proof (one_key_same (ns, key) (NvsStr v) _ _ C1 F1) as K1. apply wp_bind.
  case_if; decided.
  - destruct (Hok Heqb) as (h & -> & Ho). change (bool_decide (NVS_READWRITE = NVS_READWRITE)) with true.
    eapply wp_mono; [by apply set_secret_spec|]. intros e s2 (Ho2 & K2 & C2). apply wp_bind.
    assert (K : one_key (ns, key) (NvsStr v) (nvs s) (nvs s2)) by by etrans.
    case_if; decided.
    + subst e. eapply wp_mono; [apply commit_spec; by rewrite Ho2|].
      intros e s3 (C3 & F3 & Hf). apply wp_bind.
      eapply wp_mono; [apply close_spec|]. intros ? s4 [C4 F4]. apply wp_ret. split.
      * etrans; [exact K|]. apply one_key_firmer; [congruence|]. by rewrite F4.
      * rewrite C4, C3, F4. intros He. split; [by apply C2|]. intros x Hx. rewrite <- C2 by done. by eapply Hf.
    + apply wp_ret, wp_bind. eapply wp_mono; [apply close_spec|]. intros ? s4 [C4 F4].
      apply wp_ret. split; [|done]. etrans; [exact K | by apply one_key_same].
  - apply wp_ret, wp_bind. case_if; decided; [done|]. apply wp_ret, wp_bind.
    eapply wp_mono; [apply close_spec|]. intros ? s4 [C4 F4]. apply wp_ret.
    split; [|done]. etrans; [exact K1 | by apply one_key_same].
Qed.

(** A secret that was saved is there after every restart. When the open, the
    set and the commit succeed, then whatever was stored under the key before and
    whenever the device loses power afterwards, what can be read under the key is
    the secret; and no other key was touched. *)
Theorem saved_secret_survives ns key v s n' proxies room :
  ns <> [] ->
  let '(e, s1) := replace_secret ns key v s in
  e = ESP_OK -> nvs_restarts (nvs s1) n' ->
  let '(r, s2) := si_settings_store_open_read (Some SI_SETTINGS_STORE_INITIALIZER) (Some ns)
                    (mk_system n' proxies) in
  (forall k, k <> (ns, key) -> flash (nvs s) k (contents n' !! k)) /\
  r.1 <> ESP_ERR_NOT_FOUND /\
  (r.1 = ESP_OK ->
   let t := (si_secret_store_get_string r.2 (Some key) (Some (S room)) s2).1 in
   t.1 = ESP_OK -> t.2 = v).
Proof.
  intros Hns. pose proof (replace_secret_spec ns key v s Hns) as H1. unfold wp in H1.
  destruct (replace_secret ns key v s) as [e s1]. cbn [fst snd] in H1.
  destruct H1 as [(K1 & _) H1]. intros He Hr. destruct (H1 He) as [C1 F1].
  pose proof (fun k => proj1 (restart_law _ _ Hr k)) as Hk.
  pose proof (F1 _ (Hk (ns, key))) as E.
  pose proof (open_read_spec ns (mk_system n' proxies) Hns) as H2. unfold wp in H2.
  destruct (si_settings_store_open_read _ _ _) as [r s2]. cbn [fst snd] in H2.
  change (nvs (mk_system n' proxies)) with n' in H2.
  destruct H2 as (C2 & _ & Hok & _ & Hnf). split_and!.
  - intros k Hne. by apply (K1 k Hne).
  - intros Hn. by rewrite (Hnf Hn key) in E.
  - intros Hr1. destruct (Hok Hr1) as (h & -> & Ho). cbv zeta. intros Ht.
    destruct (get_secret_spec h ns false key room s2 Ho) as [_ [H3 _]].
    change (bool_decide (NVS_READONLY = NVS_READWRITE)) with false in Ht |- *.
    destruct (H3 Ht) as [H4 _]. rewrite C2, E in H4. congruence.
Qed.
End specs.

(** ** A store over finite maps *)

(** [cur]: what is read; [safe]: what was committed; [session]: the open handle. *)
Record ram := mk_ram {
  cur : gmap nvs_key nvs_value;
  safe : gmap nvs_key nvs_value;
  session : option (cstring * nvs_open_mode_t)
}.

Definition ESP_ERR_NVS_READ_ONLY : esp_err_t := ESP_ERR_OTHER 0x1104.

Definition ram_has (ns : cstring) (n : ram) : bool :=
  bool_decide (filter (fun kv => kv.1.1 = ns) (cur n) <> ∅).

Definition ram_get (key : cstring) (n : ram) : option nvs_value :=
  match session n with Some (ns, _) => cur n !! (ns, key) | None => None end.

(** A change through a writable handle. *)
Definition ram_change (h : Z) (n : ram) (f : cstring -> esp_err_t * ram) : esp_err_t * ram :=
  match session n with
  | Some (ns, NVS_READWRITE) => if h =? 1 then f ns else (ESP_ERR_NVS_READ_ONLY, n)
  | _ => (ESP_ERR_NVS_READ_ONLY, n)
  end.

#[export] Instance ram_nvs : Nvs ram := {
  nvs_open ns mode n :=
    if bool_decide (mode = NVS_READONLY) && negb (ram_has ns n) then (ESP_ERR_NVS_NOT_FOUND, 0, n)
    else (ESP_OK, 1, mk_ram (cur n) (safe n) (Some (ns, mode)));
  nvs_close _ n := mk_ram (cur n) (safe n) None;
  nvs_get_str _ key room n :=
    match ram_get key n with
    | Some (NvsStr s) =>
        match room with
        | Some r => if (length s <? r)%nat then (ESP_OK, s, S (length s))
                    else (ESP_ERR_NVS_INVALID_LENGTH, [], S (length s))
        | None => (ESP_OK, [], S (length s))
        end
    | _ => (ESP_ERR_NVS_NOT_FOUND, [], 0%nat)
    end;
  nvs_get_int type _ key n :=
    match ram_get key n with
    | Some (NvsInt t v) => if bool_decide (t = type) then (ESP_OK, v) else (ESP_ERR_NVS_NOT_FOUND, 0)
    | _ => (ESP_ERR_NVS_NOT_FOUND, 0)
    end;
  nvs_set v h key n := ram_change h n (fun ns =>
    (ESP_OK, mk_ram (<[(ns, key) := v]> (cur n)) (safe n) (session n)));
  nvs_erase_key h key n := ram_change h n (fun ns =>
    match cur n !! (ns, key) with
    | None => (ESP_ERR_NVS_NOT_FOUND, n)
    | Some _ => (ESP_OK, mk_ram (delete (ns, key) (cur n)) (safe n) (session n))
    end);
  nvs_erase_all h n := ram_change h n (fun ns =>
    (ESP_OK, mk_ram (filter (fun kv => kv.1.1 <> ns) (cur n)) (safe n) (session n)));
  nvs_commit h n := ram_change h n (fun ns =>
    (ESP_OK, mk_ram (cur n) (filter (fun kv => kv.1.1 = ns) (cur n) ∪
                             filter (fun kv => kv.1.1 <> ns) (safe n)) (session n)));
  nvs_restarts n n' :=
    safe n' = cur n' /\ forall k, cur n' !! k = cur n !! k \/ cur n' !! k = safe n !! k
}.

Definition ram_opened (n : ram) (h : Z) : option (cstring * nvs_open_mode_t) :=
  if h =? 1 then session n else None.

Definition ram_flash (n : ram) (k : nvs_key) (x : option nvs_value) : Prop :=
  x = cur n !! k \/ x = safe n !! k.

Lemma ram_session n h ns mode : ram_opened n h = Some (ns, mode) -> session n = Some (ns, mode) /\ h = 1.
Proof. unfold ram_opened. case_if; [|done]. by apply Z.eqb_eq in Heqb. Qed.

Lemma ram_changed n h ns f e n' :
  ram_opened n h = Some (ns, NVS_READWRITE) -> ram_change h n f = (e, n') -> f ns = (e, n').
Proof. intros [E ->]%ram_session. unfold ram_change. by rewrite E. Qed.

Lemma filter_ns_lookup (m : gmap nvs_key nvs_value) ns k :
  filter (fun kv => kv.1.1 = ns) m !! k = (if decide (k.1 = ns) then m !! k else None) /\
  filter (fun kv => kv.1.1 <> ns) m !! k = (if decide (k.1 = ns) then None else m !! k).
Proof.
  rewrite !map_lookup_filter. destruct (m !! k) as [v|]; cbn [mbind option_bind fst]; [|by case_decide].
  split; case_decide; by case_guard.
Qed.

#[export] Instance ram_laws : NvsLaws ram.
Proof.
  refine {| contents := cur; flash := ram_flash; opened := ram_opened |}.
  - intros n k. by left.
  - intros ns mode n e h n' E. cbn in E. case_if_in E; injection E as <- <- <-.
    + split_and!; try done. intros _ key. apply andb_prop in Heqb as [_ Hb].
      apply negb_true_iff, bool_decide_eq_false, dec_stable in Hb.
      pose proof (proj1 (filter_ns_lookup (cur n) ns (ns, key))) as H. rewrite Hb, lookup_empty in H.
      by rewrite decide_True in H.
    + split_and!; try done. by intros [].
  - done.
  - intros n h ns mode key room e text size [Es ->]%ram_session E. cbn in E. unfold ram_get in E.
    rewrite Es in E. destruct (cur n !! (ns, key)) as [[t v|s]|] eqn:Ek.
    + injection E as <- <- <-. by split.
    + destruct room as [r|]; [case_if_in E; [apply Nat.ltb_lt in Heqb|]|];
        injection E as <- <- <-; split; try done; try (by intros []).
      * intros _. exists s. split_and!; [done..|]. by intros r' [= <-].
      * intros _. exists s. by split_and!.
    + injection E as <- <- <-. by split.
  - intros n h ns mode type key e v [Es ->]%ram_session E. cbn in E. unfold ram_get in E.
    rewrite Es in E. destruct (cur n !! (ns, key)) as [[t x|s]|] eqn:Ek.
    2,3: injection E as <- <-; by split.
    case_if_in E; injection E as <- <-; decided; [subst; split; [done | by intros []]|].
    split; [done|]. intros _ x'. congruence.
  - intros n h ns v key e n' Ho E. pose proof (ram_changed _ _ _ _ _ _ Ho E) as E'. cbv beta in E'. injection E' as <- <-.
    split_and!; [done | | |].
    + intros k Hk. unfold ram_flash. cbn [cur safe]. by rewrite lookup_insert_ne.
    + left. cbn [cur]. by rewrite lookup_insert_eq.
    + intros x [-> | ->]; [right; cbn [cur]; by rewrite lookup_insert_eq | left; by right].
  - intros n h ns key e n' Ho E. pose proof (ram_changed _ _ _ _ _ _ Ho E) as E'. cbv beta in E'.
    destruct (cur n !! (ns, key)) eqn:Ek; injection E' as <- <-.
    + split_and!; [done | | |].
      * intros k Hk. unfold ram_flash. cbn [cur safe]. by rewrite lookup_delete_ne.
      * left. cbn [cur]. by rewrite lookup_delete_eq.
      * intros x [-> | ->]; [right; cbn [cur]; by rewrite lookup_delete_eq | left; by right].
    + split_and!; [done | done | by left | by left].
  - intros n h ns e n' Ho E. pose proof (ram_changed _ _ _ _ _ _ Ho E) as E'. cbv beta in E'. injection E' as <- <-.
    assert (Hk : forall k, filter (fun kv => kv.1.1 <> ns) (cur n) !! k =
                           if decide (k.1 = ns) then None else cur n !! k)
      by (intros k; apply filter_ns_lookup).
    split_and!; [done | | |].
    + intros k Hne. unfold ram_flash. cbn [cur safe]. rewrite Hk. by rewrite decide_False.
    + intros _ key. cbn [cur]. rewrite Hk. by rewrite decide_True.
    + intros key x [-> | ->]; [right; cbn [cur]; rewrite Hk; by rewrite decide_True | left; by right].
  - intros n h ns e n' Ho E. pose proof (ram_changed _ _ _ _ _ _ Ho E) as E'. cbv beta in E'. injection E' as <- <-.
    assert (Hk : forall k, (filter (fun kv => kv.1.1 = ns) (cur n) ∪
                            filter (fun kv => kv.1.1 <> ns) (safe n)) !! k =
                           if decide (k.1 = ns) then cur n !! k else safe n !! k).
    { intros k. rewrite lookup_union, (proj1 (filter_ns_lookup _ _ _)), (proj2 (filter_ns_lookup _ _ _)).
      case_decide; [by rewrite (right_id None _) | by rewrite (left_id None _)]. }
    split_and!; [done | done | | |].
    + intros k Hne. unfold ram_flash. cbn [cur safe]. rewrite Hk. by rewrite decide_False.
    + intros key x [-> | ->]; [by left|]. left. cbn [safe]. rewrite Hk. by rewrite decide_True.
    + intros _ key x [-> | ->]; [done|]. cbn [safe]. rewrite Hk. by rewrite decide_True.
  - intros n n' [E Hr] k. split; [exact (Hr k)|]. unfold ram_flash. rewrite E. tauto.
Defined.

(** Saving twice with a loss of power after the second: the second is found. *)
Definition demo_ns : cstring := cstr "si_two_step".
Definition demo_key : cstring := cstr "record".
Definition demo_flash : flash_access := mk_flash true true [].

Definition demo_saved : esp_err_t * system ram :=
  let '(_, s) := replace_secret demo_ns demo_key (cstr "first") (mk_system (mk_ram ∅ ∅ None) demo_flash) in
  replace_secret demo_ns demo_key (cstr "second") s.

(** What the maps hold after the loss of power. *)
Definition demo_after : ram := mk_ram (safe (nvs demo_saved.2)) (safe (nvs demo_saved.2)) None.

Lemma saved_secret_survives_witness :
  let '(r, s2) := si_settings_store_open_read (Some SI_SETTINGS_STORE_INITIALIZER) (Some demo_ns)
                    (mk_system demo_after demo_flash) in
  let t := (si_secret_store_get_string r.2 (Some demo_key) (Some 32%nat) s2).1 in
  r.1 = ESP_OK /\ t.1 = ESP_OK /\ t.2 = cstr "second".
Proof.
  set (s0 := (replace_secret demo_ns demo_key (cstr "first") (mk_system (mk_ram ∅ ∅ None) demo_flash)).2).
  pose proof (saved_secret_survives demo_ns demo_key (cstr "second") s0 demo_after demo_flash 31
                ltac:(done)) as H.
  assert (E : replace_secret demo_ns demo_key (cstr "second") s0 = demo_saved) by by_eval.
  rewrite E in H. assert (E1 : demo_saved.1 = ESP_OK) by by_eval.
  assert (Hr : nvs_restarts (nvs demo_saved.2) demo_after) by (split; [done | by right]).
  assert (Hx : let r := si_settings_store_open_read (Some SI_SETTINGS_STORE_INITIALIZER) (Some demo_ns)
                    (mk_system demo_after demo_flash) in
    r.1.1 = ESP_OK /\
    (si_secret_store_get_string r.1.2 (Some demo_key) (Some 32%nat) r.2).1.1 = ESP_OK)
    by (split; by_eval).
  destruct demo_saved as [e s1]. specialize (H E1 Hr).
  destruct (si_settings_store_open_read _ _ _) as [r s2]. destruct H as (_ & _ & H), Hx as [Hx1 Hx2].
  split; [exact Hx1|]. split; [exact Hx2 | exact (H Hx1 Hx2)].
Defined.
