(* ===== verification/TwoStep.v ===== *)
(** * The second factor: [application/two_step.c]

    Time-based codes and recovery codes, their record in flash, the guessing
    budgets, and the transitions that run inside the credential fence of
    [application/auth_service.c].  HMAC-SHA1 and SHA-256 of mbedTLS are parameters. *)

From Stdlib Require Import String.
From S2P Require Import Prelude CText Hex Firmware Authorization.
From S2P Require Import HidOwner HidManager ControlLease SettingsStore AuthSession.

Definition SI_TWO_STEP_RECOVERY_COUNT : nat := 8.
Definition SI_TWO_STEP_CLIENT_TIME_MAX : Z := 4102444800.
Definition RECORD_BYTES : nat := 1 + 20 + 8 + 1 + 32 * SI_TWO_STEP_RECOVERY_COUNT.
Definition ENROLLMENT_US : Z := 300 * 1000000.
Definition MIN_UNIX_TIME : Z := 1704067200.

(** ** Data *)

Record two_step_state_t := mk_two_state {
  two_enabled : bool;
  two_secret : list Z;
  last_step : Z;
  used_codes : Z;
  recovery : list (list Z)
}.

#[export] Instance eta_two_state : Settable two_step_state_t := fun s =>
  mk_two_state (two_enabled s) (two_secret s) (last_step s) (used_codes s) (recovery s).

#[export] Instance two_state_eq_dec : EqDecision two_step_state_t.
Proof. solve_decision. Defined.

Definition zero_two_state : two_step_state_t :=
  mk_two_state false (replicate 20 0) 0 0
    (replicate SI_TWO_STEP_RECOVERY_COUNT (replicate 32 0)).

Record two_throttle_t := mk_throttle { failures : Z; locked_until : Z }.

#[export] Instance eta_throttle : Settable two_throttle_t := fun t =>
  mk_throttle (failures t) (locked_until t).

(** The statics; [s_clock]: the times that the device adopted, the last one first. *)
Record two_statics := mk_two {
  s_two_lock : bool;
  s_two_loaded : bool;
  s_two_storage_ok : bool;
  s_two_state : two_step_state_t;
  s_two_pending : two_step_state_t;
  s_two_pending_id : list Z;
  s_two_pending_generation : Z;
  s_two_pending_until : Z;
  s_two_active : two_throttle_t;
  s_two_enroll : two_throttle_t;
  s_clock : list Z
}.

#[export] Instance eta_two_statics : Settable two_statics := fun s =>
  mk_two (s_two_lock s) (s_two_loaded s) (s_two_storage_ok s) (s_two_state s) (s_two_pending s)
    (s_two_pending_id s) (s_two_pending_generation s) (s_two_pending_until s) (s_two_active s)
    (s_two_enroll s) (s_clock s).

Definition zero_throttle : two_throttle_t := mk_throttle 0 0.

Definition two_started : two_statics :=
  mk_two false false false zero_two_state zero_two_state (replicate 33 0) 0 0
    zero_throttle zero_throttle [].

Record si_two_step_status_t := mk_two_status {
  st_enabled : bool;
  storage_ok : bool;
  time_ready : bool;
  recovery_remaining : Z
}.

Record si_two_step_enrollment_t := mk_enrollment {
  en_id : cstring;
  en_secret : cstring;
  en_recovery : list cstring
}.

(** What a call reads from outside: whether the lock can be created and comes in
    time; the uptime when the lock is taken, when an attempt is admitted, when its
    result is recorded and when an enrollment is stored or looked at; [time(NULL)]
    when a code is checked and when a clock is adopted; the random bytes of an
    enrollment; and what the credential fence reads. *)
Record two_env := mk_two_env {
  two_lock_made : bool;
  two_lock_taken : bool;
  lock_us : Z;
  attempt_us : Z;
  result_us : Z;
  pending_us : Z;
  wall : Z;
  wall_adopting : Z;
  random_secret : list Z;
  random_name : list Z;
  random_recovery : nat -> list Z;
  fence_env : auth_env;
  fence_in_time : bool
}.

(** ** Bytes and text *)

Definition two_equal (n : nat) (a b : list Z) : bool :=
  foldl (fun difference i => Z.lor difference (Z.lxor (nth i a 0) (nth i b 0))) 0 (seq 0 n) =? 0.

(** The loops that store a counter with its most significant byte first. *)
Fixpoint big_endian (n : nat) (step : Z) (after : list Z) : list Z :=
  match n with
  | O => after
  | S n => big_endian n (Z.shiftr step 8) (u8 step :: after)
  end.

Definition from_big_endian (bytes : list Z) : Z :=
  foldl (fun step b => Z.lor (u64 (Z.shiftl step 8)) b) 0 bytes.

Definition base32_alphabet : list Z := cstr "ABCDEFGHIJKLMNOPQRSTUVWXYZ234567".

(** [while (bits >= 5)]: with less than 13 bits at hand at most two characters. *)
Fixpoint base32_drain (fuel : nat) (buffer bits : Z) (output : cstring) : Z * cstring :=
  match fuel with
  | O => (bits, output)
  | S fuel =>
      return_if bits <? 5 with (bits, output) ;;
      let bits := bits - 5 in
      base32_drain fuel buffer bits
        (output ++ [nth (Z.to_nat (Z.land (Z.shiftr buffer bits) 31)) base32_alphabet 0])
  end.

Definition two_base32 (input : list Z) : cstring :=
  snd (foldl (fun '(buffer, bits, output) byte =>
      let buffer := u32 (Z.lor (Z.shiftl buffer 8) byte) in
      let '(bits, output) := base32_drain 2 buffer (bits + 8) output in
      (buffer, bits, output))
    (0, 0, []) input).

(** ** The clock *)

Definition two_time_ready (now : Z) : bool := MIN_UNIX_TIME <=? now.

Definition two_adopt_clock (env : two_env) (unix_s : Z) (s : two_statics) : two_statics :=
  return_if (unix_s =? 0) || two_time_ready (wall_adopting env) with s ;;
  s <| s_clock := unix_s :: s_clock s |>.

(** ** The guessing budgets *)

Definition two_attempt_allowed (now : Z) (t : two_throttle_t) : bool := locked_until t <=? now.

Definition two_attempt_result (now : Z) (ok : bool) (t : two_throttle_t) : two_throttle_t :=
  return_if ok with t <| failures := 0 |> ;;
  let t := t <| failures := u32 (failures t + 1) |> in
  if 5 <=? failures t
  then (t <| locked_until := now + 30000000 |>) <| failures := 0 |>
  else t.

Section two_step.
Context (state_bytes : auth_retained_state_t -> list Z).
Context (mbedtls_sha256 : list Z -> option (list Z)).
Context (mbedtls_hmac_sha1 : list Z -> list Z -> option (list Z)).
Context {N : Type} `{Nvs N}.
Implicit Types env : two_env.

(** ** Codes *)

Definition two_hotp (secret : list Z) (step : Z) (digits : Z) : option Z :=
  match mbedtls_hmac_sha1 secret (big_endian 8 step []) with
  | None => None
  | Some digest =>
      let byte i := nth i digest 0 in
      let offset := Z.to_nat (Z.land (byte 19%nat) 15) in
      let value := Z.lor (Z.lor (Z.lor (Z.shiftl (Z.land (byte offset) 127) 24)
                                       (Z.shiftl (byte (offset + 1)%nat) 16))
                                (Z.shiftl (byte (offset + 2)%nat) 8))
                         (byte (offset + 3)%nat) in
      Some (value mod (if digits =? 8 then 100000000 else 1000000))
  end.

(** [%06]: the last six decimal digits, the most significant first. *)
Fixpoint decimal_digits (n : nat) (value : Z) (after : cstring) : cstring :=
  match n with
  | O => after
  | S n => decimal_digits n (value / 10) (ch "0" + value mod 10 :: after)
  end.

Definition bit (i : nat) : Z := Z.shiftl 1 (Z.of_nat i).
Arguments bit : simpl never.

(** The last unused recovery code with the digest. *)
Definition recovery_match (candidate : two_step_state_t) (digest : list Z) : option nat :=
  foldl (fun match_ i =>
      if two_equal 32 digest (nth i (recovery candidate) []) &&
         (Z.land (used_codes candidate) (bit i) =? 0)
      then Some i else match_)
    None (seq 0 SI_TWO_STEP_RECOVERY_COUNT).

(** The largest of the steps around [current] whose code it is, above [last_step];
    0: none.  [None]: the digest failed. *)
Fixpoint step_match (candidate : two_step_state_t) (code : cstring) (current : Z) (drifts : list Z)
    (matched : Z) : option Z :=
  match drifts with
  | [] => Some matched
  | drift :: drifts =>
      let step := u64 (current + drift) in
      match two_hotp (two_secret candidate) step 6 with
      | None => None
      | Some value =>
          step_match candidate code current drifts
            (if two_equal 6 (decimal_digits 6 value []) code && (last_step candidate <? step)
             then step else matched)
      end
  end.

(** The branches of the check: whether the code is good, the state with the code
    consumed, and the time to adopt or 0. *)
Definition check_recovery (candidate : two_step_state_t) (code : cstring)
  : bool * two_step_state_t * Z :=
  match hex_to_bytes 16 (Some code) with
  | None => (false, candidate, 0)
  | Some bytes =>
      match mbedtls_sha256 (hex_text bytes) with
      | None => (false, candidate, 0)
      | Some digest =>
          match recovery_match candidate digest with
          | None => (false, candidate, 0)
          | Some i =>
              (true, candidate <| used_codes := Z.lor (used_codes candidate) (u8 (bit i)) |>, 0)
          end
      end
  end.

Definition check_totp env (candidate : two_step_state_t) (code : cstring) (client_unix : Z)
  : bool * two_step_state_t * Z :=
  return_if negb (length code =? 6)%nat with (false, candidate, 0) ;;
  return_if negb (forallb (between (ch "0") (ch "9")) code) with (false, candidate, 0) ;;
  let claimed := wall env <? MIN_UNIX_TIME in
  return_if claimed && ((client_unix <? MIN_UNIX_TIME) || (SI_TWO_STEP_CLIENT_TIME_MAX <? client_unix))
    with (false, candidate, 0) ;;
  let now := if claimed then client_unix else wall env in
  match step_match candidate code (now / 30) [-1; 0; 1] 0 with
  | None => (false, candidate, 0)
  | Some matched =>
      return_if matched =? 0 with (false, candidate, 0) ;;
      (true, candidate <| last_step := matched |>, if claimed then now else 0)
  end.

Definition two_check_code env (candidate : two_step_state_t) (code : option cstring)
    (with_recovery : bool) (client_unix : Z) : bool * two_step_state_t * Z :=
  match code with
  | None => (false, candidate, 0)
  | Some code =>
      if with_recovery && (length code =? 32)%nat then check_recovery candidate code
      else check_totp env candidate code client_unix
  end.

(** ** The record *)

Definition two_record (state : two_step_state_t) : list Z :=
  1 :: two_secret state ++ big_endian 8 (last_step state) [] ++ [used_codes state] ++
  concat (recovery state).

Definition record_text (state : two_step_state_t) : cstring :=
  if two_enabled state then hex_text (two_record state) else cstr "off-v1".

(** The [memcpy] of [count] entries of 32 bytes. *)
Fixpoint recovery_entries (count : nat) (raw : list Z) : list (list Z) :=
  match count with
  | O => []
  | S count => take 32 raw :: recovery_entries count (drop 32 raw)
  end.

(** The state of a record, over the one in memory; [None]: not a record. *)
Definition parse_record (text : cstring) (state : two_step_state_t) : option two_step_state_t :=
  return_if streq text (cstr "off-v1") with Some state ;;
  match hex_to_bytes RECORD_BYTES (Some text) with
  | Some (1 :: raw) =>
      Some (mk_two_state true (take 20 raw) (from_big_endian (take 8 (drop 20 raw)))
              (nth 28 raw 0) (recovery_entries SI_TWO_STEP_RECOVERY_COUNT (drop 29 raw)))
  | _ => None
  end.

(** ** The state in memory and in flash *)

Record two_world := mk_two_world { two : two_statics; disk : system N }.

#[export] Instance eta_two_world : Settable two_world := fun w => mk_two_world (two w) (disk w).

Definition on_two {A} (f : two_statics -> A * two_statics) : st two_world A := fun w =>
  let '(a, s) := f (two w) in (a, w <| two := s |>).

Definition on_disk {A} (m : st (system N) A) : st two_world A := fun w =>
  let '(a, d) := m (disk w) in (a, w <| disk := d |>).

Definition two_modify (f : two_statics -> two_statics) : st two_world unit :=
  on_two (fun s => (tt, f s)).

Definition two_namespace : cstring := cstr "si_two_step".
Definition two_key : cstring := cstr "record".

Definition storage_found (ok : bool) : st two_world unit :=
  two_modify (fun s => s <| s_two_storage_ok := ok |>).

Definition two_load_locked : st two_world unit :=
  loaded ← gets (fun w => s_two_loaded (two w));
  return_if loaded with mret tt ;;
  two_modify (fun s => (s <| s_two_loaded := true |>) <| s_two_storage_ok := false |>);;
  r ← on_disk (si_settings_store_open_read (Some SI_SETTINGS_STORE_INITIALIZER) (Some two_namespace));
  return_if bool_decide (r.1 = ESP_ERR_NOT_FOUND) with storage_found true ;;
  return_if negb (bool_decide (r.1 = ESP_OK)) with mret tt ;;
  text ← on_disk (si_secret_store_get_string r.2 (Some two_key) (Some (RECORD_BYTES * 2 + 1)%nat));
  on_disk (si_settings_store_close r.2);;
  return_if negb (bool_decide (text.1 = ESP_OK)) with mret tt ;;
  two_modify (fun s =>
    match parse_record text.2 (s_two_state s) with
    | Some state => (s <| s_two_state := state |>) <| s_two_storage_ok := true |>
    | None => s
    end).

Definition two_save_locked (state : two_step_state_t) (transition : bool) : st two_world esp_err_t :=
  ret ← on_disk (replace_secret two_namespace two_key (record_text state));
  return_if bool_decide (ret = ESP_OK) with
    (two_modify (fun s => s <| s_two_state := state |>);; mret ret) ;;
  return_if transition with
    (two_modify (fun s => (s <| s_two_state := zero_two_state |>) <| s_two_loaded := false |>);;
     two_load_locked;; mret ret) ;;
  storage_found false;; mret ret.

Definition two_commit_transition (state : two_step_state_t) : st two_world esp_err_t :=
  two_save_locked state true.

Definition si_two_step_initialize env : st two_world esp_err_t :=
  two_modify (fun s => s <| s_two_lock := s_two_lock s || two_lock_made env |>);;
  lock ← gets (fun w => s_two_lock (two w));
  return_if negb (lock && two_lock_taken env) with mret ESP_FAIL ;;
  two_load_locked;;
  ok ← gets (fun w => s_two_storage_ok (two w));
  mret (if ok then ESP_OK else ESP_FAIL).

(** ** The calls, beside the credential fence *)

Definition service : Type := auth_world * two_world.

Definition aside {A} (m : st two_world A) : st service A := fun ws =>
  let '(a, w) := m ws.2 in (a, (ws.1, w)).

Definition clear_pending (s : two_statics) : two_statics :=
  (s <| s_two_pending := zero_two_state |>) <| s_two_pending_id := replicate 33 0 |>.

(** An enrollment that ran out of time or whose credentials were replaced is gone. *)
Definition two_lock env : st service bool :=
  generation ← beside si_auth_credential_generation;
  aside (on_two (fun s =>
    return_if negb (s_two_lock s && two_lock_taken env) with (false, s) ;;
    let stale := negb (s_two_pending_until s =? 0) &&
                 ((s_two_pending_until s <=? lock_us env) ||
                  negb (s_two_pending_generation s =? generation)) in
    (true, if stale then (clear_pending s) <| s_two_pending_until := 0 |> else s))).

Definition unused_codes (used : Z) : Z :=
  Z.of_nat (length (filter (fun i => Z.land used (bit i) = 0) (seq 0 SI_TWO_STEP_RECOVERY_COUNT))).

Definition si_two_step_get_status env : st service si_two_step_status_t :=
  let ready := two_time_ready (wall env) in
  taken ← two_lock env;
  return_if negb taken with mret (mk_two_status true false ready 0) ;;
  s ← gets (fun ws : service => two ws.2);
  let ok := s_two_storage_ok s in
  let on := two_enabled (s_two_state s) in
  mret (mk_two_status (negb ok || on) ok ready
          (if ok && on then unused_codes (used_codes (s_two_state s)) else 0)).

Definition adopt env (unix_s : Z) : st service unit := aside (two_modify (two_adopt_clock env unix_s)).

(** The check of a code for the active secret, and what the attempt costs. *)
Definition si_two_step_verify env (code : option cstring) (client_unix generation : Z)
  : st service bool :=
  taken ← two_lock env;
  return_if negb taken with mret false ;;
  s ← gets (fun ws : service => two ws.2);
  current ← beside si_auth_credential_generation;
  let ok := s_two_storage_ok s && (generation =? current) in
  return_if negb (ok && two_enabled (s_two_state s)) with mret ok ;;
  let '(valid, candidate, adopted) :=
    if two_attempt_allowed (attempt_us env) (s_two_active s)
    then two_check_code env (s_two_state s) code true client_unix
    else (false, s_two_state s, 0) in
  ok ← (if valid then (e ← aside (two_save_locked candidate false); mret (bool_decide (e = ESP_OK)))
        else mret false);
  when ok (adopt env adopted);;
  aside (two_modify (fun s => s <| s_two_active := two_attempt_result (result_us env) ok (s_two_active s) |>));;
  mret ok.

(** A new secret with its recovery codes; [out]: whether the pointer is not NULL. *)
Definition si_two_step_begin env (generation : Z) (out : bool)
  : st service (esp_err_t * option si_two_step_enrollment_t) :=
  return_if negb out with mret (ESP_FAIL, None) ;;
  taken ← two_lock env;
  return_if negb taken with mret (ESP_FAIL, None) ;;
  s ← gets (fun ws : service => two ws.2);
  current ← beside si_auth_credential_generation;
  return_if negb (s_two_storage_ok s && negb (two_enabled (s_two_state s)) && (generation =? current))
    with mret (ESP_ERR_INVALID_STATE, None) ;;
  let id := hex_text (random_name env) in
  let codes := map (fun i => hex_text (random_recovery env i)) (seq 0 SI_TWO_STEP_RECOVERY_COUNT) in
  match mapM mbedtls_sha256 codes with
  | Some digests =>
      aside (two_modify (fun s =>
        (((s <| s_two_pending := mk_two_state true (random_secret env) 0 0 digests |>)
            <| s_two_pending_id := id ++ [0] |>)
           <| s_two_pending_generation := generation |>)
          <| s_two_pending_until := pending_us env + ENROLLMENT_US |>));;
      mret (ESP_OK, Some (mk_enrollment id (two_base32 (random_secret env)) codes))
  | None =>
      aside (two_modify (fun s =>
        (s <| s_two_pending := zero_two_state |>)
          <| s_two_pending_id := <[0%nat := 0]> (s_two_pending_id s) |>));;
      mret (ESP_FAIL, None)
  end.

Definition si_two_step_confirm env (id code : option cstring) (client_unix generation : Z)
  : st service esp_err_t :=
  taken ← two_lock env;
  return_if negb taken with mret ESP_FAIL ;;
  s ← gets (fun ws : service => two ws.2);
  current ← beside si_auth_credential_generation;
  return_if negb (s_two_storage_ok s && negb (two_enabled (s_two_state s)) &&
                  ptr_test (fun id => (length id =? 32)%nat && two_equal 32 id (s_two_pending_id s)) id &&
                  (generation =? s_two_pending_generation s) && (generation =? current) &&
                  (pending_us env <? s_two_pending_until s) &&
                  two_attempt_allowed (attempt_us env) (s_two_enroll s))
    with mret ESP_ERR_INVALID_STATE ;;
  let '(valid, candidate, adopted) := two_check_code env (s_two_pending s) code false client_unix in
  aside (two_modify (fun s =>
    s <| s_two_enroll := two_attempt_result (result_us env) valid (s_two_enroll s) |>));;
  return_if negb valid with mret ESP_ERR_INVALID_STATE ;;
  ret ← si_auth_security_commit state_bytes (fence_env env) (fence_in_time env) generation
          (Some (two_commit_transition candidate));
  when (bool_decide (ret = ESP_OK)) (adopt env adopted);;
  aside (two_modify clear_pending);;
  mret ret.

Definition si_two_step_disable env (code : option cstring) (client_unix generation : Z)
  : st service esp_err_t :=
  taken ← two_lock env;
  return_if negb taken with mret ESP_FAIL ;;
  s ← gets (fun ws : service => two ws.2);
  current ← beside si_auth_credential_generation;
  return_if negb (s_two_storage_ok s && two_enabled (s_two_state s) && (generation =? current) &&
                  two_attempt_allowed (attempt_us env) (s_two_active s))
    with mret ESP_ERR_INVALID_STATE ;;
  let '(valid, _, adopted) := two_check_code env (s_two_state s) code true client_unix in
  aside (two_modify (fun s =>
    s <| s_two_active := two_attempt_result (result_us env) valid (s_two_active s) |>));;
  return_if negb valid with mret ESP_ERR_INVALID_STATE ;;
  ret ← si_auth_security_commit state_bytes (fence_env env) (fence_in_time env) generation
          (Some (two_commit_transition zero_two_state));
  when (bool_decide (ret = ESP_OK)) (adopt env adopted);;
  mret ret.

(** ** What happens to the second factor

    A restart loses the statics and leaves [n] in the flash. *)

Inductive two_call :=
| Initialize (env : two_env)
| TwoStatus (env : two_env)
| Verify (env : two_env) (code : option cstring) (client_unix generation : Z)
| Begin (env : two_env) (generation : Z)
| Confirm (env : two_env) (id code : option cstring) (client_unix generation : Z)
| Disable (env : two_env) (code : option cstring) (client_unix generation : Z)
| AuthMoves (a : auth_world)
| ProxyMoves (f : flash_access)
| Restart (n : N) (f : flash_access) (a : auth_world).

Definition two_exec (call : two_call) : st service bool :=
  match call with
  | Initialize env => e ← aside (si_two_step_initialize env); mret (bool_decide (e = ESP_OK))
  | TwoStatus env => r ← si_two_step_get_status env; mret (st_enabled r)
  | Verify env code client_unix gen => si_two_step_verify env code client_unix gen
  | Begin env gen => r ← si_two_step_begin env gen true; mret (bool_decide (r.1 = ESP_OK))
  | Confirm env id code client_unix gen =>
      e ← si_two_step_confirm env id code client_unix gen; mret (bool_decide (e = ESP_OK))
  | Disable env code client_unix gen =>
      e ← si_two_step_disable env code client_unix gen; mret (bool_decide (e = ESP_OK))
  | AuthMoves a => fun ws => (true, (a, ws.2))
  | ProxyMoves f => fun ws => (true, (ws.1, ws.2 <| disk := (disk ws.2) <| access := f |> |>))
  | Restart n f a => fun _ => (true, (a, mk_two_world two_started (mk_system n f)))
  end.
End two_step.
