(* ===== verification/TwoStepProps.v ===== *)
(** * The second factor: properties

    The record in flash and its reading back; what proves a factor, which is compared
    with the codes of RFC 4226 and RFC 6238 as the standards define them; that no
    factor is good twice between two enrollments, over restarts too; and what a change
    of the factor settles. *)

From Stdlib Require Import String Sorted.
From stdpp Require Import gmap.
From S2P Require Import Prelude CText Hex Firmware Authorization.
From S2P Require Import HidOwner HidManager ControlLease SettingsStore SettingsStoreProps.
From S2P Require Import HidManagerInvariant ControlLeaseProps.
From S2P Require Import AuthSession AuthSessionInvariant AuthSessionProps TwoStep.

(** ** Counters as bytes *)

Lemma from_big_endian_snoc l b :
  from_big_endian (l ++ [b]) = Z.lor (u64 (Z.shiftl (from_big_endian l) 8)) b.
Proof. unfold from_big_endian. by rewrite foldl_app. Qed.

Lemma big_endian_app n step after : big_endian n step after = big_endian n step [] ++ after.
Proof.
  revert step after. induction n as [|n IH]; intros step after; cbn [big_endian]; [done|].
  by rewrite IH, (IH _ [_]), <- app_assoc.
Qed.

Lemma big_endian_S n step : big_endian (S n) step [] = big_endian n (Z.shiftr step 8) [] ++ [u8 step].
Proof. cbn [big_endian]. apply big_endian_app. Qed.

Lemma big_endian_length n step : length (big_endian n step []) = n.
Proof.
  revert step. induction n as [|n IH]; intros step; [done|].
  rewrite big_endian_S, length_app, IH. cbn. lia.
Qed.

Lemma big_endian_bytes n step : Forall is_byte (big_endian n step []).
Proof.
  revert step. induction n as [|n IH]; intros step; [constructor|].
  rewrite big_endian_S. apply Forall_app. split; [done|]. apply Forall_singleton, u8_range.
Qed.

Lemma shift_in x b :
  is_byte b -> Z.lor (u64 (Z.shiftl x 8)) b = (x mod 2 ^ 56) * 256 + b.
Proof.
  intros Hb. assert (E : u64 (Z.shiftl x 8) = Z.shiftl (x mod 2 ^ 56) 8).
  { unfold u64. rewrite !Z.shiftl_mul_pow2 by lia. change (2 ^ 64) with (2 ^ 56 * 2 ^ 8).
    by rewrite Z.mul_mod_distr_r by lia. }
  rewrite E, lor_shiftl_add by (unfold is_byte in Hb; lia). lia.
Qed.

Lemma from_big_endian_range bytes :
  Forall is_byte bytes -> 0 <= from_big_endian bytes < 2 ^ 64.
Proof.
  intros H. induction bytes as [|b l IH] using rev_ind; [cbn; lia|].
  apply Forall_app in H as [_ Hb]. apply Forall_inv in Hb.
  rewrite from_big_endian_snoc, shift_in by done. unfold is_byte in Hb.
  pose proof (Z.mod_pos_bound (from_big_endian l) (2 ^ 56)). lia.
Qed.

Lemma from_to_big_endian n step :
  (n <= 8)%nat -> from_big_endian (big_endian n step []) = step mod 2 ^ (8 * Z.of_nat n).
Proof.
  revert step. induction n as [|n IH]; intros step Hn; [by rewrite Z.mod_1_r|].
  rewrite big_endian_S, from_big_endian_snoc, shift_in, IH by (apply u8_range || lia).
  rewrite Z.shiftr_div_pow2 by lia. unfold u8. set (m := 2 ^ (8 * Z.of_nat n)).
  assert (Hm : 0 < m <= 2 ^ 56) by (split; [apply Z.pow_pos_nonneg; lia | apply Z.pow_le_mono_r; lia]).
  assert (Hp := Z.mod_pos_bound (step / 2 ^ 8) m ltac:(lia)).
  rewrite (Z.mod_small (_ mod m)) by lia.
  replace (2 ^ (8 * Z.of_nat (S n))) with (256 * m).
  2:{ unfold m. rewrite Nat2Z.inj_succ, <- Z.add_1_r, Z.mul_add_distr_l, Z.pow_add_r by lia. lia. }
  rewrite Z.rem_mul_r by lia. change (2 ^ 8) with 256. lia.
Qed.

(** ** Well-typed states *)

Record two_typed (s : two_step_state_t) : Prop := mk_two_typed {
  secret_typed : length (two_secret s) = 20%nat /\ Forall is_byte (two_secret s);
  step_typed : 0 <= last_step s < 2 ^ 64;
  used_typed : is_byte (used_codes s);
  recovery_typed : length (recovery s) = SI_TWO_STEP_RECOVERY_COUNT /\
    Forall (fun r => length r = 32%nat /\ Forall is_byte r) (recovery s)
}.

Lemma zero_two_typed : two_typed zero_two_state.
Proof. split; [split | | |split]; try done; by repeat constructor. Qed.

(** ** The record *)

Lemma entries_concat l rest :
  Forall (fun r => length r = 32%nat) l -> recovery_entries (length l) (concat l ++ rest) = l.
Proof.
  intros H. induction H as [|r l Hr _ IH]; [done|]. cbn [length recovery_entries concat].
  rewrite <- app_assoc. by rewrite <- Hr at 1 2; rewrite take_app_length, drop_app_length, IH.
Qed.

Lemma entries_typed count raw :
  length raw = (32 * count)%nat -> Forall is_byte raw ->
  length (recovery_entries count raw) = count /\
  Forall (fun r => length r = 32%nat /\ Forall is_byte r) (recovery_entries count raw).
Proof.
  revert raw. induction count as [|count IH]; intros raw L H; cbn [recovery_entries]; [by split|].
  destruct (IH (drop 32 raw)) as [L' H']; [rewrite length_drop; lia | by apply Forall_drop|].
  split; [cbn; congruence|]. constructor; [|done]. split; [rewrite length_take; lia | by apply Forall_take].
Qed.

Lemma record_bytes s : two_typed s -> length (two_record s) = RECORD_BYTES /\ Forall is_byte (two_record s).
Proof.
  intros [[L1 H1] _ H3 [L4 H4]]. unfold two_record.
  assert (Hc : length (concat (recovery s)) = (32 * length (recovery s))%nat /\
               Forall is_byte (concat (recovery s))).
  { clear L4. induction H4 as [|r l [Hr Hb] _ [IH1 IH2]]; [done|]. cbn [concat length].
    rewrite length_app, IH1, Hr. split; [lia | by apply Forall_app]. }
  destruct Hc as [L5 H5]. rewrite L4 in L5. split.
  - cbn [length]. rewrite !length_app, big_endian_length, L1, L5. done.
  - constructor; [done|]. repeat (apply Forall_app; split); try done; [apply big_endian_bytes|].
    by apply Forall_singleton.
Qed.

Lemma parse_off s : parse_record (cstr "off-v1") s = Some s.
Proof. unfold parse_record. by rewrite streq_refl. Qed.

(** A state that was saved is read back. *)
Lemma parse_record_text s s0 :
  two_typed s -> parse_record (record_text s) s0 = Some (if two_enabled s then s else s0).
Proof.
  intros T. unfold record_text. destruct (two_enabled s) eqn:E; [|apply parse_off].
  destruct (record_bytes s T) as [L B]. unfold parse_record.
  assert (Hne : streq (hex_text (two_record s)) (cstr "off-v1") = false).
  { apply not_true_is_false. intros H. apply streq_true in H. apply (f_equal length) in H.
    by rewrite hex_text_length, L in H. }
  rewrite Hne, <- L, unhex_text by done. destruct T as [[L1 H1] H2 H3 [L4 H4]].
  unfold two_record. f_equal. destruct s as [en sec step used rec]. cbn [two_secret last_step used_codes
    recovery two_enabled] in *. subst en. f_equal.
  - by rewrite <- L1, take_app_length.
  - rewrite <- L1 at 1. rewrite drop_app_length.
    rewrite <- (big_endian_length 8 step) at 1. rewrite take_app_length.
    rewrite from_to_big_endian by lia. by apply Z.mod_small.
  - rewrite app_nth2 by lia. rewrite L1. rewrite app_nth2 by (rewrite big_endian_length; lia).
    by rewrite big_endian_length.
  - rewrite (app_assoc sec), (app_assoc (sec ++ _)).
    assert (L29 : length ((sec ++ big_endian 8 step []) ++ [used]) = 29%nat)
      by (rewrite !length_app, big_endian_length; cbn; lia).
    rewrite <- L29 at 1. rewrite drop_app_length. rewrite <- (app_nil_r (concat rec)), <- L4.
    apply entries_concat. eapply Forall_impl; [exact H4|]. by intros r [? _].
Qed.

Lemma parse_record_typed text s0 s :
  parse_record text s0 = Some s -> s = s0 \/ two_enabled s = true /\ two_typed s.
Proof.
  unfold parse_record. case_if; [intros E; left; congruence|].
  destruct (hex_to_bytes RECORD_BYTES (Some text)) as [[|b raw]|] eqn:E; [done | | done].
  apply hex_to_bytes_range in E as [L [_ B]%Forall_cons].
  assert (L' : length raw = 285%nat) by (cbn in L; unfold RECORD_BYTES in L; cbn in L; lia).
  destruct b as [|[]|]; try done. intros E. apply (inj Some) in E as <-. right. split; [done|].
  destruct (entries_typed SI_TWO_STEP_RECOVERY_COUNT (drop 29 raw)) as [L1 H1];
    [rewrite length_drop; cbn; lia | by apply Forall_drop|].
  split; cbn [two_secret last_step used_codes recovery].
  - split; [rewrite length_take; lia | by apply Forall_take].
  - apply from_big_endian_range. by apply Forall_take, Forall_drop.
  - apply (Forall_nth is_byte 0 raw); [done | lia].
  - done.
Qed.

(** ** Comparisons *)

Lemma two_equal_nth n a b :
  two_equal n a b = true <-> forall i, (i < n)%nat -> nth i a 0 = nth i b 0.
Proof.
  unfold two_equal. rewrite Z.eqb_eq, lor_fold_zero, Forall_forall. split.
  - intros [_ H] i Hi. apply Z.lxor_eq, H, elem_of_seq. lia.
  - intros H. split; [done|]. intros i Hi%elem_of_seq. rewrite H by lia. apply Z.lxor_nilpotent.
Qed.

Lemma two_equal_eq n a b :
  length a = n -> length b = n -> two_equal n a b = true <-> a = b.
Proof.
  intros La Lb. rewrite two_equal_nth. split; [|by intros ->].
  intros H. apply (nth_ext _ _ 0 0); [lia|]. intros i Hi. apply H. lia.
Qed.

Lemma decimal_digits_length n v after : length (decimal_digits n v after) = (n + length after)%nat.
Proof.
  revert v after. induction n as [|n IH]; intros v after; cbn [decimal_digits]; [done|].
  rewrite IH. cbn. lia.
Qed.

Lemma decimal_digits_ok n v : forallb (between (ch "0") (ch "9")) (decimal_digits n v []) = true.
Proof.
  assert (H : forall after, forallb (between (ch "0") (ch "9")) after = true ->
    forallb (between (ch "0") (ch "9")) (decimal_digits n v after) = true); [|by apply H].
  revert v. induction n as [|n IH]; intros v after H; cbn [decimal_digits]; [done|].
  apply IH. cbn [forallb]. rewrite H, andb_true_r. unfold between.
  change (ch "0") with 48. change (ch "9") with 57.
  apply andb_true_intro. rewrite !Z.leb_le. pose proof (Z.mod_pos_bound v 10). lia.
Qed.

(** The last index that passes a test. *)
Lemma last_match (P : nat -> bool) n :
  match foldl (fun m i => if P i then Some i else m) None (seq 0 n) with
  | Some i => (i < n)%nat /\ P i = true
  | None => forall i, (i < n)%nat -> P i = false
  end.
Proof.
  induction n as [|n IH]; [intros i Hi; lia|].
  rewrite seq_S, foldl_app. cbn [foldl Nat.add]. destruct (P n) eqn:E; [split; [lia | done]|].
  destruct (foldl _ _ _) as [i|]; [split; [lia | apply IH]|].
  intros i Hi. destruct (decide (i = n)) as [->|]; [done|]. apply IH. lia.
Qed.

(** ** What a code proves *)

Inductive factor := FactorStep (t : Z) | FactorRecovery (i : nat).

#[export] Instance factor_eq_dec : EqDecision factor.
Proof. solve_decision. Defined.

(** The state with a factor consumed. *)
Definition spend (f : factor) (s : two_step_state_t) : two_step_state_t :=
  match f with
  | FactorStep t => s <| last_step := t |>
  | FactorRecovery i => s <| used_codes := Z.lor (used_codes s) (bit i) |>
  end.

(** A factor that the state still accepts. *)
Definition fresh (f : factor) (s : two_step_state_t) : Prop :=
  match f with
  | FactorStep t => last_step s < t < 2 ^ 64
  | FactorRecovery i => (i < SI_TWO_STEP_RECOVERY_COUNT)%nat /\ Z.land (used_codes s) (bit i) = 0
  end.

(** A factor that the state does not accept any more. *)
Definition stale (s : two_step_state_t) (f : factor) : Prop :=
  match f with
  | FactorStep t => t <= last_step s
  | FactorRecovery i => Z.land (used_codes s) (bit i) <> 0
  end.

Lemma bit_self i : Z.land (bit i) (bit i) <> 0.
Proof. rewrite Z.land_diag. unfold bit. rewrite Z.shiftl_1_l. pose proof (Z.pow_pos_nonneg 2 (Z.of_nat i)). lia. Qed.

Lemma spend_stale f s : stale (spend f s) f.
Proof.
  destruct f as [t|i]; cbn; [lia|]. rewrite Z.land_lor_distr_l, Z.lor_eq_0_iff.
  intros [_ H]. by apply (bit_self i).
Qed.

Lemma spend_keeps f g s : fresh f s -> stale s g -> stale (spend f s) g.
Proof.
  destruct f as [t|i], g as [u|j]; cbn; try done; [lia|].
  intros _. rewrite Z.land_lor_distr_l, Z.lor_eq_0_iff. tauto.
Qed.

Lemma fresh_not_stale f s : fresh f s -> ~ stale s f.
Proof. destruct f; cbn; [lia | intros [_ H] H'; by apply H']. Qed.

Lemma bit_range i : (i < SI_TWO_STEP_RECOVERY_COUNT)%nat -> is_byte (bit i).
Proof.
  intros Hi. unfold is_byte, bit, SI_TWO_STEP_RECOVERY_COUNT in *. rewrite Z.shiftl_1_l.
  split; [by apply Z.pow_nonneg | apply (Z.pow_lt_mono_r 2 _ 8); lia].
Qed.

Lemma lor_is_byte a b : is_byte a -> is_byte b -> is_byte (Z.lor a b).
Proof.
  unfold is_byte. intros Ha Hb. split; [apply Z.lor_nonneg; lia|].
  destruct (decide (Z.lor a b = 0)) as [->|]; [lia|].
  apply Z.log2_lt_pow2 with (b := 8); [|rewrite Z.log2_lor by lia].
  - assert (0 <= Z.lor a b) by (apply Z.lor_nonneg; lia). lia.
  - assert (Hl : forall x, 0 <= x < 256 -> Z.log2 x < 8); [|apply Z.max_lub_lt; by apply Hl].
    intros x Hx. destruct (decide (x = 0)) as [->|]; [cbn; lia|]. apply Z.log2_lt_pow2; lia.
Qed.

Lemma spend_typed f s : two_typed s -> fresh f s -> two_typed (spend f s).
Proof.
  intros [T1 T2 T3 T4] Hf. destruct f as [t|i]; cbn in Hf; split; try done; cbn; [lia|].
  apply lor_is_byte; [done | apply bit_range, Hf].
Qed.

Lemma spend_enabled f s : two_enabled (spend f s) = two_enabled s.
Proof. by destruct f. Qed.

(** The factor that a change of the state consumed. *)
Definition spent_factor (before after : two_step_state_t) : option factor :=
  if last_step after =? last_step before then
    FactorRecovery <$> List.find (fun i =>
      (Z.land (used_codes before) (bit i) =? 0) && negb (Z.land (used_codes after) (bit i) =? 0))
      (seq 0 SI_TWO_STEP_RECOVERY_COUNT)
  else Some (FactorStep (last_step after)).

Lemma bit_other i j : i <> j -> Z.land (bit i) (bit j) = 0.
Proof.
  intros Hne. apply Z.bits_inj'. intros n Hn. rewrite Z.land_spec, Z.bits_0. unfold bit.
  rewrite !Z.shiftl_1_l, !Z.pow2_bits_eqb by lia.
  destruct (Z.eqb_spec (Z.of_nat i) n), (Z.eqb_spec (Z.of_nat j) n); try done. lia.
Qed.

Lemma spent_spend f s : fresh f s -> spent_factor s (spend f s) = Some f.
Proof.
  intros Hf. unfold spent_factor. destruct f as [t|i]; unfold fresh in Hf.
  - change (last_step (spend (FactorStep t) s)) with t.
    by rewrite (proj2 (Z.eqb_neq t (last_step s))) by lia.
  - change (last_step (spend (FactorRecovery i) s)) with (last_step s). rewrite Z.eqb_refl.
    change (used_codes (spend (FactorRecovery i) s)) with (Z.lor (used_codes s) (bit i)).
    destruct Hf as [Hi Hu].
    destruct (List.find _ _) as [j|] eqn:E.
    + apply List.find_some in E as [_ E]. cbv beta in E. apply andb_prop in E as [E1 E2].
      apply Z.eqb_eq in E1. apply negb_true_iff, Z.eqb_neq in E2.
      rewrite Z.land_lor_distr_l, E1, Z.lor_0_l in E2.
      destruct (decide (i = j)) as [->|Hne]; [done | by rewrite bit_other in E2].
    + pose proof (List.find_none _ _ E i) as Hn. cbv beta in Hn.
      rewrite Hu, Z.eqb_refl in Hn. cbn [andb] in Hn.
      assert (Hin : List.In i (seq 0 SI_TWO_STEP_RECOVERY_COUNT)) by (apply in_seq; lia).
      specialize (Hn Hin). apply negb_false_iff, Z.eqb_eq in Hn.
      rewrite Z.land_lor_distr_l in Hn. apply Z.lor_eq_0_iff in Hn as [_ Hn]. by destruct (bit_self i).
Qed.

Section codes.
Context (mbedtls_sha256 : list Z -> option (list Z)).
Context (mbedtls_hmac_sha1 : list Z -> list Z -> option (list Z)).

(** SHA-256 gives 32 bytes. *)
Context (sha256_bytes : forall text digest, mbedtls_sha256 text = Some digest ->
  length digest = 32%nat /\ Forall is_byte digest).

(** The time that a code is checked against: the device's, or the client's while
    the device's clock is not set. *)
Definition checked_at (env : two_env) (client_unix : Z) : option Z :=
  if wall env <? MIN_UNIX_TIME
  then if between MIN_UNIX_TIME SI_TWO_STEP_CLIENT_TIME_MAX client_unix then Some client_unix else None
  else Some (wall env).

(** RFC 6238 with steps of 30 seconds and one step of drift, and the recovery codes. *)
Definition proves (env : two_env) (client_unix : Z) (s : two_step_state_t) (code : cstring) (f : factor)
  : Prop :=
  match f with
  | FactorStep t =>
      length code = 6%nat /\
      exists now v, checked_at env client_unix = Some now /\ -1 <= t - now / 30 <= 1 /\
        two_hotp mbedtls_hmac_sha1 (two_secret s) t 6 = Some v /\ code = decimal_digits 6 v []
  | FactorRecovery i =>
      length code = 32%nat /\
      exists bytes digest, hex_to_bytes 16 (Some code) = Some bytes /\
        mbedtls_sha256 (hex_text bytes) = Some digest /\ recovery s !! i = Some digest
  end.

Lemma step_match_spec s code current drifts matched :
  length code = 6%nat -> 0 <= last_step s ->
  Forall (fun d => 0 <= current + d < 2 ^ 64) drifts ->
  let good t := last_step s < t /\ exists v, two_hotp mbedtls_hmac_sha1 (two_secret s) t 6 = Some v /\
                                       code = decimal_digits 6 v [] in
  match step_match mbedtls_hmac_sha1 s code current drifts matched with
  | Some t => t = matched /\ (forall d, d ∈ drifts -> ~ good (current + d)) \/
              exists d, d ∈ drifts /\ t = current + d /\ good t
  | None => exists d, d ∈ drifts /\ two_hotp mbedtls_hmac_sha1 (two_secret s) (current + d) 6 = None
  end.
Proof using.
  intros Lc Hl. revert matched. induction drifts as [|d drifts IH]; intros matched Hr good; cbn [step_match].
  { left. split; [done|]. intros d Hd. by apply not_elem_of_nil in Hd. }
  apply Forall_cons in Hr as [Hd Hr].
  assert (Eu : u64 (current + d) = current + d) by by apply Z.mod_small. rewrite Eu.
  destruct (two_hotp _ _ (current + d) 6) as [v|] eqn:Ev; [|exists d; split; [left | done]].
  assert (Hg : two_equal 6 (decimal_digits 6 v []) code && (last_step s <? current + d) = true <->
               good (current + d)).
  { unfold good. rewrite andb_true_iff, two_equal_eq, Z.ltb_lt by (done || by rewrite decimal_digits_length).
    split; [intros [<- ?]; split; [done | by exists v] | intros [? (v' & Ev' & ->)]].
    assert (v' = v) as -> by congruence. done. }
  match goal with |- context [step_match _ _ _ _ _ ?x] => set (m := x) end.
  specialize (IH m Hr). destruct (step_match _ _ _ _ _ m) as [t|].
  2:{ destruct IH as (d' & ? & ?). exists d'. split; [by right | done]. }
  destruct IH as [[-> Hno]|(d' & Hd' & Et & Gt)]; [|right; exists d'; split_and!; [by right | done | done]].
  subst m. destruct (two_equal _ _ _ && _) eqn:E.
  - right. exists d. split_and!; [left | done | by apply Hg].
  - left. split; [done|]. intros d' [->|Hd']%elem_of_cons; [|by apply Hno].
    intros Hgood. apply Hg in Hgood. congruence.
Qed.

(** The clock leaves room for the counters. *)
Definition clock_ok (env : two_env) : Prop := wall env < 2 ^ 62.

Lemma checked_steps env client now :
  clock_ok env -> checked_at env client = Some now ->
  Forall (fun d => 0 <= now / 30 + d < 2 ^ 64) [-1; 0; 1].
Proof using.
  unfold clock_ok, checked_at, between, MIN_UNIX_TIME, SI_TWO_STEP_CLIENT_TIME_MAX. intros Hc H.
  assert (1704067200 <= now < 2 ^ 62).
  { case_if; [case_if; [|done]|]; split_guards; to_props; apply (inj Some) in H; lia. }
  repeat constructor; Z.div_mod_to_equations; lia.
Qed.

(** What a check makes of the factors that the code could prove. *)
Definition checks_exactly (P : factor -> Prop) (s : two_step_state_t)
    (r : bool * two_step_state_t * Z) : Prop :=
  let '(ok, s', adopted) := r in
  (ok = true -> exists f, P f /\ fresh f s /\ s' = spend f s) /\
  (ok = false -> s' = s /\ adopted = 0) /\
  ((forall k m, is_Some (mbedtls_hmac_sha1 k m)) -> (exists f, P f /\ fresh f s) -> ok = true).

Lemma checks_nothing (P : factor -> Prop) s :
  (forall f, P f -> fresh f s -> False) -> checks_exactly P s (false, s, 0).
Proof using. intros H. split_and!; [done | done |]. intros _ (f & Hp & Hf). by destruct (H f). Qed.

Lemma recovery_entry s digest i :
  two_typed s -> length digest = 32%nat -> (i < SI_TWO_STEP_RECOVERY_COUNT)%nat ->
  two_equal 32 digest (nth i (recovery s) []) = true <-> recovery s !! i = Some digest.
Proof using.
  intros T Ld Hi. destruct (recovery_typed _ T) as [Lr Hr].
  destruct (lookup_lt_is_Some_2 (recovery s) i) as [r Er]; [lia|].
  rewrite (nth_lookup_Some _ _ _ _ Er), Er.
  destruct (Forall_lookup_1 _ _ _ _ Hr Er) as [Lr' _]. rewrite two_equal_eq by done.
  split; [by intros -> | congruence].
Qed.

Lemma check_recovery_spec env s code client :
  two_typed s -> length code = 32%nat ->
  checks_exactly (proves env client s code) s (check_recovery mbedtls_sha256 s code).
Proof using sha256_bytes.
  intros T L. unfold check_recovery.
  assert (Hno : (forall bytes digest, hex_to_bytes 16 (Some code) = Some bytes ->
      mbedtls_sha256 (hex_text bytes) = Some digest ->
      forall i, recovery s !! i = Some digest -> fresh (FactorRecovery i) s -> False) ->
    checks_exactly (proves env client s code) s (false, s, 0)).
  { intros H. apply checks_nothing. intros [t|i] Hp Hf; [destruct Hp; lia|].
    destruct Hp as (_ & bytes & digest & Eb & Ed & Er). by apply (H bytes digest Eb Ed i). }
  destruct (hex_to_bytes 16 (Some code)) as [bytes|] eqn:Eb; [|by apply Hno].
  destruct (mbedtls_sha256 (hex_text bytes)) as [digest|] eqn:Ed; [|apply Hno; congruence].
  destruct (sha256_bytes _ _ Ed) as [Ld _]. unfold recovery_match.
  pose proof (last_match (fun i => two_equal 32 digest (nth i (recovery s) []) &&
    (Z.land (used_codes s) (bit i) =? 0)) SI_TWO_STEP_RECOVERY_COUNT) as Hl.
  destruct (foldl _ None (seq 0 SI_TWO_STEP_RECOVERY_COUNT)) as [i|].
  - destruct Hl as [Hi [He Hu]%andb_prop]. apply Z.eqb_eq in Hu.
    apply recovery_entry in He; [|done..]. split; [|split; [discriminate | reflexivity]].
    intros _. exists (FactorRecovery i). split; [|split; [done|]].
    + split; [done|]. by exists bytes, digest.
    + unfold spend. rewrite u8_small; [done | exact (bit_range i Hi)].
  - apply Hno. intros b dg E E' i Er [Hi Hu].
    assert (b = bytes) as -> by congruence. assert (dg = digest) as -> by congruence.
    specialize (Hl i Hi). cbv beta in Hl. apply recovery_entry in Er; [|done..]. by rewrite Er, Hu in Hl.
Qed.

Lemma check_totp_spec env s code client :
  two_typed s -> clock_ok env -> length code <> 32%nat ->
  checks_exactly (proves env client s code) s (check_totp mbedtls_hmac_sha1 env s code client).
Proof using.
  intros T Hc L. unfold check_totp.
  assert (Hno : (length code = 6%nat -> forall now t v, checked_at env client = Some now ->
      -1 <= t - now / 30 <= 1 -> two_hotp mbedtls_hmac_sha1 (two_secret s) t 6 = Some v ->
      code = decimal_digits 6 v [] -> last_step s < t -> False) ->
    checks_exactly (proves env client s code) s (false, s, 0)).
  { intros H. apply checks_nothing. intros [t|i] Hp Hf; [|destruct Hp; lia].
    destruct Hp as (L6 & now & v & Ec & Ht & Ev & E), Hf as [Hlt _]. by apply (H L6 now t v). }
  case_if; [apply Hno; intros E; by rewrite E in Heqb|].
  apply negb_false_iff, Nat.eqb_eq in Heqb.
  case_if; [apply Hno; intros _ ? ? ? _ _ _ ->; by rewrite decimal_digits_ok in Heqb0|].
  set (now := if wall env <? MIN_UNIX_TIME then client else wall env).
  assert (Hck : checked_at env client = if (wall env <? MIN_UNIX_TIME) &&
    ((client <? MIN_UNIX_TIME) || (SI_TWO_STEP_CLIENT_TIME_MAX <? client)) then None else Some now).
  { unfold checked_at, now, between. destruct (wall env <? MIN_UNIX_TIME); [|done]. cbn [andb].
    destruct (Z.ltb_spec client MIN_UNIX_TIME), (Z.leb_spec MIN_UNIX_TIME client); try lia; [done|].
    destruct (Z.ltb_spec SI_TWO_STEP_CLIENT_TIME_MAX client), (Z.leb_spec client SI_TWO_STEP_CLIENT_TIME_MAX);
      try lia; done. }
  case_if; [apply Hno; congruence|].
  pose proof (checked_steps env client now Hc Hck) as Hd. destruct (step_typed _ T) as [Hl _].
  pose proof (step_match_spec s code (now / 30) [-1; 0; 1] 0 Heqb Hl Hd) as Hm.
  destruct (step_match _ s code (now / 30) [-1; 0; 1] 0) as [t|].
  - destruct Hm as [[-> Hnone]|(d & Hin & -> & Hlt & v & Ev & ->)].
    + apply Hno. intros _ n t v Ec Ht Ev -> Hlt. assert (n = now) as -> by congruence.
      apply (Hnone (t - now / 30)); [rewrite !elem_of_cons; lia|].
      replace (now / 30 + (t - now / 30)) with t by lia. split; [done | by exists v].
    + pose proof (proj1 (Forall_forall _ _) Hd d Hin) as Hr. cbv beta in Hr.
      assert ((now / 30 + d =? 0) = false) as -> by (apply Z.eqb_neq; lia).
      split; [|split; [discriminate | reflexivity]]. intros _. exists (FactorStep (now / 30 + d)).
      split; [|split; [split; [done | lia] | done]]. split; [done|]. exists now, v.
      assert (-1 <= d <= 1) by (rewrite !elem_of_cons in Hin; destruct Hin as [->|[->|[->|Hin%not_elem_of_nil]]]; lia || done).
      split_and!; try done; lia.
  - split_and!; [done | done |]. intros Htot _. destruct Hm as (d & _ & E). exfalso.
    unfold two_hotp in E. destruct (Htot (two_secret s) (big_endian 8 (now / 30 + d) [])) as [x Ex].
    by rewrite Ex in E.
Qed.

(** A code is good exactly when it proves a factor that is still fresh, and then
    that factor is consumed; an enrollment accepts no recovery code. *)
Lemma check_code_spec env s code with_recovery client :
  two_typed s -> clock_ok env ->
  checks_exactly (fun f => proves env client s code f /\ (with_recovery = false -> exists t, f = FactorStep t))
    s (two_check_code mbedtls_sha256 mbedtls_hmac_sha1 env s (Some code) with_recovery client).
Proof using sha256_bytes.
  intros T Hc. unfold two_check_code.
  assert (Hw : forall (P Q : factor -> Prop) r, (forall f, P f <-> Q f) ->
    checks_exactly P s r -> checks_exactly Q s r).
  { intros P Q [[ok s'] a] H (H1 & H2 & H3). split_and!; [|done|].
    - intros Hok. destruct (H1 Hok) as (f & Hf & ?). exists f. split; [by apply H | done].
    - intros Ht (f & Hf & ?). apply H3; [done|]. exists f. split; [by apply H | done]. }
  destruct (Nat.eqb_spec (length code) 32) as [L|L].
  - destruct with_recovery; cbn [andb].
    + eapply Hw; [|by apply check_recovery_spec]. intros f. split; [done | by intros []].
    + unfold check_totp. rewrite L. cbn [Nat.eqb negb]. apply checks_nothing.
      intros f [Hp Hf] _. destruct (Hf eq_refl) as [t ->]. destruct Hp; lia.
  - rewrite andb_false_r. eapply Hw; [|by apply check_totp_spec]. intros f.
    split; [|by intros []]. intros Hp. split; [done|]. intros _.
    destruct f as [t|i]; [by eexists | by destruct Hp].
Qed.
End codes.

(** ** The codes of RFC 4226 and RFC 6238

    What a code is, said without the routines of the firmware: the code of a time
    step is read off the HMAC of the step by the arithmetic of the standard. *)

(** The number that bytes write, the most significant first. *)
Definition be_value (bytes : list Z) : Z := foldl (fun acc b => 256 * acc + b) 0 bytes.

(** The number that decimal digits write. *)
Definition decimal_value (code : cstring) : Z := foldl (fun acc c => 10 * acc + (c - ch "0")) 0 code.

(** The dynamic truncation: the low half of the last of twenty bytes chooses four of
    them, of which 31 bits count. *)
Definition truncated (hmac : list Z) : Z :=
  be_value (take 4 (drop (Z.to_nat (nth 19 hmac 0 mod 16)) hmac)) mod 2 ^ 31.

Definition isxdigit (c : Z) : bool := isdigit c || between (ch "a") (ch "f") (tolower c).

Section standard.
Context (mbedtls_sha256 : list Z -> option (list Z)).
Context (mbedtls_hmac_sha1 : list Z -> list Z -> option (list Z)).

(** The six digits are the truncated HMAC-SHA1 of the eight bytes of the step,
    reduced modulo a million. *)
Definition totp_code (secret : list Z) (t : Z) (code : cstring) : Prop :=
  exists counter hmac,
    length counter = 8%nat /\ Forall is_byte counter /\ be_value counter = t /\
    mbedtls_hmac_sha1 secret counter = Some hmac /\
    length code = 6%nat /\ Forall (fun c => isdigit c = true) code /\
    decimal_value code = truncated hmac mod 1000000.

(** RFC 6238 with steps of 30 seconds and one step of drift; a recovery code is 32
    hexadecimal digits, of which the digest of their small letters is kept. *)
Definition rfc_proves (env : two_env) (client_unix : Z) (s : two_step_state_t) (code : cstring)
    (f : factor) : Prop :=
  match f with
  | FactorStep t =>
      exists now, checked_at env client_unix = Some now /\ -1 <= t - now / 30 <= 1 /\
        totp_code (two_secret s) t code
  | FactorRecovery i =>
      length code = 32%nat /\ Forall (fun c => isxdigit c = true) code /\
      exists digest, mbedtls_sha256 (tolower <$> code) = Some digest /\ recovery s !! i = Some digest
  end.
End standard.

Lemma be_value_snoc l b : be_value (l ++ [b]) = 256 * be_value l + b.
Proof. unfold be_value. by rewrite foldl_app. Qed.

Lemma be_value_range l : Forall is_byte l -> 0 <= be_value l < 2 ^ (8 * Z.of_nat (length l)).
Proof.
  induction l as [|b l IH] using rev_ind; intros H; [cbn; lia|].
  apply Forall_app in H as [Hl Hb%Forall_inv]. specialize (IH Hl).
  rewrite be_value_snoc, length_app. cbn [length]. unfold is_byte in Hb.
  replace (8 * Z.of_nat (length l + 1)) with (8 * Z.of_nat (length l) + 8) by lia.
  rewrite Z.pow_add_r by lia. change (2 ^ 8) with 256. lia.
Qed.

Lemma be_value_big_endian n t : be_value (big_endian n t []) = t mod 2 ^ (8 * Z.of_nat n).
Proof.
  revert t. induction n as [|n IH]; intros t; [by rewrite Z.mod_1_r|].
  rewrite big_endian_S, be_value_snoc, IH, Z.shiftr_div_pow2 by lia. unfold u8. change (2 ^ 8) with 256.
  replace (8 * Z.of_nat (S n)) with (8 + 8 * Z.of_nat n) by lia.
  rewrite Z.pow_add_r by lia. change (2 ^ 8) with 256. rewrite Z.rem_mul_r by lia. lia.
Qed.

Lemma be_value_inj a b :
  Forall is_byte a -> Forall is_byte b -> length a = length b -> be_value a = be_value b -> a = b.
Proof.
  revert b. induction a as [|x a IH] using rev_ind; intros b Ha Hb L E.
  { by destruct b. }
  destruct b as [|y b] using rev_ind; [rewrite length_app in L; cbn in L; lia|].
  rewrite !length_app in L. cbn in L. rewrite !be_value_snoc in E.
  apply Forall_app in Ha as [Ha Hx%Forall_inv], Hb as [Hb Hy%Forall_inv]. unfold is_byte in *.
  assert (x = y) as <- by lia. rewrite (IH b); done || lia.
Qed.

(** The number written by the bytes of a word. *)
Lemma word_value a b c d :
  is_byte a -> is_byte b -> is_byte c -> is_byte d ->
  Z.lor (Z.lor (Z.lor (Z.shiftl (Z.land a 127) 24) (Z.shiftl b 16)) (Z.shiftl c 8)) d =
  be_value [a; b; c; d] mod 2 ^ 31.
Proof.
  unfold is_byte. intros Ha Hb Hc Hd. change 127 with (Z.ones 7). rewrite Z.land_ones by lia.
  set (m := a mod 2 ^ 7). assert (Hm : 0 <= m < 2 ^ 7) by (apply Z.mod_pos_bound; lia).
  rewrite (Z.shiftl_mul_pow2 b), (Z.shiftl_mul_pow2 c) by lia.
  rewrite lor_shiftl_add by lia.
  replace (m * 2 ^ 24 + b * 2 ^ 16) with (Z.shiftl (m * 2 ^ 8 + b) 16) by (rewrite Z.shiftl_mul_pow2; lia).
  rewrite lor_shiftl_add by lia.
  replace ((m * 2 ^ 8 + b) * 2 ^ 16 + c * 2 ^ 8) with (Z.shiftl ((m * 2 ^ 8 + b) * 2 ^ 8 + c) 8)
    by (rewrite Z.shiftl_mul_pow2; lia).
  rewrite lor_shiftl_add by lia. unfold be_value. cbn [foldl]. subst m.
  Z.div_mod_to_equations. lia.
Qed.

Lemma drop_four (l : list Z) n :
  (n + 4 <= length l)%nat ->
  take 4 (drop n l) = [nth n l 0; nth (n + 1) l 0; nth (n + 2) l 0; nth (n + 3) l 0].
Proof.
  intros H. apply (list_eq_same_length _ _ 4); [done | rewrite length_take, length_drop; lia |].
  intros i x y Hi. rewrite lookup_take_lt, lookup_drop by done. intros Hx Hy.
  destruct i as [|[|[|[|i]]]]; [| | | | lia]; cbn in Hy; simplify_eq;
    erewrite nth_lookup_Some; try done; by rewrite ?Nat.add_0_r in Hx.
Qed.

Lemma decimal_digits_app n v after : decimal_digits n v after = decimal_digits n v [] ++ after.
Proof.
  revert v after. induction n as [|n IH]; intros v after; cbn [decimal_digits]; [done|].
  by rewrite IH, (IH _ [_]), <- app_assoc.
Qed.

(** The digits printed are the only ones that write the number. *)
Lemma decimal_digits_value n v code :
  0 <= v ->
  code = decimal_digits n v [] <->
  length code = n /\ Forall (fun c => isdigit c = true) code /\ decimal_value code = v mod 10 ^ Z.of_nat n.
Proof.
  revert v code. induction n as [|n IH]; intros v code Hv.
  { split; [intros ->; split_and!; [done | constructor | by rewrite Z.mod_1_r]|].
    intros [L _]. by destruct code. }
  cbn [decimal_digits]. rewrite decimal_digits_app.
  assert (Hq : 0 <= v / 10) by (apply Z.div_pos; lia).
  assert (Hd : forall l c, decimal_value (l ++ [c]) = 10 * decimal_value l + (c - 48))
    by (intros; unfold decimal_value; by rewrite foldl_app).
  assert (Hp : v mod 10 ^ Z.of_nat (S n) = v mod 10 + 10 * ((v / 10) mod 10 ^ Z.of_nat n)).
  { rewrite Nat2Z.inj_succ, Z.pow_succ_r by lia. apply Z.rem_mul_r; lia. }
  pose proof (Z.mod_pos_bound v 10 ltac:(lia)) as Hm.
  rewrite Hp. change (ch "0") with 48. split.
  - intros ->. destruct (proj1 (IH (v / 10) _ Hq) eq_refl) as (L & F & E).
    rewrite length_app, L, Hd, E. split_and!; [cbn; lia | | lia].
    apply Forall_app. split; [done|]. apply Forall_singleton, between_true.
    change (ch "0") with 48. change (ch "9") with 57. lia.
  - destruct code as [|c code] using rev_ind; [intros [L _]; done|]. clear IHcode.
    rewrite length_app, Hd. cbn [length]. intros (L & [F Hc%Forall_inv]%Forall_app & E).
    apply between_true in Hc. change (ch "0") with 48 in Hc. change (ch "9") with 57 in Hc.
    pose proof (Z.mod_pos_bound (v / 10) (10 ^ Z.of_nat n) ltac:(apply Z.pow_pos_nonneg; lia)).
    rewrite (proj2 (IH (v / 10) code Hq)) by (split_and!; done || lia). f_equal. f_equal. lia.
Qed.

Lemma hex_nibble_digit c :
  (hex_nibble c <? 0) = negb (isxdigit c) /\
  (isxdigit c = true -> 0 <= hex_nibble c < 16 /\ hex_digit (hex_nibble c) = tolower c).
Proof.
  destruct (decide (0 <= c < 128)) as [Hc|Hc].
  - assert (Hin : c ∈ seqZ 0 128) by (apply elem_of_seqZ; lia). clear Hc. revert c Hin.
    apply Forall_forall. by_decide.
  - assert (Hno : forall lo hi, 0 <= lo -> hi < 128 -> between lo hi c = false).
    { intros lo hi ? ?. unfold between. destruct (Z.leb_spec lo c), (Z.leb_spec c hi); done || lia. }
    unfold hex_nibble, isxdigit, isdigit, tolower, isupper. by rewrite !Hno.
Qed.

Lemma unhex_spec n code :
  match hex_to_bytes n (Some code) with
  | Some bytes => length code = (2 * n)%nat /\ Forall (fun c => isxdigit c = true) code /\
                  hex_text bytes = tolower <$> code
  | None => ~ (length code = (2 * n)%nat /\ Forall (fun c => isxdigit c = true) code)
  end.
Proof.
  unfold hex_to_bytes. case_if; [apply negb_true_iff, Nat.eqb_neq in Heqb; tauto|].
  apply negb_false_iff, Nat.eqb_eq in Heqb. revert code Heqb.
  induction n as [|n IH]; intros code L; [by destruct code|].
  destruct code as [|a [|b code]]; cbn in L; [lia | lia |]. cbn [unhex_loop].
  destruct (hex_nibble_digit a) as [-> Ha], (hex_nibble_digit b) as [-> Hb].
  specialize (IH code ltac:(lia)).
  destruct (isxdigit a) eqn:Xa, (isxdigit b) eqn:Xb; cbn [negb orb];
    try (rewrite !Forall_cons, Xa, Xb; intros (? & ? & ? & ?); done).
  destruct (Ha eq_refl) as [Ra Ea], (Hb eq_refl) as [Rb Eb].
  destruct (unhex_loop n code) as [bytes|]; cbn [mbind option_bind]; rewrite !Forall_cons;
    [|intros (? & ? & ? & ?); apply IH; split; [lia | done]].
  destruct IH as (_ & HF & E). split_and!; [done.. |].
  change (hex_text (?x :: bytes)) with (hex_byte x ++ hex_text bytes). rewrite E. cbn [fmap list_fmap].
  rewrite lor_shiftl_add by lia. change (2 ^ 4) with 16. rewrite u8_small by (unfold is_u8; lia).
  unfold hex_byte. rewrite Z.div_add_l, Z.div_small, Z.add_0_r by lia.
  rewrite Z.add_comm, Z.mod_add, Z.mod_small by lia.
  by rewrite Ea, Eb.
Qed.

(** The examples of RFC 4226: section 5.4, and the first two codes of appendix D. *)
Definition hex_bytes (text : String.string) : list Z := default [] (hex_to_bytes 20 (Some (cstr text))).

Example truncated_of_section_5_4 :
  truncated (hex_bytes "1f8698690e02ca16618550ef7f19da8e945b555a") mod 1000000 = 872921.
Proof. reflexivity. Qed.

Example truncated_of_appendix_D :
  (fun text => truncated (hex_bytes text) mod 1000000) <$>
    ["cc93cf18508d94934c64b65d8ba7667fb7cde4b0"; "75a48a19d4cbe100644e8ac1397eea747a2d33ab"]%string =
  [755224; 287082].
Proof. reflexivity. Qed.

Section standard_codes.
Context (mbedtls_sha256 : list Z -> option (list Z)).
Context (mbedtls_hmac_sha1 : list Z -> list Z -> option (list Z)).

(** HMAC-SHA1 gives 20 bytes. *)
Context (hmac_bytes : forall key text hmac, mbedtls_hmac_sha1 key text = Some hmac ->
  length hmac = 20%nat /\ Forall is_byte hmac).

(** The routine of the firmware computes the truncation of the standard. *)
Lemma two_hotp_standard secret t :
  two_hotp mbedtls_hmac_sha1 secret t 6 =
  (fun hmac => truncated hmac mod 1000000) <$> mbedtls_hmac_sha1 secret (big_endian 8 t []).
Proof using hmac_bytes.
  unfold two_hotp. destruct (mbedtls_hmac_sha1 secret _) as [hmac|] eqn:E; [|done].
  destruct (hmac_bytes _ _ _ E) as [L F]. unfold truncated.
  change 15 with (Z.ones 4). rewrite Z.land_ones by lia. change (2 ^ 4) with 16.
  pose proof (Z.mod_pos_bound (nth 19 hmac 0) 16 ltac:(lia)) as Ho.
  set (o := Z.to_nat (nth 19 hmac 0 mod 16)). assert (Ho' : (o + 4 <= length hmac)%nat) by lia.
  assert (Hb : forall i, (i < length hmac)%nat -> is_byte (nth i hmac 0)).
  { intros i Hi. destruct (lookup_lt_is_Some_2 hmac i Hi) as [x Ex].
    rewrite (nth_lookup_Some _ _ _ _ Ex). by apply (Forall_lookup_1 _ _ _ _ F Ex). }
  cbn [fmap option_fmap option_map]. cbv beta. fold o. by rewrite drop_four, word_value by (done || apply Hb; lia).
Qed.

Lemma totp_code_hotp secret t code :
  0 <= t < 2 ^ 64 ->
  totp_code mbedtls_hmac_sha1 secret t code <->
  length code = 6%nat /\
  exists v, two_hotp mbedtls_hmac_sha1 secret t 6 = Some v /\ code = decimal_digits 6 v [].
Proof using hmac_bytes.
  intros Ht. rewrite two_hotp_standard.
  assert (Hv : forall hmac, 0 <= truncated hmac mod 1000000) by (intros; apply Z.mod_pos_bound; lia).
  assert (Hm : forall hmac, truncated hmac mod 1000000 = (truncated hmac mod 1000000) mod 10 ^ Z.of_nat 6)
    by (intros; symmetry; apply Z.mod_small, Z.mod_pos_bound; done).
  split.
  - intros (counter & hmac & Lc & Fc & Ec & Eh & Lk & Fk & Ek). split; [done|].
    assert (counter = big_endian 8 t []) as ->.
    { apply be_value_inj; [done | apply big_endian_bytes | by rewrite big_endian_length |].
      rewrite be_value_big_endian. change (8 * Z.of_nat 8) with 64. by rewrite Z.mod_small. }
    exists (truncated hmac mod 1000000). rewrite Eh. split; [done|].
    apply decimal_digits_value; [apply Hv | by rewrite <- Hm].
  - intros [L (v & Ev & Ek)]. destruct (mbedtls_hmac_sha1 secret _) as [hmac|] eqn:Eh; [|done].
    apply (inj Some) in Ev as <-. exists (big_endian 8 t []), hmac.
    apply decimal_digits_value in Ek as (_ & Fk & Ek); [|apply Hv]. rewrite <- Hm in Ek.
    split_and!; [apply big_endian_length | apply big_endian_bytes | | done..].
    rewrite be_value_big_endian. change (8 * Z.of_nat 8) with 64. by apply Z.mod_small.
Qed.

(** What a code proves by the routines of the firmware it proves by the standard. *)
Lemma proves_standard env client s code f :
  clock_ok env ->
  proves mbedtls_sha256 mbedtls_hmac_sha1 env client s code f <->
  rfc_proves mbedtls_sha256 mbedtls_hmac_sha1 env client s code f.
Proof using hmac_bytes.
  intros Hc. destruct f as [t|i]; cbn [proves rfc_proves].
  - assert (Ht : forall now, checked_at env client = Some now -> -1 <= t - now / 30 <= 1 -> 0 <= t < 2 ^ 64).
    { intros now E Hd. pose proof (checked_steps env client now Hc E) as F. rewrite Forall_forall in F.
      specialize (F (t - now / 30)). cbv beta in F.
      replace (now / 30 + (t - now / 30)) with t in F by lia. apply F. rewrite !elem_of_cons. lia. }
    split.
    + intros (L & now & v & Ec & Hd & Ev & Ek). exists now. split_and!; [done | lia | lia |].
      apply totp_code_hotp; [by apply (Ht now) |]. split; [done|]. by exists v.
    + intros (now & Ec & Hd & Hk). apply totp_code_hotp in Hk as [L (v & Ev & Ek)]; [|by apply (Ht now)].
      split; [done|]. exists now, v. done.
  - pose proof (unhex_spec 16 code) as Hu. split.
    + intros (L & bytes & digest & Eb & Ed & Er). rewrite Eb in Hu. destruct Hu as (_ & F & Ex).
      split_and!; [done | done |]. exists digest. by rewrite <- Ex.
    + intros (L & F & digest & Ed & Er). split; [done|].
      destruct (hex_to_bytes 16 (Some code)) as [bytes|]; [|by destruct Hu].
      destruct Hu as (_ & _ & Ex). exists bytes, digest. by rewrite Ex.
Qed.
End standard_codes.

(** ** The record in flash *)

Abbreviation record_key := (two_namespace, two_key).

Section disk.
Context {N : Type} `{NvsLaws N}.
Implicit Types (w : two_world (N := N)).

Lemma wp_on_two {A} (f : two_statics -> A * two_statics) (Q : A -> two_world (N := N) -> Prop) w :
  Q (f (two w)).1 (w <| two := (f (two w)).2 |>) -> wp (on_two f) Q w.
Proof using. unfold wp, on_two. by destruct (f (two w)). Qed.

Lemma wp_on_disk {A} (m : st (system N) A) (Q : A -> two_world (N := N) -> Prop) w :
  wp m (fun a d => Q a (w <| disk := d |>)) (disk w) -> wp (on_disk m) Q w.
Proof using. unfold wp, on_disk. by destruct (m (disk w)). Qed.

(** What loading and saving leave alone. *)
Definition two_frame (s : two_statics) :=
  ((s_two_lock s, s_two_pending s, s_two_pending_id s, s_two_pending_generation s),
   (s_two_pending_until s, s_two_active s, s_two_enroll s, s_clock s)).

(** What memory holds after a load from [w]: what the record says, or what it held. *)
Definition loaded_from w (s' : two_statics) : Prop :=
  s_two_loaded s' = true /\
  (s_two_storage_ok s' = false /\ s_two_state s' = s_two_state (two w) \/
   s_two_storage_ok s' = true /\
   ((forall key, contents (nvs (disk w)) !! (two_namespace, key) = None) /\
      s_two_state s' = s_two_state (two w) \/
    exists text, contents (nvs (disk w)) !! record_key = Some (NvsStr text) /\
      parse_record text (s_two_state (two w)) = Some (s_two_state s'))).

Lemma load_spec w :
  wp two_load_locked (fun _ w' =>
    contents (nvs (disk w')) = contents (nvs (disk w)) /\ flash (nvs (disk w')) = flash (nvs (disk w)) /\
    two_frame (two w') = two_frame (two w) /\
    (if s_two_loaded (two w) then two w' = two w else loaded_from w (two w'))) w.
Proof.
  unfold two_load_locked. apply wp_bind, wp_gets. case_if; [by apply wp_ret|].
  apply wp_bind, wp_on_two. cbn [fst snd]. apply wp_bind, wp_on_disk.
  match goal with |- wp _ _ (disk ?x) => set (w1 := x) end.
  eapply wp_mono; [by apply open_read_spec|]. intros r d1 (C1 & F1 & Hok & Hno & Hnf).
  change (nvs (disk w1)) with (nvs (disk w)) in *.
  assert (Hend : forall w2, nvs (disk w2) = nvs d1 \/
      (contents (nvs (disk w2)) = contents (nvs d1) /\ flash (nvs (disk w2)) = flash (nvs d1)) ->
    two w2 = two w1 ->
    contents (nvs (disk w2)) = contents (nvs (disk w)) /\ flash (nvs (disk w2)) = flash (nvs (disk w)) /\
    two_frame (two w2) = two_frame (two w) /\ loaded_from w (two w2)).
  { intros w2 Hd E. rewrite E. split_and!; [destruct Hd as [->|[-> _]]; done | destruct Hd as [->|[_ ->]]; done
                                       | done |]. split; [done | by left]. }
  case_if; decided.
  { apply wp_on_two. cbn [fst snd]. split_and!; [done | done | done |].
    split; [done|]. right. split; [done|]. left. split; [by apply Hnf | done]. }
  case_if; decided; [by apply wp_ret, Hend; [left | done]|].
  destruct (Hok Heqb1) as (h & -> & Ho). change (bool_decide (NVS_READONLY = NVS_READWRITE)) with false in *.
  apply wp_bind, wp_on_disk. change (RECORD_BYTES * 2 + 1)%nat with (S (RECORD_BYTES * 2)).
  eapply wp_mono; [exact (get_secret_spec h two_namespace false two_key (RECORD_BYTES * 2) d1 Ho)|].
  intros t d2 [E2 [Ht _]]. apply wp_bind, wp_on_disk. eapply wp_mono; [apply close_spec|].
  intros ? d3 [C3 F3].
  assert (C3' : contents (nvs d3) = contents (nvs d1)) by (etrans; [exact C3 | exact (f_equal contents E2)]).
  assert (F3' : flash (nvs d3) = flash (nvs d1)) by (etrans; [exact F3 | exact (f_equal flash E2)]).
  case_if; decided; [apply wp_ret, Hend; [by right | done]|].
  destruct (Ht Heqb2) as [Ht' _]. rewrite C1 in Ht'.
  apply wp_on_two. cbn [fst snd].
  match goal with |- context [parse_record t.2 (s_two_state ?x)] => set (s1 := x) end.
  destruct (parse_record t.2 (s_two_state s1)) as [state|] eqn:Ep.
  - split_and!; [by etrans | by etrans | done |]. split; [done|]. right. split; [done|]. right.
    by exists t.2.
  - apply Hend; [by right | done].
Qed.

(** What is left of a save: on success the memory and every later start hold the
    state; a transition that failed goes by the record that is there, and anything
    else that failed shuts the factor. *)
Lemma save_spec state (transition : bool) w :
  wp (two_save_locked state transition) (fun e w' =>
    one_key record_key (NvsStr (record_text state)) (nvs (disk w)) (nvs (disk w')) /\
    two_frame (two w') = two_frame (two w) /\
    if decide (e = ESP_OK) then
      two w' = (two w) <| s_two_state := state |> /\
      contents (nvs (disk w')) !! record_key = Some (NvsStr (record_text state)) /\
      (forall x, flash (nvs (disk w')) record_key x -> x = Some (NvsStr (record_text state)))
    else if transition then
      s_two_loaded (two w') = true /\
      (s_two_state (two w') = zero_two_state \/
       exists text, contents (nvs (disk w')) !! record_key = Some (NvsStr text) /\
         parse_record text zero_two_state = Some (s_two_state (two w')))
    else two w' = (two w) <| s_two_storage_ok := false |>) w.
Proof.
  unfold two_save_locked. apply wp_bind, wp_on_disk.
  eapply wp_mono; [by apply replace_secret_spec|].
  intros e d [K Hok].
  case_if; decided.
  { subst e. apply wp_bind, wp_on_two, wp_ret. rewrite decide_True by done. cbn [snd].
    destruct (Hok eq_refl) as [H1 H2]. by split_and!. }
  case_if.
  - apply wp_bind, wp_on_two. cbn [snd]. apply wp_bind.
    eapply wp_mono; [apply load_spec|]. intros _ w' (C & F & Ef & Hl). apply wp_ret.
    rewrite decide_False by done. split; [|split; [exact Ef|]].
    + etrans; [exact K|]. by apply one_key_same.
    + change (s_two_loaded _) with false in Hl at 1. cbn iota in Hl.
      destruct Hl as [Hl [[_ Hs]|[_ [[_ Hs]|(text & Ht & Hp)]]]]; (split; [done|]); [by left | by left |].
      right. exists text. by rewrite C.
  - apply wp_bind, wp_on_two, wp_ret. rewrite decide_False by done. by split_and!.
Qed.
End disk.

(** ** No factor is accepted twice *)

Section service.
Context (state_bytes : auth_retained_state_t -> list Z).
Context (mbedtls_sha256 : list Z -> option (list Z)).
Context (mbedtls_hmac_sha1 : list Z -> list Z -> option (list Z)).
Context (sha256_bytes : forall text digest, mbedtls_sha256 text = Some digest ->
  length digest = 32%nat /\ Forall is_byte digest).
Context (hmac_bytes : forall key text hmac, mbedtls_hmac_sha1 key text = Some hmac ->
  length hmac = 20%nat /\ Forall is_byte hmac).
Context {N : Type} `{laws : NvsLaws N}.
Implicit Types (w : two_world (N := N)) (ws : service (N := N)).

Abbreviation exec := (two_exec state_bytes mbedtls_sha256 mbedtls_hmac_sha1) (only parsing).

Definition memory ws : two_step_state_t := s_two_state (two ws.2).

(** A state that is in use accepts none of the factors again. *)
Definition covered (spent : list factor) (s : two_step_state_t) : Prop :=
  two_enabled s = true -> Forall (stale s) spent.

(** Neither the memory nor any record that a start may find accepts a spent factor. *)
Definition spent_inv (spent : list factor) w : Prop :=
  two_typed (s_two_state (two w)) /\ covered spent (s_two_state (two w)) /\
  forall text s, flash (nvs (disk w)) record_key (Some (NvsStr text)) ->
    parse_record text zero_two_state = Some s -> covered spent s.

Lemma parse_record_base text s0 s :
  parse_record text s0 = Some s -> s = s0 \/ parse_record text zero_two_state = Some s.
Proof using. unfold parse_record. case_if; [intros E; left; congruence | by right]. Qed.

Lemma zero_covered spent : covered spent zero_two_state.
Proof using. done. Qed.

Lemma inv_flash spent w text :
  spent_inv spent w -> contents (nvs (disk w)) !! record_key = Some (NvsStr text) ->
  flash (nvs (disk w)) record_key (Some (NvsStr text)).
Proof using. intros _ <-. apply flash_contents. Qed.

Lemma inv_moves spent w w' :
  spent_inv spent w -> s_two_state (two w') = s_two_state (two w) ->
  (forall x, flash (nvs (disk w')) record_key x -> flash (nvs (disk w)) record_key x) ->
  spent_inv spent w'.
Proof using. intros (T & C & F) E Hf. unfold spent_inv. rewrite E. split_and!; [done..|]. eauto. Qed.

Lemma load_inv spent w : spent_inv spent w -> wp two_load_locked (fun _ => spent_inv spent) w.
Proof using.
  intros I. pose proof I as (T & C & F). eapply wp_mono; [apply load_spec|].
  intros _ w' (Ec & Ef & _ & Hl).
  assert (Hf : forall x, flash (nvs (disk w')) record_key x -> flash (nvs (disk w)) record_key x)
    by by rewrite Ef.
  destruct (s_two_loaded (two w)); [apply (inv_moves spent w); congruence || done|].
  destruct Hl as [_ [[_ E]|[_ [[_ E]|(text & Ht & Hp)]]]]; try by apply (inv_moves spent w).
  assert (Hs : two_typed (s_two_state (two w')) /\ covered spent (s_two_state (two w'))).
  { destruct (parse_record_base _ _ _ Hp) as [-> | Hp']; [done|].
    destruct (parse_record_typed _ _ _ Hp') as [Hz|[_ Ht']].
    - rewrite Hz. split; [apply zero_two_typed | apply zero_covered].
    - split; [done|]. apply (F text); [by eapply inv_flash | done]. }
  destruct Hs as [H1 H2]. split_and!; [done..|]. rewrite Ef. exact F.
Qed.

(** A save keeps the invariant when the state it saves does; a save that succeeded
    leaves only that state. *)
Lemma save_inv spent state transition w :
  spent_inv spent w -> two_typed state -> covered spent state ->
  wp (two_save_locked state transition) (fun e w' => spent_inv spent w' /\
    (e = ESP_OK -> s_two_state (two w') = state /\
       forall spent', covered spent' state -> spent_inv spent' w')) w.
Proof using.
  intros (T & C & F) Ts Cs. eapply wp_mono; [apply save_spec|].
  intros e w' ((_ & Kc & Kf) & _ & He).
  assert (Hp : forall spent', covered spent' state -> forall s,
    parse_record (record_text state) zero_two_state = Some s -> covered spent' s).
  { intros spent' Cs' s. rewrite parse_record_text by done. intros E. apply (inj Some) in E as <-.
    by case_if. }
  assert (F' : forall text s, flash (nvs (disk w')) record_key (Some (NvsStr text)) ->
    parse_record text zero_two_state = Some s -> covered spent s).
  { intros text s Hx Hs. destruct (Kf _ Hx) as [Hx'|[= ->]]; [by eapply F | by eapply Hp]. }
  destruct (decide (e = ESP_OK)) as [->|Hne].
  - destruct He as (E & Hc & Hx). rewrite E.
    assert (Hall : forall spent', covered spent' state -> spent_inv spent' w').
    { intros spent' Cs'. unfold spent_inv. rewrite E. split_and!; [done | done |].
      intros text s Ht. apply Hx in Ht as [= ->]. by apply Hp. }
    split; [by apply Hall | done].
  - split; [|done]. destruct transition.
    + destruct He as [_ [Ez|(text & Ht & Hs)]].
      * split_and!; [rewrite Ez; apply zero_two_typed | rewrite Ez; apply zero_covered | done].
      * destruct (parse_record_typed _ _ _ Hs) as [Ez|[_ Tt]].
        -- split_and!; [rewrite Ez; apply zero_two_typed | rewrite Ez; apply zero_covered | done].
        -- split_and!; [done | | done]. apply (F' text); [rewrite <- Ht; apply flash_contents | done].
    + unfold spent_inv. rewrite He. by split_and!.
Qed.

(** ** The calls *)

Lemma wp_aside {A} (m : st (two_world (N := N)) A) (Q : A -> service -> Prop) ws :
  wp m (fun a w' => Q a (ws.1, w')) ws.2 -> wp (aside m) Q ws.
Proof using. unfold wp, aside. by destruct (m ws.2). Qed.

(** What taking the lock leaves alone. *)
Definition two_core (s : two_statics) :=
  ((s_two_lock s, s_two_loaded s, s_two_storage_ok s, s_two_state s),
   (s_two_active s, s_two_enroll s, s_clock s)).

Lemma two_lock_spec env ws :
  wp (two_lock env) (fun taken ws' => ws'.1 = ws.1 /\ disk ws'.2 = disk ws.2 /\
    two_core (two ws'.2) = two_core (two ws.2) /\
    taken = s_two_lock (two ws.2) && two_lock_taken env /\
    (s_two_pending (two ws'.2) = s_two_pending (two ws.2) \/ s_two_pending_until (two ws'.2) = 0)) ws.
Proof using.
  unfold two_lock. apply wp_bind, wp_beside, wp_gets. apply wp_aside, wp_on_two.
  case_if.
  - cbn [fst snd]. apply negb_true_iff in Heqb. split_and!; try done. by left.
  - apply negb_false_iff in Heqb. cbn [fst snd].
    destruct (negb (s_two_pending_until (two ws.2) =? 0) && _);
      split_and!; try done; [by right | by left].
Qed.

Lemma adopt_spec env t ws :
  wp (adopt env t) (fun _ ws' => ws'.1 = ws.1 /\ disk ws'.2 = disk ws.2 /\ memory ws' = memory ws /\
    s_two_storage_ok (two ws'.2) = s_two_storage_ok (two ws.2)) ws.
Proof using.
  apply wp_aside, wp_on_two. cbn [snd]. unfold memory, two_adopt_clock. cbn [snd two set].
  by case_if.
Qed.

(** The records that a later start can find are exactly one. *)
Definition durable (s : two_step_state_t) w : Prop :=
  forall x, flash (nvs (disk w)) record_key x -> x = Some (NvsStr (record_text s)).

Lemma spend_covered spent f s :
  fresh f s -> covered spent s -> covered spent (spend f s) /\ covered (spent ++ [f]) (spend f s).
Proof using.
  intros Hf C. unfold covered. rewrite spend_enabled. assert (two_enabled s = true ->
    Forall (stale (spend f s)) spent).
  { intros He. eapply Forall_impl; [exact (C He)|]. intros g Hg. by apply spend_keeps. }
  split; [done|]. intros He. apply Forall_app. split; [auto|]. apply Forall_singleton, spend_stale.
Qed.

(** The end of a verification: the clock is adopted, the attempt counted. *)
Lemma verify_ends env adopted ok (Q : bool -> service (N := N) -> Prop) ws :
  (forall ws', ws'.1 = ws.1 -> disk ws'.2 = disk ws.2 -> memory ws' = memory ws ->
     s_two_storage_ok (two ws'.2) = s_two_storage_ok (two ws.2) -> Q ok ws') ->
  wp (when ok (adopt env adopted);;
      aside (two_modify (fun s => s <| s_two_active := two_attempt_result (result_us env) ok (s_two_active s) |>));;
      mret ok) Q ws.
Proof using.
  intros HQ. apply wp_bind, wp_when.
  - intros ->. eapply wp_mono; [apply adopt_spec|]. intros _ ws3 (A1 & A2 & A3 & A4).
    apply wp_bind, wp_aside, wp_on_two, wp_ret. by apply HQ.
  - intros ->. apply wp_bind, wp_aside, wp_on_two, wp_ret. by apply HQ.
Qed.

(** The guess that an attempt makes within its budget. *)
Definition guess env (budget : two_throttle_t) (s : two_step_state_t) code client :=
  if two_attempt_allowed (attempt_us env) budget
  then two_check_code mbedtls_sha256 mbedtls_hmac_sha1 env s code true client else (false, s, 0).

Lemma guess_good env budget s code client :
  two_typed s -> clock_ok env -> (guess env budget s code client).1.1 = true ->
  exists c f, code = Some c /\ proves mbedtls_sha256 mbedtls_hmac_sha1 env client s c f /\ fresh f s /\
    (guess env budget s code client).1.2 = spend f s.
Proof using sha256_bytes.
  intros T Hc. unfold guess. case_if; [|done]. destruct code as [c|]; [|done].
  pose proof (check_code_spec mbedtls_sha256 mbedtls_hmac_sha1 sha256_bytes env s c true client T Hc) as Hk.
  destruct (two_check_code _ _ _ _ _ _ _) as [[ok s'] a]. intros Hok. destruct Hk as (Hk & _).
  destruct (Hk Hok) as (f & [Hp _] & Hf & Es). by exists c, f.
Qed.

Lemma guess_allowed env budget s code client :
  (guess env budget s code client).1.1 = true -> two_attempt_allowed (attempt_us env) budget = true.
Proof using. unfold guess. by case_if. Qed.

(** A verification that gets as far as the code. *)
Definition verify_served env (gen : Z) ws : bool :=
  s_two_lock (two ws.2) && two_lock_taken env && s_two_storage_ok (two ws.2) &&
  (gen =? credential_generation (auth ws.1)) &&
  two_attempt_allowed (attempt_us env) (s_two_active (two ws.2)).

Lemma verify_spec env code client gen ws :
  two_typed (memory ws) -> clock_ok env ->
  wp (si_two_step_verify mbedtls_sha256 mbedtls_hmac_sha1 env code client gen) (fun ok ws' =>
    ws'.1 = ws.1 /\
    if ok && two_enabled (memory ws) then
      exists c f, code = Some c /\ proves mbedtls_sha256 mbedtls_hmac_sha1 env client (memory ws) c f /\
        fresh f (memory ws) /\ memory ws' = spend f (memory ws) /\ durable (memory ws') ws'.2 /\
        verify_served env gen ws = true /\
        forall spent, spent_inv spent ws.2 -> spent_inv (spent ++ [f]) ws'.2
    else
      (two_enabled (memory ws) = true -> verify_served env gen ws = true ->
       (guess env (s_two_active (two ws.2)) (memory ws) code client).1.1 = true ->
       s_two_storage_ok (two ws'.2) = false) /\
      forall spent, spent_inv spent ws.2 -> spent_inv spent ws'.2) ws.
Proof using sha256_bytes.
  intros T Hc. unfold si_two_step_verify. apply wp_bind.
  eapply wp_mono; [apply two_lock_spec|]. intros taken ws1 (E1 & Ed & Ec & Et & _).
  unfold two_core in Ec. injection Ec as El _ Eo Em Ea _ _.
  change (memory ws1 = memory ws) in Em.
  assert (I1 : forall spent, spent_inv spent ws.2 -> spent_inv spent ws1.2).
  { intros spent I. apply (inv_moves spent ws.2); [done | exact Em |]. by rewrite Ed. }
  assert (Esv : verify_served env gen ws = taken && s_two_storage_ok (two ws1.2) &&
    (gen =? credential_generation (auth ws1.1)) &&
    two_attempt_allowed (attempt_us env) (s_two_active (two ws1.2)))
    by (unfold verify_served; congruence).
  rewrite Esv. case_if.
  { apply negb_true_iff in Heqb as ->. apply wp_ret. rewrite andb_false_l. by split_and!. }
  apply negb_false_iff in Heqb as ->.
  apply wp_bind, wp_gets, wp_bind, wp_beside, wp_gets.
  change (s_two_state (two ws1.2)) with (memory ws1). rewrite Em, <- surjective_pairing.
  case_if.
  { apply wp_ret. split; [done|]. apply negb_true_iff in Heqb. rewrite Heqb. split; [|done].
    intros Hen. rewrite Hen, andb_true_r in Heqb. cbn [andb]. by rewrite Heqb. }
  apply negb_false_iff, andb_prop in Heqb as [Hok Hen]. cbn [andb]. rewrite Hen, Hok. cbn [andb].
  change (if two_attempt_allowed (attempt_us env) (s_two_active (two ws1.2)) then _ else _)
    with (guess env (s_two_active (two ws1.2)) (memory ws) code client). rewrite <- Ea.
  pose proof (guess_good env (s_two_active (two ws1.2)) (memory ws) code client T Hc) as Hg.
  pose proof (guess_allowed env (s_two_active (two ws1.2)) (memory ws) code client) as Hal.
  destruct (guess _ _ _ _ _) as [[valid candidate] adopted]. cbn [fst snd] in Hg, Hal |- *.
  apply wp_bind. destruct valid.
  2:{ apply wp_ret, verify_ends. intros ws3 A1 A2 A3 _. rewrite A1. split; [done|].
      rewrite andb_false_l. split; [done|].
      intros spent I. apply (inv_moves spent ws1.2); [by apply I1 | exact A3 | by rewrite A2]. }
  destruct (Hg eq_refl) as (c & f & Hcode & Hp & Hf & ->). rewrite (Hal eq_refl).
  apply wp_bind, wp_aside, wp_intro.
  pose proof (save_spec (spend f (memory ws)) false ws1.2) as Hs.
  pose proof (fun spent I => save_inv spent (spend f (memory ws)) false ws1.2 I (spend_typed f _ T Hf)) as Hi.
  unfold wp in Hs, Hi.
  destruct (two_save_locked (spend f (memory ws)) false ws1.2) as [e w']. cbn [fst snd] in Hs, Hi |- *.
  destruct Hs as (_ & _ & Hs).
  apply wp_ret, verify_ends. intros ws3 A1 A2 A3 A4. cbn [fst snd] in A1, A2, A4.
  split; [congruence|].
  assert (I3 : forall spent, spent_inv spent w' -> spent_inv spent ws3.2).
  { intros spent I. apply (inv_moves spent w'); [done | exact A3 | by rewrite A2]. }
  destruct (decide (e = ESP_OK)) as [->|Hne].
  - rewrite bool_decide_eq_true_2 by done. cbn [andb]. destruct Hs as (Ew & _ & Hx).
    assert (Es : memory ws3 = spend f (memory ws)) by (rewrite A3; unfold memory; cbn [snd]; by rewrite Ew).
    exists c, f. split_and!; try done.
    + intros x Hfl. rewrite A2 in Hfl. rewrite Es. by apply Hx.
    + intros spent I. destruct (spend_covered spent f (memory ws) Hf (proj1 (proj2 I))) as [C1 C2].
      apply I3. destruct (Hi spent (I1 _ I) C1) as [_ Hk]. by apply Hk.
  - rewrite bool_decide_eq_false_2 by done. cbn [andb]. split; [by rewrite A4, Hs|]. intros spent I.
    destruct (spend_covered spent f (memory ws) Hf (proj1 (proj2 I))) as [C1 _].
    apply I3. by destruct (Hi spent (I1 _ I) C1).
Qed.

(** The callback of the credential fence runs once or not at all. *)
Lemma commit_caller {S} env in_time gen (commit : st S esp_err_t) (p : auth_world * S) :
  wp (si_auth_security_commit state_bytes env in_time gen (Some commit))
    (fun _ p' => p'.2 = p.2 \/ p'.2 = (commit p.2).2) p.
Proof using.
  unfold si_auth_security_commit. apply wp_bind, wp_gets. cbv beta.
  case_if; [apply wp_ret; by left|]. apply wp_bind, wp_beside, wp_intro.
  case_if; [apply wp_ret; by left|]. apply wp_bind, wp_beside, wp_intro.
  case_if; [apply wp_ret; by left|]. do 2 apply wp_bind, wp_beside, wp_intro.
  apply wp_bind, wp_intro. cbn [fst snd]. destruct (commit p.2) as [e s']. cbn [fst snd].
  apply wp_bind, wp_beside, wp_intro, wp_ret. by right.
Qed.

Lemma disable_keeps env code client gen spent ws :
  spent_inv spent ws.2 ->
  wp (si_two_step_disable state_bytes mbedtls_sha256 mbedtls_hmac_sha1 env code client gen)
    (fun _ ws' => spent_inv spent ws'.2) ws.
Proof using.
  intros I. unfold si_two_step_disable. apply wp_bind.
  eapply wp_mono; [apply two_lock_spec|]. intros taken ws1 (_ & Ed & Ec & _ & _).
  assert (I1 : spent_inv spent ws1.2).
  { apply (inv_moves spent ws.2); [done | | by rewrite Ed]. unfold two_core in Ec. congruence. }
  clear Ed Ec I ws. case_if; [by apply wp_ret|].
  apply wp_bind, wp_gets, wp_bind, wp_beside, wp_gets. rewrite <- surjective_pairing.
  case_if; [by apply wp_ret|].
  destruct (two_check_code _ _ _ _ _ _ _) as [[valid ?] adopted].
  apply wp_bind, wp_aside, wp_on_two. cbn [snd].
  match goal with |- wp _ _ (_, ?x) => set (w2 := x) end.
  assert (I2 : spent_inv spent w2) by by apply (inv_moves spent ws1.2).
  case_if; [by apply wp_ret|]. apply wp_bind.
  eapply wp_mono; [apply commit_caller|]. intros e ws3 H3.
  assert (I3 : spent_inv spent ws3.2).
  { destruct H3 as [-> | ->]; [done|].
    exact (proj1 (save_inv spent zero_two_state true w2 I2 zero_two_typed (zero_covered spent))). }
  apply wp_bind, wp_when; intros _; [|by apply wp_ret].
  eapply wp_mono; [apply adopt_spec|]. intros _ ws4 (_ & Ed & Em & _). apply wp_ret.
  apply (inv_moves spent ws3.2); [done | exact Em | by rewrite Ed].
Qed.

Lemma initialize_keeps env spent w :
  spent_inv spent w -> wp (si_two_step_initialize env) (fun _ => spent_inv spent) w.
Proof using.
  intros I. unfold si_two_step_initialize. apply wp_bind, wp_on_two. cbn [snd].
  match goal with |- wp _ _ ?x => set (w1 := x) end.
  assert (I1 : spent_inv spent w1) by by apply (inv_moves spent w).
  apply wp_bind, wp_gets. case_if; [by apply wp_ret|]. apply wp_bind.
  eapply wp_mono; [by apply load_inv|]. intros u w2 I2. by apply wp_bind, wp_gets, wp_ret.
Qed.

Lemma status_keeps env spent ws :
  spent_inv spent ws.2 -> wp (si_two_step_get_status env) (fun _ ws' => spent_inv spent ws'.2) ws.
Proof using.
  intros I. unfold si_two_step_get_status. apply wp_bind.
  eapply wp_mono; [apply two_lock_spec|]. intros taken ws1 (_ & Ed & Ec & _ & _).
  assert (I1 : spent_inv spent ws1.2).
  { apply (inv_moves spent ws.2); [done | | by rewrite Ed]. unfold two_core in Ec. congruence. }
  case_if; [by apply wp_ret|]. by apply wp_bind, wp_gets, wp_ret.
Qed.

Lemma begin_keeps env gen out spent ws :
  spent_inv spent ws.2 ->
  wp (si_two_step_begin mbedtls_sha256 env gen out) (fun _ ws' => spent_inv spent ws'.2) ws.
Proof using.
  intros I. unfold si_two_step_begin. case_if; [by apply wp_ret|]. apply wp_bind.
  eapply wp_mono; [apply two_lock_spec|]. intros taken ws1 (_ & Ed & Ec & _ & _).
  assert (I1 : spent_inv spent ws1.2).
  { apply (inv_moves spent ws.2); [done | | by rewrite Ed]. unfold two_core in Ec. congruence. }
  case_if; [by apply wp_ret|]. apply wp_bind, wp_gets, wp_bind, wp_beside, wp_gets.
  rewrite <- surjective_pairing. case_if; [by apply wp_ret|].
  destruct (mapM _ _); apply wp_bind, wp_aside, wp_on_two, wp_ret;
    by apply (inv_moves spent ws1.2).
Qed.

(** ** Calls in sequence *)

(** A restart finds what the flash may hold; clocks leave room for the counters; and
    no new secret is enrolled. *)
Definition call_ok (call : two_call) ws : Prop :=
  match call with
  | Restart n _ _ => nvs_restarts (nvs (disk ws.2)) n
  | Verify env _ _ _ => clock_ok env
  | Confirm _ _ _ _ _ => False
  | _ => True
  end.

Fixpoint calls_ok (calls : list two_call) ws : Prop :=
  match calls with
  | [] => True
  | call :: calls => call_ok call ws /\ calls_ok calls (exec call ws).2
  end.

(** The factor that a call was accepted with, by what it consumed. *)
Definition accepted_factor (call : two_call (N := N)) (ok : bool) ws ws' : option factor :=
  match call with
  | Verify _ _ _ _ =>
      if ok && two_enabled (memory ws) then spent_factor (memory ws) (memory ws') else None
  | _ => None
  end.

Fixpoint run (calls : list two_call) ws : list factor * service :=
  match calls with
  | [] => ([], ws)
  | call :: calls =>
      let '(ok, ws1) := exec call ws in
      let '(factors, ws2) := run calls ws1 in
      (option_list (accepted_factor call ok ws ws1) ++ factors, ws2)
  end.

Lemma restart_inv spent w n f :
  nvs_restarts (nvs (disk w)) n -> spent_inv spent w ->
  spent_inv spent (mk_two_world two_started (mk_system n f)).
Proof using.
  intros Hr (_ & _ & F). split_and!; [apply zero_two_typed | apply zero_covered |].
  intros text s Hx Hs. destruct (restart_law _ _ Hr record_key) as [H1 H2].
  apply H2 in Hx. apply (F text); [by rewrite Hx|done].
Qed.

(** A call keeps the invariant for what was spent and what it spends; and what it
    spends was fresh. *)
Lemma exec_inv call spent ws :
  call_ok call ws -> spent_inv spent ws.2 ->
  let '(ok, ws') := exec call ws in
  let new := option_list (accepted_factor call ok ws ws') in
  spent_inv (spent ++ new) ws'.2 /\
  (forall f, f ∈ new -> two_enabled (memory ws) = true /\ fresh f (memory ws)).
Proof using sha256_bytes.
  intros Hok I.
  assert (Hq : forall r : bool * service, accepted_factor call r.1 ws r.2 = None -> spent_inv spent r.2.2 ->
    let '(ok, ws') := r in let new := option_list (accepted_factor call ok ws ws') in
    spent_inv (spent ++ new) ws'.2 /\ (forall f, f ∈ new -> two_enabled (memory ws) = true /\ fresh f (memory ws))).
  { intros [ok ws'] E Hi. cbn [fst snd] in E, Hi. rewrite E. cbn [option_list]. rewrite app_nil_r.
    split; [done|]. intros f Hf. by apply not_elem_of_nil in Hf. }
  assert (Hm : forall (A : Type) (m : st service A) (k : A -> bool),
    wp m (fun _ ws' => spent_inv spent ws'.2) ws ->
    spent_inv spent (bind m (fun a => mret (k a)) ws).2.2)
    by (intros A m k; unfold wp, bind; by destruct (m ws)).
  destruct call as [env|env|env code client gen|env gen|env id code client gen|env code client gen|a|f|n f a];
    cbn [two_exec]; try by destruct Hok.
  - by apply Hq, Hm, wp_aside, initialize_keeps.
  - by apply Hq, Hm, status_keeps.
  - pose proof (verify_spec env code client gen ws (proj1 I) Hok) as Hv. unfold wp in Hv.
    destruct (si_two_step_verify _ _ env code client gen ws) as [ok ws']. cbn [fst snd] in Hv.
    destruct Hv as [_ Hv]. cbn [accepted_factor]. destruct (ok && two_enabled (memory ws)) eqn:Ea.
    + destruct Hv as (c & f & _ & _ & Hf & Em & _ & _ & Hi). rewrite Em, spent_spend by done. cbn [option_list].
      split; [by apply Hi|]. intros g ->%list_elem_of_singleton. split; [|done]. by apply andb_prop in Ea as [_ ?].
    + cbn [option_list]. rewrite app_nil_r. split; [by apply (proj2 Hv)|]. intros f Hf. by apply not_elem_of_nil in Hf.
  - by apply Hq, Hm, begin_keeps.
  - by apply Hq, Hm, disable_keeps.
  - by apply (Hq (true, (a, ws.2))).
  - by apply (Hq (true, (ws.1, _))).
  - apply (Hq (true, (a, _))); [done|]. by apply (restart_inv spent ws.2).
Qed.

Definition steps_of (factors : list factor) : list Z :=
  omap (fun f => match f with FactorStep t => Some t | FactorRecovery _ => None end) factors.

Lemma steps_of_elem t l : t ∈ steps_of l <-> FactorStep t ∈ l.
Proof using.
  unfold steps_of. rewrite list_elem_of_omap. split.
  - intros (f & Hf & E). destruct f; [|done]. by injection E as <-.
  - intros Hf. by exists (FactorStep t).
Qed.

(** The factors of a run are new against what was spent before, and among themselves. *)
Lemma run_fresh calls spent ws :
  calls_ok calls ws -> spent_inv spent ws.2 ->
  let factors := (run calls ws).1 in
  NoDup factors /\ (forall f, f ∈ factors -> f ∉ spent) /\
  StronglySorted Z.lt (steps_of factors) /\
  (forall t u, t ∈ steps_of spent -> u ∈ steps_of factors -> t < u).
Proof using sha256_bytes.
  revert spent ws. induction calls as [|call calls IH]; intros spent ws; cbn [calls_ok run].
  { intros _ _. split_and!; [constructor | | constructor |].
    - intros f Hf. by apply not_elem_of_nil in Hf.
    - intros t u _ Hu. by apply not_elem_of_nil in Hu. }
  intros [Hc Hcs] I. pose proof (exec_inv call spent ws Hc I) as He.
  destruct (exec call ws) as [ok ws1]. cbn [snd] in Hcs. destruct He as [I1 Hnew].
  specialize (IH _ ws1 Hcs I1). destruct (run calls ws1) as [factors ws2]. cbn [fst] in IH |- *.
  destruct IH as (Hnd & Hout & Hs & Hlt).
  assert (Hold : forall f, accepted_factor call ok ws ws1 = Some f ->
    fresh f (memory ws) /\ Forall (stale (memory ws)) spent).
  { intros f E. destruct (Hnew f) as [Hen Hf]; [rewrite E; by apply list_elem_of_singleton|].
    split; [done|]. apply I, Hen. }
  destruct (accepted_factor call ok ws ws1) as [f|]; cbn [option_list app] in *; [|by rewrite app_nil_r in *].
  destruct (Hold f eq_refl) as [Hf Hst]. rewrite Forall_forall in Hst.
  assert (Hns : f ∉ spent) by (intros Hin; by apply (fresh_not_stale f (memory ws)), Hst).
  split_and!.
  - constructor; [|done]. intros Hin. apply (Hout f Hin), elem_of_app. right. by apply list_elem_of_singleton.
  - intros g [->|Hg]%elem_of_cons; [done|]. intros Hin. apply (Hout g Hg), elem_of_app. by left.
  - destruct f as [t|i]; cbn; [|done]. constructor; [done|]. apply Forall_forall. intros u Hu.
    apply Hlt; [|done]. apply steps_of_elem, elem_of_app. right. by apply list_elem_of_singleton.
  - intros t u Ht Hu. apply steps_of_elem in Hu as [Hu|Hu]%elem_of_cons.
    + subst f. apply steps_of_elem, Hst in Ht. cbn in Hf, Ht. lia.
    + apply Hlt; [|by apply steps_of_elem]. apply steps_of_elem, elem_of_app. left. by apply steps_of_elem.
Qed.

(** C4: no second factor is accepted twice. Over any calls, failed commits, losses of
    power and restarts between two enrollments, the accepted time steps strictly
    increase and no recovery code is accepted again. *)
Theorem second_factor_once calls ws :
  two_typed (memory ws) -> calls_ok calls ws ->
  let factors := (run calls ws).1 in
  NoDup factors /\ StronglySorted Z.lt (steps_of factors).
Proof using sha256_bytes laws.
  intros T Hc. destruct (run_fresh calls [] ws Hc) as (H1 & _ & H2 & _); [|done].
  split_and!; [done | intros _; constructor | intros; intros _; constructor].
Qed.

(** C30: a code opens the second factor exactly when it should. With the factor on, a
    verification succeeds only with the code that RFC 4226 and RFC 6238 read off the
    HMAC of the time step at hand or of a neighbour of it, above the last step used,
    or with an unused recovery code; it consumes exactly that factor and the flash
    holds nothing but the state without it. And when the lock comes, the storage
    works, the login is current, the budget allows it and no HMAC fails, every such
    code succeeds or its consumption cannot be stored. *)
Theorem verify_accepts_exactly env code client gen ws :
  two_typed (memory ws) -> clock_ok env -> two_enabled (memory ws) = true ->
  let r := si_two_step_verify mbedtls_sha256 mbedtls_hmac_sha1 env (Some code) client gen ws in
  let good f := rfc_proves mbedtls_sha256 mbedtls_hmac_sha1 env client (memory ws) code f /\
                fresh f (memory ws) in
  (r.1 = true -> verify_served env gen ws = true /\
     exists f, good f /\ memory r.2 = spend f (memory ws) /\ durable (memory r.2) r.2.2) /\
  ((forall k m, is_Some (mbedtls_hmac_sha1 k m)) -> verify_served env gen ws = true ->
   (exists f, good f) -> r.1 = true \/ s_two_storage_ok (two r.2.2) = false).
Proof using sha256_bytes hmac_bytes.
  intros T Hc Hen. cbv zeta. pose proof (verify_spec env (Some code) client gen ws T Hc) as Hv. unfold wp in Hv.
  destruct (si_two_step_verify _ _ _ _ _ _ ws) as [ok ws']. cbn [fst snd] in *. destruct Hv as [_ Hv].
  rewrite Hen, andb_true_r in Hv. split.
  - intros ->. destruct Hv as (c & f & Ec & Hp & Hf & Em & Hd & Hs & _). apply (inj Some) in Ec as <-.
    split; [done|]. exists f. split_and!; [by apply proves_standard | done..].
  - intros Htot Hs (f & Hp & Hf). apply proves_standard in Hp; [|done..].
    destruct ok; [by left|]. right. destruct Hv as [Hv _]. apply Hv; [done | done |].
    assert (Ha : two_attempt_allowed (attempt_us env) (s_two_active (two ws.2)) = true)
      by (unfold verify_served in Hs; by apply andb_prop in Hs as [_ ?]).
    unfold guess. rewrite Ha.
    pose proof (check_code_spec mbedtls_sha256 mbedtls_hmac_sha1 sha256_bytes env (memory ws) code true client T Hc) as Hk.
    destruct (two_check_code _ _ _ _ _ _ _) as [[ok s'] a]. destruct Hk as (_ & _ & Hk).
    apply (Hk Htot). by exists f.
Qed.

(** ** Changes of the factor *)

(** The state after a change that succeeded: in memory, found by every later start
    that can read its storage, and seen by no session that was open before. *)
Definition settled_factor (s : two_step_state_t) ws ws' : Prop :=
  memory ws' = s /\
  (forall n f env, nvs_restarts (nvs (disk ws'.2)) n ->
     let '(e, w) := si_two_step_initialize env (mk_two_world two_started (mk_system n f)) in
     e = ESP_OK -> s_two_state (two w) = s) /\
  no_session (live_table state_bytes (auth ws'.1)) /\
  credential_generation (auth ws'.1) = u32 (credential_generation (auth ws.1) + 1).

(** A record that alone is left in the flash is what a start loads. *)
Lemma durable_loads s w n f env :
  two_typed s -> (two_enabled s = false -> s = zero_two_state) -> durable s w ->
  nvs_restarts (nvs (disk w)) n ->
  wp (si_two_step_initialize env) (fun e w' => e = ESP_OK -> s_two_state (two w') = s)
    (mk_two_world two_started (mk_system n f)).
Proof using laws.
  intros T Hz Hd Hr. destruct (restart_law _ _ Hr record_key) as [Hc _]. apply Hd in Hc.
  unfold si_two_step_initialize. apply wp_bind, wp_on_two, wp_bind, wp_gets.
  case_if; [by apply wp_ret|]. apply wp_bind. cbn [snd].
  match goal with |- wp _ _ ?x => set (w1 := x) end.
  eapply wp_mono; [apply load_spec|]. intros u w2 (_ & _ & _ & Hl).
  apply wp_bind, wp_gets, wp_ret. change (s_two_loaded (two w1)) with false in Hl. cbn iota in Hl.
  destruct Hl as [_ [[Ho _]|[Ho [[Hno _]|(text & Ht & Hp)]]]].
  - by rewrite Ho.
  - specialize (Hno two_key). change (nvs (disk w1)) with n in Hno. congruence.
  - intros _. change (nvs (disk w1)) with n in Ht. rewrite Hc in Ht. injection Ht as <-.
    rewrite parse_record_text in Hp by done. apply (inj Some) in Hp as <-.
    destruct (two_enabled s); [done|]. by rewrite Hz.
Qed.

(** The transition inside the credential fence, from the state [ws1] of the caller. *)
Lemma transition_settles {A} env gen state ws ws1 (k : esp_err_t -> st service A) (Q : A -> service -> Prop) :
  length (sessions (retained (auth ws.1))) = AUTH_SESSION_SLOTS -> ws1.1 = ws.1 ->
  two_typed state -> (two_enabled state = false -> state = zero_two_state) ->
  (forall e ws2, (e = ESP_OK -> settled_factor state ws ws2) -> wp (k e) Q ws2) ->
  wp (bind (si_auth_security_commit state_bytes (fence_env env) (fence_in_time env) gen
              (Some (two_commit_transition state))) k) Q ws1.
Proof using laws.
  intros L E T Hz Hk. apply wp_bind. eapply wp_mono.
  { apply commit_fenced. by rewrite E. }
  intros e ws2 Hf. apply Hk. intros ->.
  destruct Hf as [[? _]|(Eg & Hg & Hn & Hc)]; [done|].
  pose proof (save_spec state true ws1.2) as Hs. unfold wp in Hs.
  unfold two_commit_transition in Hc. rewrite Hc in Hs. cbn [fst snd] in Hs.
  destruct Hs as (_ & _ & Hs). rewrite decide_True in Hs by done. destruct Hs as (Ew & _ & Hx).
  split_and!; [by unfold memory; rewrite Ew | | done | by rewrite Hg, Eg, E].
  intros n f env' Hr. pose proof (durable_loads state ws2.2 n f env' T Hz Hx Hr) as Hd.
  unfold wp in Hd. by destruct (si_two_step_initialize env' _).
Qed.

Lemma settled_adopts env t s ws ws1 :
  settled_factor s ws ws1 -> wp (adopt env t) (fun _ ws2 => settled_factor s ws ws2) ws1.
Proof using.
  intros (H1 & H2 & H3 & H4). eapply wp_mono; [apply adopt_spec|]. intros _ ws2 (E1 & E2 & E3 & _).
  unfold settled_factor. by rewrite E1, E2, E3.
Qed.

Lemma confirm_settles env id code client gen ws :
  length (sessions (retained (auth ws.1))) = AUTH_SESSION_SLOTS ->
  two_typed (s_two_pending (two ws.2)) -> two_enabled (s_two_pending (two ws.2)) = true ->
  clock_ok env -> 0 <= pending_us env ->
  wp (si_two_step_confirm state_bytes mbedtls_sha256 mbedtls_hmac_sha1 env id code client gen) (fun e ws' =>
    e = ESP_OK -> exists c t, code = Some c /\
      proves mbedtls_sha256 mbedtls_hmac_sha1 env client (s_two_pending (two ws.2)) c (FactorStep t) /\
      settled_factor (spend (FactorStep t) (s_two_pending (two ws.2))) ws ws') ws.
Proof using sha256_bytes laws.
  intros L T Hen Hc Hu. unfold si_two_step_confirm. apply wp_bind.
  eapply wp_mono; [apply two_lock_spec|]. intros taken ws1 (E1 & _ & _ & _ & Hp).
  case_if; [by apply wp_ret|].
  apply wp_bind, wp_gets, wp_bind, wp_beside, wp_gets. rewrite <- surjective_pairing.
  case_if; [by apply wp_ret|]. split_guards. to_props.
  assert (Ep : s_two_pending (two ws1.2) = s_two_pending (two ws.2)) by (destruct Hp; [done | lia]).
  rewrite Ep. destruct code as [c|]; [|by apply wp_bind, wp_aside, wp_on_two, wp_ret].
  pose proof (check_code_spec mbedtls_sha256 mbedtls_hmac_sha1 sha256_bytes env _ c false client T Hc) as Hk.
  destruct (two_check_code _ _ _ _ _ _ _) as [[valid candidate] adopted]. destruct Hk as (Hk & _).
  apply wp_bind, wp_aside, wp_on_two. cbn [snd].
  destruct valid; cbn [negb]; [|by apply wp_ret].
  destruct (Hk eq_refl) as (f & [Hpf Hf] & Hfr & ->). destruct (Hf eq_refl) as [t ->].
  apply (transition_settles env gen _ ws); [done | done | by apply spend_typed | by rewrite spend_enabled, Hen |].
  intros e ws2 He. apply wp_bind, wp_when.
  - intros Eb. apply bool_decide_eq_true in Eb. eapply wp_mono; [apply settled_adopts; auto|].
    intros u ws3 Hset. apply wp_bind, wp_aside, wp_on_two, wp_ret. intros _. by exists c, t.
  - intros Eb. apply bool_decide_eq_false in Eb. by apply wp_bind, wp_aside, wp_on_two, wp_ret.
Qed.

Lemma disable_settles env code client gen ws :
  length (sessions (retained (auth ws.1))) = AUTH_SESSION_SLOTS ->
  two_typed (memory ws) -> clock_ok env ->
  wp (si_two_step_disable state_bytes mbedtls_sha256 mbedtls_hmac_sha1 env code client gen) (fun e ws' =>
    e = ESP_OK -> exists c f, code = Some c /\
      proves mbedtls_sha256 mbedtls_hmac_sha1 env client (memory ws) c f /\ fresh f (memory ws) /\
      settled_factor zero_two_state ws ws') ws.
Proof using sha256_bytes laws.
  intros L T Hc. unfold si_two_step_disable. apply wp_bind.
  eapply wp_mono; [apply two_lock_spec|]. intros taken ws1 (E1 & _ & Ec & _ & _).
  assert (Em : s_two_state (two ws1.2) = memory ws) by (unfold two_core in Ec; unfold memory; congruence).
  case_if; [by apply wp_ret|].
  apply wp_bind, wp_gets, wp_bind, wp_beside, wp_gets. rewrite <- surjective_pairing.
  case_if; [by apply wp_ret|]. rewrite Em.
  destruct code as [c|]; [|by apply wp_bind, wp_aside, wp_on_two, wp_ret].
  pose proof (check_code_spec mbedtls_sha256 mbedtls_hmac_sha1 sha256_bytes env _ c true client T Hc) as Hk.
  destruct (two_check_code _ _ _ _ _ _ _) as [[valid candidate] adopted]. destruct Hk as (Hk & _).
  apply wp_bind, wp_aside, wp_on_two. cbn [snd].
  destruct valid; cbn [negb]; [|by apply wp_ret].
  destruct (Hk eq_refl) as (f & [Hpf _] & Hfr & _).
  apply (transition_settles env gen _ ws); [done | done | apply zero_two_typed | done |].
  intros e ws2 He. apply wp_bind, wp_when.
  - intros Eb. apply bool_decide_eq_true in Eb. eapply wp_mono; [apply settled_adopts; auto|].
    intros u ws3 Hset. apply wp_ret. intros _. by exists c, f.
  - intros Eb. apply bool_decide_eq_false in Eb. by apply wp_ret.
Qed.

(** A change of the second factor holds. When an enrollment is confirmed, its
    code proves the pending secret; when the factor is switched off, a code proves
    the active one; and in both cases the new state is in memory, every later start
    that can read its storage finds it, no session is left open, and logins that
    checked their credentials before are refused. *)
Theorem factor_change_settles env id code client gen ws :
  length (sessions (retained (auth ws.1))) = AUTH_SESSION_SLOTS ->
  two_typed (memory ws) -> two_typed (s_two_pending (two ws.2)) ->
  clock_ok env -> 0 <= pending_us env ->
  let pending := s_two_pending (two ws.2) in
  (two_enabled pending = true ->
   let r := exec (Confirm env id code client gen) ws in
   r.1 = true -> exists c t, code = Some c /\
     proves mbedtls_sha256 mbedtls_hmac_sha1 env client pending c (FactorStep t) /\
     settled_factor (spend (FactorStep t) pending) ws r.2) /\
  (let r := exec (Disable env code client gen) ws in
   r.1 = true -> exists c f, code = Some c /\
     proves mbedtls_sha256 mbedtls_hmac_sha1 env client (memory ws) c f /\ fresh f (memory ws) /\
     settled_factor zero_two_state ws r.2).
Proof using sha256_bytes laws.
  intros L Tm Tp Hc Hu. cbv zeta. split.
  - intros Hen. pose proof (confirm_settles env id code client gen ws L Tp Hen Hc Hu) as H1. unfold wp in H1.
    cbn [two_exec]. unfold bind. destruct (si_two_step_confirm _ _ _ _ _ _ _ _ ws) as [e ws'].
    cbn [fst snd] in *. intros Hb. apply H1. exact (proj1 (bool_decide_eq_true _) Hb).
  - pose proof (disable_settles env code client gen ws L Tm Hc) as H1. unfold wp in H1.
    cbn [two_exec]. unfold bind. destruct (si_two_step_disable _ _ _ _ _ _ _ ws) as [e ws'].
    cbn [fst snd] in *. intros Hb. apply H1. exact (proj1 (bool_decide_eq_true _) Hb).
Qed.
End service.

(** ** A concrete device *)

(** Its last byte points at the low bytes of the step. *)
Definition demo_hmac (secret counter : list Z) : option (list Z) :=
  Some (u8 <$> take 20 (replicate 11 203 ++ rev counter ++ replicate 20 251)).

Lemma demo_hmac_bytes key text hmac :
  demo_hmac key text = Some hmac -> length hmac = 20%nat /\ Forall is_byte hmac.
Proof.
  intros E. apply (inj Some) in E as <-. rewrite length_fmap, length_take, !length_app, !length_replicate.
  split; [lia|]. apply Forall_fmap, Forall_true. intros x. apply u8_range.
Qed.

Lemma demo_hmac_total k m : is_Some (demo_hmac k m).
Proof. by eexists. Qed.

Lemma demo_sha256_32 text digest :
  demo_sha256 text = Some digest -> length digest = 32%nat /\ Forall is_byte digest.
Proof. apply demo_sha256_bytes. Qed.

Definition demo_recovery_code (i : Z) : cstring := hex_text (replicate 16 i).

Definition demo_factor : two_step_state_t :=
  mk_two_state true (replicate 20 7) 0 0
    (map (fun i => default [] (demo_sha256 (demo_recovery_code (Z.of_nat i))))
      (seq 0 SI_TWO_STEP_RECOVERY_COUNT)).

Lemma demo_factor_typed : two_typed demo_factor.
Proof.
  split; [split | | | split]; try done; by repeat constructor.
Qed.

Definition demo_step : Z := 60000000.

Definition demo_code (t : Z) : cstring :=
  match two_hotp demo_hmac (replicate 20 7) t 6 with Some v => decimal_digits 6 v [] | None => [] end.

Definition demo_two_env (step : Z) : two_env :=
  mk_two_env true true 1000 2000 3000 4000 (30 * step + 10) (30 * step + 10)
    (replicate 20 9) (replicate 16 1) (fun i => replicate 16 (Z.of_nat i)) (demo_auth_env 5000 0) true.

Definition demo_store : ram :=
  let m := {[ record_key := NvsStr (record_text demo_factor) ]} in mk_ram m m None.

Definition demo_service : service :=
  (demo_powered, mk_two_world two_started (mk_system demo_store demo_flash)).

(** The device after it was started, and after a code was used. *)
Abbreviation demo_exec := (two_exec demo_layout demo_sha256 demo_hmac).
Definition demo_ready : service := (demo_exec (Initialize (demo_two_env demo_step)) demo_service).2.

Definition demo_verify (code : cstring) (step : Z) : two_call (N := ram) :=
  Verify (demo_two_env step) (Some code) 0 1.

Definition demo_used : ram :=
  let n := nvs (disk (demo_exec (demo_verify (demo_code demo_step) demo_step) demo_ready).2.2) in
  mk_ram (cur n) (cur n) None.

Definition demo_calls : list two_call :=
  [Initialize (demo_two_env demo_step);
   demo_verify (demo_code demo_step) demo_step;
   Restart demo_used demo_flash demo_powered;
   Initialize (demo_two_env demo_step);
   demo_verify (demo_code demo_step) demo_step;
   demo_verify (demo_code (demo_step + 1)) (demo_step + 1);
   demo_verify (demo_recovery_code 3) demo_step;
   demo_verify (demo_recovery_code 3) demo_step].

Lemma demo_calls_ok : calls_ok demo_layout demo_sha256 demo_hmac demo_calls demo_service.
Proof.
  assert (Hc : forall k, (k < 8) -> clock_ok (demo_two_env (demo_step + k))).
  { intros k Hk. unfold clock_ok. change (30 * (60000000 + k) + 10 < 2 ^ 62). lia. }
  cbn [calls_ok demo_calls]. refine (conj I (conj _ (conj _ (conj I (conj _ (conj _ (conj _ (conj _ I)))))))).
  2: split; [reflexivity | intros k; left; reflexivity].
  all: first [exact (Hc 0 eq_refl) | exact (Hc 1 eq_refl)].
Qed.

Lemma second_factor_once_witness :
  let factors := (run demo_layout demo_sha256 demo_hmac demo_calls demo_service).1 in
  factors = [FactorStep demo_step; FactorStep (demo_step + 1); FactorRecovery 3] /\
  NoDup factors /\ StronglySorted Z.lt (steps_of factors).
Proof.
  split; [by_eval|].
  exact (second_factor_once demo_layout demo_sha256 demo_hmac demo_sha256_32 demo_calls demo_service
           zero_two_typed demo_calls_ok).
Defined.

Lemma demo_clock : clock_ok (demo_two_env demo_step).
Proof. vm_compute. reflexivity. Qed.

(** The code of the step opens the factor; it is what the theorem says it is. *)
Lemma verify_accepts_exactly_witness :
  let r := si_two_step_verify demo_sha256 demo_hmac (demo_two_env demo_step)
             (Some (demo_code demo_step)) 0 1 demo_ready in
  r.1 = true /\
  exists f, (rfc_proves demo_sha256 demo_hmac (demo_two_env demo_step) 0 (memory demo_ready)
               (demo_code demo_step) f /\ fresh f (memory demo_ready)) /\
    memory r.2 = spend f (memory demo_ready) /\ durable (memory r.2) r.2.2.
Proof.
  assert (E : memory demo_ready = demo_factor) by by_eval.
  assert (Ht : two_typed (memory demo_ready)) by (rewrite E; apply demo_factor_typed).
  assert (He : two_enabled (memory demo_ready) = true) by by rewrite E.
  assert (Hr : (si_two_step_verify demo_sha256 demo_hmac (demo_two_env demo_step)
                  (Some (demo_code demo_step)) 0 1 demo_ready).1 = true) by by_eval.
  split; [exact Hr|].
  exact (proj2 (proj1 (verify_accepts_exactly demo_sha256 demo_hmac demo_sha256_32 demo_hmac_bytes
    (demo_two_env demo_step) (demo_code demo_step) 0 1 demo_ready Ht demo_clock He) Hr)).
Defined.

(** An enrollment on a device without a record, with a browser logged in. *)
Definition demo_enrolling : service :=
  (demo_exec (Begin (demo_two_env demo_step) (credential_generation (auth demo_session_world)))
     (demo_exec (Initialize (demo_two_env demo_step))
        (demo_session_world, mk_two_world two_started (mk_system (mk_ram ∅ ∅ None) demo_flash))).2).2.

Definition demo_new_code : cstring :=
  match two_hotp demo_hmac (replicate 20 9) demo_step 6 with Some v => decimal_digits 6 v [] | None => [] end.

Definition demo_new_factor : two_step_state_t :=
  mk_two_state true (replicate 20 9) 0 0 (recovery demo_factor).

Lemma demo_new_factor_typed : two_typed demo_new_factor.
Proof.
  destruct demo_factor_typed as [_ _ _ H4].
  split; [split; [done | by repeat constructor] | done | done | exact H4].
Qed.

Lemma demo_pending : s_two_pending (two demo_enrolling.2) = demo_new_factor.
Proof. by_eval. Qed.

Lemma factor_change_settles_witness :
  let gen := credential_generation (auth demo_enrolling.1) in
  let r := demo_exec (Confirm (demo_two_env demo_step) (Some (hex_text (replicate 16 1)))
                        (Some demo_new_code) 0 gen) demo_enrolling in
  let pending := s_two_pending (two demo_enrolling.2) in
  r.1 = true /\ exists c t, Some demo_new_code = Some c /\
    proves demo_sha256 demo_hmac (demo_two_env demo_step) 0 pending c (FactorStep t) /\
    settled_factor demo_layout (spend (FactorStep t) pending) demo_enrolling r.2.
Proof.
  assert (Hl : length (sessions (retained (auth demo_enrolling.1))) = AUTH_SESSION_SLOTS) by by_eval.
  assert (Em : memory demo_enrolling = zero_two_state) by by_eval.
  pose proof (eq_ind_r two_typed demo_new_factor_typed demo_pending) as Hp.
  pose proof (eq_ind_r two_typed zero_two_typed Em) as Hm.
  assert (He : two_enabled (s_two_pending (two demo_enrolling.2)) = true) by by_eval.
  assert (Hr : (demo_exec (Confirm (demo_two_env demo_step) (Some (hex_text (replicate 16 1)))
    (Some demo_new_code) 0 (credential_generation (auth demo_enrolling.1))) demo_enrolling).1 = true) by by_eval.
  assert (Hu : 0 <= pending_us (demo_two_env demo_step)) by (vm_compute; discriminate).
  split; [exact Hr|].
  exact (proj1 (factor_change_settles demo_layout demo_sha256 demo_hmac demo_sha256_32 (demo_two_env demo_step)
    (Some (hex_text (replicate 16 1))) (Some demo_new_code) 0 (credential_generation (auth demo_enrolling.1))
    demo_enrolling Hl Hm Hp demo_clock Hu) He Hr).
Defined.
