(* ===== verification/TwoStepBudget.v ===== *)
(** * The guessing budget of the second factor

    However many codes are tried, and whether or not they are tried while the
    factor is locked, only five of them are compared with the secret in vain within
    any half minute; a code that is accepted clears the count and makes room for
    four more. *)

From Stdlib Require Import String.
From stdpp Require Import gmap.
From S2P Require Import Prelude CText Hex Firmware Authorization.
From S2P Require Import HidOwner HidManager ControlLease SettingsStore SettingsStoreProps.
From S2P Require Import HidManagerInvariant ControlLeaseProps.
From S2P Require Import AuthSession AuthSessionInvariant AuthSessionProps TwoStep TwoStepProps.

(** ** One budget *)

Definition TWO_LOCK_US : Z := 30000000.

(** [wrong] refused and [right] accepted guesses since [start], and what the budget
    knows of them. *)
Definition budget_ok (start wrong right : Z) (t : two_throttle_t) : Prop :=
  0 <= failures t < 5 /\ wrong <= 5 + 4 * right /\
  (start + TWO_LOCK_US <= locked_until t \/ wrong <= failures t + 4 * right).

Lemma failed_attempt start wrong right t attempt result :
  budget_ok start wrong right t -> attempt < start + TWO_LOCK_US -> start <= result ->
  budget_ok start (wrong + if two_attempt_allowed attempt t then 1 else 0) right
    (two_attempt_result result false t).
Proof.
  unfold budget_ok, two_attempt_allowed, two_attempt_result, TWO_LOCK_US. intros (Hf & Ht & Hl) Ha Hr.
  change (failures (t <| failures := u32 (failures t + 1) |>)) with (u32 (failures t + 1)).
  assert (E : u32 (failures t + 1) = failures t + 1) by (apply u32_small; unfold is_u32; lia). rewrite E.
  destruct (Z.leb_spec (locked_until t) attempt) as [Hle|Hle]; destruct (Z.leb_spec 5 (failures t + 1)) as [H5|H5];
    cbn [failures locked_until set]; cbn; lia.
Qed.

Lemma right_attempt start wrong right t result :
  budget_ok start wrong right t -> budget_ok start wrong (right + 1) (two_attempt_result result true t).
Proof.
  unfold budget_ok, two_attempt_result. intros (Hf & Ht & Hl). cbn [failures locked_until set]. cbn. lia.
Qed.

Section budget.
Context (state_bytes : auth_retained_state_t -> list Z).
Context (mbedtls_sha256 : list Z -> option (list Z)).
Context (mbedtls_hmac_sha1 : list Z -> list Z -> option (list Z)).
Context {N : Type} `{Nvs N}.
Implicit Types (w : two_world (N := N)) (ws : service (N := N)).

Abbreviation exec := (two_exec state_bytes mbedtls_sha256 mbedtls_hmac_sha1) (only parsing).

Definition active ws : two_throttle_t := s_two_active (two ws.2).

(** ** What leaves the budget alone *)

Abbreviation budget_same := (same (fun w : two_world (N := N) => s_two_active (two w))).
Abbreviation active_same := (same active).

Lemma on_two_budget {A} (f : two_statics -> A * two_statics) :
  (forall s, s_two_active (f s).2 = s_two_active s) -> moves budget_same (on_two f).
Proof. intros Hf w. unfold on_two, same. specialize (Hf (two w)). by destruct (f (two w)). Qed.

Lemma modify_budget (f : two_statics -> two_statics) :
  (forall s, s_two_active (f s) = s_two_active s) -> moves budget_same (two_modify f).
Proof. intros Hf. by apply on_two_budget. Qed.

Lemma on_disk_budget {A} (m : st (system N) A) : moves budget_same (on_disk m).
Proof. intros w. unfold on_disk, same. by destruct (m (disk w)). Qed.

#[local] Hint Resolve modify_budget on_disk_budget : firmware.

Lemma load_budget : moves budget_same two_load_locked.
Proof.
  unfold two_load_locked, storage_found. moves_go; try (apply modify_budget; by intros).
  apply modify_budget. intros s. by destruct (parse_record _ _).
Qed.

Lemma save_budget state transition : moves budget_same (two_save_locked state transition).
Proof.
  unfold two_save_locked, storage_found. moves_go; try (apply modify_budget; by intros). apply load_budget.
Qed.

Lemma aside_active {A} (m : st two_world A) : moves budget_same m -> moves active_same (aside m).
Proof. intros Hm ws. unfold aside, same, active. specialize (Hm ws.2). by destruct (m ws.2). Qed.

Lemma lock_active env : moves active_same (two_lock env).
Proof.
  unfold two_lock. apply moves_bind; [apply _ | done |]. intros gen. apply aside_active, on_two_budget.
  intros s. case_if; [done|]. by cbn [snd]; case_if.
Qed.

Lemma beside_active {A} (m : st auth_world A) : moves active_same (beside (S := two_world (N := N)) m).
Proof. intros ws. unfold beside, same, active. by destruct (m ws.1). Qed.

Lemma adopt_active env t : moves active_same (adopt env t).
Proof.
  unfold adopt. apply aside_active, modify_budget. intros s. unfold two_adopt_clock. by case_if.
Qed.

(** ** Attempts *)

(** A call that gets past the lock, the storage and the login, to the factor. *)
Definition reaches env (gen : Z) ws : bool :=
  s_two_lock (two ws.2) && two_lock_taken env && s_two_storage_ok (two ws.2) &&
  two_enabled (memory ws) && (gen =? credential_generation (auth ws.1)).

(** When a call tries a code against the active secret: when it asks, when its
    result is recorded, and the result. *)
Definition attempt_of (call : two_call (N := N)) ws : option (Z * Z * bool) :=
  match call with
  | Verify env _ _ gen =>
      if reaches env gen ws then Some (attempt_us env, result_us env, (exec call ws).1) else None
  | Disable env code client gen =>
      if reaches env gen ws && two_attempt_allowed (attempt_us env) (active ws)
      then Some (attempt_us env, result_us env,
                 (two_check_code mbedtls_sha256 mbedtls_hmac_sha1 env (memory ws) code true client).1.1)
      else None
  | _ => None
  end.

Definition recorded (attempt : option (Z * Z * bool)) (t : two_throttle_t) : two_throttle_t :=
  match attempt with Some (_, done_us, ok) => two_attempt_result done_us ok t | None => t end.

Lemma lock_reaches env gen ws :
  wp (two_lock env) (fun taken ws1 => ws1.1 = ws.1 /\ memory ws1 = memory ws /\ active ws1 = active ws /\
    taken && (s_two_storage_ok (two ws1.2) && two_enabled (memory ws) &&
              (gen =? credential_generation (auth ws.1))) = reaches env gen ws) ws.
Proof.
  eapply wp_mono; [apply two_lock_spec|]. intros taken ws1 (E1 & _ & Ec & -> & _).
  unfold two_core in Ec. injection Ec as _ _ Eo Em Ea _ _. unfold reaches, memory, active.
  rewrite E1, Eo, Em, Ea. split_and!; try done. by rewrite !andb_assoc.
Qed.

Lemma verify_active env code client gen ws :
  wp (si_two_step_verify mbedtls_sha256 mbedtls_hmac_sha1 env code client gen) (fun ok ws' =>
    active ws' = if reaches env gen ws then two_attempt_result (result_us env) ok (active ws) else active ws) ws.
Proof.
  unfold si_two_step_verify. apply wp_bind.
  eapply wp_mono; [apply (lock_reaches env gen)|]. intros taken ws1 (E1 & Em & Ea & Er). rewrite <- Er.
  destruct taken; cbn [andb negb]; [|by apply wp_ret].
  apply wp_bind, wp_gets, wp_bind, wp_beside, wp_gets. rewrite <- surjective_pairing.
  change (s_two_state (two ws1.2)) with (memory ws1). rewrite Em, E1.
  assert (Eb : s_two_storage_ok (two ws1.2) && (gen =? credential_generation (auth ws.1)) &&
               two_enabled (memory ws) =
               s_two_storage_ok (two ws1.2) && two_enabled (memory ws) &&
               (gen =? credential_generation (auth ws.1)))
    by (by rewrite <- !andb_assoc, (andb_comm (gen =? _))).
  rewrite Eb. case_if; [apply wp_ret; apply negb_true_iff in Heqb; by rewrite Heqb|].
  apply negb_false_iff in Heqb. rewrite Heqb.
  destruct (if two_attempt_allowed _ _ then _ else _) as [[valid candidate] adopted]. apply wp_bind.
  assert (Hend : forall ok ws2, active ws2 = active ws -> wp (when ok (adopt env adopted);;
      aside (two_modify (fun s => s <| s_two_active := two_attempt_result (result_us env) ok (s_two_active s) |>));;
      mret ok) (fun ok ws' => active ws' = two_attempt_result (result_us env) ok (active ws)) ws2).
  { intros ok ws2 E. apply wp_bind, wp_intro.
    assert (Ew : active (when ok (adopt env adopted) ws2).2 = active ws2).
    { destruct ok; [|done]. apply (adopt_active env adopted). }
    apply wp_bind, wp_aside, wp_on_two, wp_ret.
    change (two_attempt_result (result_us env) ok (active (when ok (adopt env adopted) ws2).2) =
            two_attempt_result (result_us env) ok (active ws)). by rewrite Ew, E. }
  destruct valid.
  - apply wp_bind, wp_aside, wp_intro, wp_ret, Hend. unfold active. cbn [snd].
    rewrite (save_budget candidate false ws1.2). exact Ea.
  - by apply wp_ret, Hend.
Qed.

Lemma disable_active env code client gen ws :
  wp (si_two_step_disable state_bytes mbedtls_sha256 mbedtls_hmac_sha1 env code client gen) (fun _ ws' =>
    active ws' = recorded (attempt_of (Disable env code client gen) ws) (active ws)) ws.
Proof.
  unfold si_two_step_disable. apply wp_bind.
  eapply wp_mono; [apply (lock_reaches env gen)|]. intros taken ws1 (E1 & Em & Ea & Er).
  cbn [attempt_of]. rewrite <- Er.
  destruct taken; cbn [andb negb]; [|by apply wp_ret].
  apply wp_bind, wp_gets, wp_bind, wp_beside, wp_gets. rewrite <- surjective_pairing.
  change (s_two_state (two ws1.2)) with (memory ws1). change (s_two_active (two ws1.2)) with (active ws1).
  rewrite Em, Ea, E1. case_if.
  { apply wp_ret. apply negb_true_iff in Heqb as ->. done. }
  apply negb_false_iff in Heqb as ->.
  destruct (two_check_code _ _ _ _ _ _ _) as [[valid ?] adopted]. cbn [fst recorded].
  apply wp_bind, wp_aside, wp_on_two. cbn [snd].
  match goal with |- wp _ _ (_, ?x) => set (w2 := x) end.
  assert (E2 : s_two_active (two w2) = two_attempt_result (result_us env) valid (active ws))
    by (rewrite <- Ea; done).
  case_if; [by apply wp_ret|]. apply wp_bind.
  eapply wp_mono; [apply commit_caller|]. intros e ws3 H3.
  assert (E3 : active ws3 = two_attempt_result (result_us env) valid (active ws)).
  { rewrite <- E2. unfold active. destruct H3 as [-> | ->]; [done|]. apply (save_budget zero_two_state true w2). }
  apply wp_bind, wp_when; intros _; [|by apply wp_ret].
  apply wp_intro. rewrite <- E3. apply (adopt_active env adopted).
Qed.

(** No other call touches the budget. *)
Lemma others_active env id code client gen ws :
  active (si_two_step_confirm state_bytes mbedtls_sha256 mbedtls_hmac_sha1 env id code client gen ws).2 = active ws /\
  active (si_two_step_begin mbedtls_sha256 env gen true ws).2 = active ws /\
  active (si_two_step_get_status env ws).2 = active ws /\
  s_two_active (two (si_two_step_initialize env ws.2).2) = active ws.
Proof.
  pose proof (lock_active env) as Hl.
  assert (Hm : forall f : two_statics -> two_statics, (forall s, s_two_active (f s) = s_two_active s) ->
    moves active_same (aside (two_modify f))) by (intros f Hf; by apply aside_active, modify_budget).
  assert (Hc : forall state, moves active_same (si_auth_security_commit state_bytes (fence_env env)
      (fence_in_time env) gen (Some (two_commit_transition state)))).
  { intros state ws0. destruct (commit_caller state_bytes (fence_env env) (fence_in_time env) gen
      (two_commit_transition state) ws0) as [E|E]; apply (f_equal (fun x => s_two_active (two x))) in E.
    - exact E.
    - exact (eq_trans E (save_budget state true ws0.2)). }
  pose proof (fun t => adopt_active env t) as Ha. pose proof (@beside_active) as Hb.
  split_and!.
  - refine ((_ : moves active_same _) ws). unfold si_two_step_confirm.
    moves_go; try assumption; try apply Hb; try (apply Hm; by intros); try apply Hc; apply Ha.
  - refine ((_ : moves active_same _) ws). unfold si_two_step_begin.
    moves_go; try assumption; try apply Hb; apply Hm; by intros.
  - refine ((_ : moves active_same _) ws). unfold si_two_step_get_status. moves_go; assumption.
  - refine ((_ : moves budget_same _) ws.2). unfold si_two_step_initialize.
    moves_go; apply load_budget.
Qed.

Lemma exec_active call ws :
  match call with Restart _ _ _ => False | _ => True end ->
  active (exec call ws).2 = recorded (attempt_of call ws) (active ws).
Proof.
  intros Hr.
  destruct call as [env|env|env code client gen|env gen|env id code client gen|env code client gen|a|f|n f a];
    [..|done]; cbn [two_exec attempt_of recorded].
  - destruct (others_active env None None 0 0 ws) as (_ & _ & _ & E). revert E. unfold bind, aside, active.
    by destruct (si_two_step_initialize env ws.2).
  - destruct (others_active env None None 0 0 ws) as (_ & _ & E & _). revert E. unfold bind.
    by destruct (si_two_step_get_status env ws).
  - pose proof (verify_active env code client gen ws) as E. unfold wp in E. rewrite E. by case_if.
  - destruct (others_active env None None 0 gen ws) as (_ & E & _). revert E. unfold bind.
    by destruct (si_two_step_begin _ env gen true ws).
  - destruct (others_active env id code client gen ws) as (E & _). revert E. unfold bind.
    by destruct (si_two_step_confirm _ _ _ _ _ _ _ _ ws).
  - pose proof (disable_active env code client gen ws) as E. cbn [attempt_of] in E. revert E. unfold bind, wp.
    by destruct (si_two_step_disable _ _ _ _ _ _ _ ws).
  - done.
  - done.
Qed.

(** ** Attempts in sequence *)

(** The calls lie in the half minute from [start], and the device does not restart. *)
Definition within (start : Z) (call : two_call (N := N)) : Prop :=
  match call with
  | Verify env _ _ _ | Disable env _ _ _ =>
      attempt_us env < start + TWO_LOCK_US /\ start <= result_us env
  | Restart _ _ _ => False
  | _ => True
  end.

(** How many of the codes compared with the secret are refused, and how many are
    accepted. *)
Fixpoint refused (calls : list two_call) ws : Z :=
  match calls with
  | [] => 0
  | call :: calls =>
      match attempt_of call ws with
      | Some (attempt, _, false) => if two_attempt_allowed attempt (active ws) then 1 else 0
      | _ => 0
      end + refused calls (exec call ws).2
  end.

Fixpoint accepted (calls : list two_call) ws : Z :=
  match calls with
  | [] => 0
  | call :: calls =>
      match attempt_of call ws with Some (_, _, true) => 1 | _ => 0 end + accepted calls (exec call ws).2
  end.

Lemma attempt_within start call ws attempt done_us ok :
  within start call -> attempt_of call ws = Some (attempt, done_us, ok) ->
  attempt < start + TWO_LOCK_US /\ start <= done_us.
Proof.
  destruct call; cbn [attempt_of within]; try done; intros Hw; case_if; try done;
    intros E; injection E as <- <- _; done.
Qed.

Lemma refused_bounded start calls wrong right ws :
  budget_ok start wrong right (active ws) -> Forall (within start) calls ->
  wrong + refused calls ws <= 5 + 4 * (right + accepted calls ws).
Proof.
  revert wrong right ws. induction calls as [|call calls IH]; intros wrong right ws Hb; cbn [refused accepted].
  { intros _. destruct Hb as (_ & Hb & _). lia. }
  intros [Hw Hws]%Forall_cons.
  assert (Hr : match call with Restart _ _ _ => False | _ => True end) by by destruct call.
  pose proof (exec_active call ws Hr) as Ea. rewrite !Z.add_assoc.
  apply IH; [|done]. rewrite Ea.
  destruct (attempt_of call ws) as [[[attempt done_us] ok]|] eqn:E; cbn [recorded]; [|by rewrite !Z.add_0_r].
  destruct (attempt_within start call ws attempt done_us ok Hw E).
  destruct ok; [rewrite Z.add_0_r; by apply right_attempt | rewrite Z.add_0_r; by apply failed_attempt].
Qed.

(** C31: guessing is bounded. Within any half minute without a restart, at most five
    codes are compared with the active secret in vain, and four more for each code
    that is accepted meanwhile, whatever is tried in between. *)
Theorem guesses_bounded start calls ws :
  0 <= failures (active ws) < 5 -> Forall (within start) calls ->
  refused calls ws <= 5 + 4 * accepted calls ws.
Proof.
  intros Hf Hw. pose proof (refused_bounded start calls 0 0 ws) as Hb. rewrite !Z.add_0_l in Hb.
  apply Hb; [|done]. split_and!; [lia | lia | lia | right; lia].
Qed.
End budget.

(** Four wrong codes, the right one, and seven wrong ones in a row: nine are compared
    in vain. *)
Definition demo_guess : two_call (N := ram) := Verify (demo_two_env demo_step) (Some (cstr "999999")) 0 1.

Definition demo_guesses : list two_call :=
  replicate 4 demo_guess ++ demo_verify (demo_code demo_step) demo_step :: replicate 7 demo_guess.

Lemma guesses_bounded_witness :
  refused demo_layout demo_sha256 demo_hmac demo_guesses demo_ready = 9 /\
  accepted demo_layout demo_sha256 demo_hmac demo_guesses demo_ready = 1 /\
  refused demo_layout demo_sha256 demo_hmac demo_guesses demo_ready <=
    5 + 4 * accepted demo_layout demo_sha256 demo_hmac demo_guesses demo_ready.
Proof.
  split_and!; [by_eval.. |]. apply (guesses_bounded demo_layout demo_sha256 demo_hmac 0).
  - assert (E : failures (active demo_ready) = 0) by by_eval. rewrite E. lia.
  - repeat constructor; try reflexivity; intros H; discriminate H.
Defined.
