(* ===== verification/Credentials.v ===== *)
(** * The credentials of the device: [application/auth_service.c]

    The account of the administrator: its record in flash, the digests of its
    password, the first account of an unclaimed device, the recovery of a device
    whose password is lost, and the login counter.  Replacing the credentials goes
    through the fence of the login sessions.

    The configuration of the build, the digests of mbedTLS and the random bytes
    are parameters. *)

From Stdlib Require Import String.
From S2P Require Import Prelude CText Hex Firmware Authorization.
From S2P Require Import HidOwner HidManager ControlLease SettingsStore AuthSession.

Definition AUTH_NAMESPACE : cstring := cstr "si_auth".
Definition AUTH_USERNAME_KEY : cstring := cstr "username".
Definition AUTH_PASSWORD_HASH_KEY : cstring := cstr "password_hash".
Definition AUTH_PASSWORD_SALT_KEY : cstring := cstr "password_salt".
Definition AUTH_PASSWORD_ITERATIONS_KEY : cstring := cstr "password_iter".
Definition AUTH_BOOTSTRAP_REQUIRED_KEY : cstring := cstr "bootstrap".
Definition AUTH_LOGIN_COUNT_KEY : cstring := cstr "login_count".
Definition AUTH_SETUP_KEY : cstring := cstr "setup".

Definition AUTH_SALT_BYTES : nat := 16.
Definition AUTH_SALT_HEX_LEN : nat := AUTH_SALT_BYTES * 2.
Definition AUTH_PBKDF2_ITERATIONS : Z := 60000.
Definition AUTH_PBKDF2_MIN_ITERATIONS : Z := 10000.
Definition AUTH_SALTED_SHA256_ITERATIONS : Z := 1.
Definition SI_AUTH_USERNAME_MAX_LEN : nat := 32.
Definition SI_AUTH_PASSWORD_MAX_LEN : nat := 64.
Definition SI_AUTH_PASSWORD_MIN_LEN : nat := 6.
Definition SI_AUTH_BOOTSTRAP_PASSWORD_LEN : nat := 32.

(** ** Data *)

(** The configuration of the build. *)
Record build := mk_build {
  SI_CFG_AUTH_USERNAME : cstring;
  SI_CFG_AUTH_PASSWORD : cstring;
  SI_CFG_AUTH_PASSWORD_PBKDF2 : bool
}.

(** The statics that hold the account. *)
Record credentials := mk_credentials {
  s_username : cstring;
  s_verifier : cstring;
  s_salt : cstring;
  s_iterations : Z;
  s_loaded : bool;
  s_using_default : bool;
  s_setup_pending : bool;
  s_legacy_password : bool;
  s_login_count_loaded : bool;
  s_login_count : Z
}.

#[export] Instance eta_credentials : Settable credentials := fun c =>
  mk_credentials (s_username c) (s_verifier c) (s_salt c) (s_iterations c) (s_loaded c)
    (s_using_default c) (s_setup_pending c) (s_legacy_password c) (s_login_count_loaded c)
    (s_login_count c).

Definition credentials_started : credentials :=
  mk_credentials [] [] [] 0 false false false false false 0.

Record si_auth_status_t := mk_auth_status {
  status_enabled : bool;
  status_using_default : bool;
  status_setup_required : bool;
  status_legacy_password : bool;
  status_login_count : Z;
  status_username : cstring
}.

(** What a call reads from outside: whether the lock of the credentials can be
    created and comes in time, the random bytes of a salt and of a bootstrap
    password, and what revoking the sessions reads. *)
Record cred_env := mk_cred_env {
  credentials_mutex : bool;
  credentials_in_time : bool;
  random_salt : list Z;
  random_password : list Z;
  revoke_env : auth_env
}.

(** Nobody has an account yet: only the first account can be created. *)
Definition required_setup (c : credentials) : bool :=
  s_loaded c && negb (is_empty (s_verifier c)) && s_using_default c && s_setup_pending c.

(** What the session table reads of the account. *)
Definition shown (c : credentials) (a : auth_state) : auth_state :=
  (a <| verifier := s_verifier c |>) <| setup_required := required_setup c |>.

Record cred_world (N : Type) := mk_cred_world { creds : credentials; cred_disk : system N }.
Arguments mk_cred_world {N} _ _.
Arguments creds {N} _.
Arguments cred_disk {N} _.

#[export] Instance eta_cred_world N : Settable (cred_world N) := fun w =>
  mk_cred_world (creds w) (cred_disk w).

(** ** What may be a name or a password *)

Definition printable (c : Z) : bool := (33 <=? c) && (c <=? 126).

Definition si_auth_default_username (b : build) : cstring :=
  if is_empty (SI_CFG_AUTH_USERNAME b) then cstr "admin" else SI_CFG_AUTH_USERNAME b.

Definition si_auth_validate_username (username : option cstring) : esp_err_t :=
  match username with
  | None => ESP_ERR_INVALID_ARG
  | Some username =>
      let len := length username in
      return_if (len <? 1)%nat || (SI_AUTH_USERNAME_MAX_LEN <? len)%nat with ESP_ERR_INVALID_SIZE ;;
      return_if negb (forallb printable username) with ESP_ERR_INVALID_ARG ;;
      ESP_OK
  end.

Definition si_auth_validate_password (password : option cstring) : esp_err_t :=
  match password with
  | None => ESP_ERR_INVALID_ARG
  | Some password =>
      let len := length password in
      return_if (len <? SI_AUTH_PASSWORD_MIN_LEN)%nat || (SI_AUTH_PASSWORD_MAX_LEN <? len)%nat
        with ESP_ERR_INVALID_SIZE ;;
      return_if negb (forallb printable password) with ESP_ERR_INVALID_ARG ;;
      ESP_OK
  end.

Definition AUTH_PASSWORD_ITERATIONS (b : build) : Z :=
  if SI_CFG_AUTH_PASSWORD_PBKDF2 b then AUTH_PBKDF2_ITERATIONS else AUTH_SALTED_SHA256_ITERATIONS.

(** An iteration count that a salted record can have. *)
Definition salted_iterations (iterations : Z) : bool :=
  (iterations =? AUTH_SALTED_SHA256_ITERATIONS) || (AUTH_PBKDF2_MIN_ITERATIONS <=? iterations).

(** [if (ret == ESP_OK) ret = ...] *)
Definition if_ok {S} (ret : esp_err_t) (m : st S esp_err_t) : st S esp_err_t :=
  if bool_decide (ret = ESP_OK) then m else mret ret.

(** A getter that leaves its variable alone when it fails. *)
Definition or_kept {A} (old : A) (r : esp_err_t * A) : A :=
  if bool_decide (r.1 = ESP_OK) then r.2 else old.

(** ** The record in flash *)

(** The results of the six reads. *)
Record stored := mk_stored {
  st_verifier : esp_err_t * cstring;
  st_salt : esp_err_t * cstring;
  st_iterations : esp_err_t * Z;
  st_username : esp_err_t * cstring;
  st_bootstrap : esp_err_t * Z;
  st_setup : esp_err_t * Z
}.

Section record.
Context {N : Type} `{Nvs N}.

Definition read_credentials (store : option si_settings_store_t) : st (system N) stored :=
  v ← si_secret_store_get_string store (Some AUTH_PASSWORD_HASH_KEY) (Some (SI_AUTH_TOKEN_LEN + 1)%nat);
  s ← si_secret_store_get_string store (Some AUTH_PASSWORD_SALT_KEY) (Some (AUTH_SALT_HEX_LEN + 1)%nat);
  i ← si_settings_store_get_int NVS_U32 store (Some AUTH_PASSWORD_ITERATIONS_KEY) true;
  u ← si_settings_store_get_string store (Some AUTH_USERNAME_KEY) (Some (SI_AUTH_USERNAME_MAX_LEN + 1)%nat);
  b ← si_settings_store_get_int NVS_U8 store (Some AUTH_BOOTSTRAP_REQUIRED_KEY) true;
  f ← si_settings_store_get_int NVS_U8 store (Some AUTH_SETUP_KEY) true;
  si_settings_store_close store;;
  mret (mk_stored v s i u b f).

(** The order of the writes: a device is never marked unclaimed before its
    bootstrap flag is written. *)
Definition write_credentials (username verifier salt_hex : cstring) (iterations : Z)
    (bootstrap_required allow_setup : bool) : st (system N) esp_err_t :=
  r ← si_settings_store_open_write (Some SI_SETTINGS_STORE_INITIALIZER) (Some AUTH_NAMESPACE);
  let store := r.2 in
  let setup_flag := bootstrap_required && allow_setup in
  ret ← if_ok r.1 (si_settings_store_set_string store (Some AUTH_USERNAME_KEY) (Some username));
  ret ← if_ok ret (si_secret_store_set_string store (Some AUTH_PASSWORD_HASH_KEY) (Some verifier));
  ret ← if_ok ret (si_secret_store_set_string store (Some AUTH_PASSWORD_SALT_KEY) (Some salt_hex));
  ret ← if_ok ret (si_settings_store_set_int NVS_U32 store (Some AUTH_PASSWORD_ITERATIONS_KEY) iterations);
  ret ← (if setup_flag then mret ret
         else if_ok ret (si_settings_store_set_int NVS_U8 store (Some AUTH_SETUP_KEY) 0));
  ret ← if_ok ret (si_settings_store_set_int NVS_U8 store (Some AUTH_BOOTSTRAP_REQUIRED_KEY)
                     (if bootstrap_required then 1 else 0));
  ret ← (if setup_flag
         then if_ok ret (si_settings_store_set_int NVS_U8 store (Some AUTH_SETUP_KEY) 1)
         else mret ret);
  ret ← if_ok ret (si_settings_store_commit store);
  si_settings_store_close store;;
  mret ret.

Definition read_login_count : st (system N) (option (esp_err_t * Z)) :=
  r ← si_settings_store_open_read (Some SI_SETTINGS_STORE_INITIALIZER) (Some AUTH_NAMESPACE);
  return_if negb (bool_decide (r.1 = ESP_OK)) with mret None ;;
  n ← si_settings_store_get_int NVS_U32 r.2 (Some AUTH_LOGIN_COUNT_KEY) true;
  si_settings_store_close r.2;;
  mret (Some n).

(** [None]: the storage did not open; otherwise whether the count was saved. *)
Definition write_login_count (count : Z) : st (system N) (option bool) :=
  r ← si_settings_store_open_write (Some SI_SETTINGS_STORE_INITIALIZER) (Some AUTH_NAMESPACE);
  return_if negb (bool_decide (r.1 = ESP_OK)) with mret None ;;
  ret ← si_settings_store_set_int NVS_U32 r.2 (Some AUTH_LOGIN_COUNT_KEY) count;
  ret ← if_ok ret (si_settings_store_commit r.2);
  si_settings_store_close r.2;;
  mret (Some (bool_decide (ret = ESP_OK))).
End record.

Section credentials.
Context (b : build).
Context (state_bytes : auth_retained_state_t -> list Z).
Context (mbedtls_sha256 : list Z -> option (list Z)).
Context (mbedtls_pbkdf2_hmac_sha256 : cstring -> list Z -> Z -> option (list Z)).
Context {N : Type} `{Nvs N}.
Implicit Types env : cred_env.

(** ** Digests of passwords *)

Definition legacy_hash_password (password : cstring) : esp_err_t * cstring :=
  match mbedtls_sha256 password with
  | None => (ESP_FAIL, [])
  | Some digest => (ESP_OK, hex_text digest)
  end.

Definition derive_password (password salt_hex : cstring) (iterations : Z) : esp_err_t * cstring :=
  match hex_to_bytes AUTH_SALT_BYTES (Some salt_hex) with
  | None => (ESP_ERR_INVALID_ARG, [])
  | Some salt =>
      return_if negb (salted_iterations iterations) with (ESP_ERR_INVALID_ARG, []) ;;
      match (if iterations =? AUTH_SALTED_SHA256_ITERATIONS then mbedtls_sha256 (salt ++ password)
             else mbedtls_pbkdf2_hmac_sha256 password salt iterations) with
      | None => (ESP_FAIL, [])
      | Some verifier => (ESP_OK, hex_text verifier)
      end
  end.

(** The digest that the account's record asks for. *)
Definition login_digest (c : credentials) (password : cstring) : esp_err_t * cstring :=
  if s_legacy_password c then legacy_hash_password password
  else derive_password password (s_salt c) (s_iterations c).

Definition digest_matches (c : credentials) (password : cstring) : bool :=
  let r := login_digest c password in
  bool_decide (r.1 = ESP_OK) && secure_equal r.2 (s_verifier c).

(** ** The state: the sessions beside the account and the flash *)

Definition account : Type := auth_world * cred_world N.

Definition on_store {A} (m : st (system N) A) : st account A := fun ws =>
  let '(a, d) := m (cred_disk ws.2) in (a, (ws.1, ws.2 <| cred_disk := d |>)).

Definition current_credentials : st account credentials := gets (fun ws => creds ws.2).

Definition set_statics (f : credentials -> credentials) : st account unit := fun ws =>
  let c := f (creds ws.2) in
  (tt, (ws.1 <| auth := shown c (auth ws.1) |>, ws.2 <| creds := c |>)).

Definition si_auth_account_setup_required : st account bool :=
  c ← current_credentials; mret (required_setup c).

(** The lock of the credentials, created when it is missing. *)
Definition ensure_credentials_lock env : st account bool :=
  beside (on_auth (fun a =>
    let made := credentials_lock a || credentials_mutex env in
    (made, a <| credentials_lock := made |>))).

(** ** Replacing the credentials *)

Definition set_credentials_internal env (username password : option cstring)
    (bootstrap_required rotate locked allow_setup : bool) (expected_generation : Z)
  : st account esp_err_t :=
  let named := si_auth_validate_username username in
  return_if negb (bool_decide (named = ESP_OK)) with mret named ;;
  let next_username := strtrunc (SI_AUTH_USERNAME_MAX_LEN + 1) (default [] username) in
  let valid := si_auth_validate_password password in
  return_if negb (bool_decide (valid = ESP_OK)) with mret valid ;;
  let salt_hex := hex_text (random_salt env) in
  let derived := derive_password (default [] password) salt_hex (AUTH_PASSWORD_ITERATIONS b) in
  return_if negb (bool_decide (derived.1 = ESP_OK)) with mret derived.1 ;;
  let verifier := derived.2 in
  exists_lock ← ensure_credentials_lock env;
  return_if negb exists_lock || (negb locked && negb (credentials_in_time env))
    with mret ESP_ERR_TIMEOUT ;;
  current ← beside si_auth_credential_generation;
  return_if negb (expected_generation =? 0) && negb (expected_generation =? current)
    with mret ESP_ERR_INVALID_STATE ;;
  ret ← on_store (write_credentials next_username verifier salt_hex (AUTH_PASSWORD_ITERATIONS b)
                    bootstrap_required allow_setup);
  return_if negb (bool_decide (ret = ESP_OK)) with mret ret ;;
  set_statics (fun c =>
    mk_credentials (strtrunc (SI_AUTH_USERNAME_MAX_LEN + 1) next_username)
      (strtrunc (SI_AUTH_TOKEN_LEN + 1) verifier) (strtrunc (AUTH_SALT_HEX_LEN + 1) salt_hex)
      (AUTH_PASSWORD_ITERATIONS b) true bootstrap_required (bootstrap_required && allow_setup) false
      (s_login_count_loaded c) (s_login_count c));;
  when rotate (beside next_credential_generation);;
  when rotate (beside (si_auth_revoke_all_sessions state_bytes (revoke_env env)));;
  mret ESP_OK.

Definition si_auth_set_credentials env username password : st account esp_err_t :=
  set_credentials_internal env username password false true false false 0.

Definition si_auth_set_credentials_for_generation env username password (expected_generation : Z)
  : st account esp_err_t :=
  return_if expected_generation =? 0 with mret ESP_ERR_INVALID_STATE ;;
  set_credentials_internal env username password false true false false expected_generation.

(** The first account of an unclaimed device. *)
Definition si_auth_setup_credentials env username password (expected_generation : Z)
  : st account esp_err_t :=
  exists_lock ← gets (fun ws : account => credentials_lock (auth ws.1));
  return_if negb (exists_lock && credentials_in_time env) with mret ESP_ERR_TIMEOUT ;;
  setup ← si_auth_account_setup_required;
  current ← beside si_auth_credential_generation;
  if setup && (expected_generation =? current)
  then set_credentials_internal env username password false true true false 0
  else mret ESP_ERR_INVALID_STATE.

Definition generate_bootstrap_password env : cstring := hex_text (random_password env).

(** [out_size]: [None] when the buffer is NULL. *)
Definition si_auth_reset_bootstrap env (out_size : option nat) : st account (esp_err_t * cstring) :=
  return_if negb (ptr_test (fun n => (SI_AUTH_BOOTSTRAP_PASSWORD_LEN + 1 <=? n)%nat) out_size)
    with mret (ESP_ERR_INVALID_ARG, []) ;;
  let password := generate_bootstrap_password env in
  ret ← set_credentials_internal env (Some (si_auth_default_username b)) (Some password)
          true true false true 0;
  mret (if bool_decide (ret = ESP_OK) then (ret, strtrunc (default 0%nat out_size) password)
        else (ret, [])).

(** ** Loading *)

Definition forget_verifier (c : credentials) : credentials := c <| s_verifier := [] |>.

(** No record: a bootstrap password that the build names or that nobody knows. *)
Definition load_bootstrap env : st account unit :=
  let own := SI_CFG_AUTH_PASSWORD b in
  let owned := bool_decide (si_auth_validate_password (Some own) = ESP_OK) in
  c ← current_credentials;
  ret ← set_credentials_internal env (Some (s_username c))
          (Some (if owned then own else generate_bootstrap_password env))
          true true false (negb owned) 0;
  when (negb (bool_decide (ret = ESP_OK)))
    (set_statics (fun c => (forget_verifier c) <| s_loaded := true |>)).

(** A record whose password is the one that every device used to have is replaced. *)
Definition replace_shared_factory env : st account unit :=
  c ← current_credentials;
  return_if negb (digest_matches c (cstr "admin")) with mret tt ;;
  r ← si_auth_reset_bootstrap env (Some (SI_AUTH_BOOTSTRAP_PASSWORD_LEN + 1)%nat);
  when (negb (bool_decide (r.1 = ESP_OK))) (set_statics forget_verifier).

(** The statics of a record with a verifier. *)
Definition adopt_stored (r : stored) (c : credentials) : credentials :=
  let c := if bool_decide ((st_username r).1 = ESP_OK) &&
              bool_decide (si_auth_validate_username (Some (st_username r).2) = ESP_OK)
           then c <| s_username := strtrunc (SI_AUTH_USERNAME_MAX_LEN + 1) (st_username r).2 |>
           else c in
  let legacy := negb (bool_decide ((st_salt r).1 = ESP_OK)) ||
                negb (length (s_salt c) =? AUTH_SALT_HEX_LEN)%nat ||
                negb (bool_decide ((st_iterations r).1 = ESP_OK)) ||
                negb (salted_iterations (s_iterations c)) in
  let c := c <| s_legacy_password := legacy |> in
  let c := if legacy then (c <| s_salt := [] |>) <| s_iterations := 0 |> else c in
  c <| s_using_default := bool_decide ((st_bootstrap r).1 = ESP_OK) && ((st_bootstrap r).2 =? 1) |>.

(** The flag of an unclaimed device does not fit the rest. *)
Definition setup_flag_bad (r : stored) (c : credentials) : bool :=
  let err := (st_setup r).1 in
  let flag := or_kept 0 (st_setup r) in
  (negb (bool_decide (err = ESP_OK)) && negb (bool_decide (err = ESP_ERR_NOT_FOUND))) ||
  (1 <? flag) ||
  (bool_decide (err = ESP_OK) && negb (flag =? 0) && negb (s_using_default c)).

Definition load_credentials env : st account unit :=
  c ← current_credentials;
  return_if s_loaded c with mret tt ;;
  set_statics (fun c =>
    mk_credentials (strtrunc (SI_AUTH_USERNAME_MAX_LEN + 1) (si_auth_default_username b)) [] [] 0
      (s_loaded c) true (s_setup_pending c) false (s_login_count_loaded c) (s_login_count c));;
  opened ← on_store (si_settings_store_open_read (Some SI_SETTINGS_STORE_INITIALIZER) (Some AUTH_NAMESPACE));
  return_if bool_decide (opened.1 = ESP_ERR_NOT_FOUND) with load_bootstrap env ;;
  return_if negb (bool_decide (opened.1 = ESP_OK)) with
    set_statics (fun c => c <| s_loaded := true |>) ;;
  r ← on_store (read_credentials opened.2);
  set_statics (fun c => ((c <| s_verifier := (st_verifier r).2 |>) <| s_salt := (st_salt r).2 |>)
                          <| s_iterations := or_kept (s_iterations c) (st_iterations r) |>);;
  if bool_decide ((st_verifier r).1 = ESP_OK) && (length (st_verifier r).2 =? SI_AUTH_TOKEN_LEN)%nat
  then
    set_statics (adopt_stored r);;
    c ← current_credentials;
    return_if setup_flag_bad r c with
      set_statics (fun c => (forget_verifier c) <| s_loaded := true |>) ;;
    let pending := if bool_decide ((st_setup r).1 = ESP_OK) then or_kept 0 (st_setup r) =? 1
                   else s_using_default c &&
                        negb (bool_decide (si_auth_validate_password (Some (SI_CFG_AUTH_PASSWORD b)) = ESP_OK)) in
    set_statics (fun c => (c <| s_setup_pending := pending |>) <| s_loaded := true |>);;
    when (s_using_default c) (replace_shared_factory env)
  else if bool_decide ((st_verifier r).1 = ESP_ERR_NOT_FOUND) then load_bootstrap env
  else set_statics (fun c => (forget_verifier c) <| s_loaded := true |>).

Definition si_auth_initialize env : st account esp_err_t :=
  load_credentials env;;
  exists_lock ← ensure_credentials_lock env;
  c ← current_credentials;
  mret (if negb (is_empty (s_verifier c)) && exists_lock then ESP_OK else ESP_FAIL).

(** ** Checking a login

    [boot]: what loading reads.  A record in another format than the build's is
    written again, without ending any session. *)
Definition si_auth_credentials_match (boot env : cred_env) (username password : option cstring)
  : st account bool :=
  setup ← si_auth_account_setup_required;
  match username, password with
  | Some username, Some password =>
      return_if (SI_AUTH_PASSWORD_MAX_LEN <? length password)%nat || setup with mret false ;;
      load_credentials boot;;
      exists_lock ← ensure_credentials_lock env;
      return_if negb (exists_lock && credentials_in_time env) with mret false ;;
      c ← current_credentials;
      let r := login_digest c password in
      let matches := bool_decide (r.1 = ESP_OK) && secure_equal username (s_username c) &&
                     secure_equal r.2 (s_verifier c) in
      if matches && (s_legacy_password c || negb (s_iterations c =? AUTH_PASSWORD_ITERATIONS b)) &&
         bool_decide (si_auth_validate_password (Some password) = ESP_OK)
      then
        e ← set_credentials_internal env (Some (s_username c)) (Some password) (s_using_default c)
              false true (s_setup_pending c) 0;
        mret (bool_decide (e = ESP_OK))
      else mret matches
  | _, _ => mret false
  end.

(** ** The login counter and the status *)

Definition si_auth_login_count : st account Z :=
  c ← current_credentials;
  return_if s_login_count_loaded c with mret (s_login_count c) ;;
  n ← on_store read_login_count;
  set_statics (fun c => (c <| s_login_count := match n with Some r => or_kept (s_login_count c) r
                                                          | None => s_login_count c end |>)
                          <| s_login_count_loaded := true |>);;
  c ← current_credentials;
  mret (s_login_count c).

Definition si_auth_record_login : st account unit :=
  n ← si_auth_login_count;
  let count := u32 (n + 1) in
  saved ← on_store (write_login_count count);
  when (default true saved) (set_statics (fun c => c <| s_login_count := count |>)).

Definition si_auth_get_status env : st account si_auth_status_t :=
  load_credentials env;;
  c ← current_credentials;
  enforced ← beside (si_auth_is_enabled (revoke_env env));
  n ← si_auth_login_count;
  mret (mk_auth_status (enforced && negb (is_empty (s_verifier c))) (enforced && s_using_default c)
          (enforced && required_setup c) (s_legacy_password c) n
          (strtrunc (SI_AUTH_USERNAME_MAX_LEN + 1) (s_username c))).

(** ** What happens to the account

    A restart loses the statics and leaves [n] in the flash. *)

Inductive cred_call :=
| LoadAccount (env : cred_env)
| Match (boot env : cred_env) (username password : option cstring)
| SetAccount (env : cred_env) (username password : option cstring)
| SetAccountFor (env : cred_env) (username password : option cstring) (gen : Z)
| SetupAccount (env : cred_env) (username password : option cstring) (gen : Z)
| ResetBootstrap (env : cred_env)
| CountLogin
| AccountStatus (env : cred_env)
| SessionsMove (a : auth_world)
| AccountProxy (f : flash_access)
| AccountRestart (n : N) (f : flash_access) (a : auth_world).

(** A call, and whether it said yes. *)
Definition cred_exec (call : cred_call) : st account bool :=
  let ok m := (e ← m; mret (bool_decide (e = ESP_OK))) in
  match call with
  | LoadAccount env => ok (si_auth_initialize env)
  | Match boot env u p => si_auth_credentials_match boot env u p
  | SetAccount env u p => ok (si_auth_set_credentials env u p)
  | SetAccountFor env u p gen => ok (si_auth_set_credentials_for_generation env u p gen)
  | SetupAccount env u p gen => ok (si_auth_setup_credentials env u p gen)
  | ResetBootstrap env =>
      r ← si_auth_reset_bootstrap env (Some (SI_AUTH_BOOTSTRAP_PASSWORD_LEN + 1)%nat);
      mret (bool_decide (r.1 = ESP_OK))
  | CountLogin => si_auth_record_login;; mret true
  | AccountStatus env => s ← si_auth_get_status env; mret (status_enabled s)
  | SessionsMove a => fun ws => (true, (a <| auth := shown (creds ws.2) (auth a) |>, ws.2))
  | AccountProxy f => fun ws => (true, (ws.1, ws.2 <| cred_disk := (cred_disk ws.2) <| access := f |> |>))
  | AccountRestart n f a => fun _ =>
      (true, (a <| auth := shown credentials_started (auth a) |>,
              mk_cred_world credentials_started (mk_system n f)))
  end.
End credentials.
