(* ===== verification/CredentialsProps.v ===== *)
(** * The credentials of the device: properties

    What the record in flash may hold after any writes, the account after it was
    replaced and after a restart, and the devices that nobody or somebody claimed. *)

From Stdlib Require Import String.
From stdpp Require Import gmap.
From S2P Require Import Prelude CText Hex Firmware Authorization.
From S2P Require Import HidOwner HidManager ControlLease SettingsStore SettingsStoreProps.
From S2P Require Import AuthSession AuthSessionInvariant AuthSessionProps Credentials.

(** ** Comparing text *)

Lemma nth_nonzero (a : cstring) i : cstring_ok a -> (i < length a)%nat -> is_byte (nth i a 0) /\ nth i a 0 <> 0.
Proof.
  intros Ha Hi. destruct (lookup_lt_is_Some_2 a i Hi) as [x Hx]. rewrite (nth_lookup_Some a i 0 x Hx).
  pose proof (Forall_lookup_1 _ _ _ _ Ha Hx) as H. cbn in H. unfold is_byte. lia.
Qed.

(** The lengths are compared modulo 256, but the end of a text is not a character. *)
Lemma secure_equal_text a b : cstring_ok a -> cstring_ok b -> secure_equal a b = true <-> a = b.
Proof.
  intros Ha Hb.
  assert (Hbytes : forall l, cstring_ok l -> Forall is_byte l).
  { intros l Hl. eapply Forall_impl; [exact Hl|]. intros x Hx. cbn in Hx. unfold is_byte. lia. }
  split; [|intros ->; by apply secure_equal_eq; auto].
  intros H. apply (secure_equal_eq a b); [by auto.. | | done].
  unfold secure_equal in H. rewrite Z.eqb_eq, lor_fold_zero in H. destruct H as [_ H].
  rewrite Forall_forall in H. destruct (Nat.lt_trichotomy (length a) (length b)) as [Hl|[Hl|Hl]]; [|done|]; exfalso.
  - specialize (H (length a) ltac:(apply elem_of_seq; lia)). rewrite (nth_overflow a) in H by lia.
    rewrite Z.lxor_0_l in H. destruct (nth_nonzero b (length a) Hb Hl) as [Hy Hn]. by rewrite u8_small in H.
  - specialize (H (length b) ltac:(apply elem_of_seq; lia)). rewrite (nth_overflow b) in H by lia.
    rewrite Z.lxor_0_r in H. destruct (nth_nonzero a (length b) Ha Hl) as [Hy Hn]. by rewrite u8_small in H.
Qed.

Lemma printable_text l : forallb printable l = true -> cstring_ok l.
Proof.
  intros H. apply forallb_Forall in H. eapply Forall_impl; [exact H|].
  intros c Hc. unfold printable in Hc. cbn. lia.
Qed.

Lemma valid_username u :
  si_auth_validate_username u = ESP_OK -> exists name, u = Some name /\ cstring_ok name /\ name <> [] /\
    strtrunc (SI_AUTH_USERNAME_MAX_LEN + 1) name = name.
Proof.
  destruct u as [name|]; [|done]. cbn [si_auth_validate_username]. case_if; [done|]. case_if; [done|].
  intros _. apply orb_false_iff in Heqb as [H1 H2]. decided. exists name. split_and!.
  - done.
  - by apply printable_text.
  - by intros ->.
  - apply strtrunc_id. apply Nat.ltb_ge in H2. lia.
Qed.

Lemma valid_password p :
  si_auth_validate_password p = ESP_OK -> exists pw, p = Some pw /\ (length pw <= SI_AUTH_PASSWORD_MAX_LEN)%nat.
Proof.
  destruct p as [pw|]; [|done]. cbn [si_auth_validate_password]. case_if; [done|].
  intros _. apply orb_false_iff in Heqb as [_ H]. exists pw. apply Nat.ltb_ge in H. by split.
Qed.

(** ** The record *)

Section record.
Context {N : Type} `{laws : NvsLaws N}.
Implicit Types (s : system N) (n : N).

Definition auth_key (key : cstring) : nvs_key := (AUTH_NAMESPACE, key).

(** What six reads say about the contents. *)
Definition stored_reads n (r : stored) : Prop :=
  ((st_verifier r).1 = ESP_OK -> contents n !! auth_key AUTH_PASSWORD_HASH_KEY = Some (NvsStr (st_verifier r).2)) /\
  ((st_verifier r).1 = ESP_ERR_NOT_FOUND -> forall v, v <> [] ->
     contents n !! auth_key AUTH_PASSWORD_HASH_KEY <> Some (NvsStr v)) /\
  ((st_salt r).1 = ESP_OK -> contents n !! auth_key AUTH_PASSWORD_SALT_KEY = Some (NvsStr (st_salt r).2)) /\
  reads (NvsInt NVS_U32) (auth_key AUTH_PASSWORD_ITERATIONS_KEY) n (st_iterations r) /\
  reads NvsStr (auth_key AUTH_USERNAME_KEY) n (st_username r) /\
  reads (NvsInt NVS_U8) (auth_key AUTH_BOOTSTRAP_REQUIRED_KEY) n (st_bootstrap r) /\
  reads (NvsInt NVS_U8) (auth_key AUTH_SETUP_KEY) n (st_setup r).

Lemma read_credentials_spec h s :
  opened (nvs s) h = Some (AUTH_NAMESPACE, NVS_READONLY) ->
  wp (read_credentials (Some (mk_settings_store h true false)))
    (fun r s' => contents (nvs s') = contents (nvs s) /\ flash (nvs s') = flash (nvs s) /\
                 stored_reads (nvs s) r) s.
Proof.
  intros Ho. unfold read_credentials.
  apply wp_bind. eapply wp_mono; [apply (get_secret_spec h AUTH_NAMESPACE false _ SI_AUTH_TOKEN_LEN s Ho)|].
  intros v s1 (E1 & Hv & Hv'). rewrite <- E1 in Ho.
  apply wp_bind. eapply wp_mono; [apply (get_secret_spec h AUTH_NAMESPACE false _ AUTH_SALT_HEX_LEN s1 Ho)|].
  intros salt s2 (E2 & Hs & _). rewrite <- E2 in Ho.
  apply wp_bind. eapply wp_mono; [apply (get_int_spec NVS_U32 h AUTH_NAMESPACE false _ s2 Ho)|].
  intros i s3 (E3 & Hi). rewrite <- E3 in Ho.
  apply wp_bind. eapply wp_mono; [apply (get_string_spec h AUTH_NAMESPACE false _ SI_AUTH_USERNAME_MAX_LEN s3 Ho)|].
  intros u s4 (E4 & Hu). rewrite <- E4 in Ho.
  apply wp_bind. eapply wp_mono; [apply (get_int_spec NVS_U8 h AUTH_NAMESPACE false _ s4 Ho)|].
  intros b s5 (E5 & Hb). rewrite <- E5 in Ho.
  apply wp_bind. eapply wp_mono; [apply (get_int_spec NVS_U8 h AUTH_NAMESPACE false _ s5 Ho)|].
  intros f s6 (E6 & Hf).
  apply wp_bind. eapply wp_mono; [apply close_spec|]. intros ? s7 [C7 F7]. apply wp_ret.
  assert (E : nvs s6 = nvs s) by congruence.
  rewrite C7, F7, E. rewrite E1, E2, E3, E4, E5 in *. split_and!; [done | done |].
  unfold stored_reads. cbn [st_verifier st_salt st_iterations st_username st_bootstrap st_setup].
  split_and!; try done; intros He; [by apply Hv | by apply Hs].
Qed.

(** The values of a record. *)
Definition record_values (username verifier salt_hex : cstring) (iterations : Z) (bootstrap setup : bool)
  : list (cstring * nvs_value) :=
  [(AUTH_USERNAME_KEY, NvsStr username); (AUTH_PASSWORD_HASH_KEY, NvsStr verifier);
   (AUTH_PASSWORD_SALT_KEY, NvsStr salt_hex); (AUTH_PASSWORD_ITERATIONS_KEY, NvsInt NVS_U32 (u32 iterations));
   (AUTH_SETUP_KEY, NvsInt NVS_U8 (if bootstrap && setup then 1 else 0));
   (AUTH_BOOTSTRAP_REQUIRED_KEY, NvsInt NVS_U8 (if bootstrap then 1 else 0))].

Definition one_of (values : list (cstring * nvs_value)) (k : nvs_key) (v : nvs_value) : Prop :=
  exists key, k = auth_key key /\ (key, v) ∈ values.

Lemma set_int_spec type key v h s :
  opened (nvs s) h = Some (AUTH_NAMESPACE, NVS_READWRITE) ->
  wp (si_settings_store_set_int type (Some (mk_settings_store h true true)) (Some key) v)
    (fun e s' => sets (auth_key key) (NvsInt type (narrow type (u32 v))) e (nvs s) (nvs s')) s.
Proof. intros Ho. by apply set_value_spec. Qed.

Lemma set_string_spec key v h s :
  opened (nvs s) h = Some (AUTH_NAMESPACE, NVS_READWRITE) ->
  wp (si_settings_store_set_string (Some (mk_settings_store h true true)) (Some key) (Some v))
    (fun e s' => sets (auth_key key) (NvsStr v) e (nvs s) (nvs s')) s.
Proof. intros Ho. by apply set_value_spec. Qed.

(** One value of the record, and what follows it. *)
Lemma write_value {A} m key v values put store ret n0 (K : esp_err_t -> st (system N) A) Q s :
  (forall h s, opened (nvs s) h = Some (AUTH_NAMESPACE, NVS_READWRITE) ->
     wp (m (Some (mk_settings_store h true true))) (fun e s' => sets (auth_key key) v e (nvs s) (nvs s')) s) ->
  (key, v) ∈ values -> key ∉ put.*1 ->
  writing AUTH_NAMESPACE store (one_of values) put ret n0 (nvs s) ->
  (forall e s', writing AUTH_NAMESPACE store (one_of values) ((key, v) :: put) e n0 (nvs s') -> wp (K e) Q s') ->
  wp (bind (if_ok ret (m store)) K) Q s.
Proof using.
  intros Hm Hin Hk Hw HK. apply wp_bind.
  eapply wp_mono; [refine (set_writing AUTH_NAMESPACE store (one_of values) put key v ret m n0 s Hm _ Hk Hw)|exact HK].
  by exists key.
Qed.

Ltac in_record :=
  match goal with |- _ ∈ ?l => unfold l end; unfold record_values; rewrite ?elem_of_cons; tauto.
Ltac fresh_key := cbn [fmap list_fmap fst]; apply (bool_decide_unpack _); by vm_compute.

Lemma write_credentials_spec username verifier salt_hex iterations bootstrap setup s :
  let values := record_values username verifier salt_hex iterations bootstrap setup in
  wp (write_credentials username verifier salt_hex iterations bootstrap setup) (fun e s' =>
    changed (one_of values) (nvs s) (nvs s') /\
    (e = ESP_OK -> forall k v, (k, v) ∈ values ->
       contents (nvs s') !! auth_key k = Some v /\ forall x, flash (nvs s') (auth_key k) x -> x = Some v)) s.
Proof.
  intros values. unfold write_credentials. apply wp_bind.
  eapply wp_mono; [by apply (open_writing AUTH_NAMESPACE (one_of values))|].
  intros r s1 H1. cbv zeta.
  apply (write_value (fun st => si_settings_store_set_string st (Some AUTH_USERNAME_KEY) (Some username))
           AUTH_USERNAME_KEY (NvsStr username) values [] r.2 r.1 (nvs s));
    [by apply set_string_spec | in_record | fresh_key | exact H1 |]. intros e2 s2 H2.
  apply (write_value (fun st => si_secret_store_set_string st (Some AUTH_PASSWORD_HASH_KEY) (Some verifier))
           AUTH_PASSWORD_HASH_KEY (NvsStr verifier) values _ r.2 e2 (nvs s)) with (4 := H2);
    [intros ? ? ?; by apply set_secret_spec | in_record | fresh_key |]. intros e3 s3 H3.
  apply (write_value (fun st => si_secret_store_set_string st (Some AUTH_PASSWORD_SALT_KEY) (Some salt_hex))
           AUTH_PASSWORD_SALT_KEY (NvsStr salt_hex) values _ r.2 e3 (nvs s)) with (4 := H3);
    [intros ? ? ?; by apply set_secret_spec | in_record | fresh_key |]. intros e4 s4 H4.
  apply (write_value (fun st => si_settings_store_set_int NVS_U32 st (Some AUTH_PASSWORD_ITERATIONS_KEY) iterations)
           AUTH_PASSWORD_ITERATIONS_KEY (NvsInt NVS_U32 (u32 iterations)) values _ r.2 e4 (nvs s)) with (4 := H4);
    [by apply (set_int_spec NVS_U32) | in_record | fresh_key |]. intros e5 s5 H5.
  assert (Hfinal : forall put ret s', writing AUTH_NAMESPACE r.2 (one_of values) put ret (nvs s) (nvs s') ->
    (forall kv, kv ∈ values -> kv ∈ put) ->
    wp (ret ← if_ok ret (si_settings_store_commit r.2); si_settings_store_close r.2;; mret ret) (fun e s' =>
      changed (one_of values) (nvs s) (nvs s') /\
      (e = ESP_OK -> forall k v, (k, v) ∈ values ->
         contents (nvs s') !! auth_key k = Some v /\ forall x, flash (nvs s') (auth_key k) x -> x = Some v)) s').
  { intros put ret s' Hw Hin. eapply wp_mono; [apply (commit_writing _ _ _ _ _ _ _ Hw)|].
    intros e s'' [Hc Hd]. split; [exact Hc|]. intros He k v Hkv. by apply Hd, Hin. }
  set (flag := bootstrap && setup) in *.
  assert (Hflag_b : forall h s, opened (nvs s) h = Some (AUTH_NAMESPACE, NVS_READWRITE) ->
    wp (si_settings_store_set_int NVS_U8 (Some (mk_settings_store h true true)) (Some AUTH_BOOTSTRAP_REQUIRED_KEY)
          (if bootstrap then 1 else 0))
      (fun e s' => sets (auth_key AUTH_BOOTSTRAP_REQUIRED_KEY) (NvsInt NVS_U8 (if bootstrap then 1 else 0)) e
                     (nvs s) (nvs s')) s)
    by (destruct bootstrap; by apply (set_int_spec NVS_U8)).
  destruct flag eqn:Hflag.
  - apply wp_bind, wp_ret.
    apply (write_value (fun st => si_settings_store_set_int NVS_U8 st (Some AUTH_BOOTSTRAP_REQUIRED_KEY) (if bootstrap then 1 else 0))
             AUTH_BOOTSTRAP_REQUIRED_KEY (NvsInt NVS_U8 (if bootstrap then 1 else 0)) values _ r.2 e5 (nvs s)) with (4 := H5);
      [exact Hflag_b | in_record | fresh_key |]. intros e6 s6 H6.
    apply (write_value (fun st => si_settings_store_set_int NVS_U8 st (Some AUTH_SETUP_KEY) 1)
             AUTH_SETUP_KEY (NvsInt NVS_U8 (if bootstrap && setup then 1 else 0)) values _ r.2 e6 (nvs s)) with (4 := H6);
      [change (bootstrap && setup) with flag; rewrite Hflag; by apply (set_int_spec NVS_U8) | in_record | fresh_key |].
    intros e7 s7 H7. apply (Hfinal _ _ _ H7). unfold values, record_values. intros kv. rewrite !elem_of_cons. tauto.
  - apply (write_value (fun st => si_settings_store_set_int NVS_U8 st (Some AUTH_SETUP_KEY) 0)
             AUTH_SETUP_KEY (NvsInt NVS_U8 (if bootstrap && setup then 1 else 0)) values _ r.2 e5 (nvs s)) with (4 := H5);
      [change (bootstrap && setup) with flag; rewrite Hflag; by apply (set_int_spec NVS_U8) | in_record | fresh_key |].
    intros e6 s6 H6.
    apply (write_value (fun st => si_settings_store_set_int NVS_U8 st (Some AUTH_BOOTSTRAP_REQUIRED_KEY) (if bootstrap then 1 else 0))
             AUTH_BOOTSTRAP_REQUIRED_KEY (NvsInt NVS_U8 (if bootstrap then 1 else 0)) values _ r.2 e6 (nvs s)) with (4 := H6);
      [exact Hflag_b | in_record | fresh_key |]. intros e7 s7 H7.
    apply wp_bind, wp_ret. apply (Hfinal _ _ _ H7). unfold values, record_values. intros kv. rewrite !elem_of_cons. tauto.
Qed.

(** ** The login counter *)

Definition count_only (k : nvs_key) (_ : nvs_value) : Prop := k = auth_key AUTH_LOGIN_COUNT_KEY.

Lemma write_login_count_spec count s :
  wp (write_login_count count) (fun _ s' => changed count_only (nvs s) (nvs s')) s.
Proof.
  unfold write_login_count. apply wp_bind.
  eapply wp_mono; [by apply (open_writing AUTH_NAMESPACE count_only)|]. intros r s1 H1.
  cbv beta in H1. case_if; decided; [apply wp_ret, H1|]. rewrite Heqb in H1. apply wp_bind.
  eapply wp_mono.
  { refine (set_writing AUTH_NAMESPACE r.2 count_only [] AUTH_LOGIN_COUNT_KEY
      (NvsInt NVS_U32 (narrow NVS_U32 (u32 count)))
      ESP_OK (fun st => si_settings_store_set_int NVS_U32 st (Some AUTH_LOGIN_COUNT_KEY) count) _ _ _ _ _ H1).
    - intros h s' Ho. by apply set_int_spec.
    - done.
    - apply not_elem_of_nil. }
  intros e s2 H2. unfold if_ok. pose proof (commit_writing _ _ _ _ _ _ _ H2) as H3.
  unfold wp in H3 |- *. unfold bind in H3 |- *.
  destruct ((if bool_decide (e = ESP_OK) then si_settings_store_commit r.2 else mret e) s2) as [e3 s3].
  destruct (si_settings_store_close r.2 s3) as [store s4]. exact (proj1 H3).
Qed.

Lemma read_login_count_spec s :
  wp read_login_count (fun _ s' => contents (nvs s') = contents (nvs s) /\ flash (nvs s') = flash (nvs s)) s.
Proof.
  unfold read_login_count. apply wp_bind. eapply wp_mono; [by apply open_read_spec|].
  intros r s1 (C1 & F1 & Hok & _). case_if; decided; [by apply wp_ret|].
  destruct (Hok Heqb) as (h & -> & Ho). change (bool_decide (NVS_READONLY = NVS_READWRITE)) with false.
  apply wp_bind. eapply wp_mono; [apply (get_int_spec NVS_U32 h AUTH_NAMESPACE false _ s1 Ho)|].
  intros n s2 [E2 _]. apply wp_bind. eapply wp_mono; [apply close_spec|]. intros ? s3 [C3 F3].
  apply wp_ret. by rewrite C3, F3, E2.
Qed.
End record.

(** ** The account *)

Section account.
Context (b : build).
Context (state_bytes : auth_retained_state_t -> list Z).
Context (mbedtls_sha256 : list Z -> option (list Z)).
Context (mbedtls_pbkdf2_hmac_sha256 : cstring -> list Z -> Z -> option (list Z)).
Hypothesis sha256_bytes : forall text digest, mbedtls_sha256 text = Some digest ->
  length digest = AUTH_VERIFIER_BYTES /\ Forall is_byte digest.
Hypothesis pbkdf2_bytes : forall password salt iterations digest,
  mbedtls_pbkdf2_hmac_sha256 password salt iterations = Some digest ->
  length digest = AUTH_VERIFIER_BYTES /\ Forall is_byte digest.
Context {N : Type} `{laws : NvsLaws N}.
Implicit Types (env : cred_env) (ws : account (N := N)) (c : credentials).

Abbreviation derive := (derive_password mbedtls_sha256 mbedtls_pbkdf2_hmac_sha256).
Abbreviation digest_of := (login_digest mbedtls_sha256 mbedtls_pbkdf2_hmac_sha256).

(** The text of a digest. *)
Definition digest_text (v : cstring) : Prop := length v = SI_AUTH_TOKEN_LEN /\ cstring_ok v.

Lemma hex_digest_text digest :
  length digest = AUTH_VERIFIER_BYTES -> Forall is_byte digest -> digest_text (hex_text digest).
Proof. intros E Hd. split; [by rewrite hex_text_length, E | by apply hex_text_nonzero]. Qed.

Lemma derive_text password salt iterations v :
  derive password salt iterations = (ESP_OK, v) -> digest_text v /\ length salt = AUTH_SALT_HEX_LEN.
Proof using sha256_bytes pbkdf2_bytes.
  unfold derive_password. destruct (hex_to_bytes AUTH_SALT_BYTES (Some salt)) as [bytes|] eqn:Es; [|done].
  assert (Hl : length salt = AUTH_SALT_HEX_LEN).
  { unfold hex_to_bytes in Es. case_if_in Es; [done|]. apply negb_false_iff, Nat.eqb_eq in Heqb0. exact Heqb0. }
  case_if; [done|].
  destruct (if iterations =? AUTH_SALTED_SHA256_ITERATIONS then _ else _) as [digest|] eqn:Ed; [|done].
  intros E. injection E as <-. split; [|done].
  case_if_in Ed; [destruct (sha256_bytes _ _ Ed) | destruct (pbkdf2_bytes _ _ _ _ Ed)]; by apply hex_digest_text.
Qed.

Lemma digest_of_text c password v : digest_of c password = (ESP_OK, v) -> digest_text v.
Proof using sha256_bytes pbkdf2_bytes.
  unfold login_digest. case_if; [|intros E; by apply derive_text in E as []].
  unfold legacy_hash_password. destruct (mbedtls_sha256 password) as [digest|] eqn:Ed; [|done].
  intros E. injection E as <-. destruct (sha256_bytes _ _ Ed). by apply hex_digest_text.
Qed.

(** ** Rules for the state *)

Lemma wp_on_store {A} (m : st (system N) A) (Q : A -> account -> Prop) ws :
  wp m (fun a d => Q a (ws.1, ws.2 <| cred_disk := d |>)) (cred_disk ws.2) -> wp (on_store m) Q ws.
Proof using. unfold wp, on_store. by destruct (m (cred_disk ws.2)). Qed.

Lemma wp_set_statics f (Q : unit -> account (N := N) -> Prop) ws :
  Q tt (ws.1 <| auth := shown (f (creds ws.2)) (auth ws.1) |>, ws.2 <| creds := f (creds ws.2) |>) ->
  wp (set_statics f) Q ws.
Proof using. done. Qed.

(** What a change of the account leaves of the sessions. *)
Definition sessions_frame (w : auth_world) :=
  (retained (auth w), retained_initialized (auth w), reset_reason (auth w), session_lock (auth w),
   credential_generation (auth w), login_disabled (auth w)).

(** The session table reads the account. *)
Definition mirrored ws : Prop :=
  verifier (auth ws.1) = s_verifier (creds ws.2) /\ setup_required (auth ws.1) = required_setup (creds ws.2).

Abbreviation flash_of ws := (nvs (cred_disk (snd ws))).

(** ** Replacing the account *)

(** The statics of the new account, and its record. *)
Definition new_verifier env (pw : cstring) : cstring :=
  (derive pw (hex_text (random_salt env)) (AUTH_PASSWORD_ITERATIONS b)).2.

Definition new_account env (name pw : cstring) (bootstrap setup : bool) c : credentials :=
  mk_credentials name (new_verifier env pw) (hex_text (random_salt env)) (AUTH_PASSWORD_ITERATIONS b)
    true bootstrap (bootstrap && setup) false (s_login_count_loaded c) (s_login_count c).

Definition new_values env (name pw : cstring) (bootstrap setup : bool) :=
  record_values name (new_verifier env pw) (hex_text (random_salt env)) (AUTH_PASSWORD_ITERATIONS b) bootstrap setup.

(** A name and a password that the device takes. *)
Definition acceptable env (username password : option cstring) (name pw : cstring) : Prop :=
  username = Some name /\ password = Some pw /\
  si_auth_validate_username username = ESP_OK /\ si_auth_validate_password password = ESP_OK /\
  derive pw (hex_text (random_salt env)) (AUTH_PASSWORD_ITERATIONS b) = (ESP_OK, new_verifier env pw).

Abbreviation settled := (settled_in AUTH_NAMESPACE).

(** What may be written. *)
Definition may_write env username password bootstrap setup (k : nvs_key) (v : nvs_value) : Prop :=
  exists name pw, acceptable env username password name pw /\
    one_of (new_values env name pw bootstrap setup) k v.

Definition replaced env username password (bootstrap rotate setup : bool) ws ws' : Prop :=
  exists name pw, acceptable env username password name pw /\
    creds ws'.2 = new_account env name pw bootstrap setup (creds ws.2) /\ mirrored ws' /\
    settled (new_values env name pw bootstrap setup) (flash_of ws') /\
    if rotate then
      credential_generation (auth ws'.1) = u32 (credential_generation (auth ws.1) + 1) /\
      (length (sessions (retained (auth ws.1))) = AUTH_SESSION_SLOTS -> has_lock (revoke_env env) ws.1 = true ->
       no_session (live_table state_bytes (auth ws'.1)))
    else sessions_frame ws'.1 = sessions_frame ws.1.

Lemma changed_mono W W' n n' : (forall k v, W k v -> W' k v) -> changed W n n' -> changed W' n n'.
Proof using.
  intros Hw Hch k. destruct (Hch k) as [Hc Hf]. split.
  - destruct Hc as [?|(v & ? & ?)]; eauto.
  - intros x Hx. destruct (Hf x Hx) as [?|(v & ? & ?)]; eauto.
Qed.

(** The end of a replacement: the generation moves and the sessions are revoked. *)
Lemma rotation_spec (env : auth_env) (rotate : bool) ws :
  wp (when rotate (beside next_credential_generation);;
      when rotate (beside (si_auth_revoke_all_sessions state_bytes env));; mret ESP_OK) (fun e ws' =>
    e = ESP_OK /\ ws'.2 = ws.2 /\ (mirrored ws -> mirrored ws') /\
    if rotate then
      credential_generation (auth ws'.1) = u32 (credential_generation (auth ws.1) + 1) /\
      (length (sessions (retained (auth ws.1))) = AUTH_SESSION_SLOTS -> has_lock env ws.1 = true ->
       no_session (live_table state_bytes (auth ws'.1)))
    else ws'.1 = ws.1) ws.
Proof using.
  destruct rotate; [|by apply wp_bind, wp_ret, wp_bind, wp_ret, wp_ret].
  apply wp_bind, wp_beside, wp_on_auth. cbn [fst snd]. apply wp_bind, wp_beside.
  match goal with |- wp _ _ ?x => set (w1 := x) end. apply wp_intro, wp_ret. cbn [fst snd].
  pose proof (revoke_all_account state_bytes env w1) as Hf. unfold on_auth_rel, same, account_frame in Hf.
  split_and!; [done | done | | | ].
  - unfold mirrored. cbn [fst snd]. intros [M1 M2].
    change (verifier (auth ws.1)) with (verifier (auth w1)) in M1.
    change (setup_required (auth ws.1)) with (setup_required (auth w1)) in M2. split; congruence.
  - change (u32 (credential_generation (auth ws.1) + 1)) with (credential_generation (auth w1)). congruence.
  - intros L Hl. exact (logout_all_clears state_bytes env w1 L Hl).
Qed.

Lemma set_credentials_spec env username password bootstrap rotate locked setup gen ws :
  wp (set_credentials_internal b state_bytes mbedtls_sha256 mbedtls_pbkdf2_hmac_sha256 env username password
        bootstrap rotate locked setup gen) (fun e ws' =>
    changed (may_write env username password bootstrap setup) (flash_of ws) (flash_of ws') /\
    (e <> ESP_OK -> creds ws'.2 = creds ws.2 /\ sessions_frame ws'.1 = sessions_frame ws.1 /\
                    (mirrored ws -> mirrored ws')) /\
    (e = ESP_OK -> (gen = 0 \/ gen = credential_generation (auth ws.1)) /\
                   replaced env username password bootstrap rotate setup ws ws')) ws.
Proof using sha256_bytes pbkdf2_bytes laws.
  unfold set_credentials_internal.
  case_if; decided; [by apply wp_ret|]. case_if; decided; [by apply wp_ret|].
  destruct (valid_username _ Heqb0) as (name & -> & Hname & Hne & Etr). cbv zeta.
  change (default [] (Some name)) with name. rewrite !Etr.
  destruct (valid_password _ Heqb1) as (pw & -> & Hpw).
  change (default [] (Some pw)) with pw.
  destruct (derive pw (hex_text (random_salt env)) (AUTH_PASSWORD_ITERATIONS b)) as [e v] eqn:Ed. cbn [fst snd].
  case_if; decided; [by apply wp_ret|]. subst e.
  destruct (derive_text _ _ _ _ Ed) as [[Lv Hv] Ls].
  assert (Ev : new_verifier env pw = v) by (unfold new_verifier; by rewrite Ed).
  assert (Ha : acceptable env (Some name) (Some pw) name pw) by (split_and!; [done..|by rewrite Ev]).
  apply wp_bind. unfold ensure_credentials_lock. apply wp_beside, wp_on_auth. cbn [fst snd].
  match goal with |- wp _ _ ?x => set (ws1 := x) end.
  assert (E1 : sessions_frame ws1.1 = sessions_frame ws.1) by done.
  assert (M1 : mirrored ws -> mirrored ws1) by done.
  case_if; [by apply wp_ret|]. apply wp_bind, wp_beside, wp_gets. cbn [fst snd].
  case_if; [by apply wp_ret|].
  assert (Hg : gen = 0 \/ gen = credential_generation (auth ws.1)).
  { match goal with Hx : negb (gen =? 0) && _ = false |- _ =>
      apply andb_false_iff in Hx as [Hx|Hx]; decided; apply Z.eqb_eq in Hx; auto end. }
  apply wp_bind, wp_on_store. eapply wp_mono; [apply write_credentials_spec|].
  intros e d [Hc Hd]. cbn [fst snd].
  assert (Hc' : changed (may_write env (Some name) (Some pw) bootstrap setup) (flash_of ws) (nvs d)).
  { eapply changed_mono; [|exact Hc]. intros k x Hx. exists name, pw. split; [done|].
    unfold new_values. by rewrite Ev. }
  case_if; decided; [by apply wp_ret|]. match goal with E : e = ESP_OK |- _ => specialize (Hd E); subst e end. apply wp_bind, wp_set_statics.
  cbn [fst snd creds cred_disk set].
  rewrite (strtrunc_id _ v), (strtrunc_id _ (hex_text _)) by (rewrite ?Lv, ?Ls; unfold SI_AUTH_TOKEN_LEN, AUTH_SALT_HEX_LEN, AUTH_SALT_BYTES; lia).
  match goal with |- wp _ _ ?x => set (ws2 := x) end.
  assert (M2 : mirrored ws2) by done.
  eapply wp_mono; [apply rotation_spec|]. intros e ws' (-> & Ew & Hm & Hr). rewrite Ew.
  split_and!; [exact Hc' | done |]. intros _. split; [exact Hg|].
  exists name, pw. unfold new_account, new_values. rewrite !Ev. rewrite Ew.
  split_and!; [exact Ha | done | by apply Hm | exact Hd |].
  destruct rotate; [exact Hr | by rewrite Hr].
Qed.


(** ** Loading *)

(** What loading leaves before it writes anything. *)
Definition quietly_loading ws ws' : Prop :=
  contents (flash_of ws') = contents (flash_of ws) /\ flash (flash_of ws') = flash (flash_of ws) /\
  sessions_frame ws'.1 = sessions_frame ws.1 /\ mirrored ws'.

(** The statics that the reads [r] are adopted into, and the account found. *)
Definition reset_account c : credentials :=
  mk_credentials (strtrunc (SI_AUTH_USERNAME_MAX_LEN + 1) (si_auth_default_username b)) [] [] 0
    (s_loaded c) true (s_setup_pending c) false (s_login_count_loaded c) (s_login_count c).

Definition read_into (r : stored) c : credentials :=
  (((reset_account c) <| s_verifier := (st_verifier r).2 |>) <| s_salt := (st_salt r).2 |>)
    <| s_iterations := or_kept 0 (st_iterations r) |>.

Definition setup_found (r : stored) (using_default : bool) : bool :=
  if bool_decide ((st_setup r).1 = ESP_OK) then or_kept 0 (st_setup r) =? 1
  else using_default &&
       negb (bool_decide (si_auth_validate_password (Some (SI_CFG_AUTH_PASSWORD b)) = ESP_OK)).

Definition found_account (r : stored) c : credentials :=
  let c := adopt_stored r (read_into r c) in
  (c <| s_setup_pending := setup_found r (s_using_default c) |>) <| s_loaded := true |>.

Lemma load_account_spec env ws (Q : unit -> account (N := N) -> Prop) :
  s_loaded (creds ws.2) = false ->
  (forall ws', quietly_loading ws ws' -> s_loaded (creds ws'.2) = true -> s_verifier (creds ws'.2) = [] -> Q tt ws') ->
  (forall r ws', quietly_loading ws ws' -> stored_reads (flash_of ws) r ->
     (st_verifier r).1 = ESP_OK -> length (st_verifier r).2 = SI_AUTH_TOKEN_LEN ->
     creds ws'.2 = found_account r (creds ws.2) ->
     wp (when (s_using_default (creds ws'.2))
           (replace_shared_factory b state_bytes mbedtls_sha256 mbedtls_pbkdf2_hmac_sha256 env)) Q ws') ->
  (forall ws', quietly_loading ws ws' ->
     (forall v, v <> [] -> contents (flash_of ws) !! auth_key AUTH_PASSWORD_HASH_KEY <> Some (NvsStr v)) ->
     wp (load_bootstrap b state_bytes mbedtls_sha256 mbedtls_pbkdf2_hmac_sha256 env) Q ws') ->
  wp (load_credentials b state_bytes mbedtls_sha256 mbedtls_pbkdf2_hmac_sha256 env) Q ws.
Proof using laws.
  intros Hl Hfail Hfound Hnone. unfold load_credentials. apply wp_bind, wp_gets. rewrite Hl.
  apply wp_bind, wp_set_statics. match goal with |- wp _ _ ?x => set (ws1 := x) end.
  apply wp_bind, wp_on_store. eapply wp_mono; [by apply open_read_spec|].
  intros o d1 (C1 & F1 & Hok & _ & Hno). match goal with |- wp _ _ ?x => set (ws2 := x) end.
  assert (Q2 : quietly_loading ws ws2) by done.
  case_if; decided.
  { apply Hnone; [done|]. intros v _. change (flash_of ws) with (nvs (cred_disk ws1.2)). by rewrite (Hno Heqb0). }
  case_if; decided; [by apply wp_set_statics, Hfail|].
  destruct (Hok Heqb1) as (h & -> & Ho). change (bool_decide (NVS_READONLY = NVS_READWRITE)) with false.
  apply wp_bind, wp_on_store. eapply wp_mono; [by apply (read_credentials_spec h)|].
  intros r d2 (C2 & F2 & Hr).
  assert (Hr' : stored_reads (flash_of ws) r).
  { change (stored_reads (nvs d1) r) in Hr. unfold stored_reads, reads in Hr |- *.
    change (flash_of ws) with (nvs (cred_disk ws1.2)). by rewrite <- C1. }
  assert (Hq : forall ws', cred_disk ws'.2 = d2 -> sessions_frame ws'.1 = sessions_frame ws.1 -> mirrored ws' ->
    quietly_loading ws ws').
  { intros ws' E Hs Hm. unfold quietly_loading. rewrite E. split_and!; [by etrans | by etrans | done | done]. }
  apply wp_bind, wp_set_statics. cbn [fst snd].
  match goal with |- wp _ _ ?x => set (ws3 := x) end.
  assert (E3 : creds ws3.2 = read_into r (creds ws.2)) by done.
  case_if.
  - apply andb_prop in Heqb2 as [Hv Hlen]. decided. apply Nat.eqb_eq in Hlen.
    apply wp_bind, wp_set_statics. cbn [fst snd]. apply wp_bind, wp_gets.
    match goal with |- context [setup_flag_bad r ?c] => change c with (adopt_stored r (read_into r (creds ws.2))) end.
    case_if; [by apply wp_set_statics, Hfail; [by apply Hq | |]|].
    apply wp_bind, wp_set_statics.
    match goal with |- wp _ _ ?x => set (ws4 := x) end.
    change (s_using_default (adopt_stored r (read_into r (creds ws.2)))) with (s_using_default (creds ws4.2)).
    apply (Hfound r ws4); [by apply Hq | done..].
  - case_if; decided; [|by apply wp_set_statics, Hfail; [by apply Hq | |]].
    apply Hnone; [by apply Hq|]. by apply Hr'.
Qed.

(** ** A claimed device *)

(** Somebody has an account, or the record could not be read. *)
Definition claimed_account c : Prop :=
  s_verifier c = [] \/ s_loaded c = true /\ s_using_default c = false.

(** What the flash may hold under the three keys that decide it. *)
Definition claimed_value (k : nvs_key) (x : option nvs_value) : Prop :=
  (k = auth_key AUTH_PASSWORD_HASH_KEY -> exists v, v <> [] /\ x = Some (NvsStr v)) /\
  (k = auth_key AUTH_BOOTSTRAP_REQUIRED_KEY -> x = Some (NvsInt NVS_U8 0)) /\
  (k = auth_key AUTH_SETUP_KEY -> x = Some (NvsInt NVS_U8 0)).

Definition claimed_flash n : Prop := forall k x, flash n k x -> claimed_value k x.

Definition claimed ws : Prop := claimed_account (creds ws.2) /\ claimed_flash (flash_of ws).

Lemma claimed_setup c : claimed_account c -> required_setup c = false.
Proof using.
  unfold required_setup. intros [-> | [_ ->]]; [by rewrite andb_false_r | by rewrite andb_false_r].
Qed.

Lemma changed_claimed W n n' :
  (forall k v, W k v -> claimed_value k (Some v)) -> changed W n n' -> claimed_flash n -> claimed_flash n'.
Proof using.
  intros Hw Hch Hn k x Hx. destruct (proj2 (Hch k) x Hx) as [Hf|(v & Hv & ->)]; [by apply Hn | by apply Hw].
Qed.

Lemma count_claimed k v : count_only k v -> claimed_value k (Some v).
Proof using. intros ->. by repeat split. Qed.

Lemma written_claimed env u p setup k v :
  may_write env u p false setup k v -> claimed_value k (Some v).
Proof using sha256_bytes pbkdf2_bytes.
  intros (name & pw & (_ & _ & _ & _ & Hd) & key & -> & Hin). destruct (derive_text _ _ _ _ Hd) as [[Hl _] _].
  unfold new_values, record_values in Hin. rewrite !elem_of_cons in Hin.
  destruct Hin as [E|[E|[E|[E|[E|[E|E]]]]]]; [..|by apply elem_of_nil in E]; injection E as -> ->; split_and!; try done.
  intros _. eexists; split; [|reflexivity]. intros E. by rewrite E in Hl.
Qed.

Lemma replaced_claimed env u p rotate setup ws ws' :
  replaced env u p false rotate setup ws ws' -> claimed_account (creds ws'.2).
Proof using. intros (name & pw & _ & -> & _). by right. Qed.

Lemma set_credentials_claimed env u p rotate locked setup gen :
  moves (kept claimed) (set_credentials_internal b state_bytes mbedtls_sha256 mbedtls_pbkdf2_hmac_sha256
    env u p false rotate locked setup gen).
Proof using sha256_bytes pbkdf2_bytes laws.
  apply wp_kept. intros ws [Ha Hf]. eapply wp_mono; [apply set_credentials_spec|].
  intros e ws' (Hch & Hno & Hok). split.
  - destruct (decide (e = ESP_OK)) as [He|He]; [|by rewrite (proj1 (Hno He))].
    by eapply replaced_claimed, Hok.
  - eapply changed_claimed; [|exact Hch | exact Hf]. apply written_claimed.
Qed.

Lemma load_claimed env :
  moves (kept claimed) (load_credentials b state_bytes mbedtls_sha256 mbedtls_pbkdf2_hmac_sha256 env).
Proof using laws.
  apply wp_kept. intros ws [Ha Hf]. destruct (s_loaded (creds ws.2)) eqn:El.
  { unfold load_credentials. apply wp_bind, wp_gets. by rewrite El; apply wp_ret. }
  assert (Hsame : forall ws', quietly_loading ws ws' -> claimed_flash (flash_of ws')).
  { intros ws' (_ & E & _) k x. rewrite E. apply Hf. }
  apply load_account_spec; [done|..].
  - intros ws' Hq _ Hv. split; [by left | by apply Hsame].
  - intros r ws' Hq (_ & _ & _ & _ & _ & [Hb _] & _) _ _ Ec.
    assert (Hd : s_using_default (creds ws'.2) = false).
    { rewrite Ec. cbn [found_account adopt_stored s_using_default set].
      change (bool_decide ((st_bootstrap r).1 = ESP_OK) && ((st_bootstrap r).2 =? 1) = false).
      case_bool_decide as He; [|done]. specialize (Hb He).
      destruct (Hf _ _ (flash_contents _ (auth_key AUTH_BOOTSTRAP_REQUIRED_KEY))) as (_ & H0 & _).
      rewrite Hb in H0. specialize (H0 eq_refl). injection H0 as ->. done. }
    rewrite Hd. apply wp_ret. split; [right; split; [by rewrite Ec | done] | by apply Hsame].
  - intros ws' Hq Hno. exfalso.
    destruct (Hf _ _ (flash_contents _ (auth_key AUTH_PASSWORD_HASH_KEY))) as (H0 & _).
    destruct (H0 eq_refl) as (v & Hv & E). by apply (Hno v).
Qed.

Lemma beside_claimed {A} (m : st auth_world A) : moves (kept claimed) (beside (S := cred_world N) m).
Proof using. intros ws Hc. unfold beside. by destruct (m ws.1). Qed.

Lemma statics_claimed f :
  (forall c, claimed_account c -> claimed_account (f c)) -> moves (kept claimed) (set_statics f).
Proof using. intros Hf ws [Ha Hn]. split; [by apply Hf | exact Hn]. Qed.

Lemma store_claimed {A} (m : st (system N) A) :
  (forall d, wp m (fun _ d' => claimed_flash (nvs d) -> claimed_flash (nvs d')) d) ->
  moves (kept claimed) (on_store m).
Proof using.
  intros Hm. apply wp_kept. intros ws [Ha Hf]. apply wp_on_store.
  eapply wp_mono; [apply Hm|]. intros a d Hd. split; [exact Ha | by apply Hd].
Qed.

Lemma login_count_claimed : moves (kept claimed) si_auth_login_count.
Proof using laws.
  unfold si_auth_login_count, current_credentials. moves_go.
  apply store_claimed. intros d. eapply wp_mono; [apply read_login_count_spec|].
  intros n d' (_ & E) Hn k x. rewrite E. apply Hn.
Qed.

Lemma record_login_claimed : moves (kept claimed) si_auth_record_login.
Proof using laws.
  unfold si_auth_record_login. apply moves_bind; [apply _ | apply login_count_claimed | intros n].
  apply moves_bind; [apply _ | | intros saved; apply moves_when; [apply _ | by apply statics_claimed]].
  apply store_claimed. intros d. eapply wp_mono; [apply write_login_count_spec|].
  intros x d' Hch. apply (changed_claimed _ _ _ count_claimed Hch).
Qed.

(** An account that nobody can read matches no password. *)
Lemma no_verifier_matches c password :
  s_verifier c = [] ->
  bool_decide ((digest_of c password).1 = ESP_OK) && secure_equal (digest_of c password).2 (s_verifier c) = false.
Proof using sha256_bytes pbkdf2_bytes.
  intros ->. destruct (digest_of c password) as [e v] eqn:Ed. cbn [fst snd].
  case_bool_decide as He; [|done]. subst e. destruct (digest_of_text _ _ _ Ed) as [Hl Hv].
  apply not_true_is_false. intros Hs. apply (secure_equal_text v []) in Hs; [|done | by constructor].
  by rewrite Hs in Hl.
Qed.

Lemma match_claimed boot env u p :
  moves (kept claimed) (si_auth_credentials_match b state_bytes mbedtls_sha256 mbedtls_pbkdf2_hmac_sha256 boot env u p).
Proof using sha256_bytes pbkdf2_bytes laws.
  unfold si_auth_credentials_match, si_auth_account_setup_required, current_credentials.
  apply moves_bind; [apply _ | by moves_go | intros setup].
  destruct u as [u|]; [|apply moves_ret, _]. destruct p as [p|]; [|apply moves_ret, _].
  case_if; [apply moves_ret, _|]. apply moves_bind; [apply _ | apply load_claimed | intros []].
  apply moves_bind; [apply _ | apply beside_claimed | intros made].
  case_if; [apply moves_ret, _|]. apply wp_kept. intros ws Hc. apply wp_bind, wp_gets. cbv zeta.
  case_if; [|by apply wp_ret]. apply wp_bind.
  destruct (proj1 Hc) as [Hv|[_ Hd]].
  - exfalso. pose proof (no_verifier_matches (creds ws.2) p Hv) as Hn.
    match goal with Hx : _ = true |- _ => apply andb_prop in Hx as [Hx _]; apply andb_prop in Hx as [Hx _] end.
    destruct (bool_decide _), (secure_equal u _), (secure_equal _ _) in *; done.
  - rewrite Hd. eapply wp_mono; [apply kept_wp; [apply set_credentials_claimed | exact Hc]|].
    intros e ws' Hc'. by apply wp_ret.
Qed.

(** The calls of a device whose owner does not start it over. *)
Definition keeps_account (call : cred_call (N := N)) ws : Prop :=
  match call with
  | ResetBootstrap _ => False
  | AccountRestart n _ _ => nvs_restarts (flash_of ws) n
  | _ => True
  end.

Abbreviation exec := (cred_exec b state_bytes mbedtls_sha256 mbedtls_pbkdf2_hmac_sha256) (only parsing).

Fixpoint account_calls_ok (calls : list cred_call) ws : Prop :=
  match calls with
  | [] => True
  | call :: calls => keeps_account call ws /\ account_calls_ok calls (exec call ws).2
  end.

Fixpoint account_run (calls : list cred_call) ws : account :=
  match calls with [] => ws | call :: calls => account_run calls (exec call ws).2 end.

Lemma exec_claimed call ws : keeps_account call ws -> claimed ws -> claimed (exec call ws).2.
Proof using sha256_bytes pbkdf2_bytes laws.
  intros Hk Hc.
  assert (Hm : forall {A B} (m : st account A) (f : A -> B), moves (kept claimed) m ->
    claimed (bind m (fun a => mret (f a)) ws).2)
    by (intros A B m f Hm; specialize (Hm ws Hc); unfold bind; by destruct (m ws)).
  destruct call; cbn [cred_exec keeps_account] in *; try done.
  - apply Hm. unfold si_auth_initialize, current_credentials. apply moves_bind; [apply _ | apply load_claimed | intros _].
    apply moves_bind; [apply _ | apply beside_claimed | intros made]. by moves_go.
  - by apply match_claimed.
  - apply Hm, set_credentials_claimed.
  - apply Hm. unfold si_auth_set_credentials_for_generation. case_if; [apply moves_ret, _ | apply set_credentials_claimed].
  - apply Hm. unfold si_auth_setup_credentials, si_auth_account_setup_required, current_credentials. moves_go;
      [apply beside_claimed | apply set_credentials_claimed].
  - apply (Hm unit bool _ (fun _ => true)), record_login_claimed.
  - apply Hm. unfold si_auth_get_status, current_credentials. apply moves_bind; [apply _ | apply load_claimed | intros _].
    apply moves_bind; [apply _ | by moves_go | intros c]. apply moves_bind; [apply _ | apply beside_claimed | intros on].
    apply moves_bind; [apply _ | apply login_count_claimed | intros n]. apply moves_ret, _.
  - split; [by left|]. intros k x Hx. destruct Hc as [_ Hf]. destruct (restart_law _ _ Hk k) as [Hr Hx'].
    apply Hx' in Hx. subst x. by apply Hf.
Qed.

Lemma run_claimed calls ws : account_calls_ok calls ws -> claimed ws -> claimed (account_run calls ws).
Proof using sha256_bytes pbkdf2_bytes laws.
  revert ws. induction calls as [|call calls IH]; intros ws Hok Hc; [done|]. destruct Hok as [Hk Hok].
  apply IH; [done|]. by apply exec_claimed.
Qed.

(** A call by which somebody gets the account. *)
Definition claims (call : cred_call (N := N)) : Prop :=
  match call with SetAccount _ _ _ | SetAccountFor _ _ _ _ | SetupAccount _ _ _ _ => True | _ => False end.

Ltac in_values := unfold new_values, record_values; cbn [andb]; rewrite ?elem_of_cons; tauto.

Lemma replaced_by_owner env u p rotate setup ws ws' :
  replaced env u p false rotate setup ws ws' -> claimed ws'.
Proof using sha256_bytes pbkdf2_bytes.
  intros Hr. split; [by eapply replaced_claimed|].
  destruct Hr as (name & pw & (_ & _ & _ & _ & Hd) & _ & _ & Hs & _). destruct (derive_text _ _ _ _ Hd) as [[Hl _] _].
  intros k x Hx. split_and!; intros ->.
  - destruct (Hs AUTH_PASSWORD_HASH_KEY (NvsStr (new_verifier env pw))) as [_ Hf];
      [unfold new_values; in_values | rewrite (Hf x Hx)].
    eexists; split; [|reflexivity]. intros E. by rewrite E in Hl.
  - destruct (Hs AUTH_BOOTSTRAP_REQUIRED_KEY (NvsInt NVS_U8 0)) as [_ Hf]; [in_values | exact (Hf x Hx)].
  - destruct (Hs AUTH_SETUP_KEY (NvsInt NVS_U8 0)) as [_ Hf]; [in_values | exact (Hf x Hx)].
Qed.

Lemma claim_claimed call ws : claims call -> (exec call ws).1 = true -> claimed (exec call ws).2.
Proof using sha256_bytes pbkdf2_bytes laws.
  assert (Hm : forall m : st account esp_err_t, wp m (fun e ws' => e = ESP_OK -> claimed ws') ws ->
    (bind m (fun e => mret (bool_decide (e = ESP_OK))) ws).1 = true ->
    claimed (bind m (fun e => mret (bool_decide (e = ESP_OK))) ws).2).
  { intros m Hw. unfold wp, bind in *. destruct (m ws) as [e ws']. cbn [fst snd] in *.
    intros He. apply Hw. exact (proj1 (bool_decide_eq_true _) He). }
  assert (Hset : forall env u p locked gen ws, wp (set_credentials_internal b state_bytes mbedtls_sha256
    mbedtls_pbkdf2_hmac_sha256 env u p false true locked false gen) (fun e ws' => e = ESP_OK -> claimed ws') ws).
  { intros env u p locked gen ws0. eapply wp_mono; [apply set_credentials_spec|].
    intros e ws' (_ & _ & Hok) He. by eapply replaced_by_owner, Hok. }
  intros Hc. destruct call; try done; cbn [cred_exec]; apply Hm.
  - apply Hset.
  - unfold si_auth_set_credentials_for_generation. case_if; [by apply wp_ret | apply Hset].
  - unfold si_auth_setup_credentials. apply wp_bind, wp_gets. case_if; [by apply wp_ret|].
    apply wp_bind, wp_bind, wp_gets, wp_ret, wp_bind, wp_beside, wp_gets.
    case_if; [rewrite <- surjective_pairing; apply Hset | by apply wp_ret].
Qed.

(** C32: a device that has an owner is never up for grabs again. Once an account was
    set up or changed, the device does not ask for a first account and refuses to
    create one, after any calls, any failed or interrupted writes and any losses of
    power, until its owner resets it locally. *)
Theorem claimed_stays_claimed claim calls ws env u p gen :
  claims claim -> (exec claim ws).1 = true -> account_calls_ok calls (exec claim ws).2 ->
  let ws' := account_run calls (exec claim ws).2 in
  required_setup (creds ws'.2) = false /\ (exec (SetupAccount env u p gen) ws').1 = false.
Proof using sha256_bytes pbkdf2_bytes laws.
  intros Hc He Hok ws'. pose proof (run_claimed calls _ Hok (claim_claimed _ _ Hc He)) as [Ha _].
  change (claimed_account (creds ws'.2)) in Ha. apply claimed_setup in Ha. split; [done|].
  cbn [cred_exec]. unfold si_auth_setup_credentials, si_auth_account_setup_required, current_credentials, bind, gets.
  destruct (negb _); [done|]. cbn [fst snd]. rewrite Ha. done.
Qed.

(** ** The login that an account admits *)

Definition admits c (u p : cstring) : Prop :=
  u = s_username c /\ (length p <= SI_AUTH_PASSWORD_MAX_LEN)%nat /\ digest_of c p = (ESP_OK, s_verifier c).

(** A record in the format of the build. *)
Record current_format c : Prop := mk_current_format {
  current_loaded : s_loaded c = true;
  current_salted : s_legacy_password c = false;
  current_iterations : s_iterations c = AUTH_PASSWORD_ITERATIONS b;
  current_name : cstring_ok (s_username c);
  current_verifier : digest_text (s_verifier c)
}.

Lemma match_exact boot env u p ws c :
  required_setup (creds ws.2) = false -> current_format c -> cstring_ok u ->
  wp (load_credentials b state_bytes mbedtls_sha256 mbedtls_pbkdf2_hmac_sha256 boot)
    (fun _ ws1 => creds ws1.2 = c) ws ->
  credentials_mutex env = true -> credentials_in_time env = true ->
  wp (si_auth_credentials_match b state_bytes mbedtls_sha256 mbedtls_pbkdf2_hmac_sha256 boot env (Some u) (Some p))
    (fun r _ => r = true <-> admits c u p) ws.
Proof using sha256_bytes pbkdf2_bytes.
  intros Hs [Hl Hleg Hit Hn Hv] Hu Hload Hmx Hit'. unfold si_auth_credentials_match.
  apply wp_bind, wp_bind, wp_gets, wp_ret. rewrite Hs, orb_false_r.
  unfold admits. destruct (Nat.ltb_spec SI_AUTH_PASSWORD_MAX_LEN (length p)) as [Hlen|Hlen].
  { apply wp_ret. split; [done|]. intros (_ & H0 & _). lia. }
  apply wp_bind. eapply wp_mono; [exact Hload|]. intros [] ws1 E1.
  apply wp_bind. unfold ensure_credentials_lock. apply wp_beside, wp_on_auth. cbn [fst snd].
  rewrite Hmx, Hit', orb_true_r. cbn [negb andb].
  apply wp_bind, wp_gets. cbv zeta. cbn [snd]. rewrite E1, Hleg, Hit, Z.eqb_refl. cbn [orb negb].
  rewrite andb_false_r. cbn [andb]. apply wp_ret.
  destruct (digest_of c p) as [e v] eqn:Ed. cbn [fst snd].
  rewrite !andb_true_iff, bool_decide_eq_true, (secure_equal_text u (s_username c)) by done.
  split.
  - intros [[-> ->] Hsec]. split_and!; [done..|]. apply secure_equal_text in Hsec as ->; [done | | apply Hv].
    by eapply digest_of_text.
  - intros (-> & _ & E). injection E as -> ->. split_and!; [done..|]. apply secure_equal_text; [apply Hv | apply Hv | done].
Qed.

(** ** Every later start finds the account *)

(** The reads of a start succeed. *)
Definition readable (s : system N) : bool :=
  let '(o, s1) := si_settings_store_open_read (Some SI_SETTINGS_STORE_INITIALIZER) (Some AUTH_NAMESPACE) s in
  bool_decide (o.1 = ESP_OK) &&
  let r := (read_credentials o.2 s1).1 in
  bool_decide ((st_verifier r).1 = ESP_OK) && bool_decide ((st_salt r).1 = ESP_OK) &&
  bool_decide ((st_iterations r).1 = ESP_OK) && bool_decide ((st_username r).1 = ESP_OK) &&
  bool_decide ((st_bootstrap r).1 = ESP_OK) && bool_decide ((st_setup r).1 = ESP_OK).

Lemma new_account_format env name pw setup c u p :
  acceptable env u p name pw -> current_format (new_account env name pw false setup c).
Proof using sha256_bytes pbkdf2_bytes.
  intros (-> & _ & Hu & _ & Hd). destruct (valid_username _ Hu) as (name' & E & Hn & _).
  injection E as <-. destruct (derive_text _ _ _ _ Hd) as [Hv _]. by split.
Qed.

(** What the reads of an account find, and what becomes of it. *)
Definition reads_of (name v salt : cstring) : stored :=
  mk_stored (ESP_OK, v) (ESP_OK, salt) (ESP_OK, AUTH_PASSWORD_ITERATIONS b) (ESP_OK, name) (ESP_OK, 0) (ESP_OK, 0).

Lemma settled_reads name v salt n (r : stored) :
  (forall k x, (k, x) ∈ record_values name v salt (AUTH_PASSWORD_ITERATIONS b) false false ->
     contents n !! auth_key k = Some x) ->
  stored_reads n r ->
  (st_verifier r).1 = ESP_OK -> (st_salt r).1 = ESP_OK -> (st_iterations r).1 = ESP_OK ->
  (st_username r).1 = ESP_OK -> (st_bootstrap r).1 = ESP_OK -> (st_setup r).1 = ESP_OK ->
  r = reads_of name v salt.
Proof using.
  assert (Hit : u32 (AUTH_PASSWORD_ITERATIONS b) = AUTH_PASSWORD_ITERATIONS b)
    by (unfold AUTH_PASSWORD_ITERATIONS; by destruct (SI_CFG_AUTH_PASSWORD_PBKDF2 b)).
  destruct r as [[ev rv] [es rs] [ei ri] [eu ru] [eb rb] [ef rf]]. cbn [st_verifier st_salt st_iterations st_username st_bootstrap st_setup fst].
  intros Hc (Hv & _ & Hs & [Hi _] & [Hu _] & [Hb _] & [Hf _]) -> -> -> -> -> ->. cbn [fst snd st_verifier st_salt st_iterations st_username st_bootstrap st_setup] in *.
  specialize (Hv eq_refl). specialize (Hs eq_refl). specialize (Hi eq_refl). specialize (Hu eq_refl).
  specialize (Hb eq_refl). specialize (Hf eq_refl).
  rewrite (Hc _ (NvsStr v)) in Hv by in_values. rewrite (Hc _ (NvsStr salt)) in Hs by in_values.
  rewrite (Hc _ (NvsInt NVS_U32 (u32 (AUTH_PASSWORD_ITERATIONS b)))) in Hi by in_values.
  rewrite (Hc _ (NvsStr name)) in Hu by in_values. rewrite (Hc _ (NvsInt NVS_U8 0)) in Hb by in_values.
  rewrite (Hc _ (NvsInt NVS_U8 0)) in Hf by in_values. rewrite Hit in Hi. unfold reads_of. congruence.
Qed.

Lemma found_reads name v salt :
  si_auth_validate_username (Some name) = ESP_OK -> length salt = AUTH_SALT_HEX_LEN ->
  strtrunc (SI_AUTH_USERNAME_MAX_LEN + 1) name = name ->
  let r := reads_of name v salt in
  adopt_stored r (read_into r credentials_started) =
    mk_credentials name v salt (AUTH_PASSWORD_ITERATIONS b) false false false false false 0.
Proof using.
  intros Hu Hs Etr. unfold adopt_stored, read_into, reads_of, or_kept.
  cbn [st_verifier st_salt st_iterations st_username st_bootstrap st_setup fst snd].
  rewrite Hu, Etr. change (bool_decide (ESP_OK = ESP_OK)) with true. cbn [andb negb orb].
  match goal with |- context [(length ?l =? AUTH_SALT_HEX_LEN)%nat] => change l with salt end.
  rewrite Hs, Nat.eqb_refl. cbn [andb negb orb].
  match goal with |- context [salted_iterations ?x] => change x with (AUTH_PASSWORD_ITERATIONS b) end.
  assert (Hsalt : salted_iterations (AUTH_PASSWORD_ITERATIONS b) = true)
    by (unfold AUTH_PASSWORD_ITERATIONS; by destruct (SI_CFG_AUTH_PASSWORD_PBKDF2 b)).
  by rewrite Hsalt.
Qed.

(** A start that reads the record. *)
Lemma load_readable env u p name pw boot n f a :
  acceptable env u p name pw -> settled (new_values env name pw false false) n -> readable (mk_system n f) = true ->
  wp (load_credentials b state_bytes mbedtls_sha256 mbedtls_pbkdf2_hmac_sha256 boot)
    (fun _ ws => creds ws.2 = new_account env name pw false false credentials_started)
    (a, mk_cred_world credentials_started (mk_system n f)).
Proof using sha256_bytes pbkdf2_bytes laws.
  intros (-> & _ & Hu & _ & Hd) Hs Hr. destruct (valid_username _ Hu) as (name' & E & Hn & _ & Etr).
  injection E as <-. destruct (derive_text _ _ _ _ Hd) as [[Lv _] Ls].
  unfold load_credentials. apply wp_bind, wp_gets. cbn [fst snd creds s_loaded credentials_started].
  apply wp_bind, wp_set_statics. cbn [fst snd creds]. apply wp_bind, wp_on_store, wp_intro. cbn [fst snd cred_disk set].
  pose proof (open_read_spec AUTH_NAMESPACE (mk_system n f) ltac:(done)) as Ho.
  unfold readable in Hr. unfold wp in Ho.
  destruct (si_settings_store_open_read _ _ (mk_system n f)) as [o d1]. cbn [fst snd] in *.
  apply andb_prop in Hr as [Hok Hr]. decided. destruct Ho as (C1 & _ & Ho & _). destruct (Ho Hok) as (h & Eo & Hh).
  rewrite Hok. change (bool_decide (ESP_OK = ESP_ERR_NOT_FOUND)) with false.
  change (negb (bool_decide (ESP_OK = ESP_OK))) with false. cbn iota.
  apply wp_bind, wp_on_store, wp_intro. cbn [fst snd].
  match goal with |- context [read_credentials _ ?d] => change d with d1 end.
  rewrite Eo in Hr |- *. change (bool_decide (NVS_READONLY = NVS_READWRITE)) with false in *.
  pose proof (read_credentials_spec h d1 Hh) as Hrd. unfold wp in Hrd.
  destruct (read_credentials _ d1) as [r d2]. cbn [fst snd] in *. destruct Hrd as (_ & _ & Hrd).
  rewrite !andb_true_iff, !bool_decide_eq_true in Hr. destruct Hr as (((((R1 & R2) & R3) & R4) & R5) & R6).
  assert (Er : r = reads_of name (new_verifier env pw) (hex_text (random_salt env))).
  { apply (settled_reads _ _ _ (nvs d1)); try done. intros k x Hin. rewrite C1. by apply Hs. }
  clear Hrd R1 R2 R3 R4 R5 R6. subst r.
  apply wp_bind, wp_set_statics. cbn [reads_of st_verifier fst snd]. rewrite Lv.
  change (bool_decide (ESP_OK = ESP_OK) && (SI_AUTH_TOKEN_LEN =? SI_AUTH_TOKEN_LEN)%nat) with true. cbn iota.
  pose proof (found_reads name (new_verifier env pw) (hex_text (random_salt env)) Hu Ls Etr) as Hfound.
  apply wp_bind, wp_set_statics, wp_bind, wp_gets.
  match goal with |- context [setup_flag_bad _ ?c] => set (c1 := c) end.
  assert (Ec : c1 = mk_credentials name (new_verifier env pw) (hex_text (random_salt env))
    (AUTH_PASSWORD_ITERATIONS b) false false false false false 0) by exact Hfound.
  assert (Hbad : setup_flag_bad (reads_of name (new_verifier env pw) (hex_text (random_salt env))) c1 = false)
    by by rewrite Ec.
  assert (Hdef : s_using_default c1 = false) by by rewrite Ec.
  rewrite Hbad, Hdef. apply wp_bind, wp_set_statics, wp_ret.
  etrans; [exact (eq_refl ((c1 <| s_setup_pending := false |>) <| s_loaded := true |>))|]. by rewrite Ec.
Qed.

Lemma load_loaded env ws :
  s_loaded (creds ws.2) = true ->
  wp (load_credentials b state_bytes mbedtls_sha256 mbedtls_pbkdf2_hmac_sha256 env)
    (fun _ ws1 => creds ws1.2 = creds ws.2) ws.
Proof using. intros El. unfold load_credentials. apply wp_bind, wp_gets. by rewrite El; apply wp_ret. Qed.

(** The states in which an account of [name] and [pw] is the one of the device:
    where it was set, and every later start that can read the record. *)
Definition has_account ws ws' : Prop :=
  ws' = ws \/ exists n f a, nvs_restarts (flash_of ws) n /\ readable (mk_system n f) = true /\
                            ws' = (exec (AccountRestart n f a) ws).2.

(** A change of the account takes effect at once and for good. When it succeeds,
    no session that was open is left and logins checked before are refused; and from
    then on, and after every restart that can read the record, exactly the new name
    with a password of the new digest is a login. *)
Theorem account_settles env u p ws :
  let r := si_auth_set_credentials b state_bytes mbedtls_sha256 mbedtls_pbkdf2_hmac_sha256 env u p ws in
  r.1 = ESP_OK ->
  length (sessions (retained (auth ws.1))) = AUTH_SESSION_SLOTS -> has_lock (revoke_env env) ws.1 = true ->
  exists name pw, u = Some name /\ p = Some pw /\
    no_session (live_table state_bytes (auth r.2.1)) /\
    credential_generation (auth r.2.1) = u32 (credential_generation (auth ws.1) + 1) /\
    forall ws', has_account r.2 ws' ->
    forall boot env' u' p', cstring_ok u' -> credentials_mutex env' = true -> credentials_in_time env' = true ->
      (si_auth_credentials_match b state_bytes mbedtls_sha256 mbedtls_pbkdf2_hmac_sha256 boot env'
         (Some u') (Some p') ws').1 = true <->
      u' = name /\ (length p' <= SI_AUTH_PASSWORD_MAX_LEN)%nat /\
      derive p' (hex_text (random_salt env)) (AUTH_PASSWORD_ITERATIONS b) =
      derive pw (hex_text (random_salt env)) (AUTH_PASSWORD_ITERATIONS b).
Proof using sha256_bytes pbkdf2_bytes laws.
  intros r Hr L Hl. pose proof (set_credentials_spec env u p false true false false 0 ws) as Hsp.
  unfold wp in Hsp. change (set_credentials_internal b state_bytes mbedtls_sha256 mbedtls_pbkdf2_hmac_sha256
    env u p false true false false 0 ws) with r in Hsp. clearbody r.
  destruct Hsp as (_ & _ & Hok). destruct (Hok Hr) as (_ & name & pw & Ha & Ec & _ & Hset & Hg & Hn).
  exists name, pw. destruct Ha as (Eu & Ep & Hrest). assert (Ha : acceptable env u p name pw) by done.
  split_and!; [done | done | by apply Hn | done |].
  intros ws' Hacc boot env' u' p' Hu' Hmx Hin.
  assert (Hm : forall c0, required_setup (creds ws'.2) = false ->
    wp (load_credentials b state_bytes mbedtls_sha256 mbedtls_pbkdf2_hmac_sha256 boot)
      (fun _ ws1 => creds ws1.2 = new_account env name pw false false c0) ws' ->
    (si_auth_credentials_match b state_bytes mbedtls_sha256 mbedtls_pbkdf2_hmac_sha256 boot env'
       (Some u') (Some p') ws').1 = true <-> admits (new_account env name pw false false c0) u' p').
  { intros c0 Hs Hload. apply (match_exact boot env' u' p' ws' _ Hs); try done. by eapply new_account_format. }
  assert (Had : forall c0, admits (new_account env name pw false false c0) u' p' <->
    u' = name /\ (length p' <= SI_AUTH_PASSWORD_MAX_LEN)%nat /\
    derive p' (hex_text (random_salt env)) (AUTH_PASSWORD_ITERATIONS b) =
    derive pw (hex_text (random_salt env)) (AUTH_PASSWORD_ITERATIONS b)).
  { intros c0. destruct Ha as (_ & _ & _ & _ & Hd). rewrite Hd. reflexivity. }
  destruct Hacc as [->|(n & f & a & Hrs & Hread & ->)].
  - rewrite (Hm (creds ws.2)); [apply Had | by apply claimed_setup; right; rewrite Ec |]. rewrite <- Ec. apply load_loaded. by rewrite Ec.
  - rewrite (Hm credentials_started); [apply Had | done |].
    eapply load_readable; [exact Ha | | exact Hread]. intros k v Hin'.
    destruct (Hset k v Hin') as [_ Hf]. destruct (restart_law _ _ Hrs (auth_key k)) as [Hc Hx].
    split; [by apply Hf|]. intros x Hx0. rewrite (Hx x Hx0). by apply Hf.
Qed.

(** ** A device that nobody claimed *)

(** Nobody can log in. *)
Definition closed ws : Prop :=
  mirrored ws /\ s_loaded (creds ws.2) = true /\ (s_verifier (creds ws.2) = [] \/ required_setup (creds ws.2) = true).

Lemma closed_refuses ws :
  closed ws ->
  (forall boot env u p, (si_auth_credentials_match b state_bytes mbedtls_sha256 mbedtls_pbkdf2_hmac_sha256
     boot env u p ws).1 = false) /\
  (forall senv client gen m,
     (si_auth_create_session_for_method state_bytes mbedtls_sha256 senv client gen m ws.1).1.1 <> ESP_OK).
Proof using sha256_bytes pbkdf2_bytes.
  intros ([M1 M2] & Hl & Hc). split.
  - intros boot env u p.
    change (wp (si_auth_credentials_match b state_bytes mbedtls_sha256 mbedtls_pbkdf2_hmac_sha256 boot env u p)
      (fun r _ => r = false) ws). unfold si_auth_credentials_match. apply wp_bind, wp_bind, wp_gets, wp_ret.
    destruct u as [u|]; [|by apply wp_ret]. destruct p as [p|]; [|by apply wp_ret].
    case_if; [by apply wp_ret|]. apply orb_false_iff in Heqb0 as [_ Hs].
    destruct Hc as [Hv|Hs']; [|congruence].
    apply wp_bind. eapply wp_mono; [by apply load_loaded|]. intros [] ws1 E1. apply wp_bind.
    unfold ensure_credentials_lock. apply wp_beside, wp_on_auth. cbn [fst snd].
    case_if; [by apply wp_ret|]. apply wp_bind, wp_gets. cbv zeta. cbn [snd]. rewrite E1.
    pose proof (no_verifier_matches (creds ws.2) p Hv) as Hn.
    assert (E : bool_decide ((digest_of (creds ws.2) p).1 = ESP_OK) && secure_equal u (s_username (creds ws.2)) &&
                secure_equal (digest_of (creds ws.2) p).2 (s_verifier (creds ws.2)) = false).
    { destruct (bool_decide _), (secure_equal u _); cbn [andb] in *; done. }
    rewrite E. by apply wp_ret.
  - intros senv client gen m. unfold si_auth_create_session_for_method, si_auth_is_enabled, ensure_lock, on_auth,
      si_auth_setup_required, bind, gets.
    assert (Hx : is_empty (verifier (auth ws.1)) = true \/ negb (is_empty (verifier (auth ws.1))) && setup_required (auth ws.1) = true).
    { rewrite M1, M2. destruct Hc as [-> | Hc]; [by left|]. destruct (is_empty (s_verifier (creds ws.2))) eqn:Ev; [by left|].
      right. by rewrite Hc. }
    destruct (session_lock (auth ws.1)); cbn [fst snd auth set]; destruct (enum_of_Z m); try done;
      match goal with |- context [if negb ?e || negb ?v || ?s then _ else _] =>
        assert (Eb : negb e || negb v || s = true) end;
      try (destruct Hx as [Hx|Hx]; cbn in Hx |- *; rewrite Hx; cbn; by rewrite ?orb_true_r);
      by rewrite Eb.
Qed.

Lemma load_bootstrap_closed env ws :
  si_auth_validate_password (Some (SI_CFG_AUTH_PASSWORD b)) <> ESP_OK -> mirrored ws ->
  wp (load_bootstrap b state_bytes mbedtls_sha256 mbedtls_pbkdf2_hmac_sha256 env) (fun _ => closed) ws.
Proof using sha256_bytes pbkdf2_bytes laws.
  intros Hb Hm. unfold load_bootstrap. rewrite bool_decide_eq_false_2 by done. cbn [negb].
  apply wp_bind, wp_gets, wp_bind. eapply wp_mono; [apply set_credentials_spec|].
  intros e ws' (_ & _ & Hok). apply wp_when; intros He; decided; [by split_and!; [| |left]|].
  destruct (Hok He) as (_ & name & pw & Ha & Ec & Hm' & _). split_and!; [done | by rewrite Ec |]. right.
  destruct Ha as (_ & _ & _ & _ & Hd). destruct (derive_text _ _ _ _ Hd) as [[Hl _] _].
  rewrite Ec. unfold required_setup. cbn [new_account s_loaded s_verifier s_using_default s_setup_pending andb].
  by destruct (new_verifier env pw).
Qed.

(** A device that nobody claimed lets nobody in. On an official build without a
    record in flash, whatever the storage does at the start, no name and password is
    a login and no session can be created; only a first account can. *)
Theorem unclaimed_admits_nobody boot ws :
  s_loaded (creds ws.2) = false ->
  si_auth_validate_password (Some (SI_CFG_AUTH_PASSWORD b)) <> ESP_OK ->
  (forall v, contents (flash_of ws) !! auth_key AUTH_PASSWORD_HASH_KEY <> Some (NvsStr v)) ->
  let ws' := (load_credentials b state_bytes mbedtls_sha256 mbedtls_pbkdf2_hmac_sha256 boot ws).2 in
  (s_verifier (creds ws'.2) = [] \/ required_setup (creds ws'.2) = true) /\
  (forall boot' env u p, (si_auth_credentials_match b state_bytes mbedtls_sha256 mbedtls_pbkdf2_hmac_sha256
     boot' env u p ws').1 = false) /\
  (forall senv client gen m,
     (si_auth_create_session_for_method state_bytes mbedtls_sha256 senv client gen m ws'.1).1.1 <> ESP_OK).
Proof using sha256_bytes pbkdf2_bytes laws.
  intros Hl Hb Hno ws'.
  assert (Hc : closed ws'); [|split; [apply Hc | by apply closed_refuses]].
  change (wp (load_credentials b state_bytes mbedtls_sha256 mbedtls_pbkdf2_hmac_sha256 boot) (fun _ => closed) ws).
  apply load_account_spec; [done|..].
  - intros ws1 (_ & _ & _ & Hm) Hl1 Hv. by split_and!; [| |left].
  - intros r ws1 _ [Hv _] He _ _. by destruct (Hno (st_verifier r).2); apply Hv.
  - intros ws1 (_ & _ & _ & Hm) _. by apply load_bootstrap_closed.
Qed.
End account.

(** ** A concrete device *)

Definition demo_build : build := mk_build [] [] false.

Definition demo_pbkdf2 (password : cstring) (salt : list Z) (iterations : Z) : option (list Z) := None.

Definition demo_cred_env (salt : Z) : cred_env :=
  mk_cred_env true true (replicate 16 salt) (replicate 16 salt) (demo_auth_env 2000 0).

Definition demo_account : account (N := ram) :=
  (demo_session_world, mk_cred_world credentials_started (mk_system (mk_ram ∅ ∅ None) demo_flash)).

Abbreviation demo_cred_exec := (cred_exec demo_build demo_layout demo_sha256 demo_pbkdf2).

Lemma demo_pbkdf2_bytes password salt iterations digest :
  demo_pbkdf2 password salt iterations = Some digest ->
  length digest = AUTH_VERIFIER_BYTES /\ Forall is_byte digest.
Proof. done. Qed.

(** The start of an unclaimed device, and its first account. *)
Definition demo_unclaimed : account (N := ram) := (demo_cred_exec (LoadAccount (demo_cred_env 3)) demo_account).2.

Definition demo_claim : cred_call (N := ram) :=
  SetupAccount (demo_cred_env 4) (Some (cstr "owner")) (Some (cstr "correct-horse"))
    (credential_generation (auth demo_unclaimed.1)).

(** A login, a failing change, a restart, and another start. *)
Definition demo_claimed_flash : ram :=
  let n := nvs (cred_disk (demo_cred_exec demo_claim demo_unclaimed).2.2) in mk_ram (cur n) (cur n) None.

Definition demo_account_calls : list (cred_call (N := ram)) :=
  [Match (demo_cred_env 5) (demo_cred_env 5) (Some (cstr "owner")) (Some (cstr "correct-horse"));
   AccountRestart demo_claimed_flash demo_flash demo_session_world; LoadAccount (demo_cred_env 6)].

Lemma claimed_stays_claimed_witness :
  (demo_cred_exec demo_claim demo_unclaimed).1 = true /\
  let ws' := account_run demo_build demo_layout demo_sha256 demo_pbkdf2 demo_account_calls
               (demo_cred_exec demo_claim demo_unclaimed).2 in
  required_setup (creds ws'.2) = false /\
  (demo_cred_exec (SetupAccount (demo_cred_env 7) (Some (cstr "thief")) (Some (cstr "password")) 1) ws').1 = false.
Proof.
  assert (Hr : (demo_cred_exec demo_claim demo_unclaimed).1 = true) by by_eval.
  split; [exact Hr|].
  refine (claimed_stays_claimed demo_build demo_layout demo_sha256 demo_pbkdf2 demo_sha256_bytes demo_pbkdf2_bytes
    demo_claim demo_account_calls demo_unclaimed _ _ _ _ I Hr _).
  refine (conj I (conj _ (conj I I))). split; [reflexivity | intros k; left; reflexivity].
Defined.

Lemma unclaimed_admits_nobody_witness :
  let ws' := (load_credentials demo_build demo_layout demo_sha256 demo_pbkdf2 (demo_cred_env 3) demo_account).2 in
  required_setup (creds ws'.2) = true /\
  (si_auth_credentials_match demo_build demo_layout demo_sha256 demo_pbkdf2 (demo_cred_env 3) (demo_cred_env 3)
     (Some (cstr "admin")) (Some (cstr "admin")) ws').1 = false.
Proof.
  split; [by_eval|].
  refine (proj1 (proj2 (unclaimed_admits_nobody demo_build demo_layout demo_sha256 demo_pbkdf2
    demo_sha256_bytes demo_pbkdf2_bytes (demo_cred_env 3) demo_account eq_refl _ _)) _ _ _ _).
  - discriminate.
  - discriminate.
Defined.

(** The owner changes the name and the password; the new login works after a restart. *)
Definition demo_owned : account (N := ram) := (demo_cred_exec demo_claim demo_unclaimed).2.

Abbreviation demo_changed :=
  (si_auth_set_credentials demo_build demo_layout demo_sha256 demo_pbkdf2 (demo_cred_env 8)
    (Some (cstr "admin")) (Some (cstr "battery-staple")) demo_owned).

Definition demo_changed_flash : ram :=
  let n := nvs (cred_disk demo_changed.2.2) in mk_ram (cur n) (cur n) None.

Lemma demo_changed_ok : demo_changed.1 = ESP_OK.
Proof. by_eval. Qed.

Lemma demo_owned_table : length (sessions (retained (auth demo_owned.1))) = AUTH_SESSION_SLOTS.
Proof. by_eval. Qed.

Lemma demo_changed_restarts : nvs_restarts (nvs (cred_disk demo_changed.2.2)) demo_changed_flash.
Proof. split; [reflexivity | intros k; left; reflexivity]. Qed.

Lemma demo_changed_readable : readable (mk_system demo_changed_flash demo_flash) = true.
Proof. by_eval. Qed.

Abbreviation demo_restarted :=
  (demo_cred_exec (AccountRestart demo_changed_flash demo_flash demo_session_world) demo_changed.2).2.

Lemma demo_restarted_account : has_account demo_build demo_layout demo_sha256 demo_pbkdf2 demo_changed.2 demo_restarted.
Proof.
  right. exists demo_changed_flash, demo_flash, demo_session_world.
  exact (conj demo_changed_restarts (conj demo_changed_readable eq_refl)).
Qed.

Lemma account_settles_witness :
  exists name pw, Some (cstr "admin") = Some name /\ Some (cstr "battery-staple") = Some pw /\
    no_session (live_table demo_layout (auth demo_changed.2.1)) /\
    (si_auth_credentials_match demo_build demo_layout demo_sha256 demo_pbkdf2 (demo_cred_env 9) (demo_cred_env 9)
       (Some (cstr "admin")) (Some (cstr "battery-staple")) demo_restarted).1 = true /\
    forall p', (si_auth_credentials_match demo_build demo_layout demo_sha256 demo_pbkdf2 (demo_cred_env 9)
                  (demo_cred_env 9) (Some (cstr "admin")) (Some p') demo_restarted).1 = true ->
      derive_password demo_sha256 demo_pbkdf2 p' (hex_text (random_salt (demo_cred_env 8))) (AUTH_PASSWORD_ITERATIONS demo_build) =
      derive_password demo_sha256 demo_pbkdf2 pw (hex_text (random_salt (demo_cred_env 8))) (AUTH_PASSWORD_ITERATIONS demo_build).
Proof.
  destruct (account_settles demo_build demo_layout demo_sha256 demo_pbkdf2 demo_sha256_bytes demo_pbkdf2_bytes
    (demo_cred_env 8) (Some (cstr "admin")) (Some (cstr "battery-staple")) demo_owned
    demo_changed_ok demo_owned_table (eq_refl true)) as (name & pw & E1 & E2 & Hn & _ & Hm).
  exists name, pw. refine (conj E1 (conj E2 (conj Hn (conj _ _)))); [by_eval|]. intros p' Hr.
  assert (Ha : cstring_ok (cstr "admin")) by by repeat constructor.
  exact (proj2 (proj2 (proj1 (Hm demo_restarted demo_restarted_account (demo_cred_env 9) (demo_cred_env 9)
    (cstr "admin") p' Ha eq_refl eq_refl) Hr))).
Defined.
