(* ===== verification/NetworkSettings.v ===== *)
(** * Network settings: [application/network_settings.c]

    The active network configuration and the staged one, in two slots of the flash:
    a change is staged, marked pending while it is tried out, and confirmed or
    rolled back; a start that finds it pending rolls it back. *)

From Stdlib Require Import String.
From S2P Require Import Prelude CText Firmware NetworkConfig SettingsStore.

Definition NETWORK_SETTINGS_NAMESPACE : cstring := cstr "si_net_cfg".
Definition NETWORK_SLOT_A : Z := 1.
Definition NETWORK_SLOT_B : Z := 2.
Definition KEY_ACTIVE : cstring := cstr "active".
Definition KEY_STAGED : cstring := cstr "staged".
Definition KEY_PENDING : cstring := cstr "pending".
Definition SI_NETWORK_IPV4_TEXT_MAX_LEN : nat := 15.

#[export] Instance eta_network_config : Settable si_network_config_t := fun c =>
  mk_network_config (schema_version c) (generation c) (mode c) (autoip_fallback c) (hostname c)
    (address c) (netmask c) (gateway c) (dns_primary c) (dns_secondary c).

Definition zero_config : si_network_config_t := mk_network_config 0 0 0 false [] [] [] [] [] [].

Record si_network_settings_status_t := mk_net_status {
  active : si_network_config_t;
  staged : si_network_config_t;
  active_slot : Z;
  staged_slot : Z;
  pending_slot : Z;
  have_staged : bool;
  pending : bool;
  recovered_pending : bool
}.

#[export] Instance eta_net_status : Settable si_network_settings_status_t := fun s =>
  mk_net_status (active s) (staged s) (active_slot s) (staged_slot s) (pending_slot s)
    (have_staged s) (pending s) (recovered_pending s).

Definition zero_status : si_network_settings_status_t :=
  mk_net_status zero_config zero_config 0 0 0 false false false.

Record slot_keys_t := mk_slot_keys {
  key_schema : cstring;
  key_generation : cstring;
  key_mode : cstring;
  key_autoip : cstring;
  key_hostname : cstring;
  key_address : cstring;
  key_netmask : cstring;
  key_gateway : cstring;
  key_dns_primary : cstring;
  key_dns_secondary : cstring
}.

Definition SLOT_A_KEYS : slot_keys_t :=
  mk_slot_keys (cstr "a_schema") (cstr "a_gen") (cstr "a_mode") (cstr "a_auto") (cstr "a_host")
    (cstr "a_ip") (cstr "a_mask") (cstr "a_gw") (cstr "a_dns1") (cstr "a_dns2").

Definition SLOT_B_KEYS : slot_keys_t :=
  mk_slot_keys (cstr "b_schema") (cstr "b_gen") (cstr "b_mode") (cstr "b_auto") (cstr "b_host")
    (cstr "b_ip") (cstr "b_mask") (cstr "b_gw") (cstr "b_dns1") (cstr "b_dns2").

Definition slot_valid (slot : Z) : bool := (slot =? NETWORK_SLOT_A) || (slot =? NETWORK_SLOT_B).

Definition other_slot (slot : Z) : Z := if slot =? NETWORK_SLOT_A then NETWORK_SLOT_B else NETWORK_SLOT_A.

Definition keys_for_slot (slot : Z) : option slot_keys_t :=
  return_if slot =? NETWORK_SLOT_A with Some SLOT_A_KEYS ;;
  return_if slot =? NETWORK_SLOT_B with Some SLOT_B_KEYS ;;
  None.

(** The cached status, when it is valid, and the flash. *)
Record net_world (N : Type) := mk_net_world {
  s_cached_status : option si_network_settings_status_t;
  net_disk : system N
}.
Arguments mk_net_world {N} _ _.
Arguments s_cached_status {N} _.
Arguments net_disk {N} _.

#[export] Instance eta_net_world N : Settable (net_world N) := fun w =>
  mk_net_world (s_cached_status w) (net_disk w).

(** [if (ret == ESP_OK) ret = ...], one after the other. *)
Fixpoint steps {S} (l : list (st S esp_err_t)) : st S esp_err_t :=
  match l with
  | [] => mret ESP_OK
  | m :: l => e ← m; return_if negb (bool_decide (e = ESP_OK)) with mret e ;; steps l
  end.

(** A read that the ones after it wait for; what a failing function leaves in its
    output is never used. *)
Definition got {S A B} (m : st S (esp_err_t * A)) (none : B) (k : A -> st S (esp_err_t * B))
  : st S (esp_err_t * B) :=
  r ← m; return_if negb (bool_decide (r.1 = ESP_OK)) with mret (r.1, none) ;; k r.2.

Section network.
Context {N : Type} `{Nvs N}.
Implicit Types (store : option si_settings_store_t) (config : si_network_config_t).

Definition current_task_can_access_flash : st (system N) bool := gets (fun s => direct (access s)).

(** ** Slots *)

Definition read_optional_string store (key : cstring) (room : nat) : st (system N) (esp_err_t * cstring) :=
  r ← si_settings_store_get_string store (Some key) (Some room);
  mret (if bool_decide (r.1 = ESP_ERR_NOT_FOUND) then (ESP_OK, []) else r).

Definition read_slot store (slot : Z) : st (system N) (esp_err_t * si_network_config_t) :=
  match keys_for_slot slot with
  | None => mret (ESP_ERR_INVALID_ARG, zero_config)
  | Some keys =>
      let ipv4 key := read_optional_string store key (SI_NETWORK_IPV4_TEXT_MAX_LEN + 1)%nat in
      got (si_settings_store_get_int NVS_U32 store (Some (key_schema keys)) true) zero_config (fun schema =>
      got (si_settings_store_get_int NVS_U32 store (Some (key_generation keys)) true) zero_config (fun gen =>
      got (si_settings_store_get_int NVS_U8 store (Some (key_mode keys)) true) zero_config (fun m =>
      got (si_settings_store_get_int NVS_U8 store (Some (key_autoip keys)) true) zero_config (fun autoip =>
      got (si_settings_store_get_string store (Some (key_hostname keys)) (Some (SI_PRODUCT_HOSTNAME_MAX_LEN + 1)%nat))
        zero_config (fun host =>
      got (ipv4 (key_address keys)) zero_config (fun ip =>
      got (ipv4 (key_netmask keys)) zero_config (fun mask =>
      got (ipv4 (key_gateway keys)) zero_config (fun gw =>
      got (ipv4 (key_dns_primary keys)) zero_config (fun dns1 =>
      got (ipv4 (key_dns_secondary keys)) zero_config (fun dns2 =>
        let out := mk_network_config schema gen m (negb (autoip =? 0)) host ip mask gw dns1 dns2 in
        mret (if (si_network_config_validate (Some out) 0).1 then ESP_OK else ESP_ERR_INVALID_STATE, out)))))))))))
  end.

Definition write_slot store (slot : Z) config : st (system N) esp_err_t :=
  match keys_for_slot slot with
  | None => mret ESP_ERR_INVALID_ARG
  | Some keys =>
      steps
        [si_settings_store_set_int NVS_U32 store (Some (key_schema keys)) (schema_version config);
         si_settings_store_set_int NVS_U32 store (Some (key_generation keys)) (generation config);
         si_settings_store_set_int NVS_U8 store (Some (key_mode keys)) (u8 (mode config));
         si_settings_store_set_int NVS_U8 store (Some (key_autoip keys)) (if autoip_fallback config then 1 else 0);
         si_settings_store_set_string store (Some (key_hostname keys)) (Some (hostname config));
         si_settings_store_set_string store (Some (key_address keys)) (Some (address config));
         si_settings_store_set_string store (Some (key_netmask keys)) (Some (netmask config));
         si_settings_store_set_string store (Some (key_gateway keys)) (Some (gateway config));
         si_settings_store_set_string store (Some (key_dns_primary keys)) (Some (dns_primary config));
         si_settings_store_set_string store (Some (key_dns_secondary keys)) (Some (dns_secondary config))]
  end.

(** A slot number that may be absent. *)
Definition read_slot_number store (key : cstring) : st (system N) (esp_err_t * Z) :=
  r ← si_settings_store_get_int NVS_U8 store (Some key) true;
  mret (if bool_decide (r.1 = ESP_ERR_NOT_FOUND) then (ESP_OK, 0) else r).

Definition load_status store : st (system N) (esp_err_t * si_network_settings_status_t) :=
  got (si_settings_store_get_int NVS_U8 store (Some KEY_ACTIVE) true) zero_status (fun a =>
  return_if negb (slot_valid a) with mret (ESP_ERR_INVALID_STATE, zero_status) ;;
  got (read_slot store a) zero_status (fun active =>
  got (read_slot_number store KEY_STAGED) zero_status (fun s =>
  staged ← (if slot_valid s && negb (s =? a) then read_slot store s
            else mret (ESP_ERR_INVALID_STATE, zero_config));
  let have := bool_decide (staged.1 = ESP_OK) in
  let s := if have then s else 0 in
  got (read_slot_number store KEY_PENDING) zero_status (fun p =>
  let pending := have && (p =? s) in
  mret (ESP_OK, mk_net_status active staged.2 a s (if pending then p else 0) have pending false))))).

(** ** The calls *)

Definition on_net_disk {A} (m : st (system N) A) : st (net_world N) A := fun w =>
  let '(a, d) := m (net_disk w) in (a, w <| net_disk := d |>).

Definition publish_cached_status (status : si_network_settings_status_t) : st (net_world N) unit :=
  modify (fun w => w <| s_cached_status := Some status |>).

Definition invalidate_cached_status : st (net_world N) unit :=
  modify (fun w => w <| s_cached_status := None |>).

Definition copy_cached_status : st (net_world N) (esp_err_t * option si_network_settings_status_t) :=
  s ← gets s_cached_status;
  mret (match s with Some s => (ESP_OK, Some s) | None => (ESP_ERR_INVALID_STATE, None) end).

Definition valid_config (config : option si_network_config_t) : bool :=
  (si_network_config_validate config 0).1.

(** [REQUIRE_FLASH_SAFE_STACK()] *)
Definition flash_safe {A} (unsafe : A) (m : st (net_world N) A) : st (net_world N) A :=
  can ← on_net_disk current_task_can_access_flash;
  if can then m else mret unsafe.

Definition open_settings : st (system N) (esp_err_t * option si_settings_store_t) :=
  si_settings_store_open_write (Some SI_SETTINGS_STORE_INITIALIZER) (Some NETWORK_SETTINGS_NAMESPACE).

Definition set_slot_number store (key : cstring) (slot : Z) : st (system N) esp_err_t :=
  si_settings_store_set_int NVS_U8 store (Some key) slot.

(** No change is staged. *)
Definition unstage store : list (st (system N) esp_err_t) :=
  [set_slot_number store KEY_STAGED 0; set_slot_number store KEY_PENDING 0; si_settings_store_commit store].

(** The factory's configuration, in an empty namespace. *)
Definition write_factory store (factory : si_network_config_t) : st (system N) esp_err_t :=
  steps ([si_settings_store_erase_all store; write_slot store NETWORK_SLOT_A factory;
          set_slot_number store KEY_ACTIVE NETWORK_SLOT_A] ++ unstage store).

(** The part of a start that works on the open store. *)
Definition settle_start store (factory : si_network_config_t)
  : st (system N) (esp_err_t * si_network_settings_status_t) :=
  loaded ← load_status store;
  return_if negb (bool_decide (loaded.1 = ESP_OK)) with
    (ret ← write_factory store factory;
     return_if negb (bool_decide (ret = ESP_OK)) with mret (ret, zero_status) ;;
     load_status store) ;;
  return_if negb (pending loaded.2) with mret loaded ;;
  ret ← steps (unstage store);
  return_if negb (bool_decide (ret = ESP_OK)) with mret (ret, zero_status) ;;
  recovered ← load_status store;
  mret (recovered.1, recovered.2 <| recovered_pending := true |>).

Definition si_network_settings_initialize (factory : option si_network_config_t)
  : st (net_world N) (esp_err_t * option si_network_settings_status_t) :=
  match factory with
  | None => mret (ESP_ERR_INVALID_ARG, None)
  | Some factory =>
      return_if negb (valid_config (Some factory)) with mret (ESP_ERR_INVALID_ARG, None) ;;
      flash_safe (ESP_ERR_INVALID_STATE, None) (
      invalidate_cached_status;;
      r ← on_net_disk open_settings;
      return_if negb (bool_decide (r.1 = ESP_OK)) with mret (r.1, None) ;;
      settled ← on_net_disk (settle_start r.2 factory);
      on_net_disk (si_settings_store_close r.2);;
      return_if negb (bool_decide (settled.1 = ESP_OK)) with mret (settled.1, None) ;;
      publish_cached_status (settled.2 <| recovered_pending := false |>);;
      mret (ESP_OK, Some settled.2))
  end.

(** [status_out]: whether the pointer is not NULL. *)
Definition si_network_settings_get (status_out : bool)
  : st (net_world N) (esp_err_t * option si_network_settings_status_t) :=
  return_if negb status_out with mret (ESP_ERR_INVALID_ARG, None) ;; copy_cached_status.

(** Opens the store, loads the status, runs [body] on both, and closes the store. *)
Definition with_status (body : option si_settings_store_t -> si_network_settings_status_t -> st (system N) esp_err_t)
  : st (system N) (esp_err_t * si_network_settings_status_t) :=
  r ← open_settings;
  loaded ← (if bool_decide (r.1 = ESP_OK) then load_status r.2 else mret (r.1, zero_status));
  ret ← (if bool_decide (loaded.1 = ESP_OK) then body r.2 loaded.2 else mret loaded.1);
  si_settings_store_close r.2;;
  mret (ret, loaded.2).

Definition staged_config config (status : si_network_settings_status_t) : si_network_config_t :=
  config <| generation := u32 (generation (active status) + 1) |>.

Definition si_network_settings_stage (config : option si_network_config_t) : st (net_world N) esp_err_t :=
  match config with
  | None => mret ESP_ERR_INVALID_ARG
  | Some config =>
      return_if negb (valid_config (Some config)) with mret ESP_ERR_INVALID_ARG ;;
      flash_safe ESP_ERR_INVALID_STATE (
      r ← on_net_disk (with_status (fun store status =>
            let target_slot := other_slot (active_slot status) in
            steps [write_slot store target_slot (staged_config config status);
                   set_slot_number store KEY_STAGED target_slot;
                   set_slot_number store KEY_PENDING 0;
                   si_settings_store_commit store]));
      let status := r.2 in
      when (bool_decide (r.1 = ESP_OK)) (publish_cached_status
        (mk_net_status (active status) (staged_config config status) (active_slot status)
           (other_slot (active_slot status)) 0 true false false));;
      mret r.1)
  end.

Definition si_network_settings_mark_pending : st (net_world N) esp_err_t :=
  flash_safe ESP_ERR_INVALID_STATE (
  r ← on_net_disk (with_status (fun store status =>
        return_if negb (have_staged status) with mret ESP_ERR_INVALID_STATE ;;
        steps [set_slot_number store KEY_PENDING (staged_slot status); si_settings_store_commit store]));
  let status := r.2 in
  when (bool_decide (r.1 = ESP_OK)) (publish_cached_status
    (((status <| pending_slot := staged_slot status |>) <| pending := true |>) <| recovered_pending := false |>));;
  mret r.1).

(** The status once no change is staged. *)
Definition nothing_staged (status : si_network_settings_status_t) : si_network_settings_status_t :=
  mk_net_status (active status) zero_config (active_slot status) 0 0 false false false.

Definition si_network_settings_confirm : st (net_world N) esp_err_t :=
  flash_safe ESP_ERR_INVALID_STATE (
  r ← on_net_disk (with_status (fun store status =>
        return_if negb (pending status) with mret ESP_ERR_INVALID_STATE ;;
        steps (set_slot_number store KEY_ACTIVE (pending_slot status) :: unstage store)));
  let status := r.2 in
  when (bool_decide (r.1 = ESP_OK)) (publish_cached_status
    (nothing_staged ((status <| active := staged status |>) <| active_slot := pending_slot status |>)));;
  mret r.1).

(** The store is opened without loading the status. *)
Definition on_open_settings (body : option si_settings_store_t -> st (system N) esp_err_t) : st (system N) esp_err_t :=
  r ← open_settings;
  ret ← (if bool_decide (r.1 = ESP_OK) then body r.2 else mret r.1);
  si_settings_store_close r.2;;
  mret ret.

Definition si_network_settings_rollback : st (net_world N) esp_err_t :=
  flash_safe ESP_ERR_INVALID_STATE (
  cached ← copy_cached_status;
  ret ← on_net_disk (on_open_settings (fun store => steps (unstage store)));
  match cached.2 with
  | Some status => when (bool_decide (ret = ESP_OK)) (publish_cached_status (nothing_staged status))
  | None => mret tt
  end;;
  mret ret).

Definition si_network_settings_reset (factory : option si_network_config_t) : st (net_world N) esp_err_t :=
  match factory with
  | None => mret ESP_ERR_INVALID_ARG
  | Some factory =>
      return_if negb (valid_config (Some factory)) with mret ESP_ERR_INVALID_ARG ;;
      flash_safe ESP_ERR_INVALID_STATE (
      ret ← on_net_disk (on_open_settings (fun store => write_factory store factory));
      when (bool_decide (ret = ESP_OK)) (publish_cached_status
        (mk_net_status factory zero_config NETWORK_SLOT_A 0 0 false false false));;
      mret ret)
  end.

(** ** What happens to the settings

    A restart loses the cache and leaves [n] in the flash. *)

Inductive net_call :=
| NetStart (factory : si_network_config_t)
| NetGet
| NetStage (config : si_network_config_t)
| NetMark
| NetConfirm
| NetRollback
| NetReset (factory : si_network_config_t)
| NetTask (f : flash_access)
| NetRestart (n : N) (f : flash_access).

(** A call, and the status that it reports. *)
Definition net_exec (call : net_call) : st (net_world N) (option si_network_settings_status_t) :=
  let quiet (m : st (net_world N) esp_err_t) := (m;; mret None) in
  match call with
  | NetStart factory => r ← si_network_settings_initialize (Some factory); mret r.2
  | NetGet => r ← si_network_settings_get true; mret r.2
  | NetStage config => quiet (si_network_settings_stage (Some config))
  | NetMark => quiet si_network_settings_mark_pending
  | NetConfirm => quiet si_network_settings_confirm
  | NetRollback => quiet si_network_settings_rollback
  | NetReset factory => quiet (si_network_settings_reset (Some factory))
  | NetTask f => fun w => (None, w <| net_disk := (net_disk w) <| access := f |> |>)
  | NetRestart n f => fun _ => (None, mk_net_world None (mk_system n f))
  end.
End network.
