(* ===== verification/NetworkSettingsProps.v ===== *)
(** * Network settings: properties

    What the store holds for a slot, what a load of the status finds there, and what
    each call may change.  Until a confirmation, nothing that happens changes the
    active configuration, but for a reset and a start that cannot load what is stored,
    which installs the configuration of the factory; a confirmation takes over the
    staged one or nothing. *)

From Stdlib Require Import String.
From stdpp Require Import gmap.
From S2P Require Import Prelude CText Firmware NetworkConfig SettingsStore SettingsStoreProps NetworkSettings.

(** ** Running steps *)

Section steps.
Context {S : Type}.
Implicit Types (s : S) (l : list (st S esp_err_t)).

Lemma wp_steps_cons m l Q s :
  wp m (fun e s' => (e <> ESP_OK -> Q e s') /\ (e = ESP_OK -> wp (steps l) Q s')) s -> wp (steps (m :: l)) Q s.
Proof.
  intros Hm. cbn [steps]. apply wp_bind. eapply wp_mono; [exact Hm|]. intros e s' [Hno Hok].
  case_if; decided; [by apply wp_ret, Hno | by apply Hok].
Qed.

Lemma wp_steps_app l1 l2 Q s :
  wp (steps l1) (fun e s' => (e <> ESP_OK -> Q e s') /\ (e = ESP_OK -> wp (steps l2) Q s')) s ->
  wp (steps (l1 ++ l2)) Q s.
Proof.
  revert s. induction l1 as [|m l1 IH]; intros s Hm; [by apply Hm|].
  cbn [app]. apply wp_steps_cons. cbn [steps] in Hm. unfold wp at 1 in Hm. unfold bind in Hm. unfold wp at 1.
  destruct (m s) as [e s']. cbn [fst snd] in *. split; intros He.
  - rewrite (bool_decide_eq_false_2 _ He) in Hm. by apply Hm.
  - rewrite (bool_decide_eq_true_2 _ He) in Hm. by apply IH.
Qed.

Lemma wp_steps_nested l1 l2 Q s : wp (steps (l1 ++ l2)) Q s -> wp (steps (steps l1 :: l2)) Q s.
Proof.
  assert (E : steps (steps l1 :: l2) s = steps (l1 ++ l2) s); [|unfold wp; by rewrite E].
  revert s. induction l1 as [|m l1 IH]; intros s; [done|]. specialize (IH (m s).2). revert IH.
  cbn [steps app]. unfold bind. destruct (m s) as [e s']. cbn [fst snd]. intros IH.
  destruct (decide (e = ESP_OK)) as [He|He].
  - rewrite !(bool_decide_eq_true_2 _ He). exact IH.
  - rewrite !(bool_decide_eq_false_2 _ He).
    cbn. by rewrite (bool_decide_eq_false_2 _ He).
Qed.
End steps.

Section network.
Context {N : Type} `{laws : NvsLaws N}.
Implicit Types (s d : system N) (n : N) (w : net_world N) (c : si_network_config_t).

Abbreviation NS := NETWORK_SETTINGS_NAMESPACE.

(** ** Writing *)

(** Steps that set [values], one each, through an open handle. *)
Definition sets_each h (values : list (cstring * nvs_value)) (ms : list (st (system N) esp_err_t)) : Prop :=
  Forall2 (fun kv m => forall s, opened (nvs s) h = Some (NS, NVS_READWRITE) ->
    wp m (fun e s' => sets (NS, kv.1) kv.2 e (nvs s) (nvs s')) s) values ms.

Lemma steps_writing h W values ms n0 :
  sets_each h values ms -> (forall k v, (k, v) ∈ values -> W (NS, k) v) -> forall put s,
  NoDup (put.*1 ++ values.*1) ->
  let store := Some (mk_settings_store h true true) in
  writing NS store W put ESP_OK n0 (nvs s) ->
  wp (steps ms) (fun e s' => writing NS store W (reverse values ++ put) e n0 (nvs s')) s.
Proof using.
  intros Hms. induction Hms as [|[k v] m values ms Hm Hms IH]; intros HW put s Hnd store Hw.
  - by apply wp_ret.
  - apply wp_steps_cons. cbn [fmap list_fmap fst snd app] in *.
    destruct (proj2 Hw eq_refl) as [(h' & E & Ho) _]. injection E as <-.
    apply NoDup_app in Hnd as (Hp & Hd & [Hk Hnd]%NoDup_cons).
    eapply wp_mono; [by apply Hm|]. intros e s' Hs.
    eapply (put_writing NS store W put k v) in Hs; [|apply HW; by left| |exact Hw].
    2: { intros Hin. apply (Hd k Hin). by left. }
    split; intros He; [by split; [apply Hs|]|]. subst e.
    rewrite reverse_cons, <- app_assoc. apply IH; [intros k' v' Hin; apply HW; by right | | exact Hs].
    cbn [fmap list_fmap fst snd app]. apply NoDup_cons. split.
    + rewrite elem_of_app. intros [Hin|Hin]; [|done]. apply (Hd k Hin). by left.
    + apply NoDup_app. split_and!; [done | | done]. intros x Hx Hv. apply (Hd x Hx). by right.
Qed.

(** One subgoal for each value of the list. *)
Ltac each_set := repeat (apply Forall2_cons_2; [intros ? ?; cbn [fst snd]|]); [..|by apply Forall2_nil_2].

(** What is left once they are committed. *)
Definition committed W (values : list (cstring * nvs_value)) n0 (e : esp_err_t) n : Prop :=
  changed W n0 n /\ (e = ESP_OK -> settled_in NS values n).

Lemma steps_commit_open h W values ms n0 s :
  sets_each h values ms -> (forall k v, (k, v) ∈ values -> W (NS, k) v) -> NoDup values.*1 ->
  let store := Some (mk_settings_store h true true) in
  writing NS store W [] ESP_OK n0 (nvs s) ->
  wp (steps (ms ++ [si_settings_store_commit store])) (fun e s' =>
    committed W values n0 e (nvs s') /\ (e = ESP_OK -> opened (nvs s') h = Some (NS, NVS_READWRITE))) s.
Proof using.
  intros Hms HW Hnd store Hw. apply wp_steps_app.
  eapply wp_mono; [by apply (steps_writing h W values ms n0 Hms HW [] s)|]. intros e s1 [Hc Hr].
  split; intros He; [by split|]. destruct (Hr He) as [(h' & E & Ho) Hd]. injection E as <-.
  apply wp_steps_cons. eapply wp_mono; [apply wp_conj; [by apply commit_spec | by eapply commit_opened]|].
  cbv beta. intros e' s2 [(C & F & Hf) Ho'].
  assert (Hq : committed W values n0 e' (nvs s2)).
  { split; [etrans; [exact Hc | by apply firmer_changed]|]. intros He' k v Hin.
    assert (E : contents (nvs s2) !! (NS, k) = Some v).
    { rewrite C. apply Hd. rewrite app_nil_r. by apply elem_of_reverse. }
    split; [exact E|]. intros x Hx. rewrite <- E, C. by eapply Hf. }
  split; intros He'; [by split|]. apply wp_ret. rewrite Ho'. by rewrite <- He'.
Qed.

Lemma steps_commit h W values ms n0 s :
  sets_each h values ms -> (forall k v, (k, v) ∈ values -> W (NS, k) v) -> NoDup values.*1 ->
  let store := Some (mk_settings_store h true true) in
  writing NS store W [] ESP_OK n0 (nvs s) ->
  wp (steps (ms ++ [si_settings_store_commit store])) (fun e s' => committed W values n0 e (nvs s')) s.
Proof using. intros. eapply wp_mono; [by apply (steps_commit_open h W values ms n0)|]. by intros e s' [? _]. Qed.

(** ** What a slot holds *)

(** The values of [c] under the keys of a slot. *)
Definition slot_values (keys : slot_keys_t) c : list (cstring * nvs_value) :=
  [(key_schema keys, NvsInt NVS_U32 (schema_version c)); (key_generation keys, NvsInt NVS_U32 (generation c));
   (key_mode keys, NvsInt NVS_U8 (mode c));
   (key_autoip keys, NvsInt NVS_U8 (if autoip_fallback c then 1 else 0));
   (key_hostname keys, NvsStr (hostname c)); (key_address keys, NvsStr (address c));
   (key_netmask keys, NvsStr (netmask c)); (key_gateway keys, NvsStr (gateway c));
   (key_dns_primary keys, NvsStr (dns_primary c)); (key_dns_secondary keys, NvsStr (dns_secondary c))].

(** A configuration that the device takes. *)
Definition accepted c : Prop := valid_config (Some c) = true /\ is_u32 (generation c).

Lemma accepted_fields c : accepted c -> schema_version c = 1 /\ (mode c = 0 \/ mode c = 1).
Proof using.
  intros [Hv _]. unfold valid_config, si_network_config_validate in Hv.
  case_if_in Hv; [done|]. case_if_in Hv; [done|]. case_if_in Hv; [done|].
  split.
  - by apply negb_false_iff, Z.eqb_eq in Heqb.
  - apply andb_false_iff in Heqb1 as [E|E]; apply negb_false_iff, Z.eqb_eq in E; auto.
Qed.

Lemma set_int_sets type key v x h s :
  x = narrow type (u32 v) -> opened (nvs s) h = Some (NS, NVS_READWRITE) ->
  wp (si_settings_store_set_int type (Some (mk_settings_store h true true)) (Some key) v)
    (fun e s' => sets (NS, key) (NvsInt type x) e (nvs s) (nvs s')) s.
Proof using. intros -> Ho. by apply set_value_spec. Qed.

Lemma set_string_sets key v h s :
  opened (nvs s) h = Some (NS, NVS_READWRITE) ->
  wp (si_settings_store_set_string (Some (mk_settings_store h true true)) (Some key) (Some v))
    (fun e s' => sets (NS, key) (NvsStr v) e (nvs s) (nvs s')) s.
Proof using. intros Ho. by apply set_value_spec. Qed.

Lemma write_slot_sets h keys slot c :
  accepted c -> keys_for_slot slot = Some keys ->
  exists ms, write_slot (Some (mk_settings_store h true true)) slot c = steps ms /\ sets_each h (slot_values keys c) ms.
Proof using.
  intros Ha Hk. pose proof (accepted_fields c Ha) as [Hs Hm]. destruct Ha as [_ Hg].
  unfold write_slot. rewrite Hk. eexists; split; [reflexivity|].
  unfold slot_values. each_set.
  1-4: apply set_int_sets; [|done].
  - by rewrite Hs.
  - cbn [narrow]. by rewrite u32_small.
  - by destruct Hm as [-> | ->].
  - by destruct (autoip_fallback c).
  - by apply set_string_sets.
  - by apply set_string_sets.
  - by apply set_string_sets.
  - by apply set_string_sets.
  - by apply set_string_sets.
  - by apply set_string_sets.
Qed.

(** ** Reading *)

(** A call that only reads, and whose result, if it succeeds, is in [P]. *)
Definition finds {A} n (P : A -> Prop) : esp_err_t * A -> system N -> Prop := fun r s =>
  nvs s = n /\ (r.1 = ESP_OK -> P r.2).

Lemma got_finds {A B} n (P : A -> Prop) (Q : B -> Prop) m none k s :
  wp m (finds n P) s -> (forall a s', nvs s' = n -> P a -> wp (k a) (finds n Q) s') ->
  wp (got m none k) (finds n Q) s.
Proof using.
  intros Hm Hk. apply wp_bind. eapply wp_mono; [exact Hm|]. intros [e a] s' [E HP]. cbn [fst snd] in *.
  case_if; decided; [apply wp_ret; by split | by apply Hk; [|apply HP]].
Qed.

Definition holds (values : list (cstring * nvs_value)) n : Prop := forall k v, (k, v) ∈ values -> contents n !! (NS, k) = Some v.

Lemma settled_holds values n : settled_in NS values n -> holds values n.
Proof using. intros Hs k v Hin. by apply Hs. Qed.

Section reads.
Context (h : Z) (n : N).
Hypothesis (Ho : opened n h = Some (NS, NVS_READWRITE)).
Abbreviation store := (Some (mk_settings_store h true true)).

Lemma int_finds type key s :
  nvs s = n -> wp (si_settings_store_get_int type store (Some key) true)
    (finds n (fun x => contents n !! (NS, key) = Some (NvsInt type x))) s.
Proof using Ho laws.
  intros E. rewrite <- E in Ho. eapply wp_mono; [by apply (get_int_spec type h NS true)|].
  intros r s' [E' [Hr _]]. split; [by rewrite E'|]. by rewrite <- E.
Qed.

Lemma string_finds key room s :
  nvs s = n -> wp (si_settings_store_get_string store (Some key) (Some (S room)))
    (finds n (fun x => contents n !! (NS, key) = Some (NvsStr x))) s.
Proof using Ho laws.
  intros E. rewrite <- E in Ho. eapply wp_mono; [by apply (get_string_spec h NS true)|].
  intros r s' [E' [Hr _]]. split; [by rewrite E'|]. by rewrite <- E.
Qed.

Lemma optional_finds key room s :
  nvs s = n -> wp (read_optional_string store key (S room))
    (finds n (fun x => forall v, contents n !! (NS, key) = Some (NvsStr v) -> x = v)) s.
Proof using Ho laws.
  intros E. rewrite <- E in Ho. apply wp_bind. eapply wp_mono; [by apply (get_string_spec h NS true)|].
  intros r s' [E' [Hr Hno]]. apply wp_ret. split; [by rewrite E'|]. rewrite E in *. case_if; decided.
  - intros _ v Hv. by destruct (Hno Heqb v).
  - intros He v Hv. apply Hr in He. rewrite Hv in He. by injection He.
Qed.

Lemma number_finds key s :
  nvs s = n -> wp (read_slot_number store key)
    (finds n (fun x => forall v, contents n !! (NS, key) = Some (NvsInt NVS_U8 v) -> x = v)) s.
Proof using Ho laws.
  intros E. rewrite <- E in Ho. apply wp_bind. eapply wp_mono; [by apply (get_int_spec NVS_U8 h NS true)|].
  intros r s' [E' [Hr Hno]]. apply wp_ret. split; [by rewrite E'|]. rewrite E in *. case_if; decided.
  - intros _ v Hv. by destruct (Hno Heqb v).
  - intros He v Hv. apply Hr in He. rewrite Hv in He. by injection He.
Qed.

(** If the slot holds a configuration, that one is read. *)
Lemma read_slot_finds slot s :
  nvs s = n -> wp (read_slot store slot) (finds n (fun x =>
    forall keys c, keys_for_slot slot = Some keys -> holds (slot_values keys c) n -> x = c)) s.
Proof using Ho laws.
  intros E. unfold read_slot. destruct (keys_for_slot slot) as [keys|]; [|by apply wp_ret].
  repeat (eapply got_finds; [first [by apply int_finds | by apply string_finds | by apply optional_finds] | intros ? ? ? ?]).
  apply wp_ret. split; [done|]. intros _ keys' c [= <-] Hh. cbn [snd].
  assert (Hv : Forall (fun kv => contents n !! (NS, kv.1) = Some kv.2) (slot_values keys c))
    by (apply Forall_forall; intros [k v]; apply Hh).
  unfold slot_values in Hv. rewrite !Forall_cons in Hv. cbn [fst snd] in Hv.
  destruct Hv as (K1 & K2 & K3 & K4 & K5 & K6 & K7 & K8 & K9 & K10 & _).
  destruct c as [schema gen m auto host ip mask gw dns1 dns2]. cbn [schema_version generation mode autoip_fallback
    hostname address netmask gateway dns_primary dns_secondary] in *.
  repeat match goal with
  | Hr : contents n !! ?k = Some (?f ?x), Hc : contents n !! ?k = Some (?f ?y) |- _ =>
      rewrite Hr in Hc; injection Hc as Hc
  | Hr : forall v, contents n !! ?k = Some (_ v) -> _ = v, Hc : contents n !! ?k = Some _ |- _ =>
      apply Hr in Hc; clear Hr
  end.
  subst. f_equal. by destruct auto.
Qed.

(** What a load says about the store. *)
Definition in_slot n slot c : Prop :=
  match keys_for_slot slot with Some keys => holds (slot_values keys c) n | None => False end.

Definition loads n (st : si_network_settings_status_t) : Prop :=
  (slot_valid (active_slot st) = true /\ contents n !! (NS, KEY_ACTIVE) = Some (NvsInt NVS_U8 (active_slot st))) /\
  (forall c, in_slot n (active_slot st) c -> active st = c) /\
  (have_staged st = true -> staged_slot st = other_slot (active_slot st) /\
     (forall v, contents n !! (NS, KEY_STAGED) = Some (NvsInt NVS_U8 v) -> staged_slot st = v) /\
     forall c, in_slot n (staged_slot st) c -> staged st = c) /\
  (pending st = true -> have_staged st = true /\ pending_slot st = staged_slot st) /\
  recovered_pending st = false.

Lemma slot_cases slot : slot_valid slot = true -> slot = NETWORK_SLOT_A \/ slot = NETWORK_SLOT_B.
Proof using. intros [E|E]%orb_prop; apply Z.eqb_eq in E; auto. Qed.

Lemma load_finds s : nvs s = n -> wp (load_status store) (finds n (loads n)) s.
Proof using Ho laws.
  intros E. unfold load_status.
  assert (Hin : forall slot x, (forall keys c, keys_for_slot slot = Some keys -> holds (slot_values keys c) n -> x = c) ->
    forall c, in_slot n slot c -> x = c).
  { unfold in_slot. intros slot x Hx c. destruct (keys_for_slot slot) as [keys|]; [by apply Hx | done]. }
  eapply got_finds; [by apply int_finds | intros a s1 E1 Ha]. case_if; [by apply wp_ret|]. apply negb_false_iff in Heqb.
  eapply got_finds; [by apply read_slot_finds | intros act s2 E2 Hact].
  eapply got_finds; [by apply number_finds | intros sl s3 E3 Hsl].
  apply wp_bind.
  eapply (wp_mono _ (fun (r : esp_err_t * si_network_config_t) s' => nvs s' = n /\ (r.1 = ESP_OK ->
    sl = other_slot a /\ forall c, in_slot n sl c -> r.2 = c))).
  { case_if; [|by apply wp_ret]. apply andb_prop in Heqb0 as [Hv Hne]. apply negb_true_iff, Z.eqb_neq in Hne.
    eapply wp_mono; [by apply read_slot_finds|]. intros r s' [E' Hr]. split; [done|]. intros He. split; [|by apply Hin, Hr].
    destruct (slot_cases _ Hv) as [-> | ->], (slot_cases _ Heqb) as [-> | ->]; done. }
  intros r s4 [E4 Hr].
  eapply got_finds; [by apply number_finds | intros p s5 E5 Hp].
  apply wp_ret. split; [done|]. intros _. cbn [snd].
  split_and!; try done; cbn [active_slot active have_staged staged_slot staged pending pending_slot recovered_pending].
  - by apply Hin.
  - case_bool_decide as Hok; [|done]. intros _. destruct (Hr Hok) as [-> Hc]. by split_and!.
  - case_bool_decide as Hok; [|done]. cbn [andb]. intros Hps. apply Z.eqb_eq in Hps as ->. by rewrite Z.eqb_refl.
Qed.
End reads.

(** ** The store, open for one call *)

(** The changes that write [values]. *)
Definition writes (values : list (cstring * nvs_value)) (k : nvs_key) (v : nvs_value) : Prop :=
  k.1 = NS /\ (k.2, v) ∈ values.

Lemma settled_beside values vs n n' :
  changed (writes values) n n' -> Forall (fun k => k ∉ values.*1) vs.*1 -> settled_in NS vs n -> settled_in NS vs n'.
Proof using.
  intros Hch Hd. apply settled_changed with (2 := Hch). intros k v x Hin [_ Hx]. exfalso.
  rewrite Forall_forall in Hd. apply (Hd k); apply list_elem_of_fmap; [by exists (k, v) | by exists (k, x)].
Qed.

Lemma loads_same n n' st : contents n' = contents n -> loads n' st -> loads n st.
Proof using.
  unfold loads. intros E. rewrite E. intros (H1 & H2 & H3 & H4).
  assert (Hi : forall slot c, in_slot n slot c -> in_slot n' slot c).
  { unfold in_slot, holds. intros slot c. destruct (keys_for_slot slot); [by rewrite E | done]. }
  split_and!; [apply H1 | apply H1 | auto | | apply H4 | apply H4].
  intros Hs. destruct (H3 Hs) as (? & ? & ?). split_and!; auto.
Qed.

Lemma committed_same W values n0 e n n' :
  contents n' = contents n -> flash n' = flash n -> committed W values n0 e n -> committed W values n0 e n'.
Proof using.
  intros E F [Hc Hs]. split; [|by unfold settled_in in *; rewrite E, F].
  etrans; [exact Hc|]. apply firmer_changed; [done|]. by rewrite F.
Qed.

Lemma committed_failed W values n0 e n :
  e <> ESP_OK -> contents n = contents n0 -> flash n = flash n0 -> committed W values n0 e n.
Proof using. intros He E F. split; [|done]. apply firmer_changed; [done|]. by rewrite F. Qed.

Lemma with_status_spec W values (P : si_network_settings_status_t -> Prop) body s :
  (forall h st s1, let store := Some (mk_settings_store h true true) in
     writing NS store W [] ESP_OK (nvs s) (nvs s1) -> loads (nvs s) st ->
     wp (body store st) (fun e s2 => committed W values (nvs s) e (nvs s2) /\ (e = ESP_OK -> P st)) s1) ->
  wp (with_status body) (fun r s' => committed W values (nvs s) r.1 (nvs s') /\
    (r.1 = ESP_OK -> loads (nvs s) r.2 /\ P r.2)) s.
Proof using laws.
  intros Hb. unfold with_status. apply wp_bind. eapply wp_mono; [by apply open_write_spec|].
  intros r s1 (C1 & F1 & Hok & Hno & _). apply wp_bind. case_if; decided.
  - destruct (Hok Heqb) as (h & E & Ho). rewrite E. change (bool_decide (NVS_READWRITE = NVS_READWRITE)) with true.
    eapply wp_mono; [by apply (load_finds h (nvs s1) Ho)|]. intros [e st] s2 [E2 Hst]. cbn [fst snd] in *.
    apply wp_bind. case_if; decided.
    + eapply wp_mono; [apply (Hb h st); [|by eapply loads_same, Hst]|].
      { rewrite E2. split; [apply firmer_changed; [done | by rewrite F1]|]. intros _. split; [by exists h|].
        by intros k v ?%elem_of_nil. }
      intros e2 s3 [Hc HP]. apply wp_bind. eapply wp_mono; [apply close_spec|]. intros ? s4 [C4 F4].
      apply wp_ret. cbn [fst snd]. split; [by eapply committed_same|]. intros He2. split; [|by apply HP].
      by eapply loads_same, Hst.
    + apply wp_ret, wp_bind. eapply wp_mono; [apply close_spec|]. intros ? s4 [C4 F4].
      apply wp_ret. cbn [fst snd]. split; [|done]. apply committed_failed; congruence.
  - apply wp_ret. rewrite (Hno Heqb). apply wp_bind. cbn [fst snd]. case_if; decided; [done|].
    apply wp_ret, wp_bind. eapply wp_mono; [apply close_spec|]. intros ? s4 [C4 F4].
    apply wp_ret. cbn [fst snd]. split; [|done]. apply committed_failed; congruence.
Qed.

Lemma on_open_spec W values body s :
  (forall h s1, let store := Some (mk_settings_store h true true) in
     writing NS store W [] ESP_OK (nvs s) (nvs s1) ->
     wp (body store) (fun e s2 => committed W values (nvs s) e (nvs s2)) s1) ->
  wp (on_open_settings body) (fun e s' => committed W values (nvs s) e (nvs s')) s.
Proof using laws.
  intros Hb. unfold on_open_settings. apply wp_bind. eapply wp_mono; [by apply open_write_spec|].
  intros r s1 (C1 & F1 & Hok & Hno & _). apply wp_bind. case_if; decided.
  - destruct (Hok Heqb) as (h & E & Ho). rewrite E. change (bool_decide (NVS_READWRITE = NVS_READWRITE)) with true.
    eapply wp_mono; [apply (Hb h)|].
    { split; [apply firmer_changed; [done | by rewrite F1]|]. intros _. split; [by exists h|].
      by intros k v ?%elem_of_nil. }
    intros e2 s3 Hc. apply wp_bind. eapply wp_mono; [apply close_spec|]. intros ? s4 [C4 F4].
    apply wp_ret. by eapply committed_same.
  - apply wp_ret, wp_bind. eapply wp_mono; [apply close_spec|]. intros ? s4 [C4 F4].
    apply wp_ret. apply committed_failed; congruence.
Qed.

(** ** What each call does to the store *)

Definition none_staged : list (cstring * nvs_value) :=
  [(KEY_STAGED, NvsInt NVS_U8 0); (KEY_PENDING, NvsInt NVS_U8 0)].

Lemma number_sets h key v s :
  is_u8 v -> opened (nvs s) h = Some (NS, NVS_READWRITE) ->
  wp (set_slot_number (Some (mk_settings_store h true true)) key v)
    (fun e s' => sets (NS, key) (NvsInt NVS_U8 v) e (nvs s) (nvs s')) s.
Proof using.
  intros Hv Ho. apply set_int_sets; [|exact Ho]. cbn [narrow]. rewrite u32_small, u8_small by (unfold is_u8, is_u32 in *; lia).
  done.
Qed.

Lemma in_writes values k v : (k, v) ∈ values -> writes values (NS, k) v.
Proof using. by split. Qed.

(** The keys of the lists below are all known. *)
Ltac known_keys := cbn [fmap list_fmap app fst snd]; apply (bool_decide_unpack _); by vm_compute.

Lemma unstage_spec h n0 s :
  let store := Some (mk_settings_store h true true) in
  writing NS store (writes none_staged) [] ESP_OK n0 (nvs s) ->
  wp (steps (unstage store)) (fun e s' => committed (writes none_staged) none_staged n0 e (nvs s') /\
    (e = ESP_OK -> opened (nvs s') h = Some (NS, NVS_READWRITE))) s.
Proof using laws.
  intros store Hw. refine (steps_commit_open h _ none_staged [_; _] n0 s _ (in_writes _) _ Hw); [|known_keys].
  unfold sets_each, none_staged. each_set; by apply number_sets.
Qed.

(** The values that staging [c] in [slot] writes. *)
Definition staging slot c : list (cstring * nvs_value) :=
  match keys_for_slot slot with Some keys => slot_values keys c | None => [] end ++
  [(KEY_STAGED, NvsInt NVS_U8 slot); (KEY_PENDING, NvsInt NVS_U8 0)].

Lemma stage_steps_spec h slot c n0 s :
  let store := Some (mk_settings_store h true true) in
  slot_valid slot = true -> accepted c -> writing NS store (writes (staging slot c)) [] ESP_OK n0 (nvs s) ->
  wp (steps [write_slot store slot c; set_slot_number store KEY_STAGED slot; set_slot_number store KEY_PENDING 0;
             si_settings_store_commit store])
    (fun e s' => committed (writes (staging slot c)) (staging slot c) n0 e (nvs s')) s.
Proof using laws.
  intros store Hs Ha Hw. assert (Hk : exists keys, keys_for_slot slot = Some keys)
    by (destruct (slot_cases _ Hs) as [-> | ->]; eauto).
  destruct Hk as [keys Hk], (write_slot_sets h keys slot c Ha Hk) as (ms & E & Hms). unfold store. rewrite E.
  apply wp_steps_nested.
  pose proof (steps_commit h (writes (staging slot c)) (staging slot c)
    (ms ++ [set_slot_number store KEY_STAGED slot; set_slot_number store KEY_PENDING 0]) n0 s) as Hc.
  cbv zeta in Hc. rewrite <- app_assoc in Hc. apply Hc; [| apply in_writes | | exact Hw].
  - unfold staging. rewrite Hk. apply Forall2_app; [exact Hms|].
    each_set; apply number_sets; try done; by destruct (slot_cases _ Hs) as [-> | ->].
  - unfold staging. destruct (slot_cases _ Hs) as [-> | ->]; known_keys.
Qed.

(** ** What the flash holds *)

Abbreviation fl w := (nvs (net_disk w)).

Definition slot_settled slot c n : Prop :=
  match keys_for_slot slot with Some keys => settled_in NS (slot_values keys c) n | None => False end.

Definition active_settled slot n : Prop := settled_in NS [(KEY_ACTIVE, NvsInt NVS_U8 slot)] n.

(** [c] is the active configuration, in [slot], whatever a restart finds. *)
Definition stored slot c n : Prop :=
  slot_valid slot = true /\ accepted c /\ active_settled slot n /\ slot_settled slot c n.

Lemma slot_settled_in slot c n : slot_settled slot c n -> in_slot n slot c.
Proof using. unfold slot_settled, in_slot. destruct (keys_for_slot slot); [apply settled_holds | done]. Qed.

(** What loading finds when [c] is stored. *)
Lemma loads_stored slot c n st : stored slot c n -> loads n st -> active st = c /\ active_slot st = slot.
Proof using.
  intros (Hv & Ha & Hact & Hs) ((Hv' & Hact') & Hc & _).
  destruct (Hact KEY_ACTIVE (NvsInt NVS_U8 slot)) as [E _]; [by left|]. rewrite E in Hact'. injection Hact' as E'.
  rewrite <- E' in Hc. split; [|done]. by apply Hc, slot_settled_in.
Qed.

(** Nothing is staged, so nothing is pending. *)
Lemma loads_settled n st : loads n st -> settled_in NS none_staged n -> pending st = false.
Proof using.
  intros ((Hv & _) & _ & Hh & Hp & _) Hd. destruct (pending st) eqn:Ep; [|done].
  destruct (Hp eq_refl) as [Hh3 _], (Hh Hh3) as (E & Hz & _).
  destruct (Hd KEY_STAGED (NvsInt NVS_U8 0)) as [Hk _]; [by left|]. apply Hz in Hk. rewrite Hk in E.
  by destruct (slot_cases _ Hv) as [Es | Es]; rewrite Es in E.
Qed.

(** The keys of a slot. *)
Definition own_keys slot : list cstring :=
  match keys_for_slot slot with Some keys => (slot_values keys zero_config).*1 | None => [] end.

(** Writes that leave the active slot alone. *)
Definition spares slot (values : list (cstring * nvs_value)) : Prop :=
  Forall (fun k => k ∉ values.*1) (KEY_ACTIVE :: own_keys slot).

Lemma slot_kept slot c values n n' :
  Forall (fun k => k ∉ values.*1) (own_keys slot) ->
  changed (writes values) n n' -> slot_settled slot c n -> slot_settled slot c n'.
Proof using.
  unfold slot_settled, own_keys. destruct (keys_for_slot slot) as [keys|]; [|done]. intros Hd Hch. by apply (settled_beside values).
Qed.

Lemma stored_kept slot c values n n' :
  spares slot values -> changed (writes values) n n' -> stored slot c n -> stored slot c n'.
Proof using.
  intros [Ha Hd]%Forall_cons Hch (Hv & Hc & Hact & Hs). split_and!; [done..| |by eapply slot_kept].
  eapply settled_beside; [exact Hch | | exact Hact]. by repeat constructor.
Qed.

Lemma stored_restart slot c n n' : nvs_restarts n n' -> stored slot c n -> stored slot c n'.
Proof using laws.
  intros Hr (Hv & Hc & Hact & Hs). split_and!; [done..| by eapply settled_restart |].
  unfold slot_settled in *. destruct (keys_for_slot slot); [by eapply settled_restart | done].
Qed.

(** ** What each call leaves *)

Lemma wp_on_net_disk {A} (m : st (system N) A) (Q : A -> net_world N -> Prop) w :
  wp m (fun a d => Q a (w <| net_disk := d |>)) (net_disk w) -> wp (on_net_disk m) Q w.
Proof using. unfold wp, on_net_disk. by destruct (m (net_disk w)). Qed.

Lemma wp_flash_safe {A} (unsafe : A) m (Q : A -> net_world N -> Prop) w :
  Q unsafe w -> wp m Q w -> wp (flash_safe unsafe m) Q w.
Proof using.
  intros Hu Hm. unfold flash_safe. apply wp_bind, wp_on_net_disk, wp_gets.
  match goal with |- wp _ _ ?x => assert (x = w) as -> by by destruct w as [? []] end. by case_if.
Qed.

(** The cached status is as it was, or its active configuration is [c]. *)
Definition shows c w w' : Prop :=
  forall st, s_cached_status w' = Some st -> s_cached_status w = Some st \/ active st = c.

(** What a call leaves that writes [values]. *)
Definition leaves c values w (e : esp_err_t) w' : Prop :=
  committed (writes values) values (fl w) e (fl w') /\ shows c w w'.

Lemma leaves_nothing c values w e : e <> ESP_OK -> leaves c values w e w.
Proof using. intros He. split; [by apply committed_failed|]. by left. Qed.

(** The end of a call: it publishes a status when it succeeded. *)
Lemma publish_spec c values w e status w1 :
  committed (writes values) values (fl w) e (fl w1) -> s_cached_status w1 = s_cached_status w ->
  (e = ESP_OK -> active status = c) ->
  wp (when (bool_decide (e = ESP_OK)) (publish_cached_status status);; mret e) (leaves c values w) w1.
Proof using.
  intros Hc Hs Ha. apply wp_bind, wp_when; intros He; decided.
  - apply wp_modify, wp_ret. split; [exact Hc|]. intros st [= <-]. right. by apply Ha.
  - apply wp_ret. split; [exact Hc|]. intros st. rewrite Hs. by left.
Qed.

Lemma valid_staged config g : valid_config (Some config) = true -> accepted (config <| generation := u32 g |>).
Proof using. intros Hv. split; [exact Hv | apply u32_range]. Qed.

Lemma stage_spec slot c config w :
  stored slot c (fl w) ->
  let c' := config <| generation := u32 (generation c + 1) |> in
  wp (si_network_settings_stage (Some config)) (fun e w' =>
    leaves c (staging (other_slot slot) c') w e w' /\ (e = ESP_OK -> accepted c')) w.
Proof using laws.
  intros Hst c'. unfold si_network_settings_stage. case_if; [apply wp_ret; split; [by apply leaves_nothing | done]|].
  apply negb_false_iff in Heqb. apply wp_flash_safe; [split; [by apply leaves_nothing | done]|].
  assert (Hv : slot_valid (other_slot slot) = true)
    by (destruct Hst as [Hv _]; by destruct (slot_cases _ Hv) as [-> | ->]).
  apply wp_bind, wp_on_net_disk.
  eapply wp_mono; [apply (with_status_spec (writes (staging (other_slot slot) c')) (staging (other_slot slot) c') (fun _ => True))|].
  - intros h st s1 store Hw Hl. destruct (loads_stored _ _ _ _ Hst Hl) as [Hact ->].
    unfold staged_config. rewrite Hact. eapply wp_mono; [apply stage_steps_spec; [done | | exact Hw]|by split].
    by apply valid_staged.
  - intros r d [Hc Hok]. cbn [fst snd]. apply (wp_conj _ _ (fun e _ => e = ESP_OK -> accepted c')).
    + apply publish_spec; [exact Hc | done|]. intros He. destruct (Hok He) as [Hl _].
      by destruct (loads_stored _ _ _ _ Hst Hl).
    + apply wp_intro. intros _. by apply valid_staged.
Qed.

Lemma mark_spec slot c w :
  stored slot c (fl w) ->
  wp si_network_settings_mark_pending (leaves c [(KEY_PENDING, NvsInt NVS_U8 (other_slot slot))] w) w.
Proof using laws.
  intros Hst. unfold si_network_settings_mark_pending. apply wp_flash_safe; [by apply leaves_nothing|].
  apply wp_bind, wp_on_net_disk. set (values := [(KEY_PENDING, NvsInt NVS_U8 (other_slot slot))]).
  eapply wp_mono; [apply (with_status_spec (writes values) values (fun _ => True))|].
  - intros h st s1 store Hw Hl. destruct (loads_stored _ _ _ _ Hst Hl) as [Hact Hs].
    case_if; [by apply wp_ret; split; [split; [apply Hw|]|]|]. apply negb_false_iff in Heqb.
    destruct Hl as (_ & _ & Hstaged & _). destruct (Hstaged Heqb) as [E _]. rewrite E, Hs.
    eapply wp_mono; [apply (steps_commit h (writes values) values [_] (nvs (net_disk w)) s1)|by split];
      [|apply in_writes | known_keys | exact Hw].
    unfold sets_each, values. each_set. apply number_sets; [|done].
    destruct Hst as [Hv _]. by destruct (slot_cases _ Hv) as [-> | ->].
  - intros r d [Hc Hok]. cbn [fst snd]. apply publish_spec; [exact Hc | done|]. intros He.
    destruct (Hok He) as [Hl _]. by destruct (loads_stored _ _ _ _ Hst Hl).
Qed.

Lemma rollback_spec c w :
  (forall st, s_cached_status w = Some st -> active st = c) ->
  wp si_network_settings_rollback (leaves c none_staged w) w.
Proof using laws.
  intros Hcache. unfold si_network_settings_rollback. apply wp_flash_safe; [by apply leaves_nothing|].
  apply wp_bind. unfold copy_cached_status. apply wp_bind, wp_gets, wp_ret, wp_bind, wp_on_net_disk.
  eapply wp_mono; [apply (on_open_spec (writes none_staged) none_staged); 
    intros h s1 store Hw; eapply wp_mono; [by apply unstage_spec | by intros ? ? []]|].
  intros e d Hc. destruct (s_cached_status w) as [st|] eqn:Es.
  - apply publish_spec; [exact Hc | done|]. intros _. exact (Hcache st eq_refl).
  - apply wp_bind, wp_ret, wp_ret. split; [exact Hc|]. intros st. cbn. by left.
Qed.

(** The values of a confirmation. *)
Definition confirming (slot : Z) : list (cstring * nvs_value) := (KEY_ACTIVE, NvsInt NVS_U8 slot) :: none_staged.

Lemma confirm_spec slot c w :
  stored slot c (fl w) ->
  wp si_network_settings_confirm (fun e w' =>
    committed (writes (confirming (other_slot slot))) (confirming (other_slot slot)) (fl w) e (fl w') /\
    (e = ESP_OK -> forall c', slot_settled (other_slot slot) c' (fl w) ->
       exists st, s_cached_status w' = Some st /\ active st = c' /\ pending st = false)) w.
Proof using laws.
  intros Hst. unfold si_network_settings_confirm. set (values := confirming (other_slot slot)).
  apply wp_flash_safe; [split; [by apply committed_failed | done]|]. apply wp_bind, wp_on_net_disk.
  eapply wp_mono; [apply (with_status_spec (writes values) values (fun st => pending st = true))|].
  - intros h st s1 store Hw Hl. destruct (loads_stored _ _ _ _ Hst Hl) as [Hact Hs].
    case_if; [by apply wp_ret; split; [split; [apply Hw|]|]|]. apply negb_false_iff in Heqb.
    destruct Hl as (_ & _ & Hstaged & Hp & _). destruct (Hp Heqb) as [Hh ->], (Hstaged Hh) as [-> _]. rewrite Hs.
    eapply wp_mono; [apply (steps_commit h (writes values) values [_; _; _] (nvs (net_disk w)) s1)|by split];
      [|apply in_writes | known_keys | exact Hw].
    unfold sets_each, values, confirming, none_staged. each_set; apply number_sets; try done.
    destruct Hst as [Hv _]. by destruct (slot_cases _ Hv) as [-> | ->].
  - intros r d [Hc Hok]. cbn [fst snd]. apply wp_bind, wp_when; intros He; decided.
    + apply wp_modify, wp_ret. split; [exact Hc|]. intros _ c' Hs'. eexists. split; [reflexivity|].
      split; [|done]. cbn [nothing_staged active set]. destruct (Hok He) as [Hl Hp].
      destruct (loads_stored _ _ _ _ Hst Hl) as [_ Hs]. destruct Hl as (_ & _ & Hstaged & Hpp & _).
      destruct (Hpp Hp) as [Hh _], (Hstaged Hh) as (E & _ & Hin). apply Hin. rewrite E, Hs. by apply slot_settled_in.
    + apply wp_ret. by split.
Qed.

(** ** Starting *)

(** The first load of a start succeeds: what is stored can be read.  A start whose
    first load fails, for whatever reason, erases the settings and installs the
    configuration of the factory ([start_installs]). *)
Definition readable w : Prop :=
  let o := open_settings (net_disk w) in
  o.1.1 = ESP_OK -> (load_status o.1.2 o.2).1.1 = ESP_OK.

Lemma spares_unstage slot c n : stored slot c n -> spares slot none_staged.
Proof using. intros [Hv _]. destruct (slot_cases _ Hv) as [-> | ->]; unfold spares, own_keys; known_keys. Qed.

(** What the work on the open store leaves, when the status was read. *)
Lemma settle_spec slot c factory h s :
  let store := Some (mk_settings_store h true true) in
  opened (nvs s) h = Some (NS, NVS_READWRITE) -> stored slot c (nvs s) -> (load_status store s).1.1 = ESP_OK ->
  wp (settle_start store factory) (fun r s' =>
    changed (writes none_staged) (nvs s) (nvs s') /\
    (r.1 = ESP_OK -> active r.2 = c /\ pending r.2 = false /\
       (recovered_pending r.2 = true -> settled_in NS none_staged (nvs s')))) s.
Proof using laws.
  intros store Ho Hst Hr. unfold settle_start. apply wp_bind, wp_intro.
  pose proof (load_finds h (nvs s) Ho s eq_refl) as Hl. fold store in Hl. unfold wp in Hl.
  destruct (load_status store s) as [[e st] s1]. cbn [fst snd] in *. destruct Hl as [E1 Hl].
  specialize (Hl Hr). cbn [snd] in Hl. subst e. change (negb (bool_decide (ESP_OK = ESP_OK))) with false. cbv iota.
  destruct (loads_stored _ _ _ _ Hst Hl) as [Hact Hs].
  case_if; [apply negb_true_iff in Heqb|].
  { apply wp_ret. rewrite E1. cbn [fst snd]. split; [done|]. intros _. split_and!; [done..|].
    by destruct Hl as (_ & _ & _ & _ & ->). }
  apply wp_bind. eapply wp_mono.
  { apply (unstage_spec h (nvs s)). rewrite E1. split; [done|]. intros _. split; [by exists h|].
    by intros k v ?%elem_of_nil. }
  intros e s2 [[Hc Hd] Ho2]. case_if; decided; [by apply wp_ret|]. specialize (Hd Heqb0). specialize (Ho2 Heqb0).
  apply wp_bind. eapply wp_mono; [by apply (load_finds h (nvs s2) Ho2)|]. intros [e3 st3] s3 [E3 Hl3].
  apply wp_ret. cbn [fst snd active pending recovered_pending set]. rewrite E3. split; [exact Hc|].
  intros He3. specialize (Hl3 He3). cbn [snd] in Hl3.
  assert (Hst2 : stored slot c (nvs s2)) by (eapply stored_kept; [by eapply spares_unstage | exact Hc | exact Hst]).
  destruct (loads_stored _ _ _ _ Hst2 Hl3) as [Hact3 Hs3].
  split_and!; [exact Hact3 | by eapply loads_settled | done].
Qed.

Lemma start_spec slot c factory w :
  stored slot c (fl w) -> readable w ->
  wp (si_network_settings_initialize (Some factory)) (fun r w' =>
    changed (writes none_staged) (fl w) (fl w') /\ shows c w w' /\
    (forall st, r.2 = Some st -> active st = c /\ pending st = false /\
       (recovered_pending st = true -> settled_in NS none_staged (fl w')))) w.
Proof using laws.
  intros Hst Hr. unfold si_network_settings_initialize. case_if; [apply wp_ret; split_and!; [done | intros ?; by left | done]|].
  apply wp_flash_safe; [split_and!; [done | intros ?; by left | done]|]. apply wp_bind, wp_modify, wp_bind, wp_on_net_disk.
  pose proof (open_write_spec NS (net_disk w) ltac:(done)) as Ho. unfold readable in Hr.
  unfold wp in Ho. apply wp_intro. fold open_settings in Ho.
  change (net_disk (w <| s_cached_status := None |>)) with (net_disk w).
  destruct (open_settings (net_disk w)) as [[e store] d]. cbn [fst snd] in *.
  destruct Ho as (C1 & F1 & Hok & _ & _). cbn [fst snd] in *.
  assert (Hc1 : changed (writes none_staged) (fl w) (nvs d)) by (apply firmer_changed; [done | by rewrite F1]).
  case_if; decided; [apply wp_ret; by split_and!|].
  destruct (Hok Heqb0) as (h & -> & Ho). specialize (Hr Heqb0). apply wp_bind, wp_on_net_disk.
  assert (Hst1 : stored slot c (nvs d)).
  { eapply stored_kept; [by eapply spares_unstage | exact Hc1 | exact Hst]. }
  eapply wp_mono; [by apply (settle_spec slot c factory h d)|]. intros r d2 [Hc2 Hr2].
  assert (Hc3 : changed (writes none_staged) (fl w) (nvs d2)) by by etrans.
  apply wp_bind, wp_on_net_disk. eapply wp_mono; [apply close_spec|]. intros ? d3 [C3 F3].
  assert (Hc4 : changed (writes none_staged) (fl w) (nvs d3))
    by (etrans; [exact Hc3|]; apply firmer_changed; [done | by rewrite F3]).
  case_if; decided; [apply wp_ret; by split_and!|]. destruct (Hr2 Heqb1) as (Ha & Hp & Hrec).
  apply wp_bind, wp_modify, wp_ret. split_and!; [exact Hc4 | | ].
  - intros st [= <-]. by right.
  - intros st [= <-]. split_and!; [done..|]. intros Hx. unfold settled_in in *. cbn [net_disk set].
    rewrite C3, F3. by apply Hrec.
Qed.

(** ** The factory's configuration *)

(** [c] is active: in the flash and in the cache. *)
Definition in_force slot c w : Prop :=
  stored slot c (fl w) /\ forall st, s_cached_status w = Some st -> active st = c.

Definition factory_values c : list (cstring * nvs_value) :=
  slot_values SLOT_A_KEYS c ++ (KEY_ACTIVE, NvsInt NVS_U8 NETWORK_SLOT_A) :: none_staged.

Lemma write_factory_spec h c s :
  let store := Some (mk_settings_store h true true) in
  accepted c -> opened (nvs s) h = Some (NS, NVS_READWRITE) ->
  wp (write_factory store c) (fun e s' => e = ESP_OK ->
    stored NETWORK_SLOT_A c (nvs s') /\ settled_in NS none_staged (nvs s') /\
    opened (nvs s') h = Some (NS, NVS_READWRITE)) s.
Proof using laws.
  intros store Ha Ho. apply wp_steps_cons. eapply wp_mono; [by eapply erase_all_opened|].
  intros e s1 Ho1. split; [done|]. intros _. rewrite <- Ho1 in Ho.
  destruct (write_slot_sets h SLOT_A_KEYS NETWORK_SLOT_A c Ha eq_refl) as (ms & E & Hms).
  cbn [app]. unfold store. rewrite E. apply wp_steps_nested.
  pose proof (steps_commit_open h (writes (factory_values c)) (factory_values c)
    (ms ++ [set_slot_number store KEY_ACTIVE NETWORK_SLOT_A; set_slot_number store KEY_STAGED 0;
            set_slot_number store KEY_PENDING 0]) (nvs s1) s1) as Hc.
  cbv zeta in Hc. rewrite <- app_assoc in Hc. eapply wp_mono; [apply Hc; [| apply in_writes | |]|].
  - apply Forall2_app; [exact Hms|]. unfold none_staged. each_set; by apply number_sets.
  - unfold factory_values, none_staged. known_keys.
  - split; [done|]. intros _. split; [by exists h|]. by intros k v ?%elem_of_nil.
  - intros e2 s2 [[_ Hs] Ho2] He. specialize (Hs He). split; [split_and!; [done | done | |] | split; [|by apply Ho2]].
    + intros k v Hin. apply list_elem_of_singleton in Hin. injection Hin as -> ->. apply Hs, elem_of_app. right. by left.
    + intros k v Hin. apply Hs, elem_of_app. by left.
    + intros k v Hin. apply Hs, elem_of_app. right. by right.
Qed.

(** A start that cannot read the status, when it succeeds. *)
Lemma start_installs factory w :
  is_u32 (generation factory) -> ~ readable w ->
  wp (si_network_settings_initialize (Some factory)) (fun r w' => forall st, r.2 = Some st ->
    active st = factory /\ pending st = false /\ stored NETWORK_SLOT_A factory (fl w')) w.
Proof using laws.
  intros Hg Hr. unfold si_network_settings_initialize. case_if; [by apply wp_ret|]. apply negb_false_iff in Heqb.
  apply wp_flash_safe; [done|]. apply wp_bind, wp_modify, wp_bind, wp_on_net_disk.
  pose proof (open_write_spec NS (net_disk w) ltac:(done)) as Ho. unfold readable in Hr.
  unfold wp in Ho. apply wp_intro. fold open_settings in Ho.
  change (net_disk (w <| s_cached_status := None |>)) with (net_disk w).
  destruct (open_settings (net_disk w)) as [[e store] d]. cbn [fst snd] in *.
  destruct Ho as (_ & _ & Hok & _ & _). cbn [fst snd] in *. case_if; decided; [by apply wp_ret|].
  destruct (Hok Heqb0) as (h & -> & Ho). set (store := Some (mk_settings_store h true true)).
  change (Some (mk_settings_store h _ _)) with store in Hr |- *.
  apply wp_bind, wp_on_net_disk. unfold settle_start. apply wp_bind, wp_intro.
  change (net_disk (_ <| net_disk := d |>)) with d.
  assert (Hl : wp (load_status store) (finds (nvs d) (loads (nvs d))) d) by exact (load_finds h (nvs d) Ho d eq_refl).
  unfold wp in Hl. destruct (load_status store d) as [[e1 st1] d1]. cbn [fst snd] in *. destruct Hl as [E1 _].
  cbn [fst snd] in E1. case_if; decided; [|by destruct Hr].
  apply wp_bind. eapply wp_mono; [apply (write_factory_spec h factory); [done | by rewrite E1]|].
  intros e2 d2 Hf. assert (Hend : forall d3 r, (r.1 = ESP_OK -> active r.2 = factory /\ pending r.2 = false /\
      stored NETWORK_SLOT_A factory (nvs d3)) ->
    wp (on_net_disk (si_settings_store_close store);;
        return_if negb (bool_decide (r.1 = ESP_OK)) with mret (r.1, None) ;;
        publish_cached_status (r.2 <| recovered_pending := false |>);;
        mret (ESP_OK, Some r.2)) (fun r w' => forall st, r.2 = Some st ->
      active st = factory /\ pending st = false /\ stored NETWORK_SLOT_A factory (fl w'))
      (w <| s_cached_status := None |> <| net_disk := d3 |>)).
  { intros d3 r Hok3. apply wp_bind, wp_on_net_disk. eapply wp_mono; [apply close_spec|]. intros ? d4 [C4 F4].
    case_if; decided; [by apply wp_ret|]. destruct (Hok3 ltac:(done)) as (Ha & Hp & Hs).
    apply wp_bind, wp_modify, wp_ret. intros st [= <-]. split_and!; [done..|].
    eapply (stored_kept _ _ []); [unfold spares, own_keys; known_keys | | exact Hs].
    apply firmer_changed; [exact C4 | intros k x Hx].
    assert (Hx' : flash (nvs d4) k x) by exact Hx. by rewrite F4 in Hx'. }
  case_if; decided; [apply wp_ret, Hend; by intros He|]. destruct (Hf ltac:(done)) as (Hs & Hd & Ho2).
  eapply wp_mono; [by apply (load_finds h (nvs d2) Ho2)|]. intros r d3 [E3 Hl3]. apply Hend. intros He.
  specialize (Hl3 He). rewrite E3. destruct (loads_stored _ _ _ _ Hs Hl3) as [Hact _].
  split_and!; [done | by eapply loads_settled | done].
Qed.

(** A reset that succeeds. *)
Lemma reset_in_force c w :
  is_u32 (generation c) ->
  wp (si_network_settings_reset (Some c)) (fun e w' => e = ESP_OK -> in_force NETWORK_SLOT_A c w') w.
Proof using laws.
  intros Hg. unfold si_network_settings_reset. case_if; [by apply wp_ret|]. apply negb_false_iff in Heqb.
  apply wp_flash_safe; [done|]. apply wp_bind, wp_on_net_disk. unfold on_open_settings.
  apply wp_bind. eapply wp_mono; [by apply open_write_spec|]. intros r s1 (_ & _ & Hok & _).
  apply wp_bind. eapply (wp_mono _ (fun e s' => e = ESP_OK -> stored NETWORK_SLOT_A c (nvs s'))).
  - case_if; decided; [|by apply wp_ret]. destruct (Hok Heqb0) as (h & -> & Ho).
    eapply wp_mono; [by apply (write_factory_spec h c)|]. intros e s2 Hs He. by apply Hs.
  - intros e s2 Hs. apply wp_bind. eapply wp_mono; [apply close_spec|]. intros ? s3 [C3 F3]. apply wp_ret.
    apply wp_bind, wp_when; intros He; decided; [|by apply wp_ret]. apply wp_modify, wp_ret. intros _.
    split; [|by intros st [= <-]]. eapply (stored_kept _ _ []); [|apply firmer_changed; [exact C3 | intros k x Hx; rewrite <- F3; exact Hx] | by apply Hs].
    unfold spares, own_keys. known_keys.
Qed.

(** ** Trying a configuration out *)

(** The calls while no confirmation is given and nothing is reset, by a call or by a
    start whose first load fails. *)
Definition quiet_call (call : net_call) w : Prop :=
  match call with
  | NetConfirm | NetReset _ => False
  | NetStart _ => readable w
  | NetRestart n _ => nvs_restarts (fl w) n
  | _ => True
  end.

Definition is_stage (call : net_call (N := N)) : Prop := match call with NetStage _ => True | _ => False end.

Fixpoint net_run (calls : list net_call) w : net_world N :=
  match calls with [] => w | call :: calls => net_run calls (net_exec call w).2 end.

Fixpoint trial (calls : list net_call) w : Prop :=
  match calls with
  | [] => True
  | call :: calls => quiet_call call w /\ trial calls (net_exec call w).2
  end.

(** The statuses that the calls report. *)
Fixpoint reports (calls : list net_call) w : list si_network_settings_status_t :=
  match calls with
  | [] => []
  | call :: calls => option_list (net_exec call w).1 ++ reports calls (net_exec call w).2
  end.

Definition avoids slot (values : list (cstring * nvs_value)) : Prop := Forall (fun k => k ∉ values.*1) (own_keys slot).

Definition calmly slot (call : net_call) w w' : Prop :=
  (exists values, spares slot values /\ (~ is_stage call -> avoids (other_slot slot) values) /\
                  changed (writes values) (fl w) (fl w')) \/
  nvs_restarts (fl w) (fl w').

Ltac spare_keys Hv := destruct (slot_cases _ Hv) as [-> | ->]; unfold spares, avoids, own_keys; known_keys.

Lemma exec_calmly slot c call w :
  in_force slot c w -> quiet_call call w ->
  wp (net_exec call) (fun r w' => calmly slot call w w' /\ (forall st, s_cached_status w' = Some st -> active st = c) /\
    (forall st, r = Some st -> active st = c)) w.
Proof using laws.
  intros [Hst Hcache] Hq. pose proof (proj1 Hst) as Hv.
  assert (Hshow : forall w', shows c w w' -> forall st, s_cached_status w' = Some st -> active st = c).
  { intros w' Hs st Est. by destruct (Hs st Est) as [E|E]; [apply Hcache|]. }
  assert (Hsame : forall call, calmly slot call w w).
  { intros call'. left. exists []. split_and!; [|intros _|done]; spare_keys Hv. }
  destruct call; try done; cbn [net_exec quiet_call] in *.
  - apply wp_bind. eapply wp_mono; [by apply (start_spec slot c)|]. intros r w' (Hc & Hs & Hr). apply wp_ret.
    split_and!; [|by apply Hshow | intros st Hx; by apply (Hr st)].
    left. exists none_staged. split_and!; [..|exact Hc]; [|intros _]; spare_keys Hv.
  - apply wp_bind, wp_bind, wp_gets, wp_ret, wp_ret. split_and!; [done..|].
    intros st. destruct (s_cached_status w) as [st'|]; [|done]. intros Est. by apply Hcache.
  - apply wp_bind. eapply wp_mono; [by apply (stage_spec slot c)|]. intros e w' [[[Hc _] Hs] _]. apply wp_ret.
    split_and!; [|by apply Hshow | done]. left. eexists. split_and!; [..|exact Hc]; [|by intros []].
    unfold staging. spare_keys Hv.
  - apply wp_bind. eapply wp_mono; [by apply (mark_spec slot c)|]. intros e w' [[Hc _] Hs]. apply wp_ret.
    split_and!; [|by apply Hshow | done]. left. eexists. split_and!; [..|exact Hc]; [|intros _]; spare_keys Hv.
  - apply wp_bind. eapply wp_mono; [by apply (rollback_spec c)|]. intros e w' [[Hc _] Hs]. apply wp_ret.
    split_and!; [|by apply Hshow | done]. left. eexists. split_and!; [..|exact Hc]; [|intros _]; spare_keys Hv.
  - apply wp_intro. split_and!; [exact (Hsame (NetTask f)) | exact Hcache | done].
  - apply wp_intro. split_and!; [by right | done..].
Qed.

Lemma calmly_stored slot c call w w' : calmly slot call w w' -> stored slot c (fl w) -> stored slot c (fl w').
Proof using laws.
  intros [(values & Hs & _ & Hc)|Hr]; [by apply (stored_kept slot c values) | by apply stored_restart].
Qed.

Lemma run_in_force slot c calls w :
  in_force slot c w -> trial calls w ->
  in_force slot c (net_run calls w) /\ Forall (fun st => active st = c) (reports calls w).
Proof using laws.
  revert w. induction calls as [|call calls IH]; intros w Hf Ht; [by split|]. destruct Ht as [Hq Ht].
  pose proof (exec_calmly slot c call w Hf Hq) as (Hc & Hs & Hr).
  destruct (IH (net_exec call w).2) as [Hi Hrs]; [|done|].
  - split; [by eapply calmly_stored, Hf | exact Hs].
  - split; [exact Hi|]. cbn [reports]. apply Forall_app. split; [|exact Hrs].
    destruct (net_exec call w).1 as [st|]; [|by apply Forall_nil]. apply Forall_singleton. by apply Hr.
Qed.

Lemma run_beside slot c c' calls w :
  in_force slot c w -> trial calls w -> Forall (fun call => ~ is_stage call) calls ->
  slot_settled (other_slot slot) c' (fl w) -> slot_settled (other_slot slot) c' (fl (net_run calls w)).
Proof using laws.
  revert w. induction calls as [|call calls IH]; intros w Hf Ht Hn Hs; [done|]. destruct Ht as [Hq Ht].
  apply Forall_cons in Hn as [Hn1 Hn].
  pose proof (exec_calmly slot c call w Hf Hq) as (Hc & Hcache & _). apply IH; [|done..|].
  - split; [by eapply calmly_stored, Hf | exact Hcache].
  - destruct Hc as [(values & _ & Hav & Hch)|Hr]; [by eapply slot_kept; [apply Hav | exact Hch|]|].
    unfold slot_settled in *. destruct (keys_for_slot _); [by eapply settled_restart | done].
Qed.

(** What a start reports: the active configuration and no pending change; or the
    configuration of the factory, when the first load failed. *)
Definition start_names c factory w st : Prop :=
  pending st = false /\
  (readable w -> active st = c /\
     (recovered_pending st = true -> settled_in NS none_staged (fl (net_exec (NetStart factory) w).2))) /\
  (~ readable w -> active st = factory /\ stored NETWORK_SLOT_A factory (fl (net_exec (NetStart factory) w).2)).

Lemma readable_or w : readable w \/ ~ readable w.
Proof using.
  unfold readable. destruct (decide ((open_settings (net_disk w)).1.1 = ESP_OK)),
    (decide ((load_status (open_settings (net_disk w)).1.2 (open_settings (net_disk w)).2).1.1 = ESP_OK)); tauto.
Qed.

Lemma start_reports slot c factory w st :
  stored slot c (fl w) -> is_u32 (generation factory) -> (net_exec (NetStart factory) w).1 = Some st ->
  start_names c factory w st.
Proof using laws.
  intros Hst Hg Est. pose proof (start_spec slot c factory w Hst) as Hs. pose proof (start_installs factory w Hg) as Hi.
  assert (Hex : forall r w2, si_network_settings_initialize (Some factory) w = (r, w2) ->
    (net_exec (NetStart factory) w) = (r.2, w2)).
  { intros r w2 E. cbn [net_exec]. unfold bind. by rewrite E. }
  unfold start_names. unfold wp in Hs, Hi.
  destruct (si_network_settings_initialize (Some factory) w) as [r w2] eqn:E. rewrite (Hex _ _ eq_refl) in Est |- *.
  cbn [fst snd] in *. split_and!.
  - destruct (readable_or w) as [Hr|Hr]; [destruct (Hs Hr) as (_ & _ & Hs'); by apply Hs' | by apply Hi].
  - intros Hr. destruct (Hs Hr) as (_ & _ & Hs'). destruct (Hs' st Est) as (? & _ & ?). by split.
  - intros Hr. destruct (Hi Hr st Est) as (? & _ & ?). by split.
Qed.

(** C8: a configuration that is only tried out never becomes active.  Whatever is
    staged, marked pending and rolled back, however often a write fails halfway, a
    task may not touch the flash or the power is lost, every status that is reported
    names the confirmed configuration as active, as long as no start among the calls
    fails to load what is stored: such a start erases the settings and installs the
    configuration of the factory.  A start at the end reports the confirmed
    configuration, or that of the factory when its load failed; in both cases no
    pending change, and none is left staged in the flash when one was found. *)
Theorem unconfirmed_never_active slot c calls w factory :
  in_force slot c w -> trial calls w -> is_u32 (generation factory) ->
  let w' := net_run calls w in
  Forall (fun st => active st = c) (reports calls w) /\
  (forall st, (net_exec (NetStart factory) w').1 = Some st -> start_names c factory w' st).
Proof using laws.
  intros Hf Ht Hg w'. destruct (run_in_force slot c calls w Hf Ht) as [[Hst _] Hrs]. split; [exact Hrs|].
  intros st Est. by eapply start_reports.
Qed.

(** What the next start finds after a confirmation that may have been cut short. *)
Lemma confirm_restart slot c c' n n2 n' :
  stored slot c n -> accepted c' -> slot_settled (other_slot slot) c' n ->
  changed (writes (confirming (other_slot slot))) n n2 -> nvs_restarts n2 n' ->
  stored slot c n' \/ stored (other_slot slot) c' n'.
Proof using laws.
  intros (Hv & Ha & Hact & Hs) Ha' Hs' Hch Hr.
  assert (Hv' : slot_valid (other_slot slot) = true) by by destruct (slot_cases _ Hv) as [-> | ->].
  assert (Hkeep : forall sl x, sl = slot \/ sl = other_slot slot -> slot_settled sl x n -> slot_settled sl x n').
  { intros sl x Hsl Hx. assert (Hx2 : slot_settled sl x n2).
    { eapply slot_kept; [|exact Hch | exact Hx]. destruct (slot_cases _ Hv) as [-> | ->], Hsl as [-> | ->];
        unfold own_keys, confirming, none_staged; known_keys. }
    unfold slot_settled in *. destruct (keys_for_slot sl); [by eapply settled_restart | done]. }
  destruct (restart_law _ _ Hr (NS, KEY_ACTIVE)) as [H1 H2].
  assert (Hactive : forall v, contents n' !! (NS, KEY_ACTIVE) = Some (NvsInt NVS_U8 v) -> active_settled v n').
  { intros v E k x Hin. apply list_elem_of_singleton in Hin. injection Hin as -> ->.
    split; [done|]. intros y Hy. by rewrite <- E; apply H2. }
  destruct (proj2 (Hch _) _ H1) as [Hx|(v & [_ Hin] & Hx)].
  - left. destruct (Hact KEY_ACTIVE (NvsInt NVS_U8 slot)) as [_ Hf]; [by left|]. apply Hf in Hx.
    split_and!; [done..| by apply Hactive | apply Hkeep; [by left | done]].
  - right. assert (v = NvsInt NVS_U8 (other_slot slot)) as ->.
    { unfold confirming, none_staged in Hin. cbn [snd] in Hin. rewrite !elem_of_cons in Hin.
      destruct Hin as [E|[E|[E|E]]]; [by injection E | discriminate E.. | by apply elem_of_nil in E]. }
    split_and!; [done..| by apply Hactive | apply Hkeep; [by right | done]].
Qed.

(** The end of a confirmation that succeeded. *)
Lemma confirmed_stored slot c c' n n2 :
  stored slot c n -> accepted c' -> slot_settled (other_slot slot) c' n ->
  changed (writes (confirming (other_slot slot))) n n2 -> settled_in NS (confirming (other_slot slot)) n2 ->
  stored (other_slot slot) c' n2.
Proof using.
  intros Hst Ha Hs Hch Hd. pose proof (proj1 Hst) as Hv. split_and!; [|done| |].
  - by destruct (slot_cases _ Hv) as [-> | ->].
  - intros k v Hin. apply list_elem_of_singleton in Hin. injection Hin as -> ->. apply Hd. by left.
  - eapply slot_kept; [|exact Hch | exact Hs]. destruct (slot_cases _ Hv) as [-> | ->];
      unfold own_keys, confirming, none_staged; known_keys.
Qed.

(** What a stage that succeeded leaves. *)
Lemma stage_settles slot c config w e w' :
  in_force slot c w -> si_network_settings_stage (Some config) w = (e, w') -> e = ESP_OK ->
  let c' := config <| generation := u32 (generation c + 1) |> in
  accepted c' /\ in_force slot c w' /\ slot_settled (other_slot slot) c' (fl w').
Proof using laws.
  intros [Hst Hcache] E He c'. pose proof (stage_spec slot c config w Hst) as Hx. cbv zeta in Hx. fold c' in Hx.
  unfold wp in Hx. rewrite E in Hx. cbn [fst snd] in Hx. destruct Hx as [[[Hch Hs] Hshow] Ha].
  specialize (Hs He). pose proof (proj1 Hst) as Hv. split; [by apply Ha|]. split; [split|].
  - eapply stored_kept; [|exact Hch | exact Hst]. unfold staging. spare_keys Hv.
  - intros st Est. by destruct (Hshow st Est) as [E'|E']; [apply Hcache|].
  - unfold slot_settled, staging in *. destruct (keys_for_slot (other_slot slot)) as [keys|] eqn:Ek.
    + intros k v Hin. apply Hs, elem_of_app. by left.
    + by destruct (slot_cases _ Hv) as [-> | ->].
Qed.

(** C33: a confirmation takes over the whole configuration that was staged, or leaves
    the old one.  However it fails and whenever the power is lost, the next start
    reports one of the two as active, with every field of it, and the new one once the
    confirmation succeeded; unless that start fails to load what is stored, when it
    erases both and reports the configuration of the factory.  Between the stage and
    the confirmation no start fails so ([quiet_call]). *)
Theorem confirm_all_or_nothing slot c config calls w n' f factory :
  in_force slot c w -> is_u32 (generation factory) ->
  let '(e0, w1) := si_network_settings_stage (Some config) w in
  e0 = ESP_OK -> trial calls w1 -> Forall (fun call => ~ is_stage call) calls ->
  let c' := config <| generation := u32 (generation c + 1) |> in
  let '(e, w2) := si_network_settings_confirm (net_run calls w1) in
  let w3 := mk_net_world None (mk_system n' f) in
  (e = ESP_OK -> exists st, s_cached_status w2 = Some st /\ active st = c' /\ pending st = false) /\
  (nvs_restarts (fl w2) n' -> forall st, (net_exec (NetStart factory) w3).1 = Some st ->
     (start_names c factory w3 st \/ start_names c' factory w3 st) /\
     (e = ESP_OK -> start_names c' factory w3 st)).
Proof using laws.
  intros Hf Hg. destruct (si_network_settings_stage (Some config) w) as [e0 w1] eqn:E0. intros He0 Ht Hn c'.
  destruct (stage_settles _ _ _ _ _ _ Hf E0 He0) as (Ha & Hf1 & Hs1). fold c' in Ha, Hs1.
  destruct (run_in_force slot c calls w1 Hf1 Ht) as [[Hst _] _].
  pose proof (run_beside slot c c' calls w1 Hf1 Ht Hn Hs1) as Hs.
  destruct (si_network_settings_confirm (net_run calls w1)) as [e w2] eqn:E.
  pose proof (confirm_spec slot c _ Hst) as Hc. unfold wp in Hc. rewrite E in Hc. cbn [fst snd] in Hc. destruct Hc as [[Hch Hd] Hok]. intros w3.
  split; [intros He; by apply Hok|]. intros Hr st Est.
  assert (Hx : (stored slot c n' \/ stored (other_slot slot) c' n') /\ (e = ESP_OK -> stored (other_slot slot) c' n')).
  { split; [by eapply confirm_restart|]. intros He. apply (stored_restart _ _ _ _ Hr).
    eapply confirmed_stored; [exact Hst | done | exact Hs | exact Hch | by apply Hd]. }
  destruct Hx as [Hx Hx'].
  assert (Hrep : forall sl x, stored sl x n' -> start_names x factory w3 st).
  { intros sl x Hsx. by apply (start_reports sl x factory w3 st). }
  split; [destruct Hx; [left | right]; by eapply Hrep | intros He; eapply Hrep, Hx', He].
Qed.
End network.

(** ** A change of the address *)

Abbreviation demo_factory := (si_network_config_default (Some (cstr "exoanchor-a1b2c3"))).
Abbreviation demo_static := (mk_network_config 1 0 1 false (cstr "kvm-lab") (cstr "192.168.7.20")
  (cstr "255.255.255.0") (cstr "192.168.7.1") [] []).

Definition demo_world : net_world ram := mk_net_world None (mk_system (mk_ram ∅ ∅ None) demo_flash).

(** A device that was reset. *)
Definition demo_reset : esp_err_t * net_world ram := si_network_settings_reset (Some demo_factory) demo_world.

Lemma demo_in_force : in_force NETWORK_SLOT_A demo_factory demo_reset.2.
Proof.
  pose proof (reset_in_force demo_factory demo_world ltac:(vm_compute; split; [discriminate | reflexivity])) as H.
  apply H. by_eval.
Qed.

Definition demo_staged : esp_err_t * net_world ram := si_network_settings_stage (Some demo_static) demo_reset.2.

(** What a loss of power leaves of the flash. *)
Definition power_lost (w : net_world ram) : ram := mk_ram (safe (nvs (net_disk w))) (safe (nvs (net_disk w))) None.

Lemma power_lost_restarts w : nvs_restarts (nvs (net_disk w)) (power_lost w).
Proof. split; [done|]. intros k. by right. Qed.

(** It is tried out, and the power is lost before anybody confirms it. *)
Definition demo_tried : list (net_call (N := ram)) := [NetStage demo_static; NetMark; NetGet].

Definition then_lost (calls : list (net_call (N := ram))) (w : net_world ram) : list net_call :=
  calls ++ [NetRestart (power_lost (net_run calls w)) demo_flash].

Lemma trial_lost calls w : trial calls w -> trial (then_lost calls w) w.
Proof.
  unfold then_lost. assert (H : forall rest w, trial calls w -> trial rest (net_run calls w) -> trial (calls ++ rest) w).
  { intros rest. clear w. induction calls as [|call calls IH]; intros w; [done|]. intros [Hq Ht] Hr. split; [done|]. by apply IH. }
  intros Ht. apply H; [done|]. split; [apply power_lost_restarts | done].
Qed.

Lemma readable_at (w : net_world ram) :
  (load_status (open_settings (net_disk w)).1.2 (open_settings (net_disk w)).2).1.1 = ESP_OK -> readable w.
Proof. unfold readable. auto. Qed.

Lemma demo_factory_generation : is_u32 (generation demo_factory).
Proof. split; [discriminate | reflexivity]. Qed.

Lemma unconfirmed_never_active_witness :
  let w' := net_run (then_lost demo_tried demo_reset.2) demo_reset.2 in
  exists st, (net_exec (NetStart demo_factory) w').1 = Some st /\ active st = demo_factory /\ pending st = false.
Proof.
  set (w' := net_run (then_lost demo_tried demo_reset.2) demo_reset.2).
  pose proof (unconfirmed_never_active NETWORK_SLOT_A demo_factory (then_lost demo_tried demo_reset.2) demo_reset.2
                demo_factory demo_in_force (trial_lost demo_tried demo_reset.2 ltac:(by repeat split))
                demo_factory_generation) as [_ H].
  fold w' in H. assert (Hr : readable w') by (apply readable_at; by_eval).
  assert (Hs : exists st, (net_exec (NetStart demo_factory) w').1 = Some st) by (eexists; by_eval).
  destruct Hs as [st Hst]. exists st. split; [exact Hst|]. destruct (H st Hst) as (Hp & Ha & _).
  destruct (Ha Hr) as [Ha' _]. by split.
Defined.

(** It is tried out and confirmed, and then the power is lost. *)
Definition demo_confirmed : esp_err_t * net_world ram := si_network_settings_confirm (net_run [NetMark; NetGet] demo_staged.2).

Lemma confirm_all_or_nothing_witness :
  demo_confirmed.1 = ESP_OK /\
  forall st, (net_exec (NetStart demo_factory) (mk_net_world None (mk_system (power_lost demo_confirmed.2) demo_flash))).1
               = Some st -> active st = demo_static <| generation := 1 |>.
Proof.
  pose proof (confirm_all_or_nothing NETWORK_SLOT_A demo_factory demo_static [NetMark; NetGet] demo_reset.2
                (power_lost demo_confirmed.2) demo_flash demo_factory demo_in_force demo_factory_generation) as H.
  change (si_network_settings_stage (Some demo_static) demo_reset.2) with demo_staged in H.
  assert (E0 : demo_staged.1 = ESP_OK) by by_eval.
  assert (E : demo_confirmed.1 = ESP_OK) by by_eval.
  assert (Hr : readable (mk_net_world None (mk_system (power_lost demo_confirmed.2) demo_flash)))
    by (apply readable_at; by_eval).
  pose proof (power_lost_restarts demo_confirmed.2) as Hp.
  unfold demo_confirmed in *. revert H E0 E Hr Hp. generalize demo_staged. intros [e0 w1] H E0. cbn [fst snd] in *.
  specialize (H E0 ltac:(by repeat split) ltac:(repeat constructor; by intros [])). cbv zeta in H.
  destruct (si_network_settings_confirm (net_run [NetMark; NetGet] w1)) as [e w2]. cbn [fst snd].
  intros E Hr Hp. split; [exact E|]. intros st Hst. destruct H as [_ H].
  destruct (H Hp st Hst) as [_ H']. destruct (H' E) as (_ & Ha & _). by destruct (Ha Hr).
Defined.
