(* ===== verification/BootKeyManager.v ===== *)
(** * The boot key manager: [application/boot_key_manager.c]

    A plan to press a firmware key is created, approved by a session and started; a
    task then holds the control lease, presses the reset button and repeats the key
    until the sequence decides otherwise, and a session confirms what it saw.

    The task is a step function: a step is what it does between two points where
    other tasks can run, so one section under the lock or one call of another
    module.  The lease status that the loop fetches in each round is read by nobody
    and left out. *)

From Stdlib Require Import String.
From S2P Require Import Prelude CText Hex Firmware BootKeySequence.
From S2P Require Import HidOwner HidManager ControlLease.

Definition SI_BOOT_KEY_PLAN_ID_MAX : nat := 31.
Definition SI_BOOT_KEY_SESSION_ID_MAX : nat := 31.
Definition SI_BOOT_KEY_EVIDENCE_MAX : nat := 95.
Definition SI_BOOT_KEY_ERROR_MAX : nat := 127.

Inductive si_boot_key_state_t :=
| SI_BOOT_KEY_STATE_EMPTY | SI_BOOT_KEY_STATE_PLANNED | SI_BOOT_KEY_STATE_APPROVED
| SI_BOOT_KEY_STATE_STARTING | SI_BOOT_KEY_STATE_WAITING_HID | SI_BOOT_KEY_STATE_WAITING_START
| SI_BOOT_KEY_STATE_RUNNING | SI_BOOT_KEY_STATE_AWAITING_VERIFICATION | SI_BOOT_KEY_STATE_VERIFIED
| SI_BOOT_KEY_STATE_CANCELLED | SI_BOOT_KEY_STATE_PREEMPTED | SI_BOOT_KEY_STATE_TIMED_OUT
| SI_BOOT_KEY_STATE_FAILED.

#[export] Instance boot_state_eq_dec : EqDecision si_boot_key_state_t.
Proof. solve_decision. Defined.
#[export] Instance boot_state_enum : CEnum si_boot_key_state_t.
Proof.
  enum_of [SI_BOOT_KEY_STATE_EMPTY; SI_BOOT_KEY_STATE_PLANNED; SI_BOOT_KEY_STATE_APPROVED;
           SI_BOOT_KEY_STATE_STARTING; SI_BOOT_KEY_STATE_WAITING_HID; SI_BOOT_KEY_STATE_WAITING_START;
           SI_BOOT_KEY_STATE_RUNNING; SI_BOOT_KEY_STATE_AWAITING_VERIFICATION; SI_BOOT_KEY_STATE_VERIFIED;
           SI_BOOT_KEY_STATE_CANCELLED; SI_BOOT_KEY_STATE_PREEMPTED; SI_BOOT_KEY_STATE_TIMED_OUT;
           SI_BOOT_KEY_STATE_FAILED].
Defined.

Record si_boot_key_status_t := mk_boot_status {
  state : si_boot_key_state_t;
  approval_required : bool;
  approved : bool;
  cancel_requested : bool;
  reset_triggered : bool;
  attempts_sent : Z;
  created_ms : Z;
  started_ms : Z;
  updated_ms : Z;
  finished_ms : Z;
  plan_id : cstring;
  approved_by_session : cstring;
  verified_by_session : cstring;
  evidence : cstring;
  plan_error : cstring;
  plan_config : si_boot_key_sequence_config_t
}.

#[export] Instance eta_boot_status : Settable si_boot_key_status_t := fun s =>
  mk_boot_status (state s) (approval_required s) (approved s) (cancel_requested s) (reset_triggered s)
    (attempts_sent s) (created_ms s) (started_ms s) (updated_ms s) (finished_ms s) (plan_id s)
    (approved_by_session s) (verified_by_session s) (evidence s) (plan_error s) (plan_config s).

Definition zero_boot_config : si_boot_key_sequence_config_t := mk_boot_config [] 0 0 [] 0 0 0 0.

Definition zero_boot_status : si_boot_key_status_t :=
  mk_boot_status SI_BOOT_KEY_STATE_EMPTY false false false false 0 0 0 0 0 [] [] [] [] [] zero_boot_config.

(** ** The task's locals and where it stands *)

Record boot_task_t := mk_boot_task {
  bt_plan_id : cstring;
  bt_config : si_boot_key_sequence_config_t;
  bt_attempts : Z;
  bt_cancel : bool;
  bt_owner : si_hid_owner_token_t;
  bt_started_ms : Z
}.

#[export] Instance eta_boot_task : Settable boot_task_t := fun t =>
  mk_boot_task (bt_plan_id t) (bt_config t) (bt_attempts t) (bt_cancel t) (bt_owner t) (bt_started_ms t).

Inductive boot_pc :=
| BootEntry
| BootTouch
| BootBeforeReset
| BootReset
| BootStarted
| BootRound
| BootRenew
| BootDecide (lease_ret : esp_err_t)
| BootSend
| BootCount
| BootWait (decision : si_boot_key_decision_t)
| BootFinish (end_state : si_boot_key_state_t) (text : cstring)
| BootReleaseKeys
| BootReleaseLease
| BootGone.

Record boot_world := mk_boot_world {
  s_boot_lock : bool;
  s_task : option nat;
  s_status : si_boot_key_status_t;
  s_plan_seq : Z;
  boot_lease : lease_world;
  boot_tasks : list (boot_pc * boot_task_t)
}.

#[export] Instance eta_boot_world : Settable boot_world := fun w =>
  mk_boot_world (s_boot_lock w) (s_task w) (s_status w) (s_plan_seq w) (boot_lease w) (boot_tasks w).

(** What a call or a step reads from outside: whether the lock comes in time, the
    clock, whether a mutex or a task can be created, the result of the reset relay,
    and what the lease reads. *)
Record boot_env := mk_boot_env {
  in_time : bool;
  clock_ms : Z;
  can_create : bool;
  si_power_press_reset : esp_err_t;
  lease_reads : lease_env;
  touch_reads : touch_env
}.

(** What a task does to the target and to the lease; the handle of the task [i] is
    the number [S i], as no handle is NULL. *)
Inductive boot_event :=
| ResetPressed
| KeySent (key : cstring) (owner : si_hid_owner_token_t) (result : esp_err_t)
| KeysReleased (owner : si_hid_owner_token_t)
| LeaseReleased (owner : si_hid_owner_token_t).

(** ** Under the lock *)

Definition take_lock (env : boot_env) : st boot_world esp_err_t :=
  lock ← gets s_boot_lock;
  return_if negb lock with mret ESP_ERR_INVALID_STATE ;;
  mret (if in_time env then ESP_OK else ESP_ERR_TIMEOUT).

Definition set_status (f : si_boot_key_status_t -> si_boot_key_status_t) : st boot_world unit :=
  modify (fun w => w <| s_status := f (s_status w) |>).

Definition plan_matches_locked (id : option cstring) (s : si_boot_key_status_t) : bool :=
  match id with Some id => negb (is_empty id) && streq id (plan_id s) | None => false end.

Definition state_has_worker (s : si_boot_key_state_t) : bool :=
  bool_decide (s = SI_BOOT_KEY_STATE_STARTING) || bool_decide (s = SI_BOOT_KEY_STATE_WAITING_HID) ||
  bool_decide (s = SI_BOOT_KEY_STATE_WAITING_START) || bool_decide (s = SI_BOOT_KEY_STATE_RUNNING).

Definition state_accepts_new_plan (s : si_boot_key_state_t) : bool :=
  bool_decide (s = SI_BOOT_KEY_STATE_EMPTY) || bool_decide (s = SI_BOOT_KEY_STATE_CANCELLED) ||
  bool_decide (s = SI_BOOT_KEY_STATE_VERIFIED) || bool_decide (s = SI_BOOT_KEY_STATE_TIMED_OUT) ||
  bool_decide (s = SI_BOOT_KEY_STATE_FAILED) || bool_decide (s = SI_BOOT_KEY_STATE_PREEMPTED).

Definition finish_locked (env : boot_env) (end_state : si_boot_key_state_t) (text : cstring)
  : st boot_world unit :=
  modify (fun w => (w <| s_status := ((((s_status w) <| state := end_state |>)
    <| finished_ms := clock_ms env |>) <| updated_ms := clock_ms env |>)
    <| plan_error := strtrunc (SI_BOOT_KEY_ERROR_MAX + 1) text |> |>) <| s_task := None |>).

(** [copy_out_locked]: what is stored through [out], when it is not NULL. *)
Definition copy_out_locked : st boot_world (esp_err_t * option si_boot_key_status_t) :=
  s ← gets s_status; mret (ESP_OK, Some s).

(** The body of a call that takes the lock and gives it back. *)
Definition locked (env : boot_env) (body : st boot_world (esp_err_t * option si_boot_key_status_t))
  : st boot_world (esp_err_t * option si_boot_key_status_t) :=
  ret ← take_lock env;
  return_if negb (bool_decide (ret = ESP_OK)) with mret (ret, None) ;;
  body.

Definition session_bad (session : option cstring) : bool :=
  match session with
  | Some s => is_empty s || (SI_BOOT_KEY_SESSION_ID_MAX <? length s)%nat
  | None => true
  end.

(** ** The calls *)

Definition si_boot_key_manager_start (env : boot_env) : st boot_world esp_err_t :=
  lock ← gets s_boot_lock;
  return_if lock with mret ESP_OK ;;
  return_if negb (can_create env) with mret ESP_ERR_NO_MEM ;;
  modify (fun w => (w <| s_boot_lock := true |>) <| s_status := zero_boot_status |>);;
  mret ESP_OK.

(** [bk-%08lx-%04lx] *)
Definition new_plan_id (now seq : Z) : cstring :=
  strtrunc (SI_BOOT_KEY_PLAN_ID_MAX + 1)
    (cstr "bk-" ++ hex32 now ++ cstr "-" ++ hex_text [u8 (Z.shiftr seq 8); u8 seq]).

Definition si_boot_key_plan_create (env : boot_env) (config : option si_boot_key_sequence_config_t)
  : st boot_world (esp_err_t * option si_boot_key_status_t) :=
  return_if negb (si_boot_key_sequence_validate config) with mret (ESP_ERR_INVALID_ARG, None) ;;
  locked env (
    s ← gets s_status;
    return_if negb (state_accepts_new_plan (state s)) with mret (ESP_ERR_INVALID_STATE, None) ;;
    modify (fun w => w <| s_plan_seq := u32 (s_plan_seq w + 1) |>);;
    seq ← gets s_plan_seq;
    set_status (fun _ => mk_boot_status SI_BOOT_KEY_STATE_PLANNED true false false false 0 (clock_ms env) 0
      (clock_ms env) 0 (new_plan_id (clock_ms env) seq) [] [] [] [] (default zero_boot_config config));;
    copy_out_locked).

Definition si_boot_key_plan_get (env : boot_env) (out : bool)
  : st boot_world (esp_err_t * option si_boot_key_status_t) :=
  return_if negb out with mret (ESP_ERR_INVALID_ARG, None) ;;
  locked env copy_out_locked.

Definition si_boot_key_plan_approve (env : boot_env) (id session : option cstring)
  : st boot_world (esp_err_t * option si_boot_key_status_t) :=
  return_if session_bad session with mret (ESP_ERR_INVALID_ARG, None) ;;
  locked env (
    s ← gets s_status;
    return_if negb (plan_matches_locked id s) with mret (ESP_ERR_NOT_FOUND, None) ;;
    return_if negb (bool_decide (state s = SI_BOOT_KEY_STATE_PLANNED)) with mret (ESP_ERR_INVALID_STATE, None) ;;
    set_status (fun s => (((s <| state := SI_BOOT_KEY_STATE_APPROVED |>) <| approved := true |>)
      <| updated_ms := clock_ms env |>)
      <| approved_by_session := strtrunc (SI_BOOT_KEY_SESSION_ID_MAX + 1) (deref session) |>);;
    copy_out_locked).

(** [xTaskCreate]: the new task stands at its entry. *)
Definition create_boot_task (env : boot_env) : st boot_world bool :=
  return_if negb (can_create env) with mret false ;;
  modify (fun w => (w <| s_task := Some (length (boot_tasks w)) |>)
    <| boot_tasks := boot_tasks w ++ [(BootEntry, mk_boot_task [] zero_boot_config 0 false zero_token 0)] |>);;
  mret true.

Definition si_boot_key_plan_start (env : boot_env) (id : option cstring)
  : st boot_world (esp_err_t * option si_boot_key_status_t) :=
  locked env (
    s ← gets s_status;
    return_if negb (plan_matches_locked id s) with mret (ESP_ERR_NOT_FOUND, None) ;;
    task ← gets s_task;
    return_if negb (bool_decide (state s = SI_BOOT_KEY_STATE_APPROVED)) || negb (approved s) ||
              bool_decide (task <> None) with mret (ESP_ERR_INVALID_STATE, None) ;;
    set_status (fun s => (s <| state := SI_BOOT_KEY_STATE_STARTING |>) <| updated_ms := clock_ms env |>);;
    task_ok ← create_boot_task env;
    if negb task_ok then
      finish_locked env SI_BOOT_KEY_STATE_FAILED (cstr "create boot-key task failed");;
      copied ← copy_out_locked;
      mret (ESP_ERR_NO_MEM, copied.2)
    else copy_out_locked).

Definition si_boot_key_plan_cancel (env : boot_env) (id session : option cstring)
  : st boot_world (esp_err_t * option si_boot_key_status_t) :=
  return_if session_bad session with mret (ESP_ERR_INVALID_ARG, None) ;;
  locked env (
    s ← gets s_status;
    return_if negb (plan_matches_locked id s) with mret (ESP_ERR_NOT_FOUND, None) ;;
    if state_has_worker (state s) then
      set_status (fun s => (s <| cancel_requested := true |>) <| updated_ms := clock_ms env |>);;
      copy_out_locked
    else if bool_decide (state s = SI_BOOT_KEY_STATE_PLANNED) || bool_decide (state s = SI_BOOT_KEY_STATE_APPROVED) ||
            bool_decide (state s = SI_BOOT_KEY_STATE_AWAITING_VERIFICATION) then
      finish_locked env SI_BOOT_KEY_STATE_CANCELLED [];;
      set_status (fun s => s <| approved := false |>);;
      copy_out_locked
    else mret (ESP_ERR_INVALID_STATE, None)).

Definition si_boot_key_plan_confirm (env : boot_env) (id session seen : option cstring)
  : st boot_world (esp_err_t * option si_boot_key_status_t) :=
  return_if session_bad session ||
            match seen with
            | Some e => is_empty e || (SI_BOOT_KEY_EVIDENCE_MAX <? length e)%nat
            | None => true
            end with mret (ESP_ERR_INVALID_ARG, None) ;;
  locked env (
    s ← gets s_status;
    return_if negb (plan_matches_locked id s) with mret (ESP_ERR_NOT_FOUND, None) ;;
    return_if negb (bool_decide (state s = SI_BOOT_KEY_STATE_AWAITING_VERIFICATION))
      with mret (ESP_ERR_INVALID_STATE, None) ;;
    set_status (fun s => ((((s <| state := SI_BOOT_KEY_STATE_VERIFIED |>) <| updated_ms := clock_ms env |>)
      <| finished_ms := clock_ms env |>)
      <| verified_by_session := strtrunc (SI_BOOT_KEY_SESSION_ID_MAX + 1) (deref session) |>)
      <| evidence := strtrunc (SI_BOOT_KEY_EVIDENCE_MAX + 1) (deref seen) |>);;
    copy_out_locked).

Definition si_boot_key_cancel_for_manual_hid (env : boot_env) : st boot_world bool :=
  ret ← take_lock env;
  return_if negb (bool_decide (ret = ESP_OK)) with mret false ;;
  s ← gets s_status;
  if state_has_worker (state s) then
    set_status (fun s => (s <| cancel_requested := true |>) <| updated_ms := clock_ms env |>);;
    mret true
  else if bool_decide (state s = SI_BOOT_KEY_STATE_PLANNED) || bool_decide (state s = SI_BOOT_KEY_STATE_APPROVED) then
    set_status (fun s => s <| cancel_requested := true |>);;
    finish_locked env SI_BOOT_KEY_STATE_CANCELLED (cstr "cancelled by manual HID input");;
    mret true
  else mret false.

Definition si_boot_key_state_name (s : Z) : cstring :=
  match enum_of_Z s with
  | Some SI_BOOT_KEY_STATE_EMPTY => cstr "empty"
  | Some SI_BOOT_KEY_STATE_PLANNED => cstr "planned"
  | Some SI_BOOT_KEY_STATE_APPROVED => cstr "approved"
  | Some SI_BOOT_KEY_STATE_STARTING => cstr "starting"
  | Some SI_BOOT_KEY_STATE_WAITING_HID => cstr "waiting_hid"
  | Some SI_BOOT_KEY_STATE_WAITING_START => cstr "waiting_start"
  | Some SI_BOOT_KEY_STATE_RUNNING => cstr "running"
  | Some SI_BOOT_KEY_STATE_AWAITING_VERIFICATION => cstr "awaiting_verification"
  | Some SI_BOOT_KEY_STATE_VERIFIED => cstr "verified"
  | Some SI_BOOT_KEY_STATE_CANCELLED => cstr "cancelled"
  | Some SI_BOOT_KEY_STATE_PREEMPTED => cstr "preempted"
  | Some SI_BOOT_KEY_STATE_TIMED_OUT => cstr "timed_out"
  | Some SI_BOOT_KEY_STATE_FAILED => cstr "failed"
  | None => cstr "unknown"
  end.

(** ** The task *)

Definition task_snapshot (env : boot_env) (t : boot_task_t) : st boot_world (option boot_task_t) :=
  ret ← take_lock env;
  return_if negb (bool_decide (ret = ESP_OK)) with mret None ;;
  s ← gets s_status;
  mret (Some ((((t <| bt_plan_id := strtrunc (SI_BOOT_KEY_PLAN_ID_MAX + 1) (plan_id s) |>)
    <| bt_config := plan_config s |>) <| bt_attempts := attempts_sent s |>)
    <| bt_cancel := cancel_requested s |>)).

(** A section that only changes the status, while it is still that of the plan. *)
Definition if_plan_locked (env : boot_env) (id : cstring) (body : st boot_world unit) : st boot_world unit :=
  ret ← take_lock env;
  s ← gets s_status;
  when (bool_decide (ret = ESP_OK) && plan_matches_locked (Some id) s) body.

Definition on_boot_lease {A} (m : st lease_world A) : st boot_world A := fun w =>
  let '(a, l) := m (boot_lease w) in (a, w <| boot_lease := l |>).

Definition touch_boot (env : boot_env) (task : Z) (owner : si_hid_owner_token_t)
  : st boot_world (esp_err_t * si_hid_owner_token_t) :=
  r ← on_boot_lease (si_control_lease_touch_boot_sequence_owned (touch_reads env) task (Some owner));
  mret (r.1, default owner r.2).

Definition is_reset (config : si_boot_key_sequence_config_t) : bool :=
  trigger config =? enum_val SI_BOOT_KEY_TRIGGER_RESET.

Definition press (key : cstring) : si_hid_command_t :=
  mk_command SI_HID_COMMAND_COMBO None None 0 0 0 0 false false 0 0 0 [] [Some key].

Definition boot_failed : cstring := cstr "boot-key status unavailable".

(** What a round does with its decision. *)
Definition boot_decided (decision : si_boot_key_decision_t) : boot_pc :=
  match decision with
  | SI_BOOT_KEY_DECISION_SEND => BootSend
  | SI_BOOT_KEY_DECISION_WAIT_HID | SI_BOOT_KEY_DECISION_WAIT => BootWait decision
  | SI_BOOT_KEY_DECISION_COMPLETE => BootFinish SI_BOOT_KEY_STATE_AWAITING_VERIFICATION []
  | SI_BOOT_KEY_DECISION_CANCEL => BootFinish SI_BOOT_KEY_STATE_CANCELLED []
  | SI_BOOT_KEY_DECISION_PREEMPT =>
      BootFinish SI_BOOT_KEY_STATE_PREEMPTED (cstr "human KVM activity or control lease revocation")
  | SI_BOOT_KEY_DECISION_TIMEOUT =>
      BootFinish SI_BOOT_KEY_STATE_TIMED_OUT (cstr "boot-key sequence timed out")
  end.

Section task.
(** The guard of the embedded agent, and what happens while a command is admitted. *)
Context (call_guard : Z * Z -> st hid_state bool) (between : st hid_state unit).

Definition boot_key_task (env : boot_env) (task : Z) (pc : boot_pc) (t : boot_task_t)
  : st boot_world (boot_pc * boot_task_t * option boot_event) :=
  match pc with
  | BootEntry =>
      snapshot ← task_snapshot env t;
      mret match snapshot with
           | None => (BootFinish SI_BOOT_KEY_STATE_FAILED boot_failed, t, None)
           | Some t => (if bt_cancel t then BootFinish SI_BOOT_KEY_STATE_CANCELLED [] else BootTouch, t, None)
           end
  | BootTouch =>
      r ← touch_boot env task (bt_owner t);
      let t := t <| bt_owner := r.2 |> in
      mret (if negb (bool_decide (r.1 = ESP_OK))
            then BootFinish SI_BOOT_KEY_STATE_PREEMPTED (cstr "HID control lease unavailable or human KVM active")
            else if is_reset (bt_config t) then BootBeforeReset else BootStarted, t, None)
  | BootBeforeReset =>
      snapshot ← task_snapshot env t;
      mret match snapshot with
           | None => (BootFinish SI_BOOT_KEY_STATE_FAILED boot_failed, t, None)
           | Some t => (if bt_cancel t then BootFinish SI_BOOT_KEY_STATE_CANCELLED [] else BootReset, t, None)
           end
  | BootReset =>
      mret (if negb (bool_decide (si_power_press_reset env = ESP_OK))
            then BootFinish SI_BOOT_KEY_STATE_FAILED (cstr "Host reset trigger failed")
            else BootStarted, t, Some ResetPressed)
  | BootStarted =>
      let now := clock_ms env in
      if_plan_locked env (bt_plan_id t) (set_status (fun s => (((s <| started_ms := now |>) <| updated_ms := now |>)
        <| reset_triggered := is_reset (bt_config t) |>) <| state := SI_BOOT_KEY_STATE_WAITING_START |>));;
      mret (BootRound, t <| bt_started_ms := now |>, None)
  | BootRound =>
      snapshot ← task_snapshot env t;
      mret match snapshot with
           | None => (BootFinish SI_BOOT_KEY_STATE_FAILED boot_failed, t, None)
           | Some t => (BootRenew, t, None)
           end
  | BootRenew =>
      r ← touch_boot env task (bt_owner t);
      mret (BootDecide r.1, t <| bt_owner := r.2 |>, None)
  | BootDecide lease_ret =>
      matches ← gets (fun w => si_control_lease_owner_session_matches (lease_reads env)
        (Some (cstr "agent")) (Some (cstr "embedded-agent")) (lease_part (boot_lease w)));
      mounted ← gets (fun w => hid_mounted (hid_part (boot_lease w)));
      let lease_held := bool_decide (lease_ret = ESP_OK) && matches in
      let elapsed := u32 (clock_ms env - bt_started_ms t) in
      mret (boot_decided (si_boot_key_sequence_decide (Some (bt_config t)) elapsed (bt_attempts t) (bt_cancel t)
        false lease_held mounted), t, None)
  | BootSend =>
      ret ← on_boot_lease (on_hid (si_hid_execute_owned call_guard between (Some (press (key_code (bt_config t))))
        (Some (bt_owner t)) None));
      let sent := Some (KeySent (key_code (bt_config t)) (bt_owner t) ret) in
      mret (if negb (bool_decide (ret = ESP_OK))
            then (BootFinish SI_BOOT_KEY_STATE_FAILED (cstr "boot-key HID send failed"), t, sent)
            else (BootCount, t <| bt_attempts := u8 (bt_attempts t + 1) |>, sent))
  | BootCount =>
      if_plan_locked env (bt_plan_id t) (set_status (fun s => ((s <| attempts_sent := bt_attempts t |>)
        <| updated_ms := clock_ms env |>) <| state := SI_BOOT_KEY_STATE_RUNNING |>));;
      mret (BootRound, t, None)
  | BootWait decision =>
      if_plan_locked env (bt_plan_id t) (set_status (fun s => (s
        <| state := if bool_decide (decision = SI_BOOT_KEY_DECISION_WAIT_HID) then SI_BOOT_KEY_STATE_WAITING_HID
                    else SI_BOOT_KEY_STATE_WAITING_START |>) <| updated_ms := clock_ms env |>));;
      mret (BootRound, t, None)
  | BootFinish end_state text =>
      if_plan_locked env (bt_plan_id t) (finish_locked env end_state text);;
      mret (if generation (bt_owner t) =? 0 then BootGone else BootReleaseKeys, t, None)
  | BootReleaseKeys =>
      on_boot_lease (on_hid (si_hid_execute_owned call_guard between (Some release_all_command_of) (Some (bt_owner t)) None));;
      mret (BootReleaseLease, t, Some (KeysReleased (bt_owner t)))
  | BootReleaseLease =>
      on_boot_lease (si_control_lease_release_embedded_owner (lease_reads env) (Some (bt_owner t)));;
      mret (BootGone, t, Some (LeaseReleased (bt_owner t)))
  | BootGone => mret (BootGone, t, None)
  end.

(** ** What happens to the manager

    Other tasks may change the lease and the reports in any way. *)

Inductive boot_action :=
| BootManagerStart (env : boot_env)
| BootCreate (env : boot_env) (config : si_boot_key_sequence_config_t)
| BootGet (env : boot_env)
| BootApprove (env : boot_env) (id session : option cstring)
| BootStartPlan (env : boot_env) (id : option cstring)
| BootCancel (env : boot_env) (id session : option cstring)
| BootConfirm (env : boot_env) (id session seen : option cstring)
| BootManualHid (env : boot_env)
| BootTask (env : boot_env) (i : nat)
| BootOthers (l : lease_world).

Definition boot_exec (action : boot_action) : st boot_world (option boot_event) :=
  match action with
  | BootManagerStart env => si_boot_key_manager_start env;; mret None
  | BootCreate env config => si_boot_key_plan_create env (Some config);; mret None
  | BootGet env => si_boot_key_plan_get env true;; mret None
  | BootApprove env id session => si_boot_key_plan_approve env id session;; mret None
  | BootStartPlan env id => si_boot_key_plan_start env id;; mret None
  | BootCancel env id session => si_boot_key_plan_cancel env id session;; mret None
  | BootConfirm env id session seen => si_boot_key_plan_confirm env id session seen;; mret None
  | BootManualHid env => si_boot_key_cancel_for_manual_hid env;; mret None
  | BootTask env i =>
      tasks ← gets boot_tasks;
      match tasks !! i with
      | None => mret None
      | Some (pc, t) =>
          r ← boot_key_task env (Z.of_nat (S i)) pc t;
          modify (fun w => w <| boot_tasks := <[i := r.1]> (boot_tasks w) |>);;
          mret r.2
      end
  | BootOthers l => modify (fun w => w <| boot_lease := l |>);; mret None
  end.
End task.
