(* ===== verification/BootKeyManagerInvariant.v ===== *)
(** * The boot key manager: the invariant

    How a call moves the plan, what each step of the task leaves, and what a task
    that stands somewhere knows: its copy of the plan is the approved one as long as
    it may press anything. *)

From Stdlib Require Import String.
From S2P Require Import Prelude CText Hex Firmware BootKeySequence.
From S2P Require Import HidOwner HidManager ControlLease BootKeyManager.

(** ** The invariant *)

(** A state that only an approved plan reaches. *)
Definition past_approval (s : si_boot_key_state_t) : bool :=
  state_has_worker s || bool_decide (s = SI_BOOT_KEY_STATE_APPROVED) ||
  bool_decide (s = SI_BOOT_KEY_STATE_AWAITING_VERIFICATION) || bool_decide (s = SI_BOOT_KEY_STATE_VERIFIED).

Record status_ok (s : si_boot_key_status_t) : Prop := mk_status_ok {
  ok_id : strtrunc (SI_BOOT_KEY_PLAN_ID_MAX + 1) (plan_id s) = plan_id s;
  ok_attempts : 0 <= attempts_sent s <= max_attempts (plan_config s);
  ok_planned : state s <> SI_BOOT_KEY_STATE_EMPTY -> plan_id s <> [] /\ si_boot_key_sequence_validate (Some (plan_config s)) = true;
  ok_approved : past_approval (state s) = true -> approved s = true /\ approved_by_session s <> [];
  ok_complete : state s = SI_BOOT_KEY_STATE_AWAITING_VERIFICATION \/ state s = SI_BOOT_KEY_STATE_VERIFIED ->
    attempts_sent s = max_attempts (plan_config s);
  ok_verified : state s = SI_BOOT_KEY_STATE_VERIFIED -> verified_by_session s <> [] /\ evidence s <> []
}.

(** The task has not finished its plan yet. *)
Definition holding (pc : boot_pc) : bool :=
  match pc with BootReleaseKeys | BootReleaseLease | BootGone => false | _ => true end.

(** The task's copy of the plan. *)
Definition copy_of (t : boot_task_t) (s : si_boot_key_status_t) : Prop :=
  bt_plan_id t = plan_id s /\ bt_config t = plan_config s.

(** How a plan can end. *)
Definition ends (s : si_boot_key_status_t) (e : si_boot_key_state_t) : Prop :=
  state_accepts_new_plan e = true /\ past_approval e = false /\ e <> SI_BOOT_KEY_STATE_EMPTY \/
  e = SI_BOOT_KEY_STATE_AWAITING_VERIFICATION /\ attempts_sent s = max_attempts (plan_config s).

(** What a task that stands at [pc] knows. *)
Definition at_ok (s : si_boot_key_status_t) (pc : boot_pc) (t : boot_task_t) : Prop :=
  match pc with
  | BootEntry => bt_plan_id t = []
  | BootFinish e _ => bt_plan_id t = [] \/ copy_of t s /\ ends s e
  | BootReset => copy_of t s /\ is_reset (bt_config t) = true
  | BootRenew | BootDecide _ => copy_of t s /\ bt_attempts t = attempts_sent s
  | BootSend => copy_of t s /\ bt_attempts t = attempts_sent s /\ attempts_sent s < max_attempts (plan_config s) /\
                bt_cancel t = false
  | BootCount => copy_of t s /\ bt_attempts t = attempts_sent s + 1 /\ attempts_sent s < max_attempts (plan_config s)
  | BootBeforeReset => copy_of t s /\ is_reset (bt_config t) = true
  | _ => copy_of t s
  end.

(** The task [i] at [pc], with its locals. *)
Definition task_ok (w : boot_world) (i : nat) (pc : boot_pc) (t : boot_task_t) : Prop :=
  holding pc = true -> s_task w = Some i /\ at_ok (s_status w) pc t.

Record boot_ok (w : boot_world) : Prop := mk_boot_ok {
  ok_status : status_ok (s_status w);
  ok_tasks : forall i pc t, boot_tasks w !! i = Some (pc, t) -> task_ok w i pc t;
  ok_worker : s_task w <> None -> state_has_worker (state (s_status w)) = true;
  ok_started : s_boot_lock w = false -> boot_tasks w = [] /\ s_task w = None
}.

(** ** Rules for the lock *)

Lemma wp_take_lock env Q w :
  (forall e, e <> ESP_OK -> Q e w) -> (s_boot_lock w = true -> Q ESP_OK w) -> wp (take_lock env) Q w.
Proof.
  intros Hf Hs. apply wp_bind, wp_gets. destruct (s_boot_lock w); [|by apply wp_ret, Hf].
  destruct (in_time env); [by apply wp_ret, Hs | by apply wp_ret, Hf].
Qed.

Lemma wp_locked env body Q w :
  (forall e, e <> ESP_OK -> Q (e, None) w) -> (s_boot_lock w = true -> wp body Q w) -> wp (locked env body) Q w.
Proof.
  intros Hf Hs. apply wp_bind, wp_take_lock.
  - intros e He. rewrite bool_decide_eq_false_2 by done. by apply wp_ret, Hf.
  - intros Hl. by apply Hs.
Qed.

Lemma wp_if_plan env id body Q w :
  Q tt w -> (s_boot_lock w = true -> id <> [] -> id = plan_id (s_status w) -> wp body Q w) ->
  wp (if_plan_locked env id body) Q w.
Proof.
  intros Hn Hs. apply wp_bind, wp_take_lock.
  - intros e He. apply wp_bind, wp_gets, wp_when; intros Hb; [|done]. by rewrite bool_decide_eq_false_2 in Hb.
  - intros Hl. apply wp_bind, wp_gets, wp_when; intros Hb; [|done]. apply andb_prop in Hb as [_ Hb].
    unfold plan_matches_locked in Hb. apply andb_prop in Hb as [Hne He].
    apply Hs; [done | by intros -> | by apply streq_true in He].
Qed.

(** ** The calls *)

Section manager.
Context (call_guard : Z * Z -> st hid_state bool) (between : st hid_state unit).
Implicit Types (w : boot_world) (s : si_boot_key_status_t).

Abbreviation step := (boot_key_task call_guard between).
Abbreviation exec := (boot_exec call_guard between).

(** A call that the running task does not notice: the plan, its state and its
    progress stay, and a cancellation can only be added. *)
Definition calm s s' : Prop :=
  exists cancel now, s' = (s <| cancel_requested := cancel |>) <| updated_ms := now |> /\
                     (cancel_requested s = true -> cancel = true).

(** How a call moves the plan. *)
Inductive plan_moves (action : boot_action) w w' : Prop :=
| plan_stays :
    calm (s_status w) (s_status w') -> s_task w' = s_task w -> boot_tasks w' = boot_tasks w -> plan_moves action w w'
| plan_created :
    state_accepts_new_plan (state (s_status w)) = true ->
    state (s_status w') = SI_BOOT_KEY_STATE_PLANNED -> approved (s_status w') = false ->
    cancel_requested (s_status w') = false -> status_ok (s_status w') ->
    s_task w' = s_task w -> boot_tasks w' = boot_tasks w -> plan_moves action w w'
| plan_approved env session now :
    action = BootApprove env (Some (plan_id (s_status w))) (Some session) -> session <> [] -> state (s_status w) = SI_BOOT_KEY_STATE_PLANNED ->
    s_status w' = ((((s_status w) <| state := SI_BOOT_KEY_STATE_APPROVED |>) <| approved := true |>)
      <| updated_ms := now |>) <| approved_by_session := session |> ->
    s_task w' = s_task w -> boot_tasks w' = boot_tasks w -> plan_moves action w w'
| plan_started now t :
    state (s_status w) = SI_BOOT_KEY_STATE_APPROVED -> approved (s_status w) = true -> s_task w = None ->
    s_boot_lock w = true ->
    s_status w' = ((s_status w) <| state := SI_BOOT_KEY_STATE_STARTING |>) <| updated_ms := now |> ->
    bt_plan_id t = [] ->
    s_task w' = Some (length (boot_tasks w)) -> boot_tasks w' = boot_tasks w ++ [(BootEntry, t)] -> plan_moves action w w'
| plan_dropped e now text a c :
    state_has_worker (state (s_status w)) = false -> state (s_status w) <> SI_BOOT_KEY_STATE_EMPTY ->
    state_accepts_new_plan e = true -> past_approval e = false -> e <> SI_BOOT_KEY_STATE_EMPTY -> (a = true -> approved (s_status w) = true) ->
    (cancel_requested (s_status w) = true -> c = true) ->
    s_status w' = ((((((s_status w) <| cancel_requested := c |>) <| state := e |>) <| finished_ms := now |>)
      <| updated_ms := now |>) <| plan_error := text |>) <| approved := a |> ->
    s_task w' = None -> boot_tasks w' = boot_tasks w -> plan_moves action w w'
| plan_confirmed session seen now :
    session <> [] -> seen <> [] -> state (s_status w) = SI_BOOT_KEY_STATE_AWAITING_VERIFICATION ->
    s_status w' = (((((s_status w) <| state := SI_BOOT_KEY_STATE_VERIFIED |>) <| updated_ms := now |>)
      <| finished_ms := now |>) <| verified_by_session := session |>) <| evidence := seen |> ->
    s_task w' = s_task w -> boot_tasks w' = boot_tasks w -> plan_moves action w w'
| plan_power_on :
    s_boot_lock w = false -> s_status w' = zero_boot_status -> s_task w' = s_task w ->
    boot_tasks w' = boot_tasks w -> plan_moves action w w'.

Definition is_task (action : boot_action) : Prop := match action with BootTask _ _ => True | _ => False end.

#[local] Instance calm_refl : Reflexive calm.
Proof using. intros s. exists (cancel_requested s), (updated_ms s). by destruct s. Qed.

Lemma stays action w : plan_moves action w w.
Proof using. by apply plan_stays. Qed.

Lemma session_good session : session_bad session = false ->
  exists x, session = Some x /\ x <> [] /\ strtrunc (SI_BOOT_KEY_SESSION_ID_MAX + 1) x = x.
Proof using.
  destruct session as [x|]; [|done]. intros H. apply orb_false_iff in H as [H1 H2]. apply Nat.ltb_ge in H2.
  exists x. split_and!; [done | by intros -> |]. apply strtrunc_id. lia.
Qed.

Lemma new_plan_id_ok now seq :
  new_plan_id now seq <> [] /\ strtrunc (SI_BOOT_KEY_PLAN_ID_MAX + 1) (new_plan_id now seq) = new_plan_id now seq.
Proof using. split; [done|]. apply strtrunc_id, strtrunc_length. lia. Qed.

Lemma valid_attempts c : si_boot_key_sequence_validate (Some c) = true -> 1 <= max_attempts c <= 20.
Proof using. unfold si_boot_key_sequence_validate. case_if; [done|]. intros _. split_guards. to_props. lia. Qed.

(** What a call of the manager leaves. *)
Definition call_leaves action w (r : option boot_event) w' : Prop :=
  r = None /\ plan_moves action w w' /\ (s_boot_lock w' = s_boot_lock w \/ s_boot_lock w' = true).

Lemma quiet_call action w : call_leaves action w None w.
Proof using. split_and!; [done | apply stays | by left]. Qed.

Lemma boot_call_spec {A} (m : st boot_world A) action w :
  wp m (fun _ w' => call_leaves action w None w') w -> wp (m;; mret None) (call_leaves action w) w.
Proof using. intros Hm. apply wp_bind. eapply wp_mono; [exact Hm|]. intros a w' H. by apply wp_ret. Qed.

Lemma matched id s : plan_matches_locked id s = true -> id = Some (plan_id s).
Proof using. destruct id as [id|]; [|done]. intros [Hn E]%andb_prop. by apply streq_true in E as <-. Qed.

(** One call that took the lock, up to its checks. *)
Ltac under_lock := apply boot_call_spec, wp_locked; [intros; apply quiet_call | intros Hlock; apply wp_bind, wp_gets].
Ltac check := case_if; [by apply wp_ret, quiet_call|].
Ltac known_state := match goal with E : state (s_status _) = _ |- _ => by rewrite E end.
Ltac leaves := apply wp_ret; split_and!; [done | | by left].

Lemma exec_moves action w :
  ~ is_task action -> wp (exec action) (call_leaves action w) w.
Proof using.
  intros Hn. destruct action as [env|env config|env|env id session|env id|env id session|env id session seen|env|env i|l];
    cbn [boot_exec is_task] in *; [..|done|].
  - apply boot_call_spec. unfold si_boot_key_manager_start. apply wp_bind, wp_gets. destruct (s_boot_lock w) eqn:El.
    + apply wp_ret, quiet_call.
    + case_if; [apply wp_ret, quiet_call|]. apply wp_bind, wp_modify, wp_ret.
      split_and!; [done | by apply plan_power_on | by right].
  - unfold si_boot_key_plan_create. case_if; [by apply boot_call_spec, wp_ret, quiet_call|]. under_lock. check. split_guards.
    apply wp_bind, wp_modify, wp_bind, wp_gets, wp_bind, wp_modify, wp_bind, wp_gets.
    pose proof (valid_attempts config ltac:(done)) as Hmax.
    destruct (new_plan_id_ok (clock_ms env) (u32 (s_plan_seq w + 1))) as [Hne Htr].
    leaves. apply plan_created; try done. by split; cbn; try done; try lia; intros [].
  - unfold si_boot_key_plan_get. apply boot_call_spec, wp_locked; [intros; apply quiet_call | intros Hlock].
    apply wp_bind, wp_gets, wp_ret, quiet_call.
  - unfold si_boot_key_plan_approve. case_if; [by apply boot_call_spec, wp_ret, quiet_call|].
    destruct (session_good _ Heqb) as (x & -> & Hx & Hlen). under_lock. check. check. split_guards. decided.
    apply matched in Heqb0 as ->.
    apply wp_bind, wp_modify, wp_bind, wp_gets. leaves.
    apply (plan_approved _ _ _ env x (clock_ms env)); try done. cbn [s_status set].
    change (deref (Some x)) with x. by rewrite Hlen.
  - unfold si_boot_key_plan_start. under_lock. check. apply wp_bind, wp_gets. check. split_guards. decided.
    apply wp_bind, wp_modify. unfold create_boot_task. apply wp_bind. case_if.
    + apply wp_ret. cbn [negb]. apply wp_bind, wp_modify, wp_bind, wp_gets. leaves.
      eapply (plan_dropped _ _ _ SI_BOOT_KEY_STATE_FAILED (clock_ms env)
        (strtrunc (SI_BOOT_KEY_ERROR_MAX + 1) (cstr "create boot-key task failed")) (approved (s_status w)) (cancel_requested (s_status w)));
        try done; known_state.
    + apply wp_bind, wp_modify, wp_ret. cbn [negb]. apply wp_bind, wp_gets. leaves.
      by apply (plan_started _ _ _ (clock_ms env) (mk_boot_task [] zero_boot_config 0 false zero_token 0)).
  - unfold si_boot_key_plan_cancel. case_if; [by apply boot_call_spec, wp_ret, quiet_call|]. under_lock. check. case_if.
    + apply wp_bind, wp_modify, wp_bind, wp_gets. leaves. apply plan_stays; try done.
      by exists true, (clock_ms env).
    + case_if; [|apply wp_ret, quiet_call].
      apply wp_bind, wp_modify, wp_bind, wp_modify, wp_bind, wp_gets. leaves.
      eapply (plan_dropped _ _ _ SI_BOOT_KEY_STATE_CANCELLED (clock_ms env)
        (strtrunc (SI_BOOT_KEY_ERROR_MAX + 1) []) false (cancel_requested (s_status w))); try done.
      by intros Hst; rewrite Hst in *.
  - unfold si_boot_key_plan_confirm. case_if; [by apply boot_call_spec, wp_ret, quiet_call|].
    apply orb_false_iff in Heqb as [Hs He]. destruct (session_good _ Hs) as (x & -> & Hx & Hlen).
    destruct seen as [e|]; [|done]. apply orb_false_iff in He as [He Hel]. apply Nat.ltb_ge in Hel.
    under_lock. check. check. split_guards. decided. apply wp_bind, wp_modify, wp_bind, wp_gets.
    leaves.
    apply (plan_confirmed _ _ _ x e (clock_ms env)); try done; [by intros -> |].
    cbn [s_status set]. change (deref (Some x)) with x. change (deref (Some e)) with e.
    by rewrite Hlen, (strtrunc_id _ e) by lia.
  - unfold si_boot_key_cancel_for_manual_hid. apply boot_call_spec, wp_bind, wp_take_lock.
    { intros e He. rewrite bool_decide_eq_false_2 by done. apply wp_ret, quiet_call. }
    intros Hl. rewrite bool_decide_eq_true_2 by done. apply wp_bind, wp_gets. case_if.
    + apply wp_bind, wp_modify, wp_ret. split_and!; [done | | by left]. apply plan_stays; try done.
      by exists true, (clock_ms env).
    + case_if; [|apply wp_ret, quiet_call].
      apply wp_bind, wp_modify, wp_bind, wp_modify. leaves.
      eapply (plan_dropped _ _ _ SI_BOOT_KEY_STATE_CANCELLED (clock_ms env)
        (strtrunc (SI_BOOT_KEY_ERROR_MAX + 1) (cstr "cancelled by manual HID input")) (approved (s_status w)) true); try done.
      by intros Hst; rewrite Hst in *.
  - apply wp_bind, wp_modify, wp_ret. split_and!; [done | | by left]. by apply plan_stays.
Qed.

(** ** The invariant is kept *)

Lemma calm_ok s s' : calm s s' -> status_ok s -> status_ok s'.
Proof using. intros (c & now & -> & _) []. by constructor. Qed.

Lemma calm_at s s' pc t : calm s s' -> at_ok s pc t -> at_ok s' pc t.
Proof using. by intros (c & now & -> & _). Qed.

Lemma accepts_idle e : state_accepts_new_plan e = true -> state_has_worker e = false.
Proof using. by destruct e. Qed.

Lemma moves_ok action w w' :
  plan_moves action w w' -> s_boot_lock w' = s_boot_lock w \/ s_boot_lock w' = true -> boot_ok w -> boot_ok w'.
Proof using.
  intros Hm Hl [Hs Ht Hw Hp].
  assert (Hp' : s_boot_lock w' = false -> boot_tasks w = [] /\ s_task w = None) by (intros E; apply Hp; by destruct Hl; congruence).
  assert (Hidle : state_has_worker (state (s_status w)) = false -> s_task w = None).
  { intros E. destruct (s_task w); [|done]. by rewrite Hw in E. }
  assert (Hnone : forall i pc t, s_task w = None -> boot_tasks w !! i = Some (pc, t) -> task_ok w' i pc t).
  { intros i pc t E Hi Hh. destruct (Ht i pc t Hi Hh) as [E' _]. congruence. }
  destruct Hm as [Hc Hst Hbt | Ha E1 E2 E3 Hs' Hst Hbt | env session now Hact Hne Ep E Hst Hbt | now t Ea Eap En El E Ez Hst Hbt
    | e now text a c Hi Hne Ha Hpa Hz Hap Hcc E Hst Hbt | session seen now Hx Hy Ea E Hst Hbt | El E Hst Hbt].
  - split.
    + by eapply calm_ok.
    + rewrite Hbt. intros i pc t Hi Hh. destruct (Ht i pc t Hi Hh) as [E Hat]. split; [congruence | by eapply calm_at].
    + rewrite Hst. intros Hx. destruct Hc as (c & now & -> & _). by apply Hw.
    + by rewrite Hbt, Hst.
  - apply accepts_idle in Ha. split; [done | | |].
    + rewrite Hbt. intros i pc t. by apply Hnone, Hidle.
    + by rewrite Hst, Hidle.
    + by rewrite Hbt, Hst.
  - assert (Hn : s_task w = None) by (apply Hidle; by rewrite Ep). destruct Hs. split.
    + rewrite E. split; cbn; try done. 2: by intros []. intros _. apply ok_planned0. by rewrite Ep.
    + rewrite Hbt. intros i pc t. by apply Hnone.
    + by rewrite Hst, Hn.
    + by rewrite Hbt, Hst.
  - destruct Hs. split.
    + rewrite E. split; cbn; try done; [| |by intros []]; intros _; [apply ok_planned0 | apply ok_approved0]; by rewrite Ea.
    + rewrite Hbt. intros i pc t' [Hi|[Hi Hj]]%lookup_app_Some; [by apply Hnone|].
      apply list_lookup_singleton_Some in Hj as [Hz Hj]. injection Hj as <- <-. intros _.
      split; [rewrite Hst; f_equal; lia | exact Ez].
    + intros _. by rewrite E.
    + intros Ex. destruct Hl; congruence.
  - destruct Hs. split.
    + rewrite E. split; cbn; try done; [by intros _; apply ok_planned0 | by rewrite Hpa | |]; intros He;
        exfalso; [destruct He as [-> | ->] | subst e]; done.
    + rewrite Hbt. intros i pc t. by apply Hnone, Hidle.
    + by rewrite Hst.
    + rewrite Hbt, Hst. intros Ex. by destruct (Hp' Ex).
  - assert (Hn : s_task w = None) by (apply Hidle; by rewrite Ea). destruct Hs. split.
    + rewrite E. split; cbn; try done; intros _; [apply ok_planned0 | apply ok_approved0 | apply ok_complete0]; rewrite Ea; auto.
    + rewrite Hbt. intros i pc t. by apply Hnone.
    + by rewrite Hst, Hn.
    + by rewrite Hbt, Hst.
  - destruct (Hp El) as [Hb Hn]. split.
    + rewrite E. by split; cbn.
    + rewrite Hbt, Hb. intros i pc t. by rewrite lookup_nil.
    + by rewrite Hst, Hn.
    + by rewrite Hbt, Hst.
Qed.

(** What a step of the task [i] at [pc] leaves. *)
Definition step_leaves w (i : nat) (pc : boot_pc) (r : boot_pc * boot_task_t * option boot_event) w' : Prop :=
  let '(pc', t', _) := r in
  (boot_tasks w' = boot_tasks w /\ s_boot_lock w' = s_boot_lock w) /\ status_ok (s_status w') /\
  (s_task w' <> None -> state_has_worker (state (s_status w')) = true) /\
  (holding pc = true -> state (s_status w') <> SI_BOOT_KEY_STATE_APPROVED) /\
  (if holding pc
   then (s_task w' = Some i \/ s_task w' = None /\ holding pc' = false) /\ (holding pc' = true -> at_ok (s_status w') pc' t')
   else (s_task w' = s_task w /\ s_status w' = s_status w) /\ holding pc' = false).

Lemma snapshot_spec env t Q w :
  Q None w ->
  (forall t', copy_of t' (s_status w) -> bt_attempts t' = attempts_sent (s_status w) ->
     bt_cancel t' = cancel_requested (s_status w) -> bt_owner t' = bt_owner t -> bt_started_ms t' = bt_started_ms t ->
     status_ok (s_status w) -> Q (Some t') w) ->
  status_ok (s_status w) -> wp (task_snapshot env t) Q w.
Proof using.
  intros Hf Hq Hs. apply wp_bind, wp_take_lock.
  - intros e He. rewrite bool_decide_eq_false_2 by done. by apply wp_ret.
  - intros _. apply wp_bind, wp_gets, wp_ret, Hq; try done. by split; [apply Hs|].
Qed.

Lemma wp_on_boot_lease {A} (m : st lease_world A) (Q : A -> boot_world -> Prop) w :
  (forall a l, Q a (w <| boot_lease := l |>)) -> wp (on_boot_lease m) Q w.
Proof using. intros HQ. unfold wp, on_boot_lease. destruct (m (boot_lease w)). apply HQ. Qed.

Lemma decide_sends c elapsed sent cancel human lease hid :
  match si_boot_key_sequence_decide (Some c) elapsed sent cancel human lease hid with
  | SI_BOOT_KEY_DECISION_SEND => cancel = false /\ sent < max_attempts c
  | SI_BOOT_KEY_DECISION_COMPLETE => max_attempts c <= sent
  | _ => True
  end.
Proof using. unfold si_boot_key_sequence_decide. repeat case_if; to_props; try done; by destruct cancel. Qed.

(** A step that changes the lease at most. *)
Lemma step_still w w' i pc pc' t' ev :
  boot_ok w -> s_task w = Some i -> holding pc = true -> holding pc' = true ->
  s_status w' = s_status w -> s_task w' = s_task w -> boot_tasks w' = boot_tasks w -> s_boot_lock w' = s_boot_lock w ->
  at_ok (s_status w) pc' t' -> step_leaves w i pc (pc', t', ev) w'.
Proof using.
  intros [Hs _ Hw _] Hi Hp Hp' E1 E2 E3 E4 Hat. unfold step_leaves. rewrite E1, E2, E3, E4, Hp, Hi.
  assert (Hwork : state_has_worker (state (s_status w)) = true) by (apply Hw; by rewrite Hi).
  split_and!; auto. intros _ E. by rewrite E in Hwork.
Qed.

(** A section that updates the status while the plan is worked on. *)
Lemma step_updates w s' i pc pc' t' ev :
  boot_ok w -> s_task w = Some i -> holding pc = true -> holding pc' = true ->
  status_ok s' -> state_has_worker (state s') = true -> at_ok s' pc' t' ->
  step_leaves w i pc (pc', t', ev) (w <| s_status := s' |>).
Proof using.
  intros _ Hi Hp Hp' Hs Hw Hat. unfold step_leaves. rewrite Hp. cbn. rewrite Hi. split_and!; auto.
  intros _ E. by rewrite E in Hw.
Qed.

(** The steps after the end of the plan. *)
Lemma step_after w w' i pc pc' t' ev :
  boot_ok w -> holding pc = false -> holding pc' = false ->
  s_status w' = s_status w -> s_task w' = s_task w -> boot_tasks w' = boot_tasks w -> s_boot_lock w' = s_boot_lock w ->
  step_leaves w i pc (pc', t', ev) w'.
Proof using.
  intros [Hs _ Hw _] Hp Hp' E1 E2 E3 E4. unfold step_leaves. rewrite E1, E2, E3, E4, Hp, Hp'. split_and!; auto.
Qed.

Lemma boot_finish_spec env i e text t w :
  boot_ok w -> s_task w = Some i -> at_ok (s_status w) (BootFinish e text) t ->
  wp (step env (Z.of_nat (S i)) (BootFinish e text) t) (step_leaves w i (BootFinish e text)) w.
Proof using.
  intros Hok Hi Hat. cbn [boot_key_task]. set (pc' := if generation (bt_owner t) =? 0 then BootGone else BootReleaseKeys).
  assert (Hp' : holding pc' = false) by (unfold pc'; by case_if). destruct Hok as [Hs _ Hw _].
  assert (Hwork : state_has_worker (state (s_status w)) = true) by (apply Hw; by rewrite Hi).
  apply wp_bind, wp_if_plan.
  - apply wp_ret. unfold step_leaves. rewrite Hp'. cbn. split_and!; auto; [|done]. intros _ E. by rewrite E in Hwork.
  - intros _ Hne Hid. apply wp_intro, wp_ret. unfold step_leaves. rewrite Hp'. cbn. destruct Hat as [Hx|[_ He]]; [done|].
    assert (Hna : e <> SI_BOOT_KEY_STATE_APPROVED) by (intros ->; by destruct He as [(He & _ & _)|[He _]]).
    split_and!; auto; [|done].
    destruct Hs. split; cbn; try done; [intros _; apply ok_planned0; by intros E; rewrite E in Hwork| | |].
    + intros Hx. destruct He as [(_ & E & _)|[-> _]]; [congruence | apply ok_approved0; unfold past_approval; by rewrite Hwork].
    + intros Hx. destruct He as [(_ & E & _)|[_ E]]; [by destruct Hx as [-> | ->] | done].
    + intros ->. by destruct He as [(_ & E & _)|[E _]].
Qed.

Lemma step_spec env i pc t w :
  boot_ok w -> task_ok w i pc t -> wp (step env (Z.of_nat (S i)) pc t) (step_leaves w i pc) w.
Proof using.
  intros Hok Ht. pose proof Hok as [Hs _ Hw _]. unfold task_ok in Ht.
  destruct (holding pc) eqn:Eh; [destruct (Ht eq_refl) as [Hi Hat]|]; clear Ht.
  2: { destruct pc; try done; cbn [boot_key_task];
       apply wp_bind, wp_on_boot_lease; intros a l; by apply wp_ret, step_after. }
  assert (Hwork : state_has_worker (state (s_status w)) = true) by (apply Hw; by rewrite Hi).
  assert (Hfail : forall pc' e text t', bt_plan_id t' = [] \/ copy_of t' (s_status w) ->
    state_accepts_new_plan e = true -> past_approval e = false -> e <> SI_BOOT_KEY_STATE_EMPTY ->
    holding pc' = true -> step_leaves w i pc' (BootFinish e text, t', None) w).
  { intros pc' e text t' Hx Ha Hp He Hpc. apply step_still; try done. destruct Hx; [by left | right]. split; [done|]. by left. }
  destruct pc; try done; cbn [boot_key_task at_ok] in *.
  - apply wp_bind, snapshot_spec; [| |done].
    + apply wp_ret, Hfail; auto.
    + intros t' Hc _ _ _ _ _. apply wp_ret. case_if; [apply Hfail; auto | by apply step_still].
  - apply wp_bind. unfold touch_boot. apply wp_bind, wp_on_boot_lease. intros r l. apply wp_ret, wp_ret.
    case_if; [|case_if; apply step_still; try done; by split].
    apply step_still; try done. right. split; [done|]. by left.
  - destruct Hat as [Hat Hr]. apply wp_bind, snapshot_spec; [| |done].
    + apply wp_ret, Hfail; auto.
    + intros t' Hc _ _ _ _ _. apply wp_ret. case_if; [apply Hfail; auto|]. apply step_still; try done. split; [done|].
      destruct Hc as [_ ->], Hat as [_ E]. by rewrite E in Hr.
  - destruct Hat as [Hat Hr]. apply wp_ret. case_if; [|by apply step_still].
    apply step_still; try done. right. split; [done|]. by left.
  - apply wp_bind, wp_if_plan; [by apply wp_ret, step_still|]. intros _ _ _. apply wp_modify, wp_ret.
    destruct Hs. apply step_updates; try done. split; cbn; try done; [| |by intros []]; intros _;
      [apply ok_planned0; by intros E; rewrite E in Hwork | apply ok_approved0; unfold past_approval; by rewrite Hwork].
  - apply wp_bind, snapshot_spec; [| |done].
    + apply wp_ret, Hfail; auto.
    + intros t' Hc Ha _ _ _ _. apply wp_ret. by apply step_still.
  - destruct Hat as [Hat Ha]. apply wp_bind. unfold touch_boot. apply wp_bind, wp_on_boot_lease. intros r l.
    by apply wp_ret, wp_ret, step_still.
  - destruct Hat as [Hat Ha]. apply wp_bind, wp_gets, wp_bind, wp_gets, wp_ret. cbv zeta.
    match goal with |- context [si_boot_key_sequence_decide (Some ?c) ?e ?a ?cc ?h ?l ?m] =>
      pose proof (decide_sends c e a cc h l m) as Hd; destruct (si_boot_key_sequence_decide (Some c) e a cc h l m) end;
      cbn [boot_decided]; try (apply step_still; done);
      try (apply step_still; try done; right; split; [done | by left]).
    + destruct Hd as [Hcc Hm]. destruct Hat as [E1 E2]. rewrite E2, Ha in Hm. apply step_still; try done.
    + destruct Hat as [E1 E2]. rewrite E2, Ha in Hd. destruct Hs. apply step_still; try done. right. split; [done|]. right.
      split; [done|]. lia.
  - destruct Hat as (Hat & Ha & Hm & Hc). apply wp_bind, wp_on_boot_lease. intros r l. apply wp_ret. case_if.
    + apply step_still; try done. right. split; [done|]. by left.
    + apply step_still; try done. split; [exact Hat|]. split; [|done]. cbn.
      destruct Hs, (ok_planned0 ltac:(by intros E; rewrite E in Hwork)) as [_ Hv]. apply valid_attempts in Hv.
      rewrite u8_small by (unfold is_u8; lia). lia.
  - destruct Hat as (Hat & Ha & Hm). apply wp_bind, wp_if_plan; [by apply wp_ret, step_still|]. intros _ _ _. apply wp_modify, wp_ret.
    destruct Hs. apply step_updates; try done. split; cbn; try done; [lia| | |by intros []]; intros _;
      [apply ok_planned0; by intros E; rewrite E in Hwork | apply ok_approved0; unfold past_approval; by rewrite Hwork].
  - apply wp_bind, wp_if_plan; [by apply wp_ret, step_still|]. intros _ _ _. apply wp_modify, wp_ret.
    destruct Hs. apply step_updates; try done; [|by case_if]. split; cbn; try done;
      [intros _ | intros _ | by case_if; intros [] | by case_if];
      [apply ok_planned0; by intros E; rewrite E in Hwork | apply ok_approved0; unfold past_approval; by rewrite Hwork].
  - by apply boot_finish_spec.
Qed.

(** ** Runs *)

Fixpoint boot_run (actions : list boot_action) w : boot_world :=
  match actions with [] => w | action :: actions => boot_run actions (exec action w).2 end.

(** The device after power-on. *)
Definition boot_fresh w : Prop :=
  s_boot_lock w = false /\ s_task w = None /\ s_status w = zero_boot_status /\ boot_tasks w = [].

Lemma fresh_ok w : boot_fresh w -> boot_ok w.
Proof using.
  intros (El & Et & Es & Eb). split; [rewrite Es; by split; cbn | rewrite Eb | by rewrite Et | by rewrite Eb, Et].
  intros i pc t. by rewrite lookup_nil.
Qed.

Lemma task_or_call action : (exists env i, action = BootTask env i) \/ ~ is_task action.
Proof using. destruct action; try (right; by intros []). left. by eexists _, _. Qed.

(** A step of a task that exists. *)
Lemma exec_task env i w :
  exec (BootTask env i) w =
  match boot_tasks w !! i with
  | None => (None, w)
  | Some (pc, t) =>
      let '((pc', t', ev), w') := step env (Z.of_nat (S i)) pc t w in
      (ev, w' <| boot_tasks := <[i := (pc', t')]> (boot_tasks w') |>)
  end.
Proof using.
  unfold boot_exec, bind, gets. cbn beta iota. destruct (boot_tasks w !! i) as [[pc t]|]; [|done].
  by destruct (step env (Z.of_nat (S i)) pc t w) as [[[pc' t'] ev] w'].
Qed.

Lemma boot_task_step_ok env i pc t w pc' t' ev w' :
  boot_ok w -> boot_tasks w !! i = Some (pc, t) -> step env (Z.of_nat (S i)) pc t w = ((pc', t', ev), w') ->
  boot_ok (w' <| boot_tasks := <[i := (pc', t')]> (boot_tasks w') |>).
Proof using.
  intros Hok Hi E. pose proof (step_spec env i pc t w Hok (ok_tasks _ Hok i pc t Hi)) as Hs.
  unfold wp in Hs. rewrite E in Hs. cbn [fst snd] in Hs. unfold step_leaves in Hs. destruct Hs as ([Eb El] & Hs & Hw & _ & Hp).
  destruct Hok as [_ Ht _ Hl]. rewrite Eb. split; [exact Hs | | exact Hw |].
  - cbn [boot_tasks set]. intros j pc2 t2 Hj Hh. cbn [s_task s_status set]. destruct (decide (j = i)) as [->|Hne].
    + rewrite list_lookup_insert_eq in Hj by (by eapply lookup_lt_Some). injection Hj as <- <-.
      destruct (holding pc); [|by rewrite (proj2 Hp) in Hh]. destruct Hp as [[Hx|[_ Hx]] Hat]; [by split; [|apply Hat]|].
      by rewrite Hx in Hh.
    + rewrite list_lookup_insert_ne in Hj by done. destruct (Ht j pc2 t2 Hj Hh) as [Ej Hat].
      destruct (holding pc) eqn:Eh; [destruct (Ht i pc t Hi Eh) as [Ei _]; congruence|].
      destruct Hp as [[-> ->] _]. by split.
  - cbn. intros Ex. rewrite El in Ex. destruct (Hl Ex) as [Ez _]. by rewrite Ez in Hi.
Qed.

Lemma boot_exec_ok action w : boot_ok w -> boot_ok (exec action w).2.
Proof using.
  intros Hok. destruct (task_or_call action) as [(env & i & ->)|Hx].
  - rewrite exec_task.
    destruct (boot_tasks w !! i) as [[pc t]|] eqn:Hi; [|done].
    destruct (step env (Z.of_nat (S i)) pc t w) as [[[pc' t'] ev] w'] eqn:E. by eapply boot_task_step_ok.
  - pose proof (exec_moves action w Hx) as (_ & Hm & Hl). by eapply moves_ok.
Qed.

Lemma boot_run_ok actions w : boot_ok w -> boot_ok (boot_run actions w).
Proof using. revert w. induction actions as [|action actions IH]; intros w Hok; [done|]. by apply IH, boot_exec_ok. Qed.
End manager.
