(* ===== verification/BootKeyManagerProps.v ===== *)
(** * The boot key manager: properties

    What is pressed was approved, and no more often than the plan says and the
    counts that a lock timeout loses; a cancellation stops the task; the task ends, and lets go of the keyboard. *)

From Stdlib Require Import String.
From S2P Require Import Prelude CText Hex Firmware BootKeySequence.
From S2P Require Import HidOwner HidManager HidManagerInvariant HidManagerProps ControlLease ControlLeaseProps.
From S2P Require Import BootKeyManager BootKeyManagerInvariant.

(** ** The steps of the task *)

(** Where a step can lead. *)
Definition may_follow (pc pc' : boot_pc) : bool :=
  match pc, pc' with
  | BootEntry, (BootTouch | BootFinish _ _) => true
  | BootTouch, (BootBeforeReset | BootStarted | BootFinish _ _) => true
  | BootBeforeReset, (BootReset | BootFinish _ _) => true
  | BootReset, (BootStarted | BootFinish _ _) => true
  | BootStarted, BootRound => true
  | BootRound, (BootRenew | BootFinish _ _) => true
  | BootRenew, BootDecide _ => true
  | BootDecide _, (BootSend | BootWait _ | BootFinish _ _) => true
  | BootSend, (BootCount | BootFinish _ _) => true
  | (BootCount | BootWait _), BootRound => true
  | BootFinish _ _, (BootReleaseKeys | BootGone) => true
  | BootReleaseKeys, BootReleaseLease => true
  | (BootReleaseLease | BootGone), BootGone => true
  | _, _ => false
  end.

Definition is_finish (pc : boot_pc) : bool := match pc with BootFinish _ _ => true | _ => false end.

(** The sequence has timed out. *)
Definition is_late (env : boot_env) (t : boot_task_t) : bool :=
  total_timeout_ms (bt_config t) <=? u32 (clock_ms env - bt_started_ms t).

(** What a step makes known. *)
Definition event_of (pc : boot_pc) (t : boot_task_t) (ev : option boot_event) : Prop :=
  match pc with
  | BootReset => ev = Some ResetPressed
  | BootSend => exists ret, ev = Some (KeySent (key_code (bt_config t)) (bt_owner t) ret)
  | BootReleaseKeys => ev = Some (KeysReleased (bt_owner t))
  | BootReleaseLease => ev = Some (LeaseReleased (bt_owner t))
  | _ => ev = None
  end.

Section manager.
Context (call_guard : Z * Z -> st hid_state bool) (between : st hid_state unit).
Implicit Types (w : boot_world) (s : si_boot_key_status_t).

Abbreviation step := (boot_key_task call_guard between).
Abbreviation exec := (boot_exec call_guard between).
Abbreviation run := (boot_run call_guard between).

(** The plan and what was agreed about it. *)
Definition agreed s := (plan_id s, plan_config s, approved s, approved_by_session s, cancel_requested s).

(** The count of a key gets lost when the lock does not come in time. *)
Definition lock_lost (env : boot_env) w : bool := negb (bool_decide ((take_lock env w).1 = ESP_OK)).

(** What a step does to the status. *)
Definition counts (env : boot_env) (pc : boot_pc) (t : boot_task_t) w w' : Prop :=
  match pc with
  | BootCount => attempts_sent (s_status w') = bt_attempts t \/
                 attempts_sent (s_status w') = attempts_sent (s_status w) /\ lock_lost env w = true
  | _ => attempts_sent (s_status w') = attempts_sent (s_status w)
  end.

Definition step_does env pc t w (r : boot_pc * boot_task_t * option boot_event) w' : Prop :=
  let '(pc', t', ev) := r in
  may_follow pc pc' = true /\ event_of pc t ev /\ agreed (s_status w') = agreed (s_status w) /\ counts env pc t w w' /\
  match pc with
  | BootFinish _ _ => t' = t /\ (pc' = BootGone -> generation (bt_owner t) = 0)
  | BootReleaseKeys | BootReleaseLease | BootGone => t' = t
  | BootBeforeReset => pc' = BootReset -> cancel_requested (s_status w) = false
  | BootRound => pc' = BootRenew -> bt_cancel t' = cancel_requested (s_status w)
  | BootRenew => bt_cancel t' = bt_cancel t
  | BootDecide _ => t' = t /\ (is_late env t = true -> is_finish pc' = true)
  | _ => True
  end.

Lemma snapshot_keeps env t (Q : option boot_task_t -> boot_world -> Prop) w :
  Q None w -> (forall t', bt_cancel t' = cancel_requested (s_status w) -> Q (Some t') w) -> wp (task_snapshot env t) Q w.
Proof using.
  intros Hn Hs. apply wp_bind, wp_take_lock; intros; case_if; decided; try done; try (by apply wp_ret);
    by apply wp_bind, wp_gets, wp_ret, Hs.
Qed.

(** Sections of the status that leave the agreement alone. *)
Lemma if_plan_keeps env id f w (Q : unit -> boot_world -> Prop) :
  (forall s, agreed (f s) = agreed s /\ attempts_sent (f s) = attempts_sent s) ->
  (forall w', agreed (s_status w') = agreed (s_status w) -> attempts_sent (s_status w') = attempts_sent (s_status w) -> Q tt w') ->
  wp (if_plan_locked env id (set_status f)) Q w.
Proof using.
  intros Hf HQ. apply wp_if_plan; [by apply HQ|]. intros _ _ _. apply wp_modify, HQ; apply Hf.
Qed.

Lemma count_locked env t w :
  plan_id (s_status w) <> [] -> bt_plan_id t = plan_id (s_status w) ->
  wp (if_plan_locked env (bt_plan_id t) (set_status (fun s => ((s <| attempts_sent := bt_attempts t |>)
        <| updated_ms := clock_ms env |>) <| state := SI_BOOT_KEY_STATE_RUNNING |>)))
     (fun _ w' => agreed (s_status w') = agreed (s_status w) /\ counts env BootCount t w w') w.
Proof using.
  intros Hne Hid. unfold if_plan_locked, counts, lock_lost. apply wp_bind, wp_intro.
  assert (E : (take_lock env w).2 = w) by (unfold take_lock, bind, gets; destruct (s_boot_lock w); done).
  rewrite E. apply wp_bind, wp_gets, wp_when; intros Hb.
  - apply wp_modify. split; [done|]. by left.
  - split; [done|]. right. split; [done|]. rewrite andb_comm in Hb. unfold plan_matches_locked in Hb. rewrite Hid in Hb.
    assert (Hs : negb (is_empty (plan_id (s_status w))) && streq (plan_id (s_status w)) (plan_id (s_status w)) = true).
    { apply andb_true_intro. split; [by destruct (plan_id (s_status w)) | by apply streq_true]. }
    by rewrite Hs in Hb; cbn [andb] in Hb; rewrite Hb.
Qed.

Lemma late_decision c elapsed sent cancel human lease hid :
  (total_timeout_ms c <=? elapsed) = true ->
  is_finish (boot_decided (si_boot_key_sequence_decide (Some c) elapsed sent cancel human lease hid)) = true.
Proof using. intros Hl. unfold si_boot_key_sequence_decide. rewrite Hl. by repeat case_if. Qed.

Lemma step_does_spec env i pc t w :
  boot_ok w -> task_ok w i pc t -> wp (step env (Z.of_nat (S i)) pc t) (step_does env pc t w) w.
Proof using.
  intros Hok Ht. destruct pc; cbn [boot_key_task].
  - apply wp_bind, snapshot_keeps; [by apply wp_ret|]. intros t' E. apply wp_ret. rewrite E. cbn. by case_if.
  - apply wp_bind. unfold touch_boot. apply wp_bind, wp_on_boot_lease. intros r l. apply wp_ret, wp_ret.
    cbn. repeat case_if; done.
  - apply wp_bind, snapshot_keeps; [by apply wp_ret|]. intros t' E. apply wp_ret. rewrite E. cbn. by case_if.
  - apply wp_ret. cbn. by case_if.
  - apply wp_bind, if_plan_keeps; [done|]. intros w' E1 E2. by apply wp_ret.
  - apply wp_bind, snapshot_keeps; [by apply wp_ret|]. intros t' E. by apply wp_ret.
  - apply wp_bind. unfold touch_boot. apply wp_bind, wp_on_boot_lease. intros r l. by apply wp_ret, wp_ret.
  - apply wp_bind, wp_gets, wp_bind, wp_gets, wp_ret. cbv zeta. cbn [step_does].
    match goal with |- context [si_boot_key_sequence_decide (Some ?c) ?e ?a ?cc ?h ?l ?m] =>
      pose proof (late_decision c e a cc h l m) as Hd; destruct (si_boot_key_sequence_decide (Some c) e a cc h l m) end;
      split_and!; try done; intros Hl; by specialize (Hd Hl).
  - apply wp_bind, wp_on_boot_lease. intros r l. apply wp_ret. case_if; split_and!; try done; by exists r.
  - apply wp_bind. destruct (Ht eq_refl) as (Hi & [Hid _] & _).
    eapply wp_mono; [apply count_locked; [|exact Hid]|].
    { apply (ok_planned _ (ok_status _ Hok)). intros E. pose proof (ok_worker _ Hok) as Hw. rewrite Hi, E in Hw. by specialize (Hw ltac:(done)). }
    intros [] w' [E1 E2]. by apply wp_ret.
  - apply wp_bind, if_plan_keeps; [by intros s|]. intros w' E1 E2. by apply wp_ret.
  - apply wp_bind, wp_if_plan; [|intros _ _ _; apply wp_intro]; apply wp_ret; cbn [step_does];
      split_and!; try done; case_if; try done; intros _; by apply Z.eqb_eq.
  - apply wp_bind, wp_on_boot_lease. intros a l. by apply wp_ret.
  - apply wp_bind, wp_on_boot_lease. intros a l. by apply wp_ret.
  - by apply wp_ret.
Qed.

Lemma exec_task_does env i w pc t :
  boot_ok w -> boot_tasks w !! i = Some (pc, t) ->
  exists pc' t' ev w1, exec (BootTask env i) w = (ev, w1 <| boot_tasks := <[i := (pc', t')]> (boot_tasks w1) |>) /\
    boot_tasks w1 = boot_tasks w /\ step_does env pc t w (pc', t', ev) w1 /\ step_leaves w i pc (pc', t', ev) w1.
Proof using.
  intros Hok Hi. rewrite exec_task, Hi. pose proof (ok_tasks _ Hok i pc t Hi) as Ht.
  pose proof (step_spec call_guard between env i pc t w Hok Ht) as H1.
  pose proof (step_does_spec env i pc t w Hok Ht) as H2. unfold wp in H1, H2.
  destruct (step env (Z.of_nat (S i)) pc t w) as [[[pc' t'] ev] w1]. exists pc', t', ev, w1.
  split; [done|]. split; [apply H1 | by split].
Qed.

Lemma run_app a1 a2 w : run (a1 ++ a2) w = run a2 (run a1 w).
Proof using. revert w. induction a1 as [|a a1 IH]; intros w; [done | apply IH]. Qed.

(** ** Nothing is pressed without approval *)

(** The plan of [s] was approved, as it is, by one of the calls. *)
Definition approved_in actions w0 s : Prop :=
  exists before env session after,
    actions = before ++ BootApprove env (Some (plan_id s)) (Some session) :: after /\ session <> [] /\
    let s0 := s_status (run before w0) in
    state s0 = SI_BOOT_KEY_STATE_PLANNED /\ plan_id s0 = plan_id s /\ plan_config s0 = plan_config s.

Lemma approved_later actions action w0 s s' :
  approved_in actions w0 s -> plan_id s' = plan_id s -> plan_config s' = plan_config s ->
  approved_in (actions ++ [action]) w0 s'.
Proof using.
  intros (before & env & session & after & -> & Hne & Hs) E1 E2. exists before, env, session, (after ++ [action]).
  rewrite E1, E2, <- app_assoc. by split.
Qed.

Lemma run_approved actions w0 :
  boot_ok w0 -> approved (s_status w0) = false ->
  approved (s_status (run actions w0)) = true -> approved_in actions w0 (s_status (run actions w0)).
Proof using.
  intros Hok H0. induction actions as [|action actions IH] using rev_ind; [cbn; congruence|].
  rewrite run_app. cbn [boot_run]. set (w := run actions w0) in *. pose proof (boot_run_ok call_guard between actions w0 Hok) as Hw.
  fold w in Hw. intros Ha.
  destruct (task_or_call action) as [(env & i & ->)|Hx].
  - destruct (boot_tasks w !! i) as [[pc t]|] eqn:Hi.
    + destruct (exec_task_does env i w pc t Hw Hi) as (pc' & t' & ev & w1 & E & _ & (_ & _ & Hag & _) & _).
      rewrite E in Ha |- *. cbn [snd s_status set] in *. injection Hag as E1 E2 E3 E4 E5. rewrite E3 in Ha.
      by eapply approved_later; [apply IH| |].
    + rewrite exec_task, Hi in Ha |- *. by eapply approved_later; [apply IH| |].
  - destruct (exec_moves call_guard between action w Hx) as (_ & Hm & _).
    destruct Hm as [(c & now & E & _) _ _ | _ _ E _ _ _ _ | env session now Hact Hne Ep E _ _ | now t Ea Eap En El E Ez _ _
      | e now text a c Hi Hne Hac Hpa Hz Hap _ E _ _ | session seen now Hne Hy Ea E _ _ | El E _ _].
    + rewrite E in Ha |- *. by eapply approved_later; [apply IH| |].
    + congruence.
    + rewrite E. exists actions, env, session, []. rewrite Hact. cbn. done.
    + rewrite E in Ha |- *. by eapply approved_later; [apply IH| |].
    + rewrite E in Ha |- *. by eapply approved_later; [apply IH, Hap| |].
    + rewrite E in Ha |- *. by eapply approved_later; [apply IH| |].
    + by rewrite E in Ha.
Qed.

(** ** How often a key is pressed

    Beside the run, the keys that were pressed since the last approval, and the
    counts of them that were lost. *)

Record boot_tally := mk_tally { keys : nat; lost : nat }.

Definition loses (action : boot_action) w : bool :=
  match action with
  | BootTask env i => match boot_tasks w !! i with Some (BootCount, _) => lock_lost env w | _ => false end
  | _ => false
  end.

Definition tally_step (action : boot_action) w (g : boot_tally) : boot_tally :=
  let '(ev, w') := exec action w in
  if bool_decide (state (s_status w) = SI_BOOT_KEY_STATE_PLANNED) &&
     bool_decide (state (s_status w') = SI_BOOT_KEY_STATE_APPROVED) then mk_tally 0 0
  else mk_tally (keys g + match ev with Some (KeySent _ _ _) => 1 | _ => 0 end)
                (lost g + if loses action w then 1 else 0).

Fixpoint tallied (actions : list boot_action) w (g : boot_tally) : boot_tally :=
  match actions with
  | [] => g
  | action :: actions => tallied actions (exec action w).2 (tally_step action w g)
  end.

(** [extra] keys may be pressed beyond those that are counted. *)
Definition within s (g : boot_tally) (extra : Z) : Prop :=
  Z.of_nat (keys g) <= attempts_sent s + extra + Z.of_nat (lost g).

Definition slack (pc : boot_pc) s (g : boot_tally) : Prop :=
  match pc with BootFinish _ _ => True | BootCount => within s g 1 | _ => within s g 0 end.

Definition tally_ok w (g : boot_tally) : Prop :=
  approved (s_status w) = true ->
  Z.of_nat (keys g) <= max_attempts (plan_config (s_status w)) + Z.of_nat (lost g) /\
  (state (s_status w) = SI_BOOT_KEY_STATE_APPROVED -> within (s_status w) g 0) /\
  (forall i pc t, boot_tasks w !! i = Some (pc, t) -> holding pc = true -> slack pc (s_status w) g).

Lemma tally_zero w : boot_ok w -> tally_ok w (mk_tally 0 0).
Proof using.
  intros Hok _. pose proof (ok_attempts _ (ok_status _ Hok)) as Ha. unfold slack, within. cbn [keys lost].
  split_and!; [lia | lia |]. intros i pc t _ _. destruct pc; done || lia.
Qed.

(** Changes that touch neither the plan nor the progress. *)
Lemma tally_frame w w' g :
  (approved (s_status w') = true -> approved (s_status w) = true) ->
  plan_config (s_status w') = plan_config (s_status w) -> attempts_sent (s_status w') = attempts_sent (s_status w) ->
  (state (s_status w') = SI_BOOT_KEY_STATE_APPROVED -> state (s_status w) = SI_BOOT_KEY_STATE_APPROVED) ->
  (forall i pc t, boot_tasks w' !! i = Some (pc, t) -> holding pc = true ->
     boot_tasks w !! i = Some (pc, t) \/ pc = BootEntry /\ state (s_status w) = SI_BOOT_KEY_STATE_APPROVED) ->
  tally_ok w g -> tally_ok w' g.
Proof using.
  intros Ha Hc Hn Hs Ht Hg Hap. destruct (Hg (Ha Hap)) as (H1 & H2 & H3). unfold slack, within in *. rewrite Hc, Hn.
  split_and!; [done | by auto |]. intros i pc t Hi Hh. destruct (Ht i pc t Hi Hh) as [Hi'|[-> E]]; [by eapply H3 | by apply H2].
Qed.

Lemma tally_call action w g :
  boot_ok w -> boot_ok (exec action w).2 -> ~ is_task action -> tally_ok w g ->
  tally_ok (exec action w).2 (tally_step action w g).
Proof using.
  intros Hok Hok' Hx Hg. destruct (exec_moves call_guard between action w Hx) as (Hev & Hm & _).
  assert (Hl : loses action w = false) by by destruct action.
  unfold tally_step. rewrite Hl. destruct (exec action w) as [ev w'] eqn:Ee. cbn [fst snd] in *. subst ev.
  case_if; [by apply tally_zero|]. rewrite !Nat.add_0_r. assert (Eg : mk_tally (keys g) (lost g) = g) by by destruct g.
  rewrite Eg. clear Eg.
  destruct Hm as [(c & now & E & _) _ Hbt | _ _ E _ _ _ _ | env session now Hact Hne Ep E _ _ | now t Ea Eap En El E Ez _ Hbt
    | e now text a c Hi Hne Hac Hpa Hz Hap _ E _ Hbt | session seen now Hne Hy Ea E _ Hbt | El E _ _].
  - apply (tally_frame w w' g); try done; rewrite ?E, ?Hbt; auto.
  - intros Ha. congruence.
  - rewrite Ep, E in Heqb. done.
  - apply (tally_frame w w' g); try done; rewrite ?E, ?Hbt; try done.
    intros i pc t' [Hi|[_ Hi]]%lookup_app_Some _; [by left|]. apply list_lookup_singleton_Some in Hi as [_ Hi].
    injection Hi as <- <-. by right.
  - apply (tally_frame w w' g); try done; rewrite ?E, ?Hbt; try done; [|by auto].
    cbn. intros ->. done.
  - apply (tally_frame w w' g); try done; rewrite ?E, ?Hbt; try done. by auto.
  - intros Ha. by rewrite E in Ha.
Qed.

Lemma tally_task env i w g :
  boot_ok w -> tally_ok w g -> tally_ok (exec (BootTask env i) w).2 (tally_step (BootTask env i) w g).
Proof using.
  intros Hok Hg. pose proof (boot_exec_ok call_guard between (BootTask env i) w Hok) as Hok'.
  unfold tally_step. cbn [loses]. destruct (boot_tasks w !! i) as [[pc t]|] eqn:Hi.
  2: { rewrite exec_task, Hi. cbn [snd]. case_if; [by apply tally_zero|]. rewrite !Nat.add_0_r. by destruct g. }
  destruct (exec_task_does env i w pc t Hok Hi) as (pc' & t' & ev & w1 & E & Ebt & (Hf & Hev & Hag & Hct & _) & Hsl).
  rewrite E in Hok' |- *. cbn [fst snd] in *. case_if; [by apply tally_zero|]. clear Heqb.
  injection Hag as E1 E2 E3 E4 E5. destruct Hsl as (_ & _ & _ & Hna & Hsl).
  intros Hap. cbn [s_status set] in Hap. rewrite E3 in Hap. destruct (Hg Hap) as (H1 & H2 & H3).
  pose proof (ok_tasks _ Hok) as Ht. pose proof (ok_attempts _ (ok_status _ Hok)) as Hat.
  assert (Hothers : forall j pc2 t2, <[i := (pc', t')]> (boot_tasks w1) !! j = Some (pc2, t2) -> holding pc2 = true ->
    pc2 = pc' /\ holding pc = true \/ holding pc = false /\ boot_tasks w !! j = Some (pc2, t2)).
  { rewrite Ebt. intros j pc2 t2 Hj Hh. destruct (decide (j = i)) as [->|Hne].
    - rewrite list_lookup_insert_eq in Hj by (by eapply lookup_lt_Some). injection Hj as <- <-. left. split; [done|].
      by destruct pc, pc'.
    - rewrite list_lookup_insert_ne in Hj by done. destruct (holding pc) eqn:Eh; [|by right].
      destruct (Ht i pc t Hi Eh) as [Ei _], (Ht j pc2 t2 Hj Hh) as [Ej _]. congruence. }
  destruct (holding pc) eqn:Eh.
  - pose proof (H3 i pc t Hi Eh) as Hs. destruct (Ht i pc t Hi Eh) as [_ Hk]. specialize (Hna eq_refl).
    assert (Hgoal : Z.of_nat (keys g + match ev with Some (KeySent _ _ _) => 1 | _ => 0 end) <=
                    max_attempts (plan_config (s_status w)) +
                    Z.of_nat (lost g + (if match pc with BootCount => lock_lost env w | _ => false end then 1 else 0)) /\
                    (holding pc' = true -> slack pc' (s_status w1) (mk_tally (keys g + match ev with Some (KeySent _ _ _) => 1 | _ => 0 end)
                      (lost g + (if match pc with BootCount => lock_lost env w | _ => false end then 1 else 0))))).
    { unfold slack, within in *. cbn [keys lost].
      destruct pc; try done; cbn [event_of counts at_ok] in *; try match type of Hev with ex _ => destruct Hev as [ret Hev] end; rewrite Hev;
        destruct pc'; try done; try (split; [lia | done || lia]).
      destruct Hct as [Hct | [Hct Hl]]; rewrite Hct; [case_if; lia | rewrite Hl; lia]. }
    destruct Hgoal as [Hg1 Hg2]. cbn [s_status set boot_tasks]. rewrite E2. cbn [keys lost]. split_and!; [exact Hg1 | done |].
    intros j pc2 t2 Hj Hh. destruct (Hothers j pc2 t2 Hj Hh) as [[-> _]|[? _]]; [by apply Hg2 | done].
  - destruct Hsl as [[_ Es] _]. cbn [s_status set boot_tasks]. rewrite Es in *.
    assert (Eg : mk_tally (keys g + match ev with Some (KeySent _ _ _) => 1 | _ => 0 end)
      (lost g + (if match pc with BootCount => lock_lost env w | _ => false end then 1 else 0)) = g).
    { destruct pc; try done; cbn [event_of] in Hev; rewrite Hev, !Nat.add_0_r; by destruct g. }
    rewrite Eg. split_and!; [done..|]. intros j pc2 t2 Hj Hh.
    destruct (Hothers j pc2 t2 Hj Hh) as [[_ ?]|[_ Hj']]; [done|]. by eapply H3.
Qed.

Lemma tallied_ok actions w g :
  boot_ok w -> tally_ok w g -> tally_ok (run actions w) (tallied actions w g).
Proof using.
  revert w g. induction actions as [|action actions IH]; intros w g Hok Hg; [done|].
  cbn [boot_run tallied]. pose proof (boot_exec_ok call_guard between action w Hok) as Hok'. apply IH; [done|].
  destruct (task_or_call action) as [(env & i & ->)|Hx]; [|by apply tally_call]. by apply tally_task.
Qed.

(** C7: the task presses nothing that nobody approved. Whenever it sends a key or
    presses the reset button, in any interleaving of its steps with the calls and
    with other tasks, a session has approved before the very plan that is worked on:
    the same id, the same sequence; the key is that sequence's, and the button is only
    pressed if it says so. The count that the task has recorded is still below the
    number of attempts of the plan, and all keys pressed since the approval are in
    that count or among those whose count was lost, because the lock did not come in
    time ([key_too_many] is a run where a plan of one key so presses two). *)
Theorem pressed_as_approved actions w0 action :
  boot_fresh w0 ->
  let w := run actions w0 in
  let s := s_status w in
  let g := tallied actions w0 (mk_tally 0 0) in
  match (exec action w).1 with
  | Some (KeySent key _ _) =>
      approved_in actions w0 s /\ key = key_code (plan_config s) /\
      0 <= attempts_sent s < max_attempts (plan_config s) /\
      Z.of_nat (keys g) <= attempts_sent s + Z.of_nat (lost g)
  | Some ResetPressed => approved_in actions w0 s /\ is_reset (plan_config s) = true
  | _ => True
  end.
Proof using.
  intros Hf w s g. pose proof (fresh_ok w0 Hf) as Hok0. pose proof (boot_run_ok call_guard between actions w0 Hok0) as Hok. fold w in Hok.
  assert (Hap : approved (s_status w) = true -> approved_in actions w0 s).
  { apply run_approved; [done|]. destruct Hf as (_ & _ & -> & _). done. }
  assert (Hg : tally_ok w g) by by apply tallied_ok, tally_zero.
  destruct (task_or_call action) as [(env & i & ->)|Hx]; [|by destruct (exec_moves call_guard between action w Hx) as [-> _]].
  destruct (boot_tasks w !! i) as [[pc t]|] eqn:Hi; [|by rewrite exec_task, Hi].
  destruct (exec_task_does env i w pc t Hok Hi) as (pc' & t' & ev & w1 & E & _ & (_ & Hev & _) & _).
  rewrite E. cbn [fst]. pose proof (ok_tasks _ Hok i pc t Hi) as Ht. unfold task_ok in Ht.
  assert (Hwork : holding pc = true -> approved (s_status w) = true).
  { intros Hh. destruct (Ht Hh) as [Ei _]. apply (ok_approved _ (ok_status _ Hok)). unfold past_approval.
    by rewrite (ok_worker _ Hok) by by rewrite Ei. }
  destruct pc; cbn in Hev; try (by rewrite Hev).
  - destruct (Ht eq_refl) as [_ [[_ E2] Hr]]. rewrite Hev. split; [by apply Hap, Hwork|]. by rewrite E2 in Hr.
  - destruct (Ht eq_refl) as (_ & [_ E2] & _ & Hm & _), Hev as [ret ->]. split; [by apply Hap, Hwork|].
    split; [by rewrite E2|]. split; [split; [apply (ok_attempts _ (ok_status _ Hok)) | exact Hm]|].
    destruct (Hg (Hwork eq_refl)) as (_ & _ & Hs). specialize (Hs i _ t Hi eq_refl). unfold slack, within in Hs.
    subst s. lia.
Qed.

(** An approval is good for as many keys as its plan says.  The keys that were
    pressed since are at most that many, and one more for each count that the task
    could not write because the lock of the status did not come in time. *)
Theorem keys_bounded actions w0 :
  boot_fresh w0 ->
  let w := run actions w0 in
  let g := tallied actions w0 (mk_tally 0 0) in
  approved (s_status w) = true ->
  Z.of_nat (keys g) <= max_attempts (plan_config (s_status w)) + Z.of_nat (lost g) /\
  (state (s_status w) = SI_BOOT_KEY_STATE_VERIFIED ->
   attempts_sent (s_status w) = max_attempts (plan_config (s_status w)) /\
   verified_by_session (s_status w) <> [] /\ evidence (s_status w) <> []).
Proof using.
  intros Hf w g Ha. pose proof (fresh_ok w0 Hf) as Hok. split.
  - by apply (tallied_ok actions w0 (mk_tally 0 0) Hok (tally_zero w0 Hok)).
  - intros Hv. destruct (ok_status _ (boot_run_ok call_guard between actions w0 Hok)) as [_ _ _ _ Hc Hx].
    split; [apply Hc; by right | by apply Hx].
Qed.

(** ** Cancellation *)

(** The task has looked at the cancellation before it was requested. *)
Definition armed (pc : boot_pc) (t : boot_task_t) : bool :=
  match pc with
  | BootReset | BootSend => true
  | BootRenew | BootDecide _ => negb (bt_cancel t)
  | _ => false
  end.

Definition armed_task w : bool :=
  match s_task w with
  | Some i => match boot_tasks w !! i with Some (pc, t) => armed pc t | None => false end
  | None => false
  end.

Definition presses (ev : option boot_event) : nat :=
  match ev with Some ResetPressed | Some (KeySent _ _ _) => 1 | _ => 0 end.

Fixpoint pressed (actions : list boot_action) w : nat :=
  match actions with
  | [] => 0
  | action :: actions => (presses (exec action w).1 + pressed actions (exec action w).2)%nat
  end.

(** No call replaces the plan by a new one. *)
Fixpoint same_plan (actions : list boot_action) w : Prop :=
  match actions with
  | [] => True
  | action :: actions =>
      let w' := (exec action w).2 in
      (state (s_status w') = SI_BOOT_KEY_STATE_PLANNED -> state (s_status w) = SI_BOOT_KEY_STATE_PLANNED) /\
      same_plan actions w'
  end.

(** Cancelled, or nothing was ever planned. *)
Definition cancelled w : Prop :=
  cancel_requested (s_status w) = true \/ state (s_status w) = SI_BOOT_KEY_STATE_EMPTY.

Lemma call_cancelled action w :
  ~ is_task action -> cancelled w ->
  (state (s_status (exec action w).2) = SI_BOOT_KEY_STATE_PLANNED -> state (s_status w) = SI_BOOT_KEY_STATE_PLANNED) ->
  cancelled (exec action w).2 /\ presses (exec action w).1 = 0%nat /\
  (armed_task (exec action w).2 = true -> armed_task w = true).
Proof using.
  intros Hx Hc Hp. destruct (exec_moves call_guard between action w Hx) as (Hev & Hm & _).
  rewrite Hev. unfold cancelled in *. destruct Hm as [(c & now & E & Hcc) Est Hbt | Hacc Epl E _ _ _ _
    | env session now Hact Hne Ep E Est Hbt | now t Ea Eap En El E Ez Est Hbt
    | e now text a c Hi Hne Hac Hpa Hz Hap Hcc E Est Hbt | session seen now Hne Hy Ea E Est Hbt | El E Est Hbt].
  - split_and!; [rewrite E; cbn; destruct Hc; [left | right]; auto | done | unfold armed_task; by rewrite Est, Hbt].
  - specialize (Hp Epl). by rewrite Hp in Hacc.
  - split_and!; [rewrite E; cbn; destruct Hc as [|Hc]; [by left | congruence] | done | unfold armed_task; by rewrite Est, Hbt].
  - split_and!; [rewrite E; cbn; destruct Hc as [|Hc]; [by left | congruence] | done |].
    unfold armed_task. rewrite Est, Hbt, lookup_app_r, Nat.sub_diag by lia. done.
  - split_and!; [| done | unfold armed_task; by rewrite Est].
    rewrite E. cbn. destruct Hc as [Hc|Hc]; [left; by apply Hcc | congruence].
  - split_and!; [rewrite E; cbn; destruct Hc as [|Hc]; [by left | congruence] | done | unfold armed_task; by rewrite Est, Hbt].
  - split_and!; [right; by rewrite E | done | unfold armed_task; by rewrite Est, Hbt].
Qed.

Lemma task_cancelled env i w :
  boot_ok w -> cancelled w ->
  cancelled (exec (BootTask env i) w).2 /\
  (presses (exec (BootTask env i) w).1 + (if armed_task (exec (BootTask env i) w).2 then 1 else 0) <=
   if armed_task w then 1 else 0)%nat.
Proof using.
  intros Hok Hc. destruct (boot_tasks w !! i) as [[pc t]|] eqn:Hi; [|rewrite exec_task, Hi; cbn; by split].
  destruct (exec_task_does env i w pc t Hok Hi) as (pc' & t' & ev & w1 & E & Ebt & (Hf & Hev & Hag & _ & Hx) & Hsl).
  rewrite E. cbn [fst snd]. injection Hag as E1 E2 E3 E4 E5. pose proof (ok_tasks _ Hok i pc t Hi) as Ht.
  destruct Hsl as (_ & _ & _ & _ & Hsl). unfold cancelled, armed_task. cbn [s_status s_task boot_tasks set]. rewrite E5, Ebt.
  destruct (holding pc) eqn:Eh.
  - destruct (Ht Eh) as [Ei Hat]. rewrite Ei, Hi.
    assert (Hcr : cancel_requested (s_status w) = true).
    { destruct Hc as [|Hc]; [done|]. pose proof (ok_worker _ Hok) as Hw. rewrite Ei, Hc in Hw. by specialize (Hw ltac:(done)). }
    split; [by left|].
    assert (Ha : (presses ev + (if holding pc' && armed pc' t' then 1 else 0) <= if armed pc t then 1 else 0)%nat).
    { destruct pc; try done; cbn [event_of at_ok] in *; try match type of Hev with ex _ => destruct Hev as [ret Hev] end;
        rewrite Hev; destruct pc'; try done; cbn [presses holding armed andb] in *; try lia.
      - by rewrite (Hx eq_refl) in Hcr.
      - by rewrite (Hx eq_refl), Hcr.
      - by rewrite Hx.
      - destruct Hx as [-> _], Hsl as [_ Hsl]. destruct (Hsl eq_refl) as (_ & _ & _ & ->). cbn. lia. }
    destruct Hsl as [[Es|[Es Eh']] _]; rewrite Es.
    + rewrite list_lookup_insert_eq by (by eapply lookup_lt_Some).
      assert (Hh : armed pc' t' = true -> holding pc' = true) by by destruct pc'.
      destruct (armed pc' t'); [rewrite Hh in Ha by done | rewrite andb_false_r in Ha]; exact Ha.
    + rewrite Eh' in Ha. exact Ha.
  - destruct Hsl as [[Es1 Es2] Eh']. rewrite Es2. split; [|].
    { destruct Hc; [by left | by right]. }
    assert (Hp : presses ev = 0%nat) by by destruct pc; try done; rewrite Hev.
    rewrite Hp, Es1. destruct (s_task w) as [j|]; [|done]. destruct (decide (j = i)) as [->|Hne].
    + rewrite list_lookup_insert_eq by (by eapply lookup_lt_Some). assert (armed pc' t' = false) as -> by by destruct pc'.
      lia.
    + by rewrite list_lookup_insert_ne by done.
Qed.

(** A cancellation stops the task. Once it was requested, whatever calls and
    steps follow until a new plan is created, the task presses at most one more time,
    a key or the reset button, and that only if it had looked for a cancellation
    before and was on its way to press. *)
Theorem cancelled_plan_stops before actions w0 :
  boot_fresh w0 ->
  let w := run before w0 in
  cancel_requested (s_status w) = true -> same_plan actions w ->
  (pressed actions w <= if armed_task w then 1 else 0)%nat.
Proof using.
  intros Hf w Hc Hs. assert (Hok : boot_ok w) by apply boot_run_ok, fresh_ok, Hf.
  assert (Hc' : cancelled w) by by left. clear Hf Hc. revert Hs Hok Hc'. generalize w. clear w.
  induction actions as [|action actions IH]; intros w Hs Hok Hc; [cbn; lia|]. destruct Hs as [Hp Hs].
  cbn [pressed]. pose proof (boot_exec_ok call_guard between action w Hok) as Hok'.
  destruct (task_or_call action) as [(env & i & ->)|Hx].
  - destruct (task_cancelled env i w Hok Hc) as [Hc' Ha].
    specialize (IH _ Hs Hok' Hc'). lia.
  - destruct (call_cancelled action w Hx Hc Hp) as (Hc' & -> & Ha). specialize (IH _ Hs Hok' Hc').
    destruct (armed_task (exec action w).2); [by rewrite Ha | lia].
Qed.

(** ** The end of the task *)

(** An upper bound of the steps that are left, once the sequence has timed out. *)
Definition steps_left (pc : boot_pc) : nat :=
  match pc with
  | BootEntry => 14 | BootTouch => 13 | BootBeforeReset => 12 | BootReset => 11 | BootStarted => 10
  | BootSend => 9 | BootCount | BootWait _ => 8 | BootRound => 7 | BootRenew => 6 | BootDecide _ => 5
  | BootFinish _ _ => 3 | BootReleaseKeys => 2 | BootReleaseLease => 1 | BootGone => 0
  end.

Definition is_step (i : nat) (action : boot_action) : bool :=
  match action with BootTask _ j => (j =? i)%nat | _ => false end.

Fixpoint own_steps (i : nat) (actions : list boot_action) : nat :=
  match actions with [] => 0 | action :: actions => ((if is_step i action then 1 else 0) + own_steps i actions)%nat end.

(** What the task [i] did. *)
Fixpoint deeds (i : nat) (actions : list boot_action) w : list boot_event :=
  match actions with
  | [] => []
  | action :: actions =>
      (if is_step i action then option_list (exec action w).1 else []) ++ deeds i actions (exec action w).2
  end.

(** Each decision of the task [i] comes after the timeout of its sequence. *)
Fixpoint timed_out (i : nat) (actions : list boot_action) w : Prop :=
  match actions with
  | [] => True
  | action :: actions =>
      match action with
      | BootTask env j => forall lease_ret t, j = i -> boot_tasks w !! i = Some (BootDecide lease_ret, t) -> is_late env t = true
      | _ => True
      end /\ timed_out i actions (exec action w).2
  end.

(** Only its own steps move a task. *)
Lemma other_steps i action w pc t :
  boot_ok w -> is_step i action = false -> boot_tasks w !! i = Some (pc, t) -> boot_tasks (exec action w).2 !! i = Some (pc, t).
Proof using.
  intros Hok Hs Hi. destruct (task_or_call action) as [(env & j & ->)|Hx].
  - apply Nat.eqb_neq in Hs. rewrite exec_task.
    destruct (boot_tasks w !! j) as [[pc2 t2]|] eqn:Hj; [|done].
    destruct (exec_task_does env j w pc2 t2 Hok Hj) as (pc' & t' & ev & w1 & E & Hk & _). rewrite exec_task, Hj in E.
    rewrite E. cbn [snd boot_tasks set]. by rewrite list_lookup_insert_ne, Hk by done.
  - destruct (exec_moves call_guard between action w Hx) as (_ & Hm & _).
    destruct Hm as [? ? Hbt | ? ? ? ? ? ? Hbt | ? ? ? ? ? ? ? ? Hbt | ? ? ? ? ? ? ? ? ? Hbt | ? ? ? ? ? ? ? ? ? ? ? ? ? ? Hbt
      | ? ? ? ? ? ? ? ? Hbt | ? ? ? Hbt]; rewrite Hbt; try done.
    by apply lookup_app_l_Some.
Qed.

Lemma own_step env i w pc t :
  boot_ok w -> boot_tasks w !! i = Some (pc, t) ->
  exists pc' t', boot_tasks (exec (BootTask env i) w).2 !! i = Some (pc', t') /\
    exists w1, step_does env pc t w (pc', t', (exec (BootTask env i) w).1) w1.
Proof using.
  intros Hok Hi. destruct (exec_task_does env i w pc t Hok Hi) as (pc' & t' & ev & w1 & E & Ebt & Hd & _).
  rewrite E. exists pc', t'. cbn [fst snd boot_tasks set]. rewrite Ebt, list_lookup_insert_eq by (by eapply lookup_lt_Some).
  split; [done | by exists w1].
Qed.

Lemma step_case i action : (exists env, action = BootTask env i) \/ is_step i action = false.
Proof using.
  destruct action as [| | | | | | | |env j|]; auto. cbn. destruct (Nat.eqb_spec j i) as [->|]; [left; by exists env | by right].
Qed.

(** It gets closer to its end with each step. *)
Lemma late_step env pc t w pc' t' ev w1 :
  step_does env pc t w (pc', t', ev) w1 -> (forall e, pc = BootDecide e -> is_late env t = true) ->
  (steps_left pc' <= steps_left pc - 1)%nat.
Proof using.
  intros (Hf & _ & _ & _ & Hx) Hl. destruct pc, pc'; try done; cbn; try lia.
  - destruct Hx as [_ Hx]. by specialize (Hx (Hl _ eq_refl)).
  - destruct Hx as [_ Hx]. by specialize (Hx (Hl _ eq_refl)).
Qed.

Lemma task_runs_out i actions w pc t :
  boot_ok w -> boot_tasks w !! i = Some (pc, t) -> timed_out i actions w -> (steps_left pc <= own_steps i actions)%nat ->
  exists t', boot_tasks (run actions w) !! i = Some (BootGone, t').
Proof using.
  revert w pc t. induction actions as [|action actions IH]; intros w pc t Hok Hi Ht Hn.
  - exists t. cbn [own_steps] in Hn. cbn. rewrite Hi. destruct pc; cbn in Hn; by try lia.
  - destruct Ht as [Hl Ht]. pose proof (boot_exec_ok call_guard between action w Hok) as Hok'. cbn [boot_run own_steps] in *.
    destruct (step_case i action) as [[env ->]|Hs].
    + destruct (own_step env i w pc t Hok Hi) as (pc' & t' & Hi' & w1 & Hd).
      apply (IH _ pc' t'); try done. cbn [is_step] in Hn. rewrite Nat.eqb_refl in Hn.
      pose proof (late_step _ _ _ _ _ _ _ _ Hd) as Hle. assert (Hx : forall e, pc = BootDecide e -> is_late env t = true).
      { intros e ->. by eapply Hl. }
      specialize (Hle Hx). lia.
    + rewrite Hs in Hn. apply (IH _ pc t); try done. by apply other_steps.
Qed.

(** What the task has done when it stands at [pc]. *)
Definition let_go (pc : boot_pc) (t : boot_task_t) (es : list boot_event) : Prop :=
  match pc with
  | BootReleaseLease => exists es', es = es' ++ [KeysReleased (bt_owner t)]
  | BootGone => generation (bt_owner t) = 0 \/
                exists es', es = es' ++ [KeysReleased (bt_owner t); LeaseReleased (bt_owner t)]
  | _ => True
  end.

Lemma step_lets_go env pc t w pc' t' ev w1 es :
  step_does env pc t w (pc', t', ev) w1 -> let_go pc t es -> let_go pc' t' (es ++ option_list ev).
Proof using.
  intros (Hf & Hev & _ & _ & Hx) Hg. destruct pc, pc'; try done; cbn [event_of let_go] in *.
  - destruct Hx as [-> Hx]. left. by apply Hx.
  - subst. by exists es.
  - subst. destruct Hg as [es' ->]. right. exists es'. by rewrite <- app_assoc.
  - subst. cbn. by rewrite app_nil_r.
Qed.

Lemma run_lets_go i actions w pc t es pc' t' :
  boot_ok w -> boot_tasks w !! i = Some (pc, t) -> let_go pc t es ->
  boot_tasks (run actions w) !! i = Some (pc', t') -> let_go pc' t' (es ++ deeds i actions w).
Proof using.
  revert w pc t es. induction actions as [|action actions IH]; intros w pc t es Hok Hi Hg Hi'.
  - cbn in Hi'. rewrite Hi in Hi'. injection Hi' as <- <-. cbn [deeds]. by rewrite app_nil_r.
  - pose proof (boot_exec_ok call_guard between action w Hok) as Hok'. cbn [boot_run deeds] in *. rewrite app_assoc.
    destruct (step_case i action) as [[env ->]|Hs].
    + destruct (own_step env i w pc t Hok Hi) as (pc1 & t1 & Hi1 & w1 & Hd). cbn [is_step]. rewrite Nat.eqb_refl.
      eapply (IH _ pc1 t1); try done. by eapply step_lets_go.
    + rewrite Hs, app_nil_r. eapply (IH _ pc t); try done. by apply other_steps.
Qed.

(** C34: the task always ends, and lets go.  From wherever a task stands that has not
    let go yet, once its sequence has timed out, fourteen more steps of it are enough,
    in any interleaving with the calls, with other tasks and with failures of the
    lock, of the lease and of the keyboard; and if it owned the reports, the last two
    things it did are to release all keys and to give the lease back. *)
Theorem task_ends_and_lets_go i before actions w0 pc t :
  boot_fresh w0 ->
  let w := run before w0 in
  boot_tasks w !! i = Some (pc, t) -> holding pc = true ->
  timed_out i actions w -> (14 <= own_steps i actions)%nat ->
  exists t', boot_tasks (run actions w) !! i = Some (BootGone, t') /\
    (generation (bt_owner t') = 0 \/
     exists es, deeds i actions w = es ++ [KeysReleased (bt_owner t'); LeaseReleased (bt_owner t')]).
Proof using.
  intros Hf w Hi Hh Ht Hn. assert (Hok : boot_ok w) by apply boot_run_ok, fresh_ok, Hf.
  destruct (task_runs_out i actions w pc t Hok Hi Ht) as [t' Ht']; [destruct pc; cbn; lia|].
  exists t'. split; [exact Ht'|]. by apply (run_lets_go i actions w pc t [] BootGone t' Hok Hi); [destruct pc|].
Qed.
End manager.

(** ** Witnesses

    A plan to press F2 once is created, approved and started on a device whose
    keyboard is ready; before each step the script says what the keyboard reads. *)

Definition demo_plan : si_boot_key_sequence_config_t :=
  mk_boot_config (cstr "dell-bios") 1 0 (cstr "F2") 0 100 1 1000.

Definition demo_plan_id : option cstring := Some (new_plan_id 10 1).

Definition demo_boot_env (t : Z) : boot_env :=
  let e := demo_env t true in mk_boot_env true t true ESP_OK e (mk_touch_env e e e).

Definition demo_boot : boot_world :=
  mk_boot_world false None zero_boot_status 0
    (mk_world ((demo_ready <| manager_locks := true |>) <| s_embedded_authority_guard := Some (1, 1) |>)
       lease_started) [].

Lemma demo_boot_fresh : boot_fresh demo_boot.
Proof. by split_and!. Qed.

Abbreviation demo_run := (boot_run always (mret tt)).
Abbreviation demo_exec := (boot_exec always (mret tt)).

(** The actions, each after its script was laid out. *)
Fixpoint weave (steps : list (list tick * boot_action)) (w : boot_world) : list boot_action :=
  match steps with
  | [] => []
  | (ts, action) :: steps =>
      let l := [BootOthers ((boot_lease w) <| hid_part := scripted ts (hid_part (boot_lease w)) |>); action] in
      l ++ weave steps (demo_run l w)
  end.

Definition yes : list tick := replicate 30 tick_yes.
Definition demo_task (t : Z) : list tick * boot_action := (yes, BootTask (demo_boot_env t) 0).

(** Up to the decision to press the key. *)
Definition demo_steps : list (list tick * boot_action) :=
  [([], BootManagerStart (demo_boot_env 5)); ([], BootCreate (demo_boot_env 10) demo_plan);
   ([], BootApprove (demo_boot_env 20) demo_plan_id (Some (cstr "tab-1")));
   ([], BootStartPlan (demo_boot_env 30) demo_plan_id)] ++
  map demo_task [40; 50; 60; 70; 80; 90].

(** The key is pressed. *)
Definition demo_press : list tick * boot_action := (tick_no :: yes, BootTask (demo_boot_env 100) 0).

Definition demo_before : list boot_action :=
  weave (demo_steps ++ [(tick_no :: yes, BootGet (demo_boot_env 95))]) demo_boot.

Definition demo_token : si_hid_owner_token_t :=
  match boot_tasks (demo_run demo_before demo_boot) !! 0%nat with Some (_, t) => bt_owner t | None => zero_token end.

Lemma pressed_as_approved_witness :
  let w := demo_run demo_before demo_boot in
  (demo_exec (BootTask (demo_boot_env 100) 0) w).1 = Some (KeySent (cstr "F2") demo_token ESP_OK) /\
  approved_in always (mret tt) demo_before demo_boot (s_status w) /\ key_code (plan_config (s_status w)) = cstr "F2".
Proof.
  intros w. assert (E : (demo_exec (BootTask (demo_boot_env 100) 0) w).1 = Some (KeySent (cstr "F2") demo_token ESP_OK)) by by_eval.
  split; [exact E|]. pose proof (pressed_as_approved always (mret tt) demo_before demo_boot
    (BootTask (demo_boot_env 100) 0) demo_boot_fresh) as H.
  cbv zeta in H. fold w in H. rewrite E in H. destruct H as (H1 & H2 & _). by split.
Defined.

(** The key was pressed and counted, and its success confirmed. *)
Definition demo_verified_steps : list (list tick * boot_action) :=
  demo_steps ++ [demo_press] ++ map demo_task [110; 120; 130; 140; 150; 160; 170] ++
  [([], BootConfirm (demo_boot_env 200) demo_plan_id (Some (cstr "tab-1")) (Some (cstr "boot menu")))].

Definition demo_verified : list boot_action := weave demo_verified_steps demo_boot.

Lemma keys_bounded_witness :
  let w := demo_run demo_verified demo_boot in
  let g := tallied always (mret tt) demo_verified demo_boot (mk_tally 0 0) in
  state (s_status w) = SI_BOOT_KEY_STATE_VERIFIED /\ keys g = 1%nat /\
  attempts_sent (s_status w) = max_attempts (plan_config (s_status w)) /\ evidence (s_status w) <> [] /\
  Z.of_nat (keys g) <= max_attempts (plan_config (s_status w)) + Z.of_nat (lost g).
Proof.
  intros w g.
  assert (Ea : approved (s_status w) = true) by by_eval.
  assert (Es : state (s_status w) = SI_BOOT_KEY_STATE_VERIFIED) by by_eval.
  assert (Ek : keys g = 1%nat) by by_eval.
  pose proof (keys_bounded always (mret tt) demo_verified demo_boot demo_boot_fresh) as H.
  cbv zeta in H. fold w in H. fold g in H. destruct (H Ea) as [H1 H2].
  destruct (H2 Es) as (H3 & _ & H4). exact (conj Es (conj Ek (conj H3 (conj H4 H1)))).
Defined.

(** The plan is cancelled while the task is about to press the key. *)
Definition demo_cancelled : list boot_action :=
  weave (demo_steps ++ [([], BootCancel (demo_boot_env 92) demo_plan_id (Some (cstr "tab-1")))]) demo_boot.

Definition demo_rest : list boot_action :=
  weave (demo_press :: map demo_task [110; 120; 130; 140; 150; 160; 170]) (demo_run demo_cancelled demo_boot).

Fixpoint same_planb (actions : list boot_action) (w : boot_world) : bool :=
  match actions with
  | [] => true
  | action :: actions =>
      let w' := (demo_exec action w).2 in
      negb (bool_decide (state (s_status w') = SI_BOOT_KEY_STATE_PLANNED)) && same_planb actions w'
  end.

Lemma same_planb_ok actions w : same_planb actions w = true -> same_plan always (mret tt) actions w.
Proof.
  revert w. induction actions as [|action actions IH]; intros w H; [done|]. cbn [same_planb] in H.
  apply andb_prop in H as [H1 H2]. split; [|by apply IH]. intros E. by rewrite bool_decide_eq_true_2 in H1.
Qed.

Lemma cancelled_plan_stops_witness :
  let w := demo_run demo_cancelled demo_boot in
  cancel_requested (s_status w) = true /\ state (s_status (demo_run demo_rest w)) = SI_BOOT_KEY_STATE_CANCELLED /\
  pressed always (mret tt) demo_rest w = 1%nat /\
  (pressed always (mret tt) demo_rest w <= if armed_task w then 1 else 0)%nat.
Proof.
  intros w.
  assert (Ec : cancel_requested (s_status w) = true) by by_eval.
  assert (Ex : state (s_status (demo_run demo_rest w)) = SI_BOOT_KEY_STATE_CANCELLED) by by_eval.
  assert (Ep : pressed always (mret tt) demo_rest w = 1%nat) by by_eval.
  assert (Es : same_planb demo_rest w = true) by by_eval.
  pose proof (cancelled_plan_stops always (mret tt) demo_cancelled demo_rest demo_boot demo_boot_fresh) as H.
  cbv zeta in H. fold w in H. exact (conj Ec (conj Ex (conj Ep (H Ec (same_planb_ok demo_rest w Es))))).
Defined.

(** The lease is held, nothing is pressed yet, and the sequence times out. *)
Definition demo_waiting : list boot_action := weave (take 8 demo_steps) demo_boot.

Definition demo_late : list boot_action :=
  weave (map demo_task (seqZ 2000 14)) (demo_run demo_waiting demo_boot).

Fixpoint timed_outb (i : nat) (actions : list boot_action) (w : boot_world) : bool :=
  match actions with
  | [] => true
  | action :: actions =>
      match action with
      | BootTask env j => match boot_tasks w !! i with Some (BootDecide _, t) => is_late env t | _ => true end
      | _ => true
      end && timed_outb i actions (demo_exec action w).2
  end.

Lemma timed_outb_ok i actions w : timed_outb i actions w = true -> timed_out always (mret tt) i actions w.
Proof.
  revert w. induction actions as [|action actions IH]; intros w H; [done|]. cbn [timed_outb] in H.
  apply andb_prop in H as [H1 H2]. split; [|by apply IH]. destruct action; try done. intros e t -> E. by rewrite E in H1.
Qed.

Definition demo_local (w : boot_world) : boot_pc * boot_task_t :=
  default (BootGone, mk_boot_task [] zero_boot_config 0 false zero_token 0) (boot_tasks w !! 0%nat).

Lemma task_ends_and_lets_go_witness :
  let w := demo_run demo_waiting demo_boot in
  let w' := demo_run demo_late w in
  generation demo_token = 1 /\ (demo_local w').1 = BootGone /\
  state (s_status w') = SI_BOOT_KEY_STATE_TIMED_OUT /\
  exists t', boot_tasks w' !! 0%nat = Some (BootGone, t') /\
    (generation (bt_owner t') = 0 \/
     exists es, deeds always (mret tt) 0 demo_late w = es ++ [KeysReleased (bt_owner t'); LeaseReleased (bt_owner t')]).
Proof.
  intros w w'.
  assert (Eg : generation demo_token = 1) by by_eval.
  assert (El : (demo_local w').1 = BootGone) by by_eval.
  assert (Ex : state (s_status w') = SI_BOOT_KEY_STATE_TIMED_OUT) by by_eval.
  assert (Ei : boot_tasks w !! 0%nat = Some (BootRenew, (demo_local w).2)) by by_eval.
  assert (Et : timed_outb 0 demo_late w = true) by by_eval.
  assert (En : (14 <=? own_steps 0 demo_late)%nat = true) by by_eval. apply Nat.leb_le in En.
  pose proof (task_ends_and_lets_go always (mret tt) 0 demo_waiting demo_late demo_boot BootRenew
    (demo_local w).2 demo_boot_fresh) as H.
  cbv zeta in H. fold w in H. fold w' in H.
  exact (conj Eg (conj El (conj Ex (H Ei eq_refl (timed_outb_ok 0 demo_late w Et) En)))).
Defined.

(** A key too many: the first count is lost with the lock, and the task, which
    reads the progress from the status, presses again. *)
Definition demo_lost : list boot_action :=
  let slow := BootTask (mk_boot_env false 110 true ESP_OK (demo_env 110 true)
                          (mk_touch_env (demo_env 110 true) (demo_env 110 true) (demo_env 110 true))) 0 in
  weave (demo_steps ++ [demo_press; ([], slow)] ++ map demo_task [210; 220; 230] ++
         [(tick_no :: yes, BootTask (demo_boot_env 240) 0)]) demo_boot.

Example key_too_many :
  max_attempts demo_plan = 1 /\ tallied always (mret tt) demo_lost demo_boot (mk_tally 0 0) = mk_tally 2 1.
Proof. split; by_eval. Qed.
