(* ===== verification/AgentRequest.v ===== *)
(** * The request broker: [application/agent_request_broker.c]

    An agent that wants to act files a request; it is granted by a policy, by a
    reviewer or by a browser session, consumed once before the effect, and then
    followed to a verified end.  The 32 slots are a list; a request that does not
    exist is the zeroed record.  A call takes the mutex for all of its work. *)

From Stdlib Require Import String.
From S2P Require Import Prelude CText Hex Firmware.

Definition SI_AGENT_REQUEST_QUEUE_CAPACITY : nat := 32.
Definition SI_AGENT_REQUEST_ID_MAX_LEN : nat := 24.
Definition SI_AGENT_REQUEST_RUN_ID_MAX_LEN : nat := 40.
Definition SI_AGENT_REQUEST_THREAD_ID_MAX_LEN : nat := 40.
Definition SI_AGENT_REQUEST_TURN_ID_MAX_LEN : nat := 40.
Definition SI_AGENT_REQUEST_STEP_ID_MAX_LEN : nat := 40.
Definition SI_AGENT_REQUEST_DEVICE_ID_MAX_LEN : nat := 64.
Definition SI_AGENT_REQUEST_RESOURCE_MAX_LEN : nat := 40.
Definition SI_AGENT_REQUEST_REASON_MAX_LEN : nat := 160.
Definition SI_AGENT_REQUEST_EFFECT_MAX_LEN : nat := 160.
Definition SI_AGENT_REQUEST_VERIFY_MAX_LEN : nat := 120.
Definition SI_AGENT_REQUEST_PARAMS_MAX_LEN : nat := 768.
Definition SI_AGENT_REQUEST_HASH_HEX_LEN : nat := 64.
Definition SI_AGENT_REQUEST_SESSION_ID_MAX_LEN : nat := 40.
Definition SI_AGENT_REQUEST_INSTANCE_ID_MAX_LEN : nat := 40.
Definition SI_AGENT_REQUEST_IDEMPOTENCY_KEY_MAX_LEN : nat := 64.
Definition SI_AGENT_REQUEST_RESPONSE_MAX_LEN : nat := 512.
Definition SI_AGENT_REQUEST_ERROR_MAX_LEN : nat := 128.
Definition SI_AGENT_REQUEST_SNAPSHOT_SCHEMA_VERSION : Z := 2.
Definition SI_AGENT_REQUEST_DEFAULT_TTL_MS : Z := 120000.
Definition SI_AGENT_REQUEST_MIN_TTL_MS : Z := 5000.
Definition SI_AGENT_REQUEST_MAX_TTL_MS : Z := 600000.

(** The size of [decision_source]. *)
Definition DECISION_SOURCE_SIZE : nat := 24.

(** ** The enumerations *)

Inductive si_agent_request_kind_t := SI_AGENT_REQUEST_KIND_CONTEXT | SI_AGENT_REQUEST_KIND_ACTION.

Inductive si_agent_request_risk_t :=
| SI_AGENT_REQUEST_RISK_LOW | SI_AGENT_REQUEST_RISK_MEDIUM | SI_AGENT_REQUEST_RISK_HIGH
| SI_AGENT_REQUEST_RISK_CRITICAL.

Inductive si_agent_request_state_t :=
| SI_AGENT_REQUEST_EMPTY | SI_AGENT_REQUEST_REQUESTED | SI_AGENT_REQUEST_EVALUATING
| SI_AGENT_REQUEST_REVIEWING | SI_AGENT_REQUEST_WAITING_USER | SI_AGENT_REQUEST_GRANTED
| SI_AGENT_REQUEST_EXECUTING | SI_AGENT_REQUEST_VERIFYING | SI_AGENT_REQUEST_COMPLETED
| SI_AGENT_REQUEST_FAILED | SI_AGENT_REQUEST_DENIED | SI_AGENT_REQUEST_EXPIRED
| SI_AGENT_REQUEST_CANCELLED | SI_AGENT_REQUEST_UNKNOWN.

Inductive si_agent_request_grant_scope_t :=
| SI_AGENT_REQUEST_GRANT_ONCE | SI_AGENT_REQUEST_GRANT_STEP | SI_AGENT_REQUEST_GRANT_RUN
| SI_AGENT_REQUEST_GRANT_THREAD.

Inductive si_agent_request_principal_t :=
| SI_AGENT_REQUEST_PRINCIPAL_UNSPECIFIED | SI_AGENT_REQUEST_PRINCIPAL_AGENT
| SI_AGENT_REQUEST_PRINCIPAL_BROWSER | SI_AGENT_REQUEST_PRINCIPAL_REVIEWER
| SI_AGENT_REQUEST_PRINCIPAL_POLICY | SI_AGENT_REQUEST_PRINCIPAL_RUNTIME.

#[export] Instance request_kind_eq_dec : EqDecision si_agent_request_kind_t.
Proof. solve_decision. Defined.
#[export] Instance request_kind_enum : CEnum si_agent_request_kind_t.
Proof. enum_of [SI_AGENT_REQUEST_KIND_CONTEXT; SI_AGENT_REQUEST_KIND_ACTION]. Defined.
#[export] Instance request_risk_eq_dec : EqDecision si_agent_request_risk_t.
Proof. solve_decision. Defined.
#[export] Instance request_risk_enum : CEnum si_agent_request_risk_t.
Proof.
  enum_of [SI_AGENT_REQUEST_RISK_LOW; SI_AGENT_REQUEST_RISK_MEDIUM; SI_AGENT_REQUEST_RISK_HIGH;
           SI_AGENT_REQUEST_RISK_CRITICAL].
Defined.
#[export] Instance request_state_eq_dec : EqDecision si_agent_request_state_t.
Proof. solve_decision. Defined.
#[export] Instance request_state_enum : CEnum si_agent_request_state_t.
Proof.
  enum_of [SI_AGENT_REQUEST_EMPTY; SI_AGENT_REQUEST_REQUESTED; SI_AGENT_REQUEST_EVALUATING;
           SI_AGENT_REQUEST_REVIEWING; SI_AGENT_REQUEST_WAITING_USER; SI_AGENT_REQUEST_GRANTED;
           SI_AGENT_REQUEST_EXECUTING; SI_AGENT_REQUEST_VERIFYING; SI_AGENT_REQUEST_COMPLETED;
           SI_AGENT_REQUEST_FAILED; SI_AGENT_REQUEST_DENIED; SI_AGENT_REQUEST_EXPIRED;
           SI_AGENT_REQUEST_CANCELLED; SI_AGENT_REQUEST_UNKNOWN].
Defined.
#[export] Instance request_scope_eq_dec : EqDecision si_agent_request_grant_scope_t.
Proof. solve_decision. Defined.
#[export] Instance request_scope_enum : CEnum si_agent_request_grant_scope_t.
Proof.
  enum_of [SI_AGENT_REQUEST_GRANT_ONCE; SI_AGENT_REQUEST_GRANT_STEP; SI_AGENT_REQUEST_GRANT_RUN;
           SI_AGENT_REQUEST_GRANT_THREAD].
Defined.
#[export] Instance request_principal_eq_dec : EqDecision si_agent_request_principal_t.
Proof. solve_decision. Defined.
#[export] Instance request_principal_enum : CEnum si_agent_request_principal_t.
Proof.
  enum_of [SI_AGENT_REQUEST_PRINCIPAL_UNSPECIFIED; SI_AGENT_REQUEST_PRINCIPAL_AGENT;
           SI_AGENT_REQUEST_PRINCIPAL_BROWSER; SI_AGENT_REQUEST_PRINCIPAL_REVIEWER;
           SI_AGENT_REQUEST_PRINCIPAL_POLICY; SI_AGENT_REQUEST_PRINCIPAL_RUNTIME].
Defined.

(** ** The data

    A kind, a risk, a scope and a principal are ordered integers that callers pass
    in; only the state is written by the broker alone, and is one of its constants. *)

Record si_agent_request_actor_t := mk_actor {
  principal : Z;
  session_id : cstring;
  instance_id : cstring
}.

Definition zero_actor : si_agent_request_actor_t := mk_actor 0 [] [].

Record si_agent_request_binding_input_t := mk_binding {
  b_device_id : option cstring;
  b_thread_id : option cstring;
  b_turn_id : option cstring;
  b_run_id : option cstring;
  b_step_id : option cstring;
  b_plan_version : Z;
  b_normalized_args_json : option cstring;
  b_idempotency_key : option cstring
}.

Record si_agent_request_input_t := mk_legacy_input {
  l_run_id : option cstring;
  l_kind : Z;
  l_resource : option cstring;
  l_reason : option cstring;
  l_params_json : option cstring;
  l_expected_effect : option cstring;
  l_verification : option cstring;
  l_risk : Z;
  l_lease_required : bool;
  l_ttl_ms : Z
}.

Record si_agent_request_v2_input_t := mk_v2_input {
  i_binding : si_agent_request_binding_input_t;
  i_requester : si_agent_request_actor_t;
  i_kind : Z;
  i_resource : option cstring;
  i_reason : option cstring;
  i_expected_effect : option cstring;
  i_verification : option cstring;
  i_risk : Z;
  i_lease_required : bool;
  i_reviewer_allowed : bool;
  i_delegated_auto_approval : bool;
  i_auto_approve_through : Z;
  i_requested_grant_scope : Z;
  i_ttl_ms : Z
}.

Record si_agent_request_status_t := mk_request {
  state : si_agent_request_state_t;
  kind : Z;
  risk : Z;
  lease_required : bool;
  reviewer_allowed : bool;
  grant_consumed : bool;
  requested_grant_scope : Z;
  grant_scope : Z;
  created_ms : Z;
  expires_at_ms : Z;
  decided_ms : Z;
  consumed_ms : Z;
  verifying_ms : Z;
  completed_ms : Z;
  plan_version : Z;
  sequence : Z;
  request_id : cstring;
  parent_grant_request_id : cstring;
  device_id : cstring;
  thread_id : cstring;
  turn_id : cstring;
  run_id : cstring;
  step_id : cstring;
  resource : cstring;
  reason : cstring;
  params_json : cstring;
  params_hash : cstring;
  normalized_args_hash : cstring;
  idempotency_key : cstring;
  expected_effect : cstring;
  verification : cstring;
  requester : si_agent_request_actor_t;
  reviewer : si_agent_request_actor_t;
  decider : si_agent_request_actor_t;
  decision_source : cstring;
  decided_by_session : cstring;
  response : cstring;
  verification_evidence : cstring;
  request_error : cstring
}.

#[export] Instance eta_request : Settable si_agent_request_status_t := fun r =>
  mk_request (state r) (kind r) (risk r) (lease_required r) (reviewer_allowed r) (grant_consumed r)
    (requested_grant_scope r) (grant_scope r) (created_ms r) (expires_at_ms r) (decided_ms r)
    (consumed_ms r) (verifying_ms r) (completed_ms r) (plan_version r) (sequence r) (request_id r)
    (parent_grant_request_id r) (device_id r) (thread_id r) (turn_id r) (run_id r) (step_id r)
    (resource r) (reason r) (params_json r) (params_hash r) (normalized_args_hash r)
    (idempotency_key r) (expected_effect r) (verification r) (requester r) (reviewer r) (decider r)
    (decision_source r) (decided_by_session r) (response r) (verification_evidence r) (request_error r).

Definition zero_request : si_agent_request_status_t :=
  mk_request SI_AGENT_REQUEST_EMPTY 0 0 false false false 0 0 0 0 0 0 0 0 0 0 [] [] [] [] [] [] [] [] []
    [] [] [] [] [] [] zero_actor zero_actor zero_actor [] [] [] [] [].

Record si_agent_request_decision_t := mk_decision {
  d_request_id : option cstring;
  d_approved : bool;
  d_response : option cstring;
  d_decider : si_agent_request_actor_t;
  d_grant_scope : Z
}.

Record si_agent_request_consume_t := mk_consume {
  c_request_id : option cstring;
  c_binding : si_agent_request_binding_input_t
}.

Record si_agent_request_snapshot_entry_t := mk_entry {
  entry_status : si_agent_request_status_t;
  remaining_ttl_ms : Z
}.

Record si_agent_request_snapshot_t := mk_snapshot {
  schema_version : Z;
  snapshot_count : Z;
  next_sequence : Z;
  entries : list si_agent_request_snapshot_entry_t
}.

(** The statics of the file; [s_now_fn] and its context are opaque pointers. *)
Record broker_world := mk_broker {
  s_broker_lock : bool;
  s_requests : list si_agent_request_status_t;
  s_next_sequence : Z;
  s_now_fn : option Z;
  s_now_context : Z
}.

#[export] Instance eta_broker : Settable broker_world := fun w =>
  mk_broker (s_broker_lock w) (s_requests w) (s_next_sequence w) (s_now_fn w) (s_now_context w).

(** What a call reads from outside: whether the mutex can be created and comes in
    time, the clock of the device and what a clock function answers, a random word
    and whether SHA-256 runs; the legacy creation reads a word and the clock once
    more, before it takes the mutex. *)
Record broker_env := mk_broker_env {
  can_create : bool;
  in_time : bool;
  uptime_ms : Z;
  provided_ms : Z -> Z -> Z;
  random32 : Z;
  sha_ok : bool;
  key_uptime_ms : Z;
  key_random32 : Z
}.

(** ** Validation *)

Definition zero_table : list si_agent_request_status_t := replicate SI_AGENT_REQUEST_QUEUE_CAPACITY zero_request.

(** [copy_text] into a buffer of [max + 1] bytes. *)
Definition copy_text (max : nat) (source : option cstring) : cstring := strtrunc (max + 1) (deref source).

Definition value_valid (value : option cstring) (max_len : nat) (required : bool) : bool :=
  match value with
  | None => negb required
  | Some v => (negb required || (0 <? length v)%nat) && (length v <=? max_len)%nat
  end.

(** A text in a buffer of [capacity] bytes ends before its last byte. *)
Definition fixed_value_valid (value : cstring) (capacity : nat) (required : bool) : bool :=
  return_if negb (length value <? capacity)%nat with false ;;
  negb required || negb (is_empty value).

Definition kind_valid (k : Z) : bool :=
  (k =? enum_val SI_AGENT_REQUEST_KIND_CONTEXT) || (k =? enum_val SI_AGENT_REQUEST_KIND_ACTION).

Definition risk_valid (r : Z) : bool :=
  (enum_val SI_AGENT_REQUEST_RISK_LOW <=? r) && (r <=? enum_val SI_AGENT_REQUEST_RISK_CRITICAL).

Definition scope_valid (s : Z) : bool :=
  (enum_val SI_AGENT_REQUEST_GRANT_ONCE <=? s) && (s <=? enum_val SI_AGENT_REQUEST_GRANT_THREAD).

Definition state_valid (s : si_agent_request_state_t) : bool :=
  (enum_val SI_AGENT_REQUEST_REQUESTED <=? enum_val s) && (enum_val s <=? enum_val SI_AGENT_REQUEST_UNKNOWN).

Definition actor_valid (actor : si_agent_request_actor_t) (require_known_principal : bool) : bool :=
  return_if negb (fixed_value_valid (session_id actor) (SI_AGENT_REQUEST_SESSION_ID_MAX_LEN + 1) true) ||
            negb (fixed_value_valid (instance_id actor) (SI_AGENT_REQUEST_INSTANCE_ID_MAX_LEN + 1) true)
    with false ;;
  negb require_known_principal ||
  ((enum_val SI_AGENT_REQUEST_PRINCIPAL_UNSPECIFIED <? principal actor) &&
   (principal actor <=? enum_val SI_AGENT_REQUEST_PRINCIPAL_RUNTIME)).

Definition actor_equal (left right : si_agent_request_actor_t) : bool :=
  (principal left =? principal right) && streq (session_id left) (session_id right) &&
  streq (instance_id left) (instance_id right).

Definition clamp_ttl (ttl_ms : Z) : Z :=
  return_if ttl_ms =? 0 with SI_AGENT_REQUEST_DEFAULT_TTL_MS ;;
  return_if ttl_ms <? SI_AGENT_REQUEST_MIN_TTL_MS with SI_AGENT_REQUEST_MIN_TTL_MS ;;
  return_if SI_AGENT_REQUEST_MAX_TTL_MS <? ttl_ms with SI_AGENT_REQUEST_MAX_TTL_MS ;;
  ttl_ms.

(** The difference as a signed 32-bit number. *)
Definition deadline_reached (now_ms expires_at : Z) : bool := u32 (now_ms - expires_at) <? 2 ^ 31.

Definition remaining_ttl (now_ms expires_at : Z) : Z :=
  if deadline_reached now_ms expires_at then 0 else u32 (expires_at - now_ms).

(** ** The states of a request *)

Definition transition_allowed (from to : si_agent_request_state_t) : bool :=
  match from with
  | SI_AGENT_REQUEST_REQUESTED =>
      match to with
      | SI_AGENT_REQUEST_EVALUATING | SI_AGENT_REQUEST_CANCELLED | SI_AGENT_REQUEST_EXPIRED => true
      | _ => false
      end
  | SI_AGENT_REQUEST_EVALUATING =>
      match to with
      | SI_AGENT_REQUEST_REVIEWING | SI_AGENT_REQUEST_WAITING_USER | SI_AGENT_REQUEST_GRANTED
      | SI_AGENT_REQUEST_DENIED | SI_AGENT_REQUEST_CANCELLED | SI_AGENT_REQUEST_EXPIRED => true
      | _ => false
      end
  | SI_AGENT_REQUEST_REVIEWING =>
      match to with
      | SI_AGENT_REQUEST_WAITING_USER | SI_AGENT_REQUEST_GRANTED | SI_AGENT_REQUEST_DENIED
      | SI_AGENT_REQUEST_CANCELLED | SI_AGENT_REQUEST_EXPIRED => true
      | _ => false
      end
  | SI_AGENT_REQUEST_WAITING_USER =>
      match to with
      | SI_AGENT_REQUEST_GRANTED | SI_AGENT_REQUEST_DENIED | SI_AGENT_REQUEST_CANCELLED
      | SI_AGENT_REQUEST_EXPIRED => true
      | _ => false
      end
  | SI_AGENT_REQUEST_GRANTED =>
      match to with
      | SI_AGENT_REQUEST_EXECUTING | SI_AGENT_REQUEST_CANCELLED | SI_AGENT_REQUEST_EXPIRED => true
      | _ => false
      end
  | SI_AGENT_REQUEST_EXECUTING =>
      match to with
      | SI_AGENT_REQUEST_VERIFYING | SI_AGENT_REQUEST_FAILED | SI_AGENT_REQUEST_UNKNOWN => true
      | _ => false
      end
  | SI_AGENT_REQUEST_VERIFYING =>
      match to with
      | SI_AGENT_REQUEST_COMPLETED | SI_AGENT_REQUEST_FAILED | SI_AGENT_REQUEST_UNKNOWN => true
      | _ => false
      end
  | _ => false
  end.

(** [None] when the transition is refused and the request stays. *)
Definition set_state_locked (r : si_agent_request_status_t) (next : si_agent_request_state_t) (now_ms : Z)
  : option si_agent_request_status_t :=
  return_if negb (transition_allowed (state r) next) with None ;;
  let r := r <| state := next |> in
  Some match next with
       | SI_AGENT_REQUEST_GRANTED | SI_AGENT_REQUEST_DENIED | SI_AGENT_REQUEST_EXPIRED
       | SI_AGENT_REQUEST_CANCELLED => r <| decided_ms := now_ms |>
       | SI_AGENT_REQUEST_EXECUTING => (r <| consumed_ms := now_ms |>) <| grant_consumed := true |>
       | SI_AGENT_REQUEST_VERIFYING => r <| verifying_ms := now_ms |>
       | SI_AGENT_REQUEST_COMPLETED | SI_AGENT_REQUEST_FAILED | SI_AGENT_REQUEST_UNKNOWN =>
           r <| completed_ms := now_ms |>
       | _ => r
       end.

(** [(void)set_state_locked]: whoever calls it does not look at the answer. *)
Definition try_state (next : si_agent_request_state_t) (now_ms : Z) (r : si_agent_request_status_t)
  : si_agent_request_status_t := default r (set_state_locked r next now_ms).

Definition state_expires (s : si_agent_request_state_t) : bool :=
  match s with
  | SI_AGENT_REQUEST_REQUESTED | SI_AGENT_REQUEST_EVALUATING | SI_AGENT_REQUEST_REVIEWING
  | SI_AGENT_REQUEST_WAITING_USER | SI_AGENT_REQUEST_GRANTED => true
  | _ => false
  end.

Definition state_terminal (s : si_agent_request_state_t) : bool :=
  match s with
  | SI_AGENT_REQUEST_COMPLETED | SI_AGENT_REQUEST_FAILED | SI_AGENT_REQUEST_DENIED
  | SI_AGENT_REQUEST_EXPIRED | SI_AGENT_REQUEST_CANCELLED | SI_AGENT_REQUEST_UNKNOWN => true
  | _ => false
  end.

Definition effect_started (s : si_agent_request_state_t) : bool :=
  match s with
  | SI_AGENT_REQUEST_EXECUTING | SI_AGENT_REQUEST_VERIFYING | SI_AGENT_REQUEST_COMPLETED
  | SI_AGENT_REQUEST_FAILED | SI_AGENT_REQUEST_UNKNOWN => true
  | _ => false
  end.

(** The texts that say who decided, and why a request ended. *)
Definition set_source (text : string) (r : si_agent_request_status_t) : si_agent_request_status_t :=
  r <| decision_source := strtrunc DECISION_SOURCE_SIZE (cstr text) |>.

Definition set_error (text : option cstring) (r : si_agent_request_status_t) : si_agent_request_status_t :=
  r <| request_error := copy_text SI_AGENT_REQUEST_ERROR_MAX_LEN text |>.

Definition error_text (text : string) : option cstring := Some (cstr text).

(** ** The table *)

(** The body of the loop of [expire_all_locked]. *)
Definition expire_request (now_ms : Z) (r : si_agent_request_status_t) : si_agent_request_status_t :=
  if state_expires (state r) && deadline_reached now_ms (expires_at_ms r) then
    set_error (error_text "request or grant expired")
      (set_source "ttl" (try_state SI_AGENT_REQUEST_EXPIRED now_ms r))
  else r.

Definition modify_requests (f : list si_agent_request_status_t -> list si_agent_request_status_t)
  : st broker_world unit := modify (fun w => w <| s_requests := f (s_requests w) |>).

Definition expire_all_locked (now_ms : Z) : st broker_world unit := modify_requests (map (expire_request now_ms)).

(** The first index that passes a test. *)
Definition find_request (test : si_agent_request_status_t -> bool) (rs : list si_agent_request_status_t)
  : option nat := fst <$> list_find (fun r => test r = true) rs.

Definition find_by_id_locked (id : option cstring) (rs : list si_agent_request_status_t) : option nat :=
  match id with
  | Some id => return_if is_empty id with None ;; find_request (fun r => streq (request_id r) id) rs
  | None => None
  end.

Definition find_idempotency_locked (key : cstring) (rs : list si_agent_request_status_t) : option nat :=
  find_request (fun r => negb (bool_decide (state r = SI_AGENT_REQUEST_EMPTY)) && streq (idempotency_key r) key) rs.

Definition allocate_slot_locked (rs : list si_agent_request_status_t) : option nat :=
  find_request (fun r => bool_decide (state r = SI_AGENT_REQUEST_EMPTY)) rs.

Definition request_at (i : nat) (rs : list si_agent_request_status_t) : si_agent_request_status_t :=
  nth i rs zero_request.

(** ** Matching *)

Definition auto_resources : list cstring := map cstr
  ["capability.catalog"; "device.status"; "observe_status"; "observe_hid_status"; "observe_video_status";
   "uart_status"; "uart_read"; "check_service"; "verify_port"; "memory_search"; "history_search"; "wait";
   "web_search"; "host_display.observe"; "host_display.status"; "host_display.plan";
   "boot_key_sequence.status"; "boot_key_sequence.plan"]%string.

Definition resource_auto_approved (input : si_agent_request_v2_input_t) : bool :=
  return_if negb (i_risk input =? enum_val SI_AGENT_REQUEST_RISK_LOW) || i_lease_required input with false ;;
  existsb (streq (deref (i_resource input))) auto_resources.

Definition binding_matches_status (b : si_agent_request_binding_input_t) (r : si_agent_request_status_t)
    (args_hash : cstring) : bool :=
  streq (deref (b_device_id b)) (device_id r) && streq (deref (b_thread_id b)) (thread_id r) &&
  streq (deref (b_turn_id b)) (turn_id r) && streq (deref (b_run_id b)) (run_id r) &&
  streq (deref (b_step_id b)) (step_id r) && (b_plan_version b =? plan_version r) &&
  streq (deref (b_idempotency_key b)) (idempotency_key r) && streq args_hash (normalized_args_hash r).

Definition request_exact_match (input : si_agent_request_v2_input_t) (r : si_agent_request_status_t)
    (args_hash : cstring) : bool :=
  binding_matches_status (i_binding input) r args_hash && (i_kind input =? kind r) && (i_risk input =? risk r) &&
  Bool.eqb (i_lease_required input) (lease_required r) &&
  Bool.eqb (i_reviewer_allowed input) (reviewer_allowed r) &&
  (i_requested_grant_scope input =? requested_grant_scope r) && streq (deref (i_resource input)) (resource r) &&
  streq (deref (i_reason input)) (reason r) && streq (deref (i_expected_effect input)) (expected_effect r) &&
  streq (deref (i_verification input)) (verification r) && actor_equal (i_requester input) (requester r).

Definition grant_scope_matches (grant : si_agent_request_status_t) (input : si_agent_request_v2_input_t)
    (args_hash : cstring) (now_ms : Z) : bool :=
  let b := i_binding input in
  return_if negb (bool_decide (state grant = SI_AGENT_REQUEST_COMPLETED)) ||
            (grant_scope grant =? enum_val SI_AGENT_REQUEST_GRANT_ONCE) ||
            deadline_reached now_ms (expires_at_ms grant) ||
            negb (kind grant =? i_kind input) || negb (risk grant =? i_risk input) ||
            negb (Bool.eqb (lease_required grant) (i_lease_required input)) ||
            negb (plan_version grant =? b_plan_version b) ||
            negb (streq (device_id grant) (deref (b_device_id b))) ||
            negb (streq (resource grant) (deref (i_resource input))) ||
            negb (streq (expected_effect grant) (deref (i_expected_effect input))) ||
            negb (streq (verification grant) (deref (i_verification input))) ||
            negb (streq (normalized_args_hash grant) args_hash) ||
            negb (actor_equal (requester grant) (i_requester input)) with false ;;
  match enum_of_Z (grant_scope grant) with
  | Some SI_AGENT_REQUEST_GRANT_STEP =>
      streq (thread_id grant) (deref (b_thread_id b)) && streq (turn_id grant) (deref (b_turn_id b)) &&
      streq (run_id grant) (deref (b_run_id b)) && streq (step_id grant) (deref (b_step_id b))
  | Some SI_AGENT_REQUEST_GRANT_RUN =>
      streq (thread_id grant) (deref (b_thread_id b)) && streq (turn_id grant) (deref (b_turn_id b)) &&
      streq (run_id grant) (deref (b_run_id b))
  | Some SI_AGENT_REQUEST_GRANT_THREAD =>
      (kind grant =? enum_val SI_AGENT_REQUEST_KIND_CONTEXT) && (risk grant =? enum_val SI_AGENT_REQUEST_RISK_LOW) &&
      streq (thread_id grant) (deref (b_thread_id b))
  | _ => false
  end.

Definition v2_input_valid (input : option si_agent_request_v2_input_t) : bool :=
  match input with
  | None => false
  | Some input =>
      let b := i_binding input in
      let action := i_kind input =? enum_val SI_AGENT_REQUEST_KIND_ACTION in
      return_if negb (kind_valid (i_kind input)) || negb (risk_valid (i_risk input)) ||
                (i_delegated_auto_approval input && negb (risk_valid (i_auto_approve_through input))) ||
                negb (scope_valid (i_requested_grant_scope input)) ||
                negb (principal (i_requester input) =? enum_val SI_AGENT_REQUEST_PRINCIPAL_AGENT) ||
                negb (actor_valid (i_requester input) true) ||
                negb (value_valid (b_device_id b) SI_AGENT_REQUEST_DEVICE_ID_MAX_LEN true) ||
                negb (value_valid (b_thread_id b) SI_AGENT_REQUEST_THREAD_ID_MAX_LEN true) ||
                negb (value_valid (b_turn_id b) SI_AGENT_REQUEST_TURN_ID_MAX_LEN true) ||
                negb (value_valid (b_run_id b) SI_AGENT_REQUEST_RUN_ID_MAX_LEN true) ||
                negb (value_valid (b_step_id b) SI_AGENT_REQUEST_STEP_ID_MAX_LEN true) ||
                (b_plan_version b =? 0) ||
                negb (value_valid (b_normalized_args_json b) SI_AGENT_REQUEST_PARAMS_MAX_LEN true) ||
                negb (value_valid (b_idempotency_key b) SI_AGENT_REQUEST_IDEMPOTENCY_KEY_MAX_LEN true) ||
                negb (value_valid (i_resource input) SI_AGENT_REQUEST_RESOURCE_MAX_LEN true) ||
                negb (value_valid (i_reason input) SI_AGENT_REQUEST_REASON_MAX_LEN true) ||
                negb (value_valid (i_expected_effect input) SI_AGENT_REQUEST_EFFECT_MAX_LEN action) ||
                negb (value_valid (i_verification input) SI_AGENT_REQUEST_VERIFY_MAX_LEN action) with false ;;
      negb (i_requested_grant_scope input =? enum_val SI_AGENT_REQUEST_GRANT_THREAD) ||
      ((i_kind input =? enum_val SI_AGENT_REQUEST_KIND_CONTEXT) &&
       (i_risk input =? enum_val SI_AGENT_REQUEST_RISK_LOW) && negb (i_lease_required input))
  end.

(** The tests of the binding that a consumption repeats. *)
Definition binding_valid (b : si_agent_request_binding_input_t) : bool :=
  value_valid (b_device_id b) SI_AGENT_REQUEST_DEVICE_ID_MAX_LEN true &&
  value_valid (b_thread_id b) SI_AGENT_REQUEST_THREAD_ID_MAX_LEN true &&
  value_valid (b_turn_id b) SI_AGENT_REQUEST_TURN_ID_MAX_LEN true &&
  value_valid (b_run_id b) SI_AGENT_REQUEST_RUN_ID_MAX_LEN true &&
  value_valid (b_step_id b) SI_AGENT_REQUEST_STEP_ID_MAX_LEN true && negb (b_plan_version b =? 0) &&
  value_valid (b_normalized_args_json b) SI_AGENT_REQUEST_PARAMS_MAX_LEN true &&
  value_valid (b_idempotency_key b) SI_AGENT_REQUEST_IDEMPOTENCY_KEY_MAX_LEN true.

Definition set_actor (p : Z) (session instance : option cstring) : si_agent_request_actor_t :=
  mk_actor p (copy_text SI_AGENT_REQUEST_SESSION_ID_MAX_LEN session)
    (copy_text SI_AGENT_REQUEST_INSTANCE_ID_MAX_LEN instance).

(** ** The frame of a call *)

Definition si_agent_request_broker_start (env : broker_env) : st broker_world esp_err_t :=
  lock ← gets s_broker_lock;
  return_if lock with mret ESP_OK ;;
  return_if negb (can_create env) with mret ESP_ERR_NO_MEM ;;
  modify (fun w => ((w <| s_broker_lock := true |>) <| s_requests := zero_table |>) <| s_next_sequence := 1 |>);;
  mret ESP_OK.

Definition broker_lock (env : broker_env) : st broker_world esp_err_t :=
  lock ← gets s_broker_lock;
  return_if negb lock || negb (in_time env) with mret ESP_ERR_TIMEOUT ;;
  mret ESP_OK.

Definition broker_now_ms (env : broker_env) (uptime : Z) : st broker_world Z :=
  now_fn ← gets s_now_fn;
  context ← gets s_now_context;
  mret (u32 match now_fn with Some f => provided_ms env f context | None => uptime end).

(** Start, take the mutex, work, give it back. *)
Definition broker_call {A} (env : broker_env) (fail : esp_err_t -> A) (body : st broker_world A) : st broker_world A :=
  ret ← si_agent_request_broker_start env;
  return_if negb (bool_decide (ret = ESP_OK)) with mret (fail ret) ;;
  ret ← broker_lock env;
  return_if negb (bool_decide (ret = ESP_OK)) with mret (fail ret) ;;
  body.

(** What the calls on one request answer: the code, and the copy for the caller. *)
Abbreviation answer := (esp_err_t * option si_agent_request_status_t)%type (only parsing).

Definition no_copy (ret : esp_err_t) : answer := (ret, None).

(** Find a request by its id, work on it, and copy it out. *)
Definition on_request (id : option cstring)
    (work : si_agent_request_status_t -> esp_err_t * si_agent_request_status_t) : st broker_world answer :=
  rs ← gets s_requests;
  match find_by_id_locked id rs with
  | None => mret (no_copy ESP_ERR_NOT_FOUND)
  | Some i =>
      let '(ret, r) := work (request_at i rs) in
      modify_requests <[i := r]>;;
      mret (ret, Some r)
  end.

Definition si_agent_request_broker_set_now_provider (env : broker_env) (now_fn : option Z) (context : Z)
  : st broker_world esp_err_t :=
  broker_call env id (
    modify (fun w => (w <| s_now_fn := now_fn |>) <| s_now_context := context |>);;
    mret ESP_OK).

(** ** Filing a request *)

Definition new_request_id (random seq : Z) : cstring :=
  strtrunc (SI_AGENT_REQUEST_ID_MAX_LEN + 1) (cstr "req-" ++ hex32 random ++ cstr "-" ++ hex32 (u32 seq)).

(** The zeroed slot, filled from the input. *)
Definition fill_request (input : si_agent_request_v2_input_t) (args_hash : cstring) (now_ms random seq : Z)
  : si_agent_request_status_t :=
  let b := i_binding input in
  mk_request SI_AGENT_REQUEST_REQUESTED (i_kind input) (i_risk input) (i_lease_required input)
    (i_reviewer_allowed input) false (i_requested_grant_scope input) (enum_val SI_AGENT_REQUEST_GRANT_ONCE)
    now_ms (u32 (now_ms + clamp_ttl (i_ttl_ms input))) 0 0 0 0 (b_plan_version b) seq (new_request_id random seq) []
    (copy_text SI_AGENT_REQUEST_DEVICE_ID_MAX_LEN (b_device_id b))
    (copy_text SI_AGENT_REQUEST_THREAD_ID_MAX_LEN (b_thread_id b))
    (copy_text SI_AGENT_REQUEST_TURN_ID_MAX_LEN (b_turn_id b))
    (copy_text SI_AGENT_REQUEST_RUN_ID_MAX_LEN (b_run_id b))
    (copy_text SI_AGENT_REQUEST_STEP_ID_MAX_LEN (b_step_id b))
    (copy_text SI_AGENT_REQUEST_RESOURCE_MAX_LEN (i_resource input))
    (copy_text SI_AGENT_REQUEST_REASON_MAX_LEN (i_reason input))
    (copy_text SI_AGENT_REQUEST_PARAMS_MAX_LEN (b_normalized_args_json b))
    (copy_text SI_AGENT_REQUEST_HASH_HEX_LEN (Some args_hash))
    (copy_text SI_AGENT_REQUEST_HASH_HEX_LEN (Some args_hash))
    (copy_text SI_AGENT_REQUEST_IDEMPOTENCY_KEY_MAX_LEN (b_idempotency_key b))
    (copy_text SI_AGENT_REQUEST_EFFECT_MAX_LEN (i_expected_effect input))
    (copy_text SI_AGENT_REQUEST_VERIFY_MAX_LEN (i_verification input))
    (i_requester input) zero_actor zero_actor [] [] [] [] [].

(** A request that reuses a grant. *)
Definition reuse_grant (grant : si_agent_request_status_t) (input : si_agent_request_v2_input_t) (now_ms : Z)
    (r : si_agent_request_status_t) : si_agent_request_status_t :=
  let r := r <| grant_scope := if grant_scope grant <? i_requested_grant_scope input then grant_scope grant
                               else i_requested_grant_scope input |> in
  let r := if remaining_ttl now_ms (expires_at_ms grant) <? remaining_ttl now_ms (expires_at_ms r)
           then r <| expires_at_ms := expires_at_ms grant |> else r in
  let r := set_source "grant_reuse"
    (r <| parent_grant_request_id := copy_text SI_AGENT_REQUEST_ID_MAX_LEN (Some (request_id grant)) |>) in
  let r := (r <| decider := decider grant |>) <| reviewer := reviewer grant |> in
  try_state SI_AGENT_REQUEST_GRANTED now_ms
    (r <| decided_by_session := copy_text SI_AGENT_REQUEST_SESSION_ID_MAX_LEN (Some (decided_by_session grant)) |>).

(** A request that a policy grants. *)
Definition policy_grant (session instance source : string) (now_ms : Z) (r : si_agent_request_status_t)
  : si_agent_request_status_t :=
  let r := r <| grant_scope := enum_val SI_AGENT_REQUEST_GRANT_ONCE |> in
  let r := set_source source (r <| decider := set_actor (enum_val SI_AGENT_REQUEST_PRINCIPAL_POLICY)
                                               (Some (cstr session)) (Some (cstr instance)) |>) in
  try_state SI_AGENT_REQUEST_GRANTED now_ms
    (r <| decided_by_session := copy_text SI_AGENT_REQUEST_SESSION_ID_MAX_LEN (Some (cstr session)) |>).

(** What becomes of a request that was just filed. *)
Definition judge_request (reusable : option si_agent_request_status_t) (input : si_agent_request_v2_input_t)
    (now_ms : Z) (r : si_agent_request_status_t) : si_agent_request_status_t :=
  let r := try_state SI_AGENT_REQUEST_EVALUATING now_ms r in
  match reusable with
  | Some grant => reuse_grant grant input now_ms r
  | None =>
      if i_delegated_auto_approval input && (i_risk input <=? i_auto_approve_through input) then
        policy_grant "access-mode" "delegated-policy-v1" "delegated_policy" now_ms r
      else if resource_auto_approved input then policy_grant "broker" "deterministic-policy-v1" "policy" now_ms r
      else if i_reviewer_allowed input && (i_risk input <=? enum_val SI_AGENT_REQUEST_RISK_MEDIUM) then
        try_state SI_AGENT_REQUEST_REVIEWING now_ms r
      else try_state SI_AGENT_REQUEST_WAITING_USER now_ms r
  end.

Section sha.
Context (sha256 : list Z -> list Z).

Definition sha256_hex (env : broker_env) (value : cstring) : option cstring :=
  return_if negb (sha_ok env) with None ;;
  Some (hex_text (sha256 value)).

Definition si_agent_request_broker_create_v2 (env : broker_env) (input : option si_agent_request_v2_input_t)
  : st broker_world answer :=
  return_if negb (v2_input_valid input) with mret (no_copy ESP_ERR_INVALID_ARG) ;;
  match input with
  | None => mret (no_copy ESP_ERR_INVALID_ARG)
  | Some input =>
      match sha256_hex env (deref (b_normalized_args_json (i_binding input))) with
      | None => mret (no_copy ESP_FAIL)
      | Some args_hash =>
          broker_call env no_copy (
            now_ms ← broker_now_ms env (uptime_ms env);
            expire_all_locked now_ms;;
            rs ← gets s_requests;
            match find_idempotency_locked (deref (b_idempotency_key (i_binding input))) rs with
            | Some i =>
                let duplicate := request_at i rs in
                mret (if request_exact_match input duplicate args_hash then ESP_OK else ESP_ERR_INVALID_STATE,
                      Some duplicate)
            | None =>
                let reusable := find_request (fun g => grant_scope_matches g input args_hash now_ms) rs in
                match allocate_slot_locked rs with
                | None => mret (no_copy ESP_ERR_NO_MEM)
                | Some i =>
                    seq ← gets s_next_sequence;
                    modify (fun w => w <| s_next_sequence := u64 (s_next_sequence w + 1) |>);;
                    let r := judge_request ((fun j => request_at j rs) <$> reusable) input now_ms
                               (fill_request input args_hash now_ms (random32 env) seq) in
                    modify_requests <[i := r]>;;
                    mret (ESP_OK, Some r)
                end
            end)
      end
  end.

(** The legacy form: a key of its own, and a binding that repeats the run. *)
Definition legacy_key (random now_ms : Z) : cstring :=
  strtrunc (SI_AGENT_REQUEST_IDEMPOTENCY_KEY_MAX_LEN + 1) (cstr "legacy-" ++ hex32 random ++ cstr "-" ++ hex32 now_ms).

Definition legacy_v2 (input : si_agent_request_input_t) (key : cstring) : si_agent_request_v2_input_t :=
  mk_v2_input
    (mk_binding (Some (cstr "legacy-device")) (l_run_id input) (l_run_id input) (l_run_id input)
       (Some (cstr "legacy-step")) 1 (l_params_json input) (Some key))
    (set_actor (enum_val SI_AGENT_REQUEST_PRINCIPAL_AGENT) (l_run_id input) (Some (cstr "legacy-embedded-agent")))
    (l_kind input) (l_resource input) (l_reason input) (l_expected_effect input) (l_verification input)
    (l_risk input) (l_lease_required input) false false 0 (enum_val SI_AGENT_REQUEST_GRANT_ONCE) (l_ttl_ms input).

Definition si_agent_request_broker_create (env : broker_env) (input : option si_agent_request_input_t)
  : st broker_world answer :=
  match input with
  | None => mret (no_copy ESP_ERR_INVALID_ARG)
  | Some input =>
      return_if negb (value_valid (l_run_id input) SI_AGENT_REQUEST_RUN_ID_MAX_LEN true) ||
                negb (value_valid (l_resource input) SI_AGENT_REQUEST_RESOURCE_MAX_LEN true) ||
                negb (value_valid (l_reason input) SI_AGENT_REQUEST_REASON_MAX_LEN true) ||
                negb (value_valid (l_params_json input) SI_AGENT_REQUEST_PARAMS_MAX_LEN true) ||
                negb (value_valid (l_expected_effect input) SI_AGENT_REQUEST_EFFECT_MAX_LEN false) ||
                negb (value_valid (l_verification input) SI_AGENT_REQUEST_VERIFY_MAX_LEN false) ||
                negb (kind_valid (l_kind input)) || negb (risk_valid (l_risk input))
        with mret (no_copy ESP_ERR_INVALID_ARG) ;;
      now_ms ← broker_now_ms env (key_uptime_ms env);
      si_agent_request_broker_create_v2 env (Some (legacy_v2 input (legacy_key (key_random32 env) now_ms)))
  end.

(** ** Consumption *)

Definition consume_request (binding : si_agent_request_binding_input_t) (args_hash : cstring) (now_ms : Z)
    (r : si_agent_request_status_t) : esp_err_t * si_agent_request_status_t :=
  if negb (bool_decide (state r = SI_AGENT_REQUEST_GRANTED)) then (ESP_ERR_INVALID_STATE, r)
  else if negb (binding_matches_status binding r args_hash) then
    (ESP_ERR_INVALID_STATE,
     set_error (error_text "binding, plan, arguments, or idempotency changed")
       (set_source "scope_changed" (try_state SI_AGENT_REQUEST_EXPIRED now_ms r)))
  else match set_state_locked r SI_AGENT_REQUEST_EXECUTING now_ms with
       | None => (ESP_ERR_INVALID_STATE, r)
       | Some r => (ESP_OK, r)
       end.

Definition si_agent_request_broker_consume (env : broker_env) (consume : option si_agent_request_consume_t)
  : st broker_world answer :=
  match consume with
  | None => mret (no_copy ESP_ERR_INVALID_ARG)
  | Some consume =>
      return_if negb (value_valid (c_request_id consume) SI_AGENT_REQUEST_ID_MAX_LEN true) ||
                negb (binding_valid (c_binding consume)) with mret (no_copy ESP_ERR_INVALID_ARG) ;;
      match sha256_hex env (deref (b_normalized_args_json (c_binding consume))) with
      | None => mret (no_copy ESP_FAIL)
      | Some args_hash =>
          broker_call env no_copy (
            now_ms ← broker_now_ms env (uptime_ms env);
            expire_all_locked now_ms;;
            on_request (c_request_id consume) (consume_request (c_binding consume) args_hash now_ms))
      end
  end.
End sha.

(** ** Decisions *)

(** Somebody who may decide about the request: a browser session, or a reviewer
    where the request allows one and its risk is not high. *)
Definition reviewer_decides (d : si_agent_request_decision_t) (r : si_agent_request_status_t) : bool :=
  (principal (d_decider d) =? enum_val SI_AGENT_REQUEST_PRINCIPAL_REVIEWER) && reviewer_allowed r &&
  (risk r <=? enum_val SI_AGENT_REQUEST_RISK_MEDIUM).

Definition browser_decides (d : si_agent_request_decision_t) : bool :=
  principal (d_decider d) =? enum_val SI_AGENT_REQUEST_PRINCIPAL_BROWSER.

(** The decision is entered. *)
Definition enter_decision (d : si_agent_request_decision_t) (now_ms : Z) (r : si_agent_request_status_t)
  : si_agent_request_status_t :=
  let by_reviewer := reviewer_decides d r in
  let r := r <| decider := d_decider d |> in
  let r := if by_reviewer then set_source "reviewer" (r <| reviewer := d_decider d |>) else set_source "browser" r in
  let r := r <| decided_by_session := copy_text SI_AGENT_REQUEST_SESSION_ID_MAX_LEN (Some (session_id (d_decider d))) |> in
  if d_approved d then
    try_state SI_AGENT_REQUEST_GRANTED now_ms
      ((r <| grant_scope := d_grant_scope d |>) <| response := copy_text SI_AGENT_REQUEST_RESPONSE_MAX_LEN (d_response d) |>)
  else try_state SI_AGENT_REQUEST_DENIED now_ms (set_error (error_text "request denied") r).

Definition decide_request (d : si_agent_request_decision_t) (now_ms : Z) (r : si_agent_request_status_t)
  : esp_err_t * si_agent_request_status_t :=
  if actor_equal (d_decider d) (requester r) then (ESP_ERR_INVALID_STATE, r)
  else if negb (bool_decide (state r = SI_AGENT_REQUEST_WAITING_USER)) &&
          negb (bool_decide (state r = SI_AGENT_REQUEST_REVIEWING)) then (ESP_ERR_INVALID_STATE, r)
  else if negb (browser_decides d) && negb (reviewer_decides d r) then (ESP_ERR_INVALID_STATE, r)
  else if d_approved d && ((requested_grant_scope r <? d_grant_scope d) ||
            ((d_grant_scope d =? enum_val SI_AGENT_REQUEST_GRANT_THREAD) &&
             (negb (kind r =? enum_val SI_AGENT_REQUEST_KIND_CONTEXT) ||
              negb (risk r =? enum_val SI_AGENT_REQUEST_RISK_LOW) || lease_required r)))
  then (ESP_ERR_INVALID_ARG, r)
  else (ESP_OK, enter_decision d now_ms r).

Definition si_agent_request_broker_decide_v2 (env : broker_env) (decision : option si_agent_request_decision_t)
  : st broker_world answer :=
  match decision with
  | None => mret (no_copy ESP_ERR_INVALID_ARG)
  | Some d =>
      return_if negb (value_valid (d_request_id d) SI_AGENT_REQUEST_ID_MAX_LEN true) ||
                negb (value_valid (d_response d) SI_AGENT_REQUEST_RESPONSE_MAX_LEN false) ||
                negb (actor_valid (d_decider d) true) || negb (scope_valid (d_grant_scope d))
        with mret (no_copy ESP_ERR_INVALID_ARG) ;;
      broker_call env no_copy (
        now_ms ← broker_now_ms env (uptime_ms env);
        expire_all_locked now_ms;;
        on_request (d_request_id d) (decide_request d now_ms))
  end.

Definition si_agent_request_broker_decide (env : broker_env) (id : option cstring) (approved : bool)
    (text session : option cstring) : st broker_world answer :=
  return_if negb (value_valid session SI_AGENT_REQUEST_SESSION_ID_MAX_LEN true) with mret (no_copy ESP_ERR_INVALID_ARG) ;;
  si_agent_request_broker_decide_v2 env (Some (mk_decision id approved text
    (set_actor (enum_val SI_AGENT_REQUEST_PRINCIPAL_BROWSER) session (Some (cstr "legacy-browser")))
    (enum_val SI_AGENT_REQUEST_GRANT_ONCE))).

(** ** Progress *)

(** A transition that the caller asks for, and what goes with it. *)
Definition advance_request (next : si_agent_request_state_t) (now_ms : Z)
    (also : si_agent_request_status_t -> si_agent_request_status_t) (r : si_agent_request_status_t)
  : esp_err_t * si_agent_request_status_t :=
  match set_state_locked r next now_ms with
  | None => (ESP_ERR_INVALID_STATE, r)
  | Some r => (ESP_OK, also r)
  end.

Definition si_agent_request_broker_mark_verifying (env : broker_env) (id : option cstring) : st broker_world answer :=
  return_if negb (value_valid id SI_AGENT_REQUEST_ID_MAX_LEN true) with mret (no_copy ESP_ERR_INVALID_ARG) ;;
  broker_call env no_copy (
    now_ms ← broker_now_ms env (uptime_ms env);
    on_request id (advance_request SI_AGENT_REQUEST_VERIFYING now_ms (fun r => r))).

Definition si_agent_request_broker_complete_verified (env : broker_env) (id evidence : option cstring)
  : st broker_world answer :=
  return_if negb (value_valid id SI_AGENT_REQUEST_ID_MAX_LEN true) ||
            negb (value_valid evidence SI_AGENT_REQUEST_RESPONSE_MAX_LEN true) with mret (no_copy ESP_ERR_INVALID_ARG) ;;
  broker_call env no_copy (
    now_ms ← broker_now_ms env (uptime_ms env);
    on_request id (advance_request SI_AGENT_REQUEST_COMPLETED now_ms (fun r =>
      (r <| verification_evidence := copy_text SI_AGENT_REQUEST_RESPONSE_MAX_LEN evidence |>)
        <| request_error := [] |>))).

(** [error && error[0] ? error : text]. *)
Definition text_or (error : option cstring) (text : string) : option cstring :=
  if is_empty (deref error) then error_text text else error.

Definition si_agent_request_broker_mark_unknown (env : broker_env) (id error : option cstring)
  : st broker_world answer :=
  return_if negb (value_valid id SI_AGENT_REQUEST_ID_MAX_LEN true) ||
            negb (value_valid error SI_AGENT_REQUEST_ERROR_MAX_LEN false) with mret (no_copy ESP_ERR_INVALID_ARG) ;;
  broker_call env no_copy (
    now_ms ← broker_now_ms env (uptime_ms env);
    on_request id (advance_request SI_AGENT_REQUEST_UNKNOWN now_ms
      (set_error (text_or error "execution outcome unknown")))).

(** The effect may have begun. *)
Definition under_way (s : si_agent_request_state_t) : bool :=
  match s with SI_AGENT_REQUEST_EXECUTING | SI_AGENT_REQUEST_VERIFYING => true | _ => false end.

Definition cancel_request (session : option cstring) (now_ms : Z) (r : si_agent_request_status_t)
  : esp_err_t * si_agent_request_status_t :=
  let sign r := set_source "browser" r
    <| decided_by_session := copy_text SI_AGENT_REQUEST_SESSION_ID_MAX_LEN session |> in
  if under_way (state r) then
    (ESP_OK, set_error (error_text "cancelled after execution began; outcome unknown")
               (sign (try_state SI_AGENT_REQUEST_UNKNOWN now_ms r)))
  else if state_expires (state r) then
    (ESP_OK, set_error (error_text "request cancelled") (sign (try_state SI_AGENT_REQUEST_CANCELLED now_ms r)))
  else (ESP_ERR_INVALID_STATE, r).

Definition si_agent_request_broker_cancel (env : broker_env) (id session : option cstring) : st broker_world answer :=
  return_if negb (value_valid id SI_AGENT_REQUEST_ID_MAX_LEN true) ||
            negb (value_valid session SI_AGENT_REQUEST_SESSION_ID_MAX_LEN true)
    with mret (no_copy ESP_ERR_INVALID_ARG) ;;
  broker_call env no_copy (
    now_ms ← broker_now_ms env (uptime_ms env);
    expire_all_locked now_ms;;
    on_request id (cancel_request session now_ms)).

(** The legacy end of a request, which also begins it. *)
Definition finish_request (ok : bool) (error : option cstring) (now_ms : Z) (r : si_agent_request_status_t)
  : esp_err_t * si_agent_request_status_t :=
  let r := if bool_decide (state r = SI_AGENT_REQUEST_GRANTED) then try_state SI_AGENT_REQUEST_EXECUTING now_ms r else r in
  if negb (bool_decide (state r = SI_AGENT_REQUEST_EXECUTING)) then (ESP_ERR_INVALID_STATE, r)
  else if ok then (ESP_OK, try_state SI_AGENT_REQUEST_VERIFYING now_ms r)
  else (ESP_OK, set_error (text_or error "request execution failed") (try_state SI_AGENT_REQUEST_FAILED now_ms r)).

Definition si_agent_request_broker_finish (env : broker_env) (id : option cstring) (ok : bool) (error : option cstring)
  : st broker_world answer :=
  return_if negb (value_valid id SI_AGENT_REQUEST_ID_MAX_LEN true) ||
            negb (value_valid error SI_AGENT_REQUEST_ERROR_MAX_LEN false) with mret (no_copy ESP_ERR_INVALID_ARG) ;;
  broker_call env no_copy (
    now_ms ← broker_now_ms env (uptime_ms env);
    expire_all_locked now_ms;;
    on_request id (finish_request ok error now_ms)).

(** The body of the loop of [cancel_run]. *)
Definition cancel_run_request (run : cstring) (now_ms : Z) (r : si_agent_request_status_t) : si_agent_request_status_t :=
  return_if negb (streq run (run_id r)) with r ;;
  if under_way (state r) then
    set_source "runtime" (set_error (error_text "run cancelled after execution began; outcome unknown")
      (try_state SI_AGENT_REQUEST_UNKNOWN now_ms r))
  else if state_expires (state r) then
    set_source "runtime" (set_error (error_text "run cancelled") (try_state SI_AGENT_REQUEST_CANCELLED now_ms r))
  else r.

Definition si_agent_request_broker_cancel_run (env : broker_env) (run : option cstring) : st broker_world unit :=
  return_if is_empty (deref run) with mret tt ;;
  broker_call env (fun _ => tt) (
    now_ms ← broker_now_ms env (uptime_ms env);
    expire_all_locked now_ms;;
    modify_requests (map (cancel_run_request (deref run) now_ms))).

(** ** Views *)

Definition si_agent_request_broker_get_by_id (env : broker_env) (id : option cstring) (out : bool)
  : st broker_world answer :=
  return_if negb (value_valid id SI_AGENT_REQUEST_ID_MAX_LEN true) || negb out
    with mret (no_copy ESP_ERR_INVALID_ARG) ;;
  broker_call env no_copy (
    now_ms ← broker_now_ms env (uptime_ms env);
    expire_all_locked now_ms;;
    rs ← gets s_requests;
    mret match find_by_id_locked id rs with
         | Some i => (ESP_OK, Some (request_at i rs))
         | None => (ESP_ERR_NOT_FOUND, Some zero_request)
         end).

(** A request that a caller asks for, by its run or, without one, any. *)
Definition asked_for (run : option cstring) (r : si_agent_request_status_t) : bool :=
  negb (bool_decide (state r = SI_AGENT_REQUEST_EMPTY)) &&
  (is_empty (deref run) || streq (deref run) (run_id r)).

(** The newest of the requests. *)
Definition newest_request (run : option cstring) (rs : list si_agent_request_status_t)
  : option si_agent_request_status_t :=
  foldl (fun newest candidate =>
    if negb (asked_for run candidate) then newest
    else match newest with
         | None => Some candidate
         | Some n => if sequence n <? sequence candidate then Some candidate else newest
         end) None rs.

Definition si_agent_request_broker_get (env : broker_env) (run : option cstring) (out : bool)
  : st broker_world answer :=
  return_if negb out || negb (value_valid run SI_AGENT_REQUEST_RUN_ID_MAX_LEN false)
    with mret (no_copy ESP_ERR_INVALID_ARG) ;;
  broker_call env no_copy (
    now_ms ← broker_now_ms env (uptime_ms env);
    expire_all_locked now_ms;;
    rs ← gets s_requests;
    mret match newest_request run rs with
         | Some r => (ESP_OK, Some r)
         | None => (if is_empty (deref run) then ESP_OK else ESP_ERR_NOT_FOUND, Some zero_request)
         end).

(** The sorted prefix [indices], last first: the walk back from its end to the
    place of [index]. *)
Fixpoint place_index (rs : list si_agent_request_status_t) (index : nat) (indices : list nat) : list nat :=
  match indices with
  | last :: rest =>
      if sequence (request_at index rs) <? sequence (request_at last rs) then last :: place_index rs index rest
      else index :: indices
  | [] => [index]
  end.

Definition sorted_indices (run : option cstring) (rs : list si_agent_request_status_t) : list nat :=
  rev (foldl (fun indices index =>
    if asked_for run (request_at index rs) then place_index rs index indices else indices)
    [] (seq 0 (length rs))).

(** The copies, and how many requests there are. *)
Definition si_agent_request_broker_enumerate (env : broker_env) (run : option cstring) (out : bool) (capacity : nat)
    (out_count : bool) : st broker_world (esp_err_t * option (list si_agent_request_status_t * nat)) :=
  return_if negb out_count || negb (value_valid run SI_AGENT_REQUEST_RUN_ID_MAX_LEN false) ||
            ((0 <? capacity)%nat && negb out) with mret (ESP_ERR_INVALID_ARG, None) ;;
  broker_call env (fun ret => (ret, None)) (
    now_ms ← broker_now_ms env (uptime_ms env);
    expire_all_locked now_ms;;
    rs ← gets s_requests;
    let indices := sorted_indices run rs in
    let count := length indices in
    mret (if (capacity <? count)%nat then ESP_ERR_INVALID_SIZE else ESP_OK,
          Some (map (fun i => request_at i rs) (take capacity indices), count))).

(** ** Retirement *)

Definition of_run (run : cstring) (r : si_agent_request_status_t) : bool :=
  negb (bool_decide (state r = SI_AGENT_REQUEST_EMPTY)) && streq (run_id r) run.

Definition clear_run (run : cstring) (r : si_agent_request_status_t) : si_agent_request_status_t :=
  if of_run run r then zero_request else r.

Definition si_agent_request_broker_retire_run (env : broker_env) (run : option cstring) : st broker_world esp_err_t :=
  return_if negb (value_valid run SI_AGENT_REQUEST_RUN_ID_MAX_LEN true) with mret ESP_ERR_INVALID_ARG ;;
  broker_call env id (
    now_ms ← broker_now_ms env (uptime_ms env);
    expire_all_locked now_ms;;
    rs ← gets s_requests;
    return_if existsb (fun r => of_run (deref run) r && negb (state_terminal (state r))) rs
      with mret ESP_ERR_INVALID_STATE ;;
    modify_requests (map (clear_run (deref run)));;
    mret ESP_OK).

(** The second loop: what is still open ends. *)
Definition terminalize_request (run : cstring) (now_ms : Z) (r : si_agent_request_status_t)
  : si_agent_request_status_t :=
  return_if negb (of_run run r) || state_terminal (state r) with r ;;
  set_source "runtime"
    (if under_way (state r) then
       set_error (error_text "run retired after effect began; outcome unknown")
         (try_state SI_AGENT_REQUEST_UNKNOWN now_ms r)
     else set_error (error_text "run retired before effect began") (try_state SI_AGENT_REQUEST_CANCELLED now_ms r)).

Definition si_agent_request_broker_terminalize_and_retire_run (env : broker_env) (run : option cstring)
  : st broker_world esp_err_t :=
  return_if negb (value_valid run SI_AGENT_REQUEST_RUN_ID_MAX_LEN true) with mret ESP_ERR_INVALID_ARG ;;
  broker_call env id (
    now_ms ← broker_now_ms env (uptime_ms env);
    rs ← gets s_requests;
    return_if existsb (fun r => of_run (deref run) r && negb (state_terminal (state r)) &&
                                negb (state_expires (state r)) && negb (under_way (state r))) rs
      with mret ESP_ERR_INVALID_STATE ;;
    modify_requests (map (terminalize_request (deref run) now_ms));;
    modify_requests (map (clear_run (deref run)));;
    mret ESP_OK).

(** ** Snapshots *)

Definition zero_entry : si_agent_request_snapshot_entry_t := mk_entry zero_request 0.

Definition si_agent_request_broker_export_snapshot (env : broker_env) (out : bool)
  : st broker_world (esp_err_t * option si_agent_request_snapshot_t) :=
  return_if negb out with mret (ESP_ERR_INVALID_ARG, None) ;;
  broker_call env (fun ret => (ret, None)) (
    now_ms ← broker_now_ms env (uptime_ms env);
    expire_all_locked now_ms;;
    rs ← gets s_requests;
    next ← gets s_next_sequence;
    let used := map (fun r => mk_entry r (remaining_ttl now_ms (expires_at_ms r)))
                  (filter (fun r => state r <> SI_AGENT_REQUEST_EMPTY) rs) in
    mret (ESP_OK, Some (mk_snapshot SI_AGENT_REQUEST_SNAPSHOT_SCHEMA_VERSION (Z.of_nat (length used)) next
                          (used ++ replicate (SI_AGENT_REQUEST_QUEUE_CAPACITY - length used) zero_entry)))).

Section sha.
Context (sha256 : list Z -> list Z).

Definition snapshot_status_valid (env : broker_env) (r : si_agent_request_status_t) : bool :=
  let text t max required := fixed_value_valid t (max + 1) required in
  return_if negb (state_valid (state r)) || negb (kind_valid (kind r)) || negb (risk_valid (risk r)) ||
            negb (scope_valid (requested_grant_scope r)) || negb (scope_valid (grant_scope r)) ||
            (plan_version r =? 0) || (sequence r =? 0) ||
            negb (principal (requester r) =? enum_val SI_AGENT_REQUEST_PRINCIPAL_AGENT) ||
            negb (actor_valid (requester r) true) || negb (text (request_id r) SI_AGENT_REQUEST_ID_MAX_LEN true) ||
            negb (text (parent_grant_request_id r) SI_AGENT_REQUEST_ID_MAX_LEN false) ||
            negb (text (device_id r) SI_AGENT_REQUEST_DEVICE_ID_MAX_LEN true) ||
            negb (text (thread_id r) SI_AGENT_REQUEST_THREAD_ID_MAX_LEN true) ||
            negb (text (turn_id r) SI_AGENT_REQUEST_TURN_ID_MAX_LEN true) ||
            negb (text (run_id r) SI_AGENT_REQUEST_RUN_ID_MAX_LEN true) ||
            negb (text (step_id r) SI_AGENT_REQUEST_STEP_ID_MAX_LEN true) ||
            negb (text (resource r) SI_AGENT_REQUEST_RESOURCE_MAX_LEN true) ||
            negb (text (reason r) SI_AGENT_REQUEST_REASON_MAX_LEN true) ||
            negb (text (params_json r) SI_AGENT_REQUEST_PARAMS_MAX_LEN true) ||
            negb (text (normalized_args_hash r) SI_AGENT_REQUEST_HASH_HEX_LEN true) ||
            negb (text (params_hash r) SI_AGENT_REQUEST_HASH_HEX_LEN true) ||
            negb (text (idempotency_key r) SI_AGENT_REQUEST_IDEMPOTENCY_KEY_MAX_LEN true) ||
            negb (text (expected_effect r) SI_AGENT_REQUEST_EFFECT_MAX_LEN false) ||
            negb (text (verification r) SI_AGENT_REQUEST_VERIFY_MAX_LEN false) ||
            negb (fixed_value_valid (decision_source r) DECISION_SOURCE_SIZE false) ||
            negb (text (decided_by_session r) SI_AGENT_REQUEST_SESSION_ID_MAX_LEN false) ||
            negb (text (response r) SI_AGENT_REQUEST_RESPONSE_MAX_LEN false) ||
            negb (text (verification_evidence r) SI_AGENT_REQUEST_RESPONSE_MAX_LEN false) ||
            negb (text (request_error r) SI_AGENT_REQUEST_ERROR_MAX_LEN false) ||
            (negb (principal (reviewer r) =? enum_val SI_AGENT_REQUEST_PRINCIPAL_UNSPECIFIED) &&
             (negb (principal (reviewer r) =? enum_val SI_AGENT_REQUEST_PRINCIPAL_REVIEWER) ||
              negb (actor_valid (reviewer r) true))) ||
            (negb (principal (decider r) =? enum_val SI_AGENT_REQUEST_PRINCIPAL_UNSPECIFIED) &&
             negb (actor_valid (decider r) true)) ||
            ((grant_scope r =? enum_val SI_AGENT_REQUEST_GRANT_THREAD) &&
             (negb (kind r =? enum_val SI_AGENT_REQUEST_KIND_CONTEXT) ||
              negb (risk r =? enum_val SI_AGENT_REQUEST_RISK_LOW) || lease_required r)) with false ;;
  return_if negb (Bool.eqb (grant_consumed r) (effect_started (state r))) with false ;;
  match sha256_hex sha256 env (params_json r) with
  | Some hash => streq hash (normalized_args_hash r) && streq hash (params_hash r)
  | None => false
  end.

(** The loop over the entries, the earlier ones in [previous]: the highest sequence
    number, or [None] when an entry is refused. *)
Fixpoint scan_snapshot (env : broker_env) (previous rest : list si_agent_request_status_t) (max_sequence : Z)
  : option Z :=
  match rest with
  | [] => Some max_sequence
  | r :: rest =>
      return_if negb (snapshot_status_valid env r) with None ;;
      let max_sequence := if max_sequence <? sequence r then sequence r else max_sequence in
      return_if existsb (fun other => streq (request_id r) (request_id other) ||
                                      streq (idempotency_key r) (idempotency_key other) ||
                                      (sequence r =? sequence other)) previous with None ;;
      scan_snapshot env (previous ++ [r]) rest max_sequence
  end.

(** The body of the restoring loop. *)
Definition restore_request (now_ms : Z) (e : si_agent_request_snapshot_entry_t) : si_agent_request_status_t :=
  let r := entry_status e in
  if under_way (state r) then
    set_error (error_text "device restarted after effect began; outcome unknown")
      (set_source "restore" ((r <| state := SI_AGENT_REQUEST_UNKNOWN |>) <| completed_ms := now_ms |>))
  else if bool_decide (state r = SI_AGENT_REQUEST_GRANTED) then
    set_error (error_text "grant invalidated by restart")
      (set_source "restore" ((r <| state := SI_AGENT_REQUEST_EXPIRED |>) <| decided_ms := now_ms |>))
  else if state_expires (state r) then
    let r := r <| expires_at_ms := u32 (now_ms + remaining_ttl_ms e) |> in
    if remaining_ttl_ms e =? 0 then
      set_error (error_text "request expired before restore")
        (set_source "restore" ((r <| state := SI_AGENT_REQUEST_EXPIRED |>) <| decided_ms := now_ms |>))
    else r
  else r <| expires_at_ms := now_ms |>.

Definition si_agent_request_broker_import_snapshot (env : broker_env) (snapshot : option si_agent_request_snapshot_t)
  : st broker_world esp_err_t :=
  match snapshot with
  | None => mret ESP_ERR_INVALID_ARG
  | Some snapshot =>
      return_if negb (schema_version snapshot =? SI_AGENT_REQUEST_SNAPSHOT_SCHEMA_VERSION) ||
                (Z.of_nat SI_AGENT_REQUEST_QUEUE_CAPACITY <? snapshot_count snapshot) with mret ESP_ERR_INVALID_ARG ;;
      let used := take (Z.to_nat (snapshot_count snapshot)) (entries snapshot) in
      match scan_snapshot env [] (map entry_status used) 0 with
      | None => mret ESP_ERR_INVALID_ARG
      | Some max_sequence =>
          broker_call env id (
            now_ms ← broker_now_ms env (uptime_ms env);
            modify_requests (fun _ => map (restore_request now_ms) used ++
              replicate (SI_AGENT_REQUEST_QUEUE_CAPACITY - length used) zero_request);;
            let candidate := if next_sequence snapshot <=? max_sequence then u64 (max_sequence + 1)
                             else next_sequence snapshot in
            modify (fun w => w <| s_next_sequence := if 0 <? candidate then candidate else 1 |>);;
            mret ESP_OK)
      end
  end.
End sha.

(** ** Names *)

Definition si_agent_request_kind_name (k : Z) : cstring :=
  if k =? enum_val SI_AGENT_REQUEST_KIND_ACTION then cstr "action" else cstr "context".

Definition si_agent_request_risk_name (r : Z) : cstring :=
  match enum_of_Z r with
  | Some SI_AGENT_REQUEST_RISK_MEDIUM => cstr "medium"
  | Some SI_AGENT_REQUEST_RISK_HIGH => cstr "high"
  | Some SI_AGENT_REQUEST_RISK_CRITICAL => cstr "critical"
  | _ => cstr "low"
  end.

Definition si_agent_request_state_name (s : Z) : cstring :=
  match enum_of_Z s with
  | Some SI_AGENT_REQUEST_REQUESTED => cstr "requested"
  | Some SI_AGENT_REQUEST_EVALUATING => cstr "evaluating"
  | Some SI_AGENT_REQUEST_REVIEWING => cstr "reviewing"
  | Some SI_AGENT_REQUEST_WAITING_USER => cstr "waiting_user"
  | Some SI_AGENT_REQUEST_GRANTED => cstr "granted"
  | Some SI_AGENT_REQUEST_EXECUTING => cstr "executing"
  | Some SI_AGENT_REQUEST_VERIFYING => cstr "verifying"
  | Some SI_AGENT_REQUEST_COMPLETED => cstr "completed"
  | Some SI_AGENT_REQUEST_FAILED => cstr "failed"
  | Some SI_AGENT_REQUEST_DENIED => cstr "denied"
  | Some SI_AGENT_REQUEST_EXPIRED => cstr "expired"
  | Some SI_AGENT_REQUEST_CANCELLED => cstr "cancelled"
  | Some SI_AGENT_REQUEST_UNKNOWN => cstr "unknown"
  | _ => cstr "empty"
  end.

Definition si_agent_request_grant_scope_name (s : Z) : cstring :=
  match enum_of_Z s with
  | Some SI_AGENT_REQUEST_GRANT_STEP => cstr "step"
  | Some SI_AGENT_REQUEST_GRANT_RUN => cstr "run"
  | Some SI_AGENT_REQUEST_GRANT_THREAD => cstr "thread"
  | _ => cstr "once"
  end.

Definition si_agent_request_principal_name (p : Z) : cstring :=
  match enum_of_Z p with
  | Some SI_AGENT_REQUEST_PRINCIPAL_AGENT => cstr "agent"
  | Some SI_AGENT_REQUEST_PRINCIPAL_BROWSER => cstr "browser"
  | Some SI_AGENT_REQUEST_PRINCIPAL_REVIEWER => cstr "reviewer"
  | Some SI_AGENT_REQUEST_PRINCIPAL_POLICY => cstr "policy"
  | Some SI_AGENT_REQUEST_PRINCIPAL_RUNTIME => cstr "runtime"
  | _ => cstr "unspecified"
  end.
