(* ===== verification/AgentRequestInvariant.v ===== *)
(** * The request broker: what the calls do to the table

    The terms of a request, which nothing changes; its progress; how each call moves
    the table; and the invariant of the table. *)

From Stdlib Require Import String.
From S2P Require Import Prelude CText Hex Firmware AgentRequest.

(** ** Terms and progress *)

(** What was asked for: the request without what happens to it. *)
Definition terms (r : si_agent_request_status_t) : si_agent_request_status_t :=
  mk_request SI_AGENT_REQUEST_EMPTY (kind r) (risk r) (lease_required r) (reviewer_allowed r) false
    (requested_grant_scope r) 0 (created_ms r) 0 0 0 0 0 (plan_version r) (sequence r) (request_id r)
    (parent_grant_request_id r) (device_id r) (thread_id r) (turn_id r) (run_id r) (step_id r)
    (resource r) (reason r) (params_json r) (params_hash r) (normalized_args_hash r) (idempotency_key r)
    (expected_effect r) (verification r) (requester r) zero_actor zero_actor [] [] [] [] [].

(** The request was granted, and possibly consumed. *)
Definition allowed (s : si_agent_request_state_t) : bool :=
  bool_decide (s = SI_AGENT_REQUEST_GRANTED) || effect_started s.

Definition may_move (s s' : si_agent_request_state_t) : Prop := transition_allowed s s' = true.

(** An actor field that nobody filled, or that names somebody. *)
Definition actor_fits (expected : Z -> bool) (a : si_agent_request_actor_t) : bool :=
  (principal a =? enum_val SI_AGENT_REQUEST_PRINCIPAL_UNSPECIFIED) || expected (principal a) && actor_valid a true.

Definition any_principal (p : Z) : bool := true.
Definition is_reviewer (p : Z) : bool := p =? enum_val SI_AGENT_REQUEST_PRINCIPAL_REVIEWER.

(** Only a context request of low risk without a lease has a grant for its thread. *)
Definition thread_grantable (r : si_agent_request_status_t) : bool :=
  (kind r =? enum_val SI_AGENT_REQUEST_KIND_CONTEXT) && (risk r =? enum_val SI_AGENT_REQUEST_RISK_LOW) &&
  negb (lease_required r).

(** What happened to the request is recorded within its buffers. *)
Record record_fits (r : si_agent_request_status_t) : Prop := mk_record_fits {
  fit_consumed : grant_consumed r = effect_started (state r);
  fit_scope : scope_valid (grant_scope r) = true;
  fit_thread : grant_scope r = enum_val SI_AGENT_REQUEST_GRANT_THREAD -> thread_grantable r = true;
  fit_reviewer : actor_fits is_reviewer (reviewer r) = true;
  fit_decider : actor_fits any_principal (decider r) = true;
  fit_source : (length (decision_source r) < DECISION_SOURCE_SIZE)%nat;
  fit_session : (length (decided_by_session r) <= SI_AGENT_REQUEST_SESSION_ID_MAX_LEN)%nat;
  fit_response : (length (response r) <= SI_AGENT_REQUEST_RESPONSE_MAX_LEN)%nat;
  fit_evidence : (length (verification_evidence r) <= SI_AGENT_REQUEST_RESPONSE_MAX_LEN)%nat;
  fit_error : (length (request_error r) <= SI_AGENT_REQUEST_ERROR_MAX_LEN)%nat
}.

(** A request moves on: on its terms, along the transitions, without a new grant. *)
Record progress (r r' : si_agent_request_status_t) : Prop := mk_progress {
  on_terms : terms r' = terms r;
  on_expiry : expires_at_ms r' = expires_at_ms r;
  on_states : rtc may_move (state r) (state r');
  on_grant : allowed (state r') = true -> allowed (state r) = true /\ grant_scope r' = grant_scope r;
  on_consumed : grant_consumed r = true -> grant_consumed r' = true;
  on_fits : record_fits r -> record_fits r'
}.

#[export] Instance progress_refl : Reflexive progress.
Proof. intros r. by split. Qed.
#[export] Instance progress_trans : Transitive progress.
Proof.
  intros r1 r2 r3 [A1 A2 A3 A4 A5 A6] [B1 B2 B3 B4 B5 B6].
  split; [congruence | congruence | by etrans | | by auto | by auto].
  intros H. destruct (B4 H) as [H' ->]. by apply A4.
Qed.

Lemma copy_text_length max text : (length (copy_text max text) <= max)%nat.
Proof. apply strtrunc_max. Qed.

(** ** The primitive changes *)

Lemma source_length text : (length (strtrunc DECISION_SOURCE_SIZE text) < DECISION_SOURCE_SIZE)%nat.
Proof. apply strtrunc_length. unfold DECISION_SOURCE_SIZE. lia. Qed.

Lemma note_source text r : progress r (set_source text r).
Proof. split; try done. intros []. split; try done. apply source_length. Qed.

Lemma note_error text r : progress r (set_error text r).
Proof. split; try done. intros []. split; try done. apply copy_text_length. Qed.

Lemma note_session session r :
  progress r (r <| decided_by_session := copy_text SI_AGENT_REQUEST_SESSION_ID_MAX_LEN session |>).
Proof. split; try done. intros []. split; try done. apply copy_text_length. Qed.

Lemma note_evidence text r :
  progress r ((r <| verification_evidence := copy_text SI_AGENT_REQUEST_RESPONSE_MAX_LEN text |>) <| request_error := [] |>).
Proof. split; try done. intros []. split; try done; [apply copy_text_length | cbn; lia]. Qed.

Lemma set_state_Some r next now r' :
  set_state_locked r next now = Some r' ->
  transition_allowed (state r) next = true /\ state r' = next /\ terms r' = terms r /\
  expires_at_ms r' = expires_at_ms r /\ grant_scope r' = grant_scope r /\
  (grant_consumed r = true -> grant_consumed r' = true) /\ (record_fits r -> record_fits r').
Proof.
  unfold set_state_locked. case_if; [done|]. apply negb_false_iff in Heqb. intros E. injection E as <-.
  split_and!; [done | by destruct next..| |]; [by intros H; destruct next|].
  intros [F]. split; try (by destruct next).
  by destruct (state r), next; cbn in F |- *; rewrite ?F.
Qed.

Lemma set_state_progress r next now r' :
  next <> SI_AGENT_REQUEST_GRANTED -> set_state_locked r next now = Some r' -> progress r r'.
Proof.
  intros Hn H. destruct (set_state_Some r next now r' H) as (Ht & E & H1 & H2 & H3 & H4 & H5).
  split; try done.
  - rewrite E. by apply rtc_once.
  - rewrite E. intros Ha. split; [|done]. by destruct (state r), next.
Qed.

Lemma try_progress next now r : next <> SI_AGENT_REQUEST_GRANTED -> progress r (try_state next now r).
Proof.
  intros Hn. unfold try_state. destruct (set_state_locked r next now) as [r'|] eqn:E; [|done].
  by apply (set_state_progress r next now).
Qed.

(** A chain of primitive changes. *)
Ltac noted := first [apply note_source | apply note_error | apply note_session | apply note_evidence].
Ltac moves_on :=
  repeat first [done | by apply try_progress | noted | etrans; [|noted]].

Lemma expire_progress now r : progress r (expire_request now r).
Proof. unfold expire_request. case_if; moves_on. Qed.

Lemma consume_progress b hash now r : progress r (consume_request b hash now r).2.
Proof.
  unfold consume_request. case_if; [done|]. case_if; cbn [snd]; [moves_on|].
  destruct (set_state_locked r SI_AGENT_REQUEST_EXECUTING now) as [r'|] eqn:E; [|done].
  by apply (set_state_progress r SI_AGENT_REQUEST_EXECUTING now).
Qed.

Lemma advance_progress next now also r :
  next <> SI_AGENT_REQUEST_GRANTED -> (forall r, progress r (also r)) -> progress r (advance_request next now also r).2.
Proof.
  intros Hn Ha. unfold advance_request. destruct (set_state_locked r next now) as [r'|] eqn:E; [|done].
  cbn [snd]. etrans; [by apply (set_state_progress r next now) | apply Ha].
Qed.

Lemma cancel_progress session now r : progress r (cancel_request session now r).2.
Proof. unfold cancel_request. repeat case_if; cbn [snd]; moves_on. Qed.

Lemma finish_progress ok error now r : progress r (finish_request ok error now r).2.
Proof.
  unfold finish_request. set (r1 := if bool_decide _ then _ else r).
  assert (H : progress r r1) by (subst r1; case_if; moves_on). revert H. generalize r1. clear r1. intros r1 H.
  repeat case_if; cbn [snd]; (etrans; [exact H|]); moves_on.
Qed.

Lemma cancel_run_progress run now r : progress r (cancel_run_request run now r).
Proof. unfold cancel_run_request. repeat case_if; moves_on. Qed.

Lemma terminalize_progress run now r : progress r (terminalize_request run now r).
Proof. unfold terminalize_request. repeat case_if; moves_on. Qed.

(** ** The calls, and restarts *)

(** The broker, with the snapshots that were exported from it. *)
Record broker_system := mk_system { broker : broker_world; exported : list si_agent_request_snapshot_t }.

#[export] Instance eta_system : Settable broker_system := fun s => mk_system (broker s) (exported s).

Definition broker_power_on : broker_world := mk_broker false zero_table 1 None 0.

(** [BrokerRestore] is a restart that imports the [k]-th exported snapshot. *)
Inductive broker_action :=
| BrokerStart (env : broker_env)
| BrokerClock (env : broker_env) (now_fn : option Z) (context : Z)
| BrokerCreate (env : broker_env) (input : option si_agent_request_v2_input_t)
| BrokerLegacyCreate (env : broker_env) (input : option si_agent_request_input_t)
| BrokerDecide (env : broker_env) (d : option si_agent_request_decision_t)
| BrokerLegacyDecide (env : broker_env) (id : option cstring) (approved : bool) (text session : option cstring)
| BrokerConsume (env : broker_env) (c : option si_agent_request_consume_t)
| BrokerVerifying (env : broker_env) (id : option cstring)
| BrokerVerified (env : broker_env) (id evidence : option cstring)
| BrokerUnknown (env : broker_env) (id error : option cstring)
| BrokerCancel (env : broker_env) (id session : option cstring)
| BrokerFinish (env : broker_env) (id : option cstring) (ok : bool) (error : option cstring)
| BrokerCancelRun (env : broker_env) (run : option cstring)
| BrokerGetById (env : broker_env) (id : option cstring)
| BrokerGet (env : broker_env) (run : option cstring)
| BrokerEnumerate (env : broker_env) (run : option cstring) (capacity : nat)
| BrokerRetire (env : broker_env) (run : option cstring)
| BrokerTerminalize (env : broker_env) (run : option cstring)
| BrokerExport (env : broker_env)
| BrokerRestore (env : broker_env) (k : nat).

Definition only_code {A} (m : st broker_world A) (f : A -> esp_err_t) : st broker_world answer :=
  a ← m; mret (no_copy (f a)).

Section sha.
Context (sha256 : list Z -> list Z).

(** A call of the broker. *)
Definition broker_exec_call (action : broker_action) : st broker_world answer :=
  match action with
  | BrokerStart env => only_code (si_agent_request_broker_start env) id
  | BrokerClock env now_fn context => only_code (si_agent_request_broker_set_now_provider env now_fn context) id
  | BrokerCreate env input => si_agent_request_broker_create_v2 sha256 env input
  | BrokerLegacyCreate env input => si_agent_request_broker_create sha256 env input
  | BrokerDecide env d => si_agent_request_broker_decide_v2 env d
  | BrokerLegacyDecide env id approved text session => si_agent_request_broker_decide env id approved text session
  | BrokerConsume env c => si_agent_request_broker_consume sha256 env c
  | BrokerVerifying env id => si_agent_request_broker_mark_verifying env id
  | BrokerVerified env id evidence => si_agent_request_broker_complete_verified env id evidence
  | BrokerUnknown env id error => si_agent_request_broker_mark_unknown env id error
  | BrokerCancel env id session => si_agent_request_broker_cancel env id session
  | BrokerFinish env id ok error => si_agent_request_broker_finish env id ok error
  | BrokerCancelRun env run => only_code (si_agent_request_broker_cancel_run env run) (fun _ => ESP_OK)
  | BrokerGetById env id => si_agent_request_broker_get_by_id env id true
  | BrokerGet env run => si_agent_request_broker_get env run true
  | BrokerEnumerate env run capacity => only_code (si_agent_request_broker_enumerate env run true capacity true) fst
  | BrokerRetire env run => only_code (si_agent_request_broker_retire_run env run) id
  | BrokerTerminalize env run => only_code (si_agent_request_broker_terminalize_and_retire_run env run) id
  | BrokerExport env => only_code (si_agent_request_broker_export_snapshot env true) fst
  | BrokerRestore env k => mret (no_copy ESP_OK)
  end.

Definition broker_exec (action : broker_action) (s : broker_system) : answer * broker_system :=
  match action with
  | BrokerExport env =>
      let '((ret, snapshot), w) := si_agent_request_broker_export_snapshot env true (broker s) in
      (no_copy ret, mk_system w (exported s ++ option_list snapshot))
  | BrokerRestore env k =>
      let '(ret, w) := si_agent_request_broker_import_snapshot sha256 env (exported s !! k) broker_power_on in
      (no_copy ret, s <| broker := w |>)
  | _ => let '(a, w) := broker_exec_call action (broker s) in (a, s <| broker := w |>)
  end.

Fixpoint broker_run (actions : list broker_action) (s : broker_system) : broker_system :=
  match actions with [] => s | action :: actions => broker_run actions (broker_exec action s).2 end.

Lemma broker_run_app a1 a2 s : broker_run (a1 ++ a2) s = broker_run a2 (broker_run a1 s).
Proof using. revert s. induction a1 as [|a a1 IH]; intros s; [done | apply IH]. Qed.

(** The input that a filing call works with. *)
Definition filed (action : broker_action) (w : broker_world) : option si_agent_request_v2_input_t :=
  match action with
  | BrokerCreate _ input => input
  | BrokerLegacyCreate env (Some input) =>
      Some (legacy_v2 input (legacy_key (key_random32 env) (broker_now_ms env (key_uptime_ms env) w).1))
  | _ => None
  end.

(** The decision that a call enters. *)
Definition decision_of (action : broker_action) : option si_agent_request_decision_t :=
  match action with
  | BrokerDecide _ d => d
  | BrokerLegacyDecide _ id approved text session =>
      Some (mk_decision id approved text
        (set_actor (enum_val SI_AGENT_REQUEST_PRINCIPAL_BROWSER) session (Some (cstr "legacy-browser")))
        (enum_val SI_AGENT_REQUEST_GRANT_ONCE))
  | _ => None
  end.

Definition retired_run (action : broker_action) : option cstring :=
  match action with BrokerRetire _ run | BrokerTerminalize _ run => run | _ => None end.

Definition is_restore (action : broker_action) : bool := match action with BrokerRestore _ _ => true | _ => false end.

(** How a call moves the table; the expiry comes first. *)
Inductive table_moves (action : broker_action) (w : broker_world) (a : answer) (rs' : list si_agent_request_status_t) (seq' : Z) : Prop :=
| table_progress :
    Forall2 progress (s_requests w) rs' -> seq' = s_next_sequence w -> table_moves action w a rs' seq'
| table_decided d now mid i r :
    decision_of action = Some d -> d_approved d = true ->
    value_valid (d_response d) SI_AGENT_REQUEST_RESPONSE_MAX_LEN false = true ->
    actor_valid (d_decider d) true = true -> scope_valid (d_grant_scope d) = true ->
    Forall2 progress (s_requests w) mid -> mid !! i = Some r ->
    d_request_id d = Some (request_id r) -> decide_request d now r = (ESP_OK, enter_decision d now r) ->
    a = (ESP_OK, Some (enter_decision d now r)) -> rs' = <[i := enter_decision d now r]> mid ->
    seq' = s_next_sequence w -> table_moves action w a rs' seq'
| table_filed input hash env now mid i r :
    filed action w = Some input -> v2_input_valid (Some input) = true ->
    hash = hex_text (sha256 (deref (b_normalized_args_json (i_binding input)))) ->
    Forall2 progress (s_requests w) mid -> mid !! i = Some r -> state r = SI_AGENT_REQUEST_EMPTY ->
    find_idempotency_locked (deref (b_idempotency_key (i_binding input))) mid = None ->
    let reusable := (fun j => request_at j mid) <$> find_request (fun g => grant_scope_matches g input hash now) mid in
    let r' := judge_request reusable input now (fill_request input hash now (random32 env) (s_next_sequence w)) in
    a = (ESP_OK, Some r') -> rs' = <[i := r']> mid ->
    seq' = u64 (s_next_sequence w + 1) -> table_moves action w a rs' seq'
| table_retired run mid :
    retired_run action = Some run -> run <> [] -> a.1 = ESP_OK -> Forall2 progress (s_requests w) mid ->
    Forall (fun r => of_run run r = true -> state_terminal (state r) = true) mid ->
    rs' = map (clear_run run) mid -> seq' = s_next_sequence w -> table_moves action w a rs' seq'.

(** The mutex exists before anything is in the table. *)
Definition broker_started w : Prop := s_broker_lock w = false -> s_requests w = zero_table /\ s_next_sequence w = 1.

(** ** What each call does *)

Definition leaves action w a w' : Prop :=
  table_moves action w a (s_requests w') (s_next_sequence w') /\ broker_started w'.

(** So far nothing but progress was made. *)
Record so_far w w' : Prop := mk_so_far {
  far_table : Forall2 progress (s_requests w) (s_requests w');
  far_sequence : s_next_sequence w' = s_next_sequence w;
  far_lock : s_broker_lock w' = true
}.

Lemma same_table rs : Forall2 progress rs rs.
Proof using. by induction rs; constructor. Qed.

Lemma progress_map (f : si_agent_request_status_t -> si_agent_request_status_t) rs rs' :
  (forall r, progress r (f r)) -> Forall2 progress rs rs' -> Forall2 progress rs (map f rs').
Proof using. intros Hf. induction 1; constructor; [by etrans | done]. Qed.

Lemma progress_insert rs mid i r r' :
  Forall2 progress rs mid -> mid !! i = Some r -> progress r r' -> Forall2 progress rs (<[i := r']> mid).
Proof using.
  intros H Hi Hp. assert (Hm : Forall2 progress mid (<[i := r']> mid)).
  { rewrite <- (list_insert_id mid i r Hi) at 1. apply Forall2_insert; [apply same_table | done]. }
  by etrans.
Qed.

Lemma wp_call {A} env (fail : esp_err_t -> A) body Q w :
  broker_started w ->
  (forall e w', e <> ESP_OK -> s_requests w' = s_requests w -> s_next_sequence w' = s_next_sequence w ->
     broker_started w' -> Q (fail e) w') ->
  (forall w', so_far w w' -> s_requests w' = s_requests w -> wp body Q w') ->
  wp (broker_call env fail body) Q w.
Proof using.
  intros Hs Hf Hb. unfold broker_call, si_agent_request_broker_start. apply wp_bind, wp_bind, wp_gets.
  assert (Hlocked : forall w', s_broker_lock w' = true -> s_requests w' = s_requests w ->
    s_next_sequence w' = s_next_sequence w -> wp (bind (broker_lock env) (fun ret =>
      if negb (bool_decide (ret = ESP_OK)) then mret (fail ret) else body)) Q w').
  { intros w' Hl E1 E2. unfold broker_lock. apply wp_bind, wp_bind, wp_gets. rewrite Hl. cbn [negb orb].
    case_if; apply wp_ret; cbn.
    - by apply wp_ret, Hf; [done..|intros ?; congruence].
    - apply Hb; [|done]. split; [rewrite E1; apply same_table | done..]. }
  destruct (s_broker_lock w) eqn:El.
  - apply wp_ret. by apply Hlocked.
  - destruct (Hs El) as [E1 E2]. case_if.
    + apply wp_ret. cbn. by apply wp_ret, Hf.
    + apply wp_bind, wp_modify, wp_ret. cbn. by apply Hlocked.
Qed.

Lemma wp_now env uptime Q w : (forall now, Q now w) -> wp (broker_now_ms env uptime) Q w.
Proof using. intros H. by apply wp_bind, wp_gets, wp_bind, wp_gets, wp_ret. Qed.

Lemma so_far_map f w w' :
  (forall r, progress r (f r)) -> so_far w w' -> so_far w (w' <| s_requests := map f (s_requests w') |>).
Proof using. intros Hf [H1 H2 H3]. by split; [apply progress_map|..]. Qed.

Lemma far_leaves action w a w' : so_far w w' -> leaves action w a w'.
Proof using. intros [H1 H2 H3]. split; [by apply table_progress | intros ?; congruence]. Qed.

Lemma found_at test rs i : find_request test rs = Some i -> exists r, rs !! i = Some r /\ request_at i rs = r /\ test r = true.
Proof using.
  unfold find_request. destruct (list_find _ rs) as [[j r]|] eqn:E; [|done]. intros Hi. injection Hi as <-.
  apply list_find_Some in E as (Hr & Ht & _). exists r. split_and!; [done | by apply nth_lookup_Some | done].
Qed.

Lemma found_by_id id rs i :
  find_by_id_locked id rs = Some i ->
  exists r, rs !! i = Some r /\ request_at i rs = r /\ id = Some (request_id r) /\ request_id r <> [].
Proof using.
  destruct id as [x|]; [|done]. unfold find_by_id_locked. case_if; [done|]. intros H.
  destruct (found_at _ _ _ H) as (r & H1 & H2 & H3). apply streq_true in H3. exists r. rewrite H3.
  split_and!; try done. by intros ->.
Qed.

Lemma wp_on_request id work Q w :
  Q (no_copy ESP_ERR_NOT_FOUND) w ->
  (forall i r, find_by_id_locked id (s_requests w) = Some i -> s_requests w !! i = Some r ->
     Q ((work r).1, Some (work r).2) (w <| s_requests := <[i := (work r).2]> (s_requests w) |>)) ->
  wp (on_request id work) Q w.
Proof using.
  intros Hn Hf. apply wp_bind, wp_gets. destruct (find_by_id_locked id (s_requests w)) as [i|] eqn:E; [|by apply wp_ret].
  destruct (found_by_id id _ i E) as (r & H1 & -> & _). specialize (Hf i r eq_refl H1).
  destruct (work r) as [ret r']. by apply wp_bind, wp_modify, wp_ret.
Qed.

Lemma wp_progress_call action env id work w :
  broker_started w -> (forall now r, progress r (work now r).2) ->
  forall expires : bool,
  wp (broker_call env no_copy (now ← broker_now_ms env (uptime_ms env);
       (if expires then expire_all_locked now else mret tt);; on_request id (work now))) (leaves action w) w.
Proof using.
  intros Hs Hw expires. apply wp_call; [done| |].
  { intros e w' He E1 E2 Hs'. split; [|done]. rewrite E1, E2. apply table_progress; [apply same_table | done]. }
  intros w' Hf _. apply wp_bind, wp_now. intros now. apply wp_bind.
  assert (Hgo : forall w', so_far w w' -> wp (on_request id (work now)) (leaves action w) w').
  { intros w2 [H1 H2 H3]. apply wp_on_request; [by apply far_leaves|]. intros i r _ Hi. apply far_leaves.
    split; [|done..]. by eapply progress_insert. }
  destruct expires; [|by apply wp_ret, Hgo]. apply wp_modify, Hgo, so_far_map; [apply expire_progress | done].
Qed.
Lemma same_code {A} (m : st broker_world A) f action w :
  wp m (fun a w' => leaves action w (no_copy (f a)) w') w -> wp (only_code m f) (leaves action w) w.
Proof using. intros H. apply wp_bind. eapply wp_mono; [exact H|]. intros a w' Ha. by apply wp_ret. Qed.

Lemma refused action w a : broker_started w -> leaves action w a w.
Proof using. intros Hs. split; [|done]. by apply table_progress; [apply same_table|]. Qed.

(** A call whose work on the table is [work]. *)
Lemma wp_table_call {A} action env (fail : esp_err_t -> A) (work : Z -> st broker_world A) (f : A -> answer) w :
  broker_started w ->
  (forall now w', so_far w w' -> s_requests w' = map (expire_request now) (s_requests w) ->
     wp (work now) (fun a w2 => leaves action w (f a) w2) w') ->
  wp (broker_call env fail (now ← broker_now_ms env (uptime_ms env); expire_all_locked now;; work now))
    (fun a w' => leaves action w (f a) w') w.
Proof using.
  intros Hs Hw. apply wp_call; [done| |].
  { intros e w' _ E1 E2 Hs'. split; [|done]. rewrite E1, E2. apply table_progress; [apply same_table | done]. }
  intros w' Hf E. apply wp_bind, wp_now. intros now. apply wp_bind, wp_modify, Hw; [|cbn; by rewrite E].
  apply so_far_map; [apply expire_progress | done].
Qed.

Ltac refuses := case_if; [by apply wp_ret, refused|].

Lemma wp_table_call_on {A} action env (fail : esp_err_t -> A) (work : Z -> st broker_world A) (f : A -> answer) w :
  broker_started w ->
  (forall now w', so_far w w' -> wp (work now) (fun a w2 => leaves action w (f a) w2) w') ->
  wp (broker_call env fail (now ← broker_now_ms env (uptime_ms env); work now))
    (fun a w' => leaves action w (f a) w') w.
Proof using.
  intros Hs Hw. apply wp_call; [done| |].
  { intros e w' _ E1 E2 Hs'. split; [|done]. rewrite E1, E2. apply table_progress; [apply same_table | done]. }
  intros w' Hf _. apply wp_bind, wp_now. intros now. by apply Hw.
Qed.

Lemma note_decider a r : actor_valid a true = true -> progress r (r <| decider := a |>).
Proof using. intros Ha. split; try done. intros []. split; try done. apply orb_true_iff. by right. Qed.

Lemma note_reviewer a r :
  actor_valid a true = true -> is_reviewer (principal a) = true -> progress r (r <| reviewer := a |>).
Proof using.
  intros Ha Hr. split; try done. intros []. split; try done. apply orb_true_iff. right. by apply andb_true_intro.
Qed.

(** Who decides, entered before the decision itself. *)
Lemma signed_progress d r :
  actor_valid (d_decider d) true = true ->
  let r1 := r <| decider := d_decider d |> in
  let r2 := if reviewer_decides d r then set_source "reviewer" (r1 <| reviewer := d_decider d |>) else set_source "browser" r1 in
  progress r (r2 <| decided_by_session := copy_text SI_AGENT_REQUEST_SESSION_ID_MAX_LEN (Some (session_id (d_decider d))) |>).
Proof using.
  intros Ha r1 r2. assert (H1 : progress r r1) by by apply note_decider.
  assert (H2 : progress r r2).
  { subst r2. case_if; (etrans; [|apply note_source]); [|done]. etrans; [exact H1|]. apply note_reviewer; [done|].
    unfold reviewer_decides in Heqb. by split_guards. }
  etrans; [exact H2 | apply note_session].
Qed.

Lemma deny_progress d now r :
  actor_valid (d_decider d) true = true -> d_approved d = false -> progress r (enter_decision d now r).
Proof using.
  intros Ha Hd. pose proof (signed_progress d r Ha) as H. cbv zeta in H. unfold enter_decision. cbv zeta. rewrite Hd.
  etrans; [exact H|]. etrans; [apply note_error | by apply try_progress].
Qed.

Lemma decide_moves action env d w :
  decision_of action = d -> broker_started w -> wp (si_agent_request_broker_decide_v2 env d) (leaves action w) w.
Proof using.
  intros Hd Hs. unfold si_agent_request_broker_decide_v2. destruct d as [d|]; [|by apply wp_ret, refused]. refuses.
  split_guards. apply (wp_table_call _ _ _ _ (fun a => a)); [done|]. intros now w' Hf _.
  apply wp_on_request; [by apply far_leaves|]. intros i r Hfind Hi. destruct Hf as [Ht Hq Hl].
  destruct (found_by_id _ _ _ Hfind) as (r0 & Hi0 & _ & Hid & _). rewrite Hi in Hi0. injection Hi0 as <-.
  assert (Hgo : progress r (decide_request d now r).2 ->
    leaves action w ((decide_request d now r).1, Some (decide_request d now r).2)
      (w' <| s_requests := <[i := (decide_request d now r).2]> (s_requests w') |>)).
  { intros Hp. apply far_leaves. split; [|done..]. by eapply progress_insert. }
  destruct (decide_request d now r) as [ret r2] eqn:E. cbn [fst snd] in *.
  assert (Hcase : r2 = r \/ ret = ESP_OK /\ r2 = enter_decision d now r).
  { revert E. unfold decide_request. repeat case_if; intros E; injection E as <- <-; auto. }
  destruct Hcase as [->|[-> ->]]; [by apply Hgo|].
  destruct (d_approved d) eqn:Ea; [|by apply Hgo, deny_progress].
  split; [|intros ?; cbn in *; congruence].
  by apply (table_decided _ _ _ _ _ d now (s_requests w') i r).
Qed.

Lemma create_moves action env input w :
  filed action w = input -> broker_started w -> wp (si_agent_request_broker_create_v2 sha256 env input) (leaves action w) w.
Proof using.
  intros Hin Hs. unfold si_agent_request_broker_create_v2. refuses. apply negb_false_iff in Heqb.
  destruct input as [input|]; [|done].
  unfold sha256_hex. case_if; [by apply wp_ret, refused|].
  apply (wp_table_call _ _ _ _ (fun a => a)); [done|]. intros now w' Hf _. apply wp_bind, wp_gets.
  destruct (find_idempotency_locked _ _) eqn:Ei; [by apply wp_ret, far_leaves|].
  destruct (allocate_slot_locked _) as [i|] eqn:Ea; [|by apply wp_ret, far_leaves].
  destruct (found_at _ _ _ Ea) as (r & Hr & _ & He). apply bool_decide_eq_true in He. destruct Hf as [Ht Hq Hl].
  apply wp_bind, wp_gets, wp_bind, wp_modify, wp_bind, wp_modify, wp_ret. split; [|intros ?; cbn in *; congruence].
  cbn [s_requests s_next_sequence set]. rewrite Hq.
  eapply (table_filed _ _ _ _ _ input _ env now (s_requests w') i r);
    [exact Hin | exact Heqb | reflexivity | exact Ht | exact Hr | exact He | exact Ei | reflexivity..].
Qed.

Lemma retired_table action w a run mid :
  retired_run action = Some run -> run <> [] -> a.1 = ESP_OK -> so_far w mid ->
  existsb (fun r => of_run run r && negb (state_terminal (state r))) (s_requests mid) = false ->
  leaves action w a (mid <| s_requests := map (clear_run run) (s_requests mid) |>).
Proof using.
  intros Hr Hne Ha [H1 H2 H3] He. split; [|intros ?; cbn in *; congruence].
  apply (table_retired _ _ _ _ _ run (s_requests mid)); try done. apply Forall_forall. intros r Hin Hof.
  destruct (state_terminal (state r)) eqn:E; [done|]. exfalso. apply not_true_iff_false in He. apply He, existsb_exists.
  exists r. split; [by apply list_elem_of_In|]. by rewrite Hof, E.
Qed.

Lemma required_value v max : value_valid v max true = true -> exists x, v = Some x /\ x <> [].
Proof using. destruct v as [x|]; [|done]. intros H. exists x. split; [done|]. by intros ->. Qed.

(** After the second loop every request of the run has ended. *)
Lemma terminalized run now r :
  negb (of_run run r && negb (state_terminal (state r)) && negb (state_expires (state r)) && negb (under_way (state r))) = true ->
  of_run run (terminalize_request run now r) && negb (state_terminal (state (terminalize_request run now r))) = false.
Proof using.
  unfold terminalize_request. destruct (of_run run r) eqn:Eo; cbn [negb orb]; [|by rewrite Eo].
  destruct (state_terminal (state r)) eqn:Et; [by rewrite ?Et, ?andb_false_r|].
  intros H. apply andb_false_iff. right. destruct r as [s]. cbn in *. by destruct s.
Qed.

Lemma terminalize_moves action env run w :
  retired_run action = run -> broker_started w ->
  wp (si_agent_request_broker_terminalize_and_retire_run env run) (fun a w' => leaves action w (no_copy a) w') w.
Proof using.
  intros Hr Hs. unfold si_agent_request_broker_terminalize_and_retire_run. refuses. apply negb_false_iff in Heqb.
  destruct (required_value _ _ Heqb) as (x & -> & Hx).
  apply (wp_table_call_on _ _ _ _ no_copy); [done|]. intros now w' Hf. apply wp_bind, wp_gets.
  case_if; [by apply wp_ret, far_leaves|]. apply wp_bind, wp_modify, wp_bind, wp_modify, wp_ret.
  apply (retired_table action w _ x (w' <| s_requests := map (terminalize_request x now) (s_requests w') |>)); try done.
  { apply so_far_map; [apply terminalize_progress | done]. }
  cbn [s_requests set]. apply not_true_iff_false. rewrite existsb_exists. intros (r & Hin & H).
  apply in_map_iff in Hin as (r0 & <- & Hin). rewrite terminalized in H; [done|]. apply negb_true_iff.
  apply not_true_iff_false. intros H0. apply not_true_iff_false in Heqb0. apply Heqb0, existsb_exists. by exists r0.
Qed.

Lemma now_keeps env uptime w : (broker_now_ms env uptime w).2 = w.
Proof using. done. Qed.

Lemma call_moves action w :
  is_restore action = false -> broker_started w -> wp (broker_exec_call action) (leaves action w) w.
Proof using.
  intros Hr Hs. destruct action as [env|env now_fn context|env input|env input|env d|env id approved text session|env c|env id|env id evidence
    |env id error|env id session|env id ok error|env run|env id|env run|env run capacity|env run|env run|env|env k]; [..|done]; clear Hr; cbn [broker_exec_call].
  - apply same_code. unfold si_agent_request_broker_start. apply wp_bind, wp_gets. case_if; [by apply wp_ret, refused|].
    case_if; [by apply wp_ret, refused|]. apply wp_bind, wp_modify, wp_ret. split; [|done].
    destruct (Hs Heqb) as [E1 E2]. apply table_progress; cbn; [by rewrite E1; apply same_table | done].
  - apply same_code, wp_call; [done | |].
    { intros e w' _ E1 E2 Hs'. split; [|done]. rewrite E1, E2. apply table_progress; [apply same_table | done]. }
    intros w' Hf _. apply wp_bind, wp_modify, wp_ret, far_leaves. by destruct Hf.
  - by apply create_moves.
  - unfold si_agent_request_broker_create. destruct input as [input|]; [|by apply wp_ret, refused]. refuses.
    apply wp_bind, wp_intro. rewrite now_keeps. by apply create_moves.
  - by apply decide_moves.
  - unfold si_agent_request_broker_decide. refuses. by apply decide_moves.
  - unfold si_agent_request_broker_consume. destruct c as [c|]; [|by apply wp_ret, refused]. refuses.
    destruct (sha256_hex _ _ _); [|by apply wp_ret, refused].
    apply (wp_progress_call _ env (c_request_id c) (consume_request (c_binding c) l) w Hs (fun now => consume_progress _ _ now) true).
  - unfold si_agent_request_broker_mark_verifying. refuses.
    apply (wp_progress_call _ env id (fun now => advance_request SI_AGENT_REQUEST_VERIFYING now (fun r => r)) w Hs
      (fun now r => advance_progress SI_AGENT_REQUEST_VERIFYING now _ r ltac:(discriminate) progress_refl) false).
  - unfold si_agent_request_broker_complete_verified. refuses.
    apply (wp_progress_call _ env id _ w Hs
      (fun now r => advance_progress SI_AGENT_REQUEST_COMPLETED now _ r ltac:(discriminate) (note_evidence _)) false).
  - unfold si_agent_request_broker_mark_unknown. refuses.
    apply (wp_progress_call _ env id _ w Hs
      (fun now r => advance_progress SI_AGENT_REQUEST_UNKNOWN now _ r ltac:(discriminate) (note_error _)) false).
  - unfold si_agent_request_broker_cancel. refuses.
    apply (wp_progress_call _ env id (cancel_request session) w Hs (cancel_progress _) true).
  - unfold si_agent_request_broker_finish. refuses.
    apply (wp_progress_call _ env id (finish_request ok error) w Hs (finish_progress _ _) true).
  - apply same_code. unfold si_agent_request_broker_cancel_run. refuses.
    apply (wp_table_call _ _ _ _ (fun _ => no_copy ESP_OK)); [done|]. intros now w' Hf _. apply wp_modify, far_leaves, so_far_map; [apply cancel_run_progress | done].
  - unfold si_agent_request_broker_get_by_id. refuses.
    apply (wp_table_call _ _ _ _ (fun a => a)); [done|]. intros now w' Hf _. apply wp_bind, wp_gets, wp_ret, far_leaves, Hf.
  - unfold si_agent_request_broker_get. refuses.
    apply (wp_table_call _ _ _ _ (fun a => a)); [done|]. intros now w' Hf _. apply wp_bind, wp_gets, wp_ret, far_leaves, Hf.
  - apply same_code. unfold si_agent_request_broker_enumerate. refuses.
    apply (wp_table_call _ _ _ _ (fun a => no_copy a.1)); [done|]. intros now w' Hf _. apply wp_bind, wp_gets, wp_ret, far_leaves, Hf.
  - apply same_code. unfold si_agent_request_broker_retire_run. refuses. apply negb_false_iff in Heqb.
    destruct (required_value _ _ Heqb) as (x & -> & Hx).
    apply (wp_table_call _ _ _ _ (fun a => no_copy a)); [done|]. intros now w' Hf _. apply wp_bind, wp_gets.
    case_if; [by apply wp_ret, far_leaves|]. apply wp_bind, wp_modify, wp_ret. by apply retired_table.
  - by apply same_code, terminalize_moves.
  - apply same_code. unfold si_agent_request_broker_export_snapshot. refuses.
    apply (wp_table_call _ _ _ _ (fun a => no_copy a.1)); [done|]. intros now w' Hf _. apply wp_bind, wp_gets, wp_bind, wp_gets, wp_ret, far_leaves, Hf.
Qed.
End sha.

(** ** The invariant *)

Lemma progress_empty r r' : progress r r' -> state r' = SI_AGENT_REQUEST_EMPTY <-> state r = SI_AGENT_REQUEST_EMPTY.
Proof.
  intros Hp. pose proof (on_states _ _ Hp) as H. clear Hp. revert H. generalize (state r') as y. generalize (state r) as x.
  intros x y H. split; intros E; subst.
  - apply rtc_inv_r in H as [->|(z & _ & Hz)]; [done|]. unfold may_move in Hz. by destruct z.
  - apply rtc_inv in H as [->|(z & Hz & _)]; [done|]. unfold may_move in Hz. by destruct z.
Qed.

(** The texts and numbers of the terms, as filing checks them. *)
Definition terms_fit (sha256 : list Z -> list Z) (r : si_agent_request_status_t) : bool :=
  let text t max required := fixed_value_valid t (max + 1) required in
  kind_valid (kind r) && risk_valid (risk r) && scope_valid (requested_grant_scope r) && negb (plan_version r =? 0) &&
  (principal (requester r) =? enum_val SI_AGENT_REQUEST_PRINCIPAL_AGENT) && actor_valid (requester r) true &&
  text (request_id r) SI_AGENT_REQUEST_ID_MAX_LEN true &&
  text (parent_grant_request_id r) SI_AGENT_REQUEST_ID_MAX_LEN false &&
  text (device_id r) SI_AGENT_REQUEST_DEVICE_ID_MAX_LEN true &&
  text (thread_id r) SI_AGENT_REQUEST_THREAD_ID_MAX_LEN true &&
  text (turn_id r) SI_AGENT_REQUEST_TURN_ID_MAX_LEN true && text (run_id r) SI_AGENT_REQUEST_RUN_ID_MAX_LEN true &&
  text (step_id r) SI_AGENT_REQUEST_STEP_ID_MAX_LEN true && text (resource r) SI_AGENT_REQUEST_RESOURCE_MAX_LEN true &&
  text (reason r) SI_AGENT_REQUEST_REASON_MAX_LEN true && text (params_json r) SI_AGENT_REQUEST_PARAMS_MAX_LEN true &&
  text (normalized_args_hash r) SI_AGENT_REQUEST_HASH_HEX_LEN true &&
  text (params_hash r) SI_AGENT_REQUEST_HASH_HEX_LEN true &&
  text (idempotency_key r) SI_AGENT_REQUEST_IDEMPOTENCY_KEY_MAX_LEN true &&
  text (expected_effect r) SI_AGENT_REQUEST_EFFECT_MAX_LEN false &&
  text (verification r) SI_AGENT_REQUEST_VERIFY_MAX_LEN false &&
  streq (hex_text (sha256 (params_json r))) (normalized_args_hash r) &&
  streq (hex_text (sha256 (params_json r))) (params_hash r).

(** Among the requests that exist, [f] tells them apart. *)
Definition distinct {A} (f : si_agent_request_status_t -> A) (rs : list si_agent_request_status_t) : Prop :=
  forall i j r r', rs !! i = Some r -> rs !! j = Some r' -> state r <> SI_AGENT_REQUEST_EMPTY ->
    state r' <> SI_AGENT_REQUEST_EMPTY -> f r = f r' -> i = j.

(** A function of the terms stays the same in progress. *)
Lemma distinct_progress {A} (f : si_agent_request_status_t -> A) rs rs' :
  (forall r r', terms r' = terms r -> f r' = f r) -> Forall2 progress rs rs' -> distinct f rs -> distinct f rs'.
Proof.
  intros Hf Hp Hd i j r r' Hi Hj Hr Hr' E.
  destruct (Forall2_lookup_r _ _ _ _ _ Hp Hi) as (q & Hq & P), (Forall2_lookup_r _ _ _ _ _ Hp Hj) as (q' & Hq' & P').
  apply (Hd i j q q'); try done.
  - by rewrite <- (progress_empty q r P).
  - by rewrite <- (progress_empty q' r' P').
  - by rewrite <- (Hf q r (on_terms _ _ P)), <- (Hf q' r' (on_terms _ _ P')).
Qed.

Lemma distinct_insert {A} (f : si_agent_request_status_t -> A) rs i r :
  distinct f rs ->
  (forall j r', rs !! j = Some r' -> state r' <> SI_AGENT_REQUEST_EMPTY -> f r' = f r -> j = i) ->
  distinct f (<[i := r]> rs).
Proof.
  intros Hd Hn j k q q' Hj Hk Hq Hq' E.
  apply list_lookup_insert_Some in Hj as [(<- & -> & Hl)|[Hji Hj]];
  apply list_lookup_insert_Some in Hk as [(<- & -> & Hl')|[Hki Hk]]; try done.
  - exfalso. symmetry in E. by rewrite (Hn k q' Hk Hq' E) in Hki.
  - exfalso. by rewrite (Hn j q Hj Hq E) in Hji.
  - by eapply Hd.
Qed.

Lemma distinct_clear {A} (f : si_agent_request_status_t -> A) g rs :
  (forall r, g r = r \/ state (g r) = SI_AGENT_REQUEST_EMPTY) -> distinct f rs -> distinct f (map g rs).
Proof.
  intros Hg Hd i j r r' Hi Hj Hr Hr' E.
  apply list_lookup_fmap_Some in Hi as (q & -> & Hq). apply list_lookup_fmap_Some in Hj as (q' & -> & Hq').
  destruct (Hg q) as [E1|E1]; [|done]. destruct (Hg q') as [E2|E2]; [|done]. rewrite E1 in *. rewrite E2 in *.
  by eapply Hd.
Qed.

Lemma distinct_cons {A} (f : si_agent_request_status_t -> A) r rs :
  distinct f (r :: rs) <->
  (state r <> SI_AGENT_REQUEST_EMPTY -> Forall (fun r' => state r' <> SI_AGENT_REQUEST_EMPTY -> f r <> f r') rs) /\ distinct f rs.
Proof.
  split.
  - intros Hd. split.
    + intros Hr. apply Forall_lookup. intros j r' Hj Hr' E. by specialize (Hd 0%nat (S j) r r' eq_refl Hj Hr Hr' E).
    + intros i j q q' Hi Hj Hq Hq' E. by injection (Hd (S i) (S j) q q' Hi Hj Hq Hq' E).
  - intros [H1 H2] [|i] [|j] q q' Hi Hj Hq Hq' E; cbn in *; try (injection Hi as ->); try (injection Hj as ->); [done| | |].
    + by destruct (Forall_lookup_1 _ _ _ _ (H1 Hq) Hj Hq').
    + by destruct (Forall_lookup_1 _ _ _ _ (H1 Hq') Hi Hq).
    + f_equal. by eapply H2.
Qed.

Definition present (r : si_agent_request_status_t) : Prop := state r <> SI_AGENT_REQUEST_EMPTY.
#[export] Instance present_dec r : Decision (present r).
Proof. unfold present. apply _. Defined.

Lemma distinct_filter {A} (f : si_agent_request_status_t -> A) rs : distinct f rs -> distinct f (filter present rs).
Proof.
  induction rs as [|r rs IH]; [done|]. intros [H1 H2]%distinct_cons. destruct (decide (present r)) as [Hr|Hr].
  - rewrite filter_cons_True by done. apply distinct_cons. split; [|by apply IH]. intros _.
    apply Forall_forall. intros q [_ Hq]%list_elem_of_filter. by apply (proj1 (Forall_forall _ _) (H1 Hr)).
  - rewrite filter_cons_False by done. by apply IH.
Qed.

Lemma distinct_map {A} (f : si_agent_request_status_t -> A) g rs :
  (forall r, f (g r) = f r) -> (forall r, present (g r) -> present r) -> distinct f rs -> distinct f (map g rs).
Proof.
  intros Hf Hg Hd i j r r' Hi Hj Hr Hr' E.
  apply list_lookup_fmap_Some in Hi as (q & -> & Hq). apply list_lookup_fmap_Some in Hj as (q' & -> & Hq').
  rewrite !Hf in E. apply (Hd i j q q' Hq Hq'); [by apply Hg | by apply Hg | done].
Qed.

Lemma distinct_pad {A} (f : si_agent_request_status_t -> A) rs n : distinct f rs -> distinct f (rs ++ replicate n zero_request).
Proof.
  intros Hd i j r r' Hi Hj Hr Hr' E.
  apply lookup_app_Some in Hi as [Hi|[_ Hi]]; [|by apply lookup_replicate in Hi as [-> _]].
  apply lookup_app_Some in Hj as [Hj|[_ Hj]]; [|by apply lookup_replicate in Hj as [-> _]]. by eapply Hd.
Qed.

Section invariant.
Context (sha256 : list Z -> list Z) (sha_length : forall m, length (sha256 m) = 32%nat).

Record table_ok (rs : list si_agent_request_status_t) : Prop := mk_table_ok {
  ok_fits : Forall record_fits rs;
  ok_terms : Forall (fun r => state r <> SI_AGENT_REQUEST_EMPTY -> terms_fit sha256 r = true) rs;
  ok_keys : distinct idempotency_key rs
}.

Lemma terms_same {A} (f : si_agent_request_status_t -> A) r r' :
  (forall r, f (terms r) = f r) -> terms r' = terms r -> f r' = f r.
Proof using. intros Hf E. by rewrite <- (Hf r), <- (Hf r'), E. Qed.

Lemma table_progress_ok rs rs' : Forall2 progress rs rs' -> table_ok rs -> table_ok rs'.
Proof using.
  intros Hp [H1 H2 H3]. split; [| |by eapply distinct_progress, H3; [intros ? ?; by apply terms_same|]].
  - apply Forall_lookup. intros i r Hi. destruct (Forall2_lookup_r _ _ _ _ _ Hp Hi) as (q & Hq & P).
    apply (on_fits _ _ P). by eapply (Forall_lookup_1 _ _ _ _ H1).
  - apply Forall_lookup. intros i r Hi Hr. destruct (Forall2_lookup_r _ _ _ _ _ Hp Hi) as (q & Hq & P).
    rewrite (terms_same (terms_fit sha256) q r (fun _ => eq_refl) (on_terms _ _ P)).
    apply (Forall_lookup_1 _ _ _ _ H2 Hq). by rewrite <- (progress_empty q r P).
Qed.

Lemma zero_fits : record_fits zero_request.
Proof using. split; try done; unfold DECISION_SOURCE_SIZE; cbn; lia. Qed.

Lemma clear_run_cases run r : clear_run run r = r \/ clear_run run r = zero_request.
Proof using. unfold clear_run. case_if; auto. Qed.

Lemma table_clear_ok run rs : table_ok rs -> table_ok (map (clear_run run) rs).
Proof using.
  intros [H1 H2 H3]. split.
  - apply Forall_map. eapply Forall_impl; [exact H1|]. intros r Hr. destruct (clear_run_cases run r) as [-> | ->]; [done | apply zero_fits].
  - apply Forall_map. eapply Forall_impl; [exact H2|]. intros r Hr. by destruct (clear_run_cases run r) as [-> | ->].
  - apply distinct_clear; [|done]. intros r. destruct (clear_run_cases run r) as [-> | ->]; auto.
Qed.

(** Who may decide what. *)
Lemma decide_ok d now r :
  decide_request d now r = (ESP_OK, enter_decision d now r) ->
  actor_equal (d_decider d) (requester r) = false /\ transition_allowed (state r) SI_AGENT_REQUEST_GRANTED = true /\
  (browser_decides d = true \/ reviewer_decides d r = true) /\ present r.
Proof using.
  unfold decide_request. case_if; [done|]. case_if; [done|]. case_if; [done|]. case_if; [done|]. intros _.
  assert (Hs : state r = SI_AGENT_REQUEST_WAITING_USER \/ state r = SI_AGENT_REQUEST_REVIEWING).
  { apply andb_false_iff in Heqb0 as [E|E]; apply negb_false_iff, bool_decide_eq_true in E; auto. }
  split_and!; [done | by destruct Hs as [-> | ->] | | unfold present; by destruct Hs as [-> | ->]].
  apply andb_false_iff in Heqb1 as [E|E]; apply negb_false_iff in E; auto.
Qed.

(** A decision leaves the terms alone, and grants what it says. *)
Lemma decision_grants d now r :
  actor_valid (d_decider d) true = true -> scope_valid (d_grant_scope d) = true -> d_approved d = true ->
  decide_request d now r = (ESP_OK, enter_decision d now r) -> record_fits r ->
  let r' := enter_decision d now r in
  terms r' = terms r /\ expires_at_ms r' = expires_at_ms r /\ state r' = SI_AGENT_REQUEST_GRANTED /\
  grant_scope r' = d_grant_scope d /\ grant_consumed r = false /\ grant_consumed r' = false /\ record_fits r'.
Proof using.
  intros Ha Hs Hd Hdec Hf r'. unfold decide_request in Hdec. repeat (case_if; [done|]). clear Hdec.
  pose proof (signed_progress d r Ha) as Hp. cbv zeta in Hp.
  set (r0 := (if reviewer_decides d r then _ else _) <| decided_by_session := _ |>) in Hp.
  assert (Er : r' = try_state SI_AGENT_REQUEST_GRANTED now
    ((r0 <| grant_scope := d_grant_scope d |>) <| response := copy_text SI_AGENT_REQUEST_RESPONSE_MAX_LEN (d_response d) |>)).
  { subst r'. unfold enter_decision. cbv zeta. by rewrite Hd. }
  assert (Hst : state r0 = state r) by (subst r0; by case_if).
  assert (Hc : grant_consumed r0 = grant_consumed r) by (subst r0; by case_if).
  clearbody r0 r'. subst r'.
  assert (Hw : transition_allowed (state r0) SI_AGENT_REQUEST_GRANTED = true /\ grant_consumed r = false).
  { rewrite Hst. rewrite (fit_consumed _ Hf). apply andb_false_iff in Heqb0 as [E|E]; apply negb_false_iff, bool_decide_eq_true in E; by rewrite E. }
  destruct Hw as [Hw Hc0]. unfold try_state, set_state_locked. cbn [state set]. rewrite Hw. cbn [negb default].
  pose proof (on_fits _ _ Hp Hf) as [F1 F2 F3 F4 F5 F6 F7 F8 F9 F10].
  split_and!; try done; [by rewrite <- (on_terms _ _ Hp) | by rewrite <- (on_expiry _ _ Hp) | by cbn; rewrite Hc |].
  split; try done.
  - cbn. by rewrite Hc.
  - intros E. change (d_grant_scope d = enum_val SI_AGENT_REQUEST_GRANT_THREAD) in E. change (thread_grantable r0 = true).
    pose proof (on_terms _ _ Hp) as Ht. unfold thread_grantable.
    rewrite (terms_same kind _ _ (fun _ => eq_refl) Ht), (terms_same risk _ _ (fun _ => eq_refl) Ht),
      (terms_same lease_required _ _ (fun _ => eq_refl) Ht).
    rewrite Hd in Heqb2. apply orb_false_elim in Heqb2 as [_ E2]. rewrite E, Z.eqb_refl in E2. cbn [andb] in E2.
    apply orb_false_elim in E2 as [E2 E3]. apply orb_false_elim in E2 as [E1 E2]. apply negb_false_iff in E1, E2. by rewrite E1, E2, E3.
  - apply copy_text_length.
Qed.

(** ** Filing *)

Lemma copied_fits v max required :
  value_valid v max required = true -> fixed_value_valid (copy_text max v) (max + 1) required = true.
Proof using.
  intros H. unfold fixed_value_valid. pose proof (copy_text_length max v) as Hl.
  assert (E : (length (copy_text max v) <? max + 1)%nat = true) by (apply Nat.ltb_lt; lia). rewrite E. cbn [negb].
  destruct required; [|done]. destruct v as [x|]; [|done]. unfold value_valid in H. cbn [negb orb] in H. split_guards. to_props.
  unfold copy_text. change (deref (Some x)) with x. rewrite strtrunc_id by lia. by destruct x; cbn in *; [lia|].
Qed.

(** A text that was checked is copied whole. *)
Lemma copied_whole v max required : value_valid v max required = true -> copy_text max v = deref v.
Proof using.
  intros H. unfold copy_text. destruct v as [x|]; [|apply strtrunc_id; cbn; lia]. unfold value_valid in H. split_guards. to_props.
  change (deref (Some x)) with x. apply strtrunc_id. lia.
Qed.

Lemma hash_length text : length (hex_text (sha256 text)) = SI_AGENT_REQUEST_HASH_HEX_LEN.
Proof using sha_length. by rewrite hex_text_length, sha_length. Qed.

(** The tests that an input passed. *)
Lemma input_checks input :
  v2_input_valid (Some input) = true ->
  let b := i_binding input in
  let action := i_kind input =? enum_val SI_AGENT_REQUEST_KIND_ACTION in
  (kind_valid (i_kind input) = true /\ risk_valid (i_risk input) = true /\ scope_valid (i_requested_grant_scope input) = true /\
   (principal (i_requester input) =? enum_val SI_AGENT_REQUEST_PRINCIPAL_AGENT) = true /\
   actor_valid (i_requester input) true = true /\ (b_plan_version b =? 0) = false) /\
  (value_valid (b_device_id b) SI_AGENT_REQUEST_DEVICE_ID_MAX_LEN true = true /\
   value_valid (b_thread_id b) SI_AGENT_REQUEST_THREAD_ID_MAX_LEN true = true /\
   value_valid (b_turn_id b) SI_AGENT_REQUEST_TURN_ID_MAX_LEN true = true /\
   value_valid (b_run_id b) SI_AGENT_REQUEST_RUN_ID_MAX_LEN true = true /\
   value_valid (b_step_id b) SI_AGENT_REQUEST_STEP_ID_MAX_LEN true = true /\
   value_valid (b_normalized_args_json b) SI_AGENT_REQUEST_PARAMS_MAX_LEN true = true /\
   value_valid (b_idempotency_key b) SI_AGENT_REQUEST_IDEMPOTENCY_KEY_MAX_LEN true = true) /\
  (value_valid (i_resource input) SI_AGENT_REQUEST_RESOURCE_MAX_LEN true = true /\
   value_valid (i_reason input) SI_AGENT_REQUEST_REASON_MAX_LEN true = true /\
   value_valid (i_expected_effect input) SI_AGENT_REQUEST_EFFECT_MAX_LEN action = true /\
   value_valid (i_verification input) SI_AGENT_REQUEST_VERIFY_MAX_LEN action = true) /\
  (i_requested_grant_scope input = enum_val SI_AGENT_REQUEST_GRANT_THREAD ->
   (i_kind input =? enum_val SI_AGENT_REQUEST_KIND_CONTEXT) && (i_risk input =? enum_val SI_AGENT_REQUEST_RISK_LOW) &&
   negb (i_lease_required input) = true).
Proof using.
  unfold v2_input_valid. case_if; [done|]. intros Ht. split_guards. split_and!; try done.
  intros E. rewrite E, Z.eqb_refl in Ht. exact Ht.
Qed.

Lemma optional_fits v max required : value_valid v max required = true -> value_valid v max false = true.
Proof using. destruct v as [x|]; [|done]. unfold value_valid. intros H. by split_guards. Qed.

Lemma fill_fits input now random seq :
  v2_input_valid (Some input) = true ->
  let r := fill_request input (hex_text (sha256 (deref (b_normalized_args_json (i_binding input))))) now random seq in
  record_fits r /\ terms_fit sha256 r = true.
Proof using sha_length.
  intros Hv r. destruct (input_checks input Hv) as ((A1 & A2 & A3 & A4 & A5 & A6) & (B1 & B2 & B3 & B4 & B5 & B6 & B7) & (C1 & C2 & C3 & C4) & _).
  split; [subst r; split; try done; unfold DECISION_SOURCE_SIZE; cbn; lia|].
  pose proof (hash_length (deref (b_normalized_args_json (i_binding input)))) as Hh.
  assert (Eh : copy_text SI_AGENT_REQUEST_HASH_HEX_LEN (Some (hex_text (sha256 (deref (b_normalized_args_json (i_binding input)))))) =
               hex_text (sha256 (deref (b_normalized_args_json (i_binding input))))) by (apply strtrunc_id; change (deref (Some ?x)) with x; lia).
  apply optional_fits in C3, C4.
  unfold terms_fit, r, fill_request. cbv zeta.
  cbn [kind risk requested_grant_scope plan_version requester request_id parent_grant_request_id device_id thread_id turn_id run_id
       step_id resource reason params_json normalized_args_hash params_hash idempotency_key expected_effect verification].
  rewrite Eh, A1, A2, A3, A4, A5, A6, (copied_fits _ _ _ B1), (copied_fits _ _ _ B2), (copied_fits _ _ _ B3), (copied_fits _ _ _ B4),
    (copied_fits _ _ _ B5), (copied_fits _ _ _ B6), (copied_fits _ _ _ B7), (copied_fits _ _ _ C1), (copied_fits _ _ _ C2),
    (copied_fits _ _ _ C3), (copied_fits _ _ _ C4), (copied_whole _ _ _ B6), !streq_refl.
  assert (Ef : fixed_value_valid (hex_text (sha256 (deref (b_normalized_args_json (i_binding input))))) (SI_AGENT_REQUEST_HASH_HEX_LEN + 1) true = true).
  { unfold fixed_value_valid. rewrite Hh. cbn [Nat.ltb Nat.leb]. by destruct (hex_text _). }
  by rewrite Ef.
Qed.

(** A policy grants the request. *)
Definition policy_grants (input : si_agent_request_v2_input_t) : bool :=
  i_delegated_auto_approval input && (i_risk input <=? i_auto_approve_through input) || resource_auto_approved input.

Lemma try_moved r next now :
  transition_allowed (state r) next = true -> exists r', try_state next now r = r' /\ set_state_locked r next now = Some r'.
Proof using.
  intros Ht. unfold try_state. destruct (set_state_locked r next now) as [r'|] eqn:E; [by exists r'|].
  unfold set_state_locked in E. by rewrite Ht in E.
Qed.

(** A request that was just filed, and granted or not. *)
Record judged (r r' : si_agent_request_status_t) (scope : Z) : Prop := mk_judged {
  jd_terms : exists parent, terms r' = terms (r <| parent_grant_request_id := parent |>) /\
                            (length parent <= SI_AGENT_REQUEST_ID_MAX_LEN)%nat;
  jd_fits : record_fits r';
  jd_consumed : grant_consumed r' = false;
  jd_scope : grant_scope r' = scope;
  jd_exists : state r' <> SI_AGENT_REQUEST_EMPTY
}.

Lemma judged_state r x next now scope :
  transition_allowed (state x) next = true -> next <> SI_AGENT_REQUEST_EXECUTING -> judged r x scope ->
  judged r (try_state next now x) scope /\ state (try_state next now x) = next.
Proof using.
  intros Ht Hn [H1 H2 H3 H4 H5]. destruct (try_moved x next now Ht) as (x' & -> & E).
  destruct (set_state_Some _ _ _ _ E) as (_ & Hs & Htm & _ & Hg & _ & Hf).
  split; [|done]. split; [destruct H1 as (p & H1 & Hp); exists p; split; congruence | by apply Hf | | congruence | ].
  - rewrite (fit_consumed _ (Hf H2)), Hs. rewrite (fit_consumed _ H2) in H3. destruct (state x), next; done.
  - rewrite Hs. destruct next; try done. by destruct (state x).
Qed.

Lemma judged_progress r x x' scope :
  progress x x' -> grant_consumed x' = false -> grant_scope x' = scope -> judged r x scope -> judged r x' scope.
Proof using.
  intros Hp Hc Hg [(p & H1 & Hl) H2 H3 H4 H5]. split; [exists p; by rewrite (on_terms _ _ Hp) | by apply (on_fits _ _ Hp) | done..|].
  intros E. by apply (progress_empty _ _ Hp) in E.
Qed.

Definition once : Z := enum_val SI_AGENT_REQUEST_GRANT_ONCE.

Lemma policy_judged r x session instance source now :
  actor_valid (set_actor (enum_val SI_AGENT_REQUEST_PRINCIPAL_POLICY) (Some (cstr session)) (Some (cstr instance))) true = true ->
  state x = SI_AGENT_REQUEST_EVALUATING -> judged r x once ->
  judged r (policy_grant session instance source now x) once /\
  state (policy_grant session instance source now x) = SI_AGENT_REQUEST_GRANTED.
Proof using.
  intros Ha Hs Hj. unfold policy_grant. cbv zeta. set (x0 := x <| grant_scope := enum_val SI_AGENT_REQUEST_GRANT_ONCE |>).
  assert (E0 : x0 = x) by (subst x0; change (enum_val SI_AGENT_REQUEST_GRANT_ONCE) with once; rewrite <- (jd_scope _ _ _ Hj); by destruct x).
  rewrite E0. apply judged_state; [by cbn; rewrite Hs | done |].
  refine (judged_progress r x _ once _ _ _ Hj); [|apply (jd_consumed _ _ _ Hj) | apply (jd_scope _ _ _ Hj)].
  etrans; [by apply (note_decider (set_actor (enum_val SI_AGENT_REQUEST_PRINCIPAL_POLICY) (Some (cstr session)) (Some (cstr instance)))) |].
  etrans; [apply note_source | apply note_session].
Qed.

(** What a reused grant passes on. *)
Lemma reuse_judged r x g input now :
  record_fits g -> state x = SI_AGENT_REQUEST_EVALUATING -> judged r x once ->
  scope_valid (i_requested_grant_scope input) = true ->
  (i_requested_grant_scope input = enum_val SI_AGENT_REQUEST_GRANT_THREAD -> thread_grantable x = true) ->
  let r' := reuse_grant g input now x in
  judged r r' (Z.min (grant_scope g) (i_requested_grant_scope input)) /\ state r' = SI_AGENT_REQUEST_GRANTED.
Proof using.
  intros Hg Hs Hj Hv Ht r'. unfold r', reuse_grant. cbv zeta.
  set (sc := if grant_scope g <? i_requested_grant_scope input then _ else _).
  assert (Esc : sc = Z.min (grant_scope g) (i_requested_grant_scope input)).
  { subst sc. destruct (Z.ltb_spec (grant_scope g) (i_requested_grant_scope input)); lia. }
  clearbody sc. subst sc. set (m := Z.min _ _).
  assert (Hm : scope_valid m = true /\ (m = enum_val SI_AGENT_REQUEST_GRANT_THREAD -> thread_grantable x = true)).
  { pose proof (fit_scope _ Hg) as Hgs. unfold scope_valid in *. split_guards. to_props. subst m. split.
    - apply andb_true_intro. split; apply Z.leb_le; lia.
    - intros E. apply Ht. change (enum_val SI_AGENT_REQUEST_GRANT_THREAD) with 3 in *. lia. }
  clearbody m. destruct Hm as [Hm1 Hm2].
  set (x1 := if _ <? _ then _ else _).
  assert (Hx1 : terms x1 = terms x /\ grant_scope x1 = m /\ state x1 = state x /\ grant_consumed x1 = false /\ record_fits x1).
  { destruct Hj as [_ [F1 F2 F3 F4 F5 F6 F7 F8 F9 F10] Hc _ _]. subst x1. case_if; (split_and!; [done..|by split]). }
  clearbody x1. destruct Hx1 as (T1 & T2 & T3 & T4 & T5).
  apply judged_state; [by cbn; rewrite T3, Hs | done |].
  destruct Hj as [(p & Hp1 & Hp2) Hf Hc Hsc Hne].
  split; [|destruct T5, Hg; split; try done; [apply source_length | apply copy_text_length] | exact T4 | exact T2 | cbn; congruence].
  exists (copy_text SI_AGENT_REQUEST_ID_MAX_LEN (Some (request_id g))). split; [|apply copy_text_length].
  assert (E : terms x1 = terms (r <| parent_grant_request_id := p |>)) by congruence.
  transitivity ((terms x1) <| parent_grant_request_id := copy_text SI_AGENT_REQUEST_ID_MAX_LEN (Some (request_id g)) |>); [done|].
  by rewrite E.
Qed.

(** Every way a filed request can go. *)
Lemma judge_spec reusable input now r :
  state r = SI_AGENT_REQUEST_REQUESTED -> record_fits r -> grant_scope r = once ->
  (length (parent_grant_request_id r) <= SI_AGENT_REQUEST_ID_MAX_LEN)%nat ->
  scope_valid (i_requested_grant_scope input) = true ->
  (i_requested_grant_scope input = enum_val SI_AGENT_REQUEST_GRANT_THREAD -> thread_grantable r = true) ->
  (forall g, reusable = Some g -> record_fits g) ->
  let r' := judge_request reusable input now r in
  exists scope, judged r r' scope /\
    (allowed (state r') = true ->
     match reusable with
     | Some g => scope = Z.min (grant_scope g) (i_requested_grant_scope input)
     | None => policy_grants input = true /\ scope = once /\ state r' = SI_AGENT_REQUEST_GRANTED
     end).
Proof using.
  intros Hs Hf Hsc Hpar Hv Ht Hg r'. unfold r', judge_request. cbv zeta.
  assert (Hj0 : judged r r once).
  { split; try done; [|by rewrite (fit_consumed _ Hf), Hs | by rewrite Hs].
    exists (parent_grant_request_id r). by split; [destruct r|]. }
  destruct (judged_state r r SI_AGENT_REQUEST_EVALUATING now once ltac:(by rewrite Hs) ltac:(done) Hj0) as [Hj Hx].
  set (x := try_state SI_AGENT_REQUEST_EVALUATING now r) in *.
  assert (Hth : i_requested_grant_scope input = enum_val SI_AGENT_REQUEST_GRANT_THREAD -> thread_grantable x = true).
  { intros E. destruct Hj as [(p & Hp & _) _ _ _ _]. specialize (Ht E). revert Ht. unfold thread_grantable.
    by rewrite (terms_same kind _ _ (fun _ => eq_refl) Hp), (terms_same risk _ _ (fun _ => eq_refl) Hp),
      (terms_same lease_required _ _ (fun _ => eq_refl) Hp). }
  clearbody x. destruct reusable as [g|].
  - destruct (reuse_judged r x g input now (Hg g eq_refl) Hx Hj Hv Hth) as [H1 _]. by eexists.
  - exists once. case_if; [|case_if; [|case_if]].
    + destruct (policy_judged r x "access-mode" "delegated-policy-v1" "delegated_policy" now ltac:(done) Hx Hj) as [H1 H2].
      split; [done|]. intros _. split_and!; [|done..]. unfold policy_grants. by rewrite Heqb.
    + destruct (policy_judged r x "broker" "deterministic-policy-v1" "policy" now ltac:(done) Hx Hj) as [H1 H2].
      split; [done|]. intros _. split_and!; [|done..]. unfold policy_grants. by rewrite Heqb0, orb_true_r.
    + destruct (judged_state r x SI_AGENT_REQUEST_REVIEWING now once ltac:(by rewrite Hx) ltac:(done) Hj) as [H1 H2].
      split; [done|]. by rewrite H2.
    + destruct (judged_state r x SI_AGENT_REQUEST_WAITING_USER now once ltac:(by rewrite Hx) ltac:(done) Hj) as [H1 H2].
      split; [done|]. by rewrite H2.
Qed.

Lemma terms_fit_parent r p :
  (length p <= SI_AGENT_REQUEST_ID_MAX_LEN)%nat -> terms_fit sha256 r = true ->
  terms_fit sha256 (r <| parent_grant_request_id := p |>) = true.
Proof using.
  intros Hp H. unfold terms_fit in *. cbv zeta in *. repeat (apply andb_prop in H as [H ?]).
  assert (Ep : fixed_value_valid p (SI_AGENT_REQUEST_ID_MAX_LEN + 1) false = true).
  { unfold fixed_value_valid. assert (E : (length p <? SI_AGENT_REQUEST_ID_MAX_LEN + 1)%nat = true) by (apply Nat.ltb_lt; lia). by rewrite E. }
  rewrite !andb_true_iff. by split_and!.
Qed.

Lemma none_found test rs : find_request test rs = None -> Forall (fun r => test r = false) rs.
Proof using.
  unfold find_request. destruct (list_find _ rs) as [[j r]|] eqn:E; [done|]. intros _.
  apply list_find_None in E. eapply Forall_impl; [exact E|]. intros r Hr. by apply not_true_iff_false.
Qed.

(** A request that was just filed: its terms are those of the input. *)
Lemma filed_spec input now random seq reusable :
  v2_input_valid (Some input) = true -> (forall g, reusable = Some g -> record_fits g) ->
  let hash := hex_text (sha256 (deref (b_normalized_args_json (i_binding input)))) in
  let r := fill_request input hash now random seq in
  let r' := judge_request reusable input now r in
  exists scope, judged r r' scope /\ terms_fit sha256 r' = true /\
    (allowed (state r') = true ->
     match reusable with
     | Some g => scope = Z.min (grant_scope g) (i_requested_grant_scope input)
     | None => policy_grants input = true /\ scope = once /\ state r' = SI_AGENT_REQUEST_GRANTED
     end).
Proof using sha_length.
  intros Hv Hg hash r r'. destruct (fill_fits input now random seq Hv) as [Hf Ht]. fold hash in Hf, Ht. fold r in Hf, Ht.
  destruct (input_checks input Hv) as ((_ & _ & Hsc & _) & _ & _ & Hth).
  destruct (judge_spec reusable input now r eq_refl Hf eq_refl (Nat.le_0_l _) Hsc Hth Hg) as (scope & Hj & Ha).
  exists scope. split_and!; [done| |done]. destruct (jd_terms _ _ _ Hj) as (p & Hp & Hl).
  unfold r'. rewrite (terms_same (terms_fit sha256) _ _ (fun _ => eq_refl) Hp). by apply terms_fit_parent.
Qed.

Lemma table_filed_ok input now random seq i r mid reusable :
  v2_input_valid (Some input) = true -> table_ok mid -> mid !! i = Some r ->
  find_idempotency_locked (deref (b_idempotency_key (i_binding input))) mid = None ->
  (forall g, reusable = Some g -> record_fits g) ->
  table_ok (<[i := judge_request reusable input now
              (fill_request input (hex_text (sha256 (deref (b_normalized_args_json (i_binding input))))) now random seq)]> mid).
Proof using sha_length.
  intros Hv [H1 H2 H3] Hi Hk Hg. destruct (filed_spec input now random seq reusable Hv Hg) as (scope & Hj & Hfit & _).
  cbv zeta in Hj, Hfit. set (r' := judge_request _ _ _ _) in *. split.
  - apply Forall_insert; [done | apply (jd_fits _ _ _ Hj)].
  - by apply Forall_insert.
  - apply distinct_insert; [done|]. intros j q Hq Hne E. exfalso.
    pose proof (Forall_lookup_1 _ _ _ _ (none_found _ _ Hk) Hq) as Hn. cbv beta in Hn.
    rewrite bool_decide_eq_false_2 in Hn by done. cbn [negb andb] in Hn.
    destruct (jd_terms _ _ _ Hj) as (p & Hp & _). rewrite (terms_same idempotency_key _ _ (fun _ => eq_refl) Hp) in E.
    cbn [idempotency_key set] in E. unfold fill_request in E. cbn [idempotency_key] in E.
    destruct (input_checks input Hv) as (_ & (_ & _ & _ & _ & _ & _ & B7) & _).
    rewrite (copied_whole _ _ _ B7) in E. rewrite E, streq_refl in Hn. done.
Qed.

(** ** Snapshots and restarts *)

Definition entry_of (now : Z) (r : si_agent_request_status_t) : si_agent_request_snapshot_entry_t :=
  mk_entry r (remaining_ttl now (expires_at_ms r)).

(** The snapshot of a table. *)
Definition snapshot_of (now : Z) (rs : list si_agent_request_status_t) (next : Z) : si_agent_request_snapshot_t :=
  let used := map (entry_of now) (filter present rs) in
  mk_snapshot SI_AGENT_REQUEST_SNAPSHOT_SCHEMA_VERSION (Z.of_nat (length used)) next
    (used ++ replicate (SI_AGENT_REQUEST_QUEUE_CAPACITY - length used) zero_entry).

(** The table after an import. *)
Definition restored_table (now : Z) (es : list si_agent_request_snapshot_entry_t) : list si_agent_request_status_t :=
  map (restore_request now) es ++ replicate (SI_AGENT_REQUEST_QUEUE_CAPACITY - length es) zero_request.

(** A request that the restart ends. *)
Definition ended (s : si_agent_request_state_t) (text : string) (r : si_agent_request_status_t) : si_agent_request_status_t :=
  set_error (error_text text) (set_source "restore" (r <| state := s |>)).

Lemma ended_fits s text r : grant_consumed r = effect_started s -> record_fits r -> record_fits (ended s text r).
Proof using.
  intros Hc [F1 F2 F3 F4 F5 F6 F7 F8 F9 F10]. apply (on_fits _ _ (note_error _ _)), (on_fits _ _ (note_source _ _)). by split.
Qed.

Lemma restore_cases now e :
  let r := entry_status e in
  (exists s text r0, r0 = (r <| completed_ms := completed_ms r0 |>) <| decided_ms := decided_ms r0 |>
     <| expires_at_ms := expires_at_ms r0 |> /\ restore_request now e = ended s text r0 /\
     (under_way (state r) = true /\ s = SI_AGENT_REQUEST_UNKNOWN \/ state_expires (state r) = true /\ s = SI_AGENT_REQUEST_EXPIRED)) \/
  (exists x, restore_request now e = r <| expires_at_ms := x |> /\ under_way (state r) = false /\ state r <> SI_AGENT_REQUEST_GRANTED).
Proof using.
  cbv zeta. unfold restore_request. destruct e as [r ttl]. cbn [entry_status remaining_ttl_ms].
  destruct (under_way (state r)) eqn:Eu.
  { left. exists SI_AGENT_REQUEST_UNKNOWN, "device restarted after effect began; outcome unknown"%string, (r <| completed_ms := now |>).
    split_and!; [by destruct r | done | by left]. }
  case_if; decided.
  { left. exists SI_AGENT_REQUEST_EXPIRED, "grant invalidated by restart"%string, (r <| decided_ms := now |>).
    split_and!; [by destruct r | done | right; by rewrite Heqb]. }
  case_if; [case_if|].
  - left. exists SI_AGENT_REQUEST_EXPIRED, "request expired before restore"%string,
      ((r <| expires_at_ms := u32 (now + ttl) |>) <| decided_ms := now |>). split_and!; [by destruct r | done | by right].
  - right. by eexists.
  - right. by eexists.
Qed.

Lemma restore_facts now e :
  let r' := restore_request now e in let r := entry_status e in
  terms r' = terms r /\ grant_scope r' = grant_scope r /\ grant_consumed r' = grant_consumed r /\
  rtc may_move (state r) (state r') /\ state r' <> SI_AGENT_REQUEST_GRANTED /\ under_way (state r') = false /\
  (record_fits r -> record_fits r').
Proof using.
  cbv zeta. destruct (restore_cases now e) as [(s & text & r0 & E0 & -> & Hs)|(x & -> & Hu & Hg)].
  - assert (Hmove : rtc may_move (state (entry_status e)) s).
    { apply rtc_once. destruct Hs as [[Hs ->]|[Hs ->]]; by destruct (state (entry_status e)). }
    assert (Hfit : record_fits (entry_status e) -> record_fits r0) by (rewrite E0; intros []; by split).
    assert (Hst : grant_consumed r0 = grant_consumed (entry_status e)) by by rewrite E0.
    split_and!; [by rewrite E0 | by rewrite E0 | by rewrite <- Hst | done | by destruct Hs as [[_ ->]|[_ ->]] |
      by destruct Hs as [[_ ->]|[_ ->]] |].
    intros F. apply ended_fits; [|by apply Hfit]. rewrite Hst, (fit_consumed _ F).
    destruct Hs as [[Hs ->]|[Hs ->]]; by destruct (state (entry_status e)).
  - split_and!; try done. intros []; by split.
Qed.

Lemma restore_exists now e : present (restore_request now e) <-> present (entry_status e).
Proof using.
  unfold restore_request, present. destruct e as [r ttl]. cbn [entry_status remaining_ttl_ms].
  repeat case_if; cbn; destruct (state r); done.
Qed.

Lemma restored_ok now es : table_ok (map entry_status es) -> table_ok (restored_table now es).
Proof using.
  intros [H1 H2 H3]. unfold restored_table. split.
  - apply Forall_app. split; [|apply Forall_replicate, zero_fits]. apply Forall_map. rewrite Forall_map in H1.
    eapply Forall_impl; [exact H1|]. intros e He. by apply (restore_facts now e).
  - apply Forall_app. split; [|by apply Forall_replicate]. apply Forall_map. rewrite Forall_map in H2.
    eapply Forall_impl; [exact H2|]. intros e He Hr. destruct (restore_facts now e) as (Ht & _).
    rewrite (terms_same (terms_fit sha256) _ _ (fun _ => eq_refl) Ht). apply He. exact (proj1 (restore_exists now e) Hr).
  - apply distinct_pad. intros i j r r' Hi Hj Hr Hr' E.
    apply list_lookup_fmap_Some in Hi as (e & -> & Hi). apply list_lookup_fmap_Some in Hj as (e' & -> & Hj).
    destruct (restore_facts now e) as (Ht & _), (restore_facts now e') as (Ht' & _).
    rewrite (terms_same idempotency_key _ _ (fun _ => eq_refl) Ht), (terms_same idempotency_key _ _ (fun _ => eq_refl) Ht') in E.
    apply (H3 i j (entry_status e) (entry_status e')); try done;
      [by rewrite list_lookup_fmap, Hi | by rewrite list_lookup_fmap, Hj | exact (proj1 (restore_exists now e) Hr) | exact (proj1 (restore_exists now e') Hr')].
Qed.

Lemma filter_ok rs : table_ok rs -> table_ok (filter present rs).
Proof using.
  intros [H1 H2 H3]. split; [| |by apply distinct_filter]; apply Forall_forall; intros r [Hr Hin]%list_elem_of_filter.
  - by apply (Forall_forall record_fits rs).
  - intros _. by apply (proj1 (Forall_forall _ _) H2 r Hin).
Qed.

Lemma snapshot_used now rs next :
  (length rs <= SI_AGENT_REQUEST_QUEUE_CAPACITY)%nat ->
  let snap := snapshot_of now rs next in
  take (Z.to_nat (snapshot_count snap)) (entries snap) = map (entry_of now) (filter present rs) /\
  (snapshot_count snap <= Z.of_nat SI_AGENT_REQUEST_QUEUE_CAPACITY) /\
  map entry_status (map (entry_of now) (filter present rs)) = filter present rs.
Proof using.
  intros Hl snap. subst snap. cbn [snapshot_of snapshot_count entries]. rewrite Nat2Z.id, take_app_length.
  split_and!; [done | | by rewrite map_map, map_id].
  rewrite length_map. pose proof (length_filter present rs). lia.
Qed.

Definition used_entries (snap : si_agent_request_snapshot_t) : list si_agent_request_snapshot_entry_t :=
  take (Z.to_nat (snapshot_count snap)) (entries snap).

(** The next number after an import. *)
Definition imported_sequence (snap : si_agent_request_snapshot_t) (max_sequence : Z) : Z :=
  let candidate := if next_sequence snap <=? max_sequence then u64 (max_sequence + 1) else next_sequence snap in
  if 0 <? candidate then candidate else 1.

(** How a call or a restart moves the system. *)
Inductive system_moves (action : broker_action) (s : broker_system) (a : answer) (s' : broker_system) : Prop :=
| moves_call new :
    is_restore action = false ->
    table_moves sha256 action (broker s) a (s_requests (broker s')) (s_next_sequence (broker s')) ->
    exported s' = exported s ++ new ->
    new = [] \/ (exists now, new = [snapshot_of now (s_requests (broker s')) (s_next_sequence (broker s'))]) ->
    system_moves action s a s'
| moves_restart env k :
    action = BrokerRestore env k -> a.1 <> ESP_OK -> s_requests (broker s') = zero_table ->
    s_next_sequence (broker s') = 1 -> exported s' = exported s -> system_moves action s a s'
| moves_restore env k now snap max_sequence :
    action = BrokerRestore env k -> a.1 = ESP_OK -> exported s !! k = Some snap ->
    scan_snapshot sha256 env [] (map entry_status (used_entries snap)) 0 = Some max_sequence ->
    s_requests (broker s') = restored_table now (used_entries snap) ->
    s_next_sequence (broker s') = imported_sequence snap max_sequence ->
    exported s' = exported s -> system_moves action s a s'.

Lemma export_moves action env w :
  action = BrokerExport env -> broker_started w ->
  wp (si_agent_request_broker_export_snapshot env true) (fun a w' =>
    leaves sha256 action w (no_copy a.1) w' /\
    (a.2 = None \/ exists now, a = (ESP_OK, Some (snapshot_of now (s_requests w') (s_next_sequence w'))))) w.
Proof using.
  intros -> Hs. apply wp_conj.
  - pose proof (call_moves sha256 (BrokerExport env) w eq_refl Hs) as H. cbn [broker_exec_call] in H. unfold only_code, wp, bind in *.
    by destruct (si_agent_request_broker_export_snapshot env true w) as [a w'].
  - unfold si_agent_request_broker_export_snapshot. cbn [negb]. apply wp_call; [done | |].
    { intros e w' _ _ _ _. by left. }
    intros w' Hf E. apply wp_bind, wp_now. intros now. apply wp_bind, wp_modify, wp_bind, wp_gets, wp_bind, wp_gets, wp_ret.
    right. by exists now.
Qed.

Lemma import_moves env snap w :
  broker_started w ->
  wp (si_agent_request_broker_import_snapshot sha256 env snap) (fun ret w' =>
    broker_started w' /\
    (ret <> ESP_OK /\ s_requests w' = s_requests w /\ s_next_sequence w' = s_next_sequence w \/
     ret = ESP_OK /\ exists x now max_sequence, snap = Some x /\
       scan_snapshot sha256 env [] (map entry_status (used_entries x)) 0 = Some max_sequence /\
       s_requests w' = restored_table now (used_entries x) /\ s_next_sequence w' = imported_sequence x max_sequence)) w.
Proof using.
  intros Hs. unfold si_agent_request_broker_import_snapshot. destruct snap as [x|]; [|apply wp_ret; split; [done|]; by left].
  case_if; [apply wp_ret; split; [done|]; by left|]. fold (used_entries x).
  destruct (scan_snapshot _ _ _ _ _) as [max_sequence|] eqn:Ec; [|apply wp_ret; split; [done|]; by left].
  apply wp_call; [done | |].
  { intros e w' He E1 E2 Hs'. split; [done|]. by left. }
  intros w' [_ _ Hl] E. apply wp_bind, wp_now. intros now. apply wp_bind, wp_modify, wp_bind, wp_modify, wp_ret.
  split; [intros ?; cbn in *; congruence|]. right. split; [done|]. by exists x, now, max_sequence.
Qed.

Lemma power_on_started : broker_started broker_power_on.
Proof using. done. Qed.

Lemma system_step action s :
  broker_started (broker s) ->
  let r := broker_exec sha256 action s in system_moves action s r.1 r.2 /\ broker_started (broker r.2).
Proof using.
  intros Hs r. assert (Hcall : is_restore action = false -> (forall env, action <> BrokerExport env) ->
    system_moves action s r.1 r.2 /\ broker_started (broker r.2)).
  { intros Hr Hne. pose proof (call_moves sha256 action (broker s) Hr Hs) as H. unfold wp in H.
    assert (E : r = ((broker_exec_call sha256 action (broker s)).1, s <| broker := (broker_exec_call sha256 action (broker s)).2 |>)).
    { subst r. destruct action; try done; try (by destruct (Hne env)); cbn [broker_exec];
        by destruct (broker_exec_call sha256 _ (broker s)). }
    rewrite E. cbn [fst snd broker set]. destruct H as [H1 H2]. split; [|done].
    apply (moves_call _ _ _ _ []); [done | done | by rewrite app_nil_r | by left]. }
  destruct action; try (by apply Hcall); clear Hcall; subst r; cbn [broker_exec].
  - pose proof (export_moves (BrokerExport env) env (broker s) eq_refl Hs) as H. unfold wp in H.
    destruct (si_agent_request_broker_export_snapshot env true (broker s)) as [[ret snapshot] w].
    cbn [fst snd broker exported] in *. destruct H as [[H1 H2] H3]. split; [|done].
    apply (moves_call _ _ _ _ (option_list snapshot)); [done | done | done |].
    destruct H3 as [-> | (now & E)]; [by left|]. injection E as _ ->. right. by exists now.
  - pose proof (import_moves env (exported s !! k) broker_power_on power_on_started) as H. unfold wp in H.
    destruct (si_agent_request_broker_import_snapshot sha256 env (exported s !! k) broker_power_on) as [ret w].
    cbn [fst snd broker set] in *. destruct H as [H2 H]. split; [|done].
    destruct H as [(Hret & E1 & E2)|(-> & x & now & m & Ex & Hscan & E1 & E2)].
    + by apply (moves_restart _ _ _ _ env k).
    + by apply (moves_restore _ _ _ _ env k now x m).
Qed.

(** What holds of every reachable system. *)
Record system_ok (s : broker_system) : Prop := mk_system_ok {
  so_started : broker_started (broker s);
  so_table : table_ok (s_requests (broker s));
  so_length : length (s_requests (broker s)) = SI_AGENT_REQUEST_QUEUE_CAPACITY;
  so_exported : Forall (fun snap => exists now rs next, snap = snapshot_of now rs next /\ table_ok rs /\
                          length rs = SI_AGENT_REQUEST_QUEUE_CAPACITY) (exported s)
}.

Lemma zero_table_ok : table_ok zero_table.
Proof using.
  split; [apply Forall_replicate, zero_fits | by apply Forall_replicate | exact (distinct_pad idempotency_key [] _ (fun i j _ _ H => ltac:(done)))].
Qed.

Lemma table_moves_ok action w a rs' next' :
  table_moves sha256 action w a rs' next' -> table_ok (s_requests w) -> table_ok rs' /\ length rs' = length (s_requests w).
Proof using sha_length.
  intros Hm Hok. destruct Hm as [Hp _ | d now mid i r Ed Hap Hr Ha Hs Hp Hi _ Hd _ -> _ | input hash env now mid i r Hf Hv -> Hp Hi He Hk reusable r' _ -> _
    | run mid Hr Hne Hret Hp Ht -> _]; pose proof (table_progress_ok _ _ Hp Hok) as Hmid; pose proof (Forall2_length _ _ _ Hp) as Hlen.
  - done.
  - split; [|by rewrite length_insert]. destruct Hmid as [H1 H2 H3]. pose proof (Forall_lookup_1 _ _ _ _ H1 Hi) as Hf.
    destruct (decision_grants d now r Ha Hs Hap Hd Hf) as (Et & _ & Es & _ & _ & _ & Hf').
    split; [by apply Forall_insert | apply Forall_insert; [done|] |].
    + intros _. rewrite (terms_same (terms_fit sha256) _ _ (fun _ => eq_refl) Et). by apply (Forall_lookup_1 _ _ _ _ H2 Hi), (decide_ok d now).
    + apply distinct_insert; [done|]. intros j q Hq Hne E. rewrite (terms_same idempotency_key _ _ (fun _ => eq_refl) Et) in E.
      apply (H3 j i q r Hq Hi Hne); [|done]. by apply (decide_ok d now).
  - split; [|by rewrite length_insert]. apply (table_filed_ok input now _ _ i r mid reusable Hv Hmid Hi Hk). intros g Hg.
    unfold reusable in Hg. destruct (find_request _ mid) as [j|] eqn:Ef; [|done]. injection Hg as <-.
    destruct (found_at _ _ _ Ef) as (q & Hq & -> & _). apply (Forall_lookup_1 _ _ _ _ (ok_fits _ Hmid) Hq).
  - split; [by apply table_clear_ok | by rewrite length_map].
Qed.

Lemma system_step_ok action s : system_ok s -> system_ok (broker_exec sha256 action s).2.
Proof using sha_length.
  intros [H1 H2 H3 H4]. destruct (system_step action s H1) as [Hm Hs]. split; [done|..].
  all: destruct Hm as [new Hr Hm Hx Hn | env k -> Hret E1 E2 Hx | env k now snap m -> Hret Hk Hc E1 E2 Hx].
  - by apply (table_moves_ok _ _ _ _ _ Hm).
  - rewrite E1. apply zero_table_ok.
  - rewrite E1. apply restored_ok. destruct (proj1 (Forall_forall _ _) H4 snap (list_elem_of_lookup_2 _ _ _ Hk)) as (n & rs & nx & -> & Hok & Hl).
    destruct (snapshot_used n rs nx ltac:(lia)) as (Eu & _ & Ee). unfold used_entries. rewrite Eu, Ee. by apply filter_ok.
  - rewrite (proj2 (table_moves_ok _ _ _ _ _ Hm H2)). done.
  - by rewrite E1.
  - rewrite E1. unfold restored_table. rewrite length_app, length_map, length_replicate.
    destruct (proj1 (Forall_forall _ _) H4 snap (list_elem_of_lookup_2 _ _ _ Hk)) as (n & rs & nx & -> & Hok & Hl).
    destruct (snapshot_used n rs nx ltac:(lia)) as (Eu & _ & Ee). unfold used_entries. rewrite Eu, length_map.
    pose proof (length_filter present rs). lia.
  - rewrite Hx. apply Forall_app. split; [done|]. destruct Hn as [->|[now ->]]; [done|]. apply Forall_singleton.
    destruct (table_moves_ok _ _ _ _ _ Hm H2) as [Ht Hl]. eexists _, _, _. split_and!; [done | done | congruence].
  - by rewrite Hx.
  - by rewrite Hx.
Qed.

Definition broker_fresh (s : broker_system) : Prop := broker s = broker_power_on /\ exported s = [].

Lemma fresh_system_ok s : broker_fresh s -> system_ok s.
Proof using. intros [E1 E2]. split; rewrite ?E1, ?E2; try done. apply zero_table_ok. Qed.

Lemma system_run_ok actions s : system_ok s -> system_ok (broker_run sha256 actions s).
Proof using sha_length. revert s. induction actions as [|action actions IH]; intros s Hs; [done|]. by apply IH, system_step_ok. Qed.
End invariant.
