(* ===== verification/AgentRequestProps.v ===== *)
(** * The request broker: properties

    An effect goes back to an approval of exactly it, and happens once, over a restart
    only when the table is carried over it by a snapshot; the terms of a request do not change and its state only moves along
    the transitions; a snapshot brings the requests back, without their grants. *)

From Stdlib Require Import String.
From S2P Require Import Prelude CText Hex Firmware AgentRequest AgentRequestInvariant.

Section broker.
Context (sha256 : list Z -> list Z) (sha_length : forall m, length (sha256 m) = 32%nat).
Implicit Types (r : si_agent_request_status_t) (s : broker_system).

Abbreviation exec := (broker_exec sha256).
Abbreviation run := (broker_run sha256).
Abbreviation table s := (s_requests (broker s)).

(** ** An effect begins once *)

(** The call [action] consumes a request, which it leaves as [r]. *)
Definition begins (action : broker_action) s r : Prop :=
  is_restore action = false /\
  exists i r0, table s !! i = Some r0 /\ grant_consumed r0 = false /\
    table (exec action s).2 !! i = Some r /\ grant_consumed r = true.

(** The record of a consumed request. *)
Definition spent (key run_of : cstring) (rs : list si_agent_request_status_t) : Prop :=
  exists i r, rs !! i = Some r /\ idempotency_key r = key /\ run_id r = run_of /\ grant_consumed r = true.

(** No call retires the run, and every restart restores a snapshot that was taken
    when [n] others were, or later. *)
Fixpoint spares (run_of : cstring) (n : nat) (actions : list broker_action) s : Prop :=
  match actions with
  | [] => True
  | action :: actions =>
      (retired_run action = Some run_of -> (exec action s).1.1 <> ESP_OK) /\
      match action with BrokerRestore _ k => (n <= k)%nat /\ (exec action s).1.1 = ESP_OK | _ => True end /\
      spares run_of n actions (exec action s).2
  end.

Definition remembered (key run_of : cstring) (n : nat) s : Prop :=
  spent key run_of (table s) /\
  forall k snap, (n <= k)%nat -> exported s !! k = Some snap -> spent key run_of (map entry_status (used_entries snap)).

Lemma spent_progress key run_of rs rs' : Forall2 progress rs rs' -> spent key run_of rs -> spent key run_of rs'.
Proof using.
  intros Hp (i & r & Hi & Hk & Hr & Hc). destruct (Forall2_lookup_l _ _ _ _ _ Hp Hi) as (r' & Hi' & P).
  exists i, r'. rewrite (terms_same idempotency_key _ _ (fun _ => eq_refl) (on_terms _ _ P)),
    (terms_same run_id _ _ (fun _ => eq_refl) (on_terms _ _ P)). by split_and!; [..|apply (on_consumed _ _ P)].
Qed.

Lemma spent_insert key run_of rs i r r' :
  rs !! i = Some r -> grant_consumed r = false -> spent key run_of rs -> spent key run_of (<[i := r']> rs).
Proof using.
  intros Hi Hc (j & q & Hj & Hq). exists j, q. split; [|done]. rewrite list_lookup_insert_ne; [done|].
  intros ->. rewrite Hi in Hj. injection Hj as ->. destruct Hq as (_ & _ & Hq). congruence.
Qed.

Lemma spent_clear key run_of other rs : other <> run_of -> spent key run_of rs -> spent key run_of (map (clear_run other) rs).
Proof using.
  intros Hne (i & r & Hi & Hk & Hr & Hc). exists i, r. split_and!; try done.
  rewrite list_lookup_fmap, Hi. cbn. f_equal. unfold clear_run, of_run. case_if; [|done]. split_guards. congruence.
Qed.

Lemma consumed_present r : record_fits r -> grant_consumed r = true -> present r.
Proof using. intros F Hc E. rewrite (fit_consumed _ F), E in Hc. done. Qed.

Lemma spent_table key run_of action w a rs' next' :
  table_moves sha256 action w a rs' next' -> table_ok sha256 (s_requests w) ->
  (retired_run action = Some run_of -> a.1 <> ESP_OK) -> spent key run_of (s_requests w) -> spent key run_of rs'.
Proof using.
  intros Hm Hok Hr Hs. destruct Hm as [Hp _ | d now mid i r Ed Hap _ Ha Hsc Hp Hi _ Hd _ -> _ | input hash env now mid i r Hf Hv -> Hp Hi He Hk reusable r' _ -> _
    | run_r mid Hret Hne Ha Hp Ht -> _]; pose proof (spent_progress _ _ _ _ Hp Hs) as Hmid; pose proof (table_progress_ok _ _ _ Hp Hok) as Hm.
  - done.
  - pose proof (Forall_lookup_1 _ _ _ _ (ok_fits _ _ Hm) Hi) as Hfit.
    apply (spent_insert _ _ _ _ r); [done | | done]. by apply (decision_grants d now r).
  - pose proof (Forall_lookup_1 _ _ _ _ (ok_fits _ _ Hm) Hi) as Hfit.
    apply (spent_insert _ _ _ _ r); try done. by rewrite (fit_consumed _ Hfit), He.
  - apply spent_clear; [|done]. intros ->. by apply Hr.
Qed.

Lemma spent_restored key run_of now es :
  spent key run_of (map entry_status es) -> spent key run_of (restored_table now es).
Proof using.
  intros (i & r & Hi & Hk & Hr & Hc). apply list_lookup_fmap_Some in Hi as (e & -> & Hi).
  exists i, (restore_request now e). destruct (restore_facts now e) as (Ht & _ & Hg & _).
  unfold restored_table. rewrite lookup_app_l by (rewrite length_map; by eapply lookup_lt_Some).
  rewrite list_lookup_fmap, Hi, (terms_same idempotency_key _ _ (fun _ => eq_refl) Ht), (terms_same run_id _ _ (fun _ => eq_refl) Ht), Hg.
  done.
Qed.

Lemma spent_snapshot key run_of now rs next :
  Forall record_fits rs -> (length rs <= SI_AGENT_REQUEST_QUEUE_CAPACITY)%nat -> spent key run_of rs ->
  spent key run_of (map entry_status (used_entries (snapshot_of now rs next))).
Proof using.
  intros Hf Hl (i & r & Hi & Hk & Hr & Hc). destruct (snapshot_used now rs next Hl) as (Eu & _ & Ee).
  unfold used_entries. rewrite Eu, Ee. assert (Hin : r ∈ filter present rs).
  { apply list_elem_of_filter. split; [|by eapply list_elem_of_lookup_2].
    apply consumed_present; [by apply (Forall_lookup_1 _ _ _ _ Hf Hi) | done]. }
  apply list_elem_of_lookup_1 in Hin as [j Hj]. by exists j, r.
Qed.

Lemma remembered_step key run_of n action s :
  system_ok sha256 s -> spares run_of n [action] s -> remembered key run_of n s -> remembered key run_of n (exec action s).2.
Proof using sha_length.
  intros Hok (Hr & Hk & _) [Hs He]. pose proof (system_step_ok sha256 sha_length action s Hok) as Hok'.
  destruct (system_step sha256 action s (so_started _ _ Hok)) as [Hm _].
  destruct Hm as [new Hres Hm Hx Hn | env k -> Hret E1 E2 Hx | env k now snap m -> Hret Hj Hc E1 E2 Hx]; [| by destruct Hk |].
  - pose proof (spent_table _ _ _ _ _ _ _ Hm (so_table _ _ Hok) Hr Hs) as Ht. split; [done|]. rewrite Hx. intros j snap Hj Hsn.
    apply lookup_app_Some in Hsn as [Hsn|[_ Hsn]]; [by eapply He|].
    destruct Hn as [->|[now ->]]; [done|]. apply list_lookup_singleton_Some in Hsn as [_ <-].
    apply spent_snapshot; [apply (ok_fits _ _ (so_table _ _ Hok')) | by rewrite (so_length _ _ Hok') | done].
  - destruct Hk as [Hk _]. split; [rewrite E1; by apply spent_restored, (He k) | by rewrite Hx].
Qed.

Lemma remembered_run key run_of n actions s :
  system_ok sha256 s -> spares run_of n actions s -> remembered key run_of n s -> remembered key run_of n (run actions s).
Proof using sha_length.
  revert s. induction actions as [|action actions IH]; intros s Hok Hs Hr; [done|]. destruct Hs as (H1 & H2 & H3).
  apply IH; [by apply system_step_ok | done | by apply remembered_step].
Qed.

(** A request that a call consumes was there before, under the same key. *)
Lemma begins_on action s r :
  system_ok sha256 s -> begins action s r ->
  exists i r0, table s !! i = Some r0 /\ present r0 /\ grant_consumed r0 = false /\ progress r0 r /\
    table (exec action s).2 !! i = Some r.
Proof using sha_length.
  intros Hok (Hres & i & r0 & Hi & Hc0 & Hi' & Hc). destruct (system_step sha256 action s (so_started _ _ Hok)) as [Hm _].
  exists i, r0. destruct Hm as [new _ Hm _ _ | env k -> _ _ _ _ | env k now snap m -> _ _ _ _ _ _]; [|done..].
  pose proof (so_table _ _ Hok) as Ht.
  assert (Hprog : forall mid q, Forall2 progress (table s) mid -> mid !! i = Some q -> grant_consumed q = true ->
            present r0 /\ progress r0 q).
  { intros mid q Hp Hq Hcq. destruct (Forall2_lookup_l _ _ _ _ _ Hp Hi) as (q' & Hq' & P). rewrite Hq in Hq'. injection Hq' as <-.
    split; [|done]. intros E. apply (progress_empty _ _ P) in E. pose proof (Forall_lookup_1 _ _ _ _ (ok_fits _ _ Ht) Hi) as F.
    apply (on_fits _ _ P) in F. by rewrite (fit_consumed _ F), E in Hcq. }
  assert (Hgoal : present r0 /\ progress r0 r); [|by destruct Hgoal].
  destruct Hm as [Hp _ | d now mid j q Ed Hap _ Ha Hsc Hp Hj _ Hd _ E _ | input hash env now mid j q Hf Hv -> Hp Hj He Hk reusable r' _ E _
    | run_r mid Hret Hne Ha Hp Hts E _].
  - by apply (Hprog (table (exec action s).2)).
  - pose proof (table_progress_ok _ _ _ Hp Ht) as Hmid. rewrite E in Hi'.
    apply list_lookup_insert_Some in Hi' as [(<- & <- & _)|[_ Hi']]; [|by apply (Hprog mid)].
    destruct (decision_grants d now q Ha Hsc Hap Hd (Forall_lookup_1 _ _ _ _ (ok_fits _ _ Hmid) Hj)) as (_ & _ & _ & _ & _ & Hcd & _).
    congruence.
  - pose proof (table_progress_ok _ _ _ Hp Ht) as Hmid. rewrite E in Hi'.
    apply list_lookup_insert_Some in Hi' as [(<- & <- & _)|[_ Hi']]; [|by apply (Hprog mid)].
    destruct (filed_spec sha256 sha_length input now (random32 env) (s_next_sequence (broker s)) reusable Hv) as (scope & Hjd & _).
    { intros g Hg. unfold reusable in Hg. destruct (find_request _ mid) as [k|] eqn:Ef; [|done]. injection Hg as <-.
      destruct (found_at _ _ _ Ef) as (q' & Hq & -> & _). apply (Forall_lookup_1 _ _ _ _ (ok_fits _ _ Hmid) Hq). }
    pose proof (jd_consumed _ _ _ Hjd) as Hcd. change (grant_consumed r' = false) in Hcd. congruence.
  - rewrite E in Hi'. apply list_lookup_fmap_Some in Hi' as (q & -> & Hq).
    destruct (clear_run_cases run_r q) as [Eq|Eq]; rewrite Eq in *; [by apply (Hprog mid) | done].
Qed.

(** C2: an effect happens at most once.  After a request was consumed, no call
    consumes a request with its idempotency key again, whoever files, decides,
    cancels or consumes what, as long as its run is not retired and every restart
    imports a snapshot that was exported after the consumption.  A restart that
    imports none forgets it ([restart_forgets]), and nothing in the firmware calls
    the export and the import yet. *)
Theorem effect_at_most_once before first actions second s0 r1 r2 :
  broker_fresh s0 ->
  let s1 := run before s0 in
  let s2 := (exec first s1).2 in
  begins first s1 r1 -> spares (run_id r1) (length (exported s2)) actions s2 ->
  begins second (run actions s2) r2 -> idempotency_key r2 <> idempotency_key r1.
Proof using sha_length.
  intros Hf s1 s2 H1 Hs H2 E. assert (Hok1 : system_ok sha256 s1) by by apply system_run_ok, fresh_system_ok.
  assert (Hok2 : system_ok sha256 s2) by by apply system_step_ok.
  assert (Hrem : remembered (idempotency_key r1) (run_id r1) (length (exported s2)) s2).
  { destruct (begins_on first s1 r1 Hok1 H1) as (i & r0 & _ & _ & _ & _ & Hi'). split.
    - exists i, r1. split_and!; try done. by destruct H1 as (_ & _ & _ & _ & _ & _ & Hc).
    - intros k snap Hk Hsn. apply lookup_lt_Some in Hsn. lia. }
  pose proof (remembered_run _ _ _ actions s2 Hok2 Hs Hrem) as [(j & q & Hj & Hk & _ & Hc) _].
  pose proof (system_run_ok sha256 sha_length actions s2 Hok2) as Hok3.
  destruct (begins_on second _ r2 Hok3 H2) as (i & r0 & Hi & Hp & Hc0 & P & _).
  pose proof (so_table _ _ Hok3) as [Hfit _ Hkeys]. pose proof (Forall_lookup_1 _ _ _ _ Hfit Hj) as Fq.
  rewrite <- E, (terms_same idempotency_key _ _ (fun _ => eq_refl) (on_terms _ _ P)) in Hk.
  rewrite (Hkeys j i q r0 Hj Hi (consumed_present _ Fq Hc) Hp Hk), Hi in Hj. congruence.
Qed.

(** ** An effect was approved *)

(** Two requests that ask for the same thing: the same act with the same arguments on
    the same device, by the same agent, within the same thread and plan. *)
Definition same_ask r0 r : Prop :=
  kind r = kind r0 /\ risk r = risk r0 /\ lease_required r = lease_required r0 /\ plan_version r = plan_version r0 /\
  device_id r = device_id r0 /\ resource r = resource r0 /\ expected_effect r = expected_effect r0 /\
  verification r = verification r0 /\ normalized_args_hash r = normalized_args_hash r0 /\
  requester r = requester r0 /\ thread_id r = thread_id r0.

(** The approval of [r0] extends to [r]. *)
Definition covers r0 r : Prop :=
  same_ask r0 r /\ scope_valid (grant_scope r0) = true /\ grant_scope r <= grant_scope r0 /\
  match enum_of_Z (grant_scope r0) with
  | Some SI_AGENT_REQUEST_GRANT_STEP => turn_id r = turn_id r0 /\ run_id r = run_id r0 /\ step_id r = step_id r0
  | Some SI_AGENT_REQUEST_GRANT_RUN => turn_id r = turn_id r0 /\ run_id r = run_id r0
  | Some SI_AGENT_REQUEST_GRANT_THREAD => thread_grantable r0 = true
  | _ => terms r = terms r0
  end.

(** A policy granted the request when it was filed: the delegation of the user, or
    the list of what only reads. *)
Definition policy_granted (history : list broker_action) s0 r : Prop :=
  exists before action after input r1,
    history = before ++ action :: after /\ filed action (broker (run before s0)) = Some input /\
    policy_grants input = true /\ (exec action (run before s0)).1 = (ESP_OK, Some r1) /\ terms r1 = terms r /\
    kind r = i_kind input /\ risk r = i_risk input /\ lease_required r = i_lease_required input /\
    resource r = deref (i_resource input).

(** A browser session, or a reviewer where the request allows one, approved [r0];
    it was not who had filed it. *)
Definition approved_by (history : list broker_action) s0 (d : si_agent_request_decision_t) r0 : Prop :=
  exists before action after,
    history = before ++ action :: after /\ decision_of action = Some d /\ d_approved d = true /\
    (exec action (run before s0)).1 = (ESP_OK, Some r0) /\ d_request_id d = Some (request_id r0) /\
    (browser_decides d = true \/ reviewer_decides d r0 = true) /\ actor_equal (d_decider d) (requester r0) = false.

Definition backed (history : list broker_action) s0 r : Prop :=
  allowed (state r) = true ->
  policy_granted history s0 r /\ grant_scope r = once \/ exists d r0, approved_by history s0 d r0 /\ covers r0 r.

Lemma backed_later history more s0 r : backed history s0 r -> backed (history ++ more) s0 r.
Proof using.
  intros H Ha. destruct (H Ha) as [[(before & action & after & input & r1 & -> & Hx) Hsc]|(d & r0 & (before & action & after & -> & Hx) & Hc)].
  - left. split; [|done]. exists before, action, (after ++ more), input, r1. by rewrite <- app_assoc.
  - right. exists d, r0. split; [|done]. exists before, action, (after ++ more). by rewrite <- app_assoc.
Qed.

Lemma backed_later_approval history more s0 d r0 : approved_by history s0 d r0 -> approved_by (history ++ more) s0 d r0.
Proof using.
  intros (before & action & after & -> & Hx). exists before, action, (after ++ more). by rewrite <- app_assoc.
Qed.

Lemma same_ask_terms r0 r r' : terms r' = terms r -> same_ask r0 r -> same_ask r0 r'.
Proof using.
  intros E. unfold same_ask.
  by rewrite (terms_same kind _ _ (fun _ => eq_refl) E), (terms_same risk _ _ (fun _ => eq_refl) E),
    (terms_same lease_required _ _ (fun _ => eq_refl) E), (terms_same plan_version _ _ (fun _ => eq_refl) E),
    (terms_same device_id _ _ (fun _ => eq_refl) E), (terms_same resource _ _ (fun _ => eq_refl) E),
    (terms_same expected_effect _ _ (fun _ => eq_refl) E), (terms_same verification _ _ (fun _ => eq_refl) E),
    (terms_same normalized_args_hash _ _ (fun _ => eq_refl) E), (terms_same requester _ _ (fun _ => eq_refl) E),
    (terms_same thread_id _ _ (fun _ => eq_refl) E).
Qed.

Lemma covers_terms r0 r r' : terms r' = terms r -> grant_scope r' = grant_scope r -> covers r0 r -> covers r0 r'.
Proof using.
  intros E Eg (H1 & Hv & H2 & H3). split; [by eapply same_ask_terms|]. split; [done|]. split; [by rewrite Eg|].
  by rewrite (terms_same turn_id _ _ (fun _ => eq_refl) E), (terms_same run_id _ _ (fun _ => eq_refl) E),
    (terms_same step_id _ _ (fun _ => eq_refl) E), E.
Qed.

(** What a request keeps of its terms and grant, its backing keeps. *)
Lemma backed_terms history s0 r r' :
  terms r' = terms r -> (allowed (state r') = true -> allowed (state r) = true /\ grant_scope r' = grant_scope r) ->
  backed history s0 r -> backed history s0 r'.
Proof using.
  intros E Hg Hb Ha. destruct (Hg Ha) as [Ha' Es]. destruct (Hb Ha') as [[(before & action & after & input & r1 & H1 & H2 & H3 & H4 & H5 & H6) Hsc]|(d & r0 & Hd & Hc)].
  - left. split; [|congruence]. exists before, action, after, input, r1.
    rewrite E, (terms_same kind _ _ (fun _ => eq_refl) E), (terms_same risk _ _ (fun _ => eq_refl) E),
      (terms_same lease_required _ _ (fun _ => eq_refl) E), (terms_same resource _ _ (fun _ => eq_refl) E). done.
  - right. exists d, r0. split; [done|]. by eapply covers_terms.
Qed.

Lemma backed_progress history s0 rs rs' : Forall2 progress rs rs' -> Forall (backed history s0) rs -> Forall (backed history s0) rs'.
Proof using.
  intros Hp Hb. apply Forall_lookup. intros i r Hi. destruct (Forall2_lookup_r _ _ _ _ _ Hp Hi) as (q & Hq & P).
  eapply backed_terms; [apply (on_terms _ _ P) | apply (on_grant _ _ P) | by apply (Forall_lookup_1 _ _ _ _ Hb Hq)].
Qed.

(** Everything in the table and in the snapshots is backed. *)
Definition all_backed (history : list broker_action) s0 s : Prop :=
  Forall (backed history s0) (table s) /\
  Forall (fun snap => Forall (backed history s0) (map entry_status (used_entries snap))) (exported s).

Lemma decided_covers d now r :
  actor_valid (d_decider d) true = true -> scope_valid (d_grant_scope d) = true -> d_approved d = true ->
  decide_request d now r = (ESP_OK, enter_decision d now r) -> record_fits r ->
  let r' := enter_decision d now r in covers r' r' /\
  (browser_decides d = true \/ reviewer_decides d r' = true) /\ actor_equal (d_decider d) (requester r') = false.
Proof using.
  intros Ha Hs Hap Hd Hf r'. destruct (decide_ok d now r Hd) as (H1 & _ & H2 & _).
  destruct (decision_grants d now r Ha Hs Hap Hd Hf) as (E & _ & _ & _ & _ & _ & Hf'). fold r' in E, Hf'.
  split_and!.
  - split; [by unfold same_ask|]. split; [apply (fit_scope _ Hf')|]. split; [lia|]. destruct (enum_of_Z (grant_scope r')) as [[]|] eqn:Es; try done.
    apply enum_of_Z_Some in Es. by apply (fit_thread _ Hf').
  - destruct H2 as [H2|H2]; [by left | right]. revert H2. unfold reviewer_decides.
    by rewrite (terms_same reviewer_allowed _ _ (fun _ => eq_refl) E), (terms_same risk _ _ (fun _ => eq_refl) E).
  - by rewrite (terms_same requester _ _ (fun _ => eq_refl) E).
Qed.

(** A match, as equations. *)
Lemma grant_matches g input hash now :
  grant_scope_matches g input hash now = true ->
  let b := i_binding input in
  (state g = SI_AGENT_REQUEST_COMPLETED /\ grant_scope g <> once /\ kind g = i_kind input /\ risk g = i_risk input /\
   lease_required g = i_lease_required input /\ plan_version g = b_plan_version b) /\
  (device_id g = deref (b_device_id b) /\ resource g = deref (i_resource input) /\
   expected_effect g = deref (i_expected_effect input) /\ verification g = deref (i_verification input) /\
   normalized_args_hash g = hash /\ requester g = i_requester input /\ thread_id g = deref (b_thread_id b)) /\
  match enum_of_Z (grant_scope g) with
  | Some SI_AGENT_REQUEST_GRANT_STEP =>
      turn_id g = deref (b_turn_id b) /\ run_id g = deref (b_run_id b) /\ step_id g = deref (b_step_id b)
  | Some SI_AGENT_REQUEST_GRANT_RUN => turn_id g = deref (b_turn_id b) /\ run_id g = deref (b_run_id b)
  | _ => True
  end.
Proof using.
  unfold grant_scope_matches. cbv zeta. case_if; [done|]. intros Hm. split_guards. to_props.
  repeat match goal with H : Bool.eqb _ _ = true |- _ => apply Bool.eqb_prop in H end.
  assert (Er : requester g = i_requester input).
  { match goal with H : actor_equal _ _ = true |- _ => unfold actor_equal in H end. split_guards. to_props.
    destruct (requester g), (i_requester input). cbn in *. congruence. }
  destruct (enum_of_Z (grant_scope g)) as [[]|]; try done; split_guards; split_and!; done.
Qed.

(** The fields of a filed request, as they are in the input. *)
Lemma filed_fields input hash now random seq r' p :
  v2_input_valid (Some input) = true -> length hash = SI_AGENT_REQUEST_HASH_HEX_LEN ->
  terms r' = terms ((fill_request input hash now random seq) <| parent_grant_request_id := p |>) ->
  let b := i_binding input in
  (kind r' = i_kind input /\ risk r' = i_risk input /\ lease_required r' = i_lease_required input /\
   plan_version r' = b_plan_version b) /\
  (device_id r' = deref (b_device_id b) /\ resource r' = deref (i_resource input) /\
   expected_effect r' = deref (i_expected_effect input) /\ verification r' = deref (i_verification input) /\
   normalized_args_hash r' = hash /\ requester r' = i_requester input /\ thread_id r' = deref (b_thread_id b)) /\
  turn_id r' = deref (b_turn_id b) /\ run_id r' = deref (b_run_id b) /\ step_id r' = deref (b_step_id b).
Proof using.
  intros Hv Hl E b. destruct (input_checks input Hv) as ((A1 & A2 & A3 & A4 & A5 & A6) & (B1 & B2 & B3 & B4 & B5 & B6 & B7) & (C1 & C2 & C3 & C4) & _).
  rewrite (terms_same kind _ _ (fun _ => eq_refl) E), (terms_same risk _ _ (fun _ => eq_refl) E),
    (terms_same lease_required _ _ (fun _ => eq_refl) E), (terms_same plan_version _ _ (fun _ => eq_refl) E),
    (terms_same device_id _ _ (fun _ => eq_refl) E), (terms_same resource _ _ (fun _ => eq_refl) E),
    (terms_same expected_effect _ _ (fun _ => eq_refl) E), (terms_same verification _ _ (fun _ => eq_refl) E),
    (terms_same normalized_args_hash _ _ (fun _ => eq_refl) E), (terms_same requester _ _ (fun _ => eq_refl) E),
    (terms_same thread_id _ _ (fun _ => eq_refl) E), (terms_same turn_id _ _ (fun _ => eq_refl) E),
    (terms_same run_id _ _ (fun _ => eq_refl) E), (terms_same step_id _ _ (fun _ => eq_refl) E).
  unfold fill_request. cbn [kind risk lease_required plan_version device_id resource expected_effect verification
    normalized_args_hash requester thread_id turn_id run_id step_id set].
  rewrite (copied_whole _ _ _ B1), (copied_whole _ _ _ B2), (copied_whole _ _ _ B3), (copied_whole _ _ _ B4),
    (copied_whole _ _ _ B5), (copied_whole _ _ _ C1), (copied_whole _ _ _ C3), (copied_whole _ _ _ C4).
  split_and!; try done. unfold copy_text. change (deref (Some hash)) with hash. apply strtrunc_id. lia.
Qed.

Lemma scope_values v : scope_valid v = true -> v = 0 \/ v = 1 \/ v = 2 \/ v = 3.
Proof using.
  unfold scope_valid. change (enum_val SI_AGENT_REQUEST_GRANT_ONCE) with 0. change (enum_val SI_AGENT_REQUEST_GRANT_THREAD) with 3.
  intros H. split_guards. to_props. lia.
Qed.

(** A grant that is reused extends to who reuses it. *)
Lemma reuse_covers r0 g input hash now random seq r' p :
  v2_input_valid (Some input) = true -> length hash = SI_AGENT_REQUEST_HASH_HEX_LEN ->
  grant_scope_matches g input hash now = true -> scope_valid (grant_scope g) = true -> covers r0 g ->
  terms r' = terms ((fill_request input hash now random seq) <| parent_grant_request_id := p |>) ->
  grant_scope r' = Z.min (grant_scope g) (i_requested_grant_scope input) -> covers r0 r'.
Proof using.
  intros Hv Hl Hm Hgv (Hsame & Hrv & Hle & Hsc) E Eg.
  destruct (grant_matches g input hash now Hm) as ((M0 & M1 & M2 & M3 & M4 & M5) & (N1 & N2 & N3 & N4 & N5 & N6 & N7) & Ms).
  destruct (filed_fields input hash now random seq r' p Hv Hl E) as ((F2 & F3 & F4 & F5) & (G1 & G2 & G3 & G4 & G5 & G6 & G7) & G8 & G9 & G10).
  unfold same_ask in Hsame. destruct Hsame as (S1 & S2 & S3 & S4 & S5 & S6 & S7 & S8 & S9 & S10 & S11).
  split; [unfold same_ask; split_and!; congruence|]. split; [done|]. split; [lia|].
  apply scope_values in Hgv, Hrv. change once with 0 in M1.
  assert (X1 : enum_of_Z 1 = Some SI_AGENT_REQUEST_GRANT_STEP) by done.
  assert (X2 : enum_of_Z 2 = Some SI_AGENT_REQUEST_GRANT_RUN) by done.
  destruct Hrv as [E0|[E0|[E0|E0]]]; rewrite E0 in *; [lia | | | exact Hsc];
    destruct Hgv as [E1|[E1|[E1|E1]]]; rewrite E1 in *; try lia; rewrite ?X1, ?X2 in *;
    destruct_and?; split_and?; congruence.
Qed.

Lemma backed_mono history more s0 rs : Forall (backed history s0) rs -> Forall (backed (history ++ more) s0) rs.
Proof using. intros H. eapply Forall_impl; [exact H|]. intros r. apply backed_later. Qed.

Lemma backed_zero history s0 : backed history s0 zero_request.
Proof using. by intros H. Qed.

(** The table after a call is backed by the calls up to it. *)
Lemma backed_table history action s0 a rs' next' :
  let s := run history s0 in
  table_moves sha256 action (broker s) a rs' next' -> (exec action s).1 = a -> system_ok sha256 s ->
  Forall (backed history s0) (table s) -> Forall (backed (history ++ [action]) s0) rs'.
Proof using sha_length.
  intros s Hm Ea Hok Hb. pose proof (so_table _ _ Hok) as Ht.
  destruct Hm as [Hp _ | d now mid i r Ed Hap _ Ha Hsc Hp Hi Hid Hd Er -> _ | input hash env now mid i r Hf Hv -> Hp Hi He Hk reusable r' Er -> _
    | run_r mid Hret Hne Hret2 Hp Hts -> _];
    pose proof (backed_progress _ _ _ _ Hp Hb) as Hmid; pose proof (backed_mono _ [action] _ _ Hmid) as Hmid';
    pose proof (table_progress_ok _ _ _ Hp Ht) as Hmok.
  - done.
  - apply Forall_insert; [done|]. intros _. right. exists d, (enter_decision d now r).
    pose proof (Forall_lookup_1 _ _ _ _ (ok_fits _ _ Hmok) Hi) as Hfit.
    destruct (decided_covers d now r Ha Hsc Hap Hd Hfit) as (H1 & H2 & H3). split; [|done].
    exists history, action, []. split_and!; try done; [exact (eq_trans Ea Er)|].
    destruct (decision_grants d now r Ha Hsc Hap Hd Hfit) as (E & _). by rewrite (terms_same request_id _ _ (fun _ => eq_refl) E).
  - apply Forall_insert; [done|]. assert (Hre : forall g, reusable = Some g -> record_fits g /\ backed history s0 g /\
      grant_scope_matches g input (hex_text (sha256 (deref (b_normalized_args_json (i_binding input))))) now = true).
    { intros g Hg. unfold reusable in Hg. destruct (find_request _ mid) as [j|] eqn:Ef; [|done]. injection Hg as <-.
      destruct (found_at _ _ _ Ef) as (q & Hq & -> & Hm).
      split_and!; [apply (Forall_lookup_1 _ _ _ _ (ok_fits _ _ Hmok) Hq) | apply (Forall_lookup_1 _ _ _ _ Hmid Hq) | done]. }
    destruct (filed_spec sha256 sha_length input now (random32 env) (s_next_sequence (broker s)) reusable Hv (fun g Hg => proj1 (Hre g Hg)))
      as (scope & Hjd & _ & Hgrant). cbv zeta in Hjd, Hgrant.
    change (judge_request _ _ _ _) with r' in Hjd, Hgrant. intros Hal. specialize (Hgrant Hal).
    destruct (jd_terms _ _ _ Hjd) as (p & Hp' & _).
    pose proof (hash_length sha256 sha_length (deref (b_normalized_args_json (i_binding input)))) as Hl.
    destruct reusable as [g|].
    + destruct (Hre g eq_refl) as (Hfit & Hg & Hm). destruct (grant_matches g input _ now Hm) as ((M0 & M1 & _) & _).
      destruct Hg as [[_ Hg]|(d & r0 & Hd & Hc)]; [by rewrite M0 | done |].
      right. exists d, r0. split; [by apply (backed_later_approval history)|].
      eapply reuse_covers; try done; [by apply (fit_scope _ Hfit) | by rewrite (jd_scope _ _ _ Hjd)].
    + destruct Hgrant as (Hpol & -> & Hst). left. split; [|apply (jd_scope _ _ _ Hjd)].
      destruct (filed_fields input _ now _ _ r' p Hv Hl Hp') as ((F1 & F2 & F3 & _) & (_ & F4 & _) & _).
      exists history, action, [], input, r'. split_and!; try done. exact (eq_trans Ea Er).
  - apply Forall_map. eapply Forall_impl; [exact Hmid'|]. intros r Hr.
    destruct (clear_run_cases run_r r) as [-> | ->]; [done | apply backed_zero].
Qed.

Lemma backed_restored history s0 now es :
  Forall (backed history s0) (map entry_status es) -> Forall (backed history s0) (restored_table now es).
Proof using.
  intros H. apply Forall_app. split; [|apply Forall_replicate, backed_zero]. apply Forall_map. rewrite Forall_map in H.
  eapply Forall_impl; [exact H|]. intros e He. destruct (restore_facts now e) as (Ht & Hg & Hc & Hmove & Hne & Hu & _).
  eapply backed_terms; [exact Ht | | exact He]. intros Ha. split; [|done].
  destruct (restore_cases now e) as [(s & text & r & _ & E & Hs)|(x & E & _)]; rewrite E in Ha; [|done].
  destruct Hs as [[Hs ->]|[Hs ->]]; by destruct (state (entry_status e)).
Qed.

Lemma backed_snapshot history s0 now rs next :
  (length rs <= SI_AGENT_REQUEST_QUEUE_CAPACITY)%nat -> Forall (backed history s0) rs ->
  Forall (backed history s0) (map entry_status (used_entries (snapshot_of now rs next))).
Proof using.
  intros Hl H. destruct (snapshot_used now rs next Hl) as (Eu & _ & Ee). unfold used_entries. rewrite Eu, Ee.
  apply Forall_forall. intros r [_ Hr]%list_elem_of_filter. by apply (proj1 (Forall_forall _ _) H).
Qed.

Lemma backed_step history action s0 :
  let s := run history s0 in
  system_ok sha256 s -> all_backed history s0 s -> all_backed (history ++ [action]) s0 (exec action s).2.
Proof using sha_length.
  intros s Hok [Hb He]. pose proof (system_step_ok sha256 sha_length action s Hok) as Hok'.
  assert (He' : Forall (fun snap => Forall (backed (history ++ [action]) s0) (map entry_status (used_entries snap))) (exported s)).
  { eapply Forall_impl; [exact He|]. intros snap. apply backed_mono. }
  destruct (system_step sha256 action s (so_started _ _ Hok)) as [Hm _].
  destruct Hm as [new Hres Hm Hx Hn | env k -> Hret E1 E2 Hx | env k now snap m -> Hret Hj Hc E1 E2 Hx].
  - pose proof (backed_table history action s0 _ _ _ Hm eq_refl Hok Hb) as Ht. split; [done|]. rewrite Hx. apply Forall_app.
    split; [done|]. destruct Hn as [->|[now ->]]; [done|]. apply Forall_singleton, backed_snapshot; [|done].
    by rewrite (so_length _ _ Hok').
  - split; [rewrite E1; apply Forall_replicate, backed_zero | by rewrite Hx].
  - split; [|by rewrite Hx]. rewrite E1. apply backed_restored.
    by apply (Forall_lookup_1 _ _ _ _ He' Hj).
Qed.

Lemma backed_run history s0 : broker_fresh s0 -> all_backed history s0 (run history s0).
Proof using sha_length.
  intros Hf. induction history as [|action history IH] using rev_ind.
  - destruct Hf as [E1 E2]. split; cbn; rewrite ?E1, ?E2; [apply Forall_replicate, backed_zero | done].
  - rewrite broker_run_app. cbn [broker_run]. apply backed_step; [|done]. by apply system_run_ok, fresh_system_ok.
Qed.

(** C1: every effect goes back to an approval of just that.  Whenever a call consumes
    a request, after any calls, exports and restarts, either a policy had granted it
    when it was filed (the user's delegation up to its risk, or the list of
    resources that only read, at low risk and without the lease), or a browser
    session, or a reviewer where the request allows one and its risk is not high,
    approved a request that asks for the same act with the same arguments on the
    same device, by the same agent and within the thread, and the scope of that
    approval covers the step, run or thread.  Nobody approves his own request. *)
Theorem effect_was_approved history action s0 r :
  broker_fresh s0 ->
  begins action (run history s0) r ->
  policy_granted history s0 r \/ exists d r0, approved_by history s0 d r0 /\ covers r0 r.
Proof using sha_length.
  intros Hf Hb. assert (Hok : system_ok sha256 (run history s0)) by by apply system_run_ok, fresh_system_ok.
  destruct (begins_on action _ r Hok Hb) as (i & r0 & Hi & _ & _ & P & Hi').
  pose proof (system_step_ok sha256 sha_length action _ Hok) as Hok'.
  destruct Hb as (_ & _ & _ & _ & _ & _ & Hc).
  assert (Ha : allowed (state r) = true).
  { unfold allowed. rewrite <- (fit_consumed r), Hc, orb_true_r; [done|].
    by apply (Forall_lookup_1 _ _ _ _ (ok_fits _ _ (so_table _ _ Hok')) Hi'). }
  destruct (backed_run history s0 Hf) as [Hall _].
  destruct (backed_terms history s0 r0 r (on_terms _ _ P) (on_grant _ _ P) (Forall_lookup_1 _ _ _ _ Hall Hi) Ha) as [[H _]|H]; auto.
Qed.

(** ** The terms of a request, and its states *)

(** The request in the slot [i] while its run is not retired and nothing restarts. *)
Definition undisturbed (run_of : cstring) (action : broker_action) s : Prop :=
  is_restore action = false /\ (retired_run action = Some run_of -> (exec action s).1.1 <> ESP_OK).

Fixpoint all_undisturbed (run_of : cstring) (actions : list broker_action) s : Prop :=
  match actions with
  | [] => True
  | action :: actions => undisturbed run_of action s /\ all_undisturbed run_of actions (exec action s).2
  end.

(** How a request goes on in its slot. *)
Definition follows r r' : Prop :=
  terms r' = terms r /\ expires_at_ms r' = expires_at_ms r /\ rtc may_move (state r) (state r') /\
  (grant_consumed r = true -> grant_consumed r' = true).

#[local] Instance follows_trans : Transitive follows.
Proof using.
  intros r1 r2 r3 (A1 & A2 & A3 & A4) (B1 & B2 & B3 & B4).
  split_and!; [congruence | congruence | by etrans | by auto].
Qed.

Lemma progress_follows r r' : progress r r' -> follows r r'.
Proof using. by intros []. Qed.

Lemma undisturbed_step action s i r :
  system_ok sha256 s -> table s !! i = Some r -> present r -> undisturbed (run_id r) action s ->
  exists r', table (exec action s).2 !! i = Some r' /\ follows r r'.
Proof using sha_length.
  intros Hok Hi Hpr [Hres Hret]. destruct (system_step sha256 action s (so_started _ _ Hok)) as [Hm _].
  destruct Hm as [new _ Hm _ _ | env k -> | env k now snap m ->]; [|done..]. pose proof (so_table _ _ Hok) as Ht.
  assert (Hprog : forall mid, Forall2 progress (table s) mid -> exists q, mid !! i = Some q /\ progress r q /\ present q /\ record_fits q).
  { intros mid Hp. destruct (Forall2_lookup_l _ _ _ _ _ Hp Hi) as (q & Hq & P). exists q. split_and!; try done.
    - intros E. by apply (progress_empty _ _ P) in E.
    - by apply (Forall_lookup_1 _ _ _ _ (ok_fits _ _ (table_progress_ok _ _ _ Hp Ht)) Hq). }
  destruct Hm as [Hp _ | d now mid j q0 Ed Hap _ Ha Hsc Hp Hj _ Hd _ E _ | input hash env now mid j q0 Hf Hv _ Hp Hj He _ reusable r' _ E _
    | run_r mid Hrr Hne Hr2 Hp Hts E _]; destruct (Hprog _ Hp) as (q & Hq & P & Hpq & Fq).
  - exists q. split; [done | by apply progress_follows].
  - rewrite E. destruct (decide (j = i)) as [->|Hne].
    + rewrite Hq in Hj. injection Hj as <-. exists (enter_decision d now q). rewrite list_lookup_insert_eq by (by eapply lookup_lt_Some).
      split; [done|]. etrans; [by apply progress_follows|].
      destruct (decision_grants d now q Ha Hsc Hap Hd Fq) as (E1 & E2 & E3 & _ & E4 & E5 & _).
      split_and!; [done | done | rewrite E3; apply rtc_once, (decide_ok d now q Hd) | congruence].
    + exists q. rewrite list_lookup_insert_ne by done. split; [done | by apply progress_follows].
  - rewrite E. exists q. rewrite list_lookup_insert_ne; [split; [done | by apply progress_follows]|].
    intros ->. rewrite Hq in Hj. by injection Hj as <-.
  - rewrite E. exists q. rewrite list_lookup_fmap, Hq. split; [|by apply progress_follows]. cbn. f_equal.
    unfold clear_run. case_if; [|done]. unfold of_run in Heqb. split_guards.
    exfalso. apply Hret; [|done]. rewrite Hrr. f_equal. symmetry.
    rewrite <- (terms_same run_id _ _ (fun _ => eq_refl) (on_terms _ _ P)). done.
Qed.

(** C35: the table runs the state machine of the requests.  While its run is not
    retired and nothing restarts, a request stays in its slot under any calls: what
    was asked for and its expiry never change, its state moves along the allowed
    transitions only, so that an end is final, and what was consumed stays consumed. *)
Theorem requests_run_the_machine before actions s0 i r :
  broker_fresh s0 ->
  let s := run before s0 in
  table s !! i = Some r -> present r -> all_undisturbed (run_id r) actions s ->
  exists r', table (run actions s) !! i = Some r' /\ terms r' = terms r /\ expires_at_ms r' = expires_at_ms r /\
    rtc may_move (state r) (state r') /\ (state_terminal (state r) = true -> state r' = state r) /\
    (grant_consumed r = true -> grant_consumed r' = true).
Proof using sha_length.
  intros Hf s Hi Hp Hu. assert (Hok : system_ok sha256 s) by by apply system_run_ok, fresh_system_ok. clear Hf.
  assert (Hgo : exists r', table (run actions s) !! i = Some r' /\ follows r r').
  { revert Hi Hp Hu Hok. generalize s as s1. generalize r as q. induction actions as [|action actions IH]; intros q s1 Hi Hp Hu Hok.
    { exists q. split; [done|]. by split_and!. }
    destruct Hu as [Hu1 Hu2]. destruct (undisturbed_step action s1 i q Hok Hi Hp Hu1) as (q1 & Hq1 & F1).
    pose proof (proj1 F1) as Et. destruct (IH q1 (exec action s1).2) as (q2 & Hq2 & F2); [done| | |by apply system_step_ok|].
    - intros E. destruct F1 as (_ & _ & Hm & _). rewrite E in Hm. apply rtc_inv_r in Hm as [Hm|(z & _ & Hz)]; [by apply Hp|].
      unfold may_move in Hz. by destruct z.
    - by rewrite (terms_same run_id _ _ (fun _ => eq_refl) Et).
    - exists q2. split; [done | by etrans]. }
  destruct Hgo as (r' & Hr' & E1 & E2 & E3 & E4). exists r'. split_and!; try done.
  intros Hter. apply rtc_inv in E3 as [->|(z & Hz & _)]; [done|]. unfold may_move in Hz. by destruct (state r).
Qed.

(** ** A snapshot brings the requests back *)

(** The numbers of the requests, which make their ids. *)
Record numbered (rs : list si_agent_request_status_t) (next : Z) : Prop := mk_numbered {
  nb_range : Forall (fun r => present r -> 1 <= sequence r < next) rs;
  nb_distinct : distinct sequence rs;
  nb_ids : Forall (fun r => present r -> exists x, request_id r = new_request_id x (sequence r)) rs
}.

(** After [n] calls at most [n] numbers were given out. *)
Definition system_numbered (n : nat) s : Prop :=
  numbered (table s) (s_next_sequence (broker s)) /\ 1 <= s_next_sequence (broker s) <= 1 + Z.of_nat n /\
  Forall (fun snap => exists now rs next, snap = snapshot_of now rs next /\ table_ok sha256 rs /\
            length rs = SI_AGENT_REQUEST_QUEUE_CAPACITY /\ numbered rs next /\ 1 <= next <= 1 + Z.of_nat n) (exported s).

Lemma request_id_inj x y a b :
  1 <= a < 2 ^ 32 -> 1 <= b < 2 ^ 32 -> new_request_id x a = new_request_id y b -> a = b.
Proof using.
  intros Ha Hb. unfold new_request_id.
  rewrite !strtrunc_id by (rewrite !length_app, !hex32_length; cbn; lia). intros E.
  apply app_inv_head in E. apply app_inj_1 in E as [_ E]; [|by rewrite !hex32_length]. apply app_inv_head in E.
  apply hex32_inj in E; [|apply u32_range..]. by rewrite !u32_small in E by (unfold is_u32; lia).
Qed.

Lemma numbered_progress rs rs' next : Forall2 progress rs rs' -> numbered rs next -> numbered rs' next.
Proof using.
  intros Hp [H1 H2 H3]. split; [|by eapply distinct_progress, H2; [intros ? ?; by apply terms_same|]|];
    apply Forall_lookup; intros i r Hi Hr; destruct (Forall2_lookup_r _ _ _ _ _ Hp Hi) as (q & Hq & P);
    assert (Hq' : present q) by (intros E; by apply Hr, (progress_empty _ _ P)).
  - rewrite (terms_same sequence _ _ (fun _ => eq_refl) (on_terms _ _ P)). by apply (Forall_lookup_1 _ _ _ _ H1 Hq).
  - rewrite (terms_same sequence _ _ (fun _ => eq_refl) (on_terms _ _ P)), (terms_same request_id _ _ (fun _ => eq_refl) (on_terms _ _ P)).
    by apply (Forall_lookup_1 _ _ _ _ H3 Hq).
Qed.

Lemma numbered_sub rs next (f : si_agent_request_status_t -> si_agent_request_status_t) :
  (forall r, present (f r) -> present r /\ terms (f r) = terms r) -> numbered rs next -> numbered (map f rs) next.
Proof using.
  intros Hf [H1 H2 H3]. split.
  - apply Forall_map. eapply Forall_impl; [exact H1|]. intros r Hr Hp. destruct (Hf r Hp) as [Hp' Et].
    rewrite (terms_same sequence _ _ (fun _ => eq_refl) Et). by apply Hr.
  - intros i j r r' Hi Hj Hr Hr' E. apply list_lookup_fmap_Some in Hi as (q & -> & Hq). apply list_lookup_fmap_Some in Hj as (q' & -> & Hq').
    destruct (Hf q Hr) as [Hp Et], (Hf q' Hr') as [Hp' Et'].
    rewrite (terms_same sequence _ _ (fun _ => eq_refl) Et), (terms_same sequence _ _ (fun _ => eq_refl) Et') in E. by apply (H2 i j q q').
  - apply Forall_map. eapply Forall_impl; [exact H3|]. intros r Hr Hp. destruct (Hf r Hp) as [Hp' Et].
    rewrite (terms_same sequence _ _ (fun _ => eq_refl) Et), (terms_same request_id _ _ (fun _ => eq_refl) Et). by apply Hr.
Qed.

(** A request in the place of an old one with its number, or with a new number. *)
Lemma numbered_insert rs next i r r' next' :
  rs !! i = Some r -> numbered rs next -> next <= next' -> 1 <= sequence r' < next' ->
  (exists x, request_id r' = new_request_id x (sequence r')) ->
  (present r /\ sequence r' = sequence r \/ next <= sequence r') -> numbered (<[i := r']> rs) next'.
Proof using.
  intros Hi [H1 H2 H3] Hle Hr Hid Hs. split.
  - apply Forall_insert; [|done]. eapply Forall_impl; [exact H1|]. cbv beta. intros q Hq Hp. specialize (Hq Hp). lia.
  - apply distinct_insert; [done|]. intros j q Hq Hp E. destruct Hs as [[Hp' Hs]|Hs].
    + apply (H2 j i q r); [done..|congruence].
    + pose proof (Forall_lookup_1 _ _ _ _ H1 Hq Hp) as Hx. cbv beta in Hx. lia.
  - by apply Forall_insert.
Qed.

Lemma imported_number env snap m next :
  next_sequence snap = next -> 1 <= next -> Forall (fun r => present r -> 1 <= sequence r < next) (map entry_status (used_entries snap)) ->
  Forall present (map entry_status (used_entries snap)) ->
  scan_snapshot sha256 env [] (map entry_status (used_entries snap)) 0 = Some m -> imported_sequence snap m = next.
Proof using.
  intros E Hn H Hp Hs. assert (Hm : m < next).
  { assert (Hgo : forall rest prev k, Forall (fun r => present r -> 1 <= sequence r < next) rest -> Forall present rest ->
      k < next -> scan_snapshot sha256 env prev rest k = Some m -> m < next).
    { induction rest as [|r rest IH]; intros prev k Hr Hpr Hk; cbn [scan_snapshot]; [intros Ek; by injection Ek as <-|].
      case_if; [done|]. case_if; [done|]. inversion_clear Hr as [|? ? Hx Hr']. inversion_clear Hpr as [|? ? Hx' Hp'].
      apply IH; [done..|]. specialize (Hx Hx'). case_if; lia. }
    exact (Hgo _ _ 0 H Hp ltac:(lia) Hs). }
  unfold imported_sequence. rewrite E. cbv zeta.
  assert (E1 : (next <=? m) = false) by (apply Z.leb_gt; lia). rewrite E1.
  by assert ((0 <? next) = true) as -> by (apply Z.ltb_lt; lia).
Qed.

Lemma numbered_used now rs next :
  (length rs <= SI_AGENT_REQUEST_QUEUE_CAPACITY)%nat ->
  map entry_status (used_entries (snapshot_of now rs next)) = filter present rs.
Proof using. intros Hl. destruct (snapshot_used now rs next Hl) as (Eu & _ & Ee). unfold used_entries. by rewrite Eu, Ee. Qed.

Lemma numbered_filter rs next : numbered rs next -> numbered (filter present rs) next.
Proof using.
  intros [H1 H2 H3]. split; [| by apply distinct_filter |]; apply Forall_forall; intros r [Hr Hin]%list_elem_of_filter;
    [by apply (proj1 (Forall_forall _ _) H1) | by apply (proj1 (Forall_forall _ _) H3)].
Qed.

Lemma zeros_absent (P : si_agent_request_status_t -> Prop) n : Forall (fun r => present r -> P r) (replicate n zero_request).
Proof using. apply Forall_replicate. intros H. by destruct (H eq_refl). Qed.

Lemma numbered_restored now es next : numbered (map entry_status es) next -> numbered (restored_table now es) next.
Proof using.
  intros Hn. assert (H : numbered (map (restore_request now) es) next).
  { destruct Hn as [H1 H2 H3]. rewrite Forall_map in H1, H3. split.
    - apply Forall_map. eapply Forall_impl; [exact H1|]. intros e He Hp. destruct (restore_facts now e) as (Et & _).
      rewrite (terms_same sequence _ _ (fun _ => eq_refl) Et). by apply He, (restore_exists now e).
    - intros i j r r' Hi Hj Hr Hr' E. apply list_lookup_fmap_Some in Hi as (e & -> & Hi). apply list_lookup_fmap_Some in Hj as (e' & -> & Hj).
      destruct (restore_facts now e) as (Et & _), (restore_facts now e') as (Et' & _).
      rewrite (terms_same sequence _ _ (fun _ => eq_refl) Et), (terms_same sequence _ _ (fun _ => eq_refl) Et') in E.
      apply (H2 i j (entry_status e) (entry_status e')); try done;
        [by rewrite list_lookup_fmap, Hi | by rewrite list_lookup_fmap, Hj | exact (proj1 (restore_exists now e) Hr) |
         exact (proj1 (restore_exists now e') Hr')].
    - apply Forall_map. eapply Forall_impl; [exact H3|]. intros e He Hp. destruct (restore_facts now e) as (Et & _).
      rewrite (terms_same sequence _ _ (fun _ => eq_refl) Et), (terms_same request_id _ _ (fun _ => eq_refl) Et).
      by apply He, (restore_exists now e). }
  destruct H as [H1 H2 H3]. split; [apply Forall_app | by apply distinct_pad | apply Forall_app]; (split; [done|]);
    apply zeros_absent.
Qed.

Lemma numbered_table n action w a rs' next' :
  table_moves sha256 action w a rs' next' -> table_ok sha256 (s_requests w) -> numbered (s_requests w) (s_next_sequence w) ->
  1 <= s_next_sequence w <= 1 + Z.of_nat n -> Z.of_nat n + 2 < 2 ^ 32 ->
  numbered rs' next' /\ 1 <= next' <= 2 + Z.of_nat n.
Proof using sha_length.
  intros Hm Hok Hnum Hr Hn. destruct Hm as [Hp -> | d now mid i r Ed Hap _ Ha Hsc Hp Hi _ Hd _ -> -> | input hash env now mid i r Hf Hv -> Hp Hi He Hk reusable r' _ -> ->
    | run_r mid Hret Hne Ha Hp Ht -> ->]; pose proof (numbered_progress _ _ _ Hp Hnum) as Hmid; pose proof (table_progress_ok _ _ _ Hp Hok) as Hmok.
  - split; [done | lia].
  - split; [|lia]. pose proof (Forall_lookup_1 _ _ _ _ (ok_fits _ _ Hmok) Hi) as Hfit.
    destruct (decision_grants d now r Ha Hsc Hap Hd Hfit) as (Et & _). destruct (decide_ok d now r Hd) as (_ & _ & _ & Hpr).
    apply (numbered_insert mid (s_next_sequence w) i r); try done;
      rewrite ?(terms_same sequence _ _ (fun _ => eq_refl) Et), ?(terms_same request_id _ _ (fun _ => eq_refl) Et).
    + by apply (Forall_lookup_1 _ _ _ _ (nb_range _ _ Hmid) Hi).
    + by apply (Forall_lookup_1 _ _ _ _ (nb_ids _ _ Hmid) Hi).
    + by left.
  - assert (Eu : u64 (s_next_sequence w + 1) = s_next_sequence w + 1) by (apply Z.mod_small; lia). rewrite Eu. split; [|lia].
    destruct (filed_spec sha256 sha_length input now (random32 env) (s_next_sequence w) reusable Hv) as (scope & Hjd & _).
    { intros g Hg. unfold reusable in Hg. destruct (find_request _ mid) as [j|] eqn:Ef; [|done]. injection Hg as <-.
      destruct (found_at _ _ _ Ef) as (q & Hq & -> & _). apply (Forall_lookup_1 _ _ _ _ (ok_fits _ _ Hmok) Hq). }
    destruct (jd_terms _ _ _ Hjd) as (p & Hp' & _).
    assert (Es : sequence r' = s_next_sequence w) by exact (terms_same sequence _ _ (fun _ => eq_refl) Hp').
    assert (Ei : request_id r' = new_request_id (random32 env) (s_next_sequence w)) by exact (terms_same request_id _ _ (fun _ => eq_refl) Hp').
    apply (numbered_insert mid (s_next_sequence w) i r); [done | done | lia | rewrite Es; lia | | right; rewrite Es; lia].
    exists (random32 env). by rewrite Es.
  - split; [|lia]. apply numbered_sub; [|done]. intros r Hpr. destruct (clear_run_cases run_r r) as [E|E]; rewrite E in *; done.
Qed.

Lemma system_numbered_step n action s :
  system_ok sha256 s -> system_numbered n s -> Z.of_nat n + 2 < 2 ^ 32 -> system_numbered (S n) (exec action s).2.
Proof using sha_length.
  intros Hok (Hnum & Hr & He) Hn. pose proof (system_step_ok sha256 sha_length action s Hok) as Hok'.
  assert (He' : Forall (fun snap => exists now rs next, snap = snapshot_of now rs next /\ table_ok sha256 rs /\
            length rs = SI_AGENT_REQUEST_QUEUE_CAPACITY /\ numbered rs next /\ 1 <= next <= 1 + Z.of_nat (S n)) (exported s)).
  { eapply Forall_impl; [exact He|]. intros snap (now & rs & next & H1 & H2 & H3 & H4 & H5). exists now, rs, next. split_and!; try done; lia. }
  destruct (system_step sha256 action s (so_started _ _ Hok)) as [Hm _].
  destruct Hm as [new Hres Hm Hx Hnew | env k -> Hret E1 E2 Hx | env k now snap m -> Hret Hj Hc E1 E2 Hx].
  - destruct (numbered_table n _ _ _ _ _ Hm (so_table _ _ Hok) Hnum Hr Hn) as [H1 H2]. split_and!; [done | lia | lia |].
    rewrite Hx. apply Forall_app. split; [done|]. destruct Hnew as [->|[now ->]]; [done|]. apply Forall_singleton.
    eexists _, _, _. split_and!; [done | apply (so_table _ _ Hok') | apply (so_length _ _ Hok') | done | lia | lia].
  - split; [|split]; [rewrite E1, E2 | rewrite E2; lia | by rewrite Hx].
    split; [apply zeros_absent | exact (distinct_pad sequence [] _ (fun i j _ _ H => ltac:(done))) | apply zeros_absent].
  - destruct (proj1 (Forall_forall _ _) He snap (list_elem_of_lookup_2 _ _ _ Hj)) as (t & rs & next & -> & Ht & Hl & Hnr & Hnx).
    pose proof (numbered_used t rs next ltac:(lia)) as Eu. pose proof (numbered_filter _ _ Hnr) as Hnf.
    assert (Ei : imported_sequence (snapshot_of t rs next) m = next).
    { apply (imported_number env _ m next); [done | lia | rewrite Eu; apply Hnf | rewrite Eu | done].
      apply Forall_forall. by intros r [Hp _]%list_elem_of_filter. }
    split; [|split]; [| rewrite E2, Ei; lia | by rewrite Hx]. rewrite E1, E2, Ei. apply numbered_restored. by rewrite Eu.
Qed.

Lemma system_numbered_run actions n s :
  system_ok sha256 s -> system_numbered n s -> Z.of_nat (n + length actions) + 1 < 2 ^ 32 ->
  system_numbered (n + length actions) (run actions s).
Proof using sha_length.
  revert n s. induction actions as [|action actions IH]; intros n s Hok Hn Hl; cbn [length broker_run] in *.
  - by rewrite Nat.add_0_r.
  - rewrite <- plus_n_Sm in *. apply (IH (S n)); [by apply system_step_ok | apply system_numbered_step; [done..|lia] | lia].
Qed.

(** What the import asks of a request holds of every request in the table. *)
Lemma fixed_length text size required :
  (length text < size)%nat -> (required = true -> text <> []) -> fixed_value_valid text size required = true.
Proof using.
  intros Hl Hr. unfold fixed_value_valid. assert (E : (length text <? size)%nat = true) by by apply Nat.ltb_lt. rewrite E.
  cbn [negb]. destruct required; [|done]. specialize (Hr eq_refl). by destruct text.
Qed.

Lemma status_valid env r :
  sha_ok env = true -> present r -> record_fits r -> terms_fit sha256 r = true -> 1 <= sequence r ->
  snapshot_status_valid sha256 env r = true.
Proof using.
  intros Hsha Hp [F1 F2 F3 F4 F5 F6 F7 F8 F9 F10] Ht Hq. unfold terms_fit in Ht. cbv zeta in Ht. rewrite !andb_true_iff in Ht.
  destruct_and! Ht. unfold snapshot_status_valid. cbv zeta.
  assert (Es : state_valid (state r) = true) by (unfold present in Hp; by destruct (state r)).
  assert (Eq : (sequence r =? 0) = false) by (apply Z.eqb_neq; lia).
  assert (E1 : negb (principal (reviewer r) =? enum_val SI_AGENT_REQUEST_PRINCIPAL_UNSPECIFIED) &&
     (negb (principal (reviewer r) =? enum_val SI_AGENT_REQUEST_PRINCIPAL_REVIEWER) || negb (actor_valid (reviewer r) true)) = false).
  { unfold actor_fits, is_reviewer in F4. destruct (_ =? enum_val SI_AGENT_REQUEST_PRINCIPAL_UNSPECIFIED); [done|]. cbn [orb] in F4.
    apply andb_prop in F4 as [-> ->]. done. }
  assert (E2 : negb (principal (decider r) =? enum_val SI_AGENT_REQUEST_PRINCIPAL_UNSPECIFIED) && negb (actor_valid (decider r) true) = false).
  { unfold actor_fits, any_principal in F5. destruct (_ =? enum_val SI_AGENT_REQUEST_PRINCIPAL_UNSPECIFIED); [done|]. cbn [orb andb] in F5. by rewrite F5. }
  assert (E3 : (grant_scope r =? enum_val SI_AGENT_REQUEST_GRANT_THREAD) && (negb (kind r =? enum_val SI_AGENT_REQUEST_KIND_CONTEXT) ||
     negb (risk r =? enum_val SI_AGENT_REQUEST_RISK_LOW) || lease_required r) = false).
  { destruct (Z.eqb_spec (grant_scope r) (enum_val SI_AGENT_REQUEST_GRANT_THREAD)) as [E|]; [|done]. specialize (F3 E).
    unfold thread_grantable in F3. rewrite !andb_true_iff in F3. destruct F3 as [[-> ->] F3]. by apply negb_true_iff in F3 as ->. }
  rewrite (fixed_length (decision_source r)), (fixed_length (decided_by_session r)), (fixed_length (response r)),
    (fixed_length (verification_evidence r)), (fixed_length (request_error r)) by (done || lia).
  rewrite Es, Eq, E1, E2, E3, F1, F2, eqb_reflx. unfold sha256_hex. rewrite Hsha.
  match goal with H : negb (plan_version r =? 0) = true |- _ => apply negb_true_iff in H; rewrite H end.
  repeat match goal with H : ?b = true |- _ => rewrite H; clear H end. cbn [negb orb].
  repeat match goal with H : streq _ _ = true |- _ => rewrite H end. done.
Qed.

Lemma scan_ok env rest prev k :
  sha_ok env = true -> Forall present (prev ++ rest) ->
  Forall (fun r => snapshot_status_valid sha256 env r = true) rest ->
  distinct request_id (prev ++ rest) -> distinct idempotency_key (prev ++ rest) -> distinct sequence (prev ++ rest) ->
  exists m, scan_snapshot sha256 env prev rest k = Some m.
Proof using.
  intros Hsha. revert prev k. induction rest as [|r rest IH]; intros prev k Hp Hv Hi Hk Hs; cbn [scan_snapshot]; [by eexists|].
  inversion_clear Hv as [|? ? Hv1 Hv2]. rewrite Hv1. cbn [negb].
  destruct (existsb _ prev) eqn:Ex; [|by apply IH; rewrite <- ?app_assoc].
  apply existsb_exists in Ex as (q & Hq & E). apply list_elem_of_In, list_elem_of_lookup in Hq as [j Hq].
  assert (Hr : (prev ++ r :: rest) !! length prev = Some r) by by apply list_lookup_middle.
  assert (Hj : (prev ++ r :: rest) !! j = Some q) by by apply lookup_app_l_Some.
  pose proof (Forall_lookup_1 _ _ _ _ Hp Hr) as Pr. pose proof (Forall_lookup_1 _ _ _ _ Hp Hj) as Pq.
  apply lookup_lt_Some in Hq. exfalso. rewrite !orb_true_iff in E. destruct E as [[E|E]|E].
  - apply streq_true in E. rewrite (Hi _ _ _ _ Hr Hj Pr Pq E) in Hq. lia.
  - apply streq_true in E. rewrite (Hk _ _ _ _ Hr Hj Pr Pq E) in Hq. lia.
  - apply Z.eqb_eq in E. rewrite (Hs _ _ _ _ Hr Hj Pr Pq E) in Hq. lia.
Qed.

(** The ids differ, as the numbers do. *)
Lemma numbered_names rs next : numbered rs next -> next <= 2 ^ 32 -> distinct request_id rs.
Proof using.
  intros [H1 H2 H3] Hn i j r r' Hi Hj Hr Hr' E. apply (H2 i j r r' Hi Hj Hr Hr').
  destruct (Forall_lookup_1 _ _ _ _ H3 Hi Hr) as [x Ex], (Forall_lookup_1 _ _ _ _ H3 Hj Hr') as [y Ey].
  pose proof (Forall_lookup_1 _ _ _ _ H1 Hi Hr) as B. pose proof (Forall_lookup_1 _ _ _ _ H1 Hj Hr') as B'. cbv beta in B, B'.
  rewrite Ex, Ey in E. apply (request_id_inj x y); [lia | lia | done].
Qed.

Lemma snapshot_scans env rs next :
  sha_ok env = true -> table_ok sha256 rs -> numbered rs next -> next <= 2 ^ 32 ->
  exists m, scan_snapshot sha256 env [] (filter present rs) 0 = Some m.
Proof using.
  intros Hsha [H1 H2 H3] Hn Hm. pose proof (numbered_names _ _ Hn Hm) as Hi. destruct Hn as [H4 H5 H6].
  apply scan_ok; cbn [app]; [done | | | by apply distinct_filter..]; apply Forall_forall; intros r [Hp Hr]%list_elem_of_filter; [done|].
  apply status_valid; [done | done | by apply (proj1 (Forall_forall _ _) H1) | by apply (proj1 (Forall_forall _ _) H2) |].
  pose proof (proj1 (Forall_forall _ _) H4 r Hr Hp) as B. cbv beta in B. lia.
Qed.

(** What is still open in an exported table has time left. *)
Definition timely (now : Z) r : Prop := state_expires (state r) = true -> deadline_reached now (expires_at_ms r) = false.

Lemma expired_timely now r : timely now (expire_request now r).
Proof using.
  unfold timely, expire_request. destruct (state_expires (state r)) eqn:Es; cbn [andb]; [|by intros H; rewrite H in Es].
  case_if; [|done]. unfold try_state, set_state_locked. by destruct (state r).
Qed.

Lemma export_result env w :
  broker_started w ->
  wp (si_agent_request_broker_export_snapshot env true) (fun a w' => a.1 = ESP_OK ->
    exists now, a.2 = Some (snapshot_of now (s_requests w') (s_next_sequence w')) /\ Forall (timely now) (s_requests w')) w.
Proof using.
  intros Hs. unfold si_agent_request_broker_export_snapshot. cbn [negb]. apply wp_call; [done | by intros |].
  intros w' Hf E. apply wp_bind, wp_now. intros now. apply wp_bind, wp_modify, wp_bind, wp_gets, wp_bind, wp_gets, wp_ret.
  intros _. exists now. split; [done|]. cbn. apply Forall_map, Forall_true, expired_timely.
Qed.

Lemma import_back env snap m :
  can_create env = true -> in_time env = true -> schema_version snap = SI_AGENT_REQUEST_SNAPSHOT_SCHEMA_VERSION ->
  snapshot_count snap <= Z.of_nat SI_AGENT_REQUEST_QUEUE_CAPACITY ->
  scan_snapshot sha256 env [] (map entry_status (used_entries snap)) 0 = Some m ->
  (si_agent_request_broker_import_snapshot sha256 env (Some snap) broker_power_on).1 = ESP_OK.
Proof using.
  intros Hc Ht Hv Hn Hs. unfold si_agent_request_broker_import_snapshot. rewrite Hv, Z.eqb_refl. cbn [negb orb].
  assert (E : (Z.of_nat SI_AGENT_REQUEST_QUEUE_CAPACITY <? snapshot_count snap) = false) by (apply Z.ltb_ge; lia). rewrite E.
  fold (used_entries snap). rewrite Hs. unfold broker_call, si_agent_request_broker_start, broker_lock. cbn. rewrite Hc. cbn.
  by rewrite Ht.
Qed.

(** The state after a restart: no grant survives, and of what had begun nobody knows
    how it ended. *)
Definition rebooted (state : si_agent_request_state_t) : si_agent_request_state_t :=
  if under_way state then SI_AGENT_REQUEST_UNKNOWN
  else if bool_decide (state = SI_AGENT_REQUEST_GRANTED) then SI_AGENT_REQUEST_EXPIRED else state.

(** The request [r], exported at [now], comes back at [now'] as [r']: what is still
    open has the same time left, and nothing else changes without its state. *)
Definition comes_back (now now' : Z) r r' : Prop :=
  terms r' = terms r /\ grant_consumed r' = grant_consumed r /\ grant_scope r' = grant_scope r /\
  state r' = rebooted (state r) /\
  (state r' = state r -> r' = r <| expires_at_ms := expires_at_ms r' |>) /\
  (state_expires (state r') = true ->
     0 < remaining_ttl now (expires_at_ms r) /\ remaining_ttl now' (expires_at_ms r') = remaining_ttl now (expires_at_ms r)).

Lemma ttl_carried now now' x :
  deadline_reached now x = false ->
  0 < remaining_ttl now x /\ remaining_ttl now' (u32 (now' + remaining_ttl now x)) = remaining_ttl now x.
Proof using.
  intros Hd. unfold remaining_ttl. rewrite Hd. unfold deadline_reached, u32 in *. apply Z.ltb_ge in Hd.
  rewrite Zminus_mod_idemp_r. replace (now' - (now' + (x - now) `mod` 2 ^ 32)) with (- ((x - now) `mod` 2 ^ 32)) by ring.
  assert (E : (x - now) `mod` 2 ^ 32 = 2 ^ 32 - (now - x) `mod` 2 ^ 32).
  { replace (x - now) with (- (now - x)) by ring. rewrite Z.mod_opp_l_nz by lia. done. }
  pose proof (Z.mod_pos_bound (now - x) (2 ^ 32) ltac:(lia)) as B. rewrite E. split; [lia|].
  rewrite Z.mod_opp_l_nz; [| lia | rewrite Z.mod_small; lia]. rewrite (Z.mod_small (2 ^ 32 - _)) by lia.
  assert (E2 : (2 ^ 32 - (2 ^ 32 - (now - x) `mod` 2 ^ 32) <? 2 ^ 31) = false) by (apply Z.ltb_ge; lia). rewrite E2.
  rewrite Zminus_mod_idemp_l. replace (now' + (2 ^ 32 - (now - x) `mod` 2 ^ 32) - now') with (2 ^ 32 - (now - x) `mod` 2 ^ 32) by ring.
  by rewrite Z.mod_small by lia.
Qed.

Lemma request_comes_back now now' r : timely now r -> comes_back now now' r (restore_request now' (entry_of now r)).
Proof using.
  intros Ht. destruct (restore_facts now' (entry_of now r)) as (E1 & E2 & E3 & _). cbn [entry_of entry_status] in *.
  unfold comes_back. split; [done|]. split; [done|]. split; [done|]. clear E1 E2 E3.
  unfold restore_request, rebooted. cbn [entry_of entry_status remaining_ttl_ms]. unfold timely in Ht.
  destruct (under_way (state r)) eqn:Eu. { cbn. split_and!; try done. by destruct (state r). }
  case_if; decided. { cbn. split_and!; try done. by rewrite Heqb. }
  destruct (state_expires (state r)) eqn:Ee; [|cbn; by rewrite Ee].
  pose proof (ttl_carried now now' _ (Ht eq_refl)) as [Hp Hc].
  destruct (Z.eqb_spec (remaining_ttl now (expires_at_ms r)) 0) as [E|_]; [lia|]. by cbn.
Qed.

Lemma zeros_filtered n : filter present (replicate n zero_request) = [].
Proof using. induction n as [|n IH]; [done|]. cbn [replicate]. by rewrite filter_cons_False by (intros H; by apply H). Qed.

Lemma all_come_back now now' rs :
  Forall (timely now) rs ->
  Forall2 (comes_back now now') (filter present rs)
    (filter present (restored_table now' (map (entry_of now) (filter present rs)))).
Proof using.
  intros Ht. unfold restored_table. rewrite filter_app, zeros_filtered, app_nil_r, map_map.
  induction rs as [|r rs IH]; [constructor|]. inversion_clear Ht as [|? ? H1 H2]. destruct (decide (present r)) as [Hp|Hp].
  - rewrite (filter_cons_True present r rs Hp). cbn [map]. rewrite filter_cons_True.
    + constructor; [by apply request_comes_back | by apply IH].
    + exact (proj2 (restore_exists now' (entry_of now r)) Hp).
  - rewrite filter_cons_False by done. by apply IH.
Qed.

Lemma fresh_numbered s : broker_fresh s -> system_numbered 0 s.
Proof using.
  intros [E1 E2]. unfold system_numbered. rewrite E1, E2. split_and!; [| cbn; lia | cbn; lia | done].
  split; [apply zeros_absent | exact (distinct_pad sequence [] _ (fun i j _ _ H => ltac:(done))) | apply zeros_absent].
Qed.

(** C10: an export and a restart bring the requests back.  However the broker was used
    before, a snapshot that was exported is accepted at the next restart: every
    request is there again with its terms, and no other; what waits for a decision
    has as long left as it had, but a grant has expired, what had begun is of unknown
    outcome and stays consumed, and what had ended is as it was; the next request gets
    the number it would have got. *)
Theorem snapshot_round_trip before env env' s0 :
  broker_fresh s0 -> Z.of_nat (length before) + 2 < 2 ^ 32 ->
  let s := run before s0 in
  let s1 := (exec (BrokerExport env) s).2 in
  let s2 := exec (BrokerRestore env' (length (exported s))) s1 in
  (exec (BrokerExport env) s).1.1 = ESP_OK ->
  can_create env' = true -> in_time env' = true -> sha_ok env' = true ->
  s2.1.1 = ESP_OK /\ s_next_sequence (broker s2.2) = s_next_sequence (broker s1) /\
  exists now now', Forall2 (comes_back now now') (filter present (table s1)) (filter present (table s2.2)).
Proof using sha_length.
  intros Hf Hn s s1 s2 Hx Hc Ht Hsha. assert (Hok : system_ok sha256 s) by by apply system_run_ok, fresh_system_ok.
  assert (Hok1 : system_ok sha256 s1) by by apply system_step_ok.
  assert (Hnum : system_numbered (S (length before)) s1).
  { apply system_numbered_step; [done | | lia].
    apply (system_numbered_run before 0 s0); [by apply fresh_system_ok | by apply fresh_numbered | lia]. }
  assert (Hsnap : exists now, exported s1 !! length (exported s) = Some (snapshot_of now (table s1) (s_next_sequence (broker s1))) /\
    Forall (timely now) (table s1)).
  { pose proof (export_result env (broker s) (so_started _ _ Hok)) as H. unfold wp in H. subst s1. cbn [broker_exec] in *.
    destruct (si_agent_request_broker_export_snapshot env true (broker s)) as [[ret snap] w]. cbn in Hx, H |- *.
    destruct (H Hx) as (now & -> & Htime). exists now. split; [by apply list_lookup_middle | done]. }
  destruct Hsnap as (now & Hsnap & Htime). destruct Hnum as (Hnr & Hnx & _).
  destruct (snapshot_scans env' (table s1) _ Hsha (so_table _ _ Hok1) Hnr ltac:(lia)) as [m Hm].
  assert (Hle : (length (table s1) <= SI_AGENT_REQUEST_QUEUE_CAPACITY)%nat) by by rewrite (so_length _ _ Hok1).
  destruct (snapshot_used now (table s1) (s_next_sequence (broker s1)) Hle) as (Eu & Hcount & Ee).
  set (snap := snapshot_of now (table s1) (s_next_sequence (broker s1))) in *.
  assert (Hscan : scan_snapshot sha256 env' [] (map entry_status (used_entries snap)) 0 = Some m) by (unfold used_entries; by rewrite Eu, Ee).
  pose proof (import_back env' snap m Hc Ht eq_refl Hcount Hscan) as Hret.
  pose proof (import_moves sha256 env' (Some snap) broker_power_on power_on_started) as H. unfold wp in H.
  assert (E2 : s2 = (no_copy (si_agent_request_broker_import_snapshot sha256 env' (Some snap) broker_power_on).1,
                     s1 <| broker := (si_agent_request_broker_import_snapshot sha256 env' (Some snap) broker_power_on).2 |>)).
  { subst s2. cbn [broker_exec]. rewrite Hsnap. by destruct (si_agent_request_broker_import_snapshot _ _ _ _). }
  rewrite E2. clear E2 s2. destruct (si_agent_request_broker_import_snapshot sha256 env' (Some snap) broker_power_on) as [ret w].
  cbn in Hret, H |- *. subst ret. destruct H as [_ [[H _]|(_ & x & now' & m' & Ex & Hs' & E3 & E4)]]; [done|].
  injection Ex as <-. rewrite Hscan in Hs'. injection Hs' as <-. split; [done|]. split.
  - rewrite E4. apply (imported_number env' snap m); [done | lia | | | done]; unfold used_entries; rewrite Eu, Ee.
    + apply (nb_range _ _ (numbered_filter _ _ Hnr)).
    + apply Forall_forall. by intros r [Hp _]%list_elem_of_filter.
  - exists now, now'. rewrite E3. unfold used_entries. rewrite Eu. by apply all_come_back.
Qed.
End broker.

(** ** Witnesses *)

(** A stand-in for the digest: every message has the same one. *)
Definition demo_sha (m : list Z) : list Z := replicate 32 171.

Lemma demo_sha_length m : length (demo_sha m) = 32%nat.
Proof. done. Qed.

Definition demo_env (now random : Z) : broker_env := mk_broker_env true true now (fun _ _ => 0) random true now random.

Definition demo_agent : si_agent_request_actor_t :=
  set_actor (enum_val SI_AGENT_REQUEST_PRINCIPAL_AGENT) (Some (cstr "thread-1")) (Some (cstr "agent-1")).

Definition demo_browser : si_agent_request_actor_t :=
  set_actor (enum_val SI_AGENT_REQUEST_PRINCIPAL_BROWSER) (Some (cstr "tab-1")) (Some (cstr "browser-1")).

Definition demo_binding (key : string) : si_agent_request_binding_input_t :=
  mk_binding (Some (cstr "kvm-1")) (Some (cstr "thread-1")) (Some (cstr "turn-1")) (Some (cstr "run-1"))
    (Some (cstr "step-1")) 1 (Some (cstr "reboot")) (Some (cstr key)).

(** The agent asks to reboot the host, for as often as the step needs. *)
Definition demo_ask (key : string) : si_agent_request_v2_input_t :=
  mk_v2_input (demo_binding key) demo_agent (enum_val SI_AGENT_REQUEST_KIND_ACTION) (Some (cstr "power.cycle"))
    (Some (cstr "host hangs")) (Some (cstr "host boots")) (Some (cstr "login prompt"))
    (enum_val SI_AGENT_REQUEST_RISK_HIGH) true false false 0 (enum_val SI_AGENT_REQUEST_GRANT_STEP) 60000.

Definition demo_approval (id : cstring) : si_agent_request_decision_t :=
  mk_decision (Some id) true (Some (cstr "go ahead")) demo_browser (enum_val SI_AGENT_REQUEST_GRANT_STEP).

Definition demo_off : broker_system := mk_system broker_power_on [].

Lemma demo_off_fresh : broker_fresh demo_off.
Proof. done. Qed.

Abbreviation demo_exec := (broker_exec demo_sha).
Abbreviation demo_run := (broker_run demo_sha).

Definition demo_id : cstring := new_request_id 7 1.
Definition demo_id2 : cstring := new_request_id 8 2.

(** The request is filed and approved. *)
Definition demo_approved : list broker_action :=
  [BrokerCreate (demo_env 1000 7) (Some (demo_ask "key-1")); BrokerDecide (demo_env 2000 0) (Some (demo_approval demo_id))].

Definition demo_act : broker_action :=
  BrokerConsume (demo_env 3000 0) (Some (mk_consume (Some demo_id) (demo_binding "key-1"))).

(** The device restarts in the middle, and the same is asked for under another key. *)
Definition demo_after : list broker_action :=
  [BrokerExport (demo_env 4000 0); BrokerRestore (demo_env 50 0) 0;
   BrokerCreate (demo_env 100 8) (Some (demo_ask "key-2")); BrokerDecide (demo_env 200 0) (Some (demo_approval demo_id2))].

Definition demo_again : broker_action :=
  BrokerConsume (demo_env 300 0) (Some (mk_consume (Some demo_id2) (demo_binding "key-2"))).

Definition demo_record (i : nat) (s : broker_system) : si_agent_request_status_t := request_at i (s_requests (broker s)).

(** The call consumes the request in the slot [i]. *)
Definition beginsb (i : nat) (action : broker_action) (s : broker_system) : bool :=
  let s' := (demo_exec action s).2 in
  negb (is_restore action) && (i <? length (s_requests (broker s)))%nat && (i <? length (s_requests (broker s')))%nat &&
  negb (grant_consumed (demo_record i s)) && grant_consumed (demo_record i s').

Lemma beginsb_ok i action s :
  beginsb i action s = true -> begins demo_sha action s (demo_record i (demo_exec action s).2).
Proof.
  assert (Hat : forall s1, (i <? length (s_requests (broker s1)))%nat = true ->
            s_requests (broker s1) !! i = Some (demo_record i s1)).
  { intros s1 H. apply Nat.ltb_lt in H. unfold demo_record, request_at.
    destruct (lookup_lt_is_Some_2 _ _ H) as [r Hr]. by rewrite (nth_lookup_Some _ _ zero_request _ Hr). }
  unfold beginsb. cbv zeta. rewrite !andb_true_iff, !negb_true_iff. intros [[[[H1 H2] H3] H4] H5].
  split; [done|]. exists i, (demo_record i s). split_and!; [by apply Hat | done | by apply Hat | done].
Qed.

(** No call retires a run, and every restart restores one of the later snapshots. *)
Fixpoint sparesb (n : nat) (actions : list broker_action) (s : broker_system) : bool :=
  match actions with
  | [] => true
  | action :: actions =>
      bool_decide (retired_run action = None) &&
      match action with BrokerRestore _ k => (n <=? k)%nat && bool_decide ((demo_exec action s).1.1 = ESP_OK) | _ => true end &&
      sparesb n actions (demo_exec action s).2
  end.

Lemma sparesb_ok run_of n actions s : sparesb n actions s = true -> spares demo_sha run_of n actions s.
Proof.
  revert s. induction actions as [|action actions IH]; intros s H; [done|]. cbn [sparesb] in H.
  rewrite !andb_true_iff in H. destruct H as [[H1 H2] H3]. apply bool_decide_eq_true in H1. cbn [spares].
  split; [intros E; congruence|]. split; [|by apply IH]. destruct action; try exact I.
  apply andb_prop in H2 as [H2 H4]. split; [by apply Nat.leb_le | by apply bool_decide_eq_true in H4].
Qed.

Lemma effect_at_most_once_witness :
  let s1 := demo_run demo_approved demo_off in
  let s2 := (demo_exec demo_act s1).2 in
  let s3 := demo_run demo_after s2 in
  let r1 := demo_record 0 s2 in
  let r2 := demo_record 1 (demo_exec demo_again s3).2 in
  begins demo_sha demo_act s1 r1 /\ begins demo_sha demo_again s3 r2 /\ idempotency_key r2 <> idempotency_key r1.
Proof.
  intros s1 s2 s3 r1 r2.
  assert (E1 : beginsb 0 demo_act s1 = true) by by_eval.
  assert (E2 : beginsb 1 demo_again s3 = true) by by_eval.
  assert (Es : sparesb (length (exported s2)) demo_after s2 = true) by by_eval.
  pose proof (beginsb_ok 0 demo_act s1 E1) as B1. pose proof (beginsb_ok 1 demo_again s3 E2) as B2.
  pose proof (effect_at_most_once demo_sha demo_sha_length demo_approved demo_act demo_after demo_again demo_off r1 r2
    demo_off_fresh) as H.
  cbv zeta in H. fold s1 in H. fold s2 in H. fold s3 in H.
  exact (conj B1 (conj B2 (H B1 (sparesb_ok (run_id r1) (length (exported s2)) demo_after s2 Es) B2))).
Defined.

(** What a restart of the device does today, as nothing calls the export and the
    import: the table is empty, and the same act under the same key is filed, approved
    and begun a second time. *)
Example restart_forgets :
  let s1 := demo_run demo_approved demo_off in
  let s2 := (demo_exec demo_act s1).2 in
  let s3 := demo_run demo_approved (mk_system broker_power_on (exported s2)) in
  beginsb 0 demo_act s1 = true /\ beginsb 0 demo_act s3 = true /\
  idempotency_key (demo_record 0 (demo_exec demo_act s3).2) = idempotency_key (demo_record 0 s2).
Proof. split_and!; by_eval. Qed.

Lemma effect_was_approved_witness :
  let s := demo_run demo_approved demo_off in
  let r := demo_record 0 (demo_exec demo_act s).2 in
  begins demo_sha demo_act s r /\ state r = SI_AGENT_REQUEST_EXECUTING /\
  (policy_granted demo_sha demo_approved demo_off r \/
   exists d r0, approved_by demo_sha demo_approved demo_off d r0 /\ covers r0 r).
Proof.
  intros s r. assert (E : beginsb 0 demo_act s = true) by by_eval.
  assert (Er : state r = SI_AGENT_REQUEST_EXECUTING) by by_eval.
  pose proof (beginsb_ok 0 demo_act s E) as B.
  exact (conj B (conj Er (effect_was_approved demo_sha demo_sha_length demo_approved demo_act demo_off r demo_off_fresh B))).
Defined.

(** The effect begins, and is verified. *)
Definition demo_done : list broker_action :=
  [demo_act; BrokerVerifying (demo_env 4000 0) (Some demo_id);
   BrokerVerified (demo_env 5000 0) (Some demo_id) (Some (cstr "login prompt seen"))].

Fixpoint undisturbedb (actions : list broker_action) : bool :=
  match actions with
  | [] => true
  | action :: actions => negb (is_restore action) && bool_decide (retired_run action = None) && undisturbedb actions
  end.

Lemma undisturbedb_ok run_of actions s : undisturbedb actions = true -> all_undisturbed demo_sha run_of actions s.
Proof.
  revert s. induction actions as [|action actions IH]; intros s H; [done|]. cbn [undisturbedb] in H.
  rewrite !andb_true_iff in H. destruct H as [[H1 H2] H3]. apply bool_decide_eq_true in H2. apply negb_true_iff in H1.
  split; [split; [done | intros E; congruence] | by apply IH].
Qed.

Lemma requests_run_the_machine_witness :
  let s := demo_run demo_approved demo_off in
  let r := demo_record 0 s in
  state r = SI_AGENT_REQUEST_GRANTED /\
  exists r', s_requests (broker (demo_run demo_done s)) !! 0%nat = Some r' /\ terms r' = terms r /\
    expires_at_ms r' = expires_at_ms r /\ rtc may_move (state r) (state r') /\
    (state_terminal (state r) = true -> state r' = state r) /\ (grant_consumed r = true -> grant_consumed r' = true).
Proof.
  intros s r. assert (Er : state r = SI_AGENT_REQUEST_GRANTED) by by_eval.
  assert (Ei : s_requests (broker s) !! 0%nat = Some r) by by_eval.
  assert (Hp : present r) by (intros E; rewrite Er in E; discriminate E).
  assert (Eu : undisturbedb demo_done = true) by by_eval.
  pose proof (requests_run_the_machine demo_sha demo_sha_length demo_approved demo_done demo_off 0%nat r demo_off_fresh) as H.
  cbv zeta in H. fold s in H. exact (conj Er (H Ei Hp (undisturbedb_ok (run_id r) demo_done s Eu))).
Defined.

(** One request has begun, one waits, when the device restarts. *)
Definition demo_busy : list broker_action :=
  demo_approved ++ [demo_act; BrokerCreate (demo_env 3500 8) (Some (demo_ask "key-2"))].

Definition demo_states (s : broker_system) : list si_agent_request_state_t :=
  map state (filter present (s_requests (broker s))).

Lemma snapshot_round_trip_witness :
  let s := demo_run demo_busy demo_off in
  let s1 := (demo_exec (BrokerExport (demo_env 4000 0)) s).2 in
  let s2 := demo_exec (BrokerRestore (demo_env 50 0) (length (exported s))) s1 in
  demo_states s1 = [SI_AGENT_REQUEST_EXECUTING; SI_AGENT_REQUEST_WAITING_USER] /\
  demo_states s2.2 = [SI_AGENT_REQUEST_UNKNOWN; SI_AGENT_REQUEST_WAITING_USER] /\
  s2.1.1 = ESP_OK /\ s_next_sequence (broker s2.2) = s_next_sequence (broker s1) /\
  exists now now', Forall2 (comes_back now now') (filter present (s_requests (broker s1)))
                     (filter present (s_requests (broker s2.2))).
Proof.
  intros s s1 s2.
  assert (E1 : demo_states s1 = [SI_AGENT_REQUEST_EXECUTING; SI_AGENT_REQUEST_WAITING_USER]) by by_eval.
  assert (E2 : demo_states s2.2 = [SI_AGENT_REQUEST_UNKNOWN; SI_AGENT_REQUEST_WAITING_USER]) by by_eval.
  assert (Ex : (demo_exec (BrokerExport (demo_env 4000 0)) s).1.1 = ESP_OK) by by_eval.
  assert (En : Z.of_nat (length demo_busy) + 2 < 2 ^ 32) by by_eval.
  pose proof (snapshot_round_trip demo_sha demo_sha_length demo_busy (demo_env 4000 0) (demo_env 50 0) demo_off
    demo_off_fresh En) as H.
  cbv zeta in H. fold s in H. fold s1 in H. fold s2 in H.
  exact (conj E1 (conj E2 (H Ex eq_refl eq_refl eq_refl))).
Defined.

(** A grant for a step is spent when its effect is verified, and extends to the next
    request of the step until it expires.  A day later the request waits for the
    user; but once 2^31 ms have gone by, the same grant extends to it again. *)
Definition demo_filed_at (now : Z) : option si_agent_request_state_t :=
  state <$> (demo_exec (BrokerCreate (demo_env now 8) (Some (demo_ask "key-2")))
               (demo_run (demo_approved ++ demo_done) demo_off)).1.2.

Example grant_returns :
  demo_filed_at 6000 = Some SI_AGENT_REQUEST_GRANTED /\ demo_filed_at 86400000 = Some SI_AGENT_REQUEST_WAITING_USER /\
  demo_filed_at (61000 + 2 ^ 31 + 1) = Some SI_AGENT_REQUEST_GRANTED.
Proof. split_and!; by_eval. Qed.
