(* ===== verification/HidAscii.v ===== *)
(** * Typing ASCII: [core/hid_ascii.c]

    The key of each printable character, as the code that a browser would report
    for it; and what a host with a US keyboard reads from the keys. *)

From Stdlib Require Import String.
From S2P Require Import Prelude CText HidManager.

Record ascii_mapping_t := mk_ascii { value : Z; code : cstring; shift : bool }.

Record si_hid_ascii_key_t := mk_ascii_key { key_code : option cstring; key_shift : bool }.

Definition DIGIT_CODES : list cstring :=
  map cstr ["Digit0"; "Digit1"; "Digit2"; "Digit3"; "Digit4"; "Digit5"; "Digit6"; "Digit7"; "Digit8"; "Digit9"]%string.

Definition LETTER_CODES : list cstring :=
  map cstr ["KeyA"; "KeyB"; "KeyC"; "KeyD"; "KeyE"; "KeyF"; "KeyG"; "KeyH"; "KeyI"; "KeyJ"; "KeyK"; "KeyL"; "KeyM";
            "KeyN"; "KeyO"; "KeyP"; "KeyQ"; "KeyR"; "KeyS"; "KeyT"; "KeyU"; "KeyV"; "KeyW"; "KeyX"; "KeyY"; "KeyZ"]%string.

(** The quotation mark is given by its number. *)
Definition SYMBOLS : list ascii_mapping_t :=
  map (fun '(v, name, s) => mk_ascii v (cstr name) s)
    [(ch " ", "Space", false);
     (ch "-", "Minus", false); (ch "_", "Minus", true);
     (ch "=", "Equal", false); (ch "+", "Equal", true);
     (ch "[", "BracketLeft", false); (ch "{", "BracketLeft", true);
     (ch "]", "BracketRight", false); (ch "}", "BracketRight", true);
     (ch "\", "Backslash", false); (ch "|", "Backslash", true);
     (ch ";", "Semicolon", false); (ch ":", "Semicolon", true);
     (ch "'", "Quote", false); (34, "Quote", true);
     (ch "`", "Backquote", false); (ch "~", "Backquote", true);
     (ch ",", "Comma", false); (ch "<", "Comma", true);
     (ch ".", "Period", false); (ch ">", "Period", true);
     (ch "/", "Slash", false); (ch "?", "Slash", true);
     (ch "!", "Digit1", true); (ch "@", "Digit2", true);
     (ch "#", "Digit3", true); (ch "$", "Digit4", true);
     (ch "%", "Digit5", true); (ch "^", "Digit6", true);
     (ch "&", "Digit7", true); (ch "*", "Digit8", true);
     (ch "(", "Digit9", true); (ch ")", "Digit0", true)]%string.

(** [key]: whether the pointer is not NULL. *)
Definition si_hid_ascii_map (v : Z) (key : bool) : bool * si_hid_ascii_key_t :=
  let none := mk_ascii_key None false in
  return_if negb key with (false, none) ;;
  return_if (ch "0" <=? v) && (v <=? ch "9")
    with (true, mk_ascii_key (DIGIT_CODES !! Z.to_nat (v - ch "0")) false) ;;
  return_if (ch "a" <=? v) && (v <=? ch "z")
    with (true, mk_ascii_key (LETTER_CODES !! Z.to_nat (v - ch "a")) false) ;;
  return_if (ch "A" <=? v) && (v <=? ch "Z")
    with (true, mk_ascii_key (LETTER_CODES !! Z.to_nat (v - ch "A")) true) ;;
  match find (fun m => value m =? v) SYMBOLS with
  | Some m => (true, mk_ascii_key (Some (code m)) (shift m))
  | None => (false, none)
  end.

(** ** What the host reads

    The keys of a US keyboard, from the usage tables of USB: the usage, and the
    characters without and with the shift key. *)

Definition us_keyboard : list (Z * (Z * Z)) :=
  map (fun i => (4 + i, (ch "a" + i, ch "A" + i))) (seqZ 0 26) ++
  [(30, (ch "1", ch "!")); (31, (ch "2", ch "@")); (32, (ch "3", ch "#")); (33, (ch "4", ch "$"));
   (34, (ch "5", ch "%")); (35, (ch "6", ch "^")); (36, (ch "7", ch "&")); (37, (ch "8", ch "*"));
   (38, (ch "9", ch "(")); (39, (ch "0", ch ")")); (44, (ch " ", ch " ")); (45, (ch "-", ch "_"));
   (46, (ch "=", ch "+")); (47, (ch "[", ch "{")); (48, (ch "]", ch "}")); (49, (ch "\", ch "|"));
   (51, (ch ";", ch ":")); (52, (ch "'", 34)); (53, (ch "`", ch "~")); (54, (ch ",", ch "<"));
   (55, (ch ".", ch ">")); (56, (ch "/", ch "?"))].

Definition us_key (usage : Z) (shifted : bool) : option Z :=
  match find (fun k => k.1 =? usage) us_keyboard with
  | Some (_, (plain, upper)) => Some (if shifted then upper else plain)
  | None => None
  end.

(** The character that the host reads when the mapped key of [v] is sent through the
    key table of the HID driver. *)
Definition typed_char (v : Z) : option Z :=
  let '(mapped, key) := si_hid_ascii_map v true in
  if mapped then us_key (js_code_to_hid (key_code key)) (key_shift key) else None.

Definition typed (text : cstring) : option cstring := mapM typed_char text.

Definition mapped_chars : list Z := filter (fun v => (si_hid_ascii_map v true).1 = true) (seqZ 0 256).

(** ** What the mapping means *)

Lemma mapped_chars_printable : mapped_chars = seqZ 32 95.
Proof. by_eval. Qed.

Lemma typed_printable : Forall (fun v => typed_char v = Some v) (seqZ 32 95).
Proof. apply (bool_decide_unpack _). by_eval. Qed.

(** Only the printable characters are mapped. *)
Lemma mapped_iff v : is_byte v -> (si_hid_ascii_map v true).1 = true <-> 32 <= v < 127.
Proof.
  intros Hv. assert (E : v ∈ mapped_chars <-> v ∈ seqZ 32 95) by by rewrite mapped_chars_printable.
  unfold mapped_chars in E. rewrite list_elem_of_filter, !elem_of_seqZ in E. unfold is_byte in Hv.
  destruct E as [E1 E2]. split; intros H; [|apply E2; lia]. specialize (E1 ltac:(split; [done | lia])). lia.
Qed.

(** Outside of the bytes too nothing is mapped. *)
Lemma mapped_range v : (si_hid_ascii_map v true).1 = true -> 32 <= v < 127.
Proof.
  assert (Hs : forall m, m ∈ SYMBOLS -> 32 <= value m < 127).
  { apply Forall_forall. apply (bool_decide_unpack _). by_eval. }
  assert (Hb : forall a b, (a <=? v) && (v <=? b) = true -> 32 <= a -> b < 127 -> 32 <= v < 127).
  { intros a b H Ha Hb. split_guards. to_props. lia. }
  unfold si_hid_ascii_map. cbn [negb]. do 3 (case_if; [intros _; eapply Hb; [eassumption | done | done]|]).
  destruct (find _ SYMBOLS) as [m|] eqn:E; [|done]. apply find_some in E as [Hm E]. to_props. intros _. rewrite <- E.
  by apply Hs, list_elem_of_In.
Qed.

(** A text of mapped characters is typed as it is. *)
Lemma typed_text text : forallb (fun v => (si_hid_ascii_map v true).1) text = true -> typed text = Some text.
Proof.
  intros H%forallb_Forall. apply mapM_Some. induction H as [|v text Hv H IH]; constructor; [|done].
  apply (proj1 (Forall_forall _ _) typed_printable), elem_of_seqZ. apply mapped_range in Hv. lia.
Qed.
