(* ===== verification/ConsoleCredentials.v ===== *)
(** * Console credentials: [application/console_credentials.c]

    The name and password of the account on the target, kept in flash through the
    settings store, and typed on its keyboard when an agent logs in. *)

From Stdlib Require Import String.
From S2P Require Import Prelude CText Firmware SettingsStore HidAscii.

Definition CONSOLE_CREDENTIALS_NAMESPACE : cstring := cstr "si_console".
Definition CONSOLE_USERNAME_KEY : cstring := cstr "username".
Definition CONSOLE_PASSWORD_KEY : cstring := cstr "password".
Definition SI_CONSOLE_USERNAME_MAX_LEN : nat := 64.
Definition SI_CONSOLE_PASSWORD_MAX_LEN : nat := 128.

Record si_console_credentials_status_t := mk_console_status {
  configured : bool;
  password_configured : bool;
  username : cstring
}.

Definition zero_console_status : si_console_credentials_status_t := mk_console_status false false [].

(** The loops over the characters. *)
Definition can_type (text : cstring) : bool := forallb (fun c => (si_hid_ascii_map c true).1) text.

Definition console_username_valid (name : option cstring) : bool :=
  match name with
  | None => false
  | Some name =>
      return_if (length name =? 0)%nat || (SI_CONSOLE_USERNAME_MAX_LEN <=? length name)%nat ||
                isspace (nth 0 name 0) || isspace (nth (length name - 1) name 0) with false ;;
      can_type name
  end.

Definition console_password_valid (password : option cstring) : bool :=
  match password with
  | None => false
  | Some password =>
      return_if (length password =? 0)%nat || (SI_CONSOLE_PASSWORD_MAX_LEN <=? length password)%nat with false ;;
      can_type password
  end.

Section console.
Context {N : Type} `{Nvs N}.

Definition open_console_read : st (system N) (esp_err_t * option si_settings_store_t) :=
  si_settings_store_open_read (Some SI_SETTINGS_STORE_INITIALIZER) (Some CONSOLE_CREDENTIALS_NAMESPACE).

Definition open_console_write : st (system N) (esp_err_t * option si_settings_store_t) :=
  si_settings_store_open_write (Some SI_SETTINGS_STORE_INITIALIZER) (Some CONSOLE_CREDENTIALS_NAMESPACE).

(** [status]: whether the pointer is not NULL; a read that fails leaves the zeroed
    buffer. *)
Definition si_console_credentials_get_status (status : bool)
  : st (system N) (esp_err_t * si_console_credentials_status_t) :=
  return_if negb status with mret (ESP_ERR_INVALID_ARG, zero_console_status) ;;
  r ← open_console_read;
  return_if bool_decide (r.1 = ESP_ERR_NOT_FOUND) with mret (ESP_OK, zero_console_status) ;;
  return_if negb (bool_decide (r.1 = ESP_OK)) with mret (r.1, zero_console_status) ;;
  name ← si_settings_store_get_string r.2 (Some CONSOLE_USERNAME_KEY) (Some SI_CONSOLE_USERNAME_MAX_LEN);
  let text := if bool_decide (name.1 = ESP_OK) then name.2 else [] in
  let ret := if bool_decide (name.1 = ESP_ERR_NOT_FOUND) then ESP_OK else name.1 in
  secret ← (if bool_decide (ret = ESP_OK) then si_secret_store_is_configured r.2 (Some CONSOLE_PASSWORD_KEY) true
            else mret (ret, false));
  si_settings_store_close r.2;;
  return_if negb (bool_decide (secret.1 = ESP_OK)) with mret (secret.1, zero_console_status) ;;
  mret (ESP_OK, mk_console_status (negb (is_empty text)) secret.2 text).

Definition si_console_credentials_save (name password : option cstring) (password_present clear_password : bool)
  : st (system N) esp_err_t :=
  return_if negb (console_username_valid name) with mret ESP_ERR_INVALID_ARG ;;
  return_if password_present && negb (console_password_valid password) with mret ESP_ERR_INVALID_ARG ;;
  r ← open_console_write;
  return_if negb (bool_decide (r.1 = ESP_OK)) with mret r.1 ;;
  ret ← si_settings_store_set_string r.2 (Some CONSOLE_USERNAME_KEY) name;
  ret ← (if bool_decide (ret = ESP_OK) && clear_password then si_secret_store_erase r.2 (Some CONSOLE_PASSWORD_KEY)
         else if bool_decide (ret = ESP_OK) && password_present then
           si_secret_store_set_string r.2 (Some CONSOLE_PASSWORD_KEY) password
         else mret ret);
  ret ← (if bool_decide (ret = ESP_OK) then si_settings_store_commit r.2 else mret ret);
  si_settings_store_close r.2;;
  mret ret.

Definition si_console_credentials_clear : st (system N) esp_err_t :=
  r ← open_console_write;
  return_if negb (bool_decide (r.1 = ESP_OK)) with mret r.1 ;;
  ret ← si_settings_store_erase_all r.2;
  ret ← (if bool_decide (ret = ESP_OK) then si_settings_store_commit r.2 else mret ret);
  si_settings_store_close r.2;;
  mret ret.

(** [out]: whether the pointer is not NULL. *)
Definition si_console_credentials_get_password (out : bool) (out_size : nat)
  : st (system N) (esp_err_t * cstring) :=
  return_if negb out || (out_size =? 0)%nat with mret (ESP_ERR_INVALID_ARG, []) ;;
  r ← open_console_read;
  return_if negb (bool_decide (r.1 = ESP_OK)) with mret (r.1, []) ;;
  ret ← si_secret_store_get_string r.2 (Some CONSOLE_PASSWORD_KEY) (Some out_size);
  si_settings_store_close r.2;;
  mret ret.

(** ** What happens to the credentials *)

Inductive console_call :=
| ConsoleStatus
| ConsoleSave (name password : option cstring) (password_present clear_password : bool)
| ConsoleClear
| ConsolePassword (out_size : nat).

Definition console_exec (call : console_call) : st (system N) esp_err_t :=
  match call with
  | ConsoleStatus => r ← si_console_credentials_get_status true; mret r.1
  | ConsoleSave name password present clear => si_console_credentials_save name password present clear
  | ConsoleClear => si_console_credentials_clear
  | ConsolePassword out_size => r ← si_console_credentials_get_password true out_size; mret r.1
  end.
End console.
