(* ===== verification/ConsoleCredentialsProps.v ===== *)
(** * Console credentials: properties

    What is stored can always be typed and read back; and a save that succeeds is what every later
    reading finds, over restarts, until the next save. *)

From Stdlib Require Import String.
From stdpp Require Import gmap.
From S2P Require Import Prelude CText Firmware SettingsStore SettingsStoreProps HidManager HidAscii ConsoleCredentials.

Abbreviation name_key := (CONSOLE_CREDENTIALS_NAMESPACE, CONSOLE_USERNAME_KEY).
Abbreviation secret_key := (CONSOLE_CREDENTIALS_NAMESPACE, CONSOLE_PASSWORD_KEY).

Lemma username_types name :
  console_username_valid (Some name) = true ->
  name <> [] /\ (length name < SI_CONSOLE_USERNAME_MAX_LEN)%nat /\ typed name = Some name.
Proof.
  unfold console_username_valid. case_if; [done|]. intros H.
  apply orb_false_elim in Heqb as [[[H1 H2]%orb_false_elim _]%orb_false_elim _]. to_props.
  split_and!; [by destruct name | done | by apply typed_text].
Qed.

Lemma password_types password :
  console_password_valid (Some password) = true ->
  password <> [] /\ (length password < SI_CONSOLE_PASSWORD_MAX_LEN)%nat /\ typed password = Some password.
Proof.
  unfold console_password_valid. case_if; [done|]. intros H. apply orb_false_elim in Heqb as [H1 H2]. to_props.
  split_and!; [by destruct password | done | by apply typed_text].
Qed.

Section console.
Context {N : Type} `{NvsLaws N}.
Implicit Types (n : N) (s : system N) (x : option nvs_value).

(** ** The reads *)

(** What a status says about the storage. *)
Definition status_of n (r : esp_err_t * si_console_credentials_status_t) : Prop :=
  r.1 = ESP_OK ->
  configured r.2 = negb (is_empty (username r.2)) /\
  (username r.2 = [] \/ contents n !! name_key = Some (NvsStr (username r.2))) /\
  (forall u, u <> [] -> contents n !! name_key = Some (NvsStr u) -> username r.2 = u) /\
  (password_configured r.2 = true <-> exists p, contents n !! secret_key = Some (NvsStr p) /\ p <> []).

Lemma get_status_spec s :
  wp (si_console_credentials_get_status true) (fun r s' => untouched (nvs s) (nvs s') /\ status_of (nvs s) r) s.
Proof.
  unfold si_console_credentials_get_status, open_console_read, status_of. cbn [negb]. apply wp_bind.
  eapply wp_mono; [by apply open_read_spec|]. intros r s1 (C1 & F1 & Hok & _ & Hnf). case_if; decided.
  { apply wp_ret. split; [done|]. intros _. cbn [fst snd zero_console_status configured password_configured username].
    rewrite !(Hnf Heqb). split_and!; [done | by left | done |]. split; [done | by intros (p & ? & _)]. }
  case_if; decided; [by apply wp_ret|]. destruct (Hok Heqb0) as (h & -> & Ho).
  apply wp_bind. eapply wp_mono; [by apply get_string_spec|]. intros name s2 (E2 & Hname & Hnone).
  set (text := if bool_decide (name.1 = ESP_OK) then name.2 else []).
  set (ret := if bool_decide (name.1 = ESP_ERR_NOT_FOUND) then ESP_OK else name.1).
  apply wp_bind. apply wp_mono with (Q := fun (secret : esp_err_t * bool) s3 => nvs s3 = nvs s2 /\
    (secret.1 = ESP_OK -> ret = ESP_OK /\
      (secret.2 = true <-> exists p, contents (nvs s) !! secret_key = Some (NvsStr p) /\ p <> []))).
  { case_if; decided; [|by apply wp_ret]. rewrite <- E2 in Ho. eapply wp_mono; [by apply is_configured_spec|].
    intros secret s3 [E3 Hs]. split; [done|]. intros He. split; [done|]. rewrite (Hs He), E2, C1. done. }
  intros secret s3 [E3 Hs]. apply wp_bind. eapply wp_mono; [apply close_spec|]. intros ? s4 [C4 F4].
  assert (Hu : untouched (nvs s) (nvs s4)) by (split; [by rewrite C4, E3, E2 | by rewrite F4, E3, E2]).
  case_if; decided; apply wp_ret; (split; [exact Hu|]); cbn [fst snd]; [by intros|]. intros _.
  destruct (Hs Heqb1) as [Hret Hsec]. cbn [configured password_configured username].
  rewrite C1 in Hname, Hnone. split_and!; [done | | | exact Hsec]; subst text ret.
  - case_if; decided; [right; by apply Hname | by left].
  - intros u Hu' Hc. case_if_in Hret; [destruct (Hnone ltac:(by decided) u Hc)|].
    rewrite Hret, bool_decide_eq_true_2 by done. rewrite (Hname Hret) in Hc. by injection Hc.
Qed.

Lemma get_password_spec size s :
  (0 < size)%nat ->
  wp (si_console_credentials_get_password true size) (fun r s' => untouched (nvs s) (nvs s') /\
    (r.1 = ESP_OK -> contents (nvs s) !! secret_key = Some (NvsStr r.2) /\ r.2 <> []) /\
    (r.1 = ESP_ERR_NOT_FOUND -> forall p, p <> [] -> contents (nvs s) !! secret_key <> Some (NvsStr p))) s.
Proof.
  intros Hsize. unfold si_console_credentials_get_password, open_console_read. destruct size as [|size]; [lia|]. cbn [negb orb Nat.eqb].
  apply wp_bind. eapply wp_mono; [by apply open_read_spec|]. intros r s1 (C1 & F1 & Hok & _ & Hnf). case_if; decided.
  { apply wp_ret. split; [done|]. cbn [fst snd]. split; [done|]. intros E p _. by rewrite (Hnf E). }
  destruct (Hok Heqb) as (h & -> & Ho). apply wp_bind. eapply wp_mono; [by apply get_secret_spec|].
  intros ret s2 (E2 & H1 & H2). apply wp_bind. eapply wp_mono; [apply close_spec|]. intros ? s3 [C3 F3]. apply wp_ret.
  rewrite C1 in H1, H2. split; [|done]. split; [by rewrite C3, E2 | by rewrite F3, E2].
Qed.

(** ** The writes *)

(** The flash holds [x] under a key of the credentials, in every later start. *)
Definition holds (key : cstring) x n : Prop :=
  contents n !! (CONSOLE_CREDENTIALS_NAMESPACE, key) = x /\
  forall y, flash n (CONSOLE_CREDENTIALS_NAMESPACE, key) y -> y = x.

(** What a call may newly leave in the flash. *)
Definition writable_value (k : nvs_key) x : Prop :=
  x = None \/ (exists u, k = name_key /\ x = Some (NvsStr u) /\ console_username_valid (Some u) = true) \/
  (exists p, k = secret_key /\ x = Some (NvsStr p) /\ console_password_valid (Some p) = true).

Abbreviation writes_only := (leaves writable_value).

(** The secret after a save. *)
Definition saved_secret (password : option cstring) (present clear : bool) n : option nvs_value :=
  if clear then None else if present then NvsStr <$> password else contents n !! secret_key.

Lemma save_secret_spec h password (present clear : bool) ret s :
  opened (nvs s) h = Some (CONSOLE_CREDENTIALS_NAMESPACE, NVS_READWRITE) ->
  (present = true -> console_password_valid password = true) ->
  wp (if bool_decide (ret = ESP_OK) && clear then
        si_secret_store_erase (Some (mk_settings_store h true true)) (Some CONSOLE_PASSWORD_KEY)
      else if bool_decide (ret = ESP_OK) && present then
        si_secret_store_set_string (Some (mk_settings_store h true true)) (Some CONSOLE_PASSWORD_KEY) password
      else mret ret)
    (fun e s' => moves_to secret_key (saved_secret password present clear (nvs s)) e (nvs s) (nvs s') /\
       writes_only (nvs s) (nvs s') /\ (e = ESP_OK -> ret = ESP_OK)) s.
Proof.
  intros Ho Hv. unfold saved_secret. destruct (bool_decide (ret = ESP_OK)) eqn:Er; decided; cbn [andb];
    [|apply wp_ret; split_and!; [by apply moves_none | by apply untouched_leaves | done]].
  destruct clear; [|destruct present].
  - eapply wp_mono; [by apply secret_erase_moves|]. intros e s' Hm. split_and!; [done | | done].
    eapply moves_leaves, Hm. left. by left.
  - specialize (Hv eq_refl). destruct password as [p|]; [|done]. eapply wp_mono; [by apply set_secret_moves|].
    intros e s' Hm. split_and!; [done | | done]. eapply moves_leaves, Hm. left. right. right. by exists p.
  - apply wp_ret. split_and!; [by apply moves_none | by apply untouched_leaves | done].
Qed.

Lemma console_save_spec name password present clear s :
  wp (si_console_credentials_save name password present clear) (fun e s' =>
    writes_only (nvs s) (nvs s') /\
    (e = ESP_OK -> exists u, name = Some u /\ u <> [] /\ (length u < SI_CONSOLE_USERNAME_MAX_LEN)%nat /\
       holds CONSOLE_USERNAME_KEY (Some (NvsStr u)) (nvs s') /\
       holds CONSOLE_PASSWORD_KEY (saved_secret password present clear (nvs s)) (nvs s'))) s.
Proof.
  unfold si_console_credentials_save. case_if; [apply wp_ret; split; [by apply untouched_leaves | done]|]. apply negb_false_iff in Heqb as Hu.
  case_if; [apply wp_ret; split; [by apply untouched_leaves | done]|]. destruct name as [u|]; [|done].
  assert (Hp : present = true -> console_password_valid password = true) by (intros ->; cbn in Heqb0; by apply negb_false_iff).
  apply wp_bind. eapply wp_mono; [by apply open_write_spec|]. intros r s1 (C1 & F1 & Hok & _). case_if; decided.
  { apply wp_ret. split; [by apply untouched_leaves | done]. }
  destruct (Hok Heqb1) as (h & -> & Ho). apply wp_bind. eapply wp_mono; [by apply set_string_moves|].
  intros e1 s2 M1. pose proof M1 as (Ho2 & Hother2 & _ & Hc2). rewrite <- Ho2 in Ho.
  apply wp_bind. eapply wp_mono; [by apply save_secret_spec|]. intros e2 s3 (M2 & W2 & He2).
  pose proof M2 as (Ho3 & Hother3 & _ & Hc3). rewrite <- Ho3 in Ho.
  assert (W : writes_only (nvs s) (nvs s3)).
  { etrans; [by apply (untouched_leaves _ (nvs s) (nvs s1))|]. etrans; [|exact W2].
    eapply moves_leaves, M1. left. right. left. by exists u. }
  apply wp_bind. case_if; decided.
  - eapply wp_mono; [by apply commit_spec|]. intros e3 s4 (C4 & F4 & Hf). apply wp_bind.
    eapply wp_mono; [apply close_spec|]. intros ? s5 [C5 F5]. apply wp_ret. split.
    { intros k x Hx. rewrite F5 in Hx. by apply W, F4. }
    intros He. specialize (Hf He). exists u. unfold console_username_valid in Hu. case_if_in Hu; [done|]. split_guards. to_props.
    assert (Eu : contents (nvs s3) !! name_key = Some (NvsStr u)) by (rewrite (proj1 (Hother3 name_key ltac:(done))); auto).
    assert (Es : saved_secret password present clear (nvs s2) = saved_secret password present clear (nvs s)).
    { unfold saved_secret. by rewrite (proj1 (Hother2 secret_key ltac:(done))), C1. }
    split_and!; [done | by destruct u | done | |]; (split; [rewrite C5, C4 | intros y Hy; rewrite F5 in Hy; apply Hf in Hy as ->]).
    + exact Eu.
    + exact Eu.
    + rewrite <- Es. by apply Hc3.
    + rewrite <- Es. by apply Hc3.
  - apply wp_ret, wp_bind. eapply wp_mono; [apply close_spec|]. intros ? s5 [C5 F5]. apply wp_ret. split; [|done].
    intros k x Hx. rewrite F5 in Hx. by apply W.
Qed.

Lemma clear_spec s : wp si_console_credentials_clear (fun _ s' => writes_only (nvs s) (nvs s')) s.
Proof.
  unfold si_console_credentials_clear. apply wp_bind. eapply wp_mono; [by apply open_write_spec|].
  intros r s1 (C1 & F1 & Hok & _). case_if; decided; [by apply wp_ret, untouched_leaves|].
  destruct (Hok Heqb) as (h & -> & Ho). apply wp_bind.
  apply wp_mono with (Q := fun _ s2 => opened (nvs s2) = opened (nvs s1) /\ writes_only (nvs s1) (nvs s2)).
  { apply wp_conj; [by apply (erase_all_opened h CONSOLE_CREDENTIALS_NAMESPACE)|].
    apply (changes_spec (fun h n => nvs_erase_all h n) h s1 (fun _ => writes_only (nvs s1))).
    - intros e n' E [ns key] x Hx. destruct (erase_all_law _ _ _ _ _ Ho E) as (_ & Hk & _ & Hf).
      destruct (decide (ns = CONSOLE_CREDENTIALS_NAMESPACE)) as [->|Hne].
      + destruct (Hf key x Hx); [by left | right; by left].
      + destruct (Hk (ns, key) Hne) as [_ E']. left. by rewrite <- E'.
    - intros e _. by apply untouched_leaves. }
  intros e s2 [Ho2 W2]. assert (W : writes_only (nvs s) (nvs s2)) by (etrans; [|exact W2]; by apply untouched_leaves).
  apply wp_bind. apply wp_mono with (Q := fun _ s3 => writes_only (nvs s) (nvs s3)).
  { case_if; [|by apply wp_ret]. rewrite <- Ho2 in Ho. eapply wp_mono; [by apply commit_spec|].
    intros ? s3 (_ & F3 & _) k x Hx. by apply W, F3. }
  intros ? s3 W3. apply wp_bind. eapply wp_mono; [apply close_spec|]. intros ? s4 [C4 F4]. apply wp_ret.
  intros k x Hx. rewrite F4 in Hx. by apply W3.
Qed.

(** ** Histories *)

(** Other services leave the namespace of the credentials alone. *)
Definition same_console n n' : Prop :=
  forall key, contents n' !! (CONSOLE_CREDENTIALS_NAMESPACE, key) = contents n !! (CONSOLE_CREDENTIALS_NAMESPACE, key) /\
    forall x, flash n' (CONSOLE_CREDENTIALS_NAMESPACE, key) x <-> flash n (CONSOLE_CREDENTIALS_NAMESPACE, key) x.

(** A call, another task that calls, what other services do, a loss of power. *)
Inductive console_step : option console_call -> system N -> system N -> Prop :=
| step_call call s : console_step (Some call) s (console_exec call s).2
| step_task s f : console_step None s (s <| access := f |>)
| step_others s n : same_console (nvs s) n -> console_step None s (mk_system n (access s))
| step_restart s n f : nvs_restarts (nvs s) n -> console_step None s (mk_system n f).

Definition console_any s s' : Prop := exists c, console_step c s s'.

(** No save and no clear. *)
Definition console_reads s s' : Prop :=
  exists c, console_step c s s' /\ match c with Some (ConsoleSave _ _ _ _) | Some ConsoleClear => False | _ => True end.

(** The values are as a save checks them. *)
Definition stored_fits n : Prop :=
  forall key x, flash n (CONSOLE_CREDENTIALS_NAMESPACE, key) x -> writable_value (CONSOLE_CREDENTIALS_NAMESPACE, key) x.

Lemma reading_untouched call s :
  match call with ConsoleSave _ _ _ _ | ConsoleClear => False | _ => True end ->
  untouched (nvs s) (nvs (console_exec call s).2).
Proof using H0.
  intros Hc. destruct call as [| | |size]; try done; cbn [console_exec].
  - assert (Hw : wp (r ← si_console_credentials_get_status true; mret r.1) (fun _ s' => untouched (nvs s) (nvs s')) s); [|exact Hw].
    apply wp_bind. eapply wp_mono; [apply get_status_spec|]. intros r s' [Hu _]. by apply wp_ret.
  - assert (Hw : wp (r ← si_console_credentials_get_password true size; mret r.1) (fun _ s' => untouched (nvs s) (nvs s')) s); [|exact Hw].
    destruct size as [|size]; [by apply wp_ret|]. apply wp_bind. eapply wp_mono; [apply get_password_spec; lia|].
    intros r s' [Hu _]. by apply wp_ret.
Qed.

Lemma exec_writes call s : writes_only (nvs s) (nvs (console_exec call s).2).
Proof using H0.
  destruct call as [| name password present clear | | size].
  - by apply untouched_leaves, (reading_untouched ConsoleStatus).
  - exact (proj1 (console_save_spec name password present clear s)).
  - exact (clear_spec s).
  - by apply untouched_leaves, (reading_untouched (ConsolePassword size)).
Qed.

Lemma step_fits c s s' : console_step c s s' -> stored_fits (nvs s) -> stored_fits (nvs s').
Proof using H0.
  intros [call s1 | s1 f | s1 n Hn | s1 n f Hr] Hf key x Hx.
  - destruct (exec_writes call s1 _ _ Hx) as [Hx'|]; [by apply Hf | done].
  - by apply Hf.
  - by apply Hf, (proj2 (Hn key) x).
  - destruct (restart_law _ _ Hr (CONSOLE_CREDENTIALS_NAMESPACE, key)) as [H1 H2]. apply Hf. by rewrite (H2 x Hx).
Qed.

Lemma step_holds s s' key x : console_reads s s' -> holds key x (nvs s) -> holds key x (nvs s').
Proof using H0.
  intros (c & Hs & Hc) [H1 H2]. destruct Hs as [call s1 | s1 f | s1 n Hn | s1 n f Hr].
  - destruct (reading_untouched call s1) as [E1 E2]; [by destruct call|]. split; [by rewrite E1 | by rewrite E2].
  - done.
  - destruct (Hn key) as [E1 E2]. split; [by etrans|]. intros y Hy. by apply H2, E2.
  - destruct (restart_law _ _ Hr (CONSOLE_CREDENTIALS_NAMESPACE, key)) as [F1 F2]. apply H2 in F1. split; [exact F1|].
    intros y Hy. by rewrite (F2 y Hy).
Qed.

Lemma reads_hold s s' key x : rtc console_reads s s' -> holds key x (nvs s) -> holds key x (nvs s').
Proof using H0. intros Hr. induction Hr as [|s1 s2 s3 Hs _ IH]; [done|]. intros Hh. by eapply IH, step_holds. Qed.

(** A stored text that can be typed, and read into a buffer of [size] bytes. *)
Definition typable (size : nat) x : Prop :=
  x = None \/ exists u, x = Some (NvsStr u) /\ u <> [] /\ (length u < size)%nat /\ typed u = Some u.

Lemma fits_typable n x :
  stored_fits n ->
  (flash n name_key x -> typable SI_CONSOLE_USERNAME_MAX_LEN x) /\
  (flash n secret_key x -> typable SI_CONSOLE_PASSWORD_MAX_LEN x).
Proof using.
  intros Hf. split; intros Hx; destruct (Hf _ _ Hx) as [->|[(u & E & -> & Hu)|(p & E & -> & Hp)]];
    try done; try (by left); right.
  - exists u. split; [done | by apply username_types].
  - exists p. split; [done | by apply password_types].
Qed.

(** C36: whatever name and password the device keeps for the target's console, it can
    type.  From empty storage, after any calls, failed saves, losses of power and
    other tasks, every value that the flash may hold under the two keys is a text that
    is not empty, fits the buffer of its readers with its final zero, and is mapped to
    keys that the HID driver knows, and a US keyboard with those keys makes a host
    read exactly that text; and so are the name and the password that the readers
    return. *)
Theorem credentials_can_be_typed s0 s size :
  (forall key x, flash (nvs s0) (CONSOLE_CREDENTIALS_NAMESPACE, key) x -> x = None) -> rtc console_any s0 s ->
  let status := (si_console_credentials_get_status true s).1 in
  let secret := (si_console_credentials_get_password true size s).1 in
  (forall x, (flash (nvs s) name_key x -> typable SI_CONSOLE_USERNAME_MAX_LEN x) /\
             (flash (nvs s) secret_key x -> typable SI_CONSOLE_PASSWORD_MAX_LEN x)) /\
  (status.1 = ESP_OK -> typed (username status.2) = Some (username status.2) /\
                        (length (username status.2) < SI_CONSOLE_USERNAME_MAX_LEN)%nat) /\
  (secret.1 = ESP_OK -> secret.2 <> [] /\ (length secret.2 < SI_CONSOLE_PASSWORD_MAX_LEN)%nat /\
                        typed secret.2 = Some secret.2).
Proof using H0.
  intros H1 Hr status secret. assert (Hf : stored_fits (nvs s)).
  { assert (Hf0 : stored_fits (nvs s0)) by (intros key x Hx; left; by apply (H1 key)).
    clear H1. induction Hr as [|s1 s2 s3 [c Hs] _ IH]; [done | by eapply IH, step_fits]. }
  split; [intros x; by apply fits_typable|]. split.
  - intros He. destruct (get_status_spec s) as [_ Hst]. destruct (Hst He) as (_ & [E|E] & _); fold status in E.
    { rewrite E. split; [done | apply Nat.ltb_lt; reflexivity]. }
    destruct (proj1 (fits_typable _ _ Hf) (flash_contents _ _)) as [En|(u & Eu & _ & Hl & Ht)]; [by rewrite E in En|].
    rewrite E in Eu. by injection Eu as ->.
  - intros He. destruct size as [|size]; [done|].
    destruct (get_password_spec (S size) s ltac:(lia)) as (_ & Hok & _). destruct (Hok He) as [E _]. fold secret in E.
    destruct (proj2 (fits_typable _ _ Hf) (flash_contents _ _)) as [En|(u & Eu & Hu)]; [by rewrite E in En|].
    rewrite E in Eu. by injection Eu as ->.
Qed.

(** C37: a save that succeeds is what every later reading finds.  Until the next save or
    clear, over losses of power and whatever other services store, a status that
    succeeds names the saved name, and the password that was saved with it is there:
    read exactly when it can be read, never missing; after a save that clears the
    password none is ever read, and after one that says nothing about it, the one that
    was stored before. *)
Theorem saved_credentials_come_back name password present clear size s s2 :
  let '(e, s1) := si_console_credentials_save name password present clear s in
  e = ESP_OK -> rtc console_reads s1 s2 -> (0 < size)%nat ->
  let status := (si_console_credentials_get_status true s2).1 in
  let secret := (si_console_credentials_get_password true size s2).1 in
  (status.1 = ESP_OK -> configured status.2 = true /\ name = Some (username status.2) /\
     (clear = true -> password_configured status.2 = false) /\
     (clear = false -> present = true -> password_configured status.2 = true)) /\
  (clear = true -> secret.1 <> ESP_OK) /\
  (clear = false -> present = true -> secret.1 <> ESP_ERR_NOT_FOUND /\ (secret.1 = ESP_OK -> password = Some secret.2)) /\
  (clear = false -> present = false -> secret.1 = ESP_OK -> contents (nvs s) !! secret_key = Some (NvsStr secret.2)).
Proof using H0.
  pose proof (console_save_spec name password present clear s) as Hsave. unfold wp in Hsave.
  assert (Hvalid : (si_console_credentials_save name password present clear s).1 = ESP_OK -> present = true ->
            exists p, password = Some p /\ p <> []).
  { unfold si_console_credentials_save. intros He ->. case_if_in He; [done|]. case_if_in He; [done|]. cbn in Heqb0.
    apply negb_false_iff in Heqb0. destruct password as [p|]; [|done]. exists p. split; [done|]. by apply password_types. }
  destruct (si_console_credentials_save name password present clear s) as [e s1]. cbn [fst snd] in Hsave, Hvalid.
  destruct Hsave as [_ Hok]. intros He Hr Hsize status secret. destruct (Hok He) as (u & -> & Hu & _ & Hn & Hp).
  pose proof (reads_hold _ _ _ _ Hr Hn) as [Cn _]. pose proof (reads_hold _ _ _ _ Hr Hp) as [Cp _].
  destruct (get_status_spec s2) as [_ Hst]. fold status in Hst.
  destruct (get_password_spec size s2 Hsize) as (_ & Hsec & Hnone). fold secret in Hsec, Hnone.
  unfold saved_secret in Cp. split_and!.
  - intros Hs. destruct (Hst Hs) as (H1 & _ & H3 & H4). rewrite (H3 u Hu Cn) in *. split_and!; [by destruct u | done | |].
    + intros ->. destruct (password_configured status.2); [|done]. destruct (proj1 H4 eq_refl) as (p & E & _). by rewrite Cp in E.
    + intros -> ->. destruct (Hvalid He eq_refl) as (p & -> & Hne). apply H4. by exists p.
  - intros -> E. destruct (Hsec E) as [E' _]. by rewrite Cp in E'.
  - intros -> ->. destruct (Hvalid He eq_refl) as (p & -> & Hne). split; [intros E; by apply (Hnone E p)|].
    intros E. destruct (Hsec E) as [E' _]. rewrite Cp in E'. cbn in E'. congruence.
  - intros -> -> E. destruct (Hsec E) as [E' _]. by rewrite <- Cp.
Qed.
End console.

(** ** Witnesses *)

Definition demo_console : system ram := mk_system (mk_ram ∅ ∅ None) (mk_flash true true []).

Definition demo_name : cstring := cstr "root".
Definition demo_secret : cstring := cstr "Tr0ub4dor&3 ~".

Definition demo_console_save : esp_err_t * system ram :=
  si_console_credentials_save (Some demo_name) (Some demo_secret) true false demo_console.

(** The device loses power after the save. *)
Definition demo_console_restarted : system ram :=
  mk_system (mk_ram (safe (nvs demo_console_save.2)) (safe (nvs demo_console_save.2)) None) (mk_flash true true []).

Lemma demo_console_restarts : nvs_restarts (nvs demo_console_save.2) (nvs demo_console_restarted).
Proof. split; [done|]. intros k. by right. Qed.

Lemma demo_console_empty key x : flash (nvs demo_console) (CONSOLE_CREDENTIALS_NAMESPACE, key) x -> x = None.
Proof. by intros [-> | ->]. Qed.

Lemma demo_console_runs : rtc console_any demo_console demo_console_restarted.
Proof.
  apply rtc_l with (y := demo_console_save.2).
  - exists (Some (ConsoleSave (Some demo_name) (Some demo_secret) true false)). constructor.
  - apply rtc_once. exists None. apply step_restart. exact demo_console_restarts.
Qed.

Lemma credentials_can_be_typed_witness :
  let status := (si_console_credentials_get_status true demo_console_restarted).1 in
  let secret := (si_console_credentials_get_password true 128 demo_console_restarted).1 in
  status.2 = mk_console_status true true demo_name /\ secret = (ESP_OK, demo_secret) /\
  typable SI_CONSOLE_USERNAME_MAX_LEN (contents (nvs demo_console_restarted) !! name_key) /\
  typed (username status.2) = Some (username status.2) /\
  secret.2 <> [] /\ (length secret.2 < SI_CONSOLE_PASSWORD_MAX_LEN)%nat /\ typed secret.2 = Some secret.2.
Proof.
  intros status secret.
  assert (E1 : status = (ESP_OK, mk_console_status true true demo_name)) by by_eval.
  assert (E2 : secret = (ESP_OK, demo_secret)) by by_eval.
  destruct (credentials_can_be_typed demo_console demo_console_restarted 128 demo_console_empty demo_console_runs)
    as (H0 & H1 & H2).
  fold status in H1. fold secret in H2.
  pose proof (proj1 (H0 _) (flash_contents (nvs demo_console_restarted) name_key)) as H3.
  exact (conj (f_equal snd E1) (conj E2 (conj H3 (conj (proj1 (H1 (f_equal fst E1))) (H2 (f_equal fst E2)))))).
Defined.

Lemma saved_credentials_come_back_witness :
  let s1 := demo_console_save.2 in
  let status := (si_console_credentials_get_status true demo_console_restarted).1 in
  let secret := (si_console_credentials_get_password true 128 demo_console_restarted).1 in
  demo_console_save.1 = ESP_OK /\ status.1 = ESP_OK /\ secret.1 = ESP_OK /\
  Some demo_name = Some (username status.2) /\ Some demo_secret = Some secret.2.
Proof.
  intros s1 status secret.
  assert (E : demo_console_save.1 = ESP_OK) by by_eval.
  assert (E1 : status.1 = ESP_OK) by by_eval.
  assert (E2 : secret.1 = ESP_OK) by by_eval.
  assert (Hr : rtc console_reads s1 demo_console_restarted).
  { apply rtc_once. exists None. split; [apply step_restart; exact demo_console_restarts | exact I]. }
  pose proof (saved_credentials_come_back (Some demo_name) (Some demo_secret) true false 128 demo_console demo_console_restarted) as H.
  fold demo_console_save in H. destruct demo_console_save as [e s2] eqn:Es in H.
  assert (Ee : e = ESP_OK) by (rewrite <- E, Es; reflexivity).
  assert (Hr2 : rtc console_reads s2 demo_console_restarted) by (replace s2 with s1 by (subst s1; by rewrite Es); exact Hr).
  destruct (H Ee Hr2 ltac:(lia)) as (H1 & _ & H2 & _). fold status in H1. fold secret in H2.
  destruct (H1 E1) as (_ & Hn & _). destruct (H2 eq_refl eq_refl) as [_ Hp].
  exact (conj E (conj E1 (conj E2 (conj Hn (Hp E2))))).
Defined.
