(* ===== verification/VersionUtils.v ===== *)
(** * Firmware versions: [core/version_utils.c]

    The comparison walks both texts at once; the reference splits each into numbers
    and letters and compares the lists. *)

From Stdlib Require Import String.
From S2P Require Import Prelude CText.

(** [unsigned long] has 32 bits on the device. *)
Definition ULONG_MAX : Z := 2 ^ 32 - 1.

(** [strtoul] in base 10, at a digit: the number, which stays at [ULONG_MAX] when it
    is too large, and what follows. *)
Fixpoint strtoul_loop (s : cstring) (acc : Z) : Z * cstring :=
  match s with
  | c :: rest => if isdigit c then strtoul_loop rest (acc * 10 + (c - ch "0")) else (acc, s)
  | [] => (acc, [])
  end.

Definition strtoul (s : cstring) : Z * cstring :=
  let '(v, rest) := strtoul_loop s 0 in (Z.min v ULONG_MAX, rest).

(** Past what is neither a letter nor a digit. *)
Fixpoint skip_symbols (s : cstring) : cstring :=
  match s with
  | c :: rest => if isalnum c then s else skip_symbols rest
  | [] => []
  end.

(** The character at a pointer, zero at the end. *)
Definition peek (s : cstring) : Z := nth 0 s 0.

(** The loop; [None] when the fuel runs out. *)
Fixpoint compare_loop (fuel : nat) (pa pb : cstring) : option Z :=
  match fuel with
  | O => None
  | S fuel =>
      return_if is_empty pa && is_empty pb with Some 0 ;;
      let pa := skip_symbols pa in
      let pb := skip_symbols pb in
      if isdigit (peek pa) && isdigit (peek pb) then
        let '(va, pa) := strtoul pa in
        let '(vb, pb) := strtoul pb in
        return_if negb (va =? vb) with Some (if vb <? va then 1 else -1) ;;
        compare_loop fuel pa pb
      else
        let ca := tolower (peek pa) in
        let cb := tolower (peek pb) in
        return_if negb (ca =? cb) with Some (if cb <? ca then 1 else -1) ;;
        compare_loop fuel (tail pa) (tail pb)
  end.

(** The leading [v]. *)
Definition drop_v (s : cstring) : cstring :=
  if (peek s =? ch "v") || (peek s =? ch "V") then tail s else s.

(** Each round takes a character of one of the texts. *)
Definition si_version_compare (a b : option cstring) : option Z :=
  let a := drop_v (deref a) in
  let b := drop_v (deref b) in
  compare_loop (S (length a + length b)) a b.

(** ** The reference *)

Inductive token := Number (v : Z) | Letter (c : Z).

Definition flush (num : option Z) (l : list token) : list token :=
  match num with Some v => Number (Z.min v ULONG_MAX) :: l | None => l end.

(** The tokens of a text, after the digits of [num]. *)
Fixpoint tokens (num : option Z) (s : cstring) : list token :=
  match s with
  | [] => flush num []
  | c :: s =>
      if isdigit c then tokens (Some (default 0 num * 10 + (c - ch "0"))) s
      else flush num (if isalpha c then Letter (tolower c) :: tokens None s else tokens None s)
  end.

Definition version_tokens (p : option cstring) : list token := tokens None (drop_v (deref p)).

(** A number comes before a letter. *)
Definition token_compare (t u : token) : comparison :=
  match t, u with
  | Number x, Number y => x ?= y
  | Number _, Letter _ => Lt
  | Letter _, Number _ => Gt
  | Letter c, Letter d => c ?= d
  end.

Fixpoint tokens_compare (l m : list token) : comparison :=
  match l, m with
  | [], [] => Eq
  | [], _ :: _ => Lt
  | _ :: _, [] => Gt
  | t :: l, u :: m => match token_compare t u with Eq => tokens_compare l m | c => c end
  end.

Definition sign (c : comparison) : Z := match c with Lt => -1 | Eq => 0 | Gt => 1 end.
