(* ===== verification/VersionUtilsProps.v ===== *)
(** * Firmware versions: properties *)

From Stdlib Require Import String.
From S2P Require Import Prelude CText VersionUtils.

(** ** The walk and the lists *)

Lemma tokens_skip s : tokens None (skip_symbols s) = tokens None s.
Proof.
  induction s as [|c s IH]; [done|]. cbn [skip_symbols tokens]. unfold isalnum.
  destruct (isdigit c) eqn:Ed; cbn [orb]; [cbn [tokens]; by rewrite Ed|].
  destruct (isalpha c) eqn:Ea; [cbn [tokens]; by rewrite Ed, Ea | done].
Qed.

Lemma tokens_number s acc :
  tokens (Some acc) s = Number (Z.min (strtoul_loop s acc).1 ULONG_MAX) :: tokens None (strtoul_loop s acc).2.
Proof.
  revert acc. induction s as [|c s IH]; intros acc; [done|]. cbn [tokens strtoul_loop].
  destruct (isdigit c) eqn:Ed; [apply IH|]. cbn [flush fst snd tokens]. by rewrite Ed.
Qed.

Lemma tokens_digit s : isdigit (peek s) = true -> tokens None s = Number (strtoul s).1 :: tokens None (strtoul s).2.
Proof.
  intros Hd. unfold strtoul. destruct s as [|c s]; [done|]. cbn [peek nth] in Hd. cbn [tokens strtoul_loop]. rewrite Hd.
  rewrite tokens_number. cbn [default]. by destruct (strtoul_loop s _) as [v rest].
Qed.

Lemma strtoul_shorter s : isdigit (peek s) = true -> (length (strtoul s).2 < length s)%nat.
Proof.
  assert (Hle : forall s acc, (length (strtoul_loop s acc).2 <= length s)%nat).
  { clear s. induction s as [|c s IH]; intros acc; [done|]. cbn [strtoul_loop length]. case_if; [etrans; [apply IH | lia] | done]. }
  destruct s as [|c s]; [done|]. cbn [peek nth]. intros Hd. unfold strtoul. cbn [strtoul_loop]. rewrite Hd.
  specialize (Hle s (0 * 10 + (c - ch "0"))). destruct (strtoul_loop s _) as [v rest]. cbn in *. lia.
Qed.

(** After the skip: the end, a digit or a letter. *)
Lemma skip_cases s :
  skip_symbols s = [] \/ isalnum (peek (skip_symbols s)) = true /\ skip_symbols s <> [].
Proof. induction s as [|c s IH]; [by left|]. cbn [skip_symbols]. case_if; [by right | done]. Qed.

Lemma skip_shorter s : (length (skip_symbols s) <= length s)%nat.
Proof. induction s as [|c s IH]; [done|]. cbn [skip_symbols length]. case_if; cbn [length]; lia. Qed.

Lemma digit_range c : isdigit c = true -> 48 <= c <= 57.
Proof. by intros H%between_true. Qed.

Lemma letter_range c : isalpha c = true -> isdigit c = false /\ 97 <= tolower c <= 122.
Proof.
  unfold isalpha. intros H. assert (Hc : 65 <= c <= 90 \/ 97 <= c <= 122).
  { apply orb_prop in H as [H|H]; apply between_true in H; [by left | by right]. }
  split; [apply not_true_is_false; intros Hd%digit_range; lia|]. unfold tolower. destruct (isupper c) eqn:Eu.
  - apply between_true in Eu. change (65 <= c <= 90) in Eu. lia.
  - destruct Hc as [Hc|Hc]; [|done]. assert (isupper c = true) by by apply between_true. congruence.
Qed.

(** The head of what is left, as a token. *)
Definition head_is (s : cstring) (l : list token) : Prop :=
  (s = [] /\ l = [] /\ tolower (peek s) = 0) \/
  (exists v l', isdigit (peek s) = true /\ l = Number v :: l' /\ 48 <= tolower (peek s) <= 57) \/
  (isdigit (peek s) = false /\ l = Letter (tolower (peek s)) :: tokens None (tail s) /\ 97 <= tolower (peek s) <= 122 /\ s <> []).

Lemma skipped_head s : head_is (skip_symbols s) (tokens None s).
Proof.
  rewrite <- tokens_skip. destruct (skip_cases s) as [->|[Ha Hne]]; [by left|]. right.
  set (t := skip_symbols s) in *. clearbody t. unfold isalnum in Ha. destruct (isdigit (peek t)) eqn:Ed.
  - left. eexists _, _. split; [done|]. split; [by apply tokens_digit|]. apply digit_range in Ed. unfold tolower.
    destruct (isupper (peek t)) eqn:Eu; [|done]. apply between_true in Eu. change (65 <= peek t <= 90) in Eu. lia.
  - right. cbn [orb] in Ha. destruct (letter_range _ Ha) as [_ Hr]. split_and!; try done; try lia.
    destruct t as [|c t]; [done|]. cbn [peek nth] in Ed, Ha. cbn [tokens peek nth tail]. by rewrite Ed, Ha.
Qed.

Lemma sign_ne x y : negb (x =? y) = true -> (if y <? x then 1 else -1) = sign (x ?= y).
Proof.
  intros H. apply negb_true_iff, Z.eqb_neq in H. destruct (Z.ltb_spec y x); destruct (Z.compare_spec x y); cbn; lia.
Qed.

(** Each round consumes a token of both, or the walk ends. *)
Lemma loop_compares fuel a b :
  (length a + length b < fuel)%nat -> compare_loop fuel a b = Some (sign (tokens_compare (tokens None a) (tokens None b))).
Proof.
  revert a b. induction fuel as [|fuel IH]; intros a b Hf; [lia|]. cbn [compare_loop].
  destruct (is_empty a && is_empty b) eqn:Ee; [by destruct a, b|].
  pose proof (skip_shorter a) as La. pose proof (skip_shorter b) as Lb.
  assert (Hlen : (0 < length a + length b)%nat) by (destruct a, b; try done; cbn; lia).
  destruct (isdigit (peek (skip_symbols a)) && isdigit (peek (skip_symbols b))) eqn:Ed.
  - apply andb_prop in Ed as [Da Db]. rewrite <- (tokens_skip a), <- (tokens_skip b), (tokens_digit _ Da), (tokens_digit _ Db).
    pose proof (strtoul_shorter _ Da) as Sa. pose proof (strtoul_shorter _ Db) as Sb.
    destruct (strtoul (skip_symbols a)) as [va ra], (strtoul (skip_symbols b)) as [vb rb]. cbn [fst snd tokens_compare token_compare] in *.
    destruct (negb (va =? vb)) eqn:En.
    + rewrite (sign_ne _ _ En). destruct (va ?= vb) eqn:Ec; [|done..]. apply Z.compare_eq in Ec as ->. by rewrite Z.eqb_refl in En.
    + apply negb_false_iff, Z.eqb_eq in En as ->. rewrite Z.compare_refl. apply IH. lia.
  - destruct (skipped_head a) as [(Ea & Ta & Pa)|[(va & la & Da & Ta & Pa)|(Da & Ta & Pa & Na)]];
    destruct (skipped_head b) as [(Eb & Tb & Pb)|[(vb & lb & Db & Tb & Pb)|(Db & Tb & Pb & Nb)]];
    rewrite Ta, Tb; cbn [tokens_compare token_compare sign].
    + rewrite Pa, Pb, Ea, Eb. cbn [tail negb Z.eqb]. destruct fuel as [|fuel]; [lia | done].
    + rewrite Pa. destruct (negb _) eqn:En; [by rewrite (sign_ne _ _ En), (proj2 (Z.compare_lt_iff _ _)) by lia | to_props; split_guards; to_props; lia].
    + rewrite Pa. destruct (negb _) eqn:En; [by rewrite (sign_ne _ _ En), (proj2 (Z.compare_lt_iff _ _)) by lia | to_props; split_guards; to_props; lia].
    + rewrite Pb. destruct (negb _) eqn:En; [by rewrite (sign_ne _ _ En), (proj2 (Z.compare_gt_iff _ _)) by lia | to_props; split_guards; to_props; lia].
    + by rewrite Da, Db in Ed.
    + destruct (negb _) eqn:En; [by rewrite (sign_ne _ _ En), (proj2 (Z.compare_lt_iff _ _)) by lia | split_guards; to_props; lia].
    + rewrite Pb. destruct (negb _) eqn:En; [by rewrite (sign_ne _ _ En), (proj2 (Z.compare_gt_iff _ _)) by lia | split_guards; to_props; lia].
    + destruct (negb _) eqn:En; [by rewrite (sign_ne _ _ En), (proj2 (Z.compare_gt_iff _ _)) by lia | split_guards; to_props; lia].
    + destruct (negb _) eqn:En.
      * rewrite (sign_ne _ _ En). destruct (_ ?= _) eqn:Ec; [|done..]. apply Z.compare_eq in Ec. by rewrite Ec, Z.eqb_refl in En.
      * apply negb_false_iff, Z.eqb_eq in En. rewrite En, Z.compare_refl. apply IH.
        destruct (skip_symbols a), (skip_symbols b); try done. cbn in *. lia.
Qed.

(** ** The order of the lists *)

Lemma token_compare_eq t u : token_compare t u = Eq -> t = u.
Proof. destruct t, u; cbn; try done; by intros ->%Z.compare_eq. Qed.

Lemma token_compare_refl t : token_compare t t = Eq.
Proof. destruct t; apply Z.compare_refl. Qed.

Lemma token_compare_trans t u v : token_compare t u = Lt -> token_compare u v = Lt -> token_compare t v = Lt.
Proof. destruct t, u, v; cbn; try done; rewrite !Z.compare_lt_iff; lia. Qed.

Lemma tokens_compare_antisym l m : tokens_compare m l = CompOpp (tokens_compare l m).
Proof.
  revert m. induction l as [|t l IH]; intros [|u m]; try done. cbn [tokens_compare].
  assert (E : token_compare u t = CompOpp (token_compare t u)) by (destruct t, u; cbn; try done; apply Z.compare_antisym).
  rewrite E. destruct (token_compare t u); [apply IH | done | done].
Qed.

Lemma tokens_compare_eq l m : tokens_compare l m = Eq <-> l = m.
Proof.
  revert m. induction l as [|t l IH]; intros [|u m]; try done. cbn [tokens_compare].
  destruct (token_compare t u) eqn:E.
  - apply token_compare_eq in E as ->. rewrite IH. split; [by intros -> | by intros [= ->]].
  - split; [done|]. intros [= -> ->]. by rewrite token_compare_refl in E.
  - split; [done|]. intros [= -> ->]. by rewrite token_compare_refl in E.
Qed.

Lemma tokens_compare_trans l m k : tokens_compare l m = Lt -> tokens_compare m k = Lt -> tokens_compare l k = Lt.
Proof.
  revert m k. induction l as [|t l IH]; intros [|u m] [|v k]; try done. cbn [tokens_compare].
  destruct (token_compare t u) eqn:E1, (token_compare u v) eqn:E2; try done; intros H1 H2.
  - apply token_compare_eq in E1 as ->. rewrite E2. by eapply IH.
  - apply token_compare_eq in E1 as ->. by rewrite E2.
  - apply token_compare_eq in E2 as ->. by rewrite E1.
  - by rewrite (token_compare_trans _ _ _ E1 E2).
Qed.

(** C38: the comparison of versions terminates and compares their numbers and letters
    one by one, whatever stands between them, and so is a total order: it never says
    of two versions that each is newer, and versions that compare equal are the same
    list of numbers and letters. *)
Theorem version_compare_orders a b c :
  exists x, si_version_compare a b = Some x /\ x = sign (tokens_compare (version_tokens a) (version_tokens b)) /\
    si_version_compare b a = Some (- x) /\ (x = 0 <-> version_tokens a = version_tokens b) /\
    (x = -1 -> si_version_compare b c = Some (-1) -> si_version_compare a c = Some (-1)).
Proof.
  assert (E : forall p q, si_version_compare p q = Some (sign (tokens_compare (version_tokens p) (version_tokens q)))).
  { intros p q. unfold si_version_compare, version_tokens. apply loop_compares. lia. }
  rewrite !E. eexists. split_and!; [done | done | | |].
  - rewrite tokens_compare_antisym. by destruct (tokens_compare _ _).
  - rewrite <- tokens_compare_eq. by destruct (tokens_compare _ _).
  - destruct (tokens_compare _ _) eqn:E1; try done. destruct (tokens_compare (version_tokens b) _) eqn:E2; try done.
    intros _ _. by rewrite (tokens_compare_trans _ _ _ E1 E2).
Qed.

(** Numbers are compared as numbers, also with letters around them. *)
Example newer_versions :
  si_version_compare (Some (cstr "v0.86.10-dev")) (Some (cstr "0.86.9")) = Some 1 /\
  si_version_compare (Some (cstr "0.86.6-dev")) (Some (cstr "V0.86.6-DEV")) = Some 0 /\
  si_version_compare (Some (cstr "1.0")) (Some (cstr "1.0-rc1")) = Some (-1).
Proof. split_and!; by_eval. Qed.
