(* ===== verification/Utf8.v ===== *)
(** * UTF-8: [core/utf8_utils.c]

    Text that came from outside is made valid before it goes into a document, and a
    copy into a buffer ends between two characters.  The reference is the encoding of
    Unicode's code points. *)

From Stdlib Require Import String.
From S2P Require Import Prelude CText.

Definition continuation (c : Z) : bool := Z.land c 192 =? 128.

(** The length of the sequence at the start of [s]; [available] is how much of the
    text follows. *)
Definition valid_sequence (s : cstring) (available : nat) : option nat :=
  let at_ i := nth i s 0 in
  let c := at_ 0%nat in
  return_if c <? 0x80 with Some 1%nat ;;
  return_if (0xc2 <=? c) && (c <=? 0xdf) && (2 <=? available)%nat && continuation (at_ 1%nat) with Some 2%nat ;;
  return_if (c =? 0xe0) && (3 <=? available)%nat && (0xa0 <=? at_ 1%nat) && (at_ 1%nat <=? 0xbf) && continuation (at_ 2%nat)
    with Some 3%nat ;;
  return_if ((0xe1 <=? c) && (c <=? 0xec) || (0xee <=? c) && (c <=? 0xef)) && (3 <=? available)%nat &&
            continuation (at_ 1%nat) && continuation (at_ 2%nat) with Some 3%nat ;;
  return_if (c =? 0xed) && (3 <=? available)%nat && (0x80 <=? at_ 1%nat) && (at_ 1%nat <=? 0x9f) && continuation (at_ 2%nat)
    with Some 3%nat ;;
  return_if (c =? 0xf0) && (4 <=? available)%nat && (0x90 <=? at_ 1%nat) && (at_ 1%nat <=? 0xbf) &&
            continuation (at_ 2%nat) && continuation (at_ 3%nat) with Some 4%nat ;;
  return_if (0xf1 <=? c) && (c <=? 0xf3) && (4 <=? available)%nat && continuation (at_ 1%nat) &&
            continuation (at_ 2%nat) && continuation (at_ 3%nat) with Some 4%nat ;;
  return_if (c =? 0xf4) && (4 <=? available)%nat && (0x80 <=? at_ 1%nat) && (at_ 1%nat <=? 0x8f) &&
            continuation (at_ 2%nat) && continuation (at_ 3%nat) with Some 4%nat ;;
  None.

(** A character below the blank becomes one, the line breaks and the tabulator stay. *)
Definition plain_char (c : Z) : Z :=
  if (c <? 0x20) && negb (c =? 10) && negb (c =? 13) && negb (c =? 9) then ch " " else c.

(** The loop, at the index [i] with the output so far; every round moves on. *)
Fixpoint sanitize_loop (fuel : nat) (content : cstring) (limit capacity i : nat) (out : cstring) : nat * cstring :=
  match fuel with
  | O => (i, out)
  | S fuel =>
      return_if negb ((i <? limit)%nat && (length out + 5 <? capacity)%nat) with (i, out) ;;
      let c := nth i content 0 in
      return_if c <? 0x80 with sanitize_loop fuel content limit capacity (S i) (out ++ [plain_char c]) ;;
      match valid_sequence (drop i content) (length content - i) with
      | Some n =>
          if (i + n <=? limit)%nat
          then sanitize_loop fuel content limit capacity (i + n) (out ++ take n (drop i content))
          else sanitize_loop fuel content limit capacity (S i) (out ++ [ch "?"])
      | None => sanitize_loop fuel content limit capacity (S i) (out ++ [ch "?"])
      end
  end.

(** The line break and what follows it. *)
Definition truncated_suffix : cstring := 10 :: cstr "[truncated]".

(** [allocated]: whether [calloc] has the memory. *)
Definition si_utf8_sanitize (content : option cstring) (max_len : nat) (allocated : bool) : option cstring :=
  match content with
  | None => None
  | Some content =>
      let input_len := length content in
      let limit := if negb (max_len =? 0)%nat && (max_len <? input_len)%nat then max_len else input_len in
      let capacity := (limit + 16)%nat in
      return_if negb allocated with None ;;
      let '(i, out) := sanitize_loop limit content limit capacity 0 [] in
      let truncated := (limit <? input_len)%nat || negb (max_len =? 0)%nat && (i <? input_len)%nat in
      if truncated && (length out + (length truncated_suffix + 1) <? capacity)%nat
      then Some (out ++ truncated_suffix) else Some out
  end.

(** The loop of [si_utf8_prefix_len]. *)
Fixpoint cut_back (text : cstring) (cut : nat) : nat :=
  match cut with
  | O => O
  | S n => if continuation (nth cut text 0) then cut_back text n else cut
  end.

Definition si_utf8_prefix_len (text : cstring) (len max_len : nat) : nat :=
  return_if (len <=? max_len)%nat with len ;;
  cut_back text max_len.

(** [None]: nothing is written. *)
Definition si_utf8_strlcpy (dst : bool) (src : option cstring) (dst_size : nat) : option cstring :=
  return_if negb dst || (dst_size =? 0)%nat with None ;;
  match src with
  | None => Some []
  | Some src => Some (take (si_utf8_prefix_len src (length src) (dst_size - 1)) src)
  end.

(** ** The reference: code points and their encoding *)

Definition scalar (p : Z) : bool := ((0 <=? p) && (p <? 0xd800)) || ((0xe000 <=? p) && (p <? 0x110000)).

Definition encode (p : Z) : list Z :=
  if p <? 0x80 then [p]
  else if p <? 0x800 then [192 + p / 64; 128 + p mod 64]
  else if p <? 0x10000 then [224 + p / 4096; 128 + (p / 64) mod 64; 128 + p mod 64]
  else [240 + p / 262144; 128 + (p / 4096) mod 64; 128 + (p / 64) mod 64; 128 + p mod 64].

Definition encoded (ps : list Z) : cstring := ps ≫= encode.

(** Not below the blank, except the line breaks and the tabulator; 0x7f and the
    control characters from U+0080 to U+009F are not touched. *)
Definition shown (p : Z) : bool := (0x20 <=? p) || (p =? 10) || (p =? 13) || (p =? 9).
