(* ===== verification/Utf8Props.v ===== *)
(** * UTF-8: properties

    What the test of a sequence accepts is exactly the encoding of a code point; the
    sanitizer's output is valid, and valid text passes unchanged; a copy is the
    longest run of whole characters that fits. *)

From Stdlib Require Import String ZifyBool ZifyNat.
From S2P Require Import Prelude CText Utf8.

(** ** Sequences and code points *)

Lemma continuation_range c : is_byte c -> continuation c = true <-> 128 <= c <= 191.
Proof.
  intros Hc. assert (H : Forall (fun c => continuation c = (128 <=? c) && (c <=? 191)) (seqZ 0 256)).
  { apply (bool_decide_unpack _). by_eval. }
  rewrite Forall_forall in H. rewrite (H c) by (apply elem_of_seqZ; unfold is_byte in Hc; lia).
  rewrite andb_true_iff, !Z.leb_le. lia.
Qed.

Ltac encode_case :=
  unfold encode;
  repeat match goal with |- context [if ?a <? ?b then _ else _] => destruct (Z.ltb_spec a b); [try lia|try lia] end;
  repeat f_equal; Z.to_euclidean_division_equations; lia.

Lemma encode_two a b : 0xc2 <= a <= 0xdf -> 128 <= b <= 191 -> encode ((a - 192) * 64 + (b - 128)) = [a; b].
Proof. intros Ha Hb. encode_case. Qed.

Lemma encode_three a b c :
  0xe0 <= a <= 0xef -> 128 <= b <= 191 -> 128 <= c <= 191 -> (a = 0xe0 -> 0xa0 <= b) ->
  encode ((a - 224) * 4096 + (b - 128) * 64 + (c - 128)) = [a; b; c].
Proof. intros Ha Hb Hc H0. encode_case. Qed.

Lemma encode_four a b c d :
  0xf0 <= a <= 0xf4 -> 128 <= b <= 191 -> 128 <= c <= 191 -> 128 <= d <= 191 -> (a = 0xf0 -> 0x90 <= b) ->
  encode ((a - 240) * 262144 + (b - 128) * 4096 + (c - 128) * 64 + (d - 128)) = [a; b; c; d].
Proof. intros Ha Hb Hc Hd H0. encode_case. Qed.

Lemma scalar_true p : scalar p = true <-> 0 <= p < 0xd800 \/ 0xe000 <= p < 0x110000.
Proof. unfold scalar. rewrite orb_true_iff, !andb_true_iff, !Z.leb_le, !Z.ltb_lt. lia. Qed.

(** The tests of one branch, as ranges. *)
Ltac ranges :=
  repeat match goal with
  | H : _ && _ = true |- _ => apply andb_prop in H as [? ?]
  | H : _ || _ = true |- _ => apply orb_prop in H as [H|H]
  end; to_props;
  repeat match goal with
  | H : continuation ?c = true |- _ => apply continuation_range in H; [|assumption]
  end.

(** What the test accepts is the encoding of a code point. *)
Lemma sequence_sound s n :
  Forall is_byte s -> s <> [] -> valid_sequence s (length s) = Some n ->
  exists p, scalar p = true /\ take n s = encode p /\ n = length (encode p) /\ (n <= length s)%nat.
Proof.
  intros Hs Hne Hv. assert (Hb : forall i, is_byte (nth i s 0)).
  { intros i. destruct (lt_dec i (length s)) as [Hi|Hi].
    - apply (proj1 (Forall_forall _ _) Hs), list_elem_of_In, nth_In, Hi.
    - rewrite nth_overflow by lia. done. }
  pose proof (Hb 0%nat) as B0. pose proof (Hb 1%nat) as B1. pose proof (Hb 2%nat) as B2. pose proof (Hb 3%nat) as B3.
  assert (Htake : forall k, (k <= length s)%nat -> take k s = map (fun i => nth i s 0) (seq 0 k)).
  { clear. intros k. revert s. induction k as [|k IH]; intros [|x s] Hk; cbn in *; try lia; try done.
    f_equal. rewrite IH by lia. by rewrite <- seq_shift, map_map. }
  assert (Hl : (1 <= length s)%nat) by (destruct s; [done | cbn; lia]).
  unfold valid_sequence in Hv. cbv zeta in Hv. set (a := nth 0 s 0) in *. set (b := nth 1 s 0) in *.
  set (c := nth 2 s 0) in *. set (d := nth 3 s 0) in *.
  assert (Hfit : forall k p l, l = map (fun i => nth i s 0) (seq 0 k) -> (k <= length s)%nat -> scalar p = true ->
            encode p = l -> n = k -> exists p, scalar p = true /\ take n s = encode p /\ n = length (encode p) /\ (n <= length s)%nat).
  { intros k p l -> Hk Hsc E ->. exists p. rewrite E, (Htake k Hk), length_map, length_seq. done. }
  pose proof (fun p => Hfit 1%nat p [a] eq_refl) as H1. pose proof (fun p => Hfit 2%nat p [a; b] eq_refl) as H2.
  pose proof (fun p => Hfit 3%nat p [a; b; c] eq_refl) as H3. pose proof (fun p => Hfit 4%nat p [a; b; c; d] eq_refl) as H4.
  clear Hfit Htake. clearbody a b c d. unfold is_byte in *.
  case_if_in Hv; [injection Hv as <-; to_props; apply (H1 a); try done; [apply scalar_true; lia | unfold encode; destruct (Z.ltb_spec a 128); [done|lia]]|].
  clear H1. case_if_in Hv; [injection Hv as <-; ranges; eapply H2; [done | | by apply encode_two | done]; apply scalar_true; lia|].
  clear H2. do 3 (case_if_in Hv; [injection Hv as <-; ranges; (eapply H3; [done | | by apply encode_three; lia | done]; apply scalar_true; lia)|]).
  clear H3. do 3 (case_if_in Hv; [injection Hv as <-; ranges; (eapply H4; [done | | by apply encode_four; lia | done]; apply scalar_true; lia)|]).
  done.
Qed.

Lemma continuation_low x : 0 <= x < 64 -> continuation (128 + x) = true.
Proof. intros Hx. apply continuation_range; unfold is_byte; lia. Qed.

Lemma encode_bytes p : scalar p = true -> Forall is_byte (encode p).
Proof.
  intros Hp%scalar_true. unfold encode, is_byte.
  repeat case_if; to_props; repeat constructor; Z.to_euclidean_division_equations; lia.
Qed.

(** The encoding of a code point is accepted, whatever follows. *)
Lemma sequence_complete p rest :
  scalar p = true -> valid_sequence (encode p ++ rest) (length (encode p ++ rest)) = Some (length (encode p)).
Proof.
  intros Hp%scalar_true. unfold encode, valid_sequence. cbv zeta.
  destruct (Z.ltb_spec p 0x80); [|destruct (Z.ltb_spec p 0x800); [|destruct (Z.ltb_spec p 0x10000)]];
    cbn [app nth length]; rewrite ?continuation_low by (apply Z.mod_pos_bound; lia).
  - assert ((p <? 128) = true) as -> by lia. done.
  - repeat (case_if; try done); exfalso; Z.to_euclidean_division_equations; lia.
  - repeat (case_if; try done); exfalso; Z.to_euclidean_division_equations; lia.
  - repeat (case_if; try done); exfalso; Z.to_euclidean_division_equations; lia.
Qed.

Lemma encode_length p : (1 <= length (encode p))%nat.
Proof. unfold encode. repeat case_if; cbn; lia. Qed.

Lemma encoded_app ps qs : encoded (ps ++ qs) = encoded ps ++ encoded qs.
Proof. unfold encoded. apply bind_app. Qed.

Lemma encode_ascii p : p < 0x80 -> encode p = [p].
Proof. intros Hp. unfold encode. by rewrite (proj2 (Z.ltb_lt _ _) Hp). Qed.

(** ** The sanitizer *)

(** Text of shown characters. *)
Definition shown_text (out : cstring) : Prop :=
  exists ps, Forall (fun p => scalar p = true /\ shown p = true) ps /\ out = encoded ps.

Lemma shown_app out p : shown_text out -> scalar p = true -> shown p = true -> shown_text (out ++ encode p).
Proof.
  intros (ps & Hps & ->) H1 H2. exists (ps ++ [p]). rewrite encoded_app. split; [apply Forall_app; by split; [|constructor]|].
  unfold encoded at 3. cbn. by rewrite app_nil_r.
Qed.

Lemma shown_plain out c : shown_text out -> 0 <= c < 0x80 -> shown_text (out ++ [plain_char c]).
Proof.
  intros Ho Hc. assert (Hr : 0 <= plain_char c < 0x80 /\ shown (plain_char c) = true).
  { unfold plain_char, shown. change (ch " ") with 32. case_if; lia. }
  rewrite <- (encode_ascii (plain_char c)) by lia. apply shown_app; [done | apply scalar_true; lia | apply Hr].
Qed.

Lemma sanitize_shown fuel content limit i out :
  Forall is_byte content -> (limit <= length content)%nat -> (length out <= i)%nat -> shown_text out -> (i <= limit)%nat ->
  (limit - i <= fuel)%nat ->
  let r := sanitize_loop fuel content limit (limit + 16) i out in
  r.1 = limit /\ shown_text r.2 /\ (length r.2 <= limit)%nat.
Proof.
  intros Hb Hl. revert i out. induction fuel as [|fuel IH]; intros i out Hlen Ho Hi Hf; cbn [sanitize_loop].
  { assert (i = limit) as -> by lia. by split_and!. }
  case_if. { assert (i = limit) as -> by lia. by split_and!. }
  assert (Hil : (i < limit)%nat) by lia. clear Heqb.
  assert (Hq : shown_text (out ++ [ch "?"])).
  { rewrite <- (encode_ascii (ch "?")) by done. by apply shown_app. }
  assert (Hdrop : drop i content <> []) by (intros E%(f_equal length); rewrite length_drop in E; cbn in E; lia).
  assert (Hd : Forall is_byte (drop i content)) by by apply Forall_drop.
  assert (Hnth : nth i content 0 = nth 0 (drop i content) 0) by (rewrite nth_skipn; f_equal; lia).
  case_if.
  { apply IH; rewrite ?length_app; cbn [length]; try lia. apply shown_plain; [done|]. rewrite Hnth.
    destruct (drop i content) as [|c rest]; [done|]. inversion_clear Hd. cbn [nth]. rewrite Hnth in Heqb. cbn in Heqb.
    unfold is_byte in *. lia. }
  assert (Hstep : (i + 1 = S i)%nat) by lia.
  destruct (valid_sequence (drop i content) (length content - i)) as [n|] eqn:Ev.
  2: { apply IH; rewrite ?length_app; cbn [length]; [lia | done | lia | lia]. }
  rewrite <- length_drop in Ev. destruct (sequence_sound _ _ Hd Hdrop Ev) as (p & Hp & Et & En & Hn).
  pose proof (encode_length p). case_if; [|apply IH; rewrite ?length_app; cbn [length]; [lia | done | lia | lia]].
  apply IH; rewrite ?length_app, ?length_take; [lia | | lia | lia]. rewrite Et. apply shown_app; [done | done|].
  assert (128 <= p); [|unfold shown; lia]. apply Z.nlt_ge. intros Hlow. rewrite (encode_ascii p Hlow) in Et, En.
  apply scalar_true in Hp. rewrite Hnth in Heqb. destruct (drop i content) as [|c rest]; [done|]. subst n.
  cbn in Et, Heqb. injection Et as ->. lia.
Qed.

Lemma encode_head p : 0x80 <= p -> scalar p = true -> exists a l, encode p = a :: l /\ 0x80 <= a.
Proof.
  intros Hp Hs%scalar_true. unfold encode. repeat case_if; to_props; eexists _, _; (split; [reflexivity|]);
    Z.to_euclidean_division_equations; lia.
Qed.

(** Shown text passes as it is. *)
Lemma sanitize_passes ps fuel qs :
  Forall (fun p => scalar p = true /\ shown p = true) ps -> (length (encoded ps) <= fuel)%nat ->
  let content := encoded qs ++ encoded ps in
  sanitize_loop fuel content (length content) (length content + 16) (length (encoded qs)) (encoded qs) = (length content, content).
Proof.
  cbv zeta. revert fuel qs. induction ps as [|p ps IH]; intros fuel qs Hps Hf.
  { rewrite app_nil_r. destruct fuel as [|fuel]; [done|]. cbn [sanitize_loop]. by rewrite Nat.ltb_irrefl. }
  inversion_clear Hps as [|? ? [Hp Hsh] Hps'].
  assert (Ec : encoded qs ++ encoded (p :: ps) = encoded (qs ++ [p]) ++ encoded ps).
  { rewrite encoded_app, <- app_assoc. f_equal. cbn. by rewrite app_nil_r. }
  assert (El : encoded (p :: ps) = encode p ++ encoded ps) by done.
  assert (Eq : encoded (qs ++ [p]) = encoded qs ++ encode p) by (rewrite encoded_app; cbn; by rewrite app_nil_r).
  pose proof (encode_length p) as Hlen. rewrite El, length_app in Hf. destruct fuel as [|fuel]; [lia|]. cbn [sanitize_loop].
  assert (Hin : ((length (encoded qs) <? length (encoded qs ++ encoded (p :: ps))) &&
    (length (encoded qs) + 5 <? length (encoded qs ++ encoded (p :: ps)) + 16))%nat = true).
  { rewrite El, !length_app. lia. }
  rewrite Hin. cbn [negb]. rewrite drop_app_length, <- length_drop, drop_app_length.
  assert (Hnth : nth (length (encoded qs)) (encoded qs ++ encoded (p :: ps)) 0 = nth 0 (encode p ++ encoded ps) 0).
  { rewrite app_nth2, Nat.sub_diag by lia. by rewrite El. }
  rewrite Hnth, El. destruct (Z.ltb_spec p 0x80) as [Hlow|Hhigh].
  - rewrite (encode_ascii p Hlow) in *. cbn [app nth]. rewrite (proj2 (Z.ltb_lt _ _) Hlow).
    assert (Epl : plain_char p = p) by (unfold plain_char, shown in *; case_if; lia).
    rewrite Epl, <- Eq. change (p :: encoded ps) with ([p] ++ encoded ps). rewrite app_assoc, <- Eq.
    replace (S (length (encoded qs))) with (length (encoded (qs ++ [p]))) by (rewrite Eq, length_app; cbn; lia).
    apply IH; [done | cbn in Hf; lia].
  - destruct (encode_head p Hhigh Hp) as (a & l & Ea & Ha). rewrite Ea at 1. cbn [app nth].
    rewrite (proj2 (Z.ltb_ge _ _) Ha), (sequence_complete p (encoded ps) Hp).
    assert (Hfit : (length (encoded qs) + length (encode p) <=? length (encoded qs ++ encode p ++ encoded ps))%nat = true).
    { rewrite !length_app. apply Nat.leb_le. lia. }
    rewrite Hfit, take_app_length, <- Eq, app_assoc, <- Eq.
    replace (length (encoded qs) + length (encode p))%nat with (length (encoded (qs ++ [p]))) by (by rewrite Eq, length_app).
    apply IH; [done | lia].
Qed.

Lemma suffix_shown out : shown_text out -> shown_text (out ++ truncated_suffix).
Proof.
  intros (ps & Hps & ->). exists (ps ++ truncated_suffix). rewrite encoded_app. split; [|by f_equal].
  apply Forall_app. split; [done|]. repeat constructor.
Qed.

(** C39: the sanitizer always gives valid text.  Whatever bytes come in, the output is
    the UTF-8 encoding of code points, none of them below the blank except line breaks
    and tabulators (0x7f and U+0080 to U+009F pass as they are); it is at most twelve
    bytes, the note that the text was cut, longer than what is taken of the input, and
    no longer than the input when all of it is taken, so that it fits what was
    allocated, also without a limit; text that is too long ends in that note; and text
    that is valid, has none of the replaced characters and is short enough comes out
    as it was. *)
Theorem sanitize_makes_utf8 content max_len :
  Forall is_byte content ->
  let limit := if (max_len =? 0)%nat then length content else Nat.min max_len (length content) in
  exists out, si_utf8_sanitize (Some content) max_len true = Some out /\ shown_text out /\
    (length out <= limit + length truncated_suffix)%nat /\
    (limit = length content -> (length out <= length content)%nat) /\
    (max_len <> 0%nat -> (max_len < length content)%nat ->
       exists t, out = t ++ truncated_suffix /\ (length t <= max_len)%nat) /\
    (shown_text content -> max_len = 0%nat \/ (length content <= max_len)%nat -> out = content).
Proof.
  intros Hb bound. unfold si_utf8_sanitize. cbn [negb].
  set (limit := if negb (max_len =? 0)%nat && (max_len <? length content)%nat then max_len else length content).
  assert (Hlim : (limit <= length content)%nat) by (subst limit; case_if; lia).
  assert (Hbound : limit = bound) by (subst limit bound; repeat case_if; lia). clearbody bound. subst bound.
  destruct (sanitize_shown limit content limit 0 [] Hb Hlim ltac:(done) ltac:(by exists []) ltac:(lia) ltac:(lia)) as (E1 & Hs & Hl).
  assert (Hpass : shown_text content -> limit = length content ->
            sanitize_loop limit content limit (limit + 16) 0 [] = (limit, content)).
  { intros (ps & Hps & ->) ->. apply (sanitize_passes ps _ [] Hps). lia. }
  destruct (sanitize_loop limit content limit (limit + 16) 0 []) as [i out]. cbn [fst snd] in *. subst i.
  assert (Hroom : (length out + (length truncated_suffix + 1) <? limit + 16)%nat = true) by (apply Nat.ltb_lt; cbn; lia).
  rewrite Hroom, andb_true_r. destruct ((limit <? length content)%nat || _) eqn:Et.
  - assert (Hcut : limit = max_len /\ (max_len < length content)%nat /\ max_len <> 0%nat) by (subst limit; case_if; lia).
    destruct Hcut as (-> & Hcut & Hne). eexists. split; [done|].
    split_and!; [by apply suffix_shown | rewrite length_app; lia | lia | by exists out | lia].
  - assert (Hfull : limit = length content) by (subst limit; case_if; lia). exists out. split; [done|].
    split_and!; [done | lia | lia | |].
    + intros Hne Hlt. subst limit. case_if; lia.
    + intros Hsh _. specialize (Hpass Hsh Hfull). congruence.
Qed.

(** ** The copy *)

(** Where a character starts, and inside of it. *)
Lemma encode_marks p : scalar p = true ->
  continuation (nth 0 (encode p) 0) = false /\
  forall i rest, (0 < i < length (encode p))%nat -> continuation (nth i (encode p ++ rest) 0) = true.
Proof.
  intros Hp. pose proof (encode_bytes p Hp) as Hb. apply scalar_true in Hp. split.
  - destruct (continuation (nth 0 (encode p) 0)) eqn:Ec; [|done]. apply continuation_range in Ec.
    + unfold encode in Ec. repeat case_if; cbn [nth] in Ec; to_props; Z.to_euclidean_division_equations; lia.
    + pose proof (encode_length p). destruct (encode p); [cbn in *; lia | by inversion_clear Hb].
  - clear Hb. intros i rest. unfold encode. repeat case_if; cbn [length]; intros Hi;
      destruct i as [|[|[|[|i]]]]; try lia; cbn [app nth]; apply continuation_low, Z.mod_pos_bound; lia.
Qed.

Lemma cut_back_inside p rest m : scalar p = true -> (m < length (encode p))%nat -> cut_back (encode p ++ rest) m = 0%nat.
Proof.
  intros Hp Hm. induction m as [|m IH]; [done|]. cbn [cut_back]. rewrite (proj2 (encode_marks p Hp)) by lia. apply IH. lia.
Qed.

(** In the rest of a text, behind a start of a character. *)
Lemma cut_back_behind l rest m :
  continuation (nth 0 rest 0) = false -> cut_back (l ++ rest) (length l + m) = (length l + cut_back rest m)%nat.
Proof.
  intros Hr. induction m as [|m IH].
  - rewrite Nat.add_0_r. cbn [cut_back]. rewrite Nat.add_0_r. destruct l as [|x l]; [done|]. cbn [length cut_back].
    rewrite (app_nth2 (x :: l)) by (cbn; lia). cbn [length]. rewrite Nat.sub_diag, Hr. done.
  - rewrite Nat.add_succ_r. cbn [cut_back]. rewrite app_nth2 by lia. replace (S (length l + m) - length l)%nat with (S m) by lia.
    case_if; [apply IH | lia].
Qed.

(** The cut is the end of the last character that fits. *)
Lemma cut_back_spec ps m :
  Forall (fun p => scalar p = true) ps -> (m < length (encoded ps))%nat ->
  exists k, (k < length ps)%nat /\ cut_back (encoded ps) m = length (encoded (take k ps)) /\
    (length (encoded (take k ps)) <= m < length (encoded (take (S k) ps)))%nat.
Proof.
  intros Hps. revert m. induction Hps as [|p ps Hp Hps IH]; intros m Hm; [cbn in Hm; lia|].
  assert (E : forall qs, encoded (p :: qs) = encode p ++ encoded qs) by done. rewrite E in *. rewrite length_app in Hm.
  destruct (lt_dec m (length (encode p))) as [Hin|Hout].
  - exists 0%nat. rewrite cut_back_inside by done. cbn [take length]. rewrite E, length_app. cbn. split_and!; lia.
  - destruct (IH (m - length (encode p))%nat ltac:(lia)) as (k & Hk & Ec & Hr). exists (S k).
    replace m with (length (encode p) + (m - length (encode p)))%nat by lia. rewrite cut_back_behind, Ec.
    + cbn [take length]. rewrite !E, !length_app. split_and!; lia.
    + destruct Hps as [|q qs Hq _]; [cbn in Hm; lia|]. change (encoded (q :: qs)) with (encode q ++ encoded qs).
      rewrite app_nth1 by (pose proof (encode_length q); lia). by apply encode_marks.
Qed.

Lemma take_encoded ps k : take (length (encoded (take k ps))) (encoded ps) = encoded (take k ps).
Proof. rewrite <- (take_drop k ps) at 2. by rewrite encoded_app, take_app_length. Qed.

(** A copy ends between two characters.  The copy of valid text into a buffer is
    its longest run of whole characters that fits with the final zero; it is the whole
    text when the text fits. *)
Theorem copy_keeps_characters ps size :
  Forall (fun p => scalar p = true) ps -> (0 < size)%nat ->
  exists k, si_utf8_strlcpy true (Some (encoded ps)) size = Some (encoded (take k ps)) /\
    (length (encoded (take k ps)) < size)%nat /\
    (take k ps = ps \/ (size <= length (encoded (take (S k) ps)))%nat).
Proof.
  intros Hps Hsize. unfold si_utf8_strlcpy, si_utf8_prefix_len. cbn [negb orb].
  assert ((size =? 0)%nat = false) as -> by lia. destruct (Nat.leb_spec (length (encoded ps)) (size - 1)) as [Hle|Hgt].
  - exists (length ps). rewrite !firstn_all. split_and!; [done | lia | by left].
  - destruct (cut_back_spec ps (size - 1) Hps Hgt) as (k & _ & -> & Hr). exists k. rewrite take_encoded.
    split_and!; [done | lia | right; lia].
Qed.

(** ** Witnesses *)

(** [zoe], with a diaeresis, and a Chinese character. *)
Definition demo_text : list Z := [0x7a; 0x6f; 0xeb; 0x4f60].

Lemma sanitize_makes_utf8_witness :
  Forall is_byte [0xff; 65; 7; 0xc3] /\
  exists out, si_utf8_sanitize (Some [0xff; 65; 7; 0xc3]) 3 true = Some out /\ shown_text out /\
    out = [ch "?"; 65; ch " "] ++ truncated_suffix.
Proof.
  assert (Hb : Forall is_byte [0xff; 65; 7; 0xc3]) by by_decide.
  destruct (sanitize_makes_utf8 [0xff; 65; 7; 0xc3] 3 Hb) as (out & E & Hs & _).
  split; [exact Hb|]. exists out. split; [exact E|]. split; [exact Hs|].
  assert (E2 : si_utf8_sanitize (Some [0xff; 65; 7; 0xc3]) 3 true = Some ([ch "?"; 65; ch " "] ++ truncated_suffix)) by by_eval.
  rewrite E in E2. injection E2 as ->. reflexivity.
Defined.

Lemma copy_keeps_characters_witness :
  exists k, si_utf8_strlcpy true (Some (encoded demo_text)) 6 = Some (encoded (take k demo_text)) /\
    (length (encoded (take k demo_text)) < 6)%nat /\
    (take k demo_text = demo_text \/ (6 <= length (encoded (take (S k) demo_text)))%nat).
Proof.
  assert (Hs : Forall (fun p => scalar p = true) demo_text) by by_decide.
  exact (copy_keeps_characters demo_text 6 Hs ltac:(lia)).
Defined.
