(* ===== verification/AgentRouter.v ===== *)
(** * Agent routes: [core/agent_router.c]

    Keywords in the message choose the prompt, the recommended tools and how many
    rounds of tools an agent takes. *)

From Stdlib Require Import String.
From S2P Require Import Prelude CText.

Inductive si_agent_route_kind_t :=
| SI_AGENT_ROUTE_CHAT | SI_AGENT_ROUTE_FOLLOWUP | SI_AGENT_ROUTE_TOOL_WORKFLOW | SI_AGENT_ROUTE_MEMORY_RECALL
| SI_AGENT_ROUTE_KVM_VISUAL | SI_AGENT_ROUTE_UART_OPS | SI_AGENT_ROUTE_SSH_OPS | SI_AGENT_ROUTE_SERVICE_DEPLOY
| SI_AGENT_ROUTE_WEB_RESEARCH | SI_AGENT_ROUTE_SETTINGS_HELP | SI_AGENT_ROUTE_DANGEROUS_ACTION.

#[export] Instance route_kind_eq_dec : EqDecision si_agent_route_kind_t.
Proof. solve_decision. Defined.

Record si_agent_route_t := mk_route {
  route_kind : si_agent_route_kind_t;
  route_name : cstring;
  intent : cstring;
  prompt_profile : cstring;
  tool_policy : cstring;
  final_report_style : cstring;
  confidence : Z;
  max_tool_loops : Z;
  needs_control_lease : bool;
  prefer_memory : bool;
  prefer_screenshot : bool;
  prefer_web_search : bool
}.

(** ** Words in a text *)

(** [strncasecmp] at each position of the text, case-blind on ASCII. *)
Fixpoint contains_ci (needle text : cstring) : bool :=
  match text with
  | [] => false
  | _ :: rest => starts_with_ci needle text || contains_ci needle rest
  end.

Definition text_contains_ci (text needle : option cstring) : bool :=
  match text, needle with
  | Some text, Some needle => return_if is_empty needle with false ;; contains_ci needle text
  | _, _ => false
  end.

Definition text_has_any (text : option cstring) (needles : list cstring) : bool :=
  existsb (fun needle => text_contains_ci text (Some needle)) needles.

Definition chat_words : list cstring := map cstr [
    "你好"; "您好"; "hello"; "hi"; "你是谁"; "who are you"; "在吗"; "ok"; "好的"; "谢谢"; "thanks"]%string.

Definition text_is_short_chat (text : option cstring) : bool :=
  match text with
  | None => true
  | Some t => return_if (48 <? length t)%nat with false ;; text_has_any text chat_words
  end.

Definition dangerous_words : list cstring := map cstr [
    "格式化"; "清空磁盘"; "擦除"; "erase-flash"; "erase flash"; "reset everything"; "删除全部"; "rm -rf /"; "关机"; "重启";
    "power off"; "shutdown"; "reboot"; "断网"; "修改网络"]%string.

Definition followup_words : list cstring := map cstr [
    "继续"; "执行吧"; "开始吧"; "go ahead"; "continue"; "继续执行"; "按计划"; "下一步"; "继续推进"]%string.

Definition memory_words : list cstring := map cstr [
    "历史"; "记忆"; "之前"; "上次"; "做过"; "待办"; "todo"; "其他会话"; "全局记忆"; "还剩什么"; "记录"]%string.

Definition service_words : list cstring := map cstr [
    "安装"; "部署"; "配置服务"; "创建服务"; "systemd"; "docker"; "minecraft"; "paper"; "mc服务器"; "server"; "daemon"; "后台服务";
    "开机启动"; "service"]%string.

Definition ssh_words : list cstring := map cstr [
    "ssh"; "主机"; "机器状态"; "命令"; "apt"; "sudo"; "journalctl"; "systemctl"; "日志"; "端口"; "进程"; "uname"; "df -h";
    "free -h"]%string.

Definition uart_words : list cstring := map cstr [
    "uart"; "串口"; "serial console"; "serial terminal"; "tty"; "ttyacm"; "agetty"; "serial-getty";
    "serial getty"; "波特率"; "baud"; "8n1"]%string.

Definition kvm_words : list cstring := map cstr [
    "kvm"; "屏幕"; "截图"; "画面"; "bios"; "uefi"; "安装系统"; "ubuntu"; "windows"; "proxmox"; "点击"; "键盘"; "鼠标"; "hid";
    "上下左右"; "enter"; "选择"; "登录"; "登陆"; "login"; "log in"; "sign in"; "解锁屏幕"]%string.

Definition web_words : list cstring := map cstr [
    "联网"; "搜索"; "查一下"; "最新"; "官方"; "文档"; "download"; "release"; "版本"]%string.

Definition settings_words : list cstring := map cstr [
    "设置"; "settings"; "api"; "apikey"; "api key"; "provider"; "模型"; "prompt"; "mcp"; "nvs"; "tf卡"; "tf 卡"]%string.

Definition tool_workflow_words : list cstring := map cstr [
    "工具调用"; "调用工具"; "工具契约"; "tool call"; "tool contract"; "wait tool"; "call wait"; "调用 wait";
    "observe_status"; "observe_video_status"; "observe_hid_status"; "memory_search"; "history_search";
    "memory_write"; "ask_user"; "host_display"; "boot_key_sequence"; "web_search"; "power_action";
    "ensure_package"; "ensure_user"; "ensure_directory"; "download_file"; "write_file";
    "ensure_systemd_service"; "check_service"; "verify_port"]%string.

(** ** The route *)

Definition route_set (kind : si_agent_route_kind_t) (name intent prompt_profile tool_policy final_report_style : string)
    (confidence max_tool_loops : Z) (needs_control_lease prefer_memory prefer_screenshot prefer_web_search : bool)
  : si_agent_route_t :=
  mk_route kind (cstr name) (cstr intent) (cstr prompt_profile) (cstr tool_policy) (cstr final_report_style)
    confidence max_tool_loops needs_control_lease prefer_memory prefer_screenshot prefer_web_search.

Definition route_defaults : si_agent_route_t :=
  route_set SI_AGENT_ROUTE_CHAT "chat" "plain_conversation" "chat_light" "no_tools_by_default" "direct"
    65 1 false false false false.

(** The route that is written through the pointer. *)
Definition si_agent_route_detect (message : option cstring) (include_screenshot allow_web_search : bool)
  : si_agent_route_t :=
  let text := Some (deref message) in
  let has w := text_has_any text w in
  let says w := text_contains_ci text (Some (cstr w)) in
  let has_danger := has dangerous_words in
  let has_followup := has followup_words in
  let has_memory := has memory_words in
  let has_service := has service_words in
  let has_uart := has uart_words in
  let has_ssh := has ssh_words in
  let has_kvm := include_screenshot || has kvm_words in
  let has_web := has web_words in
  let has_settings := has settings_words in
  let has_tool_workflow := has tool_workflow_words in
  let says_ssh := says "ssh"%string || says "通过 SSH"%string in
  let says_uart := says "uart"%string || says "串口"%string || says "serial console"%string ||
    says "serial terminal"%string in
  let says_kvm := include_screenshot || says "kvm"%string in
  let via_kvm := says_kvm && (says "通过kvm"%string || says "通过 kvm"%string || says "用kvm"%string ||
    says "用 kvm"%string || says "via kvm"%string || says "through kvm"%string || says "from kvm"%string ||
    says "kvm配置"%string || says "kvm 配置"%string) in
  let via_uart := says_uart && (says "通过uart"%string || says "通过 uart"%string || says "通过串口"%string ||
    says "从uart"%string || says "从 uart"%string || says "从串口"%string || says "via uart"%string ||
    says "through uart"%string || says "from uart"%string) in
  let via_ssh := says_ssh && (says "通过ssh"%string || says "通过 ssh"%string || says "从ssh"%string ||
    says "从 ssh"%string || says "via ssh"%string || says "through ssh"%string || says "from ssh"%string) in
  if has_danger then
    route_set SI_AGENT_ROUTE_DANGEROUS_ACTION "dangerous_action" "destructive_or_connectivity_risk" "safety_gate" "ask_before_tools" "confirmation_first"
      88 1 false true false false
  else if via_kvm then
    route_set SI_AGENT_ROUTE_KVM_VISUAL "kvm_visual" "bootstrap_uart_or_ssh_through_kvm" "kvm_visual_operator" "screenshot_hid_tools" "brief_report"
      98 8 true true true (allow_web_search && has_web)
  else if via_uart && says_ssh then
    route_set SI_AGENT_ROUTE_UART_OPS "uart_ops" "bootstrap_ssh_through_target_uart" "uart_operator" "uart_memory_tools" "brief_report"
      98 8 false true false false
  else if via_ssh && says_uart then
    route_set SI_AGENT_ROUTE_SSH_OPS "ssh_ops" "bootstrap_uart_through_target_ssh" "ssh_operator" "ssh_memory_tools" "brief_report"
      98 8 false true false (allow_web_search && has_web)
  else if says_uart && negb says_kvm && negb says_ssh then
    route_set SI_AGENT_ROUTE_UART_OPS "uart_ops" "inspect_or_operate_target_uart" "uart_operator" "uart_memory_tools" "brief_report"
      96 5 false true false false
  else if says_kvm && negb says_uart && negb says_ssh then
    route_set SI_AGENT_ROUTE_KVM_VISUAL "kvm_visual" "inspect_screen_or_drive_hid" "kvm_visual_operator" "screenshot_hid_tools" "brief_report"
      96 5 true true true (allow_web_search && has_web)
  else if says_ssh && negb says_uart && negb says_kvm then
    route_set SI_AGENT_ROUTE_SSH_OPS "ssh_ops" "operate_or_inspect_target_over_ssh" "ssh_operator" "ssh_memory_tools" "brief_report"
      96 5 false true false (allow_web_search && has_web)
  else if has_tool_workflow then
    route_set SI_AGENT_ROUTE_TOOL_WORKFLOW "tool_workflow" "execute_explicit_runtime_tool_workflow" "tool_workflow_operator" "runtime_tools" "brief_report"
      92 6 false true false (allow_web_search && has_web)
  else if has_memory && negb has_service && negb has_uart && negb has_ssh && negb has_kvm then
    route_set SI_AGENT_ROUTE_MEMORY_RECALL "memory_recall" "recall_history_or_working_memory" "memory_reader" "memory_history_first" "direct"
      86 2 false true false false
  else if has_followup && (strlen (deref message) <=? 80) then
    route_set SI_AGENT_ROUTE_FOLLOWUP "task_followup" "continue_or_approve_previous_task" "continuation_executor" "history_then_tools" "brief_report"
      72 6 false true false allow_web_search
  else if has_service && (has_ssh || says_ssh || (negb has_uart && negb has_kvm)) then
    route_set SI_AGENT_ROUTE_SERVICE_DEPLOY "service_deploy" "install_configure_or_verify_service" "ops_service_executor" "ssh_memory_web_tools" "brief_delivery_report"
      90 8 false true false (allow_web_search && has_web)
  else if has_uart then
    route_set SI_AGENT_ROUTE_UART_OPS "uart_ops" "inspect_or_operate_target_uart" "uart_operator" "uart_memory_tools" "brief_report"
      90 5 false true false false
  else if has_kvm then
    route_set SI_AGENT_ROUTE_KVM_VISUAL "kvm_visual" "inspect_screen_or_drive_hid" "kvm_visual_operator" "screenshot_hid_tools" "brief_report"
      84 5 true true true (allow_web_search && has_web)
  else if has_ssh then
    route_set SI_AGENT_ROUTE_SSH_OPS "ssh_ops" "operate_or_inspect_target_over_ssh" "ssh_operator" "ssh_memory_tools" "brief_report"
      86 5 false true false (allow_web_search && has_web)
  else if has_web && allow_web_search then
    route_set SI_AGENT_ROUTE_WEB_RESEARCH "web_research" "fresh_external_research" "researcher" "web_search_first" "brief_sources_report"
      78 4 false true false true
  else if has_settings then
    route_set SI_AGENT_ROUTE_SETTINGS_HELP "settings_help" "explain_or_adjust_device_settings" "settings_assistant" "no_tools_unless_needed" "direct"
      74 2 false true false false
  else if text_is_short_chat text then
    route_set SI_AGENT_ROUTE_CHAT "chat" "plain_conversation" "chat_light" "no_tools_by_default" "direct"
      92 1 false false false false
  else route_defaults.

(** ** What a route allows *)

Definition tool_name_is (name : option cstring) (expected : string) : bool :=
  match name with Some n => streq n (cstr expected) | None => false end.

Definition tool_is_memory (name : option cstring) : bool :=
  tool_name_is name "memory_search" || tool_name_is name "history_search" || tool_name_is name "memory_write".

Definition tool_is_observation (name : option cstring) : bool :=
  tool_name_is name "observe_status" || tool_name_is name "observe_video_status" || tool_name_is name "observe_hid_status".

Definition tool_is_ssh (name : option cstring) : bool :=
  existsb (tool_name_is name) [
    "ssh_exec"; "ensure_package"; "ensure_user"; "ensure_directory"; "download_file"; "write_file";
    "ensure_systemd_service"; "check_service"; "verify_port"; "host_display"]%string.

Definition tool_is_runtime_capability (name : option cstring) : bool :=
  tool_is_memory name || tool_is_observation name || tool_is_ssh name ||
  tool_name_is name "ask_user" || tool_name_is name "wait" || tool_name_is name "web_search" ||
  tool_name_is name "console_login" || tool_name_is name "boot_key_sequence" ||
  tool_name_is name "power_action" || tool_name_is name "uart_status" || tool_name_is name "uart_read" ||
  tool_name_is name "uart_write" || tool_name_is name "uart_auth" || tool_name_is name "uart_baud".

Definition si_agent_route_allows_tool (route : option si_agent_route_t) (tool_name : option cstring) : bool :=
  match route with
  | None => false
  | Some _ => return_if is_empty (deref tool_name) with false ;; tool_is_runtime_capability tool_name
  end.

Definition si_agent_route_allows_hid (route : option si_agent_route_t) : bool :=
  match route with
  | None => false
  | Some r => bool_decide (route_kind r = SI_AGENT_ROUTE_KVM_VISUAL) || bool_decide (route_kind r = SI_AGENT_ROUTE_FOLLOWUP)
  end.

(** ** The prompt of a route *)

Definition route_prompts : list (string * string) := [
  ("task_followup",
   "Router profile: task_followup. The user is likely approving or continuing a previous task. First use restored history/memory context to infer the active task. If the prior task is clear and non-destructive, continue with concrete tool_calls instead of asking again. If the prior task is ambiguous, ask one concise clarification and keep tool_calls/actions empty.");
  ("memory_recall",
   "Router profile: memory_recall. Before answering questions about previous sessions, prior decisions, host facts, deployments, or todos, call memory_search or history_search. Do not answer only from the current prompt when persistent memory/history is relevant.");
  ("tool_workflow",
   "Router profile: tool_workflow. The user explicitly requested one or more runtime tool calls. Execute the requested tools in dependency order, inspect each result, and continue planning until the requested workflow is complete or a concrete blocker is proven. Do not treat a successful first tool call as completion when later requested steps remain.");
  ("kvm_visual",
   "Router profile: kvm_visual. Prefer screenshot interpretation and small HID actions. The runtime automatically acquires the video lease, starts demand-driven capture, and waits for the first frame; capture_enabled=false or frame_ready=false before that startup is an idle state, not proof that the capture card is physically disconnected. Use keyboard navigation where possible for installers/BIOS. For an OS login, focus the correct field with ordinary HID, then use console_login with console://default so no credential enters the model context. Inspect a fresh frame after each login stage. host_display is SSH-backed and is not a KVM observation tool. Do not use SSH unless the user explicitly asks for SSH. Keep HID batches short and observable.");
  ("ssh_ops",
   "Router profile: ssh_ops. Prefer ssh_exec against the Settings target. Use bounded commands, inspect output after every step, and write durable findings to memory when useful. For read-only checks, execute directly. For ordinary package/config commands in execute mode, do not ask for extra confirmation.");
  ("uart_ops",
   "Router profile: uart_ops. UART is a device-local target console and is independent from SSH configuration. Call uart_status before reporting availability, then use non-destructive uart_read with a cursor for observation. Use uart_write or uart_baud only when the user's task requires a change and the request broker authorizes it. Use uart_auth with a local credential reference and the exact observed password prompt; never place a password in uart_write. A connected manual UART terminal has priority over Agent writes and baud changes.");
  ("service_deploy",
   "Router profile: service_deploy. This is an install/deploy/configure/verify task. Use multiple small SSH/tool steps, not one huge script. Checking prerequisites alone is not completion. Continue through install, configuration, service creation/start, logs, port/status checks, operator access/control verification, and reboot/autostart behavior. If web_search is effective and current official information is needed, call web_search as a tool.");
  ("web_research",
   "Router profile: web_research. Use web_search when Web search effective=yes and current external information is needed. Summarize sources briefly in the final message. If web_search is unavailable, say so and fall back to available SSH/API checks only when appropriate.");
  ("settings_help",
   "Router profile: settings_help. Explain the device setting or capability directly. Use tools only when the user asks to inspect or change live device state. Keep implementation details out of the user-facing answer unless they are relevant.");
  ("dangerous_action",
   "Router profile: dangerous_action. Do not execute destructive, connectivity-breaking, power, reboot, disk format, mass deletion, or credential-exposing actions until the user explicitly confirms the specific operation. Return a concise confirmation request with empty tool_calls/actions.")]%string.

Definition chat_prompt : string :=
  "Router profile: chat. Answer naturally and briefly. Do not call SSH, HID, screenshot, power, memory, or web_search unless the user explicitly asks for tool-backed work."%string.

Definition si_agent_route_prompt (route : option si_agent_route_t) : cstring :=
  let name := match route with Some r => route_name r | None => cstr "chat" end in
  match find (fun p => streq name (cstr p.1)) route_prompts with
  | Some (_, prompt) => cstr prompt
  | None => cstr chat_prompt
  end.
