(* ===== verification/AgentRouterProps.v ===== *)
(** * Agent routes: properties *)

From Stdlib Require Import String.
From S2P Require Import Prelude CText AgentRouter.

(** A needle is found where its letters stand, in any case. *)
Lemma contains_ci_spec needle text :
  needle <> [] -> contains_ci needle text = true <-> exists l r, tolower <$> text = l ++ (tolower <$> needle) ++ r.
Proof.
  intros Hne. rewrite <- contains_str_spec. induction text as [|c text IH].
  - cbn [contains_ci fmap list_fmap contains_str]. destruct needle as [|a needle]; [done|]. cbn. done.
  - cbn [contains_ci]. rewrite orb_true_iff, IH. change (tolower <$> c :: text) with (tolower c :: (tolower <$> text)).
    cbn [contains_str]. by rewrite orb_true_iff.
Qed.

(** The message has one of the words. *)
Definition mentions (message : option cstring) (ws : list cstring) : Prop :=
  exists w l r, w ∈ ws /\ tolower <$> deref message = l ++ (tolower <$> w) ++ r.

Lemma has_any_mentions message ws :
  Forall (fun w => w <> []) ws -> text_has_any (Some (deref message)) ws = true <-> mentions message ws.
Proof.
  intros Hw. unfold text_has_any, mentions. rewrite existsb_exists. setoid_rewrite <- list_elem_of_In. unfold text_contains_ci.
  split.
  - intros (w & Hin & H). pose proof (proj1 (Forall_forall _ _) Hw w Hin) as Hne. cbv beta in Hne.
    destruct (is_empty w) eqn:Ee; [done|]. apply (contains_ci_spec w _ Hne) in H as (l & r & E). by exists w, l, r.
  - intros (w & l & r & Hin & E). pose proof (proj1 (Forall_forall _ _) Hw w Hin) as Hne. cbv beta in Hne. exists w. split; [done|].
    assert (is_empty w = false) as -> by by destruct w. apply contains_ci_spec; [done | by exists l, r].
Qed.

Lemma dangerous_words_full : Forall (fun w => w <> []) dangerous_words.
Proof. by_decide. Qed.

(** What holds of each route. *)
Definition route_fits (allow_web_search : bool) (r : si_agent_route_t) : bool :=
  (1 <=? max_tool_loops r) && (max_tool_loops r <=? 8) && (0 <=? confidence r) && (confidence r <=? 100) &&
  (allow_web_search || negb (prefer_web_search r)) &&
  Bool.eqb (needs_control_lease r) (bool_decide (route_kind r = SI_AGENT_ROUTE_KVM_VISUAL)) &&
  Bool.eqb (prefer_screenshot r) (needs_control_lease r).

(** A route keeps its bounds, and danger goes first.  Whatever the message says, a
    route has one to eight rounds of tools, asks for the control lease exactly when it
    works on the screen, and prefers the web only when that is allowed; a message
    with one of the dangerous words, in any case and anywhere, takes the route that
    asks for confirmation, has one round and may not touch keyboard and mouse, and
    no other message takes that route. *)
Theorem dangerous_messages_confirm message include_screenshot allow_web_search :
  let r := si_agent_route_detect message include_screenshot allow_web_search in
  route_fits allow_web_search r = true /\
  (route_kind r = SI_AGENT_ROUTE_DANGEROUS_ACTION <-> mentions message dangerous_words) /\
  (mentions message dangerous_words ->
   max_tool_loops r = 1 /\ si_agent_route_allows_hid (Some r) = false /\ tool_policy r = cstr "ask_before_tools" /\
   final_report_style r = cstr "confirmation_first").
Proof.
  cbv zeta. rewrite <- (has_any_mentions message dangerous_words dangerous_words_full).
  unfold si_agent_route_detect. cbv zeta. generalize (text_has_any (Some (deref message)) dangerous_words). intros danger.
  destruct allow_web_search; rewrite ?andb_false_r, ?andb_true_r;
    repeat match goal with |- context [if ?c then _ else _] => is_var c; destruct c end;
    repeat (match goal with |- context [if ?c then _ else _] => destruct c end; [by split_and!|]); by split_and!.
Qed.

(** The prompt of each route that has one of its own. *)
Lemma prompts_distinct : NoDup (map fst route_prompts).
Proof. by_decide. Qed.

Example shutdown_asks :
  route_name (si_agent_route_detect (Some (cstr "please ShutDown the host via kvm")) true true) = cstr "dangerous_action" /\
  route_name (si_agent_route_detect (Some (cstr "look at the screen via kvm")) false true) = cstr "kvm_visual".
Proof. split; by_eval. Qed.
