(* ===== verification/ModelProvider.v ===== *)
(** * Model providers: [core/model_provider.c]

    What a language model can take and give, by the names of its provider and of
    itself. *)

From Stdlib Require Import String.
From S2P Require Import Prelude CText AgentRouter.

Record si_model_capabilities_t := mk_capabilities {
  text_input : bool;
  image_input : bool;
  video_input : bool;
  base64_image_input : bool;
  public_image_url : bool;
  native_tools : bool;
  structured_json : bool;
  streaming : bool;
  reasoning : bool;
  preserve_assistant_message : bool;
  fixed_sampling_parameters : bool;
  default_reasoning_effort : option cstring
}.

#[export] Instance eta_capabilities : Settable si_model_capabilities_t := fun c =>
  mk_capabilities (text_input c) (image_input c) (video_input c) (base64_image_input c) (public_image_url c)
    (native_tools c) (structured_json c) (streaming c) (reasoning c) (preserve_assistant_message c)
    (fixed_sampling_parameters c) (default_reasoning_effort c).

Definition text_equal_ci (left right : option cstring) : bool :=
  match left, right with Some l, Some r => strcaseeq l r | _, _ => false end.

Definition text_starts_with_ci (v prefix : option cstring) : bool :=
  match v, prefix with Some v, Some p => starts_with_ci p v | _, _ => false end.

Definition si_model_is_kimi_k3 (provider model : option cstring) : bool :=
  text_equal_ci provider (Some (cstr "kimi")) && text_starts_with_ci model (Some (cstr "kimi-k3")).

(** Tools, JSON and streaming, on top of the text that every model takes. *)
Definition tool_capabilities : si_model_capabilities_t :=
  mk_capabilities true false false false false true true true false false false None.

Definition si_model_capabilities_resolve (provider model : option cstring) : si_model_capabilities_t :=
  let is_ name := text_equal_ci provider (Some (cstr name)) in
  return_if is_ "deepseek"%string with tool_capabilities <| reasoning := true |> ;;
  return_if is_ "openai"%string with
    (((tool_capabilities <| image_input := true |>) <| base64_image_input := true |>) <| public_image_url := true |>)
      <| reasoning := true |> ;;
  return_if is_ "qwen"%string with
    (let vision_model := text_contains_ci model (Some (cstr "-vl")) || text_contains_ci model (Some (cstr "omni")) in
     ((((tool_capabilities <| image_input := vision_model |>) <| video_input := vision_model |>)
         <| base64_image_input := vision_model |>) <| public_image_url := vision_model |>) <| reasoning := true |>) ;;
  return_if si_model_is_kimi_k3 provider model with
    mk_capabilities true true true true false true true true true true true (Some (cstr "low")) ;;
  return_if is_ "kimi"%string with tool_capabilities ;;
  mk_capabilities true false false false false false false false false false false None.

(** Only a model that takes images has them as links or as data, and only one that
    reasons has an effort. *)
Lemma capabilities_consistent provider model :
  let c := si_model_capabilities_resolve provider model in
  text_input c = true /\ (base64_image_input c = true -> image_input c = true) /\
  (public_image_url c = true -> image_input c = true) /\ (video_input c = true -> image_input c = true) /\
  (default_reasoning_effort c <> None -> reasoning c = true) /\ (native_tools c = true -> structured_json c = true).
Proof. cbv zeta. unfold si_model_capabilities_resolve. cbv zeta. repeat case_if; done. Qed.
