(* ===== verification/SshHostkey.v ===== *)
(** * SSH host keys: [services/ssh_hostkey_store.c]

    The fingerprint of the first key that a host shows is stored, and every later
    key is held against it.  A short task of its own does the work in flash; the
    caller waits for it, but not for ever. *)

From Stdlib Require Import String.
From stdpp Require Import gmap.
From S2P Require Import Prelude CText Firmware SettingsStore.

Definition SI_SSH_HOSTKEY_FINGERPRINT_HEX_LEN : nat := 64.
Definition SI_SSH_HOSTKEY_NAMESPACE : cstring := cstr "si_ssh_tofu".
Definition SI_SSH_HOSTKEY_NVS_KEY_MAX_LEN : nat := 15.

Definition ESP_ERR_INVALID_CRC : esp_err_t := ESP_ERR_OTHER 0x109.

Definition si_ssh_hostkey_record_valid (fingerprint_hex : option cstring) : bool :=
  match fingerprint_hex with
  | None => false
  | Some text =>
      return_if negb (length text =? SI_SSH_HOSTKEY_FINGERPRINT_HEX_LEN)%nat with false ;;
      forallb (fun c => between (ch "0") (ch "9") c || between (ch "a") (ch "f") c) text
  end.

(** Every character is looked at, whatever the others are. *)
Definition si_ssh_hostkey_record_matches (saved observed : option cstring) : bool :=
  return_if negb (si_ssh_hostkey_record_valid saved) || negb (si_ssh_hostkey_record_valid observed) with false ;;
  foldl (fun diff i => Z.lor diff (u8 (Z.lxor (nth i (deref saved) 0) (nth i (deref observed) 0)))) 0
    (seq 0 SI_SSH_HOSTKEY_FINGERPRINT_HEX_LEN) =? 0.

(** What the caller and the task share; the two references and the semaphore have
    no other effect than its release. *)
Record ssh_hostkey_request_t := mk_hostkey_request {
  key : cstring;
  observed : cstring;
  result : esp_err_t;
  trusted_new : bool
}.

#[export] Instance eta_hostkey_request : Settable ssh_hostkey_request_t := fun r =>
  mk_hostkey_request (key r) (observed r) (result r) (trusted_new r).

(** What a call meets: the memory for the request, the semaphore, the task, and
    whether the result is there in time. *)
Record hostkey_env := mk_hostkey_env {
  has_memory : bool;
  has_semaphore : bool;
  task_created : bool;
  done_in_time : bool
}.

(** What the task finds: whether its stack and the request can be used while the
    flash is written, and how it reaches the flash. *)
Record task_env := mk_task_env { flash_safe : bool; task_flash : flash_access }.

Section hostkey.
Context {N : Type} `{Nvs N}.

(** The storage; the flag of the file; the request of a task that has not ended. *)
Record hostkeys := mk_hostkeys {
  storage : N;
  s_ssh_hostkey_broker_active : bool;
  running : option ssh_hostkey_request_t
}.

Definition open_hostkeys_read : st (system N) (esp_err_t * option si_settings_store_t) :=
  si_settings_store_open_read (Some SI_SETTINGS_STORE_INITIALIZER) (Some SI_SSH_HOSTKEY_NAMESPACE).

Definition open_hostkeys_write : st (system N) (esp_err_t * option si_settings_store_t) :=
  si_settings_store_open_write (Some SI_SETTINGS_STORE_INITIALIZER) (Some SI_SSH_HOSTKEY_NAMESPACE).

(** The first write. *)
Definition trust_first (request : ssh_hostkey_request_t) : st (system N) (esp_err_t * bool) :=
  r ← open_hostkeys_write;
  ret ← (if bool_decide (r.1 = ESP_OK) then si_settings_store_set_string r.2 (Some (key request)) (Some (observed request))
         else mret r.1);
  ret ← (if bool_decide (ret = ESP_OK) then si_settings_store_commit r.2 else mret ret);
  si_settings_store_close r.2;;
  mret (ret, bool_decide (ret = ESP_OK)).

(** The error, and whether the key is new. *)
Definition ssh_hostkey_store_transaction (request : ssh_hostkey_request_t) : st (system N) (esp_err_t * bool) :=
  r ← open_hostkeys_read;
  if bool_decide (r.1 = ESP_OK) then
    saved ← si_settings_store_get_string r.2 (Some (key request)) (Some (SI_SSH_HOSTKEY_FINGERPRINT_HEX_LEN + 1)%nat);
    si_settings_store_close r.2;;
    return_if bool_decide (saved.1 = ESP_OK)
      with mret (if si_ssh_hostkey_record_matches (Some saved.2) (Some (observed request)) then ESP_OK
                 else ESP_ERR_INVALID_CRC, false) ;;
    return_if negb (bool_decide (saved.1 = ESP_ERR_NOT_FOUND)) with mret (saved.1, false) ;;
    trust_first request
  else
    return_if negb (bool_decide (r.1 = ESP_ERR_NOT_FOUND)) with mret (r.1, false) ;;
    trust_first request.

(** The task; the last steps release the request and end it. *)
Definition ssh_hostkey_broker_task (task : task_env) (request : ssh_hostkey_request_t)
  : st hostkeys ssh_hostkey_request_t := fun s =>
  let '((ret, new), sys) :=
    if negb (flash_safe task) then ((ESP_ERR_INVALID_STATE, trusted_new request), mk_system (storage s) (task_flash task))
    else ssh_hostkey_store_transaction request (mk_system (storage s) (task_flash task)) in
  (request <| result := ret |> <| trusted_new := new |>, mk_hostkeys (nvs sys) false None).

(** The checks, the claim of the one task, and its request. *)
Definition hostkey_begin (key fingerprint_hex : option cstring) (env : hostkey_env)
  : st hostkeys (esp_err_t * option ssh_hostkey_request_t) := fun s =>
  return_if negb (ptr_test (fun k => negb (is_empty k)) key) ||
            (SI_SSH_HOSTKEY_NVS_KEY_MAX_LEN <? strnlen (deref key) (SI_SSH_HOSTKEY_NVS_KEY_MAX_LEN + 1))%nat ||
            negb (si_ssh_hostkey_record_valid fingerprint_hex) with ((ESP_ERR_INVALID_ARG, None), s) ;;
  return_if s_ssh_hostkey_broker_active s with ((ESP_ERR_INVALID_STATE, None), s) ;;
  return_if negb (has_memory env && has_semaphore env && task_created env) with ((ESP_ERR_NO_MEM, None), s) ;;
  let request := mk_hostkey_request (strtrunc (SI_SSH_HOSTKEY_NVS_KEY_MAX_LEN + 1) (deref key))
                   (strtrunc (SI_SSH_HOSTKEY_FINGERPRINT_HEX_LEN + 1) (deref fingerprint_hex)) ESP_FAIL false in
  ((ESP_OK, Some request), mk_hostkeys (storage s) true (Some request)).

(** The error, and what is stored through [trusted_new_out].  A task that is not done
    in time goes on. *)
Definition si_ssh_hostkey_verify_or_trust (key fingerprint_hex : option cstring) (env : hostkey_env) (task : task_env)
  : st hostkeys (esp_err_t * bool) :=
  b ← hostkey_begin key fingerprint_hex env;
  match b.2 with
  | None => mret (b.1, false)
  | Some request =>
      return_if negb (done_in_time env) with mret (ESP_ERR_TIMEOUT, false) ;;
      request ← ssh_hostkey_broker_task task request;
      mret (result request, bool_decide (result request = ESP_OK) && trusted_new request)
  end.
End hostkey.

Arguments hostkeys N : clear implicits.
