(* ===== verification/SshHostkeyProps.v ===== *)
(** * SSH host keys: properties

    A key that was trusted stays the only one that its host is believed with. *)

From Stdlib Require Import String.
From stdpp Require Import gmap.
From S2P Require Import Prelude CText Hex Firmware SettingsStore SettingsStoreProps SshHostkey.

(** ** Comparing fingerprints *)

Lemma valid_text t :
  si_ssh_hostkey_record_valid (Some t) = true ->
  length t = SI_SSH_HOSTKEY_FINGERPRINT_HEX_LEN /\ Forall is_byte t.
Proof.
  cbn [si_ssh_hostkey_record_valid]. case_if; [done|]. apply negb_false_iff, Nat.eqb_eq in Heqb. intros Hc. split; [done|].
  apply Forall_forall. intros c Hin. apply list_elem_of_In in Hin. pose proof (proj1 (forallb_forall _ _) Hc c Hin) as H.
  unfold is_byte, between in *.
  apply orb_prop in H as [H|H]; apply andb_prop in H as [H1 H2]; to_props.
  all: change (ch "0") with 48 in *; change (ch "9") with 57 in *; change (ch "a") with 97 in *; change (ch "f") with 102 in *; lia.
Qed.

(** Two records match when they are the same valid text. *)
Lemma matches_same saved observed :
  si_ssh_hostkey_record_matches (Some saved) (Some observed) = true <->
  saved = observed /\ si_ssh_hostkey_record_valid (Some saved) = true.
Proof.
  unfold si_ssh_hostkey_record_matches. split.
  - case_if; [done|]. intros H. split_guards. to_props. apply lor_fold_zero in H as [_ H]. split; [|done].
    destruct (valid_text _ H1) as [L1 B1], (valid_text _ H0) as [L2 B2].
    apply (nth_ext _ _ 0 0); [congruence|]. intros i Hi. rewrite Forall_forall in H. cbn [deref default] in H.
    apply byte_lxor_zero; [| |apply H, elem_of_seq; lia].
    + apply (proj1 (List.Forall_nth _ _) B2). lia.
    + apply (proj1 (List.Forall_nth _ _) B1). lia.
  - intros [<- Hv]. rewrite Hv. cbn [negb orb]. apply Z.eqb_eq, lor_fold_zero. split; [done|].
    apply Forall_true. intros i. by rewrite Z.lxor_nilpotent.
Qed.

Section pinned.
Context {N : Type} `{NvsLaws N}.
Implicit Types (n : N).

Abbreviation key_of request := (SI_SSH_HOSTKEY_NAMESPACE, key request).

(** What the task leaves: only the key of the request changes, and only when nothing
    was stored under it. *)
Definition transacts (request : ssh_hostkey_request_t) n (r : esp_err_t * bool) n' : Prop :=
  (forall k, k <> key_of request -> contents n' !! k = contents n !! k /\ forall x, flash n' k x -> flash n k x) /\
  (forall t, contents n !! key_of request = Some (NvsStr t) ->
     untouched n n' /\ r.2 = false /\ (r.1 = ESP_OK -> t = observed request)) /\
  (r.1 = ESP_OK -> contents n' !! key_of request = Some (NvsStr (observed request))) /\
  (r.2 = true -> r.1 = ESP_OK /\ forall x, flash n' (key_of request) x -> x = Some (NvsStr (observed request))).

Lemma trust_first_spec request sys :
  (forall t, contents (nvs sys) !! key_of request <> Some (NvsStr t)) ->
  wp (trust_first request) (fun r sys' => transacts request (nvs sys) r (nvs sys')) sys.
Proof.
  intros Hnone. unfold trust_first, open_hostkeys_write. apply wp_bind. eapply wp_mono; [by apply open_write_spec|].
  intros r s1 (C1 & F1 & Hok & _). apply wp_bind.
  apply wp_mono with (Q := fun e s2 => moves_to (key_of request) (Some (NvsStr (observed request))) e (nvs s1) (nvs s2) /\
    (e = ESP_OK -> exists h, r.2 = Some (mk_settings_store h true true) /\ opened (nvs s2) h = Some (SI_SSH_HOSTKEY_NAMESPACE, NVS_READWRITE))).
  { case_if; decided; [|by apply wp_ret; split; [apply moves_none|]]. destruct (Hok Heqb) as (h & -> & Ho).
    eapply wp_mono; [by apply set_string_moves|]. intros e s2 M. split; [done|]. intros _. exists h. split; [done|]. by rewrite (proj1 M). }
  intros e s2 [(Ho & Hk & Hx & Hc) Hh]. apply wp_bind.
  apply wp_mono with (Q := fun e' s3 => contents (nvs s3) = contents (nvs s2) /\ (forall k x, flash (nvs s3) k x -> flash (nvs s2) k x) /\
    (e' = ESP_OK -> e = ESP_OK /\ forall x, flash (nvs s3) (key_of request) x -> x = contents (nvs s2) !! key_of request)).
  { case_if; decided; [|by apply wp_ret]. destruct (Hh Heqb) as (h & -> & Ho'). eapply wp_mono; [by apply commit_spec|].
    intros e' s3 (C3 & F3 & Hf). by split_and!; auto. }
  intros e' s3 (C3 & F3 & Hf). apply wp_bind. eapply wp_mono; [apply close_spec|]. intros ? s4 [C4 F4]. apply wp_ret.
  unfold transacts. rewrite C4, C3, F4. cbn [fst snd]. split_and!.
  - intros k Hne. destruct (Hk k Hne) as [E1 E2]. rewrite E1, C1. split; [done|]. intros x Hx'. rewrite <- F1. by apply E2, F3.
  - intros t Et. by destruct (Hnone t).
  - intros He. apply Hc. by apply Hf.
  - intros Hb. decided. destruct (Hf Hb) as [He Hf']. split; [done|]. intros x Hx'. rewrite (Hf' x Hx'). by apply Hc.
Qed.

Lemma transacts_same request n r n' :
  untouched n n' -> r.2 = false -> (r.1 = ESP_OK -> contents n !! key_of request = Some (NvsStr (observed request))) ->
  transacts request n r n'.
Proof.
  intros [C F] Hr Hc. unfold transacts. rewrite C, F, Hr. split_and!; try done.
  intros t Et. split_and!; [done | done|]. intros He. rewrite (Hc He) in Et. by injection Et.
Qed.

Lemma transacts_after request n n1 r n' : untouched n n1 -> transacts request n1 r n' -> transacts request n r n'.
Proof. intros [C F]. unfold transacts, untouched. by rewrite C, F. Qed.

Lemma transaction_spec request sys :
  wp (ssh_hostkey_store_transaction request) (fun r sys' => transacts request (nvs sys) r (nvs sys')) sys.
Proof.
  unfold ssh_hostkey_store_transaction, open_hostkeys_read. apply wp_bind. eapply wp_mono; [by apply open_read_spec|].
  intros r s1 (C1 & F1 & Hok & _ & Hnf). assert (U1 : untouched (nvs sys) (nvs s1)) by done. case_if; decided.
  - destruct (Hok Heqb) as (h & -> & Ho). apply wp_bind. rewrite Nat.add_1_r.
    eapply wp_mono; [by apply get_string_spec|]. intros saved s2 [E2 [Hs Hno]].
    apply wp_bind. eapply wp_mono; [apply close_spec|]. intros ? s3 [C3 F3]. rewrite E2 in C3, F3.
    assert (U : untouched (nvs sys) (nvs s3)) by (split; congruence). rewrite C1 in Hs, Hno.
    case_if; decided; [|case_if; decided].
    + apply wp_ret, transacts_same; [done | done|]. cbn [fst]. case_if; [|done]. intros _.
      apply matches_same in Heqb1 as [E _]. rewrite (Hs Heqb0). by rewrite E.
    + apply wp_ret. by apply transacts_same.
    + eapply wp_mono; [apply trust_first_spec|intros ? s4; by apply transacts_after]. destruct U as [-> _]. by apply Hno.
  - case_if; decided; [apply wp_ret; by apply transacts_same|].
    eapply wp_mono; [apply trust_first_spec|intros ? s4; by apply transacts_after]. intros t. by rewrite C1, (Hnf Heqb0).
Qed.

(** ** Histories *)

(** Other services leave the namespace of the host keys alone. *)
Definition same_hostkeys n n' : Prop :=
  forall k, k.1 = SI_SSH_HOSTKEY_NAMESPACE -> contents n' !! k = contents n !! k /\ forall x, flash n' k x -> flash n k x.

(** A call; the end of a task that its caller did not wait for; what other services
    store; and, when [lost], a loss of power. *)
Inductive hostkey_step (lost : bool) : hostkeys N -> hostkeys N -> Prop :=
| step_verify k fp env task s : hostkey_step lost s (si_ssh_hostkey_verify_or_trust k fp env task s).2
| step_late task request s : running s = Some request -> hostkey_step lost s (ssh_hostkey_broker_task task request s).2
| step_elsewhere n s : same_hostkeys (storage s) n ->
    hostkey_step lost s (mk_hostkeys n (s_ssh_hostkey_broker_active s) (running s))
| step_power n s : lost = true -> nvs_restarts (storage s) n -> hostkey_step lost s (mk_hostkeys n false None).

Definition stored (key fp : cstring) n : Prop := contents n !! (SI_SSH_HOSTKEY_NAMESPACE, key) = Some (NvsStr fp).

(** Also after a loss of power. *)
Definition stored_for_good (key fp : cstring) n : Prop :=
  stored key fp n /\ forall x, flash n (SI_SSH_HOSTKEY_NAMESPACE, key) x -> x = Some (NvsStr fp).

(** What is known of a key, with and without losses of power. *)
Definition known (lost : bool) := if lost then stored_for_good else stored.

Lemma known_stored lost key fp n : known lost key fp n -> stored key fp n.
Proof. destruct lost; [by intros [? _] | done]. Qed.

Lemma known_same lost key fp n n' :
  (contents n' !! (SI_SSH_HOSTKEY_NAMESPACE, key) = contents n !! (SI_SSH_HOSTKEY_NAMESPACE, key) /\
   forall x, flash n' (SI_SSH_HOSTKEY_NAMESPACE, key) x -> flash n (SI_SSH_HOSTKEY_NAMESPACE, key) x) ->
  known lost key fp n -> known lost key fp n'.
Proof.
  intros [E F]. destruct lost; cbn [known]; unfold stored_for_good, stored; rewrite E; [|done].
  intros [Hc Hf]. split; [done|]. intros x Hx. by apply Hf, F.
Qed.

Lemma known_transacts lost k fp request n r n' : transacts request n r n' -> known lost k fp n -> known lost k fp n'.
Proof.
  intros (Hk & Ht & _) Hn. apply (known_same lost k fp n); [|done].
  destruct (decide (key request = k)) as [<-|Hne]; [|apply Hk; congruence].
  destruct (Ht fp) as [[E1 E2] _]; [by eapply known_stored|]. by rewrite E1, E2.
Qed.

(** The task is a transaction, or fails before it. *)
Lemma broker_spec task request s :
  wp (ssh_hostkey_broker_task task request) (fun request' s' =>
    exists r, transacts request (storage s) r (storage s') /\ result request' = r.1 /\
      (result request' = ESP_OK -> trusted_new request' = r.2)) s.
Proof.
  unfold wp, ssh_hostkey_broker_task. destruct (flash_safe task); cbn [negb].
  - pose proof (transaction_spec request (mk_system (storage s) (task_flash task))) as Ht. unfold wp in Ht.
    destruct (ssh_hostkey_store_transaction _ _) as [[e new] sys]. by exists (e, new).
  - exists (ESP_ERR_INVALID_STATE, false). split; [by apply transacts_same | done].
Qed.

(** What a call that answers [ESP_OK] found or left. *)
Lemma verify_or_trust_spec k fp env task s :
  wp (si_ssh_hostkey_verify_or_trust k fp env task) (fun r s' =>
    storage s' = storage s /\ r.1 <> ESP_OK \/
    exists request r', transacts request (storage s) r' (storage s') /\ r.1 = r'.1 /\ r.2 = bool_decide (r'.1 = ESP_OK) && r'.2 /\
      key request = strtrunc (SI_SSH_HOSTKEY_NVS_KEY_MAX_LEN + 1) (deref k) /\ fp = Some (observed request)) s.
Proof.
  unfold si_ssh_hostkey_verify_or_trust. apply wp_bind, wp_intro. unfold hostkey_begin.
  case_if; [by left|]. case_if; [by left|]. case_if; [by left|]. cbn [fst snd].
  case_if; [by apply wp_ret; left|]. apply orb_false_elim in Heqb as [_ Hv]. apply negb_false_iff in Hv.
  destruct fp as [fp|]; [|done]. destruct (valid_text fp Hv) as [Hl _].
  assert (Ef : strtrunc (SI_SSH_HOSTKEY_FINGERPRINT_HEX_LEN + 1) fp = fp).
  { apply firstn_all2. rewrite Hl. lia. }
  apply wp_bind. eapply wp_mono; [apply broker_spec|]. intros request' s' (r' & Ht & E1 & E2). apply wp_ret. right.
  eexists _, r'. split; [exact Ht|]. cbn [fst snd key observed]. rewrite E1. split_and!; [done | | done | f_equal; exact (eq_sym Ef)].
  case_bool_decide as He; [|done]. cbn [andb]. apply E2. congruence.
Qed.

Lemma step_known lost k fp s s' : hostkey_step lost s s' -> known lost k fp (storage s) -> known lost k fp (storage s').
Proof.
  intros [k' fp' env task s1 | task request s1 Hr | n s1 Hn | n s1 Hl Hr] Hk.
  - destruct (verify_or_trust_spec k' fp' env task s1) as [[E _]|(request & r' & Ht & _)]; [by rewrite E|].
    by eapply known_transacts.
  - destruct (broker_spec task request s1) as (r & Ht & _). by eapply known_transacts.
  - apply (known_same lost k fp (storage s1)); [|done]. by apply Hn.
  - subst lost. destruct Hk as [_ Hf]. destruct (restart_law _ _ Hr (SI_SSH_HOSTKEY_NAMESPACE, k)) as [H1 H2].
    pose proof (Hf _ H1) as E. split; [exact E|]. intros x Hx. rewrite (H2 x Hx). exact E.
Qed.

Lemma steps_known lost k fp s s' : rtc (hostkey_step lost) s s' -> known lost k fp (storage s) -> known lost k fp (storage s').
Proof. induction 1 as [|s1 s2 s3 Hs _ IH]; [done|]. intros Hk. by eapply IH, step_known. Qed.

(** C6: the first key that is trusted is the only one that is ever believed.  After a
    call trusted a fingerprint for a host as new, no call for that host succeeds with
    another one, or trusts a new one, whatever calls, tasks that end late, other
    services and losses of power come in between; after a call that found the
    fingerprint stored the same holds until the next loss of power. *)
Theorem host_key_pinned k fp env task s s2 fp2 env2 task2 :
  let '((e, new), s1) := si_ssh_hostkey_verify_or_trust k fp env task s in
  e = ESP_OK -> rtc (hostkey_step new) s1 s2 ->
  let '(e2, new2) := (si_ssh_hostkey_verify_or_trust k fp2 env2 task2 s2).1 in
  e2 = ESP_OK -> fp2 = fp /\ new2 = false.
Proof.
  pose proof (verify_or_trust_spec k fp env task s) as H1. unfold wp in H1.
  destruct (si_ssh_hostkey_verify_or_trust k fp env task s) as [[e new] s1]. cbn [fst snd] in H1. intros He Hr.
  pose proof (verify_or_trust_spec k fp2 env2 task2 s2) as H2. unfold wp in H2.
  destruct (si_ssh_hostkey_verify_or_trust k fp2 env2 task2 s2) as [[e2 new2] s3]. cbn [fst snd] in H2 |- *. intros He2.
  destruct H1 as [[_ ?]|(q & r & (_ & _ & Hc & Hn) & E & En & Ek & ->)]; [done|].
  destruct H2 as [[_ ?]|(q2 & r2 & (_ & Ht & _) & E2 & En2 & Ek2 & ->)]; [done|].
  assert (Hk : known new (key q) (observed q) (storage s2)).
  { apply (steps_known new _ _ s1); [done|]. assert (Hr1 : r.1 = ESP_OK) by congruence. specialize (Hc Hr1).
    destruct new; [|exact Hc]. split; [exact Hc|]. apply Hn. symmetry in En. by apply andb_prop in En as [_ ?]. }
  apply known_stored in Hk. unfold stored in Hk. rewrite Ek, <- Ek2 in Hk. destruct (Ht _ Hk) as (_ & Hnew & Hobs).
  split; [|by rewrite En2, Hnew, andb_false_r]. f_equal. symmetry. apply Hobs. congruence.
Qed.
End pinned.

(** ** Witnesses *)

Definition demo_hosts : hostkeys ram := mk_hostkeys (mk_ram ∅ ∅ None) false None.
Definition demo_host_key : cstring := cstr "h0123456789ab".
Definition demo_fingerprint : cstring := concat (repeat (cstr "00112233445566778899aabbccddeeff") 2).
Definition demo_hostkey_env : hostkey_env := mk_hostkey_env true true true true.
Definition demo_task : task_env := mk_task_env true (mk_flash true true []).

(** The first connection to a host. *)
Definition demo_trusted : (esp_err_t * bool) * hostkeys ram :=
  si_ssh_hostkey_verify_or_trust (Some demo_host_key) (Some demo_fingerprint) demo_hostkey_env demo_task demo_hosts.

(** The device loses power after it. *)
Definition demo_hosts_later : hostkeys ram :=
  mk_hostkeys (mk_ram (safe (storage demo_trusted.2)) (safe (storage demo_trusted.2)) None) false None.

Lemma host_key_pinned_witness :
  demo_trusted.1 = (ESP_OK, true) /\
  rtc (hostkey_step true) demo_trusted.2 demo_hosts_later /\
  let r := (si_ssh_hostkey_verify_or_trust (Some demo_host_key) (Some demo_fingerprint) demo_hostkey_env demo_task
              demo_hosts_later).1 in
  r.1 = ESP_OK /\ Some demo_fingerprint = Some demo_fingerprint /\ r.2 = false.
Proof.
  assert (E : demo_trusted.1 = (ESP_OK, true)) by by_eval.
  assert (Hr : rtc (hostkey_step true) demo_trusted.2 demo_hosts_later).
  { apply rtc_once, step_power; [done|]. split; [done|]. intros k. by right. }
  split; [exact E|]. split; [exact Hr|].
  assert (E2 : (si_ssh_hostkey_verify_or_trust (Some demo_host_key) (Some demo_fingerprint) demo_hostkey_env demo_task
              demo_hosts_later).1.1 = ESP_OK) by by_eval.
  pose proof (host_key_pinned (Some demo_host_key) (Some demo_fingerprint) demo_hostkey_env demo_task demo_hosts
                demo_hosts_later (Some demo_fingerprint) demo_hostkey_env demo_task) as H.
  fold demo_trusted in H. destruct demo_trusted as [[e new] s1]. injection E as -> ->. specialize (H eq_refl Hr).
  destruct (si_ssh_hostkey_verify_or_trust _ _ _ _ demo_hosts_later).1 as [e2 new2]. cbv zeta. exact (conj E2 (H E2)).
Defined.

(** Another fingerprint is refused. *)
Example changed_key_refused :
  (si_ssh_hostkey_verify_or_trust (Some demo_host_key) (Some (repeat (ch "0") 64)) demo_hostkey_env demo_task demo_hosts_later).1
  = (ESP_ERR_INVALID_CRC, false).
Proof. by_eval. Qed.
