(* ===== verification/SettingsSchema.v ===== *)
(** * The version of the settings: [infrastructure/settings_schema.c]

    At the start the firmware reads which version the settings in flash have, brings
    older ones forward and refuses newer ones. *)

From Stdlib Require Import String.
From stdpp Require Import gmap.
From S2P Require Import Prelude Firmware SettingsStore.

Definition SETTINGS_SCHEMA_NAMESPACE : cstring := cstr "si_schema".
Definition SETTINGS_SCHEMA_VERSION_KEY : cstring := cstr "version".
Definition SETTINGS_SCHEMA_LAST_GOOD_KEY : cstring := cstr "last_good".
Definition SETTINGS_SCHEMA_PENDING_KEY : cstring := cstr "pending".
Definition SI_SETTINGS_SCHEMA_CURRENT_VERSION : Z := 1.

Record si_settings_schema_status_t := mk_schema_status {
  version : Z;
  last_good_version : Z;
  pending_version : Z;
  initialized : bool;
  migration_resumed : bool;
  recovery_required : bool
}.

#[export] Instance eta_schema_status : Settable si_settings_schema_status_t := fun s =>
  mk_schema_status (version s) (last_good_version s) (pending_version s) (initialized s) (migration_resumed s)
    (recovery_required s).

(** The loop of the migrations; [None] when the fuel runs out. *)
Fixpoint migrations_loop (fuel : nat) (from_version to_version : Z) : option esp_err_t :=
  match fuel with
  | O => None
  | S fuel =>
      if from_version <? to_version then
        if from_version =? 0 then migrations_loop fuel 1 to_version else Some ESP_ERR_NOT_SUPPORTED
      else Some (if from_version =? to_version then ESP_OK else ESP_ERR_NOT_SUPPORTED)
  end.

(** One step leads from version 0 to version 1, and there is no other. *)
Definition run_migrations (from_version to_version : Z) : esp_err_t :=
  default ESP_FAIL (migrations_loop 2 from_version to_version).

Section schema.
Context {N : Type} `{Nvs N}.

Abbreviation store := (option si_settings_store_t) (only parsing).

(** The error, the value and whether there is one. *)
Definition get_optional_u32 (s : store) (key : cstring) : st (system N) (esp_err_t * Z * bool) :=
  r ← si_settings_store_get_int NVS_U32 s (Some key) true;
  return_if bool_decide (r.1 = ESP_ERR_NOT_FOUND) with mret (ESP_OK, 0, false) ;;
  mret (r.1, r.2, bool_decide (r.1 = ESP_OK)).

Definition erase_optional (s : store) (key : cstring) : st (system N) esp_err_t :=
  ret ← si_settings_store_erase_key s (Some key);
  mret (if bool_decide (ret = ESP_ERR_NOT_FOUND) then ESP_OK else ret).

(** [if (ret == ESP_OK) ret = ...] *)
Definition if_ok (ret : esp_err_t) (m : st (system N) esp_err_t) : st (system N) esp_err_t :=
  if bool_decide (ret = ESP_OK) then m else mret ret.

Definition set_u32 (s : store) (key : cstring) (v : Z) : st (system N) esp_err_t :=
  si_settings_store_set_int NVS_U32 s (Some key) v.

(** The version, its last good one, no pending one, and the commit. *)
Definition settle_schema (s : store) (status : si_settings_schema_status_t) (ret : esp_err_t) : st (system N) esp_err_t :=
  ret ← if_ok ret (set_u32 s SETTINGS_SCHEMA_VERSION_KEY (version status));
  ret ← if_ok ret (set_u32 s SETTINGS_SCHEMA_LAST_GOOD_KEY (last_good_version status));
  ret ← if_ok ret (erase_optional s SETTINGS_SCHEMA_PENDING_KEY);
  if_ok ret (si_settings_store_commit s).

(** The result of the call, with what is stored through [status_out]. *)
Definition close_schema (s : store) (status_out : bool) (ret : esp_err_t) (status : si_settings_schema_status_t)
  : st (system N) (esp_err_t * option si_settings_schema_status_t) :=
  si_settings_store_close s;;
  mret (ret, if status_out then Some status else None).

(** From an older version. *)
Definition migrate_schema (s : store) (status : si_settings_schema_status_t) (have_pending : bool)
  : st (system N) (esp_err_t * si_settings_schema_status_t) :=
  let status := status <| migration_resumed := have_pending |> <| last_good_version := version status |>
                       <| pending_version := SI_SETTINGS_SCHEMA_CURRENT_VERSION |> in
  ret ← set_u32 s SETTINGS_SCHEMA_LAST_GOOD_KEY (last_good_version status);
  ret ← if_ok ret (set_u32 s SETTINGS_SCHEMA_PENDING_KEY (pending_version status));
  ret ← if_ok ret (si_settings_store_commit s);
  let ret := if bool_decide (ret = ESP_OK) then run_migrations (version status) SI_SETTINGS_SCHEMA_CURRENT_VERSION else ret in
  let status := if bool_decide (ret = ESP_OK)
                then status <| version := SI_SETTINGS_SCHEMA_CURRENT_VERSION |>
                            <| last_good_version := SI_SETTINGS_SCHEMA_CURRENT_VERSION |> <| pending_version := 0 |>
                else status in
  ret ← settle_schema s status ret;
  mret (ret, status).

(** From a version that this firmware knows: a mark that was left behind, then the
    migration. *)
Definition resume_schema (s : store) (status_out : bool) (status : si_settings_schema_status_t) (have_pending : bool)
  : st (system N) (esp_err_t * option si_settings_schema_status_t) :=
  let stale := have_pending && (pending_version status <=? version status) in
  ret ← (if stale then
           ret ← erase_optional s SETTINGS_SCHEMA_PENDING_KEY;
           if_ok ret (si_settings_store_commit s)
         else mret ESP_OK);
  return_if negb (bool_decide (ret = ESP_OK)) with close_schema s status_out ret (status <| recovery_required := true |>) ;;
  let have_pending := have_pending && negb stale in
  let status := if stale then status <| pending_version := 0 |> else status in
  if version status <? SI_SETTINGS_SCHEMA_CURRENT_VERSION then
    m ← migrate_schema s status have_pending;
    return_if negb (bool_decide (m.1 = ESP_OK)) with close_schema s status_out m.1 (m.2 <| recovery_required := true |>) ;;
    close_schema s status_out ESP_OK (m.2 <| initialized := true |>)
  else close_schema s status_out ESP_OK (status <| initialized := true |>).
Definition si_settings_schema_initialize (status_out : bool)
  : st (system N) (esp_err_t * option si_settings_schema_status_t) :=
  r ← si_settings_store_open_write (Some SI_SETTINGS_STORE_INITIALIZER) (Some SETTINGS_SCHEMA_NAMESPACE);
  return_if negb (bool_decide (r.1 = ESP_OK)) with mret (r.1, None) ;;
  let s := r.2 in
  v ← get_optional_u32 s SETTINGS_SCHEMA_VERSION_KEY;
  g ← (if bool_decide (v.1.1 = ESP_OK) then get_optional_u32 s SETTINGS_SCHEMA_LAST_GOOD_KEY else mret (v.1.1, 0, false));
  p ← (if bool_decide (g.1.1 = ESP_OK) then get_optional_u32 s SETTINGS_SCHEMA_PENDING_KEY else mret (g.1.1, 0, false));
  return_if negb (bool_decide (p.1.1 = ESP_OK)) with (si_settings_store_close s;; mret (p.1.1, None)) ;;
  return_if negb v.2 with (
    let status := mk_schema_status SI_SETTINGS_SCHEMA_CURRENT_VERSION SI_SETTINGS_SCHEMA_CURRENT_VERSION 0 false false false in
    ret ← settle_schema s status ESP_OK;
    close_schema s status_out ret (status <| initialized := bool_decide (ret = ESP_OK) |>)) ;;
  let status := mk_schema_status v.1.2 (if g.2 then g.1.2 else v.1.2) p.1.2 false false false in
  return_if (SI_SETTINGS_SCHEMA_CURRENT_VERSION <? version status) ||
            (p.2 && (SI_SETTINGS_SCHEMA_CURRENT_VERSION <? pending_version status))
    with close_schema s status_out ESP_ERR_NOT_SUPPORTED (status <| recovery_required := true |>) ;;
  resume_schema s status_out status p.2.
End schema.
