(* ===== verification/SettingsSchemaProps.v ===== *)
(** * The version of the settings: properties

    A start never leaves newer settings, completes what it began, and refuses what a
    newer firmware left, over failures and losses of power. *)

From Stdlib Require Import String.
From stdpp Require Import gmap.
From S2P Require Import Prelude Firmware SettingsStore SettingsStoreProps SettingsSchema.

Abbreviation version_key := (SETTINGS_SCHEMA_NAMESPACE, SETTINGS_SCHEMA_VERSION_KEY).
Abbreviation last_good_key := (SETTINGS_SCHEMA_NAMESPACE, SETTINGS_SCHEMA_LAST_GOOD_KEY).
Abbreviation pending_key := (SETTINGS_SCHEMA_NAMESPACE, SETTINGS_SCHEMA_PENDING_KEY).
Abbreviation number := (NvsInt NVS_U32).

(** The migrations to the current version take at most two rounds, and know only
    version 0. *)
Lemma migrations_end from :
  migrations_loop 2 from SI_SETTINGS_SCHEMA_CURRENT_VERSION =
    Some (if bool_decide (from = 0 \/ from = 1) then ESP_OK else ESP_ERR_NOT_SUPPORTED).
Proof.
  cbn [migrations_loop]. unfold SI_SETTINGS_SCHEMA_CURRENT_VERSION. case_if; to_props.
  - case_if; to_props; case_bool_decide; try done; lia.
  - case_bool_decide as Hb; destruct (Z.eqb_spec from 1); try done; lia.
Qed.

Section schema.
Context {N : Type} `{NvsLaws N}.
Implicit Types (n : N) (s : system N) (x : option nvs_value).

Lemma get_optional_spec h key s :
  opened (nvs s) h = Some (SETTINGS_SCHEMA_NAMESPACE, NVS_READWRITE) ->
  wp (get_optional_u32 (Some (mk_settings_store h true true)) key) (fun r s' => nvs s' = nvs s /\
    (r.1.1 = ESP_OK -> if r.2 then contents (nvs s) !! (SETTINGS_SCHEMA_NAMESPACE, key) = Some (number r.1.2)
                       else r.1.2 = 0 /\ forall v, contents (nvs s) !! (SETTINGS_SCHEMA_NAMESPACE, key) <> Some (number v))) s.
Proof.
  intros Ho. unfold get_optional_u32. apply wp_bind. eapply wp_mono; [by apply (get_int_spec NVS_U32 h SETTINGS_SCHEMA_NAMESPACE true key)|].
  intros r s' [E [Hok Hno]]. case_if; decided; apply wp_ret; (split; [exact E|]); cbn [fst snd]; intros He.
  - split; [done | by apply Hno].
  - rewrite bool_decide_eq_true_2 by done. by apply Hok.
Qed.

Lemma set_u32_moves h key v s :
  0 <= v < 2 ^ 32 -> opened (nvs s) h = Some (SETTINGS_SCHEMA_NAMESPACE, NVS_READWRITE) ->
  wp (set_u32 (Some (mk_settings_store h true true)) key v)
    (fun e s' => moves_to (SETTINGS_SCHEMA_NAMESPACE, key) (Some (number v)) e (nvs s) (nvs s')) s.
Proof.
  intros Hv Ho. unfold set_u32, si_settings_store_set_int, store_set_int_direct. cbn [narrow]. rewrite u32_small by done.
  eapply wp_mono; [by apply set_value_spec|]. intros e s'. apply sets_moves.
Qed.

Lemma erase_optional_moves h key s :
  opened (nvs s) h = Some (SETTINGS_SCHEMA_NAMESPACE, NVS_READWRITE) ->
  wp (erase_optional (Some (mk_settings_store h true true)) key)
    (fun e s' => moves_to (SETTINGS_SCHEMA_NAMESPACE, key) None e (nvs s) (nvs s')) s.
Proof. exact (secret_erase_moves h SETTINGS_SCHEMA_NAMESPACE key s). Qed.

(** What the firmware of version 1 writes. *)
Definition schema_value (k : nvs_key) x : Prop :=
  k ∈ [version_key; last_good_key; pending_key] /\ (x = None \/ exists v, x = Some (number v) /\ 0 <= v <= 1).

(** One more change of a chain that the first failure ends; the pending mark is
    among the keys, so [k] is changed to [x] on success, and [P] holds of the others. *)
Lemma chain_step h (P : N -> Prop) k x ret m n0 s :
  (forall s1, opened (nvs s1) h = Some (SETTINGS_SCHEMA_NAMESPACE, NVS_READWRITE) ->
     wp m (fun e s' => moves_to k x e (nvs s1) (nvs s')) s1) ->
  schema_value k x ->
  (forall n1 n2, (forall k', k' <> k -> contents n2 !! k' = contents n1 !! k') -> P n1 -> P n2) ->
  opened (nvs s) h = Some (SETTINGS_SCHEMA_NAMESPACE, NVS_READWRITE) ->
  leaves schema_value n0 (nvs s) -> (ret = ESP_OK -> P (nvs s)) ->
  wp (if_ok ret m) (fun e s' => opened (nvs s') h = Some (SETTINGS_SCHEMA_NAMESPACE, NVS_READWRITE) /\
    leaves schema_value n0 (nvs s') /\ (e = ESP_OK -> ret = ESP_OK /\ P (nvs s') /\ contents (nvs s') !! k = x)) s.
Proof.
  intros Hm Hx HP Ho W Hret. unfold if_ok. case_if; decided; [|by apply wp_ret].
  eapply wp_mono; [by apply Hm|]. intros e s' M. pose proof M as (Ho' & Hother & _ & Hc). split_and!.
  - by rewrite Ho'.
  - etrans; [exact W|]. eapply moves_leaves, M. by left.
  - intros He. split_and!; [done | | by apply Hc]. eapply HP; [|by apply Hret]. intros k' Hne. by apply Hother.
Qed.

Lemma schema_commit_step h ret n0 s :
  opened (nvs s) h = Some (SETTINGS_SCHEMA_NAMESPACE, NVS_READWRITE) -> leaves schema_value n0 (nvs s) ->
  wp (if_ok ret (si_settings_store_commit (Some (mk_settings_store h true true)))) (fun e s' =>
    opened (nvs s') h = Some (SETTINGS_SCHEMA_NAMESPACE, NVS_READWRITE) /\ contents (nvs s') = contents (nvs s) /\
    leaves schema_value n0 (nvs s') /\ (e = ESP_OK -> ret = ESP_OK)) s.
Proof.
  intros Ho W. unfold if_ok. case_if; decided; [|by apply wp_ret].
  eapply wp_mono; [apply wp_conj; [by apply commit_spec | by eapply commit_opened]|].
  intros e s' [(C & F & _) E]. split_and!; [by rewrite E | done | | done].
  intros k x Hx. by apply W, F.
Qed.

Lemma key_value (key : nvs_key) v : key ∈ [version_key; last_good_key; pending_key] -> 0 <= v <= 1 -> schema_value key (Some (number v)).
Proof. intros Hk Hv. split; [done|]. right. by exists v. Qed.

Lemma settle_schema_spec h status ret n0 s :
  (ret = ESP_OK -> version status = 1 /\ last_good_version status = 1) ->
  opened (nvs s) h = Some (SETTINGS_SCHEMA_NAMESPACE, NVS_READWRITE) -> leaves schema_value n0 (nvs s) ->
  wp (settle_schema (Some (mk_settings_store h true true)) status ret) (fun e s' => leaves schema_value n0 (nvs s') /\
    (e = ESP_OK -> ret = ESP_OK /\ contents (nvs s') !! version_key = Some (number 1) /\ contents (nvs s') !! pending_key = None)) s.
Proof.
  intros Hst Ho W. unfold settle_schema. destruct (decide (ret = ESP_OK)) as [->|Hne].
  2: { unfold if_ok. rewrite (bool_decide_eq_false_2 _ Hne). do 3 (apply wp_bind, wp_ret; rewrite (bool_decide_eq_false_2 _ Hne)).
       by apply wp_ret. }
  destruct (Hst eq_refl) as [-> ->]. apply wp_bind.
  eapply wp_mono; [apply (chain_step h (fun _ => True) version_key (Some (number 1)) ESP_OK _ n0); try done|].
  { intros s1 Ho1. by apply set_u32_moves. } { apply key_value; [by_decide | lia]. }
  intros e1 s1 (Ho1 & W1 & H1). apply wp_bind.
  eapply wp_mono; [apply (chain_step h (fun n => contents n !! version_key = Some (number 1)) last_good_key (Some (number 1)) e1 _ n0); try done|].
  { intros s2 Ho2. by apply set_u32_moves. } { apply key_value; [by_decide | lia]. }
  { intros n1 n2 Hn. by rewrite Hn. } { intros He. by apply H1. }
  intros e2 s2 (Ho2 & W2 & H2). apply wp_bind.
  eapply wp_mono; [apply (chain_step h (fun n => contents n !! version_key = Some (number 1)) pending_key None e2 _ n0); try done|].
  { intros s3 Ho3. by apply erase_optional_moves. } { split; [by_decide | by left]. }
  { intros n1 n2 Hn. by rewrite Hn. } { intros He. by apply H2. }
  intros e3 s3 (Ho3 & W3 & H3). eapply wp_mono; [by apply schema_commit_step|].
  intros e4 s4 (_ & -> & W4 & H4). split; [done|]. intros He. split; [done|]. by apply H3, H4.
Qed.

(** What [migrate_schema] leaves, from a version below the current one. *)
Lemma migrate_spec h status have_pending n0 s :
  version status < 1 -> (0 <= version status) ->
  opened (nvs s) h = Some (SETTINGS_SCHEMA_NAMESPACE, NVS_READWRITE) -> leaves schema_value n0 (nvs s) ->
  wp (migrate_schema (Some (mk_settings_store h true true)) status have_pending) (fun r s' => leaves schema_value n0 (nvs s') /\
    (r.1 = ESP_OK -> contents (nvs s') !! version_key = Some (number 1) /\ contents (nvs s') !! pending_key = None /\
       r.2 = status <| migration_resumed := have_pending |> <| version := 1 |> <| last_good_version := 1 |>
                    <| pending_version := 0 |>)) s.
Proof.
  intros Hlt Hge Ho W. unfold migrate_schema. cbv zeta. set (status' := status <| migration_resumed := have_pending |>
    <| last_good_version := version status |> <| pending_version := SI_SETTINGS_SCHEMA_CURRENT_VERSION |>).
  apply wp_bind. change (last_good_version status') with (version status).
  eapply wp_mono; [apply (chain_step h (fun _ => True) last_good_key (Some (number (version status))) ESP_OK _ n0); try done|].
  { intros s1 Ho1. apply set_u32_moves; [lia | done]. } { apply key_value; [by_decide | lia]. }
  intros e1 s1 (Ho1 & W1 & _). apply wp_bind. change (pending_version status') with 1.
  eapply wp_mono; [apply (chain_step h (fun _ => True) pending_key (Some (number 1)) e1 _ n0); try done|].
  { intros s2 Ho2. by apply set_u32_moves. } { apply key_value; [by_decide | lia]. }
  intros e2 s2 (Ho2 & W2 & _). apply wp_bind. eapply wp_mono; [by apply schema_commit_step|].
  intros e3 s3 (Ho3 & _ & W3 & _). change (version status') with (version status).
  set (ret := if bool_decide (e3 = ESP_OK) then _ else e3).
  apply wp_bind. eapply wp_mono; [apply (settle_schema_spec h _ ret n0); [|done|done]|].
  { intros ->. by rewrite bool_decide_eq_true_2. }
  intros e4 s4 [W4 H4]. apply wp_ret. split; [done|]. cbn [fst snd]. intros He. destruct (H4 He) as (Hr & Hv & Hp).
  split_and!; [done | done|]. by rewrite (bool_decide_eq_true_2 _ Hr).
Qed.

(** Settings of a firmware that is newer than this one. *)
Definition newer n : Prop :=
  exists v, contents n !! version_key = Some (number v) /\
    (1 < v \/ exists p, contents n !! pending_key = Some (number p) /\ 1 < p).

(** The stored version is a natural number, as every [uint32_t]. *)
Definition natural_version n : Prop := forall v, contents n !! version_key = Some (number v) -> 0 <= v.

(** A migration was begun before. *)
Definition interrupted n : Prop :=
  contents n !! version_key = Some (number 0) /\ exists p, contents n !! pending_key = Some (number p) /\ 0 < p.

Definition settled_status (t : si_settings_schema_status_t) : Prop :=
  version t = 1 /\ pending_version t = 0 /\ initialized t = true /\ recovery_required t = false.

Definition initializes n (r : esp_err_t * option si_settings_schema_status_t) n' : Prop :=
  leaves schema_value n n' /\ (newer n -> untouched n n' /\ r.1 <> ESP_OK) /\
  (r.1 = ESP_OK -> contents n' !! version_key = Some (number 1) /\
     (forall v, contents n' !! pending_key <> Some (number v)) /\
     forall t, r.2 = Some t -> settled_status t /\ (migration_resumed t = true <-> interrupted n)).

Lemma initializes_failed n r n' : untouched n n' -> r.1 <> ESP_OK -> initializes n r n'.
Proof. intros Hu Hr. split_and!; [by apply untouched_leaves | done | done]. Qed.

(** The end of every path: the store is closed. *)
Lemma close_initializes n0 store out ret t s :
  (forall n', contents n' = contents (nvs s) -> flash n' = flash (nvs s) -> initializes n0 (ret, if out : bool then Some t else None) n') ->
  wp (close_schema store out ret t) (fun r s' => initializes n0 r (nvs s')) s.
Proof.
  intros Hi. unfold close_schema. apply wp_bind. eapply wp_mono; [apply close_spec|]. intros ? s1 [C F]. by apply wp_ret, Hi.
Qed.

Lemma closed_initializes n r n1 n2 : contents n2 = contents n1 -> flash n2 = flash n1 -> initializes n r n1 -> initializes n r n2.
Proof. unfold initializes, leaves, untouched. by intros -> ->. Qed.

(** What the readings say of the three keys. *)
Definition reads_number n (key : cstring) (r : esp_err_t * Z * bool) : Prop :=
  if r.2 then contents n !! (SETTINGS_SCHEMA_NAMESPACE, key) = Some (number r.1.2)
  else r.1.2 = 0 /\ forall v, contents n !! (SETTINGS_SCHEMA_NAMESPACE, key) <> Some (number v).

Lemma read_step h key (e : esp_err_t) s :
  opened (nvs s) h = Some (SETTINGS_SCHEMA_NAMESPACE, NVS_READWRITE) ->
  wp (if bool_decide (e = ESP_OK) then get_optional_u32 (Some (mk_settings_store h true true)) key else mret (e, 0, false))
    (fun r s' => nvs s' = nvs s /\ (r.1.1 = ESP_OK -> e = ESP_OK /\ reads_number (nvs s) key r)) s.
Proof.
  intros Ho. case_if; decided; [|by apply wp_ret]. eapply wp_mono; [by apply get_optional_spec|].
  intros r s' [E Hr]. by split; [|intros He; split; [|apply Hr]].
Qed.

Lemma reads_some n key r v : reads_number n key r -> contents n !! (SETTINGS_SCHEMA_NAMESPACE, key) = Some (number v) -> r.2 = true /\ r.1.2 = v.
Proof. unfold reads_number. destruct r.2; [intros -> E; by injection E | intros [_ Hn] E; by destruct (Hn v)]. Qed.

(** The first start. *)
Lemma first_initializes h out n0 s :
  opened (nvs s) h = Some (SETTINGS_SCHEMA_NAMESPACE, NVS_READWRITE) -> untouched n0 (nvs s) ->
  (forall v, contents n0 !! version_key <> Some (number v)) ->
  wp (let status := mk_schema_status SI_SETTINGS_SCHEMA_CURRENT_VERSION SI_SETTINGS_SCHEMA_CURRENT_VERSION 0 false false false in
      ret ← settle_schema (Some (mk_settings_store h true true)) status ESP_OK;
      close_schema (Some (mk_settings_store h true true)) out ret (status <| initialized := bool_decide (ret = ESP_OK) |>))
    (fun r s' => initializes n0 r (nvs s')) s.
Proof.
  intros Ho Hu Hv. cbv zeta. apply wp_bind.
  eapply wp_mono; [apply (settle_schema_spec h _ ESP_OK n0); [done | done | by apply untouched_leaves]|].
  intros e s1 [W He]. apply close_initializes. intros n' C F. apply (closed_initializes _ _ (nvs s1)); [done | done|].
  split_and!; [done | intros (v & Ev & _); by destruct (Hv v)|]. cbn [fst snd]. intros Eok. destruct (He Eok) as (_ & E1 & E2).
  split_and!; [done | intros v; by rewrite E2|]. intros t Et. destruct out; [|done]. injection Et as <-.
  split; [|split; [done|intros [E _]; by destruct (Hv 0)]]. split_and!; try done. by apply bool_decide_eq_true.
Qed.

(** The mark of a migration that was completed is taken away. *)
Lemma stale_step h (stale : bool) n0 s :
  opened (nvs s) h = Some (SETTINGS_SCHEMA_NAMESPACE, NVS_READWRITE) -> leaves schema_value n0 (nvs s) ->
  wp (if stale then
        ret ← erase_optional (Some (mk_settings_store h true true)) SETTINGS_SCHEMA_PENDING_KEY;
        if_ok ret (si_settings_store_commit (Some (mk_settings_store h true true)))
      else mret ESP_OK) (fun e s' => opened (nvs s') h = Some (SETTINGS_SCHEMA_NAMESPACE, NVS_READWRITE) /\
    leaves schema_value n0 (nvs s') /\ contents (nvs s') !! version_key = contents (nvs s) !! version_key /\
    (e = ESP_OK -> contents (nvs s') !! pending_key = if stale then None else contents (nvs s) !! pending_key)) s.
Proof.
  intros Ho W. destruct stale; [|by apply wp_ret]. apply wp_bind. eapply wp_mono; [by apply erase_optional_moves|].
  intros e s1 M. pose proof M as (Ho1 & Hother & _ & Hc). rewrite <- Ho1 in Ho.
  assert (W1 : leaves schema_value n0 (nvs s1)).
  { etrans; [exact W|]. eapply moves_leaves, M. left. split; [by_decide | by left]. }
  eapply wp_mono; [by apply schema_commit_step|]. intros e' s2 (Ho2 & -> & W2 & He). split_and!; [done | done | by apply Hother | auto].
Qed.

Lemma resume_schema_spec h out t (have_pending : bool) n0 s :
  opened (nvs s) h = Some (SETTINGS_SCHEMA_NAMESPACE, NVS_READWRITE) -> untouched n0 (nvs s) ->
  contents n0 !! version_key = Some (number (version t)) -> 0 <= version t <= 1 ->
  reads_number n0 SETTINGS_SCHEMA_PENDING_KEY (ESP_OK, pending_version t, have_pending) ->
  pending_version t <= 1 -> recovery_required t = false -> migration_resumed t = false ->
  wp (resume_schema (Some (mk_settings_store h true true)) out t have_pending) (fun r s' => initializes n0 r (nvs s')) s.
Proof.
  intros Ho Hu Hv Hr Hp Hle Hrec Hres. unfold resume_schema. cbv zeta. set (stale := have_pending && _).
  assert (Hnew : ~ newer n0).
  { intros (v & Ev & Hn). rewrite Hv in Ev. injection Ev as <-. destruct Hn as [|(p & Ep & Hn)]; [lia|].
    destruct (reads_some _ _ _ _ Hp Ep) as [_ E]. cbn in E. lia. }
  assert (Hint : interrupted n0 <-> version t = 0 /\ have_pending = true /\ 0 < pending_version t).
  { unfold interrupted. rewrite Hv. split.
    - intros (E & p & Ep & Hn). injection E as ->. destruct (reads_some _ _ _ _ Hp Ep) as [E1 E2].
      cbn [fst snd] in E1, E2. by rewrite E1, E2.
    - intros (-> & -> & Hn). split; [done | by exists (pending_version t)]. }
  apply wp_bind. eapply wp_mono; [apply (stale_step h stale n0); [done | by apply untouched_leaves]|].
  intros e s1 (Ho1 & W1 & C1 & P1). case_if; decided.
  { apply close_initializes. intros n' C F. apply (closed_initializes _ _ (nvs s1)); [done | done|]. by split_and!. }
  specialize (P1 Heqb). set (t' := if stale then _ else t).
  assert (Ev : version t' = version t) by (subst t'; by destruct stale).
  unfold SI_SETTINGS_SCHEMA_CURRENT_VERSION. destruct (Z.ltb_spec (version t') 1) as [Hlt|Hge].
  - pose proof (migrate_spec h t' (have_pending && negb stale) n0 s1 Hlt ltac:(lia) Ho1 W1) as Hmig.
    apply wp_bind. eapply wp_mono; [exact Hmig|]. clear Hmig.
    intros m s2 [W2 Hm]. case_if; decided; apply close_initializes; intros n' C F; apply (closed_initializes _ _ (nvs s2)); try done.
    destruct (Hm Heqb0) as (Em1 & Em2 & ->). split_and!; [done | done|]. cbn [fst snd].
    intros _. split_and!; [done | intros v; by rewrite Em2|]. intros u Eu. destruct out; [|done]. injection Eu as <-.
    split; [split_and!; try done; subst t'; by destruct stale|]. change (have_pending && negb stale = true <-> interrupted n0).
    rewrite Hint, andb_true_iff, negb_true_iff. subst stale. rewrite andb_false_iff, Z.leb_gt.
    assert (version t = 0) by lia. split; [intros [-> [?|?]]; [done | split_and!; [done | done | lia]]|].
    intros (_ & -> & ?). split; [done | right; lia].
  - apply close_initializes. intros n' C F. apply (closed_initializes _ _ (nvs s1)); [done | done|].
    assert (Et : version t = 1) by lia. assert (Es : stale = have_pending).
    { subst stale. destruct have_pending; [|done]. apply Z.leb_le. lia. }
    split_and!; [done | done|]. cbn [fst snd]. intros _. destruct Hu as [Hu _]. rewrite C1, P1, Hu, Hv, Et. split_and!; [done | |].
    + intros v. destruct stale; [done|]. subst have_pending. apply Hp.
    + intros u Eu. destruct out; [|done]. injection Eu as <-. split; [split_and!; try done|].
      * change (version (t' <| initialized := true |>)) with (version t'). lia.
      * change (pending_version (t' <| initialized := true |>)) with (pending_version t'). subst t'.
        destruct stale; [done|]. subst have_pending. by destruct Hp.
      * subst t'. by destruct stale.
      * split; [intros E; subst t'; by destruct stale; cbn in E; rewrite Hres in E|]. intros [E _]%Hint. lia.
Qed.

Lemma initialize_spec out s :
  natural_version (nvs s) ->
  wp (si_settings_schema_initialize out) (fun r s' => initializes (nvs s) r (nvs s')) s.
Proof.
  intros Hnat. unfold si_settings_schema_initialize. apply wp_bind. eapply wp_mono; [by apply open_write_spec|].
  intros r s1 (C1 & F1 & Hok & _). case_if; decided; [by apply wp_ret, initializes_failed|].
  destruct (Hok Heqb) as (h & -> & Ho). cbv zeta. change (bool_decide (NVS_READWRITE = NVS_READWRITE)) with true.
  apply wp_bind. eapply wp_mono; [by apply get_optional_spec|]. intros v s2 [E2 Hv]. rewrite <- E2 in Ho.
  apply wp_bind. eapply wp_mono; [by apply read_step|]. intros g s3 [E3 Hg]. rewrite <- E3 in Ho.
  apply wp_bind. eapply wp_mono; [by apply read_step|]. intros p s4 [E4 Hp]. rewrite <- E4 in Ho.
  assert (Hu : untouched (nvs s) (nvs s4)) by (split; congruence).
  case_if; decided.
  { apply wp_bind. eapply wp_mono; [apply close_spec|]. intros ? s5 [C5 F5]. apply wp_ret, initializes_failed; [|done].
    destruct Hu. by split; [rewrite C5 | rewrite F5]. }
  destruct (Hp Heqb0) as [Hg1 Rp]. destruct (Hg Hg1) as [Hv1 _]. specialize (Hv Hv1).
  change (reads_number (nvs s1) SETTINGS_SCHEMA_VERSION_KEY v) in Hv.
  assert (Cv : reads_number (nvs s) SETTINGS_SCHEMA_VERSION_KEY v) by (unfold reads_number in *; by rewrite <- C1).
  assert (Cp : reads_number (nvs s) SETTINGS_SCHEMA_PENDING_KEY p).
  { unfold reads_number in *. rewrite E3, E2, C1 in Rp. exact Rp. }
  case_if; decided.
  { apply first_initializes; [done | done|]. unfold reads_number in Cv. rewrite Heqb1 in Cv. by destruct Cv. }
  pose proof Cv as Ev. unfold reads_number in Ev. rewrite Heqb1 in Ev. specialize (Hnat _ Ev).
  cbn [version pending_version]. case_if.
  { apply close_initializes. intros n' C F. apply initializes_failed; [|done]. destruct Hu. by split; congruence. }
  apply orb_false_elim in Heqb2 as [H1 H2]. unfold SI_SETTINGS_SCHEMA_CURRENT_VERSION in H1, H2. to_props.
  apply resume_schema_spec; try done; cbn [version pending_version].
  unfold reads_number in Cp. destruct p.2; [cbn in H2; by to_props|]. destruct Cp as [-> _]. lia.
Qed.

(** ** Histories *)

(** A start, which may fail anywhere; another task; other services, which leave this
    namespace alone; a loss of power. *)
Inductive schema_step : system N -> system N -> Prop :=
| schema_start out s : schema_step s (si_settings_schema_initialize out s).2
| schema_task f s : schema_step s (s <| access := f |>)
| schema_others n s :
    (forall k, k.1 = SETTINGS_SCHEMA_NAMESPACE -> contents n !! k = contents (nvs s) !! k /\
       forall x, flash n k x -> flash (nvs s) k x) -> schema_step s (mk_system n (access s))
| schema_power n f s : nvs_restarts (nvs s) n -> schema_step s (mk_system n f).

(** The flash has never held a newer version. *)
Definition never_newer n : Prop :=
  forall k x, k ∈ [version_key; last_good_key; pending_key] -> flash n k x -> schema_value k x.

(** The key holds the number, in every later start too. *)
Definition lasts (key : nvs_key) v n : Prop :=
  contents n !! key = Some (number v) /\ forall x, flash n key x -> x = Some (number v).

(** A newer firmware committed its version, or the mark of a migration to it beside
    the version it comes from. *)
Definition committed_newer n : Prop :=
  exists v, 0 <= v /\ lasts version_key v n /\
    (SI_SETTINGS_SCHEMA_CURRENT_VERSION < v \/
     exists p, SI_SETTINGS_SCHEMA_CURRENT_VERSION < p /\ lasts pending_key p n).

Lemma committed_is_newer n : committed_newer n -> newer n /\ natural_version n.
Proof using.
  intros (v & Hv & [Ev _] & Hn). split.
  - exists v. split; [done|]. destruct Hn as [?|(p & ? & Ep & _)]; [by left | right; by exists p].
  - intros u Eu. rewrite Ev in Eu. by injection Eu as <-.
Qed.

Lemma never_newer_natural n : never_newer n -> natural_version n.
Proof.
  intros Hn v Ev. destruct (Hn version_key (contents n !! version_key)) as [_ [E|(u & E & Hu)]];
    [by left | apply flash_contents | congruence |].
  rewrite Ev in E. injection E as ->. lia.
Qed.

Lemma step_never_newer s s' : schema_step s s' -> never_newer (nvs s) -> never_newer (nvs s').
Proof.
  intros [out s1 | f s1 | n s1 Hn | n f s1 Hr] Hs k x Hk Hx.
  - destruct (initialize_spec out s1 (never_newer_natural _ Hs)) as [W _]. destruct (W k x Hx); [by apply Hs | done].
  - by apply Hs.
  - apply Hs; [done|]. apply (Hn k); [|done]. by repeat (apply elem_of_cons in Hk as [-> | Hk]; [done|]); apply not_elem_of_nil in Hk.
  - destruct (restart_law _ _ Hr k) as [H1 H2]. rewrite (H2 x Hx). by apply Hs.
Qed.

Lemma step_lasts key v s s' :
  key.1 = SETTINGS_SCHEMA_NAMESPACE -> newer (nvs s) -> natural_version (nvs s) ->
  schema_step s s' -> lasts key v (nvs s) -> lasts key v (nvs s').
Proof.
  intros Hk Hnew Hnat Hs. revert Hnew Hnat.
  destruct Hs as [out s1 | f s1 | n s1 Hn | n f s1 Hr]; intros Hnew Hnat [Hc Hf].
  - destruct (initialize_spec out s1 Hnat) as (_ & Hno & _). destruct (Hno Hnew) as [[E1 E2] _].
    unfold lasts. by rewrite E1, E2.
  - done.
  - destruct (Hn key Hk) as [E1 E2]. split; [exact (eq_trans E1 Hc)|]. intros x Hx. by apply Hf, E2.
  - destruct (restart_law _ _ Hr key) as [H1 H2]. pose proof (Hf _ H1) as E. split; [exact E|].
    intros x Hx. by rewrite (H2 x Hx).
Qed.

Lemma step_committed_newer s s' : schema_step s s' -> committed_newer (nvs s) -> committed_newer (nvs s').
Proof.
  intros Hs Hc. destruct (committed_is_newer _ Hc) as [Hnew Hnat]. destruct Hc as (v & Hv & Lv & Hn).
  exists v. split_and!; [done | by eapply step_lasts|].
  destruct Hn as [?|(p & Hp & Lp)]; [by left | right; exists p; split; [done | by eapply step_lasts]].
Qed.

(** C40: the settings move forward only, whatever fails and whenever the power is lost.
    On a device whose flash never held newer settings no start ever leaves any; a
    start that succeeds leaves the current version without a mark of a migration,
    says so, and says that it resumed one exactly when one had been begun; and on a
    device with a newer version, or with a version and the mark of a migration to a
    newer one, every start is refused, and writes nothing, as long as this firmware
    runs.  A mark without any version does not count ([mark_alone_is_lost]). *)
Theorem settings_move_forward s0 s out :
  rtc schema_step s0 s ->
  let '((e, status), s') := si_settings_schema_initialize out s in
  (never_newer (nvs s0) -> never_newer (nvs s') /\
     (e = ESP_OK -> contents (nvs s') !! version_key = Some (number SI_SETTINGS_SCHEMA_CURRENT_VERSION) /\
        (forall v, contents (nvs s') !! pending_key <> Some (number v)) /\
        forall t, status = Some t -> settled_status t /\ (migration_resumed t = true <-> interrupted (nvs s)))) /\
  (committed_newer (nvs s0) -> e <> ESP_OK /\ untouched (nvs s) (nvs s') /\ committed_newer (nvs s')).
Proof.
  intros Hr. pose proof (initialize_spec out s) as Hi. unfold wp in Hi.
  pose proof (schema_start out s) as Hs. destruct (si_settings_schema_initialize out s) as [[e status] s']. cbn [fst snd] in Hi, Hs.
  split.
  - intros H1. assert (H2 : never_newer (nvs s)) by (induction Hr as [|? ? ? Hx _ IH]; [done | by eapply IH, step_never_newer]).
    split; [by eapply step_never_newer|]. by apply Hi, never_newer_natural.
  - intros H1. assert (H2 : committed_newer (nvs s)).
    { clear Hi Hs. induction Hr as [|? ? ? Hx _ IH]; [done|]. by eapply IH, step_committed_newer. }
    destruct (committed_is_newer _ H2) as [Hn Hnat]. destruct (Hi Hnat) as (_ & Hnew & _). destruct (Hnew Hn) as [Hu He].
    split_and!; [done | done|]. by eapply (step_committed_newer s).
Qed.
End schema.

(** ** Witnesses *)

(** A device lost power while it migrated from version 0. *)
Definition demo_schema_map : gmap nvs_key nvs_value :=
  <[version_key := number 0]> (<[pending_key := number 1]> (<[last_good_key := number 0]> ∅)).

Definition demo_schema : system ram :=
  mk_system (mk_ram demo_schema_map demo_schema_map None) (mk_flash true true []).

Lemma demo_schema_known : never_newer (nvs demo_schema).
Proof.
  intros k x Hk Hx. split; [exact Hk|]. right.
  repeat (apply elem_of_cons in Hk as [-> | Hk]); [exists 0 | exists 0 | exists 1 | by apply not_elem_of_nil in Hk];
    (split; [destruct Hx as [-> | ->]; by_eval | lia]).
Qed.

Definition demo_schema_holding (m : gmap nvs_key nvs_value) : system ram :=
  mk_system (mk_ram m m None) (mk_flash true true []).

(** A newer firmware lost power while it migrated to version 2: refused, and written
    nowhere. *)
Definition demo_marked : system ram :=
  demo_schema_holding (<[version_key := number 1]> {[pending_key := number 2]}).

Lemma demo_marked_newer : committed_newer (nvs demo_marked).
Proof.
  exists 1. split; [lia|]. split; [split; [by_eval | intros x [-> | ->]; by_eval]|]. right. exists 2.
  split; [done|]. split; [by_eval | intros x [-> | ->]; by_eval].
Qed.

Lemma settings_move_forward_witness :
  (let '((e, status), s') := si_settings_schema_initialize true demo_schema in
   e = ESP_OK /\ migration_resumed (default (mk_schema_status 0 0 0 false false false) status) = true /\
   contents (nvs s') !! version_key = Some (number 1) /\ forall t, status = Some t -> settled_status t) /\
  (let '((e, status), s') := si_settings_schema_initialize true demo_marked in
   e <> ESP_OK /\ untouched (nvs demo_marked) (nvs s') /\ committed_newer (nvs s')).
Proof.
  split.
  - pose proof (settings_move_forward demo_schema demo_schema true (rtc_refl _ _)) as H.
    assert (E1 : (si_settings_schema_initialize true demo_schema).1.1 = ESP_OK) by by_eval.
    assert (E2 : migration_resumed (default (mk_schema_status 0 0 0 false false false) (si_settings_schema_initialize true demo_schema).1.2)
                 = true) by by_eval.
    destruct (si_settings_schema_initialize true demo_schema) as [[e status] s'].
    destruct (proj1 H demo_schema_known) as [_ Hok]. destruct (Hok E1) as (Hv & _ & Ht).
    exact (conj E1 (conj E2 (conj Hv (fun t Et => proj1 (Ht t Et))))).
  - pose proof (settings_move_forward demo_marked demo_marked true (rtc_refl _ _)) as H.
    destruct (si_settings_schema_initialize true demo_marked) as [[e status] s'].
    exact (proj2 H demo_marked_newer).
Defined.

(** The settings of a firmware with version 2 are refused. *)
Example newer_refused :
  (si_settings_schema_initialize true (demo_schema_holding {[version_key := number 2]})).1 =
    (ESP_ERR_NOT_SUPPORTED, Some (mk_schema_status 2 2 0 false false true)).
Proof. by_eval. Qed.

(** A mark of a newer firmware without a version beside it is taken for an empty
    storage and erased. *)
Example mark_alone_is_lost :
  let r := si_settings_schema_initialize true (demo_schema_holding {[pending_key := number 2]}) in
  r.1 = (ESP_OK, Some (mk_schema_status 1 1 0 true false false)) /\ contents (nvs r.2) !! pending_key = None.
Proof. split; by_eval. Qed.

(** A loss of power within the last commit of a migration can leave the version
    written and its last good version not: no later start brings it up. *)
Example last_good_lags :
  let m := <[version_key := number 1]> demo_schema_map in
  let start s := si_settings_schema_initialize true s in
  let s1 := (start (mk_system (mk_ram m m None) (mk_flash true true []))).2 in
  (option_map (fun t => (version t, last_good_version t)) (start s1).1.2, (start s1).1.1) = (Some (1, 0), ESP_OK).
Proof. by_eval. Qed.
