(* ===== verification/HostDisplayManager.v ===== *)
(** * The display plan: [application/host_display_manager.c]

    The device keeps one plan to change the display of the host.  Every call runs
    under the mutex of the file; whether the lock is there in time and the clock
    are inputs of a call. *)

From Stdlib Require Import String.
From S2P Require Import Prelude CText Hex Firmware HostDisplay.

Definition SI_HOST_DISPLAY_SESSION_ID_MAX : nat := 31.
Definition SI_HOST_DISPLAY_ERROR_MAX : nat := 127.

Inductive si_host_display_state_t :=
| SI_HOST_DISPLAY_STATE_EMPTY | SI_HOST_DISPLAY_STATE_PLANNED | SI_HOST_DISPLAY_STATE_APPROVED
| SI_HOST_DISPLAY_STATE_APPLYING | SI_HOST_DISPLAY_STATE_APPLIED | SI_HOST_DISPLAY_STATE_VERIFYING
| SI_HOST_DISPLAY_STATE_VERIFIED | SI_HOST_DISPLAY_STATE_FAILED | SI_HOST_DISPLAY_STATE_ROLLING_BACK
| SI_HOST_DISPLAY_STATE_ROLLED_BACK | SI_HOST_DISPLAY_STATE_CANCELLED.

#[export] Instance host_display_state_eq_dec : EqDecision si_host_display_state_t.
Proof. solve_decision. Defined.
#[export] Instance host_display_state_enum : CEnum si_host_display_state_t.
Proof.
  enum_of [SI_HOST_DISPLAY_STATE_EMPTY; SI_HOST_DISPLAY_STATE_PLANNED; SI_HOST_DISPLAY_STATE_APPROVED;
           SI_HOST_DISPLAY_STATE_APPLYING; SI_HOST_DISPLAY_STATE_APPLIED; SI_HOST_DISPLAY_STATE_VERIFYING;
           SI_HOST_DISPLAY_STATE_VERIFIED; SI_HOST_DISPLAY_STATE_FAILED; SI_HOST_DISPLAY_STATE_ROLLING_BACK;
           SI_HOST_DISPLAY_STATE_ROLLED_BACK; SI_HOST_DISPLAY_STATE_CANCELLED].
Defined.

Record si_host_display_status_t := mk_display_status {
  state : si_host_display_state_t;
  approval_required : bool;
  approved : bool;
  reboot_required : bool;
  created_ms : Z;
  updated_ms : Z;
  plan_id : cstring;
  approved_by_session : cstring;
  error : cstring;
  request : si_host_display_request_t
}.

#[export] Instance eta_display_status : Settable si_host_display_status_t := fun s =>
  mk_display_status (state s) (approval_required s) (approved s) (reboot_required s) (created_ms s) (updated_ms s)
    (plan_id s) (approved_by_session s) (error s) (request s).

Definition zero_display_request : si_host_display_request_t := mk_display_request [] 0 0 0 false.

Definition zero_display_status : si_host_display_status_t :=
  mk_display_status SI_HOST_DISPLAY_STATE_EMPTY false false false 0 0 [] [] [] zero_display_request.

(** The statics of the file; [s_lock]: the mutex exists. *)
Record display_plan := mk_display_plan {
  s_lock : bool;
  s_status : si_host_display_status_t;
  s_plan_seq : Z
}.

#[export] Instance eta_display_plan : Settable display_plan := fun s =>
  mk_display_plan (s_lock s) (s_status s) (s_plan_seq s).

(** What a call reads: whether the wait for the mutex ends in time, the clock, and
    whether the caller wants a copy of the status. *)
Record display_env := mk_display_env { lock_in_time : bool; monotonic_ms : Z; wants_copy : bool }.

(** The error, and the status that is copied out. *)
Abbreviation display_result := (esp_err_t * option si_host_display_status_t)%type.

Definition plan_matches_locked (id : option cstring) : st display_plan bool :=
  gets (fun s => ptr_test (fun i => negb (is_empty i)) id && negb (is_empty (plan_id (s_status s))) &&
                 streq (deref id) (plan_id (s_status s))).

Definition copy_out_locked (env : display_env) : st display_plan (option si_host_display_status_t) :=
  gets (fun s => if wants_copy env then Some (s_status s) else None).

Definition state_accepts_new_plan (state : si_host_display_state_t) : bool :=
  bool_decide (state = SI_HOST_DISPLAY_STATE_EMPTY) || bool_decide (state = SI_HOST_DISPLAY_STATE_CANCELLED) ||
  bool_decide (state = SI_HOST_DISPLAY_STATE_VERIFIED) || bool_decide (state = SI_HOST_DISPLAY_STATE_ROLLED_BACK) ||
  bool_decide (state = SI_HOST_DISPLAY_STATE_FAILED).

Definition take_lock (env : display_env) : st display_plan esp_err_t :=
  gets (fun s => if s_lock s && lock_in_time env then ESP_OK else ESP_ERR_TIMEOUT).

(** The result of a call that changed the plan. *)
Definition copied (env : display_env) : st display_plan display_result :=
  c ← copy_out_locked env; mret (ESP_OK, c).

Definition current_state : st display_plan si_host_display_state_t := gets (fun s => state (s_status s)).

Definition change_status (f : si_host_display_status_t -> si_host_display_status_t) : st display_plan unit :=
  modify (fun s => s <| s_status := f (s_status s) |>).

Definition transition_begin (id : option cstring) (from_a from_b next : si_host_display_state_t) (env : display_env)
  : st display_plan display_result :=
  e ← take_lock env;
  return_if negb (bool_decide (e = ESP_OK)) with mret (e, None) ;;
  m ← plan_matches_locked id;
  return_if negb m with mret (ESP_ERR_NOT_FOUND, None) ;;
  st ← current_state;
  return_if negb (bool_decide (st = from_a)) && negb (bool_decide (st = from_b)) with mret (ESP_ERR_INVALID_STATE, None) ;;
  change_status (fun t => t <| state := next |> <| updated_ms := monotonic_ms env |> <| error := [] |>);;
  copied env.

Definition transition_finish (id : option cstring) (expected success_state : si_host_display_state_t) (success : bool)
    (err : option cstring) (env : display_env) : st display_plan display_result :=
  e ← take_lock env;
  return_if negb (bool_decide (e = ESP_OK)) with mret (e, None) ;;
  m ← plan_matches_locked id;
  return_if negb m with mret (ESP_ERR_NOT_FOUND, None) ;;
  st ← current_state;
  return_if negb (bool_decide (st = expected)) with mret (ESP_ERR_INVALID_STATE, None) ;;
  change_status (fun t => t <| state := if success then success_state else SI_HOST_DISPLAY_STATE_FAILED |>
    <| updated_ms := monotonic_ms env |>
    <| error := strtrunc (SI_HOST_DISPLAY_ERROR_MAX + 1)
                  (if success then [] else default (cstr "operation failed") err) |>);;
  copied env.

(** [created]: the mutex could be created. *)
Definition si_host_display_manager_start (created : bool) : st display_plan esp_err_t :=
  there ← gets s_lock;
  return_if there with mret ESP_OK ;;
  modify (fun s => s <| s_lock := created |>);;
  return_if negb created with mret ESP_ERR_NO_MEM ;;
  change_status (fun _ => zero_display_status);;
  mret ESP_OK.

(** [hd-%08lx-%04lx] *)
Definition plan_id_text (now_ms seq : Z) : cstring :=
  cstr "hd-" ++ hex32 now_ms ++ [ch "-"] ++ hex_byte (seq mod 65536 / 256) ++ hex_byte (seq mod 256).

Definition si_host_display_plan_create (r : option si_host_display_request_t) (env : display_env)
  : st display_plan display_result :=
  match r with
  | Some req =>
      return_if negb (bool_decide (si_host_display_validate_request r = SI_HOST_DISPLAY_OK))
        with mret (ESP_ERR_INVALID_ARG, None) ;;
      e ← take_lock env;
      return_if negb (bool_decide (e = ESP_OK)) with mret (e, None) ;;
      st ← current_state;
      return_if negb (state_accepts_new_plan st) with mret (ESP_ERR_INVALID_STATE, None) ;;
      modify (fun s => s <| s_plan_seq := u32 (s_plan_seq s + 1) |>);;
      seq ← gets s_plan_seq;
      change_status (fun _ => zero_display_status <| state := SI_HOST_DISPLAY_STATE_PLANNED |>
        <| approval_required := true |> <| reboot_required := persistent req |>
        <| created_ms := monotonic_ms env |> <| updated_ms := monotonic_ms env |> <| request := req |>
        <| plan_id := strtrunc (SI_HOST_DISPLAY_PLAN_ID_MAX + 1) (plan_id_text (monotonic_ms env) seq) |>);;
      copied env
  | None => mret (ESP_ERR_INVALID_ARG, None)
  end.

Definition si_host_display_plan_get (env : display_env) : st display_plan display_result :=
  return_if negb (wants_copy env) with mret (ESP_ERR_INVALID_ARG, None) ;;
  e ← take_lock env;
  return_if negb (bool_decide (e = ESP_OK)) with mret (e, None) ;;
  copied env.

Definition session_id_bad (session_id : option cstring) : bool :=
  negb (ptr_test (fun i => negb (is_empty i)) session_id) ||
  (SI_HOST_DISPLAY_SESSION_ID_MAX <? length (deref session_id))%nat.

Definition si_host_display_plan_approve (id session_id : option cstring) (env : display_env)
  : st display_plan display_result :=
  return_if session_id_bad session_id with mret (ESP_ERR_INVALID_ARG, None) ;;
  e ← take_lock env;
  return_if negb (bool_decide (e = ESP_OK)) with mret (e, None) ;;
  m ← plan_matches_locked id;
  return_if negb m with mret (ESP_ERR_NOT_FOUND, None) ;;
  st ← current_state;
  return_if negb (bool_decide (st = SI_HOST_DISPLAY_STATE_PLANNED)) with mret (ESP_ERR_INVALID_STATE, None) ;;
  change_status (fun t => t <| state := SI_HOST_DISPLAY_STATE_APPROVED |> <| approved := true |>
    <| updated_ms := monotonic_ms env |>
    <| approved_by_session := strtrunc (SI_HOST_DISPLAY_SESSION_ID_MAX + 1) (deref session_id) |>);;
  copied env.

Definition si_host_display_plan_cancel (id session_id : option cstring) (env : display_env)
  : st display_plan display_result :=
  return_if session_id_bad session_id with mret (ESP_ERR_INVALID_ARG, None) ;;
  e ← take_lock env;
  return_if negb (bool_decide (e = ESP_OK)) with mret (e, None) ;;
  m ← plan_matches_locked id;
  return_if negb m with mret (ESP_ERR_NOT_FOUND, None) ;;
  st ← current_state;
  return_if negb (bool_decide (st = SI_HOST_DISPLAY_STATE_PLANNED)) &&
            negb (bool_decide (st = SI_HOST_DISPLAY_STATE_APPROVED)) with mret (ESP_ERR_INVALID_STATE, None) ;;
  change_status (fun t => t <| state := SI_HOST_DISPLAY_STATE_CANCELLED |> <| approved := false |>
    <| updated_ms := monotonic_ms env |>
    <| approved_by_session := strtrunc (SI_HOST_DISPLAY_SESSION_ID_MAX + 1) (deref session_id) |>);;
  copied env.

Definition si_host_display_plan_begin_apply (id : option cstring) :=
  transition_begin id SI_HOST_DISPLAY_STATE_APPROVED SI_HOST_DISPLAY_STATE_APPROVED SI_HOST_DISPLAY_STATE_APPLYING.

Definition si_host_display_plan_finish_apply (id : option cstring) :=
  transition_finish id SI_HOST_DISPLAY_STATE_APPLYING SI_HOST_DISPLAY_STATE_APPLIED.

Definition si_host_display_plan_begin_verify (id : option cstring) :=
  transition_begin id SI_HOST_DISPLAY_STATE_APPLIED SI_HOST_DISPLAY_STATE_FAILED SI_HOST_DISPLAY_STATE_VERIFYING.

Definition si_host_display_plan_finish_verify (id : option cstring) :=
  transition_finish id SI_HOST_DISPLAY_STATE_VERIFYING SI_HOST_DISPLAY_STATE_VERIFIED.

Definition si_host_display_plan_begin_rollback (id : option cstring) (env : display_env)
  : st display_plan display_result :=
  e ← take_lock env;
  return_if negb (bool_decide (e = ESP_OK)) with mret (e, None) ;;
  m ← plan_matches_locked id;
  return_if negb m with mret (ESP_ERR_NOT_FOUND, None) ;;
  st ← current_state;
  return_if negb (bool_decide (st = SI_HOST_DISPLAY_STATE_APPLIED)) &&
            negb (bool_decide (st = SI_HOST_DISPLAY_STATE_VERIFIED)) &&
            negb (bool_decide (st = SI_HOST_DISPLAY_STATE_FAILED)) with mret (ESP_ERR_INVALID_STATE, None) ;;
  change_status (fun t => t <| state := SI_HOST_DISPLAY_STATE_ROLLING_BACK |> <| updated_ms := monotonic_ms env |>
    <| error := [] |>);;
  copied env.

Definition si_host_display_plan_finish_rollback (id : option cstring) :=
  transition_finish id SI_HOST_DISPLAY_STATE_ROLLING_BACK SI_HOST_DISPLAY_STATE_ROLLED_BACK.

Definition si_host_display_state_name (state : Z) : cstring :=
  match enum_of_Z state with
  | Some SI_HOST_DISPLAY_STATE_PLANNED => cstr "planned"
  | Some SI_HOST_DISPLAY_STATE_APPROVED => cstr "approved"
  | Some SI_HOST_DISPLAY_STATE_APPLYING => cstr "applying"
  | Some SI_HOST_DISPLAY_STATE_APPLIED => cstr "applied"
  | Some SI_HOST_DISPLAY_STATE_VERIFYING => cstr "verifying"
  | Some SI_HOST_DISPLAY_STATE_VERIFIED => cstr "verified"
  | Some SI_HOST_DISPLAY_STATE_FAILED => cstr "failed"
  | Some SI_HOST_DISPLAY_STATE_ROLLING_BACK => cstr "rolling_back"
  | Some SI_HOST_DISPLAY_STATE_ROLLED_BACK => cstr "rolled_back"
  | Some SI_HOST_DISPLAY_STATE_CANCELLED => cstr "cancelled"
  | _ => cstr "empty"
  end.

(** ** Histories *)

Inductive display_call :=
| DisplayStart (created : bool)
| DisplayCreate (r : option si_host_display_request_t)
| DisplayGet
| DisplayApprove (id session_id : option cstring)
| DisplayCancel (id session_id : option cstring)
| DisplayBeginApply (id : option cstring)
| DisplayFinishApply (id : option cstring) (success : bool) (err : option cstring)
| DisplayBeginVerify (id : option cstring)
| DisplayFinishVerify (id : option cstring) (success : bool) (err : option cstring)
| DisplayBeginRollback (id : option cstring)
| DisplayFinishRollback (id : option cstring) (success : bool) (err : option cstring).

Definition display_exec (c : display_call) (env : display_env) : st display_plan display_result :=
  match c with
  | DisplayStart created => e ← si_host_display_manager_start created; mret (e, None)
  | DisplayCreate r => si_host_display_plan_create r env
  | DisplayGet => si_host_display_plan_get env
  | DisplayApprove id session => si_host_display_plan_approve id session env
  | DisplayCancel id session => si_host_display_plan_cancel id session env
  | DisplayBeginApply id => si_host_display_plan_begin_apply id env
  | DisplayFinishApply id success err => si_host_display_plan_finish_apply id success err env
  | DisplayBeginVerify id => si_host_display_plan_begin_verify id env
  | DisplayFinishVerify id success err => si_host_display_plan_finish_verify id success err env
  | DisplayBeginRollback id => si_host_display_plan_begin_rollback id env
  | DisplayFinishRollback id success err => si_host_display_plan_finish_rollback id success err env
  end.

(** The statics at the start of the device. *)
Definition display_reset : display_plan := mk_display_plan false zero_display_status 0.

(** The calls that answered [ESP_OK], the last one first, and the plan after them;
    a call that failed leaves no trace. *)
Inductive display_history : list display_call -> display_plan -> Prop :=
| history_reset : display_history [] display_reset
| history_step h c env s : display_history h s ->
    display_history (if bool_decide ((display_exec c env s).1.1 = ESP_OK) then c :: h else h) (display_exec c env s).2.
