(* ===== verification/HostDisplayManagerProps.v ===== *)
(** * The display plan: properties

    The display of the host is changed only as a session approved it, once; and what
    was changed can be taken back. *)

From Stdlib Require Import String.
From S2P Require Import Prelude CText Hex Firmware HostDisplay HostDisplayManager.

(** ** What a successful call did *)

(** The states that a transition takes a plan from, and to. *)
Definition transitions (c : display_call) : list si_host_display_state_t * list si_host_display_state_t :=
  match c with
  | DisplayStart _ | DisplayCreate _ | DisplayGet => ([], [])
  | DisplayApprove _ _ => ([SI_HOST_DISPLAY_STATE_PLANNED], [SI_HOST_DISPLAY_STATE_APPROVED])
  | DisplayCancel _ _ =>
      ([SI_HOST_DISPLAY_STATE_PLANNED; SI_HOST_DISPLAY_STATE_APPROVED], [SI_HOST_DISPLAY_STATE_CANCELLED])
  | DisplayBeginApply _ => ([SI_HOST_DISPLAY_STATE_APPROVED], [SI_HOST_DISPLAY_STATE_APPLYING])
  | DisplayFinishApply _ success _ =>
      ([SI_HOST_DISPLAY_STATE_APPLYING],
       [if success then SI_HOST_DISPLAY_STATE_APPLIED else SI_HOST_DISPLAY_STATE_FAILED])
  | DisplayBeginVerify _ =>
      ([SI_HOST_DISPLAY_STATE_APPLIED; SI_HOST_DISPLAY_STATE_FAILED], [SI_HOST_DISPLAY_STATE_VERIFYING])
  | DisplayFinishVerify _ success _ =>
      ([SI_HOST_DISPLAY_STATE_VERIFYING],
       [if success then SI_HOST_DISPLAY_STATE_VERIFIED else SI_HOST_DISPLAY_STATE_FAILED])
  | DisplayBeginRollback _ =>
      ([SI_HOST_DISPLAY_STATE_APPLIED; SI_HOST_DISPLAY_STATE_VERIFIED; SI_HOST_DISPLAY_STATE_FAILED],
       [SI_HOST_DISPLAY_STATE_ROLLING_BACK])
  | DisplayFinishRollback _ success _ =>
      ([SI_HOST_DISPLAY_STATE_ROLLING_BACK],
       [if success then SI_HOST_DISPLAY_STATE_ROLLED_BACK else SI_HOST_DISPLAY_STATE_FAILED])
  end.

Definition call_plan (c : display_call) : option cstring :=
  match c with
  | DisplayStart _ | DisplayCreate _ | DisplayGet => None
  | DisplayApprove id _ | DisplayCancel id _ | DisplayBeginApply id | DisplayFinishApply id _ _
  | DisplayBeginVerify id | DisplayFinishVerify id _ _ | DisplayBeginRollback id | DisplayFinishRollback id _ _ => id
  end.

(** The session that a plan records. *)
Definition signs (c : display_call) (t t' : si_host_display_status_t) : Prop :=
  match c with
  | DisplayApprove _ session | DisplayCancel _ session =>
      session = Some (approved_by_session t') /\ approved_by_session t' <> []
  | _ => approved_by_session t' = approved_by_session t
  end.

(** A transition of the plan that it names. *)
Definition takes (c : display_call) (t t' : si_host_display_status_t) : Prop :=
  call_plan c = Some (plan_id t) /\ plan_id t <> [] /\ state t ∈ (transitions c).1 /\ state t' ∈ (transitions c).2 /\
  plan_id t' = plan_id t /\ request t' = request t /\ signs c t t'.

Definition idle (c : display_call) : Prop :=
  match c with DisplayStart _ | DisplayGet => True | _ => False end.

Definition plan_step (c : display_call) (s s' : display_plan) : Prop :=
  match c with
  | DisplayStart _ => s_status s' = (if s_lock s then s_status s else zero_display_status) /\ s_lock s' = true
  | DisplayGet => s' = s
  | DisplayCreate r =>
      s_lock s' = true /\ s_lock s = true /\ state_accepts_new_plan (state (s_status s)) = true /\
      state (s_status s') = SI_HOST_DISPLAY_STATE_PLANNED /\ plan_id (s_status s') <> [] /\
      exists req, r = Some req /\ request (s_status s') = req /\ si_host_display_validate_request r = SI_HOST_DISPLAY_OK
  | _ => s_lock s' = true /\ s_lock s = true /\ takes c (s_status s) (s_status s')
  end.

(** A call does its step or fails and changes nothing. *)
Definition does (c : display_call) (s : display_plan) (r : display_result) (s' : display_plan) : Prop :=
  if bool_decide (r.1 = ESP_OK) then plan_step c s s' else s' = s.

Lemma does_failed c s e r : e <> ESP_OK -> does c s (e, r) s.
Proof. intros He. unfold does. by rewrite bool_decide_eq_false_2. Qed.

Lemma does_done c s r s' : plan_step c s s' -> does c s (ESP_OK, r) s'.
Proof. intros H. unfold does. by rewrite bool_decide_eq_true_2. Qed.

Lemma matches_id (id : option cstring) p :
  ptr_test (fun i => negb (is_empty i)) id && negb (is_empty p) && streq (deref id) p = true -> id = Some p /\ p <> [].
Proof. destruct id as [i|]; [|done]. cbn. intros H. split_guards. to_props. split; [by f_equal | by destruct p]. Qed.

(** The checks in front of every transition. *)
Lemma wp_checked c id env (k : si_host_display_state_t -> st display_plan display_result) s :
  (s_lock s = true -> id = Some (plan_id (s_status s)) -> plan_id (s_status s) <> [] ->
   wp (k (state (s_status s))) (does c s) s) ->
  wp (e ← take_lock env;
      return_if negb (bool_decide (e = ESP_OK)) with mret (e, None) ;;
      m ← plan_matches_locked id;
      return_if negb m with mret (ESP_ERR_NOT_FOUND, None) ;;
      st ← current_state; k st) (does c s) s.
Proof.
  intros Hk. apply wp_bind, wp_gets. destruct (s_lock s && lock_in_time env) eqn:El; [|by apply wp_ret, does_failed].
  apply wp_bind, wp_gets. case_if; [by apply wp_ret, does_failed|]. apply negb_false_iff, matches_id in Heqb as [-> Hp].
  apply wp_bind, wp_gets. split_guards. by apply Hk.
Qed.

(** A transition after them. *)
Lemma wp_change c env (f : si_host_display_status_t -> si_host_display_status_t) s :
  (forall t, s_status s = t -> plan_step c s (s <| s_status := f t |>)) ->
  wp (change_status f;; copied env) (does c s) s.
Proof. intros H. apply wp_bind, wp_modify, wp_bind, wp_gets, wp_ret, does_done. by apply H. Qed.

Lemma wp_transition c env bad f s :
  (bad = false -> plan_step c s (s <| s_status := f (s_status s) |>)) ->
  wp (return_if bad with mret (ESP_ERR_INVALID_STATE, None) ;; change_status f;; copied env) (does c s) s.
Proof.
  intros H. case_if; [by apply wp_ret, does_failed|]. apply wp_change. intros t <-. by apply H.
Qed.

Ltac transition :=
  apply wp_transition; let Hs := fresh "Hs" in intros Hs; rewrite ?andb_false_iff in Hs;
  cbn [plan_step]; unfold takes; split_and!; try done; cbn in *;
  repeat match goal with H : _ \/ _ |- _ => destruct H end; decided; try (split; congruence); set_solver.

Lemma session_fits session_id :
  session_id_bad session_id = false ->
  exists session, session_id = Some session /\ session <> [] /\ strtrunc (SI_HOST_DISPLAY_SESSION_ID_MAX + 1) (deref session_id) = session.
Proof.
  unfold session_id_bad. intros [H1 H2]%orb_false_elim. destruct session_id as [session|]; [|done]. to_props.
  exists session. split_and!; [done | by destruct session|]. apply firstn_all2. change (deref (Some session)) with session in *.
  unfold SI_HOST_DISPLAY_SESSION_ID_MAX in *. lia.
Qed.

(** Every call does its step, or fails and changes nothing. *)
Lemma exec_does c env s : wp (display_exec c env) (does c s) s.
Proof.
  destruct c as [created|r| |id session|id session|id|id success err|id|id success err|id|id success err]; cbn [display_exec].
  - unfold si_host_display_manager_start. apply wp_bind, wp_bind, wp_gets. destruct (s_lock s) eqn:El.
    + apply wp_ret, wp_ret, does_done. cbn [plan_step]. by rewrite El.
    + apply wp_bind, wp_modify. case_if.
      * apply wp_ret, wp_ret. destruct created; [done|]. replace (s <| s_lock := false |>) with s; [by apply does_failed|].
        destruct s as [l t q]. cbn in El. by rewrite El.
      * apply negb_false_iff in Heqb as ->. apply wp_bind, wp_modify, wp_ret, wp_ret, does_done. cbn [plan_step]. by rewrite El.
  - destruct r as [req|]; [|by apply wp_ret, does_failed]. cbn [si_host_display_plan_create]. case_if; [by apply wp_ret, does_failed|].
    apply negb_false_iff, bool_decide_eq_true in Heqb. apply wp_bind, wp_gets.
    destruct (s_lock s && lock_in_time env) eqn:El; [|by apply wp_ret, does_failed]. cbn [bool_decide negb]. split_guards.
    apply wp_bind, wp_gets. case_if; [by apply wp_ret, does_failed|]. apply negb_false_iff in Heqb0.
    apply wp_bind, wp_modify, wp_bind, wp_gets, wp_bind, wp_modify, wp_bind, wp_gets, wp_ret, does_done.
    cbn [plan_step]. split_and!; try done. by exists req.
  - unfold si_host_display_plan_get. case_if; [by apply wp_ret, does_failed|]. apply wp_bind, wp_gets.
    destruct (s_lock s && lock_in_time env) eqn:El; [|by apply wp_ret, does_failed]. by apply wp_bind, wp_gets, wp_ret, does_done.
  - unfold si_host_display_plan_approve. case_if; [by apply wp_ret, does_failed|]. apply session_fits in Heqb as (u & -> & Hu & Eu).
    apply wp_checked. intros Hl -> Hp.
    transition.
  - unfold si_host_display_plan_cancel. case_if; [by apply wp_ret, does_failed|]. apply session_fits in Heqb as (u & -> & Hu & Eu).
    apply wp_checked. intros Hl -> Hp. transition.
  - apply wp_checked. intros Hl -> Hp. transition.
  - apply wp_checked. intros Hl -> Hp. transition.
  - apply wp_checked. intros Hl -> Hp. transition.
  - apply wp_checked. intros Hl -> Hp. transition.
  - apply wp_checked. intros Hl -> Hp. transition.
  - apply wp_checked. intros Hl -> Hp. transition.
Qed.

(** ** The life of a plan

    Histories have the last call first. *)

Definition no_change (c : display_call) : Prop :=
  match c with DisplayCreate _ | DisplayApprove _ _ | DisplayBeginApply _ => False | _ => True end.

(** Since the request there was one approval, and nothing but readings. *)
Definition signed (since : list display_call) (t : si_host_display_status_t) : Prop :=
  exists after before, since = after ++ DisplayApprove (Some (plan_id t)) (Some (approved_by_session t)) :: before /\
    Forall idle after /\ Forall idle before /\ approved_by_session t <> [].

(** And since then one change of the display. *)
Definition carried_out (since : list display_call) (t : si_host_display_status_t) : Prop :=
  exists after before, since = after ++ DisplayBeginApply (Some (plan_id t)) :: before /\ Forall no_change after /\ signed before t.

Definition stage (since : list display_call) (t : si_host_display_status_t) : Prop :=
  match state t with
  | SI_HOST_DISPLAY_STATE_EMPTY => False
  | SI_HOST_DISPLAY_STATE_PLANNED => Forall idle since
  | SI_HOST_DISPLAY_STATE_APPROVED => signed since t
  | SI_HOST_DISPLAY_STATE_CANCELLED => True
  | _ => carried_out since t
  end.

Definition life (h : list display_call) (t : si_host_display_status_t) : Prop :=
  exists req since rest, h = since ++ DisplayCreate (Some req) :: rest /\ request t = req /\
    si_host_display_validate_request (Some req) = SI_HOST_DISPLAY_OK /\ stage since t.

Definition plan_ok (h : list display_call) (s : display_plan) : Prop :=
  s_status s = zero_display_status \/ s_lock s = true /\ life h (s_status s).

Lemma idle_no_change c : idle c -> no_change c.
Proof. by destruct c. Qed.

Lemma stage_idle c since t : idle c -> stage since t -> stage (c :: since) t.
Proof.
  intros Hc. unfold stage. assert (Hs : signed since t -> signed (c :: since) t).
  { intros (a & b & -> & Ha & Hb). exists (c :: a), b. split_and!; [done | by constructor | apply Hb | apply Hb]. }
  assert (Hd : carried_out since t -> carried_out (c :: since) t).
  { intros (a & b & -> & Ha & Hb). exists (c :: a), b. split_and!; [done | constructor; [by apply idle_no_change | done] | done]. }
  destruct (state t); auto.
Qed.

(** What a transition keeps of the approval and of the change. *)
Lemma signed_same since t t' :
  plan_id t' = plan_id t -> approved_by_session t' = approved_by_session t -> signed since t -> signed since t'.
Proof. unfold signed. by intros -> ->. Qed.

Lemma carried_on c since t t' :
  no_change c -> plan_id t' = plan_id t -> approved_by_session t' = approved_by_session t ->
  carried_out since t -> carried_out (c :: since) t'.
Proof.
  unfold carried_out. intros Hc Ep Es (a & b & -> & Ha & Hb). exists (c :: a), b. rewrite Ep.
  split_and!; [done | by constructor | by apply (signed_same b t)].
Qed.

Lemma stage_takes c since t t' : takes c t t' -> stage since t -> stage (c :: since) t'.
Proof.
  intros (Ec & Hp & H1 & H2 & Ep & _ & Hs) Hst. unfold stage in *.
  destruct c as [created|r| |id session|id session|id|id success err|id|id success err|id|id success err]; cbn in *;
    try (by apply not_elem_of_nil in H1); apply list_elem_of_singleton in H2; rewrite H2; try done;
    repeat (apply elem_of_cons in H1 as [H1|H1]; [rewrite H1 in Hst|]); try (by apply not_elem_of_nil in H1);
    try (destruct success; by apply (carried_on _ _ t)); try by apply (carried_on _ _ t).
  - destruct Hs as [-> Hs]. exists [], since. rewrite Ec, Ep. by split_and!.
  - exists [], since. rewrite Ec, Ep. split_and!; [done | done | by apply (signed_same since t)].
Qed.

Lemma life_idle c h t : idle c -> life h t -> life (c :: h) t.
Proof.
  intros Hc (req & since & rest & -> & Hr & Hv & Hs). exists req, (c :: since), rest.
  split_and!; try done. by apply stage_idle.
Qed.

(** A plan that takes a transition has been made. *)
Lemma takes_from c h s t' : plan_ok h s -> takes c (s_status s) t' -> life h (s_status s).
Proof. intros [Hz|[_ ?]] (_ & Hp & _); [by rewrite Hz in Hp | done]. Qed.

Lemma history_plan h s : display_history h s -> plan_ok h s.
Proof.
  induction 1 as [|h c env s _ IH]; [by left|]. pose proof (exec_does c env s) as Hd. unfold wp, does in Hd.
  destruct (display_exec c env s) as [r s']. cbn [fst snd] in Hd |- *. case_if; [|by subst s'].
  assert (Hlife : forall t', takes c (s_status s) t' -> life h (s_status s) -> life (c :: h) t').
  { intros t' Ht (req & since & rest & -> & <- & Hv & Hs). exists (request (s_status s)), (c :: since), rest.
    split_and!; [done | apply Ht | done | by apply (stage_takes c since (s_status s))]. }
  destruct IH as [Hz|[Hl IH]].
  - destruct c; cbn [plan_step] in Hd; rewrite ?Hz in Hd;
      try (destruct Hd as (_ & _ & (_ & Hp & _)); done); try (subst s'; by left).
    + left. destruct Hd as [Hd _]. by destruct (s_lock s).
    + right. destruct Hd as (Hl & _ & _ & Hs & Hp & req & -> & Hr & Hv). split; [done|]. exists req, [], h.
      split_and!; try done. unfold stage. by rewrite Hs.
  - right. destruct c; cbn [plan_step] in Hd; try (destruct Hd as (Hl' & _ & Ht); split; [done | by apply Hlife]).
    + destruct Hd as [Hd ->]. rewrite Hd, Hl. split; [done|]. by apply life_idle.
    + destruct Hd as (Hl' & _ & _ & Hs & _ & req & -> & Hr & Hv). split; [done|]. exists req, [], h.
      split_and!; try done. unfold stage. by rewrite Hs.
    + subst s'. split; [done | by apply life_idle].
Qed.

(** C9: the display of the host is changed only as it was approved, and once.  When a
    change may begin, the last request was a valid one and is the one that the plan
    still holds, a session approved the plan of this name after it, and since the
    request no other call than these two succeeded but readings, so that no approval
    serves twice; a rollback may begin only for a plan that was approved and begun in
    this way, with no second change since; and a call that does not begin changes
    nothing. *)
Theorem display_changes_as_approved h s id env :
  display_history h s ->
  (let '(r, s') := display_exec (DisplayBeginApply id) env s in
   r.1 = ESP_OK /\ state (s_status s') = SI_HOST_DISPLAY_STATE_APPLYING /\
     (exists a b rest, h = a ++ DisplayApprove id (Some (approved_by_session (s_status s'))) :: b ++
                             DisplayCreate (Some (request (s_status s'))) :: rest /\ Forall idle a /\ Forall idle b) /\
     approved_by_session (s_status s') <> [] /\
     si_host_display_validate_request (Some (request (s_status s'))) = SI_HOST_DISPLAY_OK \/
   r.1 <> ESP_OK /\ s' = s) /\
  (let '(r, s') := display_exec (DisplayBeginRollback id) env s in
   r.1 = ESP_OK /\ (exists a b c rest, h = a ++ DisplayBeginApply id :: b ++
       DisplayApprove id (Some (approved_by_session (s_status s'))) :: c ++ DisplayCreate (Some (request (s_status s'))) :: rest /\
       Forall no_change a /\ Forall idle b /\ Forall idle c) \/
   r.1 <> ESP_OK /\ s' = s).
Proof.
  intros Hh. apply history_plan in Hh. split.
  - pose proof (exec_does (DisplayBeginApply id) env s) as Hd. unfold wp, does in Hd.
    destruct (display_exec _ env s) as [r s']. cbn [fst snd] in Hd. case_if_in Hd; decided; [left | by right].
    destruct Hd as (_ & _ & Ht). destruct (takes_from _ _ _ _ Hh Ht) as (req & since & rest & -> & Hr & Hv & Hs).
    destruct Ht as (Ei & _ & H1 & H2 & Ep & Er & Es). apply list_elem_of_singleton in H1, H2. cbn [signs call_plan] in Es, Ei. subst id.
    unfold stage in Hs. rewrite H1 in Hs. destruct Hs as (a & b & -> & Ha & Hb & Hne). rewrite Es, Er, Hr.
    split_and!; try done. exists a, b, rest. rewrite <- app_assoc. by split_and!.
  - pose proof (exec_does (DisplayBeginRollback id) env s) as Hd. unfold wp, does in Hd.
    destruct (display_exec _ env s) as [r s']. cbn [fst snd] in Hd. case_if_in Hd; decided; [left | by right]. split; [done|].
    destruct Hd as (_ & _ & Ht). destruct (takes_from _ _ _ _ Hh Ht) as (req & since & rest & -> & Hr & Hv & Hs).
    destruct Ht as (Ei & _ & H1 & H2 & Ep & Er & Es). cbn [signs call_plan] in Es, Ei. subst id. rewrite Es, Er, Hr.
    assert (Hc : carried_out since (s_status s)) by (unfold stage in Hs; cbn in H1; repeat
      (apply elem_of_cons in H1 as [H1|H1]; [by rewrite H1 in Hs|]); by apply not_elem_of_nil in H1).
    destruct Hc as (a & b & -> & Ha & c & d & -> & Hc & Hd & _). exists a, c, d, rest.
    rewrite <- !app_assoc. cbn [app]. rewrite <- !app_assoc. by split_and!.
Qed.

(** ** Witnesses *)

Fixpoint display_run (cs : list (display_call * display_env)) (h : list display_call) (s : display_plan)
  : list display_call * display_plan :=
  match cs with
  | [] => (h, s)
  | (c, env) :: cs =>
      display_run cs (if bool_decide ((display_exec c env s).1.1 = ESP_OK) then c :: h else h) (display_exec c env s).2
  end.

Lemma run_history cs h s : display_history h s -> display_history (display_run cs h s).1 (display_run cs h s).2.
Proof. revert h s. induction cs as [|[c env] cs IH]; intros h s Hh; [done|]. cbn [display_run]. by apply IH, history_step. Qed.

Definition demo_display_env : display_env := mk_display_env true 5000 true.
Definition demo_display_request : si_host_display_request_t := mk_display_request (cstr "HDMI-1") 1920 1080 60000 true.
Definition demo_plan_id : cstring := cstr "hd-00001388-0001".
Definition demo_browser : cstring := cstr "browser-7".

(** The device starts, a plan is made and approved; a second approval fails. *)
Definition demo_display : list display_call * display_plan :=
  display_run (map (fun c => (c, demo_display_env))
    [DisplayStart true; DisplayCreate (Some demo_display_request); DisplayGet;
     DisplayApprove (Some demo_plan_id) (Some demo_browser);
     DisplayApprove (Some demo_plan_id) (Some (cstr "another"))]) [] display_reset.

Lemma display_changes_as_approved_witness :
  display_history demo_display.1 demo_display.2 /\
  let '(r, s') := display_exec (DisplayBeginApply (Some demo_plan_id)) demo_display_env demo_display.2 in
  r.1 = ESP_OK /\ state (s_status s') = SI_HOST_DISPLAY_STATE_APPLYING /\
  request (s_status s') = demo_display_request /\ approved_by_session (s_status s') = demo_browser /\
  exists a b rest, demo_display.1 = a ++ DisplayApprove (Some demo_plan_id) (Some (approved_by_session (s_status s'))) :: b ++
                             DisplayCreate (Some (request (s_status s'))) :: rest /\ Forall idle a /\ Forall idle b.
Proof.
  assert (Hh : display_history demo_display.1 demo_display.2) by (apply run_history, history_reset).
  split; [exact Hh|].
  pose proof (display_changes_as_approved demo_display.1 demo_display.2 (Some demo_plan_id) demo_display_env Hh) as [H _].
  assert (E : (display_exec (DisplayBeginApply (Some demo_plan_id)) demo_display_env demo_display.2).1.1 = ESP_OK) by by_eval.
  assert (E1 : request (s_status (display_exec (DisplayBeginApply (Some demo_plan_id)) demo_display_env demo_display.2).2)
               = demo_display_request) by by_eval.
  assert (E2 : approved_by_session (s_status (display_exec (DisplayBeginApply (Some demo_plan_id)) demo_display_env demo_display.2).2)
               = demo_browser) by by_eval.
  destruct (display_exec (DisplayBeginApply (Some demo_plan_id)) demo_display_env demo_display.2) as [r s'].
  destruct H as [(H1 & H2 & H3 & _)|[H1 _]]; [|destruct (H1 E)].
  exact (conj H1 (conj H2 (conj E1 (conj E2 H3)))).
Defined.
